(* ===== verification/_CoqProject ===== *)
-Q . S2P
Prelude.v
ChunkBuffer.v
LinkedList.v
Pending.v
Bavl.v
Trees.v
Reactor.v
Tables.v
ByteOrder.v
NetProto.v
Addr.v
Pbuf.v
TunDevice.v
TcpClient.v
FlowInterfaces.v
Connection.v
ConnectionProofs.v
ConnectionSystem.v
PacketProto.v
PacketFlow.v
FairQueue.v
SocksClient.v
SocksUdpGw.v
UdpGwClient.v
RedRelay.v
RedSplice.v
Base64.v
Md5.v
HttpAuth.v
HttpConnect.v
HttpRelay.v
RedParser.v
RedProxy.v
RedAccept.v
IpText.v
Ip6Text.v
Options.v
Startup.v
