(* ===== verification/Prelude.v ===== *)
(** * Verification of the native VPN core

    The application runs two native programs of src/vpncore/src/main/jni:
    tun2socks (badvpn), which terminates the TCP and UDP traffic of the tun
    device and forwards it to a SOCKS server, and redsocks, which relays
    redirected TCP connections through a proxy. The development models the
    parts of badvpn that tun2socks is built from, and of redsocks the relaying,
    the SOCKS proxies and the accepting of clients, in the build
    Android.mk selects (little endian, 64-bit [size_t], the [ASSERT]s written
    in the code as obligations).

    ** How C code is modelled

    - A C function that can fault is a function into [outcome]: [Fault] is a
      false [ASSERT], a null dereference or an access outside of an object.
      The theorems show that it does not occur.
    - Integers are [Z] with the wrap-around of their type ([u8] to [u64],
      [to_int]) written where the code can rely on it; memory is a list of
      bytes accessed by offset ([mem_read], [mem_write]); linked structures
      live on heaps ([gmap loc _]).
    - badvpn is written in callbacks. A handler is a function from the state of
      its object to the new state and the list of calls it makes on other
      objects, in order; drivers ([run], [drive], [react]) connect the calls to
      an environment that may choose everything the contract leaves open: how
      a stream is cut, when an output finishes, in which order events come.

    ** Files

    - [Prelude]: outcomes and their monad, machine integers, bytes and memory,
      the tactics and hint databases used throughout.
    - [ChunkBuffer]: structure/ChunkBuffer2.h, the ring of variable sized
      packets in an array of blocks. The buffer is a FIFO queue and the input
      side has room as long as the number of packets it was sized for is not
      reached.
    - [LinkedList] (structure/LinkedList1.h) and [Pending] (base/BPending.c
      with the intrusive list of structure/SLinkedList_impl.h): heap structures
      refined to lists and to a stack of jobs.
    - [ByteOrder] (misc/byteorder.h, misc/read_write_int.h) and [NetProto]
      (misc/ipv4_proto.h, misc/ipv6_proto.h, misc/udp_proto.h): accessors,
      header validation, one's complement checksums against RFC definitions.
    - [FlowInterfaces]: the four interfaces of flow/ by which components pass
      packets and streams (PacketPassInterface, PacketRecvInterface,
      StreamPassInterface, StreamRecvInterface) as state machines on a job
      group; every run that keeps to the contract is free of faults and
      completes each operation once.
    - [PacketProto]: flow/PacketProtoEncoder.c, flow/PacketStreamSender.c and
      flow/PacketProtoDecoder.c; framing round-trips over every fragmentation.
    - [PacketFlow]: flow/PacketBuffer.c (on [ChunkBuffer]),
      flow/SinglePacketBuffer.c, flow/BufferWriter.c and
      flow/PacketPassConnector.c; order, no loss, no deadlock.
    - [FairQueue]: flow/PacketPassFairQueue.c; invariant under all events and
      exactness of the 64-bit virtual time. The AVL tree of waiting flows is
      represented by the list of its nodes in order.
    - [SocksClient]: misc/bsize.h and socksclient/BSocksClient.c; the
      negotiation refines a specification of SOCKS5 CONNECT. [realloc] is a
      parameter whose success is a named hypothesis, instantiated in the
      witness.
    - [Bavl]: structure/BAVL.h, AVL trees with parent pointers on a heap,
      refined to sorted lists, with the balance that makes lookups
      logarithmic; [Trees]: the class of tree operations that the UDP client is
      proved against, with the AVL tree as its instance.
      [Tables]: objects in memory that are also kept in such a tree.
    - [Reactor]: the event loop, system/BReactor_badvpn.c with epoll, and the
      saturating addition of system/BTime.h. The rounds of a run say what the
      clock and epoll return and which functions the handlers call; within the
      contracts of the functions, with a monotonic clock and waits that fail only
      with EINTR, every run is free of faults, handlers are called in the
      documented order, and a timer fires at most once and never early. The
      assertions on epoll_ctl and epoll_wait are part of the model.
    - [Connection]: stream sockets, system/BConnection_unix.c: listeners,
      connectors and connections on the event loop and the stream interfaces,
      and the contract of BConnection.h as a specification of what may be seen.
      [ConnectionProofs]: what an object sees of the event loop, and the
      invariant of each kind of object; [ConnectionSystem]: every run of the
      system refines the specification, descriptors are neither leaked nor
      closed twice, and nothing in progress is forgotten. The results of system
      calls are arbitrary within what is documented of them.
    - [Addr]: system/BAddr.h, addresses with their order, printing and parsing
      ([getaddrinfo] is a parameter).
    - [IpText] (misc/memref.h, misc/parse_number.h, misc/ipaddr.h) and
      [Ip6Text] (misc/ipaddr6.h): numbers and addresses as text. The parsers
      accept exactly the texts of a grammar, with the value they denote, and
      what is printed fits in its buffer and is read back.
    - [Options]: [parse_arguments] of tun2socks/tun2socks.c and the levels and
      channels of the log; equivalent to a grammar of options with their
      meaning. [Startup]: tun2socks from start to end: [process_arguments] with
      misc/read_file.h, [wait_for_fd], [main] with its labels, the job that
      starts lwip, the timer and the handlers that end the program. What [main]
      holds is a stack of resources; [main_settles] says what becomes of the
      program for all answers of the system, which are a record, and all
      sequences of events; the descriptor variable that is not initialised has
      any value.
    - [Pbuf]: the two copy routines of lwip's packet buffers that tun2socks
      relies on (lwip/src/core/pbuf.c).
    - [TunDevice]: the packets of the tun device in tun2socks/tun2socks.c: which
      are UDP datagrams for the relay ([process_device_udp_packet]), which go to
      lwip ([device_read_handler_send]), how answers
      ([udpgw_client_handler_received]) and lwip's output
      ([common_netif_output]) are written.
    - [TcpClient]: the TCP clients of tun2socks/tun2socks.c with misc/dead.h: all
      callbacks of lwip and of the SOCKS client over a world of clients and the
      global socks_auth_info they share. Every run is free of use after free and of
      failed assertions, but for the shared username that a freed client left
      there ([tcp_clients_safe]); bytes are passed
      on completely and in order in both directions, no client gets stuck, and
      callbacks report aborts to lwip as its API demands. The results of lwip
      calls come from an oracle.
    - [SocksUdpGw]: protocol/udpgw_proto.h and tun2socks/SocksUdpGwClient.c as
      built with __ANDROID__; the table of connections refines a bounded
      least-recently-used table with a stack of jobs that send first packets,
      requests and answers have the format of RFC 1928, and a datagram is followed
      from the device to the relay and back. The faults are part of the
      refinement: a request that does not fit in the connection's buffer
      ([udp_request_exact]), and the job of a connection that was freed, which the
      order of the reactor excludes ([prompt]). What is received is cut off at the
      UDP MTU.
    - [UdpGwClient]: udpgw_client/UdpGwClient.c (connections with identifiers
      over one stream, in two search trees), tun2socks/SocksUdpGwClient.c as
      built without __ANDROID__ (reconnection around that client) and
      flowextra/PacketPassInactivityMonitor.c. Every run of the client is one
      of a specification with a table of connections; the search for an unused
      identifier ends by the pigeonhole principle.
    - [RedRelay]: the relaying of redsocks/redsocks.c over libevent's buffered
      events, with backpressure, half closed connections and the freeing of the
      client; what libevent calls back with is given by the events of the
      model. [RedSplice]: the relaying over pipes, used with splice, spurious
      wake-ups included. The theorems of both name the cases in which the code
      loses data at the start or waits for ever. [RedProxy]: redsocks/socks5.c and redsocks/socks4.c on the helpers
      of redsocks.c; a class states what a protocol promises, and every run of a
      protocol that keeps it ends as specified for the bytes that arrived.
      [RedAccept]: the counting of clients, the dropping of idle ones and the
      backing off from accepting in redsocks.c. [Base64]: redsocks/base64.c
      against RFC 4648. [Md5]: redsocks/md5.c against RFC 1321.
      [HttpAuth]: the credentials of redsocks/http-auth.c, with Digest (algorithm
      MD5) against RFC 2617. [HttpConnect]: redsocks/http-connect.c; what becomes of a
      request follows from the bytes of the proxy's reply, its fragmentation (for
      a challenge) and the state that all clients of the instance share.
      [HttpRelay]: redsocks/http-relay.c; the
      request that is sent is the client's one rewritten, whatever the
      fragmentation, and the faults of the code are exactly three.
      [RedParser]: redsocks/parser.c; reading line by line into a growing
      buffer is equivalent to reading the tokens of all complete lines at once,
      and printed configurations are read back.

    ** Bounds and fuel

    Loops whose length is not structural take fuel, and the theorems state
    that it suffices: three rounds fold a 32-bit one's complement sum
    ([fold_fuel]), a stream sender needs at most one request per byte, a
    decoder or negotiation at most one step per byte received plus a constant,
    the base64 encoder writes at most three characters for a byte and three for
    the padding.
    Sizes are bounded only where the C type bounds them ([INT_MAX],
    [UINT16_MAX]).

    ** Not modelled

    System calls (they appear by their results), the reading of the tun device,
    datagram sockets, logging, the lwip stack,
    libevent and libancillary, the badvpn programs Android.mk does not build, the
    parts of redsocks not named above (UDP, start and logging),
    and debug-only bookkeeping (DebugObject, DebugCounter). Third-party code
    and the system appear as the events they produce or as parameters. *)
From Stdlib Require Import ZArith Lia.
From stdpp Require Import base tactics numbers option gmap list.

#[global] Open Scope Z_scope.

(** ** Outcomes of C code

    [Fault] is the outcome of a C statement whose [ASSERT] does not hold or
    that would access memory outside of its object. *)
Inductive outcome (A : Type) : Type :=
| Ok (a : A)
| Fault.
Arguments Ok {A} a.
Arguments Fault {A}.

#[global] Instance outcome_ret : MRet outcome := fun A a => Ok a.
#[global] Instance outcome_bind : MBind outcome := fun A B f m =>
  match m with Ok a => f a | Fault => Fault end.

(** [ASSERT(e)] of misc/debug.h. *)
Definition ASSERT (b : bool) : outcome unit := if b then Ok tt else Fault.

(** An outcome that is not a fault. *)
Definition is_Ok {A} (m : outcome A) : Prop := exists a, m = Ok a.

Definition of_option {A} (o : option A) : outcome A :=
  match o with Some a => Ok a | None => Fault end.

Lemma bind_Ok {A B} (m : outcome A) (f : A -> outcome B) b :
  (m ≫= f) = Ok b <-> exists a, m = Ok a /\ f a = Ok b.
Proof. destruct m; cbn; naive_solver. Qed.

Lemma ASSERT_Ok b u : ASSERT b = Ok u <-> b = true.
Proof. destruct b, u; cbn; naive_solver. Qed.

Lemma bind_ASSERT_true {B} b (k : outcome B) :
  b = true -> (ASSERT b ≫= fun _ => k) = k.
Proof. by intros ->. Qed.

(** ** Machine integers *)
Definition INT_MAX : Z := 2 ^ 31 - 1.
Definition UINT16_MAX : Z := 2 ^ 16 - 1.
Definition UINT32_MAX : Z := 2 ^ 32 - 1.
Definition UINT64_MAX : Z := 2 ^ 64 - 1.
Definition SIZE_MAX : Z := 2 ^ 64 - 1.

(** Conversions to the unsigned types of width 8, 16, 32 and 64, and to [int]. *)
Definition u8 (x : Z) : Z := x mod 2 ^ 8.
Definition u16 (x : Z) : Z := x mod 2 ^ 16.
Definition u32 (x : Z) : Z := x mod 2 ^ 32.
Definition u64 (x : Z) : Z := x mod 2 ^ 64.
Definition to_int (x : Z) : Z := (x + 2 ^ 31) mod 2 ^ 32 - 2 ^ 31.

Lemma to_int_small x : - 2 ^ 31 <= x < 2 ^ 31 -> to_int x = x.
Proof. intros. unfold to_int. rewrite Z.mod_small; lia. Qed.
Lemma u8_small x : 0 <= x < 2 ^ 8 -> u8 x = x.
Proof. intros. by apply Z.mod_small. Qed.
Lemma u16_small x : 0 <= x < 2 ^ 16 -> u16 x = x.
Proof. intros. by apply Z.mod_small. Qed.
Lemma u32_small x : 0 <= x < 2 ^ 32 -> u32 x = x.
Proof. intros. by apply Z.mod_small. Qed.
Lemma u64_small x : 0 <= x < 2 ^ 64 -> u64 x = x.
Proof. intros. by apply Z.mod_small. Qed.
Lemma u16_range x : 0 <= u16 x < 2 ^ 16.
Proof. apply Z.mod_pos_bound. lia. Qed.
Lemma u32_range x : 0 <= u32 x < 2 ^ 32.
Proof. apply Z.mod_pos_bound. lia. Qed.
Lemma u8_range x : 0 <= u8 x < 2 ^ 8.
Proof. apply Z.mod_pos_bound. lia. Qed.

(** ** Bytes *)
Definition is_byte (b : Z) : Prop := 0 <= b < 256.
Abbreviation bytes := (Forall is_byte).

(** Length of a list as an integer. *)
Abbreviation Zlen l := (Z.of_nat (length l)).

(** Induction by two elements. *)
Lemma list_ind2 {A} (P : list A -> Prop) :
  P [] -> (forall a, P [a]) -> (forall a b l, P l -> P (a :: b :: l)) -> forall l, P l.
Proof.
  intros H0 H1 H2. fix IH 1. intros [|a [|b l]]; [done|done|]. apply H2, IH.
Qed.

(** Little-endian and big-endian readings of byte strings, and the
    little-endian bytes of an integer (the byte order of the modelled
    targets, [BADVPN_LITTLE_ENDIAN] of Android.mk). *)
Fixpoint le_val (l : list Z) : Z :=
  match l with [] => 0 | b :: l' => b + 256 * le_val l' end.

Fixpoint le_bytes (n : nat) (x : Z) : list Z :=
  match n with O => [] | S n' => x mod 256 :: le_bytes n' (x / 256) end.

Fixpoint be_val_acc (acc : Z) (l : list Z) : Z :=
  match l with [] => acc | b :: l' => be_val_acc (256 * acc + b) l' end.
Definition be_val (l : list Z) : Z := be_val_acc 0 l.

Lemma length_le_bytes n x : length (le_bytes n x) = n.
Proof. revert x; induction n; cbn; intros; [done|]. by rewrite IHn. Qed.

Lemma le_bytes_bytes n x : bytes (le_bytes n x).
Proof.
  revert x; induction n; cbn; intros; constructor; [|done].
  unfold is_byte. apply Z.mod_pos_bound. lia.
Qed.

Lemma le_val_le_bytes n x : le_val (le_bytes n x) = x mod 256 ^ Z.of_nat n.
Proof.
  revert x; induction n as [|n IH]; intros x; [by rewrite Z.mod_1_r|].
  cbn [le_bytes le_val]. rewrite IH.
  rewrite Nat2Z.inj_succ, Z.pow_succ_r by lia.
  rewrite (Z.rem_mul_r x 256) by lia. lia.
Qed.

Lemma le_val_range l : bytes l -> 0 <= le_val l < 256 ^ Zlen l.
Proof.
  induction 1 as [|b l Hb _ IH]; cbn [le_val length]; [lia|].
  rewrite Nat2Z.inj_succ, Z.pow_succ_r by lia. unfold is_byte in Hb. lia.
Qed.

Lemma le_bytes_le_val l : bytes l -> le_bytes (length l) (le_val l) = l.
Proof.
  induction 1 as [|b l Hb _ IH]; cbn [le_val le_bytes length]; [done|].
  unfold is_byte in Hb. rewrite (Z.mul_comm 256), Z_mod_plus_full, Z.mod_small by lia.
  rewrite Z.div_add, Z.div_small, Z.add_0_l by lia. by rewrite IH.
Qed.

#[global] Arguments le_bytes : simpl never.
#[global] Arguments le_val : simpl never.

(** ** Memory of one object, as the list of its bytes *)

(** [n] bytes from offset [off]; total, [mem_read] is the checked access. *)
Definition slice (buf : list Z) (off n : Z) : list Z :=
  take (Z.to_nat n) (drop (Z.to_nat off) buf).

Definition in_range (buf : list Z) (off n : Z) : bool :=
  (0 <=? off) && (0 <=? n) && (off + n <=? Zlen buf).

Definition mem_read (buf : list Z) (off n : Z) : outcome (list Z) :=
  if in_range buf off n then Ok (slice buf off n) else Fault.

Definition splice (buf : list Z) (off : Z) (data : list Z) : list Z :=
  take (Z.to_nat off) buf ++ data ++ drop (Z.to_nat off + length data) buf.

(** [memcpy(buf + off, data, len)]. *)
Definition mem_write (buf : list Z) (off : Z) (data : list Z) : outcome (list Z) :=
  if in_range buf off (Zlen data) then Ok (splice buf off data) else Fault.

Lemma in_range_true buf off n :
  in_range buf off n = true <-> 0 <= off /\ 0 <= n /\ off + n <= Zlen buf.
Proof. unfold in_range. rewrite !andb_true_iff, !Z.leb_le. lia. Qed.

Lemma length_slice buf off n :
  0 <= off -> 0 <= n -> off + n <= Zlen buf -> Zlen (slice buf off n) = n.
Proof. intros. unfold slice. rewrite length_take, length_drop. lia. Qed.

Lemma length_splice buf off data :
  0 <= off -> off + Zlen data <= Zlen buf -> length (splice buf off data) = length buf.
Proof. intros. unfold splice. rewrite !length_app, length_take, length_drop. lia. Qed.

Lemma slice_splice_same buf off data :
  0 <= off -> off + Zlen data <= Zlen buf ->
  slice (splice buf off data) off (Zlen data) = data.
Proof.
  intros. unfold slice, splice. rewrite drop_app_ge by (rewrite length_take; lia).
  rewrite length_take, Nat.min_l, Nat.sub_diag by lia.
  by rewrite drop_0, Nat2Z.id, take_app_length.
Qed.

Lemma lookup_slice buf off n (i : nat) :
  0 <= off ->
  slice buf off n !! i = if decide (Z.of_nat i < n) then buf !! (Z.to_nat off + i)%nat else None.
Proof.
  intros. unfold slice. case_decide.
  - rewrite lookup_take_lt by lia. by rewrite lookup_drop.
  - by rewrite lookup_take_ge by lia.
Qed.

Lemma lookup_splice buf off data (i : nat) :
  0 <= off -> off + Zlen data <= Zlen buf ->
  splice buf off data !! i =
    if decide (off <= Z.of_nat i < off + Zlen data)
    then data !! (i - Z.to_nat off)%nat else buf !! i.
Proof.
  intros. unfold splice. case_decide.
  - rewrite lookup_app_r by (rewrite length_take; lia).
    rewrite length_take, Nat.min_l by lia. by rewrite lookup_app_l by lia.
  - destruct (decide (Z.of_nat i < off)).
    + rewrite lookup_app_l by (rewrite length_take; lia). by rewrite lookup_take_lt by lia.
    + rewrite lookup_app_r by (rewrite length_take; lia).
      rewrite length_take, Nat.min_l by lia.
      rewrite lookup_app_r by lia. rewrite lookup_drop. f_equal. lia.
Qed.

Lemma slice_splice_disjoint buf off data off' n :
  0 <= off -> off + Zlen data <= Zlen buf -> 0 <= off' ->
  off' + n <= off \/ off + Zlen data <= off' ->
  slice (splice buf off data) off' n = slice buf off' n.
Proof.
  intros. apply list_eq. intros i. rewrite !lookup_slice by lia.
  case_decide; [|done]. rewrite lookup_splice by lia. by case_decide; [lia|].
Qed.

Lemma slice_slice buf off n off' n' :
  0 <= off -> 0 <= off' -> 0 <= n' -> off' + n' <= n ->
  slice (slice buf off n) off' n' = slice buf (off + off') n'.
Proof.
  intros. apply list_eq. intros i. rewrite !lookup_slice by lia.
  case_decide; [|done]. case_decide; [|lia]. f_equal. lia.
Qed.

Lemma slice_app_split buf off n m :
  0 <= off -> 0 <= n -> 0 <= m ->
  slice buf off (n + m) = slice buf off n ++ slice buf (off + n) m.
Proof.
  intros. unfold slice.
  replace (Z.to_nat (n + m)) with (Z.to_nat n + Z.to_nat m)%nat by lia.
  rewrite <- take_take_drop, drop_drop. do 3 f_equal. lia.
Qed.

(** Writing next to what was written before. *)
Lemma splice_app buf off l1 l2 :
  0 <= off -> off + Zlen l1 + Zlen l2 <= Zlen buf ->
  splice (splice buf off l1) (off + Zlen l1) l2 = splice buf off (l1 ++ l2).
Proof.
  intros. apply list_eq. intros i.
  rewrite !lookup_splice; rewrite ?length_app, ?length_splice by lia; try lia.
  repeat case_decide; try lia; try done.
  - rewrite lookup_app_r by lia. f_equal. lia.
  - by rewrite lookup_app_l by lia.
Qed.
Lemma splice_app_front buf off l1 l2 :
  0 <= off -> off + Zlen l1 + Zlen l2 <= Zlen buf ->
  splice (splice buf (off + Zlen l1) l2) off l1 = splice buf off (l1 ++ l2).
Proof.
  intros. apply list_eq. intros i.
  rewrite !lookup_splice; rewrite ?length_app, ?length_splice by lia; try lia.
  repeat case_decide; try lia; try done.
  - by rewrite lookup_app_l by lia.
  - rewrite lookup_app_r by lia. f_equal. lia.
Qed.
Lemma splice_nil buf off : splice buf off [] = buf.
Proof. unfold splice. cbn. rewrite Nat.add_0_r. apply take_drop. Qed.

Lemma mem_write_Ok buf off data buf' :
  mem_write buf off data = Ok buf' <->
  (0 <= off /\ off + Zlen data <= Zlen buf) /\ buf' = splice buf off data.
Proof.
  unfold mem_write. destruct (in_range _ _ _) eqn:E.
  - apply in_range_true in E. naive_solver lia.
  - split; [done|]. intros [? ->]. rewrite (proj2 (in_range_true _ _ _)) in E; [done|lia].
Qed.

Lemma mem_read_Ok buf off n d :
  mem_read buf off n = Ok d <->
  (0 <= off /\ 0 <= n /\ off + n <= Zlen buf) /\ d = slice buf off n.
Proof.
  unfold mem_read. destruct (in_range _ _ _) eqn:E.
  - apply in_range_true in E. naive_solver lia.
  - split; [done|]. intros [? ->]. rewrite (proj2 (in_range_true _ _ _)) in E; [done|lia].
Qed.

(** ** Automation *)

(** Unfolds boolean tests of the code in hypotheses and goal. *)
Ltac zify_bool :=
  repeat match goal with
  | H : _ && _ = true |- _ => apply andb_true_iff in H as [? ?]
  | H : _ || _ = false |- _ => apply orb_false_iff in H as [? ?]
  | H : negb _ = true |- _ => apply negb_true_iff in H
  | H : negb _ = false |- _ => apply negb_false_iff in H
  | H : (_ =? _) = true |- _ => apply Z.eqb_eq in H
  | H : (_ =? _) = false |- _ => apply Z.eqb_neq in H
  | H : (_ <? _) = true |- _ => apply Z.ltb_lt in H
  | H : (_ <? _) = false |- _ => apply Z.ltb_ge in H
  | H : (_ <=? _) = true |- _ => apply Z.leb_le in H
  | H : (_ <=? _) = false |- _ => apply Z.leb_gt in H
  | H : bool_decide _ = true |- _ => apply bool_decide_eq_true in H
  | H : bool_decide _ = false |- _ => apply bool_decide_eq_false in H
  end.

(** Case split on the tests of the goal, outermost first. *)
Ltac case_if :=
  match goal with
  | |- context [if ?b then _ else _] =>
      lazymatch b with
      | context [if _ then _ else _] => fail
      | _ => let E := fresh "E" in destruct b eqn:E; zify_bool
      end
  end.

(** Inverts [m = Ok _] hypotheses through binds and assertions. *)
Ltac inv_ok :=
  repeat match goal with
  | H : (_ ≫= _) = Ok _ |- _ => apply bind_Ok in H as (? & ? & H)
  | H : ASSERT _ = Ok _ |- _ => apply ASSERT_Ok in H
  | H : Ok _ = Ok _ |- _ => injection H as H; subst
  | H : Fault = Ok _ |- _ => discriminate H
  | H : mret _ = Ok _ |- _ => injection H as H; subst
  | u : unit |- _ => destruct u
  end; zify_bool.

(** Discharges the assertions at the head of a goal, leaving their
    conditions to [lia]. *)
Ltac assert_step tac :=
  rewrite bind_ASSERT_true by tac.

Create HintDb vpn.
#[export] Hint Resolve le_bytes_bytes : vpn.
#[export] Hint Rewrite length_le_bytes : vpn.
