(* ===== verification/ChunkBuffer.v ===== *)
(** * Circular packet buffer (badvpn/structure/ChunkBuffer2.h)

    [ChunkBuffer2] stores packets in an array of 4-byte blocks: a header
    block with the length, then the data rounded up to whole blocks. A packet
    is never split around the end of the array: when a packet of MTU size does
    not fit any more, [wrap] is moved down to the end of the data.

    The struct is modelled with the bytes of its array; [input_dest] and
    [output_dest] are byte offsets into it, [None] for [NULL]. The file proves
    that the buffer implements a FIFO queue of packets. *)
From Stdlib Require Import ZArith Lia.
From stdpp Require Import base tactics numbers option gmap list.
From S2P Require Import Prelude.

(** [bdivide_up] of misc/balign.h. *)
Definition bdivide_up (a b : Z) : Z :=
  let r := a mod b in
  if 0 <? r then a / b + 1 else a / b.

(** [sizeof(struct ChunkBuffer2_block)]. *)
Definition ChunkBuffer2_block_size : Z := 4.

(** The blocks taken by [len] bytes; the [int] is converted to [size_t] and
    the quotient back to [int]. *)
Definition blocks_of (len : Z) : Z :=
  to_int (bdivide_up (u64 len) ChunkBuffer2_block_size).

Record ChunkBuffer2 := {
  buffer : list Z;
  size : Z;
  wrap : Z;
  start : Z;
  used : Z;
  mtu : Z;
  input_dest : option Z;
  input_avail : Z;
  output_dest : option Z;
  output_avail : Z
}.

(** [buffer[i].len], read and written as a 4-byte little-endian [int]. *)
Definition load_len (b : list Z) (i : Z) : outcome Z :=
  mem_read b (ChunkBuffer2_block_size * i) 4 ≫= fun d => Ok (to_int (le_val d)).

Definition store_len (b : list Z) (i : Z) (len : Z) : outcome (list Z) :=
  mem_write b (ChunkBuffer2_block_size * i) (le_bytes 4 (u32 len)).

Definition ChunkBuffer2_calc_blocks (chunk_len num : Z) : Z :=
  let chunk_data_blocks := blocks_of chunk_len in
  if INT_MAX - 1 <? chunk_data_blocks then -1 else
  let chunk_blocks := 1 + chunk_data_blocks in
  if INT_MAX - 1 <? num then -1 else
  let num_chunks := num + 1 in
  if INT_MAX / num_chunks <? chunk_blocks then -1 else
  chunk_blocks * num_chunks.

Definition _ChunkBuffer2_end (b : ChunkBuffer2) : Z :=
  if wrap b - start b <=? used b
  then used b - (wrap b - start b)
  else start b + used b.

Definition _ChunkBuffer2_assert_buffer (b : ChunkBuffer2) : outcome unit :=
  ASSERT (0 <? size b);;
  ASSERT (0 <? wrap b);;
  ASSERT (wrap b <=? size b);;
  ASSERT (0 <=? start b);;
  ASSERT (start b <? wrap b);;
  ASSERT (0 <=? used b);;
  ASSERT (used b <=? wrap b);;
  ASSERT ((wrap b =? size b) || (wrap b - start b <=? used b));;
  ASSERT (0 <=? mtu b).

(** The number of free blocks after [end]. *)
Definition free_blocks (b : ChunkBuffer2) : Z :=
  if wrap b - start b <=? used b
  then start b - _ChunkBuffer2_end b
  else size b - _ChunkBuffer2_end b.

Definition input_is (b : ChunkBuffer2) (dest : option Z) (avail : Z) : bool :=
  bool_decide (input_dest b = dest) && (input_avail b =? avail).

Definition output_is (b : ChunkBuffer2) (dest : option Z) (avail : Z) : bool :=
  bool_decide (output_dest b = dest) && (output_avail b =? avail).

(** [(free - 1) * sizeof(struct ChunkBuffer2_block)], a [size_t] product
    stored into an [int]. *)
Definition avail_bytes (free : Z) : Z :=
  to_int (u64 (u64 (free - 1) * ChunkBuffer2_block_size)).

Definition _ChunkBuffer2_assert_io (b : ChunkBuffer2) : outcome unit :=
  let end_ := _ChunkBuffer2_end b in
  (if size b - end_ - 1 <? mtu b
   then ASSERT (input_is b None (-1))
   else let free := free_blocks b in
        if 0 <? free
        then ASSERT (input_is b (Some (ChunkBuffer2_block_size * (end_ + 1))) (avail_bytes free))
        else ASSERT (input_is b None (-1)));;
  if 0 <? used b then
    load_len (buffer b) (start b) ≫= fun datalen =>
    ASSERT (0 <=? datalen);;
    let blocklen := blocks_of datalen in
    ASSERT (blocklen <=? used b - 1);;
    ASSERT (blocklen <=? wrap b - start b - 1);;
    ASSERT (output_is b (Some (ChunkBuffer2_block_size * (start b + 1))) datalen)
  else ASSERT (output_is b None (-1)).

Definition set_input (dest : option Z) (avail : Z) (b : ChunkBuffer2) : ChunkBuffer2 :=
  {| buffer := buffer b; size := size b; wrap := wrap b; start := start b;
     used := used b; mtu := mtu b; input_dest := dest; input_avail := avail;
     output_dest := output_dest b; output_avail := output_avail b |}.

Definition set_output (dest : option Z) (avail : Z) (b : ChunkBuffer2) : ChunkBuffer2 :=
  {| buffer := buffer b; size := size b; wrap := wrap b; start := start b;
     used := used b; mtu := mtu b; input_dest := input_dest b;
     input_avail := input_avail b; output_dest := dest; output_avail := avail |}.

Definition set_ring (bytes : list Z) (w s u : Z) (b : ChunkBuffer2) : ChunkBuffer2 :=
  {| buffer := bytes; size := size b; wrap := w; start := s; used := u;
     mtu := mtu b; input_dest := input_dest b; input_avail := input_avail b;
     output_dest := output_dest b; output_avail := output_avail b |}.

Definition _ChunkBuffer2_update_input (b : ChunkBuffer2) : ChunkBuffer2 :=
  let end_ := _ChunkBuffer2_end b in
  if size b - end_ - 1 <? mtu b then set_input None (-1) b else
  let free := free_blocks b in
  if 0 <? free
  then set_input (Some (ChunkBuffer2_block_size * (end_ + 1))) (avail_bytes free) b
  else set_input None (-1) b.

Definition _ChunkBuffer2_update_output (b : ChunkBuffer2) : outcome ChunkBuffer2 :=
  if 0 <? used b then
    load_len (buffer b) (start b) ≫= fun datalen =>
    ASSERT (0 <=? datalen);;
    let blocklen := blocks_of datalen in
    ASSERT (blocklen <=? used b - 1);;
    ASSERT (blocklen <=? wrap b - start b - 1);;
    Ok (set_output (Some (ChunkBuffer2_block_size * (start b + 1))) datalen b)
  else Ok (set_output None (-1) b).

Definition ChunkBuffer2_Init (mem : list Z) (blocks mtu_ : Z) : outcome ChunkBuffer2 :=
  ASSERT (0 <? blocks);;
  ASSERT (0 <=? mtu_);;
  let b := {| buffer := mem; size := blocks; wrap := blocks; start := 0; used := 0;
              mtu := blocks_of mtu_; input_dest := None; input_avail := -1;
              output_dest := None; output_avail := -1 |} in
  _ChunkBuffer2_assert_buffer b;;
  let b := _ChunkBuffer2_update_input b in
  _ChunkBuffer2_update_output b ≫= fun b =>
  _ChunkBuffer2_assert_io b;;
  Ok b.

Definition ChunkBuffer2_SubmitPacket (b : ChunkBuffer2) (len : Z) : outcome ChunkBuffer2 :=
  ASSERT (bool_decide (is_Some (input_dest b)));;
  ASSERT (0 <=? len);;
  ASSERT (len <=? input_avail b);;
  _ChunkBuffer2_assert_buffer b;;
  _ChunkBuffer2_assert_io b;;
  let end_ := _ChunkBuffer2_end b in
  let blocklen := blocks_of len in
  ASSERT (blocklen <=? size b - end_ - 1);;
  ASSERT ((used b <? wrap b - start b) || (blocklen <=? start b - end_ - 1));;
  store_len (buffer b) end_ len ≫= fun mem =>
  let used' := used b + (1 + blocklen) in
  let wrap' :=
    if (used' <=? wrap b - start b) && (size b - (end_ + 1 + blocklen) - 1 <? mtu b)
    then end_ + 1 + blocklen else wrap b in
  let b := set_ring mem wrap' (start b) used' b in
  _ChunkBuffer2_assert_buffer b;;
  let b := _ChunkBuffer2_update_input b in
  (if used b =? 1 + blocklen then _ChunkBuffer2_update_output b else Ok b) ≫= fun b =>
  _ChunkBuffer2_assert_io b;;
  Ok b.

Definition ChunkBuffer2_ConsumePacket (b : ChunkBuffer2) : outcome ChunkBuffer2 :=
  ASSERT (bool_decide (is_Some (output_dest b)));;
  _ChunkBuffer2_assert_buffer b;;
  _ChunkBuffer2_assert_io b;;
  ASSERT (1 <=? wrap b - start b);;
  ASSERT (1 <=? used b);;
  load_len (buffer b) (start b) ≫= fun len =>
  let blocklen := blocks_of len in
  ASSERT (blocklen <=? wrap b - start b - 1);;
  ASSERT (blocklen <=? used b - 1);;
  let data_wrapped := wrap b - start b <=? used b in
  let start' := start b + (1 + blocklen) in
  let used' := used b - (1 + blocklen) in
  let b := if start' =? wrap b
           then set_ring (buffer b) (size b) 0 used' b
           else set_ring (buffer b) (wrap b) start' used' b in
  _ChunkBuffer2_assert_buffer b;;
  let b := if data_wrapped then _ChunkBuffer2_update_input b else b in
  _ChunkBuffer2_update_output b ≫= fun b =>
  _ChunkBuffer2_assert_io b;;
  Ok b.

(** The provider of packets writes into the buffer at [input_dest] before it
    submits; the consumer reads at [output_dest]. *)
Definition write_input (b : ChunkBuffer2) (data : list Z) : outcome ChunkBuffer2 :=
  of_option (input_dest b) ≫= fun d =>
  mem_write (buffer b) d data ≫= fun mem =>
  Ok (set_ring mem (wrap b) (start b) (used b) b).

Definition read_output (b : ChunkBuffer2) : outcome (list Z) :=
  of_option (output_dest b) ≫= fun d => mem_read (buffer b) d (output_avail b).

(** ** Representation of a queue of packets *)

(** Blocks of a stored packet, its header included. *)
Definition pkt_blocks (p : list Z) : Z := 1 + (Zlen p + 3) / 4.

(** The packets [pkts] lie one after the other in the blocks [pos .. stop),
    none of them starting after block [lim]. *)
Fixpoint seg (lim : Z) (mem : list Z) (pos : Z) (pkts : list (list Z)) (stop : Z) : Prop :=
  match pkts with
  | [] => pos = stop
  | p :: ps =>
      Zlen p <= INT_MAX /\ pos <= lim /\
      slice mem (4 * pos) 4 = le_bytes 4 (Zlen p) /\
      slice mem (4 * pos + 4) (Zlen p) = p /\
      seg lim mem (pos + pkt_blocks p) ps stop
  end.

(** The last block where a packet may start: an MTU long packet fits there. *)
Definition last_start (b : ChunkBuffer2) : Z := size b - mtu b - 1.

(** The ring of [b] holds the packets [q]: either in one run of blocks
    before [size], or in a run up to [wrap] and one from the beginning. *)
Record ring (b : ChunkBuffer2) (q : list (list Z)) : Prop := {
  ring_mem : Zlen (buffer b) = 4 * size b;
  ring_size : 4 * size b <= INT_MAX;
  ring_mtu : 0 <= mtu b < size b;
  ring_start : 0 <= start b < wrap b;
  ring_wrap : wrap b <= size b;
  ring_used : 0 <= used b <= wrap b;
  ring_data :
    (used b < wrap b - start b /\ wrap b = size b /\
     mtu b <= size b - (start b + used b) - 1 /\
     seg (last_start b) (buffer b) (start b) q (start b + used b)) \/
    (wrap b - start b <= used b /\ size b - wrap b <= mtu b /\
     exists q1 q2, q = q1 ++ q2 /\
       seg (last_start b) (buffer b) (start b) q1 (wrap b) /\
       seg (last_start b) (buffer b) 0 q2 (used b - (wrap b - start b)))
}.

Definition input_spec (b : ChunkBuffer2) : option Z * Z :=
  if (mtu b <=? size b - _ChunkBuffer2_end b - 1) && (0 <? free_blocks b)
  then (Some (4 * (_ChunkBuffer2_end b + 1)), 4 * (free_blocks b - 1))
  else (None, -1).

Definition output_spec (b : ChunkBuffer2) (q : list (list Z)) : option Z * Z :=
  match q with
  | [] => (None, -1)
  | p :: _ => (Some (4 * (start b + 1)), Zlen p)
  end.

(** [b] represents the queue [q]: its ring does, and its input and output
    fields are those of the queue. *)
Record rep (b : ChunkBuffer2) (q : list (list Z)) : Prop := {
  rep_ring : ring b q;
  rep_input : (input_dest b, input_avail b) = input_spec b;
  rep_output : (output_dest b, output_avail b) = output_spec b q
}.

(** *** Arithmetic of blocks *)
Lemma blocks_of_spec len : 0 <= len <= INT_MAX -> blocks_of len = (len + 3) / 4.
Proof.
  unfold INT_MAX. intros. unfold blocks_of, bdivide_up, ChunkBuffer2_block_size.
  rewrite u64_small by lia.
  assert ((if 0 <? len mod 4 then len / 4 + 1 else len / 4) = (len + 3) / 4) as ->.
  { case_if; Z.div_mod_to_equations; lia. }
  apply to_int_small. Z.div_mod_to_equations; lia.
Qed.

Lemma blocks_of_pkt p : Zlen p <= INT_MAX -> blocks_of (Zlen p) = pkt_blocks p - 1.
Proof. intros. rewrite blocks_of_spec; unfold pkt_blocks; lia. Qed.

Lemma pkt_blocks_pos p : 1 <= pkt_blocks p.
Proof. unfold pkt_blocks. Z.div_mod_to_equations; lia. Qed.

Lemma pkt_blocks_len p : 4 + Zlen p <= 4 * pkt_blocks p.
Proof. unfold pkt_blocks. Z.div_mod_to_equations; lia. Qed.

Lemma pkt_blocks_fit p n : Zlen p <= 4 * n -> pkt_blocks p <= 1 + n.
Proof. unfold pkt_blocks. intros. Z.div_mod_to_equations; lia. Qed.

Lemma avail_bytes_spec free :
  0 < free -> 4 * free <= INT_MAX -> avail_bytes free = 4 * (free - 1).
Proof.
  unfold INT_MAX, avail_bytes, ChunkBuffer2_block_size. intros.
  rewrite (u64_small (free - 1)) by lia. rewrite u64_small by lia.
  rewrite to_int_small; lia.
Qed.

(** *** Segments *)
Lemma seg_le lim mem pos q stop : seg lim mem pos q stop -> pos <= stop.
Proof.
  revert pos. induction q as [|p q IH]; cbn; intros pos; [lia|].
  intros (_ & _ & _ & _ & H). apply IH in H. pose proof (pkt_blocks_pos p). lia.
Qed.

Lemma seg_app lim mem pos q1 q2 mid stop :
  seg lim mem pos q1 mid -> seg lim mem mid q2 stop -> seg lim mem pos (q1 ++ q2) stop.
Proof.
  revert pos. induction q1 as [|p q1 IH]; cbn; intros pos; [by intros ->|].
  naive_solver.
Qed.

Lemma seg_blocks lim mem pos q stop m :
  seg lim mem pos q stop -> Forall (fun p => pkt_blocks p <= m) q ->
  stop - pos <= Zlen q * m.
Proof.
  revert pos. induction q as [|p q IH]; intros pos; [cbn; lia|].
  cbn [seg length]. intros (_ & _ & _ & _ & H) [Hp Hq]%Forall_cons_1.
  specialize (IH _ H Hq). lia.
Qed.

(** Writes outside of a segment keep it. *)
Lemma seg_frame lim mem pos q stop off data :
  0 <= pos -> 0 <= off -> off + Zlen data <= Zlen mem ->
  4 * stop <= off \/ off + Zlen data <= 4 * pos ->
  seg lim mem pos q stop -> seg lim (splice mem off data) pos q stop.
Proof.
  intros Hpos Hoff Hlen. revert pos Hpos.
  induction q as [|p q IH]; cbn; intros pos Hpos Hd; [done|].
  intros (Hp & Hlim & Hl & Hdat & Hq).
  pose proof (pkt_blocks_len p). pose proof (seg_le _ _ _ _ _ Hq).
  rewrite !slice_splice_disjoint by lia.
  split_and!; [done..|]. apply IH; [lia|lia|done].
Qed.

(** The block run of one packet whose data is already in place. *)
Lemma seg_store lim mem pos data :
  0 <= pos <= lim -> Zlen data <= INT_MAX -> 4 * (pos + pkt_blocks data) <= Zlen mem ->
  slice mem (4 * pos + 4) (Zlen data) = data ->
  seg lim (splice mem (4 * pos) (le_bytes 4 (u32 (Zlen data)))) pos [data] (pos + pkt_blocks data).
Proof.
  unfold INT_MAX. intros ? Hlen ? Hd. pose proof (pkt_blocks_len data). cbn [seg].
  pose proof (length_le_bytes 4 (u32 (Zlen data))) as Hl.
  split_and!; [done|lia| | |done].
  - replace 4 with (Zlen (le_bytes 4 (u32 (Zlen data)))) at 3 by (rewrite Hl; done).
    rewrite slice_splice_same by (rewrite ?Hl; lia). rewrite u32_small by lia. done.
  - rewrite slice_splice_disjoint by (rewrite ?Hl; lia). done.
Qed.

Lemma load_len_seg lim mem pos p q stop :
  0 <= pos -> 4 * stop <= Zlen mem -> seg lim mem pos (p :: q) stop ->
  load_len mem pos = Ok (Zlen p).
Proof.
  unfold INT_MAX. intros ? ? (Hp & _ & Hl & _ & Hq). unfold INT_MAX in Hp.
  pose proof (seg_le _ _ _ _ _ Hq). pose proof (pkt_blocks_len p).
  unfold load_len, mem_read, ChunkBuffer2_block_size.
  rewrite (proj2 (in_range_true _ _ _)) by lia. cbn [mbind outcome_bind].
  rewrite Hl, le_val_le_bytes, Z.mod_small by lia. f_equal. apply to_int_small. lia.
Qed.

(** *** The representation invariant and the assertions of the code *)

(** Facts about the two ends of the data that every operation uses. *)
Lemma ring_end b q :
  ring b q ->
  0 <= _ChunkBuffer2_end b /\ _ChunkBuffer2_end b < size b /\
  (used b < wrap b - start b -> _ChunkBuffer2_end b = start b + used b) /\
  (wrap b - start b <= used b ->
     _ChunkBuffer2_end b = used b - (wrap b - start b) /\ _ChunkBuffer2_end b <= start b).
Proof.
  intros []. unfold _ChunkBuffer2_end. case_if; lia.
Qed.

Lemma ring_free b q :
  ring b q ->
  (used b < wrap b - start b -> free_blocks b = size b - _ChunkBuffer2_end b) /\
  (wrap b - start b <= used b -> free_blocks b = start b - _ChunkBuffer2_end b) /\
  free_blocks b <= size b - _ChunkBuffer2_end b.
Proof.
  intros H. pose proof (ring_end _ _ H). destruct H. unfold free_blocks. case_if; lia.
Qed.

Lemma assert_buffer_ok b q : ring b q -> _ChunkBuffer2_assert_buffer b = Ok tt.
Proof.
  intros [????? ? D]. unfold _ChunkBuffer2_assert_buffer.
  assert (wrap b = size b \/ wrap b - start b <= used b) by (destruct D; tauto).
  repeat (rewrite bind_ASSERT_true by lia). apply ASSERT_Ok. lia.
Qed.

(** The first packet starts at [start]. *)
Lemma ring_head b p q :
  ring b (p :: q) ->
  Zlen p <= INT_MAX /\
  load_len (buffer b) (start b) = Ok (Zlen p) /\
  slice (buffer b) (4 * start b + 4) (Zlen p) = p /\
  pkt_blocks p <= used b /\ pkt_blocks p <= wrap b - start b.
Proof.
  intros []. destruct ring_data0 as [(H1 & H2 & H3 & H4)|(H1 & H2 & q1 & q2 & H3 & H4 & H5)].
  - assert (load_len (buffer b) (start b) = Ok (Zlen p)) by
      (eapply load_len_seg; [| |exact H4]; lia).
    destruct H4 as (? & ? & ? & ? & Hq). apply seg_le in Hq. split_and!; try done; lia.
  - destruct q1 as [|p1 q1]; cbn in H3.
    { cbn in H4. lia. }
    injection H3 as <- ->.
    assert (load_len (buffer b) (start b) = Ok (Zlen p)) by
      (eapply load_len_seg; [| |exact H4]; lia).
    destruct H4 as (? & ? & ? & ? & Hq). apply seg_le in Hq. split_and!; try done; lia.
Qed.

Lemma ring_empty b q : ring b q -> (0 <? used b) = match q with [] => false | _ => true end.
Proof.
  intros H. destruct q as [|p q].
  - destruct H. apply Z.ltb_ge.
    destruct ring_data0 as [(H1 & H2 & H3 & H4)|(H1 & H2 & q1 & q2 & H3 & H4 & H5)].
    + cbn in H4. lia.
    + symmetry in H3. apply app_eq_nil in H3 as [-> ->]. cbn in H4. lia.
  - apply ring_head in H as (_ & _ & _ & H & _). apply Z.ltb_lt.
    pose proof (pkt_blocks_pos p). lia.
Qed.

Lemma update_input_spec b q :
  ring b q -> _ChunkBuffer2_update_input b = set_input (input_spec b).1 (input_spec b).2 b.
Proof.
  intros H. pose proof (ring_end _ _ H). pose proof (ring_free _ _ H).
  unfold _ChunkBuffer2_update_input, input_spec, ChunkBuffer2_block_size.
  destruct H. rewrite Z.leb_antisym.
  destruct (size b - _ChunkBuffer2_end b - 1 <? mtu b); [done|]. cbn [negb andb].
  destruct (0 <? free_blocks b) eqn:E; [|done]. zify_bool. cbn.
  by rewrite avail_bytes_spec by lia.
Qed.

Lemma update_output_spec b q :
  ring b q ->
  _ChunkBuffer2_update_output b = Ok (set_output (output_spec b q).1 (output_spec b q).2 b).
Proof.
  intros H. unfold _ChunkBuffer2_update_output. rewrite (ring_empty _ _ H).
  destruct q as [|p q]; [done|].
  apply ring_head in H as (Hp & -> & _ & H1 & H2). cbn [mbind outcome_bind].
  rewrite blocks_of_pkt by done.
  by rewrite !bind_ASSERT_true by (apply Z.leb_le; lia).
Qed.

Lemma assert_io_ok b q : rep b q -> _ChunkBuffer2_assert_io b = Ok tt.
Proof.
  intros [H Hi Ho]. pose proof (update_input_spec _ _ H) as Hu.
  unfold _ChunkBuffer2_update_input in Hu. unfold _ChunkBuffer2_assert_io.
  rewrite bind_Ok. exists tt. split.
  - pose proof (ring_end _ _ H). pose proof (ring_free _ _ H).
    revert Hi. unfold input_spec, input_is, ChunkBuffer2_block_size. destruct H.
    rewrite Z.leb_antisym.
    destruct (size b - _ChunkBuffer2_end b - 1 <? mtu b); cbn [negb andb].
    { intros [= -> ->]. unfold ASSERT. by rewrite bool_decide_true. }
    destruct (0 <? free_blocks b) eqn:E; zify_bool; intros [= -> ->]; unfold ASSERT.
    + rewrite avail_bytes_spec, Z.eqb_refl by lia. by rewrite bool_decide_true.
    + by rewrite bool_decide_true.
  - rewrite (ring_empty _ _ H). unfold output_is. destruct q as [|p q].
    { injection Ho as -> ->. unfold ASSERT. by rewrite bool_decide_true. }
    apply ring_head in H as (Hp & -> & _ & H1 & H2). cbn [mbind outcome_bind].
    rewrite blocks_of_pkt by done. rewrite !bind_ASSERT_true by (apply Z.leb_le; lia).
    injection Ho as -> ->. unfold ASSERT, ChunkBuffer2_block_size.
    by rewrite bool_decide_true, Z.eqb_refl by done.
Qed.

(** The input and output fields do not matter for the ring. *)
Lemma ring_ext b b' q :
  buffer b' = buffer b -> size b' = size b -> wrap b' = wrap b -> start b' = start b ->
  used b' = used b -> mtu b' = mtu b -> ring b q -> ring b' q.
Proof.
  intros E1 E2 E3 E4 E5 E6 []. unfold last_start in *.
  constructor; unfold last_start; rewrite ?E1, ?E2, ?E3, ?E4, ?E5, ?E6; assumption.
Qed.

(** Recomputing both ends of a ring gives a representation. *)
Lemma rep_update b q :
  ring b q ->
  exists b', (_ChunkBuffer2_update_output (_ChunkBuffer2_update_input b)) = Ok b' /\ rep b' q /\
    buffer b' = buffer b /\ size b' = size b /\ mtu b' = mtu b.
Proof.
  intros H. rewrite (update_input_spec _ _ H).
  set (b1 := set_input _ _ b).
  assert (ring b1 q) as H1 by (by eapply ring_ext; [..|exact H]).
  rewrite (update_output_spec _ _ H1). eexists. split_and!; [done| |done..].
  split.
  - by eapply ring_ext; [..|exact H].
  - cbn. by destruct (input_spec b) eqn:E.
  - cbn. by destruct q.
Qed.

(** *** The operations on the ring *)

Lemma last_start_set_ring m w s u b : last_start (set_ring m w s u b) = last_start b.
Proof. done. Qed.

(** Writes into the free blocks keep the packets. *)
Lemma ring_frame b q off data :
  ring b q -> 4 * _ChunkBuffer2_end b <= off ->
  off + Zlen data <= 4 * (_ChunkBuffer2_end b + free_blocks b) ->
  ring (set_ring (splice (buffer b) off data) (wrap b) (start b) (used b) b) q.
Proof.
  intros H Ho Hn. pose proof (ring_end _ _ H) as (? & ? & He1 & He2).
  pose proof (ring_free _ _ H) as (Hf1 & Hf2 & ?). destruct H.
  constructor; cbn; try done.
  { rewrite length_splice by lia. done. }
  destruct ring_data0 as [(D1 & D2 & D3 & D4)|(D1 & D2 & q1 & q2 & D3 & D4 & D5)].
  - left. split_and!; try done. apply seg_frame; try done; lia.
  - right. split_and!; try done. exists q1, q2. split_and!; [done|..]; apply seg_frame; try done; lia.
Qed.

Definition submit_wrap (b : ChunkBuffer2) (bl : Z) : Z :=
  if (used b + bl <=? wrap b - start b) && (size b - (_ChunkBuffer2_end b + bl) - 1 <? mtu b)
  then _ChunkBuffer2_end b + bl else wrap b.

Lemma submit_ring b q data :
  ring b q -> Zlen data <= INT_MAX ->
  _ChunkBuffer2_end b <= last_start b -> pkt_blocks data <= free_blocks b ->
  slice (buffer b) (4 * _ChunkBuffer2_end b + 4) (Zlen data) = data ->
  ring (set_ring (splice (buffer b) (4 * _ChunkBuffer2_end b) (le_bytes 4 (u32 (Zlen data))))
         (submit_wrap b (pkt_blocks data)) (start b) (used b + pkt_blocks data) b)
    (q ++ [data]).
Proof.
  intros H Hd Hls Hb Hs. pose proof (pkt_blocks_pos data).
  pose proof (ring_end _ _ H) as (? & ? & He1 & He2).
  pose proof (ring_free _ _ H) as (Hf1 & Hf2 & ?).
  pose proof (length_le_bytes 4 (u32 (Zlen data))) as Hl.
  destruct H as [Hm ?? Hst Hw Hu D].
  pose proof (seg_store (last_start b) (buffer b) (_ChunkBuffer2_end b) data ltac:(lia) Hd ltac:(lia) Hs) as Hseg.
  unfold submit_wrap.
  destruct D as [(D1 & D2 & D3 & D4)|(D1 & D2 & q1 & q2 & -> & D4 & D5)].
  - specialize (He1 D1). specialize (Hf1 D1). clear He2 Hf2.
    assert (seg (last_start b) (splice (buffer b) (4 * _ChunkBuffer2_end b) (le_bytes 4 (u32 (Zlen data))))
              (start b) (q ++ [data]) (_ChunkBuffer2_end b + pkt_blocks data)) as Hq.
    { eapply seg_app; [|exact Hseg]. rewrite He1 in *. apply seg_frame; try done; lia. }
    case_if; constructor; cbn; try rewrite length_splice; try lia.
    + right. split_and!; [lia..|]. exists (q ++ [data]), []. rewrite app_nil_r.
      split_and!; [done|done|]. cbn. lia.
    + left. apply andb_false_iff in E. split_and!; [lia..|].
      replace (start b + (used b + pkt_blocks data)) with (_ChunkBuffer2_end b + pkt_blocks data) by lia.
      done.
  - specialize (He2 D1) as [He2 ?]. specialize (Hf2 D1).
    case_if; [lia|]. constructor; cbn; try rewrite length_splice; try lia.
    right. split_and!; [lia..|]. exists q1, (q2 ++ [data]). rewrite app_assoc.
    split_and!; [done|apply seg_frame; try done; lia|].
    replace (used b + pkt_blocks data - (wrap b - start b))
      with (_ChunkBuffer2_end b + pkt_blocks data) by lia.
    eapply seg_app; [|exact Hseg]. apply seg_frame; [lia..|]. by rewrite He2.
Qed.

Lemma consume_ring b p q :
  ring b (p :: q) ->
  ring (if start b + pkt_blocks p =? wrap b
        then set_ring (buffer b) (size b) 0 (used b - pkt_blocks p) b
        else set_ring (buffer b) (wrap b) (start b + pkt_blocks p) (used b - pkt_blocks p) b) q.
Proof.
  intros H. pose proof (ring_head _ _ _ H) as (_ & _ & _ & ? & ?).
  pose proof (pkt_blocks_pos p).
  destruct H as [Hm ?? Hst Hw Hu D].
  destruct D as [(D1 & D2 & D3 & D4)|(D1 & D2 & q1 & q2 & Hq & D4 & D5)].
  - case_if; [lia|]. constructor; cbn; try lia. left. destruct D4 as (_ & ? & _ & _ & D4).
    split_and!; try lia.
    by replace (start b + pkt_blocks p + (used b - pkt_blocks p)) with (start b + used b) by lia.
  - destruct q1 as [|p1 q1]; [cbn in D4; lia|]. cbn in Hq. injection Hq as <- ->.
    destruct D4 as (_ & ? & _ & _ & D4). case_if; constructor; cbn; try lia.
    + left. unfold last_start in *. split_and!; try lia. pose proof (seg_le _ _ _ _ _ D4).
      destruct q1 as [|p1 q1].
      * cbn [app]. cbn in D4. replace (used b - pkt_blocks p) with (used b - (wrap b - start b)) by lia. done.
      * destruct D4 as (_ & ? & _ & _ & D4). apply seg_le in D4. pose proof (pkt_blocks_pos p1). lia.
    + right. pose proof (seg_le _ _ _ _ _ D4). split_and!; [lia..|]. exists q1, q2.
      split_and!; [done..|].
      by replace (used b - pkt_blocks p - (wrap b - (start b + pkt_blocks p)))
        with (used b - (wrap b - start b)) by lia.
Qed.

(** *** Refinement of a FIFO queue *)

(** Whatever the code computes with a ring, it ends in a representation. *)
Lemma finish_update b q :
  ring b q ->
  exists b', (_ChunkBuffer2_update_output (_ChunkBuffer2_update_input b) ≫= fun b2 =>
              _ChunkBuffer2_assert_io b2;; Ok b2) = Ok b' /\ rep b' q /\
             size b' = size b /\ mtu b' = mtu b.
Proof.
  intros H. destruct (rep_update _ _ H) as (b' & E & Hr & _ & ? & ?).
  exists b'. rewrite E. cbn [mbind outcome_bind]. rewrite (assert_io_ok _ _ Hr). done.
Qed.

(** When the queue was not empty, its first packet stays the output. *)
Lemma finish_input b q p q' :
  ring b q -> q = p :: q' ->
  (output_dest b, output_avail b) = output_spec b q ->
  exists b', (_ChunkBuffer2_assert_io (_ChunkBuffer2_update_input b);;
              Ok (_ChunkBuffer2_update_input b)) = Ok b' /\ rep b' q /\
             size b' = size b /\ mtu b' = mtu b.
Proof.
  intros H -> Ho. exists (_ChunkBuffer2_update_input b).
  rewrite (update_input_spec _ _ H).
  assert (rep (set_input (input_spec b).1 (input_spec b).2 b) (p :: q')) as Hr.
  { split; [by eapply ring_ext; [..|exact H]| |done]. exact (eq_sym (surjective_pairing (input_spec b))). }
  by rewrite (assert_io_ok _ _ Hr).
Qed.

(** [ChunkBuffer2_Init] gives an empty queue. *)
Lemma init_rep mem blocks mtu_ :
  Zlen mem = 4 * blocks -> 4 * blocks <= INT_MAX -> 0 <= mtu_ <= INT_MAX ->
  blocks_of mtu_ < blocks ->
  exists b, ChunkBuffer2_Init mem blocks mtu_ = Ok b /\ rep b [] /\
            size b = blocks /\ mtu b = blocks_of mtu_.
Proof.
  intros Hm Hb Hmtu Hfit. unfold ChunkBuffer2_Init.
  assert (0 <= blocks_of mtu_) by (rewrite blocks_of_spec; [Z.div_mod_to_equations|]; lia).
  rewrite !bind_ASSERT_true by lia.
  set (b0 := {| buffer := mem |}).
  assert (ring b0 []) as H0.
  { constructor; cbn; lia. }
  rewrite (assert_buffer_ok _ _ H0). cbn [mbind outcome_bind].
  destruct (finish_update _ _ H0) as (b' & E & ?). exists b'. by rewrite E.
Qed.

Lemma write_input_rep b q data :
  rep b q -> is_Some (input_dest b) -> Zlen data <= input_avail b ->
  exists b1, write_input b data = Ok b1 /\ rep b1 q /\
    slice (buffer b1) (4 * _ChunkBuffer2_end b1 + 4) (Zlen data) = data /\
    b1 = set_ring (buffer b1) (wrap b) (start b) (used b) b.
Proof.
  intros [H Hi Ho] [d Hd] Hlen.
  pose proof (ring_end _ _ H) as (? & ? & _). pose proof (ring_free _ _ H) as (_ & _ & ?).
  assert (d = 4 * (_ChunkBuffer2_end b + 1) /\ Zlen data <= 4 * (free_blocks b - 1)) as [-> Hfit].
  { rewrite Hd in Hi. unfold input_spec in Hi. case_match; simplify_eq. lia. }
  assert (ring b q) as [Hm _ _ _ _ _ _] by done.
  unfold write_input. rewrite Hd. cbn [of_option mbind outcome_bind].
  assert (mem_write (buffer b) (4 * (_ChunkBuffer2_end b + 1)) data =
          Ok (splice (buffer b) (4 * (_ChunkBuffer2_end b + 1)) data)) as ->.
  { apply mem_write_Ok. split; [lia|done]. }
  cbn [mbind outcome_bind]. eexists. split_and!; [done| | |done].
  - split; [apply ring_frame; [done|lia|lia]|done|done].
  - cbn. change (_ChunkBuffer2_end (set_ring _ _ _ _ b)) with (_ChunkBuffer2_end b).
    replace (4 * _ChunkBuffer2_end b + 4) with (4 * (_ChunkBuffer2_end b + 1)) by lia.
    apply slice_splice_same; lia.
Qed.

Lemma submit_rep b q data :
  rep b q -> is_Some (input_dest b) -> Zlen data <= input_avail b ->
  slice (buffer b) (4 * _ChunkBuffer2_end b + 4) (Zlen data) = data ->
  exists b', ChunkBuffer2_SubmitPacket b (Zlen data) = Ok b' /\ rep b' (q ++ [data]) /\
             size b' = size b /\ mtu b' = mtu b.
Proof.
  intros Hrep Hd Hlen Hs. pose proof Hrep as [H Hi Ho].
  assert (ring b q) as [Hm Hsz _ Hst _ Hus _] by done.
  pose proof (ring_end _ _ H) as (? & ? & _ & Hw). pose proof (ring_free _ _ H) as (_ & Hfw & ?).
  assert (Zlen data <= 4 * (free_blocks b - 1) /\ _ChunkBuffer2_end b <= last_start b) as [Hfit Hls].
  { destruct Hd as [d Hd]. rewrite Hd in Hi. unfold input_spec in Hi.
    case_match eqn:E; simplify_eq. zify_bool. unfold last_start. lia. }
  pose proof (pkt_blocks_fit _ _ Hfit). pose proof (pkt_blocks_pos data).
  unfold ChunkBuffer2_SubmitPacket.
  rewrite (bind_ASSERT_true (bool_decide _)) by (by apply bool_decide_eq_true).
  rewrite !bind_ASSERT_true by lia.
  rewrite (assert_buffer_ok _ _ H), (assert_io_ok _ _ Hrep), blocks_of_pkt by lia.
  cbn [mbind outcome_bind].
  rewrite bind_ASSERT_true by lia. rewrite bind_ASSERT_true.
  2:{ destruct (used b <? wrap b - start b) eqn:E; [done|]. zify_bool.
      specialize (Hw E). specialize (Hfw E). cbn. lia. }
  assert (store_len (buffer b) (_ChunkBuffer2_end b) (Zlen data) =
    Ok (splice (buffer b) (4 * _ChunkBuffer2_end b) (le_bytes 4 (u32 (Zlen data))))) as ->.
  { apply mem_write_Ok. rewrite length_le_bytes. unfold ChunkBuffer2_block_size. split; [lia|done]. }
  cbn [mbind outcome_bind].
  replace (1 + (pkt_blocks data - 1)) with (pkt_blocks data) by lia.
  replace (_ChunkBuffer2_end b + 1 + (pkt_blocks data - 1)) with (_ChunkBuffer2_end b + pkt_blocks data) by lia.
  pose proof (submit_ring b q data H ltac:(lia) Hls ltac:(lia) Hs) as Hr'.
  fold (submit_wrap b (pkt_blocks data)).
  set (b2 := set_ring _ _ _ _ b) in *.
  rewrite (assert_buffer_ok _ _ Hr'). cbn [mbind outcome_bind].
  assert (used (_ChunkBuffer2_update_input b2) = used b + pkt_blocks data) as ->
    by (by rewrite (update_input_spec _ _ Hr')).
  pose proof (ring_empty _ _ H) as He.
  destruct q as [|p q].
  - replace (used b + pkt_blocks data =? pkt_blocks data) with true
      by (symmetry; apply Z.eqb_eq; zify_bool; lia).
    exact (finish_update _ _ Hr').
  - replace (used b + pkt_blocks data =? pkt_blocks data) with false
      by (symmetry; apply Z.eqb_neq; zify_bool; lia).
    cbn [mbind outcome_bind]. exact (finish_input b2 _ p _ Hr' eq_refl Ho).
Qed.

Lemma consume_rep b p q :
  rep b (p :: q) ->
  read_output b = Ok p /\
  exists b', ChunkBuffer2_ConsumePacket b = Ok b' /\ rep b' q /\
             size b' = size b /\ mtu b' = mtu b.
Proof.
  intros Hrep. pose proof Hrep as [H Hi Ho].
  pose proof (ring_head _ _ _ H) as (Hp & Hl & Hs & ? & ?).
  pose proof (pkt_blocks_len p). pose proof (pkt_blocks_pos p).
  assert (ring b (p :: q)) as [Hm Hsz _ Hst Hwr _ _] by done.
  cbn in Ho. injection Ho as Hod Hoa. split.
  { unfold read_output. rewrite Hod, Hoa. cbn [of_option mbind outcome_bind].
    apply mem_read_Ok. split; [lia|]. rewrite <- Hs at 1. f_equal. lia. }
  unfold ChunkBuffer2_ConsumePacket.
  rewrite (bind_ASSERT_true (bool_decide _)) by (apply bool_decide_eq_true; rewrite Hod; eauto).
  rewrite (assert_buffer_ok _ _ H), (assert_io_ok _ _ Hrep). cbn [mbind outcome_bind].
  rewrite !bind_ASSERT_true by lia. rewrite Hl. cbn [mbind outcome_bind].
  rewrite blocks_of_pkt by done. rewrite !bind_ASSERT_true by lia.
  replace (1 + (pkt_blocks p - 1)) with (pkt_blocks p) by lia.
  pose proof (consume_ring _ _ _ H) as Hr'.
  set (b2 := if start b + pkt_blocks p =? wrap b then _ else _) in *.
  rewrite (assert_buffer_ok _ _ Hr'). cbn [mbind outcome_bind].
  assert (size b2 = size b /\ mtu b2 = mtu b) as [Es Em] by (by subst b2; case_match).
  destruct (wrap b - start b <=? used b) eqn:E.
  - rewrite <- Es, <- Em. exact (finish_update _ _ Hr').
  - rewrite <- Es, <- Em. zify_bool. rewrite (update_output_spec _ _ Hr'). cbn [mbind outcome_bind].
    assert (rep (set_output (output_spec b2 q).1 (output_spec b2 q).2 b2) q) as Hr.
    { split; [by eapply ring_ext; [..|exact Hr']| |by destruct q].
      assert (b2 = set_ring (buffer b) (wrap b) (start b + pkt_blocks p) (used b - pkt_blocks p) b) as ->.
      { subst b2. case_if; [lia|done]. }
      cbn. rewrite Hi. unfold input_spec, free_blocks, _ChunkBuffer2_end. cbn.
      replace (start b + pkt_blocks p + (used b - pkt_blocks p)) with (start b + used b) by lia.
      replace (wrap b - (start b + pkt_blocks p) <=? used b - pkt_blocks p)
        with (wrap b - start b <=? used b) by (apply Bool.eq_iff_eq_true; rewrite !Z.leb_le; lia).
      by rewrite (proj2 (Z.leb_gt _ _) E). }
    rewrite (assert_io_ok _ _ Hr). by eexists.
Qed.

(** *** Progress *)

(** Without a wrap, or with few packets, the next MTU-sized packet fits. *)
Lemma rep_accepts b q n :
  rep b q -> (mtu b + 1) * (n + 1) <= size b ->
  Forall (fun p => Zlen p <= 4 * mtu b) q -> Zlen q < n ->
  is_Some (input_dest b) /\ 4 * mtu b <= input_avail b.
Proof.
  intros [H Hi _] Hsz Hq Hn.
  assert (Forall (fun p => pkt_blocks p <= mtu b + 1) q) as Hq'.
  { eapply Forall_impl; [exact Hq|]. intros p Hp. apply pkt_blocks_fit in Hp. lia. }
  pose proof (ring_end _ _ H) as (? & ? & He1 & He2). pose proof (ring_free _ _ H) as (Hf1 & Hf2 & Hf3).
  assert (mtu b + 1 <= free_blocks b) as Hfree.
  { destruct H as [? ? ? ? ? ? [(D1 & ? & ? & _)|(D1 & D2 & q1 & q2 & -> & D4 & D5)]].
    { rewrite (Hf1 D1), (He1 D1). lia. }
    rewrite (Hf2 D1). specialize (He2 D1) as [-> _].
    apply Forall_app in Hq' as [Hq1 Hq2].
    apply (seg_blocks _ _ _ _ _ _ D4) in Hq1. apply (seg_blocks _ _ _ _ _ _ D5) in Hq2.
    rewrite length_app in Hn. nia. }
  destruct H. unfold input_spec in Hi. case_match eqn:E.
  - injection Hi as -> ->. split; [eauto|]. lia.
  - apply andb_false_iff in E as [?|?]; zify_bool; lia.
Qed.

(** *** The buffer as a bounded FIFO queue *)

Inductive op := Push (data : list Z) | Pop.

(** The abstract queue of at most [num] packets of at most [maxlen] bytes:
    the packets popped and the packets left, [None] if an operation is not
    allowed. *)
Fixpoint fifo_run (maxlen num : Z) (q : list (list Z)) (ops : list op)
    : option (list (list Z) * list (list Z)) :=
  match ops with
  | [] => Some ([], q)
  | Push data :: ops' =>
      if (Zlen q <? num) && (Zlen data <=? maxlen)
      then fifo_run maxlen num (q ++ [data]) ops' else None
  | Pop :: ops' =>
      match q with
      | [] => None
      | p :: q' =>
          match fifo_run maxlen num q' ops' with
          | Some (outs, q2) => Some (p :: outs, q2)
          | None => None
          end
      end
  end.

(** The same operations on the buffer: a push writes the packet at
    [input_dest] and submits it, a pop reads at [output_dest] and consumes. *)
Fixpoint run (b : ChunkBuffer2) (ops : list op) : outcome (list (list Z) * ChunkBuffer2) :=
  match ops with
  | [] => Ok ([], b)
  | Push data :: ops' =>
      write_input b data ≫= fun b =>
      ChunkBuffer2_SubmitPacket b (Zlen data) ≫= fun b => run b ops'
  | Pop :: ops' =>
      read_output b ≫= fun p =>
      ChunkBuffer2_ConsumePacket b ≫= fun b =>
      run b ops' ≫= fun '(outs, b) => Ok (p :: outs, b)
  end.

Lemma run_refines maxlen num ops b q outs q' :
  rep b q -> (mtu b + 1) * (num + 1) <= size b -> maxlen <= 4 * mtu b ->
  Forall (fun p => Zlen p <= 4 * mtu b) q ->
  fifo_run maxlen num q ops = Some (outs, q') ->
  exists b', run b ops = Ok (outs, b') /\ rep b' q'.
Proof.
  revert b q outs. induction ops as [|[data|] ops IH]; intros b q outs Hr Hs Hm Hq Hf; cbn in Hf.
  - injection Hf as <- <-. by exists b.
  - case_match eqn:E; [|done]. zify_bool.
    destruct (rep_accepts _ _ num Hr Hs Hq ltac:(lia)) as [Hd Ha].
    destruct (write_input_rep _ _ data Hr Hd ltac:(lia)) as (b1 & Ew & Hr1 & Hsl & Eb).
    destruct (submit_rep b1 q data) as (b2 & Esub & Hr2 & Es2 & Em2); try done.
    { by rewrite Eb. } { rewrite Eb. cbn. lia. }
    assert (size b1 = size b /\ mtu b1 = mtu b) as [Es1 Em1] by (by rewrite Eb).
    cbn [run]. rewrite Ew. cbn [mbind outcome_bind]. rewrite Esub. cbn [mbind outcome_bind].
    apply (IH b2 (q ++ [data])); try done; rewrite ?Es2, ?Em2, ?Es1, ?Em1; try done.
    apply Forall_app. split; [done|]. constructor; [lia|constructor].
  - destruct q as [|p q]; [done|].
    destruct (fifo_run _ _ q ops) as [[outs2 q2]|] eqn:Ef; [|done]. injection Hf as <- <-.
    destruct (consume_rep _ _ _ Hr) as (Ero & b1 & Ec & Hr1 & Es1 & Em1).
    apply Forall_cons_1 in Hq as [_ Hq].
    destruct (IH b1 q outs2) as (b' & Erun & Hr'); rewrite ?Es1, ?Em1; try done.
    exists b'. split; [|done]. cbn [run]. rewrite Ero. cbn [mbind outcome_bind].
    rewrite Ec. cbn [mbind outcome_bind]. by rewrite Erun.
Qed.

Lemma calc_blocks_spec maxlen num :
  0 <= maxlen <= INT_MAX -> 0 < num -> 0 < ChunkBuffer2_calc_blocks maxlen num ->
  ChunkBuffer2_calc_blocks maxlen num = (blocks_of maxlen + 1) * (num + 1).
Proof. intros ? ?. unfold ChunkBuffer2_calc_blocks. repeat case_if; lia. Qed.

(** C31: a [ChunkBuffer2] of [ChunkBuffer2_calc_blocks(mtu, num)] blocks is a
    FIFO queue of [num] packets: whatever packets of at most [mtu] bytes are
    written, submitted and consumed while at most [num] are stored, no
    assertion of the code fails, no access leaves the array, and the packets
    read are the packets written, in order. *)
Theorem ChunkBuffer2_implements_fifo mem maxlen num ops outs q :
  0 <= maxlen <= INT_MAX -> 0 < num ->
  0 < ChunkBuffer2_calc_blocks maxlen num ->
  4 * ChunkBuffer2_calc_blocks maxlen num <= INT_MAX ->
  Zlen mem = 4 * ChunkBuffer2_calc_blocks maxlen num ->
  fifo_run maxlen num [] ops = Some (outs, q) ->
  exists b,
    (ChunkBuffer2_Init mem (ChunkBuffer2_calc_blocks maxlen num) maxlen ≫= fun b => run b ops)
      = Ok (outs, b) /\ rep b q.
Proof.
  intros Hl Hn Hb Hb4 Hm Hf. pose proof (calc_blocks_spec _ _ Hl Hn Hb) as Ec.
  assert (blocks_of maxlen = (maxlen + 3) / 4) as Eb by (by apply blocks_of_spec).
  assert (0 <= (maxlen + 3) / 4 /\ maxlen <= 4 * ((maxlen + 3) / 4)) by (Z.div_mod_to_equations; lia).
  destruct (init_rep mem _ maxlen Hm Hb4 Hl) as (b & -> & Hr & Es & Em); [nia|].
  cbn [mbind outcome_bind]. apply (run_refines maxlen num ops b []); try done; rewrite ?Es, ?Em; lia.
Qed.

Lemma ChunkBuffer2_implements_fifo_witness :
  exists b,
    (ChunkBuffer2_Init (replicate 48 0) (ChunkBuffer2_calc_blocks 5 3) 5 ≫= fun b =>
       run b [Push [1; 2; 3]; Push []; Pop; Push [7; 8; 9; 10; 11]; Pop])
      = Ok ([[1; 2; 3]; []], b) /\ rep b [[7; 8; 9; 10; 11]].
Proof.
  apply (ChunkBuffer2_implements_fifo (replicate 48 0) 5 3); vm_compute; try done; split; done.
Defined.

(** the buffer never gets stuck: as long as fewer than [n] packets of at
    most MTU size are stored in [(mtu + 1) * (n + 1)] blocks, the input side
    offers room for a packet of MTU size (with [n = 1]: always when empty). *)
Theorem ChunkBuffer2_input_available b q n :
  rep b q -> (mtu b + 1) * (n + 1) <= size b ->
  Forall (fun p => Zlen p <= 4 * mtu b) q -> Zlen q < n ->
  exists off, input_dest b = Some off /\ 4 * mtu b <= input_avail b /\
    0 <= off /\ off + 4 * mtu b <= Zlen (buffer b).
Proof.
  intros Hr Hs Hq Hn. destruct (rep_accepts _ _ _ Hr Hs Hq Hn) as [[off Hoff] Ha].
  exists off. destruct Hr as [H Hi _]. rewrite Hoff in Hi.
  pose proof (ring_end _ _ H) as (? & ? & _). pose proof (ring_free _ _ H) as (_ & _ & Hf).
  destruct H. unfold input_spec in Hi. case_match; simplify_eq. split_and!; try done; lia.
Qed.

Lemma ChunkBuffer2_input_available_witness :
  exists b, ChunkBuffer2_Init (replicate 24 0) 6 8 = Ok b /\
  exists off, input_dest b = Some off /\ 4 * mtu b <= input_avail b /\
    0 <= off /\ off + 4 * mtu b <= Zlen (buffer b).
Proof.
  destruct (init_rep (replicate 24 0) 6 8) as (b & E & Hr & Es & Em);
    [by vm_compute | by vm_compute | by vm_compute | by vm_compute |].
  exists b. split; [exact E|]. apply (ChunkBuffer2_input_available b [] 1); [exact Hr| |constructor|done].
  rewrite Es, Em. by vm_compute.
Defined.
