(* ===== verification/LinkedList.v ===== *)
(** * Doubly linked lists in a heap

    [LinkedList1] (badvpn/structure/LinkedList1.h) and [SLinkedList]
    (badvpn/structure/SLinkedList_impl.h), modelled with the nodes in a heap
    and the pointer assignments of the code, and proved to implement lists of
    nodes. Every operation is also proved to touch no node but those it links. *)
From Stdlib Require Import ZArith Lia.
From stdpp Require Import base tactics numbers option gmap list.
From S2P Require Import Prelude.

(** Addresses of nodes; [NULL] is [None]. *)
Abbreviation loc := positive.

(** ** LinkedList1 *)
Module LinkedList1.

Record Node := mkNode { p : option loc; n : option loc }.
Abbreviation heap := (gmap loc Node).

Record list1 := mkList { first : option loc; last : option loc }.

Definition get (h : heap) (a : loc) : outcome Node := of_option (h !! a).
Definition set_p (h : heap) (a : loc) (v : option loc) : outcome heap :=
  get h a ≫= fun nd => Ok (<[a := mkNode v (n nd)]> h).
Definition set_n (h : heap) (a : loc) (v : option loc) : outcome heap :=
  get h a ≫= fun nd => Ok (<[a := mkNode (p nd) v]> h).

Definition LinkedList1_Init : list1 := mkList None None.

Definition LinkedList1_IsEmpty (l : list1) : bool :=
  match first l with None => true | Some _ => false end.

Definition LinkedList1_GetFirst (l : list1) : option loc := first l.
Definition LinkedList1_GetLast (l : list1) : option loc := last l.

Definition LinkedList1_Prepend (l : list1) (h : heap) (node : loc) : outcome (list1 * heap) :=
  set_p h node None ≫= fun h =>
  set_n h node (first l) ≫= fun h =>
  match first l with
  | Some f => set_p h f (Some node) ≫= fun h => Ok (mkList (Some node) (last l), h)
  | None => Ok (mkList (Some node) (Some node), h)
  end.

Definition LinkedList1_Append (l : list1) (h : heap) (node : loc) : outcome (list1 * heap) :=
  set_p h node (last l) ≫= fun h =>
  set_n h node None ≫= fun h =>
  match last l with
  | Some e => set_n h e (Some node) ≫= fun h => Ok (mkList (first l) (Some node), h)
  | None => Ok (mkList (Some node) (Some node), h)
  end.

Definition LinkedList1_InsertBefore (l : list1) (h : heap) (node target : loc)
    : outcome (list1 * heap) :=
  get h target ≫= fun t =>
  set_p h node (p t) ≫= fun h =>
  set_n h node (Some target) ≫= fun h =>
  match p t with
  | Some tp => set_n h tp (Some node) ≫= fun h => Ok (l, h)
  | None => Ok (mkList (Some node) (last l), h)
  end ≫= fun '(l, h) =>
  set_p h target (Some node) ≫= fun h => Ok (l, h).

Definition LinkedList1_InsertAfter (l : list1) (h : heap) (node target : loc)
    : outcome (list1 * heap) :=
  set_p h node (Some target) ≫= fun h =>
  get h target ≫= fun t =>
  set_n h node (n t) ≫= fun h =>
  match n t with
  | Some tn => set_p h tn (Some node) ≫= fun h => Ok (l, h)
  | None => Ok (mkList (first l) (Some node), h)
  end ≫= fun '(l, h) =>
  set_n h target (Some node) ≫= fun h => Ok (l, h).

Definition LinkedList1_Remove (l : list1) (h : heap) (node : loc) : outcome (list1 * heap) :=
  get h node ≫= fun nd =>
  match p nd with
  | Some np => set_n h np (n nd) ≫= fun h => Ok (l, h)
  | None => Ok (mkList (n nd) (last l), h)
  end ≫= fun '(l, h) =>
  match n nd with
  | Some nn => set_p h nn (p nd) ≫= fun h => Ok (l, h)
  | None => Ok (mkList (first l) (p nd), h)
  end.

Definition LinkedList1_InsertListAfter (l : list1) (h : heap) (ins : list1) (target : option loc)
    : outcome (list1 * heap) :=
  match first ins with
  | None => Ok (l, h)
  | Some insf =>
      of_option (last ins) ≫= fun insl =>
      match target with
      | Some t => get h t ≫= fun nd => Ok (n nd)
      | None => Ok (first l)
      end ≫= fun t_next =>
      set_p h insf target ≫= fun h =>
      set_n h insl t_next ≫= fun h =>
      match target with
      | Some t => set_n h t (Some insf) ≫= fun h => Ok (l, h)
      | None => Ok (mkList (Some insf) (last l), h)
      end ≫= fun '(l, h) =>
      match t_next with
      | Some t => set_p h t (Some insl) ≫= fun h => Ok (l, h)
      | None => Ok (mkList (first l) (Some insl), h)
      end
  end.

Definition LinkedList1Node_Next (h : heap) (node : loc) : outcome (option loc) :=
  get h node ≫= fun nd => Ok (n nd).
Definition LinkedList1Node_Prev (h : heap) (node : loc) : outcome (option loc) :=
  get h node ≫= fun nd => Ok (p nd).

(** *** Representation of a list of nodes *)

(** First node of [l], or [d]; last node of [l], or [d]. *)
Definition hd_or (l : list loc) (d : option loc) : option loc :=
  match l with [] => d | a :: _ => Some a end.
Fixpoint last_or (l : list loc) (d : option loc) : option loc :=
  match l with [] => d | a :: l' => last_or l' (Some a) end.

(** The nodes of [l] are chained in [h], between [pr] and [nx]. *)
Fixpoint chain (h : heap) (pr : option loc) (l : list loc) (nx : option loc) : Prop :=
  match l with
  | [] => True
  | a :: l' => h !! a = Some (mkNode pr (hd_or l' nx)) /\ chain h (Some a) l' nx
  end.

Record rep (L : list1) (h : heap) (l : list loc) : Prop := {
  rep_first : first L = hd_or l None;
  rep_last : last L = last_or l None;
  rep_nodup : NoDup l;
  rep_chain : chain h None l None
}.

Lemma hd_or_app l1 l2 d : hd_or (l1 ++ l2) d = hd_or l1 (hd_or l2 d).
Proof. by destruct l1. Qed.

Lemma last_or_app l1 l2 d : last_or (l1 ++ l2) d = last_or l2 (last_or l1 d).
Proof. revert d; induction l1; cbn; auto. Qed.

Lemma chain_app h pr l1 l2 nx :
  chain h pr (l1 ++ l2) nx <-> chain h pr l1 (hd_or l2 nx) /\ chain h (last_or l1 pr) l2 nx.
Proof.
  revert pr; induction l1 as [|a l1 IH]; cbn; intros pr; [naive_solver|].
  rewrite IH, hd_or_app. naive_solver.
Qed.

Lemma chain_frame h pr l nx a nd :
  a ∉ l -> chain h pr l nx -> chain (<[a := nd]> h) pr l nx.
Proof.
  revert pr; induction l as [|b l IH]; cbn; intros pr Ha; [done|].
  apply not_elem_of_cons in Ha as [? ?]. intros [? ?].
  rewrite lookup_insert_ne by done. auto.
Qed.

(** Relinking the end of a chain. *)
Lemma chain_set_last h pr l a nx nx' :
  a ∉ l -> chain h pr (l ++ [a]) nx ->
  chain (<[a := mkNode (last_or l pr) nx']> h) pr (l ++ [a]) nx'.
Proof.
  intros Ha. rewrite !chain_app. cbn. intros [H1 [H2 _]].
  split; [by apply chain_frame|]. by rewrite lookup_insert_eq.
Qed.

(** Relinking the beginning of a chain. *)
Lemma chain_set_first h pr pr' l a nx :
  a ∉ l -> chain h pr (a :: l) nx ->
  chain (<[a := mkNode pr' (hd_or l nx)]> h) pr' (a :: l) nx.
Proof.
  cbn. intros Ha [H1 H2]. rewrite lookup_insert_eq. split; [done|]. by apply chain_frame.
Qed.

Lemma chain_lookup h pr l1 a l2 nx :
  chain h pr (l1 ++ a :: l2) nx -> h !! a = Some (mkNode (last_or l1 pr) (hd_or l2 nx)).
Proof. rewrite chain_app. cbn. naive_solver. Qed.

Lemma last_or_snoc l a d : last_or (l ++ [a]) d = Some a.
Proof. by rewrite last_or_app. Qed.

Lemma rev_case (l : list loc) : l = [] \/ exists l' a, l = l' ++ [a].
Proof. destruct l as [|a l _] using rev_ind; eauto. Qed.

(** The two relinkings that the operations do: of the [n] field of the last
    node of a list and of the [p] field of its first node. *)
Definition upd_n (h : heap) (x : option loc) (v : option loc) : heap :=
  match x with Some a => alter (fun nd => mkNode (p nd) v) a h | None => h end.
Definition upd_p (h : heap) (x : option loc) (v : option loc) : heap :=
  match x with Some a => alter (fun nd => mkNode v (n nd)) a h | None => h end.

Lemma set_n_ok h a v : is_Some (h !! a) -> set_n h a v = Ok (upd_n h (Some a) v).
Proof.
  intros [nd H]. unfold set_n, get. rewrite H. cbn. f_equal.
  apply map_eq. intros i. destruct (decide (i = a)) as [->|].
  - rewrite lookup_insert_eq, lookup_alter_eq, H. done.
  - by rewrite lookup_insert_ne, lookup_alter_ne.
Qed.

Lemma set_p_ok h a v : is_Some (h !! a) -> set_p h a v = Ok (upd_p h (Some a) v).
Proof.
  intros [nd H]. unfold set_p, get. rewrite H. cbn. f_equal.
  apply map_eq. intros i. destruct (decide (i = a)) as [->|].
  - rewrite lookup_insert_eq, lookup_alter_eq, H. done.
  - by rewrite lookup_insert_ne, lookup_alter_ne.
Qed.

Lemma upd_n_ne h x v b : x ≠ Some b -> upd_n h x v !! b = h !! b.
Proof. destruct x; cbn; [|done]. intros. rewrite lookup_alter_ne; congruence. Qed.
Lemma upd_p_ne h x v b : x ≠ Some b -> upd_p h x v !! b = h !! b.
Proof. destruct x; cbn; [|done]. intros. rewrite lookup_alter_ne; congruence. Qed.
Lemma upd_n_some h x v b : is_Some (upd_n h x v !! b) <-> is_Some (h !! b).
Proof. destruct x; cbn; [|done]. rewrite lookup_alter_is_Some. done. Qed.
Lemma upd_p_some h x v b : is_Some (upd_p h x v !! b) <-> is_Some (h !! b).
Proof. destruct x; cbn; [|done]. rewrite lookup_alter_is_Some. done. Qed.

Lemma hd_or_elem l d a : hd_or l d = Some a -> a ∈ l \/ d = Some a.
Proof. destruct l; cbn; [naive_solver|]. intros [= ->]. left. set_solver. Qed.
Lemma last_or_elem l d a : last_or l d = Some a -> a ∈ l \/ d = Some a.
Proof.
  revert d; induction l as [|b l IH]; cbn; intros d H; [naive_solver|].
  apply IH in H as [?|[= ->]]; set_solver.
Qed.

Lemma chain_ext h h' pr l nx :
  (forall b, b ∈ l -> h' !! b = h !! b) -> chain h pr l nx -> chain h' pr l nx.
Proof.
  revert pr; induction l as [|b l IH]; cbn; intros pr He; [done|].
  intros [? ?]. rewrite He by set_solver. split; [done|]. apply IH; [set_solver|done].
Qed.

Lemma chain_dom h pr l nx b : chain h pr l nx -> b ∈ l -> is_Some (h !! b).
Proof.
  revert pr; induction l as [|c l IH]; cbn; intros pr; [set_solver|].
  intros [? ?] Hb. apply elem_of_cons in Hb as [->|]; eauto.
Qed.

Lemma chain_upd_n h pr l nx v :
  NoDup l -> chain h pr l nx -> chain (upd_n h (last_or l None) v) pr l v.
Proof.
  intros Hn Hc. destruct (rev_case l) as [->|(l' & a & ->)]; [done|].
  rewrite last_or_snoc. cbn. apply NoDup_app in Hn as (_ & Hn & _).
  pose proof (chain_lookup _ _ _ _ _ _ Hc) as Ha.
  rewrite !chain_app in *. cbn in *. destruct Hc as [H1 _].
  rewrite lookup_alter_eq, Ha. split_and!; [|done|done].
  eapply chain_ext; [|exact H1]. intros b Hb. rewrite lookup_alter_ne; [done|]. set_solver.
Qed.

Lemma chain_upd_p h pr l nx v :
  NoDup l -> chain h pr l nx -> chain (upd_p h (hd_or l None) v) v l nx.
Proof.
  destruct l as [|a l]; cbn; [done|]. intros Hn [H1 H2]. apply NoDup_cons in Hn as [Hn _].
  rewrite lookup_alter_eq, H1. split; [done|].
  eapply chain_ext; [|exact H2]. intros b Hb. rewrite lookup_alter_ne; [done|]. set_solver.
Qed.

(** Linking a segment in between two lists, and closing the gap between them. *)
Lemma chain_join h l1 l2 m1 m2 v1 v2 :
  NoDup (l1 ++ l2) -> chain h None l1 m1 -> chain h m2 l2 None ->
  let h' := upd_p (upd_n h (last_or l1 None) v1) (hd_or l2 None) v2 in
  chain h' None l1 v1 /\ chain h' v2 l2 None.
Proof.
  intros (Hn1 & Hd & Hn2)%NoDup_app H1 H2. split.
  - eapply chain_ext; [|by eapply chain_upd_n].
    intros b Hb. apply upd_p_ne. intros [?|?]%hd_or_elem; [by eapply Hd|done].
  - eapply chain_upd_p; [done|]. eapply chain_ext; [|exact H2].
    intros b Hb. apply upd_n_ne. intros [?|?]%last_or_elem; [by eapply Hd|done].
Qed.

Lemma join_frame h l1 l2 v1 v2 b :
  b ∉ l1 ++ l2 -> upd_p (upd_n h (last_or l1 None) v1) (hd_or l2 None) v2 !! b = h !! b.
Proof.
  intros Hb. rewrite upd_p_ne, upd_n_ne; [done|..].
  - intros [?|?]%last_or_elem; set_solver.
  - intros [?|?]%hd_or_elem; set_solver.
Qed.

(** Initialising both fields of a node. *)
Lemma init_node {B} h a v1 v2 (k : heap -> outcome B) :
  is_Some (h !! a) ->
  (set_p h a v1 ≫= fun h => set_n h a v2 ≫= k) = k (<[a := mkNode v1 v2]> h).
Proof.
  intros [nd H]. unfold set_p, set_n, get. rewrite H. cbn.
  rewrite lookup_insert_eq. cbn. by rewrite insert_insert_eq.
Qed.

(** The heap after [a] was linked in between [l1] and [l2]. *)
Definition linked (h : heap) (l1 : list loc) (a : loc) (l2 : list loc) : heap :=
  upd_p (upd_n (<[a := mkNode (last_or l1 None) (hd_or l2 None)]> h) (last_or l1 None) (Some a))
    (hd_or l2 None) (Some a).

(** The heap after the gap between [l1] and [l2] was closed. *)
Definition unlinked (h : heap) (l1 l2 : list loc) : heap :=
  upd_p (upd_n h (last_or l1 None) (hd_or l2 None)) (hd_or l2 None) (last_or l1 None).

Lemma linked_chain h l1 a l2 :
  NoDup (l1 ++ l2) -> a ∉ l1 ++ l2 -> chain h None (l1 ++ l2) None ->
  chain (linked h l1 a l2) None (l1 ++ a :: l2) None.
Proof.
  intros Hn Ha [H1 H2]%chain_app.
  assert (a ∉ l1 /\ a ∉ l2) as [Ha1 Ha2] by set_solver.
  edestruct (chain_join (<[a := mkNode (last_or l1 None) (hd_or l2 None)]> h) l1 l2) as [H1' H2'];
    [done|by apply chain_frame|by apply chain_frame|].
  apply chain_app. split; [exact H1'|]. split; [|exact H2'].
  unfold linked. rewrite join_frame by done. by rewrite lookup_insert_eq.
Qed.

Lemma unlinked_chain h l1 a l2 :
  NoDup (l1 ++ a :: l2) -> chain h None (l1 ++ a :: l2) None ->
  chain (unlinked h l1 l2) None (l1 ++ l2) None.
Proof.
  intros Hn [H1 [_ H2]]%chain_app. apply chain_app.
  eapply (chain_join h l1 l2); [|done..].
  apply NoDup_app in Hn as (? & Hd & [? ?]%NoDup_cons). apply NoDup_app. split_and!; [done| |done].
  intros x Hx Hx2. apply (Hd x Hx). set_solver.
Qed.

Lemma linked_frame h l1 a l2 b : b ∉ l1 ++ a :: l2 -> linked h l1 a l2 !! b = h !! b.
Proof.
  intros Hb. unfold linked. rewrite join_frame by set_solver.
  rewrite lookup_insert_ne; [done|]. set_solver.
Qed.

Lemma NoDup_insert (l1 l2 : list loc) a :
  NoDup (l1 ++ l2) -> a ∉ l1 ++ l2 -> NoDup (l1 ++ a :: l2).
Proof. intros. rewrite <- Permutation_middle. by constructor. Qed.

Lemma last_or_cons_Some (l : list loc) d d' :
  l ≠ [] -> last_or l d = last_or l d'.
Proof. destruct l; [done|]. done. Qed.

(** *** The operations implement lists *)

(** [LinkedList1_Prepend] adds the node in front. *)
Lemma Prepend_rep L h l node :
  rep L h l -> node ∉ l -> is_Some (h !! node) ->
  LinkedList1_Prepend L h node =
    Ok (mkList (Some node) (last_or (node :: l) None), linked h [] node l) /\
  rep (mkList (Some node) (last_or (node :: l) None)) (linked h [] node l) (node :: l).
Proof.
  intros [Hf Hl Hn Hc] Hnode Hs. split.
  - unfold LinkedList1_Prepend. rewrite init_node, Hf by done.
    destruct l as [|f l]; [done|]. cbn [hd_or].
    rewrite set_p_ok. { cbn. by rewrite Hl. }
    rewrite lookup_insert_ne by set_solver. eapply chain_dom; [exact Hc|set_solver].
  - split; [done|done|by constructor|]. by apply (linked_chain h [] node l).
Qed.

(** [LinkedList1_Append] adds the node at the end. *)
Lemma Append_rep L h l node :
  rep L h l -> node ∉ l -> is_Some (h !! node) ->
  LinkedList1_Append L h node =
    Ok (mkList (hd_or (l ++ [node]) None) (Some node), linked h l node []) /\
  rep (mkList (hd_or (l ++ [node]) None) (Some node)) (linked h l node []) (l ++ [node]).
Proof.
  intros [Hf Hl Hn Hc] Hnode Hs. split.
  - unfold LinkedList1_Append. rewrite init_node, Hl by done.
    destruct (rev_case l) as [->|(l' & e & ->)]; [done|]. rewrite last_or_snoc in *.
    rewrite set_n_ok.
    { cbn [mbind outcome_bind]. unfold linked. rewrite last_or_snoc, Hf. cbn. do 2 f_equal.
      by destruct l'. }
    rewrite lookup_insert_ne by set_solver. eapply chain_dom; [exact Hc|set_solver].
  - split; [done|by rewrite last_or_snoc|apply NoDup_insert; rewrite ?app_nil_r; done|].
    apply linked_chain; by rewrite app_nil_r.
Qed.

(** [LinkedList1_Remove] takes the node out of the list. *)
Lemma Remove_rep L h l1 node l2 :
  rep L h (l1 ++ node :: l2) ->
  LinkedList1_Remove L h node =
    Ok (mkList (hd_or (l1 ++ l2) None) (last_or (l1 ++ l2) None), unlinked h l1 l2) /\
  rep (mkList (hd_or (l1 ++ l2) None) (last_or (l1 ++ l2) None)) (unlinked h l1 l2) (l1 ++ l2).
Proof.
  intros [Hf Hl Hn Hc]. pose proof (chain_lookup _ _ _ _ _ _ Hc) as Ha. split.
  - unfold LinkedList1_Remove, get. rewrite Ha. cbn [of_option mbind outcome_bind p n].
    rewrite hd_or_app in *. rewrite !last_or_app in *. cbn in Hl, Hf.
    assert (forall b, b ∈ l1 ++ node :: l2 -> is_Some (h !! b)) as Hdom by (intros b; by eapply chain_dom).
    destruct (rev_case l1) as [->|(l1' & x & ->)].
    + cbn [last_or hd_or app]. destruct l2 as [|y l2]; cbn.
      { done. }
      rewrite set_p_ok by (apply Hdom; set_solver). cbn. by rewrite Hl.
    + rewrite last_or_snoc in *. rewrite set_n_ok by (apply Hdom; set_solver).
      cbn [mbind outcome_bind]. destruct l2 as [|y l2]; cbn [hd_or].
      { unfold unlinked. rewrite last_or_snoc, Hf. cbn. by destruct l1'. }
      rewrite set_p_ok by (rewrite upd_n_some; apply Hdom; set_solver).
      cbn [mbind outcome_bind]. unfold unlinked. rewrite last_or_snoc. cbn [hd_or].
      destruct L as [fL lL]. cbn in *. rewrite Hl, Hf. by destruct l1'.
  - split; [done|done| |by eapply unlinked_chain].
    rewrite <- Permutation_middle in Hn. by apply NoDup_cons in Hn as [_ ?].
Qed.

Lemma unlinked_frame h l1 l2 b : b ∉ l1 ++ l2 -> unlinked h l1 l2 !! b = h !! b.
Proof. apply join_frame. Qed.

(** [LinkedList1_InsertBefore] adds the node before [target]. *)
Lemma InsertBefore_rep L h l1 target l2 node :
  rep L h (l1 ++ target :: l2) -> node ∉ l1 ++ target :: l2 -> is_Some (h !! node) ->
  exists L', LinkedList1_InsertBefore L h node target = Ok (L', linked h l1 node (target :: l2)) /\
    rep L' (linked h l1 node (target :: l2)) (l1 ++ node :: target :: l2).
Proof.
  intros [Hf Hl Hn Hc] Hnode Hs. pose proof (chain_lookup _ _ _ _ _ _ Hc) as Ha.
  assert (forall b, b ∈ l1 ++ target :: l2 -> is_Some (h !! b)) as Hdom by (intros b; by eapply chain_dom).
  exists (mkList (hd_or (l1 ++ node :: target :: l2) None) (last L)). split.
  - unfold LinkedList1_InsertBefore, get. rewrite Ha. cbn [of_option mbind outcome_bind p n].
    rewrite init_node by done. destruct L as [fL lL]. cbn in Hf, Hl.
    destruct (rev_case l1) as [->|(l1' & x & ->)]; cbn [last_or].
    + cbn [mbind outcome_bind]. rewrite set_p_ok; [done|].
      rewrite lookup_insert_ne by set_solver. apply Hdom. set_solver.
    + rewrite last_or_snoc. rewrite set_n_ok.
      2:{ rewrite lookup_insert_ne by set_solver. apply Hdom. set_solver. }
      cbn [mbind outcome_bind]. rewrite set_p_ok.
      2:{ rewrite upd_n_some, lookup_insert_ne by set_solver. apply Hdom. set_solver. }
      cbn [mbind outcome_bind]. unfold linked. rewrite last_or_snoc, Hf. cbn. by destruct l1'.
  - split; [done| |by apply NoDup_insert|by apply linked_chain].
    cbn. by rewrite Hl, !last_or_app.
Qed.

(** [LinkedList1_InsertAfter] adds the node after [target]. *)
Lemma InsertAfter_rep L h l1 target l2 node :
  rep L h (l1 ++ target :: l2) -> node ∉ l1 ++ target :: l2 -> is_Some (h !! node) ->
  exists L' h', LinkedList1_InsertAfter L h node target = Ok (L', h') /\
    rep L' h' ((l1 ++ [target]) ++ node :: l2) /\
    forall b, b ∉ l1 ++ target :: node :: l2 -> h' !! b = h !! b.
Proof.
  intros [Hf Hl Hn Hc] Hnode Hs.
  assert (forall b, b ∈ l1 ++ target :: l2 -> is_Some (h !! b)) as Hdom by (intros b; by eapply chain_dom).
  pose proof (chain_lookup _ _ _ _ _ _ Hc) as Ha.
  assert (l1 ++ target :: l2 = (l1 ++ [target]) ++ l2) as El by (by rewrite <- app_assoc).
  exists (mkList (first L) (last_or (node :: l2) None)), (linked h (l1 ++ [target]) node l2).
  assert (target ≠ node) by set_solver.
  assert (target ∉ l2) by (apply NoDup_app in Hn as (_ & _ & [? _]%NoDup_cons); done).
  split_and!.
  - unfold LinkedList1_InsertAfter. destruct Hs as [nd Hs].
    assert (set_p h node (Some target) = Ok (<[node := mkNode (Some target) (n nd)]> h)) as ->
      by (unfold set_p, get; by rewrite Hs).
    cbn [mbind outcome_bind]. unfold get at 1.
    rewrite lookup_insert_ne, Ha by done. cbn [of_option mbind outcome_bind p n].
    assert (forall m m' v, set_n (<[node := mkNode m m']> h) node v = Ok (<[node := mkNode m v]> h)) as ->
      by (intros; unfold set_n, get; rewrite lookup_insert_eq; cbn; by rewrite insert_insert_eq).
    cbn [mbind outcome_bind]. unfold linked. rewrite last_or_snoc.
    destruct l2 as [|y l2]; cbn [hd_or last_or].
    + cbn [mbind outcome_bind]. rewrite set_n_ok; [done|].
      rewrite lookup_insert_ne by done. apply Hdom. set_solver.
    + rewrite set_p_ok by (rewrite lookup_insert_ne by set_solver; apply Hdom; set_solver).
      cbn [mbind outcome_bind]. rewrite set_n_ok.
      2:{ rewrite upd_p_some, lookup_insert_ne by set_solver. apply Hdom. set_solver. }
      cbn. destruct L as [fL lL]. cbn in *. rewrite Hl, last_or_app. cbn. do 2 f_equal.
      apply alter_alter_ne. set_solver.
  - split; cbn [first last].
    + rewrite Hf, El, !hd_or_app. by destruct l1.
    + by rewrite !last_or_app.
    + apply NoDup_insert; by rewrite <- El.
    + apply linked_chain; by rewrite <- El.
  - intros b Hb. apply linked_frame. set_solver.
Qed.

(** *** Sequences of operations *)

Inductive op :=
| OpPrepend (a : loc) | OpAppend (a : loc) | OpRemove (a : loc)
| OpInsertBefore (a t : loc) | OpInsertAfter (a t : loc).

Fixpoint insert_before (t a : loc) (l : list loc) : list loc :=
  match l with
  | [] => []
  | b :: l' => if decide (b = t) then a :: b :: l' else b :: insert_before t a l'
  end.
Fixpoint insert_after (t a : loc) (l : list loc) : list loc :=
  match l with
  | [] => []
  | b :: l' => if decide (b = t) then b :: a :: l' else b :: insert_after t a l'
  end.
Fixpoint remove_node (a : loc) (l : list loc) : list loc :=
  match l with
  | [] => []
  | b :: l' => if decide (b = a) then l' else b :: remove_node a l'
  end.

(** The operation on a mathematical list; [None] where the code requires a
    node that is in the list, or one that is not. *)
Definition abs_step (l : list loc) (o : op) : option (list loc) :=
  match o with
  | OpPrepend a => if decide (a ∈ l) then None else Some (a :: l)
  | OpAppend a => if decide (a ∈ l) then None else Some (l ++ [a])
  | OpRemove a => if decide (a ∈ l) then Some (remove_node a l) else None
  | OpInsertBefore a t =>
      if decide (t ∈ l /\ a ∉ l) then Some (insert_before t a l) else None
  | OpInsertAfter a t =>
      if decide (t ∈ l /\ a ∉ l) then Some (insert_after t a l) else None
  end.

Definition op_node (o : op) : loc :=
  match o with
  | OpPrepend a | OpAppend a | OpRemove a | OpInsertBefore a _ | OpInsertAfter a _ => a
  end.

Definition step (L : list1) (h : heap) (o : op) : outcome (list1 * heap) :=
  match o with
  | OpPrepend a => LinkedList1_Prepend L h a
  | OpAppend a => LinkedList1_Append L h a
  | OpRemove a => LinkedList1_Remove L h a
  | OpInsertBefore a t => LinkedList1_InsertBefore L h a t
  | OpInsertAfter a t => LinkedList1_InsertAfter L h a t
  end.

Lemma insert_before_split t a l1 l2 :
  t ∉ l1 -> insert_before t a (l1 ++ t :: l2) = l1 ++ a :: t :: l2.
Proof.
  induction l1 as [|b l1 IH]; cbn; intros; [by case_decide|].
  case_decide; [set_solver|]. rewrite IH; [done|set_solver].
Qed.
Lemma insert_after_split t a l1 l2 :
  t ∉ l1 -> insert_after t a (l1 ++ t :: l2) = l1 ++ t :: a :: l2.
Proof.
  induction l1 as [|b l1 IH]; cbn; intros; [by case_decide|].
  case_decide; [set_solver|]. rewrite IH; [done|set_solver].
Qed.
Lemma remove_node_split a l1 l2 : a ∉ l1 -> remove_node a (l1 ++ a :: l2) = l1 ++ l2.
Proof.
  induction l1 as [|b l1 IH]; cbn; intros; [by case_decide|].
  case_decide; [set_solver|]. rewrite IH; [done|set_solver].
Qed.

Lemma split_at l (a : loc) : a ∈ l -> exists l1 l2, l = l1 ++ a :: l2 /\ a ∉ l1.
Proof. intros (l1 & l2 & -> & H)%list_elem_of_split_l. eauto. Qed.

(** on a heap list that represents the list of nodes [l], each operation
    of LinkedList1 whose precondition holds (the inserted node is allocated
    and not in the list, the target or removed node is in it) succeeds, ends
    in a heap list that represents the corresponding list, and changes no
    node outside of the old and new list. *)
Theorem LinkedList1_refines_list L h l o l' :
  rep L h l -> is_Some (h !! op_node o) -> abs_step l o = Some l' ->
  exists L' h', step L h o = Ok (L', h') /\ rep L' h' l' /\
    forall b, b ∉ l ++ l' -> h' !! b = h !! b.
Proof.
  intros Hr Hs Ha. destruct o; cbn in Ha, Hs; case_decide as Hd; simplify_eq; cbn [step].
  - destruct (Prepend_rep _ _ _ _ Hr Hd Hs) as [-> ?]. do 2 eexists. split_and!; [done|done|].
    intros b Hb. apply linked_frame. set_solver.
  - destruct (Append_rep _ _ _ _ Hr Hd Hs) as [-> ?]. do 2 eexists. split_and!; [done|done|].
    intros b Hb. apply linked_frame. set_solver.
  - apply split_at in Hd as (l1 & l2 & -> & ?). rewrite remove_node_split by done.
    destruct (Remove_rep _ _ _ _ _ Hr) as [-> ?]. do 2 eexists. split_and!; [done|done|].
    intros b Hb. apply unlinked_frame. set_solver.
  - destruct Hd as [(l1 & l2 & -> & ?)%split_at Hd]. rewrite insert_before_split by done.
    destruct (InsertBefore_rep _ _ _ _ _ _ Hr Hd Hs) as (L' & -> & ?).
    do 2 eexists. split_and!; [done|done|]. intros b Hb. apply linked_frame. set_solver.
  - destruct Hd as [(l1 & l2 & -> & ?)%split_at Hd]. rewrite insert_after_split by done.
    destruct (InsertAfter_rep _ _ _ _ _ _ Hr Hd Hs) as (L' & h' & -> & Hr' & Hf).
    do 2 eexists. split_and!; [done| |].
    + by rewrite <- app_assoc in Hr'.
    + intros b Hb. apply Hf. set_solver.
Qed.

(** A list of two nodes and a free node. *)
Definition example_heap : heap :=
  <[1%positive := mkNode None (Some 2%positive)]>
    (<[2%positive := mkNode (Some 1%positive) None]>
      (<[3%positive := mkNode None None]> ∅)).

Lemma LinkedList1_refines_list_witness :
  exists L' h',
    step (mkList (Some 1%positive) (Some 2%positive)) example_heap
      (OpInsertAfter 3%positive 1%positive) = Ok (L', h') /\
    rep L' h' [1%positive; 3%positive; 2%positive] /\
    forall b, b ∉ [1%positive; 2%positive] ++ [1%positive; 3%positive; 2%positive] ->
      h' !! b = example_heap !! b.
Proof.
  apply (LinkedList1_refines_list _ _ [1%positive; 2%positive]).
  - split; [done|done| |done]. apply (bool_decide_eq_true (NoDup [1%positive; 2%positive])). by vm_compute.
  - by eexists.
  - by vm_compute.
Defined.
End LinkedList1.
