(* ===== verification/Pending.v ===== *)
(** * Jobs of the reactor (badvpn/base/BPending.c)

    A [BPendingGroup] holds the jobs that are to be executed before control
    returns to the event loop. The group is an intrusive [SLinkedList]
    (badvpn/structure/SLinkedList_impl.h, instance BPending__List, without
    the [last] pointer); a job that is not pending points to itself.

    Modelled with the jobs in a heap, and proved to be a stack of jobs without
    duplicates: the job that was set last is executed first. *)
From Stdlib Require Import ZArith Lia.
From stdpp Require Import base tactics numbers option gmap list.
From S2P Require Import Prelude LinkedList.

Module BPending.

(** [BSmallPending]: [handler] and [user] stand for the function and its
    argument; [next] and [prev] are the fields of [pending_node]. *)
Record BSmallPending := mkJob {
  handler : Z; user : Z; next : option loc; prev : option loc; pending : bool
}.
Abbreviation heap := (gmap loc BSmallPending).

(** [BPendingGroup]: [first] of the job list. *)
Abbreviation BPendingGroup := (option loc).

Definition get (h : heap) (a : loc) : outcome BSmallPending := of_option (h !! a).
Definition put_next (h : heap) (a : loc) (v : option loc) : outcome heap :=
  get h a ≫= fun j => Ok (<[a := mkJob (handler j) (user j) v (prev j) (pending j)]> h).
Definition put_prev (h : heap) (a : loc) (v : option loc) : outcome heap :=
  get h a ≫= fun j => Ok (<[a := mkJob (handler j) (user j) (next j) v (pending j)]> h).
Definition put_pending (h : heap) (a : loc) (v : bool) : outcome heap :=
  get h a ≫= fun j => Ok (<[a := mkJob (handler j) (user j) (next j) (prev j) v]> h).
Definition put_handler (h : heap) (a : loc) (f u : Z) : outcome heap :=
  get h a ≫= fun j => Ok (<[a := mkJob f u (next j) (prev j) (pending j)]> h).

(** ** The instance BPending__List of SLinkedList *)
Definition SLinkedListMarkRemoved (h : heap) (entry : loc) : outcome heap :=
  put_next h entry (Some entry).

Definition SLinkedListIsRemoved (h : heap) (entry : loc) : outcome bool :=
  get h entry ≫= fun j => Ok (bool_decide (next j = Some entry)).

Definition SLinkedList_Init : BPendingGroup := None.

Definition SLinkedList_Prepend (g : BPendingGroup) (h : heap) (entry : loc)
    : outcome (BPendingGroup * heap) :=
  put_next h entry g ≫= fun h =>
  match g with
  | Some f => put_prev h f (Some entry)
  | None => Ok h
  end ≫= fun h => Ok (Some entry, h).

Definition SLinkedList_Remove (g : BPendingGroup) (h : heap) (entry : loc)
    : outcome (BPendingGroup * heap) :=
  get h entry ≫= fun j =>
  if decide (g = Some entry) then Ok (next j, h) else
  of_option (prev j) ≫= fun pr =>
  put_next h pr (next j) ≫= fun h =>
  match next j with
  | Some nx => put_prev h nx (prev j)
  | None => Ok h
  end ≫= fun h => Ok (g, h).

Definition SLinkedList_RemoveFirst (g : BPendingGroup) (h : heap) : outcome BPendingGroup :=
  of_option g ≫= fun f => get h f ≫= fun j => Ok (next j).

Definition SLinkedList_First (g : BPendingGroup) : option loc := g.
Definition SLinkedList_IsEmpty (g : BPendingGroup) : bool :=
  match g with None => true | Some _ => false end.

(** ** BPending.c *)
Definition BPendingGroup_Init : BPendingGroup := SLinkedList_Init.

Definition BPendingGroup_HasJobs (g : BPendingGroup) : bool := negb (SLinkedList_IsEmpty g).

Definition BPendingGroup_PeekJob (g : BPendingGroup) : option loc := SLinkedList_First g.

(** The assertion [o->pending == !BPending__ListIsRemoved(o)]; returns the
    right-hand side. *)
Definition check_pending (h : heap) (o : loc) : outcome bool :=
  SLinkedListIsRemoved h o ≫= fun removed =>
  get h o ≫= fun j =>
  ASSERT (Bool.eqb (pending j) (negb removed));;
  Ok (negb removed).

(** Executes the first job: the result holds the handler call that the code
    ends with, its function and argument. *)
Definition BPendingGroup_ExecuteJob (g : BPendingGroup) (h : heap)
    : outcome (BPendingGroup * heap * (Z * Z)) :=
  ASSERT (negb (SLinkedList_IsEmpty g));;
  of_option (SLinkedList_First g) ≫= fun p =>
  SLinkedListIsRemoved h p ≫= fun removed =>
  ASSERT (negb removed);;
  get h p ≫= fun j =>
  ASSERT (pending j);;
  SLinkedList_RemoveFirst g h ≫= fun g =>
  SLinkedListMarkRemoved h p ≫= fun h =>
  put_pending h p false ≫= fun h =>
  get h p ≫= fun j => Ok (g, h, (handler j, user j)).

Definition BSmallPending_Init (h : heap) (o : loc) (f u : Z) : outcome heap :=
  put_handler h o f u ≫= fun h =>
  SLinkedListMarkRemoved h o ≫= fun h =>
  put_pending h o false.

Definition BSmallPending_Free (g : BPendingGroup) (h : heap) (o : loc)
    : outcome (BPendingGroup * heap) :=
  check_pending h o ≫= fun (is_pending : bool) =>
  if is_pending then SLinkedList_Remove g h o else Ok (g, h).

Definition BSmallPending_SetHandler (h : heap) (o : loc) (f u : Z) : outcome heap :=
  put_handler h o f u.

Definition BSmallPending_Set (g : BPendingGroup) (h : heap) (o : loc)
    : outcome (BPendingGroup * heap) :=
  check_pending h o ≫= fun (is_pending : bool) =>
  (if is_pending then SLinkedList_Remove g h o else Ok (g, h)) ≫= fun (gh : BPendingGroup * heap) => let '(g, h) := gh in
  SLinkedList_Prepend g h o ≫= fun (gh : BPendingGroup * heap) => let '(g, h) := gh in
  put_pending h o true ≫= fun h => Ok (g, h).

Definition BSmallPending_Unset (g : BPendingGroup) (h : heap) (o : loc)
    : outcome (BPendingGroup * heap) :=
  check_pending h o ≫= fun (is_pending : bool) =>
  if is_pending then
    SLinkedList_Remove g h o ≫= fun (gh : BPendingGroup * heap) => let '(g, h) := gh in
    SLinkedListMarkRemoved h o ≫= fun h =>
    put_pending h o false ≫= fun h => Ok (g, h)
  else Ok (g, h).

Definition BSmallPending_IsSet (h : heap) (o : loc) : outcome bool := check_pending h o.

(** [BPending] is a [BSmallPending] with a pointer to its group: with one
    group, its operations are those of the small object. *)
Definition BPending_Init := BSmallPending_Init.
Definition BPending_Free := BSmallPending_Free.
Definition BPending_Set := BSmallPending_Set.
Definition BPending_Unset := BSmallPending_Unset.
Definition BPending_IsSet := BSmallPending_IsSet.

(** ** Representation *)
Import LinkedList1(hd_or, last_or, hd_or_app, last_or_app, last_or_snoc, rev_case).

(** The pending jobs [l] are chained in [h], the first one after [pr]; the
    [prev] field of the first job of the group is not used. *)
Fixpoint chain (h : heap) (pr : option loc) (l : list loc) (nx : option loc) : Prop :=
  match l with
  | [] => True
  | a :: l' =>
      (exists j, h !! a = Some j /\ next j = hd_or l' nx /\ pending j = true /\
                 (pr = None \/ prev j = pr)) /\
      chain h (Some a) l' nx
  end.

(** The group [g] with the jobs [live] in [h] has the pending jobs [l], in
    the order of execution. *)
Record rep (g : BPendingGroup) (h : heap) (live : gset loc) (l : list loc) : Prop := {
  rep_first : g = hd_or l None;
  rep_nodup : NoDup l;
  rep_chain : chain h None l None;
  rep_live : forall a, a ∈ l -> a ∈ live;
  rep_idle : forall a, a ∈ live -> a ∉ l ->
    exists j, h !! a = Some j /\ next j = Some a /\ pending j = false
}.

Lemma chain_cons h pr a l nx :
  chain h pr (a :: l) nx <->
  (exists j, h !! a = Some j /\ next j = hd_or l nx /\ pending j = true /\
             (pr = None \/ prev j = pr)) /\ chain h (Some a) l nx.
Proof. done. Qed.

Lemma jobs_app h pr l1 l2 nx :
  chain h pr (l1 ++ l2) nx <-> chain h pr l1 (hd_or l2 nx) /\ chain h (last_or l1 pr) l2 nx.
Proof.
  revert pr; induction l1 as [|a l1 IH]; cbn; intros pr; [naive_solver|].
  rewrite IH, hd_or_app. naive_solver.
Qed.

Lemma jobs_ext h h' pr l nx :
  (forall b, b ∈ l -> h' !! b = h !! b) -> chain h pr l nx -> chain h' pr l nx.
Proof.
  revert pr; induction l as [|b l IH]; cbn; intros pr He; [done|].
  intros [? ?]. rewrite He by set_solver. split; [done|]. apply IH; [set_solver|done].
Qed.

Lemma chain_weaken h pr l nx : chain h pr l nx -> chain h None l nx.
Proof. destruct l; cbn; naive_solver. Qed.

Lemma chain_node h pr l1 a l2 nx :
  chain h pr (l1 ++ a :: l2) nx ->
  exists j, h !! a = Some j /\ next j = hd_or l2 nx /\ pending j = true /\
    (last_or l1 pr = None \/ prev j = last_or l1 pr).
Proof. rewrite jobs_app. cbn. naive_solver. Qed.

Lemma put_next_ok h a j v :
  h !! a = Some j ->
  put_next h a v = Ok (<[a := mkJob (handler j) (user j) v (prev j) (pending j)]> h).
Proof. intros H. unfold put_next, get. by rewrite H. Qed.
Lemma put_prev_ok h a j v :
  h !! a = Some j ->
  put_prev h a v = Ok (<[a := mkJob (handler j) (user j) (next j) v (pending j)]> h).
Proof. intros H. unfold put_prev, get. by rewrite H. Qed.
Lemma put_pending_ok h a j v :
  h !! a = Some j ->
  put_pending h a v = Ok (<[a := mkJob (handler j) (user j) (next j) (prev j) v]> h).
Proof. intros H. unfold put_pending, get. by rewrite H. Qed.

(** A job is pending for the code exactly if it is in the list. *)
Lemma check_pending_ok g h live l a :
  rep g h live l -> a ∈ live -> check_pending h a = Ok (bool_decide (a ∈ l)).
Proof.
  intros [_ Hn Hc _ Hi] Ha. unfold check_pending, SLinkedListIsRemoved, get.
  destruct (decide (a ∈ l)) as [Hl|Hl].
  - apply list_elem_of_split in Hl as (l1 & l2 & ->).
    destruct (chain_node _ _ _ _ _ _ Hc) as (j & Hj & Hnx & Hp & _).
    rewrite Hj. cbn. rewrite Hp, Hnx, (bool_decide_eq_true_2 (a ∈ _)) by set_solver.
    rewrite bool_decide_eq_false_2; [done|].
    destruct l2 as [|b l2]; cbn; [done|]. intros [= ->].
    apply NoDup_app in Hn as (_ & _ & [Hn _]%NoDup_cons). set_solver.
  - destruct (Hi a Ha Hl) as (j & Hj & Hnx & Hp). rewrite Hj. cbn.
    rewrite Hnx, Hp, (bool_decide_eq_true_2 (Some a = Some a)) by done. cbn.
    by rewrite bool_decide_eq_false_2.
Qed.

(** Relinking the last job of a list, and the first. *)
Lemma chain_relink_last h pr l x j v nx :
  x ∉ l -> h !! x = Some j -> chain h pr (l ++ [x]) nx ->
  chain (<[x := mkJob (handler j) (user j) v (prev j) (pending j)]> h) pr (l ++ [x]) v.
Proof.
  intros Hx Hj. rewrite !jobs_app. cbn. intros [H1 [(j' & Hj' & _ & ? & ?) _]].
  simplify_eq. split.
  - eapply jobs_ext; [|exact H1]. intros b Hb. rewrite lookup_insert_ne; [done|]. set_solver.
  - split; [|done]. eexists. rewrite lookup_insert_eq. split_and!; [done|done|done|done].
Qed.

Lemma chain_relink_first h pr l y j v nx :
  y ∉ l -> h !! y = Some j -> chain h pr (y :: l) nx ->
  chain (<[y := mkJob (handler j) (user j) (next j) v (pending j)]> h) v (y :: l) nx.
Proof.
  intros Hy Hj. cbn. intros [(j' & Hj' & ? & ? & ?) H2]. simplify_eq. split.
  - eexists. rewrite lookup_insert_eq. split_and!; [done|done|done|by right].
  - eapply jobs_ext; [|exact H2]. intros b Hb. rewrite lookup_insert_ne; [done|]. set_solver.
Qed.

Lemma remove_ok g h l1 a l2 :
  g = hd_or (l1 ++ a :: l2) None -> NoDup (l1 ++ a :: l2) -> chain h None (l1 ++ a :: l2) None ->
  exists h', SLinkedList_Remove g h a = Ok (hd_or (l1 ++ l2) None, h') /\
    chain h' None (l1 ++ l2) None /\ (forall b, b ∉ l1 ++ l2 -> h' !! b = h !! b).
Proof.
  intros -> Hn Hc. destruct (chain_node _ _ _ _ _ _ Hc) as (j & Hj & Hnx & Hp & Hpr).
  unfold SLinkedList_Remove, get. rewrite Hj. cbn [of_option mbind outcome_bind].
  destruct (rev_case l1) as [->|(l1' & x & ->)].
  { cbn [app hd_or]. rewrite decide_True by done. exists h. rewrite Hnx.
    split_and!; [done| |done]. cbn in Hc. destruct Hc as [_ Hc]. by eapply chain_weaken. }
  rewrite last_or_snoc in Hpr. destruct Hpr as [?|Hpr]; [done|]. rewrite Hpr.
  apply NoDup_app in Hn as (Hn1 & Hd & Hn2). apply NoDup_cons in Hn2 as [Ha2 Hn2].
  rewrite decide_False.
  2:{ destruct l1' as [|z l1']; cbn; intros [= ->]; apply (Hd a); set_solver. }
  cbn [of_option mbind outcome_bind].
  apply jobs_app in Hc as [Hc1 [_ Hc2]]. rewrite Hnx.
  destruct (chain_node _ _ _ _ _ _ Hc1) as (jx & Hjx & _).
  rewrite (put_next_ok _ _ _ _ Hjx). cbn [mbind outcome_bind].
  apply NoDup_app in Hn1 as (_ & Hd1 & _).
  assert (x ∉ l1') as Hxl by (intros ?; apply (Hd1 x); set_solver).
  pose proof (chain_relink_last _ _ _ _ _ (hd_or l2 None) _ Hxl Hjx Hc1) as Hc1'.
  assert (forall b, b ∈ l2 -> b ≠ x) as Hx2 by (intros b Hb ->; eapply (Hd x); set_solver).
  assert (chain (<[x := mkJob (handler jx) (user jx) (hd_or l2 None) (prev jx) (pending jx)]> h)
            (Some a) l2 None) as Hc2'.
  { eapply jobs_ext; [|exact Hc2]. intros b Hb. rewrite lookup_insert_ne; [done|]. naive_solver. }
  rewrite !hd_or_app. cbn [hd_or].
  destruct l2 as [|y l2]; cbn [hd_or].
  - eexists. split_and!; [by destruct l1'|by rewrite app_nil_r|].
    intros b Hb. rewrite lookup_insert_ne; [done|]. set_solver.
  - destruct (chain_node _ _ [] _ _ _ Hc2') as (jy & Hjy & _).
    rewrite (put_prev_ok _ _ _ _ Hjy). eexists. split_and!; [by destruct l1'| |].
    + apply jobs_app. rewrite last_or_snoc. split.
      * eapply jobs_ext; [|exact Hc1']. intros b Hb.
        rewrite (lookup_insert_ne _ y); [done|]. intros ->. eapply Hd; [exact Hb|set_solver].
      * eapply chain_relink_first; [|exact Hjy|exact Hc2']. by apply NoDup_cons in Hn2 as [? _].
    + intros b Hb. rewrite !lookup_insert_ne; set_solver.
Qed.

(** What [BSmallPending_Set] does with a job that is not in the list. *)
Lemma prepend_ok g h l a j :
  g = hd_or l None -> NoDup l -> chain h None l None -> a ∉ l -> h !! a = Some j ->
  exists h', (SLinkedList_Prepend g h a ≫= fun gh => let '(g, h) := gh in
              put_pending h a true ≫= fun h => Ok (g, h)) = Ok (Some a, h') /\
    chain h' None (a :: l) None /\ (forall b, b ∉ a :: l -> h' !! b = h !! b) /\
    exists j', h' !! a = Some j' /\ handler j' = handler j /\ user j' = user j.
Proof.
  intros -> Hn Hc Ha Hj. unfold SLinkedList_Prepend. rewrite (put_next_ok _ _ _ _ Hj).
  cbn [mbind outcome_bind].
  set (h1 := <[a := _]> h).
  assert (chain h1 None l None) as Hc1.
  { eapply jobs_ext; [|exact Hc]. intros b Hb. unfold h1. rewrite lookup_insert_ne; [done|]. set_solver. }
  assert (h1 !! a = Some (mkJob (handler j) (user j) (hd_or l None) (prev j) (pending j))) as Ha1
    by (unfold h1; by rewrite lookup_insert_eq).
  destruct l as [|y l]; cbn [hd_or].
  - cbn [mbind outcome_bind]. erewrite put_pending_ok by exact Ha1. eexists.
    split_and!; [done| | |].
    + cbn. split; [|done]. eexists. rewrite lookup_insert_eq. naive_solver.
    + intros b Hb. unfold h1. rewrite !lookup_insert_ne; set_solver.
    + eexists. rewrite lookup_insert_eq. done.
  - destruct (chain_node _ _ [] _ _ _ Hc1) as (jy & Hjy & _).
    rewrite (put_prev_ok _ _ _ _ Hjy). cbn [mbind outcome_bind].
    apply NoDup_cons in Hn as [Hy _]. apply not_elem_of_cons in Ha as [Hay Ha].
    pose proof (chain_relink_first _ _ _ _ _ (Some a) _ Hy Hjy Hc1) as Hc2.
    erewrite put_pending_ok by (by rewrite lookup_insert_ne). eexists.
    split_and!; [done| | |].
    + apply chain_cons. split.
      { eexists. rewrite lookup_insert_eq. split_and!; [done|done|done|by left]. }
      eapply jobs_ext; [|exact Hc2]. intros b Hb. rewrite (lookup_insert_ne _ a); [done|]. set_solver.
    + intros b Hb. unfold h1. rewrite !lookup_insert_ne; set_solver.
    + eexists. rewrite lookup_insert_eq. done.
Qed.

Lemma jobs_dom h pr l nx b : chain h pr l nx -> b ∈ l -> exists j, h !! b = Some j.
Proof.
  intros Hc (l1 & l2 & ->)%list_elem_of_split.
  destruct (chain_node _ _ _ _ _ _ Hc) as (j & ? & _). eauto.
Qed.

Lemma rep_dom g h live l a : rep g h live l -> a ∈ live -> exists j, h !! a = Some j.
Proof.
  intros [_ _ Hc _ Hi] Ha. destruct (decide (a ∈ l)); [by eapply jobs_dom|].
  destruct (Hi a) as (j & ? & _); eauto.
Qed.

(** ** The group as a stack of jobs *)

(** The function and argument of every job stay the same. *)
Definition same_code (h h' : heap) : Prop :=
  forall b j, h !! b = Some j ->
    exists j', h' !! b = Some j' /\ handler j' = handler j /\ user j' = user j.

#[global] Instance same_code_preorder : PreOrder same_code.
Proof.
  split; [by intros h b j H; exists j|].
  intros h1 h2 h3 H12 H23 b j Hj. destruct (H12 _ _ Hj) as (j2 & Hj2 & E1 & E2).
  destruct (H23 _ _ Hj2) as (j3 & Hj3 & ? & ?). exists j3. split_and!; congruence.
Qed.

Lemma same_code_insert h a j j' :
  h !! a = Some j -> handler j' = handler j -> user j' = user j -> same_code h (<[a := j']> h).
Proof.
  intros Hj ? ? b jb Hb. destruct (decide (b = a)) as [->|].
  - rewrite lookup_insert_eq. exists j'. simplify_eq. done.
  - rewrite lookup_insert_ne by done. by exists jb.
Qed.

Lemma put_same_code h a h' :
  (exists v, put_next h a v = Ok h') \/ (exists v, put_prev h a v = Ok h') \/
  (exists v, put_pending h a v = Ok h') -> same_code h h'.
Proof.
  unfold put_next, put_prev, put_pending, get.
  destruct (h !! a) as [j|] eqn:E; cbn; [|naive_solver].
  intros [[v [= <-]]|[[v [= <-]]|[v [= <-]]]]; by eapply same_code_insert.
Qed.
#[local] Hint Resolve put_same_code : vpn.

Lemma remove_same_code g h a g' h' :
  SLinkedList_Remove g h a = Ok (g', h') -> same_code h h'.
Proof.
  unfold SLinkedList_Remove. intros (j & Hj & H)%bind_Ok. case_decide.
  { injection H as _ <-. reflexivity. }
  apply bind_Ok in H as (pr & _ & (h1 & H1 & (h2 & H2 & [= _ <-])%bind_Ok)%bind_Ok).
  transitivity h1; [eauto with vpn|]. destruct (next j); [eauto with vpn|].
  injection H2 as <-. reflexivity.
Qed.

(** [rep] with the code of the jobs: [code] maps the live jobs to their
    function and argument. *)
Definition rep_code (g : BPendingGroup) (h : heap) (code : gmap loc (Z * Z)) (l : list loc) : Prop :=
  rep g h (dom code) l /\
  forall a f u, code !! a = Some (f, u) -> exists j, h !! a = Some j /\ handler j = f /\ user j = u.

Inductive op :=
| OpInit (a : loc) (f u : Z) | OpFree (a : loc) | OpSet (a : loc) | OpUnset (a : loc) | OpExec.

(** The stack: the jobs that exist with their code, and the pending ones. *)
Definition abs_step (code : gmap loc (Z * Z)) (l : list loc) (o : op)
    : option (gmap loc (Z * Z) * list loc * option (Z * Z)) :=
  match o with
  | OpInit a f u => if decide (a ∈ dom code) then None else Some (<[a := (f, u)]> code, l, None)
  | OpFree a =>
      if decide (a ∈ dom code)
      then Some (delete a code, LinkedList1.remove_node a l, None) else None
  | OpSet a =>
      if decide (a ∈ dom code)
      then Some (code, a :: LinkedList1.remove_node a l, None) else None
  | OpUnset a =>
      if decide (a ∈ dom code) then Some (code, LinkedList1.remove_node a l, None) else None
  | OpExec =>
      match l with
      | [] => None
      | a :: l' => match code !! a with Some c => Some (code, l', Some c) | None => None end
      end
  end.

Definition step (g : BPendingGroup) (h : heap) (o : op)
    : outcome (BPendingGroup * heap * option (Z * Z)) :=
  match o with
  | OpInit a f u => BPending_Init h a f u ≫= fun h => Ok (g, h, None)
  | OpFree a => BPending_Free g h a ≫= fun gh => Ok (gh, None)
  | OpSet a => BPending_Set g h a ≫= fun gh => Ok (gh, None)
  | OpUnset a => BPending_Unset g h a ≫= fun gh => Ok (gh, None)
  | OpExec => BPendingGroup_ExecuteJob g h ≫= fun ghc => Ok (ghc.1, Some ghc.2)
  end.

Lemma remove_node_not_in a l : a ∉ l -> LinkedList1.remove_node a l = l.
Proof.
  induction l as [|b l IH]; cbn; [done|]. intros [? ?]%not_elem_of_cons.
  rewrite decide_False by done. by rewrite IH.
Qed.

(** Removing a job if it is pending, the first part of Free, Set and Unset. *)
Lemma remove_if_rep g h live l a :
  rep g h live l -> a ∈ live ->
  exists g' h', (check_pending h a ≫= fun (b : bool) =>
      if b then SLinkedList_Remove g h a else Ok (g, h)) = Ok (g', h') /\
    g' = hd_or (LinkedList1.remove_node a l) None /\
    NoDup (LinkedList1.remove_node a l) /\ chain h' None (LinkedList1.remove_node a l) None /\
    a ∉ LinkedList1.remove_node a l /\ (forall b, b ∈ l <-> b ∈ LinkedList1.remove_node a l \/ (b = a /\ a ∈ l)) /\
    same_code h h' /\ (forall b, b ∉ LinkedList1.remove_node a l -> h' !! b = h !! b).
Proof.
  intros Hr Ha. rewrite (check_pending_ok _ _ _ _ _ Hr Ha). cbn [mbind outcome_bind].
  destruct Hr as [Hf Hn Hc Hl Hi]. case_bool_decide as Hin.
  - destruct (LinkedList1.split_at l a Hin) as (l1 & l2 & -> & Hl1).
    rewrite LinkedList1.remove_node_split by done.
    destruct (remove_ok g h l1 a l2 Hf Hn Hc) as (h' & E & Hc' & Hfr).
    exists (hd_or (l1 ++ l2) None), h'. split_and!; try done.
    + rewrite <- Permutation_middle in Hn. by apply NoDup_cons in Hn as [_ ?].
    + rewrite <- Permutation_middle in Hn. by apply NoDup_cons in Hn as [? _].
    + set_solver.
    + by eapply remove_same_code.
  - rewrite remove_node_not_in by done. exists g, h. split_and!; try done. set_solver.
Qed.

Lemma put_pending_after_prepend g h a h' :
  (SLinkedList_Prepend g h a ≫= fun (gh : BPendingGroup * heap) => let '(g, h) := gh in
     put_pending h a true ≫= fun h => Ok (g, h)) = Ok (Some a, h') -> same_code h h'.
Proof.
  unfold SLinkedList_Prepend. intros ([g1 h1] & E & (h2 & E2 & [= _ <-])%bind_Ok)%bind_Ok.
  apply bind_Ok in E as (h3 & E3 & (h4 & E4 & [= <- <-])%bind_Ok).
  transitivity h3; [eauto with vpn|]. transitivity h4; [|eauto with vpn].
  destruct g; [eauto with vpn|]. injection E4 as <-. reflexivity.
Qed.

Lemma rep_code_same h h' (code : gmap loc (Z * Z)) :
  same_code h h' ->
  (forall a f u, code !! a = Some (f, u) -> exists j, h !! a = Some j /\ handler j = f /\ user j = u) ->
  forall a f u, code !! a = Some (f, u) -> exists j, h' !! a = Some j /\ handler j = f /\ user j = u.
Proof.
  intros Hs Hc a f u Ha. destruct (Hc a f u Ha) as (j & Hj & <- & <-).
  destruct (Hs a j Hj) as (j' & ? & ? & ?). eauto.
Qed.

Lemma init_ok h a j f u :
  h !! a = Some j ->
  exists j', BPending_Init h a f u = Ok (<[a := j']> h) /\ handler j' = f /\ user j' = u /\
    next j' = Some a /\ pending j' = false.
Proof.
  intros Hj. unfold BPending_Init, BSmallPending_Init, put_handler, get. rewrite Hj. cbn.
  unfold SLinkedListMarkRemoved, put_next, put_pending, get. rewrite lookup_insert_eq. cbn.
  rewrite lookup_insert_eq. cbn. rewrite !insert_insert_eq. eexists. split; [done|]. done.
Qed.

Lemma idle_ok h a j :
  h !! a = Some j ->
  exists j', (SLinkedListMarkRemoved h a ≫= fun h => put_pending h a false) = Ok (<[a := j']> h) /\
    handler j' = handler j /\ user j' = user j /\ next j' = Some a /\ pending j' = false.
Proof.
  intros Hj. unfold SLinkedListMarkRemoved. erewrite put_next_ok by done. cbn [mbind outcome_bind].
  erewrite put_pending_ok by apply lookup_insert_eq. rewrite insert_insert_eq. eauto 6.
Qed.

(** Each operation refines its counterpart on the stack. *)
Lemma init_refines g h code l a f u j :
  rep_code g h code l -> a ∉ dom code -> h !! a = Some j ->
  exists h', BPending_Init h a f u = Ok h' /\ rep_code g h' (<[a := (f, u)]> code) l.
Proof.
  intros [[Hf Hn Hc Hl Hi] Hcode] Ha Hj.
  destruct (init_ok h a j f u Hj) as (j' & E & ? & ? & ? & ?). exists (<[a := j']> h).
  assert (a ∉ l) by (intros ?%Hl; done).
  split; [done|]. split; [split|].
  - done.
  - done.
  - eapply jobs_ext; [|exact Hc]. intros b Hb. rewrite lookup_insert_ne; [done|]. set_solver.
  - intros b Hb. rewrite dom_insert. set_solver.
  - intros b Hb Hbl. destruct (decide (b = a)) as [->|].
    + rewrite lookup_insert_eq. eauto.
    + rewrite lookup_insert_ne by done. apply Hi; set_solver.
  - intros b f' u' Hb. destruct (decide (b = a)) as [->|].
    + rewrite lookup_insert_eq in Hb. rewrite lookup_insert_eq. simplify_eq. eauto.
    + rewrite lookup_insert_ne in Hb by done. rewrite lookup_insert_ne by done. eauto.
Qed.

Lemma free_refines g h code l a :
  rep_code g h code l -> a ∈ dom code ->
  exists g' h', BPending_Free g h a = Ok (g', h') /\
    rep_code g' h' (delete a code) (LinkedList1.remove_node a l).
Proof.
  intros [Hr Hcode] Ha.
  destruct (remove_if_rep _ _ _ _ _ Hr Ha) as (g' & h' & E & Hf & Hn & Hc & Hna & Hin & Hs & Hfr).
  exists g', h'. split; [exact E|]. destruct Hr as [_ _ _ Hl Hi]. split; [split|]; [done|done|done| | |].
  - intros b Hb. rewrite dom_delete. apply elem_of_difference. split; [apply Hl, Hin; by left|set_solver].
  - intros b Hb Hbl. rewrite dom_delete in Hb. rewrite Hfr by done. apply Hi; [set_solver|].
    intros [?|[-> _]]%Hin; set_solver.
  - intros b f u Hb. apply lookup_delete_Some in Hb as [? Hb]. by eapply rep_code_same.
Qed.

Lemma set_refines g h code l a :
  rep_code g h code l -> a ∈ dom code ->
  exists g' h', BPending_Set g h a = Ok (g', h') /\
    rep_code g' h' code (a :: LinkedList1.remove_node a l).
Proof.
  intros [Hr Hcode] Ha. destruct (rep_dom _ _ _ _ _ Hr Ha) as [j Hj].
  destruct (remove_if_rep _ _ _ _ _ Hr Ha) as (g1 & h1 & E & Hf & Hn & Hc & Hna & Hin & Hs & Hfr).
  destruct (Hs a j Hj) as (j1 & Hj1 & ? & ?).
  destruct (prepend_ok g1 h1 _ a j1 Hf Hn Hc Hna Hj1) as (h2 & E2 & Hc2 & Hfr2 & j2 & Hj2 & ? & ?).
  exists (Some a), h2. split.
  { unfold BPending_Set, BSmallPending_Set. rewrite (check_pending_ok _ _ _ _ _ Hr Ha) in E |- *.
    cbn [mbind outcome_bind] in E |- *. rewrite E. exact E2. }
  destruct Hr as [_ _ _ Hl Hi]. split; [split|].
  - done.
  - by apply NoDup_cons.
  - done.
  - intros b [->|Hb]%elem_of_cons; [done|]. apply Hl, Hin. by left.
  - intros b Hb Hbl. rewrite Hfr2 by done. apply not_elem_of_cons in Hbl as [? ?].
    rewrite Hfr by done. apply Hi; [done|]. intros [?|[? _]]%Hin; done.
  - eapply rep_code_same; [|exact Hcode].
    intros b jb Hb. destruct (Hs b jb Hb) as (jb1 & Hb1 & ? & ?).
    destruct (decide (b = a)) as [->|Hba]; [exists j2; split_and!; congruence|].
    destruct (put_pending_after_prepend g1 h1 a h2 E2 b jb1 Hb1) as (jb2 & ? & ? & ?).
    exists jb2. split_and!; congruence.
Qed.

Lemma unset_refines g h code l a :
  rep_code g h code l -> a ∈ dom code ->
  exists g' h', BPending_Unset g h a = Ok (g', h') /\
    rep_code g' h' code (LinkedList1.remove_node a l).
Proof.
  intros [Hr Hcode] Ha. destruct (rep_dom _ _ _ _ _ Hr Ha) as [j Hj].
  unfold BPending_Unset, BSmallPending_Unset.
  destruct (remove_if_rep _ _ _ _ _ Hr Ha) as (g1 & h1 & E & Hf & Hn & Hc & Hna & Hin & Hs & Hfr).
  rewrite (check_pending_ok _ _ _ _ _ Hr Ha) in E |- *. cbn [mbind outcome_bind] in E |- *.
  case_bool_decide as Hal.
  - rewrite E. cbn [mbind outcome_bind]. destruct (Hs a j Hj) as (j1 & Hj1 & ? & ?).
    destruct (idle_ok h1 a j1 Hj1) as (j2 & E2 & ? & ? & ? & ?).
    apply bind_Ok in E2 as (h2 & E2 & E3). rewrite E2. cbn [mbind outcome_bind]. rewrite E3.
    cbn [mbind outcome_bind]. eexists _, _. split; [done|].
    destruct Hr as [_ _ _ Hl Hi]. split; [split|]; [done|done| | | |].
    + eapply jobs_ext; [|exact Hc]. intros b Hb. rewrite lookup_insert_ne; [done|]. set_solver.
    + intros b Hb. apply Hl, Hin. by left.
    + intros b Hb Hbl. destruct (decide (b = a)) as [->|]; [rewrite lookup_insert_eq; eauto|].
      rewrite lookup_insert_ne, Hfr by done. apply Hi; [done|]. intros [?|[? _]]%Hin; done.
    + eapply rep_code_same; [|exact Hcode]. transitivity h1; [done|].
      by eapply same_code_insert.
  - rewrite remove_node_not_in by done. by exists g, h.
Qed.

Lemma exec_refines g h code l a c :
  rep_code g h code (a :: l) -> code !! a = Some c ->
  exists g' h', BPendingGroup_ExecuteJob g h = Ok (g', h', c) /\ rep_code g' h' code l.
Proof.
  intros [Hr Hcode] Ha. destruct c as [f u].
  assert (a ∈ dom code) as Had by (apply elem_of_dom; eauto).
  pose proof (check_pending_ok _ _ _ _ a Hr Had) as Hp. rewrite bool_decide_eq_true_2 in Hp by set_solver.
  destruct Hr as [-> Hn Hc Hl Hi]. destruct (Hcode _ _ _ Ha) as (j & Hj & Hjf & Hju).
  destruct Hc as [(j0 & Hj0 & Hnx & Hpe & _) Hc]. simplify_eq.
  unfold BPendingGroup_ExecuteJob. cbn [SLinkedList_IsEmpty SLinkedList_First hd_or negb].
  rewrite bind_ASSERT_true by done. cbn [of_option mbind outcome_bind].
  unfold check_pending, SLinkedListIsRemoved, get in Hp. unfold SLinkedListIsRemoved, get.
  rewrite Hj0 in Hp |- *. cbn [of_option mbind outcome_bind] in Hp |- *. rewrite Hpe in Hp |- *.
  destruct (bool_decide _); [done|]. cbn [negb]. rewrite !bind_ASSERT_true by done.
  cbn [of_option mbind outcome_bind SLinkedList_RemoveFirst]. unfold get. rewrite Hj0.
  cbn [of_option mbind outcome_bind].
  destruct (idle_ok h a j0 Hj0) as (j2 & E2 & ? & ? & ? & ?).
  apply bind_Ok in E2 as (h2 & E2 & E3). rewrite E2. cbn [mbind outcome_bind]. rewrite E3.
  cbn [mbind outcome_bind]. rewrite lookup_insert_eq. cbn [of_option mbind outcome_bind].
  apply NoDup_cons in Hn as [Hal Hn].
  exists (hd_or l None), (<[a := j2]> h). split; [by rewrite Hnx, H, H0|]. split; [split|].
  - done.
  - done.
  - eapply chain_weaken, jobs_ext; [|exact Hc]. intros b Hb. rewrite lookup_insert_ne; [done|]. set_solver.
  - intros b Hb. apply Hl. set_solver.
  - intros b Hb Hbl. destruct (decide (b = a)) as [->|]; [rewrite lookup_insert_eq; eauto|].
    rewrite lookup_insert_ne by done. apply Hi; set_solver.
  - eapply rep_code_same; [|exact Hcode]. by eapply same_code_insert.
Qed.

(** C37: A job group is a stack of jobs without duplicates. From a state that
    represents the jobs [code] (each with its function and argument) of which
    [l] are pending, every operation the callers may do (initialise a new job,
    free, set or unset an existing one, execute the next one) succeeds without
    an assertion failure or a null dereference and gives a state that
    represents the new stack: setting a job moves it to the front, also if it
    was already pending, and the job that is executed is the one that was set
    last, with its own function and argument. *)
Theorem BPending_refines_stack g h code l o code' l' out :
  rep_code g h code l ->
  (forall a f u, o = OpInit a f u -> is_Some (h !! a)) ->
  abs_step code l o = Some (code', l', out) ->
  exists g' h', step g h o = Ok (g', h', out) /\ rep_code g' h' code' l'.
Proof.
  intros Hr Hm Ha. destruct o as [a f u|a|a|a|]; cbn in Ha; try case_decide; simplify_eq; cbn [step].
  - destruct (Hm a f u eq_refl) as [j Hj].
    destruct (init_refines _ _ _ _ a f u j Hr ltac:(done) Hj) as (h' & -> & ?). by exists g, h'.
  - destruct (free_refines _ _ _ _ a Hr ltac:(done)) as (g' & h' & -> & ?). by exists g', h'.
  - destruct (set_refines _ _ _ _ a Hr ltac:(done)) as (g' & h' & -> & ?). by exists g', h'.
  - destruct (unset_refines _ _ _ _ a Hr ltac:(done)) as (g' & h' & -> & ?). by exists g', h'.
  - destruct l as [|a l]; [done|]. destruct (code !! a) as [c|] eqn:E; simplify_eq.
    destruct (exec_refines _ _ _ _ a c Hr E) as (g' & h' & -> & ?). by exists g', h'.
Qed.

(** Two jobs, the second set after the first, then the first set again and
    executed. *)
Definition demo_heap : heap :=
  <[1%positive := mkJob 10 100 None (Some 2%positive) true]> (<[2%positive := mkJob 20 200 (Some 1%positive) None true]> ∅).
Definition demo_code : gmap loc (Z * Z) := <[1%positive := (10, 100)]> (<[2%positive := (20, 200)]> ∅).

Lemma BPending_refines_stack_witness :
  exists g' h', step (Some 2%positive) demo_heap (OpSet 1%positive) = Ok (g', h', None) /\
    rep_code g' h' demo_code [1%positive; 2%positive].
Proof.
  apply (BPending_refines_stack (Some 2%positive) demo_heap demo_code [2%positive; 1%positive]
    (OpSet 1%positive) demo_code [1%positive; 2%positive] None).
  - split; [split|].
    + reflexivity.
    + repeat constructor; set_solver.
    + cbn. split; [eexists; split; [vm_compute; reflexivity|]|split; [|done]].
      * split_and!; [done|done|by left].
      * eexists; split; [vm_compute; reflexivity|]. split_and!; [done|done|by right].
    + intros a Ha. apply elem_of_dom. rewrite !elem_of_cons in Ha.
      destruct Ha as [->|[->|[]%not_elem_of_nil]]; vm_compute; eauto.
    + intros a Ha Hl. exfalso. apply Hl. unfold demo_code in Ha. rewrite !dom_insert in Ha.
      rewrite !elem_of_cons. set_solver.
    + intros a f u H. unfold demo_code in H.
      apply lookup_insert_Some in H as [[<- [= <- <-]]|[? H]]; [eexists; split; [vm_compute; reflexivity|done]|].
      apply lookup_insert_Some in H as [[<- [= <- <-]]|[? H]]; [eexists; split; [vm_compute; reflexivity|done]|].
      done.
  - intros a f u [=].
  - vm_compute. reflexivity.
Defined.
End BPending.
