(* ===== verification/Bavl.v ===== *)
(** * AVL trees (structure/BAVL.h)

    The intrusive balanced search tree with parent pointers that holds the
    connections of the UDP gateway client and of the main program. Nodes live
    on a heap; the development shows that the heap operations implement the
    operations on the sorted list of the nodes, keep the tree balanced and
    touch no other node. *)
From Stdlib Require Import ZArith Lia Sorted.
From stdpp Require Import base tactics numbers option gmap list sorting.
From S2P Require Import Prelude LinkedList.

(** What BAVL.h asks of a comparator: it returns -1, 0 or 1 and its [<=] is a
    total order. *)
Class Comparator {K : Type} (cmp : K -> K -> Z) : Prop := {
  cmp_range : forall x y, cmp x y = -1 \/ cmp x y = 0 \/ cmp x y = 1;
  cmp_antisym : forall x y, cmp y x = - cmp x y;
  cmp_lt_trans : forall x y z, cmp x y = -1 -> cmp y z = -1 -> cmp x z = -1;
  cmp_eq_lt : forall x y z, cmp x y = 0 -> cmp x z = cmp y z
}.

(** misc/compare.h *)
Definition B_COMPARE (a b : Z) : Z := Z.b2z (b <? a) - Z.b2z (a <? b).

Lemma B_COMPARE_spec a b : B_COMPARE a b = match a ?= b with Lt => -1 | Eq => 0 | Gt => 1 end.
Proof. unfold B_COMPARE. rewrite !Z.ltb_compare, (Z.compare_antisym a b). by destruct (a ?= b). Qed.

Lemma B_COMPARE_if a b : B_COMPARE a b = if a <? b then -1 else if b <? a then 1 else 0.
Proof. unfold B_COMPARE. destruct (Z.ltb_spec a b), (Z.ltb_spec b a); cbn; lia. Qed.

#[global] Instance B_COMPARE_comparator : Comparator B_COMPARE.
Proof.
  split; intros *; rewrite !B_COMPARE_spec;
    repeat match goal with |- context [?x ?= ?y] => destruct (Z.compare_spec x y) end; lia.
Qed.

Module BAVL.

Record BAVLNode := mkNode {
  parent : option loc; link0 : option loc; link1 : option loc; balance : Z
}.
Abbreviation heap := (gmap loc BAVLNode).

(** The tree record: its [root]. *)
Abbreviation BAVL := (option loc).

Definition link (n : BAVLNode) (d : bool) : option loc := if d then link1 n else link0 n.
Definition set_parent (v : option loc) (n : BAVLNode) : BAVLNode :=
  mkNode v (link0 n) (link1 n) (balance n).
Definition set_link (d : bool) (v : option loc) (n : BAVLNode) : BAVLNode :=
  if d then mkNode (parent n) (link0 n) v (balance n) else mkNode (parent n) v (link1 n) (balance n).
Definition set_balance (b : Z) (n : BAVLNode) : BAVLNode :=
  mkNode (parent n) (link0 n) (link1 n) b.

#[local] Arguments link : simpl never.
#[local] Arguments set_link : simpl never.
#[local] Arguments set_parent : simpl never.
#[local] Arguments set_balance : simpl never.

Definition get (h : heap) (a : loc) : outcome BAVLNode := of_option (h !! a).
Definition upd (h : heap) (a : loc) (f : BAVLNode -> BAVLNode) : outcome heap :=
  get h a ≫= fun n => Ok (<[a := f n]> h).

(** [if (o) o->parent = p] *)
Definition upd_parent (h : heap) (o : option loc) (p : loc) : outcome heap :=
  match o with None => Ok h | Some a => upd h a (set_parent (Some p)) end.

(** [if (p) p->link[old == p->link[1]] = new; else tree->root = new] *)
Definition relink (t : BAVL) (h : heap) (p : option loc) (old : loc) (new : option loc)
    : outcome (BAVL * heap) :=
  match p with
  | None => Ok (new, h)
  | Some q => get h q ≫= fun n =>
      upd h q (set_link (bool_decide (link n true = Some old)) new) ≫= fun h => Ok (t, h)
  end.

Definition BAVL_MAX (a b : Z) : Z := if b <? a then a else b.
Definition BAVL_OPTNEG (a : Z) (neg : bool) : Z := if neg then - a else a.

Definition _BAVL_rotate (t : BAVL) (h : heap) (r : loc) (dir : bool) : outcome (BAVL * heap) :=
  get h r ≫= fun nd_r =>
  of_option (link nd_r (negb dir)) ≫= fun nr =>
  get h nr ≫= fun nd_nr =>
  upd h r (set_link (negb dir) (link nd_nr dir)) ≫= fun h =>
  upd_parent h (link nd_nr dir) r ≫= fun h =>
  upd h nr (set_link dir (Some r)) ≫= fun h =>
  get h r ≫= fun nd_r =>
  upd h nr (set_parent (parent nd_r)) ≫= fun h =>
  relink t h (parent nd_r) r (Some nr) ≫= fun (th : BAVL * heap) =>
  upd th.2 r (set_parent (Some nr)) ≫= fun h =>
  Ok (th.1, h).

(** [while (n->link[d]) n = n->link[d]; return n] *)
Fixpoint descend (fuel : nat) (h : heap) (n : loc) (d : bool) : outcome loc :=
  match fuel with
  | O => Fault
  | S fuel => get h n ≫= fun nd =>
      match link nd d with None => Ok n | Some m => descend fuel h m d end
  end.

(** A path in the tree has no more nodes than the heap. *)
Definition fuel (h : heap) : nat := S (size h).

Definition _BAVL_subtree_max (h : heap) (n : loc) : outcome loc := descend (fuel h) h n true.

Definition _BAVL_replace_subtree (t : BAVL) (h : heap) (dest : loc) (n : option loc)
    : outcome (BAVL * heap) :=
  get h dest ≫= fun nd =>
  relink t h (parent nd) dest n ≫= fun (th : BAVL * heap) =>
  match n with
  | None => Ok th
  | Some a => upd th.2 a (set_parent (parent nd)) ≫= fun h => Ok (th.1, h)
  end.

(** The two branches of the code: the nodes are directly connected, [n1] above
    [n2], or they are not. *)
Definition swap_connected (t : BAVL) (h : heap) (n1 n2 : loc) : outcome (BAVL * heap) :=
  get h n1 ≫= fun nd1 => get h n2 ≫= fun nd2 =>
  let side := bool_decide (link nd1 true = Some n2) in
  let c := link nd1 (negb side) in
  upd h n1 (set_link false (link nd2 false)) ≫= fun h =>
  upd_parent h (link nd2 false) n1 ≫= fun h =>
  upd h n1 (set_link true (link nd2 true)) ≫= fun h =>
  upd_parent h (link nd2 true) n1 ≫= fun h =>
  upd h n2 (set_parent (parent nd1)) ≫= fun h =>
  relink t h (parent nd1) n1 (Some n2) ≫= fun (th : BAVL * heap) =>
  upd th.2 n2 (set_link side (Some n1)) ≫= fun h =>
  upd h n1 (set_parent (Some n2)) ≫= fun h =>
  upd h n2 (set_link (negb side) c) ≫= fun h =>
  upd_parent h c n2 ≫= fun h =>
  Ok (th.1, h).

Definition swap_children (h : heap) (n1 n2 : loc) (d : bool) : outcome heap :=
  get h n1 ≫= fun nd1 => get h n2 ≫= fun nd2 =>
  upd h n1 (set_link d (link nd2 d)) ≫= fun h =>
  upd_parent h (link nd2 d) n1 ≫= fun h =>
  upd h n2 (set_link d (link nd1 d)) ≫= fun h =>
  upd_parent h (link nd1 d) n2.

Definition swap_apart (t : BAVL) (h : heap) (n1 n2 : loc) : outcome (BAVL * heap) :=
  get h n1 ≫= fun nd1 => get h n2 ≫= fun nd2 =>
  upd h n1 (set_parent (parent nd2)) ≫= fun h =>
  relink t h (parent nd2) n2 (Some n1) ≫= fun (th : BAVL * heap) =>
  upd th.2 n2 (set_parent (parent nd1)) ≫= fun h =>
  relink th.1 h (parent nd1) n1 (Some n2) ≫= fun (th : BAVL * heap) =>
  swap_children th.2 n1 n2 false ≫= fun h =>
  swap_children h n1 n2 true ≫= fun h =>
  Ok (th.1, h).

Definition _BAVL_swap_nodes (t : BAVL) (h : heap) (n1 n2 : loc) : outcome (BAVL * heap) :=
  get h n1 ≫= fun nd1 => get h n2 ≫= fun nd2 =>
  (if bool_decide (parent nd2 = Some n1) || bool_decide (parent nd1 = Some n2) then
     if bool_decide (parent nd1 = Some n2) then swap_connected t h n2 n1 else swap_connected t h n1 n2
   else swap_apart t h n1 n2) ≫= fun (th : BAVL * heap) =>
  get th.2 n1 ≫= fun nd1 => get th.2 n2 ≫= fun nd2 =>
  upd th.2 n1 (set_balance (balance nd2)) ≫= fun h =>
  upd h n2 (set_balance (balance nd1)) ≫= fun h =>
  Ok (th.1, h).

(** The transformations of [_BAVL_rebalance] for a balance factor of 2 or -2;
    returns the node that has taken the place of [node], and [delta]. *)
Definition transform (t : BAVL) (h : heap) (node : loc) (bal delta : Z)
    : outcome (BAVL * heap * loc * Z) :=
  let bside := bal =? 2 in
  let bsidef := if bside then 1 else -1 in
  get h node ≫= fun nd =>
  of_option (link nd bside) ≫= fun child =>
  get h child ≫= fun nd_c =>
  if balance nd_c * bsidef =? 1 then
    _BAVL_rotate t h node (negb bside) ≫= fun (th : BAVL * heap) =>
    upd th.2 node (set_balance 0) ≫= fun h =>
    upd h child (set_balance 0) ≫= fun h =>
    Ok (th.1, h, child, delta - 1)
  else if balance nd_c * bsidef =? 0 then
    _BAVL_rotate t h node (negb bside) ≫= fun (th : BAVL * heap) =>
    upd th.2 node (set_balance bsidef) ≫= fun h =>
    upd h child (set_balance (- bsidef)) ≫= fun h =>
    Ok (th.1, h, child, delta)
  else if balance nd_c * bsidef =? -1 then
    of_option (link nd_c (negb bside)) ≫= fun gchild =>
    _BAVL_rotate t h child bside ≫= fun (th : BAVL * heap) =>
    _BAVL_rotate th.1 th.2 node (negb bside) ≫= fun (th : BAVL * heap) =>
    get th.2 gchild ≫= fun nd_g =>
    upd th.2 node (set_balance (- BAVL_MAX 0 (balance nd_g * bsidef) * bsidef)) ≫= fun h =>
    upd h child (set_balance (BAVL_MAX 0 (- balance nd_g * bsidef) * bsidef)) ≫= fun h =>
    upd h gchild (set_balance 0) ≫= fun h =>
    Ok (th.1, h, gchild, delta - 1)
  else Fault.

Fixpoint _BAVL_rebalance (fuel : nat) (t : BAVL) (h : heap) (node : loc) (side : bool) (deltac : Z)
    : outcome (BAVL * heap) :=
  match fuel with
  | O => Fault
  | S fuel =>
      get h node ≫= fun nd =>
      ASSERT ((-1 <=? deltac) && (deltac <=? 1));;
      ASSERT ((-1 <=? balance nd) && (balance nd <=? 1));;
      if deltac =? 0 then Ok (t, h) else
      let delta := BAVL_MAX deltac (BAVL_OPTNEG (balance nd) side)
                   - BAVL_MAX 0 (BAVL_OPTNEG (balance nd) side) in
      ASSERT ((-1 <=? delta) && (delta <=? 1));;
      let bal := balance nd - BAVL_OPTNEG deltac side in
      upd h node (set_balance bal) ≫= fun h =>
      (if (bal =? 2) || (bal =? -2) then transform t h node bal delta
       else Ok (t, h, node, delta)) ≫= fun (r : BAVL * heap * loc * Z) =>
      let '(t, h, node, delta) := r in
      ASSERT ((-1 <=? delta) && (delta <=? 1));;
      get h node ≫= fun nd =>
      match parent nd with
      | None => Ok (t, h)
      | Some p => get h p ≫= fun nd_p =>
          _BAVL_rebalance fuel t h p (bool_decide (link nd_p true = Some node)) delta
      end
  end.

Section Tree.

(** [value]: the value stored with a node, at [offset] from it. *)
Context {K : Type} (cmp : K -> K -> Z) (value : loc -> K).

Definition _BAVL_compare_values (v1 v2 : K) : outcome Z :=
  let res := cmp v1 v2 in
  ASSERT ((res =? -1) || (res =? 0) || (res =? 1));; Ok res.

Definition _BAVL_compare_nodes (n1 n2 : loc) : outcome Z :=
  _BAVL_compare_values (value n1) (value n2).

Definition BAVL_Init : BAVL := None.

(** The search of [BAVL_Insert], [BAVL_Lookup] and [BAVL_LookupExact] from [c]:
    the last node reached and how [v] compares to it. *)
Fixpoint search (fuel : nat) (h : heap) (v : K) (c : loc) : outcome (loc * Z) :=
  match fuel with
  | O => Fault
  | S fuel =>
      _BAVL_compare_values v (value c) ≫= fun comp =>
      if comp =? 0 then Ok (c, comp) else
      get h c ≫= fun nd =>
      match link nd (comp =? 1) with
      | None => Ok (c, comp)
      | Some c => search fuel h v c
      end
  end.

Definition BAVL_Insert (t : BAVL) (h : heap) (node : loc) : outcome (BAVL * heap * bool) :=
  match t with
  | None =>
      upd h node (fun _ => mkNode None None None 0) ≫= fun h => Ok (Some node, h, true)
  | Some r =>
      search (fuel h) h (value node) r ≫= fun (cc : loc * Z) => let '(c, comp) := cc in
      if comp =? 0 then Ok (t, h, false) else
      let side := comp =? 1 in
      upd h c (set_link side (Some node)) ≫= fun h =>
      upd h node (fun _ => mkNode (Some c) None None 0) ≫= fun h =>
      _BAVL_rebalance (fuel h) t h c side 1 ≫= fun (th : BAVL * heap) =>
      Ok (th.1, th.2, true)
  end.

Definition BAVL_Lookup (t : BAVL) (h : heap) (v : K) : outcome (option loc) :=
  match t with
  | None => Ok None
  | Some r => search (fuel h) h v r ≫= fun (cc : loc * Z) => Ok (Some cc.1)
  end.

Definition BAVL_LookupExact (t : BAVL) (h : heap) (v : K) : outcome (option loc) :=
  match t with
  | None => Ok None
  | Some r => search (fuel h) h v r ≫= fun (cc : loc * Z) =>
      Ok (if cc.2 =? 0 then Some cc.1 else None)
  end.

End Tree.

(** The part of [BAVL_Remove] after the swap: the node has at most one child. *)
Definition remove_thin (t : BAVL) (h : heap) (node : loc) : outcome (BAVL * heap) :=
  get h node ≫= fun nd =>
  ASSERT (negb (bool_decide (is_Some (link nd false)) && bool_decide (is_Some (link nd true))));;
  let child := match link nd false with Some l => Some l | None => link nd true end in
  match parent nd with
  | Some p =>
      get h p ≫= fun nd_p =>
      let side := bool_decide (link nd_p true = Some node) in
      _BAVL_replace_subtree t h node child ≫= fun (th : BAVL * heap) =>
      _BAVL_rebalance (fuel th.2) th.1 th.2 p side (-1)
  | None => _BAVL_replace_subtree t h node child
  end.

Definition BAVL_Remove (t : BAVL) (h : heap) (node : loc) : outcome (BAVL * heap) :=
  get h node ≫= fun nd =>
  (match link nd false, link nd true with
   | Some l, Some _ =>
       _BAVL_subtree_max h l ≫= fun max => _BAVL_swap_nodes t h node max
   | _, _ => Ok (t, h)
   end) ≫= fun (th : BAVL * heap) => remove_thin th.1 th.2 node.

Definition BAVL_IsEmpty (t : BAVL) : bool := bool_decide (t = None).

Definition BAVL_GetFirst (t : BAVL) (h : heap) : outcome (option loc) :=
  match t with None => Ok None | Some r => descend (fuel h) h r false ≫= fun n => Ok (Some n) end.

Definition BAVL_GetLast (t : BAVL) (h : heap) : outcome (option loc) :=
  match t with None => Ok None | Some r => descend (fuel h) h r true ≫= fun n => Ok (Some n) end.

(** [while (n->parent && n == n->parent->link[d]) n = n->parent; return n->parent] *)
Fixpoint ascend (fuel : nat) (h : heap) (n : loc) (d : bool) : outcome (option loc) :=
  match fuel with
  | O => Fault
  | S fuel => get h n ≫= fun nd =>
      match parent nd with
      | None => Ok None
      | Some p => get h p ≫= fun nd_p =>
          if bool_decide (link nd_p d = Some n) then ascend fuel h p d else Ok (Some p)
      end
  end.

(** [BAVL_GetNext] with [d = true], [BAVL_GetPrev] with [d = false]. *)
Definition neighbour (h : heap) (n : loc) (d : bool) : outcome (option loc) :=
  get h n ≫= fun nd =>
  match link nd d with
  | Some m => descend (fuel h) h m (negb d) ≫= fun n => Ok (Some n)
  | None => ascend (fuel h) h n d
  end.
Definition BAVL_GetNext (h : heap) (n : loc) : outcome (option loc) := neighbour h n true.
Definition BAVL_GetPrev (h : heap) (n : loc) : outcome (option loc) := neighbour h n false.

(** ** Trees

    [N b l a r] is the node [a] with stored balance factor [b]. *)
Inductive tree := E | N (b : Z) (l : tree) (a : loc) (r : tree).

Definition root_of (t : tree) : option loc := match t with E => None | N _ _ a _ => Some a end.

Fixpoint inorder (t : tree) : list loc :=
  match t with E => [] | N _ l a r => inorder l ++ a :: inorder r end.

Fixpoint height (t : tree) : Z :=
  match t with E => 0 | N _ l _ r => 1 + Z.max (height l) (height r) end.

(** Every balance factor is the difference of the heights and in [-1, 1]. *)
Fixpoint avl (t : tree) : Prop :=
  match t with
  | E => True
  | N b l _ r => b = height r - height l /\ -1 <= b <= 1 /\ avl l /\ avl r
  end.

(** The heap holds [t] below [p]. *)
Fixpoint owns (h : heap) (p : option loc) (t : tree) : Prop :=
  match t with
  | E => True
  | N b l a r =>
      h !! a = Some (mkNode p (root_of l) (root_of r) b) /\
      owns h (Some a) l /\ owns h (Some a) r
  end.

(** The node [a] with [s] on side [d] and [o] on the other side. *)
Definition node (d : bool) (b : Z) (s : tree) (a : loc) (o : tree) : tree :=
  if d then N b o a s else N b s a o.

(** A place in a tree: the path up, each frame with the side the path comes
    from, the node and its other subtree. *)
Abbreviation ctx := (list (bool * Z * loc * tree)).

Fixpoint plug (c : ctx) (t : tree) : tree :=
  match c with [] => t | (d, b, a, s) :: c => plug c (node d b t a s) end.

Definition above (p : option loc) (c : ctx) : option loc :=
  match c with [] => p | (_, _, a, _) :: _ => Some a end.

Fixpoint before (c : ctx) : list loc :=
  match c with [] => [] | (d, _, a, s) :: c => before c ++ if d : bool then inorder s ++ [a] else [] end.
Fixpoint after (c : ctx) : list loc :=
  match c with [] => [] | (d, _, a, s) :: c => (if d : bool then [] else a :: inorder s) ++ after c end.

Definition nodes (c : ctx) : list loc := before c ++ after c.
#[local] Arguments nodes : simpl never.

(** The heap holds the context [c], whose hole is filled by a tree with root
    [x]; the whole tree is below [p]. *)
Fixpoint owns_ctx (h : heap) (p : option loc) (c : ctx) (x : option loc) : Prop :=
  match c with
  | [] => True
  | (d, b, a, s) :: c =>
      (exists n, h !! a = Some n /\ parent n = above p c /\ link n d = x /\
         link n (negb d) = root_of s /\ balance n = b) /\
      owns h (Some a) s /\ owns_ctx h p c (Some a)
  end.

(** The heights of the context are consistent for a hole of height [k]. *)
Fixpoint avl_ctx (c : ctx) (k : Z) : Prop :=
  match c with
  | [] => True
  | (d, b, _, s) :: c =>
      (if d : bool then b else - b) = k - height s /\ -1 <= b <= 1 /\ avl s /\
      avl_ctx c (1 + Z.max k (height s))
  end.

(** [root], with the heap, represents the tree [t]. *)
Record rep (root : BAVL) (h : heap) (t : tree) : Prop := {
  rep_root : root = root_of t;
  rep_owns : owns h None t;
  rep_nodup : NoDup (inorder t)
}.

(** ** Lemmas on trees *)
Lemma root_node d b s a o : root_of (node d b s a o) = Some a.
Proof. by destruct d. Qed.

Lemma root_in t r : root_of t = Some r -> r ∈ inorder t.
Proof. destruct t; cbn; [done|]. intros [= ->]. set_solver. Qed.

Lemma height_node d b s a o : height (node d b s a o) = 1 + Z.max (height s) (height o).
Proof. destruct d; cbn; lia. Qed.

Lemma height_nonneg t : 0 <= height t.
Proof. induction t; cbn; lia. Qed.

Lemma avl_node d b s a o :
  avl (node d b s a o) <->
  (if d : bool then b else - b) = height s - height o /\ -1 <= b <= 1 /\ avl s /\ avl o.
Proof. destruct d; cbn; intuition lia. Qed.

Lemma inorder_plug c t : inorder (plug c t) = before c ++ inorder t ++ after c.
Proof.
  revert t; induction c as [|[[[d b] a] s] c IH]; intros t; cbn; [by rewrite app_nil_r|].
  rewrite IH. destruct d; cbn; by rewrite <- ?app_assoc.
Qed.

Lemma inorder_plug_perm c t : inorder (plug c t) ≡ₚ inorder t ++ nodes c.
Proof. rewrite inorder_plug. unfold nodes. rewrite !app_assoc. by rewrite (Permutation_app_comm (before c)). Qed.

Lemma inorder_node_perm d b s a o : inorder (node d b s a o) ≡ₚ a :: inorder s ++ inorder o.
Proof.
  destruct d; cbn; rewrite <- Permutation_middle; [|done]. by rewrite (Permutation_app_comm (inorder o)).
Qed.

Lemma nodes_cons d b a s c : nodes ((d, b, a, s) :: c) ≡ₚ a :: inorder s ++ nodes c.
Proof.
  unfold nodes. cbn. destruct d; cbn; rewrite <- ?app_assoc, ?app_nil_r; cbn.
  - rewrite app_assoc, <- Permutation_middle, app_assoc.
    by rewrite (Permutation_app_comm (inorder s)).
  - rewrite <- Permutation_middle, !app_assoc. by rewrite (Permutation_app_comm (inorder s)).
Qed.

Lemma elem_of_nodes_cons x d b a s c :
  x ∈ nodes ((d, b, a, s) :: c) <-> x = a \/ x ∈ inorder s \/ x ∈ nodes c.
Proof. rewrite nodes_cons. set_solver. Qed.

Lemma plug_app c1 c2 t : plug (c1 ++ c2) t = plug c2 (plug c1 t).
Proof. revert t; induction c1 as [|[[[d b] a] s] c IH]; intros t; cbn; [done|]. apply IH. Qed.

Lemma avl_plug c t : avl (plug c t) <-> avl t /\ avl_ctx c (height t).
Proof.
  revert t; induction c as [|[[[d b] a] s] c IH]; intros t; cbn; [intuition|].
  rewrite IH, height_node, avl_node. intuition.
Qed.

Lemma owns_node h p d b s a o :
  owns h p (node d b s a o) <->
  (exists n, h !! a = Some n /\ parent n = p /\ link n d = root_of s /\
     link n (negb d) = root_of o /\ balance n = b) /\
  owns h (Some a) s /\ owns h (Some a) o.
Proof.
  destruct d; cbn; split.
  - intros (H & ? & ?). split; [|done]. by eexists.
  - intros ((n & H & <- & <- & <- & <-) & ? & ?). split; [|done]. rewrite H. by destruct n.
  - intros (H & ? & ?). split; [|done]. by eexists.
  - intros ((n & H & <- & <- & <- & <-) & ? & ?). split; [|done]. rewrite H. by destruct n.
Qed.

Lemma owns_plug h p c t :
  owns h p (plug c t) <-> owns_ctx h p c (root_of t) /\ owns h (above p c) t.
Proof.
  revert t; induction c as [|[[[d b] a] s] c IH]; intros t; cbn [plug owns_ctx above]; [intuition|].
  rewrite IH, owns_node, root_node. intuition.
Qed.

Lemma owns_lookup h p t a : owns h p t -> a ∈ inorder t -> is_Some (h !! a).
Proof.
  revert p; induction t as [|b l IHl x r IHr]; cbn; intros p Ho Ha; [by apply not_elem_of_nil in Ha|].
  destruct Ho as (H & Hl & Hr). rewrite elem_of_app, elem_of_cons in Ha.
  destruct Ha as [Ha|[->|Ha]]; [by eapply IHl|by eexists|by eapply IHr].
Qed.

Lemma owns_same h h' p t :
  owns h p t -> (forall x, x ∈ inorder t -> h' !! x = h !! x) -> owns h' p t.
Proof.
  revert p; induction t as [|b l IHl a r IHr]; cbn; intros q Ho Hx; [done|].
  destruct Ho as (H & Hl & Hr). rewrite Hx by set_solver. split; [done|].
  split; [apply IHl|apply IHr]; set_solver.
Qed.

(** Changing the parent of the root. *)
Lemma owns_reparent h h' p p' t :
  owns h p t -> NoDup (inorder t) ->
  (forall x, x ∈ inorder t -> root_of t <> Some x -> h' !! x = h !! x) ->
  (forall a, root_of t = Some a -> h' !! a = set_parent p' <$> h !! a) ->
  owns h' p' t.
Proof.
  intros Ho Hn Hx Ha. destruct t as [|b l a r]; cbn in *; [done|].
  destruct Ho as (H & Hl & Hr). rewrite (Ha a eq_refl), H. split; [done|].
  apply NoDup_app in Hn as (_ & Hd & [Ha' _]%NoDup_cons).
  split; (eapply owns_same; [done|]); intros x Hin; apply Hx; try set_solver; intros [= ->]; set_solver.
Qed.

Lemma owns_ctx_same h h' p c x :
  owns_ctx h p c x -> (forall x, x ∈ nodes c -> h' !! x = h !! x) -> owns_ctx h' p c x.
Proof.
  revert x; induction c as [|[[[d b] a] s] c IH]; cbn [owns_ctx]; intros x Ho Hx; [done|].
  setoid_rewrite elem_of_nodes_cons in Hx.
  destruct Ho as (H & Hs & Hc). rewrite Hx by set_solver. split; [done|].
  split; [eapply owns_same|apply IH]; set_solver.
Qed.

(** ** Heap updates *)
Lemma upd_Ok h a f : is_Some (h !! a) -> upd h a f = Ok (alter f a h).
Proof.
  intros [n Hn]. unfold upd, get. rewrite Hn. cbn. f_equal.
  apply map_eq. intros x. rewrite lookup_insert, lookup_alter. case_decide; subst; [by rewrite Hn|done].
Qed.

(** Replacing the pointer to the hole of a context. *)
Definition relinked (c : ctx) (h : heap) (v : option loc) : heap :=
  match c with [] => h | (d, _, a, _) :: _ => alter (set_link d v) a h end.
Definition reroot (c : ctx) (t : BAVL) (v : option loc) : BAVL :=
  match c with [] => v | _ :: _ => t end.

Lemma root_plug c t t' : c <> [] -> root_of (plug c t') = root_of (plug c t).
Proof.
  revert t t'; induction c as [|[[[d b] a] s] c IH]; intros t t' Hc; [done|].
  cbn. destruct c as [|f c]; [by cbn; rewrite !root_node|]. by apply IH.
Qed.

Lemma link_set_link d d' v n : link (set_link d v n) d' = if bool_decide (d = d') then v else link n d'.
Proof. by destruct d, d'. Qed.
Lemma parent_set_link d v n : parent (set_link d v n) = parent n.
Proof. by destruct d. Qed.
Lemma balance_set_link d v n : balance (set_link d v n) = balance n.
Proof. by destruct d. Qed.
Lemma link_set_parent d v n : link (set_parent v n) d = link n d.
Proof. by destruct d. Qed.
Lemma link_set_balance d v n : link (set_balance v n) d = link n d.
Proof. by destruct d. Qed.

Lemma link_mk p l r b d : link (mkNode p l r b) d = if d then r else l.
Proof. done. Qed.

Create HintDb avl.
#[local] Hint Rewrite link_set_link parent_set_link balance_set_link link_set_parent link_set_balance : avl.

Lemma in_above p c x : above p c = Some x -> c = [] /\ p = Some x \/ x ∈ nodes c.
Proof.
  destruct c as [|[[[d b] a] s] c]; cbn [above]; [by left|]. intros [= ->]. right.
  rewrite nodes_cons. set_solver.
Qed.

Lemma rep_perm root h c t : rep root h (plug c t) -> NoDup (inorder t ++ nodes c).
Proof. intros [_ _ Hn]. by rewrite inorder_plug_perm in Hn. Qed.

(** Replacing a subtree: the new one is in the heap below the same parent, the
    rest of the tree is as before but for the pointer to the subtree. *)
Lemma rep_replace root h h' c t t' :
  rep root h (plug c t) -> owns h' (above None c) t' -> NoDup (inorder t') ->
  (forall x, x ∈ inorder t' -> x ∉ nodes c) ->
  (forall x, x ∈ nodes c -> h' !! x = relinked c h (root_of t') !! x) ->
  rep (reroot c root (root_of t')) h' (plug c t').
Proof.
  intros Hrep Ho Hn Hd Hx. pose proof (rep_perm _ _ _ _ Hrep) as Hp. destruct Hrep as [-> Hown Hnd].
  apply owns_plug in Hown as [Hc Ht]. apply NoDup_app in Hp as (_ & _ & Hnc). constructor.
  - destruct c; [done|]. cbn [reroot]. symmetry. by apply root_plug.
  - apply owns_plug. split; [|done]. destruct c as [|[[[d b] a] s] c]; [done|].
    cbn [owns_ctx relinked] in *. setoid_rewrite elem_of_nodes_cons in Hx. rewrite nodes_cons in Hnc.
    apply NoDup_cons in Hnc as [Ha Hnc]. destruct Hc as ((n & H1 & H2 & H3 & H4 & H5) & Hs & Hc).
    split; [|split].
    + rewrite Hx by set_solver. rewrite lookup_alter_eq, H1. cbn. eexists; split; [done|].
      autorewrite with avl. rewrite bool_decide_true by done.
      rewrite bool_decide_false by (by destruct d). done.
    + eapply owns_same; [done|]. intros x Hin. rewrite Hx by set_solver. apply lookup_alter_ne. set_solver.
    + eapply owns_ctx_same; [done|]. intros x Hin. rewrite Hx by set_solver. apply lookup_alter_ne. set_solver.
  - rewrite inorder_plug_perm. by apply NoDup_app.
Qed.

Lemma relink_Ok root h h1 c t r v :
  rep root h (plug c t) -> root_of t = Some r ->
  (forall x, above None c = Some x -> link <$> h1 !! x = link <$> h !! x) ->
  relink root h1 (above None c) r v = Ok (reroot c root v, relinked c h1 v).
Proof.
  intros Hrep Hr H1. pose proof (rep_perm _ _ _ _ Hrep) as Hp. destruct Hrep as [_ Ho _].
  apply owns_plug in Ho as [Hc _]. destruct c as [|[[[d b] a] s] c]; [done|].
  cbn [above owns_ctx relink reroot relinked] in *.
  destruct Hc as ((n & Ha & _ & Hd & Hs & _) & _). specialize (H1 a eq_refl). rewrite Ha in H1.
  destruct (h1 !! a) as [n1|] eqn:Ha1; [|done]. cbn in H1. unfold get. rewrite Ha1. cbn.
  assert (Hl : forall e, link n1 e = link n e) by congruence.
  rewrite upd_Ok by (by eexists). cbn. rewrite Hl.
  destruct d; cbn in *.
  - rewrite Hd, Hr. by rewrite bool_decide_true.
  - rewrite Hs. rewrite bool_decide_false; [done|]. intros Hsr.
    rewrite nodes_cons in Hp. apply NoDup_app in Hp as (_ & Hp & _). specialize (Hp r).
    apply root_in in Hsr, Hr. set_solver.
Qed.

Definition alter_opt (f : BAVLNode -> BAVLNode) (o : option loc) (h : heap) : heap :=
  match o with None => h | Some a => alter f a h end.

Lemma lookup_alter_opt f o h x :
  alter_opt f o h !! x = if bool_decide (o = Some x) then f <$> h !! x else h !! x.
Proof.
  destruct o as [a|]; cbn; [|by rewrite bool_decide_false]. rewrite lookup_alter.
  case_decide; case_bool_decide; congruence.
Qed.

Lemma lookup_alter_opt_ne f o h x : o <> Some x -> alter_opt f o h !! x = h !! x.
Proof. intros. by rewrite lookup_alter_opt, bool_decide_false. Qed.
Lemma lookup_alter_opt_eq f o h x : o = Some x -> alter_opt f o h !! x = f <$> h !! x.
Proof. intros. by rewrite lookup_alter_opt, bool_decide_true. Qed.

Lemma upd_parent_Ok h o p :
  (forall a, o = Some a -> is_Some (h !! a)) ->
  upd_parent h o p = Ok (alter_opt (set_parent (Some p)) o h).
Proof. intros H. destruct o as [a|]; cbn; [|done]. apply upd_Ok. by apply H. Qed.

Lemma lookup_relinked c h v x :
  relinked c h v !! x =
    match c with
    | (d, _, a, _) :: _ => if decide (a = x) then set_link d v <$> h !! x else h !! x
    | [] => h !! x
    end.
Proof. destruct c as [|[[[d b] a] s] c]; cbn; [done|]. rewrite lookup_alter. case_decide; by subst. Qed.

Lemma relinked_other c h v x : x ∉ nodes c -> relinked c h v !! x = h !! x.
Proof.
  intros Hx. rewrite lookup_relinked. destruct c as [|[[[d b] a] s] c]; [done|].
  rewrite elem_of_nodes_cons in Hx. case_decide; naive_solver.
Qed.

Lemma relinked_same c h h' v x : h' !! x = h !! x -> relinked c h' v !! x = relinked c h v !! x.
Proof. intros H. rewrite !lookup_relinked. by destruct c as [|[[[d b] a] s] c]; rewrite H. Qed.

Lemma alter_is_Some (h : heap) f a x : is_Some (h !! x) -> is_Some (alter f a h !! x).
Proof. intros [n H]. rewrite lookup_alter. case_decide; subst; rewrite ?H; by eexists. Qed.
Lemma alter_opt_is_Some f o h x : is_Some (h !! x) -> is_Some (alter_opt f o h !! x).
Proof. destruct o; [apply alter_is_Some|done]. Qed.
Lemma relinked_is_Some c h v x : is_Some (h !! x) -> is_Some (relinked c h v !! x).
Proof. destruct c as [|[[[d b] a] s] c]; [done|apply alter_is_Some]. Qed.
Ltac node_ok :=
  repeat first [apply alter_is_Some | apply alter_opt_is_Some | apply relinked_is_Some];
  first [assumption | eexists; eassumption].

(** Lookups in updated heaps, by the (in)equalities in the context. *)
Lemma lookup_alter_same (h : heap) f a : alter f a h !! a = f <$> h !! a.
Proof. apply lookup_alter_eq. Qed.
Lemma root_notin t x : x ∉ inorder t -> root_of t <> Some x.
Proof. by intros Hx ?%root_in. Qed.
Ltac split_notin :=
  repeat match goal with
  | H : _ ∉ _ :: _ |- _ => apply not_elem_of_cons in H as [? H]
  | H : _ ∉ _ ++ _ |- _ => apply not_elem_of_app in H as [? H]
  end.
Ltac ne := solve [congruence | intros ?; subst; contradiction].
Ltac heap_step :=
  first
    [ rewrite lookup_alter_same
    | rewrite lookup_alter_ne by ne
    | rewrite relinked_other by assumption
    | rewrite lookup_alter_opt_ne by first [congruence | apply root_notin; assumption]
    | rewrite lookup_alter_opt_eq by congruence ].
Ltac heap_lookup := repeat heap_step.

Lemma inorder_rotate d b b' M nr R r L :
  inorder (node d b' (node (negb d) b M r L) nr R) = inorder (node (negb d) b (node d b' M nr R) r L).
Proof. destruct d; cbn; by rewrite <- ?app_assoc. Qed.

Lemma rotate_Ok root h c d b b' M nr R r L :
  rep root h (plug c (node (negb d) b (node d b' M nr R) r L)) ->
  exists root' h', _BAVL_rotate root h r d = Ok (root', h') /\
    rep root' h' (plug c (node d b' (node (negb d) b M r L) nr R)) /\
    forall x, x ∉ inorder (plug c (node (negb d) b (node d b' M nr R) r L)) -> h' !! x = h !! x.
Proof.
  intros Hrep. pose proof (rep_perm _ _ _ _ Hrep) as Hp. rewrite !inorder_node_perm in Hp.
  assert (Hn : NoDup (r :: nr :: inorder M ++ inorder R ++ inorder L ++ nodes c)).
  { revert Hp. cbn. rewrite <- !app_assoc. done. }
  clear Hp. rewrite !NoDup_cons, !NoDup_app in Hn.
  destruct Hn as (Hr & Hnr & HM & HdM & HR & HdR & HL & HdL & Hnc). split_notin.
  pose proof Hrep as [_ Ho _]. apply owns_plug in Ho as [Hc Ho].
  rewrite !owns_node, negb_involutive, root_node in Ho.
  destruct Ho as ((n & Hhr & Hpn & Hl1 & Hl2 & Hb) & ((n' & Hhnr & Hpn' & Hl1' & Hl2' & Hb') & HoM & HoR) & HoL).
  assert (HMr : forall m, root_of M = Some m -> is_Some (h !! m) /\ m <> r).
  { intros m Hm%root_in. split; [by apply (owns_lookup _ _ _ _ HoM)|ne]. }
  assert (HM1 : root_of M <> Some r) by (by apply root_notin).
  assert (HM2 : root_of M <> Some nr) by (by apply root_notin).
  assert (Hab : forall x, above None c = Some x -> x <> r /\ x <> nr /\ root_of M <> Some x).
  { intros x [[_ ?]|Hx]%in_above; [done|]. split_and!; [ne..|]. intros ?%root_in. by apply (HdM x), elem_of_app; [|right; apply elem_of_app; right]. }
  unfold _BAVL_rotate, get. rewrite Hhr. cbn. rewrite Hl1. cbn. rewrite Hhnr. cbn. rewrite Hl1'.
  rewrite upd_Ok by node_ok. cbn.
  rewrite upd_parent_Ok by (intros m Hm; destruct (HMr m Hm); node_ok). cbn.
  rewrite upd_Ok by node_ok. cbn.
  heap_lookup. rewrite Hhr. cbn. autorewrite with avl. rewrite Hpn.
  rewrite upd_Ok by node_ok. cbn.
  rewrite (relink_Ok root h _ c _ r (Some nr) Hrep); [cbn|by rewrite root_node|].
  2:{ intros x Hx. destruct (Hab x Hx) as (? & ? & ?). by heap_lookup. }
  rewrite upd_Ok by node_ok.
  cbn. eexists _, _. split; [reflexivity|].
  assert (Hsame : forall x, x <> r -> x <> nr -> x ∉ inorder M ->
    alter (set_parent (Some nr)) r (relinked c
         (alter (set_parent (above None c)) nr (alter (set_link d (Some r)) nr
               (alter_opt (set_parent (Some r)) (root_of M)
                  (alter (set_link (negb d) (root_of M)) r h)))) (Some nr)) !! x =
    relinked c h (Some nr) !! x).
  { intros x ? ? ?. heap_lookup. apply relinked_same. by heap_lookup. }
  split.
  - rewrite <- (root_node d b' (node (negb d) b M r L) nr R) at 1. eapply rep_replace; [done|..].
    + rewrite !owns_node, negb_involutive, !root_node. split_and!.
      * eexists. heap_lookup. rewrite Hhnr. cbn. split; [done|]. autorewrite with avl.
        by destruct d.
      * eexists. heap_lookup. rewrite Hhr. cbn. split; [done|]. autorewrite with avl.
        by destruct d.
      * eapply owns_reparent; [done|done|..].
        -- intros x Hx Hrx. pose proof (HdM x Hx). split_notin.
           by heap_lookup.
        -- intros m Hm. pose proof (root_in _ _ Hm).
           pose proof (HdM m ltac:(done)). split_notin. by heap_lookup.
      * eapply owns_same; [done|]. intros x Hx. pose proof (HdL x Hx).
        rewrite Hsame; [by apply relinked_other|ne..|]. intros Hxm. pose proof (HdM x Hxm). split_notin. done.
      * eapply owns_same; [done|]. intros x Hx. pose proof (HdR x Hx). split_notin.
        rewrite Hsame; [by apply relinked_other|ne..|]. intros Hxm. pose proof (HdM x Hxm). split_notin. done.
    + rewrite inorder_rotate. destruct Hrep as [_ _ Hn]. rewrite inorder_plug_perm in Hn.
      by apply NoDup_app in Hn as (? & _).
    + intros x. rewrite !inorder_node_perm. set_solver.
    + intros x Hx. rewrite root_node. apply Hsame; [ne..|].
      intros Hxm. pose proof (HdM x Hxm). split_notin. done.
  - intros x. rewrite inorder_plug_perm, !inorder_node_perm. intros Hx.
    cbn in Hx. split_notin. rewrite Hsame; [by apply relinked_other|done..].
Qed.

Lemma reroot_same root h c t t' :
  rep root h (plug c t) -> root_of t' = root_of t -> reroot c root (root_of t') = root.
Proof. intros [-> _ _] Ht. by destruct c. Qed.

Lemma owns_root h p c t a : owns h p (plug c t) -> root_of t = Some a ->
  exists n, h !! a = Some n /\ parent n = above p c.
Proof.
  intros [_ Ho]%owns_plug Hr. destruct t as [|b l x r]; [done|]. cbn in *. simplify_eq.
  destruct Ho as [-> _]. by eexists.
Qed.

Lemma set_balance_Ok root h c d b b' s a o :
  rep root h (plug c (node d b s a o)) ->
  upd h a (set_balance b') = Ok (alter (set_balance b') a h) /\
  rep root (alter (set_balance b') a h) (plug c (node d b' s a o)).
Proof.
  intros Hrep. pose proof (rep_perm _ _ _ _ Hrep) as Hp. rewrite inorder_node_perm in Hp.
  cbn in Hp. rewrite NoDup_cons, !NoDup_app in Hp. destruct Hp as (Ha & (Hs & Hso & Ho) & Hd & Hc).
  pose proof Hrep as [_ Hown _]. apply owns_plug in Hown as [_ Hown]. apply owns_node in Hown.
  destruct Hown as ((n & Hn & Hpn & Hl & Hl' & Hb) & Hos & Hoo).
  split; [apply upd_Ok; by eexists|].
  rewrite <- (reroot_same _ _ _ _ (node d b' s a o) Hrep) by (by rewrite !root_node).
  eapply rep_replace; [done|..].
  - rewrite owns_node. split_and!.
    + eexists. heap_lookup. rewrite Hn. cbn. split; [done|]. by autorewrite with avl.
    + eapply owns_same; [done|]. intros x Hx. assert (x <> a) by set_solver. by heap_lookup.
    + eapply owns_same; [done|]. intros x Hx. assert (x <> a) by set_solver. by heap_lookup.
  - rewrite inorder_node_perm. rewrite NoDup_cons, NoDup_app. set_solver.
  - intros x. rewrite inorder_node_perm. set_solver.
  - intros x Hx. assert (x <> a) by set_solver. heap_lookup. rewrite root_node.
    destruct c as [|[[[d' b''] a'] s'] c]; [done|]. rewrite lookup_relinked.
    case_decide as E; [|done]. subst a'. destruct Hrep as [_ Hrep _].
    apply owns_plug in Hrep as [Hrep _]. cbn [owns_ctx] in Hrep.
    destruct Hrep as ((m & Hm & _ & Hlm & _) & _). rewrite root_node in Hlm. rewrite Hm. cbn. f_equal.
    destruct m, d'; cbn in *; unfold set_link; cbn; unfold link in Hlm; cbn in Hlm; by rewrite Hlm.
Qed.

Lemma BAVL_MAX_max a b : BAVL_MAX a b = Z.max a b.
Proof. unfold BAVL_MAX. destruct (Z.ltb_spec b a); lia. Qed.

Lemma node_view d t : t = E \/ exists b s a o, t = node d b s a o.
Proof. destruct t as [|b l a r]; [by left|right]. destruct d; [by exists b, r, a, l|by exists b, l, a, r]. Qed.

Lemma node_flip d b s a o : node d b s a o = node (negb d) b o a s.
Proof. by destruct d. Qed.

Definition untouched (t : tree) (h h' : heap) : Prop := forall x, x ∉ inorder t -> h' !! x = h !! x.

Lemma alter_untouched f a h t : a ∈ inorder t -> untouched t h (alter f a h).
Proof. intros Ha x Hx. apply lookup_alter_ne. intros ->. done. Qed.

Lemma untouched_trans t t' h h' h'' :
  untouched t h h' -> inorder t' = inorder t -> untouched t' h' h'' -> untouched t h h''.
Proof. unfold untouched. intros H1 -> H2 x Hx. by rewrite H2, H1. Qed.

(** A single rotation at a node that is too heavy on side [bs]. *)
Lemma rotate_single root h c bs b b' M child R a O x y :
  rep root h (plug c (node bs b (node (negb bs) b' M child R) a O)) ->
  exists root' h',
    (forall A (k : BAVL -> heap -> outcome A),
     (_BAVL_rotate root h a (negb bs) ≫= fun (th : BAVL * heap) =>
     upd th.2 a (set_balance x) ≫= fun h =>
     upd h child (set_balance y) ≫= fun h => k th.1 h) = k root' h') /\
    rep root' h' (plug c (node (negb bs) y (node bs x M a O) child R)) /\
    untouched (plug c (node bs b (node (negb bs) b' M child R) a O)) h h'.
Proof.
  intros Hrep. pose proof (rotate_Ok root h c (negb bs) b b' M child R a O) as Hrot.
  rewrite negb_involutive in Hrot. destruct (Hrot Hrep) as (root1 & h1 & -> & Hrep1 & Hu1). cbn.
  assert (Hin1 : inorder (plug c (node (negb bs) b' (node bs b M a O) child R)) =
    inorder (plug c (node bs b (node (negb bs) b' M child R) a O))).
  { rewrite !inorder_plug. do 2 f_equal. destruct bs; cbn; by rewrite <- ?app_assoc. }
  destruct (set_balance_Ok root1 h1 ((negb bs, b', child, R) :: c) bs b x M a O Hrep1) as [-> Hrep2]. cbn.
  destruct (set_balance_Ok root1 _ c (negb bs) b' y (node bs x M a O) child R Hrep2) as [-> Hrep3]. cbn.
  eexists _, _. split; [done|]. split; [done|].
  eapply untouched_trans; [exact Hu1|exact Hin1|]. intros z Hz. rewrite inorder_plug_perm in Hz.
  rewrite !inorder_node_perm in Hz. rewrite !lookup_alter_ne; [done|set_solver..].
Qed.

Lemma transform_Ok root h c bs S a O bal delta :
  rep root h (plug c (node bs bal S a O)) -> bal = (if bs then 2 else -2) ->
  avl S -> avl O -> height S = height O + 2 ->
  exists root' h' a' T' delta', transform root h a bal delta = Ok (root', h', a', delta') /\
    rep root' h' (plug c T') /\ root_of T' = Some a' /\ avl T' /\
    inorder T' = inorder (node bs bal S a O) /\
    height T' - (1 + height S) = delta' - delta /\ (delta' = delta \/ delta' = delta - 1) /\
    untouched (plug c (node bs bal S a O)) h h'.
Proof.
  intros Hrep Hbal HS HO Hh. pose proof (height_nonneg O).
  destruct (node_view (negb bs) S) as [->|(b' & M & child & R & ->)]; [cbn in *; lia|].
  rewrite height_node in Hh. apply avl_node in HS as (Hb' & Hr' & HM & HR).
  pose proof Hrep as [_ Ho _]. apply owns_plug in Ho as [_ Ho].
  rewrite !owns_node, !root_node in Ho.
  destruct Ho as ((n & Hn & _ & Hl & _) & ((n' & Hn' & _ & Hl' & _ & Hbal') & _) & _).
  unfold transform. replace (bal =? 2) with bs by (destruct bs; subst; done).
  unfold get. rewrite Hn. cbn. rewrite Hl. cbn. rewrite Hn'. cbn. rewrite Hbal'.
  set (f := if bs then 1 else -1).
  assert (Hbf : b' * f = height R - height M) by (subst f; destruct bs; cbn in *; lia).
  rewrite !Hbf. destruct (Z.eqb_spec (height R - height M) 1); [|destruct (Z.eqb_spec (height R - height M) 0)].
  - destruct (rotate_single root h c bs bal b' M child R a O 0 0 Hrep) as (root1 & h1 & Hk & Hrep1 & Hu).
    rewrite (Hk _ (fun t h => Ok (t, h, child, delta - 1))). eexists _, _, _, _, _. split; [done|].
    split; [done|]. rewrite root_node, avl_node, !height_node, avl_node. split; [done|].
    split; [split_and!; try done; destruct bs; cbn; lia|].
    split; [destruct bs; cbn; by rewrite <- ?app_assoc|]. split; [lia|]. split; [by right|done].
  - destruct (rotate_single root h c bs bal b' M child R a O f (- f) Hrep) as (root1 & h1 & Hk & Hrep1 & Hu).
    rewrite (Hk _ (fun t h => Ok (t, h, child, delta))). eexists _, _, _, _, _. split; [done|].
    split; [done|]. rewrite root_node, avl_node, !height_node, avl_node. split; [done|].
    split; [split_and!; try done; subst f; destruct bs; cbn; lia|].
    split; [destruct bs; cbn; by rewrite <- ?app_assoc|]. split; [lia|]. split; [by left|done].
  - destruct (Z.eqb_spec (height R - height M) (-1)); [|subst f; destruct bs; cbn in *; lia].
    pose proof (height_nonneg R). destruct (node_view bs M) as [->|(bg & M2 & g & R2 & ->)]; [cbn in *; lia|].
    rewrite Hl', root_node. cbn. apply avl_node in HM as (Hbg & Hrg & HM2 & HR2).
    rewrite height_node in *.
    destruct (rotate_Ok root h ((bs, bal, a, O) :: c) bs b' bg M2 g R2 child R Hrep)
      as (root1 & h1 & -> & Hrep1 & Hu1). cbn. cbn [plug] in Hrep1. rewrite (node_flip bs bg) in Hrep1.
    pose proof (rotate_Ok root1 h1 c (negb bs) bal bg R2 g (node (negb bs) b' M2 child R) a O) as Hrot.
    rewrite negb_involutive in Hrot. destruct (Hrot Hrep1) as (root2 & h2 & -> & Hrep2 & Hu2). clear Hrot. cbn.
    destruct Hrep2 as [Hr2 Ho2 Hn2]. pose proof (proj2 (proj1 (owns_plug _ _ _ _) Ho2)) as Hg.
    rewrite owns_node in Hg. destruct Hg as ((ng & Hng & _ & _ & _ & Hbalg) & _).
    unfold get. rewrite Hng. cbn. rewrite Hbalg.
    assert (Hrep2 : rep root2 h2 (plug ((negb bs, bg, g, node (negb bs) b' M2 child R) :: c) (node bs bal R2 a O)))
      by (by constructor). clear Hr2 Ho2 Hn2.
    set (ba := - BAVL_MAX 0 (bg * f) * f). set (bc := BAVL_MAX 0 (- bg * f) * f).
    destruct (set_balance_Ok _ _ _ _ _ ba _ _ _ Hrep2) as [-> Hrep3]. cbn. cbn [plug] in Hrep3.
    rewrite node_flip, negb_involutive in Hrep3.
    destruct (set_balance_Ok root2 _ ((bs, bg, g, node bs ba R2 a O) :: c) _ _ bc _ _ _ Hrep3) as [-> Hrep4].
    cbn. cbn [plug] in Hrep4.
    destruct (set_balance_Ok root2 _ c _ _ 0 _ _ _ Hrep4) as [-> Hrep5]. cbn.
    eexists _, _, _, _, _. split; [done|]. split; [done|].
    rewrite root_node, !avl_node, !height_node. split; [done|].
    split; [split_and!; try done; subst ba bc f; rewrite ?BAVL_MAX_max; destruct bs; cbn in *; lia|].
    split; [destruct bs; cbn; by rewrite <- ?app_assoc; cbn; rewrite <- ?app_assoc|].
    split; [lia|]. split; [by right|].
    intros x Hx. rewrite inorder_plug_perm, !inorder_node_perm in Hx.
    rewrite !lookup_alter_ne by set_solver. rewrite Hu2, Hu1; [done|..];
      cbn [plug]; rewrite inorder_plug_perm, !inorder_node_perm; set_solver.
Qed.

(** The side on which a node hangs, as the code finds it. *)
Lemma side_of root h d b a s c t x :
  rep root h (plug ((d, b, a, s) :: c) t) -> root_of t = Some x ->
  exists n, h !! a = Some n /\ balance n = b /\ bool_decide (link n true = Some x) = d.
Proof.
  intros Hrep Hx. pose proof (rep_perm _ _ _ _ Hrep) as Hp. destruct Hrep as [_ Ho _].
  apply owns_plug in Ho as [Hc _]. cbn [owns_ctx] in Hc.
  destruct Hc as ((n & Ha & _ & Hd & Hs & Hb) & _). exists n. split_and!; [done|done|].
  destruct d; cbn in Hs; [rewrite Hd; by apply bool_decide_true|].
  apply bool_decide_false. intros Hn. rewrite Hs in Hn. rewrite nodes_cons in Hp.
  apply NoDup_app in Hp as (_ & Hp & _). apply root_in in Hn, Hx. set_solver.
Qed.

(** The part of [_BAVL_rebalance] that changes the node. *)
Lemma rebalance_here root h c d b a s t deltac :
  rep root h (plug ((d, b, a, s) :: c) t) -> avl t ->
  avl_ctx ((d, b, a, s) :: c) (height t - deltac) -> -1 <= deltac <= 1 ->
  let delta := BAVL_MAX deltac (BAVL_OPTNEG b d) - BAVL_MAX 0 (BAVL_OPTNEG b d) in
  let bal := b - BAVL_OPTNEG deltac d in
  -1 <= delta <= 1 /\
  exists h0 root' h' a' T' delta',
    upd h a (set_balance bal) = Ok h0 /\
    (if (bal =? 2) || (bal =? -2) then transform root h0 a bal delta else Ok (root, h0, a, delta))
      = Ok (root', h', a', delta') /\
    rep root' h' (plug c T') /\ root_of T' = Some a' /\ avl T' /\
    inorder T' = inorder (node d b t a s) /\
    height T' = 1 + Z.max (height t - deltac) (height s) + delta' /\ -1 <= delta' <= 1 /\
    untouched (plug ((d, b, a, s) :: c) t) h h'.
Proof.
  intros Hrep Ht (Hb & Hr & Hs & Hc) Hdc delta bal. cbn [plug] in *.
  assert (Hneg : BAVL_OPTNEG b d = height s - (height t - deltac)) by (unfold BAVL_OPTNEG; destruct d; lia).
  assert (Hbal : (if d : bool then bal else - bal) = height t - height s)
    by (subst bal; unfold BAVL_OPTNEG in *; destruct d; lia).
  assert (Hd : delta = Z.max (height t) (height s) - Z.max (height t - deltac) (height s))
    by (subst delta; rewrite !BAVL_MAX_max, Hneg; lia).
  assert (Hbr : -1 <= height t - deltac - height s <= 1) by (destruct d; lia).
  split; [lia|]. destruct (set_balance_Ok _ _ _ _ _ bal _ _ _ Hrep) as [Hupd Hrep0].
  exists (alter (set_balance bal) a h).
  assert (Hin : forall bb, inorder (node d bb t a s) = inorder (node d b t a s)) by (by destruct d).
  assert (Hin' : forall bb, inorder (plug c (node d bb t a s)) = inorder (plug c (node d b t a s)))
    by (intros; by rewrite !inorder_plug, Hin).
  assert (Hu : untouched (plug c (node d b t a s)) h (alter (set_balance bal) a h)).
  { apply alter_untouched. rewrite inorder_plug_perm, inorder_node_perm. set_solver. }
  destruct (Z.eqb_spec (Z.abs (height t - height s)) 2) as [E|E].
  - assert (exists bs S O, node d bal t a s = node bs bal S a O /\ bal = (if bs then 2 else -2) /\
      avl S /\ avl O /\ height S = height O + 2 /\ height S = Z.max (height t) (height s))
      as (bs & S & O & Heq & Hb2 & HS & HO & HhS & HhS').
    { destruct (Z.ltb_spec (height s) (height t)).
      - exists d, t, s. split_and!; try done; destruct d; lia.
      - exists (negb d), s, t. rewrite <- node_flip. split_and!; try done; destruct d; cbn; lia. }
    rewrite Heq in Hrep0.
    destruct (transform_Ok _ _ _ _ _ _ _ _ delta Hrep0 Hb2 HS HO HhS)
      as (root1 & h1 & a1 & T1 & delta1 & Htr & Hrep1 & Hr1 & Ha1 & Hi1 & Hh1 & Hd1 & Hu1).
    eexists root1, h1, a1, T1, delta1. split; [done|]. split.
    { rewrite <- Htr. replace (_ || _) with true; [done|]. rewrite Hb2. by destruct bs. }
    split; [done|]. split; [done|]. split; [done|]. split; [by rewrite Hi1, <- Heq|].
    rewrite <- Heq in Hu1. split; [lia|]. split; [lia|].
    eapply untouched_trans; [exact Hu| |exact Hu1]. apply Hin'.
  - eexists root, _, a, (node d bal t a s), delta. split; [done|]. split.
    { replace (_ || _) with false; [done|]. symmetry. apply orb_false_iff. rewrite !Z.eqb_neq. destruct d; lia. }
    split; [done|]. rewrite root_node, avl_node, height_node. split; [done|]. split.
    { split_and!; try done; destruct d; lia. }
    split; [done|]. split; [lia|]. split; [lia|done].
Qed.

Lemma ok_bind {A B} (a : A) (f : A -> outcome B) : (Ok a ≫= f) = f a.
Proof. done. Qed.

Lemma rebalance_Ok c : forall fl root h d b a s t deltac,
  rep root h (plug ((d, b, a, s) :: c) t) -> avl t ->
  avl_ctx ((d, b, a, s) :: c) (height t - deltac) -> -1 <= deltac <= 1 -> (length c < fl)%nat ->
  exists root' h' T', _BAVL_rebalance fl root h a d deltac = Ok (root', h') /\
    rep root' h' T' /\ avl T' /\ inorder T' = inorder (plug ((d, b, a, s) :: c) t) /\
    untouched (plug ((d, b, a, s) :: c) t) h h'.
Proof.
  induction c as [|[[[d' b'] a'] s'] c IH]; intros [|fl] root h d b a s t deltac Hrep Ht Hc Hdc Hfl;
    cbn [length] in Hfl; [lia| |lia|].
  all: destruct (rebalance_here _ _ _ _ _ _ _ _ _ Hrep Ht Hc Hdc)
    as (Hdelta & h0 & root1 & h1 & a1 & T1 & delta1 & Hupd & Htr & Hrep1 & Hr1 & Ha1 & Hi1 & Hh1 & Hd1 & Hu1).
  all: pose proof Hc as (_ & Hbr & _ & Hc').
  all: pose proof (proj2 (proj1 (owns_plug _ _ _ _) (rep_owns _ _ _ Hrep1))) as Ho1.
  all: destruct (owns_root _ _ _ _ _ (rep_owns _ _ _ Hrep1) Hr1) as (n1 & Hn1 & Hp1).
  all: pose proof (rep_owns _ _ _ Hrep) as Ho; apply owns_plug in Ho as [Ho _]; cbn [owns_ctx] in Ho.
  all: destruct Ho as ((n & Hn & _ & _ & _ & Hbn) & _).
  all: cbn [_BAVL_rebalance]; unfold get; rewrite Hn; cbn [of_option]; rewrite ok_bind; rewrite Hbn.
  all: rewrite !bind_ASSERT_true by (zify_bool; rewrite andb_true_iff, !Z.leb_le; lia).
  all: destruct (Z.eqb_spec deltac 0) as [->|];
    [eexists _, _, _; split; [done|]; split; [done|]; rewrite Z.sub_0_r in Hc; by rewrite avl_plug|].
  all: rewrite Hupd; cbn [of_option]; rewrite ok_bind; rewrite Htr; cbn [of_option]; rewrite ok_bind.
  all: rewrite bind_ASSERT_true by (rewrite andb_true_iff, !Z.leb_le; lia).
  all: rewrite Hn1; cbn [of_option]; rewrite ok_bind; rewrite Hp1; cbn [above].
  - eexists _, _, _. split; [done|]. split; [done|]. split; [done|]. split; [done|]. done.
  - destruct (side_of _ _ _ _ _ _ _ _ _ Hrep1 Hr1) as (n' & Hn' & _ & Hside).
    rewrite Hn'; cbn [of_option]; rewrite ok_bind. rewrite Hside.
    destruct (IH fl _ _ _ _ _ _ _ delta1 Hrep1 Ha1) as (root2 & h2 & T2 & Hreb & Hrep2 & Ha2 & Hi2 & Hu2).
    { by rewrite Hh1, Z.add_simpl_r. } { done. } { lia. }
    assert (Hii : inorder (plug ((d', b', a', s') :: c) T1) =
      inorder (plug ((d, b, a, s) :: (d', b', a', s') :: c) t)).
    { rewrite !inorder_plug, Hi1. cbn [before after]. destruct d; cbn; by rewrite <- !app_assoc. }
    exists root2, h2, T2. split; [done|]. split; [done|]. split; [done|].
    split; [by rewrite Hi2|]. by eapply untouched_trans.
Qed.

Lemma filter_none {A} (P : A -> Prop) `{!forall x, Decision (P x)} (l : list A) :
  (forall x, x ∈ l -> ~ P x) -> filter P l = [].
Proof.
  induction l as [|x l IH]; intros Hl; [done|]. rewrite filter_cons_False by (apply Hl; set_solver).
  apply IH. set_solver.
Qed.

(** ** Search and insertion *)
Lemma inorder_size h p t : owns h p t -> NoDup (inorder t) -> (length (inorder t) <= size h)%nat.
Proof.
  intros Ho Hn. rewrite <- size_dom. rewrite <- (size_list_to_set (C := gset loc)) by done.
  apply subseteq_size. intros x Hx. apply elem_of_list_to_set in Hx. apply elem_of_dom. by eapply owns_lookup.
Qed.

Lemma length_ctx c t : (length c + length (inorder t) <= length (inorder (plug c t)))%nat.
Proof.
  revert t; induction c as [|[[[d b] a] s] c IH]; intros t; cbn; [lia|].
  specialize (IH (node d b t a s)). rewrite inorder_node_perm in IH. cbn in IH.
  rewrite length_app in IH. lia.
Qed.

Lemma height_le_length t : height t <= Zlen (inorder t).
Proof. induction t; cbn; rewrite ?length_app; cbn; lia. Qed.

(** An AVL tree of height [k] has at least [2 ^ (k / 2) - 1] nodes. *)
Lemma avl_height t : avl t -> 2 ^ (height t / 2) <= Zlen (inorder t) + 1.
Proof.
  induction t as [|b l IHl a r IHr]; cbn [avl inorder]; intros Ht; [done|].
  destruct Ht as (Hb & Hr & Hl & Hrr). specialize (IHl Hl). specialize (IHr Hrr).
  rewrite length_app. cbn [length height]. pose proof (height_nonneg l). pose proof (height_nonneg r).
  destruct (Z.leb_spec (Z.max (height l) (height r)) 0).
  - replace (Z.max (height l) (height r)) with 0 by lia. change (2 ^ ((1 + 0) / 2)) with 1. lia.
  - set (k := Z.max (height l) (height r)) in *.
    assert (Hle : forall x, k - 1 <= x -> 2 ^ ((1 + k) / 2) <= 2 * 2 ^ (x / 2)).
    { intros x Hx. rewrite <- Z.pow_succ_r by (apply Z.div_pos; lia). apply Z.pow_le_mono_r; [lia|].
      replace (1 + k) with (k - 1 + 1 * 2) by lia. rewrite Z.div_add by lia.
      pose proof (Z.div_le_mono (k - 1) x 2). lia. }
    pose proof (Hle (height l) ltac:(lia)). pose proof (Hle (height r) ltac:(lia)). lia.
Qed.

Section Order.
Context {K : Type} (cmp : K -> K -> Z) `{!Comparator cmp} (value : loc -> K).

Definition node_lt (a b : loc) : Prop := cmp (value a) (value b) = -1.
Abbreviation sorted := (StronglySorted node_lt).

(** The value [v] belongs between the nodes before and after the hole. *)
Definition fits (v : K) (c : ctx) : Prop :=
  (forall y, y ∈ before c -> cmp (value y) v = -1) /\ (forall y, y ∈ after c -> cmp v (value y) = -1).

Lemma sorted_split l1 a l2 :
  sorted (l1 ++ a :: l2) -> (forall y, y ∈ l1 -> node_lt y a) /\ (forall y, y ∈ l2 -> node_lt a y).
Proof.
  intros H. apply StronglySorted_app in H as (H & _ & H2). inversion_clear H2.
  split; [set_solver|]. by apply Forall_forall.
Qed.

Lemma fits_step v c b l a r :
  sorted (inorder l ++ a :: inorder r) -> fits v c -> cmp v (value a) <> 0 ->
  fits v ((cmp v (value a) =? 1, b, a, if cmp v (value a) =? 1 then l else r) :: c).
Proof.
  intros Hs [Hb Ha] Hne. destruct (sorted_split _ _ _ Hs) as [Hl Hr].
  pose proof (cmp_range v (value a)) as Hrange. pose proof (cmp_antisym v (value a)) as Hanti.
  destruct (Z.eqb_spec (cmp v (value a)) 1) as [E|E]; split; cbn; intros y Hy.
  - rewrite !elem_of_app, list_elem_of_singleton in Hy. destruct Hy as [?|[Hy| ->]]; [by apply Hb| |lia].
    eapply cmp_lt_trans; [by apply Hl|lia].
  - by apply Ha.
  - rewrite app_nil_r in Hy. by apply Hb.
  - rewrite elem_of_cons, elem_of_app in Hy. destruct Hy as [->|[Hy|?]]; [lia| |by apply Ha].
    eapply cmp_lt_trans; [|by apply Hr]. lia.
Qed.

Lemma compare_values_Ok v w : _BAVL_compare_values cmp v w = Ok (cmp v w).
Proof.
  unfold _BAVL_compare_values. destruct (cmp_range v w) as [-> | [-> | ->]]; done.
Qed.

(** The search stops at a node that compares equal or at the place where the
    value belongs. *)
Lemma search_Ok h v t : forall p c fl a,
  owns h p t -> root_of t = Some a -> sorted (inorder t) -> fits v c -> height t <= Z.of_nat fl ->
  exists x, search cmp value fl h v a = Ok (x, cmp v (value x)) /\
    (cmp v (value x) = 0 -> x ∈ inorder t) /\
    (cmp v (value x) <> 0 -> exists b s c',
       plug c t = plug ((cmp v (value x) =? 1, b, x, s) :: c') E /\
       fits v ((cmp v (value x) =? 1, b, x, s) :: c')).
Proof.
  induction t as [|b l IHl a' r IHr]; intros p c fl a Ho Hr Hs Hf Hfl; [done|]. cbn in Hr. simplify_eq.
  cbn [height] in Hfl. pose proof (height_nonneg l) as Hhl. pose proof (height_nonneg r) as Hhr.
  destruct fl as [|fl]; [lia|]. cbn [search]. rewrite compare_values_Ok, ok_bind.
  destruct (Z.eqb_spec (cmp v (value a)) 0) as [E|E].
  { exists a. split; [done|]. split; [|done]. intros _. cbn. set_solver. }
  cbn in Ho, Hs. destruct Ho as (Ha & Hol & Hor).
  unfold get. rewrite Ha. cbn [of_option]. rewrite ok_bind.
  pose proof (fits_step v c b l a r Hs Hf E) as Hf'.
  apply StronglySorted_app in Hs as (_ & Hsl & Hsr). inversion_clear Hsr as [|? ? Hsr' _].
  destruct (cmp v (value a) =? 1) eqn:E1; unfold link; cbn.
  - destruct (root_of r) as [y|] eqn:Ey; cycle 1.
    { exists a. split; [done|]. rewrite E1. split; [done|]. intros _.
      exists b, l, c. destruct r; [|done]. by split. }
    destruct (IHr (Some a) ((true, b, a, l) :: c) fl y) as (x & Hx & H0 & H1); [done..|lia|].
    exists x. split; [done|]. split; [|done]. intros ?. cbn. set_solver.
  - destruct (root_of l) as [y|] eqn:Ey; cycle 1.
    { exists a. split; [done|]. rewrite E1. split; [done|]. intros _.
      exists b, r, c. destruct l; [|done]. by split. }
    destruct (IHl (Some a) ((false, b, a, r) :: c) fl y) as (x & Hx & H0 & H1); [done..|lia|].
    exists x. split; [done|]. split; [|done]. intros ?. cbn. set_solver.
Qed.

(** *** The specification: operations on the sorted list of the nodes *)
Fixpoint insert_sorted (a : loc) (l : list loc) : list loc :=
  match l with
  | [] => [a]
  | x :: l' => if cmp (value a) (value x) =? -1 then a :: x :: l' else x :: insert_sorted a l'
  end.

Definition find_equal (v : K) (l : list loc) : option loc :=
  head (filter (fun x => cmp v (value x) = 0) l).

(** The heap holds a balanced search tree of the nodes [l]. *)
Definition holds (root : BAVL) (h : heap) (l : list loc) : Prop :=
  exists t, rep root h t /\ avl t /\ inorder t = l /\ sorted l.

Lemma insert_sorted_split a l1 l2 :
  (forall y, y ∈ l1 -> cmp (value y) (value a) = -1) ->
  (forall y, y ∈ l2 -> cmp (value a) (value y) = -1) ->
  insert_sorted a (l1 ++ l2) = l1 ++ a :: l2.
Proof.
  intros H1 H2. induction l1 as [|x l1 IH]; cbn.
  - destruct l2 as [|y l2]; cbn; [done|]. by rewrite H2 by set_solver.
  - pose proof (cmp_antisym (value x) (value a)) as Ha. rewrite H1 in Ha by set_solver.
    rewrite Ha. cbn. f_equal. apply IH. set_solver.
Qed.

Lemma sorted_insert a l1 l2 :
  sorted (l1 ++ l2) -> (forall y, y ∈ l1 -> node_lt y a) -> (forall y, y ∈ l2 -> node_lt a y) ->
  sorted (l1 ++ a :: l2).
Proof.
  intros Hs H1 H2. apply StronglySorted_app in Hs as (H & Hs1 & Hs2). apply StronglySorted_app.
  split; [set_solver|]. split; [done|]. constructor; [done|]. by apply Forall_forall.
Qed.

Lemma find_equal_Some v l x : x ∈ l -> cmp v (value x) = 0 -> sorted l -> find_equal v l = Some x.
Proof.
  intros Hx Hv Hs. unfold find_equal. apply list_elem_of_split in Hx as (l1 & l2 & ->).
  destruct (sorted_split _ _ _ Hs) as [H1 _]. rewrite filter_app.
  rewrite (filter_none _ l1); [by rewrite filter_cons_True|]. intros y Hy Hvy. specialize (H1 y Hy). unfold node_lt in H1.
  pose proof (cmp_eq_lt _ _ (value x) Hvy). lia.
Qed.

Lemma find_equal_None v l1 l2 :
  (forall y, y ∈ l1 -> cmp (value y) v = -1) -> (forall y, y ∈ l2 -> cmp v (value y) = -1) ->
  find_equal v (l1 ++ l2) = None.
Proof.
  intros H1 H2. unfold find_equal. rewrite filter_none; [done|]. intros y [Hy|Hy]%elem_of_app Hv.
  - pose proof (cmp_antisym (value y) v). rewrite H1 in *; [lia|done].
  - rewrite H2 in Hv; done.
Qed.

Lemma search_holds root h l v a :
  holds root h l -> root = Some a ->
  exists x, search cmp value (fuel h) h v a = Ok (x, cmp v (value x)) /\
    find_equal v l = (if cmp v (value x) =? 0 then Some x else None) /\
    x ∈ l /\
    (cmp v (value x) <> 0 -> exists b s c',
       rep root h (plug ((cmp v (value x) =? 1, b, x, s) :: c') E) /\
       avl (plug ((cmp v (value x) =? 1, b, x, s) :: c') E) /\
       inorder (plug ((cmp v (value x) =? 1, b, x, s) :: c') E) = l /\
       fits v ((cmp v (value x) =? 1, b, x, s) :: c')).
Proof.
  intros (t & Hrep & Ht & <- & Hs) ->. pose proof Hrep as [Hr Ho Hn].
  destruct (search_Ok h v t None [] (fuel h) a) as (x & Hx & H0 & H1); try done.
  { unfold fits. cbn. set_solver. }
  { pose proof (inorder_size _ _ _ Ho Hn). pose proof (height_le_length t). unfold fuel. lia. }
  exists x. split; [done|]. destruct (Z.eqb_spec (cmp v (value x)) 0) as [Heq|Hne].
  - split; [by apply find_equal_Some; auto|]. split; [auto|done].
  - destruct (H1 Hne) as (b & s & c' & Hp & Hf). cbn [plug] in Hp. rewrite Hp. split.
    + change (plug c' _) with (plug ((cmp v (value x) =? 1, b, x, s) :: c') E).
      rewrite inorder_plug. cbn [inorder app]. destruct Hf. by apply find_equal_None.
    + split; [rewrite inorder_plug_perm, inorder_node_perm; set_solver|].
      intros _. exists b, s, c'. cbn [plug]. rewrite <- Hp. done.
Qed.

Lemma attach_Ok root h d b x s c a :
  rep root h (plug ((d, b, x, s) :: c) E) -> a ∉ inorder (plug ((d, b, x, s) :: c) E) ->
  rep root (alter (fun _ => mkNode (Some x) None None 0) a (alter (set_link d (Some a)) x h))
    (plug ((d, b, x, s) :: c) (N 0 E a E)) \/ h !! a = None.
Proof.
  intros Hrep Ha. destruct (h !! a) as [n|] eqn:Hn; [left|by right].
  rewrite inorder_plug_perm in Ha. cbn [inorder app] in Ha.
  change root with (reroot ((d, b, x, s) :: c) root (root_of (N 0 E a E))).
  assert (a <> x) by (rewrite elem_of_nodes_cons in Ha; naive_solver).
  eapply rep_replace; [done|..].
  - cbn. heap_lookup. rewrite Hn. done.
  - cbn. apply NoDup_singleton.
  - cbn. set_solver.
  - intros y Hy. cbn [relinked root_of]. apply lookup_alter_ne. intros ->. done.
Qed.

Lemma insert_holds root h l a :
  holds root h l -> is_Some (h !! a) -> a ∉ l ->
  exists root' h', BAVL_Insert cmp value root h a =
      Ok (root', h', bool_decide (find_equal (value a) l = None)) /\
    holds root' h' (if find_equal (value a) l then l else insert_sorted a l) /\
    (forall x, x ∉ a :: l -> h' !! x = h !! x).
Proof.
  intros Hh [n Hn] Ha. unfold BAVL_Insert. destruct root as [r|] eqn:Eroot.
  - destruct (search_holds _ _ _ (value a) r Hh eq_refl) as (x & -> & Hfe & Hx & Hctx). rewrite ok_bind.
    cbn beta iota. destruct (Z.eqb_spec (cmp (value a) (value x)) 0) as [Heq|Hne].
    { rewrite Hfe. eexists _, _. split; [done|]. split; done. }
    destruct (Hctx Hne) as (b & s & c & Hrep & Havl & <- & Hf). rewrite Hfe.
    assert (Hnx : a <> x) by (intros ->; done).
    assert (Hhx : is_Some (h !! x)) by (eapply owns_lookup; [apply Hrep|done]).
    set (d := cmp (value a) (value x) =? 1) in *.
    rewrite upd_Ok by done. rewrite ok_bind. rewrite upd_Ok by node_ok. rewrite ok_bind.
    destruct (attach_Ok _ _ _ _ _ _ _ _ Hrep Ha) as [Hrep1|?]; [|congruence].
    set (h1 := alter _ a _) in *. apply avl_plug in Havl as [_ Havl].
    destruct (rebalance_Ok c (fuel h1) _ _ _ _ _ _ _ 1 Hrep1) as (root2 & h2 & T & -> & Hrep2 & HT & Hi & Hu);
      [done|done|lia| |].
    { pose proof (inorder_size _ _ _ (rep_owns _ _ _ Hrep1) (rep_nodup _ _ _ Hrep1)).
      pose proof (length_ctx ((d, b, x, s) :: c) (N 0 E a E)). unfold fuel. cbn [length] in *. lia. }
    eexists _, _. split; [done|]. cbn [fst snd].
    destruct Hh as (t0 & _ & _ & _ & Hs). rewrite inorder_plug in Hi, Hs |- *. cbn [inorder app] in Hi, Hs |- *.
    destruct Hf as [Hf1 Hf2]. split.
    + exists T. split; [done|]. split; [done|]. rewrite insert_sorted_split by done.
      split; [done|]. by apply sorted_insert.
    + intros y Hy. rewrite Hu.
      * unfold h1. rewrite !lookup_alter_ne; [done| |set_solver].
        intros ->. apply Hy. rewrite elem_of_cons. right. by rewrite inorder_plug in Hx.
      * rewrite inorder_plug. cbn [inorder app]. set_solver.
  - rewrite upd_Ok by (by eexists). rewrite ok_bind.
    destruct Hh as (t & [Hr _ _] & _ & <- & _). destruct t; [|done]. cbn.
    eexists _, _. split; [done|]. split.
    + exists (N 0 E a E). cbn. split_and!; try done; [|by repeat constructor].
      constructor; cbn; [done| |apply NoDup_singleton]. by rewrite lookup_alter_eq, Hn.
    + intros y Hy. apply lookup_alter_ne. set_solver.
Qed.

End Order.

(** ** Walking down *)
Lemma descend_Ok h d t : forall p fl a,
  owns h p t -> root_of t = Some a -> (length (inorder t) <= fl)%nat ->
  exists c b s x, descend fl h a d = Ok x /\ t = plug c (node d b E x s) /\
    Forall (fun f => f.1.1.1 = d) c.
Proof.
  induction t as [|b l IHl a' r IHr]; intros p fl a Ho Hr Hfl; [done|]. cbn in Hr. simplify_eq.
  cbn in Hfl. rewrite length_app in Hfl. cbn in Hfl. destruct fl as [|fl]; [lia|].
  destruct Ho as (Ha & Hol & Hor). cbn [descend]. unfold get. rewrite Ha. cbn [of_option].
  rewrite ok_bind. destruct d; unfold link; cbn.
  - destruct (root_of r) as [y|] eqn:Ey.
    + destruct (IHr (Some a) fl y) as (c & b' & s & x & Hx & -> & Hc); [done..|lia|].
      exists (c ++ [(true, b, a, l)]), b', s, x. split; [done|]. rewrite plug_app. split; [done|].
      apply Forall_app. by repeat constructor.
    + exists [], b, l, a. destruct r; [|done]. done.
  - destruct (root_of l) as [y|] eqn:Ey.
    + destruct (IHl (Some a) fl y) as (c & b' & s & x & Hx & -> & Hc); [done..|lia|].
      exists (c ++ [(false, b, a, r)]), b', s, x. split; [done|]. rewrite plug_app. split; [done|].
      apply Forall_app. by repeat constructor.
    + exists [], b, r, a. destruct l; [|done]. done.
Qed.

Lemma after_right c : Forall (fun f => f.1.1.1 = true) c -> after c = [].
Proof. induction 1 as [|[[[d b] a] s] c Hd _ IH]; cbn in *; [done|]. by subst d. Qed.
Lemma before_left c : Forall (fun f => f.1.1.1 = false) c -> before c = [].
Proof. induction 1 as [|[[[d b] a] s] c Hd _ IH]; cbn in *; [done|]. subst d. by rewrite IH. Qed.

Lemma before_app c1 c2 : before (c1 ++ c2) = before c2 ++ before c1.
Proof.
  induction c1 as [|[[[d b] a] s] c IH]; cbn; [by rewrite app_nil_r|]. by rewrite IH, <- app_assoc.
Qed.
Lemma after_app c1 c2 : after (c1 ++ c2) = after c1 ++ after c2.
Proof. induction c1 as [|[[[d b] a] s] c IH]; cbn; [done|]. by rewrite IH, <- app_assoc. Qed.
Lemma height_plug c t t' : height t = height t' -> height (plug c t) = height (plug c t').
Proof.
  revert t t'; induction c as [|[[[d b] a] s] c IH]; cbn [plug]; [done|]. intros t t' Ht. apply IH.
  by rewrite !height_node, Ht.
Qed.

Lemma plug_in t a : a ∈ inorder t -> exists c b l r, t = plug c (N b l a r).
Proof.
  induction t as [|b l IHl x r IHr]; cbn; intros Ha; [by apply not_elem_of_nil in Ha|].
  rewrite elem_of_app, elem_of_cons in Ha. destruct Ha as [Ha|[->|Ha]].
  - destruct (IHl Ha) as (c & b' & l' & r' & ->). exists (c ++ [(false, b, x, r)]), b', l', r'.
    by rewrite plug_app.
  - by exists [], b, l, r.
  - destruct (IHr Ha) as (c & b' & l' & r' & ->). exists (c ++ [(true, b, x, l)]), b', l', r'.
    by rewrite plug_app.
Qed.

Lemma owns_reparent_opt h h' p p' t :
  owns h p t -> NoDup (inorder t) ->
  (forall x, x ∈ inorder t -> h' !! x = alter_opt (set_parent p') (root_of t) h !! x) ->
  owns h' p' t.
Proof.
  intros Ho Hn Hx. eapply owns_reparent; [done|done|..].
  - intros x Hin Hr. by rewrite Hx, lookup_alter_opt, bool_decide_false.
  - intros a Ha. by rewrite Hx, lookup_alter_opt, bool_decide_true by (done || by apply root_in).
Qed.

(** ** Swapping a node with the maximum of its left subtree *)

(** A context whose hole gets another root and that is put below another
    parent. *)
Lemma owns_ctx_relink h p c x v :
  owns_ctx h p c x -> NoDup (nodes c) -> owns_ctx (relinked c h v) p c v.
Proof.
  destruct c as [|[[[d b] a] s] c]; cbn [owns_ctx relinked]; [done|].
  intros ((n & H1 & H2 & H3 & H4 & H5) & Hs & Hc) Hn. rewrite nodes_cons in Hn.
  apply NoDup_cons in Hn as [Ha Hn]. split; [|split].
  - eexists. rewrite lookup_alter_same, H1. cbn. split; [done|]. autorewrite with avl.
    rewrite bool_decide_true by done. rewrite bool_decide_false by (by destruct d). done.
  - eapply owns_same; [done|]. intros y Hy. apply lookup_alter_ne. set_solver.
  - eapply owns_ctx_same; [done|]. intros y Hy. apply lookup_alter_ne. set_solver.
Qed.

Lemma owns_ctx_reparent h p p' c x y t :
  owns_ctx h p c x -> NoDup (nodes c) -> c <> [] -> root_of (plug c t) = Some y ->
  owns_ctx (alter (set_parent p') y h) p' c x /\ y ∈ nodes c.
Proof.
  revert x t; induction c as [|[[[d b] a] s] c IH]; intros x t Ho Hn Hc Hy; [done|].
  rewrite nodes_cons in Hn. apply NoDup_cons in Hn as [Ha Hn]. apply NoDup_app in Hn as (Hns & Hd & Hn).
  cbn [owns_ctx plug] in *. destruct Ho as ((n & H1 & H2 & H3 & H4 & H5) & Hs & Hoc).
  rewrite elem_of_nodes_cons. destruct c as [|f c].
  - cbn [plug] in Hy. rewrite root_node in Hy. simplify_eq. split; [|by left]. split; [|split; [|done]].
    + eexists. rewrite lookup_alter_same, H1. cbn. split; [done|]. by autorewrite with avl.
    + eapply owns_same; [done|]. intros z Hz. apply lookup_alter_ne. set_solver.
  - destruct (IH _ _ Hoc Hn ltac:(done) Hy) as [Hoc' Hin]. split; [|by right; right].
    assert (a <> y) by set_solver. split; [|split; [|done]].
    + exists n. rewrite lookup_alter_ne by done. destruct f as [[[? ?] ?] ?]. done.
    + eapply owns_same; [done|]. intros z Hz. apply lookup_alter_ne. set_solver.
Qed.

Lemma swap_connected_Ok root h c b bm lm m a r :
  rep root h (plug c (N b (N bm lm m E) a r)) ->
  exists root' h', swap_connected root h a m = Ok (root', h') /\
    rep root' h' (plug c (N bm (N b lm a E) m r)) /\
    untouched (plug c (N b (N bm lm m E) a r)) h h'.
Proof.
  intros Hrep. pose proof (rep_perm _ _ _ _ Hrep) as Hp.
  assert (Hn : NoDup (a :: m :: inorder lm ++ inorder r ++ nodes c)).
  { revert Hp. change (N b (N bm lm m E) a r) with (node false b (node false bm lm m E) a r).
    rewrite !inorder_node_perm. cbn. by rewrite app_nil_r, <- !app_assoc. }
  clear Hp. rewrite !NoDup_cons, !NoDup_app in Hn. destruct Hn as (Ha & Hm & Hlm & Hdl & Hr & Hdr & Hc).
  split_notin.
  pose proof Hrep as [_ Ho _]. apply owns_plug in Ho as [_ Ho].
  cbn in Ho. destruct Ho as (Hha & (Hhm & Holm & _) & Hor).
  assert (Hlr : forall x, root_of lm = Some x -> is_Some (h !! x))
    by (intros x Hx%root_in; by apply (owns_lookup _ _ _ _ Holm)).
  assert (Hrr : forall x, root_of r = Some x -> is_Some (h !! x))
    by (intros x Hx%root_in; by apply (owns_lookup _ _ _ _ Hor)).
  assert (Hlc : forall x, x ∈ nodes c -> x ∉ inorder lm)
    by (intros x ? Hx%Hdl; split_notin; done).
  unfold swap_connected, get. rewrite Hha, Hhm. cbn [of_option]. rewrite !ok_bind.
  cbv zeta. unfold link at 1. cbn [link1]. rewrite bool_decide_false by (by apply root_notin).
  unfold link; cbn [negb link0 link1 parent root_of].
  rewrite upd_Ok by node_ok. rewrite ok_bind.
  rewrite upd_parent_Ok by (intros x Hx; pose proof (Hlr x Hx); node_ok). rewrite ok_bind.
  rewrite upd_Ok by node_ok. rewrite ok_bind. cbn [upd_parent]. rewrite ok_bind.
  rewrite upd_Ok by node_ok. rewrite ok_bind.
  rewrite (relink_Ok root h _ c _ a (Some m) Hrep); [|done|].
  2:{ intros x [[_ ?]|Hx]%in_above; [done|]. pose proof (Hlc x Hx). by heap_lookup. }
  rewrite ok_bind. cbn [fst snd].
  rewrite upd_Ok by node_ok. rewrite ok_bind.
  rewrite upd_Ok by node_ok. rewrite ok_bind.
  rewrite upd_Ok by node_ok. rewrite ok_bind.
  rewrite upd_parent_Ok by (intros x Hx; pose proof (Hrr x Hx); node_ok). rewrite ok_bind.
  eexists _, _. split; [reflexivity|].
  match goal with |- rep _ ?hh _ /\ _ => set (h' := hh) end.
  assert (Hsame : forall x, x <> a -> x <> m -> x ∉ inorder lm -> x ∉ inorder r ->
    h' !! x = relinked c h (Some m) !! x).
  { intros x ? ? ? ?. unfold h'. heap_lookup. apply relinked_same. by heap_lookup. }
  split.
  - eapply (rep_replace _ _ _ _ _ (N bm (N b lm a E) m r)); [done|..].
    + cbn. split_and!; [| | |done|].
      * unfold h'. heap_lookup. rewrite Hhm. done.
      * unfold h'. heap_lookup. rewrite Hha. done.
      * apply (owns_reparent_opt h _ (Some m)); [done..|]. intros x Hx. unfold h'.
        pose proof (Hdl x Hx). split_notin.
        heap_lookup. rewrite !lookup_alter_opt. by heap_lookup.
      * apply (owns_reparent_opt h _ (Some a)); [done..|]. intros x Hx. unfold h'.
        pose proof (Hdr x Hx). assert (x ∉ inorder lm) by (intros Hl%Hdl; split_notin; done).
        heap_lookup. rewrite !lookup_alter_opt. by heap_lookup.
    + change (N bm (N b lm a E) m r) with (node false bm (node false b lm a E) m r).
      rewrite !inorder_node_perm. cbn. rewrite app_nil_r, !NoDup_cons, NoDup_app. set_solver.
    + intros x Hx Hxc. revert Hx. cbn. rewrite !elem_of_app, !elem_of_cons.
      pose proof (Hlc x Hxc). pose proof (fun H => Hdr x H Hxc). intros Hx.
      destruct Hx as [[Hx|[->|Hx]]|[->|Hx]]; first [done | by apply not_elem_of_nil in Hx | by auto].
    + intros x Hx. cbn [root_of]. apply Hsame; [ne|ne|auto|]. intros Hxr%Hdr. done.
  - intros x. rewrite inorder_plug_perm. cbn. intros Hx. split_notin.
    rewrite Hsame; [by apply relinked_other|done..].
Qed.

Lemma plug_root c t x : root_of t = Some x -> is_Some (root_of (plug c t)).
Proof.
  revert t x; induction c as [|[[[d b] a] s] c IH]; intros t x Hx; cbn; [by eexists|].
  eapply IH, root_node.
Qed.

Lemma swap_apart_Ok root h c b bm lm m a r bq q lq cl :
  rep root h (plug c (N b (plug ((true, bq, q, lq) :: cl) (N bm lm m E)) a r)) ->
  exists root' h', swap_apart root h a m = Ok (root', h') /\
    rep root' h' (plug c (N bm (plug ((true, bq, q, lq) :: cl) (N b lm a E)) m r)) /\
    untouched (plug c (N b (plug ((true, bq, q, lq) :: cl) (N bm lm m E)) a r)) h h'.
Proof.
  set (C := (true, bq, q, lq) :: cl). intros Hrep. pose proof (rep_perm _ _ _ _ Hrep) as Hp.
  assert (Hn : NoDup (a :: m :: inorder lm ++ nodes C ++ inorder r ++ nodes c)).
  { revert Hp. change (N b (plug C (N bm lm m E)) a r) with (node false b (plug C (node false bm lm m E)) a r).
    rewrite !inorder_node_perm, inorder_plug_perm, inorder_node_perm. cbn.
    by rewrite app_nil_r, <- !app_assoc. }
  clear Hp. assert (Hn' : NoDup (m :: a :: inorder lm ++ nodes C ++ inorder r)).
  { rewrite perm_swap. pose proof Hn as Hn'. rewrite !app_assoc in Hn'. rewrite !app_assoc.
    by apply (NoDup_app (_ :: _ :: _)) in Hn' as [? _]. }
  rewrite !NoDup_cons, !NoDup_app in Hn.
  destruct Hn as (Ha & Hm & Hlm & Hdl & HC & HdC & Hr & Hdr & Hc).
  pose proof Hrep as [_ Ho _]. apply owns_plug in Ho as [_ Ho].
  cbn [owns] in Ho. destruct Ho as (Hha & Hol & Hor). rewrite owns_plug in Hol. destruct Hol as [HoC Hol].
  cbn [owns root_of] in Hol, HoC. destruct Hol as (Hhm & Holm & _).
  pose proof HoC as HoC'. cbn [owns_ctx C] in HoC'.
  destruct HoC' as ((nq & Hhq & Hpq & Hlq & _ & _) & _). cbn [above C] in Hhm.
  assert (Hq : q ∈ nodes C) by (unfold C; rewrite elem_of_nodes_cons; by left).
  destruct (plug_root C (N bm lm m E) m eq_refl) as [y Hy]. rewrite Hy in Hha.
  split_notin. assert (HCc : forall x, x ∈ nodes C -> x ∉ nodes c /\ x ∉ inorder r)
    by (intros x Hx%HdC; by split_notin).
  assert (HlC : forall x, x ∈ inorder lm -> x ∉ nodes c /\ x ∉ inorder r /\ x ∉ nodes C)
    by (intros x Hx%Hdl; by split_notin).
  destruct (HCc q Hq) as [Hqc _].
  assert (Haq : a <> q) by ne. assert (Hmq : m <> q) by ne.
  assert (Hlr : forall x, root_of lm = Some x -> is_Some (h !! x))
    by (intros x Hx%root_in; by apply (owns_lookup _ _ _ _ Holm)).
  assert (Hrr : forall x, root_of r = Some x -> is_Some (h !! x))
    by (intros x Hx%root_in; by apply (owns_lookup _ _ _ _ Hor)).
  destruct (owns_ctx_reparent _ _ (Some m) _ _ y (N bm lm m E) (owns_ctx_relink _ _ _ _ (Some a) HoC HC) HC
    ltac:(done) Hy) as [HoC2 Hyin].
  assert (Hya : y <> a) by ne. assert (Hym : y <> m) by ne.
  assert (is_Some (h !! y)) as [ny Hhy].
  { destruct Hrep as [_ Ho _]. eapply owns_lookup; [exact Ho|].
    rewrite inorder_plug_perm. cbn [inorder]. rewrite inorder_plug_perm, !elem_of_app. auto. }
  unfold swap_apart, get. rewrite Hha, Hhm. cbn [of_option]. rewrite !ok_bind. cbn [parent].
  rewrite upd_Ok by node_ok. rewrite ok_bind.
  cbn [relink]. unfold get. heap_lookup. rewrite Hhq. cbn [of_option]. rewrite ok_bind.
  rewrite Hlq, bool_decide_true by done.
  rewrite upd_Ok by node_ok. rewrite !ok_bind. cbn [fst snd].
  rewrite upd_Ok by node_ok. rewrite ok_bind.
  rewrite (relink_Ok root h _ c _ a (Some m) Hrep); [|done|].
  2:{ intros x [[_ ?]|Hx]%in_above; [done|].
      assert (x <> q) by ne. by heap_lookup. }
  rewrite ok_bind. cbn [fst snd]. unfold swap_children, get.
  heap_lookup. rewrite Hha, Hhm. cbn [of_option fmap option_fmap option_map]. rewrite !ok_bind.
  rewrite !link_set_parent, !link_mk.
  rewrite upd_Ok by node_ok. rewrite ok_bind.
  rewrite upd_parent_Ok by (intros x Hx; pose proof (Hlr x Hx); node_ok). rewrite ok_bind.
  rewrite upd_Ok by node_ok. rewrite ok_bind.
  rewrite upd_parent_Ok by (intros x [= <-]; node_ok). rewrite ok_bind.
  heap_lookup. rewrite Hha, Hhm. cbn [of_option fmap option_fmap option_map]. rewrite !ok_bind.
  rewrite !link_set_link, !link_set_parent, !link_mk.
  rewrite !bool_decide_false by done.
  rewrite upd_Ok by node_ok. rewrite ok_bind. cbn [upd_parent]. rewrite ok_bind.
  rewrite upd_Ok by node_ok. rewrite ok_bind.
  rewrite upd_parent_Ok by (intros x Hx; pose proof (Hrr x Hx); node_ok). rewrite ok_bind.
  eexists _, _. split; [reflexivity|].
  match goal with |- rep _ ?hh _ /\ _ => set (h' := hh) end.
  assert (Hsame : forall x, x <> a -> x <> m -> x ∉ inorder lm -> x ∉ inorder r -> x ∉ nodes C ->
    h' !! x = relinked c h (Some m) !! x).
  { intros x ? ? ? ? ?. assert (x <> q) by ne. assert (x <> y) by ne. unfold h'. heap_lookup.
    apply relinked_same. by heap_lookup. }
  split.
  - eapply (rep_replace _ _ _ _ _ (N bm (plug C (N b lm a E)) m r)); [done|..].
    + cbn [owns]. rewrite owns_plug. cbn [root_of owns]. split_and!; [| | | |done|].
      * unfold h'. heap_lookup. rewrite Hhm. rewrite (root_plug C (N bm lm m E)) by done. by rewrite Hy.
      * eapply owns_ctx_same; [exact HoC2|]. intros x Hx. destruct (HCc x Hx).
        assert (x ∉ inorder lm) by (by intros (? & ? & ?)%HlC). unfold h'. heap_lookup.
        cbn [relinked C]. destruct (decide (x = y)) as [->|]; heap_lookup;
          (destruct (decide (x = q)) as [->|] || destruct (decide (y = q)) as [->|]); by heap_lookup.
      * cbn [above C]. unfold h'. heap_lookup. by rewrite Hha.
      * apply (owns_reparent_opt h _ (Some m)); [done..|]. intros x Hx. destruct (HlC x Hx) as (? & ? & ?).
        assert (x <> q) by ne. assert (x <> y) by ne. unfold h'.
        heap_lookup. rewrite !lookup_alter_opt. by heap_lookup.
      * apply (owns_reparent_opt h _ (Some a)); [done..|]. intros x Hx. pose proof (Hdr x Hx).
        assert (x ∉ inorder lm) by (by intros (? & ? & ?)%HlC).
        assert (x ∉ nodes C) by (by intros (? & ?)%HCc).
        assert (x <> q) by ne. assert (x <> y) by ne. unfold h'.
        heap_lookup. rewrite !lookup_alter_opt. by heap_lookup.
    + change (N bm (plug C (N b lm a E)) m r) with (node false bm (plug C (node false b lm a E)) m r).
      rewrite !inorder_node_perm, inorder_plug_perm, inorder_node_perm. cbn. by rewrite app_nil_r, <- app_assoc.
    + intros x Hx. change (N bm (plug C (N b lm a E)) m r) with (node false bm (plug C (node false b lm a E)) m r) in Hx.
      rewrite !inorder_node_perm, inorder_plug_perm, inorder_node_perm in Hx. cbn in Hx.
      rewrite app_nil_r, !elem_of_cons, !elem_of_app in Hx.
      naive_solver.
    + intros x Hx. cbn [root_of]. apply Hsame; [ne|ne|..].
      * by intros (? & ? & ?)%HlC.
      * by intros ?%Hdr.
      * by intros (? & ?)%HCc.
  - intros x. rewrite inorder_plug_perm. cbn [inorder]. rewrite inorder_plug_perm. cbn [inorder]. intros Hx. split_notin.
    rewrite Hsame; [by apply relinked_other|done..].
Qed.

Lemma swap_nodes_Ok root h c b cl bm lm m a r :
  rep root h (plug c (N b (plug cl (N bm lm m E)) a r)) -> Forall (fun f => f.1.1.1 = true) cl ->
  exists root' h', _BAVL_swap_nodes root h a m = Ok (root', h') /\
    rep root' h' (plug c (N b (plug cl (N bm lm a E)) m r)) /\
    untouched (plug c (N b (plug cl (N bm lm m E)) a r)) h h'.
Proof.
  intros Hrep Hcl.
  assert (Hswap : exists root1 h1,
    (get h a ≫= fun nd1 => get h m ≫= fun nd2 =>
     if bool_decide (parent nd2 = Some a) || bool_decide (parent nd1 = Some m) then
       if bool_decide (parent nd1 = Some m) then swap_connected root h m a else swap_connected root h a m
     else swap_apart root h a m) = Ok (root1, h1) /\
    rep root1 h1 (plug c (N bm (plug cl (N b lm a E)) m r)) /\
    untouched (plug c (N b (plug cl (N bm lm m E)) a r)) h h1).
  { pose proof (rep_perm _ _ _ _ Hrep) as Hp. cbn [inorder] in Hp. rewrite inorder_plug in Hp. cbn [inorder] in Hp.
    pose proof Hrep as [_ Ho _]. apply owns_plug in Ho as [_ Ho]. cbn [owns] in Ho.
    destruct Ho as (Ha & Hl & _). apply owns_plug in Hl as [_ Hm]. cbn [owns] in Hm. destruct Hm as [Hm _].
    unfold get. rewrite Ha, Hm. cbn [of_option]. rewrite !ok_bind. cbn [parent].
    assert (Hma : above None c <> Some m).
    { intros [[_ ?]|Hin]%in_above; [done|]. apply NoDup_app in Hp as (_ & Hp & _). apply (Hp m); set_solver. }
    rewrite (bool_decide_false (above None c = Some m)) by done. rewrite orb_false_r.
    destruct cl as [|[[[d bq] q] lq] cl].
    - cbn [above]. rewrite bool_decide_true by done. by apply swap_connected_Ok.
    - inversion_clear Hcl as [|? ? Hd _]. cbn in Hd. subst d. cbn [above] in *.
      rewrite bool_decide_false; [by apply swap_apart_Ok|]. intros [= ->].
      apply NoDup_app in Hp as (Hp & _). apply NoDup_app in Hp as (_ & Hp & _).
      apply (Hp a); cbn; set_solver. }
  destruct Hswap as (root1 & h1 & Hs & Hrep1 & Hu). unfold _BAVL_swap_nodes.
  apply bind_Ok in Hs as (nd1 & Hg1 & Hs). apply bind_Ok in Hs as (nd2 & Hg2 & Hs).
  rewrite Hg1, ok_bind, Hg2, ok_bind, Hs, ok_bind. cbn [fst snd].
  pose proof Hrep1 as [_ Ho _]. apply owns_plug in Ho as [_ Ho]. cbn [owns] in Ho.
  destruct Ho as (Hm & Hl & _). apply owns_plug in Hl as [_ Ha]. cbn [owns] in Ha. destruct Ha as [Ha _].
  unfold get. rewrite Ha, Hm. cbn [of_option]. rewrite !ok_bind. cbn [balance].
  assert (Hrep1' : rep root1 h1 (plug (cl ++ (false, bm, m, r) :: c) (node false b lm a E)))
    by (by rewrite plug_app).
  destruct (set_balance_Ok _ _ _ _ _ bm _ _ _ Hrep1') as [-> Hrep2]. rewrite ok_bind.
  rewrite plug_app in Hrep2. cbn [plug] in Hrep2.
  destruct (set_balance_Ok _ _ c false _ b _ _ _ Hrep2) as [-> Hrep3]. rewrite ok_bind.
  eexists _, _. split; [done|]. split; [done|]. intros x Hx.
  assert (Hxm : x <> a /\ x <> m).
  { rewrite inorder_plug_perm in Hx. cbn [inorder] in Hx. rewrite inorder_plug in Hx. cbn [inorder] in Hx. set_solver. }
  rewrite !lookup_alter_ne by naive_solver. by apply Hu.
Qed.

(** ** Removal *)
Lemma replace_subtree_Ok root h c d b t a :
  rep root h (plug c (node d b t a E)) ->
  exists root' h', _BAVL_replace_subtree root h a (root_of t) = Ok (root', h') /\
    rep root' h' (plug c t) /\ untouched (plug c (node d b t a E)) h h'.
Proof.
  intros Hrep. pose proof (rep_perm _ _ _ _ Hrep) as Hp. rewrite inorder_node_perm in Hp.
  cbn [inorder] in Hp. rewrite app_nil_r in Hp. cbn in Hp. rewrite NoDup_cons, NoDup_app in Hp.
  destruct Hp as (Ha & Ht & Hd & Hc). split_notin.
  pose proof Hrep as [_ Ho _]. apply owns_plug in Ho as [_ Ho]. rewrite owns_node in Ho.
  destruct Ho as ((n & Hn & Hpn & Hl & _) & Hot & _).
  unfold _BAVL_replace_subtree, get. rewrite Hn. cbn [of_option]. rewrite ok_bind, Hpn.
  rewrite (relink_Ok root h h c _ a (root_of t) Hrep) by (done || apply root_node). rewrite ok_bind.
  exists (reroot c root (root_of t)), (alter_opt (set_parent (above None c)) (root_of t) (relinked c h (root_of t))).
  split.
  { destruct (root_of t) as [x|] eqn:Ex; [|done]. cbn [fst snd].
    assert (is_Some (h !! x)) by (eapply owns_lookup; [exact Hot|by apply root_in]).
    by rewrite upd_Ok by node_ok. }
  split.
  - eapply rep_replace; [done| |done|done|].
    + apply (owns_reparent_opt h _ (Some a)); [done..|]. intros x Hx. pose proof (Hd x Hx).
      rewrite !lookup_alter_opt. by heap_lookup.
    + intros x Hx. assert (x ∉ inorder t) by (intros Hxt; by apply (Hd x)). by heap_lookup.
  - intros x. rewrite inorder_plug_perm, inorder_node_perm. cbn. rewrite app_nil_r. intros Hx. split_notin.
    by heap_lookup.
Qed.

Lemma remove_thin_Ok root h c d b t a :
  rep root h (plug c (node d b t a E)) -> avl (plug c (node d b t a E)) ->
  exists root' h' T, remove_thin root h a = Ok (root', h') /\ rep root' h' T /\ avl T /\
    inorder T = before c ++ inorder t ++ after c /\ untouched (plug c (node d b t a E)) h h'.
Proof.
  intros Hrep Havl. pose proof Hrep as [_ Ho _]. apply owns_plug in Ho as [_ Ho]. rewrite owns_node in Ho.
  destruct Ho as ((n & Hn & Hpn & Hl & Hl' & _) & _). cbn [root_of] in Hl'.
  unfold remove_thin, get. rewrite Hn. cbn [of_option]. rewrite ok_bind.
  assert (Hch : match link n false with Some l => Some l | None => link n true end = root_of t).
  { destruct d; cbn in Hl'; rewrite Hl', ?Hl; [done|]. by destruct (root_of t). }
  rewrite bind_ASSERT_true.
  2:{ destruct d; cbn in Hl'; rewrite Hl'; cbn; [done|]. by rewrite andb_false_r. }
  cbv zeta. rewrite Hch, Hpn. apply avl_plug in Havl as [Hav Hctx]. apply avl_node in Hav as (_ & _ & Hat & _).
  rewrite height_node in Hctx. cbn [height] in Hctx.
  destruct (replace_subtree_Ok _ _ _ _ _ _ _ Hrep) as (root1 & h1 & Hrs & Hrep1 & Hu).
  destruct c as [|[[[d' b'] p] s] c].
  - cbn [above]. rewrite Hrs. eexists _, _, t. split; [done|]. split; [done|]. split; [done|].
    split; [cbn; by rewrite app_nil_r|done].
  - cbn [above]. destruct (side_of _ _ _ _ _ _ _ _ a Hrep) as (np & Hnp & _ & Hside); [apply root_node|].
    rewrite Hnp. cbn [of_option]. rewrite ok_bind, Hside, Hrs, ok_bind. cbn [fst snd].
    destruct (rebalance_Ok c (fuel h1) _ _ _ _ _ _ _ (-1) Hrep1 Hat) as (root2 & h2 & T & Hreb & Hrep2 & HT & Hi & Hu2).
    { pose proof (height_nonneg t). by replace (height t - -1) with (1 + Z.max (height t) 0) by lia. }
    { lia. }
    { pose proof (inorder_size _ _ _ (rep_owns _ _ _ Hrep1) (rep_nodup _ _ _ Hrep1)).
      pose proof (length_ctx ((d', b', p, s) :: c) t). unfold fuel. cbn [length] in *. lia. }
    exists root2, h2, T. split; [done|]. split; [done|]. split; [done|]. rewrite Hi, inorder_plug. split; [done|].
    intros x Hx. rewrite Hu2, Hu; [done|done|]. intros Hx'. apply Hx.
    rewrite inorder_plug_perm, inorder_node_perm. rewrite inorder_plug_perm in Hx'. set_solver.
Qed.

Lemma remove_Ok root h t a :
  rep root h t -> avl t -> a ∈ inorder t ->
  exists root' h' t', BAVL_Remove root h a = Ok (root', h') /\ rep root' h' t' /\ avl t' /\
    inorder t' = LinkedList1.remove_node a (inorder t) /\ untouched t h h'.
Proof.
  intros Hrep Havl Ha. destruct (plug_in t a Ha) as (c & b & l & r & ->). clear Ha.
  assert (Hrem : LinkedList1.remove_node a (inorder (plug c (N b l a r))) =
    before c ++ (inorder l ++ inorder r) ++ after c).
  { pose proof (rep_nodup _ _ _ Hrep) as Hn. rewrite inorder_plug in Hn |- *. cbn [inorder] in *.
    rewrite <- app_assoc in Hn |- *. rewrite app_assoc in Hn |- *. cbn in Hn |- *.
    rewrite LinkedList1.remove_node_split; [by rewrite <- !app_assoc|].
    apply NoDup_app in Hn as (_ & Hn & _). intros Hin. apply (Hn a Hin). set_solver. }
  pose proof Hrep as [_ Ho _]. apply owns_plug in Ho as [_ Ho]. cbn [owns] in Ho. destruct Ho as (Hn & Hol & _).
  unfold BAVL_Remove, get. rewrite Hn. cbn [of_option]. rewrite ok_bind, !link_mk.
  destruct (root_of l) as [y|] eqn:El; cycle 1.
  { destruct l; [|done]. rewrite ok_bind. cbn [fst snd].
    destruct (remove_thin_Ok root h c true b r a Hrep Havl) as (root1 & h1 & T & ? & ? & ? & Hi & ?).
    exists root1, h1, T. rewrite Hi, Hrem. done. }
  destruct (root_of r) as [z|] eqn:Er; cycle 1.
  { destruct r; [|done]. rewrite ok_bind. cbn [fst snd].
    destruct (remove_thin_Ok root h c false b l a Hrep Havl) as (root1 & h1 & T & ? & ? & ? & Hi & ?).
    exists root1, h1, T. rewrite Hi, Hrem. cbn. by rewrite app_nil_r. }
  destruct (descend_Ok h true l (Some a) (fuel h) y Hol El) as (cl & bm & lm & m & Hd & -> & Hcl).
  { pose proof (inorder_size _ _ _ (rep_owns _ _ _ Hrep) (rep_nodup _ _ _ Hrep)) as Hsz.
    rewrite inorder_plug in Hsz. cbn [inorder] in Hsz. rewrite !length_app in Hsz. unfold fuel. lia. }
  unfold _BAVL_subtree_max. rewrite Hd, ok_bind. cbn [node] in *.
  destruct (swap_nodes_Ok _ _ _ _ _ _ _ _ _ _ Hrep Hcl) as (root1 & h1 & -> & Hrep1 & Hu1).
  rewrite ok_bind. cbn [fst snd].
  assert (Hrep1' : rep root1 h1 (plug (cl ++ (false, b, m, r) :: c) (node false bm lm a E))) by (by rewrite plug_app).
  assert (Havl1 : avl (plug (cl ++ (false, b, m, r) :: c) (node false bm lm a E))).
  { rewrite plug_app. cbn [plug node]. rewrite avl_plug in Havl |- *. cbn [avl height] in *.
    rewrite (height_plug cl (N bm lm a E) (N bm lm m E)) by done. rewrite avl_plug in Havl |- *. done. }
  destruct (remove_thin_Ok _ _ _ _ _ _ _ Hrep1' Havl1) as (root2 & h2 & T & Hr2 & Hrep2 & HT & Hi & Hu2).
  exists root2, h2, T. split; [done|]. split; [done|]. split; [done|]. split.
  - rewrite Hi, Hrem, inorder_plug, (after_right _ Hcl). cbn [inorder].
    rewrite before_app, after_app, (after_right _ Hcl). cbn [before after app]. rewrite app_nil_r. cbn. rewrite <- !app_assoc. done.
  - intros x Hx. rewrite Hu2, Hu1; [done|done|]. intros Hx'. apply Hx.
    rewrite plug_app in Hx'. cbn [plug node] in Hx'. rewrite inorder_plug in Hx' |- *. cbn [inorder] in *.
    rewrite inorder_plug in Hx' |- *. cbn [inorder] in *. set_solver.
Qed.

(** ** Walking up *)
Lemma link_side root h d b a s c t x e :
  rep root h (plug ((d, b, a, s) :: c) t) -> root_of t = Some x ->
  exists n, h !! a = Some n /\ bool_decide (link n e = Some x) = eqb e d.
Proof.
  intros Hrep Hx. pose proof (rep_perm _ _ _ _ Hrep) as Hp. destruct Hrep as [_ Ho _].
  apply owns_plug in Ho as [Hc _]. cbn [owns_ctx] in Hc.
  destruct Hc as ((n & Ha & _ & Hd & Hs & Hb) & _). exists n. split; [done|].
  destruct (decide (e = d)) as [->|Hed].
  - rewrite Hd, eqb_reflx. by apply bool_decide_true.
  - replace e with (negb d) by (by destruct e, d). rewrite Hs.
    replace (eqb (negb d) d) with false by (by destruct d).
    apply bool_decide_false. intros Hn. rewrite nodes_cons in Hp.
    apply NoDup_app in Hp as (_ & Hp & _). apply root_in in Hn, Hx. set_solver.
Qed.

Lemma ascend_Ok root h c : forall fl t n d,
  rep root h (plug c t) -> root_of t = Some n -> (length c < fl)%nat ->
  ascend fl h n d = Ok (if d then head (after c) else last (before c)).
Proof.
  induction c as [|[[[d' b] a] s] c IH]; intros [|fl] t n d Hrep Hn Hfl; cbn [length] in Hfl; try lia.
  all: cbn [ascend]; unfold get.
  all: destruct (owns_root _ _ _ _ _ (rep_owns _ _ _ Hrep) Hn) as (nd & Hnd & Hp).
  all: rewrite Hnd; cbn [of_option]; rewrite ok_bind, Hp; cbn [above].
  - by destruct d.
  - destruct (link_side _ _ _ _ _ _ _ _ _ d Hrep Hn) as (np & Hnp & Hside).
    rewrite Hnp; cbn [of_option]; rewrite ok_bind, Hside.
    pose proof (IH fl (node d' b t a s) a d Hrep (root_node _ _ _ _ _) ltac:(lia)) as IH'.
    destruct d, d'; cbn [eqb before after]; rewrite ?app_nil_r; try done.
    by rewrite app_assoc, last_snoc.
Qed.

Lemma neighbour_Ok root h c b l a r d :
  rep root h (plug c (N b l a r)) ->
  neighbour h a d = Ok (if d then head (inorder r ++ after c) else last (before c ++ inorder l)).
Proof.
  intros Hrep. pose proof Hrep as [_ Ho _]. apply owns_plug in Ho as [_ Ho]. cbn [owns] in Ho.
  destruct Ho as (Hn & Hol & Hor). unfold neighbour, get. rewrite Hn. cbn [of_option]. rewrite ok_bind, link_mk.
  pose proof (inorder_size _ _ _ (rep_owns _ _ _ Hrep) (rep_nodup _ _ _ Hrep)) as Hsz.
  pose proof (length_ctx c (N b l a r)) as Hlen. cbn [inorder] in Hlen. rewrite length_app in Hlen. cbn [length] in Hlen.
  destruct d.
  - destruct (root_of r) as [y|] eqn:Ey.
    + destruct (descend_Ok h false r _ (fuel h) y Hor Ey) as (c' & b' & s & x & Hd & -> & Hc'); [unfold fuel; lia|].
      cbn [negb]. rewrite Hd, ok_bind, inorder_plug, (before_left _ Hc'). done.
    + destruct r; [|done]. cbn [inorder app]. apply (ascend_Ok root h c _ _ a true Hrep eq_refl). unfold fuel. lia.
  - destruct (root_of l) as [y|] eqn:Ey.
    + destruct (descend_Ok h true l _ (fuel h) y Hol Ey) as (c' & b' & s & x & Hd & -> & Hc'); [unfold fuel; lia|].
      cbn [negb]. rewrite Hd, ok_bind, inorder_plug, (after_right _ Hc'). cbn [node inorder].
      by rewrite app_nil_r, !app_assoc, last_snoc.
    + destruct l; [|done]. cbn [inorder]. rewrite app_nil_r. apply (ascend_Ok root h c _ _ a false Hrep eq_refl). unfold fuel. lia.
Qed.

Lemma pivot_unique {A} (a : A) l1 l2 k1 k2 :
  NoDup (l1 ++ a :: l2) -> l1 ++ a :: l2 = k1 ++ a :: k2 -> l1 = k1 /\ l2 = k2.
Proof.
  revert k1; induction l1 as [|x l1 IH]; intros [|y k1] Hn Heq; cbn in *; simplify_eq; [done|..].
  - apply NoDup_cons in Hn as [Hn _]. set_solver.
  - apply NoDup_cons in Hn as [Hn _]. set_solver.
  - apply NoDup_cons in Hn as [_ Hn]. destruct (IH _ Hn ltac:(done)) as [-> ->]. done.
Qed.

(** ** The tree implements the sorted list *)
Section Extensional.
Context {K : Type} (cmp : K -> K -> Z) (value : loc -> K).

(** The nodes of the tree and how their values compare are all that matters. *)
Lemma holds_ext (value' : loc -> K) root h h' l :
  holds cmp value root h l ->
  (forall a b, a ∈ l -> b ∈ l -> cmp (value a) (value b) = cmp (value' a) (value' b)) ->
  (forall a, a ∈ l -> h' !! a = h !! a) -> holds cmp value' root h' l.
Proof.
  intros (t & [Hr Ho Hn] & Ht & <- & Hs) Hv Hh. exists t. split_and!; try done.
  - constructor; [done|by eapply owns_same|done].
  - clear -Hs Hv. induction Hs as [|x l _ IH Hx]; constructor.
    + apply IH. intros a b Ha Hb. apply Hv; by right.
    + rewrite Forall_forall in *. intros y Hy. unfold node_lt in *.
      rewrite <- !Hv; [by apply Hx|by left|by right].
Qed.

End Extensional.

Section Refinement.
Context {K : Type} (cmp : K -> K -> Z) `{!Comparator cmp} (value : loc -> K).
Abbreviation holds := (holds cmp value).

Inductive op := OpInsert (a : loc) | OpRemove (a : loc).

Definition op_node (o : op) : loc := match o with OpInsert a | OpRemove a => a end.

(** [None]: the operation is not allowed. The boolean is the return value of
    the insertion. *)
Definition abs_step (l : list loc) (o : op) : option (list loc * bool) :=
  match o with
  | OpInsert a =>
      if decide (a ∈ l) then None
      else if find_equal cmp value (value a) l then Some (l, false)
      else Some (insert_sorted cmp value a l, true)
  | OpRemove a => if decide (a ∈ l) then Some (LinkedList1.remove_node a l, true) else None
  end.

Definition step (root : BAVL) (h : heap) (o : op) : outcome (BAVL * heap * bool) :=
  match o with
  | OpInsert a => BAVL_Insert cmp value root h a
  | OpRemove a => BAVL_Remove root h a ≫= fun (r : BAVL * heap) => Ok (r, true)
  end.

Lemma sorted_remove_node a l : StronglySorted (node_lt cmp value) l -> a ∈ l ->
  StronglySorted (node_lt cmp value) (LinkedList1.remove_node a l).
Proof.
  induction 1 as [|x l Hs IH Hx]; intros Ha; [by apply not_elem_of_nil in Ha|]. cbn.
  case_decide as Hxa; [done|]. constructor; [apply IH; set_solver|].
  apply Forall_forall. intros y Hy. rewrite Forall_forall in Hx. apply Hx.
  clear -Hy. induction l as [|z l IH]; cbn in Hy; [done|]. case_decide; set_solver.
Qed.

Lemma remove_holds root h l a :
  holds root h l -> a ∈ l ->
  exists root' h', BAVL_Remove root h a = Ok (root', h') /\
    holds root' h' (LinkedList1.remove_node a l) /\ forall x, x ∉ l -> h' !! x = h !! x.
Proof.
  intros (t & Hrep & Ht & <- & Hs) Hin.
  destruct (remove_Ok root h t a Hrep Ht Hin) as (root' & h' & t' & -> & Hrep' & Ht' & Hi & Hu).
  exists root', h'. split; [done|]. split; [|done].
  exists t'. split_and!; [done..|]. by apply sorted_remove_node.
Qed.

Lemma lookup_exact_holds root h l v :
  holds root h l -> BAVL_LookupExact cmp value root h v = Ok (find_equal cmp value v l).
Proof.
  intros Hh. pose proof Hh as (t & [Hr _ _] & _ & Hl & _). unfold BAVL_LookupExact. destruct root as [r|].
  - destruct (search_holds cmp value _ _ _ v r Hh eq_refl) as (x & -> & -> & _). done.
  - destruct t; [|done]. by subst l.
Qed.

(** C38: The AVL tree implements a sorted list of nodes. For every comparator
    that is a total order: on a heap that holds a balanced search tree of the
    nodes [l], inserting a node that is not in the tree and removing a node of
    the tree succeed without an assertion failure or a null dereference within
    the recursion bounds, return whether the node was inserted (it is not
    exactly if an equal value is in the tree), and end in a heap that holds a
    balanced search tree of the new list; no other node is touched. *)
Theorem BAVL_refines_sorted_list root h l o l' ok :
  holds root h l -> is_Some (h !! op_node o) -> abs_step l o = Some (l', ok) ->
  exists root' h', step root h o = Ok (root', h', ok) /\ holds root' h' l' /\
    forall x, x ∉ op_node o :: l -> h' !! x = h !! x.
Proof.
  intros Hh Hn Ha. destruct o as [a|a]; cbn in *; case_decide as Hin; simplify_eq.
  - destruct (insert_holds cmp value root h l a Hh Hn Hin) as (root' & h' & Hi & Hh' & Hu).
    destruct (find_equal cmp value (value a) l); simplify_eq; eauto.
  - destruct (remove_holds root h l a Hh Hin) as (root' & h' & -> & Hh' & Hu).
    exists root', h'. split; [done|]. split; [done|]. intros x Hx. apply Hu. set_solver.
Qed.

(** The first node is the smallest. *)
Lemma get_first_holds root h l : holds root h l -> BAVL_GetFirst root h = Ok (head l).
Proof.
  intros (t & Hrep & Ht & Hl & Hs). pose proof Hrep as [Hr Ho Hn]. pose proof (inorder_size _ _ _ Ho Hn) as Hsz.
  unfold BAVL_GetFirst. destruct root as [r|]; [|destruct t; [by subst l|done]].
  destruct (descend_Ok h false t None (fuel h) r Ho (eq_sym Hr)) as (c & b & s & x & -> & -> & Hc); [unfold fuel; lia|].
  subst l. by rewrite inorder_plug, (before_left _ Hc).
Qed.

(** Queries of the tree answer what the sorted list says: exact lookup finds
    the node with an equal value if there is one, the first and last node, and
    the neighbours of every node; a lookup visits at most [2 log2 (n + 1) + 1]
    of [n] nodes. *)
Theorem BAVL_queries root h l v :
  holds root h l ->
  BAVL_LookupExact cmp value root h v = Ok (find_equal cmp value v l) /\
  BAVL_GetFirst root h = Ok (head l) /\ BAVL_GetLast root h = Ok (last l) /\
  BAVL_IsEmpty root = bool_decide (l = []) /\
  (forall l1 a l2, l = l1 ++ a :: l2 ->
     BAVL_GetNext h a = Ok (head l2) /\ BAVL_GetPrev h a = Ok (last l1)) /\
  (forall r, root = Some r ->
     is_Ok (search cmp value (Z.to_nat (2 * Z.log2 (Zlen l + 1) + 1)) h v r)).
Proof.
  intros Hh. pose proof Hh as (t & Hrep & Ht & Hl & Hs). pose proof Hrep as [Hr Ho Hn].
  pose proof (inorder_size _ _ _ Ho Hn) as Hsz. split_and!.
  - by apply lookup_exact_holds.
  - by apply get_first_holds.
  - unfold BAVL_GetLast. destruct root as [r|]; [|destruct t; [by subst l|done]].
    destruct (descend_Ok h true t None (fuel h) r Ho (eq_sym Hr)) as (c & b & s & x & -> & -> & Hc); [unfold fuel; lia|].
    subst l. rewrite inorder_plug, (after_right _ Hc). cbn [node inorder].
    by rewrite app_nil_r, !app_assoc, last_snoc.
  - unfold BAVL_IsEmpty. subst. apply bool_decide_ext. destruct t; cbn; [done|]. split; [done|].
    by intros [_ ?]%app_eq_nil.
  - intros l1 a l2 ->. destruct (plug_in t a) as (c & b & lt & rt & ->); [rewrite Hl; set_solver|].
    rewrite inorder_plug in Hl. cbn [inorder] in Hl.
    assert ((before c ++ inorder lt) ++ a :: (inorder rt ++ after c) = l1 ++ a :: l2) as Hl'.
    { rewrite <- Hl. by rewrite <- !app_assoc. }
    assert (NoDup ((before c ++ inorder lt) ++ a :: (inorder rt ++ after c))) as Hn'.
    { rewrite inorder_plug in Hn. cbn [inorder] in Hn. by rewrite <- !app_assoc in Hn |- *. }
    destruct (pivot_unique _ _ _ _ _ Hn' Hl') as [<- <-].
    unfold BAVL_GetNext, BAVL_GetPrev. by rewrite !(neighbour_Ok _ _ _ _ _ _ _ _ Hrep).
  - intros r ->. subst l.
    destruct (search_Ok cmp value h v t None [] (Z.to_nat (2 * Z.log2 (Zlen (inorder t) + 1) + 1)) r) as (x & Hx & _);
      try done; [by unfold fits; cbn; set_solver| |by eexists].
    pose proof (avl_height t Ht) as Hb. pose proof (height_nonneg t).
    apply Z.log2_le_mono in Hb. rewrite Z.log2_pow2 in Hb by (apply Z.div_pos; lia).
    pose proof (Z.div_mod (height t) 2 ltac:(lia)). pose proof (Z.mod_pos_bound (height t) 2 ltac:(lia)).
    pose proof (Z.log2_nonneg (Zlen (inorder t) + 1)). lia.
Qed.

End Refinement.

(** A tree of the nodes 2, 5 and 7, sorted by their addresses, with 3 and 8
    allocated. *)
Definition demo_heap : heap :=
  <[5%positive := mkNode None (Some 2%positive) (Some 7%positive) 0]>
  (<[2%positive := mkNode (Some 5%positive) None None 0]>
  (<[7%positive := mkNode (Some 5%positive) None None 0]>
  (<[3%positive := mkNode None None None 0]> ∅))).

Lemma demo_holds : holds B_COMPARE Zpos (Some 5%positive) demo_heap [2; 5; 7]%positive.
Proof.
  exists (N 0 (N 0 E 2%positive E) 5%positive (N 0 E 7%positive E)). split_and!.
  - constructor; [done|cbn; split_and!; done|]. apply (bool_decide_unpack _). vm_compute. exact I.
  - cbn. lia.
  - done.
  - repeat constructor.
Qed.

Lemma BAVL_refines_sorted_list_witness :
  (exists root' h',
    step B_COMPARE Zpos (Some 5%positive) demo_heap (OpInsert 3%positive) = Ok (root', h', true) /\
    holds B_COMPARE Zpos root' h' [2; 3; 5; 7]%positive) /\
  (exists root' h',
    step B_COMPARE Zpos (Some 5%positive) demo_heap (OpRemove 5%positive) = Ok (root', h', true) /\
    holds B_COMPARE Zpos root' h' [2; 7]%positive).
Proof.
  split.
  - destruct (BAVL_refines_sorted_list B_COMPARE Zpos _ _ _ (OpInsert 3%positive) [2; 3; 5; 7]%positive true
      demo_holds) as (root' & h' & H & Hh & _); [by eexists|reflexivity|by exists root', h'].
  - destruct (BAVL_refines_sorted_list B_COMPARE Zpos _ _ _ (OpRemove 5%positive) [2; 7]%positive true
      demo_holds) as (root' & h' & H & Hh & _); [by eexists|reflexivity|by exists root', h'].
Defined.

Lemma BAVL_queries_witness :
  BAVL_LookupExact B_COMPARE Zpos (Some 5%positive) demo_heap 7 = Ok (Some 7%positive) /\
  BAVL_GetNext demo_heap 2%positive = Ok (Some 5%positive).
Proof.
  destruct (BAVL_queries B_COMPARE Zpos _ _ _ 7 demo_holds) as (H & _ & _ & _ & Hn & _).
  split; [exact H|]. exact (proj1 (Hn [] 2%positive [5; 7]%positive eq_refl)).
Defined.

End BAVL.
