(* ===== verification/Trees.v ===== *)
(** The interface through which the UDP clients use search trees
    (structure/BAVL.h): operations on a tree of nodes whose values are fields
    of the structures the nodes are embedded in, and the laws the clients rely
    on. The AVL tree of BAVL.h implements it. *)
From Stdlib Require Import ZArith Lia.
From stdpp Require Import base tactics numbers option gmap list sorting.
From S2P Require Import Prelude LinkedList Bavl.

(** A tree [t] of type [T] holds a set of nodes, given by a list up to order;
    [v] is the value of every node at the time of the call. *)
Class Tree {K : Type} (cmp : K -> K -> Z) (T : Type) := {
  tree_init : T;
  tree_insert : (loc -> K) -> T -> loc -> outcome (T * bool);
  tree_remove : T -> loc -> outcome T;
  tree_lookup : (loc -> K) -> T -> K -> outcome (option loc);
  tree_holds : (loc -> K) -> T -> list loc -> Prop;
  tree_holds_init : forall v, tree_holds v tree_init [];
  tree_holds_perm : forall v t l l', l ≡ₚ l' -> tree_holds v t l -> tree_holds v t l';
  tree_holds_ext : forall v v' t l, (forall a b, a ∈ l -> b ∈ l -> cmp (v a) (v b) = cmp (v' a) (v' b)) ->
    tree_holds v t l -> tree_holds v' t l;
  tree_insert_ok : forall v t l a, tree_holds v t l -> a ∉ l -> (forall b, b ∈ l -> cmp (v a) (v b) <> 0) ->
    exists t', tree_insert v t a = Ok (t', true) /\ tree_holds v t' (a :: l);
  tree_remove_ok : forall v t l a, tree_holds v t l -> a ∈ l ->
    exists t', tree_remove t a = Ok t' /\ tree_holds v t' (LinkedList1.remove_node a l);
  tree_lookup_ok : forall v t l k, tree_holds v t l ->
    exists r, tree_lookup v t k = Ok r /\
      match r with Some a => a ∈ l /\ cmp k (v a) = 0 | None => forall b, b ∈ l -> cmp k (v b) <> 0 end
}.

(** A tree that also gives its first node, the one with the least value. *)
Class OrderedTree {K : Type} (cmp : K -> K -> Z) (T : Type) `{!Tree cmp T} := {
  tree_first : T -> outcome (option loc);
  tree_first_ok : forall v t l, tree_holds v t l ->
    exists r, tree_first t = Ok r /\
      match r with Some a => a ∈ l /\ forall b, b ∈ l -> b <> a -> cmp (v a) (v b) = -1 | None => l = [] end
}.

(** Rewriting with permutations in [tree_holds]. *)
#[global] Instance tree_holds_proper {K} (cmp : K -> K -> Z) T `{!Tree cmp T} v t :
  Proper ((≡ₚ) ==> iff) (tree_holds (cmp := cmp) v t).
Proof. intros l l' Hl. split; by apply tree_holds_perm. Qed.

Lemma remove_node_perm a l : a ∈ l -> l ≡ₚ a :: LinkedList1.remove_node a l.
Proof.
  induction l as [|b l IH]; intros Ha; [by apply elem_of_nil in Ha|]. cbn [LinkedList1.remove_node].
  case_decide as Hb; [by subst|]. apply elem_of_cons in Ha as [->|Ha]; [done|].
  rewrite (IH Ha) at 1. apply perm_swap.
Qed.

Lemma remove_node_proper a l l' : NoDup l -> a ∈ l -> l ≡ₚ l' ->
  LinkedList1.remove_node a l ≡ₚ LinkedList1.remove_node a l'.
Proof.
  intros Hnd Ha Hl. apply (Permutation_cons_inv (a := a)).
  rewrite <- !remove_node_perm; [done|by rewrite <- Hl|done].
Qed.

(** ** The AVL tree *)
Section Avl.
Context {K : Type} (cmp : K -> K -> Z) `{!Comparator cmp}.

(** The root and the memory of the embedded nodes; a node has some contents
    before it is inserted. *)
Definition avl_tree : Type := BAVL.BAVL * BAVL.heap.
Definition node_memory : BAVL.BAVLNode := BAVL.mkNode None None None 0.

Definition avl_insert (v : loc -> K) (t : avl_tree) (a : loc) : outcome (avl_tree * bool) :=
  BAVL.BAVL_Insert cmp v (fst t) (<[a := node_memory]> (snd t)) a ≫= fun '((r, h, b) : BAVL.BAVL * BAVL.heap * bool) =>
  Ok ((r, h), b).
Definition avl_remove (t : avl_tree) (a : loc) : outcome avl_tree := BAVL.BAVL_Remove (fst t) (snd t) a.
Definition avl_lookup (v : loc -> K) (t : avl_tree) (k : K) : outcome (option loc) :=
  BAVL.BAVL_LookupExact cmp v (fst t) (snd t) k.
Definition avl_holds (v : loc -> K) (t : avl_tree) (l : list loc) : Prop :=
  exists l0, l0 ≡ₚ l /\ BAVL.holds cmp v (fst t) (snd t) l0.

Lemma find_equal_spec (v : loc -> K) k l :
  match BAVL.find_equal cmp v k l with
  | Some a => a ∈ l /\ cmp k (v a) = 0
  | None => forall b, b ∈ l -> cmp k (v b) <> 0
  end.
Proof.
  unfold BAVL.find_equal. destruct (filter _ l) as [|a l'] eqn:E; cbn.
  - intros b Hb Hk. assert (b ∈ filter (fun x => cmp k (v x) = 0) l) as Hf by (by apply list_elem_of_filter).
    rewrite E in Hf. by apply elem_of_nil in Hf.
  - assert (a ∈ filter (fun x => cmp k (v x) = 0) l) as Hf by (rewrite E; left).
    by apply list_elem_of_filter in Hf as [? ?].
Qed.

Lemma insert_sorted_perm (v : loc -> K) a l : BAVL.insert_sorted cmp v a l ≡ₚ a :: l.
Proof.
  induction l as [|b l IH]; cbn [BAVL.insert_sorted]; [done|]. destruct (_ =? -1); [done|].
  rewrite IH. apply perm_swap.
Qed.

#[global, program] Instance avl_Tree : Tree cmp avl_tree := {
  tree_init := (None, ∅);
  tree_insert := avl_insert;
  tree_remove := avl_remove;
  tree_lookup := avl_lookup;
  tree_holds := avl_holds
}.
Next Obligation.
  intros v. exists []. split; [done|]. exists BAVL.E. split_and!; try done; [|constructor].
  constructor; [done|done|]. apply NoDup_nil_2.
Qed.
Next Obligation. intros v t l l' Hl (l0 & Hl0 & Hh). exists l0. split; [by rewrite Hl0|done]. Qed.
Next Obligation.
  intros v v' t l Hv (l0 & Hl0 & Hh). exists l0. split; [done|]. eapply BAVL.holds_ext; [done| |done].
  intros a b Ha Hb. apply Hv; by rewrite <- Hl0.
Qed.
Next Obligation.
  intros v [r h] l a (l0 & Hl0 & Hh) Ha Hne. unfold avl_insert. cbn [fst snd] in *.
  assert (BAVL.holds cmp v r (<[a := node_memory]> h) l0) as Hh'.
  { eapply BAVL.holds_ext; [done|done|]. intros b Hb. apply lookup_insert_ne. intros ->. rewrite Hl0 in Hb. done. }
  destruct (BAVL.insert_holds cmp v r _ l0 a Hh') as (r' & h' & -> & Hi & _);
    [by rewrite lookup_insert_eq|by rewrite Hl0|].
  pose proof (find_equal_spec v (v a) l0) as Hf. destruct (BAVL.find_equal cmp v (v a) l0) as [b|].
  { destruct Hf as [Hb Hc]. rewrite Hl0 in Hb. by destruct (Hne b Hb). }
  rewrite bool_decide_eq_true_2 by done. cbn. eexists. split; [done|].
  eexists. split; [|done]. by rewrite insert_sorted_perm, Hl0.
Qed.
Next Obligation.
  intros v [r h] l a (l0 & Hl0 & Hh) Ha. unfold avl_remove. cbn [fst snd] in *.
  assert (a ∈ l0) as Ha0 by (by rewrite Hl0).
  destruct (BAVL.remove_holds cmp v r h l0 a Hh Ha0) as (r' & h' & -> & Hh' & _).
  eexists. split; [done|]. eexists. split; [|done]. apply remove_node_proper; [|done..].
  by destruct Hh as (t & [_ _ Hn] & _ & <- & _).
Qed.
Next Obligation.
  intros v [r h] l k (l0 & Hl0 & Hh). unfold avl_lookup. cbn [fst snd] in *.
  rewrite (BAVL.lookup_exact_holds cmp v r h l0 k Hh). eexists. split; [done|].
  pose proof (find_equal_spec v k l0) as Hf. destruct (BAVL.find_equal cmp v k l0); setoid_rewrite <- Hl0; done.
Qed.

#[global, program] Instance avl_OrderedTree : OrderedTree cmp avl_tree := {
  tree_first := fun t => BAVL.BAVL_GetFirst (fst t) (snd t)
}.
Next Obligation.
  intros v [r h] l (l0 & Hl0 & Hh). cbn [fst snd] in *. rewrite (BAVL.get_first_holds cmp v r h l0 Hh).
  eexists. split; [done|]. destruct Hh as (t & _ & _ & _ & Hs). destruct l0 as [|a l0]; cbn [head].
  - symmetry in Hl0. by apply Permutation_nil_r in Hl0.
  - split; [rewrite <- Hl0; by left|]. intros b Hb Hne. rewrite <- Hl0 in Hb.
    apply elem_of_cons in Hb as [->|Hb]; [done|]. by destruct (BAVL.sorted_split cmp v [] a l0 Hs) as [_ Hlt]; apply Hlt.
Qed.
End Avl.
