(* ===== verification/Reactor.v ===== *)
(** The event loop of badvpn (system/BReactor_badvpn.c with BADVPN_USE_EPOLL,
    system/BTime.h, misc/overflow.h): jobs, timers, limits and file
    descriptors, the waiting for events and the dispatching of handlers. The
    job group is the stack it refines, the linked lists are lists; the tree of
    running timers is any that keeps the laws of [OrderedTree]. What a handler
    does is a sequence of calls to the functions of the reactor; what the clock
    and epoll give is in the rounds of a run. *)
From Stdlib Require Import ZArith Lia.
From stdpp Require Import base tactics numbers option gmap list sorting.
From S2P Require Import Prelude LinkedList Bavl Trees.

Module BTime.

Definition INT64_MIN : Z := - 2 ^ 63.
Definition INT64_MAX : Z := 2 ^ 63 - 1.
Definition is_btime (t : Z) : Prop := INT64_MIN <= t <= INT64_MAX.

(** DEFINE_SIGNED_OVERFLOW *)
Definition add_int64_overflows (a b : Z) : Z :=
  if xorb (a <? 0) (b <? 0) then 0
  else if a <? 0 then - Z.b2z (a <? INT64_MIN - b)
  else Z.b2z (INT64_MAX - b <? a).

Definition btime_add (t1 t2 : Z) : Z :=
  let overflows := add_int64_overflows t1 t2 in
  if negb (overflows =? 0) then
    if 0 <? overflows then INT64_MAX else INT64_MIN
  else t1 + t2.

(** Addition saturates. *)
Lemma btime_add_saturates t1 t2 : is_btime t1 -> is_btime t2 ->
  btime_add t1 t2 = Z.max INT64_MIN (Z.min INT64_MAX (t1 + t2)).
Proof.
  unfold is_btime, btime_add, add_int64_overflows. pose proof (eq_refl : INT64_MIN = - 2 ^ 63).
  pose proof (eq_refl : INT64_MAX = 2 ^ 63 - 1). intros H1 H2.
  destruct (t1 <? 0) eqn:E1, (t2 <? 0) eqn:E2; cbn [xorb].
  - destruct (t1 <? INT64_MIN - t2) eqn:E; cbv [negb Z.eqb Z.ltb Z.compare Z.opp Z.b2z]; zify_bool; lia.
  - cbv [negb Z.eqb]. zify_bool. lia.
  - cbv [negb Z.eqb]. zify_bool. lia.
  - destruct (INT64_MAX - t2 <? t1) eqn:E; cbv [negb Z.eqb Z.ltb Z.compare Z.opp Z.b2z]; zify_bool; lia.
Qed.

End BTime.

Module BReactor.
Import BTime.

(** ** Objects *)
Inductive timer_state := TIMER_STATE_INACTIVE | TIMER_STATE_RUNNING | TIMER_STATE_EXPIRED.
#[global] Instance timer_state_eq_dec : EqDecision timer_state.
Proof. solve_decision. Defined.

(** [BSmallTimer], without its links. *)
Record BSmallTimer := mkTimer { absTime : Z; tstate : timer_state; is_small : bool }.

(** [BFileDescriptor]; [epoll_returned_ptr] points to the entry of the results
    with the given index. [in_epoll] is kept by the kernel: whether epoll has the
    descriptor, with a pointer to this object. *)
Record BFileDescriptor := mkFd { active : bool; waitEvents : Z; epoll_returned_ptr : option nat; in_epoll : bool }.

Record BReactorLimit := mkLimit { limit : Z; count : Z }.

Definition BREACTOR_READ : Z := 1.
Definition BREACTOR_WRITE : Z := 2.
Definition BREACTOR_ERROR : Z := 4.
Definition BREACTOR_HUP : Z := 8.
Definition BSYSTEM_MAX_RESULTS : Z := 64.
Definition EPOLLIN : Z := 0x001.
Definition EPOLLOUT : Z := 0x004.
Definition EPOLLERR : Z := 0x008.
Definition EPOLLHUP : Z := 0x010.

(** [struct epoll_event] *)
Record epoll_event := mkEvent { ptr : option loc; events : Z }.

(** The order of the running timers: by time, then by address. *)
Definition compare_timers (t1 t2 : Z * loc) : Z :=
  let cmp := B_COMPARE (fst t1) (fst t2) in
  if negb (cmp =? 0) then cmp else B_COMPARE (Z.pos (snd t1)) (Z.pos (snd t2)).

Lemma compare_timers_spec x y : compare_timers x y =
  match fst x ?= fst y with
  | Lt => -1 | Gt => 1
  | Eq => match Z.pos (snd x) ?= Z.pos (snd y) with Lt => -1 | Eq => 0 | Gt => 1 end
  end.
Proof. unfold compare_timers. rewrite !B_COMPARE_spec. by destruct (fst x ?= fst y). Qed.

Ltac by_compare :=
  repeat match goal with |- context [?a ?= ?b] => destruct (Z.compare_spec a b) end; lia.

#[global] Instance compare_timers_comparator : Comparator compare_timers.
Proof.
  constructor.
  - intros x y. rewrite !compare_timers_spec. by_compare.
  - intros x y. rewrite !compare_timers_spec. by_compare.
  - intros x y z. rewrite !compare_timers_spec. by_compare.
  - intros x y z. rewrite !compare_timers_spec. by_compare.
Qed.

(** Different timers never compare equal. *)
Lemma compare_timers_ne x y : snd x <> snd y -> compare_timers x y <> 0.
Proof. intros Hne. rewrite compare_timers_spec. destruct (Z.compare_spec (Z.pos (snd x)) (Z.pos (snd y))); [congruence|..]; by_compare. Qed.
Lemma compare_timers_time x y : compare_timers x y = -1 -> fst x <= fst y.
Proof. rewrite compare_timers_spec. by_compare. Qed.

Section reactor.
Context {T : Type} `{!Tree compare_timers T, !OrderedTree compare_timers T}.

(** [BReactor], with the objects that are registered with it. *)
Record BReactor := mkReactor {
  exiting : bool; exit_code : Z;
  pending_jobs : list loc;
  timers_tree : T; timers_expired_list : list loc;
  active_limits_list : list loc;
  epoll_results : list epoll_event; epoll_results_pos : nat;
  timers : gmap loc BSmallTimer; fds : gmap loc BFileDescriptor; limits : gmap loc BReactorLimit
}.

Definition set_tree t r := mkReactor (exiting r) (exit_code r) (pending_jobs r) t (timers_expired_list r) (active_limits_list r) (epoll_results r) (epoll_results_pos r) (timers r) (fds r) (limits r).
Definition set_expired l r := mkReactor (exiting r) (exit_code r) (pending_jobs r) (timers_tree r) l (active_limits_list r) (epoll_results r) (epoll_results_pos r) (timers r) (fds r) (limits r).
Definition set_timers m r := mkReactor (exiting r) (exit_code r) (pending_jobs r) (timers_tree r) (timers_expired_list r) (active_limits_list r) (epoll_results r) (epoll_results_pos r) m (fds r) (limits r).
Definition set_jobs l r := mkReactor (exiting r) (exit_code r) l (timers_tree r) (timers_expired_list r) (active_limits_list r) (epoll_results r) (epoll_results_pos r) (timers r) (fds r) (limits r).
Definition set_results l pos r := mkReactor (exiting r) (exit_code r) (pending_jobs r) (timers_tree r) (timers_expired_list r) (active_limits_list r) l pos (timers r) (fds r) (limits r).
Definition set_fds m r := mkReactor (exiting r) (exit_code r) (pending_jobs r) (timers_tree r) (timers_expired_list r) (active_limits_list r) (epoll_results r) (epoll_results_pos r) (timers r) m (limits r).
Definition set_limits l m r := mkReactor (exiting r) (exit_code r) (pending_jobs r) (timers_tree r) (timers_expired_list r) l (epoll_results r) (epoll_results_pos r) (timers r) (fds r) m.
Definition set_exit e c r := mkReactor e c (pending_jobs r) (timers_tree r) (timers_expired_list r) (active_limits_list r) (epoll_results r) (epoll_results_pos r) (timers r) (fds r) (limits r).

Definition epoll_results_num (r : BReactor) : nat := length (epoll_results r).

Definition get_timer (r : BReactor) (a : loc) : outcome BSmallTimer := of_option (timers r !! a).
Definition get_fd (r : BReactor) (a : loc) : outcome BFileDescriptor := of_option (fds r !! a).
Definition get_limit (r : BReactor) (a : loc) : outcome BReactorLimit := of_option (limits r !! a).
Definition put_state (a : loc) (s : timer_state) (r : BReactor) : outcome BReactor :=
  get_timer r a ≫= fun t => Ok (set_timers (<[a := mkTimer (absTime t) s (is_small t)]> (timers r)) r).

(** The key of a timer in the tree. *)
Definition key (m : gmap loc BSmallTimer) (a : loc) : Z * loc :=
  (match m !! a with Some t => absTime t | None => 0 end, a).

(** ** Timers *)

(** Remove from the running timers, append to the expired ones. *)
Definition move_timer (a : loc) (r : BReactor) : outcome BReactor :=
  tree_remove (timers_tree r) a ≫= fun t =>
  put_state a TIMER_STATE_EXPIRED (set_expired (timers_expired_list r ++ [a]) (set_tree t r)).

Fixpoint move_expired_loop (fuel : nat) (now : Z) (moved : bool) (r : BReactor) : outcome (BReactor * bool) :=
  match fuel with
  | O => Fault
  | S fuel =>
      tree_first (timers_tree r) ≫= fun first =>
      match first with
      | None => Ok (r, moved)
      | Some a =>
          get_timer r a ≫= fun timer =>
          ASSERT (bool_decide (tstate timer = TIMER_STATE_RUNNING));;
          if now <? absTime timer then Ok (r, moved)
          else move_timer a r ≫= fun r => move_expired_loop fuel now true r
      end
  end.
Definition move_expired_timers (now : Z) (r : BReactor) : outcome (BReactor * bool) :=
  move_expired_loop (S (size (timers r))) now false r.

Fixpoint move_first_loop (fuel : nat) (first_time : Z) (r : BReactor) : outcome BReactor :=
  match fuel with
  | O => Fault
  | S fuel =>
      tree_first (timers_tree r) ≫= fun first =>
      match first with
      | None => Ok r
      | Some a =>
          get_timer r a ≫= fun timer =>
          ASSERT (bool_decide (tstate timer = TIMER_STATE_RUNNING));;
          ASSERT (first_time <=? absTime timer);;
          if first_time <? absTime timer then Ok r
          else move_timer a r ≫= fun r => move_first_loop fuel first_time r
      end
  end.
Definition move_first_timers (r : BReactor) : outcome BReactor :=
  tree_first (timers_tree r) ≫= fun first =>
  of_option first ≫= fun first_timer =>
  get_timer r first_timer ≫= fun timer =>
  ASSERT (bool_decide (tstate timer = TIMER_STATE_RUNNING));;
  move_timer first_timer r ≫= fun r => move_first_loop (S (size (timers r))) (absTime timer) r.

Definition BSmallTimer_Init (a : loc) (small : bool) (r : BReactor) : BReactor :=
  set_timers (<[a := mkTimer (match timers r !! a with Some t => absTime t | None => 0 end) TIMER_STATE_INACTIVE small]> (timers r)) r.

Definition BSmallTimer_IsRunning (r : BReactor) (a : loc) : outcome bool :=
  get_timer r a ≫= fun t => Ok (negb (bool_decide (tstate t = TIMER_STATE_INACTIVE))).

Definition BReactor_RemoveSmallTimer (a : loc) (r : BReactor) : outcome BReactor :=
  get_timer r a ≫= fun t =>
  match tstate t with
  | TIMER_STATE_INACTIVE => Ok r
  | TIMER_STATE_EXPIRED =>
      put_state a TIMER_STATE_INACTIVE (set_expired (LinkedList1.remove_node a (timers_expired_list r)) r)
  | TIMER_STATE_RUNNING =>
      tree_remove (timers_tree r) a ≫= fun tr => put_state a TIMER_STATE_INACTIVE (set_tree tr r)
  end.

Inductive timer_mode := BTIMER_SET_ABSOLUTE | BTIMER_SET_RELATIVE.

(** [now] is what [btime_gettime] returns. *)
Definition BReactor_SetSmallTimer (a : loc) (mode : timer_mode) (time now : Z) (r : BReactor) : outcome BReactor :=
  BReactor_RemoveSmallTimer a r ≫= fun r =>
  let time := match mode with BTIMER_SET_RELATIVE => btime_add now time | BTIMER_SET_ABSOLUTE => time end in
  get_timer r a ≫= fun t =>
  let r := set_timers (<[a := mkTimer time TIMER_STATE_RUNNING (is_small t)]> (timers r)) r in
  tree_insert (key (timers r)) (timers_tree r) a ≫= fun '((tr, res) : T * bool) =>
  ASSERT res;;
  Ok (set_tree tr r).

(** [BTimer]: a timer with a default time. *)
Record BTimer := mkBTimer { base : loc; msTime : Z }.
Definition BTimer_Init (a : loc) (ms : Z) (r : BReactor) : BTimer * BReactor := (mkBTimer a ms, BSmallTimer_Init a false r).
Definition BTimer_IsRunning (r : BReactor) (bt : BTimer) : outcome bool := BSmallTimer_IsRunning r (base bt).
Definition BReactor_SetTimer (bt : BTimer) (now : Z) (r : BReactor) : outcome BReactor :=
  BReactor_SetSmallTimer (base bt) BTIMER_SET_RELATIVE (msTime bt) now r.
Definition BReactor_SetTimerAfter (bt : BTimer) (after now : Z) (r : BReactor) : outcome BReactor :=
  BReactor_SetSmallTimer (base bt) BTIMER_SET_RELATIVE after now r.
Definition BReactor_SetTimerAbsolute (bt : BTimer) (time now : Z) (r : BReactor) : outcome BReactor :=
  BReactor_SetSmallTimer (base bt) BTIMER_SET_ABSOLUTE time now r.
Definition BReactor_RemoveTimer (bt : BTimer) (r : BReactor) : outcome BReactor := BReactor_RemoveSmallTimer (base bt) r.

(** ** Limits *)
Definition BReactorLimit_Init (a : loc) (n : Z) (r : BReactor) : outcome BReactor :=
  ASSERT (0 <? n);; Ok (set_limits (active_limits_list r) (<[a := mkLimit n 0]> (limits r)) r).
Definition BReactorLimit_Free (a : loc) (r : BReactor) : outcome BReactor :=
  get_limit r a ≫= fun o =>
  let l := if 0 <? count o then LinkedList1.remove_node a (active_limits_list r) else active_limits_list r in
  Ok (set_limits l (delete a (limits r)) r).
Definition BReactorLimit_Increment (a : loc) (r : BReactor) : outcome (BReactor * bool) :=
  get_limit r a ≫= fun o =>
  if limit o <=? count o then Ok (r, false)
  else
    let o := mkLimit (limit o) (count o + 1) in
    let l := if count o =? 1 then active_limits_list r ++ [a] else active_limits_list r in
    Ok (set_limits l (<[a := o]> (limits r)) r, true).
Definition BReactorLimit_SetLimit (a : loc) (n : Z) (r : BReactor) : outcome BReactor :=
  ASSERT (0 <? n);;
  get_limit r a ≫= fun o => Ok (set_limits (active_limits_list r) (<[a := mkLimit n (count o)]> (limits r)) r).

Fixpoint reset_limits (fuel : nat) (r : BReactor) : outcome BReactor :=
  match active_limits_list r with
  | [] => Ok r
  | a :: l =>
      match fuel with
      | O => Fault
      | S fuel =>
          get_limit r a ≫= fun o =>
          ASSERT (0 <? count o);;
          reset_limits fuel (set_limits (LinkedList1.remove_node a (a :: l)) (<[a := mkLimit (limit o) 0]> (limits r)) r)
      end
  end.

(** ** File descriptors *)
Definition put_returned (a : loc) (p : option nat) (r : BReactor) : outcome BReactor :=
  get_fd r a ≫= fun f => Ok (set_fds (<[a := mkFd (active f) (waitEvents f) p (in_epoll f)]> (fds r)) r).

Fixpoint set_epoll_fd_pointers (i : nat) (es : list epoll_event) (r : BReactor) : outcome BReactor :=
  match es with
  | [] => Ok r
  | e :: es =>
      of_option (ptr e) ≫= fun bfd =>
      get_fd r bfd ≫= fun f =>
      ASSERT (active f);;
      ASSERT (bool_decide (epoll_returned_ptr f = None));;
      put_returned bfd (Some i) r ≫= fun r => set_epoll_fd_pointers (S i) es r
  end.

Definition BFileDescriptor_Init (a : loc) (r : BReactor) : BReactor :=
  let f := default (mkFd false 0 None false) (fds r !! a) in
  set_fds (<[a := mkFd false (waitEvents f) (epoll_returned_ptr f) (in_epoll f)]> (fds r)) r.

(** EPOLL_CTL_ADD fails for a descriptor that is there already, and when [ok] is
    false; EPOLL_CTL_MOD and EPOLL_CTL_DEL fail for one that is not there. *)
Definition BReactor_AddFileDescriptor (a : loc) (ok : bool) (r : BReactor) : outcome (BReactor * bool) :=
  get_fd r a ≫= fun f =>
  ASSERT (negb (active f));;
  if ok && negb (in_epoll f) then Ok (set_fds (<[a := mkFd true 0 None true]> (fds r)) r, true) else Ok (r, false).

Definition BReactor_RemoveFileDescriptor (a : loc) (r : BReactor) : outcome BReactor :=
  get_fd r a ≫= fun f =>
  ASSERT (active f);;
  ASSERT (in_epoll f);;
  let r := set_fds (<[a := mkFd false (waitEvents f) (epoll_returned_ptr f) false]> (fds r)) r in
  match epoll_returned_ptr f with
  | Some i =>
      of_option (epoll_results r !! i) ≫= fun e =>
      Ok (set_results (<[i := mkEvent None (events e)]> (epoll_results r)) (epoll_results_pos r) r)
  | None => Ok r
  end.

Definition BReactor_SetFileDescriptorEvents (a : loc) (evs : Z) (r : BReactor) : outcome BReactor :=
  get_fd r a ≫= fun f =>
  ASSERT (active f);;
  ASSERT (Z.land evs (Z.lnot (Z.lor BREACTOR_READ BREACTOR_WRITE)) =? 0);;
  if waitEvents f =? evs then Ok r
  else
    ASSERT (in_epoll f);;
    Ok (set_fds (<[a := mkFd (active f) evs (epoll_returned_ptr f) (in_epoll f)]> (fds r)) r).

(** The kernel, when the program closes the descriptor. *)
Definition close_descriptor (a : loc) (r : BReactor) : outcome BReactor :=
  get_fd r a ≫= fun f => Ok (set_fds (<[a := mkFd (active f) (waitEvents f) (epoll_returned_ptr f) false]> (fds r)) r).

(** ** Waiting *)

(** One return of epoll_wait, and the time that is read when the wait is tried
    again; [Failed] is an error other than EINTR. *)
Inductive wait_result := Interrupted (now : Z) | TimedOut (now : Z) | Ready (l : list (loc * Z)) | Failed.

(** The time is read again, unless there is no timeout. *)
Definition try_again (timeout_abs : option Z) (now : Z) (wait : outcome (option BReactor)) (r : BReactor) : outcome (option BReactor) :=
  match timeout_abs with
  | Some t => if t <=? now then move_first_timers r ≫= fun r => Ok (Some r) else wait
  | None => wait
  end.

(** [None] while the wait goes on. *)
Fixpoint wait_loop (ws : list wait_result) (timeout_abs : option Z) (now : Z) (r : BReactor) : outcome (option BReactor) :=
  match ws with
  | [] => Ok None
  | w :: ws =>
      let timeout_rel := match timeout_abs with Some t => t - now | None => 0 end in
      let timeout_rel_trunc := if INT_MAX <? timeout_rel then INT_MAX else timeout_rel in
      match w with
      | Interrupted now => try_again timeout_abs now (wait_loop ws timeout_abs now r) r
      | TimedOut now =>
          ASSERT (bool_decide (timeout_abs <> None));;
          if timeout_rel_trunc =? timeout_rel then move_first_timers r ≫= fun r => Ok (Some r)
          else try_again timeout_abs now (wait_loop ws timeout_abs now r) r
      | Ready l =>
          ASSERT (Zlen l <=? BSYSTEM_MAX_RESULTS);;
          let es := map (fun x => mkEvent (Some (fst x)) (snd x)) l in
          set_epoll_fd_pointers 0 es (set_results es 0 r) ≫= fun r => Ok (Some r)
      | Failed => Fault
      end
  end.

(** The result is whether the wait is over. *)
Definition wait_for_events (now : Z) (ws : list wait_result) (r : BReactor) : outcome (BReactor * bool) :=
  ASSERT (bool_decide (pending_jobs r = []));;
  ASSERT (bool_decide (timers_expired_list r = []));;
  ASSERT (bool_decide (epoll_results_pos r = epoll_results_num r));;
  let r := set_results [] 0 r in
  let finish (m : option BReactor) :=
    match m with
    | None => Ok (r, false)
    | Some r => reset_limits (length (active_limits_list r)) r ≫= fun r => Ok (r, true)
    end in
  tree_first (timers_tree r) ≫= fun first =>
  match first with
  | Some a =>
      get_timer r a ≫= fun first_timer =>
      ASSERT (bool_decide (tstate first_timer = TIMER_STATE_RUNNING));;
      move_expired_timers now r ≫= fun '((r', moved) : BReactor * bool) =>
      if moved then Ok (r', true) else wait_loop ws (Some (absTime first_timer)) now r' ≫= finish
  | None => wait_loop ws None 0 r ≫= finish
  end.

(** ** The loop *)
Inductive call := CallJob (a : loc) | CallTimer (a : loc) | CallFd (a : loc) (evs : Z).
(** What an iteration of the loop comes to: a handler that is called, a
    [continue], a wait that is not over, the end of the loop. *)
Inductive progress := Called (c : call) | Continued | Waiting | Exited (code : Z).

Definition has (flags f : Z) : bool := negb (Z.land flags f =? 0).

Definition events_to_report (f : BFileDescriptor) (e : epoll_event) : Z :=
  let evs := 0 in
  let evs := if has (waitEvents f) BREACTOR_READ && has (events e) EPOLLIN then Z.lor evs BREACTOR_READ else evs in
  let evs := if has (waitEvents f) BREACTOR_WRITE && has (events e) EPOLLOUT then Z.lor evs BREACTOR_WRITE else evs in
  let evs := if has (events e) EPOLLERR then Z.lor evs BREACTOR_ERROR else evs in
  if has (events e) EPOLLHUP then Z.lor evs BREACTOR_HUP else evs.

Definition dispatch_fd (e : epoll_event) (r : BReactor) : outcome (BReactor * progress) :=
  let pos := epoll_results_pos r in
  let r := set_results (epoll_results r) (S pos) r in
  match ptr e with
  | None => Ok (r, Continued)
  | Some bfd =>
      get_fd r bfd ≫= fun f =>
      ASSERT (active f);;
      ASSERT (bool_decide (epoll_returned_ptr f = Some pos));;
      put_returned bfd None r ≫= fun r =>
      let evs := events_to_report f e in
      Ok (r, if evs =? 0 then Continued else Called (CallFd bfd evs))
  end.

(** One iteration of the loop of [BReactor_Exec]. *)
Definition exec_iteration (now : Z) (ws : list wait_result) (r : BReactor) : outcome (BReactor * progress) :=
  if exiting r then Ok (r, Exited (exit_code r))
  else match pending_jobs r with
  | a :: l => Ok (set_jobs l r, Called (CallJob a))
  | [] =>
    match timers_expired_list r with
    | a :: l =>
        get_timer r a ≫= fun timer =>
        ASSERT (bool_decide (tstate timer = TIMER_STATE_EXPIRED));;
        put_state a TIMER_STATE_INACTIVE (set_expired (LinkedList1.remove_node a (a :: l)) r) ≫= fun r =>
        Ok (r, Called (CallTimer a))
    | [] =>
        if (epoll_results_pos r <? epoll_results_num r)%nat then
          of_option (epoll_results r !! epoll_results_pos r) ≫= fun e => dispatch_fd e r
        else
          wait_for_events now ws r ≫= fun '((r, done) : BReactor * bool) =>
          Ok (r, if done then Continued else Waiting)
    end
  end.

(** One iteration of the loop of [BReactor_Synchronize]. *)
Definition synchronize_iteration (ref : loc) (r : BReactor) : outcome (BReactor * progress) :=
  if exiting r then Ok (r, Exited 0)
  else match pending_jobs r with
  | [] => Fault
  | a :: l => if decide (a = ref) then Ok (r, Exited 1) else Ok (set_jobs l r, Called (CallJob a))
  end.

Definition BReactor_Quit (code : Z) (r : BReactor) : BReactor := set_exit true code r.

(** Nothing that is registered may be left. *)
Definition BReactor_Free (r : BReactor) : outcome unit :=
  ASSERT (bool_decide (pending_jobs r = []));;
  tree_first (timers_tree r) ≫= fun first =>
  ASSERT (bool_decide (first = None));;
  ASSERT (bool_decide (timers_expired_list r = []));;
  ASSERT (bool_decide (active_limits_list r = []));;
  Ok tt.

(** ** What handlers do *)
Inductive operation :=
| TimerInit (a : loc) (small : bool)
| SetTimer (a : loc) (mode : timer_mode) (time now : Z)
| RemoveTimer (a : loc)
| FdInit (a : loc)
| AddFd (a : loc) (ok : bool)
| RemoveFd (a : loc)
| SetFdEvents (a : loc) (evs : Z)
| CloseDescriptor (a : loc)
| LimitInit (a : loc) (n : Z)
| LimitFree (a : loc)
| LimitIncrement (a : loc)
| LimitSetLimit (a : loc) (n : Z)
| JobSet (a : loc)
| JobUnset (a : loc)
| Quit (code : Z).

Definition perform (o : operation) (r : BReactor) : outcome BReactor :=
  match o with
  | TimerInit a small => Ok (BSmallTimer_Init a small r)
  | SetTimer a mode time now => BReactor_SetSmallTimer a mode time now r
  | RemoveTimer a => BReactor_RemoveSmallTimer a r
  | FdInit a => Ok (BFileDescriptor_Init a r)
  | AddFd a ok => BReactor_AddFileDescriptor a ok r ≫= fun '((r, _) : BReactor * bool) => Ok r
  | RemoveFd a => BReactor_RemoveFileDescriptor a r
  | SetFdEvents a evs => BReactor_SetFileDescriptorEvents a evs r
  | CloseDescriptor a => close_descriptor a r
  | LimitInit a n => BReactorLimit_Init a n r
  | LimitFree a => BReactorLimit_Free a r
  | LimitIncrement a => BReactorLimit_Increment a r ≫= fun '((r, _) : BReactor * bool) => Ok r
  | LimitSetLimit a n => BReactorLimit_SetLimit a n r
  | JobSet a => Ok (set_jobs (a :: LinkedList1.remove_node a (pending_jobs r)) r)
  | JobUnset a => Ok (set_jobs (LinkedList1.remove_node a (pending_jobs r)) r)
  | Quit code => Ok (BReactor_Quit code r)
  end.

Definition is_active (r : BReactor) (a : loc) : Prop := exists f, fds r !! a = Some f /\ active f = true.

(** The contract of the functions: objects exist and are in the state the
    function is for, and a descriptor is not closed before it is removed. *)
Definition allowed (r : BReactor) (o : operation) : Prop :=
  match o with
  | TimerInit a _ => forall t, timers r !! a = Some t -> tstate t = TIMER_STATE_INACTIVE
  | SetTimer a _ _ _ | RemoveTimer a => is_Some (timers r !! a)
  | FdInit a => ~ is_active r a
  | AddFd a _ => is_Some (fds r !! a) /\ ~ is_active r a
  | RemoveFd a => is_active r a
  | SetFdEvents a evs => is_active r a /\ 0 <= evs <= 3
  | CloseDescriptor a => is_Some (fds r !! a) /\ ~ is_active r a
  | LimitInit a n => limits r !! a = None /\ 0 < n
  | LimitFree a | LimitIncrement a => is_Some (limits r !! a)
  | LimitSetLimit a n => is_Some (limits r !! a) /\ 0 < n
  | JobSet _ | JobUnset _ | Quit _ => True
  end.

Inductive performs : list operation -> BReactor -> outcome BReactor -> Prop :=
| performs_nil r : performs [] r (Ok r)
| performs_fault o os r : allowed r o -> perform o r = Fault -> performs (o :: os) r Fault
| performs_cons o os r r' res : allowed r o -> perform o r = Ok r' -> performs os r' res -> performs (o :: os) r res.

Definition registered (r : BReactor) (a : loc) : Prop := exists f, fds r !! a = Some f /\ in_epoll f = true.

(** What the kernel promises of the waits: time does not go back, a wait that
    times out took as long as it was asked to, the descriptors returned are
    different ones that epoll has, at most as many as asked for, and there is no
    error but EINTR, as the others are of a bad descriptor or buffer. *)
Fixpoint waits_ok (r : BReactor) (timeout_abs : option Z) (now fin : Z) (ws : list wait_result) : Prop :=
  match ws with
  | [] => True
  | Interrupted now' :: ws => now <= now' <= fin /\ waits_ok r timeout_abs now' fin ws
  | TimedOut now' :: ws =>
      match timeout_abs with
      | Some t => now + Z.min (t - now) INT_MAX <= now' <= fin
      | None => False
      end /\ waits_ok r timeout_abs now' fin ws
  | Ready l :: _ => l <> [] /\ NoDup (map fst l) /\ Forall (registered r) (map fst l) /\ Zlen l <= BSYSTEM_MAX_RESULTS
  | Failed :: _ => False
  end.

(** The loop is about to wait. *)
Definition idle (r : BReactor) : Prop :=
  exiting r = false /\ pending_jobs r = [] /\ timers_expired_list r = [] /\ epoll_results_pos r = epoll_results_num r.

Definition wait_allowed (now fin : Z) (ws : list wait_result) (r : BReactor) : Prop :=
  idle r -> forall first, tree_first (timers_tree r) = Ok first ->
    waits_ok r (first ≫= fun a => absTime <$> timers r !! a) now fin ws.

(** An iteration with what the handler it calls does, between two times, or
    calls to the functions from outside the loop. *)
Inductive step : Z -> BReactor -> Z -> option progress -> list operation -> outcome BReactor -> Prop :=
| step_fault now fin ws r :
    0 <= now <= fin -> wait_allowed now fin ws r ->
    exec_iteration now ws r = Fault -> step now r fin (Some Continued) [] Fault
| step_exec now fin ws r r' p os res :
    0 <= now <= fin -> wait_allowed now fin ws r ->
    exec_iteration now ws r = Ok (r', p) -> match p with Called _ => True | _ => os = [] end ->
    performs os r' res -> step now r fin (Some p) os res
| step_sync_fault now ref r :
    ref ∈ pending_jobs r -> synchronize_iteration ref r = Fault -> step now r now (Some Continued) [] Fault
| step_sync now ref r r' p os res :
    ref ∈ pending_jobs r -> synchronize_iteration ref r = Ok (r', p) -> match p with Called _ => True | _ => os = [] end ->
    performs os r' res -> step now r now (Some p) os res
| step_outside now r os res : performs os r res -> step now r now None os res.

Record turn := mkTurn { turn_time : Z; turn_progress : option progress; turn_operations : list operation }.

Inductive run : Z -> BReactor -> list turn -> Z -> outcome BReactor -> Prop :=
| run_nil now r : run now r [] now (Ok r)
| run_fault now r now1 fin p os : now <= now1 -> step now1 r fin p os Fault -> run now r [mkTurn now1 p os] fin Fault
| run_cons now r now1 now2 p os r' tr fin res :
    now <= now1 -> step now1 r now2 p os (Ok r') -> run now2 r' tr fin res -> run now r (mkTurn now1 p os :: tr) fin res.

Definition BReactor_Init : BReactor := mkReactor false 0 [] tree_init [] [] [] 0 ∅ ∅ ∅.

(** ** Invariant *)
Definition in_state (m : gmap loc BSmallTimer) (a : loc) (s : timer_state) : Prop := exists t, m !! a = Some t /\ tstate t = s.
Definition before (m : gmap loc BSmallTimer) (a b : loc) : Prop := compare_timers (key m a) (key m b) = -1.

(** The timers: the tree holds those that run, [run], the list those that
    expired, in order, and none of them before its time. *)
Record timers_inv (now : Z) (m : gmap loc BSmallTimer) (t : T) (running expired : list loc) : Prop := {
  ti_tree : tree_holds (key m) t running;
  ti_running_nodup : NoDup running;
  ti_running : forall a, a ∈ running <-> in_state m a TIMER_STATE_RUNNING;
  ti_expired_nodup : NoDup expired;
  ti_expired : forall a, a ∈ expired <-> in_state m a TIMER_STATE_EXPIRED;
  ti_sorted : StronglySorted (before m) expired;
  ti_due : forall a t, m !! a = Some t -> tstate t = TIMER_STATE_EXPIRED -> absTime t <= now
}.

(** The results of a wait: an entry that is still to be dispatched points to a
    registered descriptor that points back, unless it was cleared. And epoll has
    exactly the active descriptors. *)
Record fds_inv (m : gmap loc BFileDescriptor) (es : list epoll_event) (pos : nat) : Prop := {
  fi_pos : (pos <= length es)%nat;
  fi_entry : forall i e a, (pos <= i)%nat -> es !! i = Some e -> ptr e = Some a ->
    exists f, m !! a = Some f /\ active f = true /\ epoll_returned_ptr f = Some i;
  fi_back : forall a f i, m !! a = Some f -> active f = true -> epoll_returned_ptr f = Some i ->
    (pos <= i)%nat /\ exists e, es !! i = Some e /\ ptr e = Some a;
  fi_epoll : forall a f, m !! a = Some f -> in_epoll f = active f
}.

Record limits_inv (m : gmap loc BReactorLimit) (l : list loc) : Prop := {
  li_nodup : NoDup l;
  li_active : forall a, a ∈ l <-> exists o, m !! a = Some o /\ 0 < count o;
  li_count : forall a o, m !! a = Some o -> 0 <= count o
}.

Record inv (now : Z) (r : BReactor) : Prop := {
  inv_timers : exists running, timers_inv now (timers r) (timers_tree r) running (timers_expired_list r);
  inv_fds : fds_inv (fds r) (epoll_results r) (epoll_results_pos r);
  inv_limits : limits_inv (limits r) (active_limits_list r);
  inv_jobs : NoDup (pending_jobs r)
}.

(** *** Timers *)
Lemma key_insert_ne m a b t : a <> b -> key (<[a := t]> m) b = key m b.
Proof. intros H. unfold key. by rewrite lookup_insert_ne. Qed.
Lemma key_same m a b t t' : m !! a = Some t -> absTime t' = absTime t -> key (<[a := t']> m) b = key m b.
Proof.
  intros Ha He. destruct (decide (a = b)) as [->|Hne]; [|by apply key_insert_ne]. unfold key. by rewrite lookup_insert_eq, Ha, He.
Qed.
Lemma in_state_insert m a t b s : in_state (<[a := t]> m) b s <-> (a = b /\ tstate t = s) \/ (a <> b /\ in_state m b s).
Proof.
  unfold in_state. destruct (decide (a = b)) as [->|Hne].
  - rewrite lookup_insert_eq. naive_solver.
  - rewrite lookup_insert_ne by done. naive_solver.
Qed.
Lemma sorted_same m m' l : (forall a, a ∈ l -> key m' a = key m a) -> StronglySorted (before m) l -> StronglySorted (before m') l.
Proof.
  intros Hk Hs. induction Hs as [|a l Hs IH Hf]; constructor.
  - apply IH. intros b Hb. apply Hk. by right.
  - rewrite Forall_forall in Hf |- *. intros b Hb. unfold before. rewrite !Hk by (first [by left|by right]). by apply Hf.
Qed.
Lemma holds_same m m' t l : (forall a, a ∈ l -> key m' a = key m a) -> tree_holds (key m) t l -> tree_holds (key m') t l.
Proof. intros Hk. apply tree_holds_ext. intros a b Ha Hb. by rewrite !Hk. Qed.

Lemma expired_remove_node m a l : StronglySorted (before m) l -> StronglySorted (before m) (LinkedList1.remove_node a l).
Proof.
  intros Hs. induction Hs as [|b l Hs IH Hf]; cbn; [constructor|]. case_decide; [done|]. constructor; [done|].
  rewrite Forall_forall in Hf |- *. intros c Hc. apply Hf. clear -Hc. induction l as [|d l IH]; cbn in *; [done|].
  case_decide; [by right|]. apply elem_of_cons in Hc as [->|Hc]; [by left|right; auto].
Qed.
Lemma elem_of_remove_node a b l : NoDup l -> b ∈ LinkedList1.remove_node a l <-> b ∈ l /\ b <> a.
Proof.
  induction l as [|c l IH]; cbn; [by intros _; split; [intros ?%elem_of_nil|intros [?%elem_of_nil _]]|].
  intros [Hc Hn]%NoDup_cons. case_decide as E.
  - subst c. rewrite elem_of_cons. split; [|naive_solver]. intros Hb. split; [by right|]. intros ->. done.
  - rewrite !elem_of_cons, IH by done. naive_solver.
Qed.
Lemma nodup_remove_node a l : NoDup l -> NoDup (LinkedList1.remove_node a l).
Proof.
  intros Hn. induction Hn as [|b l Hb Hn IH]; cbn; [constructor|]. case_decide; [done|]. constructor; [|done].
  rewrite elem_of_remove_node by done. naive_solver.
Qed.

(** Moving the first timer. *)
Lemma move_timer_ok now r running a tm : timers_inv now (timers r) (timers_tree r) running (timers_expired_list r) ->
  a ∈ running -> timers r !! a = Some tm -> absTime tm <= now ->
  (forall b, b ∈ timers_expired_list r -> before (timers r) b a) ->
  exists tr, move_timer a r = Ok (set_timers (<[a := mkTimer (absTime tm) TIMER_STATE_EXPIRED (is_small tm)]> (timers r))
    (set_expired (timers_expired_list r ++ [a]) (set_tree tr r))) /\
  timers_inv now (<[a := mkTimer (absTime tm) TIMER_STATE_EXPIRED (is_small tm)]> (timers r)) tr
    (LinkedList1.remove_node a running) (timers_expired_list r ++ [a]).
Proof.
  intros [H1 H2 H3 H4 H5 H6 H7] Ha Htm Hdue Hlast.
  destruct (tree_remove_ok (key (timers r)) (timers_tree r) running a H1 Ha) as (tr & Hrem & Hh).
  exists tr. split.
  { unfold move_timer. rewrite Hrem. cbn [mbind outcome_bind]. unfold put_state, get_timer. cbn. by rewrite Htm. }
  assert (forall b, key (<[a := mkTimer (absTime tm) TIMER_STATE_EXPIRED (is_small tm)]> (timers r)) b = key (timers r) b) as Hk
    by (intros b; by eapply key_same).
  assert (a ∉ timers_expired_list r) as Hna.
  { intros Hx%H5. apply H3 in Ha. destruct Hx as (? & ? & ?), Ha as (? & ? & ?). congruence. }
  constructor.
  - by eapply holds_same; [|exact Hh].
  - by apply nodup_remove_node.
  - intros b. rewrite elem_of_remove_node, H3, in_state_insert by done. cbn. naive_solver.
  - apply NoDup_app. split_and!; [done|set_solver|apply NoDup_singleton].
  - intros b. rewrite elem_of_app, H5, list_elem_of_singleton, in_state_insert. cbn. split.
    + intros [Hb| ->]; [|by left]. right. split; [|done]. intros ->. by apply H5 in Hb.
    + intros [[-> _]|[_ ?]]; auto.
  - apply (sorted_same (timers r)); [done|]. clear -H6 Hlast. induction H6 as [|b l Hs IH Hf]; cbn.
    + repeat constructor.
    + constructor; [apply IH; intros c Hc; apply Hlast; by right|]. apply Forall_app. split; [done|].
      constructor; [|done]. apply Hlast. by left.
  - intros b t Hb Hst. destruct (decide (a = b)) as [->|Hne].
    + rewrite lookup_insert_eq in Hb. by injection Hb as <-.
    + rewrite lookup_insert_ne in Hb by done. by eapply H7.
Qed.

Lemma first_ok now m t running expired : timers_inv now m t running expired ->
  exists first, tree_first t = Ok first /\
    match first with
    | None => running = []
    | Some a => a ∈ running /\ (exists tm, m !! a = Some tm /\ tstate tm = TIMER_STATE_RUNNING) /\
        forall b, b ∈ running -> b <> a -> before m a b
    end.
Proof.
  intros [H1 _ H3 _ _ _ _]. destruct (tree_first_ok _ _ _ H1) as (first & -> & Hf). exists first. split; [done|].
  destruct first as [a|]; [|done]. destruct Hf as [Ha Hb]. split_and!; [done|by apply H3|done].
Qed.

Lemma running_size now m t running expired : timers_inv now m t running expired -> (length running <= size m)%nat.
Proof.
  intros [_ Hn Hr _ _ _ _]. rewrite <- size_dom, <- (size_list_to_set (C := gset loc) running Hn). apply subseteq_size.
  intros a Ha%elem_of_list_to_set. apply Hr in Ha as (tm & Ha & _). by apply elem_of_dom_2 in Ha.
Qed.

(** What the moving of timers leaves alone. *)
Record same_rest (r r' : BReactor) : Prop := {
  sr_exiting : exiting r' = exiting r; sr_code : exit_code r' = exit_code r; sr_jobs : pending_jobs r' = pending_jobs r;
  sr_active : active_limits_list r' = active_limits_list r; sr_limits : limits r' = limits r;
  sr_results : epoll_results r' = epoll_results r; sr_pos : epoll_results_pos r' = epoll_results_pos r; sr_fds : fds r' = fds r
}.
Lemma same_rest_refl r : same_rest r r.
Proof. by constructor. Qed.
Lemma same_rest_trans r1 r2 r3 : same_rest r1 r2 -> same_rest r2 r3 -> same_rest r1 r3.
Proof. intros [] []. constructor; congruence. Qed.

(** A timer keeps its time, it does not start to run, and it does not stop but
    by expiring. *)
Definition moved_timer (t t' : BSmallTimer) : Prop :=
  absTime t' = absTime t /\ (tstate t' = TIMER_STATE_RUNNING -> tstate t = TIMER_STATE_RUNNING) /\
  (tstate t' = TIMER_STATE_INACTIVE <-> tstate t = TIMER_STATE_INACTIVE).
#[local] Instance moved_timer_preorder : PreOrder moved_timer.
Proof.
  split; [by intros t; split_and!|]. intros t1 t2 t3 (E1 & F1 & G1) (E2 & F2 & G2).
  split_and!; [congruence|auto|by rewrite G2].
Qed.
Definition only_moved (r r' : BReactor) : Prop := forall b, option_Forall2 moved_timer (timers r !! b) (timers r' !! b).
Lemma only_moved_inv r r' b t : only_moved r r' -> timers r' !! b = Some t ->
  exists t0, timers r !! b = Some t0 /\ absTime t = absTime t0 /\ (tstate t = TIMER_STATE_RUNNING -> tstate t0 = TIMER_STATE_RUNNING).
Proof. intros Hm Hb. pose proof (Hm b) as H. rewrite Hb in H. inversion H as [t0 ? Ht|]; subst. destruct Ht as (? & ? & _). eauto. Qed.
(** No timer that runs is due. *)
Definition none_due (now : Z) (r : BReactor) : Prop :=
  forall a t, timers r !! a = Some t -> tstate t = TIMER_STATE_RUNNING -> now < absTime t.
Lemma only_moved_refl r : only_moved r r.
Proof. by intros b. Qed.
Lemma only_moved_trans r1 r2 r3 : only_moved r1 r2 -> only_moved r2 r3 -> only_moved r1 r3.
Proof. intros H1 H2 b. exact (transitivity (H1 b) (H2 b)). Qed.
Lemma none_due_moved now r r' : none_due now r -> only_moved r r' -> none_due now r'.
Proof. intros H Hm a t Ha Hs. destruct (only_moved_inv _ _ _ _ Hm Ha) as (t0 & Ht0 & -> & Hr). apply (H a); auto. Qed.

(** Every expired timer comes before every running one. *)
Definition ordered (r : BReactor) (running : list loc) : Prop :=
  forall b c, b ∈ timers_expired_list r -> c ∈ running -> before (timers r) b c.

(** One round of either loop that moves the first timer. *)
Lemma move_round now r running a tm : timers_inv now (timers r) (timers_tree r) running (timers_expired_list r) ->
  ordered r running -> a ∈ running -> (forall b, b ∈ running -> b <> a -> before (timers r) a b) ->
  timers r !! a = Some tm -> absTime tm <= now ->
  exists r', move_timer a r = Ok r' /\ same_rest r r' /\ size (timers r') = size (timers r) /\
    timers_inv now (timers r') (timers_tree r') (LinkedList1.remove_node a running) (timers_expired_list r') /\
    ordered r' (LinkedList1.remove_node a running) /\ timers_expired_list r' = timers_expired_list r ++ [a] /\
    only_moved r r' /\ S (length (LinkedList1.remove_node a running)) = length running.
Proof.
  intros Hi Ho Ha Hmin Htm Hdue. pose proof (ti_running_nodup _ _ _ _ _ Hi) as Hnd.
  destruct (move_timer_ok now r running a tm Hi Ha Htm Hdue) as (tr & Hm & Hi'); [intros b Hb; by apply Ho|].
  eexists. split; [exact Hm|]. cbn. split_and!; [by constructor|by rewrite map_size_insert_Some|done| |done| |].
  - intros b c Hb Hc. cbn in *. unfold before. rewrite !(key_same _ _ _ tm) by done.
    apply elem_of_remove_node in Hc as [Hc Hne]; [|done]. apply elem_of_app in Hb as [Hb|Hb]; [by apply Ho|].
    apply list_elem_of_singleton in Hb as ->. by apply Hmin.
  - intros b. cbn. destruct (decide (a = b)) as [->|Hne]; [|by rewrite lookup_insert_ne].
    rewrite lookup_insert_eq, Htm. constructor. apply (ti_running _ _ _ _ _ Hi) in Ha as (t & Ht & Hst).
    rewrite Htm in Ht. injection Ht as <-. split_and!; [done|done|]. cbn. by rewrite Hst.
  - pose proof (Permutation_length (remove_node_perm a running Ha)) as Hl. cbn in Hl. done.
Qed.

Lemma move_expired_loop_ok fuel now : forall moved r running, timers_inv now (timers r) (timers_tree r) running (timers_expired_list r) ->
  ordered r running -> (length running < fuel)%nat ->
  exists r' moved' running' l, move_expired_loop fuel now moved r = Ok (r', moved') /\ same_rest r r' /\
    timers_inv now (timers r') (timers_tree r') running' (timers_expired_list r') /\
    timers_expired_list r' = timers_expired_list r ++ l /\ (moved' = true <-> moved = true \/ l <> []) /\
    (l = [] -> r' = r) /\ none_due now r' /\ only_moved r r'.
Proof.
  induction fuel as [|fuel IH]; [lia|]. intros moved r running Hi Ho Hl. cbn [move_expired_loop].
  destruct (first_ok _ _ _ _ _ Hi) as (first & -> & Hf). cbn [mbind outcome_bind]. destruct first as [a|].
  2:{ exists r, moved, running, []. rewrite app_nil_r. split_and!; [done|apply same_rest_refl|done|done|naive_solver|done| |apply only_moved_refl].
      intros a t Hat Hrun. assert (a ∈ running) as Hx by (apply (ti_running _ _ _ _ _ Hi); by exists t). subst running. by apply elem_of_nil in Hx. }
  destruct Hf as (Ha & (tm & Htm & Hst) & Hmin). unfold get_timer. rewrite Htm. cbn [of_option mbind outcome_bind].
  rewrite bool_decide_eq_true_2 by done. cbn [ASSERT mbind outcome_bind]. destruct (now <? absTime tm) eqn:E; zify_bool.
  - exists r, moved, running, []. rewrite app_nil_r. split_and!; [done|apply same_rest_refl|done|done|naive_solver|done| |apply only_moved_refl].
    intros b t Hbt Hrun. assert (b ∈ running) as Hb by (apply (ti_running _ _ _ _ _ Hi); by exists t). destruct (decide (b = a)) as [->|Hne]; [congruence|].
    pose proof (compare_timers_time _ _ (Hmin b Hb Hne)) as Hle. unfold key in Hle. rewrite Htm, Hbt in Hle. cbn in Hle. lia.
  - destruct (move_round now r running a tm Hi Ho Ha Hmin Htm ltac:(lia)) as (r1 & -> & Hs1 & _ & Hi1 & Ho1 & He1 & Hm1 & Hl1).
    cbn [mbind outcome_bind]. destruct (IH true r1 _ Hi1 Ho1 ltac:(lia)) as (r' & moved' & running' & l & -> & Hs & Hi' & He' & Hmv & _ & Hnd & Hm').
    exists r', moved', running', (a :: l). split_and!; [done|by eapply same_rest_trans|done| | |done|done|by eapply only_moved_trans].
    + by rewrite He', He1, <- app_assoc.
    + split; [by right|]. intros _. apply Hmv. by left.
Qed.

Lemma move_first_loop_ok fuel now first_time : forall r running, timers_inv now (timers r) (timers_tree r) running (timers_expired_list r) ->
  ordered r running -> (length running < fuel)%nat -> first_time <= now ->
  (forall a t, a ∈ running -> timers r !! a = Some t -> first_time <= absTime t) ->
  exists r' running' l, move_first_loop fuel first_time r = Ok r' /\ same_rest r r' /\
    timers_inv now (timers r') (timers_tree r') running' (timers_expired_list r') /\
    timers_expired_list r' = timers_expired_list r ++ l /\ only_moved r r'.
Proof.
  induction fuel as [|fuel IH]; [lia|]. intros r running Hi Ho Hl Hft Hge. cbn [move_first_loop].
  destruct (first_ok _ _ _ _ _ Hi) as (first & -> & Hf). cbn [mbind outcome_bind]. destruct first as [a|].
  2:{ exists r, running, []. rewrite app_nil_r. split_and!; [done|apply same_rest_refl|done|done|apply only_moved_refl]. }
  destruct Hf as (Ha & (tm & Htm & Hst) & Hmin). unfold get_timer. rewrite Htm. cbn [of_option mbind outcome_bind].
  rewrite bool_decide_eq_true_2 by done. cbn [ASSERT mbind outcome_bind].
  pose proof (Hge a tm Ha Htm) as Hge1. apply Z.leb_le in Hge1 as ->. cbn [ASSERT mbind outcome_bind].
  destruct (first_time <? absTime tm) eqn:E; zify_bool.
  - exists r, running, []. rewrite app_nil_r. split_and!; [done|apply same_rest_refl|done|done|apply only_moved_refl].
  - destruct (move_round now r running a tm Hi Ho Ha Hmin Htm ltac:(lia)) as (r1 & -> & Hs1 & _ & Hi1 & Ho1 & He1 & Ht1 & Hl1).
    cbn [mbind outcome_bind]. destruct (IH r1 _ Hi1 Ho1 ltac:(lia) Hft) as (r' & running' & l & -> & Hs & Hi' & He' & Hm').
    { intros b t Hb Hbt. destruct (only_moved_inv _ _ _ _ Ht1 Hbt) as (t0 & Ht0 & -> & _). apply (Hge b); [|done].
      apply elem_of_remove_node in Hb as [? _]; [done|]. by apply Hi. }
    exists r', running', (a :: l). split_and!; [done|by eapply same_rest_trans|done| |by eapply only_moved_trans]. by rewrite He', He1, <- app_assoc.
Qed.

Lemma timers_inv_mono now now' m t running expired : now <= now' -> timers_inv now m t running expired -> timers_inv now' m t running expired.
Proof. intros Hn []. constructor; try done. intros a tm Ha Hs. pose proof (ti_due0 a tm Ha Hs). lia. Qed.

Lemma move_first_ok now r running a tm : timers_inv now (timers r) (timers_tree r) running (timers_expired_list r) ->
  timers_expired_list r = [] -> tree_first (timers_tree r) = Ok (Some a) -> timers r !! a = Some tm -> absTime tm <= now ->
  exists r' running', move_first_timers r = Ok r' /\ same_rest r r' /\
    timers_inv now (timers r') (timers_tree r') running' (timers_expired_list r') /\ timers_expired_list r' <> [] /\ only_moved r r'.
Proof.
  intros Hi He Hf Htm Hdue. destruct (first_ok _ _ _ _ _ Hi) as (first & Hf' & Hmin).
  rewrite Hf in Hf'. injection Hf' as <-. destruct Hmin as (Ha & (tm' & Htm' & Hst) & Hmin).
  rewrite Htm in Htm'. injection Htm' as <-.
  unfold move_first_timers, get_timer. rewrite Hf. cbn [mbind outcome_bind of_option]. rewrite Htm. cbn [mbind outcome_bind of_option].
  rewrite bool_decide_eq_true_2 by done. cbn [ASSERT mbind outcome_bind].
  assert (ordered r running) as Ho by (intros b c Hb; rewrite He in Hb; by apply elem_of_nil in Hb).
  destruct (move_round now r running a tm Hi Ho Ha Hmin Htm Hdue) as (r1 & -> & Hs1 & Hz & Hi1 & Ho1 & He1 & Ht1 & Hl1).
  cbn [mbind outcome_bind]. pose proof (running_size _ _ _ _ _ Hi1) as Hsz.
  destruct (move_first_loop_ok (S (size (timers r1))) now (absTime tm) r1 _ Hi1 Ho1 ltac:(lia) Hdue) as (r' & running' & l & -> & Hs & Hi' & He' & Hm').
  { intros b t Hb Hbt. destruct (only_moved_inv _ _ _ _ Ht1 Hbt) as (t0 & Ht0 & -> & _). apply elem_of_remove_node in Hb as [Hb Hne]; [|by apply Hi].
    pose proof (compare_timers_time _ _ (Hmin b Hb Hne)) as Hle. unfold key in Hle. rewrite Htm, Ht0 in Hle. done. }
  exists r', running'. split_and!; [done|by eapply same_rest_trans|done|rewrite He', He1, He; done|by eapply only_moved_trans].
Qed.

(** *** Limits *)
Lemma reset_limits_ok n : forall r, limits_inv (limits r) (active_limits_list r) -> n = length (active_limits_list r) ->
  exists m, reset_limits n r = Ok (set_limits [] m r) /\ limits_inv m [] /\ (forall a o, m !! a = Some o -> count o = 0).
Proof.
  induction n as [|n IH]; intros r [Hn Ha Hc] Hl; destruct (active_limits_list r) as [|a l] eqn:El; try done.
  - exists (limits r). cbn. rewrite El. split_and!; [|done|].
    + f_equal. destruct r. cbn in *. by rewrite El.
    + intros b o Hb. pose proof (Hc b o Hb). destruct (decide (0 < count o)) as [Hp|]; [|lia].
      assert (b ∈ @nil loc) as Hx%elem_of_nil by (apply Ha; eauto). done.
  - cbn [reset_limits]. rewrite El. assert (a ∈ a :: l) as (o & Ho & Hp)%Ha by (by left).
    unfold get_limit. rewrite Ho. cbn [mbind outcome_bind of_option]. apply Z.ltb_lt in Hp as Hp'. rewrite Hp'. cbn [ASSERT mbind outcome_bind].
    cbn [LinkedList1.remove_node]. rewrite decide_True by done. apply NoDup_cons in Hn as [Hna Hn].
    destruct (IH (set_limits l (<[a := mkLimit (limit o) 0]> (limits r)) r)) as (m & Hm & Hi & H0); [|cbn in *; lia|].
    + constructor; [done| |].
      * intros b. cbn. destruct (decide (a = b)) as [->|Hne].
        -- rewrite lookup_insert_eq. split; [done|]. intros (? & [= <-] & ?). done.
        -- rewrite lookup_insert_ne, <- Ha, elem_of_cons by done. naive_solver.
      * intros b x. cbn. destruct (decide (a = b)) as [->|Hne]; [rewrite lookup_insert_eq; by intros [= <-]|].
        rewrite lookup_insert_ne by done. apply Hc.
    + exists m. by split_and!.
Qed.

(** *** File descriptors *)
Lemma epoll_insert (m : gmap loc BFileDescriptor) a f : (forall b g, m !! b = Some g -> in_epoll g = active g) -> in_epoll f = active f ->
  forall b g, <[a := f]> m !! b = Some g -> in_epoll g = active g.
Proof. intros Hm Hf b g [[_ <-]|[_ Hg]]%lookup_insert_Some; [done|by eapply Hm]. Qed.

Lemma set_pointers_ok es : forall i r,
  (forall e, e ∈ es -> exists a f, ptr e = Some a /\ fds r !! a = Some f /\ active f = true /\ epoll_returned_ptr f = None) ->
  NoDup (map ptr es) -> (forall a f, fds r !! a = Some f -> in_epoll f = active f) ->
  exists m, set_epoll_fd_pointers i es r = Ok (set_fds m r) /\
    (forall a f, m !! a = Some f -> in_epoll f = active f) /\
    (forall j e a, es !! j = Some e -> ptr e = Some a -> exists f, m !! a = Some f /\ active f = true /\ epoll_returned_ptr f = Some (i + j)%nat) /\
    (forall a, (forall e, e ∈ es -> ptr e <> Some a) -> m !! a = fds r !! a).
Proof.
  induction es as [|e es IH]; intros i r Hes Hn Hk.
  - exists (fds r). split_and!; [by destruct r|done|done|done].
  - cbn [set_epoll_fd_pointers]. destruct (Hes e) as (a & f & Hp & Hf & Hact & Hret); [by left|].
    cbn [map] in Hn. apply NoDup_cons in Hn as [Hne Hn]. rewrite Hp. cbn [mbind outcome_bind of_option].
    unfold put_returned, get_fd. rewrite Hf. cbn [mbind outcome_bind of_option].
    rewrite Hact, bool_decide_eq_true_2 by done. cbn [ASSERT mbind outcome_bind].
    assert (forall e', e' ∈ es -> ptr e' <> Some a) as Hother.
    { intros e' He' E. apply Hne. rewrite Hp, <- E. apply list_elem_of_fmap. eauto. }
    destruct (IH (S i) (set_fds (<[a := mkFd true (waitEvents f) (Some i) (in_epoll f)]> (fds r)) r))
      as (m & -> & Hm0 & Hm1 & Hm2); [|done| |].
    + intros e' He'. destruct (Hes e') as (b & g & Hb & Hg & Hga & Hgr); [by right|]. exists b, g. cbn.
      rewrite lookup_insert_ne; [done|]. intros ->. by destruct (Hother e').
    + apply epoll_insert; [done|]. cbn. rewrite <- Hact. by apply (Hk a).
    + exists m. split_and!; [done|done| |].
      * intros [|j] e' b He' Hb.
        -- cbn in He'. injection He' as <-. rewrite Hp in Hb. injection Hb as <-. rewrite Hm2 by done. cbn.
           rewrite lookup_insert_eq, Nat.add_0_r. eauto.
        -- cbn in He'. rewrite Nat.add_succ_r. by apply (Hm1 j e').
      * intros b Hb. rewrite Hm2 by (intros e' He'; apply Hb; by right). cbn. apply lookup_insert_ne. intros ->. by apply (Hb e); [left|].
Qed.

(** *** Waiting *)

(** Something is there to be dispatched. *)
Definition ready (r : BReactor) : Prop := timers_expired_list r <> [] \/ (epoll_results_pos r < epoll_results_num r)%nat.

Definition first_time (r : BReactor) (timeout_abs : option Z) (now : Z) : Prop :=
  match timeout_abs with
  | Some t => exists a tm, tree_first (timers_tree r) = Ok (Some a) /\ timers r !! a = Some tm /\ absTime tm = t /\ now < t
  | None => True
  end.

Lemma results_ok r l fin : inv fin r -> epoll_results r = [] ->
  NoDup (map fst l) -> Forall (registered r) (map fst l) -> l <> [] ->
  let es := map (fun x => mkEvent (Some (fst x)) (snd x)) l in
  exists r', set_epoll_fd_pointers 0 es (set_results es 0 r) = Ok r' /\ inv fin r' /\ ready r' /\ exiting r' = exiting r /\ only_moved r r'.
Proof.
  intros [Ht Hf Hl Hj] Hr Hnd Hact Hne es.
  assert (forall a f, fds r !! a = Some f -> active f = true -> epoll_returned_ptr f = None) as Hnone.
  { intros a f Ha Hx. destruct (epoll_returned_ptr f) as [j|] eqn:E; [|done]. destruct (fi_back _ _ _ Hf a f j Ha Hx E) as (_ & e & He & _).
    by rewrite Hr in He. }
  destruct (set_pointers_ok es 0 (set_results es 0 r)) as (m & -> & Hm0 & Hm1 & Hm2).
  - intros e (x & -> & Hx)%list_elem_of_fmap. rewrite Forall_forall in Hact. destruct (Hact (fst x)) as (f & Hfx & Hfa).
    { apply list_elem_of_fmap. eauto. }
    rewrite (fi_epoll _ _ _ Hf _ _ Hfx) in Hfa.
    exists (fst x), f. split_and!; [done|done|done|by apply (Hnone (fst x))].
  - unfold es. rewrite map_map. cbn. rewrite <- (map_map fst Some). apply NoDup_fmap_2; [apply _|done].
  - apply Hf.
  - eexists. split; [done|]. assert (length es = length l) as Hlen by apply length_map. split_and!; [constructor; cbn; [done| |done|done]| |done|exact (only_moved_refl r)].
    + constructor; [lia| | |exact Hm0].
      * intros j e a _ He Hp. by apply (Hm1 j e a).
      * intros a f j Ha Hx Hj'. split; [lia|]. destruct (decide (Some a ∈ map ptr es)) as [(e & Hp & He)%list_elem_of_fmap|Hno].
        -- apply list_elem_of_lookup in He as (k & Hk). destruct (Hm1 k e a Hk (eq_sym Hp)) as (g & Hg & _ & Hgr).
           rewrite Ha in Hg. injection Hg as <-. rewrite Hj' in Hgr. injection Hgr as ->. eauto.
        -- rewrite Hm2 in Ha by (intros e He E; apply Hno, list_elem_of_fmap; eauto). cbn in Ha. rewrite (Hnone a f Ha Hx) in Hj'. done.
    + right. unfold epoll_results_num. cbn. rewrite Hlen. destruct l; [done|cbn; lia].
Qed.

Lemma inv_moved now r r' running : inv now r -> same_rest r r' ->
  timers_inv now (timers r') (timers_tree r') running (timers_expired_list r') -> inv now r'.
Proof.
  intros [_ Hf Hl Hj] [S1 S2 S3 S4 S5 S6 S7 S8] Ht. constructor; [eauto|by rewrite S6, S7, S8|by rewrite S4, S5|by rewrite S3].
Qed.

Lemma first_moved r fin t now : inv fin r -> timers_expired_list r = [] -> first_time r (Some t) now -> t <= fin ->
  exists r', move_first_timers r = Ok r' /\ inv fin r' /\ ready r' /\ exiting r' = exiting r /\ only_moved r r'.
Proof.
  intros Hi He (a & tm & Hf & Htm & <- & _) Hle. pose proof Hi as [[running Ht] _ _ _].
  destruct (move_first_ok fin r running a tm Ht He Hf Htm Hle) as (r' & running' & -> & Hs & Ht' & Hne & Hm).
  exists r'. split_and!; [done|by eapply inv_moved|by left|apply Hs|done].
Qed.

Lemma wait_loop_ok ws fin : forall timeout_abs now r, inv fin r -> timers_expired_list r = [] -> epoll_results r = [] ->
  first_time r timeout_abs now -> waits_ok r timeout_abs now fin ws ->
  exists m, wait_loop ws timeout_abs now r = Ok m /\
    match m with Some r' => inv fin r' /\ ready r' /\ exiting r' = exiting r /\ only_moved r r' | None => True end.
Proof.
  induction ws as [|w ws IH]; intros timeout_abs now r Hi He Hr Hft Hw; [by exists None|]. cbn [wait_loop].
  assert (forall now', now <= now' <= fin -> waits_ok r timeout_abs now' fin ws -> exists m,
    try_again timeout_abs now' (wait_loop ws timeout_abs now' r) r = Ok m /\ match m with Some r' => inv fin r' /\ ready r' /\ exiting r' = exiting r /\ only_moved r r' | None => True end) as Htry.
  { intros now' Hn Hws. unfold try_again. destruct timeout_abs as [t|]; [|by apply IH]. destruct (t <=? now') eqn:E; zify_bool.
    - destruct (first_moved r fin t now Hi He Hft ltac:(lia)) as (r' & -> & H). cbn. eauto.
    - apply IH; try done. destruct Hft as (a & tm & ? & ? & ? & ?). exists a, tm. split_and!; try done; lia. }
  destruct w as [now'|now'|l|]; cbn [waits_ok] in Hw; [| | |done].
  - destruct Hw. by apply Htry.
  - destruct timeout_abs as [t|]; [|by destruct Hw]. destruct Hw as [Hn Hw]. cbn [ASSERT].
    rewrite bool_decide_eq_true_2 by done. cbn [ASSERT mbind outcome_bind].
    pose proof Hft as (a & tm & _ & _ & _ & Hlt). destruct (INT_MAX <? t - now) eqn:E; zify_bool.
    + destruct (INT_MAX =? t - now) eqn:E'; zify_bool; [lia|]. apply Htry; [|done]. unfold INT_MAX in *. lia.
    + rewrite Z.eqb_refl. destruct (first_moved r fin t now Hi He Hft ltac:(lia)) as (r' & -> & H). cbn. eauto.
  - destruct Hw as (Hne & Hnd & Hact & Hlen). apply Z.leb_le in Hlen as ->. cbn [ASSERT mbind outcome_bind].
    destruct (results_ok r l fin Hi Hr Hnd Hact Hne) as (r' & -> & H). cbn. eauto.
Qed.

Lemma inv_cleared now r : inv now r -> epoll_results_pos r = epoll_results_num r -> inv now (set_results [] 0 r).
Proof.
  intros [Ht Hf Hl Hj] Hpos. constructor; cbn; [done| |done|done]. constructor; [done|done| |apply Hf].
  intros a f j Ha Hx Hr. destruct (fi_back _ _ _ Hf a f j Ha Hx Hr) as (Hle & e & He & _).
  apply lookup_lt_Some in He. unfold epoll_results_num in Hpos. lia.
Qed.

Lemma inv_mono now now' r : now <= now' -> inv now r -> inv now' r.
Proof. intros Hn [[running Ht] Hf Hl Hj]. constructor; [|done..]. exists running. by eapply timers_inv_mono. Qed.

Lemma wait_for_events_ok now fin ws r : inv now r -> idle r -> 0 <= now <= fin ->
  (forall first, tree_first (timers_tree r) = Ok first -> waits_ok r (first ≫= fun a => absTime <$> timers r !! a) now fin ws) ->
  exists r' done, wait_for_events now ws r = Ok (r', done) /\ inv fin r' /\ (done = true -> ready r') /\ exiting r' = false /\ none_due now r' /\ only_moved r r'.
Proof.
  intros Hi (Hx & Hj & He & Hpos) Hn Hw. unfold wait_for_events.
  rewrite !bool_decide_eq_true_2 by done. cbn [ASSERT mbind outcome_bind].
  pose proof (inv_cleared now r Hi Hpos) as Hi0. set (r0 := set_results [] 0 r) in *.
  pose proof Hi0 as [[running Ht] _ _ _]. change (timers_tree r) with (timers_tree r0) in Hw.
  destruct (first_ok _ _ _ _ _ Ht) as (first & Hf & Hmin). rewrite Hf. specialize (Hw first Hf). cbn [mbind outcome_bind].
  set (finish := fun m : option BReactor => match m with None => Ok (r0, false) | Some r => reset_limits (length (active_limits_list r)) r ≫= fun r => Ok (r, true) end).
  assert (forall m, none_due now r0 -> match m with Some r' => inv fin r' /\ ready r' /\ exiting r' = exiting r0 /\ only_moved r0 r' | None => True end ->
    exists r' done, finish m = Ok (r', done) /\ inv fin r' /\ (done = true -> ready r') /\ exiting r' = false /\ none_due now r' /\ only_moved r r') as Hfin.
  { intros [r1|] Hnd H1; [|exists r0, false; split_and!; [done|by apply (inv_mono now); [lia|]|done|done|done|exact (only_moved_refl r)]].
    destruct H1 as ([G1 G2 G3 G4] & H2 & H3 & H5). destruct (reset_limits_ok _ r1 G3 eq_refl) as (m & Hm & Hlm & _).
    cbn. rewrite Hm. cbn. exists (set_limits [] m r1), true. split_and!; [done|by constructor|done|by cbn; rewrite H3|by apply (none_due_moved now r0)|exact H5]. }
  assert (forall t ws now, waits_ok r t now fin ws -> waits_ok r0 t now fin ws) as Hws.
  { clear. intros t ws. induction ws as [|[?|?|?|] ws IH]; intros n; cbn; naive_solver. }
  destruct first as [a|].
  - destruct Hmin as (Ha & (tm & Htm & Hst) & Hmin). unfold get_timer. rewrite Htm. cbn [mbind outcome_bind of_option].
    rewrite bool_decide_eq_true_2 by done. cbn [ASSERT mbind outcome_bind].
    assert (ordered r0 running) as Ho by (intros b c Hb; cbn in Hb; rewrite He in Hb; by apply elem_of_nil in Hb).
    pose proof (running_size _ _ _ _ _ Ht) as Hsz.
    destruct (move_expired_loop_ok (S (size (timers r0))) now false r0 running Ht Ho ltac:(lia)) as (r1 & moved & running1 & l & Hm & Hs & Ht1 & He1 & Hmv & Hl & Hnd & Hmoved).
    unfold move_expired_timers. rewrite Hm. cbn [mbind outcome_bind]. cbn in He1. rewrite He in He1. cbn in He1. destruct moved.
    + destruct Hmv as [Hmv _]. specialize (Hmv eq_refl). exists r1, true. split_and!; [done|..].
      * apply (inv_mono now); [lia|]. by eapply inv_moved.
      * intros _. left. rewrite He1. destruct Hmv; done.
      * by rewrite (sr_exiting _ _ Hs).
      * done.
      * exact Hmoved.
    + assert (l = []) as -> by (destruct l; [done|by destruct Hmv as [_ Hmv]; discriminate Hmv; right]).
      rewrite (Hl eq_refl) in Hnd |- *.
      destruct (wait_loop_ok ws fin (Some (absTime tm)) now r0) as (m & -> & H); [by apply (inv_mono now); [lia|]|done|done| | |by apply Hfin].
      * exists a, tm. split_and!; [done|done|done|by apply (Hnd a)].
      * apply Hws. cbn in Hw. change (timers r) with (timers r0) in Hw. by rewrite Htm in Hw.
  - destruct (wait_loop_ok ws fin None 0 r0) as (m & -> & H); [by apply (inv_mono now); [lia|]|done|done|done| |apply Hfin; [|done]].
    2:{ intros a t Hat Hrun. assert (a ∈ running) as Hin by (apply (ti_running _ _ _ _ _ Ht); by exists t). subst running. by apply elem_of_nil in Hin. }
    apply Hws. cbn in Hw. destruct ws as [|[n|n|l|] ws]; cbn in *; [done| |done|done|done]. destruct Hw. split; [lia|done].
Qed.

(** *** Operations *)
Lemma timers_put_inactive now m t running expired a tm : timers_inv now m t running expired ->
  a ∉ running -> a ∉ expired -> tstate tm = TIMER_STATE_INACTIVE -> timers_inv now (<[a := tm]> m) t running expired.
Proof.
  intros [H1 H2 H3 H4 H5 H6 H7] Hr He Hs.
  assert (forall b, b ∈ running \/ b ∈ expired -> key (<[a := tm]> m) b = key m b) as Hk.
  { intros b Hb. apply key_insert_ne. intros ->. tauto. }
  constructor; [|done| |done| | |].
  - apply (holds_same m); [auto|done].
  - intros b. rewrite in_state_insert, H3, Hs. split; [|naive_solver]. intros Hb. right. split; [|done]. intros ->. by apply Hr, H3.
  - intros b. rewrite in_state_insert, H5, Hs. split; [|naive_solver]. intros Hb. right. split; [|done]. intros ->. by apply He, H5.
  - apply (sorted_same m); [auto|done].
  - intros b x Hb Hx. destruct (decide (a = b)) as [->|Hne]; [rewrite lookup_insert_eq in Hb; congruence|].
    rewrite lookup_insert_ne in Hb by done. by eapply H7.
Qed.

Lemma not_listed now m t running expired a tm : timers_inv now m t running expired -> m !! a = Some tm ->
  (tstate tm <> TIMER_STATE_RUNNING -> a ∉ running) /\ (tstate tm <> TIMER_STATE_EXPIRED -> a ∉ expired).
Proof.
  intros [_ _ H3 _ H5 _ _] Ha. split; intros Hs.
  - intros (x & Hx & ?)%H3. congruence.
  - intros (x & Hx & ?)%H5. congruence.
Qed.

Lemma same_timers_inv now r r' running : inv now r -> timers_inv now (timers r') (timers_tree r') running (timers_expired_list r') ->
  fds r' = fds r -> epoll_results r' = epoll_results r -> epoll_results_pos r' = epoll_results_pos r ->
  limits r' = limits r -> active_limits_list r' = active_limits_list r -> pending_jobs r' = pending_jobs r -> inv now r'.
Proof. intros [_ H2 H3 H4] Ht E1 E2 E3 E4 E5 E6. constructor; [eauto|by rewrite E1, E2, E3|by rewrite E4, E5|by rewrite E6]. Qed.

Lemma remove_timer_ok now r a : inv now r -> is_Some (timers r !! a) ->
  exists r', BReactor_RemoveSmallTimer a r = Ok r' /\ inv now r' /\
    (exists tm, timers r' !! a = Some tm /\ tstate tm = TIMER_STATE_INACTIVE) /\ same_rest r r'.
Proof.
  intros Hi [tm Htm]. pose proof Hi as [[running Ht] _ _ _]. destruct (not_listed _ _ _ _ _ a tm Ht Htm) as [N1 N2].
  unfold BReactor_RemoveSmallTimer, put_state, get_timer. rewrite Htm. cbn [mbind outcome_bind of_option].
  destruct (tstate tm) eqn:Es.
  - exists r. split_and!; [done|done|eauto|apply same_rest_refl].
  - pose proof Ht as [H1 H2 H3 H4 H5 H6 H7]. assert (a ∈ running) as Ha by (apply H3; exists tm; done).
    destruct (tree_remove_ok _ _ _ _ H1 Ha) as (tr & -> & Hh). cbn. rewrite Htm. cbn. eexists. split; [done|].
    split; [|split; [|by constructor]].
    + apply (same_timers_inv now r _ (LinkedList1.remove_node a running)); [done| |done..]. cbn.
      assert (a ∉ LinkedList1.remove_node a running) as Hna by (rewrite elem_of_remove_node by done; naive_solver).
      assert (forall b, key (<[a := mkTimer (absTime tm) TIMER_STATE_INACTIVE (is_small tm)]> (timers r)) b = key (timers r) b) as Hk
        by (intros b; by eapply key_same).
      constructor; [by apply (holds_same (timers r))|by apply nodup_remove_node| |done| |by apply (sorted_same (timers r))|].
      * intros b. rewrite elem_of_remove_node, H3, in_state_insert by done. cbn. naive_solver.
      * intros b. rewrite H5, in_state_insert. cbn. split; [|naive_solver]. intros Hb. right. split; [|done]. intros ->.
        destruct Hb as (x & Hx & ?). congruence.
      * intros b x Hb Hx. destruct (decide (a = b)) as [->|Hne]; [rewrite lookup_insert_eq in Hb; injection Hb as <-; done|].
        rewrite lookup_insert_ne in Hb by done. by eapply H7.
    + cbn. rewrite lookup_insert_eq. eauto.
  - pose proof Ht as [H1 H2 H3 H4 H5 H6 H7]. cbn. rewrite Htm. cbn. eexists. split; [done|].
    split; [|split; [|by constructor]].
    + apply (same_timers_inv now r _ running); [done| |done..]. cbn.
      assert (forall b, key (<[a := mkTimer (absTime tm) TIMER_STATE_INACTIVE (is_small tm)]> (timers r)) b = key (timers r) b) as Hk
        by (intros b; by eapply key_same).
      constructor; [by apply (holds_same (timers r))|done| |by apply nodup_remove_node| |apply (sorted_same (timers r)); [done|by apply expired_remove_node]|].
      * intros b. rewrite H3, in_state_insert. cbn. split; [|naive_solver]. intros Hb. right. split; [|done]. intros ->.
        destruct Hb as (x & Hx & ?). congruence.
      * intros b. rewrite elem_of_remove_node, H5, in_state_insert by done. cbn. naive_solver.
      * intros b x Hb Hx. destruct (decide (a = b)) as [->|Hne]; [rewrite lookup_insert_eq in Hb; injection Hb as <-; done|].
        rewrite lookup_insert_ne in Hb by done. by eapply H7.
    + cbn. rewrite lookup_insert_eq. eauto.
Qed.

(** A timer that is set runs, with the time it was set to. *)
Lemma set_timer_ok now r a mode time t0 : inv now r -> is_Some (timers r !! a) ->
  exists r' tm, BReactor_SetSmallTimer a mode time t0 r = Ok r' /\ inv now r' /\ same_rest r r' /\ timers r' !! a = Some tm /\
    tstate tm = TIMER_STATE_RUNNING /\
    absTime tm = match mode with BTIMER_SET_RELATIVE => btime_add t0 time | BTIMER_SET_ABSOLUTE => time end.
Proof.
  intros Hi Hex. destruct (remove_timer_ok now r a Hi Hex) as (r1 & Hr & Hi1 & (tm & Htm & Hst) & Hs1).
  unfold BReactor_SetSmallTimer. rewrite Hr. cbn [mbind outcome_bind]. unfold get_timer. rewrite Htm. cbn [mbind outcome_bind of_option].
  set (time' := match mode with BTIMER_SET_ABSOLUTE => time | BTIMER_SET_RELATIVE => btime_add t0 time end).
  pose proof Hi1 as [[running Ht] _ _ _]. destruct (not_listed _ _ _ _ _ a tm Ht Htm) as [N1 N2].
  rewrite Hst in N1, N2. specialize (N1 ltac:(done)). specialize (N2 ltac:(done)). pose proof Ht as [H1 H2 H3 H4 H5 H6 H7].
  set (new := mkTimer time' TIMER_STATE_RUNNING (is_small tm)).
  assert (forall b, b ∈ running \/ b ∈ timers_expired_list r1 -> key (<[a := new]> (timers r1)) b = key (timers r1) b) as Hk.
  { intros b Hb. apply key_insert_ne. intros ->. tauto. }
  destruct (tree_insert_ok (key (<[a := new]> (timers r1))) (timers_tree r1) running a) as (tr & Hins & Hh).
  { apply (holds_same (timers r1)); [auto|done]. }
  { done. }
  { intros b Hb. apply compare_timers_ne. cbn. intros ->. done. }
  cbn. rewrite Hins. cbn. eexists _, new. split; [done|]. split_and!.
  - apply (same_timers_inv now r1 _ (a :: running)); [done| |done..]. cbn. constructor.
    + done.
    + by constructor.
    + intros b. rewrite elem_of_cons, in_state_insert, H3. cbn. split.
      * intros [->|Hb]; [by left|right]. split; [|done]. intros ->. by apply N1, H3.
      * intros [[-> _]|[_ ?]]; auto.
    + done.
    + intros b. rewrite H5, in_state_insert. cbn. split; [|naive_solver]. intros Hb. right. split; [|done]. intros ->. by apply N2, H5.
    + apply (sorted_same (timers r1)); [auto|done].
    + intros b x Hb Hx. destruct (decide (a = b)) as [->|Hne]; [rewrite lookup_insert_eq in Hb; by injection Hb as <-|].
      rewrite lookup_insert_ne in Hb by done. by eapply H7.
  - eapply same_rest_trans; [exact Hs1|by constructor].
  - apply lookup_insert_eq.
  - done.
  - done.
Qed.

Lemma init_timer_ok now r a small : inv now r -> allowed r (TimerInit a small) -> inv now (BSmallTimer_Init a small r).
Proof.
  intros Hi Ha. pose proof Hi as [[running Ht] _ _ _]. apply (same_timers_inv now r _ running); [done| |done..]. cbn.
  apply timers_put_inactive; [done| | |done].
  - intros (t & Hx & Hs)%(ti_running _ _ _ _ _ Ht). apply Ha in Hx. congruence.
  - intros (t & Hx & Hs)%(ti_expired _ _ _ _ _ Ht). apply Ha in Hx. congruence.
Qed.

Lemma fds_put m es pos a f : fds_inv m es pos -> (forall g, m !! a = Some g -> active g = false) ->
  (active f = true -> epoll_returned_ptr f = None) -> in_epoll f = active f -> fds_inv (<[a := f]> m) es pos.
Proof.
  intros [H1 H2 H3 H4] Ha Hf Hk. constructor; [done| | |by apply epoll_insert].
  - intros i e b Hi He Hb. destruct (H2 i e b Hi He Hb) as (g & Hg & Hga & Hgp). exists g. split_and!; [|done..].
    rewrite lookup_insert_ne; [done|]. intros ->. apply Ha in Hg. congruence.
  - intros b g i Hb Hg Hp. destruct (decide (a = b)) as [->|Hne].
    + rewrite lookup_insert_eq in Hb. injection Hb as <-. rewrite Hf in Hp by done. done.
    + rewrite lookup_insert_ne in Hb by done. by apply (H3 b g i).
Qed.

Lemma fds_keep m es pos a f f' : fds_inv m es pos -> m !! a = Some f -> active f' = active f ->
  epoll_returned_ptr f' = epoll_returned_ptr f -> in_epoll f' = active f' -> fds_inv (<[a := f']> m) es pos.
Proof.
  intros [H1 H2 H3 H4] Ha E1 E2 Hk. constructor; [done| | |by apply epoll_insert].
  - intros i e b Hi He Hb. destruct (H2 i e b Hi He Hb) as (g & Hg & Hga & Hgp). destruct (decide (a = b)) as [->|Hne].
    + rewrite lookup_insert_eq. exists f'. split_and!; congruence.
    + rewrite lookup_insert_ne by done. by exists g.
  - intros b g i Hb Hg Hp. destruct (decide (a = b)) as [->|Hne].
    + rewrite lookup_insert_eq in Hb. injection Hb as <-. apply (H3 b f i); congruence.
    + rewrite lookup_insert_ne in Hb by done. by apply (H3 b g i).
Qed.

(** A descriptor that is removed has no entry any more. *)
Lemma fds_removed m es pos a f i e ev : fds_inv m es pos -> m !! a = Some f -> active f = true ->
  epoll_returned_ptr f = Some i -> es !! i = Some e ->
  fds_inv (<[a := mkFd false (waitEvents f) (Some i) false]> m) (<[i := mkEvent None ev]> es) pos.
Proof.
  intros [H1 H2 H3 H4] Ha Hact Hp He. constructor; [by rewrite length_insert| | |by apply epoll_insert].
  - intros j e' b Hj Hj' Hb. destruct (decide (i = j)) as [->|Hne].
    + rewrite list_lookup_insert_eq in Hj' by (by eapply lookup_lt_Some). injection Hj' as <-. done.
    + rewrite list_lookup_insert_ne in Hj' by done. destruct (H2 j e' b Hj Hj' Hb) as (g & Hg & Hga & Hgp). exists g.
      split_and!; [|done..]. rewrite lookup_insert_ne; [done|]. intros ->. rewrite Ha in Hg. congruence.
  - intros b g j Hb Hg Hgp. destruct (decide (a = b)) as [->|Hne].
    + rewrite lookup_insert_eq in Hb. by injection Hb as <-.
    + rewrite lookup_insert_ne in Hb by done. destruct (H3 b g j Hb Hg Hgp) as (Hj & e' & He' & Hpe). split; [done|].
      exists e'. split; [|done]. rewrite list_lookup_insert_ne; [done|]. intros ->.
      destruct (H3 a f j Ha Hact Hp) as (_ & e'' & He'' & Hpe'). congruence.
Qed.

Lemma remove_fd_ok now r a : inv now r -> is_active r a -> exists r', BReactor_RemoveFileDescriptor a r = Ok r' /\ inv now r' /\ ~ is_active r' a.
Proof.
  intros [Ht Hf Hl Hj] (f & Ha & Hact). unfold BReactor_RemoveFileDescriptor, get_fd. rewrite Ha. cbn. rewrite Hact. cbn.
  rewrite (fi_epoll _ _ _ Hf _ _ Ha), Hact. cbn.
  assert (forall m m', m = <[a := m']> (fds r) -> active m' = false -> ~ exists f, m !! a = Some f /\ active f = true) as Hgone.
  { intros m m' -> Hm (g & Hg & Hga). rewrite lookup_insert_eq in Hg. congruence. }
  destruct (epoll_returned_ptr f) as [i|] eqn:Ep; cbn.
  - destruct (fi_back _ _ _ Hf a f i Ha Hact Ep) as (_ & e & He & _). rewrite He. cbn. eexists. split; [done|].
    split; [constructor; cbn; [done|by eapply fds_removed|done|done]|by eapply Hgone].
  - eexists. split; [done|]. split; [|by eapply Hgone]. constructor; cbn; [done| |done|done]. pose proof Hf as [H1 H2 H3 H4]. constructor; [done| | |by apply epoll_insert].
    + intros j e b Hj' He Hb. destruct (H2 j e b Hj' He Hb) as (g & Hg & Hga & Hgp). exists g. split_and!; [|done..].
      rewrite lookup_insert_ne; [done|]. intros ->. rewrite Ha in Hg. congruence.
    + intros b g j Hb Hg Hgp. destruct (decide (a = b)) as [->|Hne]; [rewrite lookup_insert_eq in Hb; by injection Hb as <-|].
      rewrite lookup_insert_ne in Hb by done. by apply (H3 b g j).
Qed.

Lemma limits_put m l a o : limits_inv m l -> 0 <= count o -> (a ∈ l <-> 0 < count o) -> limits_inv (<[a := o]> m) l.
Proof.
  intros [H1 H2 H3] Ho Ha. constructor; [done| |].
  - intros b. destruct (decide (a = b)) as [->|Hne].
    + rewrite lookup_insert_eq, Ha. naive_solver.
    + rewrite lookup_insert_ne by done. apply H2.
  - intros b x Hb. destruct (decide (a = b)) as [->|Hne]; [rewrite lookup_insert_eq in Hb; congruence|].
    rewrite lookup_insert_ne in Hb by done. by eapply H3.
Qed.

Lemma limit_free_ok m l a o : limits_inv m l -> m !! a = Some o ->
  limits_inv (delete a m) (if 0 <? count o then LinkedList1.remove_node a l else l).
Proof.
  intros [H1 H2 H3] Ha.
  assert (forall b, b ∈ (if 0 <? count o then LinkedList1.remove_node a l else l) <-> b ∈ l /\ b <> a) as Hb.
  { intros b. destruct (0 <? count o) eqn:E; [by apply elem_of_remove_node|]. split; [|naive_solver]. intros Hb. split; [done|].
    intros ->. apply H2 in Hb as (x & Hx & Hc). rewrite Ha in Hx. injection Hx as <-. zify_bool. lia. }
  constructor; [destruct (0 <? count o); [by apply nodup_remove_node|done]| |].
  - intros b. rewrite Hb, H2. split.
    + intros [(x & Hx & Hc) Hne]. exists x. by rewrite lookup_delete_ne by done.
    + intros (x & Hx & Hc). apply lookup_delete_Some in Hx as [Hne Hx]. split; [eauto|done].
  - intros b x Hx. apply lookup_delete_Some in Hx as [_ Hx]. by eapply H3.
Qed.

(** An increment that is refused changes nothing; one that is not counts. *)
Lemma limit_increment_ok m l a o : limits_inv m l -> m !! a = Some o ->
  limits_inv (<[a := mkLimit (limit o) (count o + 1)]> m) (if count o + 1 =? 1 then l ++ [a] else l).
Proof.
  intros H Ha. pose proof H as [H1 H2 H3]. pose proof (H3 a o Ha) as Hc. destruct (count o + 1 =? 1) eqn:E; zify_bool.
  - assert (a ∉ l) as Hna by (intros (x & Hx & ?)%H2; rewrite Ha in Hx; injection Hx as <-; lia).
    constructor; [apply NoDup_app; split_and!; [done|set_solver|apply NoDup_singleton]| |].
    + intros b. rewrite elem_of_app, list_elem_of_singleton, H2. destruct (decide (a = b)) as [->|Hne].
      * rewrite lookup_insert_eq. split; [|by auto]. intros _. eexists. split; [done|]. cbn. lia.
      * rewrite lookup_insert_ne by done. naive_solver.
    + intros b x Hb. destruct (decide (a = b)) as [->|Hne]; [rewrite lookup_insert_eq in Hb; injection Hb as <-; cbn; lia|].
      rewrite lookup_insert_ne in Hb by done. by eapply H3.
  - apply limits_put; [done|cbn; lia|]. cbn. split; [lia|]. intros _. apply H2. exists o. split; [done|lia].
Qed.

Lemma inv_set_limits now r l m : inv now r -> limits_inv m l -> inv now (set_limits l m r).
Proof. intros [H1 H2 H3 H4] H. by constructor. Qed.
Lemma inv_set_fds now r m : inv now r -> fds_inv m (epoll_results r) (epoll_results_pos r) -> inv now (set_fds m r).
Proof. intros [H1 H2 H3 H4] H. by constructor. Qed.
Lemma inv_set_jobs now r l : inv now r -> NoDup l -> inv now (set_jobs l r).
Proof. intros [H1 H2 H3 H4] H. by constructor. Qed.

(** A function that is called as its contract says keeps the invariant. *)
Lemma perform_ok now r o : inv now r -> allowed r o -> exists r', perform o r = Ok r' /\ inv now r'.
Proof.
  intros Hi Ha. pose proof Hi as [_ Hf Hl Hj]. destruct o as [a small|a mode time t0|a|a|a ok|a|a evs|a|a n|a|a|a n|a|a|code]; cbn [perform].
  - eexists. split; [done|]. by apply init_timer_ok.
  - destruct (set_timer_ok now r a mode time t0 Hi Ha) as (r' & tm & -> & H & _). eauto.
  - destruct (remove_timer_ok now r a Hi Ha) as (r' & -> & H & _). eauto.
  - eexists. split; [done|]. apply inv_set_fds; [done|]. apply fds_put; [done| |done|].
    + intros g Hg. destruct (active g) eqn:E; [|done]. destruct Ha. by exists g.
    + cbn. destruct (fds r !! a) as [g|] eqn:Hg; [|done]. cbn. rewrite (fi_epoll _ _ _ Hf _ _ Hg).
      destruct (active g) eqn:E; [|done]. destruct Ha. by exists g.
  - destruct Ha as [[f Hfa] Hna]. unfold BReactor_AddFileDescriptor, get_fd. rewrite Hfa. cbn.
    destruct (active f) eqn:E; [destruct Hna; by exists f|]. rewrite (fi_epoll _ _ _ Hf _ _ Hfa), E.
    destruct ok; cbn; [|eauto]. eexists. split; [done|].
    apply inv_set_fds; [done|]. apply fds_put; [done| |done|done]. intros g Hg. congruence.
  - destruct (remove_fd_ok now r a Hi Ha) as (r' & -> & H & _). eauto.
  - destruct Ha as [(f & Hfa & Hact) Hevs]. unfold BReactor_SetFileDescriptorEvents, get_fd. rewrite Hfa. cbn. rewrite Hact. cbn.
    assert (Z.land evs (Z.lnot (Z.lor BREACTOR_READ BREACTOR_WRITE)) =? 0 = true) as ->.
    { assert (evs = 0 \/ evs = 1 \/ evs = 2 \/ evs = 3) as [->|[->|[->| ->]]] by lia; done. }
    pose proof (fi_epoll _ _ _ Hf _ _ Hfa) as Hk. rewrite Hact in Hk.
    cbn. destruct (waitEvents f =? evs); [eauto|]. rewrite Hk. cbn. eexists. split; [done|]. apply inv_set_fds; [done|].
    eapply fds_keep; [done|done|done|done|done].
  - destruct Ha as [[f Hfa] Hna]. unfold close_descriptor, get_fd. rewrite Hfa. cbn. eexists. split; [done|].
    apply inv_set_fds; [done|]. eapply fds_keep; [done|done|done|done|]. cbn.
    destruct (active f) eqn:E; [destruct Hna; by exists f|done].
  - destruct Ha as [Ha Hn]. unfold BReactorLimit_Init. apply Z.ltb_lt in Hn as ->. cbn. eexists. split; [done|].
    apply inv_set_limits; [done|]. apply limits_put; [done|done|]. cbn. split; [|lia]. intros (x & Hx & _)%(li_active _ _ Hl). congruence.
  - destruct Ha as [x Hx]. unfold BReactorLimit_Free, get_limit. rewrite Hx. cbn. eexists. split; [done|].
    apply inv_set_limits; [done|]. by apply limit_free_ok.
  - destruct Ha as [x Hx]. unfold BReactorLimit_Increment, get_limit. rewrite Hx. cbn. destruct (limit x <=? count x); cbn; [eauto|].
    eexists. split; [done|]. apply inv_set_limits; [done|]. by apply limit_increment_ok.
  - destruct Ha as [[x Hx] Hn]. unfold BReactorLimit_SetLimit, get_limit. apply Z.ltb_lt in Hn as ->. cbn. rewrite Hx. cbn.
    eexists. split; [done|]. apply inv_set_limits; [done|]. apply limits_put; [done|cbn; by eapply (li_count _ _ Hl)|]. cbn.
    rewrite (li_active _ _ Hl). naive_solver.
  - eexists. split; [done|]. apply inv_set_jobs; [done|]. constructor; [|by apply nodup_remove_node].
    rewrite elem_of_remove_node by done. naive_solver.
  - eexists. split; [done|]. apply inv_set_jobs; [done|]. by apply nodup_remove_node.
  - eexists. split; [done|]. destruct Hi. by constructor.
Qed.

(** ** Dispatching *)

(** A timer that is not called is armed as long as it was. *)
Definition keeps (a : loc) (r r' : BReactor) : Prop := option_Forall2 moved_timer (timers r !! a) (timers r' !! a).
Lemma keeps_same a r r' : timers r' !! a = timers r !! a -> keeps a r r'.
Proof. unfold keeps. intros ->. reflexivity. Qed.

(** What an iteration at [now] may do: the end of the loop only after a quit;
    jobs before anything else, the last one first; then the timer that expired
    first, not before its time and once; then a descriptor that is still
    registered, with an event it waits for, an error or a hang-up; a wait only when
    nothing is left, and when it is over there is something to dispatch and
    no timer that was due when it began still runs. *)
Definition dispatched (now : Z) (r : BReactor) (p : progress) (r' : BReactor) : Prop :=
  match p with
  | Exited code => exiting r = true /\ code = exit_code r
  | Called (CallJob a) => exiting r = false /\ pending_jobs r = a :: pending_jobs r'
  | Called (CallTimer a) => exiting r = false /\ pending_jobs r = [] /\
      in_state (timers r) a TIMER_STATE_EXPIRED /\ in_state (timers r') a TIMER_STATE_INACTIVE /\
      (forall t, timers r !! a = Some t -> absTime t <= now) /\
      (forall b, in_state (timers r) b TIMER_STATE_EXPIRED -> b <> a -> before (timers r) a b)
  | Called (CallFd a evs) => exiting r = false /\ pending_jobs r = [] /\ (forall b, ~ in_state (timers r) b TIMER_STATE_EXPIRED) /\
      exists f, fds r !! a = Some f /\ active f = true /\ evs <> 0 /\
        (has evs BREACTOR_READ = true -> has (waitEvents f) BREACTOR_READ = true) /\
        (has evs BREACTOR_WRITE = true -> has (waitEvents f) BREACTOR_WRITE = true)
  | Continued => exiting r = false /\ pending_jobs r = [] /\ (forall b, ~ in_state (timers r) b TIMER_STATE_EXPIRED) /\
      ((epoll_results_pos r < epoll_results_pos r')%nat \/ idle r /\ ready r' /\ none_due now r')
  | Waiting => idle r /\ none_due now r'
  end.

Lemma events_to_report_ok f e :
  (has (events_to_report f e) BREACTOR_READ = true -> has (waitEvents f) BREACTOR_READ = true) /\
  (has (events_to_report f e) BREACTOR_WRITE = true -> has (waitEvents f) BREACTOR_WRITE = true).
Proof.
  unfold events_to_report. destruct (has (waitEvents f) BREACTOR_READ), (has (waitEvents f) BREACTOR_WRITE),
    (has (events e) EPOLLIN), (has (events e) EPOLLOUT), (has (events e) EPOLLERR), (has (events e) EPOLLHUP); done.
Qed.

Lemma no_expired now r : inv now r -> timers_expired_list r = [] -> forall b, ~ in_state (timers r) b TIMER_STATE_EXPIRED.
Proof. intros [[running Ht] _ _ _] He b Hb. apply (ti_expired _ _ _ _ _ Ht) in Hb. rewrite He in Hb. by apply elem_of_nil in Hb. Qed.

Lemma fds_next m es pos a f f' e : fds_inv m es pos -> es !! pos = Some e -> ptr e = Some a -> m !! a = Some f ->
  active f' = true -> epoll_returned_ptr f' = None -> in_epoll f' = true -> fds_inv (<[a := f']> m) es (S pos).
Proof.
  intros [H1 H2 H3 H4] He Hp Ha Hact Hret Hk. apply lookup_lt_Some in He as Hlt.
  constructor; [lia| | |by apply epoll_insert; [|rewrite Hact]].
  - intros i e' b Hi He' Hb. destruct (H2 i e' b ltac:(lia) He' Hb) as (g & Hg & Hga & Hgp). exists g. split_and!; [|done..].
    rewrite lookup_insert_ne; [done|]. intros ->. destruct (H2 pos e b ltac:(lia) He Hp) as (g' & Hg' & _ & Hgp').
    rewrite Hg in Hg'. injection Hg' as <-. rewrite Hgp in Hgp'. injection Hgp' as ->. lia.
  - intros b g i Hb Hga Hgp. destruct (decide (a = b)) as [->|Hne].
    + rewrite lookup_insert_eq in Hb. injection Hb as <-. congruence.
    + rewrite lookup_insert_ne in Hb by done. destruct (H3 b g i Hb Hga Hgp) as (Hi & e' & He' & Hpe).
      split; [|eauto]. destruct (decide (i = pos)) as [->|]; [|lia]. congruence.
Qed.

Lemma dispatch_fd_ok now r e : inv now r -> exiting r = false -> pending_jobs r = [] -> timers_expired_list r = [] ->
  epoll_results r !! epoll_results_pos r = Some e ->
  exists r' p, dispatch_fd e r = Ok (r', p) /\ inv now r' /\ dispatched now r p r' /\ forall a, keeps a r r'.
Proof.
  intros Hi Hx Hjobs Hexp He. pose proof (no_expired now r Hi Hexp) as Hno. pose proof Hi as [Ht Hf Hl Hj].
  unfold dispatch_fd. destruct (ptr e) as [a|] eqn:Ep.
  - destruct (fi_entry _ _ _ Hf _ e a (le_n _) He Ep) as (f & Ha & Hact & Hret). unfold put_returned, get_fd. cbn. rewrite Ha. cbn.
    rewrite Hact, bool_decide_eq_true_2 by done. cbn. eexists _, _. split; [done|]. split.
    { constructor; cbn; [done| |done|done]. eapply fds_next; try done. cbn. rewrite <- Hact. by apply (fi_epoll _ _ _ Hf a). }
    split; [|intros b; by apply keeps_same].
    destruct (events_to_report f e =? 0) eqn:E; cbn.
    + split_and!; [done|done|done|]. left. lia.
    + zify_bool. split_and!; [done|done|done|]. exists f. destruct (events_to_report_ok f e). by split_and!.
  - eexists _, _. split; [done|]. split.
    + constructor; cbn; [done| |done|done]. destruct Hf as [H1 H2 H3 H4]. apply lookup_lt_Some in He as Hlt. constructor; [lia| | |done].
      * intros i e' b Hi'. apply H2. lia.
      * intros b g i Hb Hga Hgp. destruct (H3 b g i Hb Hga Hgp) as (Hi' & e' & He' & Hpe). split; [|eauto].
        destruct (decide (i = epoll_results_pos r)) as [->|]; [|lia]. congruence.
    + split; [|intros b; by apply keeps_same]. cbn. split_and!; [done|done|done|]. left. lia.
Qed.

Lemma dispatch_timer_ok now r a l : inv now r -> exiting r = false -> pending_jobs r = [] -> timers_expired_list r = a :: l ->
  exists tm r', timers r !! a = Some tm /\ tstate tm = TIMER_STATE_EXPIRED /\
    put_state a TIMER_STATE_INACTIVE (set_expired (LinkedList1.remove_node a (a :: l)) r) = Ok r' /\
    inv now r' /\ dispatched now r (Called (CallTimer a)) r' /\ forall b, b <> a -> keeps b r r'.
Proof.
  intros Hi Hx Hjobs Hexp. pose proof Hi as [[running Ht] _ _ _].
  assert (a ∈ timers_expired_list r) as Ha by (rewrite Hexp; left). apply (ti_expired _ _ _ _ _ Ht) in Ha as (tm & Htm & Hst).
  destruct (remove_timer_ok now r a Hi ltac:(by rewrite Htm)) as (r' & Hr & Hi' & Hin & Hs).
  unfold BReactor_RemoveSmallTimer, get_timer in Hr. rewrite Htm in Hr. cbn [mbind outcome_bind of_option] in Hr. rewrite Hst, Hexp in Hr.
  exists tm, r'. split_and!; [done|done|done|done| |].
  2:{ unfold put_state, get_timer in Hr. cbn in Hr. rewrite Htm in Hr. injection Hr as <-. intros b Hb. apply keeps_same. cbn.
      by rewrite lookup_insert_ne. }
  cbn. split_and!; [done|done|by exists tm|done| |].
  - intros t Hat. rewrite Htm in Hat. injection Hat as <-. by eapply (ti_due _ _ _ _ _ Ht).
  - intros b Hb Hne. apply (ti_expired _ _ _ _ _ Ht) in Hb. rewrite Hexp in Hb. apply elem_of_cons in Hb as [->|Hb]; [done|].
    pose proof (ti_sorted _ _ _ _ _ Ht) as Hsort. rewrite Hexp in Hsort. apply StronglySorted_inv in Hsort as [_ Hall].
    rewrite Forall_forall in Hall. by apply Hall.
Qed.

Lemma exec_iteration_ok now fin ws r : inv now r -> 0 <= now <= fin -> wait_allowed now fin ws r ->
  exists r' p, exec_iteration now ws r = Ok (r', p) /\ inv fin r' /\ dispatched now r p r' /\
    forall a, p <> Called (CallTimer a) -> keeps a r r'.
Proof.
  intros Hi Hn Hw. unfold exec_iteration. destruct (exiting r) eqn:Ex.
  { exists r, (Exited (exit_code r)). split_and!; [done|by apply (inv_mono now); [lia|]|done|intros b _; by apply keeps_same]. }
  destruct (pending_jobs r) as [|a l] eqn:Ej.
  2:{ eexists _, _. split; [done|]. split; [|split; [done|intros b _; by apply keeps_same]]. apply (inv_mono now); [lia|]. apply inv_set_jobs; [done|].
      pose proof (inv_jobs _ _ Hi) as Hnd. rewrite Ej in Hnd. by apply NoDup_cons in Hnd as [_ ?]. }
  destruct (timers_expired_list r) as [|a l] eqn:Ee.
  2:{ destruct (dispatch_timer_ok now r a l Hi Ex Ej Ee) as (tm & r' & Htm & Hst & Hp & Hi' & Hd & Hk).
      unfold get_timer. rewrite Htm. cbn [mbind outcome_bind of_option]. rewrite bool_decide_eq_true_2 by done. cbn [ASSERT mbind outcome_bind].
      rewrite Hp. cbn. eexists _, _. split; [done|]. split; [by apply (inv_mono now); [lia|]|]. split; [done|]. intros b Hb. apply Hk. congruence. }
  destruct (epoll_results_pos r <? epoll_results_num r)%nat eqn:Ep.
  - apply Nat.ltb_lt in Ep. destruct (lookup_lt_is_Some_2 _ _ Ep) as [e He]. rewrite He. cbn [mbind outcome_bind of_option].
    destruct (dispatch_fd_ok now r e Hi Ex Ej Ee He) as (r' & p & -> & Hi' & Hd & Hk). exists r', p. split_and!; [done|by apply (inv_mono now); [lia|]|done|auto].
  - apply Nat.ltb_ge in Ep. assert (idle r) as Hidle.
    { split_and!; [done..|]. pose proof (fi_pos _ _ _ (inv_fds _ _ Hi)). unfold epoll_results_num in *. lia. }
    destruct (wait_for_events_ok now fin ws r Hi Hidle Hn (Hw Hidle)) as (r' & done & -> & Hi' & Hr & _ & Hd & Hm).
    cbn. eexists _, _. split; [reflexivity|]. split; [exact Hi'|]. split; [|intros b _; exact (Hm b)].
    pose proof (no_expired now r Hi Ee). destruct done; cbn; [|by split]. split_and!; try done. right. split_and!; auto.
Qed.

(** A synchronisation ends at the job it is for, and runs only jobs set after it. *)
Lemma synchronize_iteration_ok now ref r : inv now r -> ref ∈ pending_jobs r ->
  exists r' p, synchronize_iteration ref r = Ok (r', p) /\ inv now r' /\
    match p with
    | Called (CallJob a) => pending_jobs r = a :: pending_jobs r' /\ a <> ref /\ ref ∈ pending_jobs r'
    | Exited code => r' = r /\ (code = 0 /\ exiting r = true \/ code = 1 /\ head (pending_jobs r) = Some ref)
    | _ => False
    end.
Proof.
  intros Hi Hin. unfold synchronize_iteration. destruct (exiting r) eqn:Ex; [exists r, (Exited 0); split_and!; auto|].
  destruct (pending_jobs r) as [|a l] eqn:Ej; [by apply elem_of_nil in Hin|]. case_decide as E.
  - subst a. exists r, (Exited 1). split_and!; auto.
  - eexists _, _. split; [done|]. apply elem_of_cons in Hin as [->|Hin]; [done|]. split; [|done].
    apply inv_set_jobs; [done|]. pose proof (inv_jobs _ _ Hi) as Hnd. rewrite Ej in Hnd. by apply NoDup_cons in Hnd as [_ ?].
Qed.

Lemma performs_ok now os r res : performs os r res -> inv now r -> exists r', res = Ok r' /\ inv now r'.
Proof.
  induction 1 as [r|o os r Ha Hp|o os r r1 res Ha Hp H IH]; intros Hi; [eauto|..];
    destruct (perform_ok now r o Hi Ha) as (r2 & Hr2 & Hi2); rewrite Hp in Hr2; [done|].
  injection Hr2 as <-. by apply IH.
Qed.

Lemma step_ok now r fin p os res : step now r fin p os res -> inv now r -> now <= fin /\ exists r', res = Ok r' /\ inv fin r'.
Proof.
  destruct 1 as [now fin ws r Hn Hw H|now fin ws r r1 p os res Hn Hw H _ Hos|now ref r Hin H|now ref r r1 p os res Hin H _ Hos|now r os res Hos]; intros Hi.
  - destruct (exec_iteration_ok now fin ws r Hi Hn Hw) as (r2 & p & H2 & _). congruence.
  - destruct (exec_iteration_ok now fin ws r Hi Hn Hw) as (r2 & p2 & H2 & Hi2 & _). rewrite H in H2. injection H2 as <- <-.
    split; [lia|]. by eapply performs_ok.
  - destruct (synchronize_iteration_ok now ref r Hi Hin) as (r2 & p & H2 & _). congruence.
  - destruct (synchronize_iteration_ok now ref r Hi Hin) as (r2 & p2 & H2 & Hi2 & _). rewrite H in H2. injection H2 as <- <-.
    split; [lia|]. by eapply performs_ok.
  - split; [lia|]. by eapply performs_ok.
Qed.

Lemma run_ok now r tr fin res : run now r tr fin res -> inv now r -> now <= fin /\ exists r', res = Ok r' /\ inv fin r'.
Proof.
  induction 1 as [now r|now r now1 fin p os Hn Hs|now r now1 now2 p os r1 tr fin res Hn Hs H IH]; intros Hi; [split; [lia|eauto]|..];
    destruct (step_ok _ _ _ _ _ _ Hs (inv_mono _ _ _ Hn Hi)) as (Hle & r2 & Hr2 & Hi2); [done|].
  injection Hr2 as <-. destruct (IH Hi2). split; [lia|done].
Qed.

Lemma inv_init : inv 0 BReactor_Init.
Proof.
  constructor; cbn; [exists []; constructor| | |].
  - apply tree_holds_init.
  - constructor.
  - intros a. split; [by intros ?%elem_of_nil|]. by intros (t & Ht & _).
  - constructor.
  - intros a. split; [by intros ?%elem_of_nil|]. by intros (t & Ht & _).
  - constructor.
  - done.
  - by constructor.
  - constructor; [constructor| |done]. intros a. split; [by intros ?%elem_of_nil|]. by intros (o & Ho & _).
  - constructor.
Qed.

(** A reactor can be freed when no job is set, no timer is armed and no limit
    counts. *)
Lemma free_ok now r : inv now r -> pending_jobs r = [] -> (forall a t, timers r !! a = Some t -> tstate t = TIMER_STATE_INACTIVE) ->
  (forall a o, limits r !! a = Some o -> count o = 0) -> BReactor_Free r = Ok tt.
Proof.
  intros [[running Ht] _ Hl _] Hj Ht0 Hl0. unfold BReactor_Free. rewrite (bool_decide_eq_true_2 (pending_jobs r = [])) by done. cbn [ASSERT mbind outcome_bind].
  destruct (first_ok _ _ _ _ _ Ht) as (first & -> & Hf). cbn [mbind outcome_bind]. destruct first as [a|].
  { destruct Hf as (_ & (tm & Htm & Hst) & _). apply Ht0 in Htm. congruence. }
  assert (timers_expired_list r = []) as He.
  { destruct (timers_expired_list r) as [|a l] eqn:E; [done|]. assert (a ∈ a :: l) as (t & Hat & Hst)%(ti_expired _ _ _ _ _ Ht) by left.
    apply Ht0 in Hat. congruence. }
  assert (active_limits_list r = []) as Ha.
  { destruct (active_limits_list r) as [|a l] eqn:E; [done|]. assert (a ∈ a :: l) as (o & Ho & Hc)%(li_active _ _ Hl) by left. apply Hl0 in Ho. lia. }
  by rewrite He, Ha.
Qed.

(** ** Timers in runs *)
Definition touches (a : loc) (o : operation) : bool :=
  match o with TimerInit b _ | SetTimer b _ _ _ | RemoveTimer b => bool_decide (b = a) | _ => false end.
Definition calls_timer (a : loc) (t : turn) : bool :=
  match turn_progress t with Some (Called (CallTimer b)) => bool_decide (b = a) | _ => false end.
Definition timer_calls (a : loc) (tr : list turn) : list turn := filter (fun t => calls_timer a t = true) tr.
Definition untouched (a : loc) (tr : list turn) : Prop := Forall (fun t => Forall (fun o => touches a o = false) (turn_operations t)) tr.

Lemma remove_timer_others a b r r' : BReactor_RemoveSmallTimer b r = Ok r' -> b <> a -> timers r' !! a = timers r !! a.
Proof.
  unfold BReactor_RemoveSmallTimer, put_state, get_timer. intros H Hne. destruct (timers r !! b) as [t|] eqn:E; [|done]. cbn in H.
  destruct (tstate t).
  - by injection H as <-.
  - destruct (tree_remove (timers_tree r) b) as [tr|]; [|done]. cbn in H. rewrite E in H. injection H as <-. cbn. by rewrite lookup_insert_ne.
  - cbn in H. rewrite E in H. injection H as <-. cbn. by rewrite lookup_insert_ne.
Qed.

Lemma perform_others a o r r' : perform o r = Ok r' -> touches a o = false -> timers r' !! a = timers r !! a.
Proof.
  intros H Ht. destruct o as [b small|b mode time t0|b|b|b ok|b|b evs|b|b n|b|b|b n|b|b|code]; cbn [perform touches] in *;
    try (apply bool_decide_eq_false in Ht); try (injection H as <-; done).
  - injection H as <-. cbn. by rewrite lookup_insert_ne.
  - unfold BReactor_SetSmallTimer in H. destruct (BReactor_RemoveSmallTimer b r) as [r1|] eqn:E1; [|done]. cbn in H.
    rewrite <- (remove_timer_others a b r r1 E1 Ht). unfold get_timer in H. destruct (timers r1 !! b) as [t|]; [|done]. cbn in H.
    destruct (tree_insert _ _ b) as [[tr res]|]; [|done]. cbn in H. destruct res; [|done]. injection H as <-. cbn. by rewrite lookup_insert_ne.
  - by eapply remove_timer_others.
  - unfold BReactor_AddFileDescriptor, get_fd in H. destruct (fds r !! b) as [f|]; [|done]. cbn in H. destruct (negb (active f)); [|done].
    destruct (ok && _); injection H as <-; done.
  - unfold BReactor_RemoveFileDescriptor, get_fd in H. destruct (fds r !! b) as [f|]; [|done]. cbn in H. destruct (active f); [|done]. cbn in H.
    destruct (in_epoll f); [|done]. cbn in H. destruct (epoll_returned_ptr f) as [i|]; [|by injection H as <-]. destruct (epoll_results r !! i); [|done]. by injection H as <-.
  - unfold BReactor_SetFileDescriptorEvents, get_fd in H. destruct (fds r !! b) as [f|]; [|done]. cbn in H. destruct (active f); [|done]. cbn in H.
    destruct (Z.land _ _ =? 0); [|done]. cbn in H. destruct (_ =? _); [by injection H as <-|].
    destruct (in_epoll f); [|done]. by injection H as <-.
  - unfold close_descriptor, get_fd in H. destruct (fds r !! b); [|done]. by injection H as <-.
  - unfold BReactorLimit_Init in H. destruct (0 <? n); [|done]. by injection H as <-.
  - unfold BReactorLimit_Free, get_limit in H. destruct (limits r !! b); [|done]. by injection H as <-.
  - unfold BReactorLimit_Increment, get_limit in H. destruct (limits r !! b) as [o|]; [|done]. cbn in H. destruct (_ <=? _); injection H as <-; done.
  - unfold BReactorLimit_SetLimit, get_limit in H. destruct (0 <? n); [|done]. cbn in H. destruct (limits r !! b); [|done]. by injection H as <-.
Qed.

Lemma performs_others a os r r' : performs os r (Ok r') -> Forall (fun o => touches a o = false) os -> timers r' !! a = timers r !! a.
Proof.
  remember (Ok r') as res eqn:E. intros H. revert r' E. induction H as [r|o os r Ha Hp|o os r r1 res Ha Hp H IH]; intros r' E Ho; [congruence|done|].
  apply Forall_cons in Ho as [Ho1 Ho2]. rewrite (IH r' E Ho2). by eapply perform_others.
Qed.

(** A turn calls an armed timer, not before its time, or leaves it armed. *)
Lemma step_timer now r fin p os r' a tm : step now r fin p os (Ok r') -> inv now r ->
  Forall (fun o => touches a o = false) os -> timers r !! a = Some tm ->
  if calls_timer a (mkTurn now p os) then
    tstate tm = TIMER_STATE_EXPIRED /\ absTime tm <= now /\ in_state (timers r') a TIMER_STATE_INACTIVE
  else exists tm', timers r' !! a = Some tm' /\ moved_timer tm tm'.
Proof.
  intros Hs Hi Ho Ha. unfold calls_timer. cbn [turn_progress].
  inversion Hs as [|? ? ws ? r1 p1 ? ? Hn Hw H Hp Hos| |? ref ? r1 p1 ? ? Hin H Hp Hos|? ? ? ? Hos]; subst;
    unfold in_state; rewrite (performs_others a os _ r' Hos Ho).
  - destruct (exec_iteration_ok now fin ws r Hi Hn Hw) as (r2 & p2 & H2 & Hi2 & Hd & Hk). rewrite H in H2. injection H2 as <- <-.
    specialize (Hk a). unfold keeps in Hk. rewrite Ha in Hk.
    assert (p1 <> Called (CallTimer a) -> exists tm', timers r1 !! a = Some tm' /\ moved_timer tm tm') as Hkeep.
    { intros Hne. specialize (Hk Hne). inversion Hk as [? tm' Hm|]; subst. eauto. }
    destruct p1 as [[b|b|b evs]| | |]; try (by apply Hkeep). case_bool_decide as E; [|apply Hkeep; congruence].
    subst b. destruct Hd as (_ & _ & (t & Ht & Hst) & Hin & Hdue & _). rewrite Ha in Ht. injection Ht as <-. split_and!; [done|by apply Hdue|done].
  - destruct (synchronize_iteration_ok fin ref r Hi Hin) as (r2 & p2 & H2 & Hi2 & Hd). rewrite H in H2. injection H2 as <- <-.
    assert (timers r1 !! a = Some tm) as ->.
    { unfold synchronize_iteration in H. destruct (exiting r); [by injection H as <- <-|]. destruct (pending_jobs r); [done|].
      case_decide; by injection H as <- <-. }
    destruct p1 as [[b|b|b evs]| | |]; try done; eexists; (split; [done|reflexivity]).
  - eexists. by split.
Qed.

Definition armed (t : BSmallTimer) : bool := negb (bool_decide (tstate t = TIMER_STATE_INACTIVE)).

Lemma run_timer now r tr fin r' a tm : run now r tr fin (Ok r') -> inv now r -> untouched a tr -> timers r !! a = Some tm ->
  (timer_calls a tr = [] /\ exists tm', timers r' !! a = Some tm' /\ absTime tm' = absTime tm /\ armed tm' = armed tm) \/
  (armed tm = true /\ exists t, timer_calls a tr = [t] /\ absTime tm <= turn_time t /\ in_state (timers r') a TIMER_STATE_INACTIVE).
Proof.
  remember (Ok r') as res eqn:Er. intros H. revert tm.
  induction H as [now r|now r now1 fin p os Hn Hs|now r now1 now2 p os r1 tr fin res Hn Hs H IH]; intros tm Hi Hu Ha; [|done|].
  { injection Er as ->. left. split; [done|eauto]. }
  subst res. apply Forall_cons in Hu as [Hu1 Hu2]. apply (inv_mono _ _ _ Hn) in Hi.
  destruct (step_ok _ _ _ _ _ _ Hs Hi) as (_ & r2 & Hr2 & Hi2). injection Hr2 as <-.
  pose proof (step_timer _ _ _ _ _ _ a tm Hs Hi Hu1 Ha) as Hst. unfold timer_calls. rewrite filter_cons.
  destruct (calls_timer a _) eqn:E.
  - rewrite decide_True by done. destruct Hst as (Hx & Hdue & t1 & Ht1 & Hin). right. split; [unfold armed; by rewrite Hx|].
    destruct (IH eq_refl t1 Hi2 Hu2 Ht1) as [[Hc (t2 & Ht2 & _ & Harm)]|[Harm _]].
    + eexists. split; [by rewrite <- Hc|]. split; [done|]. exists t2. split; [done|]. unfold armed in Harm.
      rewrite Hin in Harm. destruct (tstate t2); done.
    + unfold armed in Harm. by rewrite Hin in Harm.
  - rewrite decide_False by done. destruct Hst as (t1 & Ht1 & Habs & _ & Hiff).
    assert (armed t1 = armed tm) as Harm by (unfold armed; f_equal; by apply bool_decide_ext).
    rewrite <- Habs, <- Harm. by apply IH.
Qed.

(** ** Properties *)

(** C28: Whatever the handlers do within the contracts of the functions, the
    event loop of the reactor never fails an assertion, follows a bad pointer or
    loops without end: every run from the initial state ends in a state that
    keeps the invariant (the tree holds exactly the timers that run; the expired
    list is duplicate-free, in order and holds exactly the expired timers, all
    due; an epoll entry that is left points to a registered descriptor that
    points back to it; epoll has exactly the active descriptors, so every
    EPOLL_CTL_MOD and EPOLL_CTL_DEL finds its descriptor; exactly the limits
    with a count above zero are listed). The contracts include that a descriptor
    is not closed while it is registered; of the system it is assumed that the
    clock is monotonic, that a wait that times out takes its time, that
    epoll_wait returns different descriptors that epoll has, and that its only
    error is EINTR: [waits_ok], [closed_while_active] and [wait_error]. *)
Theorem reactor_safe tr fin res : run 0 BReactor_Init tr fin res -> exists r, res = Ok r /\ inv fin r.
Proof. intros H. by apply run_ok in H as [_ ?]; [|apply inv_init]. Qed.

(** C29: In every state the reactor reaches, an iteration of the loop of
    [BReactor_Exec] is total and dispatches in order: the end only
    after a quit, with its code; the job set last; when there is none, the
    expired timer with the least time, which is due and becomes
    inactive; when there is none, the next descriptor that epoll
    returned, if it is still registered, with events it waits for, an error or
    a hang-up; and it waits only when nothing is left. When a wait is over
    there is something to dispatch, and no timer that was due when
    the wait began is still running. *)
Theorem reactor_dispatch tr now r now1 fin ws : run 0 BReactor_Init tr now (Ok r) -> now <= now1 <= fin -> wait_allowed now1 fin ws r ->
  exists r' p, exec_iteration now1 ws r = Ok (r', p) /\ dispatched now1 r p r'.
Proof.
  intros H Hn Hw. apply run_ok in H as (Hle & r0 & [= <-] & Hi); [|apply inv_init].
  destruct (exec_iteration_ok now1 fin ws r) as (r' & p & Hx & _ & Hd & _); [by apply (inv_mono now); [lia|]|lia|done|eauto].
Qed.

(** C30: A timer that is armed and then left alone is called at most once,
    never before its time, and is inactive afterwards; as long as it is not
    called it stays armed with its time. A timer that is not armed (never
    set, removed, or already called) is not called, even when it was removed
    after it expired. *)
Theorem reactor_timer_once tr0 now r tr fin r' a tm : run 0 BReactor_Init tr0 now (Ok r) -> run now r tr fin (Ok r') ->
  untouched a tr -> timers r !! a = Some tm ->
  (timer_calls a tr = [] /\ exists tm', timers r' !! a = Some tm' /\ absTime tm' = absTime tm /\ armed tm' = armed tm) \/
  (armed tm = true /\ exists t, timer_calls a tr = [t] /\ absTime tm <= turn_time t /\ in_state (timers r') a TIMER_STATE_INACTIVE).
Proof. intros H0 H Hu Ha. apply run_ok in H0 as (_ & r0 & [= <-] & Hi); [|apply inv_init]. by eapply run_timer. Qed.

End reactor.
(** ** An example *)
Section example.
Abbreviation state := (@BReactor avl_tree).

Fixpoint perform_all (os : list operation) (r : state) : outcome state :=
  match os with
  | [] => Ok r
  | o :: os => perform o r ≫= fun r => perform_all os r
  end.
Definition turn_ops (os : list operation) (x : outcome (state * progress)) : state :=
  match x with
  | Ok (r, _) => match perform_all os r with Ok r => r | Fault => BReactor_Init end
  | Fault => BReactor_Init
  end.

(** Two timers, a descriptor and a job; the job takes a limit; the descriptor
    is ready, its handler removes it; the timers expire together. *)
Definition ex_setup : list operation :=
  [TimerInit 1 true; SetTimer 1 BTIMER_SET_RELATIVE 10 5; TimerInit 2 false; SetTimer 2 BTIMER_SET_ABSOLUTE 12 5;
   FdInit 3; AddFd 3 true; SetFdEvents 3 BREACTOR_READ; JobSet 4].
Definition ex_job : list operation := [LimitInit 7 2; LimitIncrement 7].
Definition ex_waits : list wait_result := [Interrupted 8; Ready [(3%positive, Z.lor EPOLLIN EPOLLOUT)]].
Definition ex1 : state := turn_ops ex_setup (Ok (BReactor_Init, Continued)).
Definition ex2 : state := turn_ops ex_job (exec_iteration 6 [] ex1).
Definition ex3 : state := turn_ops [] (exec_iteration 7 ex_waits ex2).
Definition ex4 : state := turn_ops [RemoveFd 3] (exec_iteration 10 [] ex3).
Definition ex5 : state := turn_ops [] (exec_iteration 20 [] ex4).
Definition ex6 : state := turn_ops [] (exec_iteration 21 [] ex5).
Definition ex_setup_turn : turn := mkTurn 5 None ex_setup.
Definition ex_turns : list turn :=
  [mkTurn 6 (Some (Called (CallJob 4))) ex_job; mkTurn 7 (Some Continued) [];
   mkTurn 10 (Some (Called (CallFd 3 BREACTOR_READ))) [RemoveFd 3]; mkTurn 20 (Some Continued) []; mkTurn 21 (Some (Called (CallTimer 2))) []].

Ltac concrete_allowed := cbn [allowed];
  first [exact I | eexists; vm_compute; reflexivity | split; [eexists; vm_compute; reflexivity|]; by vm_compute
        | split; [vm_compute; reflexivity|lia] | eexists; split; vm_compute; reflexivity
        | split; [eexists; split; vm_compute; reflexivity|unfold BREACTOR_READ; lia]
        | let H := fresh in intros ? H; vm_compute in H; discriminate H
        | let f := fresh in let H := fresh in intros (f & H & _); vm_compute in H; discriminate H
        | split; [eexists; vm_compute; reflexivity|let f := fresh in let H := fresh in let E := fresh in intros (f & H & E); vm_compute in H; injection H as <-; discriminate E]].
Ltac concrete_performs := repeat (eapply performs_cons; [concrete_allowed|vm_compute; reflexivity|]); apply performs_nil.

Lemma ex_run_setup : run 0 BReactor_Init [ex_setup_turn] 5 (Ok ex1).
Proof. eapply run_cons; [|apply step_outside|apply run_nil]; [lia|]. unfold ex_setup. concrete_performs. Qed.

(** A turn of the loop whose waits, if it waits, are as [waits_ok] asks. *)
Ltac no_wait := let H := fresh in intros H; exfalso; destruct H as (? & H & H' & ?); vm_compute in H, H'; discriminate.
Ltac concrete_turn fin ws wait := eapply run_cons;
  [|eapply (step_exec _ fin ws); [|wait|vm_compute; reflexivity|first [exact I|reflexivity]|concrete_performs]|]; [lia|lia|].

Lemma ex_wait : wait_allowed 7 9 ex_waits ex2.
Proof.
  intros _ first Hf. vm_compute in Hf. injection Hf as <-. cbn. split; [lia|].
  split_and!; [done|apply NoDup_singleton| |done]. constructor; [|constructor]. eexists. split; vm_compute; reflexivity.
Qed.

Lemma ex_run : run 5 ex1 ex_turns 21 (Ok ex6).
Proof.
  concrete_turn 6 (@nil wait_result) no_wait.
  concrete_turn 9 ex_waits ltac:(exact ex_wait).
  concrete_turn 10 (@nil wait_result) ltac:(intros _ ? _; exact I).
  concrete_turn 20 (@nil wait_result) ltac:(intros _ ? _; exact I).
  concrete_turn 21 (@nil wait_result) ltac:(intros _ ? _; exact I).
  apply run_nil.
Qed.

(** A descriptor that is closed while it is registered fails the forced
    assertions on epoll_ctl, and an error of epoll_wait but EINTR that on the
    wait. *)
Lemma closed_while_active :
  perform_all (ex_setup ++ [CloseDescriptor 3; RemoveFd 3]) BReactor_Init = Fault /\
  perform_all (ex_setup ++ [CloseDescriptor 3; SetFdEvents 3 BREACTOR_WRITE]) BReactor_Init = Fault.
Proof. split; vm_compute; reflexivity. Qed.
Lemma wait_error : exec_iteration 7 [Failed] ex2 = Fault.
Proof. vm_compute. reflexivity. Qed.
End example.

Lemma reactor_safe_witness : exists r, Ok ex1 = Ok r /\ inv 5 r.
Proof. apply (reactor_safe [ex_setup_turn]). exact ex_run_setup. Defined.

Lemma reactor_dispatch_witness : exists r' p, exec_iteration 6 [] ex1 = Ok (r', p) /\ dispatched 6 ex1 p r'.
Proof. apply (reactor_dispatch [ex_setup_turn] 5 ex1 6 6 []); [exact ex_run_setup|lia|by intros _ first _]. Defined.

Lemma reactor_timer_once_witness : exists tm,
  (timer_calls 2 ex_turns = [] /\ exists tm', timers ex6 !! 2%positive = Some tm' /\ absTime tm' = absTime tm /\ armed tm' = armed tm) \/
  (armed tm = true /\ exists t, timer_calls 2 ex_turns = [t] /\ absTime tm <= turn_time t /\ in_state (timers ex6) 2 TIMER_STATE_INACTIVE).
Proof.
  eexists. apply (reactor_timer_once [ex_setup_turn] 5 ex1 ex_turns 21 ex6 2); [exact ex_run_setup|exact ex_run| |vm_compute; reflexivity].
  repeat constructor.
Defined.

End BReactor.
