(* ===== verification/Tables.v ===== *)
(** Tables of objects that are also kept in a search tree, as the UDP clients
    keep their connections: a memory of objects, a tree over one of their
    fields, and the list of the objects in some order. The lemmas are about any
    implementation of the tree interface and any field. *)
From Stdlib Require Import ZArith Lia.
From stdpp Require Import base tactics numbers option gmap list.
From S2P Require Import Prelude LinkedList Bavl Trees.

(** A found element splits the list. *)
Lemma list_find_split {A} (P : A -> Prop) `{!forall e, Decision (P e)} l i e : list_find P l = Some (i, e) ->
  exists l1 l2, l = l1 ++ e :: l2 /\ P e /\ delete i l = l1 ++ l2 /\ forall e', <[i := e']> l = l1 ++ e' :: l2.
Proof.
  intros (Hi & He & _)%list_find_Some. exists (take i l), (drop (S i) l). split_and!; [|done|..].
  - symmetry. by apply take_drop_middle.
  - apply delete_take_drop.
  - intros e'. apply insert_take_drop. by eapply lookup_lt_Some.
Qed.

Section Table.
Context {C K : Type} (key : C -> K) (dflt : K) (cmp : K -> K -> Z) `{!Comparator cmp} {T : Type} `{!Tree cmp T}.
Abbreviation table := (list (loc * C)).
Implicit Types (m : gmap loc C) (t : T) (l : table).

(** The value of a node: a field of the object it is embedded in. *)
Definition key_of m (a : loc) : K := match m !! a with Some c => key c | None => dflt end.

Definition find_key (k : K) l : option (nat * (loc * C)) :=
  list_find (fun e => cmp k (key (snd e)) = 0) l.

(** The memory and the tree hold exactly the objects of the table, and their
    keys differ. *)
Record indexed m t l : Prop := {
  ix_map : m = list_to_map l;
  ix_nodup : NoDup l.*1;
  ix_tree : tree_holds (key_of m) t l.*1;
  ix_keys : forall e e', e ∈ l -> e' ∈ l -> cmp (key (snd e)) (key (snd e')) = 0 -> e = e'
}.

Lemma indexed_init : indexed ∅ tree_init [].
Proof. constructor; [done|apply NoDup_nil_2|apply tree_holds_init|]. intros e e' He. by apply elem_of_nil in He. Qed.

Lemma indexed_perm m t l l' : l ≡ₚ l' -> indexed m t l -> indexed m t l'.
Proof.
  intros Hl [Hm Hn Ht Hk]. constructor; try (by rewrite <- Hl).
  - rewrite Hm. by apply list_to_map_proper.
  - intros e e' He He'. rewrite <- Hl in He, He'. by apply Hk.
Qed.

Lemma indexed_get m t l a c : indexed m t l -> (a, c) ∈ l -> m !! a = Some c.
Proof. intros H Hc. rewrite (ix_map _ _ _ H). by apply elem_of_list_to_map_1; [apply H|]. Qed.

Lemma indexed_key m t l e : indexed m t l -> e ∈ l -> key_of m (fst e) = key (snd e).
Proof. intros H He. destruct e as [a c]. unfold key_of. cbn [fst snd]. by rewrite (indexed_get m t l a c). Qed.

(** Lookups in the tree are searches in the table. *)
Lemma indexed_find m t l k : indexed m t l ->
  tree_lookup (key_of m) t k = Ok ((fun x => fst (snd x)) <$> find_key k l).
Proof.
  intros H. unfold find_key. destruct (tree_lookup_ok _ _ _ k (ix_tree _ _ _ H)) as (r & -> & Hr). f_equal.
  destruct (list_find _ l) as [[i e]|] eqn:E.
  - apply list_find_Some in E as (Hi & Hc & _). apply list_elem_of_lookup_2 in Hi. cbn [fmap option_fmap option_map snd].
    destruct r as [b|].
    + destruct Hr as [Hb Hb']. apply list_elem_of_fmap in Hb as (e' & -> & Hb).
      rewrite (indexed_key m t l e' H Hb) in Hb'. do 2 f_equal. apply (ix_keys _ _ _ H); [done|done|].
      rewrite <- (cmp_eq_lt k (key (snd e'))); [done|done].
    + destruct (Hr (fst e)); [by apply list_elem_of_fmap_2|]. by rewrite (indexed_key m t l e H Hi).
  - apply list_find_None in E. destruct r as [b|]; [|done].
    destruct Hr as [Hb Hb']. apply list_elem_of_fmap in Hb as (e & -> & He). rewrite (indexed_key m t l e H He) in Hb'.
    by apply (proj1 (Forall_forall _ _) E) in He.
Qed.

Lemma find_key_None k l e : find_key k l = None -> e ∈ l -> cmp k (key (snd e)) <> 0.
Proof. intros H He. apply list_find_None in H. by apply (proj1 (Forall_forall _ _) H). Qed.

Lemma key_of_insert m a c' x : key_of (<[a := c']> m) x = if decide (x = a) then key c' else key_of m x.
Proof.
  unfold key_of. case_decide as Hx; [by subst; rewrite lookup_insert_eq|]. by rewrite lookup_insert_ne by done.
Qed.

(** Changing an object but for how its key compares. *)
Lemma indexed_upd m t a c c' l : indexed m t ((a, c) :: l) -> cmp (key c') (key c) = 0 ->
  indexed (<[a := c']> m) t ((a, c') :: l).
Proof.
  intros H Hc. pose proof (indexed_get m t _ a c H ltac:(left)) as Ha. destruct H as [Hm Hn Ht Hk].
  assert (forall z, cmp (key c') z = cmp (key c) z) as Hl by (intros; by apply cmp_eq_lt).
  assert (forall z, cmp z (key c') = cmp z (key c)) as Hr.
  { intros z. by rewrite (cmp_antisym (key c') z), Hl, <- (cmp_antisym (key c) z). }
  constructor.
  - rewrite Hm. cbn. by rewrite insert_insert_eq.
  - done.
  - eapply tree_holds_ext; [|exact Ht]. intros x y _ _. rewrite !key_of_insert.
    assert (key_of m a = key c) as Hka by (unfold key_of; by rewrite Ha).
    destruct (decide (x = a)) as [->|], (decide (y = a)) as [->|]; rewrite ?Hka, ?Hl, ?Hr; done.
  - intros e e' He He' Hcmp. apply elem_of_cons in He as [->|He], He' as [->|He'].
    + done.
    + cbn [snd] in Hcmp. rewrite Hl in Hcmp. assert ((a, c) = e') as <- by (apply Hk; [left|by right|done]).
      destruct (proj1 (NoDup_cons _ _) Hn) as [Hx _]. destruct Hx. by apply (list_elem_of_fmap_2 fst) in He'.
    + cbn [snd] in Hcmp. rewrite Hr in Hcmp. assert (e = (a, c)) as -> by (apply Hk; [by right|left|done]).
      destruct (proj1 (NoDup_cons _ _) Hn) as [Hx _]. destruct Hx. by apply (list_elem_of_fmap_2 fst) in He.
    + apply Hk; [by right|by right|done].
Qed.

(** Taking a node out of the tree. *)
Lemma indexed_take m t a c l : indexed m t ((a, c) :: l) ->
  exists t', tree_remove t a = Ok t' /\ tree_holds (key_of m) t' l.*1 /\ a ∉ l.*1.
Proof.
  intros [Hm Hn Ht Hk]. cbn [fmap list_fmap] in Hn, Ht. apply NoDup_cons in Hn as [Ha Hn].
  destruct (tree_remove_ok _ _ _ a Ht ltac:(left)) as (t' & Hr & Hh). exists t'. split; [done|].
  cbn [LinkedList1.remove_node fst] in Hh. rewrite decide_True in Hh by done. done.
Qed.

Lemma indexed_tail_keys m t e l : indexed m t (e :: l) ->
  NoDup l.*1 /\ forall x y, x ∈ l -> y ∈ l -> cmp (key (snd x)) (key (snd y)) = 0 -> x = y.
Proof.
  intros [_ Hn _ Hk]. cbn [fmap list_fmap] in Hn. split; [by apply NoDup_cons in Hn as [_ Hn]|].
  intros x y Hx Hy. apply Hk; by right.
Qed.

Lemma indexed_remove m t a c l : indexed m t ((a, c) :: l) ->
  exists t', tree_remove t a = Ok t' /\ indexed (delete a m) t' l.
Proof.
  intros H. destruct (indexed_take m t a c l H) as (t' & Hr & Hh & Ha). exists t'. split; [done|].
  destruct (indexed_tail_keys _ _ _ _ H) as [Hn Hk]. destruct H as [Hm _ _ _]. constructor; try done.
  - rewrite Hm. cbn. rewrite delete_insert_id; [done|]. by apply not_elem_of_list_to_map_1.
  - eapply tree_holds_ext; [|exact Hh]. intros x y Hx Hy. unfold key_of.
    rewrite !lookup_delete_ne; [done|by intros <-..].
Qed.

(** Putting a node into a tree that holds the others. *)
Lemma tree_put m t a c l : m !! a = Some c -> a ∉ l.*1 -> NoDup l.*1 ->
  (forall e, e ∈ l -> m !! fst e = Some (snd e)) -> tree_holds (key_of m) t l.*1 -> find_key (key c) l = None ->
  (forall x y, x ∈ l -> y ∈ l -> cmp (key (snd x)) (key (snd y)) = 0 -> x = y) -> m = list_to_map ((a, c) :: l) ->
  exists t', tree_insert (key_of m) t a = Ok (t', true) /\ indexed m t' ((a, c) :: l).
Proof.
  intros Ha Hfresh Hn Hl Ht Hf Hk Hm.
  destruct (tree_insert_ok (key_of m) t l.*1 a Ht Hfresh) as (t' & Hi & Hh).
  { intros x (e & -> & He)%list_elem_of_fmap. unfold key_of. rewrite Ha, Hl by done. by apply (find_key_None _ l). }
  exists t'. split; [done|]. constructor; [done|by apply NoDup_cons|done|].
  intros e e' He He' Hc. apply elem_of_cons in He as [->|He], He' as [->|He']; [done|..|by apply Hk].
  - by destruct (find_key_None _ _ e' Hf He').
  - destruct (find_key_None _ _ e Hf He). rewrite cmp_antisym. cbn [snd] in Hc. lia.
Qed.

Lemma indexed_insert m t a c l : indexed m t l -> a ∉ l.*1 -> find_key (key c) l = None ->
  let m' := <[a := c]> m in
  exists t', tree_insert (key_of m') t a = Ok (t', true) /\ indexed m' t' ((a, c) :: l).
Proof.
  intros H Ha Hf m'. assert (forall x, x ∈ l.*1 -> m' !! x = m !! x) as Hv.
  { intros x Hx. unfold m'. apply lookup_insert_ne. by intros <-. }
  apply tree_put; try done.
  - apply lookup_insert_eq.
  - apply H.
  - intros e He. rewrite Hv by (by apply list_elem_of_fmap_2). destruct e. by eapply indexed_get.
  - eapply tree_holds_ext; [|apply H]. intros x y Hx Hy. unfold key_of. by rewrite !Hv.
  - apply H.
  - unfold m'. by rewrite (ix_map _ _ _ H).
Qed.

(** Giving an object another key, by taking it out of the tree and putting it
    back. *)
Lemma indexed_rekey m t a c c' l : indexed m t ((a, c) :: l) -> find_key (key c') l = None ->
  let m' := <[a := c']> m in
  exists t1 t2, tree_remove t a = Ok t1 /\ tree_insert (key_of m') t1 a = Ok (t2, true) /\
    indexed m' t2 ((a, c') :: l).
Proof.
  intros H Hf m'. destruct (indexed_take m t a c l H) as (t1 & Hr & Hh & Ha). exists t1.
  destruct (indexed_tail_keys _ _ _ _ H) as [Hn Hk].
  assert (forall x, x ∈ l.*1 -> m' !! x = m !! x) as Hv.
  { intros x Hx. unfold m'. apply lookup_insert_ne. by intros <-. }
  destruct (tree_put m' t1 a c' l) as (t2 & Hi & Hx); try done.
  - apply lookup_insert_eq.
  - intros e He. rewrite Hv by (by apply list_elem_of_fmap_2). destruct e. eapply indexed_get; [done|by right].
  - eapply tree_holds_ext; [|exact Hh]. intros x y Hx Hy. unfold key_of. by rewrite !Hv.
  - unfold m'. rewrite (ix_map _ _ _ H). cbn. by rewrite insert_insert_eq.
  - by exists t2.
Qed.
End Table.
