(* ===== verification/ByteOrder.v ===== *)
(** * Integers in memory (badvpn/misc/byteorder.h, badvpn/misc/read_write_int.h)

    The byte order conversions of a little-endian machine and the accessors
    that read and write integers at an address. Memory is the list of bytes of
    one object; an access outside of it is a [Fault]. *)
From Stdlib Require Import ZArith Lia.
From stdpp Require Import base tactics numbers option gmap list.
From S2P Require Import Prelude.

Module ByteOrder.

(** ** byteorder.h *)

(** An integer of [n] bytes with its bytes reversed in memory. *)
Definition badvpn_reverse16 (x : Z) : Z := le_val (rev (le_bytes 2 x)).
Definition badvpn_reverse32 (x : Z) : Z := le_val (rev (le_bytes 4 x)).
Definition badvpn_reverse64 (x : Z) : Z := le_val (rev (le_bytes 8 x)).

Definition hton8 (x : Z) : Z := x.
Definition htol8 (x : Z) : Z := x.
Definition hton16 (x : Z) : Z := badvpn_reverse16 x.
Definition hton32 (x : Z) : Z := badvpn_reverse32 x.
Definition hton64 (x : Z) : Z := badvpn_reverse64 x.
Definition htol16 (x : Z) : Z := x.
Definition htol32 (x : Z) : Z := x.
Definition htol64 (x : Z) : Z := x.
Definition ntoh8 (x : Z) : Z := hton8 x.
Definition ntoh16 (x : Z) : Z := hton16 x.
Definition ntoh32 (x : Z) : Z := hton32 x.
Definition ntoh64 (x : Z) : Z := hton64 x.
Definition ltoh8 (x : Z) : Z := htol8 x.
Definition ltoh16 (x : Z) : Z := htol16 x.
Definition ltoh32 (x : Z) : Z := htol32 x.
Definition ltoh64 (x : Z) : Z := htol64 x.

(** ** read_write_int.h *)

(** [ptr[i]] for [ptr = m + off], as a value and as the target of a store of
    a [uint8_t]. *)
Definition ptr (m : list Z) (off i : Z) : outcome Z :=
  mem_read m (off + i) 1 ≫= fun l => of_option (head l).
Definition put (m : list Z) (off i b : Z) : outcome (list Z) := mem_write m (off + i) [u8 b].

Definition badvpn_read_le8 (m : list Z) (off : Z) : outcome Z :=
  ptr m off 0 ≫= fun p0 => Ok (Z.shiftl p0 0).
Definition badvpn_read_le16 (m : list Z) (off : Z) : outcome Z :=
  ptr m off 1 ≫= fun p1 => ptr m off 0 ≫= fun p0 =>
  Ok (Z.lor (Z.shiftl p1 8) (Z.shiftl p0 0)).
Definition badvpn_read_le32 (m : list Z) (off : Z) : outcome Z :=
  ptr m off 3 ≫= fun p3 => ptr m off 2 ≫= fun p2 =>
  ptr m off 1 ≫= fun p1 => ptr m off 0 ≫= fun p0 =>
  Ok (Z.lor (Z.lor (Z.lor (Z.shiftl p3 24) (Z.shiftl p2 16)) (Z.shiftl p1 8)) (Z.shiftl p0 0)).
Definition badvpn_read_le64 (m : list Z) (off : Z) : outcome Z :=
  ptr m off 7 ≫= fun p7 => ptr m off 6 ≫= fun p6 =>
  ptr m off 5 ≫= fun p5 => ptr m off 4 ≫= fun p4 =>
  ptr m off 3 ≫= fun p3 => ptr m off 2 ≫= fun p2 =>
  ptr m off 1 ≫= fun p1 => ptr m off 0 ≫= fun p0 =>
  Ok (Z.lor (Z.lor (Z.lor (Z.lor (Z.lor (Z.lor (Z.lor
       (Z.shiftl p7 56) (Z.shiftl p6 48)) (Z.shiftl p5 40)) (Z.shiftl p4 32))
       (Z.shiftl p3 24)) (Z.shiftl p2 16)) (Z.shiftl p1 8)) (Z.shiftl p0 0)).

Definition badvpn_read_be8 (m : list Z) (off : Z) : outcome Z :=
  ptr m off 0 ≫= fun p0 => Ok (Z.shiftl p0 0).
Definition badvpn_read_be16 (m : list Z) (off : Z) : outcome Z :=
  ptr m off 0 ≫= fun p0 => ptr m off 1 ≫= fun p1 =>
  Ok (Z.lor (Z.shiftl p0 8) (Z.shiftl p1 0)).
Definition badvpn_read_be32 (m : list Z) (off : Z) : outcome Z :=
  ptr m off 0 ≫= fun p0 => ptr m off 1 ≫= fun p1 =>
  ptr m off 2 ≫= fun p2 => ptr m off 3 ≫= fun p3 =>
  Ok (Z.lor (Z.lor (Z.lor (Z.shiftl p0 24) (Z.shiftl p1 16)) (Z.shiftl p2 8)) (Z.shiftl p3 0)).
Definition badvpn_read_be64 (m : list Z) (off : Z) : outcome Z :=
  ptr m off 0 ≫= fun p0 => ptr m off 1 ≫= fun p1 =>
  ptr m off 2 ≫= fun p2 => ptr m off 3 ≫= fun p3 =>
  ptr m off 4 ≫= fun p4 => ptr m off 5 ≫= fun p5 =>
  ptr m off 6 ≫= fun p6 => ptr m off 7 ≫= fun p7 =>
  Ok (Z.lor (Z.lor (Z.lor (Z.lor (Z.lor (Z.lor (Z.lor
       (Z.shiftl p0 56) (Z.shiftl p1 48)) (Z.shiftl p2 40)) (Z.shiftl p3 32))
       (Z.shiftl p4 24)) (Z.shiftl p5 16)) (Z.shiftl p6 8)) (Z.shiftl p7 0)).

Definition badvpn_write_le8 (x : Z) (m : list Z) (off : Z) : outcome (list Z) :=
  put m off 0 (Z.shiftr x 0).
Definition badvpn_write_le16 (x : Z) (m : list Z) (off : Z) : outcome (list Z) :=
  put m off 1 (Z.shiftr x 8) ≫= fun m => put m off 0 (Z.shiftr x 0).
Definition badvpn_write_le32 (x : Z) (m : list Z) (off : Z) : outcome (list Z) :=
  put m off 3 (Z.shiftr x 24) ≫= fun m => put m off 2 (Z.shiftr x 16) ≫= fun m =>
  put m off 1 (Z.shiftr x 8) ≫= fun m => put m off 0 (Z.shiftr x 0).
Definition badvpn_write_le64 (x : Z) (m : list Z) (off : Z) : outcome (list Z) :=
  put m off 7 (Z.shiftr x 56) ≫= fun m => put m off 6 (Z.shiftr x 48) ≫= fun m =>
  put m off 5 (Z.shiftr x 40) ≫= fun m => put m off 4 (Z.shiftr x 32) ≫= fun m =>
  put m off 3 (Z.shiftr x 24) ≫= fun m => put m off 2 (Z.shiftr x 16) ≫= fun m =>
  put m off 1 (Z.shiftr x 8) ≫= fun m => put m off 0 (Z.shiftr x 0).

Definition badvpn_write_be8 (x : Z) (m : list Z) (off : Z) : outcome (list Z) :=
  put m off 0 (Z.shiftr x 0).
Definition badvpn_write_be16 (x : Z) (m : list Z) (off : Z) : outcome (list Z) :=
  put m off 0 (Z.shiftr x 8) ≫= fun m => put m off 1 (Z.shiftr x 0).
Definition badvpn_write_be32 (x : Z) (m : list Z) (off : Z) : outcome (list Z) :=
  put m off 0 (Z.shiftr x 24) ≫= fun m => put m off 1 (Z.shiftr x 16) ≫= fun m =>
  put m off 2 (Z.shiftr x 8) ≫= fun m => put m off 3 (Z.shiftr x 0).
Definition badvpn_write_be64 (x : Z) (m : list Z) (off : Z) : outcome (list Z) :=
  put m off 0 (Z.shiftr x 56) ≫= fun m => put m off 1 (Z.shiftr x 48) ≫= fun m =>
  put m off 2 (Z.shiftr x 40) ≫= fun m => put m off 3 (Z.shiftr x 32) ≫= fun m =>
  put m off 4 (Z.shiftr x 24) ≫= fun m => put m off 5 (Z.shiftr x 16) ≫= fun m =>
  put m off 6 (Z.shiftr x 8) ≫= fun m => put m off 7 (Z.shiftr x 0).

(** ** The accessors by format *)
Inductive format := LE8 | LE16 | LE32 | LE64 | BE8 | BE16 | BE32 | BE64.

Definition size (f : format) : nat :=
  match f with LE8 | BE8 => 1 | LE16 | BE16 => 2 | LE32 | BE32 => 4 | LE64 | BE64 => 8 end%nat.

Definition read (f : format) : list Z -> Z -> outcome Z :=
  match f with
  | LE8 => badvpn_read_le8 | LE16 => badvpn_read_le16
  | LE32 => badvpn_read_le32 | LE64 => badvpn_read_le64
  | BE8 => badvpn_read_be8 | BE16 => badvpn_read_be16
  | BE32 => badvpn_read_be32 | BE64 => badvpn_read_be64
  end.

Definition write (f : format) : Z -> list Z -> Z -> outcome (list Z) :=
  match f with
  | LE8 => badvpn_write_le8 | LE16 => badvpn_write_le16
  | LE32 => badvpn_write_le32 | LE64 => badvpn_write_le64
  | BE8 => badvpn_write_be8 | BE16 => badvpn_write_be16
  | BE32 => badvpn_write_be32 | BE64 => badvpn_write_be64
  end.

(** The bytes of the format, from the least significant one. *)
Definition arrange (f : format) (l : list Z) : list Z :=
  match f with LE8 | LE16 | LE32 | LE64 => l | BE8 | BE16 | BE32 | BE64 => rev l end.

(** ** Lemmas *)
Lemma lor_shift_byte a b k k' :
  k' = k + 8 -> 0 <= k -> 0 <= b < 256 -> Z.lor (a * 2 ^ k') (Z.shiftl b k) = (a * 256 + b) * 2 ^ k.
Proof.
  intros -> Hk Hb. rewrite Z.shiftl_mul_pow2 by lia.
  rewrite <- Z.add_nocarry_lor.
  { rewrite Z.pow_add_r by lia. lia. }
  apply Z.bits_inj'. intros n Hn. rewrite Z.land_spec, Z.bits_0.
  rewrite <- !Z.shiftl_mul_pow2 by lia. rewrite !Z.shiftl_spec by lia.
  destruct (decide (n < k + 8)).
  - by rewrite (Z.testbit_neg_r a) by lia.
  - rewrite andb_comm. destruct (decide (b = 0)) as [->|]; [by rewrite Z.bits_0|].
    rewrite (Z.bits_above_log2 b); [done|lia|].
    apply (Z.lt_le_trans _ 8); [|lia]. apply Z.log2_lt_pow2; lia.
Qed.

Lemma ptr_slice m off n l i :
  0 <= off -> 0 <= i < n -> off + n <= Zlen m -> slice m off n = l ->
  ptr m off i = of_option (l !! Z.to_nat i).
Proof.
  intros ? ? ? <-. unfold ptr, mem_read. rewrite (proj2 (in_range_true _ _ _)) by lia.
  cbn [mbind outcome_bind]. rewrite head_lookup, !lookup_slice by lia.
  rewrite !decide_True by lia. do 2 f_equal. lia.
Qed.

Lemma put_Ok m off i b :
  0 <= off + i < Zlen m -> put m off i b = Ok (splice m (off + i) [u8 b]).
Proof. intros. apply mem_write_Ok. split; [cbn; lia|done]. Qed.

Lemma splice_cons m off b l :
  0 <= off -> off + 1 + Zlen l <= Zlen m ->
  splice (splice m (off + 1) l) off [b] = splice m off (b :: l).
Proof.
  intros. apply list_eq. intros i.
  rewrite !lookup_splice; cbn [length]; rewrite ?length_splice by lia; try lia.
  repeat case_decide; try lia; try done.
  - by replace (i - Z.to_nat off)%nat with 0%nat by lia.
  - by replace (i - Z.to_nat off)%nat with (S (i - Z.to_nat (off + 1)))%nat by lia.
Qed.

Lemma splice_snoc m off b l :
  0 <= off -> off + 1 + Zlen l <= Zlen m ->
  splice (splice m off l) (off + Zlen l) [b] = splice m off (l ++ [b]).
Proof.
  intros. apply list_eq. intros i.
  rewrite !lookup_splice; rewrite ?length_app, ?length_splice; cbn [length]; try lia.
  repeat case_decide; try lia; try done.
  - rewrite lookup_app_r by lia. f_equal. lia.
  - by rewrite lookup_app_l by lia.
Qed.

Lemma u8_shiftr x k : 0 <= k -> u8 (Z.shiftr x k) = (x / 2 ^ k) mod 256.
Proof. intros. unfold u8. by rewrite Z.shiftr_div_pow2. Qed.

(** The bytes [u8 (x >> 8*k)], written as in the code, are [le_bytes]. *)
Lemma le_bytes_cons n x : le_bytes (S n) x = x mod 256 :: le_bytes n (x / 256).
Proof. done. Qed.
Lemma le_val_cons b l : le_val (b :: l) = b + 256 * le_val l.
Proof. done. Qed.

(** A store just below, and just above, the bytes already written. *)
Lemma put_below m off k l i b :
  k = i + 1 -> 0 <= off + i -> off + k + Zlen l <= Zlen m ->
  put (splice m (off + k) l) off i b = Ok (splice m (off + i) (u8 b :: l)).
Proof.
  intros -> ? ?. rewrite put_Ok by (rewrite length_splice; lia).
  by rewrite Z.add_assoc, splice_cons by lia.
Qed.

Lemma put_above m off l i b :
  i = Zlen l -> 0 <= off -> off + i < Zlen m ->
  put (splice m (off + 0) l) off i b = Ok (splice m (off + 0) (l ++ [u8 b])).
Proof.
  intros -> ? ?. rewrite Z.add_0_r. rewrite put_Ok by (rewrite length_splice; lia).
  by rewrite splice_snoc by lia.
Qed.

Ltac put_all tac :=
  rewrite put_Ok by lia; cbn [mbind outcome_bind];
  repeat (tac; cbn [mbind outcome_bind app]).

Ltac byte_list :=
  rewrite Z.add_0_r; rewrite ?u8_shiftr by lia; unfold le_bytes; cbn [rev app arrange size];
  rewrite ?Z.div_div by lia; rewrite ?Z.div_1_r; reflexivity.

Lemma write_splice f x m off :
  0 <= off -> off + Z.of_nat (size f) <= Zlen m ->
  write f x m off = Ok (splice m off (arrange f (le_bytes (size f) x))).
Proof.
  intros Ho Hm. destruct f; cbn [size] in Hm; unfold write;
    unfold badvpn_write_le8, badvpn_write_le16, badvpn_write_le32, badvpn_write_le64,
      badvpn_write_be8, badvpn_write_be16, badvpn_write_be32, badvpn_write_be64;
  [ put_all ltac:(rewrite put_below by (cbn [length]; lia)) ..
  | put_all ltac:(rewrite put_above by (cbn [length]; lia))
  | put_all ltac:(rewrite put_above by (cbn [length]; lia))
  | put_all ltac:(rewrite put_above by (cbn [length]; lia)) ]; byte_list.
Qed.

Lemma shiftl_mul b k : 0 <= k -> Z.shiftl b k = b * 2 ^ k.
Proof. apply Z.shiftl_mul_pow2. Qed.

(** Combines the bytes of a value from the most significant one. *)
Ltac combine_bytes :=
  try match goal with
  | |- context [Z.lor (Z.shiftl ?b ?k) _] => rewrite (shiftl_mul b k) by lia
  end;
  repeat match goal with
  | |- context [Z.lor (?a * 2 ^ ?k') (Z.shiftl ?b ?k)] =>
      rewrite (lor_shift_byte a b k k' eq_refl) by lia
  end;
  rewrite ?Z.shiftl_0_r; f_equal; rewrite ?le_val_cons; unfold le_val; lia.

Lemma read_slice f m off l :
  0 <= off -> off + Z.of_nat (size f) <= Zlen m -> bytes l -> length l = size f ->
  slice m off (Z.of_nat (size f)) = arrange f l ->
  read f m off = Ok (le_val l).
Proof.
  intros Ho Hm Hb Hl Hs. destruct f; cbn [size] in *;
  repeat (destruct l as [|? l]; [done|]); destruct l; try done; clear Hl;
  repeat (apply Forall_cons in Hb as [? Hb]); unfold is_byte in *; cbn [arrange rev app] in Hs;
  unfold read, badvpn_read_le8, badvpn_read_le16, badvpn_read_le32, badvpn_read_le64,
      badvpn_read_be8, badvpn_read_be16, badvpn_read_be32, badvpn_read_be64;
  match type of Hs with slice _ _ ?n = _ =>
    repeat (erewrite (ptr_slice m off n) by (lia || exact Hs); cbn [of_option mbind outcome_bind])
  end;
  cbv [lookup list_lookup Z.to_nat Pos.to_nat Pos.iter_op Nat.add of_option mbind outcome_bind];
  combine_bytes.
Qed.

Lemma arrange_length f l : length (arrange f l) = length l.
Proof. destruct f; cbn; rewrite ?length_rev; done. Qed.

(** The integer accessors round-trip. Storing [x] in any of the eight
    formats at an address inside the object succeeds, puts exactly the bytes
    of [x] in the order of the format there and leaves every other byte as it
    was; reading the same format back returns [x]. *)
Theorem read_write_roundtrip f x m off :
  0 <= off -> off + Z.of_nat (size f) <= Zlen m -> 0 <= x < 256 ^ Z.of_nat (size f) ->
  exists m', write f x m off = Ok m' /\
    m' = splice m off (arrange f (le_bytes (size f) x)) /\ length m' = length m /\
    read f m' off = Ok x.
Proof.
  intros Ho Hm Hx. eexists. rewrite write_splice by done. split; [done|]. split; [done|].
  assert (Zlen (arrange f (le_bytes (size f) x)) = Z.of_nat (size f)) as Hl
    by (by rewrite arrange_length, length_le_bytes).
  assert (length (splice m off (arrange f (le_bytes (size f) x))) = length m) as Hlen
    by (apply length_splice; lia).
  split; [done|].
  rewrite <- (Z.mod_small x (256 ^ Z.of_nat (size f))) at 2 by lia.
  rewrite <- le_val_le_bytes. apply read_slice; auto with vpn.
  - lia.
  - apply length_le_bytes.
  - rewrite <- Hl. apply slice_splice_same; lia.
Qed.

Lemma read_write_roundtrip_witness :
  exists m', write BE32 0xDEADBEEF [1; 2; 3; 4; 5; 6] 1 = Ok m' /\
    m' = [1; 0xDE; 0xAD; 0xBE; 0xEF; 6] /\ read BE32 m' 1 = Ok 0xDEADBEEF.
Proof.
  destruct (read_write_roundtrip BE32 0xDEADBEEF [1; 2; 3; 4; 5; 6] 1) as (m' & H1 & H2 & _ & H3);
    [vm_compute; congruence|vm_compute; congruence|split; vm_compute; congruence|].
  exists m'. split; [exact H1|]. split; [|exact H3]. rewrite H2. vm_compute. reflexivity.
Defined.

(** Conversions to network order and back. *)
Lemma reverse_involutive n x :
  0 <= x < 256 ^ Z.of_nat n -> le_val (rev (le_bytes n (le_val (rev (le_bytes n x))))) = x.
Proof.
  intros Hx. set (l := rev (le_bytes n x)).
  assert (length l = n) as Hl by (unfold l; by rewrite length_rev, length_le_bytes).
  rewrite <- Hl at 1. rewrite le_bytes_le_val by (by apply Forall_rev, le_bytes_bytes).
  unfold l. rewrite rev_involutive, le_val_le_bytes. by apply Z.mod_small.
Qed.

Lemma ntoh16_hton16 x : 0 <= x < 2 ^ 16 -> ntoh16 (hton16 x) = x.
Proof. apply (reverse_involutive 2). Qed.
Lemma ntoh32_hton32 x : 0 <= x < 2 ^ 32 -> ntoh32 (hton32 x) = x.
Proof. apply (reverse_involutive 4). Qed.
Lemma hton16_range x : 0 <= hton16 x < 2 ^ 16.
Proof.
  pose proof (le_val_range (rev (le_bytes 2 x)) ltac:(by apply Forall_rev, le_bytes_bytes)) as H.
  by rewrite length_rev, length_le_bytes in H.
Qed.

(** A 16-bit value in network order has, in memory, the big-endian bytes. *)
Lemma hton16_bytes x : le_bytes 2 (hton16 x) = rev (le_bytes 2 x).
Proof.
  unfold hton16, badvpn_reverse16.
  pose proof (le_bytes_le_val (rev (le_bytes 2 x)) ltac:(by apply Forall_rev, le_bytes_bytes)) as H.
  by rewrite length_rev, length_le_bytes in H.
Qed.
Lemma hton32_bytes x : le_bytes 4 (hton32 x) = rev (le_bytes 4 x).
Proof.
  unfold hton32, badvpn_reverse32.
  pose proof (le_bytes_le_val (rev (le_bytes 4 x)) ltac:(by apply Forall_rev, le_bytes_bytes)) as H.
  by rewrite length_rev, length_le_bytes in H.
Qed.
End ByteOrder.
