(* ===== verification/NetProto.v ===== *)
(** * IPv4, IPv6 and UDP headers (badvpn/misc/ipv4_proto.h, ipv6_proto.h, udp_proto.h)

    Packed headers are records whose multi-byte fields hold the integer the
    machine loads from the packet, in network order; their memory is given by
    the [_bytes] functions. Memory is the list of bytes of one object. *)
From Stdlib Require Import ZArith Lia.
From stdpp Require Import base tactics numbers option gmap list.
From S2P Require Import Prelude ByteOrder.
Import ByteOrder.

Module NetProto.

Definition IPV4_PROTOCOL_UDP : Z := 17.
Definition IPV6_NEXT_UDP : Z := 17.

(** ** IPv4 *)
Record ipv4_header := mkIPv4 {
  version4_ihl4 : Z; ds : Z; total_length : Z; identification : Z;
  flags3_fragmentoffset13 : Z; ttl : Z; protocol : Z; checksum : Z;
  source_address : Z; destination_address : Z
}.

Definition sizeof_ipv4_header : Z := 20.

(** The memory of a header, and the header that 20 bytes of memory hold. *)
Definition ipv4_header_bytes (h : ipv4_header) : list Z :=
  [version4_ihl4 h; ds h] ++ le_bytes 2 (total_length h) ++
  le_bytes 2 (identification h) ++ le_bytes 2 (flags3_fragmentoffset13 h) ++
  [ttl h; protocol h] ++ le_bytes 2 (checksum h) ++
  le_bytes 4 (source_address h) ++ le_bytes 4 (destination_address h).

Definition ipv4_header_of (l : list Z) : ipv4_header :=
  mkIPv4 (le_val (slice l 0 1)) (le_val (slice l 1 1)) (le_val (slice l 2 2))
    (le_val (slice l 4 2)) (le_val (slice l 6 2)) (le_val (slice l 8 1))
    (le_val (slice l 9 1)) (le_val (slice l 10 2)) (le_val (slice l 12 4))
    (le_val (slice l 16 4)).

Definition set_checksum (h : ipv4_header) (c : Z) : ipv4_header :=
  mkIPv4 (version4_ihl4 h) (ds h) (total_length h) (identification h)
    (flags3_fragmentoffset13 h) (ttl h) (protocol h) c (source_address h)
    (destination_address h).

Definition IPV4_GET_VERSION (h : ipv4_header) : Z := Z.shiftr (Z.land (version4_ihl4 h) 0xF0) 4.
Definition IPV4_GET_IHL (h : ipv4_header) : Z := Z.shiftr (Z.land (version4_ihl4 h) 0x0F) 0.
Definition IPV4_MAKE_VERSION_IHL (size : Z) : Z := size / 4 + Z.shiftl 4 4.

(** [for (i = 0; i < n; i++) t += badvpn_read_be16(p + 2 * i)]. *)
Fixpoint sum_loop (m : list Z) (off i : Z) (n : nat) (t : Z) : outcome Z :=
  match n with
  | O => Ok t
  | S n' => badvpn_read_be16 m (off + 2 * i) ≫= fun w => sum_loop m off (i + 1) n' (u32 (t + w))
  end.

(** [while (t >> 16) t = (t & 0xFFFF) + (t >> 16)], at most [fuel] tests. *)
Fixpoint fold_loop (fuel : nat) (t : Z) : outcome Z :=
  match fuel with
  | O => Fault
  | S fuel' =>
      if Z.shiftr t 16 =? 0 then Ok t
      else fold_loop fuel' (u32 (Z.land t 0xFFFF + Z.shiftr t 16))
  end.
Definition fold_fuel : nat := 3.

Definition ipv4_checksum (header : ipv4_header) (m : list Z) (extra extra_len : Z) : outcome Z :=
  ASSERT (extra_len mod 2 =? 0);;
  sum_loop (ipv4_header_bytes header) 0 0 (Z.to_nat (sizeof_ipv4_header / 2)) 0 ≫= fun t =>
  sum_loop m extra 0 (Z.to_nat (extra_len / 2)) t ≫= fun t =>
  fold_loop fold_fuel t ≫= fun t =>
  Ok (hton16 (u16 (u32 (Z.lnot t)))).

(** The header, and the offset and length of the payload in [data]; [None] is
    the return value 0. *)
Definition ipv4_check (data : list Z) (data_len : Z) : outcome (option (ipv4_header * Z * Z)) :=
  ASSERT (0 <=? data_len);;
  if u64 data_len <? sizeof_ipv4_header then Ok None else
  mem_read data 0 sizeof_ipv4_header ≫= fun raw =>
  let out_header := ipv4_header_of raw in
  if negb (IPV4_GET_VERSION out_header =? 4) then Ok None else
  let header_len := u16 (IPV4_GET_IHL out_header * 4) in
  if header_len <? sizeof_ipv4_header then Ok None else
  if data_len <? header_len then Ok None else
  let tl := ntoh16 (total_length out_header) in
  if tl <? header_len then Ok None else
  if data_len <? tl then Ok None else
  let checksum_in_packet := checksum out_header in
  let out_header := set_checksum out_header (hton16 0) in
  ipv4_checksum out_header data sizeof_ipv4_header (u16 (header_len - sizeof_ipv4_header))
    ≫= fun checksum_computed =>
  let out_header := set_checksum out_header checksum_in_packet in
  if negb (checksum_in_packet =? checksum_computed) then Ok None else
  Ok (Some (out_header, header_len, tl - header_len)).

(** ** IPv6 *)
Record ipv6_header := mkIPv6 {
  version4_tc4 : Z; tc4_fl4 : Z; fl : Z; payload_length : Z; next_header : Z; hop_limit : Z;
  source_address6 : list Z; destination_address6 : list Z
}.
Definition sizeof_ipv6_header : Z := 40.

Definition ipv6_header_bytes (h : ipv6_header) : list Z :=
  [version4_tc4 h; tc4_fl4 h] ++ le_bytes 2 (fl h) ++ le_bytes 2 (payload_length h) ++
  [next_header h; hop_limit h] ++ source_address6 h ++ destination_address6 h.

Definition ipv6_header_of (l : list Z) : ipv6_header :=
  mkIPv6 (le_val (slice l 0 1)) (le_val (slice l 1 1)) (le_val (slice l 2 2))
    (le_val (slice l 4 2)) (le_val (slice l 6 1)) (le_val (slice l 7 1))
    (slice l 8 16) (slice l 24 16).

Definition ipv6_check (data : list Z) (data_len : Z) : outcome (option (ipv6_header * Z * Z)) :=
  ASSERT (0 <=? data_len);;
  if u64 data_len <? sizeof_ipv6_header then Ok None else
  mem_read data 0 sizeof_ipv6_header ≫= fun raw =>
  let out_header := ipv6_header_of raw in
  if negb (Z.shiftr (ntoh8 (version4_tc4 out_header)) 4 =? 6) then Ok None else
  let pl := ntoh16 (payload_length out_header) in
  if u64 (data_len - sizeof_ipv6_header) <? pl then Ok None else
  Ok (Some (out_header, sizeof_ipv6_header, pl)).

(** ** UDP *)
Record udp_header := mkUDP { source_port : Z; dest_port : Z; udp_length : Z; udp_cksum : Z }.
Definition sizeof_udp_header : Z := 8.

Definition udp_header_bytes (h : udp_header) : list Z :=
  le_bytes 2 (source_port h) ++ le_bytes 2 (dest_port h) ++
  le_bytes 2 (udp_length h) ++ le_bytes 2 (udp_cksum h).

Definition udp_header_of (l : list Z) : udp_header :=
  mkUDP (le_val (slice l 0 2)) (le_val (slice l 2 2)) (le_val (slice l 4 2)) (le_val (slice l 6 2)).

Definition udp_checksum_summer (m : list Z) (off len : Z) : outcome Z :=
  ASSERT (len mod 2 =? 0);;
  sum_loop m off 0 (Z.to_nat (len / 2)) 0.

(** The payload part shared by the two functions below: an odd last byte is
    the high byte of the last word. *)
Definition add_payload (t : Z) (payload : list Z) (off payload_len : Z) : outcome Z :=
  if payload_len mod 2 =? 0 then
    udp_checksum_summer payload off payload_len ≫= fun s => Ok (u32 (t + s))
  else
    udp_checksum_summer payload off (payload_len - 1) ≫= fun s =>
    ptr payload off (payload_len - 1) ≫= fun b =>
    let x := hton16 (u16 (Z.shiftl (u16 b) 8)) in
    udp_checksum_summer (le_bytes 2 x) 0 2 ≫= fun s' =>
    Ok (u32 (u32 (t + s) + s')).

(** The end of the two functions below. *)
Definition finish_checksum (t : Z) : outcome Z :=
  fold_loop fold_fuel t ≫= fun t =>
  let t := u32 (Z.lnot t) in
  let t := if t =? 0 then UINT16_MAX else t in
  Ok (hton16 (u16 t)).

Definition udp_checksum (header : udp_header) (payload : list Z) (off payload_len : Z)
    (source_addr dest_addr : Z) : outcome Z :=
  udp_checksum_summer (le_bytes 4 source_addr) 0 4 ≫= fun s =>
  let t := u32 (0 + s) in
  udp_checksum_summer (le_bytes 4 dest_addr) 0 4 ≫= fun s =>
  let t := u32 (t + s) in
  let x := hton16 IPV4_PROTOCOL_UDP in
  udp_checksum_summer (le_bytes 2 x) 0 2 ≫= fun s =>
  let t := u32 (t + s) in
  let x := hton16 (u16 (sizeof_udp_header + payload_len)) in
  udp_checksum_summer (le_bytes 2 x) 0 2 ≫= fun s =>
  let t := u32 (t + s) in
  udp_checksum_summer (udp_header_bytes header) 0 sizeof_udp_header ≫= fun s =>
  let t := u32 (t + s) in
  add_payload t payload off payload_len ≫= finish_checksum.

Definition udp_ip6_checksum (header : udp_header) (payload : list Z) (off payload_len : Z)
    (source_addr dest_addr : list Z) : outcome Z :=
  udp_checksum_summer source_addr 0 16 ≫= fun s =>
  let t := u32 (0 + s) in
  udp_checksum_summer dest_addr 0 16 ≫= fun s =>
  let t := u32 (t + s) in
  let x := hton32 (u32 (sizeof_udp_header + payload_len)) in
  udp_checksum_summer (le_bytes 4 x) 0 4 ≫= fun s =>
  let t := u32 (t + s) in
  let x := hton32 IPV6_NEXT_UDP in
  udp_checksum_summer (le_bytes 4 x) 0 4 ≫= fun s =>
  let t := u32 (t + s) in
  udp_checksum_summer (udp_header_bytes header) 0 sizeof_udp_header ≫= fun s =>
  let t := u32 (t + s) in
  add_payload t payload off payload_len ≫= finish_checksum.

(** The header, and the offset and length of the payload, for the datagram at
    [off] in [data]. *)
Definition udp_check (data : list Z) (off data_len : Z) : outcome (option (udp_header * Z * Z)) :=
  ASSERT (0 <=? data_len);;
  if u64 data_len <? sizeof_udp_header then Ok None else
  mem_read data off sizeof_udp_header ≫= fun raw =>
  let out_header := udp_header_of raw in
  let off := off + sizeof_udp_header in
  let data_len := data_len - sizeof_udp_header in
  let len := ntoh16 (udp_length out_header) in
  if len <? sizeof_udp_header then Ok None else
  if u64 (sizeof_udp_header + data_len) <? len then Ok None else
  let data_len := len - sizeof_udp_header in
  Ok (Some (out_header, off, data_len)).

(** ** Specification of the checksums (RFC 1071) *)

(** The 16-bit big-endian words of a byte string; an odd last byte is padded
    with zero. *)
Fixpoint words (l : list Z) : list Z :=
  match l with
  | a :: b :: l' => 256 * a + b :: words l'
  | [a] => [256 * a]
  | [] => []
  end.

Definition Zsum (l : list Z) : Z := foldr Z.add 0 l.

(** The one's complement sum, as a 16-bit number, of words whose integer sum
    is [s]. *)
Definition ones_complement (s : Z) : Z := if s =? 0 then 0 else (s - 1) mod 65535 + 1.

Lemma Zsum_app l1 l2 : Zsum (l1 ++ l2) = Zsum l1 + Zsum l2.
Proof. unfold Zsum. induction l1; cbn; lia. Qed.

Lemma words_app l1 l2 : (length l1 mod 2 = 0)%nat -> words (l1 ++ l2) = words l1 ++ words l2.
Proof.
  induction l1 as [|a|a b l1 IH] using list_ind2; [done|done|]. intros H. cbn [app words].
  f_equal. apply IH. cbn [length] in H. rewrite <- (Nat.Div0.mod_add (length l1) 1).
  by rewrite Nat.add_comm.
Qed.

Lemma Zsum_words_range l :
  bytes l -> 0 <= Zsum (words l) <= 65535 * ((Zlen l + 1) / 2).
Proof.
  induction l as [|a|a b l IH] using list_ind2; intros Hb; [done| |].
  - apply Forall_cons in Hb as [Ha _]. unfold is_byte in Ha. cbn [words length].
    change (Zsum [256 * a]) with (256 * a + 0). change ((Z.of_nat 1 + 1) / 2) with 1. lia.
  - apply Forall_cons in Hb as [Ha Hb]. apply Forall_cons in Hb as [Hb Hl]. unfold is_byte in *.
    specialize (IH Hl). cbn [words length].
    change (Zsum (?x :: ?l)) with (x + Zsum l).
    replace (Z.of_nat (S (S (length l))) + 1) with (Zlen l + 1 + 1 * 2) by lia.
    rewrite Z.div_add by lia. lia.
Qed.

(** ** The loops *)
Lemma bytes_slice m off n : bytes m -> bytes (slice m off n).
Proof. intros. by apply Forall_take, Forall_drop. Qed.

Lemma read_be16_words m off :
  bytes m -> 0 <= off -> off + 2 <= Zlen m ->
  badvpn_read_be16 m off = Ok (Zsum (words (slice m off 2))).
Proof.
  intros Hb Ho Hm. pose proof (bytes_slice m off 2 Hb) as Hs.
  pose proof (length_slice m off 2 Ho ltac:(lia) Hm) as Hl.
  destruct (slice m off 2) as [|a [|b [|? ?]]] eqn:E; cbn in Hl; try lia.
  change (badvpn_read_be16 m off) with (read BE16 m off).
  rewrite (read_slice BE16 m off [b; a]); try done.
  - f_equal. unfold le_val. cbn [words]. unfold Zsum. cbn [foldr]. lia.
  - apply Forall_cons in Hs as [? [? _]%Forall_cons]. by apply Forall_cons; split; [|apply Forall_singleton].
Qed.

Lemma sum_loop_ok m off i n t :
  bytes m -> 0 <= off -> 0 <= i -> off + 2 * i + 2 * Z.of_nat n <= Zlen m ->
  0 <= t -> t + 65535 * Z.of_nat n < 2 ^ 32 ->
  sum_loop m off i n t = Ok (t + Zsum (words (slice m (off + 2 * i) (2 * Z.of_nat n)))).
Proof.
  intros Hb Ho. revert i t. induction n as [|n IH]; intros i t Hi Hm Ht Hov.
  { cbn [sum_loop]. change (Zsum (words (slice m (off + 2 * i) (2 * Z.of_nat 0)))) with 0. f_equal. lia. }
  cbn [sum_loop]. rewrite read_be16_words by (done || lia). cbn [mbind outcome_bind].
  pose proof (Zsum_words_range _ (bytes_slice m (off + 2 * i) 2 Hb)) as Hr.
  rewrite length_slice in Hr by lia. change ((2 + 1) / 2) with 1 in Hr.
  rewrite u32_small by lia. rewrite IH by lia. f_equal.
  replace (2 * Z.of_nat (S n)) with (2 + 2 * Z.of_nat n) by lia.
  rewrite (slice_app_split m (off + 2 * i) 2) by lia. rewrite words_app, Zsum_app.
  - replace (off + 2 * (i + 1)) with (off + 2 * i + 2) by lia. lia.
  - pose proof (length_slice m (off + 2 * i) 2 ltac:(lia) ltac:(lia) ltac:(lia)) as H.
    by replace (length (slice m (off + 2 * i) 2)) with 2%nat by lia.
Qed.

Lemma ones_complement_range s : 0 <= s -> 0 <= ones_complement s <= 65535.
Proof. intros. unfold ones_complement. case_if; [lia|]. pose proof (Z.mod_pos_bound (s - 1) 65535). lia. Qed.

Lemma ones_complement_fold t :
  0 <= t -> ones_complement (t mod 2 ^ 16 + t / 2 ^ 16) = ones_complement t.
Proof.
  intros Ht. pose proof (Z.div_mod t (2 ^ 16) ltac:(lia)) as Hd.
  pose proof (Z.mod_pos_bound t (2 ^ 16) ltac:(lia)). pose proof (Z.div_pos t (2 ^ 16) Ht ltac:(lia)).
  unfold ones_complement. set (q := t / 2 ^ 16) in *. set (r := t mod 2 ^ 16) in *.
  destruct (Z.eqb_spec t 0), (Z.eqb_spec (r + q) 0); try lia. f_equal.
  replace (t - 1) with (r + q - 1 + q * 65535) by lia. by rewrite Z_mod_plus_full.
Qed.

(** The folding loop ends after at most two rounds for every [uint32_t]. *)
Lemma fold_loop_ok t : 0 <= t < 2 ^ 32 -> fold_loop fold_fuel t = Ok (ones_complement t).
Proof.
  assert (forall x, Z.land x 0xFFFF = x mod 2 ^ 16) as Hland
    by (intros; by rewrite (Z.land_ones _ 16) by lia).
  assert (forall x, 0 <= x < 2 ^ 16 -> ones_complement x = x) as Hsmall.
  { intros x Hx. unfold ones_complement. case_if; [lia|]. rewrite Z.mod_small; lia. }
  intros Ht. unfold fold_fuel. cbn [fold_loop]. rewrite !Hland, !Z.shiftr_div_pow2 by lia.
  pose proof (Z.mod_pos_bound t (2 ^ 16) ltac:(lia)).
  pose proof (Z.div_mod t (2 ^ 16) ltac:(lia)).
  assert (0 <= t / 2 ^ 16 < 2 ^ 16) by (split; [apply Z.div_pos|apply Z.div_lt_upper_bound]; lia).
  case_if; [rewrite Hsmall by lia; done|].
  rewrite <- (ones_complement_fold t) by lia. rewrite (u32_small (_ + _)) by lia.
  set (t1 := t mod 2 ^ 16 + t / 2 ^ 16) in *.
  pose proof (Z.mod_pos_bound t1 (2 ^ 16) ltac:(lia)).
  pose proof (Z.div_mod t1 (2 ^ 16) ltac:(lia)).
  assert (0 <= t1 / 2 ^ 16 < 2) by (split; [apply Z.div_pos|apply Z.div_lt_upper_bound]; lia).
  case_if; [rewrite Hsmall by lia; done|].
  rewrite <- (ones_complement_fold t1) by lia. rewrite (u32_small (_ + _)) by lia.
  rewrite Z.div_small by lia. cbn. by rewrite Hsmall by lia.
Qed.

Lemma complement16 t : 0 <= t <= 65535 -> u16 (u32 (Z.lnot t)) = 65535 - t.
Proof.
  intros. unfold u16, u32. replace (Z.lnot t) with (2 ^ 32 - 1 - t + (-1) * 2 ^ 32) by (unfold Z.lnot; lia).
  rewrite Z_mod_plus_full, (Z.mod_small _ (2 ^ 32)) by lia.
  replace (2 ^ 32 - 1 - t) with (65535 - t + 65535 * 2 ^ 16) by lia.
  rewrite Z_mod_plus_full, Z.mod_small; lia.
Qed.

(** The test for zero at the end of the UDP checksums never succeeds: [t] is
    the complement of a 16-bit value in 32 bits. *)
Lemma finish_checksum_ok t :
  0 <= t < 2 ^ 32 -> finish_checksum t = Ok (hton16 (65535 - ones_complement t)).
Proof.
  intros Ht. unfold finish_checksum. rewrite fold_loop_ok by done. cbn [mbind outcome_bind].
  pose proof (ones_complement_range t ltac:(lia)).
  destruct (u32 (Z.lnot (ones_complement t)) =? 0) eqn:E; zify_bool.
  - pose proof (complement16 (ones_complement t)) as Hc. rewrite E in Hc.
    unfold u32, Z.lnot in E. replace (Z.pred (- ones_complement t))
      with (2 ^ 32 - 1 - ones_complement t + (-1) * 2 ^ 32) in E by lia.
    rewrite Z_mod_plus_full, Z.mod_small in E; lia.
  - by rewrite complement16 by lia.
Qed.

(** The loop over [len] bytes. *)
Lemma sum_bytes m off len t :
  bytes m -> 0 <= off -> 0 <= len <= 65535 -> len mod 2 = 0 -> off + len <= Zlen m ->
  0 <= t < 2 ^ 31 ->
  sum_loop m off 0 (Z.to_nat (len / 2)) t = Ok (t + Zsum (words (slice m off len))).
Proof.
  intros Hb Ho Hl He Hm Ht.
  pose proof (Z.div_mod len 2 ltac:(lia)). pose proof (Z.div_pos len 2 ltac:(lia) ltac:(lia)).
  rewrite sum_loop_ok by (done || lia).
  replace (off + 2 * 0) with off by lia. by replace (2 * Z.of_nat (Z.to_nat (len / 2))) with len by lia.
Qed.

Lemma summer_ok m off len :
  bytes m -> 0 <= off -> 0 <= len <= 65535 -> len mod 2 = 0 -> off + len <= Zlen m ->
  udp_checksum_summer m off len = Ok (Zsum (words (slice m off len))).
Proof.
  intros Hb Ho Hl He Hm. unfold udp_checksum_summer. rewrite bind_ASSERT_true by (by apply Z.eqb_eq).
  by rewrite sum_bytes by (done || lia).
Qed.

Lemma Zsum_words_bound l : bytes l -> Zlen l <= 65535 -> 0 <= Zsum (words l) < 2 ^ 31.
Proof.
  intros Hb Hl. pose proof (Zsum_words_range l Hb).
  assert ((Zlen l + 1) / 2 <= 32768) by (apply Z.div_le_upper_bound; lia). lia.
Qed.

(** ** IPv4 *)

(** Header fields as the bytes of the packet give them. *)
Definition byte_at (l : list Z) (i : nat) : Z := nth i l 0.
Definition ihl_bytes (data : list Z) : Z := 4 * (byte_at data 0 mod 16).
Definition be16_at (data : list Z) (i : nat) : Z := 256 * byte_at data i + byte_at data (S i).

(** What makes the first [data_len] bytes of [data] an acceptable IPv4 packet. *)
Definition ipv4_valid (data : list Z) (data_len : Z) : bool :=
  (20 <=? data_len) && (byte_at data 0 / 16 =? 4) &&
  (20 <=? ihl_bytes data) && (ihl_bytes data <=? data_len) &&
  (ihl_bytes data <=? be16_at data 2) && (be16_at data 2 <=? data_len) &&
  (ones_complement (Zsum (words (slice data 0 (ihl_bytes data)))) =? 65535) &&
  negb (be16_at data 10 =? 65535).

(** Splits a list of known length into its elements. *)
Ltac explode l H :=
  repeat (destruct l as [|? l]; [discriminate H|]); destruct l; [|discriminate H]; clear H.

Ltac explode_bytes H :=
  repeat (let Hb := fresh "Hb" in apply Forall_cons in H as [Hb H]; unfold is_byte in Hb); clear H.

Lemma le2_of_bytes a b : 0 <= a < 256 -> 0 <= b < 256 -> le_bytes 2 (le_val [a; b]) = [a; b].
Proof. intros. apply (le_bytes_le_val [a; b]). by repeat (apply Forall_cons; split; [done|]). Qed.
Lemma le4_of_bytes a b c d :
  0 <= a < 256 -> 0 <= b < 256 -> 0 <= c < 256 -> 0 <= d < 256 ->
  le_bytes 4 (le_val [a; b; c; d]) = [a; b; c; d].
Proof. intros. apply (le_bytes_le_val [a; b; c; d]). by repeat (apply Forall_cons; split; [done|]). Qed.
Lemma le_val1 a : le_val [a] = a.
Proof. unfold le_val. lia. Qed.
Lemma ntoh16_bytes a b : 0 <= a < 256 -> 0 <= b < 256 -> ntoh16 (le_val [a; b]) = 256 * a + b.
Proof.
  intros. unfold ntoh16, hton16, badvpn_reverse16. rewrite le2_of_bytes by done.
  cbn [rev app]. unfold le_val. lia.
Qed.

(** Header of 20 bytes with the checksum field replaced. *)
Lemma ipv4_header_bytes_set raw c :
  bytes raw -> length raw = 20%nat ->
  ipv4_header_bytes (set_checksum (ipv4_header_of raw) c) =
    slice raw 0 10 ++ le_bytes 2 c ++ slice raw 12 8.
Proof.
  intros Hb Hl. explode raw Hl. explode_bytes Hb.
  unfold ipv4_header_bytes, ipv4_header_of, set_checksum. cbv [slice take drop Z.to_nat Pos.to_nat Pos.iter_op Nat.add].
  cbn [version4_ihl4 ds total_length identification flags3_fragmentoffset13 ttl protocol checksum
       source_address destination_address].
  rewrite !le2_of_bytes, !le4_of_bytes, !le_val1 by done. done.
Qed.

Lemma length_ipv4_header_bytes h : length (ipv4_header_bytes h) = 20%nat.
Proof. unfold ipv4_header_bytes. by rewrite !length_app, !length_le_bytes. Qed.

Lemma slice_all l : slice l 0 (Zlen l) = l.
Proof. unfold slice. rewrite drop_0, Nat2Z.id. apply take_ge. lia. Qed.

Lemma even_length (l : list Z) n : Zlen l = n -> n mod 2 = 0 -> (length l mod 2 = 0)%nat.
Proof. intros <- H. apply Nat2Z.inj. rewrite Nat2Z.inj_mod. exact H. Qed.

Lemma ipv4_header_sum h :
  bytes (ipv4_header_bytes h) ->
  sum_loop (ipv4_header_bytes h) 0 0 (Z.to_nat (sizeof_ipv4_header / 2)) 0 =
    Ok (Zsum (words (ipv4_header_bytes h))).
Proof.
  intros Hh. pose proof (length_ipv4_header_bytes h) as H20. unfold sizeof_ipv4_header.
  rewrite (sum_bytes _ 0 20 0) by (done || lia). rewrite <- (slice_all (ipv4_header_bytes h)) at 2.
  by rewrite H20.
Qed.

Lemma ipv4_checksum_ok h m extra extra_len :
  bytes (ipv4_header_bytes h) -> bytes m -> 0 <= extra -> 0 <= extra_len <= 65535 ->
  extra_len mod 2 = 0 -> extra + extra_len <= Zlen m ->
  ipv4_checksum h m extra extra_len =
    Ok (hton16 (65535 - ones_complement
          (Zsum (words (ipv4_header_bytes h ++ slice m extra extra_len))))).
Proof.
  intros Hh Hm He Hl Hev Hin. unfold ipv4_checksum.
  rewrite bind_ASSERT_true by (by apply Z.eqb_eq). rewrite ipv4_header_sum by done.
  cbn [mbind outcome_bind].
  pose proof (length_ipv4_header_bytes h) as H20.
  pose proof (Zsum_words_bound _ Hh ltac:(lia)).
  pose proof (Zsum_words_bound _ (bytes_slice m extra extra_len Hm)) as Hx.
  rewrite length_slice in Hx by lia.
  rewrite sum_bytes by done. cbn [mbind outcome_bind].
  rewrite <- Zsum_app, <- words_app by (apply (even_length _ 20); lia || done).
  assert (0 <= Zsum (words (ipv4_header_bytes h ++ slice m extra extra_len)) < 2 ^ 32).
  { rewrite words_app, Zsum_app by (apply (even_length _ 20); lia || done). lia. }
  rewrite fold_loop_ok by done. cbn [mbind outcome_bind].
  by rewrite complement16 by (apply ones_complement_range; lia).
Qed.

Lemma get_version_byte b : 0 <= b < 256 -> Z.shiftr (Z.land b 0xF0) 4 = b / 16.
Proof.
  intros. rewrite Z.shiftr_land. change (Z.shiftr 0xF0 4) with (Z.ones 4).
  rewrite Z.land_ones, Z.shiftr_div_pow2 by lia. change (2 ^ 4) with 16.
  apply Z.mod_small. split; [apply Z.div_pos|apply Z.div_lt_upper_bound]; lia.
Qed.
Lemma get_ihl_byte b : Z.shiftr (Z.land b 0x0F) 0 = b mod 16.
Proof. rewrite Z.shiftr_0_r. apply (Z.land_ones b 4). lia. Qed.

(** The two views of the checksum test: the complement of the sum without the
    checksum field, and the sum over the whole header. *)
Lemma checksum_test S c :
  0 <= c <= 65535 -> 0 < S - c ->
  (c =? 65535 - ones_complement (S - c)) = (ones_complement S =? 65535) && negb (c =? 65535).
Proof.
  intros Hc HS. unfold ones_complement.
  destruct (Z.eqb_spec (S - c) 0); [lia|]. destruct (Z.eqb_spec S 0); [lia|].
  pose proof (Z.mod_pos_bound (S - c - 1) 65535 ltac:(lia)).
  pose proof (Z.div_mod (S - c - 1) 65535 ltac:(lia)).
  pose proof (Z.mod_pos_bound (S - 1) 65535 ltac:(lia)).
  pose proof (Z.div_mod (S - 1) 65535 ltac:(lia)).
  set (q := (S - c - 1) / 65535) in *. set (r := (S - c - 1) mod 65535) in *.
  set (q' := (S - 1) / 65535) in *. set (r' := (S - 1) mod 65535) in *.
  destruct (Z.eqb_spec c (65535 - (r + 1))), (Z.eqb_spec (r' + 1) 65535), (Z.eqb_spec c 65535); cbn; try done; try nia.
Qed.

Lemma ipv4_zeroed_sum raw rest :
  bytes raw -> length raw = 20%nat ->
  Zsum (words (ipv4_header_bytes (set_checksum (ipv4_header_of raw) (hton16 0)) ++ rest)) =
  Zsum (words (raw ++ rest)) - be16_at raw 10.
Proof.
  intros Hb Hl. rewrite ipv4_header_bytes_set by done. change (le_bytes 2 (hton16 0)) with [0; 0].
  explode raw Hl. cbv [slice take drop Z.to_nat Pos.to_nat Pos.iter_op Nat.add].
  unfold be16_at, byte_at. cbn [nth app words]. unfold Zsum. cbn [foldr]. lia.
Qed.

Lemma nth_slice (l : list Z) n i : (i < n)%nat -> nth i (slice l 0 (Z.of_nat n)) 0 = nth i l 0.
Proof.
  intros H. unfold slice. rewrite drop_0, Nat2Z.id, !nth_lookup. by rewrite lookup_take_lt.
Qed.

Lemma byte_at_range l i : bytes l -> 0 <= byte_at l i < 256.
Proof.
  intros Hb. unfold byte_at. rewrite nth_lookup. destruct (l !! i) eqn:E; cbn; [|lia].
  by eapply Forall_lookup_1 in Hb.
Qed.

(** The fields of the parsed header are those of the packet. *)
Lemma ipv4_fields data :
  bytes data -> 20 <= Zlen data ->
  let h := ipv4_header_of (slice data 0 20) in
  version4_ihl4 h = byte_at data 0 /\ ntoh16 (total_length h) = be16_at data 2 /\
  ntoh16 (checksum h) = be16_at data 10 /\ be16_at (slice data 0 20) 10 = be16_at data 10 /\
  0 <= checksum h < 2 ^ 16.
Proof.
  intros Hb Hl. pose proof (bytes_slice data 0 20 Hb) as Hs.
  pose proof (length_slice data 0 20 ltac:(lia) ltac:(lia) ltac:(lia)) as Hn.
  unfold be16_at, byte_at. rewrite <- !(nth_slice data 20) by lia.
  change (Z.of_nat 20) with 20. set (raw := slice data 0 20) in *. clearbody raw.
  assert (length raw = 20%nat) as H20 by lia. clear Hn.
  explode raw H20. explode_bytes Hs. cbv zeta. unfold ipv4_header_of.
  cbv [slice take drop Z.to_nat Pos.to_nat Pos.iter_op Nat.add].
  cbn [version4_ihl4 total_length checksum nth]. rewrite !ntoh16_bytes, le_val1 by done.
  split_and!; try done; unfold le_val; lia.
Qed.

Lemma slice_header data n :
  20 <= n <= Zlen data -> slice data 0 20 ++ slice data 20 (n - 20) = slice data 0 n.
Proof.
  intros. replace (slice data 0 n) with (slice data 0 (20 + (n - 20))) by (f_equal; lia).
  by rewrite slice_app_split by lia.
Qed.

Lemma set_checksum_same h c c' : set_checksum (set_checksum h c') c = set_checksum h c.
Proof. done. Qed.
Lemma set_checksum_id h : set_checksum h (checksum h) = h.
Proof. by destruct h. Qed.

Lemma header_sum_pos data n :
  bytes data -> 20 <= n <= Zlen data -> byte_at data 0 <> 0 ->
  0 < Zsum (words (slice data 0 n)) - be16_at data 10.
Proof.
  intros Hb Hn H0. rewrite <- slice_header by done.
  pose proof (length_slice data 0 20 ltac:(lia) ltac:(lia) ltac:(lia)) as Hl.
  pose proof (bytes_slice data 0 20 Hb) as Hs.
  pose proof (Zsum_words_range _ (bytes_slice data 20 (n - 20) Hb)) as [Hr _].
  rewrite words_app, Zsum_app by (apply (even_length _ 20); done).
  unfold be16_at, byte_at in *. rewrite <- !(nth_slice data 20) in * by lia.
  change (Z.of_nat 20) with 20 in *. set (raw := slice data 0 20) in *. clearbody raw.
  assert (length raw = 20%nat) as H20 by lia. clear Hl.
  explode raw H20. explode_bytes Hs. cbn [nth words] in *. unfold Zsum at 1. cbn [foldr]. lia.
Qed.

Lemma ipv4_check_ok data data_len :
  bytes data -> 0 <= data_len <= Zlen data -> data_len <= INT_MAX ->
  ipv4_check data data_len =
    Ok (if ipv4_valid data data_len
        then Some (ipv4_header_of (slice data 0 20), ihl_bytes data, be16_at data 2 - ihl_bytes data)
        else None).
Proof.
  intros Hb Hd Hmax. unfold INT_MAX in Hmax. unfold ipv4_check, sizeof_ipv4_header, ipv4_valid.
  rewrite bind_ASSERT_true by lia. rewrite u64_small by lia. rewrite Z.ltb_antisym.
  destruct (20 <=? data_len) eqn:E20; cbn [negb andb]; [|done]. zify_bool.
  assert (mem_read data 0 20 = Ok (slice data 0 20)) as -> by (apply mem_read_Ok; split; [lia|done]).
  cbn [mbind outcome_bind].
  destruct (ipv4_fields data Hb ltac:(lia)) as (Hv & Ht & Hc & Hc' & Hcr).
  set (h := ipv4_header_of (slice data 0 20)) in *.
  pose proof (byte_at_range data 0 Hb) as Hb0.
  unfold IPV4_GET_VERSION, IPV4_GET_IHL. rewrite Hv, Ht, get_version_byte, get_ihl_byte by done.
  case (Z.eqb_spec (byte_at data 0 / 16) 4) as [Hver|]; cbn [negb andb]; [|done].
  pose proof (Z.mod_pos_bound (byte_at data 0) 16 ltac:(lia)) as Hmod.
  rewrite u16_small by lia. rewrite (Z.mul_comm _ 4). fold (ihl_bytes data).
  set (hl := ihl_bytes data) in *. assert (hl mod 2 = 0) as Hev.
  { unfold hl, ihl_bytes. replace (4 * (byte_at data 0 mod 16)) with (2 * (byte_at data 0 mod 16) * 2) by lia.
    apply Z_mod_mult. }
  assert (hl <= 60) by (unfold hl, ihl_bytes; lia).
  rewrite !(Z.ltb_antisym _ hl), !(Z.ltb_antisym hl), (Z.ltb_antisym (be16_at data 2)).
  destruct (20 <=? hl) eqn:E1; cbn [negb andb]; [|done].
  destruct (hl <=? data_len) eqn:E2; cbn [negb andb]; [|done].
  destruct (hl <=? be16_at data 2) eqn:E3; cbn [negb andb]; [|done].
  destruct (be16_at data 2 <=? data_len) eqn:E4; cbn [negb andb]; [|done]. zify_bool.
  pose proof (length_slice data 0 20 ltac:(lia) ltac:(lia) ltac:(lia)) as Hn20.
  pose proof (bytes_slice data 0 20 Hb) as Hs20.
  rewrite (u16_small (hl - 20)) by lia. rewrite ipv4_checksum_ok; first last.
  { lia. } { rewrite Zminus_mod, Hev. done. } { lia. } { lia. } { done. }
  { unfold h. rewrite ipv4_header_bytes_set by (done || lia). rewrite !Forall_app. split_and!.
    - by apply bytes_slice. - apply le_bytes_bytes. - by apply bytes_slice. }
  cbn [mbind outcome_bind]. unfold h at 2. rewrite ipv4_zeroed_sum by (done || lia).
  rewrite slice_header by lia. rewrite Hc', set_checksum_same, set_checksum_id.
  set (S := Zsum (words (slice data 0 hl))).
  assert (0 < S - be16_at data 10) as Hpos.
  { apply header_sum_pos; [done|lia|]. intros H0. by rewrite H0 in Hver. }
  assert (0 <= be16_at data 10 <= 65535).
  { pose proof (byte_at_range data 10 Hb). pose proof (byte_at_range data 11 Hb). unfold be16_at. lia. }
  rewrite <- checksum_test by done. rewrite <- Hc.
  pose proof (ones_complement_range (S - ntoh16 (checksum h))).
  replace (checksum h =? hton16 (65535 - ones_complement (S - ntoh16 (checksum h))))
    with (ntoh16 (checksum h) =? 65535 - ones_complement (S - ntoh16 (checksum h))).
  { by destruct (_ =? _). }
  apply eq_true_iff_eq. rewrite !Z.eqb_eq. split; intros Heq.
  - rewrite <- Heq. symmetry. by apply ntoh16_hton16.
  - rewrite Heq at 1. apply ntoh16_hton16. lia.
Qed.

(** [ipv4_check] decides RFC 791/1071 validity. For every buffer it reads
    only inside the buffer, terminates, and accepts exactly the packets of
    version 4 whose header length is at least 20 and fits, whose total length
    covers the header and fits in the received bytes, and whose header words
    have one's complement sum 0xFFFF (a stored checksum of 0xFFFF, which no
    sender produces, is not accepted); it then returns the header with the
    checksum field restored, the offset of the payload and its length. *)
Theorem ipv4_check_spec data data_len :
  bytes data -> 0 <= data_len <= Zlen data -> data_len <= INT_MAX ->
  ipv4_check data data_len =
    Ok (if ipv4_valid data data_len
        then Some (ipv4_header_of (slice data 0 20), ihl_bytes data, be16_at data 2 - ihl_bytes data)
        else None).
Proof. apply ipv4_check_ok. Qed.

(** A packet with a 20-byte header and two bytes of payload, and stray data. *)
Definition demo_ipv4 : list Z :=
  [0x45; 0; 0; 22; 0; 0; 0; 0; 64; 17; 0x66; 0xd5; 10; 0; 0; 1; 10; 0; 0; 2; 7; 8; 99].

Lemma ipv4_check_spec_witness :
  ipv4_valid demo_ipv4 23 = true /\
  ipv4_check demo_ipv4 23 = Ok (Some (ipv4_header_of (slice demo_ipv4 0 20), 20, 2)).
Proof.
  split; [vm_compute; reflexivity|].
  rewrite (ipv4_check_spec demo_ipv4 23).
  - vm_compute. reflexivity.
  - unfold demo_ipv4, is_byte. repeat (apply Forall_cons; split; [lia|]). apply Forall_nil_2.
  - vm_compute. split; congruence.
  - vm_compute. congruence.
Defined.

(** ** UDP *)
Lemma summer_all l :
  bytes l -> Zlen l <= 65535 -> Zlen l mod 2 = 0 ->
  udp_checksum_summer l 0 (Zlen l) = Ok (Zsum (words l)).
Proof. intros. rewrite summer_ok by (done || lia). by rewrite slice_all. Qed.

Lemma summer_n l n :
  bytes l -> Zlen l = n -> n <= 65535 -> n mod 2 = 0 ->
  udp_checksum_summer l 0 n = Ok (Zsum (words l)).
Proof. intros ? <-. by apply summer_all. Qed.

Lemma words_snoc l b : (length l mod 2 = 0)%nat -> Zsum (words (l ++ [b])) = Zsum (words l) + 256 * b.
Proof. intros. rewrite words_app, Zsum_app by done. unfold Zsum at 2. cbn [words foldr]. lia. Qed.

Lemma add_payload_ok t payload off len :
  bytes payload -> 0 <= off -> 0 <= len <= 65535 -> off + len <= Zlen payload -> 0 <= t < 2 ^ 31 ->
  add_payload t payload off len = Ok (t + Zsum (words (slice payload off len))).
Proof.
  intros Hb Ho Hl Hm Ht. unfold add_payload.
  pose proof (Z.mod_pos_bound len 2 ltac:(lia)) as Hmod. pose proof (Z.div_mod len 2 ltac:(lia)) as Hdm.
  pose proof (Zsum_words_bound _ (bytes_slice payload off len Hb)) as Hx.
  rewrite length_slice in Hx by lia.
  destruct (len mod 2 =? 0) eqn:E; zify_bool.
  { rewrite summer_ok by (done || lia). cbn [mbind outcome_bind]. by rewrite u32_small by lia. }
  assert ((len - 1) mod 2 = 0) as Hev by (rewrite Zminus_mod; by replace (len mod 2) with 1 by lia).
  rewrite summer_ok by (done || lia). cbn [mbind outcome_bind].
  destruct (slice payload (off + (len - 1)) 1) as [|b [|? ?]] eqn:Eb.
  1,3: pose proof (length_slice payload (off + (len - 1)) 1 ltac:(lia) ltac:(lia) ltac:(lia)) as H;
       rewrite Eb in H; cbn in H; lia.
  unfold ptr, mem_read. rewrite (proj2 (in_range_true _ _ _)) by lia. cbn [mbind outcome_bind].
  rewrite Eb. cbn [head of_option mbind outcome_bind].
  pose proof (bytes_slice payload (off + (len - 1)) 1 Hb) as Hbb. rewrite Eb in Hbb.
  apply Forall_cons in Hbb as [Hbb _]. unfold is_byte in Hbb.
  rewrite (u16_small b) by lia. rewrite Z.shiftl_mul_pow2 by lia. rewrite u16_small by lia.
  rewrite hton16_bytes. rewrite (summer_n _ 2) by (done || (apply Forall_rev, le_bytes_bytes)).
  cbn [mbind outcome_bind].
  assert (Zsum (words (rev (le_bytes 2 (b * 2 ^ 8)))) = 256 * b) as ->.
  { change (2 ^ 8) with 256. unfold le_bytes. cbn [rev app words]. unfold Zsum. cbn [foldr].
    rewrite (Z.mod_mul b 256), (Z.div_mul b 256), (Z.mod_small b) by lia. lia. }
  assert (slice payload off len = slice payload off (len - 1) ++ [b]) as Hsp.
  { rewrite <- Eb, <- slice_app_split by lia. f_equal. lia. }
  rewrite Hsp, words_snoc in Hx |- *
    by (apply (even_length _ (len - 1)); [rewrite length_slice; lia|done]).
  pose proof (Zsum_words_range _ (bytes_slice payload off (len - 1) Hb)) as [? _].
  rewrite !u32_small by (rewrite ?u32_small; lia). f_equal. lia.
Qed.

(** The bytes a UDP checksum covers: the pseudo header of IPv4 or IPv6, the
    UDP header and the payload. *)
Definition pseudo4 (source_addr dest_addr udp_len : Z) : list Z :=
  le_bytes 4 source_addr ++ le_bytes 4 dest_addr ++ [0; IPV4_PROTOCOL_UDP] ++ rev (le_bytes 2 udp_len).
Definition pseudo6 (source_addr dest_addr : list Z) (udp_len : Z) : list Z :=
  source_addr ++ dest_addr ++ rev (le_bytes 4 udp_len) ++ [0; 0; 0; IPV6_NEXT_UDP].

Lemma length_udp_header_bytes h : length (udp_header_bytes h) = 8%nat.
Proof. unfold udp_header_bytes. by rewrite !length_app, !length_le_bytes. Qed.
Lemma bytes_udp_header h : bytes (udp_header_bytes h).
Proof. unfold udp_header_bytes. rewrite !Forall_app. auto with vpn. Qed.
#[local] Hint Resolve bytes_udp_header : vpn.

Ltac even_list := apply (even_length _ _ eq_refl); rewrite ?length_app, ?length_le_bytes, ?length_rev,
  ?length_udp_header_bytes, ?length_le_bytes; (done || reflexivity).

(** Removes the conversions to [uint32_t] that do not wrap, from the inside. *)
Ltac u32_clean :=
  repeat match goal with
  | |- context [u32 ?x] =>
      lazymatch x with context [u32 _] => fail | _ => rewrite (u32_small x) by lia end
  end.

Ltac field_side :=
  first [ done | lia | apply le_bytes_bytes | apply Forall_rev, le_bytes_bytes
        | by rewrite ?length_rev, length_le_bytes ].

Lemma udp_checksum_ok h payload off len source_addr dest_addr :
  bytes payload -> 0 <= off -> 0 <= len <= 65527 -> off + len <= Zlen payload ->
  udp_checksum h payload off len source_addr dest_addr =
    Ok (hton16 (65535 - ones_complement (Zsum (words
      (pseudo4 source_addr dest_addr (8 + len) ++ udp_header_bytes h ++ slice payload off len))))).
Proof.
  intros Hb Ho Hl Hm. unfold udp_checksum.
  pose proof (bytes_udp_header h) as Hhb. pose proof (length_udp_header_bytes h) as Hhl.
  unfold sizeof_udp_header. rewrite u16_small, !hton16_bytes by lia.
  assert (forall n x, bytes (rev (le_bytes n x))) as Hrev by (intros; by apply Forall_rev, le_bytes_bytes).
  rewrite !(summer_n (le_bytes 4 _) 4) by field_side. cbn [mbind outcome_bind].
  rewrite !(summer_n (rev (le_bytes 2 _)) 2) by field_side. cbn [mbind outcome_bind].
  rewrite (summer_n (udp_header_bytes h) 8) by (done || lia). cbn [mbind outcome_bind].
  pose proof (Zsum_words_range _ (le_bytes_bytes 4 source_addr)) as B1.
  pose proof (Zsum_words_range _ (le_bytes_bytes 4 dest_addr)) as B2.
  pose proof (Zsum_words_range _ (Hrev 2%nat IPV4_PROTOCOL_UDP)) as B3.
  pose proof (Zsum_words_range _ (Hrev 2%nat (8 + len))) as B4.
  pose proof (Zsum_words_range _ Hhb) as B5.
  pose proof (Zsum_words_bound _ (bytes_slice payload off len Hb)) as B6.
  rewrite length_slice in B6 by lia. rewrite !length_rev, !length_le_bytes in *. rewrite Hhl in *.
  change ((Z.of_nat 4 + 1) / 2) with 2 in *. change ((Z.of_nat 2 + 1) / 2) with 1 in *.
  change ((Z.of_nat 8 + 1) / 2) with 4 in *.
  u32_clean.
  rewrite add_payload_ok by (done || lia). cbn [mbind outcome_bind].
  rewrite finish_checksum_ok by lia. do 4 f_equal. unfold pseudo4.
  rewrite <- !app_assoc, !words_app by even_list. rewrite !Zsum_app. cbn [app words].
  change (Zsum (words (rev (le_bytes 2 IPV4_PROTOCOL_UDP)))) with 17.
  change (Zsum [256 * 0 + IPV4_PROTOCOL_UDP]) with 17. lia.
Qed.

(** [udp_checksum] computes the UDP checksum over IPv4 (RFC 768): for every
    header, payload of any (also odd) length and addresses, it reads only
    inside its arguments, terminates, and returns in network order the
    complement of the one's complement sum of pseudo header, header and
    payload. (A computed value of zero is returned as zero.) *)
Theorem udp_checksum_spec h payload off len source_addr dest_addr :
  bytes payload -> 0 <= off -> 0 <= len <= 65527 -> off + len <= Zlen payload ->
  udp_checksum h payload off len source_addr dest_addr =
    Ok (hton16 (65535 - ones_complement (Zsum (words
      (pseudo4 source_addr dest_addr (8 + len) ++ udp_header_bytes h ++ slice payload off len))))).
Proof. apply udp_checksum_ok. Qed.

Definition demo_udp : udp_header := mkUDP (hton16 53) (hton16 1000) (hton16 11) 0.

Lemma udp_checksum_spec_witness :
  udp_checksum demo_udp [9; 1; 2; 3] 1 3 (hton32 0x0A000001) (hton32 0x0A000002) =
    Ok (hton16 0xe3b6).
Proof.
  rewrite (udp_checksum_spec demo_udp [9; 1; 2; 3] 1 3 (hton32 0x0A000001) (hton32 0x0A000002)).
  - vm_compute. reflexivity.
  - unfold is_byte. repeat (apply Forall_cons; split; [lia|]). apply Forall_nil_2.
  - lia.
  - lia.
  - vm_compute. congruence.
Defined.

Lemma udp_ip6_checksum_ok h payload off len source_addr dest_addr :
  bytes payload -> 0 <= off -> 0 <= len <= 65535 -> off + len <= Zlen payload ->
  bytes source_addr -> bytes dest_addr -> Zlen source_addr = 16 -> Zlen dest_addr = 16 ->
  udp_ip6_checksum h payload off len source_addr dest_addr =
    Ok (hton16 (65535 - ones_complement (Zsum (words
      (pseudo6 source_addr dest_addr (8 + len) ++ udp_header_bytes h ++ slice payload off len))))).
Proof.
  intros Hb Ho Hl Hm Hsb Hdb Hs Hd. unfold udp_ip6_checksum.
  pose proof (bytes_udp_header h) as Hhb. pose proof (length_udp_header_bytes h) as Hhl.
  unfold sizeof_udp_header. rewrite (u32_small (8 + len)), !hton32_bytes by lia.
  assert (forall n x, bytes (rev (le_bytes n x))) as Hrev by (intros; by apply Forall_rev, le_bytes_bytes).
  rewrite (summer_n source_addr 16), (summer_n dest_addr 16) by (done || lia). cbn [mbind outcome_bind].
  rewrite !(summer_n (rev (le_bytes 4 _)) 4) by field_side. cbn [mbind outcome_bind].
  rewrite (summer_n (udp_header_bytes h) 8) by (done || lia). cbn [mbind outcome_bind].
  pose proof (Zsum_words_range _ Hsb) as B1. pose proof (Zsum_words_range _ Hdb) as B2.
  pose proof (Zsum_words_range _ (Hrev 4%nat IPV6_NEXT_UDP)) as B3.
  pose proof (Zsum_words_range _ (Hrev 4%nat (8 + len))) as B4.
  pose proof (Zsum_words_range _ Hhb) as B5.
  pose proof (Zsum_words_bound _ (bytes_slice payload off len Hb)) as B6.
  rewrite length_slice in B6 by lia. rewrite !length_rev, !length_le_bytes in *. rewrite Hhl, Hs, Hd in *.
  change ((Z.of_nat 4 + 1) / 2) with 2 in *. change ((16 + 1) / 2) with 8 in *.
  change ((Z.of_nat 8 + 1) / 2) with 4 in *.
  u32_clean. rewrite add_payload_ok by (done || lia). cbn [mbind outcome_bind].
  rewrite finish_checksum_ok by lia. do 4 f_equal. unfold pseudo6.
  assert (length source_addr mod 2 = 0)%nat by (by apply (even_length _ 16)).
  assert (length dest_addr mod 2 = 0)%nat by (by apply (even_length _ 16)).
  rewrite <- !app_assoc, !words_app by (done || even_list). rewrite !Zsum_app.
  change (Zsum (words (rev (le_bytes 4 IPV6_NEXT_UDP)))) with 17.
  change (Zsum (words [0; 0; 0; IPV6_NEXT_UDP])) with 17. lia.
Qed.

(** [udp_ip6_checksum] computes the UDP checksum over IPv6 (RFC 8200): for
    every header, payload and pair of 16-byte addresses, it reads only inside
    its arguments, terminates, and returns in network order the complement of
    the one's complement sum of the IPv6 pseudo header, header and payload; in
    particular it returns 0 when that sum is 0xFFFF. *)
Theorem udp_ip6_checksum_spec h payload off len source_addr dest_addr :
  bytes payload -> 0 <= off -> 0 <= len <= 65535 -> off + len <= Zlen payload ->
  bytes source_addr -> bytes dest_addr -> Zlen source_addr = 16 -> Zlen dest_addr = 16 ->
  udp_ip6_checksum h payload off len source_addr dest_addr =
    Ok (hton16 (65535 - ones_complement (Zsum (words
      (pseudo6 source_addr dest_addr (8 + len) ++ udp_header_bytes h ++ slice payload off len))))).
Proof. apply udp_ip6_checksum_ok. Qed.

(** A datagram for which the code sends the checksum 0, which means "no
    checksum" (RFC 768) and which IPv6 receivers must discard (RFC 8200): the
    statement that replaces 0 by 0xFFFF has no effect. *)
Lemma udp_ip6_checksum_spec_witness :
  udp_ip6_checksum (mkUDP (hton16 53) (hton16 1000) (hton16 10) 0)
    [251; 189] 0 2 (replicate 16 0) (replicate 16 0) = Ok 0.
Proof.
  rewrite (udp_ip6_checksum_spec (mkUDP (hton16 53) (hton16 1000) (hton16 10) 0)
             [251; 189] 0 2 (replicate 16 0) (replicate 16 0)).
  - vm_compute. reflexivity.
  - unfold is_byte. repeat (apply Forall_cons; split; [lia|]). apply Forall_nil_2.
  - lia.
  - lia.
  - vm_compute. congruence.
  - apply Forall_replicate. unfold is_byte. lia.
  - apply Forall_replicate. unfold is_byte. lia.
  - reflexivity.
  - reflexivity.
Defined.

(** What makes the [data_len] bytes at [off] an acceptable datagram. *)
Definition udp_valid (data : list Z) (off data_len : Z) : bool :=
  (8 <=? data_len) && (8 <=? be16_at (slice data off 8) 4) && (be16_at (slice data off 8) 4 <=? data_len).

(** [udp_check] accepts exactly the datagrams whose length field covers the
    header and fits, and returns the payload without stray data. *)
Lemma udp_check_ok data off data_len :
  bytes data -> 0 <= off -> 0 <= data_len <= INT_MAX -> off + data_len <= Zlen data ->
  udp_check data off data_len =
    Ok (if udp_valid data off data_len
        then Some (udp_header_of (slice data off 8), off + 8, be16_at (slice data off 8) 4 - 8)
        else None).
Proof.
  intros Hb Ho Hd Hm. unfold INT_MAX in *. unfold udp_check, sizeof_udp_header, udp_valid.
  rewrite bind_ASSERT_true by lia. rewrite u64_small by lia. rewrite Z.ltb_antisym.
  destruct (8 <=? data_len) eqn:E8; cbn [negb andb]; [|done]. zify_bool.
  assert (mem_read data off 8 = Ok (slice data off 8)) as -> by (apply mem_read_Ok; split; [lia|done]).
  cbn [mbind outcome_bind].
  assert (ntoh16 (udp_length (udp_header_of (slice data off 8))) = be16_at (slice data off 8) 4) as ->.
  { pose proof (bytes_slice data off 8 Hb) as Hs.
    pose proof (length_slice data off 8 ltac:(lia) ltac:(lia) ltac:(lia)) as Hn.
    set (raw := slice data off 8) in *. clearbody raw. assert (length raw = 8%nat) as H8 by lia.
    clear Hn. explode raw H8. explode_bytes Hs. unfold udp_header_of, be16_at, byte_at.
    cbv [slice take drop Z.to_nat Pos.to_nat Pos.iter_op Nat.add]. cbn [udp_length nth].
    by rewrite ntoh16_bytes. }
  rewrite !Z.ltb_antisym, u64_small by lia. replace (8 + (data_len - 8)) with data_len by lia.
  destruct (8 <=? _); cbn [negb andb]; [|done]. by destruct (_ <=? data_len); cbn [negb].
Qed.

Definition ipv6_valid (data : list Z) (data_len : Z) : bool :=
  (40 <=? data_len) && (byte_at data 0 / 16 =? 6) && (be16_at data 4 <=? data_len - 40).

Lemma ipv6_check_ok data data_len :
  bytes data -> 0 <= data_len <= INT_MAX -> data_len <= Zlen data ->
  ipv6_check data data_len =
    Ok (if ipv6_valid data data_len
        then Some (ipv6_header_of (slice data 0 40), 40, be16_at data 4) else None).
Proof.
  intros Hb Hd Hm. unfold INT_MAX in *. unfold ipv6_check, sizeof_ipv6_header, ipv6_valid.
  rewrite bind_ASSERT_true by lia. rewrite u64_small by lia. rewrite Z.ltb_antisym.
  destruct (40 <=? data_len) eqn:E40; cbn [negb andb]; [|done]. zify_bool.
  assert (mem_read data 0 40 = Ok (slice data 0 40)) as -> by (apply mem_read_Ok; split; [lia|done]).
  cbn [mbind outcome_bind].
  assert (ntoh8 (version4_tc4 (ipv6_header_of (slice data 0 40))) = byte_at data 0 /\
          ntoh16 (payload_length (ipv6_header_of (slice data 0 40))) = be16_at data 4) as [-> ->].
  { pose proof (bytes_slice data 0 40 Hb) as Hs.
    pose proof (length_slice data 0 40 ltac:(lia) ltac:(lia) ltac:(lia)) as Hn.
    unfold be16_at, byte_at. rewrite <- !(nth_slice data 40) by lia. change (Z.of_nat 40) with 40.
    set (raw := slice data 0 40) in *. clearbody raw. assert (length raw = 40%nat) as H40 by lia.
    clear Hn. explode raw H40. explode_bytes Hs. unfold ipv6_header_of.
    cbv [slice take drop Z.to_nat Pos.to_nat Pos.iter_op Nat.add].
    cbn [payload_length version4_tc4 nth]. by rewrite ntoh16_bytes, le_val1. }
  rewrite Z.shiftr_div_pow2 by lia. change (2 ^ 4) with 16.
  destruct (_ =? 6); cbn [negb andb]; [|done]. rewrite u64_small by lia. rewrite Z.ltb_antisym.
  by destruct (_ <=? _).
Qed.
End NetProto.
