(* ===== verification/Addr.v ===== *)
(** * Network addresses (system/BAddr.h)

    Addresses with ports, their comparison and order (the keys of the
    connection trees), printing and parsing. The name resolution of the C
    library, [getaddrinfo], is a parameter of the parser. *)
From Stdlib Require Import ZArith Lia.
From stdpp Require Import base tactics numbers option gmap list.
From S2P Require Import Prelude LinkedList Bavl ByteOrder.

Module BAddr.
Import ByteOrder.

(** Addresses and ports are in network order in memory. *)
Inductive BIPAddr := BIPADDR_NONE | BIPADDR_IPV4 (ip : Z) | BIPADDR_IPV6 (ip : list Z).

Inductive BAddr :=
| BADDR_NONE
| BADDR_IPV4 (ip port : Z)
| BADDR_IPV6 (ip : list Z) (port : Z)
| BADDR_PACKET (phys_proto interface_index header_type packet_type : Z) (phys_addr : list Z).

Definition BADDR_MAX_PRINT_LEN : Z := 120.

Definition BADDR_TYPE_IPV4 : Z := 1.
Definition BADDR_TYPE_IPV6 : Z := 2.
Definition BADDR_TYPE_PACKET : Z := 5.

(** The field [type]. *)
Definition type (a : BAddr) : Z :=
  match a with BADDR_NONE => 0 | BADDR_IPV4 _ _ => 1 | BADDR_IPV6 _ _ => 2 | BADDR_PACKET _ _ _ _ _ => 5 end.
Definition iptype (a : BIPAddr) : Z :=
  match a with BIPADDR_NONE => 0 | BIPADDR_IPV4 _ => 1 | BIPADDR_IPV6 _ => 2 end.

(** The sign of [memcmp(l1, l2, n)]. *)
Fixpoint memcmp (n : nat) (l1 l2 : list Z) : Z :=
  match n with
  | O => 0
  | S n => if hd 0 l1 =? hd 0 l2 then memcmp n (tl l1) (tl l2) else hd 0 l1 - hd 0 l2
  end.

Definition BIPAddr_InitInvalid : BIPAddr := BIPADDR_NONE.
Definition BIPAddr_InitIPv4 (ip : Z) : BIPAddr := BIPADDR_IPV4 ip.
Definition BIPAddr_InitIPv6 (ip : list Z) : BIPAddr := BIPADDR_IPV6 (take 16 ip).
Definition BIPAddr_IsInvalid (a : BIPAddr) : bool := iptype a =? 0.

Definition BIPAddr_Compare (a1 a2 : BIPAddr) : bool :=
  if negb (iptype a1 =? iptype a2) then false else
  match a1, a2 with
  | BIPADDR_IPV4 i1, BIPADDR_IPV4 i2 => i1 =? i2
  | BIPADDR_IPV6 i1, BIPADDR_IPV6 i2 => memcmp 16 i1 i2 =? 0
  | _, _ => false
  end.

Definition BAddr_MakeNone : BAddr := BADDR_NONE.
Definition BAddr_MakeIPv4 (ip port : Z) : BAddr := BADDR_IPV4 ip port.
Definition BAddr_MakeIPv6 (ip : list Z) (port : Z) : BAddr := BADDR_IPV6 (take 16 ip) port.
Definition BAddr_MakeFromIpaddrAndPort (ipaddr : BIPAddr) (port : Z) : BAddr :=
  match ipaddr with
  | BIPADDR_NONE => BAddr_MakeNone
  | BIPADDR_IPV4 ip => BAddr_MakeIPv4 ip port
  | BIPADDR_IPV6 ip => BAddr_MakeIPv6 ip port
  end.
Definition BAddr_InitNone : BAddr := BAddr_MakeNone.
Definition BAddr_InitIPv4 (ip port : Z) : BAddr := BAddr_MakeIPv4 ip port.
Definition BAddr_InitIPv6 (ip : list Z) (port : Z) : BAddr := BAddr_MakeIPv6 ip port.
Definition BAddr_InitFromIpaddrAndPort (ipaddr : BIPAddr) (port : Z) : BAddr :=
  BAddr_MakeFromIpaddrAndPort ipaddr port.

Definition BAddr_IsInvalid (a : BAddr) : bool := type a =? 0.

Definition BAddr_GetPort (a : BAddr) : outcome Z :=
  match a with BADDR_IPV4 _ port => Ok port | BADDR_IPV6 _ port => Ok port | _ => Fault end.

Definition BAddr_GetIPAddr (a : BAddr) : BIPAddr :=
  match a with
  | BADDR_IPV4 ip _ => BIPAddr_InitIPv4 ip
  | BADDR_IPV6 ip _ => BIPAddr_InitIPv6 ip
  | _ => BIPAddr_InitInvalid
  end.

Definition BAddr_SetPort (a : BAddr) (port : Z) : outcome BAddr :=
  match a with
  | BADDR_IPV4 ip _ => Ok (BADDR_IPV4 ip port)
  | BADDR_IPV6 ip _ => Ok (BADDR_IPV6 ip port)
  | _ => Fault
  end.

Definition BAddr_Compare (a1 a2 : BAddr) : bool :=
  if negb (type a1 =? type a2) then false else
  match a1, a2 with
  | BADDR_IPV4 i1 p1, BADDR_IPV4 i2 p2 => (i1 =? i2) && (p1 =? p2)
  | BADDR_IPV6 i1 p1, BADDR_IPV6 i2 p2 => (memcmp 16 i1 i2 =? 0) && (p1 =? p2)
  | _, _ => false
  end.

Definition BAddr_CompareOrder (a1 a2 : BAddr) : Z :=
  let cmp := B_COMPARE (type a1) (type a2) in
  if negb (cmp =? 0) then cmp else
  match a1, a2 with
  | BADDR_IPV4 i1 p1, BADDR_IPV4 i2 p2 =>
      let cmp := B_COMPARE (ntoh32 i1) (ntoh32 i2) in
      if negb (cmp =? 0) then cmp else B_COMPARE (ntoh16 p1) (ntoh16 p2)
  | BADDR_IPV6 i1 p1, BADDR_IPV6 i2 p2 =>
      let cmp := memcmp 16 i1 i2 in
      if negb (cmp =? 0) then B_COMPARE cmp 0 else B_COMPARE (ntoh16 p1) (ntoh16 p2)
  | _, _ => 0
  end.

(** ** Printing

    Strings are lists of character codes without the terminating zero. *)
Fixpoint digits (fuel : nat) (base n : Z) (acc : list Z) : list Z :=
  let c d := if d <? 10 then 48 + d else 87 + d in
  match fuel with
  | O => acc
  | S fuel => if n <? base then c n :: acc else digits fuel base (n / base) (c (n mod base) :: acc)
  end.

(** ["%"PRIu8], ["%"PRIu16] and ["%"PRIx16] of [sprintf]. *)
Definition fmt_dec (n : Z) : list Z := digits 5 10 n [].
Definition fmt_hex (n : Z) : list Z := digits 4 16 n [].

Definition CH_DOT : Z := 46.
Definition CH_COLON : Z := 58.
Definition CH_LBRACKET : Z := 91.
Definition CH_RBRACKET : Z := 93.

(** ["(none)"] *)
Definition str_none : list Z := [40; 110; 111; 110; 101; 41].

Definition dotted (b : list Z) : list Z :=
  fmt_dec (nth 0 b 0) ++ [CH_DOT] ++ fmt_dec (nth 1 b 0) ++ [CH_DOT] ++
  fmt_dec (nth 2 b 0) ++ [CH_DOT] ++ fmt_dec (nth 3 b 0).

Definition be16 (ip : list Z) (i : nat) : Z := 256 * nth i ip 0 + nth (S i) ip 0.

Definition BIPAddr_Print (a : BIPAddr) : list Z :=
  match a with
  | BIPADDR_NONE => str_none
  | BIPADDR_IPV4 ip => dotted (le_bytes 4 ip)
  | BIPADDR_IPV6 ip =>
      fmt_hex (be16 ip 0) ++ [CH_COLON] ++ fmt_hex (be16 ip 2) ++ [CH_COLON] ++
      fmt_hex (be16 ip 4) ++ [CH_COLON] ++ fmt_hex (be16 ip 6) ++ [CH_COLON] ++
      fmt_hex (be16 ip 8) ++ [CH_COLON] ++ fmt_hex (be16 ip 10) ++ [CH_COLON] ++
      fmt_hex (be16 ip 12) ++ [CH_COLON] ++ fmt_hex (be16 ip 14)
  end.

(** Packet addresses, which are only logged, are not printed here: [None]. *)
Definition BAddr_Print (a : BAddr) : option (list Z) :=
  match a with
  | BADDR_NONE => Some str_none
  | BADDR_IPV4 ip port => Some (BIPAddr_Print (BIPAddr_InitIPv4 ip) ++ [CH_COLON] ++ fmt_dec (ntoh16 port))
  | BADDR_IPV6 ip port => Some (BIPAddr_Print (BIPAddr_InitIPv6 ip) ++ [CH_COLON] ++ fmt_dec (ntoh16 port))
  | BADDR_PACKET _ _ _ _ _ => None
  end.

(** ** Parsing *)

(** [while (i < len && str[i] != c) i++] from the start of [str]. *)
Fixpoint scan (c : Z) (str : list Z) : nat :=
  match str with [] => O | x :: str => if x =? c then O else S (scan c str) end.

Definition isspace (c : Z) : bool := (c =? 32) || ((9 <=? c) && (c <=? 13)).
Definition isdigit (c : Z) : bool := (48 <=? c) && (c <=? 57).

Fixpoint strtol_digits (acc : Z) (str : list Z) : Z * list Z :=
  match str with
  | [] => (acc, [])
  | c :: str' => if isdigit c then strtol_digits (10 * acc + (c - 48)) str' else (acc, str)
  end.

Fixpoint skip_spaces (str : list Z) : list Z :=
  match str with [] => [] | c :: str' => if isspace c then skip_spaces str' else str end.

(** [strtol(str, &err, 10)] on a string too short to overflow: the value and the
    rest of the string at [err], all of it if there is no number. *)
Definition strtol (str : list Z) : Z * list Z :=
  let s := skip_spaces str in
  let '(neg, s) := match s with
                   | c :: s' => if c =? 45 then (true, s') else if c =? 43 then (false, s') else (false, s)
                   | [] => (false, s)
                   end in
  match s with
  | c :: _ => if isdigit c then let '(v, rest) := strtol_digits 0 s in (if neg : bool then - v else v, rest)
              else (0, str)
  | [] => (0, str)
  end.

Inductive family := AF_INET | AF_INET6.

Section Parse.

(** [getaddrinfo family numeric_only host]: the bytes of the first address, or
    [None] on an error. *)
Variable getaddrinfo : family -> bool -> list Z -> option (list Z).

(** The address part and the port part of the string. *)
Definition split_addr (str : list Z) : option (family * list Z * list Z) :=
  let len := length str in
  match str with
  | c :: _ =>
      if c =? CH_LBRACKET then
        let i := (1 + scan CH_RBRACKET (drop 1 str))%nat in
        if (len <=? i)%nat then None else
        if (len <=? i + 1)%nat || negb (nth (i + 1) str 0 =? CH_COLON) then None else
        Some (AF_INET6, take (i - 1) (drop 1 str), drop (i + 2) str)
      else
        let i := scan CH_COLON str in
        if (len <=? i)%nat then None else Some (AF_INET, take i str, drop (i + 1) str)
  | [] => None
  end.

(** [name_len]: the size of the buffer for the name, [None] if [name] is NULL.
    The result is the address and the name, [None] the return value 0. *)
Definition BAddr_Parse2 (str : list Z) (name_len : option Z) (noresolve : bool)
    : option (BAddr * list Z) :=
  let len := Zlen str in
  if (len <? 1) || (1000 <? len) then None else
  match split_addr str with
  | None => None
  | Some (fam, addr_str, port_str) =>
      if 128 <=? Zlen addr_str then None else
      if 6 <=? Zlen port_str then None else
      let '(conv_res, err) := strtol port_str in
      if bool_decide (port_str = []) || negb (bool_decide (err = [])) then None else
      if (conv_res <? 0) || (UINT16_MAX <? conv_res) then None else
      let port := hton16 conv_res in
      match getaddrinfo fam noresolve addr_str with
      | None => None
      | Some b =>
          let addr := match fam with
                      | AF_INET => BADDR_IPV4 (le_val b) port
                      | AF_INET6 => BADDR_IPV6 b port
                      end in
          match name_len with
          | Some n => if n <=? Zlen addr_str then None else Some (addr, addr_str)
          | None => Some (addr, addr_str)
          end
      end
  end.

Definition BAddr_Parse (str : list Z) (name_len : option Z) : option (BAddr * list Z) :=
  BAddr_Parse2 str name_len false.

End Parse.

(** ** Order *)
Section Comparators.
Context {A B : Type}.

Lemma comparator_ext (c c' : A -> A -> Z) :
  Comparator c -> (forall x y, c' x y = c x y) -> Comparator c'.
Proof. intros [] H. split; intros *; rewrite !H; eauto. Qed.

Lemma comparator_preimage (c : B -> B -> Z) (f : A -> B) :
  Comparator c -> Comparator (fun x y => c (f x) (f y)).
Proof. intros []. split; intros *; eauto. Qed.

(** Comparing by [c1] and, if equal, by [c2]. *)
Definition lex (c1 c2 : A -> A -> Z) (x y : A) : Z :=
  if negb (c1 x y =? 0) then c1 x y else c2 x y.

Lemma comparator_lex (c1 c2 : A -> A -> Z) : Comparator c1 -> Comparator c2 -> Comparator (lex c1 c2).
Proof.
  intros C1 C2.
  assert (Heq : forall x y z, c1 x y = 0 -> c1 z x = c1 z y).
  { intros x y z H. pose proof (cmp_eq_lt x y z H). rewrite (cmp_antisym x z), (cmp_antisym y z). lia. }
  unfold lex. split.
  - intros x y. pose proof (cmp_range (cmp := c1) x y). pose proof (cmp_range (cmp := c2) x y). case_match; auto.
  - intros x y. rewrite (cmp_antisym (cmp := c1) x y), (cmp_antisym (cmp := c2) x y).
    destruct (Z.eqb_spec (c1 x y) 0), (Z.eqb_spec (- c1 x y) 0); cbn; lia.
  - intros x y z. pose proof (cmp_lt_trans (cmp := c1) x y z). pose proof (cmp_lt_trans (cmp := c2) x y z).
    pose proof (cmp_eq_lt (cmp := c1) x y z). pose proof (Heq y z x).
    pose proof (cmp_range (cmp := c1) x z).
    destruct (Z.eqb_spec (c1 x y) 0), (Z.eqb_spec (c1 y z) 0), (Z.eqb_spec (c1 x z) 0); cbn; intuition lia.
  - intros x y z. pose proof (cmp_eq_lt (cmp := c1) x y z). pose proof (cmp_eq_lt (cmp := c2) x y z).
    destruct (Z.eqb_spec (c1 x y) 0) as [E|E]; cbn; [|lia]. intros E2. rewrite (cmp_eq_lt x y z E).
    by rewrite (cmp_eq_lt x y z E2).
Qed.

End Comparators.

Lemma memcmp_comparator n : Comparator (fun l1 l2 => B_COMPARE (memcmp n l1 l2) 0).
Proof.
  induction n as [|n IH]; [split; cbn; auto|].
  eapply comparator_ext.
  { apply (comparator_lex (fun l1 l2 : list Z => B_COMPARE (hd 0 l1) (hd 0 l2))
      (fun l1 l2 => B_COMPARE (memcmp n (tl l1) (tl l2)) 0)).
    - by apply comparator_preimage, _.
    - apply (comparator_preimage _ tl IH). }
  intros x y. unfold lex. cbn [memcmp]. rewrite !(B_COMPARE_if (hd 0 x)).
  destruct (Z.eqb_spec (hd 0 x) (hd 0 y)) as [->|Hne]; [by rewrite Z.ltb_irrefl|]. rewrite B_COMPARE_if.
  destruct (Z.ltb_spec (hd 0 x) (hd 0 y)), (Z.ltb_spec (hd 0 y) (hd 0 x)),
    (Z.ltb_spec (hd 0 x - hd 0 y) 0), (Z.ltb_spec 0 (hd 0 x - hd 0 y)); cbn; lia.
Qed.

Lemma B_COMPARE_refl x : B_COMPARE x x = 0.
Proof. unfold B_COMPARE. lia. Qed.

(** The order as a lexicographic comparison of keys. *)
Definition key4 (a : BAddr) : Z := match a with BADDR_IPV4 ip _ => ntoh32 ip | _ => 0 end.
Definition key6 (a : BAddr) : list Z := match a with BADDR_IPV6 ip _ => ip | _ => [] end.
Definition keyp (a : BAddr) : Z :=
  match a with BADDR_IPV4 _ p => ntoh16 p | BADDR_IPV6 _ p => ntoh16 p | _ => 0 end.

#[global] Instance BAddr_comparator : Comparator BAddr_CompareOrder.
Proof.
  eapply comparator_ext.
  { apply (comparator_lex (fun x y => B_COMPARE (type x) (type y))
      (lex (fun x y => B_COMPARE (key4 x) (key4 y))
         (lex (fun x y => B_COMPARE (memcmp 16 (key6 x) (key6 y)) 0) (fun x y => B_COMPARE (keyp x) (keyp y))))).
    2: apply comparator_lex; [|apply comparator_lex].
    - by apply comparator_preimage, _.
    - by apply comparator_preimage, _.
    - apply (comparator_preimage (fun l1 l2 => B_COMPARE (memcmp 16 l1 l2) 0) key6), memcmp_comparator.
    - by apply comparator_preimage, _. }
  intros x y. unfold BAddr_CompareOrder, lex.
  destruct x as [|i1 p1|i1 p1|], y as [|i2 p2|i2 p2|]; cbn [type key4 key6 keyp]; try done.
  rewrite !B_COMPARE_refl, (B_COMPARE_if (memcmp 16 i1 i2)). cbn [Z.eqb negb].
  destruct (Z.eqb_spec (memcmp 16 i1 i2) 0) as [->|Hne]; cbn [negb]; [done|].
  destruct (Z.ltb_spec (memcmp 16 i1 i2) 0); [done|]. destruct (Z.ltb_spec 0 (memcmp 16 i1 i2)); [done|lia].
Qed.

(** Addresses of the two IP families with fields in the range of their types. *)
Definition wf (a : BAddr) : Prop :=
  match a with
  | BADDR_IPV4 ip port => 0 <= ip < 2 ^ 32 /\ 0 <= port < 2 ^ 16
  | BADDR_IPV6 ip port => length ip = 16%nat /\ bytes ip /\ 0 <= port < 2 ^ 16
  | _ => False
  end.

Lemma memcmp_eq n l1 l2 : length l1 = n -> length l2 = n -> memcmp n l1 l2 = 0 <-> l1 = l2.
Proof.
  revert l1 l2; induction n as [|n IH]; intros [|x l1] [|y l2] H1 H2; cbn in *; try lia; [done|].
  destruct (Z.eqb_spec x y) as [->|]; [rewrite IH by lia; naive_solver|]. split; [lia|]. naive_solver.
Qed.

Lemma B_COMPARE_0 x y : B_COMPARE x y = 0 <-> x = y.
Proof. rewrite B_COMPARE_if. destruct (Z.ltb_spec x y), (Z.ltb_spec y x); lia. Qed.

Lemma ntoh16_inj x y : 0 <= x < 2 ^ 16 -> 0 <= y < 2 ^ 16 -> ntoh16 x = ntoh16 y -> x = y.
Proof. intros Hx Hy H. rewrite <- (ntoh16_hton16 x), <- (ntoh16_hton16 y) by done. unfold ntoh16 in *. by rewrite H. Qed.
Lemma ntoh32_inj x y : 0 <= x < 2 ^ 32 -> 0 <= y < 2 ^ 32 -> ntoh32 x = ntoh32 y -> x = y.
Proof. intros Hx Hy H. rewrite <- (ntoh32_hton32 x), <- (ntoh32_hton32 y) by done. unfold ntoh32 in *. by rewrite H. Qed.

Lemma CompareOrder_eq a b : wf a -> wf b -> BAddr_CompareOrder a b = 0 <-> a = b.
Proof.
  unfold BAddr_CompareOrder. destruct a as [|i1 p1|i1 p1|], b as [|i2 p2|i2 p2|]; cbn [wf type]; try done.
  all: rewrite B_COMPARE_refl; cbn [Z.eqb negb].
  - intros [Hi1 Hp1] [Hi2 Hp2]. destruct (Z.eqb_spec (B_COMPARE (ntoh32 i1) (ntoh32 i2)) 0) as [E|E]; cbn [negb].
    + rewrite B_COMPARE_0 in E |- *. apply ntoh32_inj in E; [|done|done]. subst.
      split; [intros ?%ntoh16_inj; congruence|]. by intros [= ->].
    + rewrite B_COMPARE_0 in E |- *. split; [done|]. intros [= -> ->]. done.
  - intros (Hl1 & Hi1 & Hp1) (Hl2 & Hi2 & Hp2). pose proof (memcmp_eq 16 i1 i2 Hl1 Hl2) as Hm.
    destruct (Z.eqb_spec (memcmp 16 i1 i2) 0) as [E|E]; cbn [negb].
    + apply Hm in E as ->. rewrite B_COMPARE_0. split; [intros ?%ntoh16_inj; congruence|]. by intros [= ->].
    + rewrite B_COMPARE_0. split; [done|]. intros [= -> ->]. tauto.
Qed.

(** Addresses whose fields are in the range of their types. *)
Definition ranged (a : BAddr) : Prop :=
  match a with BADDR_NONE | BADDR_PACKET _ _ _ _ _ => True | _ => wf a end.

(** C39: [BAddr_CompareOrder] is what the connection trees need: it returns -1, 0
    or 1 and is a total preorder on all addresses. It returns 0 exactly for
    equal addresses and for any two packet addresses, which it does not tell
    apart; so on IPv4 and IPv6 addresses, the only ones in the trees, it is a
    total order. [BAddr_Compare] holds exactly for equal IPv4 or IPv6
    addresses, so it disagrees on the other two types. *)
Theorem BAddr_order_spec :
  Comparator BAddr_CompareOrder /\
  forall a b, ranged a -> ranged b ->
    (BAddr_CompareOrder a b = 0 <-> a = b \/ type a = BADDR_TYPE_PACKET /\ type b = BADDR_TYPE_PACKET) /\
    (BAddr_Compare a b = true <-> a = b /\ (type a = BADDR_TYPE_IPV4 \/ type a = BADDR_TYPE_IPV6)).
Proof.
  split; [exact _|]. intros a b Ha Hb. split.
  - destruct a as [|i1 p1|i1 p1|], b as [|i2 p2|i2 p2|]; cbn [ranged] in *;
      try (rewrite CompareOrder_eq by done; split; [by left|by intros [?|[[=] ?]]]);
      (split; [intros E|intros [[=]|[[=] [=]]]]); try done; solve [by left|by right].
  - unfold BAddr_Compare.
    destruct a as [|i1 p1|i1 p1|], b as [|i2 p2|i2 p2|]; cbn [ranged wf type] in *; try (split; [done|by intros [[=] ?]]);
      rewrite ?Z.eqb_refl; cbn [negb].
    + split; [done|]. by intros [_ [|]].
    + rewrite andb_true_iff, !Z.eqb_eq. naive_solver.
    + rewrite andb_true_iff, !Z.eqb_eq. destruct Ha as (Hl1 & _), Hb as (Hl2 & _).
      rewrite (memcmp_eq 16 i1 i2) by done. naive_solver.
    + split; [done|]. by intros [_ [|]].
Qed.

Lemma BAddr_order_spec_witness :
  let a := BADDR_IPV4 0x0100007F 0x5000 in
  let b := BADDR_IPV4 0x0100007F 0x5100 in
  let p := BADDR_PACKET 1 1 1 0 [1] in
  let q := BADDR_PACKET 1 2 1 0 [2] in
  BAddr_CompareOrder a a = 0 /\ BAddr_CompareOrder a b <> 0 /\ BAddr_Compare a b = false /\
  BAddr_CompareOrder p q = 0 /\ BAddr_Compare p p = false.
Proof.
  destruct BAddr_order_spec as [_ H]. intros a b p q.
  assert (ranged a) as Ha by (cbn; lia). assert (ranged b) as Hb by (cbn; lia).
  split; [|split; [|split; [|split]]].
  - apply (proj1 (H a a Ha Ha)). left. reflexivity.
  - intros E. apply (proj1 (H a b Ha Hb)) in E. destruct E as [[=]|[[=] _]].
  - destruct (BAddr_Compare a b) eqn:E; [|reflexivity]. apply (proj2 (H a b Ha Hb)) in E. destruct E as [[=] _].
  - apply (proj1 (H p q I I)). right. split; reflexivity.
  - destruct (BAddr_Compare p p) eqn:E; [|reflexivity]. apply (proj2 (H p p I I)) in E. destruct E as [_ [[=]|[=]]].
Defined.

(** ** Printing and parsing *)
Lemma length_digits fuel base n acc : (length (digits fuel base n acc) <= fuel + length acc)%nat.
Proof.
  revert n acc; induction fuel as [|fuel IH]; intros n acc; cbn; [lia|]. case_match; cbn; [lia|].
  etrans; [apply IH|]. cbn. lia.
Qed.

Lemma digits_chars fuel n acc (P : Z -> Prop) :
  0 <= n -> (forall c, 48 <= c <= 57 -> P c) -> Forall P acc -> Forall P (digits fuel 10 n acc).
Proof.
  intros Hn HP. revert n Hn acc; induction fuel as [|fuel IH]; intros n Hn acc Hacc; cbn; [done|].
  destruct (Z.ltb_spec n 10).
  - constructor; [|done]. apply HP. lia.
  - apply IH; [apply Z.div_pos; lia|]. constructor; [|done].
    pose proof (Z.mod_pos_bound n 10). rewrite (proj2 (Z.ltb_lt (n mod 10) 10)) by lia. apply HP. lia.
Qed.

(** Printing a number and reading it. *)
Lemma strtol_digits_print fuel n acc :
  0 <= n < 10 ^ Z.of_nat fuel -> strtol_digits 0 (digits fuel 10 n acc) = strtol_digits n acc.
Proof.
  revert n acc; induction fuel as [|fuel IH]; intros n acc Hn.
  { change (10 ^ Z.of_nat 0) with 1 in Hn. replace n with 0 by lia. done. }
  cbn [digits]. destruct (Z.ltb_spec n 10).
  - cbn. unfold isdigit. rewrite (proj2 (Z.leb_le _ _)), (proj2 (Z.leb_le _ _)) by lia. cbn. f_equal. lia.
  - rewrite Nat2Z.inj_succ, Z.pow_succ_r in Hn by lia. pose proof (Z.mod_pos_bound n 10).
    rewrite (proj2 (Z.ltb_lt (n mod 10) 10)) by lia.
    rewrite IH by (split; [apply Z.div_pos; lia|apply Z.div_lt_upper_bound; lia]).
    cbn. unfold isdigit. rewrite (proj2 (Z.leb_le _ _)), (proj2 (Z.leb_le _ _)) by lia. cbn. f_equal.
    rewrite (Z.div_mod n 10) at 3 by lia. lia.
Qed.

Lemma digits_app fuel n acc : digits fuel 10 n acc = digits fuel 10 n [] ++ acc.
Proof.
  revert n acc; induction fuel as [|fuel IH]; intros n acc; cbn; [done|]. case_match; [done|].
  rewrite (IH _ [_]), (IH _ (_ :: acc)), <- app_assoc. done.
Qed.

Lemma digits_cons fuel n acc :
  (0 < fuel)%nat -> 0 <= n -> exists c l, digits fuel 10 n acc = c :: l /\ isdigit c = true.
Proof.
  intros Hf Hn. assert (Hall : Forall (fun c => isdigit c = true) (digits fuel 10 n [])).
  { apply digits_chars; [done| |constructor]. intros c Hc. unfold isdigit. rewrite andb_true_iff, !Z.leb_le. lia. }
  rewrite digits_app. destruct (digits fuel 10 n []) as [|c l] eqn:E.
  - exfalso. destruct fuel as [|fuel]; [lia|]. cbn in E. destruct (n <? 10); [done|].
    rewrite digits_app in E. by apply app_eq_nil in E as [_ ?].
  - exists c, (l ++ acc). split; [done|]. by inversion Hall.
Qed.

Lemma strtol_fmt_dec n : 0 <= n < 2 ^ 16 -> strtol (fmt_dec n) = (n, []) /\ fmt_dec n <> [].
Proof.
  intros Hn. unfold fmt_dec. destruct (digits_cons 5 n []) as (c & l & E & Hc); [lia|lia|].
  split; [|by rewrite E]. pose proof (strtol_digits_print 5 n [] ltac:(lia)) as Hp. rewrite E in Hp |- *.
  unfold strtol. unfold isdigit in Hc. rewrite andb_true_iff, !Z.leb_le in Hc.
  assert (Hs : isspace c = false) by (unfold isspace; lia). cbn [skip_spaces]. rewrite Hs.
  rewrite (proj2 (Z.eqb_neq c 45)), (proj2 (Z.eqb_neq c 43)) by lia.
  unfold isdigit. rewrite (proj2 (Z.leb_le 48 c)), (proj2 (Z.leb_le c 57)) by lia. cbn [andb].
  by rewrite Hp.
Qed.

Lemma scan_app c l r : Forall (fun x => x <> c) l -> scan c (l ++ c :: r) = length l.
Proof.
  induction 1 as [|x l Hx _ IH]; cbn; [by rewrite Z.eqb_refl|].
  by rewrite (proj2 (Z.eqb_neq x c)), IH by done.
Qed.

Lemma dotted_chars b (P : Z -> Prop) :
  bytes b -> length b = 4%nat -> (forall c, 48 <= c <= 57 -> P c) -> P CH_DOT -> Forall P (dotted b).
Proof.
  intros Hb Hl HP Hd. destruct b as [|b0 [|b1 [|b2 [|b3 [|]]]]]; try done.
  rewrite !Forall_cons in Hb. unfold is_byte in Hb. destruct Hb as (? & ? & ? & ? & _).
  unfold dotted, fmt_dec. cbn [nth].
  repeat first [apply Forall_app; split | apply digits_chars | apply Forall_nil; done
               | apply Forall_cons; split]; (done || lia).
Qed.

Lemma length_dotted b : (length (dotted b) <= 23)%nat.
Proof.
  unfold dotted, fmt_dec. rewrite !length_app. cbn [length].
  pose proof (length_digits 5 10 (nth 0 b 0) []). pose proof (length_digits 5 10 (nth 1 b 0) []).
  pose proof (length_digits 5 10 (nth 2 b 0) []). pose proof (length_digits 5 10 (nth 3 b 0) []).
  cbn [length] in *. lia.
Qed.

Lemma fmt_dec_length n : (length (fmt_dec n) <= 5)%nat.
Proof. unfold fmt_dec. etrans; [apply length_digits|]. cbn. lia. Qed.
Lemma fmt_hex_length n : (length (fmt_hex n) <= 4)%nat.
Proof. unfold fmt_hex. etrans; [apply length_digits|]. cbn. lia. Qed.

(** The text form of an address fits the buffers the callers provide: 39
    characters and the terminating zero for an address (BIPADDR_MAX_PRINT_LEN is
    40), less than BADDR_MAX_PRINT_LEN with a port. *)
Lemma BIPAddr_Print_length a : Zlen (BIPAddr_Print a) <= 39.
Proof.
  destruct a as [|ip|ip]; cbn [BIPAddr_Print]; [cbn; lia| |].
  - pose proof (length_dotted (le_bytes 4 ip)). lia.
  - rewrite !length_app. cbn [length].
    pose proof (fun i => fmt_hex_length (be16 ip i)) as H.
    pose proof (H 0%nat). pose proof (H 2%nat). pose proof (H 4%nat). pose proof (H 6%nat).
    pose proof (H 8%nat). pose proof (H 10%nat). pose proof (H 12%nat). pose proof (H 14%nat). lia.
Qed.

Section Roundtrip.
Variable getaddrinfo : family -> bool -> list Z -> option (list Z).

(** [getaddrinfo] maps the dotted decimal form of an IPv4 address to it. *)
Hypothesis getaddrinfo_numeric : forall numeric b,
  bytes b -> length b = 4%nat -> getaddrinfo AF_INET numeric (dotted b) = Some b.

Lemma split_addr_dotted b s :
  bytes b -> length b = 4%nat -> split_addr (dotted b ++ [CH_COLON] ++ s) = Some (AF_INET, dotted b, s).
Proof.
  intros Hb Hl. assert (Hc : Forall (fun x => x <> CH_COLON /\ x <> CH_LBRACKET) (dotted b)).
  { apply dotted_chars; [done..|unfold CH_COLON, CH_LBRACKET; lia|done]. }
  assert (Hne : dotted b <> []).
  { unfold dotted, fmt_dec. destruct b as [|b0 ?]; [done|]. inversion_clear Hb as [|? ? Hb0 _]. cbn [nth].
    destruct (digits_cons 5 b0 []) as (c & l & -> & _); [lia|by destruct Hb0|done]. }
  unfold split_addr. destruct (dotted b) as [|c l] eqn:E; [done|].
  inversion_clear Hc as [|? ? [Hcc Hcb] Hc']. cbn [app]. rewrite (proj2 (Z.eqb_neq c CH_LBRACKET)) by done.
  change (c :: l ++ CH_COLON :: s) with ((c :: l) ++ CH_COLON :: s).
  rewrite scan_app by (constructor; [done|]; eapply Forall_impl; [exact Hc'|]; naive_solver).
  rewrite length_app. rewrite (proj2 (Nat.leb_gt _ _)) by (cbn; lia).
  rewrite take_app_length. do 3 f_equal. rewrite drop_app. cbn [length].
  rewrite drop_ge by (cbn; lia). cbn [app]. by replace (S (length l) + 1 - S (length l))%nat with 1%nat by lia.
Qed.

(** Addresses round-trip through their text form: what [BAddr_Print] prints
    for an IPv4 address and port fits the buffer and is parsed by [BAddr_Parse2]
    to the same address and port, with or without name resolution, whatever the
    size of the name buffer as long as the address fits. *)
Theorem BAddr_print_parse ip port name_len noresolve :
  0 <= ip < 2 ^ 32 -> 0 <= port < 2 ^ 16 -> (forall n, name_len = Some n -> 24 <= n) ->
  exists s, BAddr_Print (BADDR_IPV4 ip port) = Some s /\ Zlen s < BADDR_MAX_PRINT_LEN /\
    exists name, BAddr_Parse2 getaddrinfo s name_len noresolve = Some (BADDR_IPV4 ip port, name).
Proof.
  intros Hip Hport Hname. eexists. split; [reflexivity|]. cbn [BIPAddr_InitIPv4 BIPAddr_Print].
  set (b := le_bytes 4 ip). assert (Hb : bytes b) by apply le_bytes_bytes.
  assert (Hl : length b = 4%nat) by apply length_le_bytes.
  set (p := ntoh16 port). assert (Hp : 0 <= p < 2 ^ 16) by apply hton16_range.
  pose proof (length_dotted b). pose proof (fmt_dec_length p). destruct (strtol_fmt_dec p Hp) as [Hs Hne].
  split; [rewrite !length_app; cbn [length]; unfold BADDR_MAX_PRINT_LEN; lia|].
  exists (dotted b). unfold BAddr_Parse2. rewrite split_addr_dotted by done. rewrite !length_app. cbn [length].
  rewrite (proj2 (Z.ltb_ge _ 1)), (proj2 (Z.ltb_ge 1000 _)) by lia. cbn [orb].
  rewrite (proj2 (Z.leb_gt 128 _)), (proj2 (Z.leb_gt 6 _)) by lia. rewrite Hs.
  rewrite bool_decide_false, bool_decide_true by done. cbn [orb negb].
  rewrite (proj2 (Z.ltb_ge p 0)), (proj2 (Z.ltb_ge UINT16_MAX p)) by (unfold UINT16_MAX; lia). cbn [orb].
  rewrite getaddrinfo_numeric by done. subst p b.
  change (hton16 (ntoh16 port)) with (ntoh16 (hton16 port)). rewrite (ntoh16_hton16 port) by done.
  rewrite le_val_le_bytes, Z.mod_small by done.
  destruct name_len as [n|]; [|done]. specialize (Hname n eq_refl). by rewrite (proj2 (Z.leb_gt n _)) by lia.
Qed.

End Roundtrip.

(** A resolver of dotted decimal addresses. *)
Definition demo_octet (s : list Z) : option (Z * list Z) :=
  match strtol_digits 0 s with
  | (v, c :: rest) => if c =? CH_DOT then Some (v, rest) else None
  | (_, []) => None
  end.
Definition demo_getaddrinfo (fam : family) (numeric : bool) (s : list Z) : option (list Z) :=
  demo_octet s ≫= fun (x : Z * list Z) => demo_octet x.2 ≫= fun (y : Z * list Z) =>
  demo_octet y.2 ≫= fun (z : Z * list Z) =>
  Some [x.1; y.1; z.1; (strtol_digits 0 z.2).1].

Lemma demo_octet_dec n rest : 0 <= n < 256 -> demo_octet (fmt_dec n ++ CH_DOT :: rest) = Some (n, rest).
Proof.
  intros Hn. unfold demo_octet, fmt_dec. rewrite <- digits_app, strtol_digits_print by lia. done.
Qed.

Lemma demo_getaddrinfo_ok numeric b :
  bytes b -> length b = 4%nat -> demo_getaddrinfo AF_INET numeric (dotted b) = Some b.
Proof.
  intros Hb Hl. destruct b as [|b0 [|b1 [|b2 [|b3 [|]]]]]; try done.
  rewrite !Forall_cons in Hb. unfold is_byte in Hb. destruct Hb as (? & ? & ? & ? & _).
  unfold demo_getaddrinfo, dotted. cbn [nth app].
  do 3 (rewrite demo_octet_dec by done; cbn [mbind option_bind fst snd]).
  unfold fmt_dec. rewrite strtol_digits_print by lia. done.
Qed.

Lemma BAddr_print_parse_witness :
  exists s, BAddr_Print (BADDR_IPV4 0x0100007F 0x5000) = Some s /\
    exists name, BAddr_Parse2 demo_getaddrinfo s None false = Some (BADDR_IPV4 0x0100007F 0x5000, name).
Proof.
  destruct (BAddr_print_parse demo_getaddrinfo demo_getaddrinfo_ok 0x0100007F 0x5000 None false)
    as (s & Hs & _ & Hp); [lia|lia|done|]. by exists s.
Defined.

End BAddr.
