(* ===== verification/Pbuf.v ===== *)
(** Packet buffer chains of lwip (lwip/src/core/pbuf.c): the two copy routines
    tun2socks calls on them. A chain is the list of the payloads of its
    buffers; the field [len] of a buffer is the length of its payload and
    [tot_len] of the first one is the length of the whole contents. *)
From Stdlib Require Import ZArith Lia.
From stdpp Require Import base tactics numbers option list.
From S2P Require Import Prelude.

Module Pbuf.

Definition pbuf := list (list Z).

Definition contents (p : pbuf) : list Z := concat p.
Definition tot_len (p : pbuf) : Z := Zlen (contents p).

(** The loop of [pbuf_copy_partial]: [left] is the next position in the
    destination [dst], [off] the address of the destination in it. *)
Fixpoint copy_partial_loop (p : pbuf) (dst : list Z) (off left len offset copied : Z)
    : outcome (list Z * Z) :=
  match p with
  | [] => Ok (dst, copied)
  | payload :: next =>
      if len =? 0 then Ok (dst, copied) else
      if negb (offset =? 0) && (Zlen payload <=? offset)
      then copy_partial_loop next dst off left len (u16 (offset - Zlen payload)) copied
      else
        let buf_copy_len := u16 (Zlen payload - offset) in
        let buf_copy_len := if len <? buf_copy_len then len else buf_copy_len in
        mem_read payload offset buf_copy_len ≫= fun d =>
        mem_write dst (off + left) d ≫= fun dst =>
        copy_partial_loop next dst off (u16 (left + buf_copy_len)) (u16 (len - buf_copy_len)) 0
          (u16 (copied + buf_copy_len))
  end.

(** The number of bytes copied and the new contents of the destination. *)
Definition pbuf_copy_partial (p : pbuf) (dst : list Z) (off len offset : Z) : outcome (list Z * Z) :=
  copy_partial_loop p dst off 0 len offset 0.

Fixpoint take_loop (p : pbuf) (data : list Z) (total_copy_len copied_total : Z) : outcome pbuf :=
  if total_copy_len =? 0 then Ok p else
  match p with
  | [] => Fault
  | payload :: next =>
      let buf_copy_len := if Zlen payload <? total_copy_len then Zlen payload else total_copy_len in
      mem_read data copied_total buf_copy_len ≫= fun d =>
      mem_write payload 0 d ≫= fun payload =>
      take_loop next data (total_copy_len - buf_copy_len) (copied_total + buf_copy_len) ≫= fun next =>
      Ok (payload :: next)
  end.

(** [None] is an error code, [Some p] is [ERR_OK] with the filled chain. *)
Definition pbuf_take (p : pbuf) (data : list Z) (len : Z) : outcome (option pbuf) :=
  if negb (len <=? tot_len p) then Ok None else
  take_loop p data len 0 ≫= fun p => Ok (Some p).

(** ** Correctness *)
Lemma tot_len_cons d p : tot_len (d :: p) = Zlen d + tot_len p.
Proof. unfold tot_len, contents. cbn [concat]. rewrite length_app. lia. Qed.
Lemma tot_len_nonneg p : 0 <= tot_len p.
Proof. unfold tot_len. lia. Qed.

(** Copying a whole chain that fits in the destination. *)
Lemma copy_all_loop p dst off left copied :
  tot_len p + left <= UINT16_MAX -> 0 <= left -> 0 <= off -> 0 <= copied -> copied + tot_len p <= UINT16_MAX ->
  off + left + tot_len p <= Zlen dst ->
  copy_partial_loop p dst off left (tot_len p) 0 copied =
    Ok (splice dst (off + left) (contents p), copied + tot_len p).
Proof.
  unfold UINT16_MAX. revert dst left copied.
  induction p as [|d p IH]; intros dst left copied Hl H0 Ho Hc Hc' Hd; cbn [copy_partial_loop].
  - cbn [contents concat]. rewrite splice_nil. change (tot_len []) with 0. by rewrite Z.add_0_r.
  - rewrite tot_len_cons in *. pose proof (tot_len_nonneg p). cbn [contents concat]. fold (contents p).
    destruct (Z.eqb_spec (Zlen d + tot_len p) 0) as [Hz|Hz].
    + assert (d = []) as -> by (destruct d; [done|cbn in Hz; lia]).
      assert (contents p = []) as Hp by (apply length_zero_iff_nil; unfold tot_len in *; change (length []) with 0%nat in Hz; lia).
      by rewrite Hp, splice_nil, Hz, Z.add_0_r.
    + cbn [negb andb Z.eqb]. rewrite Z.sub_0_r, (u16_small (Zlen d)) by lia.
      destruct (Z.ltb_spec (Zlen d + tot_len p) (Zlen d)); [lia|].
      assert (mem_read d 0 (Zlen d) = Ok d) as ->.
      { apply mem_read_Ok. split; [lia|]. unfold slice. cbn. by rewrite drop_0, Nat2Z.id, firstn_all. }
      cbn [mbind outcome_bind].
      assert (mem_write dst (off + left) d = Ok (splice dst (off + left) d)) as ->
        by (apply mem_write_Ok; split; [lia|done]).
      cbn [mbind outcome_bind]. rewrite !u16_small by lia.
      replace (Zlen d + tot_len p - Zlen d) with (tot_len p) by lia.
      rewrite IH by (rewrite ?length_splice; lia).
      do 2 f_equal; [|lia]. rewrite Z.add_assoc. apply splice_app; unfold tot_len in *; lia.
Qed.

Lemma pbuf_copy_all p dst off :
  tot_len p <= UINT16_MAX -> 0 <= off -> off + tot_len p <= Zlen dst ->
  pbuf_copy_partial p dst off (tot_len p) 0 = Ok (splice dst off (contents p), tot_len p).
Proof.
  intros. unfold pbuf_copy_partial. pose proof (tot_len_nonneg p).
  rewrite copy_all_loop by lia. by rewrite Z.add_0_r.
Qed.

(** Filling a chain: its contents become the data, buffer boundaries stay. *)
Lemma take_loop_ok p data total copied :
  0 <= copied -> 0 <= total -> copied + total <= Zlen data -> total = tot_len p ->
  exists p', take_loop p data total copied = Ok p' /\
    contents p' = slice data copied total /\ length <$> p' = length <$> p.
Proof.
  revert total copied. induction p as [|d p IH]; intros total copied Hc Ht Hd Htot; cbn [take_loop].
  - cbn in Htot. subst total. cbn. eexists. split_and!; [done| |done]. unfold slice. by rewrite take_0.
  - rewrite tot_len_cons in Htot. pose proof (tot_len_nonneg p).
    destruct (Z.eqb_spec total 0) as [Hz|Hz].
    + eexists. split_and!; [done| |done]. unfold slice. rewrite Hz, take_0.
      apply length_zero_iff_nil. unfold contents. cbn [concat].
      fold (contents p). rewrite length_app. unfold tot_len in *. lia.
    + replace (if Zlen d <? total then Zlen d else total) with (Zlen d)
        by (destruct (Z.ltb_spec (Zlen d) total); lia).
      assert (mem_read data copied (Zlen d) = Ok (slice data copied (Zlen d))) as ->
        by (apply mem_read_Ok; split; [lia|done]). cbn [mbind outcome_bind].
      pose proof (length_slice data copied (Zlen d) ltac:(lia) ltac:(lia) ltac:(lia)) as Hs.
      assert (mem_write d 0 (slice data copied (Zlen d)) = Ok (slice data copied (Zlen d))) as ->.
      { apply mem_write_Ok. split; [lia|]. unfold splice. cbn. rewrite drop_ge by lia. by rewrite app_nil_r. }
      cbn [mbind outcome_bind].
      destruct (IH (total - Zlen d) (copied + Zlen d)) as (p' & -> & Hp & Hf); [lia..|].
      cbn [mbind outcome_bind]. eexists. split_and!; [done| |].
      * unfold contents in *. cbn [concat]. rewrite Hp.
        replace total with (Zlen d + (total - Zlen d)) at 2 by lia. by rewrite slice_app_split by lia.
      * rewrite !fmap_cons, Hf. f_equal. lia.
Qed.

Lemma pbuf_take_all p data :
  tot_len p = Zlen data ->
  exists p', pbuf_take p data (Zlen data) = Ok (Some p') /\ contents p' = data /\
    length <$> p' = length <$> p.
Proof.
  intros Ht. unfold pbuf_take. destruct (Z.leb_spec (Zlen data) (tot_len p)); [|lia]. cbn [negb].
  destruct (take_loop_ok p data (Zlen data) 0) as (p' & -> & Hp & Hf); [lia..|].
  cbn [mbind outcome_bind]. exists p'. split_and!; [done| |done].
  rewrite Hp. unfold slice. cbn. by rewrite drop_0, Nat2Z.id, firstn_all.
Qed.

End Pbuf.
