(* ===== verification/TunDevice.v ===== *)
(** Packets between the tun device and the rest of tun2socks
    (tun2socks/tun2socks.c): UDP datagrams read from the device and handed to
    the UDP relay, UDP payloads of the relay written back to the device as
    IPv4 or IPv6 packets, and the output and input functions of the lwip
    interface. The device, its packets and the relay appear as the calls that
    are made ([BTap_Send], [SocksUdpGwClient_SubmitPacket]). *)
From Stdlib Require Import ZArith Lia.
From stdpp Require Import base tactics numbers option list.
From S2P Require Import Prelude ByteOrder NetProto Addr Pbuf.
Import ByteOrder NetProto BAddr Pbuf.

Module TunDevice.

(** The options these functions test: a relay is configured, IPv6 is enabled,
    transparent DNS is enabled. *)
Record options := mkOptions {
  udpgw_remote_server_addr : bool; netif_ip6addr : bool; opt_dnsgw : bool
}.

(** ** Maximum UDP payload *)
Definition compute_udp_mtu (o : options) (mtu : Z) : Z :=
  let udp_mtu := mtu - (sizeof_ipv4_header + sizeof_udp_header) in
  let udp_mtu :=
    if netif_ip6addr o then
      let udp_ip6_mtu := mtu - (sizeof_ipv6_header + sizeof_udp_header) in
      if udp_mtu <? udp_ip6_mtu then udp_ip6_mtu else udp_mtu
    else udp_mtu in
  if udp_mtu <? 0 then 0 else udp_mtu.

(** ** From the device to the relay *)

(** The arguments of [SocksUdpGwClient_SubmitPacket]. *)
Record submission := mkSubmission {
  sub_local : BAddr; sub_remote : BAddr; sub_is_dns : bool; sub_data : list Z
}.

Definition sizeof_DnsHeader : Z := 12.

(** The test on a packet to port 53: the fields qr (top bit of the third byte)
    and rcode (low half of the fourth byte), ans_count and auth_count. *)
Definition is_dns_query (data : list Z) (off data_len : Z) : outcome bool :=
  if u64 data_len <? sizeof_DnsHeader then Ok false else
  mem_read data off sizeof_DnsHeader ≫= fun header =>
  let qr := Z.shiftr (byte_at header 2) 7 in
  let rcode := Z.land (byte_at header 3) 0x0F in
  let ans_count := le_val (slice header 6 2) in
  let auth_count := le_val (slice header 8 2) in
  Ok ((qr =? 0) && (rcode =? 0) && (ans_count =? 0) && (auth_count =? 0)).

Definition set_udp_cksum (h : udp_header) (c : Z) : udp_header :=
  mkUDP (source_port h) (dest_port h) (udp_length h) c.

(** The common end of the two cases: the payload of [data_len] bytes at [off]. *)
Definition submit_packet (udp_mtu : Z) (local_addr remote_addr : BAddr) (is_dns : bool)
    (data : list Z) (off data_len : Z) : outcome (option submission) :=
  if udp_mtu <? data_len then Ok None else
  mem_read data off data_len ≫= fun payload =>
  Ok (Some (mkSubmission local_addr remote_addr is_dns payload)).

(** [None] is the return value 0, [Some s] is the return value 1 after the
    submission [s]. *)
Definition process_device_udp_packet (o : options) (udp_mtu : Z) (data : list Z) (data_len : Z)
    : outcome (option submission) :=
  ASSERT (0 <=? data_len);;
  if negb (udpgw_remote_server_addr o) then Ok None else
  (if 0 <? data_len then ptr data 0 0 ≫= fun b => Ok (Z.shiftr b 4) else Ok 0) ≫= fun ip_version =>
  if ip_version =? 4 then
    if u64 data_len <? sizeof_ipv4_header then Ok None else
    ptr data 0 9 ≫= fun proto =>
    if negb (proto =? IPV4_PROTOCOL_UDP) then Ok None else
    ipv4_check data data_len ≫= fun r =>
    match r with
    | None => Ok None
    | Some (ipv4_header, off, data_len) =>
        udp_check data off data_len ≫= fun r =>
        match r with
        | None => Ok None
        | Some (udp_header, off, data_len) =>
            let checksum_in_packet := udp_cksum udp_header in
            let udp_header := set_udp_cksum udp_header 0 in
            udp_checksum udp_header data off data_len (source_address ipv4_header)
              (destination_address ipv4_header) ≫= fun checksum_computed =>
            if negb (checksum_in_packet =? checksum_computed) then Ok None else
            let local_addr := BAddr_InitIPv4 (source_address ipv4_header) (source_port udp_header) in
            let remote_addr := BAddr_InitIPv4 (destination_address ipv4_header) (dest_port udp_header) in
            (if opt_dnsgw o && (dest_port udp_header =? hton16 53) then is_dns_query data off data_len
             else Ok false) ≫= fun is_dns =>
            submit_packet udp_mtu local_addr remote_addr is_dns data off data_len
        end
    end
  else if ip_version =? 6 then
    if negb (netif_ip6addr o) then Ok None else
    if u64 data_len <? sizeof_ipv6_header then Ok None else
    ptr data 0 6 ≫= fun next =>
    if negb (next =? IPV6_NEXT_UDP) then Ok None else
    ipv6_check data data_len ≫= fun r =>
    match r with
    | None => Ok None
    | Some (ipv6_header, off, data_len) =>
        udp_check data off data_len ≫= fun r =>
        match r with
        | None => Ok None
        | Some (udp_header, off, data_len) =>
            let checksum_in_packet := udp_cksum udp_header in
            let udp_header := set_udp_cksum udp_header 0 in
            udp_ip6_checksum udp_header data off data_len (source_address6 ipv6_header)
              (destination_address6 ipv6_header) ≫= fun checksum_computed =>
            if negb (checksum_in_packet =? checksum_computed) then Ok None else
            let local_addr := BAddr_InitIPv6 (source_address6 ipv6_header) (source_port udp_header) in
            let remote_addr := BAddr_InitIPv6 (destination_address6 ipv6_header) (dest_port udp_header) in
            submit_packet udp_mtu local_addr remote_addr false data off data_len
        end
    end
  else Ok None.

(** ** From the relay to the device *)

(** [write_buf] is [device_write_buf], of the size of the device MTU. The
    result is its new contents and the packet handed to [BTap_Send], if any. *)
Definition device_write_packet (write_buf iph udph data : list Z) : outcome (list Z * option (list Z)) :=
  mem_write write_buf 0 iph ≫= fun write_buf =>
  mem_write write_buf (Zlen iph) udph ≫= fun write_buf =>
  mem_write write_buf (Zlen iph + Zlen udph) data ≫= fun write_buf =>
  let packet_length := Zlen iph + Zlen udph + Zlen data in
  mem_read write_buf 0 packet_length ≫= fun packet =>
  Ok (write_buf, Some packet).

Definition make_ipv4_header (source destination data_len : Z) : outcome ipv4_header :=
  let iph := mkIPv4 (IPV4_MAKE_VERSION_IHL sizeof_ipv4_header) (hton8 0)
    (hton16 (u16 (sizeof_ipv4_header + sizeof_udp_header + data_len))) (hton16 0) (hton16 0)
    (hton8 64) (hton8 IPV4_PROTOCOL_UDP) (hton16 0) source destination in
  ipv4_checksum iph [] 0 0 ≫= fun c => Ok (set_checksum iph c).

Definition udpgw_client_handler_received (o : options) (mtu : Z) (write_buf : list Z)
    (local_addr remote_addr : BAddr) (data : list Z) (data_len : Z)
    : outcome (list Z * option (list Z)) :=
  ASSERT (udpgw_remote_server_addr o);;
  ASSERT ((type local_addr =? 1) || (type local_addr =? 2));;
  ASSERT (type local_addr =? type remote_addr);;
  ASSERT (0 <=? data_len);;
  match local_addr, remote_addr with
  | BADDR_IPV4 local_ip local_port, BADDR_IPV4 remote_ip remote_port =>
      if (UINT16_MAX - (sizeof_ipv4_header + sizeof_udp_header) <? u64 data_len) ||
         (mtu - (sizeof_ipv4_header + sizeof_udp_header) <? data_len)
      then Ok (write_buf, None) else
      make_ipv4_header remote_ip local_ip data_len ≫= fun iph =>
      let udph := mkUDP remote_port local_port (hton16 (u16 (sizeof_udp_header + data_len))) (hton16 0) in
      udp_checksum udph data 0 data_len (source_address iph) (destination_address iph) ≫= fun c =>
      mem_read data 0 data_len ≫= fun payload =>
      device_write_packet write_buf (ipv4_header_bytes iph) (udp_header_bytes (set_udp_cksum udph c)) payload
  | BADDR_IPV6 local_ip local_port, BADDR_IPV6 remote_ip remote_port =>
      if negb (netif_ip6addr o) then Ok (write_buf, None) else
      if (UINT16_MAX - sizeof_udp_header <? u64 data_len) ||
         (mtu - (sizeof_ipv6_header + sizeof_udp_header) <? data_len)
      then Ok (write_buf, None) else
      let iph := mkIPv6 (hton8 (Z.shiftl 6 4)) (hton8 0) (hton16 0)
        (hton16 (u16 (sizeof_udp_header + data_len))) (hton8 IPV6_NEXT_UDP) (hton8 64)
        (take 16 remote_ip) (take 16 local_ip) in
      let udph := mkUDP remote_port local_port (hton16 (u16 (sizeof_udp_header + data_len))) (hton16 0) in
      udp_ip6_checksum udph data 0 data_len (source_address6 iph) (destination_address6 iph) ≫= fun c =>
      mem_read data 0 data_len ≫= fun payload =>
      device_write_packet write_buf (ipv6_header_bytes iph) (udp_header_bytes (set_udp_cksum udph c)) payload
  | _, _ => Ok (write_buf, None)
  end.

(** ** The lwip interface *)

(** [netif_output_func] and [netif_output_ip6_func] are both this function;
    it always returns [ERR_OK]. The loop that gathers a chain in
    [device_write_buf]; [None] when the packet does not fit. *)
Fixpoint gather (mtu : Z) (write_buf : list Z) (len : Z) (p : pbuf) : outcome (list Z * option Z) :=
  match p with
  | [] => Ok (write_buf, Some len)
  | payload :: next =>
      if mtu - len <? Zlen payload then Ok (write_buf, None) else
      mem_write write_buf len payload ≫= fun write_buf =>
      gather mtu write_buf (len + Zlen payload) next
  end.

Definition common_netif_output (quitting : bool) (mtu : Z) (write_buf : list Z) (p : pbuf)
    : outcome (list Z * option (list Z)) :=
  if quitting then Ok (write_buf, None) else
  match p with
  | [] => Fault
  | [payload] => if mtu <? Zlen payload then Ok (write_buf, None) else Ok (write_buf, Some payload)
  | _ =>
      gather mtu write_buf 0 p ≫= fun '(write_buf, len) =>
      match len with
      | None => Ok (write_buf, None)
      | Some len => mem_read write_buf 0 len ≫= fun packet => Ok (write_buf, Some packet)
      end
  end.

(** What becomes of a packet read from the device. *)
Inductive device_call :=
| Call_Done
| Call_SubmitPacket (s : submission)
| Call_ip_input (p : pbuf)
| Call_ip6_input (p : pbuf)
| Call_pbuf_free (p : pbuf).

(** [ip_ok] and [ip6_ok] tell whether the input functions of lwip return
    [ERR_OK]; the result tells whether this one does. *)
Definition netif_input_func (o : options) (ip_ok ip6_ok : pbuf -> bool) (p : pbuf)
    : outcome (bool * list device_call) :=
  match p with
  | [] => Fault
  | payload :: _ =>
      (if 0 <? Zlen payload then ptr payload 0 0 ≫= fun b => Ok (Z.shiftr b 4) else Ok 0)
        ≫= fun ip_version =>
      if ip_version =? 4 then Ok (ip_ok p, [Call_ip_input p])
      else if (ip_version =? 6) && netif_ip6addr o then Ok (ip6_ok p, [Call_ip6_input p])
      else Ok (true, [Call_pbuf_free p])
  end.

(** [pbuf_alloc] is a fresh chain of the given total length, if lwip has
    memory for it. *)
Definition device_read_handler_send (o : options) (udp_mtu : Z) (quitting : bool)
    (pbuf_alloc : Z -> option pbuf) (ip_ok ip6_ok : pbuf -> bool) (data : list Z) (data_len : Z)
    : outcome (list device_call) :=
  ASSERT (negb quitting);;
  ASSERT (0 <=? data_len);;
  process_device_udp_packet o udp_mtu data data_len ≫= fun r =>
  match r with
  | Some s => Ok [Call_Done; Call_SubmitPacket s]
  | None =>
      if UINT16_MAX <? data_len then Ok [Call_Done] else
      match pbuf_alloc data_len with
      | None => Ok [Call_Done]
      | Some p =>
          pbuf_take p data data_len ≫= fun r =>
          ASSERT (bool_decide (is_Some r));;
          of_option r ≫= fun p =>
          netif_input_func o ip_ok ip6_ok p ≫= fun '((ok, calls) : bool * list device_call) =>
          Ok (Call_Done :: calls ++ (if ok then [] else [Call_pbuf_free p]))
      end
  end.

(** ** What a datagram must satisfy *)

(** The checksum test of a receiver: the one's complement sum over pseudo
    header and datagram is 0xFFFF. (A stored checksum of 0xFFFF is refused.) *)
Definition verified (pseudo datagram : list Z) : bool :=
  (ones_complement (Zsum (words (pseudo ++ datagram))) =? 65535) && negb (be16_at datagram 6 =? 65535).

(** The length field of the datagram at [off]. *)
Definition udp_len_at (data : list Z) (off : Z) : Z := be16_at (slice data off 8) 4.

Definition accepts4 (data : list Z) (data_len : Z) : bool :=
  let h := ipv4_header_of (slice data 0 20) in
  let off := ihl_bytes data in
  ipv4_valid data data_len && (byte_at data 9 =? IPV4_PROTOCOL_UDP) &&
  udp_valid data off (be16_at data 2 - off) &&
  verified (pseudo4 (source_address h) (destination_address h) (udp_len_at data off))
    (slice data off (udp_len_at data off)).

Definition accepts6 (data : list Z) (data_len : Z) : bool :=
  ipv6_valid data data_len && (byte_at data 6 =? IPV6_NEXT_UDP) &&
  udp_valid data 40 (be16_at data 4) &&
  verified (pseudo6 (slice data 8 16) (slice data 24 16) (udp_len_at data 40))
    (slice data 40 (udp_len_at data 40)).

Definition dns_query (payload : list Z) : bool :=
  (12 <=? Zlen payload) && (byte_at payload 2 <? 128) && (byte_at payload 3 mod 16 =? 0) &&
  (be16_at payload 6 =? 0) && (be16_at payload 8 =? 0).

(** The submission for the datagram at [off] between the addresses [src] and
    [dst] (functions of the port), if its payload is not too large. *)
Definition submission_of (udp_mtu : Z) (dns : bool) (data : list Z) (off : Z) (src dst : Z -> BAddr)
    : option submission :=
  let h := udp_header_of (slice data off 8) in
  let payload := slice data (off + 8) (udp_len_at data off - 8) in
  if Zlen payload <=? udp_mtu
  then Some (mkSubmission (src (source_port h)) (dst (dest_port h))
               (dns && (ntoh16 (dest_port h) =? 53) && dns_query payload) payload)
  else None.

Definition udp_submission (o : options) (udp_mtu : Z) (data : list Z) (data_len : Z)
    : option submission :=
  if negb (udpgw_remote_server_addr o) then None
  else if accepts4 data data_len then
    let h := ipv4_header_of (slice data 0 20) in
    submission_of udp_mtu (opt_dnsgw o) data (ihl_bytes data)
      (BADDR_IPV4 (source_address h)) (BADDR_IPV4 (destination_address h))
  else if netif_ip6addr o && accepts6 data data_len then
    submission_of udp_mtu false data 40 (BADDR_IPV6 (slice data 8 16)) (BADDR_IPV6 (slice data 24 16))
  else None.

(** ** Lemmas on the UDP header *)
Lemma length_set_cksum h c : length (udp_header_bytes (set_udp_cksum h c)) = 8%nat.
Proof. apply length_udp_header_bytes. Qed.

(** The sum with the checksum field cleared is the sum less that field. *)
Lemma udp_zeroed_sum raw : length raw = 8%nat -> bytes raw ->
  Zsum (words (udp_header_bytes (set_udp_cksum (udp_header_of raw) 0))) =
    Zsum (words raw) - be16_at raw 6.
Proof.
  intros H8 Hs. explode raw H8. explode_bytes Hs.
  unfold udp_header_of, set_udp_cksum, udp_header_bytes, be16_at, byte_at.
  cbv [slice take drop Z.to_nat Pos.to_nat Pos.iter_op Nat.add].
  cbn [source_port dest_port udp_length udp_cksum nth].
  rewrite !le2_of_bytes by done. change (le_bytes 2 0) with [0; 0]. cbn. lia.
Qed.

Lemma udp_fields raw : length raw = 8%nat -> bytes raw ->
  ntoh16 (udp_cksum (udp_header_of raw)) = be16_at raw 6 /\
  0 <= udp_cksum (udp_header_of raw) < 2 ^ 16 /\ 0 <= be16_at raw 6 <= 65535 /\
  ntoh16 (udp_length (udp_header_of raw)) = be16_at raw 4 /\ 0 <= be16_at raw 4 <= 65535 /\
  0 <= dest_port (udp_header_of raw) < 2 ^ 16.
Proof.
  intros H8 Hs. explode raw H8. explode_bytes Hs.
  unfold udp_header_of, be16_at, byte_at.
  cbv [slice take drop Z.to_nat Pos.to_nat Pos.iter_op Nat.add].
  cbn [source_port dest_port udp_length udp_cksum nth]. rewrite !ntoh16_bytes by done.
  unfold le_val. lia.
Qed.

Lemma hton16_eqb x y : 0 <= x < 2 ^ 16 -> 0 <= y < 2 ^ 16 -> (x =? hton16 y) = (ntoh16 x =? y).
Proof.
  intros Hx Hy. apply eq_true_iff_eq. rewrite !Z.eqb_eq. split; [intros ->; by apply ntoh16_hton16|].
  intros <-. symmetry. apply (ntoh16_hton16 x Hx).
Qed.

(** The comparison of the code is the receiver's test. *)
Lemma cksum_verified pseudo raw payload :
  (length pseudo mod 2 = 0)%nat -> 0 < Zsum (words pseudo) -> bytes payload ->
  length raw = 8%nat -> bytes raw ->
  (udp_cksum (udp_header_of raw) =? hton16 (65535 - ones_complement (Zsum (words
     (pseudo ++ udp_header_bytes (set_udp_cksum (udp_header_of raw) 0) ++ payload))))) =
  verified pseudo (raw ++ payload).
Proof.
  intros Hp Hpos Hpay H8 Hraw.
  destruct (udp_fields raw H8 Hraw) as (Hc & Hcr & Hbr & _).
  assert (length raw mod 2 = 0)%nat as He by (by rewrite H8).
  assert (length (udp_header_bytes (set_udp_cksum (udp_header_of raw) 0)) mod 2 = 0)%nat as He'
    by (by rewrite length_set_cksum).
  pose proof (Zsum_words_range _ Hpay) as [Hpr _]. pose proof (udp_zeroed_sum raw H8 Hraw) as Hz.
  pose proof (Zsum_words_range _ (bytes_udp_header (set_udp_cksum (udp_header_of raw) 0))) as [Hzr _].
  set (S := Zsum (words (pseudo ++ raw ++ payload))).
  assert (Zsum (words (pseudo ++ udp_header_bytes (set_udp_cksum (udp_header_of raw) 0) ++ payload))
          = S - be16_at raw 6) as ->.
  { unfold S. rewrite !words_app, !Zsum_app by done. lia. }
  assert (0 < S - be16_at raw 6) by (unfold S; rewrite !words_app, !Zsum_app by done; lia).
  pose proof (ones_complement_range (S - be16_at raw 6) ltac:(lia)).
  rewrite hton16_eqb, Hc, checksum_test by lia. unfold verified. fold S. f_equal. f_equal.
  unfold be16_at, byte_at. by rewrite !app_nth1 by lia.
Qed.

Lemma pseudo4_even a b n : (length (pseudo4 a b n) mod 2 = 0)%nat.
Proof. unfold pseudo4. by rewrite !length_app, length_rev, !length_le_bytes. Qed.
Lemma pseudo4_pos a b n : 0 < Zsum (words (pseudo4 a b n)).
Proof.
  unfold pseudo4. rewrite !words_app, !Zsum_app by even_list.
  pose proof (Zsum_words_range _ (le_bytes_bytes 4 a)) as [? _].
  pose proof (Zsum_words_range _ (le_bytes_bytes 4 b)) as [? _].
  pose proof (Zsum_words_range (rev (le_bytes 2 n)) (Forall_rev (le_bytes_bytes 2 n))) as [? _].
  change (Zsum (words [0; IPV4_PROTOCOL_UDP])) with 17. lia.
Qed.

Lemma pseudo6_even a b n : length a = 16%nat -> length b = 16%nat -> (length (pseudo6 a b n) mod 2 = 0)%nat.
Proof. intros Ha Hb. unfold pseudo6. by rewrite !length_app, length_rev, !length_le_bytes, Ha, Hb. Qed.
Lemma pseudo6_pos a b n : length a = 16%nat -> length b = 16%nat -> bytes a -> bytes b ->
  0 < Zsum (words (pseudo6 a b n)).
Proof.
  intros Ha Hb Hba Hbb. unfold pseudo6.
  rewrite !words_app, !Zsum_app by (rewrite ?Ha, ?Hb; done || even_list).
  pose proof (Zsum_words_range _ Hba) as [? _]. pose proof (Zsum_words_range _ Hbb) as [? _].
  pose proof (Zsum_words_range (rev (le_bytes 4 n)) (Forall_rev (le_bytes_bytes 4 n))) as [? _].
  change (Zsum (words [0; 0; 0; IPV6_NEXT_UDP])) with 17. lia.
Qed.

(** ** Correctness of the path from the device *)
Lemma ptr_byte data i : 0 <= i < Zlen data -> ptr data 0 i = Ok (byte_at data (Z.to_nat i)).
Proof.
  intros Hi. unfold ptr.
  assert (mem_read data (0 + i) 1 = Ok (slice data (0 + i) 1)) as -> by (apply mem_read_Ok; split; [lia|done]).
  cbn [mbind outcome_bind]. unfold byte_at.
  destruct (lookup_lt_is_Some_2 data (Z.to_nat i)) as [b Hb]; [lia|].
  rewrite (nth_lookup_Some _ _ _ _ Hb). unfold slice. rewrite Z.add_0_l.
  by rewrite (drop_S _ _ _ Hb).
Qed.

Lemma version_nibble data : bytes data -> Z.shiftr (byte_at data 0) 4 = byte_at data 0 / 16.
Proof. intros. by rewrite Z.shiftr_div_pow2. Qed.

Lemma is_dns_query_ok data off len :
  bytes data -> 0 <= off -> 0 <= len <= INT_MAX -> off + len <= Zlen data ->
  is_dns_query data off len = Ok (dns_query (slice data off len)).
Proof.
  intros Hb Ho Hl Hd. unfold INT_MAX in *. unfold is_dns_query, sizeof_DnsHeader, dns_query.
  rewrite u64_small, Z.ltb_antisym, length_slice by lia.
  destruct (12 <=? len) eqn:E12; cbn [negb andb]; [|done]. zify_bool.
  assert (mem_read data off 12 = Ok (slice data off 12)) as -> by (apply mem_read_Ok; split; [lia|done]).
  cbn [mbind outcome_bind].
  assert (slice data off 12 = slice (slice data off len) 0 12) as -> by (rewrite slice_slice by lia; f_equal; lia).
  pose proof (bytes_slice data off len Hb) as Hp.
  pose proof (length_slice data off len ltac:(lia) ltac:(lia) ltac:(lia)) as Hn.
  set (payload := slice data off len) in *. clearbody payload.
  pose proof (length_slice payload 0 12 ltac:(lia) ltac:(lia) ltac:(lia)) as Hr.
  pose proof (bytes_slice payload 0 12 Hp) as Hs.
  unfold be16_at, byte_at. rewrite <- !(nth_slice payload 12) by lia. change (Z.of_nat 12) with 12.
  set (raw := slice payload 0 12) in *. clearbody raw. assert (length raw = 12%nat) as H12 by lia.
  clear Hr. explode raw H12. explode_bytes Hs.
  cbv [slice take drop Z.to_nat Pos.to_nat Pos.iter_op Nat.add]. cbn [nth].
  f_equal. apply eq_true_iff_eq.
  rewrite !andb_true_iff, !Z.eqb_eq, Z.ltb_lt, Z.shiftr_div_pow2 by lia. change 0x0F with (Z.ones 4).
  rewrite Z.land_ones by lia. unfold le_val. change (2 ^ 7) with 128. change (2 ^ 4) with 16. Z.to_euclidean_division_equations; lia.
Qed.

Lemma submit_packet_ok udp_mtu a b dns data off len :
  0 <= off -> 0 <= len -> off + len <= Zlen data ->
  submit_packet udp_mtu a b dns data off len =
    Ok (if len <=? udp_mtu then Some (mkSubmission a b dns (slice data off len)) else None).
Proof.
  intros. unfold submit_packet. rewrite Z.ltb_antisym. destruct (_ <=? _); cbn [negb]; [|done].
  assert (mem_read data off len = Ok (slice data off len)) as -> by (apply mem_read_Ok; split; [lia|done]).
  done.
Qed.

(** What [udp_valid] gives on the datagram at [off]. *)
Lemma udp_valid_bounds data off len :
  bytes data -> 0 <= off -> off + len <= Zlen data -> udp_valid data off len = true ->
  length (slice data off 8) = 8%nat /\ bytes (slice data off 8) /\
  8 <= udp_len_at data off <= len /\ udp_len_at data off <= 65535 /\
  slice data off (udp_len_at data off) = slice data off 8 ++ slice data (off + 8) (udp_len_at data off - 8).
Proof.
  intros Hb Ho Hd Hv. unfold udp_valid in Hv. fold (udp_len_at data off) in Hv. zify_bool.
  pose proof (length_slice data off 8 ltac:(lia) ltac:(lia) ltac:(lia)) as H8.
  pose proof (bytes_slice data off 8 Hb) as Hs.
  assert (length (slice data off 8) = 8%nat) as H8' by lia.
  destruct (udp_fields _ H8' Hs) as (_ & _ & _ & _ & Hr & _). fold (udp_len_at data off) in Hr.
  split_and!; try done; try lia. rewrite <- slice_app_split by lia. f_equal. lia.
Qed.

Lemma accepts_version4 data len : accepts4 data len = true -> byte_at data 0 / 16 = 4.
Proof. unfold accepts4, ipv4_valid. intros. by zify_bool. Qed.
Lemma accepts_version6 data len : accepts6 data len = true -> byte_at data 0 / 16 = 6.
Proof. unfold accepts6, ipv6_valid. intros. by zify_bool. Qed.

Lemma accepts_small data len : len <= 0 -> accepts4 data len = false /\ accepts6 data len = false.
Proof.
  intros. unfold accepts4, accepts6, ipv4_valid, ipv6_valid.
  by destruct (Z.leb_spec 20 len), (Z.leb_spec 40 len); try lia.
Qed.

Section Process.
Context (o : options) (udp_mtu : Z) (data : list Z) (data_len : Z).
Hypothesis Hb : bytes data.
Hypothesis Hlen : 0 <= data_len <= Zlen data.
Hypothesis Hmax : data_len <= INT_MAX.

(** The part of the two cases from the UDP header on, for a datagram of at
    most [n] bytes at [off]. *)
Lemma udp_case off n pseudo cksum (src dst : Z -> BAddr) dns :
  0 <= off -> 0 <= n <= INT_MAX -> off + n <= Zlen data ->
  (length pseudo mod 2 = 0)%nat -> 0 < Zsum (words pseudo) ->
  (udp_valid data off n = true ->
   cksum = Ok (hton16 (65535 - ones_complement (Zsum (words (pseudo ++
     udp_header_bytes (set_udp_cksum (udp_header_of (slice data off 8)) 0) ++
     slice data (off + 8) (udp_len_at data off - 8))))))) ->
  (if udp_valid data off n then
     cksum ≫= fun c =>
     if negb (udp_cksum (udp_header_of (slice data off 8)) =? c) then Ok None else
     (if dns && (dest_port (udp_header_of (slice data off 8)) =? hton16 53)
      then is_dns_query data (off + 8) (udp_len_at data off - 8) else Ok false) ≫= fun is_dns =>
     submit_packet udp_mtu (src (source_port (udp_header_of (slice data off 8))))
       (dst (dest_port (udp_header_of (slice data off 8)))) is_dns data (off + 8) (udp_len_at data off - 8)
   else Ok None) =
  Ok (if udp_valid data off n && verified pseudo (slice data off (udp_len_at data off))
      then submission_of udp_mtu dns data off src dst else None).
Proof.
  intros Ho Hn Hd Hp Hpos Hc. destruct (udp_valid data off n) eqn:Hv; [|done]. cbn [andb].
  rewrite Hc by done. cbn [mbind outcome_bind].
  destruct (udp_valid_bounds data off n Hb Ho Hd Hv) as (H8 & Hs & Hr & Hr' & Hsp).
  unfold INT_MAX in *.
  rewrite (cksum_verified pseudo (slice data off 8)) by (try done; by apply bytes_slice).
  rewrite <- Hsp. destruct (verified _ _); cbn [negb]; [|done].
  destruct (udp_fields _ H8 Hs) as (_ & _ & _ & _ & _ & Hdp).
  rewrite hton16_eqb by lia. unfold submission_of. rewrite length_slice by lia.
  destruct (dns && _) eqn:Ed; cbn [andb].
  - rewrite is_dns_query_ok by (done || unfold INT_MAX; lia). cbn [mbind outcome_bind].
    by rewrite submit_packet_ok by lia.
  - cbn [mbind outcome_bind]. by rewrite submit_packet_ok by lia.
Qed.
Lemma ipv4_valid_bounds : ipv4_valid data data_len = true ->
  20 <= ihl_bytes data <= be16_at data 2 /\ be16_at data 2 <= data_len /\ byte_at data 0 / 16 = 4.
Proof. unfold ipv4_valid. intros. zify_bool. lia. Qed.

Lemma case4_ok :
  udpgw_remote_server_addr o = true -> byte_at data 0 / 16 = 4 -> 0 < data_len ->
  process_device_udp_packet o udp_mtu data data_len = Ok (udp_submission o udp_mtu data data_len).
Proof.
  intros Hg Hv H0. unfold INT_MAX in *. unfold process_device_udp_packet, udp_submission.
  rewrite bind_ASSERT_true, Hg by lia. cbn [negb].
  destruct (Z.ltb_spec 0 data_len); [|lia]. rewrite (ptr_byte data 0) by lia. cbn [mbind outcome_bind Z.to_nat].
  rewrite version_nibble, Hv by done. cbn [Z.eqb Pos.eqb].
  assert (accepts6 data data_len = false) as ->.
  { apply not_true_iff_false. intros Ha%accepts_version6. lia. }
  rewrite andb_false_r. unfold sizeof_ipv4_header. rewrite u64_small by lia.
  unfold accepts4. destruct (Z.ltb_spec data_len 20) as [Hs|Hs].
  { unfold ipv4_valid. by destruct (Z.leb_spec 20 data_len); [lia|]. }
  rewrite ptr_byte by lia. cbn [mbind outcome_bind]. change (Z.to_nat 9) with 9%nat.
  destruct (byte_at data 9 =? _); cbn [negb]; [rewrite andb_true_r|by rewrite andb_false_r].
  rewrite ipv4_check_ok by (done || unfold INT_MAX; lia). cbn [mbind outcome_bind].
  destruct (ipv4_valid data data_len) eqn:H4; cbn [andb]; [|done].
  destruct (ipv4_valid_bounds H4) as (Hi & Ht & _).
  rewrite udp_check_ok by (done || unfold INT_MAX; lia). cbn [mbind outcome_bind].
  fold (udp_len_at data (ihl_bytes data)).
  rewrite <- (udp_case (ihl_bytes data) (be16_at data 2 - ihl_bytes data)
    (pseudo4 (source_address (ipv4_header_of (slice data 0 20)))
      (destination_address (ipv4_header_of (slice data 0 20))) (udp_len_at data (ihl_bytes data)))
    (udp_checksum (set_udp_cksum (udp_header_of (slice data (ihl_bytes data) 8)) 0) data
      (ihl_bytes data + 8) (udp_len_at data (ihl_bytes data) - 8)
      (source_address (ipv4_header_of (slice data 0 20)))
      (destination_address (ipv4_header_of (slice data 0 20))))
    (BADDR_IPV4 (source_address (ipv4_header_of (slice data 0 20))))
    (BADDR_IPV4 (destination_address (ipv4_header_of (slice data 0 20)))) (opt_dnsgw o)).
  - by destruct (udp_valid _ _ _).
  - lia.
  - unfold INT_MAX. lia.
  - lia.
  - apply pseudo4_even.
  - apply pseudo4_pos.
  - intros Hu. destruct (udp_valid_bounds data (ihl_bytes data) (be16_at data 2 - ihl_bytes data) Hb ltac:(lia) ltac:(lia) Hu)
      as (_ & _ & Hr & Hr' & _).
    rewrite udp_checksum_ok by (done || lia). do 8 f_equal. lia.
Qed.

Lemma case6_ok :
  udpgw_remote_server_addr o = true -> byte_at data 0 / 16 = 6 -> 0 < data_len ->
  process_device_udp_packet o udp_mtu data data_len = Ok (udp_submission o udp_mtu data data_len).
Proof.
  intros Hg Hv H0. unfold INT_MAX in *. unfold process_device_udp_packet, udp_submission.
  rewrite bind_ASSERT_true, Hg by lia. cbn [negb].
  destruct (Z.ltb_spec 0 data_len); [|lia]. rewrite (ptr_byte data 0) by lia. cbn [mbind outcome_bind Z.to_nat].
  rewrite version_nibble, Hv by done. cbn [Z.eqb Pos.eqb].
  assert (accepts4 data data_len = false) as ->.
  { apply not_true_iff_false. intros Ha%accepts_version4. lia. }
  destruct (netif_ip6addr o); cbn [negb andb]; [|done].
  unfold sizeof_ipv6_header. rewrite u64_small by lia.
  unfold accepts6. destruct (Z.ltb_spec data_len 40) as [Hs|Hs].
  { unfold ipv6_valid. by destruct (Z.leb_spec 40 data_len); [lia|]. }
  rewrite ptr_byte by lia. cbn [mbind outcome_bind]. change (Z.to_nat 6) with 6%nat.
  destruct (byte_at data 6 =? _); cbn [negb]; [rewrite andb_true_r|by rewrite andb_false_r].
  rewrite ipv6_check_ok by (done || unfold INT_MAX; lia). cbn [mbind outcome_bind].
  destruct (ipv6_valid data data_len) eqn:H6; cbn [andb]; [|done].
  assert (be16_at data 4 <= data_len - 40) as Hp by (unfold ipv6_valid in H6; by zify_bool).
  assert (0 <= be16_at data 4) as Hp0.
  { unfold be16_at. pose proof (byte_at_range data 4 Hb). pose proof (byte_at_range data 5 Hb). lia. }
  rewrite udp_check_ok by (done || unfold INT_MAX; lia). cbn [mbind outcome_bind].
  fold (udp_len_at data 40).
  assert (forall k, 0 <= k <= 24 -> slice (slice data 0 40) k 16 = slice data k 16) as Hsl.
  { intros. rewrite slice_slice by lia. f_equal. }
  assert (forall k, 0 <= k <= 24 -> length (slice data k 16) = 16%nat) as H16.
  { intros k Hk. pose proof (length_slice data k 16 ltac:(lia) ltac:(lia) ltac:(lia)). lia. }
  cbn [ipv6_header_of source_address6 destination_address6]. rewrite !Hsl by lia.
  rewrite <- (udp_case 40 (be16_at data 4)
    (pseudo6 (slice data 8 16) (slice data 24 16) (udp_len_at data 40))
    (udp_ip6_checksum (set_udp_cksum (udp_header_of (slice data 40 8)) 0) data 48
      (udp_len_at data 40 - 8) (slice data 8 16) (slice data 24 16))
    (BADDR_IPV6 (slice data 8 16)) (BADDR_IPV6 (slice data 24 16)) false).
  - destruct (udp_valid _ _ _); [|done]. unfold BAddr_InitIPv6, BAddr_MakeIPv6.
    by rewrite !take_ge by (rewrite H16; lia).
  - lia.
  - unfold INT_MAX. lia.
  - lia.
  - apply pseudo6_even; apply H16; lia.
  - apply pseudo6_pos; try (apply H16; lia); by apply bytes_slice.
  - intros Hu. destruct (udp_valid_bounds data 40 (be16_at data 4) Hb ltac:(lia) ltac:(lia) Hu) as (_ & _ & Hr & Hr' & _).
    pose proof (H16 8 ltac:(lia)). pose proof (H16 24 ltac:(lia)).
    rewrite udp_ip6_checksum_ok by (lia || by apply bytes_slice || done). do 8 f_equal. lia.
Qed.

Lemma process_ok :
  process_device_udp_packet o udp_mtu data data_len = Ok (udp_submission o udp_mtu data data_len).
Proof.
  destruct (udpgw_remote_server_addr o) eqn:Hg.
  2: { unfold process_device_udp_packet, udp_submission. rewrite bind_ASSERT_true, Hg by lia. done. }
  destruct (decide (0 < data_len)) as [H0|H0].
  - destruct (decide (byte_at data 0 / 16 = 4)) as [H4|H4]; [by apply case4_ok|].
    destruct (decide (byte_at data 0 / 16 = 6)) as [H6|H6]; [by apply case6_ok|].
    unfold process_device_udp_packet, udp_submission. rewrite bind_ASSERT_true, Hg by lia. cbn [negb].
    destruct (Z.ltb_spec 0 data_len); [|lia]. rewrite (ptr_byte data 0) by lia. cbn [mbind outcome_bind Z.to_nat].
    rewrite version_nibble by done. destruct (Z.eqb_spec (byte_at data 0 / 16) 4); [done|].
    destruct (Z.eqb_spec (byte_at data 0 / 16) 6); [done|].
    destruct (accepts4 data data_len) eqn:Ha; [by apply accepts_version4 in Ha|].
    destruct (accepts6 data data_len) eqn:Ha'; [by apply accepts_version6 in Ha'|].
    by rewrite andb_false_r.
  - destruct (accepts_small data data_len ltac:(lia)) as [Ha Ha'].
    unfold process_device_udp_packet, udp_submission. rewrite bind_ASSERT_true, Hg, Ha, Ha' by lia.
    rewrite andb_false_r. destruct (Z.ltb_spec 0 data_len); [lia|]. done.
Qed.
End Process.

(** every packet the device delivers is classified as RFC 768, 791 and 8200
    say and never read out of bounds: [process_device_udp_packet] submits to
    the relay exactly the UDP datagrams of valid IPv4 packets, and of IPv6
    packets when IPv6 is enabled, whose checksum verifies and whose payload is
    at most [udp_mtu] bytes, with the addresses of the packet, the payload
    without stray bytes, and the DNS mark exactly on queries to port 53 when a
    DNS gateway is set; every other packet is left to lwip. *)
Theorem process_device_udp_packet_spec o udp_mtu data data_len :
  bytes data -> 0 <= data_len <= Zlen data -> data_len <= INT_MAX ->
  process_device_udp_packet o udp_mtu data data_len = Ok (udp_submission o udp_mtu data data_len).
Proof. apply process_ok. Qed.

(** ** Headers in memory *)
Lemma le_val_small n x : 0 <= x < 256 ^ Z.of_nat n -> le_val (le_bytes n x) = x.
Proof. intros. rewrite le_val_le_bytes. by apply Z.mod_small. Qed.

Lemma slice_app_l (l1 l2 : list Z) n : Zlen l1 = n -> slice (l1 ++ l2) 0 n = l1.
Proof. intros <-. unfold slice. cbn. by rewrite drop_0, Nat2Z.id, take_app_length. Qed.

Lemma slice_app_r (l1 l2 : list Z) off k n : Zlen l1 = off -> 0 <= k ->
  slice (l1 ++ l2) (off + k) n = slice l2 k n.
Proof. intros <- Hk. unfold slice. rewrite drop_app_ge by lia. do 2 f_equal. lia. Qed.

Lemma slice_all_n (l : list Z) n : Zlen l = n -> slice l 0 n = l.
Proof. intros <-. apply slice_all. Qed.

Lemma byte_at_app (l1 l2 : list Z) i : (i < length l1)%nat -> byte_at (l1 ++ l2) i = byte_at l1 i.
Proof. intros. unfold byte_at. by rewrite app_nth1. Qed.

Definition ipv4_wf (h : ipv4_header) : Prop :=
  is_byte (version4_ihl4 h) /\ is_byte (ds h) /\ 0 <= total_length h < 2 ^ 16 /\
  0 <= identification h < 2 ^ 16 /\ 0 <= flags3_fragmentoffset13 h < 2 ^ 16 /\
  is_byte (ttl h) /\ is_byte (protocol h) /\ 0 <= checksum h < 2 ^ 16 /\
  0 <= source_address h < 2 ^ 32 /\ 0 <= destination_address h < 2 ^ 32.

Lemma bytes_ipv4_header h : ipv4_wf h -> bytes (ipv4_header_bytes h).
Proof.
  intros (?&?&?&?&?&?&?&?&?&?). unfold ipv4_header_bytes.
  repeat (apply Forall_app_2 || (apply Forall_cons_2; [done|]) || apply Forall_nil_2 || apply le_bytes_bytes).
Qed.

Lemma ipv4_header_of_bytes h : ipv4_wf h -> ipv4_header_of (ipv4_header_bytes h) = h.
Proof.
  intros (?&?&?&?&?&?&?&?&?&?). destruct h. unfold ipv4_header_of, ipv4_header_bytes.
  cbn [version4_ihl4 ds total_length identification flags3_fragmentoffset13 ttl protocol checksum
       source_address destination_address] in *.
  f_equal; try (by rewrite <- (le_val_small 2) by (cbn; lia)); try (by rewrite <- (le_val_small 4) by (cbn; lia));
    apply le_val1.
Qed.

Lemma udp_header_of_bytes h :
  0 <= source_port h < 2 ^ 16 -> 0 <= dest_port h < 2 ^ 16 -> 0 <= udp_length h < 2 ^ 16 ->
  0 <= udp_cksum h < 2 ^ 16 -> udp_header_of (udp_header_bytes h) = h.
Proof.
  intros. destruct h. unfold udp_header_of, udp_header_bytes.
  cbn [source_port dest_port udp_length udp_cksum] in *.
  f_equal; by rewrite <- (le_val_small 2) by (cbn; lia).
Qed.

(** ** The packets written to the device *)
Lemma device_write_packet_ok buf iph udph data :
  Zlen iph + Zlen udph + Zlen data <= Zlen buf ->
  device_write_packet buf iph udph data =
    Ok (splice buf 0 (iph ++ udph ++ data), Some (iph ++ udph ++ data)).
Proof.
  intros Hl. unfold device_write_packet.
  assert (mem_write buf 0 iph = Ok (splice buf 0 iph)) as -> by (apply mem_write_Ok; split; [lia|done]).
  cbn [mbind outcome_bind].
  assert (mem_write (splice buf 0 iph) (Zlen iph) udph = Ok (splice buf 0 (iph ++ udph))) as ->.
  { apply mem_write_Ok. rewrite length_splice by lia. split; [lia|]. symmetry.
    apply (splice_app buf 0); lia. }
  cbn [mbind outcome_bind].
  assert (mem_write (splice buf 0 (iph ++ udph)) (Zlen iph + Zlen udph) data =
          Ok (splice buf 0 (iph ++ udph ++ data))) as ->.
  { apply mem_write_Ok. rewrite length_splice by (rewrite ?length_app; lia). split; [lia|].
    rewrite app_assoc. rewrite <- (splice_app buf 0 (iph ++ udph)) by (rewrite ?length_app; lia).
    f_equal. rewrite length_app. lia. }
  cbn [mbind outcome_bind].
  replace (Zlen iph + Zlen udph + Zlen data) with (Zlen (iph ++ udph ++ data)) by (rewrite !length_app; lia).
  assert (forall n, n = Zlen (iph ++ udph ++ data) ->
    mem_read (splice buf 0 (iph ++ udph ++ data)) 0 n = Ok (iph ++ udph ++ data)) as ->; [|done..].
  intros n ->. apply mem_read_Ok. rewrite length_splice by (rewrite ?length_app; lia).
  rewrite !length_app. split; [lia|]. symmetry. rewrite <- !length_app.
  apply slice_splice_same; rewrite ?length_app; lia.
Qed.

(** The datagram of [data], with its checksum over the pseudo header. *)
Definition make_udp (pseudo : list Z) (sport dport : Z) (data : list Z) : list Z :=
  let h := mkUDP sport dport (hton16 (8 + Zlen data)) 0 in
  let c := hton16 (65535 - ones_complement (Zsum (words (pseudo ++ udp_header_bytes h ++ data)))) in
  udp_header_bytes (set_udp_cksum h c) ++ data.

Definition make_ipv4 (src dst len : Z) : ipv4_header :=
  let h := mkIPv4 0x45 0 (hton16 (20 + len)) 0 0 64 IPV4_PROTOCOL_UDP 0 src dst in
  set_checksum h (hton16 (65535 - ones_complement (Zsum (words (ipv4_header_bytes h))))).

Definition make_ipv6 (src dst : list Z) (len : Z) : ipv6_header :=
  mkIPv6 0x60 0 0 (hton16 len) IPV6_NEXT_UDP 64 src dst.

(** The packet that carries [data] from [remote_addr] to [local_addr], if the
    family is enabled and the packet fits in the MTU. *)
Definition udp_packet (o : options) (mtu : Z) (local_addr remote_addr : BAddr) (data : list Z)
    : option (list Z) :=
  let n := Zlen data in
  match local_addr, remote_addr with
  | BADDR_IPV4 lip lport, BADDR_IPV4 rip rport =>
      if (n <=? 65507) && (n + 28 <=? mtu)
      then Some (ipv4_header_bytes (make_ipv4 rip lip (8 + n)) ++
                 make_udp (pseudo4 rip lip (8 + n)) rport lport data)
      else None
  | BADDR_IPV6 lip lport, BADDR_IPV6 rip rport =>
      if netif_ip6addr o && (n <=? 65527) && (n + 48 <=? mtu)
      then Some (ipv6_header_bytes (make_ipv6 rip lip (8 + n)) ++
                 make_udp (pseudo6 rip lip (8 + n)) rport lport data)
      else None
  | _, _ => None
  end.

Lemma make_ipv4_wf src dst len :
  0 <= src < 2 ^ 32 -> 0 <= dst < 2 ^ 32 -> ipv4_wf (make_ipv4 src dst len).
Proof.
  intros. unfold make_ipv4, ipv4_wf, is_byte.
  cbn [set_checksum version4_ihl4 ds total_length identification flags3_fragmentoffset13 ttl protocol
       checksum source_address destination_address].
  pose proof (hton16_range (20 + len)). unfold IPV4_PROTOCOL_UDP.
  match goal with |- context [hton16 (65535 - ?x)] => pose proof (hton16_range (65535 - x)) end.
  split_and!; lia.
Qed.

Lemma make_ipv4_header_ok src dst n :
  0 <= src < 2 ^ 32 -> 0 <= dst < 2 ^ 32 -> 0 <= n <= 65507 ->
  make_ipv4_header src dst n = Ok (make_ipv4 src dst (8 + n)).
Proof.
  intros Hs Hd Hn. unfold make_ipv4_header, sizeof_ipv4_header, sizeof_udp_header.
  rewrite u16_small by lia. change (IPV4_MAKE_VERSION_IHL 20) with 0x45. change (hton16 0) with 0.
  unfold hton8. replace (20 + 8 + n) with (20 + (8 + n)) by lia.
  rewrite ipv4_checksum_ok; try done.
  apply bytes_ipv4_header. pose proof (hton16_range (20 + (8 + n))).
  unfold ipv4_wf, is_byte, IPV4_PROTOCOL_UDP.
  cbn [version4_ihl4 ds total_length identification flags3_fragmentoffset13 ttl protocol
     checksum source_address destination_address]. split_and!; lia.
Qed.

Lemma length_ipv6_header_bytes h : length (source_address6 h) = 16%nat ->
  length (destination_address6 h) = 16%nat -> length (ipv6_header_bytes h) = 40%nat.
Proof. intros Hs Hd. unfold ipv6_header_bytes. rewrite !length_app, !length_le_bytes, Hs, Hd. done. Qed.

Lemma handler_received_ok o mtu buf local_addr remote_addr data :
  udpgw_remote_server_addr o = true -> Zlen buf = mtu -> mtu <= INT_MAX ->
  wf local_addr -> wf remote_addr -> type local_addr = type remote_addr ->
  bytes data -> Zlen data <= INT_MAX ->
  udpgw_client_handler_received o mtu buf local_addr remote_addr data (Zlen data) =
    Ok (match udp_packet o mtu local_addr remote_addr data with
        | Some p => (splice buf 0 p, Some p) | None => (buf, None) end).
Proof.
  intros Hg Hbuf Hmtu Hl Hr Ht Hb Hmax. unfold INT_MAX in *. unfold udpgw_client_handler_received.
  rewrite bind_ASSERT_true, bind_ASSERT_true, bind_ASSERT_true, bind_ASSERT_true
    by (done || lia || (destruct local_addr; cbn in Hl |- *; done || lia) || by apply Z.eqb_eq).
  unfold sizeof_ipv4_header, sizeof_ipv6_header, sizeof_udp_header, UINT16_MAX.
  rewrite !u64_small by lia.
  assert (mem_read data 0 (Zlen data) = Ok data) as Hread.
  { apply mem_read_Ok. split; [lia|]. by rewrite slice_all. }
  destruct local_addr as [|lip lport|lip lport|], remote_addr as [|rip rport|rip rport|];
    cbn [wf type] in *; try done; unfold udp_packet.
  - destruct Hl as [? ?], Hr as [? ?].
    destruct (Z.ltb_spec (2 ^ 16 - 1 - (20 + 8)) (Zlen data)), (Z.leb_spec (Zlen data) 65507); try lia;
      cbn [orb andb]; [done|].
    destruct (Z.ltb_spec (mtu - (20 + 8)) (Zlen data)), (Z.leb_spec (Zlen data + 28) mtu); try lia; [done|].
    rewrite make_ipv4_header_ok by lia. cbn [mbind outcome_bind].
    rewrite udp_checksum_ok by (done || lia). cbn [mbind outcome_bind]. rewrite Hread. cbn [mbind outcome_bind].
    rewrite u16_small, slice_all by lia. change (hton16 0) with 0.
    rewrite device_write_packet_ok; [done|].
    rewrite length_ipv4_header_bytes, length_set_cksum. lia.
  - destruct Hl as (Hll & ? & ?), Hr as (Hrl & ? & ?).
    destruct (netif_ip6addr o); cbn [negb andb]; [|done].
    destruct (Z.ltb_spec (2 ^ 16 - 1 - 8) (Zlen data)), (Z.leb_spec (Zlen data) 65527); try lia;
      cbn [orb andb]; [done|].
    destruct (Z.ltb_spec (mtu - (40 + 8)) (Zlen data)), (Z.leb_spec (Zlen data + 48) mtu); try lia; [done|].
    rewrite !take_ge by lia. cbn [source_address6 destination_address6].
    rewrite udp_ip6_checksum_ok by (done || lia). cbn [mbind outcome_bind]. rewrite Hread.
    cbn [mbind outcome_bind]. rewrite u16_small, slice_all by lia. change (hton16 0) with 0.
    rewrite device_write_packet_ok; [done|].
    rewrite length_ipv6_header_bytes, length_set_cksum by done. lia.
Qed.

(** ** The device accepts what is written to it *)

(** The datagram [make_udp] builds verifies, and its fields are read back. *)
Lemma make_udp_ok pseudo sport dport data :
  (length pseudo mod 2 = 0)%nat -> 0 < Zsum (words pseudo) -> bytes data -> Zlen data <= 65527 ->
  0 <= sport < 2 ^ 16 -> 0 <= dport < 2 ^ 16 ->
  exists h, make_udp pseudo sport dport data = udp_header_bytes h ++ data /\
    udp_header_of (udp_header_bytes h) = h /\ source_port h = sport /\ dest_port h = dport /\
    be16_at (udp_header_bytes h) 4 = 8 + Zlen data /\ verified pseudo (udp_header_bytes h ++ data) = true.
Proof.
  intros Hp Hpos Hb Hn Hs Hd. unfold make_udp.
  set (h0 := mkUDP sport dport (hton16 (8 + Zlen data)) 0).
  set (c := hton16 _). exists (set_udp_cksum h0 c). split; [done|].
  pose proof (hton16_range (8 + Zlen data)). assert (0 <= c < 2 ^ 16) by apply hton16_range.
  assert (udp_header_of (udp_header_bytes (set_udp_cksum h0 c)) = set_udp_cksum h0 c) as Hof
    by (by apply udp_header_of_bytes).
  pose proof (bytes_udp_header (set_udp_cksum h0 c)) as Hbu.
  pose proof (length_set_cksum h0 c) as H8.
  destruct (udp_fields _ H8 Hbu) as (_ & _ & _ & Hlen & _). rewrite Hof in Hlen.
  split_and!; [done|done|done| |].
  - rewrite <- Hlen. cbn [set_udp_cksum udp_length]. apply ntoh16_hton16. lia.
  - rewrite <- cksum_verified, Hof by done. apply Z.eqb_refl.
Qed.

Lemma make_ipv4_sum src dst len :
  0 <= src < 2 ^ 32 -> 0 <= dst < 2 ^ 32 ->
  ones_complement (Zsum (words (ipv4_header_bytes (make_ipv4 src dst len)))) = 65535 /\
  be16_at (ipv4_header_bytes (make_ipv4 src dst len)) 10 <> 65535.
Proof.
  intros Hs Hd. pose proof (make_ipv4_wf src dst len Hs Hd) as Hwf.
  pose proof (bytes_ipv4_header _ Hwf) as Hb.
  pose proof (length_ipv4_header_bytes (make_ipv4 src dst len)) as H20.
  pose proof (ipv4_zeroed_sum _ [] Hb H20) as Hz. rewrite !app_nil_r in Hz.
  rewrite ipv4_header_of_bytes in Hz by done.
  destruct (ipv4_fields (ipv4_header_bytes (make_ipv4 src dst len)) Hb ltac:(lia)) as (_ & _ & Hc & _ & Hcr).
  rewrite (slice_all_n _ 20), ipv4_header_of_bytes in Hc, Hcr by (done || lia).
  set (S := Zsum (words (ipv4_header_bytes (make_ipv4 src dst len)))) in *.
  set (raw := ipv4_header_bytes (make_ipv4 src dst len)) in *.
  assert (0 < S - be16_at raw 10) as Hpos.
  { pose proof (header_sum_pos raw 20 Hb ltac:(lia)) as Hh. rewrite (slice_all_n raw 20) in Hh by lia.
    apply Hh. unfold raw, make_ipv4, ipv4_header_bytes, byte_at. done. }
  assert (be16_at raw 10 = 65535 - ones_complement (S - be16_at raw 10)) as He.
  { change (hton16 0) with 0 in Hz. rewrite <- Hz. rewrite <- Hc. unfold make_ipv4 at 1.
    cbn [set_checksum checksum]. rewrite ntoh16_hton16; [done|].
    change (set_checksum (make_ipv4 src dst len) 0) with
      (mkIPv4 0x45 0 (hton16 (20 + len)) 0 0 64 IPV4_PROTOCOL_UDP 0 src dst) in Hz.
    rewrite Hz. pose proof (ones_complement_range (S - be16_at raw 10) ltac:(lia)). lia. }
  pose proof (ones_complement_range (S - be16_at raw 10) ltac:(lia)).
  pose proof (checksum_test S (be16_at raw 10) ltac:(lia) Hpos) as Ht.
  rewrite <- He, Z.eqb_refl in Ht. symmetry in Ht. zify_bool. done.
Qed.

Lemma slice_app_r0 (l1 l2 : list Z) off n : Zlen l1 = off -> slice (l1 ++ l2) off n = slice l2 0 n.
Proof. intros. rewrite <- (Z.add_0_r off). by apply slice_app_r. Qed.

(** The datagram at [off], behind a header of [off] bytes. *)
Lemma datagram_at hdr off h data udp_mtu dns src dst :
  Zlen hdr = off -> udp_header_of (udp_header_bytes h) = h ->
  be16_at (udp_header_bytes h) 4 = 8 + Zlen data -> Zlen data <= udp_mtu ->
  let p := hdr ++ udp_header_bytes h ++ data in
  udp_len_at p off = 8 + Zlen data /\ slice p off (udp_len_at p off) = udp_header_bytes h ++ data /\
  udp_valid p off (8 + Zlen data) = true /\
  submission_of udp_mtu dns p off src dst =
    Some (mkSubmission (src (source_port h)) (dst (dest_port h))
            (dns && (ntoh16 (dest_port h) =? 53) && dns_query data) data).
Proof.
  intros Hoff Hof Hlen Hm p. pose proof (length_udp_header_bytes h) as H8.
  assert (slice p off 8 = udp_header_bytes h) as Hs.
  { unfold p. rewrite slice_app_r0 by done. apply slice_app_l. lia. }
  assert (udp_len_at p off = 8 + Zlen data) as Hu by (unfold udp_len_at; by rewrite Hs).
  assert (slice p (off + 8) (udp_len_at p off - 8) = data) as Hd.
  { unfold p at 1. rewrite slice_app_r by (done || lia).
    rewrite slice_app_r0 by lia. apply slice_all_n. lia. }
  split_and!; [done| | |].
  - rewrite Hu. unfold p. rewrite slice_app_r0 by done. apply slice_all_n. rewrite length_app. lia.
  - unfold udp_valid. rewrite Hs, Hlen. rewrite !andb_true_iff, !Z.leb_le. lia.
  - unfold submission_of. rewrite Hd, Hs, Hof. by destruct (Z.leb_spec (Zlen data) udp_mtu); [|lia].
Qed.

Lemma compute_udp_mtu_ge o mtu : mtu - 28 <= compute_udp_mtu o mtu /\ 0 <= compute_udp_mtu o mtu.
Proof.
  unfold compute_udp_mtu, sizeof_ipv4_header, sizeof_ipv6_header, sizeof_udp_header.
  destruct (netif_ip6addr o); repeat case_if; lia.
Qed.

Definition loopback_dns (o : options) (local_addr : BAddr) (data : list Z) : bool :=
  match local_addr with
  | BADDR_IPV4 _ port => opt_dnsgw o && (ntoh16 port =? 53) && dns_query data
  | _ => false
  end.

Lemma loopback4 o mtu lip lport rip rport data p :
  udpgw_remote_server_addr o = true -> bytes data ->
  wf (BADDR_IPV4 lip lport) -> wf (BADDR_IPV4 rip rport) ->
  udp_packet o mtu (BADDR_IPV4 lip lport) (BADDR_IPV4 rip rport) data = Some p ->
  bytes p /\ Zlen p = 28 + Zlen data /\ Zlen p <= mtu /\
  udp_submission o (compute_udp_mtu o mtu) p (Zlen p) =
    Some (mkSubmission (BADDR_IPV4 rip rport) (BADDR_IPV4 lip lport)
            (loopback_dns o (BADDR_IPV4 lip lport) data) data).
Proof.
  intros Hg Hb [Hl Hlp] [Hr Hrp] Hp. cbn [udp_packet] in Hp.
  destruct ((_ <=? _) && _) eqn:E; [|done]. zify_bool. apply (inj Some) in Hp as <-.
  destruct (compute_udp_mtu_ge o mtu) as [Hge _].
  destruct (make_udp_ok (pseudo4 rip lip (8 + Zlen data)) rport lport data) as (h & -> & Hof & Hsp & Hdp & Hlen & Hv);
    [apply pseudo4_even|apply pseudo4_pos|done|lia|done|done|].
  pose proof (make_ipv4_wf rip lip (8 + Zlen data) Hr Hl) as Hwf.
  destruct (make_ipv4_sum rip lip (8 + Zlen data) Hr Hl) as [Hsum Hck].
  pose proof (bytes_ipv4_header _ Hwf) as Hbh. pose proof (ipv4_header_of_bytes _ Hwf) as Hho.
  pose proof (length_ipv4_header_bytes (make_ipv4 rip lip (8 + Zlen data))) as H20.
  destruct (datagram_at (ipv4_header_bytes (make_ipv4 rip lip (8 + Zlen data))) 20 h data
    (compute_udp_mtu o mtu) (opt_dnsgw o) (BADDR_IPV4 rip) (BADDR_IPV4 lip))
    as (Hu & Hdg & Huv & Hsub); [lia|done|done|lia|].
  set (hdr := ipv4_header_bytes (make_ipv4 rip lip (8 + Zlen data))) in *.
  assert (bytes (hdr ++ udp_header_bytes h ++ data)) as Hbp.
  { rewrite !Forall_app. split_and!; [done|apply bytes_udp_header|done]. }
  pose proof (length_udp_header_bytes h) as H8.
  assert (Zlen (hdr ++ udp_header_bytes h ++ data) = 28 + Zlen data) as Hn by (rewrite !length_app; lia).
  destruct (ipv4_fields _ Hbp ltac:(lia)) as (Hver & Htl & _). cbv zeta in Hver, Htl.
  assert (slice (hdr ++ udp_header_bytes h ++ data) 0 20 = hdr) as Hs by (apply slice_app_l; lia).
  assert (be16_at (hdr ++ udp_header_bytes h ++ data) 10 = be16_at hdr 10) as H10.
  { unfold be16_at. by rewrite !byte_at_app by lia. }
  assert (byte_at (hdr ++ udp_header_bytes h ++ data) 9 = 17) as H9 by (rewrite byte_at_app by lia; done).
  clearbody hdr. set (p := hdr ++ udp_header_bytes h ++ data) in *.
  rewrite Hs, Hho in Hver, Htl. change (version4_ihl4 (make_ipv4 rip lip (8 + Zlen data))) with 69 in Hver.
  change (total_length (make_ipv4 rip lip (8 + Zlen data))) with (hton16 (20 + (8 + Zlen data))) in Htl.
  rewrite ntoh16_hton16 in Htl by lia.
  split_and!; [done|done|lia|].
  assert (ihl_bytes p = 20) as Hih by (unfold ihl_bytes; by rewrite <- Hver).
  unfold udp_submission, accepts4. rewrite Hg, Hih, Hs, Hho. cbn [negb].
  change (source_address (make_ipv4 rip lip (8 + Zlen data))) with rip.
  change (destination_address (make_ipv4 rip lip (8 + Zlen data))) with lip.
  rewrite <- Htl, H9. replace (20 + (8 + Zlen data) - 20) with (8 + Zlen data) by lia.
  rewrite Huv, Hdg, Hu, Hv, !andb_true_r. cbn [Z.eqb].
  assert (ipv4_valid p (Zlen p) = true) as ->.
  { unfold ipv4_valid. rewrite Hih, <- Hver, <- Htl, Hs, Hsum, H10.
    rewrite !andb_true_iff, !Z.leb_le, negb_true_iff, Z.eqb_neq. cbn [Z.eqb]. split_and!; try done; lia. }
  rewrite Hsub, Hsp, Hdp. done.
Qed.

(** The fields of an IPv6 header followed by [rest]. *)
Lemma make_ipv6_fields src dst len rest :
  length src = 16%nat -> length dst = 16%nat -> bytes src -> bytes dst -> 0 <= len < 2 ^ 16 ->
  let p := ipv6_header_bytes (make_ipv6 src dst len) ++ rest in
  bytes (ipv6_header_bytes (make_ipv6 src dst len)) /\
  byte_at p 0 / 16 = 6 /\ be16_at p 4 = len /\ byte_at p 6 = 17 /\
  slice p 8 16 = src /\ slice p 24 16 = dst.
Proof.
  intros Hs Hd Hbs Hbd Hl p. unfold p, make_ipv6, ipv6_header_bytes.
  cbn [version4_tc4 tc4_fl4 fl payload_length next_header hop_limit source_address6 destination_address6].
  rewrite hton16_bytes. change (le_bytes 2 0) with [0; 0].
  assert (rev (le_bytes 2 len) = [len / 256 mod 256; len mod 256]) as -> by done.
  assert (len / 256 mod 256 = len / 256) as Hq by (apply Z.mod_small; split;
    [apply Z.div_pos; lia|apply Z.div_lt_upper_bound; lia]).
  pose proof (Z.div_mod len 256 ltac:(lia)). pose proof (Z.mod_pos_bound len 256 ltac:(lia)).
  pose proof (Z.mod_pos_bound (len / 256) 256 ltac:(lia)).
  cbn [app]. split_and!; [|done|unfold be16_at, byte_at; cbn [nth]; lia|done| |].
  - repeat (apply Forall_cons_2; [unfold is_byte, IPV6_NEXT_UDP; lia|]). by apply Forall_app_2.
  - unfold slice. change (Z.to_nat 8) with 8%nat. cbn [drop]. change (Z.to_nat 16) with 16%nat.
    rewrite <- app_assoc. rewrite <- Hs at 1. apply take_app_length.
  - unfold slice. change (Z.to_nat 24) with 24%nat. cbn [drop]. change (Z.to_nat 16) with 16%nat.
    rewrite <- app_assoc. rewrite drop_app_ge by lia. rewrite Hs. change (16 - 16)%nat with 0%nat.
    rewrite drop_0. rewrite <- Hd at 1. apply take_app_length.
Qed.

Lemma loopback6 o mtu lip lport rip rport data p :
  udpgw_remote_server_addr o = true -> bytes data ->
  wf (BADDR_IPV6 lip lport) -> wf (BADDR_IPV6 rip rport) ->
  udp_packet o mtu (BADDR_IPV6 lip lport) (BADDR_IPV6 rip rport) data = Some p ->
  bytes p /\ Zlen p = 48 + Zlen data /\ Zlen p <= mtu /\
  udp_submission o (compute_udp_mtu o mtu) p (Zlen p) =
    Some (mkSubmission (BADDR_IPV6 rip rport) (BADDR_IPV6 lip lport) false data).
Proof.
  intros Hg Hb (Hl & Hlb & Hlp) (Hr & Hrb & Hrp) Hp. cbn [udp_packet] in Hp.
  destruct (netif_ip6addr o) eqn:Hi; [|done]. cbn [andb] in Hp.
  destruct ((_ <=? _) && _) eqn:E; [|done]. zify_bool. apply (inj Some) in Hp as <-.
  destruct (compute_udp_mtu_ge o mtu) as [Hge _].
  destruct (make_udp_ok (pseudo6 rip lip (8 + Zlen data)) rport lport data) as (h & -> & Hof & Hsp & Hdp & Hlen & Hv);
    [by apply pseudo6_even|by apply pseudo6_pos|done|lia|done|done|].
  destruct (make_ipv6_fields rip lip (8 + Zlen data) (udp_header_bytes h ++ data))
    as (Hbh & HV & H4 & H6 & Hs & Hd); try done; [lia|].
  pose proof (length_ipv6_header_bytes (make_ipv6 rip lip (8 + Zlen data)) Hr Hl) as H40.
  destruct (datagram_at (ipv6_header_bytes (make_ipv6 rip lip (8 + Zlen data))) 40 h data
    (compute_udp_mtu o mtu) false (BADDR_IPV6 rip) (BADDR_IPV6 lip))
    as (Hu & Hdg & Huv & Hsub); [lia|done|done|lia|].
  set (hdr := ipv6_header_bytes (make_ipv6 rip lip (8 + Zlen data))) in *. clearbody hdr.
  pose proof (length_udp_header_bytes h) as H8.
  assert (Zlen (hdr ++ udp_header_bytes h ++ data) = 48 + Zlen data) as Hn by (rewrite !length_app; lia).
  split_and!; [|done|lia|].
  { rewrite !Forall_app. split_and!; [done|apply bytes_udp_header|done]. }
  set (p := hdr ++ udp_header_bytes h ++ data) in *.
  unfold udp_submission. rewrite Hg. cbn [negb].
  destruct (accepts4 p (Zlen p)) eqn:Ha; [apply accepts_version4 in Ha; lia|].
  unfold accepts6. rewrite Hs, Hd, H4, H6, Huv, Hdg, Hu, Hv, Hi, !andb_true_r. cbn [andb].
  assert (ipv6_valid p (Zlen p) = true) as ->.
  { unfold ipv6_valid. rewrite HV, H4, !andb_true_iff, !Z.leb_le. cbn [Z.eqb]. split_and!; try done; lia. }
  by rewrite Hsub, Hsp, Hdp.
Qed.

(** C8: a UDP payload that arrives from the relay is written to the device as
    a packet the receiving side of the same code understands:
    [udpgw_client_handler_received] never faults, sends nothing (and leaves
    its buffer alone) exactly when the packet does not fit in the MTU or in
    the length fields, or IPv6 is disabled, and otherwise sends a packet of at
    most MTU bytes that [process_device_udp_packet] maps back to the same
    payload with the two addresses exchanged. *)
Theorem device_udp_roundtrip o mtu buf local_addr remote_addr data :
  udpgw_remote_server_addr o = true -> Zlen buf = mtu -> mtu <= INT_MAX ->
  wf local_addr -> wf remote_addr -> type local_addr = type remote_addr ->
  bytes data -> Zlen data <= INT_MAX ->
  let overhead := if type local_addr =? 1 then 28 else 48 in
  let sent := (Zlen data + overhead <=? mtu) && (Zlen data + overhead <=? (if type local_addr =? 1 then 65535 else 65575)) &&
              ((type local_addr =? 1) || netif_ip6addr o) in
  exists buf' out,
    udpgw_client_handler_received o mtu buf local_addr remote_addr data (Zlen data) = Ok (buf', out) /\
    match out with
    | None => sent = false /\ buf' = buf
    | Some p => sent = true /\ Zlen p = Zlen data + overhead /\ Zlen p <= mtu /\ Zlen buf' = mtu /\
        process_device_udp_packet o (compute_udp_mtu o mtu) p (Zlen p) =
          Ok (Some (mkSubmission remote_addr local_addr (loopback_dns o local_addr data) data))
    end.
Proof.
  intros Hg Hbuf Hm Hl Hr Ht Hb Hn overhead sent. rewrite handler_received_ok by done.
  destruct (udp_packet o mtu local_addr remote_addr data) as [p|] eqn:Hp.
  - eexists _, _. split; [done|]. cbv beta iota.
    destruct local_addr as [|lip lport|lip lport|], remote_addr as [|rip rport|rip rport|]; try done.
    + destruct (loopback4 o mtu lip lport rip rport data p Hg Hb Hl Hr Hp) as (Hbp & Hlen & Hle & Hsub).
      cbn [udp_packet] in Hp. destruct ((Zlen data <=? 65507) && _) eqn:E in Hp; [|done]. zify_bool.
      cbn in overhead, sent.
      unfold INT_MAX in *. rewrite process_ok, Hsub, length_splice by (done || unfold INT_MAX; lia). subst overhead sent.
      rewrite !andb_true_iff, !Z.leb_le. split_and!; done || lia.
    + destruct (loopback6 o mtu lip lport rip rport data p Hg Hb Hl Hr Hp) as (Hbp & Hlen & Hle & Hsub).
      cbn [udp_packet] in Hp. destruct (netif_ip6addr o) eqn:Hi; [|done]. cbn [andb] in Hp.
      destruct ((Zlen data <=? 65527) && _) eqn:E in Hp; [|done]. zify_bool. cbn in overhead, sent.
      unfold INT_MAX in *. rewrite process_ok, Hsub, length_splice by (done || unfold INT_MAX; lia). subst overhead sent.
      rewrite !andb_true_iff, !Z.leb_le. split_and!; done || lia.
  - eexists _, _. split; [done|]. split; [|done]. subst sent overhead.
    destruct local_addr as [|lip lport|lip lport|], remote_addr as [|rip rport|rip rport|]; try done;
      cbn [udp_packet type Z.eqb Pos.eqb orb] in *; apply not_true_iff_false; rewrite !andb_true_iff, !Z.leb_le.
    + intros [[? ?] _]. destruct (Z.leb_spec (Zlen data) 65507), (Z.leb_spec (Zlen data + 28) mtu); cbn in Hp; lia || done.
    + intros [[? ?] Hi]. rewrite Hi in Hp.
      destruct (Z.leb_spec (Zlen data) 65527), (Z.leb_spec (Zlen data + 48) mtu); cbn in Hp; lia || done.
Qed.

(** ** Correctness of the lwip interface functions *)
Lemma gather_ok mtu p : forall buf len,
  0 <= len <= mtu -> Zlen buf = mtu ->
  exists buf', gather mtu buf len p =
    Ok (buf', if len + tot_len p <=? mtu then Some (len + tot_len p) else None) /\
    Zlen buf' = mtu /\
    (len + tot_len p <= mtu -> buf' = splice buf len (contents p)).
Proof.
  induction p as [|d p IH]; intros buf len H0 Hb; cbn [gather].
  - change (tot_len []) with 0. rewrite Z.add_0_r. exists buf.
    destruct (Z.leb_spec len mtu); [|lia]. split_and!; [done|done|]. intros. by rewrite splice_nil.
  - rewrite tot_len_cons. pose proof (tot_len_nonneg p).
    destruct (Z.ltb_spec (mtu - len) (Zlen d)).
    + exists buf. destruct (Z.leb_spec (len + (Zlen d + tot_len p)) mtu); [lia|]. split_and!; [done|done|lia].
    + assert (mem_write buf len d = Ok (splice buf len d)) as -> by (apply mem_write_Ok; split; [lia|done]).
      cbn [mbind outcome_bind].
      destruct (IH (splice buf len d) (len + Zlen d)) as (buf' & Hg & Hl & Hc);
        [lia|by rewrite length_splice by lia|].
      exists buf'. rewrite Hg, <- Z.add_assoc. split_and!; [done|done|].
      intros Hle. rewrite Hc by lia. apply splice_app; unfold tot_len in *; lia.
Qed.

(** the output function of the lwip interface sends every packet unchanged:
    for a chain of any number of buffers it sends one packet, the contents of
    the whole chain, exactly when the program is not quitting and the contents
    fit in the MTU, gathers a chain of several buffers without writing outside
    the device buffer, and drops the packet otherwise. *)
Theorem common_netif_output_gathers quitting mtu buf p :
  p <> [] -> Zlen buf = mtu ->
  exists buf', Zlen buf' = mtu /\
    common_netif_output quitting mtu buf p =
      Ok (buf', if negb quitting && (tot_len p <=? mtu) then Some (contents p) else None).
Proof.
  intros Hp Hb. unfold common_netif_output. destruct quitting; cbn [negb andb]; [by exists buf|].
  destruct p as [|d [|d' p]]; [done| |].
  - exists buf. split; [done|]. unfold tot_len, contents. cbn [concat]. rewrite app_nil_r.
    destruct (Z.ltb_spec mtu (Zlen d)), (Z.leb_spec (Zlen d) mtu); done || lia.
  - destruct (gather_ok mtu (d :: d' :: p) buf 0) as (buf' & Hg & Hl & Hc); [lia|done|].
    exists buf'. split; [done|]. rewrite Hg, Z.add_0_l. cbn [mbind outcome_bind].
    destruct (Z.leb_spec (tot_len (d :: d' :: p)) mtu); [|done]. rewrite Hc by lia.
    assert (mem_read (splice buf 0 (contents (d :: d' :: p))) 0 (tot_len (d :: d' :: p)) =
            Ok (contents (d :: d' :: p))) as ->; [|done].
    unfold tot_len in *. apply mem_read_Ok. rewrite length_splice by lia. split; [lia|].
    symmetry. apply slice_splice_same; lia.
Qed.

Lemma common_netif_output_gathers_witness :
  exists buf', Zlen buf' = 5 /\
    common_netif_output false 5 [0; 0; 0; 0; 0] [[1; 2]; []; [3]] = Ok (buf', Some [1; 2; 3]).
Proof.
  apply (common_netif_output_gathers false 5 [0; 0; 0; 0; 0] [[1; 2]; []; [3]]); [discriminate|reflexivity].
Defined.

Section DeviceRead.
Context (pbuf_alloc : Z -> option pbuf) (ip_ok ip6_ok : pbuf -> bool).
(** lwip allocates chains of the length asked for, whose first buffer is not
    empty. *)
Hypothesis pbuf_alloc_len : forall n p, pbuf_alloc n = Some p -> tot_len p = n.
Hypothesis pbuf_alloc_first : forall n p, pbuf_alloc n = Some p ->
  exists d p', p = d :: p' /\ (0 < n -> d <> []).

Lemma first_byte p d p' data :
  p = d :: p' -> contents p = data -> (0 < Zlen data -> d <> []) ->
  (if 0 <? Zlen d then ptr d 0 0 ≫= fun b => Ok (Z.shiftr b 4) else Ok 0) =
    Ok (Z.shiftr (byte_at data 0) 4).
Proof.
  intros -> Hc Hne. destruct (Z.ltb_spec 0 (Zlen d)) as [Hd|Hd].
  - rewrite ptr_byte by lia. cbn [mbind outcome_bind Z.to_nat]. do 2 f_equal. rewrite <- Hc.
    unfold contents. cbn [concat]. by rewrite byte_at_app by lia.
  - destruct data; [done|]. destruct d; [|cbn in Hd; lia]. exfalso. apply Hne; [cbn; lia|done].
Qed.

(** every packet read from the device is disposed of exactly once and
    without a fault: UDP datagrams the relay takes are submitted to it, and
    every other packet of at most 65535 bytes for which lwip has memory is
    copied unchanged into a chain that goes to the IPv4 or IPv6 input
    according to its version (IPv6 only when enabled) or is freed; the chain
    is freed here exactly when the input function reports an error. *)
Theorem device_read_disposes o udp_mtu data :
  bytes data -> Zlen data <= INT_MAX ->
  exists calls, device_read_handler_send o udp_mtu false pbuf_alloc ip_ok ip6_ok data (Zlen data) =
    Ok (Call_Done :: calls) /\
  match udp_submission o udp_mtu data (Zlen data) with
  | Some s => calls = [Call_SubmitPacket s]
  | None =>
      if (65535 <? Zlen data) || bool_decide (pbuf_alloc (Zlen data) = None) then calls = []
      else exists p, contents p = data /\
        calls =
          if byte_at data 0 / 16 =? 4 then
            Call_ip_input p :: if ip_ok p then [] else [Call_pbuf_free p]
          else if (byte_at data 0 / 16 =? 6) && netif_ip6addr o then
            Call_ip6_input p :: if ip6_ok p then [] else [Call_pbuf_free p]
          else [Call_pbuf_free p]
  end.
Proof.
  intros Hb Hn. unfold device_read_handler_send. rewrite bind_ASSERT_true, bind_ASSERT_true by (done || lia).
  rewrite process_ok by (done || lia). cbn [mbind outcome_bind].
  destruct (udp_submission _ _ _ _) as [s|]; [by eexists|].
  unfold UINT16_MAX. change (2 ^ 16 - 1) with 65535.
  destruct (65535 <? Zlen data); cbn [orb]; [by eexists|].
  destruct (pbuf_alloc (Zlen data)) as [p|] eqn:Ha; [|by eexists].
  rewrite bool_decide_eq_false_2 by done.
  destruct (pbuf_take_all p data (pbuf_alloc_len _ _ Ha)) as (q & -> & Hq & Hf). cbn [mbind outcome_bind].
  rewrite bind_ASSERT_true by (by apply bool_decide_eq_true). cbn [of_option mbind outcome_bind].
  destruct (pbuf_alloc_first _ _ Ha) as (d & p' & -> & Hd).
  destruct q as [|d' q]; [done|]. rewrite !fmap_cons in Hf. injection Hf as Hd' _.
  unfold netif_input_func. rewrite (first_byte (d' :: q) d' q data); [|done|done|].
  2: { intros H0 ->. apply (Hd H0). by destruct d. }
  cbn [mbind outcome_bind]. rewrite version_nibble by done.
  destruct (byte_at data 0 / 16 =? 4); [by eexists; split; [|exists (d' :: q)]|].
  destruct ((byte_at data 0 / 16 =? 6) && _); by eexists; split; [|exists (d' :: q)].
Qed.
End DeviceRead.

(** A DNS query to port 53 over IPv4 as the device would deliver it. *)
Definition demo_options : options := mkOptions true false true.
Definition demo_query : list Z := [0; 7; 1; 0; 0; 1; 0; 0; 0; 0; 0; 0].
Definition demo_local : BAddr := BADDR_IPV4 (hton32 0x0A000001) (hton16 53).
Definition demo_remote : BAddr := BADDR_IPV4 (hton32 0x0A000002) (hton16 1000).
Definition demo_packet : list Z :=
  default [] (udp_packet demo_options 1500 demo_local demo_remote demo_query).
Definition demo_submission : submission := mkSubmission demo_remote demo_local true demo_query.

Lemma bytesb l : forallb (fun b => (0 <=? b) && (b <? 256)) l = true -> bytes l.
Proof.
  induction l as [|b l IH]; cbn; intros H; constructor; zify_bool; [unfold is_byte; lia|by apply IH].
Qed.

Lemma process_device_udp_packet_spec_witness :
  process_device_udp_packet demo_options 1472 (demo_packet ++ [9]) 41 = Ok (Some demo_submission).
Proof.
  rewrite (process_device_udp_packet_spec demo_options 1472 (demo_packet ++ [9]) 41).
  - vm_compute. reflexivity.
  - apply bytesb. vm_compute. reflexivity.
  - vm_compute. split; discriminate.
  - vm_compute. discriminate.
Defined.

Lemma device_udp_roundtrip_witness :
  exists buf' out,
    udpgw_client_handler_received demo_options 64 (replicate 64 0) demo_local demo_remote demo_query 12 = Ok (buf', out) /\
    match out with
    | None => False
    | Some p => Zlen p = 40 /\
        process_device_udp_packet demo_options 36 p (Zlen p) = Ok (Some demo_submission)
    end.
Proof.
  destruct (device_udp_roundtrip demo_options 64 (replicate 64 0) demo_local demo_remote demo_query)
    as (buf' & out & Hr & Ho).
  - reflexivity.
  - reflexivity.
  - vm_compute. discriminate.
  - vm_compute. repeat split; discriminate.
  - vm_compute. repeat split; discriminate.
  - reflexivity.
  - apply bytesb. vm_compute. reflexivity.
  - vm_compute. discriminate.
  - exists buf', out. split; [exact Hr|]. destruct out as [p|].
    + destruct Ho as (_ & H1 & _ & _ & H2). split; [exact H1|exact H2].
    + destruct Ho as [H1 _]. vm_compute in H1. discriminate.
Defined.

Definition demo_alloc (n : Z) : option pbuf := if n <? 3 then None else Some [repeat 0 2; repeat 0 (Z.to_nat (n - 2))].

Lemma device_read_disposes_witness :
  device_read_handler_send demo_options 1472 false demo_alloc (fun _ => true) (fun _ => true)
    demo_ipv4 23 = Ok [Call_Done; Call_ip_input [take 2 demo_ipv4; drop 2 demo_ipv4]] /\
  (exists calls, device_read_handler_send demo_options 1472 false demo_alloc (fun _ => true) (fun _ => true)
    demo_ipv4 (Zlen demo_ipv4) = Ok (Call_Done :: calls) /\
    exists p, contents p = demo_ipv4 /\ calls = [Call_ip_input p]).
Proof.
  split; [vm_compute; reflexivity|].
  apply (device_read_disposes demo_alloc (fun _ => true) (fun _ => true)) with (o := demo_options) (udp_mtu := 1472) (data := demo_ipv4).
  - intros n p H. unfold demo_alloc in H. destruct (Z.ltb_spec n 3); [discriminate|]. injection H as <-.
    unfold tot_len, contents. cbn [concat]. rewrite !length_app, !repeat_length. cbn [length]. lia.
  - intros n p H. unfold demo_alloc in H. destruct (n <? 3); [discriminate|]. injection H as <-.
    eexists _, _. split; [reflexivity|]. intros _. discriminate.
  - apply bytesb. vm_compute. reflexivity.
  - vm_compute. discriminate.
Defined.

End TunDevice.
