(* ===== verification/TcpClient.v ===== *)
(** TCP clients of tun2socks (tun2socks/tun2socks.c, from
    [listener_accept_func] to [client_sent_func], with the dead macros of
    misc/dead.h): a client joins a TCP connection that lwip accepted and a
    SOCKS connection, moves data both ways, and is freed when both sides are
    done.

    A function that takes a client works on the state it can reach: the memory
    of the client ([None] after [free]), its lwip pcb ([None] when lwip no
    longer has it), its SOCKS client ([None] after [BSocksClient_Free]), the
    running lwip callback and the global variables. Access to what is gone is
    a [Fault]. The results of lwip calls are given by the environment
    ([oracle]). What the outside world sees is recorded in [history]. *)
From Stdlib Require Import ZArith Lia.
From stdpp Require Import base tactics numbers option gmap list.
From S2P Require Import Prelude LinkedList ByteOrder Addr Pbuf.
Import ByteOrder BAddr Pbuf.

Module TcpClient.

Definition TCP_WND : Z := 5840.
Definition CLIENT_SOCKS_RECV_BUF_SIZE : Z := 8192.

(** ** State *)

(** [struct tcp_client]; [dead_aborted] points to the variable of the running
    callback, identified by its number. *)
Record client := mkClient {
  aborted : bool;
  dead_aborted : option Z;
  local_addr : BAddr;
  remote_addr : BAddr;
  socks_username : option (list Z);
  client_closed : bool;
  buf : list Z;
  buf_used : Z;
  socks_up : bool;
  socks_closed : bool;
  socks_recv_buf : list Z;
  socks_recv_buf_used : Z;
  socks_recv_buf_sent : Z;
  socks_recv_waiting : bool;
  socks_recv_tcp_pending : Z
}.

(** What lwip keeps for the connection: which callbacks are set, the received
    bytes not yet confirmed with [tcp_recved] and the queued bytes not yet
    acknowledged by the peer. *)
Record tcp_pcb := mkPcb {
  cb_err : bool; cb_recv : bool; cb_sent : bool; unrecved : Z; unacked : Z
}.

(** What the SOCKS client keeps: whether it is up, the bytes handed to the
    send interface and the size asked from the receive interface. *)
Record socks := mkSocks { is_up : bool; sending : option (list Z); receiving : option Z }.

(** The running lwip callback: its number, its client, its variables
    [badvpn__dead] and [badvpn__prev_ptr], and whether [tcp_abort] was called
    for its pcb. *)
Record frame := mkFrame {
  f_id : Z; f_client : loc; f_dead : Z; f_prev : option Z; f_abrt : bool
}.

(** What happened so far: bytes accepted from the TCP peer and bytes taken by
    the SOCKS server, bytes received from the SOCKS server and bytes queued
    for the TCP peer, and how the two sides ended. *)
Record history := mkHistory {
  rx : list Z; consumed : list Z; srx : list Z; written : list Z;
  client_ended : bool; socks_ended : bool; murdered : bool
}.

Record st := mkSt {
  cl : option client; pcb : option tcp_pcb; sk : option socks; hist : history;
  cb : option frame; num_clients : Z; tcp_clients : list loc
}.

(** Results of lwip calls during one event: of [tcp_close], of [tcp_output],
    and of [tcp_sndbuf] and [tcp_write] at each turn of the queueing loop. *)
Inductive err := ERR_OK | ERR_MEM | ERR_ABRT | ERR_OTHER.
Record oracle := mkOracle {
  o_close : err; o_output : err; o_sndbuf : nat -> Z; o_write : nat -> err
}.

#[global] Instance err_eq_dec : EqDecision err.
Proof. solve_decision. Defined.
#[global] Instance socks_inhabited : Inhabited socks := populate (mkSocks false None None).

(** ** Access *)
Definition the_client (s : st) : outcome client := of_option (cl s).
Definition the_pcb (s : st) : outcome tcp_pcb := of_option (pcb s).
Definition the_socks (s : st) : outcome socks := of_option (sk s).

Definition set_cl (s : st) (x : option client) : st :=
  mkSt x (pcb s) (sk s) (hist s) (cb s) (num_clients s) (tcp_clients s).
Definition set_pcb (s : st) (p : option tcp_pcb) : st :=
  mkSt (cl s) p (sk s) (hist s) (cb s) (num_clients s) (tcp_clients s).
Definition set_sk (s : st) (k : option socks) : st :=
  mkSt (cl s) (pcb s) k (hist s) (cb s) (num_clients s) (tcp_clients s).
Definition set_hist (s : st) (h : history) : st :=
  mkSt (cl s) (pcb s) (sk s) h (cb s) (num_clients s) (tcp_clients s).
Definition set_cb (s : st) (f : option frame) : st :=
  mkSt (cl s) (pcb s) (sk s) (hist s) f (num_clients s) (tcp_clients s).
Definition set_clients (s : st) (n : Z) (l : list loc) : st :=
  mkSt (cl s) (pcb s) (sk s) (hist s) (cb s) n l.

(** Assignment to fields of the client. *)
Definition set_aborted (b : bool) (x : client) : client :=
  mkClient b (dead_aborted x) (local_addr x) (remote_addr x) (socks_username x) (client_closed x) (buf x)
    (buf_used x) (socks_up x) (socks_closed x) (socks_recv_buf x) (socks_recv_buf_used x)
    (socks_recv_buf_sent x) (socks_recv_waiting x) (socks_recv_tcp_pending x).
Definition set_dead (d : option Z) (x : client) : client :=
  mkClient (aborted x) d (local_addr x) (remote_addr x) (socks_username x) (client_closed x) (buf x)
    (buf_used x) (socks_up x) (socks_closed x) (socks_recv_buf x) (socks_recv_buf_used x)
    (socks_recv_buf_sent x) (socks_recv_waiting x) (socks_recv_tcp_pending x).
Definition set_client_closed (b : bool) (x : client) : client :=
  mkClient (aborted x) (dead_aborted x) (local_addr x) (remote_addr x) (socks_username x) b (buf x)
    (buf_used x) (socks_up x) (socks_closed x) (socks_recv_buf x) (socks_recv_buf_used x)
    (socks_recv_buf_sent x) (socks_recv_waiting x) (socks_recv_tcp_pending x).
Definition set_buf (b : list Z) (n : Z) (x : client) : client :=
  mkClient (aborted x) (dead_aborted x) (local_addr x) (remote_addr x) (socks_username x) (client_closed x) b
    n (socks_up x) (socks_closed x) (socks_recv_buf x) (socks_recv_buf_used x)
    (socks_recv_buf_sent x) (socks_recv_waiting x) (socks_recv_tcp_pending x).
Definition set_socks_state (up closed : bool) (x : client) : client :=
  mkClient (aborted x) (dead_aborted x) (local_addr x) (remote_addr x) (socks_username x) (client_closed x) (buf x)
    (buf_used x) up closed (socks_recv_buf x) (socks_recv_buf_used x)
    (socks_recv_buf_sent x) (socks_recv_waiting x) (socks_recv_tcp_pending x).
Definition set_recv (b : list Z) (used sent : Z) (waiting : bool) (pending : Z) (x : client) : client :=
  mkClient (aborted x) (dead_aborted x) (local_addr x) (remote_addr x) (socks_username x) (client_closed x) (buf x)
    (buf_used x) (socks_up x) (socks_closed x) b used sent waiting pending.

Definition upd (s : st) (f : client -> client) : outcome st :=
  the_client s ≫= fun x => Ok (set_cl s (Some (f x))).

(** ** lwip and SOCKS calls *)
Definition upd_pcb (s : st) (f : tcp_pcb -> tcp_pcb) : outcome st :=
  the_pcb s ≫= fun p => Ok (set_pcb s (Some (f p))).
Definition tcp_err (s : st) (b : bool) : outcome st :=
  upd_pcb s (fun p => mkPcb b (cb_recv p) (cb_sent p) (unrecved p) (unacked p)).
Definition tcp_recv (s : st) (b : bool) : outcome st :=
  upd_pcb s (fun p => mkPcb (cb_err p) b (cb_sent p) (unrecved p) (unacked p)).
Definition tcp_sent (s : st) (b : bool) : outcome st :=
  upd_pcb s (fun p => mkPcb (cb_err p) (cb_recv p) b (unrecved p) (unacked p)).
Definition tcp_recved (s : st) (n : Z) : outcome st :=
  upd_pcb s (fun p => mkPcb (cb_err p) (cb_recv p) (cb_sent p) (unrecved p - n) (unacked p)).

Definition note_written (h : history) (d : list Z) : history :=
  mkHistory (rx h) (consumed h) (srx h) (written h ++ d) (client_ended h) (socks_ended h) (murdered h).
Definition tcp_write (s : st) (d : list Z) : outcome st :=
  upd_pcb s (fun p => mkPcb (cb_err p) (cb_recv p) (cb_sent p) (unrecved p) (unacked p + Zlen d)) ≫= fun s =>
  Ok (set_hist s (note_written (hist s) d)).

(** lwip frees the pcb unless it returns an error. *)
Definition tcp_close (e : err) (s : st) : outcome st :=
  the_pcb s ≫= fun _ => Ok (if decide (e = ERR_OK) then set_pcb s None else s).

Definition tcp_abort (c : loc) (s : st) : outcome st :=
  the_pcb s ≫= fun _ =>
  let f := match cb s with
           | Some f => Some (if decide (f_client f = c)
                             then mkFrame (f_id f) (f_client f) (f_dead f) (f_prev f) true else f)
           | None => None end in
  Ok (set_cb (set_pcb s None) f).

Definition BSocksClient_Free (s : st) : outcome st := the_socks s ≫= fun _ => Ok (set_sk s None).

(** At most one operation at a time is in progress on each interface. *)
Definition StreamPass_Send (s : st) (d : list Z) : outcome st :=
  the_socks s ≫= fun k =>
  ASSERT (is_up k && bool_decide (sending k = None) && (0 <? Zlen d));;
  Ok (set_sk s (Some (mkSocks (is_up k) (Some d) (receiving k)))).
Definition StreamRecv_Recv (s : st) (n : Z) : outcome st :=
  the_socks s ≫= fun k =>
  ASSERT (is_up k && bool_decide (receiving k = None) && (0 <? n));;
  Ok (set_sk s (Some (mkSocks (is_up k) (sending k) (Some n)))).

(** ** misc/dead.h *)

(** [DEAD_KILL_WITH(client->dead_aborted, v)]: a store through the pointer,
    which must point to the variable of a callback that is still running. *)
Definition DEAD_KILL_WITH (s : st) (v : Z) : outcome st :=
  the_client s ≫= fun x =>
  match dead_aborted x with
  | None => Ok s
  | Some i =>
      of_option (cb s) ≫= fun f =>
      ASSERT (f_id f =? i);;
      Ok (set_cb s (Some (mkFrame (f_id f) (f_client f) v (f_prev f) (f_abrt f))))
  end.

Definition DEAD_ENTER (i : Z) (c : loc) (s : st) : outcome st :=
  the_client s ≫= fun x =>
  upd s (set_dead (Some i)) ≫= fun s =>
  Ok (set_cb s (Some (mkFrame i c 0 (dead_aborted x) false))).

(** The result is [DEAD_KILLED]; the frame is gone when the callback returns. *)
Definition DEAD_LEAVE2 (s : st) : outcome (st * Z) :=
  of_option (cb s) ≫= fun f =>
  (if f_dead f =? 0 then upd s (set_dead (f_prev f)) else Ok s) ≫= fun s =>
  match f_prev f with
  | None => Ok (set_cb s None, f_dead f)
  | Some _ => Fault
  end.

(** ** Ending a client *)
Definition end_client (h : history) : history :=
  mkHistory (rx h) (consumed h) (srx h) (written h) true (socks_ended h) (murdered h).
Definition end_socks (h : history) : history :=
  mkHistory (rx h) (consumed h) (srx h) (written h) (client_ended h) true (murdered h).

Section Client.
Context (c : loc).

Definition client_abort_pcb (s : st) : outcome st :=
  the_client s ≫= fun x =>
  ASSERT (negb (aborted x));;
  tcp_abort c s ≫= fun s =>
  upd s (set_aborted true) ≫= fun s =>
  DEAD_KILL_WITH s 1.

Definition client_dealloc (s : st) : outcome st :=
  the_client s ≫= fun x =>
  ASSERT (client_closed x);;
  ASSERT (socks_closed x);;
  ASSERT (0 <? num_clients s);;
  let s := set_clients s (num_clients s - 1) (LinkedList1.remove_node c (tcp_clients s)) in
  (if negb (aborted x) then DEAD_KILL_WITH s (-1) else Ok s) ≫= fun s =>
  Ok (set_cl s None).

Definition remove_callbacks (s : st) : outcome st :=
  tcp_err s false ≫= fun s => tcp_recv s false ≫= fun s => tcp_sent s false.

(** The three functions call each other; each call sets one of
    [client_closed] and [socks_closed], so four levels are enough. *)
Definition free_fuel : nat := 5.

Fixpoint client_handle_freed_client (fuel : nat) (o : oracle) (s : st) : outcome st :=
  match fuel with
  | O => Fault
  | S fuel =>
      the_client s ≫= fun x =>
      ASSERT (negb (client_closed x));;
      upd s (set_client_closed true) ≫= fun s =>
      if (0 <? buf_used x) && negb (socks_closed x) then Ok s
      else if negb (socks_closed x) then client_free_socks fuel o s
      else client_dealloc s
  end
with client_free_client (fuel : nat) (o : oracle) (s : st) : outcome st :=
  match fuel with
  | O => Fault
  | S fuel =>
      the_client s ≫= fun x =>
      ASSERT (negb (client_closed x));;
      remove_callbacks s ≫= fun s =>
      tcp_close (o_close o) s ≫= fun s =>
      (if decide (o_close o = ERR_OK) then Ok s else client_abort_pcb s) ≫= fun s =>
      client_handle_freed_client fuel o s
  end
with client_free_socks (fuel : nat) (o : oracle) (s : st) : outcome st :=
  match fuel with
  | O => Fault
  | S fuel =>
      the_client s ≫= fun x =>
      ASSERT (negb (socks_closed x));;
      (if socks_up x && negb (client_closed x) then tcp_recv s false else Ok s) ≫= fun s =>
      BSocksClient_Free s ≫= fun s =>
      upd s (set_socks_state (socks_up x) true) ≫= fun s =>
      if socks_up x && ((0 <=? socks_recv_buf_used x) || (0 <? socks_recv_tcp_pending x)) &&
         negb (client_closed x)
      then Ok s
      else if negb (client_closed x) then client_free_client fuel o s
      else client_dealloc s
  end.

Definition client_abort_client (o : oracle) (s : st) : outcome st :=
  the_client s ≫= fun x =>
  ASSERT (negb (client_closed x));;
  remove_callbacks s ≫= fun s =>
  client_abort_pcb s ≫= fun s =>
  client_handle_freed_client free_fuel o (set_hist s (end_client (hist s))).

Definition note_murder (h : history) : history :=
  mkHistory (rx h) (consumed h) (srx h) (written h) (client_ended h) (socks_ended h) true.

(** The two steps of [client_murder] before it frees the entry. *)
Definition murder_pcb (s : st) : outcome st :=
  the_client s ≫= fun x =>
  if negb (client_closed x) then
    remove_callbacks s ≫= fun s =>
    client_abort_pcb s ≫= fun s =>
    upd s (set_client_closed true)
  else Ok s.
Definition murder_socks (s : st) : outcome st :=
  the_client s ≫= fun x =>
  if negb (socks_closed x) then
    BSocksClient_Free s ≫= fun s =>
    upd s (set_socks_state (socks_up x) true)
  else Ok s.
Definition client_murder (s : st) : outcome st :=
  murder_pcb (set_hist s (note_murder (hist s))) ≫= fun s =>
  murder_socks s ≫= fun s =>
  client_dealloc s.

(** ** From the TCP peer to the SOCKS server *)
Definition client_send_to_socks (s : st) : outcome st :=
  the_client s ≫= fun x =>
  ASSERT (negb (socks_closed x));;
  ASSERT (socks_up x);;
  ASSERT (0 <? buf_used x);;
  mem_read (buf x) 0 (buf_used x) ≫= StreamPass_Send s.

(** [memmove(buf, buf + n, used - n)]. *)
Definition shift_buf (b : list Z) (n used : Z) : outcome (list Z) :=
  mem_read b n (used - n) ≫= fun d => mem_write b 0 d.

Definition client_socks_send_handler_done (o : oracle) (s : st) (data_len : Z) : outcome st :=
  the_client s ≫= fun x =>
  ASSERT (negb (socks_closed x));;
  ASSERT (socks_up x);;
  ASSERT (0 <? buf_used x);;
  ASSERT (0 <? data_len);;
  ASSERT (data_len <=? buf_used x);;
  shift_buf (buf x) data_len (buf_used x) ≫= fun b =>
  let used := buf_used x - data_len in
  upd s (set_buf b used) ≫= fun s =>
  (if negb (client_closed x) then tcp_recved s data_len else Ok s) ≫= fun s =>
  if 0 <? used then mem_read b 0 used ≫= StreamPass_Send s
  else if client_closed x then client_free_socks free_fuel o s
  else Ok s.

(** ** From the SOCKS server to the TCP peer *)
Definition client_socks_recv_initiate (s : st) : outcome st :=
  the_client s ≫= fun x =>
  ASSERT (negb (client_closed x));;
  ASSERT (negb (socks_closed x));;
  ASSERT (socks_up x);;
  ASSERT (socks_recv_buf_used x =? -1);;
  StreamRecv_Recv s CLIENT_SOCKS_RECV_BUF_SIZE.

(** The do-while loop; turn number [i] asks the oracle. [true] is the return
    value -1. *)
Fixpoint queue_loop (fuel : nat) (o : oracle) (i : nat) (s : st) : outcome (st * bool) :=
  match fuel with
  | O => Fault
  | S fuel =>
      the_client s ≫= fun x =>
      the_pcb s ≫= fun _ =>
      let to_write := Z.min (socks_recv_buf_used x - socks_recv_buf_sent x) (o_sndbuf o i) in
      if to_write =? 0 then Ok (s, false) else
      mem_read (socks_recv_buf x) (socks_recv_buf_sent x) to_write ≫= fun d =>
      match o_write o i with
      | ERR_OK =>
          tcp_write s d ≫= fun s =>
          let sent := socks_recv_buf_sent x + to_write in
          upd s (set_recv (socks_recv_buf x) (socks_recv_buf_used x) sent (socks_recv_waiting x)
                   (socks_recv_tcp_pending x + to_write)) ≫= fun s =>
          if sent <? socks_recv_buf_used x then queue_loop fuel o (S i) s else Ok (s, false)
      | ERR_MEM => Ok (s, false)
      | _ => client_abort_client o s ≫= fun s => Ok (s, true)
      end
  end.

Definition client_socks_recv_send_out (o : oracle) (s : st) : outcome (st * bool) :=
  the_client s ≫= fun x =>
  ASSERT (negb (client_closed x));;
  ASSERT (socks_up x);;
  ASSERT (0 <? socks_recv_buf_used x);;
  ASSERT (socks_recv_buf_sent x <? socks_recv_buf_used x);;
  ASSERT (negb (socks_recv_waiting x));;
  queue_loop (S (Z.to_nat (socks_recv_buf_used x - socks_recv_buf_sent x))) o 0 s
    ≫= fun '((s, failed) : st * bool) =>
  if failed then Ok (s, true) else
  the_pcb s ≫= fun _ =>
  if decide (o_output o = ERR_OK) then
    the_client s ≫= fun x =>
    if socks_recv_buf_sent x <? socks_recv_buf_used x then
      if socks_recv_tcp_pending x =? 0
      then client_abort_client o s ≫= fun s => Ok (s, true)
      else upd s (set_recv (socks_recv_buf x) (socks_recv_buf_used x) (socks_recv_buf_sent x) true
                    (socks_recv_tcp_pending x)) ≫= fun s => Ok (s, false)
    else upd s (set_recv (socks_recv_buf x) (-1) (socks_recv_buf_sent x) (socks_recv_waiting x)
                  (socks_recv_tcp_pending x)) ≫= fun s => Ok (s, false)
  else client_abort_client o s ≫= fun s => Ok (s, true).

Definition client_socks_recv_handler_done (o : oracle) (s : st) (data_len : Z) : outcome st :=
  ASSERT (0 <? data_len);;
  ASSERT (data_len <=? CLIENT_SOCKS_RECV_BUF_SIZE);;
  the_client s ≫= fun x =>
  ASSERT (negb (socks_closed x));;
  ASSERT (socks_up x);;
  ASSERT (socks_recv_buf_used x =? -1);;
  if client_closed x then Ok s else
  upd s (set_recv (socks_recv_buf x) data_len 0 false (socks_recv_tcp_pending x)) ≫= fun s =>
  client_socks_recv_send_out o s ≫= fun '((s, failed) : st * bool) =>
  if failed then Ok s else
  the_client s ≫= fun x =>
  if socks_recv_buf_used x =? -1 then client_socks_recv_initiate s else Ok s.

Inductive socks_event := BSOCKSCLIENT_EVENT_ERROR | BSOCKSCLIENT_EVENT_UP | BSOCKSCLIENT_EVENT_ERROR_CLOSED.
#[global] Instance socks_event_eq_dec : EqDecision socks_event.
Proof. solve_decision. Defined.

Definition client_socks_handler (o : oracle) (s : st) (event : socks_event) : outcome st :=
  the_client s ≫= fun x =>
  ASSERT (negb (socks_closed x));;
  match event with
  | BSOCKSCLIENT_EVENT_ERROR => client_free_socks free_fuel o (set_hist s (end_socks (hist s)))
  | BSOCKSCLIENT_EVENT_UP =>
      ASSERT (negb (socks_up x));;
      the_socks s ≫= fun _ =>
      upd s (set_recv (socks_recv_buf x) (-1) (socks_recv_buf_sent x) (socks_recv_waiting x) 0) ≫= fun s =>
      (if negb (client_closed x) then tcp_sent s true else Ok s) ≫= fun s =>
      upd s (set_socks_state true (socks_closed x)) ≫= fun s =>
      (if 0 <? buf_used x then client_send_to_socks s else Ok s) ≫= fun s =>
      if negb (client_closed x) then client_socks_recv_initiate s else Ok s
  | BSOCKSCLIENT_EVENT_ERROR_CLOSED =>
      ASSERT (socks_up x);;
      client_free_socks free_fuel o (set_hist s (end_socks (hist s)))
  end.

(** ** lwip callbacks

    A callback stops before the code that follows [SYNC_COMMIT], during which
    jobs run; [callback_return] is that code. *)
Definition client_err_func (o : oracle) (s : st) : outcome st :=
  the_client s ≫= fun x =>
  ASSERT (negb (client_closed x));;
  client_handle_freed_client free_fuel o (set_hist s (end_client (hist s))).

Definition note_rx (h : history) (d : list Z) : history :=
  mkHistory (rx h ++ d) (consumed h) (srx h) (written h) (client_ended h) (socks_ended h) (murdered h).

(** [Some e] when the callback returned [e] at once. *)
Definition client_recv_func (o : oracle) (i : Z) (s : st) (p : option pbuf) : outcome (st * option err) :=
  the_client s ≫= fun x =>
  ASSERT (negb (client_closed x));;
  DEAD_ENTER i c s ≫= fun s =>
  match p with
  | None => client_free_client free_fuel o (set_hist s (end_client (hist s))) ≫= fun s => Ok (s, None)
  | Some p =>
      ASSERT (0 <? tot_len p);;
      if u64 (TCP_WND - buf_used x) <? tot_len p
      then DEAD_LEAVE2 s ≫= fun '((s, _) : st * Z) => Ok (s, Some ERR_MEM)
      else
        pbuf_copy_partial p (buf x) (buf_used x) (tot_len p) 0 ≫= fun '((b, n) : list Z * Z) =>
        ASSERT (n =? tot_len p);;
        let used := buf_used x + tot_len p in
        upd s (set_buf b used) ≫= fun s =>
        upd_pcb s (fun q => mkPcb (cb_err q) (cb_recv q) (cb_sent q) (unrecved q + tot_len p) (unacked q)) ≫= fun s =>
        let s := set_hist s (note_rx (hist s) (contents p)) in
        if (used =? tot_len p) && socks_up x then
          ASSERT (negb (socks_closed x));;
          client_send_to_socks s ≫= fun s => Ok (s, None)
        else Ok (s, None)
  end.

Definition client_sent_func (o : oracle) (i : Z) (s : st) (len : Z) : outcome st :=
  the_client s ≫= fun x =>
  ASSERT (negb (client_closed x));;
  ASSERT (socks_up x);;
  ASSERT (0 <? len);;
  ASSERT (len <=? socks_recv_tcp_pending x);;
  DEAD_ENTER i c s ≫= fun s =>
  let pending := socks_recv_tcp_pending x - len in
  upd s (set_recv (socks_recv_buf x) (socks_recv_buf_used x) (socks_recv_buf_sent x)
           (socks_recv_waiting x) pending) ≫= fun s =>
  if 0 <? socks_recv_buf_used x then
    ASSERT (socks_recv_waiting x);;
    ASSERT (socks_recv_buf_sent x <? socks_recv_buf_used x);;
    upd s (set_recv (socks_recv_buf x) (socks_recv_buf_used x) (socks_recv_buf_sent x) false pending) ≫= fun s =>
    client_socks_recv_send_out o s ≫= fun '((s, failed) : st * bool) =>
    if failed then Ok s else
    the_client s ≫= fun x =>
    ASSERT (0 <? socks_recv_tcp_pending x);;
    if (socks_recv_buf_used x =? -1) && negb (socks_closed x) then client_socks_recv_initiate s else Ok s
  else if socks_closed x && (pending =? 0) then client_free_client free_fuel o s
  else Ok s.

Definition callback_return (s : st) : outcome (st * err) :=
  DEAD_LEAVE2 s ≫= fun '((s, killed) : st * Z) => Ok (s, if 0 <? killed then ERR_ABRT else ERR_OK).

End Client.

(** ** Accepting *)
Inductive lwip_addr := Ip4 (addr : Z) | Ip6 (addr : list Z).

Definition baddr_from_lwip (ip_addr : lwip_addr) (port_hostorder : Z) : BAddr :=
  match ip_addr with
  | Ip6 addr => BAddr_InitIPv6 addr (hton16 port_hostorder)
  | Ip4 addr => BAddr_InitIPv4 addr (hton16 port_hostorder)
  end.

(** The connection lwip offers and the outcome of the allocations. *)
Record accept_args := mkAccept {
  a_local_ip : lwip_addr; a_local_port : Z; a_remote_ip : lwip_addr; a_remote_port : Z;
  a_malloc : bool; a_concat : bool; a_socks_init : bool;
  a_memory : client   (* what malloc returned *)
}.

(** [options.username] when [append_source_to_username] is set. *)
Definition new_username (username : option (list Z)) (remote : BAddr) : option (list Z) :=
  match username with
  | Some u => Some (u ++ [64] ++ default [] (BAddr_Print remote))
  | None => None
  end.

(** What the global [socks_auth_info[1].password.username] points to: a string
    that is never freed ([options.username]), the [socks_username] of a client,
    or a string that was freed before its client was complete. *)
Inductive name_ptr := Ptr_option | Ptr_client (c : loc) (name : list Z) | Ptr_freed.

(** The store of the accepted client's [socks_username] into the global. *)
Definition store_username (p : name_ptr) (username : option (list Z)) (q : name_ptr) : name_ptr :=
  match username with Some _ => p | None => q end.

(** The state after the callback up to [SYNC_COMMIT], or [None] when it
    returned [ERR_MEM] and freed what it had allocated; and the global pointer
    to the username, which was [q]. [s] is the state with the pcb of the new
    connection and no client. *)
Definition listener_accept_func (c : loc) (username : option (list Z)) (i : Z) (a : accept_args) (q : name_ptr)
    (s : st) : outcome (option st * name_ptr) :=
  if negb (a_malloc a) then Ok (None, q) else
  let local := baddr_from_lwip (a_local_ip a) (a_local_port a) in
  let remote := baddr_from_lwip (a_remote_ip a) (a_remote_port a) in
  if bool_decide (is_Some username) && negb (a_concat a) then Ok (None, q) else
  if negb (a_socks_init a) then Ok (None, store_username Ptr_freed username q) else
  let g := a_memory a in
  let name := new_username username remote in
  let x := mkClient false None local remote name false (buf g) 0
             false false (socks_recv_buf g) (socks_recv_buf_used g) (socks_recv_buf_sent g)
             (socks_recv_waiting g) (socks_recv_tcp_pending g) in
  ASSERT (0 <=? num_clients s);;
  let s := mkSt (Some x) (pcb s) (Some (mkSocks false None None)) (hist s) (cb s)
             (num_clients s + 1) (tcp_clients s ++ [c]) in
  tcp_err s true ≫= fun s =>
  tcp_recv s true ≫= fun s =>
  DEAD_ENTER i c s ≫= fun s =>
  Ok (Some s, store_username (Ptr_client c (default [] name)) username q).

(** ** The program: all clients, and the events of lwip and of SOCKS *)
Record slot := mkSlot {
  s_cl : option client; s_pcb : option tcp_pcb; s_sk : option socks; s_hist : history
}.

(** [w_next] is the next address [malloc] returns, [w_frame] the number of the
    next callback, [w_auth] the username in [socks_auth_info], which all SOCKS
    clients share. *)
Record world := mkWorld {
  slots : gmap loc slot; w_cb : option frame; w_num : Z; w_list : list loc; w_next : loc; w_frame : Z;
  w_auth : name_ptr
}.

Definition empty_history : history := mkHistory [] [] [] [] false false false.
Definition init_world : world := mkWorld ∅ None 0 [] 1%positive 0 Ptr_option.

Definition focus (w : world) (k : slot) : st :=
  mkSt (s_cl k) (s_pcb k) (s_sk k) (s_hist k) (w_cb w) (w_num w) (w_list w).
Definition unfocus (w : world) (c : loc) (s : st) : world :=
  mkWorld (<[c := mkSlot (cl s) (pcb s) (sk s) (hist s)]> (slots w)) (cb s) (num_clients s)
    (tcp_clients s) (w_next w) (w_frame w) (w_auth w).

Inductive event :=
| EvAccept (a : accept_args)
| EvErr (c : loc)
| EvRecv (c : loc) (p : option pbuf)
| EvSent (c : loc) (len : Z)
| EvReturn
| EvSocks (c : loc) (e : socks_event)
| EvSendDone (c : loc) (n : Z)
| EvRecvDone (c : loc) (d : list Z)
| EvMurder (c : loc)
| EvAuth (c : loc).

(** What lwip and the SOCKS client do: callbacks are called while they are set
    and not inside one another, with data that was queued or acknowledged;
    SOCKS reports in the order of its protocol, completes the operations in
    progress, and before it is up may write its credentials ([EvAuth],
    [received_hello] in BSocksClient.c), which it reads from the global. *)
Definition pcb_of (w : world) (c : loc) : option tcp_pcb := slots w !! c ≫= s_pcb.
Definition sk_of (w : world) (c : loc) : option socks := slots w !! c ≫= s_sk.
Definition cl_of (w : world) (c : loc) : option client := slots w !! c ≫= s_cl.

Definition enabled (w : world) (e : event) : Prop :=
  match e with
  | EvAccept a => w_cb w = None /\ Zlen (buf (a_memory a)) = TCP_WND /\
      Zlen (socks_recv_buf (a_memory a)) = CLIENT_SOCKS_RECV_BUF_SIZE
  | EvErr c => w_cb w = None /\ exists p, pcb_of w c = Some p /\ cb_err p = true
  | EvRecv c d => w_cb w = None /\ (exists p, pcb_of w c = Some p /\ cb_recv p = true) /\
      match d with Some d => 0 < tot_len d <= UINT16_MAX | None => True end
  | EvSent c len => w_cb w = None /\
      exists p, pcb_of w c = Some p /\ cb_sent p = true /\ 0 < len <= unacked p
  | EvReturn => is_Some (w_cb w)
  | EvSocks c e => exists k, sk_of w c = Some k /\
      match e with
      | BSOCKSCLIENT_EVENT_ERROR => True
      | BSOCKSCLIENT_EVENT_UP => is_up k = false
      | BSOCKSCLIENT_EVENT_ERROR_CLOSED => is_up k = true
      end
  | EvSendDone c n => exists k d, sk_of w c = Some k /\ sending k = Some d /\ 0 < n <= Zlen d
  | EvRecvDone c d => exists k n, sk_of w c = Some k /\ receiving k = Some n /\ 0 < Zlen d <= n
  | EvMurder c => w_cb w = None /\ is_Some (cl_of w c)
  | EvAuth c => exists k, sk_of w c = Some k /\ is_up k = false
  end.

(** The username is there to be read. *)
Definition username_live (w : world) : bool :=
  match w_auth w with
  | Ptr_option => true
  | Ptr_client c _ => bool_decide (is_Some (cl_of w c))
  | Ptr_freed => false
  end.

Definition note_consumed (h : history) (d : list Z) : history :=
  mkHistory (rx h) (consumed h ++ d) (srx h) (written h) (client_ended h) (socks_ended h) (murdered h).
Definition note_srx (h : history) (d : list Z) : history :=
  mkHistory (rx h) (consumed h) (srx h ++ d) (written h) (client_ended h) (socks_ended h) (murdered h).

(** One event on the state of client [c]: the effect of the environment, then
    the handler. The result is the value a callback returned. *)
Definition handle_client (c : loc) (o : oracle) (i : Z) (e : event) (s : st) : outcome (st * option err) :=
  match e with
  | EvErr _ => client_err_func c o (set_pcb s None) ≫= fun s => Ok (s, None)
  | EvRecv _ p => client_recv_func c o i s p
  | EvSent _ len =>
      upd_pcb s (fun p => mkPcb (cb_err p) (cb_recv p) (cb_sent p) (unrecved p) (unacked p - len)) ≫= fun s =>
      client_sent_func c o i s len ≫= fun s => Ok (s, None)
  | EvSocks _ e =>
      the_socks s ≫= fun k =>
      let up := is_up k || bool_decide (e = BSOCKSCLIENT_EVENT_UP) in
      client_socks_handler c o (set_sk s (Some (mkSocks up (sending k) (receiving k)))) e ≫= fun s => Ok (s, None)
  | EvSendDone _ n =>
      the_socks s ≫= fun k =>
      of_option (sending k) ≫= fun d =>
      let s := set_hist s (note_consumed (hist s) (take (Z.to_nat n) d)) in
      client_socks_send_handler_done c o (set_sk s (Some (mkSocks (is_up k) None (receiving k)))) n
        ≫= fun s => Ok (s, None)
  | EvRecvDone _ d =>
      the_socks s ≫= fun k =>
      the_client s ≫= fun x =>
      mem_write (socks_recv_buf x) 0 d ≫= fun b =>
      let s := set_hist s (note_srx (hist s) d) in
      upd s (set_recv b (socks_recv_buf_used x) (socks_recv_buf_sent x) (socks_recv_waiting x)
               (socks_recv_tcp_pending x)) ≫= fun s =>
      client_socks_recv_handler_done c o (set_sk s (Some (mkSocks (is_up k) (sending k) None))) (Zlen d)
        ≫= fun s => Ok (s, None)
  | EvMurder _ => client_murder c s ≫= fun s => Ok (s, None)
  | EvReturn => callback_return s ≫= fun '((s, r) : st * err) => Ok (s, Some r)
  | EvAccept _ | EvAuth _ => Fault
  end.

Definition target (w : world) (e : event) : option loc :=
  match e with
  | EvAccept _ | EvAuth _ => None
  | EvReturn => f_client <$> w_cb w
  | EvErr c | EvRecv c _ | EvSent c _ | EvSocks c _ | EvSendDone c _ | EvRecvDone c _ | EvMurder c => Some c
  end.

Definition next_frame (w : world) : world :=
  mkWorld (slots w) (w_cb w) (w_num w) (w_list w) (w_next w) (w_frame w + 1) (w_auth w).

Definition handle (username : option (list Z)) (w : world) (o : oracle) (e : event)
    : outcome (world * option err) :=
  let i := w_frame w in
  match e with
  | EvAccept a =>
      let c := w_next w in
      listener_accept_func c username i a (w_auth w)
        (mkSt None (Some (mkPcb false false false 0 0)) None empty_history (w_cb w) (w_num w) (w_list w))
        ≫= fun '((r, p) : option st * name_ptr) =>
      match r with
      | None => Ok (mkWorld (slots w) (w_cb w) (w_num w) (w_list w) (w_next w) (w_frame w) p, Some ERR_MEM)
      | Some s =>
          let w := unfocus (next_frame w) c s in
          Ok (mkWorld (slots w) (w_cb w) (w_num w) (w_list w) (Pos.succ (w_next w)) (w_frame w) p, None)
      end
  | EvAuth _ => ASSERT (username_live w);; Ok (w, None)
  | _ =>
      of_option (target w e) ≫= fun c =>
      of_option (slots w !! c) ≫= fun k =>
      handle_client c o i e (focus w k) ≫= fun '((s, r) : st * option err) =>
      Ok (unfocus (next_frame w) c s, r)
  end.

(** Runs: the events in order, with the oracle for each. *)
Inductive run (username : option (list Z)) : world -> list (event * oracle) -> outcome world -> Prop :=
| run_nil w : run username w [] (Ok w)
| run_fault w e o es :
    enabled w e -> (forall n, 0 <= o_sndbuf o n) -> handle username w o e = Fault ->
    run username w ((e, o) :: es) Fault
| run_step w e o es w' v r :
    enabled w e -> (forall n, 0 <= o_sndbuf o n) -> handle username w o e = Ok (w', v) ->
    run username w' es r -> run username w ((e, o) :: es) r.

(** ** Invariant *)

(** The variable of the running callback agrees with the client: it is 0 while
    neither [tcp_abort] nor [free] happened, 1 after [tcp_abort], -1 after
    [free] without [tcp_abort]. *)
Definition frame_inv (c : loc) (x : option client) (f : option frame) : Prop :=
  match f with
  | Some f =>
      if decide (f_client f = c) then
        f_prev f = None /\
        match x with
        | Some x => if aborted x then f_dead f = 1 /\ f_abrt f = true
                    else f_dead f = 0 /\ f_abrt f = false /\ dead_aborted x = Some (f_id f)
        | None => (f_dead f = 1 /\ f_abrt f = true) \/ (f_dead f = -1 /\ f_abrt f = false)
        end
      else match x with Some x => aborted x = false -> dead_aborted x = None | None => True end
  | None => match x with Some x => aborted x = false -> dead_aborted x = None | None => True end
  end.

(** The buffers and the SOCKS side; holds also in the middle of a handler. *)
Definition bufs_inv (x : client) : Prop :=
  Zlen (buf x) = TCP_WND /\ 0 <= buf_used x <= TCP_WND /\
  Zlen (socks_recv_buf x) = CLIENT_SOCKS_RECV_BUF_SIZE.

Definition sk_inv (x : client) (k : option socks) : Prop :=
  match k with
  | None => socks_closed x = true
  | Some k =>
      socks_closed x = false /\ is_up k = socks_up x /\
      match sending k with
      | None => socks_up x = false \/ buf_used x = 0
      | Some d => socks_up x = true /\ 0 < Zlen d <= buf_used x /\ d = slice (buf x) 0 (Zlen d)
      end /\
      match receiving k with
      | Some n => n = CLIENT_SOCKS_RECV_BUF_SIZE /\ socks_up x = true /\ socks_recv_buf_used x = -1
      | None => socks_up x = true -> client_closed x = false -> socks_recv_buf_used x <> -1
      end
  end.

Definition pcb_inv (x : client) (p : option tcp_pcb) : Prop :=
  match p with
  | None => client_closed x = true
  | Some p =>
      client_closed x = false /\ aborted x = false /\
      cb_err p = true /\ cb_recv p = negb (socks_closed x) /\ cb_sent p = socks_up x /\
      unrecved p = buf_used x /\ unacked p = (if socks_up x then socks_recv_tcp_pending x else 0)
  end.

(** What of [socks_recv_buf] is still to be queued for the TCP peer. *)
Definition unsent (x : client) : list Z :=
  if socks_up x && (0 <? socks_recv_buf_used x)
  then slice (socks_recv_buf x) (socks_recv_buf_sent x) (socks_recv_buf_used x - socks_recv_buf_sent x)
  else [].

Definition recv_inv (x : client) : Prop :=
  socks_up x = true -> client_closed x = false ->
  0 <= socks_recv_tcp_pending x /\
  (socks_recv_buf_used x = -1 \/
   (0 < socks_recv_buf_used x <= CLIENT_SOCKS_RECV_BUF_SIZE /\
    0 <= socks_recv_buf_sent x < socks_recv_buf_used x /\
    socks_recv_waiting x = true /\ 0 < socks_recv_tcp_pending x)).

Definition hist_inv (x : client) (h : history) : Prop :=
  rx h = consumed h ++ slice (buf x) 0 (buf_used x) /\
  (client_closed x = false -> srx h = written h ++ unsent x) /\
  (exists d, srx h = written h ++ d) /\ murdered h = false.

(** A client waits after one side ended only while it has data to pass on. *)
Definition end_inv (x : client) (h : history) : Prop :=
  (client_closed x = true -> socks_closed x = false /\ 0 < buf_used x /\ client_ended h = true) /\
  (socks_closed x = true -> socks_ended h = true /\ socks_up x = true /\
     (0 <= socks_recv_buf_used x \/ 0 < socks_recv_tcp_pending x)) /\
  (aborted x = true -> client_closed x = true).

Definition final_inv (h : history) : Prop :=
  (exists d, rx h = consumed h ++ d) /\ (exists d, srx h = written h ++ d) /\
  (murdered h = true \/
   ((socks_ended h = true \/ rx h = consumed h) /\ (client_ended h = true \/ srx h = written h))).

Definition glob_inv (s : st) : Prop := num_clients s = Zlen (tcp_clients s) /\ NoDup (tcp_clients s).

Definition st_inv (c : loc) (s : st) : Prop :=
  glob_inv s /\ frame_inv c (cl s) (cb s) /\
  match cl s with
  | None => pcb s = None /\ sk s = None /\ c ∉ tcp_clients s /\ final_inv (hist s)
  | Some x => c ∈ tcp_clients s /\ bufs_inv x /\ sk_inv x (sk s) /\ pcb_inv x (pcb s) /\
      recv_inv x /\ hist_inv x (hist s) /\ end_inv x (hist s)
  end.

(** What a handler of [c] may change for others. *)
Definition step_rel (c : loc) (s s' : st) : Prop :=
  (forall c' x, c' <> c -> frame_inv c' x (cb s) -> frame_inv c' x (cb s')) /\
  (forall c', c' <> c -> c' ∈ tcp_clients s' <-> c' ∈ tcp_clients s).

Lemma step_rel_refl c s s' : cb s' = cb s -> tcp_clients s' = tcp_clients s -> step_rel c s s'.
Proof. intros Hc Hl. unfold step_rel. rewrite Hc, Hl. done. Qed.
Lemma step_rel_trans c s1 s2 s3 : step_rel c s1 s2 -> step_rel c s2 s3 -> step_rel c s1 s3.
Proof.
  intros [F1 L1] [F2 L2]. split; [intros; apply F2; auto|].
  intros. rewrite L2, L1 by done. done.
Qed.

(** The outcome of a handler. *)
Definition post (c : loc) (s : st) (r : outcome st) : Prop :=
  exists s', r = Ok s' /\ st_inv c s' /\ step_rel c s s'.

Lemma post_weaken c s1 s2 r : step_rel c s1 s2 -> post c s2 r -> post c s1 r.
Proof. intros H (s' & -> & Hi & Hs). exists s'. eauto using step_rel_trans. Qed.

Ltac st_cbn :=
  cbv beta iota zeta delta [of_option the_client the_pcb the_socks set_cl set_pcb set_sk set_hist
    set_cb set_clients upd upd_pcb cl pcb sk hist cb num_clients tcp_clients];
  cbn [mbind outcome_bind].

Ltac cl_cbn :=
  cbn [set_aborted set_dead set_client_closed set_buf set_socks_state set_recv aborted dead_aborted
    local_addr remote_addr socks_username client_closed buf buf_used socks_up socks_closed
    socks_recv_buf socks_recv_buf_used socks_recv_buf_sent socks_recv_waiting socks_recv_tcp_pending] in *.

(** Runs a step of the code whose assertion holds by hypothesis. *)
Ltac st_assert := rewrite bind_ASSERT_true by
  (first [ done | lia
         | repeat match goal with H : _ = true |- _ => rewrite H | H : _ = false |- _ => rewrite H end; done ]).

(** ** Freeing *)
Lemma dealloc_ok c x h f n l :
  client_closed x = true -> socks_closed x = true -> c ∈ l -> n = Zlen l -> NoDup l ->
  frame_inv c (Some x) f -> final_inv h ->
  post c (mkSt (Some x) None None h f n l) (client_dealloc c (mkSt (Some x) None None h f n l)).
Proof.
  intros Hc Hs Hin Hn Hnd Hf Hfin. unfold client_dealloc. st_cbn. st_assert. st_assert.
  assert (0 < n) by (destruct l; [by apply elem_of_nil in Hin|cbn in Hn; lia]). st_assert.
  apply list_elem_of_split in Hin as (l1 & l2 & ->).
  apply NoDup_app in Hnd as Hnd'. destruct Hnd' as (_ & Hdis & Hnd2). apply NoDup_cons in Hnd2 as [Hc2 Hnd2].
  assert (c ∉ l1) as Hc1 by (intros Hx; apply (Hdis c Hx); left).
  rewrite LinkedList1.remove_node_split by done.
  assert (forall f', frame_inv c None f' ->
    (forall c' y, c' <> c -> frame_inv c' y f -> frame_inv c' y f') ->
    post c (mkSt (Some x) None None h f n (l1 ++ c :: l2))
      (Ok (mkSt None None None h f' (n - 1) (l1 ++ l2)))) as Hpost.
  { intros f' Hf' Ho. eexists. split; [done|]. split.
    - split; [|split; [done|]].
      + split; cbn [num_clients tcp_clients]; [rewrite length_app in *; cbn in *; lia|].
        apply NoDup_app. split_and!; [by apply NoDup_app in Hnd as (? & _ & _)| |done].
        intros y Hy Hy2. apply (Hdis y Hy). by right.
      + cbn. split_and!; try done. rewrite elem_of_app. naive_solver.
    - split; cbn [cb tcp_clients]; [done|]. intros c' Hne. rewrite !elem_of_app, elem_of_cons. naive_solver. }
  destruct (aborted x) eqn:Ha; cbn [negb].
  - st_cbn. apply Hpost; [|done]. unfold frame_inv in Hf |- *. destruct f as [fr|]; [|done].
    destruct (decide (f_client fr = c)); [|done]. rewrite Ha in Hf. naive_solver.
  - unfold DEAD_KILL_WITH. st_cbn. unfold frame_inv in Hf. destruct f as [fr|].
    + destruct (decide (f_client fr = c)) as [Hcl|Hcl].
      * rewrite Ha in Hf. destruct Hf as (Hp & Hd & Hab & ->). st_cbn.
        rewrite bind_ASSERT_true by apply Z.eqb_refl. st_cbn. apply Hpost.
        -- unfold frame_inv. cbn [f_client]. rewrite decide_True by done. cbn [f_prev f_dead f_abrt]. auto.
        -- intros c' y Hne. unfold frame_inv. cbn [f_client]. by rewrite !decide_False by congruence.
      * rewrite (Hf Ha). st_cbn. apply Hpost; [|done]. unfold frame_inv. by rewrite decide_False.
    + rewrite (Hf Ha). st_cbn. by apply Hpost.
Qed.

(** [client_abort_pcb]. *)
Lemma abort_pcb_ok c x p k h f n l :
  aborted x = false -> frame_inv c (Some x) f ->
  exists f', client_abort_pcb c (mkSt (Some x) (Some p) k h f n l) =
      Ok (mkSt (Some (set_aborted true x)) None k h f' n l) /\
    frame_inv c (Some (set_aborted true x)) f' /\
    (forall c' y, c' <> c -> frame_inv c' y f -> frame_inv c' y f').
Proof.
  intros Ha Hf. unfold client_abort_pcb, tcp_abort. st_cbn. st_assert. st_cbn.
  unfold DEAD_KILL_WITH. st_cbn. unfold frame_inv in Hf |- *. destruct f as [fr|].
  - destruct (decide (f_client fr = c)) as [Hc|Hc].
    + rewrite Ha in Hf. destruct Hf as (Hp & Hd & Hab & Hda).
      cbn [dead_aborted set_aborted]. rewrite Hda. st_cbn.
      rewrite bind_ASSERT_true by apply Z.eqb_refl. st_cbn. eexists. split; [done|].
      cbn [f_client f_prev f_dead f_abrt aborted set_aborted]. rewrite decide_True by done. split; [auto|].
      intros c' y Hne. by rewrite !decide_False by congruence.
    + cbn [dead_aborted set_aborted]. rewrite (Hf Ha). st_cbn. eexists. split; [done|].
      cbv beta iota. rewrite decide_False by done. split; [done|]. intros c' y Hne Hi. done.
  - cbn [dead_aborted set_aborted]. rewrite (Hf Ha). st_cbn. eexists. split; [done|]. split; done.
Qed.

(** What the rest of a handler needs when the pcb is gone and the client is
    about to be marked closed. *)
Record freed_pre (c : loc) (x : client) (k : option socks) (h : history) (f : option frame)
    (n : Z) (l : list loc) : Prop := {
  fp_bufs : bufs_inv x;
  fp_sk : sk_inv x k;
  fp_rx : rx h = consumed h ++ slice (buf x) 0 (buf_used x);
  fp_srx : exists d, srx h = written h ++ d;
  fp_murdered : murdered h = false;
  fp_client : client_ended h = true \/ (socks_closed x = true /\ srx h = written h);
  fp_socks : socks_closed x = true -> socks_ended h = true;
  fp_frame : frame_inv c (Some x) f;
  fp_in : c ∈ l;
  fp_num : n = Zlen l;
  fp_nodup : NoDup l
}.

Lemma slice_0 (b : list Z) off : slice b off 0 = [].
Proof. unfold slice. by rewrite take_0. Qed.

Lemma handle_freed_ok c fuel o x k h f n l :
  client_closed x = false -> freed_pre c x k h f n l ->
  post c (mkSt (Some x) None k h f n l)
    (client_handle_freed_client c (S (S fuel)) o (mkSt (Some x) None k h f n l)).
Proof.
  intros Hc [Hb Hk Hrx Hsrx Hm Hce Hse Hf Hin Hn Hnd]. cbn [client_handle_freed_client client_free_socks].
  st_cbn. st_assert. assert (frame_inv c (Some (set_client_closed true x)) f) as Hf' by done.
  destruct (socks_closed x) eqn:Hs; cbn [negb]; [rewrite andb_false_r|].
  - destruct k as [k|]; [by destruct Hk as [Hk _]; congruence|].
    apply post_weaken with (s2 := mkSt (Some (set_client_closed true x)) None None h f n l);
      [by apply step_rel_refl|]. apply dealloc_ok; try done.
    split_and!; [by eexists|done|]. right. split; [left; auto|]. naive_solver.
  - destruct (Z.ltb_spec 0 (buf_used x)) as [Hu|Hu]; cbn [negb andb].
    + eexists. split; [done|]. split; [|by apply step_rel_refl].
      split; [done|]. split; [done|]. cbn. split; [done|].
      destruct Hce as [Hce|[? _]]; [|congruence]. split_and!; try done.
      * destruct k as [k|]; [|done]. destruct Hk as (? & ? & ? & Hr). split_and!; try done.
        destruct (receiving k); [done|]. intros _ [=].
      * split_and!; try done. intros Hs'. cl_cbn. congruence.
    + destruct k as [k|]; [|by cbn in Hk; congruence].
      cl_cbn. rewrite Hs. cbn [negb andb]. rewrite andb_false_r. st_cbn. unfold BSocksClient_Free. st_cbn.
      cl_cbn. rewrite andb_false_r. apply post_weaken with (s2 := mkSt (Some (set_socks_state (socks_up x) true
        (set_client_closed true x))) None None h f n l); [by apply step_rel_refl|].
      destruct Hb as (_ & Hu0 & _). assert (buf_used x = 0) as Hz by lia. rewrite Hz, slice_0, app_nil_r in Hrx.
      apply dealloc_ok; try done. split_and!; [exists []; by rewrite app_nil_r|done|].
      right. split; [by right|]. naive_solver.
Qed.

Lemma freed_pre_aborted c x k h f f' n l :
  freed_pre c x k h f n l -> frame_inv c (Some (set_aborted true x)) f' ->
  freed_pre c (set_aborted true x) k h f' n l.
Proof. intros [] ?. by constructor. Qed.

Lemma remove_callbacks_ok x p k h f n l :
  exists p', remove_callbacks (mkSt (Some x) (Some p) k h f n l) = Ok (mkSt (Some x) (Some p') k h f n l).
Proof. by eexists. Qed.

(** A pcb that is closed or aborted, then the rest. *)
Lemma abort_then_freed_ok c fuel o x p k h f n l :
  client_closed x = false -> aborted x = false -> freed_pre c x k h f n l ->
  post c (mkSt (Some x) (Some p) k h f n l)
    (client_abort_pcb c (mkSt (Some x) (Some p) k h f n l) ≫= client_handle_freed_client c (S (S fuel)) o).
Proof.
  intros Hc Ha Hpre. destruct (abort_pcb_ok c x p k h f n l Ha (fp_frame _ _ _ _ _ _ _ Hpre))
    as (f' & -> & Hf' & Ho). cbn [mbind outcome_bind].
  eapply post_weaken; [|by eapply handle_freed_ok, freed_pre_aborted]. by split.
Qed.

Lemma free_client_ok c fuel o x p k h f n l :
  client_closed x = false -> aborted x = false -> freed_pre c x k h f n l ->
  post c (mkSt (Some x) (Some p) k h f n l)
    (client_free_client c (S (S (S fuel))) o (mkSt (Some x) (Some p) k h f n l)).
Proof.
  intros Hc Ha Hpre. cbn [client_free_client]. st_cbn. st_assert.
  destruct (remove_callbacks_ok x p k h f n l) as [p' ->]. unfold tcp_close. st_cbn.
  destruct (decide (o_close o = ERR_OK)); st_cbn.
  - eapply post_weaken; [|by apply handle_freed_ok]. by apply step_rel_refl.
  - eapply post_weaken; [|by apply (abort_then_freed_ok c fuel o x p')]. by apply step_rel_refl.
Qed.

Lemma freed_pre_end_client c x k h f n l :
  bufs_inv x -> sk_inv x k -> hist_inv x h -> (socks_closed x = true -> socks_ended h = true) ->
  frame_inv c (Some x) f -> c ∈ l -> n = Zlen l -> NoDup l ->
  freed_pre c x k (end_client h) f n l.
Proof. intros Hb Hk (? & _ & ? & ?) Hs Hf ? ? ?. constructor; try done. by left. Qed.

Lemma abort_client_ok c o x p k h f n l :
  client_closed x = false -> aborted x = false -> freed_pre c x k (end_client h) f n l ->
  post c (mkSt (Some x) (Some p) k h f n l)
    (client_abort_client c o (mkSt (Some x) (Some p) k h f n l)).
Proof.
  intros Hc Ha Hpre. unfold client_abort_client. st_cbn. st_assert.
  destruct (remove_callbacks_ok x p k h f n l) as [p' ->]. st_cbn.
  destruct (abort_pcb_ok c x p' k h f n l Ha (fp_frame _ _ _ _ _ _ _ Hpre)) as (f' & -> & Hf' & Ho). st_cbn.
  eapply post_weaken; [|eapply handle_freed_ok; [done|by eapply freed_pre_aborted]]. by split.
Qed.

(** What is known of a live client in a state that keeps the invariant. *)
Record alive (c : loc) (x : client) (p : option tcp_pcb) (k : option socks) (h : history)
    (f : option frame) (n : Z) (l : list loc) : Prop := {
  al_in : c ∈ l;
  al_num : n = Zlen l;
  al_nodup : NoDup l;
  al_frame : frame_inv c (Some x) f;
  al_bufs : bufs_inv x;
  al_sk : sk_inv x k;
  al_pcb : pcb_inv x p;
  al_recv : recv_inv x;
  al_hist : hist_inv x h;
  al_end : end_inv x h
}.

Lemma alive_inv c x p k h f n l : st_inv c (mkSt (Some x) p k h f n l) <-> alive c x p k h f n l.
Proof.
  split.
  - intros ([? ?] & ? & ? & ? & ? & ? & ? & ? & ?). by constructor.
  - intros []. by split_and!.
Qed.

(** [client_free_socks], called when SOCKS reported its end, or for a closed
    client with nothing left to send. *)
Lemma free_socks_ok c fuel o x p k h f n l :
  alive c x p (Some k) h f n l ->
  post c (mkSt (Some x) p (Some k) h f n l)
    (client_free_socks c (S (S (S (S fuel)))) o (mkSt (Some x) p (Some k) (end_socks h) f n l)).
Proof.
  intros [Hin Hn Hnd Hf Hb Hk Hp Hr Hh He]. cbn [client_free_socks]. st_cbn.
  destruct Hk as (Hs & _). st_assert.
  destruct Hh as (Hrx & Hsrx & Hsp & Hm). destruct He as (Hce & _ & Hac).
  destruct (client_closed x) eqn:Hc; cbn [negb].
  - rewrite !andb_false_r. unfold BSocksClient_Free. st_cbn.
    destruct p as [p|]; [by destruct Hp; congruence|].
    apply post_weaken with (s2 := mkSt (Some (set_socks_state (socks_up x) true x)) None None (end_socks h) f n l);
      [by apply step_rel_refl|].
    apply dealloc_ok; try done. split_and!; [by eexists|done|].
    right. split; [by left|]. left. cbn. by apply Hce.
  - destruct p as [p|]; [|by cbn in Hp; congruence].
    destruct Hp as (_ & Ha & Hp1 & Hp2 & Hp3 & Hp4 & Hp5).
    rewrite !andb_true_r.
    assert (exists p', (if socks_up x then tcp_recv (mkSt (Some x) (Some p) (Some k) (end_socks h) f n l) false
               else Ok (mkSt (Some x) (Some p) (Some k) (end_socks h) f n l)) =
             Ok (mkSt (Some x) (Some p') (Some k) (end_socks h) f n l) /\
             cb_err p' = true /\ (socks_up x = true -> cb_recv p' = false) /\ cb_sent p' = socks_up x /\
             unrecved p' = buf_used x /\ unacked p' = unacked p) as (p' & -> & Q1 & Q2 & Q3 & Q4 & Q5).
    { destruct (socks_up x) eqn:Hu; eexists; (split; [done|]); cbn; split_and!; done || congruence. }
    unfold BSocksClient_Free. st_cbn.
    destruct (socks_up x && _) eqn:Hw.
    + zify_bool. eexists. split; [done|]. split; [|by apply step_rel_refl]. apply alive_inv.
      constructor; try done; cl_cbn.
      * split_and!; try done; cl_cbn; try congruence; by rewrite Q2.
      * split_and!; try done. intros _. by apply Hsrx.
      * split_and!; try done; intros; cl_cbn; try congruence. cbn. split_and!; try done.
        match goal with H : _ || _ = true |- _ => apply orb_true_iff in H as [H|H] end; zify_bool; [left|right]; lia.
    + eapply post_weaken; [|apply free_client_ok]; [by apply step_rel_refl|done|done|].
      constructor; try done. right. split; [done|]. cbn.
      rewrite Hsrx by done. unfold unsent.
      destruct (socks_up x) eqn:Hu; cbn [andb] in Hw |- *; [|by rewrite app_nil_r].
      apply orb_false_iff in Hw as [Hw _]. zify_bool. destruct (Z.ltb_spec 0 (socks_recv_buf_used x)); [lia|].
      by rewrite app_nil_r.
Qed.

Lemma free_socks_drained_ok c fuel o x k h f n l :
  client_closed x = true -> socks_closed x = false -> rx h = consumed h -> (exists d, srx h = written h ++ d) ->
  client_ended h = true -> c ∈ l -> n = Zlen l -> NoDup l -> frame_inv c (Some x) f ->
  post c (mkSt (Some x) None (Some k) h f n l)
    (client_free_socks c (S fuel) o (mkSt (Some x) None (Some k) h f n l)).
Proof.
  intros Hc Hs Hrx Hsrx He Hin Hn Hnd Hf. cbn [client_free_socks]. st_cbn. st_assert.
  rewrite Hc. cbn [negb]. rewrite !andb_false_r. unfold BSocksClient_Free. st_cbn.
  apply post_weaken with (s2 := mkSt (Some (set_socks_state (socks_up x) true x)) None None h f n l);
    [by apply step_rel_refl|].
  apply dealloc_ok; try done. split_and!; [exists []; by rewrite app_nil_r|done|]. right. auto.
Qed.

Lemma murder_ok c x p k h f n l :
  alive c x p k h f n l ->
  post c (mkSt (Some x) p k h f n l) (client_murder c (mkSt (Some x) p k h f n l)).
Proof.
  intros [Hin Hn Hnd Hf Hb Hk Hp Hr Hh He]. unfold client_murder.
  cbv beta iota delta [set_hist cl pcb sk hist cb num_clients tcp_clients].
  set (h' := note_murder h).
  assert (final_inv h') as Hfin.
  { destruct Hh as (Hrx & _ & Hsp & _). split_and!; [by eexists|done|by left]. }
  assert (exists x' f', murder_pcb c (mkSt (Some x) p k h' f n l) = Ok (mkSt (Some x') None k h' f' n l) /\
    client_closed x' = true /\ socks_closed x' = socks_closed x /\
    frame_inv c (Some x') f' /\ (forall c' y, c' <> c -> frame_inv c' y f -> frame_inv c' y f'))
    as (x' & f' & -> & Hc' & Hs' & Hf' & Ho).
  { unfold murder_pcb. st_cbn. destruct p as [p|].
    - destruct Hp as (Hc & Ha & _). rewrite Hc. cbn [negb].
      destruct (remove_callbacks_ok x p k h' f n l) as [p' ->]. st_cbn.
      destruct (abort_pcb_ok c x p' k h' f n l Ha Hf) as (f' & -> & Hf' & Ho). st_cbn. by eexists _, _.
    - rewrite Hp. by eexists _, _. }
  cbn [mbind outcome_bind].
  assert (exists x'', murder_socks (mkSt (Some x') None k h' f' n l) = Ok (mkSt (Some x'') None None h' f' n l) /\
    client_closed x'' = true /\ socks_closed x'' = true /\ frame_inv c (Some x'') f')
    as (x'' & -> & Hc'' & Hs'' & Hf'').
  { unfold murder_socks. st_cbn. rewrite Hs'. destruct k as [k|]; [destruct Hk as (Hs & _)|cbn in Hk].
    - rewrite Hs. unfold BSocksClient_Free. cbn [negb]. st_cbn. eexists. split; [done|]. by split_and!.
    - rewrite Hk. eexists. split; [done|]. split_and!; congruence. }
  cbn [mbind outcome_bind]. eapply post_weaken; [|by apply dealloc_ok]. by split.
Qed.

Lemma mem_read_prefix (b : list Z) n : 0 <= n <= Zlen b -> mem_read b 0 n = Ok (slice b 0 n).
Proof. intros. apply mem_read_Ok. split; [lia|done]. Qed.

Lemma send_done_ok c o x p k d h f n l len :
  alive c x p (Some k) h f n l -> sending k = Some d -> 0 < len <= Zlen d ->
  post c (mkSt (Some x) p (Some k) h f n l)
    (client_socks_send_handler_done c o
       (mkSt (Some x) p (Some (mkSocks (is_up k) None (receiving k)))
          (note_consumed h (take (Z.to_nat len) d)) f n l) len).
Proof.
  intros [Hin Hn Hnd Hf Hb Hk Hp Hr Hh He] Hsd Hlen. destruct Hk as (Hs & Hu & Hsend & Hrecv).
  rewrite Hsd in Hsend. destruct Hsend as (Hup & Hd & Hdb). destruct Hb as (Hbl & Hbu & Hrl).
  destruct Hh as (Hrx & Hsrx & Hsp & Hm).
  unfold client_socks_send_handler_done. st_cbn. do 5 st_assert.
  set (used := buf_used x - len). unfold shift_buf.
  assert (mem_read (buf x) len (buf_used x - len) = Ok (slice (buf x) len used)) as ->
    by (apply mem_read_Ok; split; [lia|done]). st_cbn.
  pose proof (length_slice (buf x) len used ltac:(lia) ltac:(lia) ltac:(lia)) as Hsl.
  assert (mem_write (buf x) 0 (slice (buf x) len used) = Ok (splice (buf x) 0 (slice (buf x) len used))) as ->
    by (apply mem_write_Ok; split; [lia|done]). st_cbn.
  set (b := splice (buf x) 0 (slice (buf x) len used)).
  assert (Zlen b = TCP_WND) as Hbl' by (unfold b; rewrite length_splice; lia).
  assert (slice b 0 used = slice (buf x) len used) as Hbs.
  { unfold b. rewrite <- Hsl at 2. apply slice_splice_same; lia. }
  assert (take (Z.to_nat len) d = slice (buf x) 0 len) as Htake.
  { rewrite Hdb. unfold slice. cbn. rewrite !drop_0, take_take. f_equal. lia. }
  assert (rx h = (consumed h ++ slice (buf x) 0 len) ++ slice b 0 used) as Hrx'.
  { rewrite Hrx, Hbs, <- app_assoc. f_equal. unfold used.
    rewrite <- (Z.add_0_l len) at 2. rewrite <- slice_app_split by lia. f_equal. lia. }
  rewrite Htake.
  assert (exists p', (if negb (client_closed x) then
      tcp_recved (mkSt (Some (set_buf b used x)) p (Some (mkSocks (is_up k) None (receiving k)))
        (note_consumed h (slice (buf x) 0 len)) f n l) len
    else Ok (mkSt (Some (set_buf b used x)) p (Some (mkSocks (is_up k) None (receiving k)))
        (note_consumed h (slice (buf x) 0 len)) f n l)) =
    Ok (mkSt (Some (set_buf b used x)) p' (Some (mkSocks (is_up k) None (receiving k)))
        (note_consumed h (slice (buf x) 0 len)) f n l) /\ pcb_inv (set_buf b used x) p') as (p' & -> & Hp').
  { destruct p as [p|].
    - destruct Hp as (Hc & ? & ? & ? & ? & ? & ?). rewrite Hc. eexists. split; [done|].
      cbn. split_and!; try done. unfold used. lia.
    - rewrite Hp. by eexists. }
  st_cbn. destruct (Z.ltb_spec 0 used) as [H0|H0].
  - rewrite mem_read_prefix by lia. unfold StreamPass_Send. st_cbn.
    rewrite bind_ASSERT_true by (cbn [is_up sending]; rewrite Hu, Hup, length_slice, bool_decide_eq_true_2 by (done || lia);
      apply andb_true_iff; split; [done|apply Z.ltb_lt; lia]).
    cbn [is_up sending receiving].
    eexists. split; [done|]. split; [|by apply step_rel_refl]. apply alive_inv.
    destruct He as (He1 & He2 & He3). constructor; try done.
    + split_and!; [done|cl_cbn; lia..].
    + split_and!; try done. cbn. rewrite length_slice by lia. split_and!; done || lia.
    + split_and!; try done. intros Hcc. destruct (He1 Hcc) as (? & ? & ?). by split_and!.
  - assert (used = 0) as Hz by lia. destruct (client_closed x) eqn:Hc.
    + destruct p' as [p'|]; [by destruct Hp'; cl_cbn; congruence|].
      eapply post_weaken; [|apply free_socks_drained_ok; try done]; [by apply step_rel_refl| |].
      * cbn. by rewrite Hrx', Hz, slice_0, app_nil_r.
      * cbn. by apply (proj1 He).
    + eexists. split; [done|]. split; [|by apply step_rel_refl]. apply alive_inv.
      destruct He as (He1 & He2 & He3). constructor; try done.
      * split_and!; [done|cl_cbn; lia..].
      * split_and!; try done; [by right|]. cbn. by rewrite Hc.
      * by split_and!; [|intros _; apply Hsrx|..].
      * split_and!; try done. intros Hcc. cl_cbn. congruence.
Qed.

(** ** Queueing data for the TCP peer *)

(** The state while [client_socks_recv_send_out] runs. *)
Record mid (c : loc) (x : client) (p : tcp_pcb) (k : option socks) (h : history)
    (f : option frame) (n : Z) (l : list loc) : Prop := {
  mi_in : c ∈ l;
  mi_num : n = Zlen l;
  mi_nodup : NoDup l;
  mi_frame : frame_inv c (Some x) f;
  mi_bufs : bufs_inv x;
  mi_sk : sk_inv x k;
  mi_pcb : pcb_inv x (Some p);
  mi_up : socks_up x = true;
  mi_pending : 0 <= socks_recv_tcp_pending x;
  mi_used : 0 < socks_recv_buf_used x <= CLIENT_SOCKS_RECV_BUF_SIZE;
  mi_sent : 0 <= socks_recv_buf_sent x <= socks_recv_buf_used x;
  mi_hist : hist_inv x h;
  mi_ended : socks_closed x = true -> socks_ended h = true
}.

(** A result of the queueing functions: the client was aborted, or [P] holds. *)
Definition out_post (c : loc) (s : st) (P : client -> tcp_pcb -> history -> Prop) (r : outcome (st * bool)) : Prop :=
  exists s' b, r = Ok (s', b) /\
    if b then st_inv c s' /\ step_rel c s s'
    else exists x' p' h', s' = mkSt (Some x') (Some p') (sk s) h' (cb s) (num_clients s) (tcp_clients s) /\
           P x' p' h'.

Lemma abort_out_ok c o x p k h f n l (s : st) P :
  mid c x p k h f n l -> step_rel c s (mkSt (Some x) (Some p) k h f n l) ->
  out_post c s P (client_abort_client c o (mkSt (Some x) (Some p) k h f n l) ≫= fun s => Ok (s, true)).
Proof.
  intros [] Hs. destruct mi_pcb0 as (Hc & Ha & ?).
  destruct (abort_client_ok c o x p k h f n l Hc Ha) as (s' & -> & Hi & Hr); [by apply freed_pre_end_client|].
  cbn [mbind outcome_bind]. exists s', true. eauto using step_rel_trans.
Qed.

Lemma unsent_mid x : socks_up x = true -> 0 < socks_recv_buf_used x ->
  unsent x = slice (socks_recv_buf x) (socks_recv_buf_sent x) (socks_recv_buf_used x - socks_recv_buf_sent x).
Proof. intros Hu H0. unfold unsent. rewrite Hu. by destruct (Z.ltb_spec 0 (socks_recv_buf_used x)); [|lia]. Qed.

(** One turn of the loop that queues [w] bytes. *)
Lemma queue_step_mid c x p k h f n l w :
  mid c x p k h f n l -> 0 <= w <= socks_recv_buf_used x - socks_recv_buf_sent x ->
  mid c (set_recv (socks_recv_buf x) (socks_recv_buf_used x) (socks_recv_buf_sent x + w) (socks_recv_waiting x)
           (socks_recv_tcp_pending x + w) x)
    (mkPcb (cb_err p) (cb_recv p) (cb_sent p) (unrecved p)
       (unacked p + Zlen (slice (socks_recv_buf x) (socks_recv_buf_sent x) w))) k
    (note_written h (slice (socks_recv_buf x) (socks_recv_buf_sent x) w)) f n l.
Proof.
  intros [] Hw. destruct mi_bufs0 as (? & ? & Hrl).
  assert (Zlen (slice (socks_recv_buf x) (socks_recv_buf_sent x) w) = w) as Hl by (apply length_slice; lia).
  destruct mi_hist0 as (Hrx & Hsrx & Hsp & Hm). destruct mi_pcb0 as (Hc & ? & ? & ? & ? & ? & Hun).
  rewrite mi_up0 in Hun.
  assert (srx h = (written h ++ slice (socks_recv_buf x) (socks_recv_buf_sent x) w) ++
    slice (socks_recv_buf x) (socks_recv_buf_sent x + w) (socks_recv_buf_used x - (socks_recv_buf_sent x + w))) as Hs.
  { rewrite Hsrx, unsent_mid by (done || lia). rewrite <- app_assoc, <- slice_app_split by lia. do 2 f_equal. lia. }
  constructor; try done; cl_cbn; try lia.
  - split_and!; try done. cbn. rewrite mi_up0. lia.
  - split_and!; try done; [|by eexists]. intros _.
    rewrite unsent_mid by (done || cl_cbn; lia). done.
Qed.

Lemma queue_loop_ok c o fuel i x p k h f n l :
  (forall j, 0 <= o_sndbuf o j) -> mid c x p k h f n l -> socks_recv_buf_sent x < socks_recv_buf_used x ->
  (Z.to_nat (socks_recv_buf_used x - socks_recv_buf_sent x) < fuel)%nat ->
  out_post c (mkSt (Some x) (Some p) k h f n l)
    (fun x' p' h' => mid c x' p' k h' f n l /\
       socks_recv_buf_used x' = socks_recv_buf_used x /\ socks_closed x' = socks_closed x /\
       socks_recv_buf_sent x <= socks_recv_buf_sent x' /\
       socks_recv_tcp_pending x' - socks_recv_buf_sent x' = socks_recv_tcp_pending x - socks_recv_buf_sent x)
    (queue_loop c fuel o i (mkSt (Some x) (Some p) k h f n l)).
Proof.
  intros Ho. revert i x p h. induction fuel as [|fuel IH]; intros i x p h Hmid Hlt Hfuel; [lia|].
  cbn [queue_loop]. st_cbn. pose proof (Ho i) as Hsb.
  set (w := Z.min (socks_recv_buf_used x - socks_recv_buf_sent x) (o_sndbuf o i)).
  assert (out_post c (mkSt (Some x) (Some p) k h f n l)
    (fun x' p' h' => mid c x' p' k h' f n l /\
       socks_recv_buf_used x' = socks_recv_buf_used x /\ socks_closed x' = socks_closed x /\
       socks_recv_buf_sent x <= socks_recv_buf_sent x' /\
       socks_recv_tcp_pending x' - socks_recv_buf_sent x' = socks_recv_tcp_pending x - socks_recv_buf_sent x)
    (Ok (mkSt (Some x) (Some p) k h f n l, false))) as Hstop.
  { eexists _, false. split; [done|]. eexists _, _, _. split; [done|]. by split_and!. }
  destruct (Z.eqb_spec w 0) as [Hw|Hw]; [done|].
  destruct (mi_bufs _ _ _ _ _ _ _ _ Hmid) as (_ & _ & Hrl).
  pose proof (mi_used _ _ _ _ _ _ _ _ Hmid) as Hus. pose proof (mi_sent _ _ _ _ _ _ _ _ Hmid) as Hse.
  assert (mem_read (socks_recv_buf x) (socks_recv_buf_sent x) w =
    Ok (slice (socks_recv_buf x) (socks_recv_buf_sent x) w)) as -> by (apply mem_read_Ok; split; [lia|done]).
  st_cbn. destruct (o_write o i); [|done|by apply abort_out_ok; [|apply step_rel_refl]..].
  unfold tcp_write. st_cbn.
  pose proof (queue_step_mid c x p k h f n l w Hmid ltac:(lia)) as Hmid'.
  match goal with |- out_post _ _ _ (if _ then queue_loop _ _ _ _ (mkSt (Some ?y) (Some ?q) _ ?g _ _ _) else _) =>
    set (x' := y) in *; set (p' := q) in *; set (h' := g) in * end.
  destruct (Z.ltb_spec (socks_recv_buf_sent x + w) (socks_recv_buf_used x)) as [Hm|Hm].
  - destruct (IH (S i) x' p' h' Hmid') as (s' & b & -> & Hb); [unfold x'; cl_cbn; lia..|].
    exists s', b. split; [done|]. destruct b; [done|]. destruct Hb as (x'' & p'' & h'' & -> & Hmid'' & ? & ? & ? & ?).
    eexists _, _, _. split; [done|]. unfold x' in *. cl_cbn. split_and!; try done; lia.
  - eexists _, false. split; [done|]. eexists _, _, _. split; [done|]. split; [done|]. unfold x'. cl_cbn.
    split_and!; try done; lia.
Qed.

(** The SOCKS side after [client_socks_recv_initiate]. *)
Definition initiated (k : option socks) : option socks :=
  match k with
  | Some k => Some (mkSocks (is_up k) (sending k) (Some CLIENT_SOCKS_RECV_BUF_SIZE))
  | None => None
  end.

Lemma initiate_ok c x p k h f n l :
  alive c x (Some p) (initiated (Some k)) h f n l -> socks_recv_buf_used x = -1 -> receiving k = None ->
  socks_up x = true ->
  client_socks_recv_initiate (mkSt (Some x) (Some p) (Some k) h f n l) =
    Ok (mkSt (Some x) (Some p) (initiated (Some k)) h f n l).
Proof.
  intros [? ? ? ? ? (Hs & Hu & _) (Hc & _) ? ? ?] Hm Hr Hup. cbn [is_up] in Hu. unfold client_socks_recv_initiate, StreamRecv_Recv.
  st_cbn. st_assert. st_assert. st_assert. rewrite bind_ASSERT_true by (by rewrite Hm).
  rewrite bind_ASSERT_true; [done|]. by rewrite Hu, Hup, Hr.
Qed.

Lemma mid_receiving c x p k h f n l : mid c x p (Some k) h f n l -> receiving k = None.
Proof. intros []. destruct mi_sk0 as (_ & _ & _ & Hr). destruct (receiving k); [lia|done]. Qed.

Definition sent_out (c : loc) (x0 : client) (k : option socks) (f : option frame) (n : Z) (l : list loc)
    (x : client) (p : tcp_pcb) (h : history) : Prop :=
  0 < socks_recv_tcp_pending x /\ socks_closed x = socks_closed x0 /\ socks_up x = true /\
  ((socks_recv_buf_used x <> -1 /\ alive c x (Some p) k h f n l) \/
   (socks_recv_buf_used x = -1 /\ alive c x (Some p) (initiated k) h f n l)).

Lemma send_out_ok c o x p k h f n l :
  (forall j, 0 <= o_sndbuf o j) -> mid c x p k h f n l -> socks_recv_buf_sent x < socks_recv_buf_used x ->
  socks_recv_waiting x = false ->
  out_post c (mkSt (Some x) (Some p) k h f n l) (sent_out c x k f n l)
    (client_socks_recv_send_out c o (mkSt (Some x) (Some p) k h f n l)).
Proof.
  intros Ho Hmid Hlt Hw. unfold client_socks_recv_send_out. st_cbn.
  pose proof Hmid as [_ _ _ _ _ _ (Hc & _) Hup Hpe Hus _ _ _]. do 5 st_assert.
  destruct (queue_loop_ok c o (S (Z.to_nat (socks_recv_buf_used x - socks_recv_buf_sent x))) 0 x p k h f n l Ho Hmid Hlt ltac:(lia))
    as (s' & b & -> & Hb). cbn [mbind outcome_bind].
  destruct b; [by exists s', true|]. destruct Hb as (x' & p' & h' & -> & Hmid' & Hu' & Hs' & Hse' & Hd').
  st_cbn. destruct (decide (o_output o = ERR_OK)); [|by apply abort_out_ok; [|apply step_rel_refl]].
  pose proof Hmid' as [Hin Hn Hnd Hf Hbu Hk Hp Hup' Hpe' Hus' Hsent' Hh Hend].
  destruct (Z.ltb_spec (socks_recv_buf_sent x') (socks_recv_buf_used x')) as [Hm|Hm].
  - destruct (Z.eqb_spec (socks_recv_tcp_pending x') 0); [by apply abort_out_ok; [|apply step_rel_refl]|].
    eexists _, false. split; [done|]. eexists _, _, _. split; [done|]. split_and!; cl_cbn; try done; [lia|].
    left. split; [lia|]. destruct Hp as (? & ? & ? & ? & ? & ? & ?).
    constructor; try done; [by intros _ _; cl_cbn; split; [lia|]; right; split_and!; try done; lia|].
    split_and!; try done; cl_cbn; try congruence. intros Hsc. split_and!; [by apply Hend|done|lia].
  - eexists _, false. split; [done|]. eexists _, _, _. split; [done|]. split_and!; cl_cbn; try done; [lia|].
    right. split; [done|]. destruct Hp as (? & ? & ? & ? & ? & ? & ?).
    destruct Hh as (Hrx & Hsrx & Hsp & Hmu).
    constructor; try done; cl_cbn.
    + destruct k as [k|]; [|done]. destruct Hk as (? & ? & Hsend & _). by split_and!.
    + intros _ _. cl_cbn. split; [lia|by left].
    + split_and!; try done. intros _. rewrite Hsrx, unsent_mid by (done || lia).
      replace (socks_recv_buf_used x' - socks_recv_buf_sent x') with 0 by lia. rewrite slice_0.
      unfold unsent. cl_cbn. by rewrite andb_false_r.
    + split_and!; try done; cl_cbn; try congruence. intros Hsc. split_and!; [by apply Hend|done|lia].
Qed.

(** The end of the two callers of [client_socks_recv_send_out]. *)
Lemma sent_out_tail c (s : st) x p k h f n l r :
  out_post c (mkSt (Some x) (Some p) k h f n l) (sent_out c x k f n l) r ->
  step_rel c s (mkSt (Some x) (Some p) k h f n l) ->
  (forall kk, k = Some kk -> receiving kk = None) ->
  post c s (r ≫= fun '((s, failed) : st * bool) =>
    if failed then Ok s else
    the_client s ≫= fun x' =>
    ASSERT (0 <? socks_recv_tcp_pending x');;
    if (socks_recv_buf_used x' =? -1) && negb (socks_closed x') then client_socks_recv_initiate s else Ok s).
Proof.
  intros (s' & b & -> & Hb) Hs Hk. cbn [mbind outcome_bind]. destruct b.
  { destruct Hb as [Hi Hr]. exists s'. eauto using step_rel_trans. }
  destruct Hb as (x' & p' & h' & -> & Hpe & Hsc & Hup & Hcase). st_cbn. st_assert.
  assert (step_rel c s (mkSt (Some x') (Some p') k h' f n l)) as Hs' by exact Hs.
  destruct Hcase as [[Hu Ha]|[Hu Ha]].
  - destruct (Z.eqb_spec (socks_recv_buf_used x') (-1)); [done|]. cbn [andb].
    eexists. split; [done|]. split; [by apply alive_inv|done].
  - destruct (Z.eqb_spec (socks_recv_buf_used x') (-1)); [|done]. cbn [andb].
    destruct k as [k|].
    + pose proof (al_sk _ _ _ _ _ _ _ _ Ha) as (Hcl & _). rewrite Hcl. cbn [negb].
      rewrite (initiate_ok c) by auto. eexists. split; [done|]. split; [by apply alive_inv|done].
    + pose proof (al_sk _ _ _ _ _ _ _ _ Ha) as Hcl. cbn in Hcl. rewrite Hcl. cbn [negb].
      eexists. split; [done|]. split; [by apply alive_inv|done].
Qed.

Lemma unsent_none x : socks_recv_buf_used x = -1 -> unsent x = [].
Proof. intros Hu. unfold unsent. rewrite Hu. by rewrite andb_false_r. Qed.

(** The state in which the receive handler starts to queue the data [d]. *)
Lemma recv_mid c x p k h f n l d m :
  alive c x (Some p) (Some k) h f n l -> receiving k = Some m -> 0 < Zlen d <= m ->
  mid c (set_recv (splice (socks_recv_buf x) 0 d) (Zlen d) 0 false (socks_recv_tcp_pending x) x) p
    (Some (mkSocks (is_up k) (sending k) None)) (note_srx h d) f n l.
Proof.
  intros [Hin Hn Hnd Hf Hb Hk Hp Hr Hh He] Hm Hd. destruct Hk as (Hs & Hu & Hsend & Hrecv).
  rewrite Hm in Hrecv. destruct Hrecv as (-> & Hup & Hus). destruct Hb as (? & ? & Hrl).
  destruct Hh as (Hrx & Hsrx & Hsp & Hmu). pose proof Hp as (Hc & _).
  assert (Zlen (splice (socks_recv_buf x) 0 d) = CLIENT_SOCKS_RECV_BUF_SIZE) as Hl by (rewrite length_splice; lia).
  rewrite unsent_none, app_nil_r in Hsrx by done.
  constructor; try done; cl_cbn; try lia.
  - split_and!; try done. cbn. lia.
  - by destruct (Hr Hup Hc).
  - split_and!; try done; [|exists d; cbn; by rewrite Hsrx].
    intros _. cbn. rewrite Hsrx by done. f_equal. rewrite unsent_mid by (cl_cbn; lia || done). cl_cbn.
    rewrite Z.sub_0_r. symmetry. apply slice_splice_same; lia.
  - congruence.
Qed.

Lemma recv_done_ok c o x p k h f n l d m :
  (forall j, 0 <= o_sndbuf o j) ->
  alive c x p (Some k) h f n l -> receiving k = Some m -> 0 < Zlen d <= m ->
  post c (mkSt (Some x) p (Some k) h f n l)
    (client_socks_recv_handler_done c o
       (mkSt (Some (set_recv (splice (socks_recv_buf x) 0 d) (socks_recv_buf_used x) (socks_recv_buf_sent x)
                      (socks_recv_waiting x) (socks_recv_tcp_pending x) x)) p
          (Some (mkSocks (is_up k) (sending k) None)) (note_srx h d) f n l) (Zlen d)).
Proof.
  intros Ho Ha Hm Hd. pose proof Ha as [Hin Hn Hnd Hf Hb Hk Hp Hr Hh He]. destruct Hk as (Hs & Hu & Hsend & Hrecv).
  rewrite Hm in Hrecv. destruct Hrecv as (-> & Hup & Hus). destruct Hb as (? & ? & Hrl).
  unfold client_socks_recv_handler_done. do 2 st_assert. st_cbn. cl_cbn.
  do 2 st_assert. rewrite bind_ASSERT_true by (by rewrite Hus).
  destruct p as [p|].
  - pose proof Hp as (Hc & _). rewrite Hc. cbn [mbind outcome_bind].
    pose proof (recv_mid c x p k h f n l d _ Ha Hm Hd) as Hmid.
    match type of Hmid with mid _ ?y _ _ _ _ _ _ => set (x1 := y) in Hmid end.
    destruct (send_out_ok c o x1 p (Some (mkSocks (is_up k) (sending k) None)) (note_srx h d) f n l Ho Hmid)
      as (s' & b & Hr' & Hcase); [unfold x1; cl_cbn; lia|done|].
    change (set_recv (splice (socks_recv_buf x) 0 d) (Zlen d) 0 false (socks_recv_tcp_pending x)
      (set_recv (splice (socks_recv_buf x) 0 d) (socks_recv_buf_used x) (socks_recv_buf_sent x)
        (socks_recv_waiting x) (socks_recv_tcp_pending x) x)) with x1.
    rewrite Hr'. cbn [mbind outcome_bind]. destruct b.
    + destruct Hcase as [Hi Hs']. exists s'. split; [done|]. split; [done|].
      eapply step_rel_trans; [|done]. by apply step_rel_refl.
    + destruct Hcase as (x' & p' & h' & -> & Hpe & Hsc & Hup' & [[Hu' Ha']|[Hu' Ha']]); st_cbn.
      * destruct (Z.eqb_spec (socks_recv_buf_used x') (-1)); [done|].
        eexists. split; [done|]. split; [by apply alive_inv|by apply step_rel_refl].
      * destruct (Z.eqb_spec (socks_recv_buf_used x') (-1)); [|done].
        rewrite (initiate_ok c) by done. eexists. split; [done|]. split; [by apply alive_inv|by apply step_rel_refl].
  - rewrite Hp. eexists. split; [done|]. split; [|by apply step_rel_refl]. apply alive_inv.
    destruct Hh as (Hrx & Hsrx & [e Hsp] & Hmu). constructor; try done.
    + split_and!; cl_cbn; try done; try lia. rewrite length_splice; lia.
    + split_and!; try done. cl_cbn. cbn. congruence.
    + split_and!; try done; [intros Hc; cl_cbn; congruence|]. exists (e ++ d). cbn. by rewrite Hsp, app_assoc.
Qed.

(** ** SOCKS events *)
Lemma send_to_socks_ok x p k h f n l :
  Zlen (buf x) = TCP_WND -> 0 < buf_used x <= TCP_WND -> socks_closed x = false -> socks_up x = true ->
  is_up k = true -> sending k = None ->
  client_send_to_socks (mkSt (Some x) p (Some k) h f n l) =
    Ok (mkSt (Some x) p (Some (mkSocks true (Some (slice (buf x) 0 (buf_used x))) (receiving k))) h f n l).
Proof.
  intros Hb Hu Hs Hup Hk Hsd. unfold client_send_to_socks. st_cbn. do 3 st_assert.
  rewrite mem_read_prefix by lia. unfold StreamPass_Send. st_cbn. rewrite Hk, Hsd, length_slice by lia.
  rewrite bind_ASSERT_true; [done|]. cbn. apply Z.ltb_lt. lia.
Qed.

(** [BSOCKSCLIENT_EVENT_UP]. *)
Lemma socks_up_ok c o x p k h f n l :
  alive c x p (Some k) h f n l -> is_up k = false ->
  post c (mkSt (Some x) p (Some k) h f n l)
    (client_socks_handler c o (mkSt (Some x) p (Some (mkSocks true (sending k) (receiving k))) h f n l)
       BSOCKSCLIENT_EVENT_UP).
Proof.
  intros [Hin Hn Hnd Hf Hb Hk Hp Hr Hh He] Hku. destruct Hk as (Hs & Hu & Hsend & Hrecv).
  rewrite Hku in Hu. symmetry in Hu.
  destruct (sending k) as [d|]; [by destruct Hsend; congruence|].
  destruct (receiving k) as [m|]; [by destruct Hrecv as (_ & ? & _); congruence|].
  destruct Hb as (Hbl & Hbu & Hrl). destruct Hh as (Hrx & Hsrx & Hsp & Hm).
  unfold client_socks_handler. st_cbn. do 2 st_assert.
  set (x1 := set_recv (socks_recv_buf x) (-1) (socks_recv_buf_sent x) (socks_recv_waiting x) 0 x).
  set (x2 := set_socks_state true (socks_closed x) x1).
  assert (unsent x = []) as Hun by (unfold unsent; by rewrite Hu).
  assert (unsent x2 = []) as Hun2 by (by apply unsent_none).
  assert (exists p', (if negb (client_closed x) then
      tcp_sent (mkSt (Some x1) p (Some (mkSocks true None None)) h f n l) true
      else Ok (mkSt (Some x1) p (Some (mkSocks true None None)) h f n l)) =
      Ok (mkSt (Some x1) p' (Some (mkSocks true None None)) h f n l) /\ pcb_inv x2 p') as (p' & -> & Hp').
  { destruct p as [p|].
    - destruct Hp as (Hc & ? & ? & ? & ? & ? & Hua). rewrite Hc. eexists. split; [done|].
      rewrite Hu in Hua. by split_and!.
    - rewrite Hp. by eexists. }
  st_cbn. change (set_socks_state true (socks_closed x) x1) with x2.
  assert (exists sd, (if 0 <? buf_used x then
      client_send_to_socks (mkSt (Some x2) p' (Some (mkSocks true None None)) h f n l)
      else Ok (mkSt (Some x2) p' (Some (mkSocks true None None)) h f n l)) =
      Ok (mkSt (Some x2) p' (Some (mkSocks true sd None)) h f n l) /\
      match sd with None => socks_up x2 = false \/ buf_used x2 = 0
      | Some d => socks_up x2 = true /\ 0 < Zlen d <= buf_used x2 /\ d = slice (buf x2) 0 (Zlen d) end)
    as (sd & -> & Hsd).
  { destruct (Z.ltb_spec 0 (buf_used x)).
    - rewrite send_to_socks_ok by (done || unfold x2, x1; cl_cbn; lia || done).
      eexists. split; [done|]. cbn. rewrite length_slice by lia. split_and!; done || lia.
    - eexists. split; [done|]. right. unfold x2, x1. cl_cbn. lia. }
  st_cbn.
  assert (forall kk, sk_inv x2 (Some kk) -> alive c x2 p' (Some kk) h f n l) as Hal.
  { intros kk Hkk. destruct He as (He1 & He2 & He3). constructor; try done.
    - intros _ _. unfold x2, x1. cl_cbn. split; [lia|by left].
    - split_and!; try done. intros Hc. rewrite Hun2. rewrite Hsrx, Hun by done. done.
    - split_and!; try done. intros Hsc. unfold x2, x1 in Hsc. cl_cbn. congruence. }
  destruct (client_closed x) eqn:Hc; cbn [negb].
  - eexists. split; [done|]. split; [|by apply step_rel_refl]. apply alive_inv, Hal.
    split_and!; try done. cbn. congruence.
  - destruct p' as [p'|]; [|by cbn in Hp'; congruence].
    assert (alive c x2 (Some p') (initiated (Some (mkSocks true sd None))) h f n l) as Ha.
    { apply Hal. by split_and!. }
    rewrite (initiate_ok c) by done. eexists. split; [done|]. split; [by apply alive_inv|by apply step_rel_refl].
Qed.

Lemma socks_handler_ok c o x p k h f n l e :
  alive c x p (Some k) h f n l ->
  match e with BSOCKSCLIENT_EVENT_ERROR => True | BSOCKSCLIENT_EVENT_UP => is_up k = false
  | BSOCKSCLIENT_EVENT_ERROR_CLOSED => is_up k = true end ->
  post c (mkSt (Some x) p (Some k) h f n l)
    (client_socks_handler c o
       (mkSt (Some x) p (Some (mkSocks (is_up k || bool_decide (e = BSOCKSCLIENT_EVENT_UP)) (sending k) (receiving k))) h f n l) e).
Proof.
  intros Ha He. pose proof (al_sk _ _ _ _ _ _ _ _ Ha) as (Hs & Hu & _). destruct k as [up sd rc]. cbn [is_up sending receiving] in *.
  destruct e.
  - unfold client_socks_handler. st_cbn. st_assert.
    rewrite bool_decide_eq_false_2, orb_false_r by done. by apply free_socks_ok.
  - rewrite bool_decide_eq_true_2, orb_true_r by done. by apply (socks_up_ok c o x p (mkSocks up sd rc)).
  - unfold client_socks_handler. st_cbn. st_assert. rewrite bind_ASSERT_true by congruence.
    rewrite bool_decide_eq_false_2, orb_false_r by done. by apply free_socks_ok.
Qed.

(** ** lwip callbacks *)
Lemma err_func_ok c o x p k h n l :
  alive c x (Some p) k h None n l ->
  post c (mkSt (Some x) (Some p) k h None n l) (client_err_func c o (mkSt (Some x) None k h None n l)).
Proof.
  intros [Hin Hn Hnd Hf Hb Hk (Hc & Ha & _) Hr Hh (_ & He & _)]. unfold client_err_func. st_cbn. st_assert.
  eapply post_weaken; [|apply handle_freed_ok; [done|apply freed_pre_end_client; try done]].
  - by apply step_rel_refl.
  - intros Hs. by destruct (He Hs).
Qed.

Definition new_frame (i : Z) (c : loc) : option frame := Some (mkFrame i c 0 None false).

Lemma enter_ok c i x p k h n l :
  pcb_inv x (Some p) -> frame_inv c (Some x) None ->
  DEAD_ENTER i c (mkSt (Some x) (Some p) k h None n l) =
    Ok (mkSt (Some (set_dead (Some i) x)) (Some p) k h (new_frame i c) n l).
Proof. intros (_ & Ha & _) Hf. unfold DEAD_ENTER. st_cbn. by rewrite (Hf Ha). Qed.

Lemma frame_new c i x : aborted x = false -> frame_inv c (Some (set_dead (Some i) x)) (new_frame i c).
Proof. intros Ha. unfold frame_inv, new_frame. cbn. rewrite decide_True by done. rewrite Ha. done. Qed.

Lemma step_rel_enter c i x p k h n l x' p' k' h' :
  step_rel c (mkSt x p k h None n l) (mkSt x' p' k' h' (new_frame i c) n l).
Proof.
  split; [|done]. intros c' y Hne Hf. unfold frame_inv, new_frame in *. cbn.
  rewrite decide_False by congruence. done.
Qed.

Lemma alive_enter c i x p k h n l :
  alive c x (Some p) k h None n l ->
  alive c (set_dead (Some i) x) (Some p) k h (new_frame i c) n l.
Proof. intros [? ? ? ? ? ? Hp ? ? ?]. constructor; try done. by apply frame_new, Hp. Qed.

(** Data that fits in the buffer. *)
Lemma recv_data_ok c o i x p k h n l d :
  alive c x (Some p) (Some k) h None n l -> 0 < tot_len d <= UINT16_MAX -> tot_len d <= TCP_WND - buf_used x ->
  exists s', client_recv_func c o i (mkSt (Some x) (Some p) (Some k) h None n l) (Some d) = Ok (s', None) /\
    st_inv c s' /\ step_rel c (mkSt (Some x) (Some p) (Some k) h None n l) s'.
Proof.
  intros Ha Hd Hfit. pose proof (alive_enter c i _ _ _ _ _ _ Ha) as [Hin Hn Hnd Hf' Hb Hk Hp Hr Hh He].
  pose proof Ha as [_ _ _ Hf _ _ Hp0 _ _ _].
  unfold client_recv_func. st_cbn. pose proof Hp0 as (Hc & Hab & _). st_assert.
  rewrite enter_ok by done. st_cbn. st_assert.
  destruct Hb as (Hbl & Hbu & Hrl). cl_cbn. unfold TCP_WND, UINT16_MAX in *. rewrite u64_small by lia.
  destruct (Z.ltb_spec (5840 - buf_used x) (tot_len d)); [lia|].
  rewrite pbuf_copy_all by (unfold UINT16_MAX; lia). st_cbn. rewrite bind_ASSERT_true by apply Z.eqb_refl.
  set (b := splice (buf x) (buf_used x) (contents d)). set (used := buf_used x + tot_len d).
  assert (Zlen (contents d) = tot_len d) as Hcl by done.
  assert (Zlen b = 5840) as Hbl' by (unfold b; rewrite length_splice; lia).
  assert (slice b 0 used = slice (buf x) 0 (buf_used x) ++ contents d) as Hbs.
  { unfold used. rewrite slice_app_split by lia. unfold b at 2. rewrite Z.add_0_l, <- Hcl, slice_splice_same by lia.
    f_equal. unfold b. apply slice_splice_disjoint; lia. }
  assert (forall m, 0 <= m <= buf_used x -> slice b 0 m = slice (buf x) 0 m) as Hpre.
  { intros. unfold b. apply slice_splice_disjoint; lia. }
  destruct Hk as (Hs & Hu & Hsend & Hrecv). destruct Hh as (Hrx & Hsrx & Hsp & Hm).
  destruct Hp as (_ & _ & Hp1 & Hp2 & Hp3 & Hp4 & Hp5). cl_cbn.
  set (x1 := set_dead (Some i) x) in *. set (x2 := set_buf b used x1).
  set (p2 := mkPcb (cb_err p) (cb_recv p) (cb_sent p) (unrecved p + tot_len d) (unacked p)).
  assert (forall kk, sk_inv x2 (Some kk) ->
    alive c x2 (Some p2) (Some kk) (note_rx h (contents d)) (new_frame i c) n l) as Hal.
  { intros kk Hkk. destruct He as (He1 & He2 & He3). constructor; try done.
    - split_and!; try done; unfold x2, x1, used; cl_cbn; unfold TCP_WND; lia.
    - split_and!; try done. cbn. unfold used. lia.
    - split_and!; try done. cbn. by rewrite Hbs, Hrx, app_assoc.
    - split_and!; try done. intros Hcc. unfold x2, x1 in Hcc. cl_cbn. congruence. }
  destruct ((used =? tot_len d) && socks_up x) eqn:Hsd; zify_bool.
  - st_assert. assert (buf_used x = 0) as Hz by lia.
    assert (sending k = None) as Hsk.
    { destruct (sending k) as [e|]; [|done]. destruct Hsend as (_ & ? & _). lia. }
    rewrite send_to_socks_ok; [|unfold x2, x1, used; cl_cbn; unfold TCP_WND; done || lia..|congruence|done].
    cbn [mbind outcome_bind]. eexists. split; [done|]. split; [|apply step_rel_enter]. apply alive_inv, Hal.
    split_and!; try done; cbn; rewrite ?length_slice by lia.
    split_and!; done || lia.
  - eexists. split; [done|]. split; [|apply step_rel_enter]. apply alive_inv, Hal.
    split_and!; try done. destruct (sending k) as [e|].
    + destruct Hsend as (Hup & He1 & He2). split_and!; [done|lia|unfold x2, x1, used; cl_cbn; lia|].
      unfold x2. cl_cbn. by rewrite Hpre by lia.
    + destruct Hsend as [Hup|Hz]; [by left|]. left. apply andb_false_iff in Hsd as [Hsd|Hsd]; [|done].
      zify_bool. lia.
Qed.

(** End of the TCP stream. *)
Lemma recv_eof_ok c o i x p k h n l :
  alive c x (Some p) k h None n l ->
  exists s', client_recv_func c o i (mkSt (Some x) (Some p) k h None n l) None = Ok (s', None) /\
    st_inv c s' /\ step_rel c (mkSt (Some x) (Some p) k h None n l) s'.
Proof.
  intros Ha. pose proof (alive_enter c i _ _ _ _ _ _ Ha) as [Hin Hn Hnd Hf' Hb Hk Hp Hr Hh (_ & He & _)].
  pose proof Ha as [_ _ _ Hf _ _ Hp0 _ _ _]. pose proof Hp0 as (Hc & Hab & _).
  unfold client_recv_func. st_cbn. st_assert. rewrite enter_ok by done. st_cbn.
  destruct (free_client_ok c 2 o (set_dead (Some i) x) p k (end_client h) (new_frame i c) n l)
    as (s' & Hs & Hi & Hrel); [done|done|apply freed_pre_end_client; try done; intros Hs; by destruct (He Hs)|].
  unfold free_fuel. rewrite Hs. cbn [mbind outcome_bind]. exists s'. split_and!; try done.
  eapply step_rel_trans; [|done]. apply step_rel_enter.
Qed.

(** Data for which there is no room: refused, nothing changes. *)
Lemma recv_refuse_ok c o i x p k h n l d :
  alive c x (Some p) k h None n l -> 0 < tot_len d -> TCP_WND - buf_used x < tot_len d ->
  client_recv_func c o i (mkSt (Some x) (Some p) k h None n l) (Some d) =
    Ok (mkSt (Some (set_dead None x)) (Some p) k h None n l, Some ERR_MEM).
Proof.
  intros Ha Hd Hbig. pose proof Ha as [_ _ _ Hf (_ & Hbu & _) _ Hp _ _ _]. pose proof Hp as (Hc & _).
  unfold client_recv_func. st_cbn. st_assert. rewrite enter_ok by done. st_cbn. st_assert.
  unfold TCP_WND in *. rewrite u64_small by lia. destruct (Z.ltb_spec (5840 - buf_used x) (tot_len d)); [|lia].
  unfold DEAD_LEAVE2, new_frame. st_cbn. cbn [f_dead Z.eqb f_prev]. st_cbn. done.
Qed.

Lemma alive_set_dead c x p k h n l :
  alive c x (Some p) k h None n l -> alive c (set_dead None x) (Some p) k h None n l.
Proof. intros [? ? ? ? ? ? Hp ? ? ?]. by constructor. Qed.

(** The pcb after lwip has seen [len] bytes acknowledged. *)
Definition acked (p : tcp_pcb) (len : Z) : tcp_pcb :=
  mkPcb (cb_err p) (cb_recv p) (cb_sent p) (unrecved p) (unacked p - len).

Lemma sent_func_ok c o i x p k h n l len :
  (forall j, 0 <= o_sndbuf o j) ->
  alive c x (Some p) k h None n l -> cb_sent p = true -> 0 < len <= unacked p ->
  post c (mkSt (Some x) (Some p) k h None n l)
    (client_sent_func c o i (mkSt (Some x) (Some (acked p len)) k h None n l) len).
Proof.
  intros Ho [Hin Hn Hnd Hf Hb Hk Hp Hr Hh He] Hcb Hlen.
  pose proof Hp as (Hc & Hab & Hp1 & Hp2 & Hp3 & Hp4 & Hp5).
  assert (socks_up x = true) as Hup by congruence. rewrite Hup in Hp5.
  unfold client_sent_func. st_cbn. do 4 st_assert.
  unfold DEAD_ENTER. st_cbn. rewrite (Hf Hab). st_cbn.
  set (pending := socks_recv_tcp_pending x - len).
  set (x1 := set_recv (socks_recv_buf x) (socks_recv_buf_used x) (socks_recv_buf_sent x)
    (socks_recv_waiting x) pending (set_dead (Some i) x)).
  assert (pcb_inv x1 (Some (acked p len))) as Hp'.
  { split_and!; try done. cbn. rewrite Hup. unfold pending. lia. }
  destruct (Hr Hup Hc) as (Hpe & Hcase). destruct He as (He1 & He2 & He3).
  destruct (Z.ltb_spec 0 (socks_recv_buf_used x)) as [Hus|Hus].
  - destruct Hcase as [?|(Hus' & Hse & Hwa & Hpe')]; [lia|]. do 2 st_assert.
    set (x2 := set_recv _ _ _ false pending x1).
    assert (mid c x2 (acked p len) k h (new_frame i c) n l) as Hmid.
    { constructor; try done; unfold x2, x1; cl_cbn; try (unfold pending; lia).
      - by apply frame_new.
      - intros Hs. by destruct (He2 Hs). }
    apply (sent_out_tail c _ x2 (acked p len) k h (new_frame i c) n l).
    + apply send_out_ok; try done. unfold x2. cl_cbn. unfold x1. cl_cbn. lia.
    + apply step_rel_enter.
    + intros kk ->. by apply (mid_receiving c x2 (acked p len) kk h (new_frame i c) n l).
  - destruct Hcase as [Hm|?]; [|lia].
    destruct (socks_closed x && (pending =? 0)) eqn:Hsc; zify_bool.
    + eapply post_weaken; [|apply free_client_ok]; [apply step_rel_enter|done|done|].
      constructor; try done; unfold x1; cl_cbn.
      * by destruct Hh.
      * by destruct Hh as (_ & _ & ? & _).
      * by destruct Hh as (_ & _ & _ & ?).
      * right. split; [done|]. destruct Hh as (_ & Hsrx & _). rewrite Hsrx, unsent_none by done. by rewrite app_nil_r.
      * intros Hs. by destruct (He2 Hs).
      * by apply frame_new.
    + eexists. split; [done|]. split; [|apply step_rel_enter]. apply alive_inv.
      constructor; try done.
      * by apply frame_new.
      * intros _ _. unfold x1. cl_cbn. split; [unfold pending; lia|by left].
      * split_and!; try done. intros Hs. unfold x1 in *. cl_cbn. destruct (He2 Hs) as (? & ? & ?).
        split_and!; try done. right. rewrite Hs in Hsc. cbn in Hsc. zify_bool. unfold pending in *. lia.
Qed.

(** The end of a callback. *)
Lemma return_ok c s fr :
  st_inv c s -> cb s = Some fr -> f_client fr = c ->
  exists s', callback_return s = Ok (s', if f_abrt fr then ERR_ABRT else ERR_OK) /\
    st_inv c s' /\ step_rel c s s' /\ cb s' = None.
Proof.
  intros Hi Hcb Hc. destruct s as [x p k h f n l]. cbn in Hcb. subst f.
  destruct Hi as (Hg & Hf & Hrest). cbn [cl pcb sk hist cb num_clients tcp_clients] in *.
  assert (forall x', step_rel c (mkSt x p k h (Some fr) n l) (mkSt x' p k h None n l)) as Hrel.
  { intros x'. split; [|done]. intros c' y Hne. unfold frame_inv. cbn.
    by rewrite decide_False by congruence. }
  unfold callback_return, DEAD_LEAVE2. st_cbn. unfold frame_inv in Hf. rewrite decide_True in Hf by done.
  destruct Hf as [Hpr Hf]. rewrite Hpr. destruct x as [x|].
  - destruct (aborted x) eqn:Ha.
    + destruct Hf as [-> ->]. cbn [Z.eqb mbind outcome_bind]. st_cbn. eexists. split; [done|].
      split_and!; try done; try apply Hrel. split_and!; try done. cbn. congruence.
    + destruct Hf as (-> & -> & Hd). cbn [Z.eqb mbind outcome_bind]. st_cbn. eexists. split; [done|].
      split_and!; try done; apply Hrel.
  - destruct Hf as [[-> ->]|[-> ->]]; cbn [Z.eqb mbind outcome_bind]; st_cbn; eexists; (split; [done|]);
      split_and!; try done; apply Hrel.
Qed.

(** ** All events *)
Lemma handle_client_ok c o i e s w :
  (forall j, 0 <= o_sndbuf o j) -> st_inv c s -> enabled w e -> target w e = Some c ->
  slots w !! c = Some (mkSlot (cl s) (pcb s) (sk s) (hist s)) -> w_cb w = cb s ->
  exists s' r, handle_client c o i e s = Ok (s', r) /\ st_inv c s' /\ step_rel c s s'.
Proof.
  intros Ho Hi He Ht Hsl Hcb.
  assert (forall m, post c s m -> exists s' (r : option err), (m ≫= fun s => Ok (s, None)) = Ok (s', r) /\
    st_inv c s' /\ step_rel c s s') as Hpost.
  { intros m (s' & -> & ? & ?). by eexists _, _. }
  destruct s as [x p k h f n l]. cbn [cl pcb sk hist cb] in *.
  assert (forall q, p = Some q -> exists y, x = Some y /\ alive c y (Some q) k h f n l) as Hpcb.
  { intros q ->. destruct x as [x|]; [|by destruct Hi as (_ & _ & ? & _)]. exists x. by rewrite <- alive_inv. }
  assert (forall q, k = Some q -> exists y, x = Some y /\ alive c y p (Some q) h f n l) as Hsk.
  { intros q ->. destruct x as [x|]; [|by destruct Hi as (_ & _ & _ & ? & _)]. exists x. by rewrite <- alive_inv. }
  destruct e as [a|c'|c' d|c' len| |c' e|c' m|c' d|c'|c']; cbn [target] in Ht; try discriminate;
    try (injection Ht as ->); cbn [enabled handle_client] in *; unfold pcb_of, sk_of, cl_of in He; rewrite ?Hsl in He; cbn in He.
  - destruct He as (Hn & q & -> & _). destruct (Hpcb q eq_refl) as (y & -> & Ha). rewrite Hn in Hcb. subst f.
    st_cbn. apply Hpost. by apply err_func_ok.
  - destruct He as (Hn & (q & -> & Hrcv) & Hd). destruct (Hpcb q eq_refl) as (y & -> & Ha).
    rewrite Hn in Hcb. subst f. destruct d as [d|].
    + destruct (decide (tot_len d <= TCP_WND - buf_used y)).
      * pose proof Ha as [_ _ _ _ _ Hki (_ & _ & _ & Hq & _) _ _ _].
        destruct k as [k|]; [|by cbn in Hki; rewrite Hki in Hq; cbn in Hq; congruence].
        destruct (recv_data_ok c o i y q k h n l d Ha Hd) as (s' & -> & ? & ?); [done|]. by eexists _, _.
      * rewrite recv_refuse_ok by (done || lia). eexists _, _. split; [done|].
        split; [by apply alive_inv, alive_set_dead|by apply step_rel_refl].
    + destruct (recv_eof_ok c o i y q k h n l Ha) as (s' & -> & ? & ?). by eexists _, _.
  - destruct He as (Hn & q & -> & Hs & Hlen). destruct (Hpcb q eq_refl) as (y & -> & Ha).
    rewrite Hn in Hcb. subst f. st_cbn. apply Hpost. by apply (sent_func_ok c o i y q).
  - destruct He as [fr Hfr]. rewrite Hfr in Ht. cbn in Ht. injection Ht as Hc.
    destruct (return_ok c (mkSt x p k h f n l) fr Hi) as (s' & -> & ? & ? & ?); [cbn; congruence|done|].
    by eexists _, _.
  - destruct He as (q & -> & He). destruct (Hsk q eq_refl) as (y & -> & Ha). st_cbn.
    apply Hpost. by apply socks_handler_ok.
  - destruct He as (q & d & -> & Hsd & Hm). destruct (Hsk q eq_refl) as (y & -> & Ha). st_cbn.
    rewrite Hsd. st_cbn. apply Hpost. by apply send_done_ok.
  - destruct He as (q & m & -> & Hrc & Hm). destruct (Hsk q eq_refl) as (y & -> & Ha). st_cbn.
    pose proof Ha as [_ _ _ _ (_ & _ & Hrl) (_ & _ & _ & Hr) _ _ _ _]. rewrite Hrc in Hr. destruct Hr as [-> _].
    assert (mem_write (socks_recv_buf y) 0 d = Ok (splice (socks_recv_buf y) 0 d)) as ->
      by (apply mem_write_Ok; split; [lia|done]). st_cbn. apply Hpost. by eapply recv_done_ok.
  - destruct He as (_ & [y ->]). apply Hpost. apply murder_ok. by apply alive_inv.
Qed.

(** ** The invariant of the program *)

(** The callback that runs, if any, is not for [c]. *)
Definition idle_client : client :=
  mkClient false None BADDR_NONE BADDR_NONE None false [] 0 false false [] 0 0 false 0.
Definition not_running (c : loc) (f : option frame) : Prop := frame_inv c (Some idle_client) f.

Lemma not_running_spec c f : not_running c f <-> forall fr, f = Some fr -> f_client fr <> c.
Proof.
  unfold not_running, frame_inv. destruct f as [fr|]; [|naive_solver]. case_decide; cbn; naive_solver.
Qed.

Record world_inv (w : world) : Prop := {
  wi_slots : forall c k, slots w !! c = Some k -> st_inv c (focus w k);
  wi_fresh : forall c, (w_next w <= c)%positive -> slots w !! c = None;
  wi_list : forall c, slots w !! c = None -> c ∉ w_list w;
  wi_cb : forall c, slots w !! c = None -> not_running c (w_cb w);
  wi_num : w_num w = Zlen (w_list w);
  wi_nodup : NoDup (w_list w)
}.

Lemma init_world_inv : world_inv init_world.
Proof. constructor; try done; [|apply NoDup_nil_2]. intros c _ Hc. by apply elem_of_nil in Hc. Qed.

(** A handler of [c] that keeps its part of the invariant keeps the whole. *)
Lemma unfocus_inv w c s s' :
  world_inv w -> (c < w_next w)%positive -> st_inv c s' -> step_rel c s s' ->
  cb s = w_cb w -> tcp_clients s = w_list w -> world_inv (unfocus w c s').
Proof.
  intros [Hs Hfr Hl Hc Hn Hnd] Hlt Hi [Hrf Hrl] Hcb Hcl. rewrite Hcb, Hcl in *. pose proof Hi as ([Hn' Hnd'] & _).
  constructor; cbn [unfocus slots w_next w_list w_cb w_num]; try done.
  - intros c' k'. destruct (decide (c' = c)) as [->|Hne].
    + rewrite lookup_insert_eq. intros [= <-]. unfold focus. cbn. by destruct s'.
    + rewrite lookup_insert_ne by done. intros Hk. destruct (Hs c' k' Hk) as (_ & Hf & Hrest).
      split; [done|]. cbn [focus cl pcb sk hist cb tcp_clients] in *. split; [by apply Hrf|].
      destruct (s_cl k'); rewrite Hrl by done; done.
  - intros c' Hc'. rewrite lookup_insert_ne by lia. by apply Hfr.
  - intros c'. destruct (decide (c' = c)) as [->|Hne]; [by rewrite lookup_insert_eq|].
    rewrite lookup_insert_ne by done. intros Hk. rewrite Hrl by done. by apply Hl.
  - intros c'. destruct (decide (c' = c)) as [->|Hne]; [by rewrite lookup_insert_eq|].
    rewrite lookup_insert_ne by done. intros Hk. by apply Hrf, Hc.
Qed.

Lemma next_frame_inv w : world_inv w -> world_inv (next_frame w).
Proof. intros []. by constructor. Qed.

(** [listener_accept_func] either refuses and leaves nothing behind, or adds a
    client that keeps the invariant. *)
Lemma accept_ok c username i a q f n l :
  Zlen (buf (a_memory a)) = TCP_WND -> Zlen (socks_recv_buf (a_memory a)) = CLIENT_SOCKS_RECV_BUF_SIZE ->
  n = Zlen l -> NoDup l -> c ∉ l -> f = None ->
  exists r p, listener_accept_func c username i a q
      (mkSt None (Some (mkPcb false false false 0 0)) None empty_history f n l) = Ok (r, p) /\ (username = None -> p = q) /\
    match r with
    | None => True
    | Some s' => st_inv c s' /\ step_rel c (mkSt None None None empty_history f n l) s'
    end.
Proof.
  intros Hb Hr Hn Hnd Hc ->. unfold listener_accept_func.
  destruct (a_malloc a); cbn [negb]; [|by eexists _, _].
  destruct (bool_decide _ && _); [by eexists _, _|]. destruct (a_socks_init a); cbn [negb];
    [|eexists _, _; split; [done|]; by split; [intros ->|]].
  st_cbn. st_assert. unfold tcp_err, tcp_recv, DEAD_ENTER. st_cbn. eexists _, _. split; [done|].
  split; [by intros ->|]. split.
  - apply alive_inv. constructor; try done.
    + apply elem_of_app. right. by left.
    + rewrite length_app. cbn. lia.
    + apply NoDup_app. split_and!; [done| |apply NoDup_singleton]. intros y Hy Hy'.
      apply list_elem_of_singleton in Hy'. congruence.
    + by apply (frame_new c i).
    + split_and!; try done; cbn; unfold TCP_WND; lia.
    + split_and!; try done. by exists [].
  - split; cbn.
    + intros c' y Hne Hf. unfold frame_inv in *. cbn. by rewrite decide_False by congruence.
    + intros c' Hne. rewrite elem_of_app, list_elem_of_singleton. naive_solver.
Qed.

Lemma slot_live w c : world_inv w -> is_Some (slots w !! c) -> (c < w_next w)%positive.
Proof.
  intros [_ Hf _ _ _ _] [k Hk]. destruct (decide (w_next w <= c)%positive) as [Hle|?]; [|lia].
  by rewrite Hf in Hk.
Qed.

Lemma handle_ok username w o e :
  (forall j, 0 <= o_sndbuf o j) -> world_inv w -> enabled w e ->
  (forall c, e = EvAuth c -> username_live w = true) ->
  exists w' r, handle username w o e = Ok (w', r) /\ world_inv w' /\
    (username = None -> w_auth w = Ptr_option -> w_auth w' = Ptr_option).
Proof.
  intros Ho Hw He Hau.
  assert (forall c, target w e = Some c -> is_Some (slots w !! c) ->
    (forall k, slots w !! c = Some k -> exists w' r,
      (handle_client c o (w_frame w) e (focus w k) ≫= fun '((s, r) : st * option err) =>
        Ok (unfocus (next_frame w) c s, r)) = Ok (w', r) /\ world_inv w' /\
        (username = None -> w_auth w = Ptr_option -> w_auth w' = Ptr_option))) as Hmain.
  { intros c Ht Hs k Hk.
    destruct (handle_client_ok c o (w_frame w) e (focus w k) w) as (s' & r & -> & Hi & Hrel);
      try done; [by apply (wi_slots _ Hw)|by rewrite Hk; destruct k|].
    eexists _, _. split; [done|]. split; [|done]. apply (unfocus_inv (next_frame w) c (focus w k)); try done.
    - by apply next_frame_inv.
    - by apply (slot_live w c). }
  unfold handle. destruct e as [a|c|c d|c len| |c e|c m|c d|c|c].
  - destruct He as (Hcb & Hb & Hr). pose proof Hw as [Hs Hf Hl Hcl Hn Hnd].
    assert (slots w !! w_next w = None) as Hnone by (apply Hf; lia).
    destruct (accept_ok (w_next w) username (w_frame w) a (w_auth w) (w_cb w) (w_num w) (w_list w))
      as (r & q & -> & Hq & Hr'); try done; [by apply Hl|]. cbn [mbind outcome_bind]. destruct r as [s'|].
    + destruct Hr' as [Hi Hrel]. eexists _, _. split; [done|]. split; [|by intros Hu <-; apply Hq].
      set (w1 := mkWorld (slots w) (w_cb w) (w_num w) (w_list w) (Pos.succ (w_next w)) (w_frame w + 1) q).
      apply (unfocus_inv w1 (w_next w) (mkSt None None None empty_history (w_cb w) (w_num w) (w_list w))); try done.
      * constructor; try done. intros c Hc. apply Hf. cbn in Hc. lia.
      * cbn. lia.
    + eexists _, _. split; [done|]. split; [by constructor|by intros Hu <-; apply Hq].
  - destruct He as (Hcb & p & Hp & _). unfold pcb_of in Hp. destruct (slots w !! c) as [k|] eqn:Hk; [|done].
    cbn [target of_option mbind outcome_bind]. rewrite Hk. by apply Hmain.
  - destruct He as (Hcb & (p & Hp & _) & _). unfold pcb_of in Hp. destruct (slots w !! c) as [k|] eqn:Hk; [|done].
    cbn [target of_option mbind outcome_bind]. rewrite Hk. by apply Hmain.
  - destruct He as (Hcb & p & Hp & _). unfold pcb_of in Hp. destruct (slots w !! c) as [k|] eqn:Hk; [|done].
    cbn [target of_option mbind outcome_bind]. rewrite Hk. by apply Hmain.
  - destruct He as [fr Hfr]. cbn [target of_option mbind outcome_bind]. rewrite Hfr. cbn.
    destruct (slots w !! f_client fr) as [k|] eqn:Hk.
    + apply (Hmain (f_client fr)); [cbn; by rewrite Hfr|done|done].
    + pose proof (wi_cb _ Hw _ Hk) as Hc. rewrite not_running_spec in Hc. by destruct (Hc fr).
  - destruct He as (p & Hp & _). unfold sk_of in Hp. destruct (slots w !! c) as [k|] eqn:Hk; [|done].
    cbn [target of_option mbind outcome_bind]. rewrite Hk. by apply Hmain.
  - destruct He as (p & ? & Hp & _). unfold sk_of in Hp. destruct (slots w !! c) as [k|] eqn:Hk; [|done].
    cbn [target of_option mbind outcome_bind]. rewrite Hk. by apply Hmain.
  - destruct He as (p & ? & Hp & _). unfold sk_of in Hp. destruct (slots w !! c) as [k|] eqn:Hk; [|done].
    cbn [target of_option mbind outcome_bind]. rewrite Hk. by apply Hmain.
  - destruct He as (_ & [p Hp]). unfold cl_of in Hp. destruct (slots w !! c) as [k|] eqn:Hk; [|done].
    cbn [target of_option mbind outcome_bind]. rewrite Hk. by apply Hmain.
  - rewrite (Hau c eq_refl). by eexists _, _.
Qed.

(** A run either keeps the invariant or reads a username that was freed. *)
Lemma run_world_ok username w es r :
  world_inv w -> run username w es r ->
  match r with
  | Ok w' => world_inv w'
  | Fault => exists es1 c o es2 w', es = es1 ++ (EvAuth c, o) :: es2 /\ run username w es1 (Ok w') /\
      username_live w' = false /\ (username = None -> w_auth w <> Ptr_option)
  end.
Proof.
  intros Hw Hr. induction Hr as [w|w e o es He Ho Hh|w e o es w' v r He Ho Hh _ IH]; [done| |].
  - assert ((exists c, e = EvAuth c) \/ forall c, e <> EvAuth c) as [[c ->]|Hne] by (destruct e; eauto).
    2: { destruct (handle_ok username w o e Ho Hw He) as (? & ? & ? & _); [by intros c ->; destruct (Hne c)|congruence]. }
    destruct (username_live w) eqn:Hl.
    + destruct (handle_ok username w o (EvAuth c) Ho Hw He) as (? & ? & ? & _); [done|congruence].
    + exists [], c, o, es, w. split_and!; [done|apply run_nil|done|]. intros _ Hp. unfold username_live in Hl. by rewrite Hp in Hl.
  - assert (world_inv w' /\ (username = None -> w_auth w = Ptr_option -> w_auth w' = Ptr_option)) as [Hi Hp].
    { destruct (handle_ok username w o e Ho Hw He) as (w'' & v' & Hh' & Hi).
      - intros c ->. unfold handle in Hh. by destruct (username_live w).
      - rewrite Hh in Hh'. injection Hh' as <- _. exact Hi. }
    specialize (IH Hi). destruct r; [done|]. destruct IH as (es1 & c & o' & es2 & w2 & -> & Hr & Hl & Hn).
    exists ((e, o) :: es1), c, o', es2, w2. split_and!; [done|by eapply run_step|done|].
    intros Hu Hw0. by apply (Hn Hu), Hp.
Qed.

Lemma run_inv username w es w' : world_inv w -> run username w es (Ok w') -> world_inv w'.
Proof. intros Hw Hr. exact (run_world_ok username w es (Ok w') Hw Hr). Qed.

(** What the invariant says of one client. *)
Lemma world_client w c x :
  world_inv w -> cl_of w c = Some x ->
  alive c x (pcb_of w c) (sk_of w c) (default empty_history (s_hist <$> slots w !! c)) (w_cb w) (w_num w) (w_list w).
Proof.
  intros Hw Hc. unfold cl_of, pcb_of, sk_of in *. destruct (slots w !! c) as [[y p k h]|] eqn:Hk; [|done].
  cbn in *. subst y. apply alive_inv. by apply (wi_slots _ Hw) in Hk.
Qed.

Lemma world_freed w c k :
  world_inv w -> slots w !! c = Some k -> s_cl k = None ->
  s_pcb k = None /\ s_sk k = None /\ c ∉ w_list w /\ final_inv (s_hist k).
Proof.
  intros Hw Hk Hc. destruct (wi_slots _ Hw c k Hk) as (_ & _ & Hi). cbn in Hi. rewrite Hc in Hi. done.
Qed.

(** ** Properties *)

(** C3: the clients of tun2socks, in every run of lwip callbacks and SOCKS
    events, with any results of lwip calls and jobs between a callback and its
    return. A run that does not fault leaks nothing: [num_clients] and
    [tcp_clients] count and list exactly the live clients; a client has its pcb
    exactly until [client_closed] and its SOCKS client exactly until
    [socks_closed], is freed when both are set, and nothing of it is left then.
    No handler fails an assertion, uses a freed client, pcb or SOCKS client or
    stores through a dangling [dead_aborted]. There is exactly one fault: with
    [--append-source-to-username] ([username] is set), a SOCKS client reads the
    shared username after the client that stored it last was freed. *)
Theorem tcp_clients_safe username es r :
  run username init_world es r ->
  match r with
  | Ok w => w_num w = Zlen (w_list w) /\ NoDup (w_list w) /\
      forall c, (c ∈ w_list w <-> is_Some (cl_of w c)) /\
        match cl_of w c with
        | Some x => (is_Some (pcb_of w c) <-> client_closed x = false) /\
                    (is_Some (sk_of w c) <-> socks_closed x = false) /\
                    client_closed x && socks_closed x = false
        | None => pcb_of w c = None /\ sk_of w c = None
        end
  | Fault => username <> None /\ exists es1 c o es2 w, es = es1 ++ (EvAuth c, o) :: es2 /\
      run username init_world es1 (Ok w) /\
      match w_auth w with Ptr_option => False | Ptr_client c' _ => cl_of w c' = None | Ptr_freed => True end
  end.
Proof.
  intros Hr. pose proof (run_world_ok username _ _ _ init_world_inv Hr) as Hw. destruct r as [w|].
  2: { destruct Hw as (es1 & c & o & es2 & w & -> & Hr1 & Hl & Hu). split; [by intros ->; apply Hu|].
       exists es1, c, o, es2, w. split_and!; try done. unfold username_live in Hl.
       destruct (w_auth w); try done. apply bool_decide_eq_false in Hl. by apply eq_None_not_Some. }
  split; [apply Hw|]. split; [apply Hw|]. intros c.
  destruct (cl_of w c) as [x|] eqn:Hx.
  - destruct (world_client w c x Hw Hx) as [Hin _ _ _ _ Hk Hp _ _ (He & _)].
    split; [naive_solver|]. split_and!.
    + destruct (pcb_of w c) as [p|]; cbn in Hp; [naive_solver|]. split; [by intros [? [=]]|congruence].
    + destruct (sk_of w c) as [k|]; cbn in Hk; [naive_solver|]. split; [by intros [? [=]]|congruence].
    + destruct (client_closed x); [|done]. by destruct (He eq_refl) as [-> _].
  - unfold cl_of, pcb_of, sk_of in *. destruct (slots w !! c) as [k|] eqn:Hk; cbn in *.
    + destruct (world_freed w c k Hw Hk Hx) as (? & ? & ? & _). by split_and!.
    + pose proof (wi_list _ Hw c Hk). by split_and!.
Qed.

(** C4: no byte is lost, duplicated or reordered on its way through a client:
    at any time the bytes accepted from the TCP peer are those the SOCKS server
    took, followed by those in [buf] (the operation in progress covers a
    prefix of it that stays unchanged); the bytes received from the SOCKS
    server are those queued for the TCP peer, followed, while the connection
    is open, by the unsent part of [socks_recv_buf]; and what is counted in
    [socks_recv_tcp_pending] is what the peer has not acknowledged. *)
Theorem tcp_data_integrity username es w c x :
  run username init_world es (Ok w) -> cl_of w c = Some x ->
  exists h, s_hist <$> slots w !! c = Some h /\
    rx h = consumed h ++ slice (buf x) 0 (buf_used x) /\ 0 <= buf_used x <= TCP_WND /\
    (forall k d, sk_of w c = Some k -> sending k = Some d -> d `prefix_of` slice (buf x) 0 (buf_used x)) /\
    written h `prefix_of` srx h /\
    (client_closed x = false -> srx h = written h ++ unsent x) /\
    (forall p, pcb_of w c = Some p -> socks_up x = true -> unacked p = socks_recv_tcp_pending x).
Proof.
  intros Hr Hx. pose proof (run_inv username _ _ _ init_world_inv Hr) as Hw.
  pose proof (world_client w c x Hw Hx) as [_ _ _ _ (Hbl & Hbu & _) Hk Hp _ Hh _].
  unfold cl_of in Hx. destruct (slots w !! c) as [k|] eqn:Hc; [|done]. cbn in Hh.
  exists (s_hist k). destruct Hh as (Hrx & Hsrx & [d Hd] & _). split_and!; try done; try lia.
  - intros k' e Hk' He. rewrite Hk' in Hk. destruct Hk as (_ & _ & Hs & _). rewrite He in Hs.
    destruct Hs as (_ & Hl & ->).
    exists (slice (buf x) (0 + Zlen e) (buf_used x - Zlen e)). rewrite <- slice_app_split by lia. f_equal. lia.
  - by exists d.
  - intros p Hpp Hup. rewrite Hpp in Hp. destruct Hp as (_ & _ & _ & _ & _ & _ & Hu). by rewrite Hup in Hu.
Qed.

(** a client that was freed had passed on everything it could: unless the
    program was shut down, all bytes of the TCP peer were taken by the SOCKS
    server or SOCKS ended first, and all bytes of the SOCKS server were queued
    for the TCP peer or the TCP side ended first (closed, failed or aborted). *)
Theorem tcp_freed_complete username es w c k :
  run username init_world es (Ok w) -> slots w !! c = Some k -> s_cl k = None ->
  consumed (s_hist k) `prefix_of` rx (s_hist k) /\ written (s_hist k) `prefix_of` srx (s_hist k) /\
  (murdered (s_hist k) = true \/
   ((socks_ended (s_hist k) = true \/ rx (s_hist k) = consumed (s_hist k)) /\
    (client_ended (s_hist k) = true \/ srx (s_hist k) = written (s_hist k)))).
Proof.
  intros Hr Hk Hc. pose proof (run_inv username _ _ _ init_world_inv Hr) as Hw.
  by destruct (world_freed w c k Hw Hk Hc) as (_ & _ & _ & ? & ? & ?).
Qed.

(** a callback returns [ERR_ABRT] to lwip exactly when [tcp_abort] was
    called for its connection since it was entered, also when the client was
    freed meanwhile, and [ERR_OK] otherwise. *)
Theorem tcp_callback_result username es w o :
  run username init_world es (Ok w) -> is_Some (w_cb w) ->
  exists f w' e, w_cb w = Some f /\ handle username w o EvReturn = Ok (w', Some e) /\
    w_cb w' = None /\ e = (if f_abrt f then ERR_ABRT else ERR_OK).
Proof.
  intros Hr [fr Hfr]. pose proof (run_inv username _ _ _ init_world_inv Hr) as Hw.
  destruct (slots w !! f_client fr) as [k|] eqn:Hk.
  2: { pose proof (wi_cb _ Hw _ Hk) as Hc. rewrite not_running_spec in Hc. by destruct (Hc fr). }
  destruct (return_ok (f_client fr) (focus w k) fr (wi_slots _ Hw _ _ Hk) Hfr eq_refl) as (s' & He & _ & _ & Hn).
  exists fr. cbn [handle target handle_client]. rewrite Hfr. cbn. rewrite Hk. cbn. rewrite He. cbn.
  by eexists _, _.
Qed.

(** C35: the buffer never overflows and data within the advertised window is
    never refused: if lwip delivers at most [TCP_WND] bytes that were not yet
    confirmed with [tcp_recved], [client_recv_func] accepts them. *)
Theorem tcp_recv_window username es w o c d p :
  run username init_world es (Ok w) -> w_cb w = None ->
  pcb_of w c = Some p -> cb_recv p = true -> 0 < tot_len d -> unrecved p + tot_len d <= TCP_WND ->
  exists w', handle username w o (EvRecv c (Some d)) = Ok (w', None).
Proof.
  intros Hr Hcb Hp Hrc Hd Hwin. pose proof (run_inv username _ _ _ init_world_inv Hr) as Hw.
  destruct (slots w !! c) as [k|] eqn:Hk; [|by unfold pcb_of in Hp; rewrite Hk in Hp].
  assert (s_pcb k = Some p) as Hp' by (unfold pcb_of in Hp; by rewrite Hk in Hp).
  pose proof (wi_slots _ Hw _ _ Hk) as Hi. destruct (s_cl k) as [x|] eqn:Hx.
  2: { destruct (world_freed w c k Hw Hk Hx) as [? _]. congruence. }
  unfold focus in Hi. rewrite Hx, Hp', Hcb in Hi. apply alive_inv in Hi.
  pose proof Hi as [_ _ _ _ (_ & Hbu & _) Hki (_ & _ & _ & Hq & _ & Hun & _) _ _ _].
  destruct (s_sk k) as [kk|] eqn:Hkk; [|by cbn in Hki; rewrite Hki in Hq; cbn in Hq; congruence].
  destruct (recv_data_ok c o (w_frame w) x p kk (s_hist k) (w_num w) (w_list w) d) as (s' & He & _ & _);
    [done|unfold TCP_WND, UINT16_MAX in *; lia|lia|].
  cbn [handle target of_option mbind outcome_bind]. rewrite Hk. cbn [of_option mbind outcome_bind handle_client].
  unfold focus. rewrite Hx, Hp', Hkk, Hcb, He. by eexists.
Qed.

(** C9: no client waits for nothing: a client whose TCP side is closed has an
    operation on its SOCKS connection in progress or waits for it to come up; a
    client whose SOCKS side is closed has bytes the peer has yet to
    acknowledge and the callback for it set; a client with both sides open
    either receives from SOCKS or waits for an acknowledgement, and sends to
    SOCKS whenever it has data. *)
Theorem tcp_client_progress username es w c x :
  run username init_world es (Ok w) -> cl_of w c = Some x ->
  match pcb_of w c, sk_of w c with
  | None, Some k => is_up k = false \/ is_Some (sending k)
  | Some p, None => cb_sent p = true /\ 0 < unacked p
  | Some p, Some k => cb_recv p = true /\
      (is_up k = true -> (0 < buf_used x <-> is_Some (sending k)) /\
         (is_Some (receiving k) \/ (cb_sent p = true /\ 0 < unacked p)))
  | None, None => False
  end.
Proof.
  intros Hr Hx. pose proof (run_inv username _ _ _ init_world_inv Hr) as Hw.
  pose proof (world_client w c x Hw Hx) as [_ _ _ _ (_ & Hbu & _) Hk Hp Hrc _ (He1 & He2 & _)].
  destruct (pcb_of w c) as [p|], (sk_of w c) as [k|]; cbn [sk_inv pcb_inv] in *.
  - destruct Hp as (Hc & _ & _ & -> & -> & _ & Hu), Hk as (-> & -> & Hs & Hr').
    split; [done|]. intros Hup. rewrite Hup in *. split.
    + destruct (sending k); [destruct Hs as (_ & ? & _); split; [by eexists|lia]|]. destruct Hs as [?|?]; [done|]. split; [lia|by intros [? [=]]].
    + destruct (receiving k); [by left|]. right. split; [done|]. specialize (Hr' eq_refl Hc).
      destruct (Hrc Hup Hc) as (_ & [?|(_ & _ & _ & ?)]); [done|lia].
  - destruct Hp as (Hc & _ & _ & _ & -> & _ & ->). destruct (He2 Hk) as (_ & Hup & Hor). rewrite Hup.
    split; [done|]. destruct (Hrc Hup Hc) as (? & [?|(_ & _ & _ & ?)]); lia.
  - destruct (He1 Hp) as (_ & ? & _). destruct Hk as (_ & -> & Hs & _).
    destruct (sending k); [by right|]. destruct Hs as [?|?]; [by left|lia].
  - destruct (He1 Hp) as (? & _). congruence.
Qed.

(** ** Example runs *)

(** [enabled] as a test, and the run of a list of events; [None] when an event
    is not enabled. *)
Definition enabledb (w : world) (e : event) : bool :=
  let idle := match w_cb w with None => true | Some _ => false end in
  match e with
  | EvAccept a => idle && (Zlen (buf (a_memory a)) =? TCP_WND) &&
      (Zlen (socks_recv_buf (a_memory a)) =? CLIENT_SOCKS_RECV_BUF_SIZE)
  | EvErr c => idle && match pcb_of w c with Some p => cb_err p | None => false end
  | EvRecv c d => idle && match pcb_of w c with Some p => cb_recv p | None => false end &&
      match d with Some d => (0 <? tot_len d) && (tot_len d <=? UINT16_MAX) | None => true end
  | EvSent c len => idle &&
      match pcb_of w c with Some p => cb_sent p && (0 <? len) && (len <=? unacked p) | None => false end
  | EvReturn => negb idle
  | EvSocks c e =>
      match sk_of w c with
      | Some k => match e with BSOCKSCLIENT_EVENT_ERROR => true | BSOCKSCLIENT_EVENT_UP => negb (is_up k)
                  | BSOCKSCLIENT_EVENT_ERROR_CLOSED => is_up k end
      | None => false
      end
  | EvSendDone c n =>
      match sk_of w c ≫= sending with Some d => (0 <? n) && (n <=? Zlen d) | None => false end
  | EvRecvDone c d =>
      match sk_of w c ≫= receiving with Some n => (0 <? Zlen d) && (Zlen d <=? n) | None => false end
  | EvMurder c => idle && match cl_of w c with Some _ => true | None => false end
  | EvAuth c => match sk_of w c with Some k => negb (is_up k) | None => false end
  end.

Lemma enabledb_ok w e : enabledb w e = true -> enabled w e.
Proof.
  destruct e as [a|c|c d|c len| |c e|c m|c d|c|c]; cbn [enabledb enabled]; intros H; zify_bool.
  - by destruct (w_cb w).
  - destruct (w_cb w); [done|]. destruct (pcb_of w c); [naive_solver|done].
  - destruct (w_cb w); [done|]. destruct (pcb_of w c); [|done]. split_and!; [done|naive_solver|].
    destruct d; [|done]. zify_bool. lia.
  - destruct (w_cb w); [done|]. destruct (pcb_of w c) as [p|]; [|done]. zify_bool. split; [done|]. exists p. auto.
  - by destruct (w_cb w).
  - destruct (sk_of w c) as [k|]; [|done]. exists k. destruct e; zify_bool; auto.
  - destruct (sk_of w c) as [k|]; [|done]. cbn in H. destruct (sending k) as [d|] eqn:Hs; [|done].
    zify_bool. exists k, d. auto.
  - destruct (sk_of w c) as [k|]; [|done]. cbn in H. destruct (receiving k) as [n|] eqn:Hs; [|done].
    zify_bool. exists k, n. auto.
  - destruct (w_cb w); [done|]. by destruct (cl_of w c).
  - destruct (sk_of w c) as [k|]; [|done]. exists k. by destruct (is_up k).
Qed.

Fixpoint exec (username : option (list Z)) (w : world) (o : oracle) (es : list event) : option (outcome world) :=
  match es with
  | [] => Some (Ok w)
  | e :: es =>
      if enabledb w e then
        match handle username w o e with
        | Fault => Some Fault
        | Ok (w', _) => exec username w' o es
        end
      else None
  end.

Lemma exec_run username o es : (forall n, 0 <= o_sndbuf o n) ->
  forall w r, exec username w o es = Some r -> run username w ((fun e => (e, o)) <$> es) r.
Proof.
  intros Ho. induction es as [|e es IH]; intros w r; cbn [exec].
  - intros [= <-]. apply run_nil.
  - destruct (enabledb w e) eqn:He; [|done]. apply enabledb_ok in He.
    destruct (handle username w o e) as [[w' v]|] eqn:Hh; intros Hr.
    + by eapply run_step; [| | |apply IH].
    + injection Hr as <-. by apply run_fault.
Qed.

Definition demo_memory : client :=
  mkClient true (Some 7) BADDR_NONE BADDR_NONE None true (repeat 0 (Z.to_nat TCP_WND)) 9 true true
    (repeat 0 (Z.to_nat CLIENT_SOCKS_RECV_BUF_SIZE)) 9 9 true 9.
Definition demo_accept : accept_args :=
  mkAccept (Ip4 (hton32 0x0A000001)) 80 (Ip4 (hton32 0x0A000002)) 1000 true true true demo_memory.

(** lwip takes two bytes at a time and refuses nothing; [bad] closes fail. *)
Definition demo_oracle (close : err) : oracle := mkOracle close ERR_OK (fun _ => 2) (fun _ => ERR_OK).

(** A client is accepted and receives data before SOCKS is up, sends it in two
    parts, passes an answer to the peer, and more data arrives. *)
Definition demo_open : list event :=
  [EvAccept demo_accept; EvReturn; EvRecv 1 (Some [[1; 2]; [3]]); EvReturn;
   EvSocks 1 BSOCKSCLIENT_EVENT_UP; EvSendDone 1 2; EvRecvDone 1 [7; 8; 9]; EvSent 1 3; EvReturn;
   EvRecv 1 (Some [[4; 5]])].

(** The peer closes, [tcp_close] fails and the pcb is aborted in the callback;
    the rest of the data is sent and the client freed. *)
Definition demo_abort : list event := demo_open ++ [EvReturn; EvRecv 1 None].
Definition demo_closed : list event := demo_abort ++ [EvReturn; EvSendDone 1 1; EvSendDone 1 2].

Definition ran (es : list event) (close : err) : world :=
  match exec None init_world (demo_oracle close) es with Some (Ok w) => w | _ => init_world end.

Definition runs (es : list event) (close : err) : bool :=
  match exec None init_world (demo_oracle close) es with Some (Ok _) => true | _ => false end.

Lemma demo_run es close :
  runs es close = true ->
  run None init_world ((fun e => (e, demo_oracle close)) <$> es) (Ok (ran es close)).
Proof.
  unfold runs. intros H. apply exec_run; [cbn; lia|]. unfold ran. by destruct (exec _ _ _ _) as [[w|]|].
Qed.

Lemma demo_open_runs : runs demo_open ERR_OK = true.
Proof. vm_compute. reflexivity. Qed.
Lemma demo_idle_runs : runs (demo_open ++ [EvReturn]) ERR_OK = true.
Proof. vm_compute. reflexivity. Qed.
Lemma demo_abort_runs : runs demo_abort ERR_MEM = true.
Proof. vm_compute. reflexivity. Qed.
Lemma demo_half_runs : runs (demo_abort ++ [EvReturn]) ERR_OK = true.
Proof. vm_compute. reflexivity. Qed.
Lemma demo_closed_runs : runs demo_closed ERR_MEM = true.
Proof. vm_compute. reflexivity. Qed.

(** Two clients share the username of the one that was accepted last: the
    first sends it in place of its own, and when the second is gone the first
    reads freed memory. *)
Definition demo_user : option (list Z) := Some [117].
Definition demo_shared : list event :=
  [EvAccept demo_accept; EvReturn; EvAccept demo_accept; EvReturn; EvAuth 1].
Definition demo_stale : list event := demo_shared ++ [EvErr 2; EvAuth 1].

Lemma shared_username :
  exists w name, exec demo_user init_world (demo_oracle ERR_OK) demo_shared = Some (Ok w) /\ w_auth w = Ptr_client 2 name.
Proof.
  destruct (exec _ _ _ _) as [[w|]|] eqn:E; try (vm_compute in E; discriminate E).
  vm_compute in E. injection E as <-. by eexists _, _.
Qed.
Lemma stale_username : exec demo_user init_world (demo_oracle ERR_OK) demo_stale = Some Fault.
Proof. vm_compute. reflexivity. Qed.

Lemma tcp_clients_safe_witness :
  (let w := ran demo_closed ERR_MEM in
   w_num w = Zlen (w_list w) /\ NoDup (w_list w) /\ cl_of w 1 = None /\ pcb_of w 1 = None /\ sk_of w 1 = None) /\
  demo_user <> None.
Proof.
  split.
  - destruct (tcp_clients_safe None _ _ (demo_run demo_closed ERR_MEM demo_closed_runs)) as (Hn & Hd & _).
    split; [exact Hn|]. split; [exact Hd|]. split; [|split]; vm_compute; reflexivity.
  - exact (proj1 (tcp_clients_safe demo_user _ Fault
      (exec_run demo_user (demo_oracle ERR_OK) demo_stale (fun _ => ltac:(cbn; lia)) init_world Fault stale_username))).
Defined.

Lemma tcp_data_integrity_witness :
  exists x h, cl_of (ran demo_open ERR_OK) 1 = Some x /\ s_hist <$> slots (ran demo_open ERR_OK) !! 1%positive = Some h /\
    rx h = [1; 2; 3; 4; 5] /\ consumed h = [1; 2] /\ srx h = [7; 8; 9] /\ written h = [7; 8; 9] /\
    rx h = consumed h ++ slice (buf x) 0 (buf_used x).
Proof.
  destruct (cl_of (ran demo_open ERR_OK) 1) as [x|] eqn:Hx.
  - destruct (tcp_data_integrity None _ _ 1 x (demo_run demo_open ERR_OK demo_open_runs) Hx)
      as (h & Hh & Hrx & _).
    exists x, h. split; [reflexivity|]. split; [exact Hh|].
    vm_compute in Hh. injection Hh as <-. repeat split; try reflexivity. exact Hrx.
  - vm_compute in Hx. discriminate Hx.
Defined.

Lemma tcp_freed_complete_witness :
  exists k, slots (ran demo_closed ERR_MEM) !! 1%positive = Some k /\ s_cl k = None /\
    rx (s_hist k) = [1; 2; 3; 4; 5] /\ murdered (s_hist k) = false /\ socks_ended (s_hist k) = false /\
    consumed (s_hist k) `prefix_of` rx (s_hist k).
Proof.
  destruct (slots (ran demo_closed ERR_MEM) !! 1%positive) as [k|] eqn:Hk; [|vm_compute in Hk; discriminate Hk].
  assert (s_cl k = None) as Hc by (vm_compute in Hk; injection Hk as <-; reflexivity).
  destruct (tcp_freed_complete None _ _ 1 k (demo_run demo_closed ERR_MEM demo_closed_runs) Hk Hc)
    as (Hp & _ & _).
  exists k. split; [reflexivity|]. split; [exact Hc|].
  assert (rx (s_hist k) = [1; 2; 3; 4; 5] /\ murdered (s_hist k) = false /\ socks_ended (s_hist k) = false)
    as (H1 & H2 & H3) by (vm_compute in Hk; injection Hk as <-; repeat split).
  repeat split; assumption.
Defined.

Lemma tcp_callback_result_witness :
  exists f w' e, w_cb (ran demo_abort ERR_MEM) = Some f /\ f_abrt f = true /\
    handle None (ran demo_abort ERR_MEM) (demo_oracle ERR_OK) EvReturn = Ok (w', Some e) /\ e = ERR_ABRT.
Proof.
  destruct (tcp_callback_result None _ _ (demo_oracle ERR_OK)
    (demo_run demo_abort ERR_MEM demo_abort_runs)) as (f & w' & e & Hf & Hh & _ & He).
  - vm_compute. eexists. reflexivity.
  - assert (f_abrt f = true) as Ha by (vm_compute in Hf; injection Hf as <-; reflexivity).
    exists f, w', e. rewrite Ha in He. repeat split; assumption.
Defined.

Lemma tcp_recv_window_witness :
  exists w', handle None (ran (demo_open ++ [EvReturn]) ERR_OK) (demo_oracle ERR_OK)
    (EvRecv 1 (Some [repeat 6 (Z.to_nat 5837)])) = Ok (w', None).
Proof.
  destruct (pcb_of (ran (demo_open ++ [EvReturn]) ERR_OK) 1) as [p|] eqn:Hp; [|vm_compute in Hp; discriminate Hp].
  apply (tcp_recv_window None _ _ (demo_oracle ERR_OK) 1 [repeat 6 (Z.to_nat 5837)] p
    (demo_run (demo_open ++ [EvReturn]) ERR_OK demo_idle_runs)).
  - vm_compute. reflexivity.
  - exact Hp.
  - vm_compute in Hp. injection Hp as <-. reflexivity.
  - vm_compute. reflexivity.
  - vm_compute in Hp. injection Hp as <-. vm_compute. discriminate.
Defined.

Lemma tcp_client_progress_witness :
  exists k, pcb_of (ran (demo_abort ++ [EvReturn]) ERR_OK) 1 = None /\
    sk_of (ran (demo_abort ++ [EvReturn]) ERR_OK) 1 = Some k /\ (is_up k = false \/ is_Some (sending k)).
Proof.
  destruct (cl_of (ran (demo_abort ++ [EvReturn]) ERR_OK) 1) as [x|] eqn:Hx; [|vm_compute in Hx; discriminate Hx].
  pose proof (tcp_client_progress None _ _ 1 x
    (demo_run (demo_abort ++ [EvReturn]) ERR_OK demo_half_runs) Hx) as Hp.
  destruct (pcb_of (ran (demo_abort ++ [EvReturn]) ERR_OK) 1) as [p|] eqn:E1; [vm_compute in E1; discriminate E1|].
  destruct (sk_of (ran (demo_abort ++ [EvReturn]) ERR_OK) 1) as [k|] eqn:E2; [|vm_compute in E2; discriminate E2].
  exists k. repeat split. exact Hp.
Defined.

End TcpClient.
