(* ===== verification/FlowInterfaces.v ===== *)
(** * Interfaces between data flow components (badvpn/flow)

    [PacketPassInterface], [PacketRecvInterface], [StreamRecvInterface] and
    [StreamPassInterface] decouple a provider and its user through jobs of a
    [BPendingGroup]: an operation the user starts and its completion are both
    delivered by a job, so neither side calls the other from its own call.

    The group is the stack of pending jobs of Pending.v; an interface holds the
    addresses of its jobs. Handlers are called as the last statement of a job,
    so a job returns the call it ends with. *)
From Stdlib Require Import ZArith Lia.
From stdpp Require Import base tactics numbers option gmap list.
From S2P Require Import Prelude LinkedList Pending.

(** [BPending_Set] and [BPending_Unset] on the stack of pending jobs
    ([BPending.abs_step]). *)
Definition job_set (a : loc) (l : list loc) : list loc := a :: LinkedList1.remove_node a l.
Definition job_unset (a : loc) (l : list loc) : list loc := LinkedList1.remove_node a l.

Lemma elem_of_unset a b l : NoDup l -> b ∈ job_unset a l <-> b ∈ l /\ b <> a.
Proof.
  unfold job_unset. induction 1 as [|c l Hc _ IH]; cbn; [set_solver|].
  case_decide; rewrite ?elem_of_cons, ?IH; naive_solver.
Qed.
Lemma NoDup_unset a l : NoDup l -> NoDup (job_unset a l).
Proof.
  intros H. induction H as [|b l Hb H IH]; [constructor|]. cbn. case_decide; [done|].
  apply NoDup_cons. split; [|done]. change (b ∉ job_unset a l). rewrite elem_of_unset by done. naive_solver.
Qed.
Lemma elem_of_set a b l : NoDup l -> b ∈ job_set a l <-> b = a \/ b ∈ l.
Proof.
  intros H. unfold job_set. rewrite elem_of_cons. change (LinkedList1.remove_node a l) with (job_unset a l).
  rewrite elem_of_unset by done. destruct (decide (b = a)); naive_solver.
Qed.
Lemma NoDup_set a l : NoDup l -> NoDup (job_set a l).
Proof.
  intros H. apply NoDup_cons. change (LinkedList1.remove_node a l) with (job_unset a l).
  split; [|by apply NoDup_unset]. rewrite elem_of_unset by done. naive_solver.
Qed.
#[export] Hint Resolve NoDup_set NoDup_unset : vpn.

Inductive iface_state := STATE_NONE | STATE_OPERATION_PENDING | STATE_BUSY | STATE_DONE_PENDING.
#[global] Instance iface_state_eq : EqDecision iface_state.
Proof. solve_decision. Defined.

Module PacketPassInterface.

(** Handlers are represented by whether they are set; [data] pointers by their
    address, 0 for [NULL]. *)
Record PacketPassInterface := mkPPI {
  mtu : Z; handler_requestcancel : bool; handler_done : bool;
  job_operation : loc; job_requestcancel : loc; job_done : loc;
  job_operation_data : Z; job_operation_len : Z;
  state : iface_state; cancel_requested : bool
}.

(** The handler a job calls. *)
Inductive call := Handler_operation (data len : Z) | Handler_requestcancel | Handler_done.

Definition set_state (i : PacketPassInterface) (s : iface_state) : PacketPassInterface :=
  mkPPI (mtu i) (handler_requestcancel i) (handler_done i) (job_operation i)
    (job_requestcancel i) (job_done i) (job_operation_data i) (job_operation_len i) s
    (cancel_requested i).

Definition is_state (i : PacketPassInterface) (s : iface_state) : bool := bool_decide (state i = s).

(** The three jobs are at [o], [r] and [d], inside the object; [data], [len]
    and [cancel_requested] are not initialised by the code. *)
Definition PacketPassInterface_Init (o r d : loc) (mtu : Z) : outcome PacketPassInterface :=
  ASSERT (0 <=? mtu);;
  Ok (mkPPI mtu false false o r d 0 0 STATE_NONE false).

Definition PacketPassInterface_Free (i : PacketPassInterface) (l : list loc) : list loc :=
  job_unset (job_operation i) (job_unset (job_requestcancel i) (job_unset (job_done i) l)).

Definition PacketPassInterface_EnableCancel (i : PacketPassInterface) : outcome PacketPassInterface :=
  ASSERT (negb (handler_requestcancel i));;
  ASSERT (negb (handler_done i));;
  Ok (mkPPI (mtu i) true (handler_done i) (job_operation i) (job_requestcancel i) (job_done i)
       (job_operation_data i) (job_operation_len i) (state i) (cancel_requested i)).

Definition PacketPassInterface_Done (i : PacketPassInterface) (l : list loc)
    : outcome (PacketPassInterface * list loc) :=
  ASSERT (is_state i STATE_BUSY);;
  let l := job_unset (job_requestcancel i) l in
  let l := job_set (job_done i) l in
  Ok (set_state i STATE_DONE_PENDING, l).

Definition PacketPassInterface_GetMTU (i : PacketPassInterface) : Z := mtu i.

Definition PacketPassInterface_Sender_Init (i : PacketPassInterface) : outcome PacketPassInterface :=
  ASSERT (negb (handler_done i));;
  Ok (mkPPI (mtu i) (handler_requestcancel i) true (job_operation i) (job_requestcancel i)
       (job_done i) (job_operation_data i) (job_operation_len i) (state i) (cancel_requested i)).

Definition PacketPassInterface_Sender_Send (i : PacketPassInterface) (l : list loc) (data data_len : Z)
    : outcome (PacketPassInterface * list loc) :=
  ASSERT (0 <=? data_len);;
  ASSERT (data_len <=? mtu i);;
  ASSERT (negb (0 <? data_len) || negb (data =? 0));;
  ASSERT (is_state i STATE_NONE);;
  ASSERT (handler_done i);;
  let l := job_set (job_operation i) l in
  Ok (mkPPI (mtu i) (handler_requestcancel i) (handler_done i) (job_operation i)
       (job_requestcancel i) (job_done i) data data_len STATE_OPERATION_PENDING false, l).

Definition PacketPassInterface_Sender_RequestCancel (i : PacketPassInterface) (l : list loc)
    : outcome (PacketPassInterface * list loc) :=
  ASSERT (is_state i STATE_OPERATION_PENDING || is_state i STATE_BUSY || is_state i STATE_DONE_PENDING);;
  ASSERT (handler_requestcancel i);;
  if cancel_requested i then Ok (i, l) else
  let i := mkPPI (mtu i) (handler_requestcancel i) (handler_done i) (job_operation i)
             (job_requestcancel i) (job_done i) (job_operation_data i) (job_operation_len i)
             (state i) true in
  match state i with
  | STATE_OPERATION_PENDING =>
      let l := job_unset (job_operation i) l in
      let l := job_set (job_done i) l in
      Ok (set_state i STATE_DONE_PENDING, l)
  | STATE_BUSY => Ok (i, job_set (job_requestcancel i) l)
  | _ => Ok (i, l)
  end.

Definition PacketPassInterface_HasCancel (i : PacketPassInterface) : bool := handler_requestcancel i.

Definition _PacketPassInterface_job_operation (i : PacketPassInterface)
    : outcome (PacketPassInterface * call) :=
  ASSERT (is_state i STATE_OPERATION_PENDING);;
  let i := set_state i STATE_BUSY in
  Ok (i, Handler_operation (job_operation_data i) (job_operation_len i)).

Definition _PacketPassInterface_job_requestcancel (i : PacketPassInterface)
    : outcome (PacketPassInterface * call) :=
  ASSERT (is_state i STATE_BUSY);;
  ASSERT (cancel_requested i);;
  ASSERT (handler_requestcancel i);;
  Ok (i, Handler_requestcancel).

Definition _PacketPassInterface_job_done (i : PacketPassInterface)
    : outcome (PacketPassInterface * call) :=
  ASSERT (is_state i STATE_DONE_PENDING);;
  Ok (set_state i STATE_NONE, Handler_done).

(** ** The protocol *)

(** The first job of the group is executed, if it is one of the interface. *)
Definition exec (i : PacketPassInterface) (l : list loc)
    : option (outcome (PacketPassInterface * list loc * call)) :=
  match l with
  | [] => None
  | a :: l =>
      let run m := Some (m ≫= fun (ic : PacketPassInterface * call) => Ok (ic.1, l, ic.2)) in
      if decide (a = job_operation i) then run (_PacketPassInterface_job_operation i)
      else if decide (a = job_requestcancel i) then run (_PacketPassInterface_job_requestcancel i)
      else if decide (a = job_done i) then run (_PacketPassInterface_job_done i)
      else None
  end.

(** What can happen to an interface: calls of its user and of its provider
    that keep to the contract of the header, jobs of the interface, and the
    jobs of others ([Other] leaves the jobs of the interface pending or not,
    in any order). *)
Inductive event :=
| EvSend (data len : Z) | EvRequestCancel | EvDone | EvCall (c : call) | EvOther.

Definition jobs (i : PacketPassInterface) : list loc := [job_operation i; job_requestcancel i; job_done i].

Inductive step : PacketPassInterface * list loc -> event -> outcome (PacketPassInterface * list loc) -> Prop :=
| step_send i l data len :
    state i = STATE_NONE -> 0 <= len <= mtu i -> (0 < len -> data <> 0) ->
    step (i, l) (EvSend data len) (PacketPassInterface_Sender_Send i l data len)
| step_cancel i l :
    state i <> STATE_NONE -> handler_requestcancel i = true ->
    step (i, l) EvRequestCancel (PacketPassInterface_Sender_RequestCancel i l)
| step_done i l :
    state i = STATE_BUSY -> step (i, l) EvDone (PacketPassInterface_Done i l)
| step_exec i l m c :
    exec i l = Some m ->
    (forall i' l' c', m = Ok (i', l', c') -> c = c') ->
    step (i, l) (EvCall c) (m ≫= fun (r : PacketPassInterface * list loc * call) => Ok r.1)
| step_other i l l' :
    NoDup l' -> (forall a, a ∈ jobs i -> (a ∈ l' <-> a ∈ l)) ->
    step (i, l) EvOther (Ok (i, l')).

(** A run, with its events in order. *)
Inductive run : PacketPassInterface * list loc -> list event -> outcome (PacketPassInterface * list loc) -> Prop :=
| run_nil x : run x [] (Ok x)
| run_step x e y es z : step x e (Ok y) -> run y es z -> run x (e :: es) z
| run_fault x e : step x e Fault -> run x [e] Fault.

(** The pending jobs are those the state calls for. *)
Record inv (i : PacketPassInterface) (l : list loc) : Prop := {
  inv_jobs : NoDup (jobs i);
  inv_user : handler_done i = true;
  inv_nodup : NoDup l;
  inv_op : job_operation i ∈ l <-> state i = STATE_OPERATION_PENDING;
  inv_done : job_done i ∈ l <-> state i = STATE_DONE_PENDING;
  inv_cancel : job_requestcancel i ∈ l ->
    state i = STATE_BUSY /\ cancel_requested i = true /\ handler_requestcancel i = true;
  inv_fresh : state i = STATE_OPERATION_PENDING -> cancel_requested i = false
}.

(** The operations the user has started and the completions it was given,
    checked in order: a completion without an operation in progress, or an
    operation while one is in progress, gives [None]. *)
Fixpoint in_progress (busy : bool) (es : list event) : option bool :=
  match es with
  | [] => Some busy
  | EvSend _ _ :: es => if busy then None else in_progress true es
  | EvCall Handler_done :: es => if busy then in_progress false es else None
  | EvCall _ :: es | EvRequestCancel :: es | EvDone :: es =>
      if busy then in_progress busy es else None
  | EvOther :: es => in_progress busy es
  end.

Definition is_busy (i : PacketPassInterface) : bool := negb (is_state i STATE_NONE).


Lemma ppi_is_state i s : state i = s -> is_state i s = true.
Proof. intros. by apply bool_decide_eq_true_2. Qed.

(** The jobs of an interface are distinct. *)
Lemma jobs_ne i :
  NoDup (jobs i) ->
  job_operation i <> job_requestcancel i /\ job_operation i <> job_done i /\
  job_requestcancel i <> job_done i.
Proof.
  unfold jobs. rewrite !NoDup_cons, !elem_of_cons. naive_solver.
Qed.

(** Decides membership of the jobs in the stacks the operations build. *)
Ltac solve_jobs :=
  repeat match goal with
  | |- context [_ ∈ job_set _ ?l] => rewrite (elem_of_set _ _ l) by auto with vpn
  | |- context [_ ∈ job_unset _ ?l] => rewrite (elem_of_unset _ _ l) by auto with vpn
  end; intuition congruence.

Lemma ppi_send_inv i l data len :
  inv i l -> state i = STATE_NONE -> 0 <= len <= mtu i -> (0 < len -> data <> 0) ->
  exists i' l', PacketPassInterface_Sender_Send i l data len = Ok (i', l') /\ inv i' l' /\
    state i' = STATE_OPERATION_PENDING.
Proof.
  intros [Hj Hu Hn Ho Hd Hc Hf] Hs Hl Hdata. unfold PacketPassInterface_Sender_Send.
  rewrite !bind_ASSERT_true; [|done|by apply ppi_is_state|lia|lia|lia].
  eexists _, _. split; [done|]. destruct (jobs_ne i Hj) as (? & ? & ?).
  split; [|done]. split; cbn; auto with vpn; solve_jobs.
Qed.

Lemma cancel_inv i l :
  inv i l -> state i <> STATE_NONE -> handler_requestcancel i = true ->
  exists i' l', PacketPassInterface_Sender_RequestCancel i l = Ok (i', l') /\ inv i' l' /\
    state i' <> STATE_NONE.
Proof.
  intros Hi Hs Hh. pose proof Hi as [Hj Hu Hn Ho Hd Hc Hf]. unfold PacketPassInterface_Sender_RequestCancel.
  rewrite !bind_ASSERT_true; [|done|unfold is_state; destruct (state i) eqn:?; by cbn].
  destruct (jobs_ne i Hj) as (? & ? & ?).
  destruct (cancel_requested i) eqn:E; [by exists i, l|]. cbn [state].
  destruct (state i) eqn:Es; [done| | |]; eexists _, _; (split; [done|]); (split; [|by cbn; rewrite ?Es]);
    split; cbn; auto with vpn; rewrite ?Es; solve_jobs.
Qed.

Lemma ppi_done_inv i l :
  inv i l -> state i = STATE_BUSY ->
  exists i' l', PacketPassInterface_Done i l = Ok (i', l') /\ inv i' l' /\
    state i' = STATE_DONE_PENDING.
Proof.
  intros [Hj Hu Hn Ho Hd Hc Hf] Hs. unfold PacketPassInterface_Done.
  rewrite !bind_ASSERT_true by (by apply ppi_is_state).
  eexists _, _. split; [done|]. destruct (jobs_ne i Hj) as (? & ? & ?).
  split; [|done]. split; cbn; auto with vpn; solve_jobs.
Qed.

(** Executing a job of the interface: its assertions hold, and the call it
    makes is the one the state calls for. *)
Lemma ppi_exec_inv i l m :
  inv i l -> exec i l = Some m ->
  exists i' l' c, m = Ok (i', l', c) /\ inv i' l' /\ is_busy i = true /\
    is_busy i' = (match c with Handler_done => false | _ => true end).
Proof.
  intros [Hj Hu Hn Ho Hd Hc Hf] He. destruct (jobs_ne i Hj) as (? & ? & ?).
  destruct l as [|a l]; [done|]. cbn in He. apply NoDup_cons in Hn as [Ha Hn].
  rewrite !elem_of_cons in Ho, Hd, Hc.
  unfold _PacketPassInterface_job_operation, _PacketPassInterface_job_requestcancel,
    _PacketPassInterface_job_done in He.
  repeat case_decide; simplify_eq.
  - assert (state i = STATE_OPERATION_PENDING) as Es by (apply Ho; by left).
    rewrite bind_ASSERT_true by (by apply ppi_is_state). eexists _, _, _. split; [done|].
    split; [|unfold is_busy, is_state; cbn; by rewrite Es]. split; cbn; auto; intuition congruence.
  - destruct Hc as (Es & ? & ?); [by left|].
    rewrite !bind_ASSERT_true by (done || by apply ppi_is_state). eexists _, _, _. split; [done|].
    split; [|unfold is_busy, is_state; cbn; by rewrite Es]. split; cbn; auto; intuition congruence.
  - assert (state i = STATE_DONE_PENDING) as Es by (apply Hd; by left).
    rewrite bind_ASSERT_true by (by apply ppi_is_state). eexists _, _, _. split; [done|].
    split; [|unfold is_busy, is_state; cbn; by rewrite Es]. split; cbn; auto; intuition congruence.
Qed.

Lemma other_inv i l l' :
  inv i l -> NoDup l' -> (forall a, a ∈ jobs i -> (a ∈ l' <-> a ∈ l)) -> inv i l'.
Proof.
  intros [Hj Hu Hn Ho Hd Hc Hf] Hn' He. unfold jobs in He.
  split; auto; rewrite He by set_solver; auto.
Qed.

Lemma busy_true i : is_busy i = true <-> state i <> STATE_NONE.
Proof. unfold is_busy, is_state. by rewrite negb_true_iff, bool_decide_eq_false. Qed.
Lemma busy_false i : is_busy i = false <-> state i = STATE_NONE.
Proof. unfold is_busy, is_state. by rewrite negb_false_iff, bool_decide_eq_true. Qed.

(** A step keeps the invariant, does not fault and is counted correctly. *)
Lemma ppi_step_ok i l e r :
  inv i l -> step (i, l) e r ->
  exists i' l', r = Ok (i', l') /\ inv i' l' /\
    (forall es, in_progress (is_busy i) (e :: es) = in_progress (is_busy i') es).
Proof.
  intros Hi Hs. inversion Hs; subst.
  - destruct (ppi_send_inv i l data len) as (i' & l' & -> & ? & Es); [done..|].
    exists i', l'. split_and!; [done|done|]. intros es. cbn.
    by rewrite (proj2 (busy_false i)), (proj2 (busy_true i')) by congruence.
  - destruct (cancel_inv i l) as (i' & l' & -> & ? & Es); [done..|].
    exists i', l'. split_and!; [done|done|]. intros es. cbn.
    by rewrite (proj2 (busy_true i)), (proj2 (busy_true i')) by congruence.
  - destruct (ppi_done_inv i l) as (i' & l' & -> & ? & Es); [done..|].
    exists i', l'. split_and!; [done|done|]. intros es. cbn.
    by rewrite (proj2 (busy_true i)), (proj2 (busy_true i')) by congruence.
  - destruct (ppi_exec_inv i l m) as (i' & l' & c' & -> & ? & Hb & Hb'); [done..|].
    assert (c = c') as -> by eauto. exists i', l'. split_and!; [done|done|]. intros es.
    cbn. rewrite Hb, Hb'. by destruct c'.
  - exists i, l'. split_and!; [done|by eapply other_inv|done].
Qed.

(** C40: Every run of an interface whose user and provider keep to the contract
    is free of faults, whatever the other jobs of the group do: the assertions
    of the interface and of its jobs hold, the jobs that are pending are
    exactly those the state calls for, and the user sees strictly alternating
    operations and completions - one completion for each operation it starts,
    none before it, and cancellation does not lose or duplicate it. *)
Theorem PacketPassInterface_protocol i l es r :
  inv i l -> run (i, l) es r ->
  exists i' l', r = Ok (i', l') /\ inv i' l' /\ in_progress (is_busy i) es = Some (is_busy i').
Proof.
  intros Hi Hr. remember (i, l) as x eqn:Ex. revert i l Hi Ex.
  induction Hr as [x|x e y es z Hs Hr IH|x e Hs]; intros i l Hi ->.
  - by exists i, l.
  - destruct (ppi_step_ok i l e _ Hi Hs) as (i' & l' & [= ->] & Hi' & Hp).
    destruct (IH i' l' Hi' eq_refl) as (i'' & l'' & -> & ? & ?).
    exists i'', l''. split_and!; [done|done|]. by rewrite Hp.
  - destruct (ppi_step_ok i l e _ Hi Hs) as (i' & l' & [=] & _).
Qed.

(** From initialisation by a user, an operation that is cancelled while the
    provider works on it and then completed. *)
Definition demo : PacketPassInterface :=
  mkPPI 1500 true true 1%positive 2%positive 3%positive 0 0 STATE_NONE false.

Definition demo_end : PacketPassInterface :=
  mkPPI 1500 true true 1%positive 2%positive 3%positive 64 100 STATE_NONE true.
Definition demo_events : list event :=
  [EvSend 64 100; EvCall (Handler_operation 64 100); EvRequestCancel; EvCall Handler_requestcancel;
   EvDone; EvCall Handler_done].

Lemma run_step_eq x e r y es z : step x e r -> r = Ok y -> run y es z -> run x (e :: es) z.
Proof. intros Hs -> Hr. by eapply run_step. Qed.

Lemma PacketPassInterface_protocol_witness :
  run (demo, [7%positive]) demo_events (Ok (demo_end, [7%positive])) /\
  inv demo_end [7%positive] /\ in_progress false demo_events = Some false.
Proof.
  assert (inv demo [7%positive]) as Hi.
  { split; cbn.
    - repeat constructor; set_solver.
    - reflexivity.
    - repeat constructor; set_solver.
    - split; [set_solver|discriminate].
    - split; [set_solver|discriminate].
    - set_solver.
    - discriminate. }
  assert (run (demo, [7%positive]) demo_events (Ok (demo_end, [7%positive]))) as H.
  { eapply run_step_eq; [apply (step_send demo [7%positive]); cbn; lia || done|reflexivity|].
    eapply run_step_eq; [eapply step_exec; [reflexivity|intros ? ? ? [=]; congruence]|reflexivity|].
    eapply run_step_eq; [apply step_cancel; cbn; done|reflexivity|].
    eapply run_step_eq; [eapply step_exec; [reflexivity|intros ? ? ? [=]; congruence]|reflexivity|].
    eapply run_step_eq; [apply step_done; cbn; done|reflexivity|].
    eapply run_step_eq; [eapply step_exec; [reflexivity|intros ? ? ? [=]; congruence]|reflexivity|].
    apply run_nil. }
  split; [exact H|].
  destruct (PacketPassInterface_protocol demo [7%positive] _ _ Hi H) as (i2 & l2 & E & H2 & H3).
  injection E as <- <-. exact (conj H2 H3).
Defined.
End PacketPassInterface.

(** The two stream interfaces have the same code (as their headers say): one
    model for both. *)
Module StreamInterface.

Record StreamRecvInterface := mkSRI {
  handler_done : bool; job_operation : loc; job_operation_data : Z; job_operation_len : Z;
  job_done : loc; job_done_len : Z; state : iface_state
}.

Inductive call := Handler_operation (data len : Z) | Handler_done (len : Z).

Definition set_state (i : StreamRecvInterface) (s : iface_state) : StreamRecvInterface :=
  mkSRI (handler_done i) (job_operation i) (job_operation_data i) (job_operation_len i)
    (job_done i) (job_done_len i) s.
Definition is_state (i : StreamRecvInterface) (s : iface_state) : bool := bool_decide (state i = s).

Definition StreamRecvInterface_Init (o d : loc) : StreamRecvInterface :=
  mkSRI false o 0 0 d 0 STATE_NONE.

Definition StreamRecvInterface_Free (i : StreamRecvInterface) (l : list loc) : list loc :=
  job_unset (job_operation i) (job_unset (job_done i) l).

Definition StreamRecvInterface_Done (i : StreamRecvInterface) (l : list loc) (data_len : Z)
    : outcome (StreamRecvInterface * list loc) :=
  ASSERT (is_state i STATE_BUSY);;
  ASSERT (0 <? data_len);;
  ASSERT (data_len <=? job_operation_len i);;
  let l := job_set (job_done i) l in
  Ok (mkSRI (handler_done i) (job_operation i) (job_operation_data i) (job_operation_len i)
       (job_done i) data_len STATE_DONE_PENDING, l).

Definition StreamRecvInterface_Receiver_Init (i : StreamRecvInterface) : outcome StreamRecvInterface :=
  ASSERT (negb (handler_done i));;
  Ok (mkSRI true (job_operation i) (job_operation_data i) (job_operation_len i)
       (job_done i) (job_done_len i) (state i)).

Definition StreamRecvInterface_Receiver_Recv (i : StreamRecvInterface) (l : list loc) (data data_len : Z)
    : outcome (StreamRecvInterface * list loc) :=
  ASSERT (0 <? data_len);;
  ASSERT (negb (data =? 0));;
  ASSERT (is_state i STATE_NONE);;
  ASSERT (handler_done i);;
  let l := job_set (job_operation i) l in
  Ok (mkSRI (handler_done i) (job_operation i) data data_len (job_done i) (job_done_len i)
       STATE_OPERATION_PENDING, l).

Definition _StreamRecvInterface_job_operation (i : StreamRecvInterface)
    : outcome (StreamRecvInterface * call) :=
  ASSERT (is_state i STATE_OPERATION_PENDING);;
  let i := set_state i STATE_BUSY in
  Ok (i, Handler_operation (job_operation_data i) (job_operation_len i)).

Definition _StreamRecvInterface_job_done (i : StreamRecvInterface)
    : outcome (StreamRecvInterface * call) :=
  ASSERT (is_state i STATE_DONE_PENDING);;
  let i := set_state i STATE_NONE in
  Ok (i, Handler_done (job_done_len i)).

(** StreamPassInterface.h and .c. *)
Definition StreamPassInterface := StreamRecvInterface.
Definition StreamPassInterface_Init (o d : loc) : StreamPassInterface := StreamRecvInterface_Init o d.
Definition StreamPassInterface_Free (i : StreamPassInterface) := StreamRecvInterface_Free i.
Definition StreamPassInterface_Done (i : StreamPassInterface) := StreamRecvInterface_Done i.
Definition StreamPassInterface_Sender_Init (i : StreamPassInterface) := StreamRecvInterface_Receiver_Init i.
Definition StreamPassInterface_Sender_Send (i : StreamPassInterface) := StreamRecvInterface_Receiver_Recv i.
Definition _StreamPassInterface_job_operation (i : StreamPassInterface) := _StreamRecvInterface_job_operation i.
Definition _StreamPassInterface_job_done (i : StreamPassInterface) := _StreamRecvInterface_job_done i.

Definition exec (i : StreamRecvInterface) (l : list loc)
    : option (outcome (StreamRecvInterface * list loc * call)) :=
  match l with
  | [] => None
  | a :: l =>
      let run m := Some (m ≫= fun (ic : StreamRecvInterface * call) => Ok (ic.1, l, ic.2)) in
      if decide (a = job_operation i) then run (_StreamRecvInterface_job_operation i)
      else if decide (a = job_done i) then run (_StreamRecvInterface_job_done i)
      else None
  end.

Definition jobs (i : StreamRecvInterface) : list loc := [job_operation i; job_done i].

Inductive event := EvRecv (data len : Z) | EvDone (len : Z) | EvCall (c : call) | EvOther.

Inductive step : StreamRecvInterface * list loc -> event -> outcome (StreamRecvInterface * list loc) -> Prop :=
| step_recv i l data len :
    state i = STATE_NONE -> 0 < len -> data <> 0 ->
    step (i, l) (EvRecv data len) (StreamRecvInterface_Receiver_Recv i l data len)
| step_done i l len :
    state i = STATE_BUSY -> 0 < len <= job_operation_len i ->
    step (i, l) (EvDone len) (StreamRecvInterface_Done i l len)
| step_exec i l m c :
    exec i l = Some m -> (forall i' l' c', m = Ok (i', l', c') -> c = c') ->
    step (i, l) (EvCall c) (m ≫= fun (r : StreamRecvInterface * list loc * call) => Ok r.1)
| step_other i l l' :
    NoDup l' -> (forall a, a ∈ jobs i -> (a ∈ l' <-> a ∈ l)) -> step (i, l) EvOther (Ok (i, l')).

Inductive run : StreamRecvInterface * list loc -> list event -> outcome (StreamRecvInterface * list loc) -> Prop :=
| run_nil x : run x [] (Ok x)
| run_step x e r y es z : step x e r -> r = Ok y -> run y es z -> run x (e :: es) z
| run_fault x e : step x e Fault -> run x [e] Fault.

Record inv (i : StreamRecvInterface) (l : list loc) : Prop := {
  inv_jobs : job_operation i <> job_done i;
  inv_user : handler_done i = true;
  inv_nodup : NoDup l;
  inv_op : job_operation i ∈ l <-> state i = STATE_OPERATION_PENDING;
  inv_done : job_done i ∈ l <-> state i = STATE_DONE_PENDING;
  inv_len : state i = STATE_DONE_PENDING -> 0 < job_done_len i <= job_operation_len i
}.

(** What the user sees: the length it asked for while an operation is in
    progress; completions have a length within it. *)
Fixpoint in_progress (asked : option Z) (es : list event) : option (option Z) :=
  match es with
  | [] => Some asked
  | EvRecv _ n :: es => match asked with None => in_progress (Some n) es | Some _ => None end
  | EvCall (Handler_done k) :: es =>
      match asked with
      | Some n => if (0 <? k) && (k <=? n) then in_progress None es else None
      | None => None
      end
  | EvCall (Handler_operation _ k) :: es =>
      match asked with
      | Some n => if k =? n then in_progress asked es else None
      | None => None
      end
  | _ :: es => in_progress asked es
  end.

Definition asked (i : StreamRecvInterface) : option Z :=
  if is_state i STATE_NONE then None else Some (job_operation_len i).

Lemma stream_is_state i s : state i = s -> is_state i s = true.
Proof. intros. by apply bool_decide_eq_true_2. Qed.

Lemma asked_none i : state i = STATE_NONE -> asked i = None.
Proof. intros E. unfold asked, is_state. by rewrite E. Qed.
Lemma asked_some i : state i <> STATE_NONE -> asked i = Some (job_operation_len i).
Proof. intros E. unfold asked, is_state. by rewrite bool_decide_eq_false_2. Qed.

Ltac solve_jobs :=
  repeat match goal with
  | |- context [_ ∈ job_set _ ?l] => rewrite (elem_of_set _ _ l) by auto with vpn
  | |- context [_ ∈ job_unset _ ?l] => rewrite (elem_of_unset _ _ l) by auto with vpn
  end; intuition congruence.

Lemma stream_exec_inv i l m :
  inv i l -> exec i l = Some m ->
  exists i' l' c, m = Ok (i', l', c) /\ inv i' l' /\ 
    (forall es, in_progress (asked i) (EvCall c :: es) = in_progress (asked i') es).
Proof.
  intros [Hj Hu Hn Ho Hd Hl] He. destruct l as [|a l]; [done|]. cbn in He.
  apply NoDup_cons in Hn as [Ha Hn]. rewrite !elem_of_cons in Ho, Hd.
  unfold _StreamRecvInterface_job_operation, _StreamRecvInterface_job_done in He.
  repeat case_decide; simplify_eq.
  - assert (state i = STATE_OPERATION_PENDING) as Es by (apply Ho; by left).
    rewrite bind_ASSERT_true by (by apply stream_is_state). eexists _, _, _. split; [done|].
    split; [split; cbn; auto; intuition congruence|]. intros es. cbn [in_progress fst snd set_state job_operation_len].
    rewrite asked_some by congruence. rewrite Z.eqb_refl. done.
  - assert (state i = STATE_DONE_PENDING) as Es by (apply Hd; by left). specialize (Hl Es).
    rewrite bind_ASSERT_true by (by apply stream_is_state). eexists _, _, _. split; [done|].
    split; [split; cbn; auto; intuition congruence|]. intros es. cbn [in_progress fst snd set_state job_done_len].
    rewrite asked_some by congruence. rewrite (proj2 (Z.ltb_lt _ _)), (proj2 (Z.leb_le _ _)) by lia. done.
Qed.

Lemma stream_step_ok i l e r :
  inv i l -> step (i, l) e r ->
  exists i' l', r = Ok (i', l') /\ inv i' l' /\
    (forall es, in_progress (asked i) (e :: es) = in_progress (asked i') es).
Proof.
  intros Hi Hs. inversion Hs; subst.
  - destruct Hi as [Hj Hu Hn Ho Hd Hl]. unfold StreamRecvInterface_Receiver_Recv.
    rewrite !bind_ASSERT_true; [|done|by apply stream_is_state|lia|lia].
    eexists _, _. split; [done|]. split; [split; cbn; auto with vpn; solve_jobs|].
    intros es. cbn [in_progress]. by rewrite asked_none.
  - destruct Hi as [Hj Hu Hn Ho Hd Hl]. unfold StreamRecvInterface_Done.
    rewrite !bind_ASSERT_true; [|lia|lia|by apply stream_is_state].
    eexists _, _. split; [done|]. split; [split; cbn; auto with vpn; solve_jobs|].
    intros es. cbn [in_progress]. by rewrite asked_some by congruence.
  - destruct (stream_exec_inv i l m) as (i' & l' & c' & -> & ? & Hp); [done..|].
    assert (c = c') as -> by eauto. exists i', l'. auto.
  - exists i, l'. destruct Hi as [Hj Hu Hn Ho Hd Hl]. split_and!; [done| |done].
    unfold jobs in *. split; auto; match goal with H : forall a, _ -> (_ <-> _) |- _ => rewrite H by set_solver end; auto.
Qed.

(** In every run in which the two sides of a stream interface keep to its
    contract no assertion fails, whatever the other jobs do; the provider is
    given the request with the length the user asked for, and every request is
    completed exactly once, with a length between 1 and the length asked for. *)
Theorem StreamInterface_protocol i l es r :
  inv i l -> run (i, l) es r ->
  exists i' l', r = Ok (i', l') /\ inv i' l' /\ in_progress (asked i) es = Some (asked i').
Proof.
  intros Hi Hr. remember (i, l) as x eqn:Ex. revert i l Hi Ex.
  induction Hr as [x|x e r y es z Hs E Hr IH|x e Hs]; intros i l Hi ->.
  - by exists i, l.
  - destruct (stream_step_ok i l e _ Hi Hs) as (i' & l' & -> & Hi' & Hp). injection E as <-.
    destruct (IH i' l' Hi' eq_refl) as (i'' & l'' & -> & ? & ?).
    exists i'', l''. split_and!; [done|done|]. by rewrite Hp.
  - destruct (stream_step_ok i l e _ Hi Hs) as (i' & l' & [=] & _).
Qed.

Lemma StreamInterface_protocol_witness :
  inv (mkSRI true 1%positive 64 100 2%positive 30 STATE_NONE) [] /\
  in_progress None [EvRecv 64 100; EvCall (Handler_operation 64 100); EvDone 30; EvCall (Handler_done 30)]
    = Some None.
Proof.
  destruct (StreamInterface_protocol (mkSRI true 1%positive 0 0 2%positive 0 STATE_NONE) []
    [EvRecv 64 100; EvCall (Handler_operation 64 100); EvDone 30; EvCall (Handler_done 30)]
    (Ok (mkSRI true 1%positive 64 100 2%positive 30 STATE_NONE, []))) as (i' & l' & E & H & H2).
  - split; cbn; try done; try (split; [set_solver|discriminate]). constructor.
  - eapply run_step; [apply step_recv; cbn; lia || done|reflexivity|].
    eapply run_step; [eapply step_exec; [reflexivity|intros ? ? ? [=]; congruence]|reflexivity|].
    eapply run_step; [apply (step_done _ _ 30); cbn; lia || done|reflexivity|].
    eapply run_step; [eapply step_exec; [reflexivity|intros ? ? ? [=]; congruence]|reflexivity|].
    apply run_nil.
  - injection E as <- <-. split; [exact H|]. exact H2.
Defined.
End StreamInterface.

Module PacketRecvInterface.

Record PacketRecvInterface := mkPRI {
  mtu : Z; handler_done : bool; job_operation : loc; job_operation_data : Z;
  job_done : loc; job_done_len : Z; state : iface_state
}.
Inductive call := Handler_operation (data : Z) | Handler_done (len : Z).

Definition set_state (i : PacketRecvInterface) (s : iface_state) : PacketRecvInterface :=
  mkPRI (mtu i) (handler_done i) (job_operation i) (job_operation_data i) (job_done i)
    (job_done_len i) s.
Definition is_state (i : PacketRecvInterface) (s : iface_state) : bool := bool_decide (state i = s).

Definition PacketRecvInterface_Init (o d : loc) (mtu : Z) : outcome PacketRecvInterface :=
  ASSERT (0 <=? mtu);; Ok (mkPRI mtu false o 0 d 0 STATE_NONE).

Definition PacketRecvInterface_Free (i : PacketRecvInterface) (l : list loc) : list loc :=
  job_unset (job_operation i) (job_unset (job_done i) l).

Definition PacketRecvInterface_Done (i : PacketRecvInterface) (l : list loc) (data_len : Z)
    : outcome (PacketRecvInterface * list loc) :=
  ASSERT (0 <=? data_len);;
  ASSERT (data_len <=? mtu i);;
  ASSERT (is_state i STATE_BUSY);;
  let l := job_set (job_done i) l in
  Ok (mkPRI (mtu i) (handler_done i) (job_operation i) (job_operation_data i) (job_done i)
       data_len STATE_DONE_PENDING, l).

Definition PacketRecvInterface_GetMTU (i : PacketRecvInterface) : Z := mtu i.

Definition PacketRecvInterface_Receiver_Init (i : PacketRecvInterface) : outcome PacketRecvInterface :=
  ASSERT (negb (handler_done i));;
  Ok (mkPRI (mtu i) true (job_operation i) (job_operation_data i) (job_done i) (job_done_len i) (state i)).

Definition PacketRecvInterface_Receiver_Recv (i : PacketRecvInterface) (l : list loc) (data : Z)
    : outcome (PacketRecvInterface * list loc) :=
  ASSERT (negb (0 <? mtu i) || negb (data =? 0));;
  ASSERT (is_state i STATE_NONE);;
  ASSERT (handler_done i);;
  let l := job_set (job_operation i) l in
  Ok (mkPRI (mtu i) (handler_done i) (job_operation i) data (job_done i) (job_done_len i)
       STATE_OPERATION_PENDING, l).

Definition _PacketRecvInterface_job_operation (i : PacketRecvInterface)
    : outcome (PacketRecvInterface * call) :=
  ASSERT (is_state i STATE_OPERATION_PENDING);;
  let i := set_state i STATE_BUSY in
  Ok (i, Handler_operation (job_operation_data i)).

Definition _PacketRecvInterface_job_done (i : PacketRecvInterface)
    : outcome (PacketRecvInterface * call) :=
  ASSERT (is_state i STATE_DONE_PENDING);;
  let i := set_state i STATE_NONE in
  Ok (i, Handler_done (job_done_len i)).

(** The invariant of the interface, and that one round of the protocol goes
    through without a fault, delivering the request to the provider and the
    length to the user. *)
Record inv (i : PacketRecvInterface) (l : list loc) : Prop := {
  inv_jobs : job_operation i <> job_done i;
  inv_user : handler_done i = true;
  inv_nodup : NoDup l;
  inv_op : job_operation i ∈ l <-> state i = STATE_OPERATION_PENDING;
  inv_done : job_done i ∈ l <-> state i = STATE_DONE_PENDING
}.

Lemma Recv_inv i l data :
  inv i l -> state i = STATE_NONE -> data <> 0 ->
  exists i' l', PacketRecvInterface_Receiver_Recv i l data = Ok (i', l') /\ inv i' l' /\
    state i' = STATE_OPERATION_PENDING /\ head l' = Some (job_operation i').
Proof.
  intros [Hj Hu Hn Ho Hd] Hs Hdata. unfold PacketRecvInterface_Receiver_Recv.
  rewrite !bind_ASSERT_true; [|done|by apply bool_decide_eq_true_2|lia].
  eexists _, _. split; [done|]. split; [|done]. split; cbn; auto with vpn.
  all: rewrite elem_of_set by done; intuition congruence.
Qed.

Lemma Done_inv i l len :
  inv i l -> state i = STATE_BUSY -> 0 <= len <= mtu i ->
  exists i' l', PacketRecvInterface_Done i l len = Ok (i', l') /\ inv i' l' /\
    state i' = STATE_DONE_PENDING /\ job_done_len i' = len.
Proof.
  intros [Hj Hu Hn Ho Hd] Hs Hl. unfold PacketRecvInterface_Done.
  rewrite !bind_ASSERT_true; [|by apply bool_decide_eq_true_2|lia|lia].
  eexists _, _. split; [done|]. split; [|done]. split; cbn; auto with vpn.
  all: rewrite elem_of_set by done; intuition congruence.
Qed.
End PacketRecvInterface.
