(* ===== verification/Connection.v ===== *)
(** Stream sockets (system/BConnection_unix.c, system/BConnection_common.c,
    misc/nonblocking.h, misc/debugerror.h): listeners, connectors and
    connections, on the event loop of Reactor.v and the stream interfaces of
    FlowInterfaces.v.

    Objects live at addresses; the job, limit and descriptor structures inside
    of an object have addresses of their own ([field]). A function of the code
    returns the new state and, in order, what can be seen of it from outside:
    the system calls it makes and the handlers of the user it calls. The
    results of system calls are given ([answers]).

    The specification [spec_step] is what the header documents: which calls
    the user may make, and which system calls and handlers may follow. *)
From Stdlib Require Import ZArith Lia.
From stdpp Require Import base tactics numbers option countable gmap list.
From S2P Require Import Prelude LinkedList Trees Reactor Addr FlowInterfaces.

Module Sockets.
Import BAddr StreamInterface.

(** ** Addresses *)
Definition AF_UNSPEC : Z := 0.
Definition AF_UNIX : Z := 1.
Definition AF_INET : Z := 2.
Definition AF_INET6 : Z := 10.
Definition MAX_UNIX_SOCKET_PATH : Z := 200.
(** [offsetof(struct sockaddr_un, sun_path)] and the sizes of the other
    addresses. *)
Definition SUN_PATH_OFFSET : Z := 2.
Definition SIZEOF_SOCKADDR_IN : Z := 16.
Definition SIZEOF_SOCKADDR_IN6 : Z := 28.

(** [struct sockaddr] by its family. *)
Inductive sockaddr :=
| SockaddrIn (sin_port s_addr : Z)
| SockaddrIn6 (sin6_port sin6_flowinfo : Z) (s6_addr : list Z) (sin6_scope_id : Z)
| SockaddrOther (family : Z).

Definition sa_family (s : sockaddr) : Z :=
  match s with SockaddrIn _ _ => AF_INET | SockaddrIn6 _ _ _ _ => AF_INET6 | SockaddrOther f => f end.

Record sys_addr := mkSysAddr { sa_len : Z; sa : sockaddr }.
Record unix_addr := mkUnixAddr { un_len : Z; sun_family : Z; sun_path : list Z }.

Definition build_unix_address (socket_path : list Z) : option unix_addr :=
  if MAX_UNIX_SOCKET_PATH <? Zlen socket_path then None
  else Some (mkUnixAddr (SUN_PATH_OFFSET + Zlen socket_path + 1) AF_UNIX socket_path).

Definition addr_socket_to_sys (addr : BAddr) : outcome sys_addr :=
  match addr with
  | BADDR_IPV4 ip port => Ok (mkSysAddr SIZEOF_SOCKADDR_IN (SockaddrIn port ip))
  | BADDR_IPV6 ip port => Ok (mkSysAddr SIZEOF_SOCKADDR_IN6 (SockaddrIn6 port 0 ip 0))
  | _ => Fault
  end.

Definition addr_sys_to_socket (addr : sys_addr) : outcome BAddr :=
  match sa addr with
  | SockaddrIn port ip => ASSERT (sa_len addr =? SIZEOF_SOCKADDR_IN);; Ok (BAddr_InitIPv4 ip port)
  | SockaddrIn6 port _ ip _ => ASSERT (sa_len addr =? SIZEOF_SOCKADDR_IN6);; Ok (BAddr_InitIPv6 ip port)
  | SockaddrOther _ => Ok BAddr_InitNone
  end.

(** The address a socket is bound or connected to, with its family. *)
Inductive address := Inet (a : sys_addr) | Unix (a : unix_addr).
Definition family (x : address) : Z := match x with Inet s => sa_family (sa s) | Unix _ => AF_UNIX end.
Definition socket_path (x : address) : option (list Z) := match x with Inet _ => None | Unix u => Some (sun_path u) end.

Definition BConnection_AddressSupported (addr : BAddr) : bool :=
  match addr with BADDR_IPV4 _ _ | BADDR_IPV6 _ _ => true | _ => false end.

Inductive BLisCon_from := BLISCON_FROM_ADDR (addr : BAddr) | BLISCON_FROM_UNIX (socket_path : list Z).

(** ** Objects *)
Definition BCONNECTION_SEND_LIMIT : Z := 2.
Definition BCONNECTION_RECV_LIMIT : Z := 2.
Definition BCONNECTION_LISTEN_BACKLOG : Z := 128.

(** The structures embedded in objects that others hold pointers to. *)
Inductive part :=
| P_bfd | P_default_job | P_job | P_send_limit | P_send_job | P_send_op | P_send_done
| P_recv_limit | P_recv_job | P_recv_op | P_recv_done | P_err.
#[global] Instance part_eq : EqDecision part.
Proof. solve_decision. Defined.
Definition part_num (p : part) : positive :=
  match p with
  | P_bfd => 1 | P_default_job => 2 | P_job => 3 | P_send_limit => 4 | P_send_job => 5 | P_send_op => 6
  | P_send_done => 7 | P_recv_limit => 8 | P_recv_job => 9 | P_recv_op => 10 | P_recv_done => 11 | P_err => 12
  end%positive.
Definition part_of_num (n : positive) : part :=
  match n with
  | 1 => P_bfd | 2 => P_default_job | 3 => P_job | 4 => P_send_limit | 5 => P_send_job | 6 => P_send_op
  | 7 => P_send_done | 8 => P_recv_limit | 9 => P_recv_job | 10 => P_recv_op | 11 => P_recv_done | _ => P_err
  end%positive.
#[global] Program Instance part_countable : Countable part := inj_countable' part_num part_of_num _.
Next Obligation. by destruct x. Qed.

Definition field (a : loc) (p : part) : loc := encode (a, p).
(** The object and the part that an address is the address of. *)
Definition container (x : loc) : option (loc * part) :=
  decode x ≫= fun y : loc * part => if decide (encode y = x) then Some y else None.

Record BListener := mkListener { lfd : Z; unix_socket_path : option (list Z) }.
Record BConnector := mkConnector { cfd : Z; connected : bool; have_bfd : bool }.

Inductive send_state := SEND_STATE_NOT_INITED | SEND_STATE_READY | SEND_STATE_BUSY.
Inductive recv_state :=
| RECV_STATE_NOT_INITED | RECV_STATE_READY | RECV_STATE_BUSY | RECV_STATE_INITED_CLOSED | RECV_STATE_NOT_INITED_CLOSED.
#[global] Instance send_state_eq : EqDecision send_state.
Proof. solve_decision. Defined.
#[global] Instance recv_state_eq : EqDecision recv_state.
Proof. solve_decision. Defined.

(** The members [send] and [recv]; the limit and the job are parts. *)
Record send_part := mkSend { siface : StreamPassInterface; sbusy_data : Z; sbusy_data_len : Z; sstate : send_state }.
Record recv_part := mkRecv { riface : StreamRecvInterface; rbusy_data : Z; rbusy_data_avail : Z; rstate : recv_state }.

(** [handler] is whether the handler is set. *)
Record BConnection := mkConnection {
  handler : bool; fd : Z; close_fd : bool; is_hupd : bool; wait_events : Z; send : send_part; recv : recv_part
}.

Inductive object := Listener (o : BListener) | Connector (o : BConnector) | Connection (o : BConnection).

Definition set_handler h o := mkConnection h (fd o) (close_fd o) (is_hupd o) (wait_events o) (send o) (recv o).
Definition set_hupd o := mkConnection (handler o) (fd o) (close_fd o) true (wait_events o) (send o) (recv o).
Definition set_wait w o := mkConnection (handler o) (fd o) (close_fd o) (is_hupd o) w (send o) (recv o).
Definition set_send s o := mkConnection (handler o) (fd o) (close_fd o) (is_hupd o) (wait_events o) s (recv o).
Definition set_recv s o := mkConnection (handler o) (fd o) (close_fd o) (is_hupd o) (wait_events o) (send o) s.
Definition put_sstate x o := set_send (mkSend (siface (send o)) (sbusy_data (send o)) (sbusy_data_len (send o)) x) o.
Definition put_rstate x o := set_recv (mkRecv (riface (recv o)) (rbusy_data (recv o)) (rbusy_data_avail (recv o)) x) o.
Definition put_siface i o := set_send (mkSend i (sbusy_data (send o)) (sbusy_data_len (send o)) (sstate (send o))) o.
Definition put_riface i o := set_recv (mkRecv i (rbusy_data (recv o)) (rbusy_data_avail (recv o)) (rstate (recv o))) o.

Definition send_is (s : send_state) (o : BConnection) : bool := bool_decide (sstate (send o) = s).
Definition recv_is (s : recv_state) (o : BConnection) : bool := bool_decide (rstate (recv o) = s).

(** ** System calls and what is seen from outside *)

(** What [read] and [write] return: a number of bytes, or -1 with [errno]. *)
Inductive io := Bytes (n : Z) | EAGAIN | EFAIL.
#[global] Instance io_eq : EqDecision io.
Proof. solve_decision. Defined.

(** A socket option that is set. *)
Inductive sockopt := SO_REUSEADDR (optval : Z) | SO_SNDBUF (buf_size : Z).
(** A system call on a descriptor; for [sys_socket] the one it returned. *)
Inductive sysname :=
| sys_socket (family : Z) | sys_fcntl | sys_bind (addr : address) | sys_listen (backlog : Z) | sys_connect (addr : address)
| sys_accept | sys_getsockopt | sys_setsockopt (opt : sockopt).

Inductive output :=
| ListenerHandler (a : loc)
| ConnectorHandler (a : loc) (is_error : bool)
| HandlerError (a : loc)
| HandlerClosed (a : loc)
| SendDone (a : loc) (n : Z)
| RecvDone (a : loc) (n : Z)
| Write (a : loc) (fd data len : Z) (res : io)
| Read (a : loc) (fd data len : Z) (res : io)
| Discard (a : loc)
| PeerAddr (a : loc) (addr : BAddr)
| Sys (s : sysname) (fd : Z)
| Unlink (path : list Z)
| Opened (fd : Z)
| Closed (fd : Z).

Inductive unlink_result := UnlinkOk | UnlinkENOENT | UnlinkFailed.
Inductive connect_result := ConnectDone | ConnectInProgress | ConnectFailed.

(** The results of the system calls of one call of the code, for [read] and
    [write] by descriptor and length; [a_add] is whether epoll_ctl succeeds. *)
Record answers := mkAnswers {
  a_write : Z -> Z -> io; a_read : Z -> Z -> io; a_accept : option (Z * sys_addr); a_so_error : option Z;
  a_strdup : bool; a_socket : option Z; a_fcntl : bool; a_unlink : unlink_result;
  a_bind : bool; a_listen : bool; a_connect : connect_result; a_setsockopt : bool; a_add : bool
}.

Section sockets.
Context {T : Type} `{!Tree BReactor.compare_timers T, !OrderedTree BReactor.compare_timers T}.
Abbreviation BReactor := (BReactor.BReactor (T := T)).
Implicit Types (r : BReactor) (a : loc).

Definition BPending_Set (x : loc) r : BReactor := BReactor.set_jobs (job_set x (BReactor.pending_jobs r)) r.
Definition BPending_Free (x : loc) r : BReactor := BReactor.set_jobs (job_unset x (BReactor.pending_jobs r)) r.
Definition BPending_IsSet (x : loc) r : bool := bool_decide (x ∈ BReactor.pending_jobs r).

Definition badvpn_set_nonblocking (fd : Z) (an : answers) : bool * list output := (a_fcntl an, [Sys sys_fcntl fd]).

(** ** Connections *)
Definition DebugError_AssertNoError a r : outcome unit := ASSERT (negb (BPending_IsSet (field a P_err) r)).

Definition connection_report_error a r (o : BConnection) : outcome (BReactor * BConnection * list output) :=
  DebugError_AssertNoError a r;;
  ASSERT (handler o);;
  ASSERT (negb (BPending_IsSet (field a P_err) r));;
  Ok (BPending_Set (field a P_err) r, o, [HandlerError a]).

(** [wait_events |= ev], registered with the reactor. *)
Definition wait_for_fd a (ev : Z) (out : list output) r (o : BConnection) : outcome (BReactor * BConnection * list output) :=
  let w := Z.lor (wait_events o) ev in
  BReactor.BReactor_SetFileDescriptorEvents (field a P_bfd) w r ≫= fun r => Ok (r, set_wait w o, out).

(** The limit is not used once the descriptor was hung up. *)
Definition limit_ok a (p : part) r (o : BConnection) : outcome (BReactor * bool) :=
  if is_hupd o then Ok (r, true) else BReactor.BReactorLimit_Increment (field a p) r.

Definition connection_send a (an : answers) r (o : BConnection) : outcome (BReactor * BConnection * list output) :=
  DebugError_AssertNoError a r;;
  ASSERT (send_is SEND_STATE_BUSY o);;
  limit_ok a P_send_limit r o ≫= fun '((r, go) : BReactor * bool) =>
  if negb go then wait_for_fd a BReactor.BREACTOR_WRITE [] r o
  else
    let res := a_write an (fd o) (sbusy_data_len (send o)) in
    let out := [Write a (fd o) (sbusy_data (send o)) (sbusy_data_len (send o)) res] in
    match res with
    | Bytes bytes =>
        ASSERT (0 <? bytes);;
        ASSERT (bytes <=? sbusy_data_len (send o));;
        let o := put_sstate SEND_STATE_READY o in
        StreamPassInterface_Done (siface (send o)) (BReactor.pending_jobs r) bytes ≫= fun '((i, l) : StreamPassInterface * list loc) =>
        Ok (BReactor.set_jobs l r, put_siface i o, out)
    | _ =>
        if negb (is_hupd o) && bool_decide (res = EAGAIN) then wait_for_fd a BReactor.BREACTOR_WRITE out r o
        else connection_report_error a r o ≫= fun '((x, out') : BReactor * BConnection * list output) => Ok (x, out ++ out')
    end.

Definition connection_recv a (an : answers) r (o : BConnection) : outcome (BReactor * BConnection * list output) :=
  DebugError_AssertNoError a r;;
  ASSERT (recv_is RECV_STATE_BUSY o);;
  limit_ok a P_recv_limit r o ≫= fun '((r, go) : BReactor * bool) =>
  if negb go then wait_for_fd a BReactor.BREACTOR_READ [] r o
  else
    let res := a_read an (fd o) (rbusy_data_avail (recv o)) in
    let out := [Read a (fd o) (rbusy_data (recv o)) (rbusy_data_avail (recv o)) res] in
    match res with
    | Bytes bytes =>
        if bytes =? 0 then Ok (r, put_rstate RECV_STATE_INITED_CLOSED o, out ++ [HandlerClosed a])
        else
          ASSERT (0 <? bytes);;
          ASSERT (bytes <=? rbusy_data_avail (recv o));;
          let o := put_rstate RECV_STATE_READY o in
          StreamRecvInterface_Done (riface (recv o)) (BReactor.pending_jobs r) bytes ≫= fun '((i, l) : StreamRecvInterface * list loc) =>
          Ok (BReactor.set_jobs l r, put_riface i o, out)
    | _ =>
        if negb (is_hupd o) && bool_decide (res = EAGAIN) then wait_for_fd a BReactor.BREACTOR_READ out r o
        else connection_report_error a r o ≫= fun '((x, out') : BReactor * BConnection * list output) => Ok (x, out ++ out')
    end.

Definition connection_fd_handler a (events : Z) (an : answers) r (o : BConnection) : outcome (BReactor * BConnection * list output) :=
  DebugError_AssertNoError a r;;
  ASSERT (negb (is_hupd o));;
  let o := set_wait (Z.land (wait_events o) (Z.lnot events)) o in
  BReactor.BReactor_SetFileDescriptorEvents (field a P_bfd) (wait_events o) r ≫= fun r =>
  (if BReactor.has events BReactor.BREACTOR_HUP then
     BReactor.BReactor_RemoveFileDescriptor (field a P_bfd) r ≫= fun r => Ok (r, set_hupd o)
   else Ok (r, o)) ≫= fun '((r, o) : BReactor * BConnection) =>
  let failed := BReactor.has events (Z.lor BReactor.BREACTOR_ERROR BReactor.BREACTOR_HUP) in
  let have_send := BReactor.has events BReactor.BREACTOR_WRITE || (failed && send_is SEND_STATE_BUSY o) in
  ASSERT (negb have_send || send_is SEND_STATE_BUSY o);;
  let have_recv := BReactor.has events BReactor.BREACTOR_READ || (failed && recv_is RECV_STATE_BUSY o) in
  ASSERT (negb have_recv || recv_is RECV_STATE_BUSY o);;
  if have_send then connection_send a an (if have_recv then BPending_Set (field a P_recv_job) r else r) o
  else if have_recv then connection_recv a an r o
  else if negb (is_hupd o) then connection_report_error a r o
  else Ok (r, o, []).

Definition connection_send_job_handler a (an : answers) r (o : BConnection) : outcome (BReactor * BConnection * list output) :=
  DebugError_AssertNoError a r;; ASSERT (send_is SEND_STATE_BUSY o);; connection_send a an r o.
Definition connection_recv_job_handler a (an : answers) r (o : BConnection) : outcome (BReactor * BConnection * list output) :=
  DebugError_AssertNoError a r;; ASSERT (recv_is RECV_STATE_BUSY o);; connection_recv a an r o.

Definition connection_send_if_handler_send a (data data_len : Z) (an : answers) r (o : BConnection) : outcome (BReactor * BConnection * list output) :=
  DebugError_AssertNoError a r;;
  ASSERT (send_is SEND_STATE_READY o);;
  ASSERT (0 <? data_len);;
  connection_send a an r (set_send (mkSend (siface (send o)) data data_len SEND_STATE_BUSY) o).
Definition connection_recv_if_handler_recv a (data data_avail : Z) (an : answers) r (o : BConnection) : outcome (BReactor * BConnection * list output) :=
  DebugError_AssertNoError a r;;
  ASSERT (recv_is RECV_STATE_READY o);;
  ASSERT (0 <? data_avail);;
  connection_recv a an r (set_recv (mkRecv (riface (recv o)) data data_avail RECV_STATE_BUSY) o).

Definition BConnection_SetHandlers (h : bool) (o : BConnection) : BConnection := set_handler h o.
Definition BConnection_SetSendBuffer (buf_size : Z) (an : answers) (o : BConnection) : bool * list output :=
  (a_setsockopt an, [Sys (sys_setsockopt (SO_SNDBUF buf_size)) (fd o)]).

Definition BConnection_SendAsync_Init a r (o : BConnection) : outcome BConnection :=
  DebugError_AssertNoError a r;;
  ASSERT (send_is SEND_STATE_NOT_INITED o);;
  Ok (put_sstate SEND_STATE_READY (put_siface (StreamPassInterface_Init (field a P_send_op) (field a P_send_done)) o)).

(** [wait_events &= ~ev] unless the descriptor was hung up. *)
Definition stop_waiting a (ev : Z) r (o : BConnection) : outcome (BReactor * BConnection) :=
  if negb (is_hupd o) then
    let w := Z.land (wait_events o) (Z.lnot ev) in
    BReactor.BReactor_SetFileDescriptorEvents (field a P_bfd) w r ≫= fun r => Ok (r, set_wait w o)
  else Ok (r, o).

Definition BConnection_SendAsync_Free a r (o : BConnection) : outcome (BReactor * BConnection) :=
  ASSERT (send_is SEND_STATE_READY o || send_is SEND_STATE_BUSY o);;
  stop_waiting a BReactor.BREACTOR_WRITE r o ≫= fun '((r, o) : BReactor * BConnection) =>
  let r := BPending_Free (field a P_send_job) r in
  let r := BReactor.set_jobs (StreamPassInterface_Free (siface (send o)) (BReactor.pending_jobs r)) r in
  Ok (r, put_sstate SEND_STATE_NOT_INITED o).

Definition BConnection_SendAsync_GetIf (o : BConnection) : outcome StreamPassInterface :=
  ASSERT (send_is SEND_STATE_READY o || send_is SEND_STATE_BUSY o);; Ok (siface (send o)).

Definition BConnection_RecvAsync_Init a r (o : BConnection) : outcome BConnection :=
  DebugError_AssertNoError a r;;
  ASSERT (recv_is RECV_STATE_NOT_INITED o);;
  Ok (put_rstate RECV_STATE_READY (put_riface (StreamRecvInterface_Init (field a P_recv_op) (field a P_recv_done)) o)).

Definition recv_inited (o : BConnection) : bool :=
  recv_is RECV_STATE_READY o || recv_is RECV_STATE_BUSY o || recv_is RECV_STATE_INITED_CLOSED o.

Definition BConnection_RecvAsync_Free a r (o : BConnection) : outcome (BReactor * BConnection) :=
  ASSERT (recv_inited o);;
  stop_waiting a BReactor.BREACTOR_READ r o ≫= fun '((r, o) : BReactor * BConnection) =>
  let r := BPending_Free (field a P_recv_job) r in
  let r := BReactor.set_jobs (StreamRecvInterface_Free (riface (recv o)) (BReactor.pending_jobs r)) r in
  Ok (r, put_rstate RECV_STATE_NOT_INITED o).

Definition BConnection_RecvAsync_GetIf (o : BConnection) : outcome StreamRecvInterface :=
  ASSERT (recv_inited o);; Ok (riface (recv o)).

Definition BConnection_Free a r (o : BConnection) : outcome (BReactor * list output) :=
  let r := BPending_Free (field a P_err) r in
  ASSERT (send_is SEND_STATE_NOT_INITED o);;
  ASSERT (recv_is RECV_STATE_NOT_INITED o || recv_is RECV_STATE_NOT_INITED_CLOSED o);;
  BReactor.BReactorLimit_Free (field a P_recv_limit) r ≫= fun r =>
  BReactor.BReactorLimit_Free (field a P_send_limit) r ≫= fun r =>
  (if negb (is_hupd o) then BReactor.BReactor_RemoveFileDescriptor (field a P_bfd) r else Ok r) ≫= fun r =>
  Ok (r, if close_fd o then [Closed (fd o)] else []).

(** [BFileDescriptor_Init] and [BReactor_AddFileDescriptor], which may fail. *)
Definition add_bfd a (an : answers) r : outcome (BReactor * bool) :=
  BReactor.BReactor_AddFileDescriptor (field a P_bfd) (a_add an) (BReactor.BFileDescriptor_Init (field a P_bfd) r).

(** ** Listeners *)
Definition listener_fd_handler a r : BReactor * list output := (BPending_Set (field a P_default_job) r, [ListenerHandler a]).

Definition listener_default_job_handler a (an : answers) (o : BListener) : list output :=
  Discard a :: Sys sys_accept (lfd o) :: match a_accept an with Some (newfd, _) => [Opened newfd; Closed newfd] | None => [] end.

(** The code from [socket] on; [fail2] and [fail3] are its labels. *)
Definition listener_open a (addr : address) (an : answers) r : outcome (BReactor * option BListener * list output) :=
  let path := socket_path addr in
  match a_socket an with
  | None => Ok (r, None, [])
  | Some fd =>
      let fail2 r out := Ok (r, None, out ++ [Closed fd]) in
      let fail3 r out := fail2 r (out ++ match path with Some p => [Unlink p] | None => [] end) in
      let '(ok, out) := badvpn_set_nonblocking fd an in
      let out := Opened fd :: Sys (sys_socket (family addr)) fd :: out in
      if negb ok then fail2 r out
      else
        let out := out ++ match path with Some p => [Unlink p] | None => [Sys (sys_setsockopt (SO_REUSEADDR 1)) fd] end in
        if match path, a_unlink an with Some _, UnlinkFailed => true | _, _ => false end then fail2 r out
        else
          let out := out ++ [Sys (sys_bind addr) fd] in
          if negb (a_bind an) then fail2 r out
          else
            let out := out ++ [Sys (sys_listen BCONNECTION_LISTEN_BACKLOG) fd] in
            if negb (a_listen an) then fail3 r out
            else
              add_bfd a an r ≫= fun '((r, ok) : BReactor * bool) =>
              if negb ok then fail3 r out
              else
                BReactor.BReactor_SetFileDescriptorEvents (field a P_bfd) BReactor.BREACTOR_READ r ≫= fun r =>
                Ok (r, Some (mkListener fd path), out)
  end.

Definition BListener_InitFrom a (from : BLisCon_from) (an : answers) r : outcome (BReactor * option BListener * list output) :=
  match from with
  | BLISCON_FROM_UNIX socket_path =>
      if negb (a_strdup an) then Ok (r, None, [])
      else match build_unix_address socket_path with
           | None => Ok (r, None, [])
           | Some unixaddr => listener_open a (Unix unixaddr) an r
           end
  | BLISCON_FROM_ADDR addr =>
      if negb (BConnection_AddressSupported addr) then Ok (r, None, [])
      else addr_socket_to_sys addr ≫= fun sysaddr => listener_open a (Inet sysaddr) an r
  end.

Definition BListener_Init a (addr : BAddr) := BListener_InitFrom a (BLISCON_FROM_ADDR addr).
Definition BListener_InitUnix a (path : list Z) := BListener_InitFrom a (BLISCON_FROM_UNIX path).

Definition BListener_Free a r (o : BListener) : outcome (BReactor * list output) :=
  let r := BPending_Free (field a P_default_job) r in
  BReactor.BReactor_RemoveFileDescriptor (field a P_bfd) r ≫= fun r =>
  Ok (r, Closed (lfd o) :: match unix_socket_path o with Some p => [Unlink p] | None => [] end).

(** ** Connectors *)
Definition connector_fd_handler a (an : answers) r (o : BConnector) : outcome (BReactor * BConnector * list output) :=
  ASSERT (0 <=? cfd o);;
  ASSERT (negb (connected o));;
  ASSERT (have_bfd o);;
  BReactor.BReactor_RemoveFileDescriptor (field a P_bfd) r ≫= fun r =>
  let connected := match a_so_error an with Some result => result =? 0 | None => false end in
  Ok (r, mkConnector (cfd o) connected false, [Sys sys_getsockopt (cfd o); ConnectorHandler a (negb connected)]).

Definition connector_job_handler a (o : BConnector) : outcome (list output) :=
  ASSERT (0 <=? cfd o);;
  ASSERT (connected o);;
  ASSERT (negb (have_bfd o));;
  Ok [ConnectorHandler a false].

(** The code from [socket] on. *)
Definition connector_open a (addr : address) (an : answers) r : outcome (BReactor * option BConnector * list output) :=
  match a_socket an with
  | None => Ok (r, None, [])
  | Some fd =>
      let fail2 r out := Ok (r, None, out ++ [Closed fd]) in
      let '(ok, out) := badvpn_set_nonblocking fd an in
      let out := Opened fd :: Sys (sys_socket (family addr)) fd :: out in
      if negb ok then fail2 r out
      else
        let out := out ++ [Sys (sys_connect addr) fd] in
        match a_connect an with
        | ConnectFailed => fail2 r out
        | ConnectInProgress =>
            add_bfd a an r ≫= fun '((r, ok) : BReactor * bool) =>
            if negb ok then fail2 r out
            else
              BReactor.BReactor_SetFileDescriptorEvents (field a P_bfd) BReactor.BREACTOR_WRITE r ≫= fun r =>
              Ok (r, Some (mkConnector fd false true), out)
        | ConnectDone => Ok (BPending_Set (field a P_job) r, Some (mkConnector fd true false), out)
        end
  end.

Definition BConnector_InitFrom a (from : BLisCon_from) (an : answers) r : outcome (BReactor * option BConnector * list output) :=
  match from with
  | BLISCON_FROM_UNIX socket_path =>
      match build_unix_address socket_path with None => Ok (r, None, []) | Some unixaddr => connector_open a (Unix unixaddr) an r end
  | BLISCON_FROM_ADDR addr =>
      if negb (BConnection_AddressSupported addr) then Ok (r, None, [])
      else addr_socket_to_sys addr ≫= fun sysaddr => connector_open a (Inet sysaddr) an r
  end.

Definition BConnector_Init a (addr : BAddr) := BConnector_InitFrom a (BLISCON_FROM_ADDR addr).
Definition BConnector_InitUnix a (path : list Z) := BConnector_InitFrom a (BLISCON_FROM_UNIX path).

Definition BConnector_Free a r (o : BConnector) : outcome (BReactor * list output) :=
  (if have_bfd o then BReactor.BReactor_RemoveFileDescriptor (field a P_bfd) r else Ok r) ≫= fun r =>
  Ok (BPending_Free (field a P_job) r, if negb (cfd o =? -1) then [Closed (cfd o)] else []).

(** ** Connections from a listener, a connector or a descriptor *)
Inductive BConnection_source :=
| BCONNECTION_SOURCE_TYPE_LISTENER (listener : loc) (out_addr : bool)
| BCONNECTION_SOURCE_TYPE_CONNECTOR (connector : loc)
| BCONNECTION_SOURCE_TYPE_PIPE (pipefd : Z) (close_it : bool).

Definition fail1 (close_fd : bool) (fd : Z) : list output := if close_fd then [Closed fd] else [].

(** The code after the descriptor is there. *)
Definition connection_open a (fd : Z) (close_fd : bool) (an : answers) r : outcome (BReactor * option BConnection * list output) :=
  add_bfd a an r ≫= fun '((r, ok) : BReactor * bool) =>
  if negb ok then Ok (r, None, fail1 close_fd fd)
  else
    BReactor.BReactorLimit_Init (field a P_send_limit) BCONNECTION_SEND_LIMIT r ≫= fun r =>
    BReactor.BReactorLimit_Init (field a P_recv_limit) BCONNECTION_RECV_LIMIT r ≫= fun r =>
    let i := mkSRI false a 0 0 a 0 STATE_NONE in
    Ok (r, Some (mkConnection true fd close_fd false 0 (mkSend i 0 0 SEND_STATE_NOT_INITED) (mkRecv i 0 0 RECV_STATE_NOT_INITED)), []).

Definition BConnection_Init a (source : BConnection_source) (an : answers) r (m : gmap loc object)
    : outcome (BReactor * gmap loc object * option BConnection * list output) :=
  match source with
  | BCONNECTION_SOURCE_TYPE_LISTENER l out_addr =>
      match m !! l with
      | Some (Listener listener) =>
          ASSERT (BPending_IsSet (field l P_default_job) r);;
          let r := BPending_Free (field l P_default_job) r in
          let out := [Sys sys_accept (lfd listener)] in
          match a_accept an with
          | None => Ok (r, m, None, out)
          | Some (fd, sysaddr) =>
              let '(ok, out') := badvpn_set_nonblocking fd an in
              let out := out ++ Opened fd :: out' in
              if negb ok then Ok (r, m, None, out ++ fail1 true fd)
              else
                (if out_addr then addr_sys_to_socket sysaddr ≫= fun addr => Ok [PeerAddr a addr] else Ok []) ≫= fun peer =>
                connection_open a fd true an r ≫= fun '((r, o, out') : BReactor * option BConnection * list output) =>
                Ok (r, m, o, out ++ peer ++ out')
          end
      | _ => Fault
      end
  | BCONNECTION_SOURCE_TYPE_CONNECTOR c =>
      match m !! c with
      | Some (Connector connector) =>
          ASSERT (0 <=? cfd connector);;
          ASSERT (connected connector);;
          ASSERT (negb (have_bfd connector));;
          ASSERT (negb (BPending_IsSet (field c P_job) r));;
          let fd := cfd connector in
          let m := <[c := Connector (mkConnector (-1) (connected connector) (have_bfd connector))]> m in
          connection_open a fd true an r ≫= fun '((r, o, out) : BReactor * option BConnection * list output) => Ok (r, m, o, out)
      | _ => Fault
      end
  | BCONNECTION_SOURCE_TYPE_PIPE pipefd close_it =>
      ASSERT (0 <=? pipefd);;
      let '(ok, out) := badvpn_set_nonblocking pipefd an in
      if negb ok then Ok (r, m, None, out ++ fail1 close_it pipefd)
      else connection_open a pipefd close_it an r ≫= fun '((r, o, out') : BReactor * option BConnection * list output) =>
           Ok (r, m, o, out ++ out')
  end.

(** ** The system: objects, event loop and descriptors *)

(** The open descriptors, and those with an error that was reported to the
    event loop and not yet returned by a call. *)
Record kernel := mkKernel { open : gset Z; err : gset Z }.

(** Closing or using a descriptor that is not open is a fault. *)
Definition kernel_step (k : kernel) (out : output) : outcome kernel :=
  match out with
  | Opened fd => Ok (mkKernel ({[fd]} ∪ open k) (err k))
  | Closed fd => ASSERT (bool_decide (fd ∈ open k));; Ok (mkKernel (open k ∖ {[fd]}) (err k ∖ {[fd]}))
  | Write _ fd _ _ _ | Read _ fd _ _ _ => ASSERT (bool_decide (fd ∈ open k));; Ok (mkKernel (open k) (err k ∖ {[fd]}))
  | Sys _ fd => ASSERT (bool_decide (fd ∈ open k));; Ok k
  | _ => Ok k
  end.
Fixpoint kernel_steps (k : kernel) (out : list output) : outcome kernel :=
  match out with [] => Ok k | x :: out => kernel_step k x ≫= fun k => kernel_steps k out end.

Definition valid_sys_addr (s : sys_addr) : Prop :=
  match sa s with
  | SockaddrIn _ _ => sa_len s = SIZEOF_SOCKADDR_IN
  | SockaddrIn6 _ _ _ _ => sa_len s = SIZEOF_SOCKADDR_IN6
  | SockaddrOther _ => True
  end.

(** What is documented of the system calls: a descriptor that is returned is a
    new one; [write] and [read] take and give at least one byte and not more
    than asked, [read] 0 at the end; a call on a descriptor with a pending
    error returns that error. *)
Record answers_ok (k : kernel) (an : answers) : Prop := {
  ok_socket : forall fd, a_socket an = Some fd -> 0 <= fd /\ fd ∉ open k;
  ok_accept : forall fd s, a_accept an = Some (fd, s) -> 0 <= fd /\ fd ∉ open k /\ valid_sys_addr s;
  ok_write : forall fd len n, 0 < len -> a_write an fd len = Bytes n -> 0 < n <= len;
  ok_read : forall fd len n, 0 < len -> a_read an fd len = Bytes n -> 0 <= n <= len;
  ok_error : forall fd len, fd ∈ err k -> a_write an fd len = EFAIL /\ a_read an fd len = EFAIL
}.

Record world := mkWorld { reactor : BReactor; objs : gmap loc object; kern : kernel }.

(** What the user may do; other modules use the reactor with structures of
    their own, and open and close descriptors of their own. *)
Inductive user :=
| UListenerInit a (from : BLisCon_from) | UListenerFree a
| UConnectorInit a (from : BLisCon_from) | UConnectorFree a
| UConnectionInit a (source : BConnection_source) | UConnectionFree a
| USetHandlers a (h : bool) | USetSendBuffer a (buf_size : Z)
| USendInit a | USendFree a | USend a (data data_len : Z)
| URecvInit a | URecvFree a | URecv a (data data_len : Z)
| UOpen (fd : Z) | UClose (fd : Z)
| UOther (op : BReactor.operation).

Definition put a (x : option object) (m : gmap loc object) : gmap loc object :=
  match x with Some o => <[a := o]> m | None => delete a m end.
Definition get_connection a (m : gmap loc object) : outcome BConnection :=
  match m !! a with Some (Connection o) => Ok o | _ => Fault end.

(** [StreamPassInterface_Sender_Init] and [StreamRecvInterface_Receiver_Init] come with the
    initialisation of the interface. *)
Definition send_init a r (o : BConnection) : outcome BConnection :=
  BConnection_SendAsync_Init a r o ≫= fun o =>
  BConnection_SendAsync_GetIf o ≫= fun i =>
  StreamPassInterface_Sender_Init i ≫= fun i => Ok (put_siface i o).
Definition recv_init a r (o : BConnection) : outcome BConnection :=
  BConnection_RecvAsync_Init a r o ≫= fun o =>
  BConnection_RecvAsync_GetIf o ≫= fun i =>
  StreamRecvInterface_Receiver_Init i ≫= fun i => Ok (put_riface i o).
Definition send_data (data data_len : Z) r (o : BConnection) : outcome (BReactor * BConnection) :=
  BConnection_SendAsync_GetIf o ≫= fun i =>
  StreamPassInterface_Sender_Send i (BReactor.pending_jobs r) data data_len ≫= fun '((i, l) : StreamPassInterface * list loc) =>
  Ok (BReactor.set_jobs l r, put_siface i o).
Definition recv_data (data data_len : Z) r (o : BConnection) : outcome (BReactor * BConnection) :=
  BConnection_RecvAsync_GetIf o ≫= fun i =>
  StreamRecvInterface_Receiver_Recv i (BReactor.pending_jobs r) data data_len ≫= fun '((i, l) : StreamRecvInterface * list loc) =>
  Ok (BReactor.set_jobs l r, put_riface i o).

(** The result of an initialisation is whether it succeeded. *)
Definition user_call (u : user) (an : answers) r (m : gmap loc object) : outcome (BReactor * gmap loc object * bool * list output) :=
  let update a (f : BConnection -> outcome (BReactor * BConnection * list output)) :=
    get_connection a m ≫= fun o => f o ≫= fun '((r, o, out) : BReactor * BConnection * list output) =>
    Ok (r, <[a := Connection o]> m, true, out) in
  match u with
  | UListenerInit a from =>
      BListener_InitFrom a from an r ≫= fun '((r, o, out) : BReactor * option BListener * list output) =>
      Ok (r, put a (Listener <$> o) m, bool_decide (is_Some o), out)
  | UListenerFree a =>
      match m !! a with
      | Some (Listener o) => BListener_Free a r o ≫= fun '((r, out) : BReactor * list output) => Ok (r, put a None m, true, out)
      | _ => Fault
      end
  | UConnectorInit a from =>
      BConnector_InitFrom a from an r ≫= fun '((r, o, out) : BReactor * option BConnector * list output) =>
      Ok (r, put a (Connector <$> o) m, bool_decide (is_Some o), out)
  | UConnectorFree a =>
      match m !! a with
      | Some (Connector o) => BConnector_Free a r o ≫= fun '((r, out) : BReactor * list output) => Ok (r, put a None m, true, out)
      | _ => Fault
      end
  | UConnectionInit a source =>
      BConnection_Init a source an r m ≫= fun '((r, m, o, out) : BReactor * gmap loc object * option BConnection * list output) =>
      Ok (r, put a (Connection <$> o) m, bool_decide (is_Some o), out)
  | UConnectionFree a =>
      get_connection a m ≫= fun o => BConnection_Free a r o ≫= fun '((r, out) : BReactor * list output) => Ok (r, put a None m, true, out)
  | USetHandlers a h => update a (fun o => Ok (r, BConnection_SetHandlers h o, []))
  | USetSendBuffer a buf_size => get_connection a m ≫= fun o => let '(ok, out) := BConnection_SetSendBuffer buf_size an o in Ok (r, m, ok, out)
  | USendInit a => update a (fun o => send_init a r o ≫= fun o => Ok (r, o, []))
  | USendFree a => update a (fun o => BConnection_SendAsync_Free a r o ≫= fun '((r, o) : BReactor * BConnection) => Ok (r, o, []))
  | USend a data len => update a (fun o => send_data data len r o ≫= fun '((r, o) : BReactor * BConnection) => Ok (r, o, []))
  | URecvInit a => update a (fun o => recv_init a r o ≫= fun o => Ok (r, o, []))
  | URecvFree a => update a (fun o => BConnection_RecvAsync_Free a r o ≫= fun '((r, o) : BReactor * BConnection) => Ok (r, o, []))
  | URecv a data len => update a (fun o => recv_data data len r o ≫= fun '((r, o) : BReactor * BConnection) => Ok (r, o, []))
  | UOpen fd => Ok (r, m, true, [Opened fd])
  | UClose fd => Ok (r, m, true, [Closed fd])
  | UOther op => BReactor.perform op r ≫= fun r => Ok (r, m, true, [])
  end.

Definition user_step (u : user) (an : answers) (w : world) : outcome (world * bool * list output) :=
  user_call u an (reactor w) (objs w) ≫= fun '((r, m, ok, out) : BReactor * gmap loc object * bool * list output) =>
  kernel_steps (kern w) out ≫= fun k => Ok (mkWorld r m k, ok, out).

(** The handler of a job or a descriptor of an object; a job of an object that
    is not there is a fault. *)
Definition connection_job a (p : part) (an : answers) r (o : BConnection) : outcome (BReactor * BConnection * list output) :=
  match p with
  | P_send_job => connection_send_job_handler a an r o
  | P_recv_job => connection_recv_job_handler a an r o
  | P_send_op =>
      _StreamPassInterface_job_operation (siface (send o)) ≫= fun '((i, c) : StreamPassInterface * call) =>
      match c with Handler_operation data len => connection_send_if_handler_send a data len an r (put_siface i o) | _ => Fault end
  | P_recv_op =>
      _StreamRecvInterface_job_operation (riface (recv o)) ≫= fun '((i, c) : StreamRecvInterface * call) =>
      match c with Handler_operation data len => connection_recv_if_handler_recv a data len an r (put_riface i o) | _ => Fault end
  | P_send_done =>
      _StreamPassInterface_job_done (siface (send o)) ≫= fun '((i, c) : StreamPassInterface * call) =>
      match c with Handler_done len => Ok (r, put_siface i o, [SendDone a len]) | _ => Fault end
  | P_recv_done =>
      _StreamRecvInterface_job_done (riface (recv o)) ≫= fun '((i, c) : StreamRecvInterface * call) =>
      match c with Handler_done len => Ok (r, put_riface i o, [RecvDone a len]) | _ => Fault end
  | _ => Fault
  end.

Definition dispatch_job a (p : part) (an : answers) r (m : gmap loc object) : outcome (BReactor * gmap loc object * list output) :=
  match m !! a, p with
  | Some (Listener o), P_default_job => Ok (r, m, listener_default_job_handler a an o)
  | Some (Connector o), P_job => connector_job_handler a o ≫= fun out => Ok (r, m, out)
  | Some (Connection o), _ =>
      connection_job a p an r o ≫= fun '((r, o, out) : BReactor * BConnection * list output) => Ok (r, <[a := Connection o]> m, out)
  | _, _ => Fault
  end.

Definition dispatch_fd a (evs : Z) (an : answers) r (m : gmap loc object) : outcome (BReactor * gmap loc object * list output) :=
  match m !! a with
  | Some (Listener o) => let '(r, out) := listener_fd_handler a r in Ok (r, m, out)
  | Some (Connector o) =>
      connector_fd_handler a an r o ≫= fun '((r, o, out) : BReactor * BConnector * list output) => Ok (r, <[a := Connector o]> m, out)
  | Some (Connection o) =>
      connection_fd_handler a evs an r o ≫= fun '((r, o, out) : BReactor * BConnection * list output) => Ok (r, <[a := Connection o]> m, out)
  | None => Fault
  end.

Definition dispatch (p : BReactor.progress) (an : answers) r (m : gmap loc object) : outcome (BReactor * gmap loc object * list output) :=
  match p with
  | BReactor.Called (BReactor.CallJob x) =>
      match container x with Some (a, p) => dispatch_job a p an r m | None => Ok (r, m, []) end
  | BReactor.Called (BReactor.CallFd x evs) =>
      match container x with Some (a, P_bfd) => dispatch_fd a evs an r m | _ => Ok (r, m, []) end
  | _ => Ok (r, m, [])
  end.

(** An error that is reported to a connection without a hang-up is pending. *)
Definition raise (p : BReactor.progress) (m : gmap loc object) (k : kernel) : kernel :=
  match p with
  | BReactor.Called (BReactor.CallFd x evs) =>
      match container x ≫= fun y : loc * part => if decide (y.2 = P_bfd) then m !! y.1 else None with
      | Some (Connection o) =>
          if BReactor.has evs BReactor.BREACTOR_ERROR && negb (BReactor.has evs BReactor.BREACTOR_HUP)
          then mkKernel (open k) ({[fd o]} ∪ err k) else k
      | _ => k
      end
  | _ => k
  end.

(** What the handler called by an iteration of the event loop does. *)
Definition handle (p : BReactor.progress) (an : answers) (w : world) : outcome (world * list output) :=
  dispatch p an (reactor w) (objs w) ≫= fun '((r, m, out) : BReactor * gmap loc object * list output) =>
  kernel_steps (raise p (objs w) (kern w)) out ≫= fun k => Ok (mkWorld r m k, out).

(** ** Specification *)

(** One direction of a connection: nothing is asked for; an operation on a
    buffer is in progress; the system took or gave a number of bytes and that is to be
    reported; the end of the stream was read and is to be, or was, reported. *)
Inductive chan := Idle | Asked (data len : Z) | Took (n : Z) | AtEnd | Ended.
#[global] Instance chan_eq : EqDecision chan.
Proof. solve_decision. Defined.

(** [s_borrows] is the descriptor of the user that the connection uses. *)
Record sconn := mkSConn {
  s_handler : bool; s_error : bool; s_borrows : option Z; s_send : option chan; s_recv : option chan
}.
Inductive cphase := CWaiting | CReady | CFailed | CMoved.
#[global] Instance cphase_eq : EqDecision cphase.
Proof. solve_decision. Defined.
(** A listener has a connection that is ready to be accepted, or not. *)
Inductive sobj := SListener (ready : bool) | SConnector (p : cphase) | SConn (c : sconn).
Record spec := mkSpec { s_objs : gmap loc sobj; s_user : gset Z }.

Definition c_error c := mkSConn (s_handler c) true (s_borrows c) (s_send c) (s_recv c).
Definition c_handler h c := mkSConn h (s_error c) (s_borrows c) (s_send c) (s_recv c).
Definition c_send x c := mkSConn (s_handler c) (s_error c) (s_borrows c) x (s_recv c).
Definition c_recv x c := mkSConn (s_handler c) (s_error c) (s_borrows c) (s_send c) x.

Definition s_conn (S : spec) a : option sconn :=
  match s_objs S !! a with Some (SConn c) => Some c | _ => None end.
Definition s_put a (x : option sobj) (S : spec) : spec :=
  mkSpec (match x with Some o => <[a := o]> (s_objs S) | None => delete a (s_objs S) end) (s_user S).
Definition borrows_of (x : sobj) : option Z := match x with SConn c => s_borrows c | _ => None end.
Definition borrowed (S : spec) (fd : Z) : bool :=
  bool_decide (map_Exists (fun (_ : loc) x => borrows_of x = Some fd) (s_objs S)).
Definition fresh (S : spec) a : bool := bool_decide (s_objs S !! a = None).

(** The calls the user may make. *)
Definition may (S : spec) (u : user) : bool :=
  match u with
  | UListenerInit a _ | UConnectorInit a _ => fresh S a
  | UListenerFree a => match s_objs S !! a with Some (SListener _) => true | _ => false end
  | UConnectorFree a => match s_objs S !! a with Some (SConnector _) => true | _ => false end
  | UConnectionInit a source => fresh S a &&
      match source with
      | BCONNECTION_SOURCE_TYPE_LISTENER l _ => match s_objs S !! l with Some (SListener ready) => ready | _ => false end
      | BCONNECTION_SOURCE_TYPE_CONNECTOR c => match s_objs S !! c with Some (SConnector p) => bool_decide (p = CReady) | _ => false end
      | BCONNECTION_SOURCE_TYPE_PIPE fd _ => bool_decide (fd ∈ s_user S) && negb (borrowed S fd)
      end
  | UConnectionFree a => match s_conn S a with Some c => bool_decide (s_send c = None) && bool_decide (s_recv c = None) | None => false end
  | USetHandlers a _ | USetSendBuffer a _ => bool_decide (is_Some (s_conn S a))
  | USendInit a => match s_conn S a with Some c => negb (s_error c) && bool_decide (s_send c = None) | None => false end
  | USendFree a => match s_conn S a with Some c => bool_decide (s_send c <> None) | None => false end
  | USend a data len => match s_conn S a with
      Some c => negb (s_error c) && bool_decide (s_send c = Some Idle) && (0 <? len) && negb (data =? 0) | None => false end
  | URecvInit a => match s_conn S a with Some c => negb (s_error c) && bool_decide (s_recv c = None) | None => false end
  | URecvFree a => match s_conn S a with Some c => bool_decide (s_recv c <> None) | None => false end
  | URecv a data len => match s_conn S a with
      Some c => negb (s_error c) && bool_decide (s_recv c = Some Idle) && (0 <? len) && negb (data =? 0) | None => false end
  | UOpen _ | UOther _ => true
  | UClose fd => bool_decide (fd ∈ s_user S) && negb (borrowed S fd)
  end.

Definition s_update a (f : sconn -> sconn) (S : spec) : spec :=
  match s_conn S a with Some c => s_put a (Some (SConn (f c))) S | None => S end.
Definition drop_user (fd : Z) (S : spec) : spec := mkSpec (s_objs S) (s_user S ∖ {[fd]}).

(** What becomes of the source of a connection: the ready connection of a
    listener is used up, a connector gives its connection away, a descriptor
    that is to be closed no longer belongs to the user. *)
Definition use_source (source : BConnection_source) (S : spec) : spec :=
  match source with
  | BCONNECTION_SOURCE_TYPE_LISTENER l _ => s_put l (Some (SListener false)) S
  | BCONNECTION_SOURCE_TYPE_CONNECTOR c => s_put c (Some (SConnector CMoved)) S
  | BCONNECTION_SOURCE_TYPE_PIPE fd close_it => if close_it then drop_user fd S else S
  end.
Definition source_borrows (source : BConnection_source) : option Z :=
  match source with BCONNECTION_SOURCE_TYPE_PIPE fd false => Some fd | _ => None end.

Definition after_user (S : spec) (u : user) (ok : bool) : spec :=
  match u with
  | UListenerInit a _ => if ok then s_put a (Some (SListener false)) S else S
  | UConnectorInit a _ => if ok then s_put a (Some (SConnector CWaiting)) S else S
  | UConnectionInit a source =>
      let S := use_source source S in
      if ok then s_put a (Some (SConn (mkSConn true false (source_borrows source) None None))) S else S
  | UListenerFree a | UConnectorFree a | UConnectionFree a => s_put a None S
  | USetHandlers a h => s_update a (c_handler h) S
  | USetSendBuffer _ _ | UOther _ => S
  | USendInit a => s_update a (c_send (Some Idle)) S
  | USendFree a => s_update a (c_send None) S
  | USend a data len => s_update a (c_send (Some (Asked data len))) S
  | URecvInit a => s_update a (c_recv (Some Idle)) S
  | URecvFree a => s_update a (c_recv None) S
  | URecv a data len => s_update a (c_recv (Some (Asked data len))) S
  | UOpen fd => mkSpec (s_objs S) ({[fd]} ∪ s_user S)
  | UClose fd => drop_user fd S
  end.

(** What may be seen of a connection: nothing after an error; a system call is
    made for the operation in progress, with its buffer, and the number of
    bytes is reported to the user once, before the next operation. *)
Definition conn_output (c : sconn) (out : output) : option sconn :=
  if s_error c then None
  else match out with
  | HandlerError _ => if s_handler c then Some (c_error c) else None
  | HandlerClosed _ => if s_handler c && bool_decide (s_recv c = Some AtEnd) then Some (c_recv (Some Ended) c) else None
  | Write _ _ data len res =>
      if bool_decide (s_send c = Some (Asked data len)) then
        match res with Bytes n => if (0 <? n) && (n <=? len) then Some (c_send (Some (Took n)) c) else None | _ => Some c end
      else None
  | Read _ _ data len res =>
      if bool_decide (s_recv c = Some (Asked data len)) then
        match res with
        | Bytes n => if n =? 0 then Some (c_recv (Some AtEnd) c)
                     else if (0 <? n) && (n <=? len) then Some (c_recv (Some (Took n)) c) else None
        | _ => Some c
        end
      else None
  | SendDone _ n => if bool_decide (s_send c = Some (Took n)) then Some (c_send (Some Idle) c) else None
  | RecvDone _ n => if bool_decide (s_recv c = Some (Took n)) then Some (c_recv (Some Idle) c) else None
  | _ => None
  end.

Definition after_output (S : spec) (out : output) : option spec :=
  match out with
  | ListenerHandler a => match s_objs S !! a with Some (SListener false) => Some (s_put a (Some (SListener true)) S) | _ => None end
  | Discard a => match s_objs S !! a with Some (SListener true) => Some (s_put a (Some (SListener false)) S) | _ => None end
  | ConnectorHandler a e =>
      match s_objs S !! a with
      | Some (SConnector CWaiting) => Some (s_put a (Some (SConnector (if e then CFailed else CReady))) S)
      | _ => None
      end
  | HandlerError a | HandlerClosed a | SendDone a _ | RecvDone a _ | Write a _ _ _ _ | Read a _ _ _ _ =>
      s_conn S a ≫= fun c => conn_output c out ≫= fun c => Some (s_put a (Some (SConn c)) S)
  | Closed fd => if bool_decide (fd ∈ s_user S) then None else Some S
  | PeerAddr _ _ | Sys _ _ | Unlink _ | Opened _ => Some S
  end.

Inductive act := User (u : user) (ok : bool) | Out (out : output).

(** [UClose] makes the one system call that closes a descriptor of the user. *)
Definition spec_step (S : spec) (x : act) : option spec :=
  match x with
  | User u ok => if may S u then Some (after_user S u ok) else None
  | Out out => after_output S out
  end.
Fixpoint spec_run (S : spec) (tr : list act) : option spec :=
  match tr with [] => Some S | x :: tr => spec_step S x ≫= fun S => spec_run S tr end.

(** ** Runs *)

(** The operations of others on the reactor are not on parts of the objects. *)
Definition foreign (op : BReactor.operation) : bool :=
  match op with
  | BReactor.FdInit x | BReactor.AddFd x _ | BReactor.RemoveFd x | BReactor.SetFdEvents x _ | BReactor.CloseDescriptor x
  | BReactor.LimitInit x _ | BReactor.LimitFree x | BReactor.LimitIncrement x | BReactor.LimitSetLimit x _
  | BReactor.JobSet x | BReactor.JobUnset x => bool_decide (container x = None)
  | BReactor.TimerInit _ _ | BReactor.SetTimer _ _ _ _ | BReactor.RemoveTimer _ | BReactor.Quit _ => true
  end.
Definition user_allowed (S : spec) (w : world) (u : user) : Prop :=
  may S u = true /\
  match u with
  | UOther op => foreign op = true /\ BReactor.allowed (reactor w) op
  | UOpen fd => 0 <= fd /\ fd ∉ open (kern w)
  | _ => True
  end.

(** A connection whose error was reported is freed before anything else that
    was to be done is done, and handlers are set when something can happen. *)
Definition errors_handled r : Prop := forall a, head (BReactor.pending_jobs r) <> Some (field a P_err).
Definition handlers_set (S : spec) : Prop := forall a c, s_conn S a = Some c -> s_handler c = true.

Inductive step (S : spec) : Z -> world -> Z -> list act -> outcome world -> Prop :=
| step_user now w u an w' ok out :
    user_allowed S w u -> answers_ok (kern w) an -> user_step u an w = Ok (w', ok, out) ->
    step S now w now (User u ok :: map Out out) (Ok w')
| step_user_fault now w u an :
    user_allowed S w u -> answers_ok (kern w) an -> user_step u an w = Fault -> step S now w now [] Fault
| step_loop_fault now fin ws w :
    0 <= now <= fin -> BReactor.wait_allowed now fin ws (reactor w) -> errors_handled (reactor w) -> handlers_set S ->
    BReactor.exec_iteration now ws (reactor w) = Fault -> step S now w fin [] Fault
| step_loop now fin ws w r p an res :
    0 <= now <= fin -> BReactor.wait_allowed now fin ws (reactor w) -> errors_handled (reactor w) -> handlers_set S ->
    BReactor.exec_iteration now ws (reactor w) = Ok (r, p) -> answers_ok (raise p (objs w) (kern w)) an ->
    handle p an (mkWorld r (objs w) (kern w)) = res ->
    step S now w fin (match res with Ok (_, out) => map Out out | Fault => [] end)
      (res ≫= fun '((w', _) : world * list output) => Ok w').

Definition init_world : world := mkWorld BReactor.BReactor_Init ∅ (mkKernel ∅ ∅).
Definition init_spec : spec := mkSpec ∅ ∅.

Inductive run : list act -> Z -> outcome world -> Prop :=
| run_nil : run [] 0 (Ok init_world)
| run_step tr now w S now1 fin acts res :
    run tr now (Ok w) -> spec_run init_spec tr = Some S -> now <= now1 -> step S now1 w fin acts res ->
    run (tr ++ acts) fin res.

End sockets.
End Sockets.
