(* ===== verification/ConnectionProofs.v ===== *)
(** Proofs about the sockets of Connection.v: what an object sees of the event
    loop ([view_of]), that every function changes the view of its own object
    only, the invariant of each kind of object, and that the runs of the
    system refine the specification. *)
From Stdlib Require Import ZArith Lia.
From stdpp Require Import base tactics numbers option countable gmap list.
From S2P Require Import Prelude LinkedList Bavl Trees Reactor Addr FlowInterfaces Connection.

Module SocketProofs.
Import Sockets StreamInterface.

(** ** Addresses of parts *)
Lemma container_field a p : container (field a p) = Some (a, p).
Proof. unfold container, field. rewrite decode_encode. cbn. by rewrite decide_True. Qed.
Lemma container_inv x a p : container x = Some (a, p) -> x = field a p.
Proof. unfold container. destruct (decode x) as [y|]; [|done]. cbn. case_decide; [|done]. intros [= ->]. done. Qed.
Lemma field_inj a p b q : field a p = field b q -> a = b /\ p = q.
Proof. unfold field. intros H%(inj encode). by injection H. Qed.
Lemma field_ne a p b q : p <> q \/ a <> b -> field a p <> field b q.
Proof. intros H [? ?]%field_inj. naive_solver. Qed.
#[export] Hint Resolve field_ne : vpn.

(** Addresses of sockets are converted without loss. *)
Lemma addr_roundtrip addr s : match addr with BAddr.BADDR_IPV6 ip _ => length ip = 16%nat | _ => True end ->
  addr_socket_to_sys addr = Ok s -> valid_sys_addr s /\ addr_sys_to_socket s = Ok addr.
Proof.
  intros Hip E. destruct addr as [|ip port|ip port|]; cbn in E; try done; injection E as <-; (split; [done|]); cbn; [done|].
  unfold BAddr.BAddr_InitIPv6, BAddr.BAddr_MakeIPv6. by rewrite take_ge by lia.
Qed.

(** The parts of the object at [a] in a list of jobs. *)
Definition part_in (a x : loc) : option part :=
  container x ≫= fun y : loc * part => if decide (y.1 = a) then Some y.2 else None.
Definition parts (a : loc) (l : list loc) : list part := omap (part_in a) l.

Lemma part_in_field a b p : part_in a (field b p) = if decide (b = a) then Some p else None.
Proof. unfold part_in. by rewrite container_field. Qed.
Lemma part_in_Some a x p : part_in a x = Some p <-> x = field a p.
Proof.
  split; [|intros ->; by rewrite part_in_field, decide_True]. unfold part_in. destruct (container x) as [[b q]|] eqn:E; [|done].
  cbn. case_decide; [|done]. intros [= ->]. subst b. by apply container_inv.
Qed.
Lemma part_in_foreign a x : container x = None -> part_in a x = None.
Proof. unfold part_in. by intros ->. Qed.
Lemma elem_of_parts a p l : p ∈ parts a l <-> field a p ∈ l.
Proof.
  unfold parts. rewrite list_elem_of_omap. split; [|intros H; exists (field a p); by rewrite part_in_field, decide_True].
  intros (x & Hx & H%part_in_Some). by subst.
Qed.
Lemma parts_cons a x l : parts a (x :: l) = match part_in a x with Some p => p :: parts a l | None => parts a l end.
Proof. done. Qed.
Lemma NoDup_parts a l : NoDup l -> NoDup (parts a l).
Proof.
  induction 1 as [|x l Hx _ IH]; [constructor|]. rewrite parts_cons. destruct (part_in a x) as [p|] eqn:E; [|done].
  apply part_in_Some in E as ->. apply NoDup_cons. by rewrite elem_of_parts.
Qed.
Lemma parts_unset_other a x l : part_in a x = None -> parts a (job_unset x l) = parts a l.
Proof.
  intros Hx. unfold job_unset. induction l as [|y l IH]; [done|]. cbn [LinkedList1.remove_node]. rewrite parts_cons.
  case_decide as E; [subst; by rewrite Hx|]. by rewrite parts_cons, IH.
Qed.
Lemma filter_id {A} (P : A -> Prop) `{!forall x, Decision (P x)} (l : list A) : (forall x, x ∈ l -> P x) -> filter P l = l.
Proof.
  induction l as [|x l IH]; intros Hl; [done|]. rewrite filter_cons_True by (apply Hl; by left). f_equal. apply IH. intros y Hy. apply Hl. by right.
Qed.
Lemma parts_unset a p l : NoDup l -> parts a (job_unset (field a p) l) = filter (fun q => q <> p) (parts a l).
Proof.
  unfold job_unset. induction 1 as [|y l Hy Hl IH]; [done|]. cbn [LinkedList1.remove_node]. rewrite parts_cons.
  case_decide as E.
  - subst y. rewrite part_in_field, decide_True by done. rewrite filter_cons_False by naive_solver. symmetry. apply filter_id.
    intros q Hq%elem_of_parts ->. done.
  - rewrite parts_cons, IH. destruct (part_in a y) as [q|] eqn:Eq; [|done]. apply part_in_Some in Eq as ->.
    rewrite filter_cons_True; [done|]. intros ->. done.
Qed.
Lemma parts_set_other a x l : part_in a x = None -> parts a (job_set x l) = parts a l.
Proof. intros Hx. unfold job_set. rewrite parts_cons, Hx. by apply parts_unset_other. Qed.
Lemma parts_set a p l : NoDup l -> parts a (job_set (field a p) l) = p :: filter (fun q => q <> p) (parts a l).
Proof. intros Hl. unfold job_set. rewrite parts_cons, part_in_field, decide_True by done. f_equal. by apply parts_unset. Qed.

(** ** What an object sees of the event loop *)
Section proofs.
Context {T : Type} `{!Tree BReactor.compare_timers T, !OrderedTree BReactor.compare_timers T}.
Abbreviation reactor_t := (BReactor.BReactor (T := T)).
Implicit Types (r : reactor_t) (a b : loc).

(** The events a descriptor is registered for. *)
Definition fd_of r (x : loc) : option Z :=
  BReactor.fds r !! x ≫= fun f => if BReactor.active f then Some (BReactor.waitEvents f) else None.
Definition has_limit r (x : loc) : bool := bool_decide (is_Some (BReactor.limits r !! x)).

Record same r r' : Prop := {
  same_fd : forall x, fd_of r' x = fd_of r x;
  same_limit : forall x, has_limit r' x = has_limit r x;
  same_jobs : BReactor.pending_jobs r' = BReactor.pending_jobs r
}.
Lemma same_refl r : same r r.
Proof. by constructor. Qed.
Lemma same_trans r1 r2 r3 : same r1 r2 -> same r2 r3 -> same r1 r3.
Proof. intros [A B C] [A' B' C']. constructor; [intros x; by rewrite A', A|intros x; by rewrite B', B|by rewrite C', C]. Qed.
#[local] Hint Resolve same_refl same_trans : vpn.

(** Takes a successful computation of the reactor apart. *)
Ltac ok_cases :=
  repeat match goal with
  | H : Fault = Ok _ |- _ => discriminate H
  | H : Ok _ = Ok _ |- _ => injection H as ?; subst
  | H : (_ ≫= _) = Ok _ |- _ => apply bind_Ok in H as (? & ? & H)
  | H : ASSERT _ = Ok _ |- _ => apply ASSERT_Ok in H
  | H : of_option ?o = Ok _ |- _ => destruct o eqn:?; cbn in H
  | H : context [let '(_, _) := ?x in _] |- _ => destruct x
  | H : (if ?b then _ else _) = Ok _ |- _ => destruct b eqn:?
  | H : match ?x with _ => _ end = Ok _ |- _ => destruct x eqn:?
  end.

Lemma put_state_same x s r r' : BReactor.put_state x s r = Ok r' -> same r r'.
Proof. unfold BReactor.put_state, BReactor.get_timer. intros. ok_cases. by constructor. Qed.
Lemma move_timer_same x r r' : BReactor.move_timer x r = Ok r' -> same r r'.
Proof. unfold BReactor.move_timer. intros. ok_cases. eapply same_trans; [|by eapply put_state_same]. by constructor. Qed.
Lemma move_expired_loop_same n now : forall mv r r' mv', BReactor.move_expired_loop n now mv r = Ok (r', mv') -> same r r'.
Proof.
  induction n as [|n IH]; intros mv r r' mv' H; [done|]. cbn in H. unfold BReactor.get_timer in H. ok_cases; eauto using move_timer_same with vpn.
Qed.
Lemma move_first_loop_same n t : forall r r', BReactor.move_first_loop n t r = Ok r' -> same r r'.
Proof.
  induction n as [|n IH]; intros r r' H; [done|]. cbn in H. unfold BReactor.get_timer in H. ok_cases; eauto using move_timer_same with vpn.
Qed.
Lemma move_first_timers_same r r' : BReactor.move_first_timers r = Ok r' -> same r r'.
Proof. unfold BReactor.move_first_timers, BReactor.get_timer. intros. ok_cases. eauto using move_timer_same, move_first_loop_same with vpn. Qed.
Lemma reset_limits_same n : forall r r', BReactor.reset_limits n r = Ok r' -> same r r'.
Proof.
  induction n as [|n IH]; intros r r' H; cbn in H; unfold BReactor.get_limit in H; ok_cases; auto with vpn.
  eapply same_trans; [|by eapply IH]. constructor; [done| |done]. intros z. unfold has_limit. cbn. apply bool_decide_ext.
  rewrite lookup_insert_is_Some. match goal with |- ?y = z \/ _ <-> _ => destruct (decide (y = z)) as [<-|] end; naive_solver.
Qed.
Lemma put_returned_same x p r r' : BReactor.put_returned x p r = Ok r' -> same r r'.
Proof.
  unfold BReactor.put_returned, BReactor.get_fd. intros. ok_cases. constructor; [|done|done]. intros y. unfold fd_of. cbn.
  destruct (decide (x = y)) as [<-|Hne]; [|by rewrite lookup_insert_ne]. rewrite lookup_insert_eq. by match goal with H : _ = Some _ |- _ => rewrite H end.
Qed.
Lemma set_epoll_fd_pointers_same es : forall i r r', BReactor.set_epoll_fd_pointers i es r = Ok r' -> same r r'.
Proof.
  induction es as [|e es IH]; intros i r r' H; cbn in H; ok_cases; eauto using put_returned_same with vpn.
Qed.
Lemma set_results_same l pos r : same r (BReactor.set_results l pos r).
Proof. by constructor. Qed.
Lemma wait_loop_same ws : forall t now r m, BReactor.wait_loop ws t now r = Ok m -> from_option (same r) True m.
Proof.
  induction ws as [|w ws IH]; intros t now r m H; cbn in H; [by injection H as <-|].
  unfold BReactor.try_again in H. destruct w; ok_cases; cbn; eauto using move_first_timers_same.
  eapply same_trans; [apply set_results_same|]. by eapply set_epoll_fd_pointers_same.
Qed.
Lemma wait_for_events_same now ws r r' d : BReactor.wait_for_events now ws r = Ok (r', d) -> same r r'.
Proof.
  unfold BReactor.wait_for_events, BReactor.get_timer, BReactor.move_expired_timers. intros H. ok_cases.
  all: repeat match goal with
  | H : BReactor.wait_loop _ _ _ _ = Ok _ |- _ => apply wait_loop_same in H; cbn in H
  | H : BReactor.reset_limits _ _ = Ok _ |- _ => apply reset_limits_same in H
  | H : BReactor.move_expired_loop _ _ _ _ = Ok _ |- _ => apply move_expired_loop_same in H
  end; eauto using set_results_same with vpn.
Qed.
Lemma dispatch_fd_same e r r' p : BReactor.dispatch_fd e r = Ok (r', p) -> same r r'.
Proof.
  unfold BReactor.dispatch_fd, BReactor.get_fd. intros H. ok_cases; eauto using set_results_same, put_returned_same with vpn.
Qed.
Lemma set_jobs_fd l r x : fd_of (BReactor.set_jobs l r) x = fd_of r x.
Proof. done. Qed.

(** An iteration leaves the registrations as they are, and takes the job it
    calls from the group. *)
Lemma exec_iteration_same now ws r r' p : BReactor.exec_iteration now ws r = Ok (r', p) ->
  match p with
  | BReactor.Called (BReactor.CallJob x) => BReactor.pending_jobs r = x :: BReactor.pending_jobs r' /\ r' = BReactor.set_jobs (BReactor.pending_jobs r') r
  | _ => same r r'
  end.
Proof.
  unfold BReactor.exec_iteration, BReactor.get_timer. intros H. ok_cases; auto with vpn.
  all: try (match goal with H : BReactor.put_state _ _ _ = Ok _ |- _ => apply put_state_same in H end;
    eapply same_trans; [|eassumption]; by constructor).
  - match goal with H : BReactor.dispatch_fd _ _ = Ok _ |- _ => pose proof (dispatch_fd_same _ _ _ _ H); unfold BReactor.dispatch_fd in H end.
    ok_cases; [|done]. by match goal with |- context [if ?b then _ else _] => destruct b end.
  - match goal with H : BReactor.wait_for_events _ _ _ = Ok _ |- _ => apply wait_for_events_same in H end.
    by match goal with |- context [if ?b then _ else _] => destruct b end.
Qed.

Record view := mkView { v_fd : option Z; v_slimit : bool; v_rlimit : bool; v_jobs : list part }.
Definition view_of r a : view :=
  mkView (fd_of r (field a P_bfd)) (has_limit r (field a P_send_limit)) (has_limit r (field a P_recv_limit)) (parts a (BReactor.pending_jobs r)).
Definition v_put_fd x v := mkView x (v_slimit v) (v_rlimit v) (v_jobs v).
Definition v_put_jobs l v := mkView (v_fd v) (v_slimit v) (v_rlimit v) l.

Lemma v_put_fd_id x v : v_fd v = x -> v_put_fd x v = v.
Proof. intros <-. by destruct v. Qed.

Definition only a r r' : Prop := forall b, b <> a -> view_of r' b = view_of r b.
Lemma only_refl a r : only a r r.
Proof. done. Qed.
Lemma only_trans a r1 r2 r3 : only a r1 r2 -> only a r2 r3 -> only a r1 r3.
Proof. intros H H' b Hb. by rewrite H', H. Qed.

Lemma same_view r r' a : same r r' -> view_of r' a = view_of r a.
Proof. intros [H1 H2 H3]. unfold view_of. by rewrite H1, !H2, H3. Qed.

(** A function of the reactor, called for the object at [a], succeeds, changes
    what [a] sees to [v] and nothing else. *)
Definition yields (now : Z) a r (m : outcome reactor_t) (v : view) : Prop :=
  exists r', m = Ok r' /\ BReactor.inv now r' /\ view_of r' a = v /\ only a r r'.

Lemma perform_yields now a r op v : BReactor.inv now r -> BReactor.allowed r op ->
  (forall r', BReactor.perform op r = Ok r' -> view_of r' a = v /\ only a r r') -> yields now a r (BReactor.perform op r) v.
Proof. intros Hi Ha H. destruct (BReactor.perform_ok now r op Hi Ha) as (r' & E & Hi'). exists r'. destruct (H r' E). auto. Qed.

Lemma active_fd r x w : fd_of r x = Some w -> exists f, BReactor.fds r !! x = Some f /\ BReactor.active f = true /\ BReactor.waitEvents f = w.
Proof. unfold fd_of. intros H. destruct (BReactor.fds r !! x) as [f|]; [|done]. cbn in H. destruct (BReactor.active f) eqn:E; [|done]. exists f. by injection H. Qed.
Lemma inactive_fd r x : fd_of r x = None -> ~ BReactor.is_active r x.
Proof. unfold fd_of. intros H (f & Hf & Ha). rewrite Hf in H. cbn in H. by rewrite Ha in H. Qed.

Lemma fds_view r a m x :
  (forall y, y <> field a P_bfd -> m !! y = BReactor.fds r !! y) -> fd_of (BReactor.set_fds m r) (field a P_bfd) = x ->
  view_of (BReactor.set_fds m r) a = v_put_fd x (view_of r a) /\ only a r (BReactor.set_fds m r).
Proof.
  intros Hm Hx. unfold view_of, v_put_fd. cbn. split; [by rewrite Hx|]. intros b Hb. unfold view_of. f_equal. unfold fd_of. cbn.
  rewrite Hm by auto with vpn. done.
Qed.

Lemma set_events_ok now a r w w0 : BReactor.inv now r -> v_fd (view_of r a) = Some w0 -> 0 <= w <= 3 ->
  yields now a r (BReactor.BReactor_SetFileDescriptorEvents (field a P_bfd) w r) (v_put_fd (Some w) (view_of r a)).
Proof.
  intros Hi Hv Hw. destruct (active_fd _ _ _ Hv) as (f & Hf & Hact & Hwf).
  apply (perform_yields now a r (BReactor.SetFdEvents (field a P_bfd) w)); [done|split; [by exists f|done]|].
  intros r' H. cbn in H. unfold BReactor.BReactor_SetFileDescriptorEvents, BReactor.get_fd in H. rewrite Hf in H. cbn in H.
  ok_cases; zify_bool.
  - split; [|apply only_refl]. by rewrite v_put_fd_id by congruence.
  - apply fds_view; [intros y Hy; by rewrite lookup_insert_ne|]. unfold fd_of. cbn. rewrite lookup_insert_eq. cbn. by rewrite Hact.
Qed.

Lemma set_results_view l pos r r0 a v : view_of r a = v /\ only a r0 r ->
  view_of (BReactor.set_results l pos r) a = v /\ only a r0 (BReactor.set_results l pos r).
Proof. intros H. exact H. Qed.

Lemma remove_fd_yields now a r w0 : BReactor.inv now r -> v_fd (view_of r a) = Some w0 ->
  yields now a r (BReactor.BReactor_RemoveFileDescriptor (field a P_bfd) r) (v_put_fd None (view_of r a)).
Proof.
  intros Hi Hv. destruct (active_fd _ _ _ Hv) as (f & Hf & Hact & Hwf).
  apply (perform_yields now a r (BReactor.RemoveFd (field a P_bfd))); [done|by exists f|].
  intros r' H. cbn in H. unfold BReactor.BReactor_RemoveFileDescriptor, BReactor.get_fd in H. rewrite Hf in H. cbn in H.
  ok_cases; try apply set_results_view; (apply fds_view; [intros y Hy; by rewrite lookup_insert_ne|unfold fd_of; cbn; by rewrite lookup_insert_eq]).
Qed.

Lemma add_bfd_ok now a r an : BReactor.inv now r -> v_fd (view_of r a) = None ->
  exists r', add_bfd a an r = Ok (r', a_add an) /\ BReactor.inv now r' /\ only a r r' /\
    view_of r' a = v_put_fd (if a_add an then Some 0 else None) (view_of r a).
Proof.
  intros Hi Hv. pose proof (inactive_fd _ _ Hv) as Hin.
  destruct (BReactor.perform_ok now r (BReactor.FdInit (field a P_bfd)) Hi Hin) as (r1 & E1 & Hi1). cbn in E1. injection E1 as <-.
  set (r1 := BReactor.BFileDescriptor_Init (field a P_bfd) r) in *.
  assert (view_of r1 a = view_of r a /\ only a r r1) as [Hv1 Ho1].
  { rewrite <- (v_put_fd_id None (view_of r a)) at 1 by done.
    apply fds_view; [intros y Hy; by rewrite lookup_insert_ne|]. unfold fd_of. cbn. by rewrite lookup_insert_eq. }
  assert (exists f, BReactor.fds r1 !! field a P_bfd = Some f /\ BReactor.active f = false) as (f & Hf & Hact)
    by (eexists; cbn; by rewrite lookup_insert_eq).
  assert (BReactor.allowed r1 (BReactor.AddFd (field a P_bfd) (a_add an))) as Hal.
  { split; [by rewrite Hf|]. intros (g & Hg & ?). rewrite Hf in Hg. injection Hg as <-. congruence. }
  destruct (BReactor.perform_ok now r1 _ Hi1 Hal) as (r' & E & Hi'). cbn in E. unfold add_bfd. fold r1.
  unfold BReactor.BReactor_AddFileDescriptor, BReactor.get_fd in E |- *. rewrite Hf in E |- *. cbn in E |- *. rewrite Hact in E |- *. cbn in E |- *.
  rewrite (BReactor.fi_epoll _ _ _ (BReactor.inv_fds _ _ Hi1) _ _ Hf), Hact, andb_true_r in E |- *.
  destruct (a_add an); injection E as <-; eexists; (split; [done|]); (split; [done|]).
  - destruct (fds_view r1 a (<[field a P_bfd := BReactor.mkFd true 0 None true]> (BReactor.fds r1)) (Some 0)) as [Hv2 Ho2].
    { intros y Hy. by rewrite lookup_insert_ne. }
    { unfold fd_of. cbn. by rewrite lookup_insert_eq. }
    split; [exact (only_trans _ _ _ _ Ho1 Ho2)|]. rewrite <- Hv1. exact Hv2.
  - split; [done|]. by rewrite Hv1, v_put_fd_id.
Qed.

Definition v_put_limit (p : part) (x : bool) v : view :=
  match p with P_send_limit => mkView (v_fd v) x (v_rlimit v) (v_jobs v) | _ => mkView (v_fd v) (v_slimit v) x (v_jobs v) end.
Definition v_limit (p : part) v : bool := match p with P_send_limit => v_slimit v | _ => v_rlimit v end.
Definition is_limit (p : part) : Prop := p = P_send_limit \/ p = P_recv_limit.

Lemma has_limit_Some r x : has_limit r x = true <-> is_Some (BReactor.limits r !! x).
Proof. apply bool_decide_eq_true. Qed.
Lemma has_limit_None r x : has_limit r x = false <-> BReactor.limits r !! x = None.
Proof. unfold has_limit. rewrite bool_decide_eq_false. by rewrite eq_None_not_Some. Qed.
Lemma view_limit r a p : is_limit p -> v_limit p (view_of r a) = has_limit r (field a p).
Proof. by intros [-> | ->]. Qed.

Lemma limits_view r a p l m x : is_limit p -> (forall y, y <> field a p -> m !! y = BReactor.limits r !! y) ->
  bool_decide (is_Some (m !! field a p)) = x ->
  view_of (BReactor.set_limits l m r) a = v_put_limit p x (view_of r a) /\ only a r (BReactor.set_limits l m r).
Proof.
  intros Hp Hm Hx. split.
  - unfold view_of, has_limit. cbn. destruct Hp as [-> | ->]; cbn; rewrite Hx; f_equal; apply bool_decide_ext; by rewrite Hm by auto with vpn.
  - intros b Hb. unfold view_of, has_limit. cbn. f_equal; apply bool_decide_ext; by rewrite Hm by auto with vpn.
Qed.

Lemma limit_init_ok now a r p n : BReactor.inv now r -> is_limit p -> 0 < n -> v_limit p (view_of r a) = false ->
  yields now a r (BReactor.BReactorLimit_Init (field a p) n r) (v_put_limit p true (view_of r a)).
Proof.
  intros Hi Hp Hn Hv. rewrite view_limit in Hv by done. apply has_limit_None in Hv.
  apply (perform_yields now a r (BReactor.LimitInit (field a p) n)); [done|done|].
  intros r' H. cbn in H. unfold BReactor.BReactorLimit_Init in H. ok_cases. apply limits_view; [done|intros y Hy; by rewrite lookup_insert_ne|].
  by rewrite lookup_insert_eq.
Qed.

Lemma limit_free_yields now a r p : BReactor.inv now r -> is_limit p -> v_limit p (view_of r a) = true ->
  yields now a r (BReactor.BReactorLimit_Free (field a p) r) (v_put_limit p false (view_of r a)).
Proof.
  intros Hi Hp Hv. rewrite view_limit in Hv by done. apply has_limit_Some in Hv.
  apply (perform_yields now a r (BReactor.LimitFree (field a p))); [done|done|].
  intros r' H. cbn in H. unfold BReactor.BReactorLimit_Free, BReactor.get_limit in H. ok_cases; (apply limits_view; [done|intros y Hy; by rewrite lookup_delete_ne|]);
  by rewrite lookup_delete_eq.
Qed.

Lemma v_put_limit_id p x v : v_limit p v = x -> v_put_limit p x v = v.
Proof. intros <-. by destruct v, p. Qed.

Lemma limit_increment_view now a r p : BReactor.inv now r -> is_limit p -> v_limit p (view_of r a) = true ->
  exists r' go, BReactor.BReactorLimit_Increment (field a p) r = Ok (r', go) /\ BReactor.inv now r' /\ view_of r' a = view_of r a /\ only a r r'.
Proof.
  intros Hi Hp Hv. pose proof Hv as Hl. rewrite view_limit in Hl by done. apply has_limit_Some in Hl.
  destruct (BReactor.perform_ok now r (BReactor.LimitIncrement (field a p)) Hi Hl) as (r' & E & Hi').
  cbn in E. apply bind_Ok in E as ([r1 go] & E & [= ->]). exists r', go. do 2 (split; [done|]).
  unfold BReactor.BReactorLimit_Increment, BReactor.get_limit in E. ok_cases; [done|].
  rewrite <- (v_put_limit_id p true (view_of r a)) by done. apply limits_view; [done|intros y Hy; by rewrite lookup_insert_ne|by rewrite lookup_insert_eq].
Qed.

(** Jobs. *)
Lemma view_set_jobs r a l : view_of (BReactor.set_jobs l r) a = v_put_jobs (parts a l) (view_of r a).
Proof. done. Qed.
Definition without (p : part) (l : list part) : list part := filter (fun q => q <> p) l.
#[local] Arguments without : simpl never.
#[local] Arguments parts : simpl never.

Lemma BPending_Set_ok now a r p : BReactor.inv now r ->
  BReactor.inv now (BPending_Set (field a p) r) /\ only a r (BPending_Set (field a p) r) /\
  view_of (BPending_Set (field a p) r) a = v_put_jobs (p :: without p (v_jobs (view_of r a))) (view_of r a).
Proof.
  intros Hi. pose proof (BReactor.inv_jobs _ _ Hi) as Hn. unfold BPending_Set. split; [apply BReactor.inv_set_jobs; auto with vpn|].
  split; [|by rewrite view_set_jobs, parts_set]. intros b Hb. rewrite view_set_jobs, parts_set_other; [done|].
  by rewrite part_in_field, decide_False.
Qed.
Lemma BPending_Free_ok now a r p : BReactor.inv now r ->
  BReactor.inv now (BPending_Free (field a p) r) /\ only a r (BPending_Free (field a p) r) /\
  view_of (BPending_Free (field a p) r) a = v_put_jobs (without p (v_jobs (view_of r a))) (view_of r a).
Proof.
  intros Hi. pose proof (BReactor.inv_jobs _ _ Hi) as Hn. unfold BPending_Free. split; [apply BReactor.inv_set_jobs; auto with vpn|].
  split; [|by rewrite view_set_jobs, parts_unset]. intros b Hb. rewrite view_set_jobs, parts_unset_other; [done|].
  by rewrite part_in_field, decide_False.
Qed.
Lemma BPending_IsSet_view r a p : BPending_IsSet (field a p) r = bool_decide (p ∈ v_jobs (view_of r a)).
Proof. unfold BPending_IsSet. apply bool_decide_ext. cbn. by rewrite elem_of_parts. Qed.
Lemma NoDup_jobs now r a : BReactor.inv now r -> NoDup (v_jobs (view_of r a)).
Proof. intros Hi. apply NoDup_parts, (BReactor.inv_jobs _ _ Hi). Qed.
Lemma elem_of_without p q l : q ∈ without p l <-> q ∈ l /\ q <> p.
Proof. unfold without. rewrite list_elem_of_filter. naive_solver. Qed.

(** ** The invariant of a connection *)
Definition waiting (ev : Z) (o : BConnection) : bool := negb (is_hupd o) && BReactor.has (wait_events o) ev.

Definition iface_ok a (pop pdone : part) (i : StreamRecvInterface) : Prop :=
  StreamInterface.handler_done i = true /\ job_operation i = field a pop /\ job_done i = field a pdone.

(** The interface when no operation was handed to the connection, and when one
    was. *)
Definition ready_inv (pop pdone : part) (jobs : list part) (i : StreamRecvInterface) (x : option chan) : Prop :=
  match state i with
  | STATE_NONE => x = Some Idle /\ pop ∉ jobs /\ pdone ∉ jobs
  | STATE_OPERATION_PENDING =>
      x = Some (Asked (job_operation_data i) (job_operation_len i)) /\ 0 < job_operation_len i /\ pop ∈ jobs /\ pdone ∉ jobs
  | STATE_BUSY => False
  | STATE_DONE_PENDING => x = Some (Took (job_done_len i)) /\ pop ∉ jobs /\ pdone ∈ jobs
  end.
Definition busy_inv (pop pdone : part) (jobs : list part) (i : StreamRecvInterface) (x : option chan) (data len : Z) : Prop :=
  state i = STATE_BUSY /\ x = Some (Asked data len) /\ 0 < len /\ len = job_operation_len i /\ pop ∉ jobs /\ pdone ∉ jobs.

(** An operation that was handed to the connection is one that the descriptor
    is waited for with, unless an error was reported. *)
Definition send_inv a (v : view) (o : BConnection) (c : sconn) : Prop :=
  let i := siface (send o) in
  match sstate (send o) with
  | SEND_STATE_NOT_INITED => s_send c = None /\ P_send_op ∉ v_jobs v /\ P_send_done ∉ v_jobs v /\ waiting BReactor.BREACTOR_WRITE o = false
  | SEND_STATE_READY => iface_ok a P_send_op P_send_done i /\ ready_inv P_send_op P_send_done (v_jobs v) i (s_send c) /\
      waiting BReactor.BREACTOR_WRITE o = false
  | SEND_STATE_BUSY => iface_ok a P_send_op P_send_done i /\
      busy_inv P_send_op P_send_done (v_jobs v) i (s_send c) (sbusy_data (send o)) (sbusy_data_len (send o)) /\
      (s_error c = false -> waiting BReactor.BREACTOR_WRITE o = true)
  end.

(** The same for receiving, where the job may stand for the wait; both at once
    only while an error is pending ([e]). *)
Definition recv_inv a (v : view) (e : bool) (o : BConnection) (c : sconn) : Prop :=
  let i := riface (recv o) in
  match rstate (recv o) with
  | RECV_STATE_NOT_INITED => s_recv c = None /\ P_recv_op ∉ v_jobs v /\ P_recv_done ∉ v_jobs v /\ P_recv_job ∉ v_jobs v /\
      waiting BReactor.BREACTOR_READ o = false
  | RECV_STATE_READY => iface_ok a P_recv_op P_recv_done i /\ ready_inv P_recv_op P_recv_done (v_jobs v) i (s_recv c) /\
      P_recv_job ∉ v_jobs v /\ waiting BReactor.BREACTOR_READ o = false
  | RECV_STATE_BUSY => iface_ok a P_recv_op P_recv_done i /\
      busy_inv P_recv_op P_recv_done (v_jobs v) i (s_recv c) (rbusy_data (recv o)) (rbusy_data_avail (recv o)) /\
      (s_error c = false -> P_recv_job ∈ v_jobs v \/ waiting BReactor.BREACTOR_READ o = true) /\
      (s_error c = false -> P_recv_job ∈ v_jobs v -> waiting BReactor.BREACTOR_READ o = true -> e = true)
  | RECV_STATE_INITED_CLOSED => iface_ok a P_recv_op P_recv_done i /\ s_recv c = Some Ended /\
      P_recv_op ∉ v_jobs v /\ P_recv_done ∉ v_jobs v /\ P_recv_job ∉ v_jobs v /\ waiting BReactor.BREACTOR_READ o = false
  | RECV_STATE_NOT_INITED_CLOSED => False
  end.

Definition conn_parts : list part := [P_send_op; P_send_done; P_recv_job; P_recv_op; P_recv_done; P_err].

(** What does not concern the directions. *)
Record base_inv (v : view) (o : BConnection) (c : sconn) : Prop := {
  ci_handler : handler o = s_handler c;
  ci_borrow : s_borrows c = if close_fd o then None else Some (fd o);
  ci_limits : v_slimit v = true /\ v_rlimit v = true;
  ci_fd : v_fd v = if is_hupd o then None else Some (wait_events o);
  ci_wait : 0 <= wait_events o <= 3;
  ci_error : if s_error c then head (v_jobs v) = Some P_err else P_err ∉ v_jobs v;
  ci_parts : forall p, p ∈ v_jobs v -> p ∈ conn_parts
}.
Record conn_inv a (v : view) (e : bool) (o : BConnection) (c : sconn) : Prop := {
  ci_base : base_inv v o c; ci_send : send_inv a v o c; ci_recv : recv_inv a v e o c
}.

Lemma ready_frame pop pdone jobs jobs' i x : (forall p, p = pop \/ p = pdone -> (p ∈ jobs' <-> p ∈ jobs)) ->
  ready_inv pop pdone jobs i x -> ready_inv pop pdone jobs' i x.
Proof. intros H. unfold ready_inv. pose proof (H pop (or_introl eq_refl)). pose proof (H pdone (or_intror eq_refl)). destruct (state i); naive_solver. Qed.
Lemma busy_frame pop pdone jobs jobs' i x d n : (forall p, p = pop \/ p = pdone -> (p ∈ jobs' <-> p ∈ jobs)) ->
  busy_inv pop pdone jobs i x d n -> busy_inv pop pdone jobs' i x d n.
Proof. intros H. unfold busy_inv. pose proof (H pop (or_introl eq_refl)). pose proof (H pdone (or_intror eq_refl)). naive_solver. Qed.

Definition send_parts (p : part) : Prop := p = P_send_op \/ p = P_send_done.
Definition recv_parts (p : part) : Prop := p = P_recv_op \/ p = P_recv_done \/ p = P_recv_job.

Lemma send_frame a v v' o o' c c' : send_inv a v o c -> (forall p, send_parts p -> (p ∈ v_jobs v' <-> p ∈ v_jobs v)) ->
  send o' = send o -> waiting BReactor.BREACTOR_WRITE o' = waiting BReactor.BREACTOR_WRITE o -> s_send c' = s_send c ->
  (s_error c' = false -> s_error c = false) -> send_inv a v' o' c'.
Proof.
  intros H Hp Hs Hw Hc He. unfold send_inv in *. rewrite Hs, Hw, Hc.
  pose proof (Hp P_send_op (or_introl eq_refl)). pose proof (Hp P_send_done (or_intror eq_refl)).
  destruct (sstate (send o)); [naive_solver|..]; destruct H as (? & ? & ?); split_and!; eauto using ready_frame, busy_frame.
Qed.
Lemma recv_frame a v v' e e' o o' c c' : recv_inv a v e o c -> (forall p, recv_parts p -> (p ∈ v_jobs v' <-> p ∈ v_jobs v)) ->
  recv o' = recv o -> waiting BReactor.BREACTOR_READ o' = waiting BReactor.BREACTOR_READ o -> s_recv c' = s_recv c ->
  (s_error c' = false -> s_error c = false /\ (e = true -> e' = true)) -> recv_inv a v' e' o' c'.
Proof.
  intros H Hp Hs Hw Hc He. unfold recv_inv in *. rewrite Hs, Hw, Hc.
  pose proof (Hp P_recv_op (or_introl eq_refl)). pose proof (Hp P_recv_done (or_intror (or_introl eq_refl))). pose proof (Hp P_recv_job (or_intror (or_intror eq_refl))).
  assert (forall p, p = P_recv_op \/ p = P_recv_done -> (p ∈ v_jobs v' <-> p ∈ v_jobs v)) as Hp' by (intros p [-> | ->]; auto).
  destruct (rstate (recv o)); try done; [naive_solver|..]; repeat match goal with H : _ /\ _ |- _ => destruct H end; split_and!; eauto using ready_frame, busy_frame; naive_solver.
Qed.

(** Event masks. *)
Lemma has_bit w k : 0 <= k -> BReactor.has w (2 ^ k) = Z.testbit w k.
Proof.
  intros Hk. unfold BReactor.has. destruct (Z.testbit w k) eqn:E.
  - apply negb_true_iff, Z.eqb_neq. intros H. apply (f_equal (fun x => Z.testbit x k)) in H.
    rewrite Z.land_spec, E, Z.pow2_bits_true, Z.bits_0 in H by done. done.
  - apply negb_false_iff, Z.eqb_eq. apply Z.bits_inj'. intros n Hn. rewrite Z.land_spec, Z.bits_0.
    destruct (decide (n = k)) as [->|Hne]; [by rewrite E|]. rewrite Z.pow2_bits_false by lia. apply andb_false_r.
Qed.
Definition is_event (ev : Z) : Prop := ev = BReactor.BREACTOR_READ \/ ev = BReactor.BREACTOR_WRITE.
Lemma event_bit ev : is_event ev -> exists k, 0 <= k < 2 /\ ev = 2 ^ k.
Proof. intros [-> | ->]; [by exists 0|by exists 1]. Qed.
Lemma has_lor w x f : is_event f -> BReactor.has (Z.lor w x) f = BReactor.has w f || BReactor.has x f.
Proof. intros (k & ? & ->)%event_bit. rewrite !has_bit by lia. apply Z.lor_spec. Qed.
Lemma has_clear w x f : is_event f -> BReactor.has (Z.land w (Z.lnot x)) f = BReactor.has w f && negb (BReactor.has x f).
Proof. intros (k & ? & ->)%event_bit. rewrite !has_bit, Z.land_spec, Z.lnot_spec by lia. done. Qed.
Lemma has_both w : BReactor.has w (Z.lor BReactor.BREACTOR_ERROR BReactor.BREACTOR_HUP) =
  BReactor.has w BReactor.BREACTOR_ERROR || BReactor.has w BReactor.BREACTOR_HUP.
Proof.
  unfold BReactor.has. rewrite Z.land_lor_distr_r. apply eq_bool_prop_intro. rewrite orb_True, !Is_true_true, !negb_true_iff, !Z.eqb_neq, Z.lor_eq_0_iff.
  destruct (decide (Z.land w BReactor.BREACTOR_ERROR = 0)), (decide (Z.land w BReactor.BREACTOR_HUP = 0)); naive_solver.
Qed.
Lemma lor_range w ev : 0 <= w <= 3 -> is_event ev -> 0 <= Z.lor w ev <= 3.
Proof. intros H [-> | ->]; (assert (w = 0 \/ w = 1 \/ w = 2 \/ w = 3) as [-> | [-> | [-> | ->]]] by lia); cbv; split; discriminate. Qed.
Lemma clear_range w x : 0 <= w <= 3 -> 0 <= Z.land w (Z.lnot x) <= 3.
Proof.
  intros H. assert (Z.land w (Z.ones 2) = w) as Hw by (rewrite Z.land_ones by lia; apply Z.mod_small; lia).
  rewrite <- Hw, <- Z.land_assoc, (Z.land_comm (Z.ones 2)), Z.land_assoc, Z.land_ones by lia.
  pose proof (Z.mod_pos_bound (Z.land w (Z.lnot x)) (2 ^ 2)). lia.
Qed.

(** ** What the handlers of a connection do *)
Definition is_io (out : output) : bool := match out with Write _ _ _ _ _ | Read _ _ _ _ _ => true | _ => false end.
Fixpoint conn_outs (c : sconn) (out : list output) : option sconn :=
  match out with [] => Some c | x :: out => conn_output c x ≫= fun c => conn_outs c out end.
Definition own a (f : Z) (out : output) : Prop :=
  match out with
  | Write b g _ _ _ | Read b g _ _ _ => b = a /\ g = f
  | HandlerError b | HandlerClosed b | SendDone b _ | RecvDone b _ => b = a
  | _ => False
  end.
(** What is known of the results for the descriptor [f]. *)
Record io_facts (an : answers) (f : Z) (e : bool) : Prop := {
  io_write : forall len n, 0 < len -> a_write an f len = Bytes n -> 0 < n <= len;
  io_read : forall len n, 0 < len -> a_read an f len = Bytes n -> 0 <= n <= len;
  io_err : e = true -> forall len, a_write an f len = EFAIL /\ a_read an f len = EFAIL
}.
Definition conn_does (now : Z) a r (e : bool) (o : BConnection) (c : sconn) (m : outcome (reactor_t * BConnection * list output)) : Prop :=
  exists r' o' out c', m = Ok (r', o', out) /\ BReactor.inv now r' /\ only a r r' /\
    conn_inv a (view_of r' a) (e && negb (existsb is_io out)) o' c' /\ conn_outs c out = Some c' /\ Forall (own a (fd o)) out /\
    fd o' = fd o /\ close_fd o' = close_fd o.

Lemma no_error v o c r a : base_inv v o c -> view_of r a = v -> s_error c = false -> BPending_IsSet (field a P_err) r = false.
Proof. intros Hb Hv He. rewrite BPending_IsSet_view, Hv. apply bool_decide_eq_false. pose proof (ci_error _ _ _ Hb) as H. by rewrite He in H. Qed.

Lemma wait_ok now a r ev out o c : BReactor.inv now r -> base_inv (view_of r a) o c -> is_hupd o = false -> is_event ev ->
  exists r', wait_for_fd a ev out r o = Ok (r', set_wait (Z.lor (wait_events o) ev) o, out) /\ BReactor.inv now r' /\ only a r r' /\
    v_jobs (view_of r' a) = v_jobs (view_of r a) /\ base_inv (view_of r' a) (set_wait (Z.lor (wait_events o) ev) o) c.
Proof.
  intros Hi Hb Hh Hev. pose proof (lor_range (wait_events o) ev (ci_wait _ _ _ Hb) Hev) as Hr. pose proof (ci_fd _ _ _ Hb) as Hf. rewrite Hh in Hf.
  destruct (set_events_ok now a r _ _ Hi Hf Hr) as (r' & E & Hi' & Hv & Ho). exists r'. unfold wait_for_fd. rewrite E. cbn [mbind outcome_bind].
  split_and!; try done; rewrite Hv; [done|]. destruct Hb. constructor; cbn; try done. by rewrite Hh.
Qed.

Lemma report_ok now a r o c : BReactor.inv now r -> base_inv (view_of r a) o c -> s_error c = false -> s_handler c = true ->
  exists r', connection_report_error a r o = Ok (r', o, [HandlerError a]) /\ BReactor.inv now r' /\ only a r r' /\
    (forall p, p <> P_err -> p ∈ v_jobs (view_of r' a) <-> p ∈ v_jobs (view_of r a)) /\ base_inv (view_of r' a) o (c_error c).
Proof.
  intros Hi Hb He Hh. pose proof (no_error _ _ _ r a Hb eq_refl He) as Hn.
  destruct (BPending_Set_ok now a r P_err Hi) as (Hi' & Ho & Hv). exists (BPending_Set (field a P_err) r).
  unfold connection_report_error, DebugError_AssertNoError. rewrite Hn, (ci_handler _ _ _ Hb), Hh. cbn [negb ASSERT mbind outcome_bind]. rewrite Hv.
  split_and!; try done.
  - intros p Hp. cbn. rewrite elem_of_cons, elem_of_without. naive_solver.
  - destruct Hb. constructor; cbn; try done. intros p. rewrite elem_of_cons, elem_of_without. intros [->|[? ?]]; [|auto]. set_solver.
Qed.

(** The number of bytes is reported by the job [p]. *)
Lemma done_ok now a r p o c : BReactor.inv now r -> base_inv (view_of r a) o c -> s_error c = false -> p ∈ conn_parts -> p <> P_err ->
  let r' := BPending_Set (field a p) r in
  BReactor.inv now r' /\ only a r r' /\ base_inv (view_of r' a) o c /\ p ∈ v_jobs (view_of r' a) /\
  forall q, q <> p -> q ∈ v_jobs (view_of r' a) <-> q ∈ v_jobs (view_of r a).
Proof.
  intros Hi Hb He Hp Hne r'. destruct (BPending_Set_ok now a r p Hi) as (Hi' & Ho & Hv). fold r' in Hi', Ho, Hv. rewrite Hv.
  split_and!; try done.
  - destruct Hb as [? ? ? ? ? He' Hps]. constructor; cbn; try done.
    + rewrite He in He' |- *. cbn. rewrite elem_of_cons, elem_of_without. naive_solver.
    + intros q. rewrite elem_of_cons, elem_of_without. intros [->|[? ?]]; auto.
  - by left.
  - intros q Hq. cbn. rewrite elem_of_cons, elem_of_without. naive_solver.
Qed.

Lemma limit_step now a r p o c : BReactor.inv now r -> base_inv (view_of r a) o c -> is_limit p ->
  exists r' go, limit_ok a p r o = Ok (r', go) /\ BReactor.inv now r' /\ only a r r' /\ view_of r' a = view_of r a /\ (go = false -> is_hupd o = false).
Proof.
  intros Hi Hb Hp. unfold limit_ok. destruct (is_hupd o) eqn:Eh; [by exists r, true|].
  assert (v_limit p (view_of r a) = true) as Hl by (destruct (ci_limits _ _ _ Hb), Hp; by subst).
  destruct (limit_increment_view now a r p Hi Hp Hl) as (r' & go & ? & ? & ? & ?). exists r', go. by split_and!.
Qed.

Lemma waiting_set ev f o : is_event f -> waiting f (set_wait (Z.lor (wait_events o) ev) o) = waiting f o || negb (is_hupd o) && BReactor.has ev f.
Proof. intros Hf. unfold waiting. cbn. rewrite has_lor by done. by destruct (is_hupd o). Qed.
Lemma read_event : is_event BReactor.BREACTOR_READ.
Proof. by left. Qed.
Lemma write_event : is_event BReactor.BREACTOR_WRITE.
Proof. by right. Qed.
#[local] Hint Resolve read_event write_event : vpn.

Ltac other_parts := let p := fresh "p" in let H := fresh "H" in intros p H; unfold send_parts, recv_parts in H; naive_solver.

Lemma iface_done a pop pdone jobs i x d n k l :
  iface_ok a pop pdone i -> busy_inv pop pdone jobs i x d n -> 0 < k <= n ->
  exists i', StreamRecvInterface_Done i l k = Ok (i', job_set (field a pdone) l) /\ iface_ok a pop pdone i' /\
    (forall jobs', pop ∉ jobs' -> pdone ∈ jobs' -> ready_inv pop pdone jobs' i' (Some (Took k))).
Proof.
  intros (H1 & H2 & H3) (Hs & _ & _ & -> & _) Hk. unfold StreamRecvInterface_Done. rewrite (stream_is_state _ _ Hs), (proj2 (Z.ltb_lt _ _)), (proj2 (Z.leb_le _ _)) by lia.
  cbn. rewrite H3. eexists. split; [done|]. split; [done|]. intros jobs' ? ?. unfold ready_inv. cbn. auto.
Qed.

Lemma conn_does_only now a r r1 e o c m : only a r r1 -> conn_does now a r1 e o c m -> conn_does now a r e o c m.
Proof. intros Ho (r' & o' & out & c' & H1 & H2 & H3 & H). exists r', o', out, c'. split; [done|]. split; [done|]. split; [by eapply only_trans|done]. Qed.

Lemma conn_does_same now a r e o o1 c m : fd o1 = fd o -> close_fd o1 = close_fd o -> conn_does now a r e o1 c m -> conn_does now a r e o c m.
Proof. intros Hf Hc (r' & o' & out & c' & H). exists r', o', out, c'. by rewrite Hf, Hc in H. Qed.

Lemma conn_outs_app c out out' c' : conn_outs c out = Some c' -> conn_outs c (out ++ out') = conn_outs c' out'.
Proof. revert c. induction out as [|x out IH]; intros c H; cbn in *; [by injection H as ->|]. destruct (conn_output c x) as [c1|]; [|done]. cbn in *. by apply IH. Qed.

Lemma negb_and_le e x : (e = true -> e && negb x = true) -> e = true -> x = false.
Proof. intros H ->. specialize (H eq_refl). by destruct x. Qed.

(** A send operation is in progress and is to be tried now. *)
Record sending (now : Z) a r (e : bool) (o : BConnection) (c : sconn) : Prop := {
  sp_inv : BReactor.inv now r; sp_base : base_inv (view_of r a) o c; sp_other : recv_inv a (view_of r a) e o c;
  sp_noerr : s_error c = false; sp_handler : s_handler c = true;
  sp_state : sstate (send o) = SEND_STATE_BUSY; sp_iface : iface_ok a P_send_op P_send_done (siface (send o));
  sp_busy : busy_inv P_send_op P_send_done (v_jobs (view_of r a)) (siface (send o)) (s_send c) (sbusy_data (send o)) (sbusy_data_len (send o));
  sp_stale : waiting BReactor.BREACTOR_WRITE o = true -> e = true
}.
Lemma sending_view now a r r' e o c : sending now a r e o c -> BReactor.inv now r' -> view_of r' a = view_of r a -> sending now a r' e o c.
Proof. intros [] Hi Hv. constructor; rewrite ?Hv; done. Qed.

Lemma send_waits now a r e o c out : sending now a r e o c -> is_hupd o = false -> conn_outs c out = Some c -> Forall (own a (fd o)) out ->
  (e = true -> existsb is_io out = false) -> conn_does now a r e o c (wait_for_fd a BReactor.BREACTOR_WRITE out r o).
Proof.
  intros [Hi Hb Hrecv He Hh Hst Hif Hbusy Hstale] Hup Hout Hown Hio.
  destruct (wait_ok now a r BReactor.BREACTOR_WRITE out o c Hi Hb Hup write_event) as (r2 & E2 & Hi2 & Ho2 & Hj2 & Hb2).
  eexists r2, _, out, c. split; [exact E2|]. split_and!; try done. constructor; [done| |].
  - unfold send_inv. cbn [send set_wait]. rewrite Hst, Hj2. split_and!; [done|done|]. intros _. rewrite waiting_set, Hup by auto with vpn. apply orb_true_r.
  - eapply recv_frame; [exact Hrecv|by rewrite Hj2|done| |done|].
    + rewrite waiting_set by auto with vpn. cbn. by rewrite andb_false_r, orb_false_r.
    + intros _. split; [done|]. intros ->. by rewrite Hio.
Qed.

Lemma send_fails now a r e o c out : sending now a r e o c -> conn_outs c out = Some c -> Forall (own a (fd o)) out ->
  conn_does now a r e o c (connection_report_error a r o ≫= fun '((x, out') : reactor_t * BConnection * list output) => Ok (x, out ++ out')).
Proof.
  intros [Hi Hb Hrecv He Hh Hst Hif Hbusy Hstale] Hout Hown.
  destruct (report_ok now a r o c Hi Hb He Hh) as (r2 & E2 & Hi2 & Ho2 & Hj2 & Hb2). rewrite E2. cbn [mbind outcome_bind].
  eexists r2, o, _, (c_error c). split; [done|]. split_and!; try done.
  - constructor; [done| |].
    + unfold send_inv. rewrite Hst. split_and!; [done| |done]. eapply busy_frame; [|exact Hbusy]. intros p Hp. apply Hj2. naive_solver.
    + eapply recv_frame; [exact Hrecv| |done|done|done|done]. intros p Hp. apply Hj2. unfold recv_parts in Hp. naive_solver.
  - rewrite (conn_outs_app _ _ _ _ Hout). cbn [conn_outs]. unfold conn_output. by rewrite He, Hh.
  - apply Forall_app. split; [done|]. by repeat constructor.
Qed.

Lemma send_completes now a r o c n : sending now a r false o c -> 0 < n <= sbusy_data_len (send o) ->
  conn_does now a r false o c
    (StreamPassInterface_Done (siface (send o)) (BReactor.pending_jobs r) n ≫= fun '((i, l) : StreamPassInterface * list loc) =>
     Ok (BReactor.set_jobs l r, put_siface i (put_sstate SEND_STATE_READY o), [Write a (fd o) (sbusy_data (send o)) (sbusy_data_len (send o)) (Bytes n)])).
Proof.
  intros [Hi Hb Hrecv He Hh Hst Hif Hbusy Hstale] Hn. pose proof Hbusy as (_ & Hask & _ & _ & Hop & _).
  destruct (iface_done a P_send_op P_send_done _ _ _ _ _ n (BReactor.pending_jobs r) Hif Hbusy Hn) as (i' & Ei & Hif' & Hr').
  unfold StreamPassInterface_Done. rewrite Ei. cbn [mbind outcome_bind].
  destruct (done_ok now a r P_send_done o c Hi Hb He) as (Hi2 & Ho2 & Hb2 & Hin & Hj); [set_solver|done|].
  eexists (BPending_Set (field a P_send_done) r), _, _, (c_send (Some (Took n)) c). split; [done|]. split_and!; try done.
  - constructor; [by destruct Hb2| |].
    + unfold send_inv. cbn [send set_send put_siface put_sstate sstate siface c_send s_send]. split_and!; [done| |].
      * apply Hr'; [|done]. by rewrite Hj.
      * destruct (waiting BReactor.BREACTOR_WRITE o) eqn:Ew; [by specialize (Hstale eq_refl)|exact Ew].
    + eapply recv_frame; [exact Hrecv|other_parts|done|done|done|done].
  - cbn [conn_outs]. unfold conn_output. rewrite He, bool_decide_eq_true_2 by done. rewrite (proj2 (Z.ltb_lt _ _)), (proj2 (Z.leb_le _ _)) by lia. done.
  - by repeat constructor.
Qed.

Lemma conn_send_ok now a r an e o c : sending now a r e o c -> io_facts an (fd o) e -> conn_does now a r e o c (connection_send a an r o).
Proof.
  intros Hs Hio. unfold connection_send, DebugError_AssertNoError.
  rewrite (no_error _ _ _ r a (sp_base _ _ _ _ _ _ Hs) eq_refl (sp_noerr _ _ _ _ _ _ Hs)).
  unfold send_is. rewrite (bool_decide_eq_true_2 (sstate (send o) = _)) by apply Hs. cbn [negb ASSERT mbind outcome_bind].
  destruct (limit_step now a r P_send_limit o c (sp_inv _ _ _ _ _ _ Hs) (sp_base _ _ _ _ _ _ Hs) (or_introl eq_refl)) as (r1 & go & -> & Hi1 & Ho1 & Hv1 & Hgo).
  cbn [mbind outcome_bind]. apply (conn_does_only _ _ _ r1); [done|]. apply (sending_view _ _ _ r1) in Hs; [|done|done].
  destruct go; cbn [negb]; [|apply send_waits; auto].
  pose proof (sp_busy _ _ _ _ _ _ Hs) as (_ & Hask & Hlen & _).
  assert (e = true -> a_write an (fd o) (sbusy_data_len (send o)) = EFAIL) as Herr by (intros H; apply (io_err _ _ _ Hio H)).
  pose proof (io_write _ _ _ Hio (sbusy_data_len (send o))) as Hn.
  destruct (a_write an (fd o) (sbusy_data_len (send o))) as [n| |] eqn:Er.
  - specialize (Hn n Hlen eq_refl). destruct e; [by discriminate Herr|]. rewrite (proj2 (Z.ltb_lt _ _)), (proj2 (Z.leb_le _ _)) by lia. exact (send_completes now a r1 o c n Hs Hn).
  - rewrite bool_decide_eq_true_2, andb_true_r by done.
    assert (conn_outs c [Write a (fd o) (sbusy_data (send o)) (sbusy_data_len (send o)) EAGAIN] = Some c) as Hout.
    { cbn [conn_outs]. unfold conn_output. rewrite (sp_noerr _ _ _ _ _ _ Hs), bool_decide_eq_true_2 by done. done. }
    destruct (is_hupd o) eqn:Ehup; cbn [negb]; [apply send_fails; auto; by repeat constructor|].
    apply send_waits; auto; [by repeat constructor|]. intros H. by discriminate Herr.
  - rewrite bool_decide_eq_false_2, andb_false_r by done. apply send_fails; [done| |by repeat constructor].
    cbn [conn_outs]. unfold conn_output. rewrite (sp_noerr _ _ _ _ _ _ Hs), bool_decide_eq_true_2 by done. done.
Qed.

(** A receive operation is in progress and is to be tried now. *)
Record receiving (now : Z) a r (e : bool) (o : BConnection) (c : sconn) : Prop := {
  rp_inv : BReactor.inv now r; rp_base : base_inv (view_of r a) o c; rp_other : send_inv a (view_of r a) o c;
  rp_noerr : s_error c = false; rp_handler : s_handler c = true;
  rp_state : rstate (recv o) = RECV_STATE_BUSY; rp_iface : iface_ok a P_recv_op P_recv_done (riface (recv o));
  rp_busy : busy_inv P_recv_op P_recv_done (v_jobs (view_of r a)) (riface (recv o)) (s_recv c) (rbusy_data (recv o)) (rbusy_data_avail (recv o));
  rp_job : P_recv_job ∉ v_jobs (view_of r a);
  rp_stale : waiting BReactor.BREACTOR_READ o = true -> e = true
}.
Lemma receiving_view now a r r' e o c : receiving now a r e o c -> BReactor.inv now r' -> view_of r' a = view_of r a -> receiving now a r' e o c.
Proof. intros [] Hi Hv. constructor; rewrite ?Hv; done. Qed.

Lemma recv_waits now a r e o c out : receiving now a r e o c -> is_hupd o = false -> conn_outs c out = Some c -> Forall (own a (fd o)) out ->
  conn_does now a r e o c (wait_for_fd a BReactor.BREACTOR_READ out r o).
Proof.
  intros [Hi Hb Hsend He Hh Hst Hif Hbusy Hjob Hstale] Hup Hout Hown.
  destruct (wait_ok now a r BReactor.BREACTOR_READ out o c Hi Hb Hup read_event) as (r2 & E2 & Hi2 & Ho2 & Hj2 & Hb2).
  eexists r2, _, out, c. split; [exact E2|]. split_and!; try done. constructor; [done| |].
  - eapply send_frame; [exact Hsend|by rewrite Hj2|done| |done|done]. rewrite waiting_set by auto with vpn. cbn. by rewrite andb_false_r, orb_false_r.
  - unfold recv_inv. cbn [recv set_wait]. rewrite Hst, Hj2. split_and!; [done|done| |done]. intros _. right. rewrite waiting_set, Hup by auto with vpn. apply orb_true_r.
Qed.

Lemma recv_fails now a r e o c out : receiving now a r e o c -> conn_outs c out = Some c -> Forall (own a (fd o)) out ->
  conn_does now a r e o c (connection_report_error a r o ≫= fun '((x, out') : reactor_t * BConnection * list output) => Ok (x, out ++ out')).
Proof.
  intros [Hi Hb Hsend He Hh Hst Hif Hbusy Hjob Hstale] Hout Hown.
  destruct (report_ok now a r o c Hi Hb He Hh) as (r2 & E2 & Hi2 & Ho2 & Hj2 & Hb2). rewrite E2. cbn [mbind outcome_bind].
  eexists r2, o, _, (c_error c). split; [done|]. split_and!; try done.
  - constructor; [done| |].
    + eapply send_frame; [exact Hsend| |done|done|done|done]. intros p Hp. apply Hj2. unfold send_parts in Hp. naive_solver.
    + unfold recv_inv. rewrite Hst. split_and!; [done| |done|done]. eapply busy_frame; [|exact Hbusy]. intros p Hp. apply Hj2. naive_solver.
  - rewrite (conn_outs_app _ _ _ _ Hout). cbn [conn_outs]. unfold conn_output. by rewrite He, Hh.
  - apply Forall_app. split; [done|]. by repeat constructor.
Qed.

Lemma recv_completes now a r o c n : receiving now a r false o c -> 0 < n <= rbusy_data_avail (recv o) ->
  conn_does now a r false o c
    (StreamRecvInterface_Done (riface (recv o)) (BReactor.pending_jobs r) n ≫= fun '((i, l) : StreamRecvInterface * list loc) =>
     Ok (BReactor.set_jobs l r, put_riface i (put_rstate RECV_STATE_READY o), [Read a (fd o) (rbusy_data (recv o)) (rbusy_data_avail (recv o)) (Bytes n)])).
Proof.
  intros [Hi Hb Hsend He Hh Hst Hif Hbusy Hjob Hstale] Hn. pose proof Hbusy as (_ & Hask & _ & _ & Hop & _).
  destruct (iface_done a P_recv_op P_recv_done _ _ _ _ _ n (BReactor.pending_jobs r) Hif Hbusy Hn) as (i' & Ei & Hif' & Hr').
  rewrite Ei. cbn [mbind outcome_bind].
  destruct (done_ok now a r P_recv_done o c Hi Hb He) as (Hi2 & Ho2 & Hb2 & Hin & Hj); [set_solver|done|].
  eexists (BPending_Set (field a P_recv_done) r), _, _, (c_recv (Some (Took n)) c). split; [done|]. split_and!; try done.
  - constructor; [by destruct Hb2| |].
    + eapply send_frame; [exact Hsend|other_parts|done|done|done|done].
    + unfold recv_inv. cbn [recv set_recv put_riface put_rstate rstate riface c_recv s_recv]. split_and!; [done| |by rewrite Hj|].
      * apply Hr'; [|done]. by rewrite Hj.
      * destruct (waiting BReactor.BREACTOR_READ o) eqn:Ew; [by specialize (Hstale eq_refl)|exact Ew].
  - cbn [conn_outs]. unfold conn_output. rewrite He, bool_decide_eq_true_2 by done. rewrite (proj2 (Z.eqb_neq _ _)), (proj2 (Z.ltb_lt _ _)), (proj2 (Z.leb_le _ _)) by lia. done.
  - by repeat constructor.
Qed.

Lemma recv_ends now a r o c : receiving now a r false o c ->
  conn_does now a r false o c (Ok (r, put_rstate RECV_STATE_INITED_CLOSED o,
    [Read a (fd o) (rbusy_data (recv o)) (rbusy_data_avail (recv o)) (Bytes 0); HandlerClosed a])).
Proof.
  intros [Hi Hb Hsend He Hh Hst Hif Hbusy Hjob Hstale]. pose proof Hbusy as (_ & Hask & _ & _ & Hop & Hdone).
  eexists r, _, _, (c_recv (Some Ended) c). split; [done|]. split_and!; try done.
  - constructor; [by destruct Hb| |].
    + eapply send_frame; [exact Hsend|done..].
    + unfold recv_inv. cbn [recv set_recv put_rstate rstate riface c_recv s_recv]. split_and!; try done.
      destruct (waiting BReactor.BREACTOR_READ o) eqn:Ew; [by specialize (Hstale eq_refl)|exact Ew].
  - cbn [conn_outs]. unfold conn_output. rewrite He, bool_decide_eq_true_2 by done. cbn. by rewrite He, Hh.
  - by repeat constructor.
Qed.

Lemma connection_recv_ok now a r an e o c : receiving now a r e o c -> io_facts an (fd o) e -> conn_does now a r e o c (connection_recv a an r o).
Proof.
  intros Hs Hio. unfold connection_recv, DebugError_AssertNoError.
  rewrite (no_error _ _ _ r a (rp_base _ _ _ _ _ _ Hs) eq_refl (rp_noerr _ _ _ _ _ _ Hs)).
  unfold recv_is. rewrite (bool_decide_eq_true_2 (rstate (recv o) = _)) by apply Hs. cbn [negb ASSERT mbind outcome_bind].
  destruct (limit_step now a r P_recv_limit o c (rp_inv _ _ _ _ _ _ Hs) (rp_base _ _ _ _ _ _ Hs) (or_intror eq_refl)) as (r1 & go & -> & Hi1 & Ho1 & Hv1 & Hgo).
  cbn [mbind outcome_bind]. apply (conn_does_only _ _ _ r1); [done|]. apply (receiving_view _ _ _ r1) in Hs; [|done|done].
  destruct go; cbn [negb]; [|apply recv_waits; auto].
  pose proof (rp_busy _ _ _ _ _ _ Hs) as (_ & Hask & Hlen & _).
  assert (e = true -> a_read an (fd o) (rbusy_data_avail (recv o)) = EFAIL) as Herr by (intros H; apply (io_err _ _ _ Hio H)).
  pose proof (io_read _ _ _ Hio (rbusy_data_avail (recv o))) as Hn.
  destruct (a_read an (fd o) (rbusy_data_avail (recv o))) as [n| |] eqn:Er.
  - specialize (Hn n Hlen eq_refl). destruct e; [by discriminate Herr|]. destruct (n =? 0) eqn:E0; zify_bool; [subst n; by apply recv_ends|].
    rewrite (proj2 (Z.ltb_lt _ _)), (proj2 (Z.leb_le _ _)) by lia. exact (recv_completes now a r1 o c n Hs ltac:(lia)).
  - rewrite bool_decide_eq_true_2, andb_true_r by done.
    assert (conn_outs c [Read a (fd o) (rbusy_data (recv o)) (rbusy_data_avail (recv o)) EAGAIN] = Some c) as Hout.
    { cbn [conn_outs]. unfold conn_output. rewrite (rp_noerr _ _ _ _ _ _ Hs), bool_decide_eq_true_2 by done. done. }
    destruct (is_hupd o) eqn:Ehup; cbn [negb]; [apply recv_fails; auto; by repeat constructor|].
    apply recv_waits; auto; by repeat constructor.
  - rewrite bool_decide_eq_false_2, andb_false_r by done. apply recv_fails; [done| |by repeat constructor].
    cbn [conn_outs]. unfold conn_output. rewrite (rp_noerr _ _ _ _ _ _ Hs), bool_decide_eq_true_2 by done. done.
Qed.

(** *** Events of the descriptor *)
Lemma send_waiting_busy a v o c : send_inv a v o c -> waiting BReactor.BREACTOR_WRITE o = true -> sstate (send o) = SEND_STATE_BUSY.
Proof. unfold send_inv. destruct (sstate (send o)); naive_solver congruence. Qed.
Lemma recv_waiting_busy a v e o c : recv_inv a v e o c -> waiting BReactor.BREACTOR_READ o = true -> rstate (recv o) = RECV_STATE_BUSY.
Proof. unfold recv_inv. destruct (rstate (recv o)); naive_solver congruence. Qed.

(** The connection after the events were taken note of. *)
Definition noted (events : Z) (o : BConnection) : BConnection :=
  let o := set_wait (Z.land (wait_events o) (Z.lnot events)) o in
  if BReactor.has events BReactor.BREACTOR_HUP then set_hupd o else o.
Definition failed (events : Z) : bool := BReactor.has events (Z.lor BReactor.BREACTOR_ERROR BReactor.BREACTOR_HUP).

Lemma noted_send events o : send (noted events o) = send o.
Proof. unfold noted. by destruct (BReactor.has _ _). Qed.
Lemma noted_recv events o : recv (noted events o) = recv o.
Proof. unfold noted. by destruct (BReactor.has _ _). Qed.
Lemma noted_fd events o : fd (noted events o) = fd o /\ close_fd (noted events o) = close_fd o.
Proof. unfold noted. by destruct (BReactor.has _ _). Qed.
Lemma noted_hupd events o : is_hupd o = false -> is_hupd (noted events o) = BReactor.has events BReactor.BREACTOR_HUP.
Proof. intros H. unfold noted. by destruct (BReactor.has _ _). Qed.
Lemma noted_waiting events f o : is_event f ->
  waiting f (noted events o) = waiting f o && negb (BReactor.has events f) && negb (BReactor.has events BReactor.BREACTOR_HUP).
Proof.
  intros Hf. unfold noted, waiting. destruct (BReactor.has events BReactor.BREACTOR_HUP); cbn; [by rewrite !andb_false_r|].
  rewrite has_clear by done. by rewrite andb_true_r, andb_assoc.
Qed.
(** What is still waited for after its operation was called for is so because of an error. *)
Lemma noted_stale events f o e : is_event f -> BReactor.has events f || failed events = true ->
  (BReactor.has events BReactor.BREACTOR_ERROR = true -> BReactor.has events BReactor.BREACTOR_HUP = false -> e = true) ->
  waiting f (noted events o) = true -> e = true.
Proof.
  intros Hf Hh He. rewrite noted_waiting by done. unfold failed in Hh. rewrite has_both in Hh.
  rewrite !andb_true_iff, !negb_true_iff. intros [[_ Hx] Hu]. rewrite Hx, Hu, orb_false_r in Hh. cbn in Hh. auto.
Qed.
Lemma noted_quiet events f o : is_event f -> (waiting f o = true -> BReactor.has events f || failed events = false) ->
  waiting f (noted events o) = waiting f o.
Proof.
  intros Hf H. rewrite noted_waiting by done. destruct (waiting f o); [|done]. specialize (H eq_refl). unfold failed in H. rewrite has_both in H.
  destruct (BReactor.has events f), (BReactor.has events BReactor.BREACTOR_HUP); try done. by rewrite !orb_true_r in H.
Qed.

Lemma note_ok now a r events o c : BReactor.inv now r -> base_inv (view_of r a) o c -> is_hupd o = false ->
  exists r', (BReactor.BReactor_SetFileDescriptorEvents (field a P_bfd) (Z.land (wait_events o) (Z.lnot events)) r ≫= fun r =>
      let o := set_wait (Z.land (wait_events o) (Z.lnot events)) o in
      if BReactor.has events BReactor.BREACTOR_HUP then
        BReactor.BReactor_RemoveFileDescriptor (field a P_bfd) r ≫= fun r => Ok (r, set_hupd o)
      else Ok (r, o)) = Ok (r', noted events o) /\
    BReactor.inv now r' /\ only a r r' /\ v_jobs (view_of r' a) = v_jobs (view_of r a) /\ base_inv (view_of r' a) (noted events o) c.
Proof.
  intros Hi Hb Hh. pose proof (clear_range (wait_events o) events (ci_wait _ _ _ Hb)) as Hr. pose proof (ci_fd _ _ _ Hb) as Hf. rewrite Hh in Hf.
  destruct (set_events_ok now a r _ _ Hi Hf Hr) as (r1 & E & Hi1 & Hv1 & Ho1). rewrite E. cbn [mbind outcome_bind]. unfold noted.
  destruct (BReactor.has events BReactor.BREACTOR_HUP).
  - destruct (remove_fd_yields now a r1 (Z.land (wait_events o) (Z.lnot events)) Hi1) as (r2 & E2 & Hi2 & Hv2 & Ho2); [by rewrite Hv1|].
    rewrite E2. exists r2. rewrite Hv2, Hv1. split_and!; try done; [by eapply only_trans|]. destruct Hb. by constructor.
  - exists r1. rewrite Hv1. split_and!; try done. destruct Hb. constructor; cbn; try done. by rewrite Hh.
Qed.

(** The events of the descriptor are ones that are waited for, an error or a
    hang-up; an error without a hang-up is pending. *)
Record fd_event (events : Z) (e : bool) (o : BConnection) : Prop := {
  fe_read : BReactor.has events BReactor.BREACTOR_READ = true -> waiting BReactor.BREACTOR_READ o = true;
  fe_write : BReactor.has events BReactor.BREACTOR_WRITE = true -> waiting BReactor.BREACTOR_WRITE o = true;
  fe_error : BReactor.has events BReactor.BREACTOR_ERROR = true -> BReactor.has events BReactor.BREACTOR_HUP = false -> e = true
}.
Definition have_send (events : Z) (o : BConnection) : bool :=
  BReactor.has events BReactor.BREACTOR_WRITE || (failed events && send_is SEND_STATE_BUSY o).
Definition have_recv (events : Z) (o : BConnection) : bool :=
  BReactor.has events BReactor.BREACTOR_READ || (failed events && recv_is RECV_STATE_BUSY o).

Lemma have_send_busy a v events e o c : send_inv a v o c -> fd_event events e o -> have_send events o = true ->
  sstate (send o) = SEND_STATE_BUSY /\ BReactor.has events BReactor.BREACTOR_WRITE || failed events = true.
Proof.
  intros Hs Hf. unfold have_send. destruct (BReactor.has events BReactor.BREACTOR_WRITE) eqn:E; cbn.
  - intros _. split; [|done]. apply (send_waiting_busy _ _ _ _ Hs), (fe_write _ _ _ Hf E).
  - intros [H1 H2]%andb_true_iff. split; [by apply bool_decide_eq_true in H2|done].
Qed.
Lemma have_recv_busy a v events e e' o c : recv_inv a v e' o c -> fd_event events e o -> have_recv events o = true ->
  rstate (recv o) = RECV_STATE_BUSY /\ BReactor.has events BReactor.BREACTOR_READ || failed events = true.
Proof.
  intros Hs Hf. unfold have_recv. destruct (BReactor.has events BReactor.BREACTOR_READ) eqn:E; cbn.
  - intros _. split; [|done]. apply (recv_waiting_busy _ _ _ _ _ Hs), (fe_read _ _ _ Hf E).
  - intros [H1 H2]%andb_true_iff. split; [by apply bool_decide_eq_true in H2|done].
Qed.
Lemma no_send_quiet a v events o c : send_inv a v o c -> have_send events o = false -> waiting BReactor.BREACTOR_WRITE (noted events o) = waiting BReactor.BREACTOR_WRITE o.
Proof.
  intros Hs Hh. apply noted_quiet; [by auto with vpn|]. intros Hw. apply (send_waiting_busy _ _ _ _ Hs) in Hw.
  unfold have_send, send_is in Hh. by rewrite bool_decide_eq_true_2, andb_true_r in Hh.
Qed.
Lemma no_recv_quiet a v e events o c : recv_inv a v e o c -> have_recv events o = false -> waiting BReactor.BREACTOR_READ (noted events o) = waiting BReactor.BREACTOR_READ o.
Proof.
  intros Hs Hh. apply noted_quiet; [by auto with vpn|]. intros Hw. apply (recv_waiting_busy _ _ _ _ _ Hs) in Hw.
  unfold have_recv, recv_is in Hh. by rewrite bool_decide_eq_true_2, andb_true_r in Hh.
Qed.

(** The receiving side is left to its job, or is as it was. *)
Lemma recv_deferred now a r r1 events e e0 o c : BReactor.inv now r1 -> base_inv (view_of r1 a) (noted events o) c -> s_error c = false ->
  recv_inv a (view_of r a) e0 o c -> fd_event events e o -> (e0 = true -> e = true) -> v_jobs (view_of r1 a) = v_jobs (view_of r a) ->
  let r2 := if have_recv events o then BPending_Set (field a P_recv_job) r1 else r1 in
  BReactor.inv now r2 /\ only a r1 r2 /\ base_inv (view_of r2 a) (noted events o) c /\ recv_inv a (view_of r2 a) e (noted events o) c /\
  forall p, p <> P_recv_job -> p ∈ v_jobs (view_of r2 a) <-> p ∈ v_jobs (view_of r a).
Proof.
  intros Hi Hb He Hr Hf Hee Hj r2. unfold r2. destruct (have_recv events o) eqn:Eh.
  - destruct (have_recv_busy _ _ _ _ _ _ _ Hr Hf Eh) as [Hst Hfail].
    destruct (done_ok now a r1 P_recv_job (noted events o) c Hi Hb He) as (Hi2 & Ho2 & Hb2 & Hin & Hj2); [set_solver|done|].
    split_and!; try done; [|intros p Hp; by rewrite Hj2, Hj]. unfold recv_inv in Hr |- *. rewrite noted_recv. rewrite Hst in Hr |- *.
    destruct Hr as (? & ? & _ & _). split_and!; [done| |by left|].
    + eapply busy_frame; [|eassumption]. intros p Hp. rewrite Hj2, Hj; naive_solver.
    + intros _ _. apply noted_stale; [by auto with vpn|done|apply Hf].
  - split_and!; try done; [|intros p _; by rewrite Hj]. eapply recv_frame; [exact Hr|by rewrite Hj|apply noted_recv|by eapply no_recv_quiet|done|done].
Qed.

Lemma send_undisturbed a r r1 events o c : send_inv a (view_of r a) o c -> have_send events o = false ->
  v_jobs (view_of r1 a) = v_jobs (view_of r a) -> send_inv a (view_of r1 a) (noted events o) c.
Proof. intros Hs Hh Hj. eapply send_frame; [exact Hs|by rewrite Hj|apply noted_send|by eapply no_send_quiet|done|done]. Qed.

(** What the handler has found out when it decides what to do. *)
Record noticed (now : Z) a r r1 (events : Z) (e e0 : bool) (o : BConnection) (c : sconn) : Prop := {
  nt_inv : BReactor.inv now r1; nt_base : base_inv (view_of r1 a) (noted events o) c; nt_noerr : s_error c = false; nt_handler : s_handler c = true;
  nt_send : send_inv a (view_of r a) o c; nt_recv : recv_inv a (view_of r a) e0 o c; nt_event : fd_event events e o; nt_e : e0 = true -> e = true;
  nt_jobs : v_jobs (view_of r1 a) = v_jobs (view_of r a); nt_nojob : P_recv_job ∉ v_jobs (view_of r a)
}.

Lemma fd_sends now a r r1 an events e e0 o c : noticed now a r r1 events e e0 o c -> have_send events o = true -> io_facts an (fd o) e ->
  conn_does now a r1 e (noted events o) c
    (connection_send a an (if have_recv events o then BPending_Set (field a P_recv_job) r1 else r1) (noted events o)).
Proof.
  intros [Hi Hb He Hh Hs Hr Hf Hee Hj Hnj] Hhave Hio. destruct (recv_deferred now a r r1 events e e0 o c) as (Hi2 & Ho2 & Hb2 & Hr2 & Hj2); try done.
  destruct (have_send_busy _ _ _ _ _ _ Hs Hf Hhave) as [Hst Hfail]. eapply conn_does_only; [exact Ho2|].
  apply conn_send_ok; [|by rewrite (proj1 (noted_fd events o))]. unfold send_inv in Hs. rewrite Hst in Hs. destruct Hs as (Hif & Hbusy & _).
  constructor; rewrite ?noted_send; try done.
  - eapply busy_frame; [|exact Hbusy]. intros p Hp. apply Hj2. naive_solver.
  - apply noted_stale; [by auto with vpn|done|apply Hf].
Qed.

Lemma fd_receives now a r r1 an events e e0 o c : noticed now a r r1 events e e0 o c -> have_send events o = false -> have_recv events o = true ->
  io_facts an (fd o) e -> conn_does now a r1 e (noted events o) c (connection_recv a an r1 (noted events o)).
Proof.
  intros [Hi Hb He Hh Hs Hr Hf Hee Hj Hnj] Hno Hhave Hio. destruct (have_recv_busy _ _ _ _ _ _ _ Hr Hf Hhave) as [Hst Hfail].
  apply connection_recv_ok; [|by rewrite (proj1 (noted_fd events o))]. unfold recv_inv in Hr. rewrite Hst in Hr. destruct Hr as (Hif & Hbusy & _).
  constructor; rewrite ?noted_recv, ?Hj; try done.
  - by eapply send_undisturbed.
  - apply noted_stale; [by auto with vpn|done|apply Hf].
Qed.

Lemma fd_nothing now a r r1 events e e0 o c : noticed now a r r1 events e e0 o c -> have_send events o = false -> have_recv events o = false ->
  conn_does now a r1 e (noted events o) c
    (if negb (is_hupd (noted events o)) then connection_report_error a r1 (noted events o) else Ok (r1, noted events o, [])).
Proof.
  intros [Hi Hb He Hh Hs Hr Hf Hee Hj Hnj] Hno Hno'. pose proof (send_undisturbed _ _ r1 _ _ _ Hs Hno Hj) as Hs1.
  destruct (recv_deferred now a r r1 events e e0 o c) as (_ & _ & _ & Hr1 & _); try done. rewrite Hno' in Hr1.
  destruct (is_hupd (noted events o)); cbn [negb].
  - exists r1, (noted events o), [], c. split_and!; try done. constructor; [done..|by rewrite andb_true_r].
  - destruct (report_ok now a r1 (noted events o) c Hi Hb He Hh) as (r3 & E3 & Hi3 & Ho3 & Hj3 & Hb3).
    eexists r3, (noted events o), _, (c_error c). split; [exact E3|]. split_and!; try done; [constructor; [done| |]| |by repeat constructor].
    + eapply send_frame; [exact Hs1| |done|done|done|done]. intros p Hp. apply Hj3. unfold send_parts in Hp. naive_solver.
    + eapply recv_frame; [exact Hr1| |done|done|done|done]. intros p Hp. apply Hj3. unfold recv_parts in Hp. naive_solver.
    + cbn [conn_outs]. unfold conn_output. by rewrite He, Hh.
Qed.

Lemma connection_fd_handler_ok now a r an events e e0 o c : BReactor.inv now r -> conn_inv a (view_of r a) e0 o c -> s_error c = false -> s_handler c = true ->
  is_hupd o = false -> P_recv_job ∉ v_jobs (view_of r a) -> fd_event events e o -> (e0 = true -> e = true) -> io_facts an (fd o) e ->
  conn_does now a r e o c (connection_fd_handler a events an r o).
Proof.
  intros Hi [Hb Hs Hr] He Hh Hup Hjob Hf Hee Hio. unfold connection_fd_handler, DebugError_AssertNoError.
  rewrite (no_error _ _ _ r a Hb eq_refl He), Hup. cbn [negb ASSERT mbind outcome_bind].
  destruct (note_ok now a r events o c Hi Hb Hup) as (r1 & E & Hi1 & Ho1 & Hj1 & Hb1). apply bind_Ok in E as (r0 & E0 & E).
  cbn [wait_events set_wait]. rewrite E0. cbn [mbind outcome_bind] in E |- *. rewrite E. cbn [mbind outcome_bind]. clear r0 E0 E.
  assert (noticed now a r r1 events e e0 o c) as Hnt by done.
  assert (send_is SEND_STATE_BUSY (noted events o) = send_is SEND_STATE_BUSY o) as -> by (unfold send_is; by rewrite noted_send).
  assert (recv_is RECV_STATE_BUSY (noted events o) = recv_is RECV_STATE_BUSY o) as -> by (unfold recv_is; by rewrite noted_recv).
  fold (failed events). fold (have_send events o) (have_recv events o).
  assert (ASSERT (negb (have_send events o) || send_is SEND_STATE_BUSY o) = Ok tt) as ->.
  { destruct (have_send events o) eqn:E; [|done]. destruct (have_send_busy _ _ _ _ _ _ Hs Hf E) as [H _]. unfold send_is. by rewrite bool_decide_eq_true_2. }
  assert (ASSERT (negb (have_recv events o) || recv_is RECV_STATE_BUSY o) = Ok tt) as ->.
  { destruct (have_recv events o) eqn:E; [|done]. destruct (have_recv_busy _ _ _ _ _ _ _ Hr Hf E) as [H _]. unfold recv_is. by rewrite bool_decide_eq_true_2. }
  cbn [mbind outcome_bind]. apply (conn_does_only _ _ _ r1); [done|].
  apply (conn_does_same _ _ _ _ _ (noted events o)); [apply noted_fd|apply noted_fd|].
  destruct (have_send events o) eqn:E; [by eapply fd_sends|]. destruct (have_recv events o) eqn:E'; [by eapply fd_receives|by eapply fd_nothing].
Qed.

(** *** Jobs of a connection *)

(** The job [p] was taken from the group and its handler is called. *)
Record taken (now : Z) a (p : part) r (e : bool) (o : BConnection) (c : sconn) : Prop := {
  tk_inv : BReactor.inv now r;
  tk_conn : conn_inv a (v_put_jobs (p :: v_jobs (view_of r a)) (view_of r a)) e o c;
  tk_new : p ∉ v_jobs (view_of r a);
  tk_noerr : s_error c = false;
  tk_handler : s_handler c = true
}.
Lemma taken_base now a p r e o c : taken now a p r e o c -> base_inv (view_of r a) o c.
Proof.
  intros [Hi [[? ? ? ? ? He Hp] _ _] Hn Hne Hh]. rewrite Hne in He. constructor; cbn in *; try done; [rewrite Hne; set_solver|set_solver].
Qed.
Lemma taken_send now a p r e o c : taken now a p r e o c -> ~ send_parts p -> send_inv a (view_of r a) o c.
Proof.
  intros [Hi [_ Hs _] Hn Hne Hh] Hp. eapply send_frame; [exact Hs| |done|done|done|done]. intros q Hq. cbn. rewrite elem_of_cons. naive_solver.
Qed.
Lemma taken_recv now a p r e o c : taken now a p r e o c -> ~ recv_parts p -> recv_inv a (view_of r a) e o c.
Proof.
  intros [Hi [_ _ Hs] Hn Hne Hh] Hp. eapply recv_frame; [exact Hs| |done|done|done|done]. intros q Hq. cbn. rewrite elem_of_cons. naive_solver.
Qed.

Lemma job_operation_ok a pop pdone jobs i x : pop <> pdone -> iface_ok a pop pdone i -> ready_inv pop pdone (pop :: jobs) i x -> pop ∉ jobs ->
  exists i', _StreamRecvInterface_job_operation i = Ok (i', Handler_operation (job_operation_data i) (job_operation_len i)) /\
    iface_ok a pop pdone i' /\ busy_inv pop pdone jobs i' x (job_operation_data i) (job_operation_len i) /\ 0 < job_operation_len i.
Proof.
  intros Hne Hif Hr Hn. unfold ready_inv in Hr. unfold _StreamRecvInterface_job_operation. destruct (state i) eqn:Es; try set_solver.
  rewrite (stream_is_state _ _ Es). cbn. eexists. split; [done|]. destruct Hr as (-> & Hl & _ & Hd). split; [exact Hif|]. split; [|done].
  unfold busy_inv. cbn. split_and!; try done. set_solver.
Qed.
Lemma job_done_ok a pop pdone jobs i x : pop <> pdone -> iface_ok a pop pdone i -> ready_inv pop pdone (pdone :: jobs) i x -> pdone ∉ jobs ->
  exists i', _StreamRecvInterface_job_done i = Ok (i', Handler_done (job_done_len i)) /\ iface_ok a pop pdone i' /\
    x = Some (Took (job_done_len i)) /\ ready_inv pop pdone jobs i' (Some Idle).
Proof.
  intros Hne Hif Hr Hn. unfold ready_inv in Hr. unfold _StreamRecvInterface_job_done. destruct (state i) eqn:Es; try set_solver.
  rewrite (stream_is_state _ _ Es). cbn. eexists. split; [done|]. destruct Hr as (-> & Hop & _). split; [exact Hif|]. split; [done|].
  unfold ready_inv. cbn. split_and!; [done|set_solver|done].
Qed.

Lemma send_op_ok now a r an e o c : taken now a P_send_op r e o c -> io_facts an (fd o) e ->
  conn_does now a r e o c (connection_job a P_send_op an r o).
Proof.
  intros Ht Hio. pose proof (taken_base _ _ _ _ _ _ _ Ht) as Hb. pose proof (taken_recv _ _ _ _ _ _ _ Ht ltac:(unfold recv_parts; naive_solver)) as Hr.
  destruct Ht as [Hi [_ Hs _] Hn He Hh]. unfold send_inv in Hs. cbn [v_jobs v_put_jobs] in Hs.
  destruct (sstate (send o)) eqn:Est; [set_solver| |destruct Hs as (_ & (_ & _ & _ & _ & Hx & _) & _); set_solver].
  destruct Hs as (Hif & Hrd & Hw). destruct (job_operation_ok _ P_send_op P_send_done _ _ _ ltac:(done) Hif Hrd Hn) as (i' & E & Hif' & Hbusy & Hlen).
  cbn [connection_job]. unfold _StreamPassInterface_job_operation. rewrite E. cbn [mbind outcome_bind].
  unfold connection_send_if_handler_send, DebugError_AssertNoError. rewrite (no_error _ _ _ r a Hb eq_refl He).
  unfold send_is. rewrite bool_decide_eq_true_2 by done. rewrite (proj2 (Z.ltb_lt _ _)) by done. cbn [negb ASSERT mbind outcome_bind].
  eapply conn_does_same; [| |apply (conn_send_ok now a r an e); [|done]]; [done|done|]. constructor; cbn; try done; [by destruct Hb|].
  intros Hx. change (waiting BReactor.BREACTOR_WRITE o = true) in Hx. congruence.
Qed.

Lemma recv_op_ok now a r an e o c : taken now a P_recv_op r e o c -> io_facts an (fd o) e ->
  conn_does now a r e o c (connection_job a P_recv_op an r o).
Proof.
  intros Ht Hio. pose proof (taken_base _ _ _ _ _ _ _ Ht) as Hb. pose proof (taken_send _ _ _ _ _ _ _ Ht ltac:(unfold send_parts; naive_solver)) as Hs.
  destruct Ht as [Hi [_ _ Hr] Hn He Hh]. unfold recv_inv in Hr. cbn [v_jobs v_put_jobs] in Hr.
  destruct (rstate (recv o)) eqn:Est; [set_solver| |destruct Hr as (_ & (_ & _ & _ & _ & Hx & _) & _); set_solver|set_solver|done].
  destruct Hr as (Hif & Hrd & Hj & Hw). destruct (job_operation_ok _ P_recv_op P_recv_done _ _ _ ltac:(done) Hif Hrd Hn) as (i' & E & Hif' & Hbusy & Hlen).
  cbn [connection_job]. rewrite E. cbn [mbind outcome_bind].
  unfold connection_recv_if_handler_recv, DebugError_AssertNoError. rewrite (no_error _ _ _ r a Hb eq_refl He).
  unfold recv_is. rewrite bool_decide_eq_true_2 by done. rewrite (proj2 (Z.ltb_lt _ _)) by done. cbn [negb ASSERT mbind outcome_bind].
  eapply conn_does_same; [| |apply (connection_recv_ok now a r an e); [|done]]; [done|done|]. constructor; cbn; try done; [by destruct Hb|set_solver|].
  intros Hx. change (waiting BReactor.BREACTOR_READ o = true) in Hx. congruence.
Qed.

Lemma conn_send_done_ok now a r an e o c : taken now a P_send_done r e o c -> conn_does now a r e o c (connection_job a P_send_done an r o).
Proof.
  intros Ht. pose proof (taken_base _ _ _ _ _ _ _ Ht) as Hb. pose proof (taken_recv _ _ _ _ _ _ _ Ht ltac:(unfold recv_parts; naive_solver)) as Hr.
  destruct Ht as [Hi [_ Hs _] Hn He Hh]. unfold send_inv in Hs. cbn [v_jobs v_put_jobs] in Hs.
  destruct (sstate (send o)) eqn:Est; [set_solver| |destruct Hs as (_ & (_ & _ & _ & _ & _ & Hx) & _); set_solver].
  destruct Hs as (Hif & Hrd & Hw). destruct (job_done_ok _ P_send_op P_send_done _ _ _ ltac:(done) Hif Hrd Hn) as (i' & E & Hif' & Ex & Hrd').
  cbn [connection_job]. unfold _StreamPassInterface_job_done. rewrite E. cbn [mbind outcome_bind].
  eexists r, _, _, (c_send (Some Idle) c). split; [done|]. split_and!; try done; [constructor; [by destruct Hb| |]| |by repeat constructor].
  - unfold send_inv. cbn [send put_siface set_send sstate siface]. rewrite Est. done.
  - eapply recv_frame; [exact Hr|done..|]. intros _. cbn. split; [done|]. by destruct e.
  - cbn [conn_outs]. unfold conn_output. rewrite He, bool_decide_eq_true_2 by done. done.
Qed.

Lemma conn_recv_done_ok now a r an e o c : taken now a P_recv_done r e o c -> conn_does now a r e o c (connection_job a P_recv_done an r o).
Proof.
  intros Ht. pose proof (taken_base _ _ _ _ _ _ _ Ht) as Hb. pose proof (taken_send _ _ _ _ _ _ _ Ht ltac:(unfold send_parts; naive_solver)) as Hs.
  destruct Ht as [Hi [_ _ Hr] Hn He Hh]. unfold recv_inv in Hr. cbn [v_jobs v_put_jobs] in Hr.
  destruct (rstate (recv o)) eqn:Est; [set_solver| |destruct Hr as (_ & (_ & _ & _ & _ & _ & Hx) & _); set_solver|set_solver|done].
  destruct Hr as (Hif & Hrd & Hj & Hw). destruct (job_done_ok _ P_recv_op P_recv_done _ _ _ ltac:(done) Hif Hrd Hn) as (i' & E & Hif' & Ex & Hrd').
  cbn [connection_job]. rewrite E. cbn [mbind outcome_bind].
  eexists r, _, _, (c_recv (Some Idle) c). split; [done|]. split_and!; try done; [constructor; [by destruct Hb| |]| |by repeat constructor].
  - eapply send_frame; [exact Hs|done..].
  - unfold recv_inv. cbn [recv put_riface set_recv rstate riface]. rewrite Est. split_and!; try done. set_solver.
  - cbn [conn_outs]. unfold conn_output. rewrite He, bool_decide_eq_true_2 by done. done.
Qed.

Lemma recv_job_ok now a r an e o c : taken now a P_recv_job r e o c -> io_facts an (fd o) e ->
  conn_does now a r e o c (connection_job a P_recv_job an r o).
Proof.
  intros Ht Hio. pose proof (taken_base _ _ _ _ _ _ _ Ht) as Hb. pose proof (taken_send _ _ _ _ _ _ _ Ht ltac:(unfold send_parts; naive_solver)) as Hs.
  destruct Ht as [Hi [_ _ Hr] Hn He Hh]. unfold recv_inv in Hr. cbn [v_jobs v_put_jobs] in Hr.
  destruct (rstate (recv o)) eqn:Est; [set_solver|set_solver| |set_solver|done]. destruct Hr as (Hif & Hbusy & _ & Hstale).
  cbn [connection_job]. unfold connection_recv_job_handler, DebugError_AssertNoError. rewrite (no_error _ _ _ r a Hb eq_refl He).
  unfold recv_is. rewrite bool_decide_eq_true_2 by done. cbn [negb ASSERT mbind outcome_bind].
  apply connection_recv_ok; [|done]. constructor; try done.
  - eapply busy_frame; [|exact Hbusy]. intros p Hp. rewrite elem_of_cons. naive_solver.
  - apply Hstale; [done|by left].
Qed.

Lemma connection_job_ok now a p r an e o c : taken now a p r e o c -> p <> P_err -> io_facts an (fd o) e ->
  conn_does now a r e o c (connection_job a p an r o).
Proof.
  intros Ht Hp Hio. assert (p ∈ conn_parts) as Hin by (apply (ci_parts _ _ _ (ci_base _ _ _ _ _ (tk_conn _ _ _ _ _ _ _ Ht))); cbn; by left).
  unfold conn_parts in Hin. rewrite !elem_of_cons in Hin. destruct Hin as [->|[->|[->|[->|[->|[->|?%elem_of_nil]]]]]]; try done;
  auto using send_op_ok, conn_send_done_ok, recv_job_ok, recv_op_ok, conn_recv_done_ok.
Qed.

(** ** What the user does with a connection *)
Definition conn_becomes (now : Z) a r (e : bool) (o : BConnection) (c' : sconn) r' (o' : BConnection) : Prop :=
  BReactor.inv now r' /\ only a r r' /\ conn_inv a (view_of r' a) e o' c' /\ fd o' = fd o /\ close_fd o' = close_fd o.

Lemma head_without p q l : head l = Some q -> q <> p -> head (without p l) = Some q.
Proof. destruct l as [|x l]; [done|]. cbn. intros [= ->] Hne. unfold without. by rewrite filter_cons_True. Qed.

Lemma unset_ok now a r p o c : BReactor.inv now r -> base_inv (view_of r a) o c -> p <> P_err ->
  let r' := BPending_Free (field a p) r in
  BReactor.inv now r' /\ only a r r' /\ base_inv (view_of r' a) o c /\ forall q, q ∈ v_jobs (view_of r' a) <-> q ∈ v_jobs (view_of r a) /\ q <> p.
Proof.
  intros Hi Hb Hp r'. destruct (BPending_Free_ok now a r p Hi) as (Hi' & Ho & Hv). fold r' in Hi', Ho, Hv. rewrite Hv.
  split_and!; try done; [|intros q; apply elem_of_without]. destruct Hb as [? ? ? ? ? He Hps]. constructor; cbn; try done.
  - destruct (s_error c); [by apply head_without|]. rewrite elem_of_without. naive_solver.
  - intros q. rewrite elem_of_without. naive_solver.
Qed.

Lemma stop_waiting_ok now a ev r o c : BReactor.inv now r -> base_inv (view_of r a) o c -> is_event ev ->
  exists r' o', stop_waiting a ev r o = Ok (r', o') /\ BReactor.inv now r' /\ only a r r' /\ base_inv (view_of r' a) o' c /\
    v_jobs (view_of r' a) = v_jobs (view_of r a) /\ send o' = send o /\ recv o' = recv o /\ fd o' = fd o /\ close_fd o' = close_fd o /\
    waiting ev o' = false /\ forall f, is_event f -> f <> ev -> waiting f o' = waiting f o.
Proof.
  intros Hi Hb Hev. unfold stop_waiting. destruct (is_hupd o) eqn:Eh; cbn [negb].
  - exists r, o. unfold waiting. rewrite Eh. by split_and!.
  - pose proof (ci_fd _ _ _ Hb) as Hf. rewrite Eh in Hf.
    destruct (set_events_ok now a r _ _ Hi Hf (clear_range _ ev (ci_wait _ _ _ Hb))) as (r' & E & Hi' & Hv & Ho). rewrite E. cbn [mbind outcome_bind].
    eexists r', _. split; [done|]. rewrite Hv. unfold waiting. cbn [is_hupd set_wait wait_events]. rewrite Eh.
    assert (BReactor.has ev ev = true) as Hs by (by destruct Hev as [-> | ->]).
    split_and!; try done.
    + destruct Hb. constructor; cbn; try done; [by rewrite Eh|by apply clear_range].
    + rewrite has_clear, Hs by done. apply andb_false_r.
    + intros f Hf' Hne. rewrite has_clear by done. assert (BReactor.has ev f = false) as ->; [|by rewrite andb_true_r].
      destruct Hev as [-> | ->], Hf' as [-> | ->]; done.
Qed.

(** The job and the two jobs of the interface are freed. *)
Lemma iface_free_ok now a r pj pop pdone i o c : BReactor.inv now r -> base_inv (view_of r a) o c -> pj <> P_err -> pop <> P_err -> pdone <> P_err ->
  iface_ok a pop pdone i ->
  let r1 := BPending_Free (field a pj) r in
  let r' := BReactor.set_jobs (StreamRecvInterface_Free i (BReactor.pending_jobs r1)) r1 in
  BReactor.inv now r' /\ only a r r' /\ base_inv (view_of r' a) o c /\
  forall q, q ∈ v_jobs (view_of r' a) <-> q ∈ v_jobs (view_of r a) /\ q <> pj /\ q <> pop /\ q <> pdone.
Proof.
  intros Hi Hb H1 H2 H3 (_ & Eo & Ed) r1 r'.
  destruct (unset_ok now a r pj o c Hi Hb H1) as (Hi2 & Ho2 & Hb2 & Hj2). fold r1 in Hi2, Ho2, Hb2, Hj2.
  destruct (unset_ok now a r1 pdone o c Hi2 Hb2 H3) as (Hi3 & Ho3 & Hb3 & Hj3). set (r2 := BPending_Free (field a pdone) r1) in *.
  destruct (unset_ok now a r2 pop o c Hi3 Hb3 H2) as (Hi4 & Ho4 & Hb4 & Hj4).
  assert (r' = BPending_Free (field a pop) r2) as -> by (unfold r', StreamRecvInterface_Free; by rewrite Eo, Ed).
  split_and!; try done; [eapply only_trans; [|exact Ho4]; by eapply only_trans|]. intros q. rewrite Hj4, Hj3, Hj2. tauto.
Qed.

Lemma send_free_ok now a r e o c : BReactor.inv now r -> conn_inv a (view_of r a) e o c -> s_send c <> None ->
  exists r' o', BConnection_SendAsync_Free a r o = Ok (r', o') /\ conn_becomes now a r e o (c_send None c) r' o'.
Proof.
  intros Hi [Hb Hs Hr] Hc. unfold BConnection_SendAsync_Free.
  assert (send_is SEND_STATE_READY o || send_is SEND_STATE_BUSY o = true /\ iface_ok a P_send_op P_send_done (siface (send o))) as [-> Hif].
  { unfold send_inv in Hs. unfold send_is. destruct (sstate (send o)); naive_solver. }
  destruct (stop_waiting_ok now a BReactor.BREACTOR_WRITE r o c Hi Hb write_event) as (r1 & o1 & E & Hi1 & Ho1 & Hb1 & Hj1 & Hs1 & Hr1 & Hf1 & Hc1 & Hw & Hw').
  cbn [ASSERT mbind outcome_bind]. rewrite E. cbn [mbind outcome_bind]. rewrite <- Hs1 in Hif.
  destruct (iface_free_ok now a r1 P_send_job P_send_op P_send_done (siface (send o1)) o1 c) as (Hi2 & Ho2 & Hb2 & Hj2); try done.
  eexists _, _. split; [done|]. split; [exact Hi2|]. split; [by eapply only_trans|]. split; [|done]. constructor; [by destruct Hb2| |].
  - unfold send_inv. cbn [send put_sstate set_send sstate c_send s_send]. split_and!; [done| | |done]; rewrite Hj2; tauto.
  - eapply recv_frame; [exact Hr| |exact Hr1|by apply Hw'; [auto with vpn|]|done|done]. intros q Hq. rewrite Hj2, Hj1. unfold recv_parts in Hq. naive_solver.
Qed.

Lemma recv_free_ok now a r e o c : BReactor.inv now r -> conn_inv a (view_of r a) e o c -> s_recv c <> None ->
  exists r' o', BConnection_RecvAsync_Free a r o = Ok (r', o') /\ conn_becomes now a r e o (c_recv None c) r' o'.
Proof.
  intros Hi [Hb Hs Hr] Hc. unfold BConnection_RecvAsync_Free.
  assert (recv_inited o = true /\ iface_ok a P_recv_op P_recv_done (riface (recv o))) as [-> Hif].
  { unfold recv_inv in Hr. unfold recv_inited, recv_is. destruct (rstate (recv o)); naive_solver. }
  destruct (stop_waiting_ok now a BReactor.BREACTOR_READ r o c Hi Hb read_event) as (r1 & o1 & E & Hi1 & Ho1 & Hb1 & Hj1 & Hs1 & Hr1 & Hf1 & Hc1 & Hw & Hw').
  cbn [ASSERT mbind outcome_bind]. rewrite E. cbn [mbind outcome_bind]. rewrite <- Hr1 in Hif.
  destruct (iface_free_ok now a r1 P_recv_job P_recv_op P_recv_done (riface (recv o1)) o1 c) as (Hi2 & Ho2 & Hb2 & Hj2); try done.
  eexists _, _. split; [done|]. split; [exact Hi2|]. split; [by eapply only_trans|]. split; [|done]. constructor; [by destruct Hb2| |].
  - eapply send_frame; [exact Hs| |exact Hs1|by apply Hw'; [auto with vpn|]|done|done]. intros q Hq. rewrite Hj2, Hj1. unfold send_parts in Hq. naive_solver.
  - unfold recv_inv. cbn [recv put_rstate set_recv rstate c_recv s_recv]. split_and!; [done| | | |done]; rewrite Hj2; tauto.
Qed.

Lemma send_init_ok now a r e o c : BReactor.inv now r -> conn_inv a (view_of r a) e o c -> s_error c = false -> s_send c = None ->
  exists o', send_init a r o = Ok o' /\ conn_becomes now a r e o (c_send (Some Idle) c) r o'.
Proof.
  intros Hi [Hb Hs Hr] He Hc. unfold send_init, BConnection_SendAsync_Init, DebugError_AssertNoError. rewrite (no_error _ _ _ r a Hb eq_refl He).
  assert (sstate (send o) = SEND_STATE_NOT_INITED) as Est.
  { unfold send_inv, ready_inv, busy_inv in Hs. rewrite Hc in Hs. destruct (sstate (send o)), (state (siface (send o))); naive_solver. }
  unfold send_inv in Hs. rewrite Est in Hs. destruct Hs as (_ & ? & ? & ?). unfold send_is. rewrite Est. cbn.
  eexists. split; [done|]. split; [done|]. split; [done|]. split; [|done].
  constructor; [by destruct Hb| |by eapply recv_frame; [exact Hr|done..|]]. done.
Qed.

Lemma recv_init_ok now a r e o c : BReactor.inv now r -> conn_inv a (view_of r a) e o c -> s_error c = false -> s_recv c = None ->
  exists o', recv_init a r o = Ok o' /\ conn_becomes now a r e o (c_recv (Some Idle) c) r o'.
Proof.
  intros Hi [Hb Hs Hr] He Hc. unfold recv_init, BConnection_RecvAsync_Init, DebugError_AssertNoError. rewrite (no_error _ _ _ r a Hb eq_refl He).
  assert (rstate (recv o) = RECV_STATE_NOT_INITED) as Est.
  { unfold recv_inv, ready_inv, busy_inv in Hr. rewrite Hc in Hr. destruct (rstate (recv o)), (state (riface (recv o))); naive_solver. }
  unfold recv_inv in Hr. rewrite Est in Hr. destruct Hr as (_ & ? & ? & ? & ?). unfold recv_is. rewrite Est. cbn.
  eexists. split; [done|]. split; [done|]. split; [done|]. split; [|done].
  constructor; [by destruct Hb|by eapply send_frame; [exact Hs|done..|]|]. done.
Qed.

(** A request sets the job of the operation. *)
Lemma request_ok a pop pdone jobs i l data len : iface_ok a pop pdone i -> ready_inv pop pdone jobs i (Some Idle) -> 0 < len -> data <> 0 ->
  exists i', StreamRecvInterface_Receiver_Recv i l data len = Ok (i', job_set (field a pop) l) /\ iface_ok a pop pdone i' /\
    forall jobs', pop ∈ jobs' -> pdone ∉ jobs' -> ready_inv pop pdone jobs' i' (Some (Asked data len)).
Proof.
  intros (H1 & H2 & H3) Hr Hl Hd. unfold ready_inv in Hr. destruct (state i) eqn:Es; try (destruct Hr as [? _]; congruence); [|done].
  unfold StreamRecvInterface_Receiver_Recv. rewrite (proj2 (Z.ltb_lt _ _)), (proj2 (Z.eqb_neq _ _)), (stream_is_state _ _ Es), H1 by done. cbn. rewrite H2.
  eexists. split; [done|]. split; [done|]. intros jobs' ? ?. unfold ready_inv. cbn. auto.
Qed.

Lemma send_data_ok now a r e o c data len : BReactor.inv now r -> conn_inv a (view_of r a) e o c -> s_error c = false -> s_send c = Some Idle ->
  0 < len -> data <> 0 -> exists r' o', send_data data len r o = Ok (r', o') /\ conn_becomes now a r e o (c_send (Some (Asked data len)) c) r' o'.
Proof.
  intros Hi [Hb Hs Hr] He Hc Hl Hd. unfold send_inv in Hs. rewrite Hc in Hs.
  destruct (sstate (send o)) eqn:Est; [naive_solver| |unfold busy_inv in Hs; naive_solver]. destruct Hs as (Hif & Hrd & Hw).
  assert (P_send_done ∉ v_jobs (view_of r a)) as Hnd by (unfold ready_inv in Hrd; destruct (state (siface (send o))); naive_solver).
  unfold send_data, BConnection_SendAsync_GetIf, send_is. rewrite Est. cbn [ASSERT bool_decide orb mbind outcome_bind].
  rewrite bool_decide_eq_true_2 by done. cbn [ASSERT orb mbind outcome_bind].
  destruct (request_ok a P_send_op P_send_done _ _ (BReactor.pending_jobs r) data len Hif Hrd Hl Hd) as (i' & E & Hif' & Hrd').
  unfold StreamPassInterface_Sender_Send. rewrite E. cbn [mbind outcome_bind].
  destruct (done_ok now a r P_send_op o c Hi Hb He) as (Hi2 & Ho2 & Hb2 & Hin & Hj); [set_solver|done|].
  exists (BPending_Set (field a P_send_op) r), (put_siface i' o). split; [done|]. split; [done|]. split; [done|]. split; [|done].
  constructor; [by destruct Hb2| |eapply recv_frame; [exact Hr|other_parts|done..]].
  unfold send_inv. cbn [send put_siface set_send sstate siface c_send s_send]. rewrite Est. split_and!; [done| |done]. apply Hrd'; [done|]. by rewrite Hj.
Qed.

Lemma conn_recv_data_ok now a r e o c data len : BReactor.inv now r -> conn_inv a (view_of r a) e o c -> s_error c = false -> s_recv c = Some Idle ->
  0 < len -> data <> 0 -> exists r' o', recv_data data len r o = Ok (r', o') /\ conn_becomes now a r e o (c_recv (Some (Asked data len)) c) r' o'.
Proof.
  intros Hi [Hb Hs Hr] He Hc Hl Hd. unfold recv_inv in Hr. rewrite Hc in Hr.
  destruct (rstate (recv o)) eqn:Est; [naive_solver| |unfold busy_inv in Hr; naive_solver|naive_solver|done]. destruct Hr as (Hif & Hrd & Hjob & Hw).
  assert (P_recv_done ∉ v_jobs (view_of r a)) as Hnd by (unfold ready_inv in Hrd; destruct (state (riface (recv o))); naive_solver).
  unfold recv_data, BConnection_RecvAsync_GetIf, recv_inited, recv_is. rewrite Est. rewrite bool_decide_eq_true_2 by done. cbn [ASSERT orb mbind outcome_bind].
  destruct (request_ok a P_recv_op P_recv_done _ _ (BReactor.pending_jobs r) data len Hif Hrd Hl Hd) as (i' & E & Hif' & Hrd').
  rewrite E. cbn [mbind outcome_bind].
  destruct (done_ok now a r P_recv_op o c Hi Hb He) as (Hi2 & Ho2 & Hb2 & Hin & Hj); [set_solver|done|].
  exists (BPending_Set (field a P_recv_op) r), (put_riface i' o). split; [done|]. split; [done|]. split; [done|]. split; [|done].
  constructor; [by destruct Hb2|eapply send_frame; [exact Hs|other_parts|done..]|].
  unfold recv_inv. cbn [recv put_riface set_recv rstate riface c_recv s_recv]. rewrite Est. split_and!; [done| |by rewrite Hj|done].
  apply Hrd'; [done|]. by rewrite Hj.
Qed.

(** ** Objects come and go *)
Definition gone : view := mkView None false false [].

Lemma connection_free_ok now a r e o c : BReactor.inv now r -> conn_inv a (view_of r a) e o c -> s_send c = None -> s_recv c = None ->
  exists r', BConnection_Free a r o = Ok (r', if close_fd o then [Closed (fd o)] else []) /\ BReactor.inv now r' /\ only a r r' /\ view_of r' a = gone.
Proof.
  intros Hi [Hb Hs Hr] Hsc Hrc. unfold BConnection_Free.
  assert (sstate (send o) = SEND_STATE_NOT_INITED) as Est.
  { unfold send_inv, ready_inv, busy_inv in Hs. rewrite Hsc in Hs. destruct (sstate (send o)), (state (siface (send o))); naive_solver. }
  assert (rstate (recv o) = RECV_STATE_NOT_INITED) as Ert.
  { unfold recv_inv, ready_inv, busy_inv in Hr. rewrite Hrc in Hr. destruct (rstate (recv o)), (state (riface (recv o))); naive_solver. }
  unfold send_inv in Hs. rewrite Est in Hs. unfold recv_inv in Hr. rewrite Ert in Hr.
  destruct (BPending_Free_ok now a r P_err Hi) as (Hi1 & Ho1 & Hv1). set (r1 := BPending_Free (field a P_err) r) in *.
  assert (without P_err (v_jobs (view_of r a)) = []) as Hnil.
  { apply elem_of_nil_inv. intros q [Hq Hne]%elem_of_without. pose proof (ci_parts _ _ _ Hb q Hq) as Hp. unfold conn_parts in Hp. set_solver. }
  rewrite Hnil in Hv1. unfold send_is, recv_is. rewrite Est, Ert, !bool_decide_eq_true_2 by done. cbn [ASSERT orb mbind outcome_bind].
  destruct (ci_limits _ _ _ Hb) as [Hl1 Hl2].
  destruct (limit_free_yields now a r1 P_recv_limit Hi1 (or_intror eq_refl)) as (r2 & E2 & Hi2 & Hv2 & Ho2); [by rewrite Hv1|]. rewrite E2. cbn [mbind outcome_bind].
  destruct (limit_free_yields now a r2 P_send_limit Hi2 (or_introl eq_refl)) as (r3 & E3 & Hi3 & Hv3 & Ho3); [by rewrite Hv2, Hv1|]. rewrite E3. cbn [mbind outcome_bind].
  rewrite Hv2, Hv1 in Hv3. cbn in Hv3. pose proof (ci_fd _ _ _ Hb) as Hf. cbn in Hf. rewrite Hf in Hv3.
  assert (only a r r3) as Ho by (eapply only_trans; [|exact Ho3]; by eapply only_trans).
  destruct (is_hupd o); cbn [negb mbind outcome_bind]; [by exists r3|].
  destruct (remove_fd_yields now a r3 (wait_events o) Hi3) as (r4 & E4 & Hi4 & Hv4 & Ho4); [by rewrite Hv3|]. rewrite E4. cbn [mbind outcome_bind].
  exists r4. split_and!; try done; [by eapply only_trans|]. by rewrite Hv4, Hv3.
Qed.

Lemma connection_open_ok now a f cl an r : BReactor.inv now r -> view_of r a = gone ->
  exists r' mo, connection_open a f cl an r = Ok (r', mo, match mo with Some _ => [] | None => fail1 cl f end) /\ BReactor.inv now r' /\ only a r r' /\
    match mo with
    | Some o => fd o = f /\ close_fd o = cl /\
        forall e, conn_inv a (view_of r' a) e o (mkSConn true false (if cl then None else Some f) None None)
    | None => view_of r' a = gone
    end.
Proof.
  intros Hi Hv. unfold connection_open. destruct (add_bfd_ok now a r an Hi) as (r1 & E1 & Hi1 & Ho1 & Hv1); [by rewrite Hv|].
  rewrite E1. cbn [mbind outcome_bind]. rewrite Hv in Hv1. destruct (a_add an); cbn [negb].
  2:{ exists r1, None. by split_and!. }
  destruct (limit_init_ok now a r1 P_send_limit BCONNECTION_SEND_LIMIT Hi1 (or_introl eq_refl)) as (r2 & E2 & Hi2 & Hv2 & Ho2); [done|by rewrite Hv1|].
  rewrite E2. cbn [mbind outcome_bind].
  destruct (limit_init_ok now a r2 P_recv_limit BCONNECTION_RECV_LIMIT Hi2 (or_intror eq_refl)) as (r3 & E3 & Hi3 & Hv3 & Ho3); [done|by rewrite Hv2, Hv1|].
  rewrite E3. cbn [mbind outcome_bind]. eexists r3, (Some _). split; [done|]. split; [done|]. split; [eapply only_trans; [|exact Ho3]; by eapply only_trans|].
  split; [done|]. split; [done|]. intros e. rewrite Hv3, Hv2, Hv1. constructor; [constructor|..]; cbn; try done; set_solver.
Qed.

Definition listener_inv (v : view) (o : BListener) (ready : bool) : Prop :=
  v = mkView (Some BReactor.BREACTOR_READ) false false (if ready then [P_default_job] else []) /\ 0 <= lfd o.
Definition connector_inv (v : view) (o : BConnector) (p : cphase) : Prop :=
  match p with
  | CWaiting => 0 <= cfd o /\ (have_bfd o = true /\ connected o = false /\ v = mkView (Some BReactor.BREACTOR_WRITE) false false [] \/
      have_bfd o = false /\ connected o = true /\ v = mkView None false false [P_job])
  | CReady => 0 <= cfd o /\ have_bfd o = false /\ connected o = true /\ v = gone
  | CFailed => 0 <= cfd o /\ have_bfd o = false /\ v = gone
  | CMoved => cfd o = -1 /\ have_bfd o = false /\ v = gone
  end.

(** The outputs of an initialisation that opens the descriptor [f]: calls on it, and
    it is closed again unless it is kept. *)
Fixpoint rest_ok (f : Z) (keep : bool) (out : list output) : bool :=
  match out with
  | [] => keep
  | Sys _ g :: out => (g =? f) && rest_ok f keep out
  | Unlink _ :: out | PeerAddr _ _ :: out => rest_ok f keep out
  | Closed g :: out => (g =? f) && negb keep && match out with [] => true | _ => false end
  | _ => false
  end.
Definition init_outs (mf : option Z) (keep : bool) (out : list output) : Prop :=
  match mf with
  | None => out = [] /\ keep = false
  | Some f => exists rest, out = Opened f :: rest /\ rest_ok f keep rest = true
  end.
Ltac solve_outs := eexists; split; [reflexivity|]; cbn; rewrite ?Z.eqb_refl; done.

Lemma listen_events_ok now a r an w : BReactor.inv now r -> view_of r a = gone -> 0 <= w <= 3 ->
  exists r' ok, add_bfd a an r = Ok (r', ok) /\ ok = a_add an /\ BReactor.inv now r' /\ only a r r' /\
    if ok then yields now a r' (BReactor.BReactor_SetFileDescriptorEvents (field a P_bfd) w r') (mkView (Some w) false false []) else view_of r' a = gone.
Proof.
  intros Hi Hv Hw. destruct (add_bfd_ok now a r an Hi) as (r1 & E1 & Hi1 & Ho1 & Hv1); [by rewrite Hv|]. rewrite Hv in Hv1.
  exists r1, (a_add an). split_and!; try done. destruct (a_add an); [|done].
  change (mkView (Some w) false false []) with (v_put_fd (Some w) (v_put_fd (Some 0) gone)). rewrite <- Hv1. apply (set_events_ok _ _ _ _ 0); [done|by rewrite Hv1|done].
Qed.

Definition listener_made (now : Z) a r (mf : option Z) (m : outcome (reactor_t * option BListener * list output)) : Prop :=
  exists r' mo out, m = Ok (r', mo, out) /\ BReactor.inv now r' /\ only a r r' /\ init_outs mf (bool_decide (is_Some mo)) out /\
    match mo with Some o => mf = Some (lfd o) /\ listener_inv (view_of r' a) o false | None => view_of r' a = gone end.

Lemma listener_open_ok now a addr an r : BReactor.inv now r -> view_of r a = gone -> (forall f, a_socket an = Some f -> 0 <= f) ->
  listener_made now a r (a_socket an) (listener_open a addr an r).
Proof.
  intros Hi Hv Hf. unfold listener_open. set (path := socket_path addr). destruct (a_socket an) as [f|] eqn:Es; [|by eexists r, None, _].
  specialize (Hf f eq_refl). cbn [badvpn_set_nonblocking].
  assert (forall r' out, BReactor.inv now r' -> only a r r' -> view_of r' a = gone -> init_outs (Some f) false out -> listener_made now a r (Some f) (Ok (r', None, out))) as Hfail.
  { intros r' out Hi' Ho' Hv' Hout. by exists r', None, out. }
  destruct (a_fcntl an); cbn [negb]; [|apply Hfail; auto using only_refl; solve_outs].
  destruct (match path, a_unlink an with Some _, UnlinkFailed => true | _, _ => false end).
  { apply Hfail; auto using only_refl. destruct path; solve_outs. }
  destruct (a_bind an); cbn [negb]; [|apply Hfail; auto using only_refl; destruct path; solve_outs].
  destruct (a_listen an); cbn [negb]; [|apply Hfail; auto using only_refl; destruct path; solve_outs].
  destruct (listen_events_ok now a r an BReactor.BREACTOR_READ Hi Hv) as (r1 & ok & E1 & _ & Hi1 & Ho1 & H1); [done|]. rewrite E1. cbn [mbind outcome_bind].
  destruct ok; cbn [negb]; [|apply Hfail; auto; destruct path; solve_outs].
  destruct H1 as (r2 & E2 & Hi2 & Hv2 & Ho2). rewrite E2. cbn [mbind outcome_bind].
  eexists r2, (Some _), _. split; [done|]. split; [done|]. split; [by eapply only_trans|]. split; [destruct path; solve_outs|].
  split; [done|]. by rewrite Hv2.
Qed.

Lemma listener_init_ok now a from an r : BReactor.inv now r -> view_of r a = gone -> (forall f, a_socket an = Some f -> 0 <= f) ->
  exists mf, listener_made now a r mf (BListener_InitFrom a from an r) /\ (mf = None \/ mf = a_socket an).
Proof.
  intros Hi Hv Hf. assert (listener_made now a r None (Ok (r, None, []))) as Hno by (by eexists r, None, []).
  destruct from as [addr|path]; cbn [BListener_InitFrom].
  - destruct (BConnection_AddressSupported addr) eqn:Ea; cbn [negb]; [|by exists None; auto]. destruct addr; try done; cbn; exists (a_socket an); auto using listener_open_ok.
  - destruct (a_strdup an); cbn [negb]; [|by exists None; auto]. destruct (build_unix_address path); [|by exists None; auto]. exists (a_socket an); auto using listener_open_ok.
Qed.

Definition connector_made (now : Z) a r (mf : option Z) (m : outcome (reactor_t * option BConnector * list output)) : Prop :=
  exists r' mo out, m = Ok (r', mo, out) /\ BReactor.inv now r' /\ only a r r' /\ init_outs mf (bool_decide (is_Some mo)) out /\
    match mo with Some o => mf = Some (cfd o) /\ connector_inv (view_of r' a) o CWaiting | None => view_of r' a = gone end.

Lemma connector_open_ok now a addr an r : BReactor.inv now r -> view_of r a = gone -> (forall f, a_socket an = Some f -> 0 <= f) ->
  connector_made now a r (a_socket an) (connector_open a addr an r).
Proof.
  intros Hi Hv Hf. unfold connector_open. destruct (a_socket an) as [f|] eqn:Es; [|by eexists r, None, _].
  specialize (Hf f eq_refl). cbn [badvpn_set_nonblocking].
  assert (forall r' out, BReactor.inv now r' -> only a r r' -> view_of r' a = gone -> init_outs (Some f) false out -> connector_made now a r (Some f) (Ok (r', None, out))) as Hfail.
  { intros r' out Hi' Ho' Hv' Hout. by exists r', None, out. }
  destruct (a_fcntl an); cbn [negb]; [|apply Hfail; auto using only_refl; solve_outs].
  destruct (a_connect an); [|..|apply Hfail; auto using only_refl; solve_outs].
  - destruct (BPending_Set_ok now a r P_job Hi) as (Hi1 & Ho1 & Hv1). rewrite Hv in Hv1.
    eexists _, (Some _), _. split; [done|]. split; [done|]. split; [done|]. split; [solve_outs|]. split; [done|]. rewrite Hv1. cbn. auto.
  - destruct (listen_events_ok now a r an BReactor.BREACTOR_WRITE Hi Hv) as (r1 & ok & E1 & _ & Hi1 & Ho1 & H1); [done|]. rewrite E1. cbn [mbind outcome_bind].
    destruct ok; cbn [negb]; [|apply Hfail; auto; solve_outs].
    destruct H1 as (r2 & E2 & Hi2 & Hv2 & Ho2). rewrite E2. cbn [mbind outcome_bind].
    eexists r2, (Some _), _. split; [done|]. split; [done|]. split; [by eapply only_trans|]. split; [solve_outs|]. split; [done|]. rewrite Hv2. cbn. auto.
Qed.

Lemma connector_init_ok now a from an r : BReactor.inv now r -> view_of r a = gone -> (forall f, a_socket an = Some f -> 0 <= f) ->
  exists mf, connector_made now a r mf (BConnector_InitFrom a from an r) /\ (mf = None \/ mf = a_socket an).
Proof.
  intros Hi Hv Hf. assert (connector_made now a r None (Ok (r, None, []))) as Hno by (by eexists r, None, []).
  destruct from as [addr|path]; cbn [BConnector_InitFrom].
  - destruct (BConnection_AddressSupported addr) eqn:Ea; cbn [negb]; [|by exists None; auto]. destruct addr; try done; cbn; exists (a_socket an); auto using connector_open_ok.
  - destruct (build_unix_address path); [|by exists None; auto]. exists (a_socket an); auto using connector_open_ok.
Qed.

Lemma listener_free_ok now a r o ready : BReactor.inv now r -> listener_inv (view_of r a) o ready ->
  exists r' out, BListener_Free a r o = Ok (r', Closed (lfd o) :: out) /\ Forall (fun x => exists p, x = Unlink p) out /\
    BReactor.inv now r' /\ only a r r' /\ view_of r' a = gone.
Proof.
  intros Hi [Hv _]. unfold BListener_Free. destruct (BPending_Free_ok now a r P_default_job Hi) as (Hi1 & Ho1 & Hv1). rewrite Hv in Hv1.
  set (r1 := BPending_Free (field a P_default_job) r) in *.
  destruct (remove_fd_yields now a r1 BReactor.BREACTOR_READ Hi1) as (r2 & E2 & Hi2 & Hv2 & Ho2); [by rewrite Hv1|]. rewrite E2. cbn [mbind outcome_bind].
  eexists r2, _. split; [done|]. split; [destruct (unix_socket_path o); repeat constructor; eauto|]. split; [done|]. split; [by eapply only_trans|].
  rewrite Hv2, Hv1. by destruct ready.
Qed.

Lemma connector_free_ok now a r o p : BReactor.inv now r -> connector_inv (view_of r a) o p ->
  exists r', BConnector_Free a r o = Ok (r', if negb (cfd o =? -1) then [Closed (cfd o)] else []) /\
    BReactor.inv now r' /\ only a r r' /\ view_of r' a = gone.
Proof.
  intros Hi Hv. unfold BConnector_Free.
  assert (exists r1, (if have_bfd o then BReactor.BReactor_RemoveFileDescriptor (field a P_bfd) r else Ok r) = Ok r1 /\ BReactor.inv now r1 /\ only a r r1 /\
    view_of r1 a = v_put_jobs (v_jobs (view_of r a)) gone) as (r1 & -> & Hi1 & Ho1 & Hv1).
  { destruct p; cbn in Hv; [destruct Hv as [_ [(-> & _ & Hv)|(-> & _ & Hv)]]|destruct Hv as (_ & -> & _ & Hv)|destruct Hv as (_ & -> & Hv)|destruct Hv as (_ & -> & Hv)];
    [|exists r; by rewrite Hv..].
    destruct (remove_fd_yields now a r BReactor.BREACTOR_WRITE Hi) as (r2 & E2 & Hi2 & Hv2 & Ho2); [by rewrite Hv|]. exists r2. rewrite Hv2, Hv. done. }
  cbn [mbind outcome_bind]. destruct (BPending_Free_ok now a r1 P_job Hi1) as (Hi2 & Ho2 & Hv2). eexists. split; [done|]. split; [done|]. split; [by eapply only_trans|].
  rewrite Hv2, Hv1. assert (v_jobs (view_of r a) = [] \/ v_jobs (view_of r a) = [P_job]) as [-> | ->]; [|done..].
  destruct p; cbn [connector_inv] in Hv; [destruct Hv as [_ [(_ & _ & ->)|(_ & _ & ->)]]|destruct Hv as (_ & _ & _ & ->)|destruct Hv as (_ & _ & ->)..]; auto.
Qed.
End proofs.
End SocketProofs.
