(* ===== verification/ConnectionSystem.v ===== *)
(** The system of listeners, connectors and connections of Connection.v refines
    its specification: who owns which descriptor, the invariant of the whole
    system, that every call of the user and every handler keeps it, and the
    theorems about runs. *)
From Stdlib Require Import ZArith Lia.
From stdpp Require Import base tactics numbers option countable gmap list.
From S2P Require Import Prelude LinkedList Bavl Trees Reactor Addr FlowInterfaces Connection ConnectionProofs.

Module SocketSystem.
Import StreamInterface Sockets SocketProofs.

(** ** Descriptors *)
Definition uses (o : object) : option Z :=
  match o with
  | Listener o => Some (lfd o)
  | Connector o => if cfd o =? -1 then None else Some (cfd o)
  | Connection o => Some (fd o)
  end.
Definition borrows (o : object) : bool := match o with Connection o => negb (close_fd o) | _ => false end.

(** The open descriptors are those of the user and those of the objects; an
    object has its own one, or uses one of the user's. *)
Record owned (m : gmap loc object) (open user : gset Z) : Prop := {
  ow_open : forall f, f ∈ open <-> f ∈ user \/ exists a o, m !! a = Some o /\ uses o = Some f;
  ow_once : forall a b o o' f, m !! a = Some o -> m !! b = Some o' -> uses o = Some f -> uses o' = Some f -> a = b;
  ow_user : forall a o f, m !! a = Some o -> uses o = Some f -> (f ∈ user <-> borrows o = true);
  ow_pos : forall f, f ∈ open -> 0 <= f
}.

Lemma owned_update m op us a o o' : owned m op us -> m !! a = Some o -> uses o' = uses o -> borrows o' = borrows o -> owned (<[a := o']> m) op us.
Proof.
  intros [H1 H2 H3 H4] Ha Hu Hb. constructor; [| | |done].
  - intros f. rewrite H1. apply or_iff_compat_l. split; intros (b & x & Hx & Hf).
    + destruct (decide (a = b)) as [<-|Hne]; [exists a, o'; rewrite lookup_insert_eq; split; [done|congruence]|exists b, x; by rewrite lookup_insert_ne].
    + destruct (decide (a = b)) as [<-|Hne]; [rewrite lookup_insert_eq in Hx; exists a, o; simplify_eq; split; congruence|rewrite lookup_insert_ne in Hx by done; eauto].
  - intros b1 b2 x1 x2 f E1 E2 F1 F2.
    assert (exists y1, m !! b1 = Some y1 /\ uses y1 = Some f) as (y1 & ? & ?) by (destruct (decide (a = b1)) as [<-|]; [rewrite lookup_insert_eq in E1|rewrite lookup_insert_ne in E1 by done]; naive_solver congruence).
    assert (exists y2, m !! b2 = Some y2 /\ uses y2 = Some f) as (y2 & ? & ?) by (destruct (decide (a = b2)) as [<-|]; [rewrite lookup_insert_eq in E2|rewrite lookup_insert_ne in E2 by done]; naive_solver congruence).
    by eapply H2.
  - intros b x f E F. destruct (decide (a = b)) as [<-|]; [rewrite lookup_insert_eq in E; simplify_eq; rewrite Hb; eapply H3; [done|congruence]|].
    rewrite lookup_insert_ne in E by done. by eapply H3.
Qed.

(** An object appears that uses a descriptor no other object uses. *)
Lemma owned_add m op us a o f : owned m op us -> m !! a = None -> uses o = Some f -> 0 <= f -> (borrows o = true <-> f ∈ us) ->
  (forall b x, m !! b = Some x -> uses x <> Some f) -> owned (<[a := o]> m) ({[f]} ∪ op) us.
Proof.
  intros [H1 H2 H3 H4] Ha Hu Hp Hb Hno. constructor.
  - intros g. rewrite elem_of_union, elem_of_singleton, H1. split.
    + intros [->|[?|(b & x & Hx & Hf)]]; [right; exists a, o; by rewrite lookup_insert_eq|by left|].
      right. exists b, x. rewrite lookup_insert_ne; [done|]. congruence.
    + intros [?|(b & x & Hx & Hf)]; [auto|]. destruct (decide (a = b)) as [<-|]; [rewrite lookup_insert_eq in Hx; left; congruence|].
      rewrite lookup_insert_ne in Hx by done. right; right; eauto.
  - intros b1 b2 x1 x2 g E1 E2 F1 F2. destruct (decide (a = b1)) as [<-|]; [rewrite lookup_insert_eq in E1|rewrite lookup_insert_ne in E1 by done];
    (destruct (decide (a = b2)) as [<-|]; [rewrite lookup_insert_eq in E2|rewrite lookup_insert_ne in E2 by done]); simplify_eq; try done; [|..].
    + by destruct (Hno _ _ E2).
    + by destruct (Hno _ _ E1).
    + by eapply H2.
  - intros b x g E F. destruct (decide (a = b)) as [<-|]; [rewrite lookup_insert_eq in E; simplify_eq; naive_solver|rewrite lookup_insert_ne in E by done; by eapply H3].
  - intros g. rewrite elem_of_union, elem_of_singleton. naive_solver.
Qed.

(** An object goes, with its descriptor or without. *)
Lemma owned_delete m op us a o : owned m op us -> m !! a = Some o ->
  owned (delete a m) (match uses o with Some f => if borrows o then op else op ∖ {[f]} | None => op end) us.
Proof.
  intros [H1 H2 H3 H4] Ha.
  assert (forall g, (exists b x, delete a m !! b = Some x /\ uses x = Some g) <-> (exists b x, m !! b = Some x /\ uses x = Some g) /\ uses o <> Some g) as Hex.
  { intros g. split.
    - intros (b & x & [Hne E]%lookup_delete_Some & F). split; [eauto|]. intros Ho. apply Hne. by eapply H2.
    - intros [(b & x & E & F) Hne]. exists b, x. split; [|done]. apply lookup_delete_Some. split; [|done]. intros <-. congruence. }
  constructor.
  - intros g. rewrite Hex. destruct (uses o) as [f|] eqn:Eu; [|rewrite H1; naive_solver].
    pose proof (H3 a o f Ha Eu) as Hus. destruct (borrows o) eqn:Eb.
    + rewrite H1. destruct (decide (f = g)) as [<-|]; naive_solver.
    + rewrite elem_of_difference, elem_of_singleton, H1. destruct (decide (g = f)) as [->|]; naive_solver.
  - intros b1 b2 x1 x2 g [_ E1]%lookup_delete_Some [_ E2]%lookup_delete_Some F1 F2. by eapply H2.
  - intros b x g [_ E]%lookup_delete_Some F. by eapply H3.
  - intros g Hg. apply H4. destruct (uses o); [destruct (borrows o)|]; set_solver.
Qed.

Lemma owned_add_none m op us a o : owned m op us -> m !! a = None -> uses o = None -> owned (<[a := o]> m) op us.
Proof.
  intros [H1 H2 H3 H4] Ha Hu. assert (forall b x g, <[a := o]> m !! b = Some x /\ uses x = Some g <-> m !! b = Some x /\ uses x = Some g) as Hb.
  { intros b x g. destruct (decide (a = b)) as [<-|Hne]; [rewrite lookup_insert_eq|by rewrite lookup_insert_ne]. naive_solver congruence. }
  constructor; [intros g; rewrite H1; setoid_rewrite Hb; done| | |done].
  - intros b1 b2 x1 x2 g E1 E2 F1 F2. destruct (proj1 (Hb b1 x1 g)), (proj1 (Hb b2 x2 g)); try done. by eapply H2.
  - intros b x g E F. destruct (proj1 (Hb b x g)); try done. by eapply H3.
Qed.

(** A descriptor of the user's that no object uses comes or goes. *)
Lemma owned_user_add m op us f : owned m op us -> f ∉ op -> 0 <= f -> owned m ({[f]} ∪ op) ({[f]} ∪ us).
Proof.
  intros [H1 H2 H3 H4] Hf Hp. assert (forall a o, m !! a = Some o -> uses o <> Some f) as Hno.
  { intros a o Ha Hu. apply Hf, H1. right. eauto. }
  constructor; [|done| |set_solver].
  - intros g. rewrite !elem_of_union, H1. tauto.
  - intros a o g Ha Hu. rewrite elem_of_union, elem_of_singleton, <- (H3 a o g Ha Hu). split; [|auto]. intros [->|?]; [|done]. by destruct (Hno a o).
Qed.
Lemma owned_user_remove m op us f : owned m op us -> (forall a o, m !! a = Some o -> uses o <> Some f) -> owned m (op ∖ {[f]}) (us ∖ {[f]}).
Proof.
  intros [H1 H2 H3 H4] Hno. constructor; [|done| |set_solver].
  - intros g. rewrite !elem_of_difference, elem_of_singleton, H1. split; [naive_solver|]. intros [?|(a & o & Ha & Hu)]; [naive_solver|]. split; [eauto|]. intros ->. by destruct (Hno a o).
  - intros a o g Ha Hu. rewrite elem_of_difference, elem_of_singleton, (H3 a o g Ha Hu). split; [naive_solver|]. intros ?. split; [done|]. intros ->. by destruct (Hno a o).
Qed.

(** ** The invariant of the system *)
Section system.
Context {T : Type} `{!Tree BReactor.compare_timers T, !OrderedTree BReactor.compare_timers T}.
Abbreviation reactor_t := (BReactor.BReactor (T := T)).
Implicit Types (r : reactor_t) (a b : loc) (S : spec).

Definition obj_inv a (v : view) (errs : gset Z) (mo : option object) (ms : option sobj) : Prop :=
  match mo, ms with
  | None, None => v = gone
  | Some (Listener o), Some (SListener ready) => listener_inv v o ready
  | Some (Connector o), Some (SConnector p) => connector_inv v o p
  | Some (Connection o), Some (SConn c) => conn_inv a v (bool_decide (fd o ∈ errs)) o c
  | _, _ => False
  end.

Record inv (now : Z) r (m : gmap loc object) (k : kernel) (S : spec) : Prop := {
  si_reactor : BReactor.inv now r;
  si_objs : forall a, obj_inv a (view_of r a) (err k) (m !! a) (s_objs S !! a);
  si_owned : owned m (open k) (s_user S)
}.

Lemma obj_conn a v errs mo c : obj_inv a v errs mo (Some (SConn c)) -> exists o, mo = Some (Connection o) /\ conn_inv a v (bool_decide (fd o ∈ errs)) o c.
Proof. destruct mo as [[| |o]|]; cbn; [done|done|eauto|done]. Qed.
Lemma obj_frame a v errs errs' mo ms : (forall o, mo = Some (Connection o) -> (fd o ∈ errs' <-> fd o ∈ errs)) -> obj_inv a v errs mo ms -> obj_inv a v errs' mo ms.
Proof.
  intros H. unfold obj_inv. destruct mo as [[| |o]|], ms as [[| |c]|]; try done. by rewrite (bool_decide_ext _ _ (H o eq_refl)).
Qed.
Lemma other_fd m op us a b oa o f : owned m op us -> m !! a = Some oa -> uses oa = Some f -> b <> a -> m !! b = Some (Connection o) -> fd o <> f.
Proof. intros H Ha Hu Hne Hb <-. apply Hne. by eapply (ow_once _ _ _ H). Qed.

(** What the outputs of a connection do to the specification and the kernel. *)
Lemma conn_outs_spec a f out : forall c c' S, Forall (own a f) out -> s_objs S !! a = Some (SConn c) -> conn_outs c out = Some c' ->
  spec_run S (map Out out) = Some (s_put a (Some (SConn c')) S).
Proof.
  induction out as [|x out IH]; intros c c' S Ho Hs Hc; cbn in Hc |- *.
  - injection Hc as <-. unfold s_put. rewrite insert_id by done. by destruct S.
  - apply Forall_cons in Ho as [Hx Ho]. destruct (conn_output c x) as [c1|] eqn:E; [|done]. cbn in Hc.
    assert (after_output S x = Some (s_put a (Some (SConn c1)) S)) as ->.
    { unfold after_output, s_conn. destruct x; cbn in Hx; try done; try destruct Hx; subst; rewrite Hs; cbn; by rewrite E. }
    cbn. rewrite (IH c1 c'); [|done|cbn; by rewrite lookup_insert_eq|done]. unfold s_put. cbn. by rewrite insert_insert_eq.
Qed.
Lemma conn_outs_kernel a f out : forall k, Forall (own a f) out -> f ∈ open k ->
  kernel_steps k out = Ok (mkKernel (open k) (if existsb is_io out then err k ∖ {[f]} else err k)).
Proof.
  induction out as [|x out IH]; intros k Ho Hf; cbn [kernel_steps existsb]; [by destruct k|]. apply Forall_cons in Ho as [Hx Ho].
  destruct x; cbn in Hx; try done; try destruct Hx; subst; cbn [kernel_step is_io orb mbind outcome_bind]; try (by apply IH);
  (rewrite bool_decide_eq_true_2 by done; cbn [ASSERT mbind outcome_bind]; rewrite IH by done; cbn; f_equal; f_equal; case_match; set_solver).
Qed.

(** A connection does something, the others are as they were. *)
Lemma conn_world now r m k S a o c e mres : m !! a = Some (Connection o) -> s_objs S !! a = Some (SConn c) -> owned m (open k) (s_user S) ->
  e = bool_decide (fd o ∈ err k) -> (forall b, b <> a -> obj_inv b (view_of r b) (err k) (m !! b) (s_objs S !! b)) ->
  conn_does now a r e o c mres ->
  exists r' o' out k' S', mres = Ok (r', o', out) /\ kernel_steps k out = Ok k' /\ spec_run S (map Out out) = Some S' /\
    inv now r' (<[a := Connection o']> m) k' S'.
Proof.
  intros Hm Hs Hown -> Hoth (r' & o' & out & c' & -> & Hi & Ho & Hc & Hout & Hf & Hfd & Hcl).
  assert (fd o ∈ open k) as Hopen by (apply (ow_open _ _ _ Hown); right; exists a, (Connection o); done).
  eexists r', o', out, _, _. split; [done|]. split; [by eapply conn_outs_kernel|]. split; [by eapply conn_outs_spec|].
  constructor; [done| |].
  - intros b. cbn. destruct (decide (a = b)) as [<-|Hne].
    + rewrite !lookup_insert_eq. cbn. rewrite Hfd. replace (bool_decide (fd o ∈ _)) with (bool_decide (fd o ∈ err k) && negb (existsb is_io out)); [done|].
      destruct (existsb is_io out); cbn; [rewrite andb_false_r; symmetry; apply bool_decide_eq_false_2; set_solver|apply andb_true_r].
    + rewrite !lookup_insert_ne by done. rewrite Ho by done. eapply obj_frame; [|by apply Hoth]. intros ob Hob.
      pose proof (other_fd m _ _ a b _ ob (fd o) Hown Hm eq_refl (not_eq_sym Hne) Hob). destruct (existsb is_io out); set_solver.
  - cbn. eapply owned_update; [done|done|cbn; by rewrite Hfd|cbn; by rewrite Hcl].
Qed.

Lemma conn_user now r m k S a o c' r' o' : inv now r m k S -> m !! a = Some (Connection o) ->
  conn_becomes now a r (bool_decide (fd o ∈ err k)) o c' r' o' -> inv now r' (<[a := Connection o']> m) k (s_put a (Some (SConn c')) S).
Proof.
  intros [Hr Ho Hown] Hm (Hi & Hon & Hc & Hfd & Hcl). constructor; [done| |].
  - intros b. cbn. destruct (decide (a = b)) as [<-|Hne]; [rewrite !lookup_insert_eq; cbn; by rewrite Hfd|].
    rewrite !lookup_insert_ne by done. rewrite Hon by done. apply Ho.
  - cbn. eapply owned_update; [done|done|cbn; by rewrite Hfd|cbn; by rewrite Hcl].
Qed.

(** ** Objects come and go *)
Lemma rest_kernel f keep out : forall k, rest_ok f keep out = true -> f ∈ open k ->
  kernel_steps k out = Ok (if keep then k else mkKernel (open k ∖ {[f]}) (err k ∖ {[f]})).
Proof.
  induction out as [|x out IH]; intros k H Hf; cbn in H; [by subst|]. destruct x; try done; try (by apply IH).
  - apply andb_true_iff in H as [->%Z.eqb_eq H]. cbn. rewrite bool_decide_eq_true_2 by done. cbn. by apply IH.
  - rewrite !andb_true_iff, negb_true_iff in H. destruct H as [[->%Z.eqb_eq ->] H]. destruct out; [|done]. cbn. by rewrite bool_decide_eq_true_2.
Qed.
Lemma rest_spec f keep out : forall S, rest_ok f keep out = true -> f ∉ s_user S -> spec_run S (map Out out) = Some S.
Proof.
  induction out as [|x out IH]; intros S H Hf; cbn in H; [done|]. destruct x; try done; try (by apply IH).
  - apply andb_true_iff in H as [_ H]. by apply IH.
  - rewrite !andb_true_iff in H. destruct H as [[->%Z.eqb_eq _] H]. destruct out; [|done]. cbn. by rewrite bool_decide_eq_false_2.
Qed.

Definition s_made a (so : sobj) (ok : bool) S : spec := if ok then s_put a (Some so) S else S.

(** An object is made for a descriptor that belongs to nobody, or the
    descriptor is closed. *)
Lemma attach_world now r m k S a f r' (mo : option object) out so :
  BReactor.inv now r' -> only a r r' -> (forall b, b <> a -> obj_inv b (view_of r b) (err k) (m !! b) (s_objs S !! b)) ->
  m !! a = None -> s_objs S !! a = None -> owned m (open k ∖ {[f]}) (s_user S) -> f ∈ open k -> 0 <= f -> rest_ok f (bool_decide (is_Some mo)) out = true ->
  match mo with
  | Some o => uses o = Some f /\ borrows o = false /\ forall errs, obj_inv a (view_of r' a) errs (Some o) (Some so)
  | None => view_of r' a = gone
  end ->
  exists k', kernel_steps k out = Ok k' /\ spec_run (s_made a so (bool_decide (is_Some mo)) S) (map Out out) = Some (s_made a so (bool_decide (is_Some mo)) S) /\
    inv now r' (put a mo m) k' (s_made a so (bool_decide (is_Some mo)) S).
Proof.
  intros Hi Hon Hoth Hma Hsa Hown Hf Hp Hrest Hmo. set (ok := bool_decide (is_Some mo)) in *.
  assert (f ∉ s_user S) as Hus by (intros H; assert (f ∈ open k ∖ {[f]}) by (apply (ow_open _ _ _ Hown); by left); set_solver).
  assert (forall b o, m !! b = Some o -> uses o <> Some f) as Hno.
  { intros b o Hb Hu. assert (f ∈ open k ∖ {[f]}) by (apply (ow_open _ _ _ Hown); right; eauto). set_solver. }
  exists (if ok then k else mkKernel (open k ∖ {[f]}) (err k ∖ {[f]})). split; [by apply rest_kernel|].
  split; [eapply rest_spec; [done|]; by destruct ok|]. destruct mo as [o|]; cbn in ok; subst ok; cbn [bool_decide decide_rel]; cbn.
  - destruct Hmo as (Hu & Hb & Hobj). constructor; [done| |].
    + intros b. cbn. destruct (decide (a = b)) as [<-|Hne]; [rewrite !lookup_insert_eq; apply Hobj|]. rewrite !lookup_insert_ne by done. rewrite Hon by done. by apply Hoth.
    + replace (open k) with ({[f]} ∪ open k ∖ {[f]}) by (apply leibniz_equiv; intros g; destruct (decide (g = f)); set_solver).
      cbn. apply (owned_add _ _ _ _ _ f); try done. split; [congruence|done].
  - rewrite delete_id by done. constructor; [done| |done]. intros b. destruct (decide (a = b)) as [<-|Hne]; [rewrite Hma, Hsa; by cbn|].
    rewrite Hon by done. eapply obj_frame; [|by apply Hoth]. intros o Ho. cbn. pose proof (Hno b _ Ho). cbn in *. set_solver.
Qed.

Lemma init_world_ok now r m k S a mf r' (mo : option object) out so :
  inv now r m k S -> m !! a = None -> s_objs S !! a = None -> BReactor.inv now r' -> only a r r' -> init_outs mf (bool_decide (is_Some mo)) out ->
  (forall f, mf = Some f -> 0 <= f /\ f ∉ open k) ->
  match mo with
  | Some o => uses o = mf /\ borrows o = false /\ forall errs, obj_inv a (view_of r' a) errs (Some o) (Some so)
  | None => view_of r' a = gone
  end ->
  exists k', kernel_steps k out = Ok k' /\ spec_run (s_made a so (bool_decide (is_Some mo)) S) (map Out out) = Some (s_made a so (bool_decide (is_Some mo)) S) /\
    inv now r' (put a mo m) k' (s_made a so (bool_decide (is_Some mo)) S).
Proof.
  intros [Hr Hobjs Hown] Hma Hsa Hi Hon Hout Hfresh Hmo. destruct mf as [f|]; cbn in Hout.
  - destruct Hout as (rest & -> & Hrest). destruct (Hfresh f eq_refl) as [Hp Hf].
    destruct (attach_world now r m (mkKernel ({[f]} ∪ open k) (err k)) S a f r' mo rest so) as (k' & Hk & Hs & Hi'); try done.
    + cbn. replace (({[f]} ∪ open k) ∖ {[f]}) with (open k); [done|]. apply leibniz_equiv. intros g. destruct (decide (g = f)); set_solver.
    + cbn. set_solver.
    + by exists k'.
  - destruct Hout as [-> Hno]. destruct mo; [by cbn in Hno|]. exists k. split; [done|]. split; [done|]. cbn. rewrite delete_id by done.
    constructor; [done| |done]. intros b. destruct (decide (a = b)) as [<-|Hne]; [rewrite Hma, Hsa; by cbn|]. rewrite Hon by done. apply Hobjs.
Qed.

Lemma unlinks_done out : forall k S, Forall (fun x => exists p, x = Unlink p) out -> kernel_steps k out = Ok k /\ spec_run S (map Out out) = Some S.
Proof. induction out as [|x out IH]; intros k S H; [done|]. apply Forall_cons in H as [(p & ->) H]. cbn. by apply IH. Qed.

(** An object is freed, and its descriptor closed unless it is the user's. *)
Lemma free_world_ok now r m k S a o r' rest :
  inv now r m k S -> m !! a = Some o -> BReactor.inv now r' -> only a r r' -> view_of r' a = gone -> Forall (fun x => exists p, x = Unlink p) rest ->
  let out := match uses o with Some f => if borrows o then [] else [Closed f] | None => [] end ++ rest in
  exists k', kernel_steps k out = Ok k' /\ spec_run (s_put a None S) (map Out out) = Some (s_put a None S) /\
    inv now r' (put a None m) k' (s_put a None S).
Proof.
  intros [Hr Hobjs Hown] Hm Hi Hon Hv Hrest out.
  pose (k' := match uses o with Some f => if borrows o then k else mkKernel (open k ∖ {[f]}) (err k ∖ {[f]}) | None => k end).
  assert (kernel_steps k out = Ok k' /\ spec_run (s_put a None S) (map Out out) = Some (s_put a None S)) as [Hk Hs].
  { unfold out, k'. destruct (uses o) as [f|] eqn:Eu; [|by apply unlinks_done]. destruct (borrows o) eqn:Eb; [by apply unlinks_done|].
    assert (f ∈ open k) as Hf by (apply (ow_open _ _ _ Hown); eauto). assert (f ∉ s_user S) as Hus by (rewrite (ow_user _ _ _ Hown a o f Hm Eu); congruence).
    cbn. rewrite bool_decide_eq_true_2, bool_decide_eq_false_2 by done. by apply unlinks_done. }
  exists k'. split; [done|]. split; [done|]. constructor; [done| |].
  - intros b. cbn. destruct (decide (a = b)) as [<-|Hne]; [by rewrite !lookup_delete_eq|]. rewrite !lookup_delete_ne by done. rewrite Hon by done.
    eapply obj_frame; [|apply Hobjs]. intros ob Hob. unfold k'. destruct (uses o) as [f|] eqn:Eu; [|done]. destruct (borrows o); [done|]. cbn.
    pose proof (other_fd m _ _ a b _ ob f Hown Hm Eu (not_eq_sym Hne) Hob). set_solver.
  - cbn. replace (open k') with (match uses o with Some f => if borrows o then open k else open k ∖ {[f]} | None => open k end) by (unfold k'; by destruct (uses o), (borrows o)).
    by apply owned_delete.
Qed.

(** ** Connections are made *)
Definition new_conn (bw : option Z) : sobj := SConn (mkSConn true false bw None None).
Definition connection_made (now : Z) a r (k : kernel) S (bw : option Z) (m : outcome (reactor_t * gmap loc object * option BConnection * list output)) : Prop :=
  exists r' m' mo out k', m = Ok (r', m', mo, out) /\ kernel_steps k out = Ok k' /\
    spec_run (s_made a (new_conn bw) (bool_decide (is_Some mo)) S) (map Out out) = Some (s_made a (new_conn bw) (bool_decide (is_Some mo)) S) /\
    inv now r' (put a (Connection <$> mo) m') k' (s_made a (new_conn bw) (bool_decide (is_Some mo)) S).

Lemma is_Some_fmap {A B} (f : A -> B) (x : option A) : bool_decide (is_Some (f <$> x)) = bool_decide (is_Some x).
Proof. by destruct x. Qed.

(** The second half, for a descriptor that the connection is to own. *)
Lemma open_owned now r m k S a f an out0 : BReactor.inv now r -> view_of r a = gone -> (forall b, b <> a -> obj_inv b (view_of r b) (err k) (m !! b) (s_objs S !! b)) ->
  m !! a = None -> s_objs S !! a = None -> owned m (open k ∖ {[f]}) (s_user S) -> f ∈ open k -> 0 <= f -> rest_ok f true out0 = true ->
  connection_made now a r k S None (connection_open a f true an r ≫= fun '((r, o, out) : reactor_t * option BConnection * list output) => Ok (r, m, o, out0 ++ out)).
Proof.
  intros Hi Hv Hoth Hma Hsa Hown Hf Hp Hrest. destruct (connection_open_ok now a f true an r Hi Hv) as (r' & mo & E & Hi' & Ho' & Hmo).
  rewrite E. cbn [mbind outcome_bind]. unfold connection_made. eexists r', m, mo, _.
  assert (forall keep out1, rest_ok f keep out1 = true -> rest_ok f keep (out0 ++ out1) = true) as Happ.
  { clear -Hrest. intros keep out1 H1. revert Hrest. induction out0 as [|x l IH]; cbn; [done|]. destruct x; try done.
    - intros [-> H]%andb_true_iff. by rewrite IH. - by rewrite andb_false_r. }
  destruct (attach_world now r m k S a f r' (Connection <$> mo) (out0 ++ match mo with Some _ => [] | None => fail1 true f end) (new_conn None)) as (k' & Hk & Hs & Hi2); try done.
  - apply Happ. destruct mo; [done|]. cbn. by rewrite Z.eqb_refl.
  - destruct mo as [o|]; [|done]. destruct Hmo as (E1 & E2 & Hc). cbn. rewrite E1, E2. split_and!; [done|done|]. intros errs. apply Hc.
  - rewrite is_Some_fmap in Hs, Hi2. by exists k'.
Qed.

Lemma view_gone now r m k S a : inv now r m k S -> s_objs S !! a = None -> view_of r a = gone /\ m !! a = None.
Proof. intros Hi Hs. pose proof (si_objs _ _ _ _ _ Hi a) as H. rewrite Hs in H. by destruct (m !! a) as [[]|]. Qed.

(** The connection that a listener reported is taken. *)
Lemma listener_taken now r m k S l lo : inv now r m k S -> m !! l = Some (Listener lo) -> s_objs S !! l = Some (SListener true) ->
  BPending_IsSet (field l P_default_job) r = true /\ inv now (BPending_Free (field l P_default_job) r) m k (s_put l (Some (SListener false)) S).
Proof.
  intros [Hr Hobjs Hown] Hm Hs. pose proof (Hobjs l) as Hl. rewrite Hm, Hs in Hl. destruct Hl as [Hv Hp].
  rewrite BPending_IsSet_view, Hv. split; [done|]. destruct (BPending_Free_ok now l r P_default_job Hr) as (Hi & Ho & Hv').
  constructor; [done| |done]. intros b. cbn. destruct (decide (l = b)) as [<-|Hne]; [rewrite lookup_insert_eq, Hm, Hv', Hv; done|].
  rewrite lookup_insert_ne, Ho by done. apply Hobjs.
Qed.

Definition quiet (x : output) : bool := match x with Sys _ _ | Unlink _ | PeerAddr _ _ | Opened _ => true | _ => false end.
Lemma quiet_spec out : forall S, forallb quiet out = true -> spec_run S (map Out out) = Some S.
Proof. induction out as [|x out IH]; intros S H; cbn in H; [done|]. destruct x; try done; by apply IH. Qed.

Definition prefix {A} (pre : list output) (m : outcome (A * list output)) : outcome (A * list output) :=
  m ≫= fun '((x, out) : A * list output) => Ok (x, pre ++ out).
Lemma kernel_app out out' : forall k, kernel_steps k (out ++ out') = kernel_steps k out ≫= fun k => kernel_steps k out'.
Proof. induction out as [|x out IH]; intros k; [done|]. cbn. destruct (kernel_step k x); cbn; auto. Qed.
Lemma spec_app tr tr' : forall S, spec_run S (tr ++ tr') = spec_run S tr ≫= fun S => spec_run S tr'.
Proof. induction tr as [|x tr IH]; intros S; [done|]. cbn. destruct (spec_step S x); cbn; auto. Qed.
Lemma made_prefix now a r r1 k k1 S bw pre m : connection_made now a r1 k1 S bw m -> kernel_steps k pre = Ok k1 -> forallb quiet pre = true ->
  connection_made now a r k S bw (prefix pre m).
Proof.
  intros (r' & m' & mo & out & k' & -> & Hk & Hs & Hi) Hpre Hq. eexists r', m', mo, _, k'. split; [done|].
  split; [by rewrite kernel_app, Hpre|]. split; [|done]. rewrite map_app, spec_app, quiet_spec by done. exact Hs.
Qed.

Lemma peer_ok a sa (oa : bool) : valid_sys_addr sa ->
  exists peer, (if oa then addr_sys_to_socket sa ≫= fun addr => Ok [PeerAddr a addr] else Ok []) = Ok peer /\ forall f, rest_ok f true peer = true.
Proof.
  intros H. destruct oa; [|by exists []]. unfold valid_sys_addr in H. unfold addr_sys_to_socket.
  destruct (Sockets.sa sa); rewrite ?H; cbn; eauto.
Qed.

Lemma init_from_listener now r m k S a l oa an : inv now r m k S -> s_objs S !! a = None -> s_objs S !! l = Some (SListener true) -> answers_ok k an ->
  connection_made now a r k (s_put l (Some (SListener false)) S) None (BConnection_Init a (BCONNECTION_SOURCE_TYPE_LISTENER l oa) an r m).
Proof.
  intros Hi Ha Hl Han. assert (a <> l) as Hne by congruence.
  assert (exists lo, m !! l = Some (Listener lo)) as (lo & Hm) by (pose proof (si_objs _ _ _ _ _ Hi l) as H; rewrite Hl in H; destruct (m !! l) as [[]|]; eauto; done).
  destruct (listener_taken now r m k S l lo Hi Hm Hl) as [Hset Hi1]. cbn [BConnection_Init]. rewrite Hm, Hset. cbn [ASSERT mbind outcome_bind].
  set (S1 := s_put l (Some (SListener false)) S) in *. set (r1 := BPending_Free (field l P_default_job) r) in *.
  assert (s_objs S1 !! a = None) as Ha1 by (cbn; by rewrite lookup_insert_ne). destruct (view_gone _ _ _ _ _ _ Hi1 Ha1) as [Hv Hma].
  assert (lfd lo ∈ open k) as Hlf by (apply (ow_open _ _ _ (si_owned _ _ _ _ _ Hi)); right; by exists l, (Listener lo)).
  destruct (a_accept an) as [[f sa]|] eqn:Eacc.
  2:{ eexists r1, m, None, _, k. split; [done|]. split; [cbn; by rewrite bool_decide_eq_true_2|]. split; [done|]. cbn. rewrite delete_id by done. exact Hi1. }
  destruct (ok_accept _ _ Han f sa Eacc) as (Hp & Hnew & Haddr). pose (k1 := mkKernel ({[f]} ∪ open k) (err k)).
  assert (owned m (open k1 ∖ {[f]}) (s_user S1)) as Hown1.
  { cbn. replace (({[f]} ∪ open k) ∖ {[f]}) with (open k) by (apply leibniz_equiv; intros g; destruct (decide (g = f)); set_solver). apply Hi1. }
  assert (kernel_steps k [Sys sys_accept (lfd lo); Opened f] = Ok k1) as Hk1 by (cbn; by rewrite bool_decide_eq_true_2).
  assert (f ∈ open k1) as Hf1 by (cbn; set_solver).
  unfold badvpn_set_nonblocking. destruct (a_fcntl an); cbn [negb].
  - destruct (peer_ok a sa oa Haddr) as (peer & -> & Hpeer). cbn [mbind outcome_bind].
    assert (rest_ok f true (Sys sys_fcntl f :: peer) = true) as Hrest by (cbn; rewrite Z.eqb_refl; apply Hpeer).
    pose proof (open_owned now r1 m k1 S1 a f an _ (si_reactor _ _ _ _ _ Hi1) Hv (fun b _ => si_objs _ _ _ _ _ Hi1 b) Hma Ha1 Hown1 Hf1 Hp Hrest) as Hmade.
    apply (made_prefix _ _ r r1 k k1 _ _ _ _) with (2 := Hk1) in Hmade; [|done].
    unfold prefix in Hmade. destruct (connection_open a f true an r1) as [[[? ?] ?]|]; cbn in Hmade |- *; done.
  - destruct (attach_world now r1 m k1 S1 a f r1 None [Sys sys_fcntl f; Closed f] (new_conn None)) as (k' & Hk & Hs & Hi2); try done.
    + apply Hi1. + intros b _. apply Hi1. + cbn. by rewrite Z.eqb_refl.
    + eexists r1, m, None, _, k'. split; [done|]. cbn [app]. change (Sys sys_accept (lfd lo) :: Opened f :: ?x) with ([Sys sys_accept (lfd lo); Opened f] ++ x).
      split; [rewrite kernel_app, Hk1; exact Hk|]. split; [exact Hs|exact Hi2].
Qed.

(** A connector gives its connection away. *)
Lemma init_from_connector now r m k S a c an : inv now r m k S -> s_objs S !! a = None -> s_objs S !! c = Some (SConnector CReady) ->
  connection_made now a r k (s_put c (Some (SConnector CMoved)) S) None (BConnection_Init a (BCONNECTION_SOURCE_TYPE_CONNECTOR c) an r m).
Proof.
  intros Hi Ha Hc. assert (a <> c) as Hne by congruence. destruct (view_gone _ _ _ _ _ _ Hi Ha) as [Hv Hma]. pose proof Hi as [Hr Hobjs Hown].
  assert (exists co, m !! c = Some (Connector co) /\ connector_inv (view_of r c) co CReady) as (co & Hm & Hp & Hb & Hcon & Hvc).
  { pose proof (Hobjs c) as H. rewrite Hc in H. destruct (m !! c) as [[]|]; eauto; done. }
  cbn [BConnection_Init]. rewrite Hm, Hb, Hcon, BPending_IsSet_view, Hvc, (proj2 (Z.leb_le _ _)) by done. cbn [negb ASSERT mbind outcome_bind].
  rewrite bool_decide_eq_false_2 by set_solver. cbn [negb ASSERT mbind outcome_bind].
  set (m1 := <[c := Connector (mkConnector (-1) true false)]> m). set (S1 := s_put c (Some (SConnector CMoved)) S).
  assert (uses (Connector co) = Some (cfd co)) as Hu by (cbn; by rewrite (proj2 (Z.eqb_neq _ _)) by lia).
  assert (cfd co ∈ open k) as Hf by (apply (ow_open _ _ _ Hown); right; eauto).
  pose proof (open_owned now r m1 k S1 a (cfd co) an [] Hr Hv) as Hmade. apply Hmade; clear Hmade; try done.
  - intros b Hb'. cbn. unfold m1. destruct (decide (c = b)) as [<-|]; [rewrite !lookup_insert_eq, Hvc; done|rewrite !lookup_insert_ne by done; apply Hobjs].
  - unfold m1. by rewrite lookup_insert_ne.
  - cbn. by rewrite lookup_insert_ne.
  - pose proof (owned_delete _ _ _ _ _ Hown Hm) as Hd. rewrite Hu in Hd. cbn [borrows] in Hd. unfold m1. rewrite <- insert_delete_eq.
    apply owned_add_none; [done|apply lookup_delete_eq|done].
Qed.

Lemma not_used now r m k S f : inv now r m k S -> f ∈ s_user S -> borrowed S f = false -> forall b o, m !! b = Some o -> uses o <> Some f.
Proof.
  intros [Hr Hobjs Hown] Hf Hb b o Hm Hu. apply (ow_user _ _ _ Hown b o f Hm Hu) in Hf. apply bool_decide_eq_false in Hb. apply Hb.
  pose proof (Hobjs b) as H. rewrite Hm in H. destruct o as [| |o]; try done. destruct (s_objs S !! b) as [[| |c]|] eqn:Es; try done.
  exists b, (SConn c). split; [done|]. cbn. rewrite (ci_borrow _ _ _ (ci_base _ _ _ _ _ H)). cbn in Hf, Hu. destruct (close_fd o); [done|congruence].
Qed.

Lemma user_open now r m k S f : inv now r m k S -> f ∈ s_user S -> f ∈ open k /\ 0 <= f.
Proof. intros [Hr Hobjs Hown] Hf. assert (f ∈ open k) as H by (apply (ow_open _ _ _ Hown); by left). split; [done|]. by apply (ow_pos _ _ _ Hown). Qed.

Lemma init_from_pipe now r m k S a f (close : bool) an : inv now r m k S -> s_objs S !! a = None -> f ∈ s_user S -> borrowed S f = false ->
  connection_made now a r k (if close then drop_user f S else S) (if close then None else Some f) (BConnection_Init a (BCONNECTION_SOURCE_TYPE_PIPE f close) an r m).
Proof.
  intros Hi Ha Hf Hb. destruct (view_gone _ _ _ _ _ _ Hi Ha) as [Hv Hma]. destruct (user_open _ _ _ _ _ _ Hi Hf) as [Hop Hp].
  pose proof (not_used _ _ _ _ _ _ Hi Hf Hb) as Hno. pose proof Hi as [Hr Hobjs Hown].
  cbn [BConnection_Init]. rewrite (proj2 (Z.leb_le _ _)) by done. cbn [ASSERT mbind outcome_bind]. unfold badvpn_set_nonblocking.
  assert (kernel_steps k [Sys sys_fcntl f] = Ok k) as Hk by (cbn; by rewrite bool_decide_eq_true_2). destruct close.
  - pose proof (owned_user_remove _ _ _ f Hown Hno) as Hown1. destruct (a_fcntl an); cbn [negb].
    + apply (open_owned now r m k (drop_user f S) a f an [Sys sys_fcntl f]); try done. cbn. by rewrite Z.eqb_refl.
    + destruct (attach_world now r m k (drop_user f S) a f r None [Sys sys_fcntl f; Closed f] (new_conn None)) as (k' & Hk' & Hs & Hi2); try done.
      * cbn. by rewrite Z.eqb_refl.
      * by eexists r, m, None, _, k'.
  - destruct (a_fcntl an); cbn [negb]; [|eexists r, m, None, _, k; split; [done|]; split; [exact Hk|]; split; [done|]; cbn; by rewrite delete_id].
    destruct (connection_open_ok now a f false an r Hr Hv) as (r' & mo & E & Hi' & Ho' & Hmo). rewrite E. cbn [mbind outcome_bind].
    eexists r', m, mo, _, k. split; [done|]. split; [by destruct mo|]. split; [destruct mo; done|]. destruct mo as [o|]; cbn.
    + destruct Hmo as (E1 & E2 & Hc). constructor; [done| |].
      * intros b. cbn. destruct (decide (a = b)) as [<-|Hne]; [rewrite !lookup_insert_eq; apply Hc|]. rewrite !lookup_insert_ne, Ho' by done. apply Hobjs.
      * cbn. replace (open k) with ({[f]} ∪ open k) by (apply leibniz_equiv; set_solver). apply (owned_add _ _ _ _ _ f); cbn; try done; [by rewrite E1|by rewrite E2].
    + rewrite delete_id by done. constructor; [done| |done]. intros b. destruct (decide (a = b)) as [<-|Hne]; [rewrite Hma, Ha; exact Hmo|]. rewrite Ho' by done. apply Hobjs.
Qed.

(** ** Other users of the event loop *)
Lemma foreign_ne x a p : container x = None -> x <> field a p.
Proof. intros H ->. by rewrite container_field in H. Qed.
#[local] Hint Resolve foreign_ne : vpn.

Lemma fds_foreign x m r : container x = None -> (forall y, y <> x -> m !! y = BReactor.fds r !! y) -> forall b, view_of (BReactor.set_fds m r) b = view_of r b.
Proof. intros Hx Hm b. unfold view_of. f_equal. unfold fd_of. cbn. rewrite Hm; [done|]. apply not_eq_sym. by apply foreign_ne. Qed.
Lemma limits_foreign x l m r : container x = None -> (forall y, y <> x -> m !! y = BReactor.limits r !! y) -> forall b, view_of (BReactor.set_limits l m r) b = view_of r b.
Proof.
  intros Hx Hm b. unfold view_of. f_equal; unfold has_limit; cbn; apply bool_decide_ext; (rewrite Hm; [done|]); apply not_eq_sym; by apply foreign_ne.
Qed.

Ltac fm_cases :=
  repeat match goal with
  | H : Fault = Ok _ |- _ => discriminate H
  | H : Ok _ = Ok _ |- _ => injection H as ?; subst
  | H : (_ ≫= _) = Ok _ |- _ => apply bind_Ok in H as (? & ? & H)
  | H : ASSERT _ = Ok _ |- _ => clear H
  | H : of_option ?o = Ok _ |- _ => destruct o eqn:?; cbn in H
  | H : context [let '(_, _) := ?x in _] |- _ => destruct x
  | H : (if ?b then _ else _) = Ok _ |- _ => destruct b
  | H : match ?x with _ => _ end = Ok _ |- _ => destruct x
  end.

Lemma foreign_timer_remove x r r' : BReactor.BReactor_RemoveSmallTimer x r = Ok r' -> same r r'.
Proof.
  unfold BReactor.BReactor_RemoveSmallTimer. intros H. fm_cases; try apply same_refl;
  (eapply same_trans; [|eapply put_state_same; eassumption]); by constructor.
Qed.

Lemma foreign_view op r r' : foreign op = true -> BReactor.perform op r = Ok r' -> forall b, view_of r' b = view_of r b.
Proof.
  intros Hf H. destruct op; cbn in H, Hf; try (apply bool_decide_eq_true in Hf).
  - intros b. injection H as <-. done.
  - intros b. unfold BReactor.BReactor_SetSmallTimer in H. fm_cases. eapply same_view. eapply same_trans; [by eapply foreign_timer_remove|]. by constructor.
  - intros b. eapply same_view. by eapply foreign_timer_remove.
  - injection H as <-. eapply fds_foreign; [done|]. intros y Hy. by rewrite lookup_insert_ne.
  - unfold BReactor.BReactor_AddFileDescriptor in H. fm_cases; [|done]. eapply fds_foreign; [done|]. intros y Hy. by rewrite lookup_insert_ne.
  - unfold BReactor.BReactor_RemoveFileDescriptor in H. fm_cases; intros b; rewrite ?(same_view _ _ b (set_results_same _ _ _));
    (eapply fds_foreign; [done|]; intros y Hy; by rewrite lookup_insert_ne).
  - unfold BReactor.BReactor_SetFileDescriptorEvents in H. fm_cases; [done|]. eapply fds_foreign; [done|]. intros y Hy. by rewrite lookup_insert_ne.
  - unfold BReactor.close_descriptor in H. fm_cases. eapply fds_foreign; [done|]. intros y Hy. by rewrite lookup_insert_ne.
  - unfold BReactor.BReactorLimit_Init in H. fm_cases. eapply limits_foreign; [done|]. intros y Hy. by rewrite lookup_insert_ne.
  - unfold BReactor.BReactorLimit_Free in H. fm_cases. eapply limits_foreign; [done|]. intros y Hy. by rewrite lookup_delete_ne.
  - unfold BReactor.BReactorLimit_Increment in H. fm_cases; [done|]. eapply limits_foreign; [done|]. intros y Hy. by rewrite lookup_insert_ne.
  - unfold BReactor.BReactorLimit_SetLimit in H. fm_cases. eapply limits_foreign; [done|]. intros y Hy. by rewrite lookup_insert_ne.
  - injection H as <-. intros b. rewrite view_set_jobs. change (a :: LinkedList1.remove_node a (BReactor.pending_jobs r)) with (job_set a (BReactor.pending_jobs r)).
    rewrite parts_set_other by (by apply part_in_foreign). done.
  - injection H as <-. intros b. rewrite view_set_jobs. change (LinkedList1.remove_node a (BReactor.pending_jobs r)) with (job_unset a (BReactor.pending_jobs r)).
    rewrite parts_unset_other by (by apply part_in_foreign). done.
  - by injection H as <-.
Qed.

Lemma inv_view now now' r r' m k S : inv now r m k S -> BReactor.inv now' r' -> (forall b, view_of r' b = view_of r b) -> inv now' r' m k S.
Proof. intros [Hr Hobjs Hown] Hi Hv. constructor; [done| |done]. intros b. rewrite Hv. apply Hobjs. Qed.

(** ** Every call of the user *)
Definition user_does (now : Z) r m k S u an : Prop :=
  exists r' m' ok out k' S', user_call u an r m = Ok (r', m', ok, out) /\ kernel_steps k out = Ok k' /\
    spec_run (after_user S u ok) (map Out out) = Some S' /\ inv now r' m' k' S'.

Lemma s_conn_Some S a c : s_conn S a = Some c -> s_objs S !! a = Some (SConn c).
Proof. unfold s_conn. destruct (s_objs S !! a) as [[]|]; naive_solver. Qed.
Lemma s_update_Some S a c f : s_conn S a = Some c -> s_update a f S = s_put a (Some (SConn (f c))) S.
Proof. unfold s_update. by intros ->. Qed.

Lemma live_conn now r m k S a c : inv now r m k S -> s_conn S a = Some c ->
  exists o, m !! a = Some (Connection o) /\ conn_inv a (view_of r a) (bool_decide (fd o ∈ err k)) o c.
Proof. intros Hi Hc%s_conn_Some. pose proof (si_objs _ _ _ _ _ Hi a) as H. rewrite Hc in H. by apply obj_conn in H. Qed.

(** A call on a connection that has no outputs. *)
Lemma user_conn now r m k S a c f r' o o' : inv now r m k S -> s_conn S a = Some c -> m !! a = Some (Connection o) ->
  conn_becomes now a r (bool_decide (fd o ∈ err k)) o (f c) r' o' -> inv now r' (<[a := Connection o']> m) k (s_update a f S).
Proof. intros Hi Hc Hm Hb. rewrite (s_update_Some _ _ c) by done. by eapply conn_user. Qed.

Ltac may_cases H :=
  unfold fresh in H; repeat match type of H with
  | context [match ?x with _ => _ end] => destruct x eqn:?; try discriminate H
  end; zify_bool.

Lemma user_inits now r m k S u an : inv now r m k S -> answers_ok k an -> may S u = true ->
  match u with UListenerInit _ _ | UConnectorInit _ _ | UConnectionInit _ _ => True | _ => False end -> user_does now r m k S u an.
Proof.
  intros Hi Han Hmay Hu. assert (forall f, a_socket an = Some f -> 0 <= f) as Hpos by (intros f E; apply (ok_socket _ _ Han f E)).
  destruct u; try done; cbn [may] in Hmay; unfold user_does; cbn [user_call].
  - apply bool_decide_eq_true in Hmay. destruct (view_gone _ _ _ _ _ _ Hi Hmay) as [Hv Hm].
    destruct (listener_init_ok now a from an r (si_reactor _ _ _ _ _ Hi) Hv Hpos) as (mf & (r' & mo & out & E & Hi' & Ho & Hout & Hmo) & Hmf). rewrite E. cbn [mbind outcome_bind].
    destruct (init_world_ok now r m k S a mf r' (Listener <$> mo) out (SListener false)) as (k' & Hk & Hs & Hi2); try done.
    + by rewrite is_Some_fmap. + intros f ->. destruct Hmf as [|Hmf]; [done|]. by apply (ok_socket _ _ Han).
    + destruct mo; [|done]. by destruct Hmo as [-> ?].
    + rewrite is_Some_fmap in Hs, Hi2. by eexists r', _, _, out, k', _.
  - apply bool_decide_eq_true in Hmay. destruct (view_gone _ _ _ _ _ _ Hi Hmay) as [Hv Hm].
    destruct (connector_init_ok now a from an r (si_reactor _ _ _ _ _ Hi) Hv Hpos) as (mf & (r' & mo & out & E & Hi' & Ho & Hout & Hmo) & Hmf). rewrite E. cbn [mbind outcome_bind].
    destruct (init_world_ok now r m k S a mf r' (Connector <$> mo) out (SConnector CWaiting)) as (k' & Hk & Hs & Hi2); try done.
    + by rewrite is_Some_fmap. + intros f ->. destruct Hmf as [|Hmf]; [done|]. by apply (ok_socket _ _ Han).
    + destruct mo as [o|]; [|done]. destruct Hmo as [-> Hc]. split_and!; [|done|done]. cbn. pose proof (proj1 Hc). by rewrite (proj2 (Z.eqb_neq _ _)) by lia.
    + rewrite is_Some_fmap in Hs, Hi2. by eexists r', _, _, out, k', _.
  - apply andb_true_iff in Hmay as [Ha%bool_decide_eq_true Hsrc].
    assert (connection_made now a r k (use_source source S) (source_borrows source) (BConnection_Init a source an r m)) as (r' & m' & mo & out & k' & E & Hk & Hs & Hi').
    { destruct source as [l oa|c|f close]; may_cases Hsrc; subst; [by apply init_from_listener|by apply init_from_connector|].
      pose proof (init_from_pipe now r m k S a f close an Hi Ha) as Hpipe. by destruct close; apply Hpipe. }
    rewrite E. cbn [mbind outcome_bind]. by eexists r', _, _, out, k', _.
Qed.

Lemma user_frees now r m k S u an : inv now r m k S -> may S u = true ->
  match u with UListenerFree _ | UConnectorFree _ | UConnectionFree _ => True | _ => False end -> user_does now r m k S u an.
Proof.
  intros Hi Hmay Hu. pose proof Hi as [Hr Hobjs Hown]. destruct u; try done; cbn [may] in Hmay; unfold user_does; cbn [user_call].
  - may_cases Hmay. pose proof (Hobjs a) as H. match goal with E : s_objs S !! a = _ |- _ => rewrite E in H end.
    destruct (m !! a) as [[o| |]|] eqn:Em; try done. cbn in H.
    destruct (listener_free_ok now a r o _ Hr H) as (r' & out & E & Hout & Hi' & Ho & Hv). rewrite E. cbn [mbind outcome_bind].
    destruct (free_world_ok now r m k S a _ r' out Hi Em Hi' Ho Hv Hout) as (k' & Hk & Hs & Hi2). by eexists r', _, _, _, k', _.
  - may_cases Hmay. pose proof (Hobjs a) as H. match goal with E : s_objs S !! a = _ |- _ => rewrite E in H end.
    destruct (m !! a) as [[|o|]|] eqn:Em; try done. cbn in H.
    destruct (connector_free_ok now a r o _ Hr H) as (r' & E & Hi' & Ho & Hv). rewrite E. cbn [mbind outcome_bind].
    destruct (free_world_ok now r m k S a _ r' [] Hi Em Hi' Ho Hv) as (k' & Hk & Hs & Hi2); [done|].
    eexists r', _, _, _, k', _. split; [done|]. rewrite app_nil_r in Hk, Hs. cbn [uses borrows] in Hk, Hs. by destruct (cfd o =? -1).
  - destruct (s_conn S a) as [c|] eqn:Ec; [|done]. zify_bool. destruct (live_conn _ _ _ _ _ _ _ Hi Ec) as (o & Em & Hc).
    unfold get_connection. rewrite Em. cbn [mbind outcome_bind]. destruct (connection_free_ok now a r _ o c Hr Hc) as (r' & E & Hi' & Ho & Hv); [done..|].
    rewrite E. cbn [mbind outcome_bind]. destruct (free_world_ok now r m k S a _ r' [] Hi Em Hi' Ho Hv) as (k' & Hk & Hs & Hi2); [done|].
    eexists r', _, _, _, k', _. split; [done|]. rewrite app_nil_r in Hk, Hs. cbn [uses borrows] in Hk, Hs. by destruct (close_fd o).
Qed.

Lemma conn_same_inv now a r e o c c' : BReactor.inv now r -> conn_inv a (view_of r a) e o c -> s_send c' = s_send c -> s_recv c' = s_recv c ->
  s_error c' = s_error c -> s_borrows c' = s_borrows c -> conn_becomes now a r e o c' r (set_handler (s_handler c') o).
Proof.
  intros Hi [Hb Hs Hr] H1 H2 H3 H4. split; [done|]. split; [done|]. split; [|done]. constructor.
  - destruct Hb. constructor; cbn; try done; [by rewrite H4|by rewrite H3].
  - eapply send_frame; [exact Hs|done|done|done|done|by rewrite H3].
  - eapply recv_frame; [exact Hr|done|done|done|done|]. rewrite H3. done.
Qed.

Lemma user_calls now r m k S u an a c : inv now r m k S -> may S u = true -> s_conn S a = Some c ->
  match u with
  | USetHandlers b _ | USendInit b | USendFree b | USend b _ _ | URecvInit b | URecvFree b | URecv b _ _ => b = a
  | _ => False
  end -> user_does now r m k S u an.
Proof.
  intros Hi Hmay Hc Hu. destruct (live_conn _ _ _ _ _ _ _ Hi Hc) as (o & Em & Hci). pose proof (si_reactor _ _ _ _ _ Hi) as Hr.
  assert (get_connection a m = Ok o) as Hget by (unfold get_connection; by rewrite Em).
  assert (forall f r' o', conn_becomes now a r (bool_decide (fd o ∈ err k)) o (f c) r' o' -> after_user S u true = s_update a f S ->
    user_call u an r m = Ok (r', <[a := Connection o']> m, true, []) -> user_does now r m k S u an) as Hdone.
  { intros f r' o' Hb Hs Hcall. eexists r', _, true, [], k, _. split; [done|]. split; [done|]. split; [done|]. rewrite Hs. by eapply user_conn. }
  destruct u; try done; subst; cbn [may] in Hmay; rewrite Hc in Hmay; zify_bool.
  - eapply (Hdone (c_handler h) r); [by apply (conn_same_inv now a r _ o c (c_handler h c))|done|]. cbn. by rewrite Hget.
  - destruct (send_init_ok now a r _ o c Hr Hci) as (o' & E & Hb); [done..|]. eapply (Hdone (c_send (Some Idle))); [exact Hb|done|]. cbn. by rewrite Hget; cbn; rewrite E.
  - destruct (send_free_ok now a r _ o c Hr Hci) as (r' & o' & E & Hb); [done..|]. eapply (Hdone (c_send None)); [exact Hb|done|]. cbn. by rewrite Hget; cbn; rewrite E.
  - destruct (send_data_ok now a r _ o c data data_len Hr Hci) as (r' & o' & E & Hb); [done..|]. eapply (Hdone (c_send (Some (Asked data data_len)))); [exact Hb|done|]. cbn. by rewrite Hget; cbn; rewrite E.
  - destruct (recv_init_ok now a r _ o c Hr Hci) as (o' & E & Hb); [done..|]. eapply (Hdone (c_recv (Some Idle))); [exact Hb|done|]. cbn. by rewrite Hget; cbn; rewrite E.
  - destruct (recv_free_ok now a r _ o c Hr Hci) as (r' & o' & E & Hb); [done..|]. eapply (Hdone (c_recv None)); [exact Hb|done|]. cbn. by rewrite Hget; cbn; rewrite E.
  - destruct (conn_recv_data_ok now a r _ o c data data_len Hr Hci) as (r' & o' & E & Hb); [done..|]. eapply (Hdone (c_recv (Some (Asked data data_len)))); [exact Hb|done|]. cbn. by rewrite Hget; cbn; rewrite E.
Qed.

Lemma user_call_ok now w S u an : inv now (reactor w) (objs w) (kern w) S -> user_allowed S w u -> answers_ok (kern w) an ->
  user_does now (reactor w) (objs w) (kern w) S u an.
Proof.
  intros Hi [Hmay Hal] Han. pose proof Hi as [Hr Hobjs Hown].
  destruct u; try (by eapply user_inits); try (by eapply user_frees);
  try (pose proof Hmay as Hmay'; cbn [may] in Hmay'; destruct (s_conn S a) as [c|] eqn:Ec; [by eapply user_calls|done]).
  - cbn [may] in Hmay. apply bool_decide_eq_true in Hmay as [c Hc]. destruct (live_conn _ _ _ _ _ _ _ Hi Hc) as (o & Em & Hci).
    assert (fd o ∈ open (kern w)) as Hf by (apply (ow_open _ _ _ Hown); right; by exists a, (Connection o)).
    eexists _, _, _, _, (kern w), S. split; [cbn; unfold get_connection; by rewrite Em|]. split; [cbn; by rewrite bool_decide_eq_true_2|]. done.
  - destruct Hal as [Hp Hnew]. eexists _, _, _, _, _, _. do 3 (split; [done|]). constructor; [done|exact Hobjs|]. by apply owned_user_add.
  - cbn [may] in Hmay. zify_bool. destruct (user_open _ _ _ _ _ fd0 Hi) as [Hop _]; [done|]. pose proof (not_used _ _ _ _ _ fd0 Hi ltac:(done) ltac:(done)) as Hno.
    eexists _, _, _, _, _, _. split; [done|]. split; [cbn; rewrite bool_decide_eq_true_2 by done; done|]. split; [cbn; rewrite bool_decide_eq_false_2 by set_solver; done|].
    constructor; [done| |by apply owned_user_remove]. intros b. eapply obj_frame; [|apply Hobjs]. intros o Ho. cbn. pose proof (Hno b _ Ho) as Hne. cbn in Hne. set_solver.
  - destruct Hal as [Hf Hal]. destruct (BReactor.perform_ok now (reactor w) op Hr Hal) as (r' & E & Hi').
    eexists r', _, _, _, (kern w), S. split; [cbn; by rewrite E|]. do 2 (split; [done|]). by eapply inv_view; [|done|eapply foreign_view].
Qed.

(** ** Every handler *)
Definition handler_does (now : Z) (k : kernel) S (m : outcome (reactor_t * gmap loc object * list output)) : Prop :=
  exists r' m' out k' S', m = Ok (r', m', out) /\ kernel_steps k out = Ok k' /\ spec_run S (map Out out) = Some S' /\ inv now r' m' k' S'.

(** What an object is when one of its jobs was taken from the group. *)
Definition others (now : Z) a r m k S : Prop :=
  BReactor.inv now r /\ owned m (open k) (s_user S) /\ forall b, b <> a -> obj_inv b (view_of r b) (err k) (m !! b) (s_objs S !! b).

Lemma others_inv now a r r' m k S mo ms : others now a r m k S -> BReactor.inv now r' -> only a r r' ->
  obj_inv a (view_of r' a) (err k) (m !! a) (Some ms) -> m !! a = Some mo -> inv now r' m k (s_put a (Some ms) S).
Proof.
  intros (Hr & Hown & Hoth) Hi Ho Ha Hm. constructor; [done| |done]. intros b. cbn. destruct (decide (a = b)) as [<-|Hne]; [by rewrite lookup_insert_eq|].
  rewrite lookup_insert_ne, Ho by done. by apply Hoth.
Qed.

Lemma listener_job now a r m k S an o : others now a r m k S -> m !! a = Some (Listener o) -> s_objs S !! a = Some (SListener true) ->
  listener_inv (view_of r a) o false -> answers_ok k an -> handler_does now k S (dispatch_job a P_default_job an r m).
Proof.
  intros Hoth Hm Hs Hl Han. unfold dispatch_job. rewrite Hm. pose proof Hoth as (Hr & Hown & _).
  assert (lfd o ∈ open k) as Hf by (apply (ow_open _ _ _ Hown); right; by exists a, (Listener o)).
  assert (inv now r m k (s_put a (Some (SListener false)) S)) as Hi by (eapply others_inv; [done|done|done|rewrite Hm; exact Hl|done]).
  unfold listener_default_job_handler. destruct (a_accept an) as [[f sa]|] eqn:Ea.
  - destruct (ok_accept _ _ Han f sa Ea) as (Hp & Hnew & _).
    assert (f ∉ s_user S) as Hus by (intros H; apply Hnew, (ow_open _ _ _ Hown); by left).
    assert (({[f]} ∪ open k) ∖ {[f]} = open k) as Eop by (apply leibniz_equiv; intros g; destruct (decide (g = f)); set_solver).
    eexists r, m, _, (mkKernel (open k) (err k ∖ {[f]})), _. split; [done|]. split; [cbn; rewrite bool_decide_eq_true_2 by done; cbn; rewrite bool_decide_eq_true_2 by set_solver; cbn; by rewrite Eop|].
    split; [cbn; rewrite Hs; cbn; rewrite bool_decide_eq_false_2 by done; done|]. destruct Hi as [? Hobjs ?]. constructor; [done| |done].
    intros b. eapply obj_frame; [|apply Hobjs]. intros ob Hob. cbn. assert (fd ob ∈ open k) by (apply (ow_open _ _ _ Hown); right; by exists b, (Connection ob)). set_solver.
  - eexists r, m, _, k, _. split; [done|]. split; [cbn; by rewrite bool_decide_eq_true_2|]. split; [cbn; by rewrite Hs|done].
Qed.

Lemma connector_job now a r m k S an o : others now a r m k S -> m !! a = Some (Connector o) -> s_objs S !! a = Some (SConnector CWaiting) ->
  connector_inv (view_of r a) o CReady -> handler_does now k S (dispatch_job a P_job an r m).
Proof.
  intros Hoth Hm Hs Hc. pose proof Hc as (Hp & Hb & Hcon & Hv). unfold dispatch_job, connector_job_handler. rewrite Hm, Hb, Hcon, (proj2 (Z.leb_le _ _)) by done. cbn [negb ASSERT mbind outcome_bind].
  eexists r, m, _, k, _. split; [done|]. split; [done|]. split; [cbn; by rewrite Hs|]. pose proof Hoth as (Hr & _). eapply others_inv; [done|done|done| |done]. rewrite Hm. exact Hc.
Qed.

Lemma connection_handler now a r m k S o c mres : others now a r m k S -> m !! a = Some (Connection o) -> s_objs S !! a = Some (SConn c) ->
  conn_does now a r (bool_decide (fd o ∈ err k)) o c mres ->
  handler_does now k S (mres ≫= fun '((r, o, out) : reactor_t * BConnection * list output) => Ok (r, <[a := Connection o]> m, out)).
Proof.
  intros (Hr & Hown & Hoth) Hm Hs Hd. destruct (conn_world now r m k S a o c _ mres Hm Hs Hown eq_refl Hoth Hd) as (r' & o' & out & k' & S' & -> & Hk & Hsp & Hi).
  by eexists r', _, out, k', S'.
Qed.

Lemma answers_io k an f : answers_ok k an -> io_facts an f (bool_decide (f ∈ err k)).
Proof.
  intros [_ _ Hw Hr He]. constructor; [eauto..|]. intros Hf%bool_decide_eq_true len. by apply He.
Qed.

Lemma view_ext v f x y l : v_fd v = f -> v_slimit v = x -> v_rlimit v = y -> v_jobs v = l -> v = mkView f x y l.
Proof. destruct v. cbn. congruence. Qed.

(** A job of an object: it was taken from the group, nothing else changed. *)
Lemma job_ok now fin r0 r m k S an a p : inv now r0 m k S -> BReactor.inv fin r -> view_of r0 a = v_put_jobs (p :: v_jobs (view_of r a)) (view_of r a) -> only a r0 r ->
  p ∉ v_jobs (view_of r a) -> p <> P_err -> handlers_set S -> answers_ok k an -> handler_does fin k S (dispatch_job a p an r m).
Proof.
  intros [Hr0 Hobjs Hown] Hr Hv Ho Hnew Hp Hh Han. pose proof (Hobjs a) as Ha.
  assert (others fin a r m k S) as Hoth by (split; [done|]; split; [done|]; intros b Hb; rewrite Ho by done; apply Hobjs).
  destruct (m !! a) as [[o|o|o]|] eqn:Em, (s_objs S !! a) as [[ready|ph|c]|] eqn:Es; cbn in Ha; try done; rewrite Hv in Ha.
  - destruct Ha as [Ev Hpos]. destruct ready; [|by destruct (view_of r a)]. injection Ev as Ev1 Ev2 Ev3 -> Ev4.
    eapply listener_job; [done|done|done| |done]. split; [|done]. by apply view_ext.
  - destruct ph; cbn [connector_inv] in Ha; try (by destruct Ha as (_ & _ & [=])); [|by destruct Ha as (_ & _ & _ & [=])].
    destruct Ha as (Hpos & [(_ & _ & [=])|(Hb & Hcon & Ev)]). injection Ev as Ev1 Ev2 Ev3 -> Ev4.
    eapply connector_job; [done|done|done|]. cbn. split_and!; try done. by apply view_ext.
  - unfold dispatch_job. rewrite Em. assert (s_error c = false) as He.
    { destruct (s_error c) eqn:E; [|done]. pose proof (ci_error _ _ _ (ci_base _ _ _ _ _ Ha)) as H. rewrite E in H. cbn in H. congruence. }
    assert (conn_does fin a r (bool_decide (fd o ∈ err k)) o c (connection_job a p an r o)) as Hd.
    { apply connection_job_ok; [|done|by apply answers_io]. constructor; try done. apply (Hh a). unfold s_conn. by rewrite Es. }
    exact (connection_handler _ _ _ _ _ _ _ _ _ Hoth Em Es Hd).
  - discriminate Ha.
Qed.

Lemma raise_other x evs m k : (forall a, container x <> Some (a, P_bfd)) -> raise (BReactor.Called (BReactor.CallFd x evs)) m k = k.
Proof.
  intros Hx. unfold raise. destruct (container x) as [[a q]|]; cbn; [|done]. destruct (decide (q = P_bfd)) as [->|]; [by destruct (Hx a)|done].
Qed.
Lemma raise_conn a evs m k o : m !! a = Some (Connection o) -> raise (BReactor.Called (BReactor.CallFd (field a P_bfd) evs)) m k =
  if BReactor.has evs BReactor.BREACTOR_ERROR && negb (BReactor.has evs BReactor.BREACTOR_HUP) then mkKernel (open k) ({[fd o]} ∪ err k) else k.
Proof. intros Hm. unfold raise. rewrite container_field. cbn. by rewrite Hm. Qed.
Lemma raise_not_conn a evs m k : (forall o, m !! a <> Some (Connection o)) -> raise (BReactor.Called (BReactor.CallFd (field a P_bfd) evs)) m k = k.
Proof. intros Hm. unfold raise. rewrite container_field. cbn. destruct (m !! a) as [[| |o]|] eqn:E; try done. by destruct (Hm o). Qed.

(** The descriptor of an object has an event: there are no jobs left. *)
Lemma listener_fd now a r m k S an evs o : others now a r m k S -> m !! a = Some (Listener o) -> s_objs S !! a = Some (SListener false) ->
  listener_inv (view_of r a) o false -> handler_does now k S (dispatch_fd a evs an r m).
Proof.
  intros Hoth Hm Hs [Hv Hp]. pose proof Hoth as (Hr & _). unfold dispatch_fd, listener_fd_handler. rewrite Hm.
  destruct (BPending_Set_ok now a r P_default_job Hr) as (Hi & Ho & Hv'). eexists _, m, _, k, _. split; [done|]. split; [done|]. split; [cbn; by rewrite Hs|].
  eapply others_inv; [done|done|done| |done]. rewrite Hm, Hv', Hv. by split.
Qed.

Lemma connector_fd now a r m k S an evs o : others now a r m k S -> m !! a = Some (Connector o) -> s_objs S !! a = Some (SConnector CWaiting) -> 0 <= cfd o ->
  have_bfd o = true -> connected o = false -> view_of r a = mkView (Some BReactor.BREACTOR_WRITE) false false [] -> handler_does now k S (dispatch_fd a evs an r m).
Proof.
  intros Hoth Hm Hs Hp Hb Hcon Hv. pose proof Hoth as (Hr & Hown & Hobjs). unfold dispatch_fd, connector_fd_handler. rewrite Hm, Hb, Hcon, (proj2 (Z.leb_le _ _)) by done.
  cbn [negb ASSERT mbind outcome_bind]. destruct (remove_fd_yields now a r BReactor.BREACTOR_WRITE Hr) as (r' & E & Hi & Hv' & Ho); [by rewrite Hv|]. rewrite E. cbn [mbind outcome_bind].
  assert (uses (Connector o) = Some (cfd o)) as Hu by (cbn; by rewrite (proj2 (Z.eqb_neq _ _)) by lia).
  assert (cfd o ∈ open k) as Hf by (apply (ow_open _ _ _ Hown); right; eauto).
  set (con := match a_so_error an with Some result => result =? 0 | None => false end).
  eexists r', _, _, k, _. split; [done|]. split; [cbn; by rewrite bool_decide_eq_true_2|]. split; [cbn; by rewrite Hs|].
  constructor; [done| |by eapply owned_update]. intros b. cbn. destruct (decide (a = b)) as [<-|Hne].
  - rewrite !lookup_insert_eq, Hv', Hv. by destruct con.
  - rewrite !lookup_insert_ne, Ho by done. by apply Hobjs.
Qed.

Lemma fd_ok now fin r0 r m k S an a evs : inv now r0 m k S -> BReactor.inv fin r -> (forall b, view_of r b = view_of r0 b) ->
  v_jobs (view_of r a) = [] -> handlers_set S ->
  (exists w, v_fd (view_of r a) = Some w /\ (BReactor.has evs BReactor.BREACTOR_READ = true -> BReactor.has w BReactor.BREACTOR_READ = true) /\
    (BReactor.has evs BReactor.BREACTOR_WRITE = true -> BReactor.has w BReactor.BREACTOR_WRITE = true)) ->
  let k1 := raise (BReactor.Called (BReactor.CallFd (field a P_bfd) evs)) m k in
  answers_ok k1 an -> handler_does fin k1 S (dispatch_fd a evs an r m).
Proof.
  intros Hi0 Hr Hview Hjobs Hh (w & Hw & Hread & Hwrite) k1 Han. pose proof (inv_view _ _ _ _ _ _ _ Hi0 Hr Hview) as [_ Hobjs Hown]. pose proof (Hobjs a) as Ha.
  assert ((forall o, m !! a <> Some (Connection o)) -> others fin a r m k1 S) as Hoth.
  { intros Hno. unfold k1. rewrite raise_not_conn by done. split; [done|]. split; [done|]. intros b _. apply Hobjs. }
  destruct (m !! a) as [[o|o|o]|] eqn:Em, (s_objs S !! a) as [[ready|ph|c]|] eqn:Es; cbn in Ha; try done.
  - destruct ready; [by rewrite (proj1 Ha) in Hjobs|]. eapply listener_fd; [by apply Hoth|done..].
  - destruct ph; cbn [connector_inv] in Ha; [|destruct Ha as (_ & _ & _ & Ev); by rewrite Ev in Hw|destruct Ha as (_ & _ & Ev); by rewrite Ev in Hw|destruct Ha as (_ & _ & Ev); by rewrite Ev in Hw].
    destruct Ha as (Hp & [(Hb & Hcon & Ev)|(_ & _ & Ev)]); [|by rewrite Ev in Hw]. eapply connector_fd; [by apply Hoth|done..].
  - unfold dispatch_fd. rewrite Em.
    assert (others fin a r m k1 S /\ open k1 = open k) as [Hoth1 _].
    { unfold k1. rewrite (raise_conn _ _ _ _ _ Em). destruct (_ && _); [|split; [|done]; split; [done|]; split; [done|]; intros b _; apply Hobjs].
      split; [|done]. split; [done|]. split; [done|]. intros b Hb. eapply obj_frame; [|apply Hobjs]. intros ob Hob.
      pose proof (other_fd m _ _ a b _ ob (fd o) Hown Em eq_refl Hb Hob). cbn. set_solver. }
    pose proof (ci_fd _ _ _ (ci_base _ _ _ _ _ Ha)) as Hfd. rewrite Hw in Hfd. destruct (is_hupd o) eqn:Ehup; [done|]. injection Hfd as ->.
    assert (s_error c = false) as He.
    { destruct (s_error c) eqn:E; [|done]. pose proof (ci_error _ _ _ (ci_base _ _ _ _ _ Ha)) as H. by rewrite E, Hjobs in H. }
    eapply connection_handler; [exact Hoth1|done|done|]. eapply (connection_fd_handler_ok _ _ _ _ _ _ (bool_decide (fd o ∈ err k))); try done.
    + apply (Hh a). unfold s_conn. by rewrite Es.
    + rewrite Hjobs. set_solver.
    + constructor; unfold waiting; rewrite ?Ehup; [auto|auto|]. intros H1 H2. unfold k1. rewrite (raise_conn _ _ _ _ _ Em), H1, H2. cbn. apply bool_decide_eq_true_2. set_solver.
    + intros H%bool_decide_eq_true. apply bool_decide_eq_true_2. unfold k1. rewrite (raise_conn _ _ _ _ _ Em). destruct (_ && _); cbn; set_solver.
    + by apply answers_io.
  - by rewrite Ha in Hw.
Qed.

Lemma loop_ok now fin ws r0 m k S r p an : inv now r0 m k S -> 0 <= now <= fin -> BReactor.wait_allowed now fin ws r0 -> errors_handled r0 -> handlers_set S ->
  BReactor.exec_iteration now ws r0 = Ok (r, p) -> answers_ok (raise p m k) an -> handler_does fin (raise p m k) S (dispatch p an r m).
Proof.
  intros Hi Hn Hw He Hh Hex Han. pose proof (BReactor.exec_iteration_ok now fin ws r0 (si_reactor _ _ _ _ _ Hi) Hn Hw) as (r' & p' & E & Hr & Hd & _).
  rewrite Hex in E. injection E as <- <-. pose proof (exec_iteration_same now ws r0 r p Hex) as Hs.
  assert ((forall b, view_of r b = view_of r0 b) -> forall k1, k1 = k -> handler_does fin k1 S (Ok (r, m, []))) as Hnothing.
  { intros Hv k1 ->. eexists r, m, [], k, S. do 3 (split; [done|]). by eapply inv_view. }
  destruct p as [[x|x|x evs]| | |code]; cbn [dispatch]; try (apply Hnothing; [intros b; by apply same_view|done]).
  - change (raise _ m k) with k in *. destruct Hs as [Hj Er]. assert (forall b, view_of r0 b = match part_in b x with Some p => v_put_jobs (p :: v_jobs (view_of r b)) (view_of r b) | None => view_of r b end) as Hv.
    { intros b. rewrite Er, view_set_jobs. unfold view_of at 1. rewrite Hj, parts_cons. by destruct (part_in b x). }
    destruct (container x) as [[a q]|] eqn:Ec; [|apply Hnothing; [|done]; intros b; by rewrite Hv, part_in_foreign]. apply container_inv in Ec as ->.
    eapply (job_ok now fin r0); [done|done|by rewrite Hv, part_in_field, decide_True| | | |done|done].
    + intros b Hb. by rewrite Hv, part_in_field, decide_False.
    + cbn. rewrite elem_of_parts. pose proof (BReactor.inv_jobs _ _ (si_reactor _ _ _ _ _ Hi)) as Hnd. rewrite Hj in Hnd. by apply NoDup_cons in Hnd as [? _].
    + intros ->. apply (He a). by rewrite Hj.
  - assert (forall b, view_of r b = view_of r0 b) as Hv by (intros b; by apply same_view).
    assert ((forall a, container x <> Some (a, P_bfd)) -> handler_does fin (raise (BReactor.Called (BReactor.CallFd x evs)) m k) S (Ok (r, m, []))) as Hother
      by (intros Hx; apply Hnothing; [done|by apply raise_other]).
    destruct (container x) as [[a q]|] eqn:Ec; [|by apply Hother]. destruct (decide (q = P_bfd)) as [->|Hq]; [|by destruct q; try done; apply Hother; congruence].
    apply container_inv in Ec as ->. destruct Hd as (_ & Hj & _ & f & Hf & Hact & _ & Hrd & Hwr).
    eapply (fd_ok now fin r0); [done|done|done| |done| |].
    + rewrite Hv. cbn. by rewrite Hj.
    + exists (BReactor.waitEvents f). split; [|done]. rewrite Hv. cbn. unfold fd_of. rewrite Hf. cbn. by rewrite Hact.
    + done.
Qed.

(** ** Runs *)
Lemma sockets_step_ok now S w fin acts res : step S now w fin acts res -> inv now (reactor w) (objs w) (kern w) S ->
  now <= fin /\ exists w' S', res = Ok w' /\ spec_run S acts = Some S' /\ inv fin (reactor w') (objs w') (kern w') S'.
Proof.
  intros Hst Hi. destruct Hst as [now w u an w' ok out Hal Han E|now w u an Hal Han E|now fin ws w Hn Hw He Hh E|now fin ws w r p an res Hn Hw He Hh Hex Han <-].
  - split; [done|]. destruct (user_call_ok now w S u an Hi Hal Han) as (r & m & ok' & out' & k & S' & E1 & E2 & Hs & Hi').
    unfold user_step in E. rewrite E1 in E. cbn in E. rewrite E2 in E. injection E as <- <- <-. eexists _, S'. split; [done|]. split; [|done]. cbn. by rewrite (proj1 Hal).
  - destruct (user_call_ok now w S u an Hi Hal Han) as (r & m & ok' & out' & k & S' & E1 & E2 & Hs & Hi').
    unfold user_step in E. rewrite E1 in E. cbn in E. by rewrite E2 in E.
  - destruct (BReactor.exec_iteration_ok now fin ws _ (si_reactor _ _ _ _ _ Hi) Hn Hw) as (? & ? & E' & _). congruence.
  - split; [lia|]. destruct (loop_ok now fin ws _ _ _ S r p an Hi Hn Hw He Hh Hex Han) as (r' & m' & out & k' & S' & E1 & E2 & Hs & Hi').
    unfold handle. cbn [reactor objs kern]. rewrite E1. cbn. rewrite E2. cbn. by eexists _, S'.
Qed.

Lemma sockets_inv_mono now now' r m k S : now <= now' -> inv now r m k S -> inv now' r m k S.
Proof. intros Hn [Hr Ho Hw]. constructor; [by eapply BReactor.inv_mono|done|done]. Qed.

Lemma sockets_init_inv : inv 0 (BReactor.BReactor_Init (T := T)) ∅ (mkKernel ∅ ∅) init_spec.
Proof.
  constructor; [apply BReactor.inv_init| |].
  - intros a. cbn. rewrite !lookup_empty. cbn. unfold view_of, fd_of, has_limit. cbn. by rewrite !lookup_empty.
  - constructor; cbn; [|intros a b o o' f Ha|intros a o f Ha|set_solver]; try (by rewrite lookup_empty in Ha).
    intros f. split; [set_solver|]. intros [?|(a & o & Ha & _)]; [set_solver|by rewrite lookup_empty in Ha].
Qed.

Lemma sockets_run_ok tr now res : run tr now res ->
  exists w S, res = Ok w /\ spec_run init_spec tr = Some S /\ inv now (reactor w) (objs w) (kern w) S.
Proof.
  induction 1 as [|tr now w S now1 fin acts res Hrun IH Hs Hn Hst].
  - eexists _, _. split; [done|]. split; [done|]. apply sockets_init_inv.
  - destruct IH as (w' & S' & [= <-] & Hs' & Hi). rewrite Hs in Hs'. injection Hs' as <-. apply (sockets_inv_mono _ now1) in Hi; [|done].
    destruct (sockets_step_ok _ _ _ _ _ _ Hst Hi) as (_ & w2 & S2 & -> & Hs2 & Hi2). exists w2, S2. split; [done|]. split; [|done]. by rewrite spec_app, Hs.
Qed.

(** The descriptor of [a] is registered for an event, or a job of [a] is pending. *)
Definition registered r a (ev : Z) : Prop :=
  exists f, BReactor.fds r !! field a P_bfd = Some f /\ BReactor.active f = true /\ BReactor.has (BReactor.waitEvents f) ev = true.
Definition job_pending r a (p : part) : Prop := field a p ∈ BReactor.pending_jobs r.

(** What is in progress with an object is in the hands of the event loop. *)
Definition cared_for r a (x : sobj) : Prop :=
  match x with
  | SListener ready => registered r a BReactor.BREACTOR_READ /\ (ready = true -> job_pending r a P_default_job)
  | SConnector p => p = CWaiting -> registered r a BReactor.BREACTOR_WRITE \/ job_pending r a P_job
  | SConn c =>
      if s_error c then job_pending r a P_err
      else (forall d n, s_send c = Some (Asked d n) -> job_pending r a P_send_op \/ registered r a BReactor.BREACTOR_WRITE) /\
           (forall n, s_send c = Some (Took n) -> job_pending r a P_send_done) /\
           (forall d n, s_recv c = Some (Asked d n) -> job_pending r a P_recv_op \/ job_pending r a P_recv_job \/ registered r a BReactor.BREACTOR_READ) /\
           (forall n, s_recv c = Some (Took n) -> job_pending r a P_recv_done) /\ s_recv c <> Some AtEnd
  end.

Lemma registered_view r a w ev : v_fd (view_of r a) = Some w -> BReactor.has w ev = true -> registered r a ev.
Proof. intros (f & Hf & Ha & <-)%active_fd Hw. exists f. by split_and!. Qed.
Lemma pending_view r a p : p ∈ v_jobs (view_of r a) -> job_pending r a p.
Proof. unfold job_pending. cbn. by rewrite elem_of_parts. Qed.
Lemma waiting_registered r a o c ev : base_inv (view_of r a) o c -> waiting ev o = true -> registered r a ev.
Proof.
  intros Hb. unfold waiting. intros [Hh%negb_true_iff Hw]%andb_true_iff. pose proof (ci_fd _ _ _ Hb) as Hf. rewrite Hh in Hf. by eapply registered_view.
Qed.

Lemma conn_cared_for r a e o c : conn_inv a (view_of r a) e o c -> cared_for r a (SConn c).
Proof.
  intros [Hb Hs Hr]. cbn. pose proof (ci_error _ _ _ Hb) as He. destruct (s_error c) eqn:Ee.
  { apply pending_view. destruct (v_jobs (view_of r a)); cbn in He; [done|]. injection He as ->. by left. }
  unfold send_inv in Hs. unfold recv_inv in Hr. split_and!.
  - intros d n Hc. rewrite Hc in Hs. destruct (sstate (send o)); [naive_solver| |].
    + left. apply pending_view. destruct Hs as (_ & Hrd & _). unfold ready_inv in Hrd. destruct (state (siface (send o))); naive_solver.
    + right. eapply waiting_registered; [exact Hb|]. by apply Hs.
  - intros n Hc. rewrite Hc in Hs. apply pending_view. destruct (sstate (send o)); [naive_solver| |unfold busy_inv in Hs; naive_solver].
    destruct Hs as (_ & Hrd & _). unfold ready_inv in Hrd. destruct (state (siface (send o))); naive_solver.
  - intros d n Hc. rewrite Hc in Hr. destruct (rstate (recv o)); [naive_solver| | |naive_solver|done].
    + left. apply pending_view. destruct Hr as (_ & Hrd & _). unfold ready_inv in Hrd. destruct (state (riface (recv o))); naive_solver.
    + right. destruct Hr as (_ & _ & Hw & _). destruct (Hw Ee) as [Hj|Hw']; [left; by apply pending_view|right; by eapply waiting_registered].
  - intros n Hc. rewrite Hc in Hr. apply pending_view. destruct (rstate (recv o)); [naive_solver| |unfold busy_inv in Hr; naive_solver|naive_solver|done].
    destruct Hr as (_ & Hrd & _). unfold ready_inv in Hrd. destruct (state (riface (recv o))); naive_solver.
  - intros Hc. rewrite Hc in Hr. unfold ready_inv, busy_inv in Hr. destruct (rstate (recv o)), (state (riface (recv o))); naive_solver.
Qed.

(** C20: In every run of listeners, connectors and connections in which the
    user keeps to the contract and the system calls behave as documented,
    whatever they return, no assertion fails, nothing freed is used and no
    descriptor is used or closed after it was closed; what is seen of the
    objects is a trace of the specification: handlers are called only when
    they may be, every operation leads to system calls with its buffer and is
    completed once with the number of bytes the system took, a listener's
    connection is taken or discarded once, a connector reports once; the open
    descriptors are exactly those of the user and those of the objects, each
    of one object, so that none is left when the objects are freed. *)
Theorem sockets_refine tr now res : run tr now res ->
  exists w S, res = Ok w /\ spec_run init_spec tr = Some S /\ owned (objs w) (open (kern w)) (s_user S) /\
    (s_objs S = ∅ -> open (kern w) = s_user S).
Proof.
  intros (w & S & -> & Hs & Hi)%sockets_run_ok. exists w, S. pose proof Hi as [_ Hobjs Hown]. split_and!; try done.
  intros He. apply leibniz_equiv. intros f. rewrite (ow_open _ _ _ Hown f). split; [|by left]. intros [?|(a & o & Ha & _)]; [done|].
  pose proof (Hobjs a) as H. rewrite Ha, He, lookup_empty in H. by destruct o.
Qed.

(** C21: Nothing that is in progress is forgotten: at every point of such a run a
    listener is registered for connections and one that is ready has the job
    that discards it pending; a connector that has not reported yet, and every
    send and receive operation that was started and not completed, has a job
    pending or is registered with the event loop for the event it needs; and an
    error that was reported is watched by its job. *)
Theorem sockets_nothing_forgotten tr now w S a x : run tr now (Ok w) -> spec_run init_spec tr = Some S -> s_objs S !! a = Some x -> cared_for (reactor w) a x.
Proof.
  intros (w' & S' & [= <-] & Hs' & Hi)%sockets_run_ok Hs Hx. rewrite Hs in Hs'. injection Hs' as <-. pose proof (si_objs _ _ _ _ _ Hi a) as H. rewrite Hx in H.
  destruct (objs w !! a) as [[o|o|o]|], x as [ready|p|c]; try done; cbn in H; [..|by eapply conn_cared_for].
  - destruct H as [Hv _]. split; [eapply registered_view; [by rewrite Hv|done]|]. intros ->. apply pending_view. rewrite Hv. by left.
  - intros ->. destruct H as (_ & [(_ & _ & Hv)|(_ & _ & Hv)]); [left; eapply registered_view; [by rewrite Hv|done]|right; apply pending_view; rewrite Hv; by left].
Qed.
End system.

(** ** An example *)
Section example.
Abbreviation state := (@world avl_tree).

Lemma run_user tr now (w : state) S u an w' ok out : run tr now (Ok w) -> spec_run init_spec tr = Some S -> user_allowed S w u -> answers_ok (kern w) an ->
  user_step u an w = Ok (w', ok, out) -> run (tr ++ User u ok :: map Out out) now (Ok w').
Proof. intros Hr Hs Hu Ha E. eapply run_step; [done|done|done|by eapply step_user]. Qed.
Lemma run_loop tr now (w : state) S now1 fin ws r p an w' out : run tr now (Ok w) -> spec_run init_spec tr = Some S -> now <= now1 <= fin -> 0 <= now1 ->
  BReactor.wait_allowed now1 fin ws (reactor w) -> errors_handled (reactor w) -> handlers_set S ->
  BReactor.exec_iteration now1 ws (reactor w) = Ok (r, p) -> answers_ok (raise p (objs w) (kern w)) an ->
  handle p an (mkWorld r (objs w) (kern w)) = Ok (w', out) -> run (tr ++ map Out out) fin (Ok w').
Proof.
  intros Hr Hs Hn Hp Hw He Hh Hex Ha E. eapply (run_step _ _ _ _ now1); [done|done|lia|].
  pose proof (step_loop S now1 fin ws w r p an _ ltac:(lia) Hw He Hh Hex Ha E) as Hst. exact Hst.
Qed.

Definition ex_answers (x : io) : answers :=
  mkAnswers (fun _ _ => x) (fun _ _ => EAGAIN) None None true None true UnlinkOk true true ConnectDone true true.
Definition ex_user (u : user) (w : state) : state :=
  match user_step u (ex_answers EAGAIN) w with Ok (w, _, _) => w | Fault => init_world end.
Definition ex_loop (x : io) (w : state) : state :=
  match BReactor.exec_iteration 0 [] (reactor w) with
  | Ok (r, p) => match handle p (ex_answers x) (mkWorld r (objs w) (kern w)) with Ok (w, _) => w | Fault => init_world end
  | Fault => init_world
  end.

(** A connection on a descriptor of the user's: what is sent is not taken at
    once, the connection waits. *)
Definition ex_c : loc := 1%positive.
Definition ex_init : user := UConnectionInit ex_c (BCONNECTION_SOURCE_TYPE_PIPE 5 true).
Definition ex1 : state := ex_user (UOpen 5) init_world.
Definition ex2 : state := ex_user ex_init ex1.
Definition ex3 : state := ex_user (USendInit ex_c) ex2.
Definition ex4 : state := ex_user (USend ex_c 64 10) ex3.
Definition ex5 : state := ex_loop EAGAIN ex4.
Definition ex_trace : list act :=
  (((([] ++ [User (UOpen 5) true; Out (Opened 5)]) ++ [User ex_init true; Out (Sys sys_fcntl 5)])
      ++ [User (USendInit ex_c) true]) ++ [User (USend ex_c 64 10) true]) ++ [Out (Write ex_c 5 64 10 EAGAIN)].
Definition ex_spec : spec := mkSpec {[ex_c := SConn (mkSConn true false None (Some (Asked 64 10)) None)]} ∅.

Lemma ex_answers_ok k : err k = ∅ -> answers_ok k (ex_answers EAGAIN).
Proof. intros He. constructor; cbn; try done. intros fd len. rewrite He. set_solver. Qed.
Lemma ex_handlers : handlers_set ex_spec.
Proof.
  intros a c. unfold s_conn, ex_spec. cbn [s_objs]. destruct (decide (a = ex_c)) as [->|Hne]; [rewrite lookup_singleton_eq; by intros [= <-]|].
  by rewrite lookup_singleton_ne.
Qed.

Ltac ex_step S w out := eapply (run_user _ 0 w S _ _ _ _ out); [|vm_compute; reflexivity|split; [vm_compute; reflexivity|]|apply ex_answers_ok; vm_compute; reflexivity|vm_compute; reflexivity].

Lemma ex_sockets_run : run ex_trace 0 (Ok ex5).
Proof.
  unfold ex_trace. eapply (run_loop _ 0 ex4 ex_spec 0 0 [] _ _ (ex_answers EAGAIN) ex5 [Write ex_c 5 64 10 EAGAIN]); [|vm_compute; reflexivity|lia|lia| | |exact ex_handlers|vm_compute; reflexivity| |vm_compute; reflexivity].
  - ex_step (mkSpec {[ex_c := SConn (mkSConn true false None (Some Idle) None)]} ∅) ex3 (@nil output); [|exact I].
    ex_step (mkSpec {[ex_c := SConn (mkSConn true false None None None)]} ∅) ex2 (@nil output); [|exact I].
    ex_step (mkSpec ∅ {[5]}) ex1 [Sys sys_fcntl 5]; [|exact I].
    ex_step init_spec (init_world : state) [Opened 5]; [|cbn; split; [lia|set_solver]]. apply run_nil.
  - intros (_ & H & _). vm_compute in H. discriminate H.
  - intros a. replace (BReactor.pending_jobs (reactor ex4)) with [field ex_c P_send_op] by (vm_compute; reflexivity). cbn. intros [= E]. by apply field_inj in E as [_ ?].
  - apply ex_answers_ok. vm_compute. reflexivity.
Qed.
End example.

Lemma sockets_refine_witness : exists w S, Ok ex5 = Ok w /\ spec_run init_spec ex_trace = Some S /\ owned (objs w) (open (kern w)) (s_user S) /\
  (s_objs S = ∅ -> open (kern w) = s_user S).
Proof. apply (sockets_refine ex_trace 0). exact ex_sockets_run. Defined.

Lemma sockets_nothing_forgotten_witness : cared_for (reactor ex5) ex_c (SConn (mkSConn true false None (Some (Asked 64 10)) None)).
Proof. apply (sockets_nothing_forgotten ex_trace 0 ex5 ex_spec); [exact ex_sockets_run|vm_compute; reflexivity|vm_compute; reflexivity]. Defined.

(** The assumption on errors is needed: when an error event comes without a
    hang-up and the [write] after it succeeds nevertheless, the connection
    goes on waiting to write without an operation, and the assertion of
    [connection_fd_handler] fails at the next event. *)
Definition fd_event_of (ev : Z) : BReactor.progress := BReactor.Called (BReactor.CallFd (field ex_c P_bfd) ev).
Lemma stale_wait_faults : exists w out,
  handle (fd_event_of BReactor.BREACTOR_ERROR) (ex_answers (Bytes 10)) ex5 = Ok (w, out) /\ registered (reactor w) ex_c BReactor.BREACTOR_WRITE /\
  forall an, handle (fd_event_of BReactor.BREACTOR_WRITE) an w = Fault.
Proof.
  eexists _, _. split; [vm_compute; reflexivity|]. split; [|intros an; vm_compute; reflexivity].
  eexists. split; [vm_compute; reflexivity|]. done.
Qed.
End SocketSystem.
