(* ===== verification/PacketProto.v ===== *)
(** * Packets over a stream (badvpn/flow/PacketProtoEncoder.c, PacketProtoDecoder.c,
    PacketStreamSender.c; badvpn/protocol/packetproto.h)

    The encoder puts a 16-bit little-endian length before every packet; the
    stream sender passes a packet to a stream in the pieces the stream accepts;
    the decoder finds the packets again in the pieces the stream delivers.

    A handler returns its new state and the calls of interface operations it
    makes, in order. Buffers are byte lists, pointers into the own buffer are
    offsets. *)
From Stdlib Require Import ZArith Lia.
From stdpp Require Import base tactics numbers option gmap list.
From S2P Require Import Prelude ByteOrder.

Definition sizeof_packetproto_header : Z := 2.
Definition PACKETPROTO_ENCLEN (len : Z) : Z := sizeof_packetproto_header + len.
Definition PACKETPROTO_MAXPAYLOAD : Z := UINT16_MAX.

(** The encoding packetproto.h describes. *)
Definition encode (p : list Z) : list Z := le_bytes 2 (Zlen p) ++ p.

Module PacketProtoEncoder.

(** [output_packet] is the address of the packet being made; [None] is [NULL]. *)
Record PacketProtoEncoder := mkEnc { output_packet : option Z }.

Inductive action :=
| Input_Recv (addr : Z)   (* PacketRecvInterface_Receiver_Recv(enc->input, addr) *)
| Output_Done (len : Z).  (* PacketRecvInterface_Done(&enc->output, len) *)

(** The MTU of the output interface that is created for an input of [input_mtu]. *)
Definition PacketProtoEncoder_Init (input_mtu : Z) : outcome (PacketProtoEncoder * Z) :=
  ASSERT (input_mtu <=? PACKETPROTO_MAXPAYLOAD);;
  Ok (mkEnc None, PACKETPROTO_ENCLEN input_mtu).

Definition output_handler_recv (enc : PacketProtoEncoder) (data : Z)
    : outcome (PacketProtoEncoder * list action) :=
  ASSERT (bool_decide (output_packet enc = None));;
  Ok (mkEnc (Some data), [Input_Recv (data + sizeof_packetproto_header)]).

(** [mem] is the memory the packets are made in. *)
Definition input_handler_done (enc : PacketProtoEncoder) (mem : list Z) (in_len : Z)
    : outcome (PacketProtoEncoder * list Z * list action) :=
  of_option (output_packet enc) ≫= fun out =>
  let pp := le_bytes 2 (ByteOrder.htol16 (u16 in_len)) in
  mem_write mem out pp ≫= fun mem =>
  Ok (mkEnc None, mem, [Output_Done (PACKETPROTO_ENCLEN in_len)]).

(** One packet: the output asks for a packet at [out], the input provides the
    payload [p] at the address the encoder gave it. The packet that is
    completed at [out] is the encoding of [p]; nothing else is written. *)
Lemma encode_packet mem out p :
  0 <= out -> out + 2 + Zlen p <= Zlen mem -> Zlen p <= UINT16_MAX ->
  exists addr mem1 mem2,
    output_handler_recv (mkEnc None) out = Ok (mkEnc (Some out), [Input_Recv addr]) /\
    mem_write mem addr p = Ok mem1 /\
    input_handler_done (mkEnc (Some out)) mem1 (Zlen p) =
      Ok (mkEnc None, mem2, [Output_Done (Zlen (encode p))]) /\
    mem2 = splice mem out (encode p) /\ slice mem2 out (Zlen (encode p)) = encode p.
Proof.
  intros Ho Hm Hp. unfold UINT16_MAX in Hp. exists (out + 2), (splice mem (out + 2) p).
  assert (Zlen (encode p) = 2 + Zlen p) as He
    by (unfold encode; rewrite length_app, length_le_bytes; lia).
  exists (splice mem out (encode p)). split; [done|]. split; [apply mem_write_Ok; split; [lia|done]|].
  split; [|split; [done|apply slice_splice_same; lia]].
  unfold input_handler_done, ByteOrder.htol16. cbn [output_packet of_option mbind outcome_bind].
  rewrite u16_small by lia.
  assert (mem_write (splice mem (out + 2) p) out (le_bytes 2 (Zlen p)) = Ok (splice mem out (encode p))) as ->.
  { apply mem_write_Ok. rewrite length_splice, length_le_bytes by lia. split; [lia|].
    apply list_eq. intros i.
    rewrite !lookup_splice; rewrite ?length_splice, ?length_le_bytes by lia; try lia.
    unfold encode in *. rewrite ?length_app, ?length_le_bytes in *. repeat case_decide; try lia; try done.
    - rewrite lookup_app_l by (rewrite length_le_bytes; lia). done.
    - rewrite lookup_app_r by (rewrite length_le_bytes; lia). rewrite length_le_bytes. f_equal. lia. }
  cbn [mbind outcome_bind]. by rewrite He.
Qed.
End PacketProtoEncoder.

Module PacketStreamSender.

(** The packet being sent, by its address and length ([in_len = -1]: none),
    and the number of bytes the output has taken. *)
Record PacketStreamSender := mkSender { in_ : Z; in_len : Z; in_used : Z }.

Inductive action :=
| Output_Send (addr len : Z)  (* StreamPassInterface_Sender_Send(s->output, addr, len) *)
| Input_Done.                 (* PacketPassInterface_Done(&s->input) *)

Definition PacketStreamSender_Init (mtu : Z) : outcome PacketStreamSender :=
  ASSERT (0 <=? mtu);; Ok (mkSender 0 (-1) 0).

Definition send_data (s : PacketStreamSender) : outcome (PacketStreamSender * list action) :=
  ASSERT (0 <=? in_len s);;
  if in_used s <? in_len s
  then Ok (s, [Output_Send (in_ s + in_used s) (in_len s - in_used s)])
  else Ok (mkSender (in_ s) (-1) (in_used s), [Input_Done]).

Definition input_handler_send (s : PacketStreamSender) (data data_len : Z)
    : outcome (PacketStreamSender * list action) :=
  ASSERT (in_len s =? -1);;
  ASSERT (0 <=? data_len);;
  send_data (mkSender data data_len 0).

Definition output_handler_done (s : PacketStreamSender) (data_len : Z)
    : outcome (PacketStreamSender * list action) :=
  ASSERT (0 <=? in_len s);;
  ASSERT (0 <? data_len);;
  ASSERT (data_len <=? in_len s - in_used s);;
  send_data (mkSender (in_ s) (in_len s) (in_used s + data_len)).

(** The stream takes at each request a positive number of the bytes offered,
    as [accept] says; what it took is [taken]. Ends when the sender reports the
    packet as sent. *)
Fixpoint drive (fuel : nat) (accept : nat -> Z) (mem : list Z) (s : PacketStreamSender)
    (acts : list action) (taken : list Z) : outcome (PacketStreamSender * list Z) :=
  match fuel with
  | O => Fault
  | S fuel =>
      match acts with
      | [Input_Done] => Ok (s, taken)
      | [Output_Send addr len] =>
          let k := Z.max 1 (Z.min (accept fuel) len) in
          mem_read mem addr k ≫= fun got =>
          output_handler_done s k ≫= fun (r : PacketStreamSender * list action) =>
          drive fuel accept mem r.1 r.2 (taken ++ got)
      | _ => Fault
      end
  end.

Lemma drive_send fuel accept mem data len used taken :
  0 <= data -> 0 <= used <= len -> data + len <= Zlen mem -> (Z.to_nat (len - used) < fuel)%nat ->
  exists s,
    (send_data (mkSender data len used) ≫= fun (r : PacketStreamSender * list action) =>
       drive fuel accept mem r.1 r.2 taken) =
      Ok (s, taken ++ slice mem (data + used) (len - used)) /\ in_len s = -1.
Proof.
  revert used taken. induction fuel as [|fuel IH]; intros used taken Hd Hu Hm Hf; [lia|].
  unfold send_data. cbn [in_len in_used in_]. rewrite bind_ASSERT_true by lia.
  destruct (used <? len) eqn:E; zify_bool; cbn [mbind outcome_bind fst snd drive].
  2:{ eexists. replace (len - used) with 0 by lia. split; [by rewrite app_nil_r|done]. }
  set (k := Z.max 1 (Z.min (accept fuel) (len - used))).
  assert (1 <= k <= len - used) by lia.
  assert (mem_read mem (data + used) k = Ok (slice mem (data + used) k)) as ->
    by (apply mem_read_Ok; split; [lia|done]).
  cbn [mbind outcome_bind]. unfold output_handler_done. cbn [in_len in_used in_].
  rewrite !bind_ASSERT_true by lia.
  destruct (IH (used + k) (taken ++ slice mem (data + used) k)) as (s & Hs & ?); [lia..|].
  exists s. split; [|done]. rewrite Hs, <- app_assoc. do 3 f_equal.
  replace (data + (used + k)) with (data + used + k) by lia.
  rewrite <- slice_app_split by lia. f_equal. lia.
Qed.

(** C36: The stream sender sends a packet completely, in order and once. For a
    packet of any length (also empty) and a stream that takes any positive
    number of bytes each time, the sender reports completion after at most one
    request per byte, the bytes the stream took are exactly the packet, and the
    sender is ready for the next one; its assertions hold. *)
Theorem PacketStreamSender_sends accept mem s data len :
  0 <= data -> 0 <= len -> data + len <= Zlen mem -> in_len s = -1 ->
  exists s',
    (input_handler_send s data len ≫= fun (r : PacketStreamSender * list action) =>
       drive (S (Z.to_nat len)) accept mem r.1 r.2 []) = Ok (s', slice mem data len) /\
    in_len s' = -1.
Proof.
  intros Hd Hl Hm Hs. unfold input_handler_send. rewrite !bind_ASSERT_true by lia.
  destruct (drive_send (S (Z.to_nat len)) accept mem data len 0 []) as (s' & E & ?); [lia..|].
  exists s'. split; [|done]. rewrite E. rewrite Z.add_0_r, Z.sub_0_r. done.
Qed.

Lemma PacketStreamSender_sends_witness :
  exists s',
    (input_handler_send (mkSender 0 (-1) 0) 1 4 ≫= fun (r : PacketStreamSender * list action) =>
       drive 5 (fun n => Z.of_nat n) [9; 1; 2; 3; 4; 9] r.1 r.2 []) = Ok (s', [1; 2; 3; 4]) /\
    in_len s' = -1.
Proof.
  apply (PacketStreamSender_sends (fun n => Z.of_nat n) [9; 1; 2; 3; 4; 9] (mkSender 0 (-1) 0) 1 4);
    [lia|lia|vm_compute; congruence|reflexivity].
Defined.
End PacketStreamSender.

Module PacketProtoDecoder.

Record PacketProtoDecoder := mkDec {
  output_mtu : Z; buf : list Z; buf_size : Z; buf_start : Z; buf_used : Z
}.

Inductive action :=
| Output_Send (off len : Z)  (* PacketPassInterface_Sender_Send(enc->output, enc->buf + off, len) *)
| Input_Recv (off len : Z)   (* StreamRecvInterface_Receiver_Recv(enc->input, enc->buf + off, len) *)
| Handler_error.             (* enc->handler_error(enc->user) *)

Definition set_buf (enc : PacketProtoDecoder) (b : list Z) (start used : Z) : PacketProtoDecoder :=
  mkDec (output_mtu enc) b (buf_size enc) start used.

(** The code after the [do ... while (0)] block. *)
Definition receive_more (enc : PacketProtoDecoder) (was_error : bool)
    : outcome (PacketProtoDecoder * list action) :=
  (if was_error then Ok (set_buf enc (buf enc) 0 0)
   else if buf_start enc + buf_used enc =? buf_size enc then
     mem_read (buf enc) (buf_start enc) (buf_used enc) ≫= fun d =>
     mem_write (buf enc) 0 d ≫= fun b =>
     Ok (set_buf enc b 0 (buf_used enc))
   else Ok enc) ≫= fun enc =>
  let off := buf_start enc + buf_used enc in
  Ok (enc, Input_Recv off (buf_size enc - off) :: (if was_error then [Handler_error] else [])).

Definition process_data (enc : PacketProtoDecoder) : outcome (PacketProtoDecoder * list action) :=
  let data := buf_start enc in
  let left := buf_used enc in
  if left <? sizeof_packetproto_header then receive_more enc false else
  mem_read (buf enc) data sizeof_packetproto_header ≫= fun header =>
  let data := data + sizeof_packetproto_header in
  let left := left - sizeof_packetproto_header in
  let data_len := ByteOrder.ltoh16 (le_val header) in
  if output_mtu enc <? data_len then receive_more enc true else
  if left <? data_len then receive_more enc false else
  let enc := set_buf enc (buf enc)
    (buf_start enc + (sizeof_packetproto_header + data_len))
    (buf_used enc - (sizeof_packetproto_header + data_len)) in
  Ok (enc, [Output_Send data data_len]).

Definition input_handler_done (enc : PacketProtoDecoder) (data_len : Z)
    : outcome (PacketProtoDecoder * list action) :=
  ASSERT (0 <? data_len);;
  ASSERT (data_len <=? buf_size enc - (buf_start enc + buf_used enc));;
  process_data (set_buf enc (buf enc) (buf_start enc) (buf_used enc + data_len)).

Definition output_handler_done (enc : PacketProtoDecoder) : outcome (PacketProtoDecoder * list action) :=
  process_data enc.

(** [mem] is the memory [malloc] returns, [None] if it fails. *)
Definition PacketProtoDecoder_Init (mtu : Z) (mem : option (list Z))
    : option (PacketProtoDecoder * list action) :=
  let output_mtu := Z.min mtu PACKETPROTO_MAXPAYLOAD in
  let buf_size := PACKETPROTO_ENCLEN output_mtu in
  match mem with
  | None => None
  | Some b => Some (mkDec output_mtu b buf_size 0 0, [Input_Recv 0 buf_size])
  end.

Definition PacketProtoDecoder_Reset (enc : PacketProtoDecoder) : PacketProtoDecoder :=
  set_buf enc (buf enc) (buf_start enc + buf_used enc) 0.

(** ** Behaviour *)

(** The received bytes that were not yet passed on. *)
Definition content (enc : PacketProtoDecoder) : list Z := slice (buf enc) (buf_start enc) (buf_used enc).

Record wf (enc : PacketProtoDecoder) : Prop := {
  wf_mtu : 0 <= output_mtu enc <= UINT16_MAX;
  wf_size : buf_size enc = 2 + output_mtu enc;
  wf_len : Zlen (buf enc) = buf_size enc;
  wf_bytes : bytes (buf enc);
  wf_start : 0 <= buf_start enc;
  wf_used : 0 <= buf_used enc;
  wf_end : buf_start enc + buf_used enc <= buf_size enc
}.

(** The first packet of a byte string, for packets of at most [mtu] bytes. *)
Inductive parsed := NeedMore | TooLarge | Packet (p rest : list Z).

Definition parse (mtu : Z) (l : list Z) : parsed :=
  if Zlen l <? 2 then NeedMore else
  let n := le_val (take 2 l) in
  if mtu <? n then TooLarge else
  if Zlen l - 2 <? n then NeedMore else
  Packet (slice l 2 n) (drop (Z.to_nat (2 + n)) l).

Lemma length_content enc : wf enc -> Zlen (content enc) = buf_used enc.
Proof. intros [? ? Hl ? ? ? ?]. apply length_slice; lia. Qed.

Lemma bytes_content enc : wf enc -> bytes (content enc).
Proof. intros [? ? ? ? ? ? ?]. by apply Forall_take, Forall_drop. Qed.

(** Making room: the content stays the same, and there is room. *)
Lemma receive_more_ok enc :
  wf enc -> buf_used enc < buf_size enc ->
  exists enc' off len, receive_more enc false = Ok (enc', [Input_Recv off len]) /\ wf enc' /\
    content enc' = content enc /\ off = buf_start enc' + buf_used enc' /\
    len = buf_size enc' - off /\ 0 < len /\ output_mtu enc' = output_mtu enc.
Proof.
  intros Hw Hu. pose proof Hw as [Hm Hs Hl Hb H0 H1 He]. unfold receive_more.
  destruct (_ =? _) eqn:E; zify_bool; cbn [mbind outcome_bind].
  2:{ exists enc. eexists _, _. split; [done|]. split_and!; (done || lia). }
  set (d := slice (buf enc) (buf_start enc) (buf_used enc)).
  assert (Zlen d = buf_used enc) as Hd by (apply length_slice; lia).
  assert (mem_read (buf enc) (buf_start enc) (buf_used enc) = Ok d) as ->
    by (apply mem_read_Ok; split; [lia|done]).
  cbn [mbind outcome_bind].
  assert (mem_write (buf enc) 0 d = Ok (splice (buf enc) 0 d)) as ->
    by (apply mem_write_Ok; split; [lia|done]).
  cbn [mbind outcome_bind]. eexists _, _, _. split; [done|]. cbn.
  assert (length (splice (buf enc) 0 d) = length (buf enc)) as Hsp by (apply length_splice; lia).
  split_and!; try done; try lia.
  - split; cbn; try lia. unfold splice. rewrite !Forall_app. split_and!.
    + by apply Forall_take. + by apply Forall_take, Forall_drop. + by apply Forall_drop.
  - change (content enc) with d. unfold content. cbn.
    transitivity (slice (splice (buf enc) 0 d) 0 (Zlen d)); [by rewrite Hd|apply slice_splice_same; lia].
Qed.

Lemma take_content enc n :
  wf enc -> 0 <= n <= buf_used enc -> take (Z.to_nat n) (content enc) = slice (buf enc) (buf_start enc) n.
Proof. intros Hw Hn. unfold content, slice. rewrite take_take. f_equal. lia. Qed.

(** [process_data] follows [parse] of the content: a complete packet is sent
    from the buffer, an incomplete one leads to a request for more bytes with
    room for at least one, a length above the MTU empties the buffer and is
    reported. *)
Lemma process_data_ok enc :
  wf enc ->
  match parse (output_mtu enc) (content enc) with
  | NeedMore =>
      exists enc' off len, process_data enc = Ok (enc', [Input_Recv off len]) /\ wf enc' /\
        content enc' = content enc /\ off = buf_start enc' + buf_used enc' /\
        len = buf_size enc' - off /\ 0 < len /\ output_mtu enc' = output_mtu enc
  | TooLarge =>
      process_data enc = Ok (set_buf enc (buf enc) 0 0, [Input_Recv 0 (buf_size enc); Handler_error])
  | Packet p rest =>
      exists enc' off, process_data enc = Ok (enc', [Output_Send off (Zlen p)]) /\ wf enc' /\
        mem_read (buf enc') off (Zlen p) = Ok p /\ content enc' = rest /\ output_mtu enc' = output_mtu enc
  end.
Proof.
  intros Hw. pose proof Hw as [Hm Hs Hl Hb H0 H1 He]. unfold process_data, parse, sizeof_packetproto_header.
  rewrite length_content by done.
  destruct (buf_used enc <? 2) eqn:E2; zify_bool; [apply receive_more_ok; [done|lia]|].
  assert (mem_read (buf enc) (buf_start enc) 2 = Ok (slice (buf enc) (buf_start enc) 2)) as ->
    by (apply mem_read_Ok; split; [lia|done]).
  cbn [mbind outcome_bind]. rewrite <- (take_content enc 2) by (done || lia).
  change (Z.to_nat 2) with 2%nat. unfold ByteOrder.ltoh16, ByteOrder.htol16.
  set (n := le_val (take 2 (content enc))).
  assert (0 <= n) by (apply le_val_range; by apply Forall_take, bytes_content).
  destruct (output_mtu enc <? n) eqn:E3; zify_bool.
  { unfold receive_more. cbn. by rewrite Z.sub_0_r. }
  destruct (buf_used enc - 2 <? n) eqn:E4; zify_bool; [apply receive_more_ok; [done|lia]|].
  eexists _, (buf_start enc + 2).
  assert (slice (content enc) 2 n = slice (buf enc) (buf_start enc + 2) n) as Hp
    by (apply slice_slice; lia).
  assert (Zlen (slice (content enc) 2 n) = n) as Hpl by (rewrite Hp; apply length_slice; lia).
  rewrite Hpl. split; [done|]. split; [split; cbn; lia || done|]. split; [apply mem_read_Ok; split; [cbn; lia|exact Hp]|].
  split; [|done]. unfold content. cbn. unfold slice.
  rewrite skipn_firstn_comm, drop_drop. f_equal; [lia|f_equal; lia].
Qed.

(** The decoder between a stream, which delivers at each request a positive
    number of bytes up to the length asked for, as [sizes] says, and an output
    that takes every packet. Ends when all of [stream] was delivered and the
    decoder asks for more. *)
Fixpoint drive (fuel : nat) (sizes : nat -> Z) (enc : PacketProtoDecoder) (acts : list action)
    (stream : list Z) (out : list (list Z)) : outcome (PacketProtoDecoder * list (list Z)) :=
  match fuel with
  | O => Fault
  | S fuel =>
      match acts with
      | [Output_Send off len] =>
          mem_read (buf enc) off len ≫= fun p =>
          output_handler_done enc ≫= fun (r : PacketProtoDecoder * list action) =>
          drive fuel sizes r.1 r.2 stream (out ++ [p])
      | [Input_Recv off len] =>
          if Zlen stream =? 0 then Ok (enc, out) else
          let k := Z.max 1 (Z.min (sizes fuel) (Z.min len (Zlen stream))) in
          mem_write (buf enc) off (take (Z.to_nat k) stream) ≫= fun b =>
          input_handler_done (set_buf enc b (buf_start enc) (buf_used enc)) k
            ≫= fun (r : PacketProtoDecoder * list action) =>
          drive fuel sizes r.1 r.2 (drop (Z.to_nat k) stream) out
      | _ => Fault
      end
  end.

Definition fits (mtu : Z) (p : list Z) : Prop := bytes p /\ Zlen p <= mtu.

Lemma length_encode p : Zlen (encode p) = 2 + Zlen p.
Proof. unfold encode. rewrite length_app, length_le_bytes. lia. Qed.

(** What [parse] finds in a prefix [c] of a stream that starts with [p]. *)
Lemma parse_prefix mtu c s p rest :
  mtu <= UINT16_MAX -> fits mtu p -> c ++ s = encode p ++ rest ->
  (parse mtu c = NeedMore /\ s <> []) \/ (exists r, parse mtu c = Packet p r /\ r ++ s = rest).
Proof.
  intros Hmtu [Hb Hp] E. unfold UINT16_MAX in Hmtu. unfold parse.
  assert (Zlen c + Zlen s = 2 + Zlen p + Zlen rest) as Hl.
  { rewrite <- length_encode. rewrite <- !Nat2Z.inj_add, <- !length_app. by rewrite E. }
  destruct (Zlen c <? 2) eqn:E2; zify_bool.
  { left. split; [done|]. intros ->. cbn in Hl. lia. }
  assert (take 2 c = le_bytes 2 (Zlen p)) as Ht.
  { transitivity (take 2 (c ++ s)); [by rewrite take_app_le by lia|]. rewrite E. unfold encode.
    rewrite <- app_assoc. apply take_app_length'. by rewrite length_le_bytes. }
  rewrite Ht, le_val_le_bytes. change (256 ^ Z.of_nat 2) with 65536. rewrite Z.mod_small by lia.
  destruct (mtu <? Zlen p) eqn:E3; zify_bool; [lia|].
  destruct (Zlen c - 2 <? Zlen p) eqn:E4; zify_bool.
  { left. split; [done|]. intros ->. cbn in Hl. lia. }
  right. exists (drop (Z.to_nat (2 + Zlen p)) c).
  assert (Z.to_nat (2 + Zlen p) = length (encode p)) as Hn by (pose proof (length_encode p); lia).
  assert (take (length (encode p)) c = encode p) as Hc.
  { transitivity (take (length (encode p)) (c ++ s)); [by rewrite take_app_le by lia|]. rewrite E.
    by rewrite take_app_length. }
  split.
  - f_equal. unfold slice. change (Z.to_nat 2) with 2%nat. rewrite Nat2Z.id.
    rewrite <- (take_drop (length (encode p)) c), Hc. rewrite drop_app_le by lia.
    unfold encode at 1. rewrite drop_app_length' by (by rewrite length_le_bytes).
    by rewrite take_app_length.
  - rewrite Hn. rewrite <- (drop_app_le _ s) by lia. by rewrite E, drop_app_length.
Qed.

(** Receiving a piece of the stream into the space asked for. *)
Lemma receive_content enc off len chunk :
  wf enc -> off = buf_start enc + buf_used enc -> len = buf_size enc - off ->
  0 < Zlen chunk <= len -> bytes chunk ->
  exists b, mem_write (buf enc) off chunk = Ok b /\
    wf (set_buf enc b (buf_start enc) (buf_used enc + Zlen chunk)) /\
    content (set_buf enc b (buf_start enc) (buf_used enc + Zlen chunk)) = content enc ++ chunk.
Proof.
  intros [Hm Hs Hl Hb H0 H1 He] -> -> Hk Hc. exists (splice (buf enc) (buf_start enc + buf_used enc) chunk).
  split; [apply mem_write_Ok; split; [lia|done]|]. split.
  - split; cbn; try lia; [rewrite length_splice; lia|]. unfold splice. rewrite !Forall_app.
    split_and!; [by apply Forall_take|done|by apply Forall_drop].
  - unfold content. cbn. rewrite slice_app_split by lia. f_equal.
    + apply slice_splice_disjoint; lia.
    + apply slice_splice_same; lia.
Qed.

Lemma drive_decodes fuel sizes enc stream pkts out :
  wf enc -> bytes stream -> Forall (fits (output_mtu enc)) pkts ->
  content enc ++ stream = concat (encode <$> pkts) ->
  2 * Zlen stream + Zlen (content enc) < Z.of_nat fuel ->
  exists enc', (process_data enc ≫= fun (r : PacketProtoDecoder * list action) =>
      drive fuel sizes r.1 r.2 stream out) = Ok (enc', out ++ pkts) /\
    wf enc' /\ content enc' = [] /\ output_mtu enc' = output_mtu enc.
Proof.
  revert enc stream pkts out. induction fuel as [|fuel IH]; intros enc stream pkts out Hw Hb Hp E Hf; [lia|].
  pose proof (process_data_ok enc Hw) as Hd. pose proof (wf_mtu _ Hw) as Hmtu.
  destruct pkts as [|p pkts]; cbn [fmap list_fmap concat] in E.
  - apply app_nil in E as [Ec ->]. rewrite Ec in Hd. cbn in Hd.
    destruct Hd as (enc' & off & len & -> & Hw' & Hc' & _ & _ & _ & Hm'). cbn.
    exists enc'. rewrite app_nil_r. split_and!; congruence || done.
  - apply Forall_cons in Hp as [Hp Hps].
    destruct (parse_prefix _ _ _ _ _ (proj2 Hmtu) Hp E) as [[Hpa Hne]|(r & Hpa & Er)]; rewrite Hpa in Hd.
    + destruct Hd as (enc1 & off & len & -> & Hw1 & Hc1 & Hoff & Hlen & Hpos & Hm1).
      cbn [mbind outcome_bind fst snd drive]. destruct (Zlen stream =? 0) eqn:E0; zify_bool.
      { destruct stream; [done|cbn in E0; lia]. }
      set (k := Z.max 1 (Z.min (sizes fuel) (Z.min len (Zlen stream)))).
      set (chunk := take (Z.to_nat k) stream).
      assert (Zlen chunk = k) as Hk by (unfold chunk; rewrite length_take; lia).
      destruct (receive_content enc1 off len chunk Hw1 Hoff Hlen ltac:(lia) ltac:(by apply Forall_take))
        as (b & -> & Hw2 & Hc2).
      cbn [mbind outcome_bind]. unfold input_handler_done. cbn [buf_size buf_start buf_used set_buf buf].
      rewrite !bind_ASSERT_true by lia. rewrite Hk in Hw2, Hc2. rewrite Hc1 in Hc2.
      set (enc2 := set_buf enc1 b (buf_start enc1) (buf_used enc1 + k)) in *.
      destruct (IH enc2 (drop (Z.to_nat k) stream) (p :: pkts) out) as (enc' & E' & ? & ? & Hm').
      * done.
      * by apply Forall_drop.
      * unfold enc2; cbn [output_mtu set_buf]. rewrite Hm1. by apply Forall_cons.
      * rewrite Hc2, <- app_assoc. unfold chunk. by rewrite take_drop.
      * rewrite Hc2, length_app, length_drop. lia.
      * exists enc'. split; [exact E'|]. split_and!; [done|done|]. rewrite Hm'. exact Hm1.
    + destruct Hd as (enc1 & off & -> & Hw1 & Hsl & Hc1 & Hm1).
      cbn [mbind outcome_bind fst snd drive].
      destruct (IH enc1 stream pkts (out ++ [p])) as (enc' & E' & ? & ? & Hm').
      * done.
      * done.
      * by rewrite Hm1.
      * by rewrite Hc1.
      * rewrite Hc1. pose proof (f_equal length E) as El. rewrite <- Er, !length_app in El.
        pose proof (length_encode p). lia.
      * exists enc'. rewrite Hsl. cbn [mbind outcome_bind]. unfold output_handler_done.
        rewrite E', <- app_assoc. split_and!; [done|done|done|congruence].
Qed.

(** C1: The decoder finds exactly the packets that were encoded, for every way
    the stream is cut into pieces. If the packets fit the MTU of the output and
    are at most 65535 bytes, then feeding the concatenation of their encodings
    to a new decoder, in pieces of any sizes the stream chooses (within what
    the decoder asks for), ends with exactly these packets sent in order, no
    error reported, nothing left in the buffer and the decoder asking for more
    data; it always asks for at least one byte and reads and writes only inside
    its buffer. *)
Theorem PacketProtoDecoder_roundtrip mtu mem sizes pkts :
  0 <= mtu -> Zlen mem = PACKETPROTO_ENCLEN (Z.min mtu PACKETPROTO_MAXPAYLOAD) -> bytes mem ->
  Forall (fits (Z.min mtu PACKETPROTO_MAXPAYLOAD)) pkts ->
  exists enc acts enc',
    PacketProtoDecoder_Init mtu (Some mem) = Some (enc, acts) /\
    (let stream := concat (encode <$> pkts) in
     drive (S (2 * length stream)) sizes enc acts stream [] = Ok (enc', pkts)) /\
    content enc' = [] /\ wf enc'.
Proof.
  intros Hmtu Hl Hb Hp. unfold PacketProtoDecoder_Init. eexists _, _.
  set (enc := mkDec _ mem _ 0 0).
  assert (wf enc) as Hw.
  { unfold PACKETPROTO_MAXPAYLOAD, PACKETPROTO_ENCLEN, sizeof_packetproto_header, UINT16_MAX in *.
    split; cbn; (done || unfold UINT16_MAX, PACKETPROTO_MAXPAYLOAD, PACKETPROTO_ENCLEN, sizeof_packetproto_header; lia). }
  assert (bytes (concat (encode <$> pkts))) as Hs.
  { apply Forall_concat, Forall_fmap. eapply Forall_impl; [exact Hp|]. intros p [Hpb _]. cbn.
    unfold encode. apply Forall_app. split; [apply le_bytes_bytes|done]. }
  destruct (drive_decodes (S (2 * length (concat (encode <$> pkts)))) sizes enc
              (concat (encode <$> pkts)) pkts [] Hw Hs Hp) as (enc' & E & ? & ? & _).
  { done. }
  { rewrite length_content by done. cbn [buf_used enc]. lia. }
  exists enc'. split_and!; [done| |done|done]. cbv zeta. cbn [app] in E. rewrite <- E. clear E.
  assert (process_data enc = Ok (enc, [Input_Recv 0 (buf_size enc)])) as ->.
  { unfold process_data. cbn [buf_used enc]. rewrite (proj2 (Z.ltb_lt 0 _)) by done.
    unfold receive_more. cbn [buf_start buf_used enc buf_size].
    destruct (0 + 0 =? _) eqn:E0; zify_bool.
    { unfold PACKETPROTO_ENCLEN, PACKETPROTO_MAXPAYLOAD, sizeof_packetproto_header, UINT16_MAX in E0. lia. }
    cbn [mbind outcome_bind buf_start buf_used enc buf_size]. by rewrite Z.sub_0_r. }
  done.
Qed.

(** Three packets, one of them empty, in pieces of one or two bytes. *)
Lemma PacketProtoDecoder_roundtrip_witness :
  exists enc acts enc',
    PacketProtoDecoder_Init 4 (Some (replicate 6 0)) = Some (enc, acts) /\
    drive 27 (fun n => Z.of_nat n mod 2 + 1) enc acts [3; 0; 7; 8; 9; 0; 0; 4; 0; 1; 2; 3; 4] []
      = Ok (enc', [[7; 8; 9]; []; [1; 2; 3; 4]]) /\ content enc' = [].
Proof.
  destruct (PacketProtoDecoder_roundtrip 4 (replicate 6 0) (fun n => Z.of_nat n mod 2 + 1)
              [[7; 8; 9]; []; [1; 2; 3; 4]]) as (enc & acts & enc' & H1 & H2 & H3 & _).
  - lia.
  - reflexivity.
  - apply Forall_replicate. unfold is_byte. lia.
  - assert (forall p, forallb (fun b => (0 <=? b) && (b <? 256)) p && (Zlen p <=? 4) = true ->
      fits (Z.min 4 PACKETPROTO_MAXPAYLOAD) p) as H.
    { intros p [Hp ?%Z.leb_le]%andb_true_iff. split; [|exact H]. apply Forall_forall. intros b Hb.
      pose proof (proj1 (forallb_forall _ _) Hp b) as Hin. apply list_elem_of_In in Hb.
      specialize (Hin Hb). cbv beta in Hin. apply andb_true_iff in Hin as [H1%Z.leb_le H2%Z.ltb_lt]. unfold is_byte. exact (conj H1 H2). }
    repeat (apply Forall_cons; split; [apply H; reflexivity|]). apply Forall_nil_2.
  - exists enc, acts, enc'. exact (conj H1 (conj H2 H3)).
Defined.
End PacketProtoDecoder.
