(* ===== verification/PacketFlow.v ===== *)
(** * Buffers and connectors of packet flows (badvpn/flow)

    [PacketBuffer] (PacketBuffer.c) keeps packets of a [PacketRecvInterface] in
    a [ChunkBuffer2] until a [PacketPassInterface] takes them;
    [SinglePacketBuffer] (SinglePacketBuffer.c) does so with one packet;
    [BufferWriter] (BufferWriter.c) offers the next packet's memory to a writer;
    [PacketPassConnector] (PacketPassConnector.c) joins an input to an output
    that can be exchanged.

    A handler returns its new state and the interface operations it starts, in
    order; the theorems run the handlers against every environment that keeps
    to the contracts of FlowInterfaces.v. *)
From Stdlib Require Import ZArith Lia.
From stdpp Require Import base tactics numbers option gmap list.
From S2P Require Import Prelude ChunkBuffer.

Module PacketBuffer.

Record PacketBuffer := mkPB { input_mtu : Z; buf : ChunkBuffer2 }.

Inductive action :=
| Input_Recv (dest : option Z)           (* PacketRecvInterface_Receiver_Recv(buf->input, dest) *)
| Output_Send (dest : option Z) (len : Z). (* PacketPassInterface_Sender_Send(buf->output, dest, len) *)

Definition input_handler_done (pb : PacketBuffer) (in_len : Z) : outcome (PacketBuffer * list action) :=
  ASSERT (0 <=? in_len);;
  ASSERT (in_len <=? input_mtu pb);;
  let was_empty := output_avail (buf pb) <? 0 in
  ChunkBuffer2_SubmitPacket (buf pb) in_len ≫= fun b =>
  Ok (mkPB (input_mtu pb) b,
      (if input_mtu pb <=? input_avail b then [Input_Recv (input_dest b)] else []) ++
      (if was_empty then [Output_Send (output_dest b) (output_avail b)] else [])).

Definition output_handler_done (pb : PacketBuffer) : outcome (PacketBuffer * list action) :=
  let was_full := input_avail (buf pb) <? input_mtu pb in
  ChunkBuffer2_ConsumePacket (buf pb) ≫= fun b =>
  Ok (mkPB (input_mtu pb) b,
      (if was_full && (input_mtu pb <=? input_avail b) then [Input_Recv (input_dest b)] else []) ++
      (if 0 <=? output_avail b then [Output_Send (output_dest b) (output_avail b)] else [])).

(** [mem] is the array that [BAllocArray] returns for the number of blocks,
    [None] if it fails; the result [None] is the return value 0. *)
Definition PacketBuffer_Init (in_mtu out_mtu num_packets : Z) (mem : Z -> option (list Z))
    : outcome (option (PacketBuffer * list action)) :=
  ASSERT (in_mtu <=? out_mtu);;
  ASSERT (0 <? num_packets);;
  let num_blocks := ChunkBuffer2_calc_blocks in_mtu num_packets in
  if num_blocks <? 0 then Ok None else
  match mem num_blocks with
  | None => Ok None
  | Some m =>
      ChunkBuffer2_Init m num_blocks in_mtu ≫= fun b =>
      Ok (Some (mkPB in_mtu b, [Input_Recv (input_dest b)]))
  end.

(** ** The buffer in its environment *)

(** The state with the operations in progress at the two interfaces. *)
Record config := mkConfig {
  pb : PacketBuffer; receiving : option Z; sending : option (Z * Z)
}.

(** Starts the operations of a handler; starting one that is in progress, or
    with a null pointer, violates the contract of the interface. *)
Fixpoint start (c : config) (acts : list action) : outcome config :=
  match acts with
  | [] => Ok c
  | Input_Recv d :: acts =>
      ASSERT (bool_decide (receiving c = None));;
      of_option d ≫= fun d => start (mkConfig (pb c) (Some d) (sending c)) acts
  | Output_Send d n :: acts =>
      ASSERT (bool_decide (sending c = None));;
      of_option d ≫= fun d => start (mkConfig (pb c) (receiving c) (Some (d, n))) acts
  end.

(** The input provides a packet, or the output has taken one. *)
Inductive event := Provide (p : list Z) | Taken.

(** The environment acts on the operations in progress: a provided packet is
    written at the address given to the input; the packet the output has taken
    is the one in the memory it was given. The result has the packet taken. *)
Definition react (c : config) (e : event) : option (outcome (config * list (list Z))) :=
  match e with
  | Provide p =>
      match receiving c with
      | Some d =>
          if input_mtu (pb c) <? Zlen p then None else Some (
          mem_write (buffer (buf (pb c))) d p ≫= fun m =>
          let b := buf (pb c) in
          let b := set_ring m (wrap b) (ChunkBuffer.start b) (used b) b in
          input_handler_done (mkPB (input_mtu (pb c)) b) (Zlen p)
            ≫= fun (r : PacketBuffer * list action) =>
          start (mkConfig r.1 None (sending c)) r.2 ≫= fun c => Ok (c, []))
      | None => None
      end
  | Taken =>
      match sending c with
      | Some (d, n) => Some (
          mem_read (buffer (buf (pb c))) d n ≫= fun p =>
          output_handler_done (pb c) ≫= fun (r : PacketBuffer * list action) =>
          start (mkConfig r.1 (receiving c) None) r.2 ≫= fun c => Ok (c, [p]))
      | None => None
      end
  end.

(** A run over events; [None] if the environment does something it cannot. *)
Fixpoint run (c : config) (es : list event) : option (outcome (config * list (list Z))) :=
  match es with
  | [] => Some (Ok (c, []))
  | e :: es =>
      match react c e with
      | None => None
      | Some Fault => Some Fault
      | Some (Ok (c, o)) =>
          match run c es with
          | Some (Ok (c, os)) => Some (Ok (c, o ++ os))
          | r => r
          end
      end
  end.

Definition provided (es : list event) : list (list Z) :=
  concat ((fun e => match e with Provide p => [p] | Taken => [] end) <$> es).

(** ** Invariant *)
Record inv (num : Z) (c : config) (q : list (list Z)) : Prop := {
  inv_num : 0 < num;
  inv_mtu : 0 <= input_mtu (pb c) <= 4 * mtu (buf (pb c));
  inv_size : (mtu (buf (pb c)) + 1) * (num + 1) <= size (buf (pb c));
  inv_rep : rep (buf (pb c)) q;
  inv_fit : Forall (fun p => Zlen p <= 4 * mtu (buf (pb c))) q;
  inv_recv : receiving c =
    if input_mtu (pb c) <=? input_avail (buf (pb c)) then input_dest (buf (pb c)) else None;
  inv_send : sending c =
    match q with [] => None | p :: _ => Some (4 * (ChunkBuffer.start (buf (pb c)) + 1), Zlen p) end
}.

(** The input side of a buffer that represents a queue. *)
Lemma rep_avail b q : rep b q -> input_avail b = -1 /\ input_dest b = None \/
  0 <= input_avail b /\ exists d, input_dest b = Some d.
Proof.
  intros [H Hi _]. unfold input_spec in Hi. case_match eqn:E; simplify_eq; zify_bool.
  - right. split; [lia|eauto].
  - by left.
Qed.

(** The fields of the ring, which updating the input or output keeps. *)
Definition core (b : ChunkBuffer2) : Z * Z * Z := (wrap b, ChunkBuffer.start b, used b).

Lemma update_input_core b : core (_ChunkBuffer2_update_input b) = core b.
Proof. unfold _ChunkBuffer2_update_input. by repeat case_match. Qed.

Lemma update_output_core b b' : _ChunkBuffer2_update_output b = Ok b' -> core b' = core b.
Proof. unfold _ChunkBuffer2_update_output. intros H. case_match; inv_ok; done. Qed.

(** Submitting does not move the first packet. *)
Lemma submit_start b len b' :
  ChunkBuffer2_SubmitPacket b len = Ok b' -> ChunkBuffer.start b' = ChunkBuffer.start b.
Proof.
  unfold ChunkBuffer2_SubmitPacket. intros H. inv_ok.
  enough (exists w u, core b' = (w, ChunkBuffer.start b, u)) as (w & u & [=]) by done.
  case_match.
  - match goal with H : _ChunkBuffer2_update_output _ = Ok _ |- _ => apply update_output_core in H as -> end.
    rewrite update_input_core. unfold core. cbn. eauto.
  - inv_ok. rewrite update_input_core. unfold core. cbn. eauto.
Qed.

Lemma consume_core b p q b' :
  ring b (p :: q) -> ChunkBuffer2_ConsumePacket b = Ok b' ->
  core b' = if ChunkBuffer.start b + pkt_blocks p =? wrap b
            then (size b, 0, used b - pkt_blocks p)
            else (wrap b, ChunkBuffer.start b + pkt_blocks p, used b - pkt_blocks p).
Proof.
  intros H E. pose proof (ring_head _ _ _ H) as (Hp & Hl & _ & Hw & Hu).
  unfold ChunkBuffer2_ConsumePacket in E. inv_ok. rewrite Hl in *. simplify_eq.
  rewrite blocks_of_pkt in * by done. replace (1 + (pkt_blocks p - 1)) with (pkt_blocks p) in * by lia.
  match goal with H : _ChunkBuffer2_update_output _ = Ok _ |- _ => apply update_output_core in H as -> end.
  repeat case_match; by rewrite ?update_input_core.
Qed.

(** Consuming does not move the free space, and does not make it smaller. *)
Lemma consume_input b p q b' d :
  rep b (p :: q) -> ChunkBuffer2_ConsumePacket b = Ok b' -> rep b' q -> size b' = size b ->
  mtu b' = mtu b -> input_dest b = Some d ->
  input_dest b' = Some d /\ input_avail b <= input_avail b'.
Proof.
  intros Hr E Hr' Hsz Hm Hd.
  pose proof (rep_ring _ _ Hr) as H. pose proof (ring_head _ _ _ H) as (Hp & _ & _ & Hw & Hu).
  apply (consume_core _ _ _ _ H) in E. pose proof (rep_ring _ _ Hr') as H'.
  pose proof (ring_end _ _ H) as (? & ? & He1 & He2). pose proof (ring_end _ _ H') as (? & ? & He1' & He2').
  pose proof (ring_free _ _ H) as (Hf1 & Hf2 & ?). pose proof (ring_free _ _ H') as (Hf1' & Hf2' & ?).
  destruct Hr as [_ Hi _], Hr' as [_ Hi' _]. rewrite Hd in Hi. pose proof (pkt_blocks_pos p).
  assert (_ChunkBuffer2_end b' = _ChunkBuffer2_end b /\ free_blocks b <= free_blocks b') as [Ee Ef].
  { destruct H, H'. unfold core in E.
    destruct (Z.lt_ge_cases (used b) (wrap b - ChunkBuffer.start b));
    destruct (Z.lt_ge_cases (used b') (wrap b' - ChunkBuffer.start b'));
    case_match; zify_bool; injection E as ? ? ?; lia. }
  clear E. unfold input_spec in Hi. case_match eqn:E1; [|done]. zify_bool.
  unfold input_spec in Hi'. rewrite Ee, Hsz, Hm in Hi'.
  rewrite (proj2 (Z.leb_le _ _)), (proj2 (Z.ltb_lt _ _)) in Hi' by lia. cbn [andb] in Hi'.
  injection Hi' as -> ->. injection Hi as -> ->. split; [done|lia].
Qed.

Lemma provide_inv num c q p :
  inv num c q -> Zlen p <= input_mtu (pb c) -> receiving c <> None ->
  exists c', react c (Provide p) = Some (Ok (c', [])) /\ inv num c' (q ++ [p]) /\
    input_mtu (pb c') = input_mtu (pb c).
Proof.
  intros [Hn Hm Hsz Hr Hf Hrecv Hsend] Hp Hne. unfold react.
  destruct (input_mtu (pb c) <=? input_avail (buf (pb c))) eqn:Ea; [zify_bool|done].
  destruct (receiving c) as [d|]; [|done]. symmetry in Hrecv.
  rewrite (proj2 (Z.ltb_ge _ _)) by lia. set (b := buf (pb c)) in *.
  destruct (write_input_rep b q p Hr ltac:(eauto) ltac:(lia)) as (b1 & Ew & Hr1 & Hsl & Eb).
  unfold write_input in Ew. rewrite Hrecv in Ew. cbn [of_option mbind outcome_bind] in Ew.
  destruct (mem_write (buffer b) d p) as [m|] eqn:Em; [|done]. cbn [mbind outcome_bind] in Ew |- *.
  injection Ew as <-. set (b1 := set_ring m _ _ _ b) in *.
  destruct (submit_rep b1 q p Hr1) as (b2 & Es & Hr2 & Hs2 & Hm2); [cbn; eauto|cbn; lia|done|].
  unfold input_handler_done. cbn [input_mtu buf]. rewrite !bind_ASSERT_true by lia.
  rewrite Es. cbn [mbind outcome_bind fst snd].
  apply submit_start in Es. change (ChunkBuffer.start b1) with (ChunkBuffer.start b) in Es.
  change (mtu b1) with (mtu b) in Hm2. change (size b1) with (size b) in Hs2.
  assert (Forall (fun p => Zlen p <= 4 * mtu b) (q ++ [p])) as Hf2.
  { apply Forall_app. split; [done|]. apply Forall_singleton. lia. }
  pose proof (rep_output _ _ Hr) as Ho. pose proof (rep_output _ _ Hr2) as Ho2.
  assert ((output_avail b1 <? 0) = match q with [] => true | _ => false end) as ->.
  { change (output_avail b1) with (output_avail b). destruct q; cbn in Ho; injection Ho as _ ->; [done|apply Z.ltb_ge; lia]. }
  pose proof (rep_avail _ _ Hr2) as Hav.
  destruct (input_mtu (pb c) <=? input_avail b2) eqn:Ea2; cbn [app start receiving bool_decide].
  - zify_bool. destruct Hav as [[? _]|(_ & d2 & Hd2)]; [lia|]. rewrite Hd2.
    cbn [start receiving mbind outcome_bind of_option ASSERT]. rewrite bool_decide_eq_true_2 by done.
    cbn [ASSERT mbind outcome_bind of_option].
    destruct q as [|p0 q]; cbn [app] in *; cbn [start]; injection Ho2 as Hod Hoa; rewrite ?Hod; cbn [of_option mbind outcome_bind sending];
    rewrite ?Hsend; cbn; eexists; (split; [done|]); (split; [|done]);
    split; cbn; rewrite ?Hm2, ?Hs2, ?Hoa; try done; try (by rewrite (proj2 (Z.leb_le _ _)) by lia); try (by rewrite Es).
  - zify_bool. 
    destruct q as [|p0 q]; cbn [app] in *; cbn [start]; injection Ho2 as Hod Hoa; rewrite ?Hod; cbn [of_option mbind outcome_bind sending];
    rewrite ?Hsend; cbn; eexists; (split; [done|]); (split; [|done]);
    split; cbn; rewrite ?Hm2, ?Hs2, ?Hoa; try done; try (by rewrite (proj2 (Z.leb_gt _ _)) by lia); try (by rewrite Es).
Qed.

Lemma taken_inv num c p q :
  inv num c (p :: q) ->
  exists c', react c Taken = Some (Ok (c', [p])) /\ inv num c' q /\
    input_mtu (pb c') = input_mtu (pb c).
Proof.
  intros [Hn Hm Hsz Hr Hf Hrecv Hsend]. unfold react. rewrite Hsend.
  destruct (consume_rep _ _ _ Hr) as (Hro & b2 & Ec & Hr2 & Hs2 & Hm2).
  pose proof (rep_output _ _ Hr) as Ho. cbn in Ho. injection Ho as Hod Hoa.
  unfold read_output in Hro. rewrite Hod, Hoa in Hro. cbn [of_option mbind outcome_bind] in Hro.
  rewrite Hro. cbn [mbind outcome_bind]. unfold output_handler_done. rewrite Ec.
  cbn [mbind outcome_bind fst snd]. apply Forall_cons in Hf as [_ Hf].
  pose proof (rep_output _ _ Hr2) as Ho2. pose proof (rep_avail _ _ Hr2) as Hav.
  assert ((0 <=? output_avail b2) = match q with [] => false | _ => true end) as ->.
  { destruct q; cbn in Ho2; injection Ho2 as _ ->; [done|apply Z.leb_le; lia]. }
  assert (receiving c = None /\ (input_avail (buf (pb c)) <? input_mtu (pb c)) = true \/
          (input_avail (buf (pb c)) <? input_mtu (pb c)) = false /\
          (input_mtu (pb c) <=? input_avail b2) = true /\ receiving c = input_dest b2) as Hcase.
  { rewrite Hrecv. destruct (input_mtu (pb c) <=? input_avail (buf (pb c))) eqn:Ea; zify_bool; [right|left; split; [done|lia]].
    destruct (rep_avail _ _ Hr) as [[? _]|(_ & d & Hd)]; [lia|].
    destruct (consume_input _ _ _ _ _ Hr Ec Hr2 Hs2 Hm2 Hd) as [-> ?]. split_and!; (done || lia). }
  destruct Hcase as [[Hrn ->]|(-> & Ea2 & Hre)]; cbn [andb].
  - destruct (input_mtu (pb c) <=? input_avail b2) eqn:Ea2; cbn [app start receiving].
    + zify_bool. destruct Hav as [[? _]|(_ & d2 & Hd2)]; [lia|]. rewrite Hd2, Hrn.
      rewrite bool_decide_eq_true_2 by done. cbn [ASSERT mbind outcome_bind of_option].
      destruct q as [|p0 q]; cbn in Ho2; cbn [start]; injection Ho2 as Hod2 Hoa2; rewrite ?Hod2;
      cbn; eexists; (split; [done|]); (split; [|done]);
      split; cbn; rewrite ?Hm2, ?Hs2, ?Hoa2; try done; by rewrite (proj2 (Z.leb_le _ _)) by lia.
    + destruct q as [|p0 q]; cbn in Ho2; cbn [start]; injection Ho2 as Hod2 Hoa2; rewrite ?Hod2;
      cbn; eexists; (split; [done|]); (split; [|done]);
      split; cbn; rewrite ?Hm2, ?Hs2, ?Hoa2; try done; by rewrite Ea2.
  - destruct q as [|p0 q]; cbn in Ho2; cbn [start app]; injection Ho2 as Hod2 Hoa2; rewrite ?Hod2;
    cbn; eexists; (split; [done|]); (split; [|done]);
    split; cbn; rewrite ?Hm2, ?Hs2, ?Hoa2; try done; by rewrite Ea2.
Qed.

Lemma buffer_run_inv num c q es r :
  inv num c q -> run c es = Some r ->
  exists c' outs q', r = Ok (c', outs) /\ inv num c' q' /\ q ++ provided es = outs ++ q'.
Proof.
  revert c q r. induction es as [|e es IH]; intros c q r Hi Hr; cbn in Hr.
  { injection Hr as <-. exists c, [], q. split_and!; [done|done|apply app_nil_r]. }
  destruct (react c e) as [m|] eqn:Er; [|done].
  assert (exists c1 o q1, m = Ok (c1, o) /\ inv num c1 q1 /\
    q ++ provided [e] = o ++ q1) as (c1 & o & q1 & -> & Hi1 & Hq1).
  { destruct e as [p|].
    - assert (Zlen p <= input_mtu (pb c) /\ receiving c <> None) as [Hp Hne].
      { cbn in Er. destruct (receiving c); [|done]. destruct (_ <? _) eqn:E; [done|]. zify_bool. done. }
      destruct (provide_inv _ _ _ _ Hi Hp Hne) as (c1 & E & ? & _). rewrite E in Er. simplify_eq.
      by exists c1, [], (q ++ [p]).
    - destruct q as [|p q].
      { cbn in Er. by rewrite (inv_send _ _ _ Hi) in Er. }
      destruct (taken_inv _ _ _ _ Hi) as (c1 & E & ? & _). rewrite E in Er. simplify_eq.
      exists c1, [p], q. split_and!; [done|done|]. cbn. by rewrite app_nil_r. }
  destruct (run c1 es) as [r1|] eqn:Er1; [|done].
  destruct (IH c1 q1 r1 Hi1 Er1) as (c' & outs & q' & -> & ? & Hq). injection Hr as <-.
  exists c', (o ++ outs), q'. split_and!; [done|done|]. rewrite <- app_assoc, <- Hq, app_assoc, <- Hq1.
  rewrite <- app_assoc. f_equal. unfold provided. by rewrite fmap_cons; cbn; rewrite app_nil_r.
Qed.

(** Initialisation gives the invariant, for an allocator that returns an array
    of the size asked for. *)
Lemma init_inv in_mtu out_mtu num alloc m :
  0 <= in_mtu <= out_mtu -> in_mtu <= INT_MAX -> 0 < num ->
  0 < ChunkBuffer2_calc_blocks in_mtu num -> 4 * ChunkBuffer2_calc_blocks in_mtu num <= INT_MAX ->
  alloc (ChunkBuffer2_calc_blocks in_mtu num) = Some m ->
  Zlen m = 4 * ChunkBuffer2_calc_blocks in_mtu num ->
  exists pb d, PacketBuffer_Init in_mtu out_mtu num alloc = Ok (Some (pb, [Input_Recv (Some d)])) /\
    inv num (mkConfig pb (Some d) None) [] /\ input_mtu pb = in_mtu.
Proof.
  intros Hl Hmax Hn Hb Hb4 Ha Hm. unfold PacketBuffer_Init. rewrite !bind_ASSERT_true by lia.
  rewrite (proj2 (Z.ltb_ge _ _)) by lia. rewrite Ha.
  pose proof (calc_blocks_spec _ _ (conj (proj1 Hl) Hmax) Hn Hb) as Ec.
  assert (blocks_of in_mtu = (in_mtu + 3) / 4) as Eb by (apply blocks_of_spec; lia).
  assert (0 <= (in_mtu + 3) / 4 /\ in_mtu <= 4 * ((in_mtu + 3) / 4)) by (Z.div_mod_to_equations; lia).
  destruct (init_rep m _ in_mtu Hm Hb4) as (b & -> & Hr & Es & Em); [lia|nia|].
  cbn [mbind outcome_bind].
  destruct (rep_accepts b [] num Hr) as [[d Hd] Hav]; [rewrite Em, Es; nia|constructor|cbn; lia|].
  exists (mkPB in_mtu b), d. rewrite Hd. split; [done|]. split; [|done].
  split; cbn; rewrite ?Em, ?Es; try done; try lia.
  rewrite (proj2 (Z.leb_le _ _)); [done|]. rewrite Em in Hav. lia.
Qed.

(** C32: A packet buffer for [num] packets passes on every packet, in order,
    without loss or duplication, and does not get stuck. Whatever packets of at
    most MTU size its input provides and whenever its output finishes, no
    assertion fails, no access leaves the buffer, no operation is started
    while one is in progress; the packets taken by the output followed by the
    packets still stored are the packets provided. While packets are stored the
    first of them is being sent, and while fewer than [num] are stored a
    receive is in progress. *)
Theorem PacketBuffer_fifo in_mtu out_mtu num alloc m es :
  0 <= in_mtu <= out_mtu -> in_mtu <= INT_MAX -> 0 < num ->
  0 < ChunkBuffer2_calc_blocks in_mtu num -> 4 * ChunkBuffer2_calc_blocks in_mtu num <= INT_MAX ->
  alloc (ChunkBuffer2_calc_blocks in_mtu num) = Some m ->
  Zlen m = 4 * ChunkBuffer2_calc_blocks in_mtu num ->
  exists pb d, PacketBuffer_Init in_mtu out_mtu num alloc = Ok (Some (pb, [Input_Recv (Some d)])) /\
    (forall r, run (mkConfig pb (Some d) None) es = Some r ->
     exists c outs q, r = Ok (c, outs) /\ provided es = outs ++ q /\
       (q <> [] -> sending c <> None) /\ (Zlen q < num -> receiving c <> None)).
Proof.
  intros Hl Hmax Hn Hb Hb4 Ha Hm.
  destruct (init_inv in_mtu out_mtu num alloc m) as (p & d & E & Hi & _); [done..|].
  exists p, d. split; [done|]. intros r Hr.
  destruct (buffer_run_inv _ _ _ _ _ Hi Hr) as (c & outs & q & -> & [? Hm2 Hs2 Hr2 Hf2 Hrecv Hsend] & Hq).
  exists c, outs, q. split_and!; [done|done| |].
  - rewrite Hsend. by destruct q.
  - intros Hlt. destruct (rep_accepts _ _ num Hr2 Hs2 Hf2 Hlt) as [[d2 Hd2] Hav].
    rewrite Hrecv, (proj2 (Z.leb_le _ _)), Hd2 by lia. done.
Qed.

Lemma PacketBuffer_fifo_witness :
  exists pb d, PacketBuffer_Init 5 8 2 (fun n => Some (replicate (Z.to_nat (4 * n)) 0))
      = Ok (Some (pb, [Input_Recv (Some d)])) /\
    exists c outs q, run (mkConfig pb (Some d) None) [Provide [1; 2; 3]; Provide []; Taken; Provide [7; 8]]
      = Some (Ok (c, outs)) /\ [[1; 2; 3]; []; [7; 8]] = outs ++ q.
Proof.
  destruct (PacketBuffer_fifo 5 8 2 (fun n => Some (replicate (Z.to_nat (4 * n)) 0)) (replicate 36 0)
    [Provide [1; 2; 3]; Provide []; Taken; Provide [7; 8]]) as (pb & d & E & H).
  1-7: vm_compute; try done; split; done.
  exists pb, d. split; [exact E|]. vm_compute in E. injection E as <- <-.
  destruct (H _ ltac:(vm_compute; reflexivity)) as (c & outs & q & E & Hq & _).
  exists c, outs, q. split; [|exact Hq]. rewrite <- E. vm_compute. reflexivity.
Defined.
End PacketBuffer.

Module SinglePacketBuffer.

Inductive action :=
| Input_Recv               (* PacketRecvInterface_Receiver_Recv(o->input, o->buf) *)
| Output_Send (len : Z).   (* PacketPassInterface_Sender_Send(o->output, o->buf, len) *)

(** The buffer has no state but its memory, which the handlers do not access. *)
Definition input_handler_done (in_len : Z) : list action := [Output_Send in_len].
Definition output_handler_done : list action := [Input_Recv].

(** [alloc] tells whether [BAlloc] succeeds. *)
Definition SinglePacketBuffer_Init (in_mtu out_mtu : Z) (alloc : bool) : outcome (option (list action)) :=
  ASSERT (in_mtu <=? out_mtu);;
  if alloc then Ok (Some [Input_Recv]) else Ok None.

Inductive phase := Receiving | Sending (len : Z).

(** Received packets are sent one after the other: in every phase exactly one
    operation is in progress, and the length sent is the length received. *)
Definition next (p : phase) (len : Z) : phase :=
  match p with
  | Receiving => match input_handler_done len with [Output_Send n] => Sending n | _ => Receiving end
  | Sending _ => match output_handler_done with [Input_Recv] => Receiving | _ => p end
  end.

Lemma alternates len1 len2 : next Receiving len1 = Sending len1 /\ next (Sending len1) len2 = Receiving.
Proof. done. Qed.
End SinglePacketBuffer.

Module BufferWriter.

(** [d_mtu] and [d_writing] exist in debug builds; they state the contract of
    the callers. *)
Record BufferWriter := mkBW { out_have : bool; out : Z; d_mtu : Z; d_writing : bool }.

Inductive action := Output_Done (len : Z). (* PacketRecvInterface_Done(&o->recv_interface, len) *)

Definition output_handler_recv (o : BufferWriter) (data : Z) : outcome BufferWriter :=
  ASSERT (negb (out_have o));;
  Ok (mkBW true data (d_mtu o) (d_writing o)).

Definition BufferWriter_Init (mtu : Z) : outcome BufferWriter :=
  ASSERT (0 <=? mtu);; Ok (mkBW false 0 mtu false).

(** [None] is the return value 0, [Some buf] the return value 1. *)
Definition BufferWriter_StartPacket (o : BufferWriter) : outcome (BufferWriter * option Z) :=
  ASSERT (negb (d_writing o));;
  if out_have o then Ok (mkBW (out_have o) (out o) (d_mtu o) true, Some (out o))
  else Ok (o, None).

Definition BufferWriter_EndPacket (o : BufferWriter) (len : Z) : outcome (BufferWriter * list action) :=
  ASSERT (0 <=? len);;
  ASSERT (len <=? d_mtu o);;
  ASSERT (out_have o);;
  ASSERT (d_writing o);;
  Ok (mkBW false (out o) (d_mtu o) false, [Output_Done len]).

(** A packet is written where the consumer asked for it, completes its request
    once, and leaves the writer without memory until the next request. *)
Lemma write_packet o data len :
  out_have o = false -> d_writing o = false -> 0 <= len <= d_mtu o ->
  exists o1 o2 o3,
    output_handler_recv o data = Ok o1 /\
    BufferWriter_StartPacket o1 = Ok (o2, Some data) /\
    BufferWriter_EndPacket o2 len = Ok (o3, [Output_Done len]) /\
    BufferWriter_StartPacket o3 = Ok (o3, None) /\ out_have o3 = false.
Proof.
  intros H1 H2 Hl. unfold output_handler_recv. rewrite H1. cbn. do 3 eexists. split; [done|].
  unfold BufferWriter_StartPacket. cbn. rewrite H2. cbn. split; [done|].
  unfold BufferWriter_EndPacket. cbn. by rewrite !bind_ASSERT_true by lia.
Qed.
End BufferWriter.

Module PacketPassConnector.

(** [output] is whether an output is connected; [in_len = -1]: no packet. *)
Record PacketPassConnector := mkPPC { input_mtu : Z; in_ : Z; in_len : Z; output : bool }.

Inductive action :=
| Output_Send (data len : Z)  (* PacketPassInterface_Sender_Send(o->output, data, len) *)
| Input_Done.                 (* PacketPassInterface_Done(&o->input) *)

Definition input_handler_send (o : PacketPassConnector) (data data_len : Z)
    : outcome (PacketPassConnector * list action) :=
  ASSERT (0 <=? data_len);;
  ASSERT (data_len <=? input_mtu o);;
  ASSERT (in_len o =? -1);;
  let o := mkPPC (input_mtu o) data data_len (output o) in
  Ok (o, if output o then [Output_Send (in_ o) (in_len o)] else []).

Definition output_handler_done (o : PacketPassConnector) : outcome (PacketPassConnector * list action) :=
  ASSERT (0 <=? in_len o);;
  ASSERT (output o);;
  Ok (mkPPC (input_mtu o) (in_ o) (-1) (output o), [Input_Done]).

Definition PacketPassConnector_Init (mtu : Z) : outcome PacketPassConnector :=
  ASSERT (0 <=? mtu);; Ok (mkPPC mtu 0 (-1) false).

Definition PacketPassConnector_ConnectOutput (o : PacketPassConnector) (output_mtu : Z)
    : outcome (PacketPassConnector * list action) :=
  ASSERT (negb (output o));;
  ASSERT (input_mtu o <=? output_mtu);;
  let o := mkPPC (input_mtu o) (in_ o) (in_len o) true in
  Ok (o, if 0 <=? in_len o then [Output_Send (in_ o) (in_len o)] else []).

Definition PacketPassConnector_DisconnectOutput (o : PacketPassConnector) : outcome PacketPassConnector :=
  ASSERT (output o);;
  Ok (mkPPC (input_mtu o) (in_ o) (in_len o) false).

(** ** The connector in its environment *)

(** [busy]: the input waits for a packet to be done; [out]: the packet the
    connected output is sending. *)
Record config := mkConfig { conn : PacketPassConnector; busy : bool; out : option (Z * Z) }.

Inductive event := Send (data len : Z) | Finished | Connect (mtu : Z) | Disconnect.

Fixpoint perform (c : config) (acts : list action) : outcome config :=
  match acts with
  | [] => Ok c
  | Output_Send d n :: acts =>
      ASSERT (bool_decide (out c = None));; ASSERT (output (conn c));;
      perform (mkConfig (conn c) (busy c) (Some (d, n))) acts
  | Input_Done :: acts =>
      ASSERT (busy c);; perform (mkConfig (conn c) false (out c)) acts
  end.

(** The events the environment may cause, with the packet an output finishes:
    the input sends when it is not waiting, the connected output finishes what
    it is sending, an output with a sufficient MTU is connected when there is
    none. Disconnecting discards the output with the operation in progress. *)
Definition react (c : config) (e : event) : option (outcome (config * list (Z * Z))) :=
  let o := conn c in
  match e with
  | Send d n =>
      if busy c || (n <? 0) || (input_mtu o <? n) then None else
      Some (input_handler_send o d n ≫= fun (r : PacketPassConnector * list action) =>
            perform (mkConfig r.1 true (out c)) r.2 ≫= fun c => Ok (c, []))
  | Finished =>
      match out c with
      | Some p =>
          Some (output_handler_done o ≫= fun (r : PacketPassConnector * list action) =>
                perform (mkConfig r.1 (busy c) None) r.2 ≫= fun c => Ok (c, [p]))
      | None => None
      end
  | Connect m =>
      if output o || (m <? input_mtu o) then None else
      Some (PacketPassConnector_ConnectOutput o m ≫= fun (r : PacketPassConnector * list action) =>
            perform (mkConfig r.1 (busy c) (out c)) r.2 ≫= fun c => Ok (c, []))
  | Disconnect =>
      if output o then
        Some (PacketPassConnector_DisconnectOutput o ≫= fun o => Ok (mkConfig o (busy c) None, []))
      else None
  end.

Fixpoint run (c : config) (es : list event) : option (outcome (config * list (Z * Z))) :=
  match es with
  | [] => Some (Ok (c, []))
  | e :: es =>
      match react c e with
      | None => None
      | Some Fault => Some Fault
      | Some (Ok (c, o)) =>
          match run c es with
          | Some (Ok (c, os)) => Some (Ok (c, o ++ os))
          | r => r
          end
      end
  end.

Definition sent (es : list event) : list (Z * Z) :=
  concat ((fun e => match e with Send d n => [(d, n)] | _ => [] end) <$> es).

(** The packet the input waits for. *)
Definition waiting (o : PacketPassConnector) : list (Z * Z) :=
  if 0 <=? in_len o then [(in_ o, in_len o)] else [].

Definition inv (c : config) : Prop :=
  let o := conn c in
  (in_len o = -1 \/ 0 <= in_len o) /\
  busy c = (0 <=? in_len o) /\
  out c = if output o && (0 <=? in_len o) then Some (in_ o, in_len o) else None.

Lemma react_inv c e m :
  inv c -> react c e = Some m ->
  exists c' outs, m = Ok (c', outs) /\ inv c' /\
    waiting (conn c) ++ sent [e] = outs ++ waiting (conn c').
Proof.
  destruct c as [[mtu i n o] b ou]. intros (Hn & Hb & Ho) E. cbn in Hn, Hb, Ho. subst b ou.
  destruct e as [d k| |m'|]; cbn in E; unfold inv, waiting; cbn.
  - destruct (0 <=? n) eqn:En; cbn in E; [done|]. destruct (k <? 0) eqn:Ek; [done|].
    destruct (mtu <? k) eqn:Em; [done|]. zify_bool. injection E as <-.
    unfold input_handler_send. cbn. rewrite !bind_ASSERT_true by lia. rewrite andb_false_r.
    destruct o; cbn; eexists _, _; (split; [done|]); cbn;
      rewrite (proj2 (Z.leb_le 0 k)) by lia; split_and!; (done || lia).
  - destruct o; cbn in E; [|done]. destruct (0 <=? n) eqn:En; [|done]. injection E as <-.
    unfold output_handler_done. cbn. rewrite En. cbn. eexists _, _. split; [done|]. cbn. split_and!; auto.
  - destruct o; cbn in E; [done|]. destruct (m' <? mtu) eqn:Em; [done|]. zify_bool. injection E as <-.
    unfold PacketPassConnector_ConnectOutput. cbn. rewrite bind_ASSERT_true by lia. cbn.
    destruct (0 <=? n) eqn:En; cbn; eexists _, _; (split; [done|]); cbn; rewrite En; split_and!; try done;
      by rewrite app_nil_r.
  - destruct o; cbn in E; [|done]. injection E as <-. cbn. eexists _, _. split; [done|]. cbn.
    split_and!; try done. by rewrite app_nil_r.
Qed.

(** A connector loses and duplicates no packet while outputs come and go.
    In every run in which the input, the outputs and the owner keep to the
    contract, no assertion fails and no operation is started twice; the packets
    the outputs finished, followed by the packet the input still waits for, are
    the packets the input sent; and if an output is connected and the input
    waits, that packet is being sent. *)
Theorem PacketPassConnector_delivers mtu es :
  0 <= mtu ->
  exists o, PacketPassConnector_Init mtu = Ok o /\
    (forall r, run (mkConfig o false None) es = Some r ->
     exists c outs, r = Ok (c, outs) /\ sent es = outs ++ waiting (conn c) /\
       (output (conn c) = true -> busy c = true -> waiting (conn c) <> [] /\ out c = head (waiting (conn c)))).
Proof.
  intros Hm. unfold PacketPassConnector_Init. rewrite bind_ASSERT_true by lia. eexists. split; [done|].
  assert (forall c es r, inv c -> run c es = Some r -> exists c' outs, r = Ok (c', outs) /\ inv c' /\
    waiting (conn c) ++ sent es = outs ++ waiting (conn c')) as Hrun.
  { clear. intros c es. revert c. induction es as [|e es IH]; intros c r Hi Hr; cbn in Hr.
    { injection Hr as <-. exists c, []. split_and!; [done|done|apply app_nil_r]. }
    destruct (react c e) as [m|] eqn:Er; [|done].
    destruct (react_inv c e m Hi Er) as (c1 & o & -> & Hi1 & Hq1).
    destruct (run c1 es) as [r1|] eqn:Er1; [|done].
    destruct (IH c1 r1 Hi1 Er1) as (c' & outs & -> & ? & Hq). injection Hr as <-.
    exists c', (o ++ outs). split_and!; [done|done|]. rewrite <- app_assoc, <- Hq, app_assoc, <- Hq1.
    rewrite <- app_assoc. f_equal. unfold sent. by rewrite fmap_cons; cbn; rewrite app_nil_r. }
  intros r Hr. assert (inv (mkConfig (mkPPC mtu 0 (-1) false) false None)) as Hi by (split; [by left|by split]).
  destruct (Hrun _ _ _ Hi Hr) as (c & outs & -> & (Hn & Hb & Ho) & Hq).
  exists c, outs. split_and!; [done|done|]. intros Hc Hbusy. rewrite Hc, <- Hb, Hbusy in Ho. cbn in Ho.
  unfold waiting. by rewrite <- Hb, Hbusy.
Qed.

Lemma PacketPassConnector_delivers_witness :
  exists o, PacketPassConnector_Init 100 = Ok o /\
    exists c outs, run (mkConfig o false None)
      [Send 1 10; Connect 100; Disconnect; Connect 200; Finished; Send 2 20] = Some (Ok (c, outs)) /\
      [(1, 10); (2, 20)] = outs ++ waiting (conn c).
Proof.
  destruct (PacketPassConnector_delivers 100
    [Send 1 10; Connect 100; Disconnect; Connect 200; Finished; Send 2 20]) as (o & E & H); [lia|].
  exists o. split; [exact E|]. injection E as <-.
  destruct (H _ ltac:(vm_compute; reflexivity)) as (c & outs & E & Hq & _).
  exists c, outs. split; [|exact Hq]. rewrite <- E. vm_compute. reflexivity.
Defined.
End PacketPassConnector.
