(* ===== verification/FairQueue.v ===== *)
(** * Fair queue of packets (badvpn/flow/PacketPassFairQueue.c)

    Packets of several flows share one output. Every flow has a virtual time,
    advanced by the size of the packets it sends; the queued flow with the
    smallest time is sent next. Times are [uint64_t]: when one would overflow,
    an amount is subtracted from the times of all flows.

    The flows are kept in a heap; the tree of queued flows (the SAvl instance
    PacketPassFairQueue__Tree, ordered by [compare_flows]) is the list of its
    entries in order. *)
From Stdlib Require Import ZArith Lia Sorted.
From stdpp Require Import base tactics numbers option gmap list.
From S2P Require Import Prelude LinkedList Bavl.

Module PacketPassFairQueue.

Definition FAIRQUEUE_MAX_TIME : Z := UINT64_MAX.

Record Flow := mkFlow {
  handler_busy : bool; time : Z; is_queued : bool; data : Z; data_len : Z
}.

Record FairQueue := mkFQ {
  output_mtu : Z; use_cancel : bool; packet_weight : Z;
  sending_flow : option loc; sending_len : Z; previous_flow : option loc;
  queued_tree : list loc; flows_list : list loc; flows : gmap loc Flow;
  freeing : bool; schedule_job : bool
}.

Inductive action :=
| Output_Send (data len : Z)  (* PacketPassInterface_Sender_Send(m->output, data, len) *)
| Output_RequestCancel        (* PacketPassInterface_Sender_RequestCancel(m->output) *)
| Input_Done (f : loc)        (* PacketPassInterface_Done(&flow->input) *)
| Handler_busy (f : loc).     (* handler(flow->user) *)

(** ** Fields *)
Definition get (m : FairQueue) (f : loc) : outcome Flow := of_option (flows m !! f).

Definition set_time (t : Z) (x : Flow) : Flow :=
  mkFlow (handler_busy x) t (is_queued x) (data x) (data_len x).
Definition set_queued (q : bool) (x : Flow) : Flow :=
  mkFlow (handler_busy x) (time x) q (data x) (data_len x).

Definition upd_flows (fl : gmap loc Flow) (m : FairQueue) : FairQueue :=
  mkFQ (output_mtu m) (use_cancel m) (packet_weight m) (sending_flow m) (sending_len m)
    (previous_flow m) (queued_tree m) (flows_list m) fl (freeing m) (schedule_job m).
Definition upd_tree (t : list loc) (m : FairQueue) : FairQueue :=
  mkFQ (output_mtu m) (use_cancel m) (packet_weight m) (sending_flow m) (sending_len m)
    (previous_flow m) t (flows_list m) (flows m) (freeing m) (schedule_job m).
Definition upd_sending (s : option loc) (len : Z) (m : FairQueue) : FairQueue :=
  mkFQ (output_mtu m) (use_cancel m) (packet_weight m) s len
    (previous_flow m) (queued_tree m) (flows_list m) (flows m) (freeing m) (schedule_job m).
Definition upd_previous (p : option loc) (m : FairQueue) : FairQueue :=
  mkFQ (output_mtu m) (use_cancel m) (packet_weight m) (sending_flow m) (sending_len m)
    p (queued_tree m) (flows_list m) (flows m) (freeing m) (schedule_job m).
Definition upd_job (j : bool) (m : FairQueue) : FairQueue :=
  mkFQ (output_mtu m) (use_cancel m) (packet_weight m) (sending_flow m) (sending_len m)
    (previous_flow m) (queued_tree m) (flows_list m) (flows m) (freeing m) j.
Definition upd_list (l : list loc) (m : FairQueue) : FairQueue :=
  mkFQ (output_mtu m) (use_cancel m) (packet_weight m) (sending_flow m) (sending_len m)
    (previous_flow m) (queued_tree m) l (flows m) (freeing m) (schedule_job m).

(** ** The tree of queued flows *)


(** Pointers are compared by their address. *)
Definition compare_flows (fl : gmap loc Flow) (f1 f2 : loc) : outcome Z :=
  of_option (fl !! f1) ≫= fun x1 => of_option (fl !! f2) ≫= fun x2 =>
  let cmp := B_COMPARE (time x1) (time x2) in
  if negb (cmp =? 0) then Ok cmp else Ok (B_COMPARE (Zpos f1) (Zpos f2)).

Definition Tree_GetFirst (t : list loc) : option loc := head t.
Definition Tree_IsEmpty (t : list loc) : bool := match t with [] => true | _ => false end.

(** The tree with [f] at its place, and whether it was inserted (it is not if
    an equal entry exists). *)
Fixpoint Tree_Insert (fl : gmap loc Flow) (t : list loc) (f : loc) : outcome (list loc * bool) :=
  match t with
  | [] => Ok ([f], true)
  | g :: t' =>
      compare_flows fl f g ≫= fun c =>
      if c =? 0 then Ok (t, false)
      else if c <? 0 then Ok (f :: t, true)
      else Tree_Insert fl t' f ≫= fun (r : list loc * bool) => Ok (g :: r.1, r.2)
  end.

Definition Tree_Remove (t : list loc) (f : loc) : list loc := LinkedList1.remove_node f t.

(** ** PacketPassFairQueue.c *)
Definition get_current_time (m : FairQueue) : outcome Z :=
  match sending_flow m with
  | Some f => get m f ≫= fun x => Ok (time x)
  | None =>
      (match Tree_GetFirst (queued_tree m) with
       | Some g => get m g ≫= fun y => ASSERT (is_queued y);; Ok (time y, true)
       | None => Ok (0, false)
       end) ≫= fun (th : Z * bool) => let '(t, have) := th in
      (match previous_flow m with
       | Some p =>
           get m p ≫= fun y =>
           if negb have || (time y <? t) then Ok (time y, true) else Ok (t, have)
       | None => Ok (t, have)
       end) ≫= fun (th : Z * bool) => let '(t, have) := th in
      Ok (if have then t else 0)
  end.

(** The loop over the flows list. *)
Fixpoint subtract_all (fl : gmap loc Flow) (l : list loc) (flow : loc) (subtract : Z)
    : outcome (gmap loc Flow) :=
  match l with
  | [] => Ok fl
  | g :: l' =>
      of_option (fl !! g) ≫= fun x =>
      (if (time x <? subtract) && negb (bool_decide (g = flow))
       then ASSERT (negb (is_queued x));; Ok (set_time 0 x)
       else Ok (set_time (u64 (time x - subtract)) x)) ≫= fun x =>
      subtract_all (<[g := x]> fl) l' flow subtract
  end.

Definition increment_sent_flow (m : FairQueue) (flow : loc) (amount : Z) : outcome FairQueue :=
  get m flow ≫= fun x =>
  ASSERT (amount <=? FAIRQUEUE_MAX_TIME);;
  ASSERT (negb (is_queued x));;
  ASSERT (bool_decide (sending_flow m = None));;
  (if FAIRQUEUE_MAX_TIME - time x <? amount then
     (match Tree_GetFirst (queued_tree m) with
      | None => Ok (time x)
      | Some g => get m g ≫= fun y => ASSERT (is_queued y);; Ok (time y)
      end) ≫= fun subtract =>
     subtract_all (flows m) (flows_list m) flow subtract ≫= fun fl => Ok (upd_flows fl m)
   else Ok m) ≫= fun m =>
  get m flow ≫= fun x =>
  Ok (upd_flows (<[flow := set_time (u64 (time x + amount)) x]> (flows m)) m).

Definition schedule (m : FairQueue) : outcome (FairQueue * list action) :=
  ASSERT (bool_decide (sending_flow m = None));;
  ASSERT (bool_decide (previous_flow m = None));;
  ASSERT (negb (freeing m));;
  ASSERT (negb (Tree_IsEmpty (queued_tree m)));;
  of_option (Tree_GetFirst (queued_tree m)) ≫= fun qflow =>
  get m qflow ≫= fun x =>
  ASSERT (is_queued x);;
  let m := upd_tree (Tree_Remove (queued_tree m) qflow) m in
  let m := upd_flows (<[qflow := set_queued false x]> (flows m)) m in
  Ok (upd_sending (Some qflow) (data_len x) m, [Output_Send (data x) (data_len x)]).

(** Called by the job, which is no longer pending then. *)
Definition schedule_job_handler (m : FairQueue) : outcome (FairQueue * list action) :=
  ASSERT (bool_decide (sending_flow m = None));;
  ASSERT (negb (freeing m));;
  let m := upd_previous None m in
  if negb (Tree_IsEmpty (queued_tree m)) then schedule m else Ok (m, []).

Definition input_handler_send (m : FairQueue) (flow : loc) (d len : Z) : outcome (FairQueue * list action) :=
  get m flow ≫= fun x =>
  ASSERT (negb (bool_decide (Some flow = sending_flow m)));;
  ASSERT (negb (is_queued x));;
  ASSERT (negb (freeing m));;
  (if bool_decide (Some flow = previous_flow m) then Ok (upd_previous None m, x)
   else get_current_time m ≫= fun t => Ok (m, set_time (Z.max (time x) t) x))
    ≫= fun (mx : FairQueue * Flow) => let '(m, x) := mx in
  let m := upd_flows (<[flow := mkFlow (handler_busy x) (time x) (is_queued x) d len]> (flows m)) m in
  Tree_Insert (flows m) (queued_tree m) flow ≫= fun (r : list loc * bool) =>
  ASSERT (r.2);;
  let m := upd_tree r.1 m in
  let m := upd_flows (alter (set_queued true) flow (flows m)) m in
  if bool_decide (sending_flow m = None) && negb (schedule_job m) then schedule m else Ok (m, []).

Definition output_handler_done (m : FairQueue) : outcome (FairQueue * list action) :=
  of_option (sending_flow m) ≫= fun flow =>
  ASSERT (bool_decide (previous_flow m = None));;
  ASSERT (negb (schedule_job m));;
  ASSERT (negb (freeing m));;
  get m flow ≫= fun x =>
  ASSERT (negb (is_queued x));;
  let m := upd_sending None (sending_len m) m in
  let m := upd_previous (Some flow) m in
  increment_sent_flow m flow (packet_weight m + sending_len m) ≫= fun m =>
  let m := upd_job true m in
  if handler_busy x then
    let m := upd_flows (alter (fun x => mkFlow false (time x) (is_queued x) (data x) (data_len x))
                          flow (flows m)) m in
    Ok (m, [Input_Done flow; Handler_busy flow])
  else Ok (m, [Input_Done flow]).

(** [None] is the return value 0. *)
Definition PacketPassFairQueue_Init (output_mtu : Z) (has_cancel use_cancel : bool) (packet_weight : Z)
    : outcome (option FairQueue) :=
  ASSERT (0 <? packet_weight);;
  ASSERT (negb use_cancel || has_cancel);;
  if (output_mtu <=? FAIRQUEUE_MAX_TIME) && (packet_weight <=? FAIRQUEUE_MAX_TIME - output_mtu)
  then Ok (Some (mkFQ output_mtu use_cancel packet_weight None 0 None [] [] ∅ false false))
  else Ok None.

Definition PacketPassFairQueue_Free (m : FairQueue) : outcome unit :=
  ASSERT (match flows_list m with [] => true | _ => false end);;
  ASSERT (Tree_IsEmpty (queued_tree m));;
  ASSERT (bool_decide (previous_flow m = None));;
  ASSERT (bool_decide (sending_flow m = None)).

Definition PacketPassFairQueue_PrepareFree (m : FairQueue) : FairQueue :=
  mkFQ (output_mtu m) (use_cancel m) (packet_weight m) (sending_flow m) (sending_len m)
    (previous_flow m) (queued_tree m) (flows_list m) (flows m) true (schedule_job m).

Definition PacketPassFairQueue_GetMTU (m : FairQueue) : Z := output_mtu m.

(** A flow at the address [f], where none is. *)
Definition PacketPassFairQueueFlow_Init (m : FairQueue) (f : loc) : outcome FairQueue :=
  ASSERT (negb (freeing m));;
  ASSERT (bool_decide (flows m !! f = None));;
  Ok (upd_list (flows_list m ++ [f]) (upd_flows (<[f := mkFlow false 0 false 0 0]> (flows m)) m)).

Definition PacketPassFairQueueFlow_Free (m : FairQueue) (f : loc) : outcome FairQueue :=
  get m f ≫= fun x =>
  ASSERT (freeing m || negb (bool_decide (Some f = sending_flow m)));;
  let m := if bool_decide (Some f = sending_flow m) then upd_sending None (sending_len m) m else m in
  let m := if bool_decide (Some f = previous_flow m) then upd_previous None m else m in
  let m := if is_queued x then upd_tree (Tree_Remove (queued_tree m) f) m else m in
  Ok (upd_flows (delete f (flows m)) (upd_list (LinkedList1.remove_node f (flows_list m)) m)).

Definition PacketPassFairQueueFlow_AssertFree (m : FairQueue) (f : loc) : outcome unit :=
  ASSERT (freeing m || negb (bool_decide (Some f = sending_flow m))).

Definition PacketPassFairQueueFlow_IsBusy (m : FairQueue) (f : loc) : outcome bool :=
  ASSERT (negb (freeing m));; Ok (bool_decide (Some f = sending_flow m)).

Definition PacketPassFairQueueFlow_RequestCancel (m : FairQueue) (f : loc) : outcome (list action) :=
  ASSERT (bool_decide (Some f = sending_flow m));;
  ASSERT (use_cancel m);;
  ASSERT (negb (freeing m));;
  ASSERT (negb (schedule_job m));;
  Ok [Output_RequestCancel].

Definition PacketPassFairQueueFlow_SetBusyHandler (m : FairQueue) (f : loc) : outcome FairQueue :=
  ASSERT (bool_decide (Some f = sending_flow m));;
  ASSERT (negb (freeing m));;
  Ok (upd_flows (alter (fun x => mkFlow true (time x) (is_queued x) (data x) (data_len x)) f (flows m)) m).

(** ** Invariant *)

(** The order of the tree. *)
Definition flow_lt (fl : gmap loc Flow) (f g : loc) : Prop :=
  exists x y, fl !! f = Some x /\ fl !! g = Some y /\
    (time x < time y \/ time x = time y /\ (f < g)%positive).

Record inv (m : FairQueue) : Prop := {
  inv_weight : 0 < packet_weight m /\ 0 <= output_mtu m /\ packet_weight m + output_mtu m <= UINT64_MAX;
  inv_list : NoDup (flows_list m);
  inv_dom : forall f, f ∈ flows_list m <-> is_Some (flows m !! f);
  inv_time : forall f x, flows m !! f = Some x -> 0 <= time x <= UINT64_MAX;
  inv_len : forall f x, flows m !! f = Some x -> is_queued x = true -> 0 <= data_len x <= output_mtu m;
  inv_queued : forall f, f ∈ queued_tree m <-> exists x, flows m !! f = Some x /\ is_queued x = true;
  inv_sorted : StronglySorted (flow_lt (flows m)) (queued_tree m);
  inv_sending : forall f, sending_flow m = Some f ->
    exists x, flows m !! f = Some x /\ is_queued x = false /\ 0 <= sending_len m <= output_mtu m /\
      (forall g y, g ∈ queued_tree m -> flows m !! g = Some y -> time x <= time y) /\
      previous_flow m = None /\ schedule_job m = false;
  inv_previous : forall f, previous_flow m = Some f ->
    exists x, flows m !! f = Some x /\ is_queued x = false /\ schedule_job m = true;
  inv_work : sending_flow m = None -> schedule_job m = false -> freeing m = false -> queued_tree m = []
}.

(** ** The tree *)
Lemma flow_lt_trans fl f g h : flow_lt fl f g -> flow_lt fl g h -> flow_lt fl f h.
Proof.
  intros (x & y & Hx & Hy & H1) (y' & z & Hy' & Hz & H2). simplify_eq.
  exists x, z. split_and!; [done|done|]. lia.
Qed.

Lemma compare_flows_spec fl f g x y :
  fl !! f = Some x -> fl !! g = Some y ->
  exists c, compare_flows fl f g = Ok c /\
    (c = 0 -> f = g) /\ (c < 0 -> flow_lt fl f g) /\ (0 < c -> flow_lt fl g f).
Proof.
  intros Hx Hy. unfold compare_flows. rewrite Hx, Hy. cbn [of_option mbind outcome_bind].
  rewrite !B_COMPARE_if. unfold flow_lt.
  destruct (time x <? time y) eqn:E1; zify_bool; cbn.
  { eexists. split; [done|]. split_and!; [lia| |lia]. intros _. exists x, y. auto with lia. }
  destruct (time y <? time x) eqn:E2; zify_bool; cbn.
  { eexists. split; [done|]. split_and!; [lia|lia|]. intros _. exists y, x. auto with lia. }
  eexists. split; [done|]. repeat case_if; split_and!; try lia; intros _.
  - exists x, y. split_and!; [done|done|]. right. lia.
  - exists y, x. split_and!; [done|done|]. right. lia.
Qed.

(** Insertion keeps the order. *)
Lemma Tree_Insert_spec fl t f :
  is_Some (fl !! f) -> (forall g, g ∈ t -> is_Some (fl !! g)) -> f ∉ t -> StronglySorted (flow_lt fl) t ->
  exists t', Tree_Insert fl t f = Ok (t', true) /\ t' ≡ₚ f :: t /\ StronglySorted (flow_lt fl) t'.
Proof.
  intros [x Hx] Hd Hf Hs. induction Hs as [|g t Hs IH Hg]; cbn [Tree_Insert].
  { exists [f]. split_and!; [done|done|]. by repeat constructor. }
  destruct (Hd g) as [y Hy]; [set_solver|].
  destruct (compare_flows_spec fl f g x y Hx Hy) as (c & -> & H0 & Hlt & Hgt). cbn [mbind outcome_bind].
  destruct (c =? 0) eqn:E0; zify_bool; [rewrite H0 in Hf by done; set_solver|].
  destruct (c <? 0) eqn:E1; zify_bool.
  { exists (f :: g :: t). split_and!; [done|done|]. constructor; [by constructor|].
    apply Forall_cons. split; [auto|]. eapply Forall_impl; [exact Hg|]. intros h. apply flow_lt_trans. auto. }
  destruct IH as (t' & -> & Hp & Hs'); [set_solver|set_solver|]. cbn [mbind outcome_bind fst snd].
  exists (g :: t'). split_and!; [done|rewrite Hp; apply Permutation_swap|]. constructor; [done|].
  rewrite Hp. apply Forall_cons. split; [|done]. apply Hgt. lia.
Qed.

(** The order depends on the differences of the times only. *)
Lemma sorted_shift fl fl' t s :
  (forall g x, g ∈ t -> fl !! g = Some x -> exists x', fl' !! g = Some x' /\ time x' = time x - s) ->
  StronglySorted (flow_lt fl) t -> StronglySorted (flow_lt fl') t.
Proof.
  intros Hsh Hs. induction Hs as [|g t Hs IH Hg]; constructor.
  - apply IH. intros h x Hh. apply Hsh. set_solver.
  - rewrite Forall_forall in Hg |- *. intros h Hh. destruct (Hg h Hh) as (x & y & Hx & Hy & Hlt).
    destruct (Hsh g x) as (x' & Hx' & Ex); [set_solver|done|].
    destruct (Hsh h y) as (y' & Hy' & Ey); [set_solver|done|].
    exists x', y'. split_and!; [done|done|]. lia.
Qed.

Lemma sorted_ext fl fl' t :
  (forall g x, g ∈ t -> fl !! g = Some x -> exists x', fl' !! g = Some x' /\ time x' = time x) ->
  StronglySorted (flow_lt fl) t -> StronglySorted (flow_lt fl') t.
Proof.
  intros H. apply (sorted_shift fl fl' t 0). intros g x Hg Hx.
  destruct (H g x Hg Hx) as (x' & ? & ?). exists x'. split; [done|lia].
Qed.

Lemma sorted_head_min fl g t h y :
  StronglySorted (flow_lt fl) (g :: t) -> h ∈ g :: t -> fl !! h = Some y ->
  exists x, fl !! g = Some x /\ time x <= time y.
Proof.
  intros Hs Hh Hy. apply StronglySorted_inv in Hs as [_ Hg]. apply elem_of_cons in Hh as [->|Hh].
  - exists y. split; [done|lia].
  - rewrite Forall_forall in Hg. destruct (Hg h Hh) as (x & y' & Hx & Hy' & ?). simplify_eq.
    exists x. split; [done|lia].
Qed.

Lemma sorted_nodup fl t : StronglySorted (flow_lt fl) t -> NoDup t.
Proof.
  induction 1 as [|g t Hs IH Hg]; [constructor|]. apply NoDup_cons. split; [|done].
  intros Hin. rewrite Forall_forall in Hg. destruct (Hg g Hin) as (x & y & ? & ? & ?). simplify_eq. lia.
Qed.

(** ** Subtraction of time *)
Definition sub_time (flow : loc) (s : Z) (g : loc) (x : Flow) : Flow :=
  if (time x <? s) && negb (bool_decide (g = flow)) then set_time 0 x
  else set_time (u64 (time x - s)) x.

Lemma subtract_all_ok fl l flow s :
  NoDup l -> (forall g, g ∈ l -> is_Some (fl !! g)) ->
  (forall g x, g ∈ l -> g <> flow -> fl !! g = Some x -> is_queued x = true -> s <= time x) ->
  exists fl', subtract_all fl l flow s = Ok fl' /\
    (forall g, fl' !! g = if decide (g ∈ l) then sub_time flow s g <$> fl !! g else fl !! g).
Proof.
  revert fl. induction l as [|g l IH]; intros fl Hn Hd Hq; cbn [subtract_all].
  { exists fl. split; [done|]. intros g. by rewrite decide_False by set_solver. }
  apply NoDup_cons in Hn as [Hg Hn]. destruct (Hd g) as [x Hx]; [set_solver|].
  rewrite Hx. cbn [of_option mbind outcome_bind].
  assert ((if (time x <? s) && negb (bool_decide (g = flow))
           then ASSERT (negb (is_queued x));; Ok (set_time 0 x)
           else Ok (set_time (u64 (time x - s)) x)) = Ok (sub_time flow s g x)) as ->.
  { unfold sub_time. destruct ((time x <? s) && _) eqn:E; [|done]. zify_bool.
    destruct (is_queued x) eqn:Eq; [|done]. specialize (Hq g x ltac:(set_solver) ltac:(done) Hx Eq). lia. }
  cbn [mbind outcome_bind].
  destruct (IH (<[g := sub_time flow s g x]> fl)) as (fl' & -> & Hfl); [done| | |].
  - intros h Hh. destruct (decide (h = g)) as [->|]; [rewrite lookup_insert_eq; eauto|].
    rewrite lookup_insert_ne by done. apply Hd. set_solver.
  - intros h y Hh Hne Hy Hqu. rewrite lookup_insert_ne in Hy by set_solver. eapply Hq; eauto. set_solver.
  - exists fl'. split; [done|]. intros h. rewrite Hfl. destruct (decide (h = g)) as [->|].
    + rewrite decide_False by done. rewrite decide_True by set_solver. by rewrite lookup_insert_eq, Hx.
    + rewrite lookup_insert_ne by done. destruct (decide (h ∈ l)).
      * by rewrite decide_True by set_solver.
      * by rewrite decide_False by set_solver.
Qed.

(** When a flow has just finished sending: it is not queued and none of the
    queued flows is behind it. *)
Record finished (m : FairQueue) (flow : loc) (x : Flow) : Prop := {
  fin_list : NoDup (flows_list m);
  fin_dom : forall f, f ∈ flows_list m <-> is_Some (flows m !! f);
  fin_time : forall f y, flows m !! f = Some y -> 0 <= time y <= UINT64_MAX;
  fin_queued : forall f, f ∈ queued_tree m <-> exists y, flows m !! f = Some y /\ is_queued y = true;
  fin_sorted : StronglySorted (flow_lt (flows m)) (queued_tree m);
  fin_flow : flows m !! flow = Some x;
  fin_idle : is_queued x = false;
  fin_sending : sending_flow m = None;
  fin_min : forall g y, g ∈ queued_tree m -> flows m !! g = Some y -> time x <= time y
}.

Lemma increment_ok m flow x amount :
  finished m flow x -> 0 <= amount <= FAIRQUEUE_MAX_TIME ->
  exists s fl', increment_sent_flow m flow amount = Ok (upd_flows fl' m) /\ 0 <= s /\
    fl' !! flow = Some (set_time (time x + amount - s) x) /\
    0 <= time x + amount - s <= FAIRQUEUE_MAX_TIME /\
    (forall g, g <> flow -> fl' !! g = (fun y => set_time (Z.max 0 (time y - s)) y) <$> flows m !! g) /\
    (forall g y, g ∈ queued_tree m -> flows m !! g = Some y -> s <= time y) /\
    StronglySorted (flow_lt fl') (queued_tree m).
Proof.
  intros [Hl Hd Ht Hq Hs Hx Hi Hse Hm] Ha. unfold FAIRQUEUE_MAX_TIME, UINT64_MAX in *.
  unfold increment_sent_flow, get. rewrite Hx. cbn [of_option mbind outcome_bind]. rewrite Hi.
  rewrite !bind_ASSERT_true; [|by apply bool_decide_eq_true_2|done|unfold FAIRQUEUE_MAX_TIME, UINT64_MAX; lia].
  pose proof (Ht _ _ Hx) as Hxt.
  assert (flow ∉ queued_tree m) as Hnf by (intros (y & Hy & ?)%Hq; congruence).
  assert (forall s fl', 0 <= s ->
    (forall g, g <> flow -> fl' !! g = (fun y => set_time (Z.max 0 (time y - s)) y) <$> flows m !! g) ->
    (forall g y, g ∈ queued_tree m -> flows m !! g = Some y -> s <= time y) ->
    StronglySorted (flow_lt fl') (queued_tree m)) as Hsort.
  { intros s fl' Hs0 Hfl Hle. apply (sorted_shift (flows m) fl' _ s); [|done]. intros g y Hg Hy.
    rewrite Hfl, Hy by set_solver. eexists. split; [done|]. cbn. specialize (Hle g y Hg Hy). lia. }
  destruct (_ <? amount) eqn:Eov; zify_bool; unfold FAIRQUEUE_MAX_TIME, UINT64_MAX in Eov.
  - set (s := match Tree_GetFirst (queued_tree m) with
              | Some g => match flows m !! g with Some y => time y | None => 0 end
              | None => time x end).
    assert ((match Tree_GetFirst (queued_tree m) with
      | None => Ok (time x)
      | Some g => of_option (flows m !! g) ≫= fun y => ASSERT (is_queued y);; Ok (time y)
      end) = Ok s /\ time x <= s <= 2 ^ 64 - 1 /\
      (forall g y, g ∈ queued_tree m -> flows m !! g = Some y -> s <= time y)) as (Es & Hsr & Hle).
    { unfold s, Tree_GetFirst. destruct (queued_tree m) as [|g t] eqn:Et; cbn [head].
      - split_and!; [done|lia|lia|]. set_solver.
      - destruct (proj1 (Hq g)) as (y & Hy & Hyq); [set_solver|]. rewrite Hy. cbn. rewrite Hyq. cbn.
        split_and!; [done|eapply Hm; eauto; set_solver|apply (Ht _ _ Hy)|].
        intros h z Hh Hz. destruct (sorted_head_min _ _ _ _ _ Hs Hh Hz) as (y' & ? & ?). by simplify_eq. }
    rewrite Es. cbn [mbind outcome_bind].
    destruct (subtract_all_ok (flows m) (flows_list m) flow s) as (fl & -> & Hfl); [done|by intros ? ?%Hd| |].
    { intros g y _ _ Hy Hyq. apply (Hle g y); [|done]. apply Hq. eauto. }
    cbn [mbind outcome_bind upd_flows flows].
    assert (fl !! flow = Some (set_time (u64 (time x - s)) x)) as Ef.
    { rewrite Hfl, decide_True by (apply Hd; eauto). rewrite Hx. cbn. unfold sub_time.
      by rewrite (bool_decide_eq_true_2 (flow = flow)), andb_false_r by done. }
    rewrite Ef. cbn [of_option mbind outcome_bind time set_time].
    assert (u64 (u64 (time x - s) + amount) = time x + amount - s) as Eu.
    { unfold u64. rewrite Zplus_mod_idemp_l, Z.mod_small; lia. }
    rewrite Eu. eexists s, _. split; [done|]. split; [lia|].
    rewrite lookup_insert_eq. split; [done|]. split; [lia|].
    assert (forall g, g <> flow -> <[flow := set_time (time x + amount - s) (set_time (u64 (time x - s)) x)]> fl !! g =
      (fun y => set_time (Z.max 0 (time y - s)) y) <$> flows m !! g) as Hother.
    { intros g Hg. rewrite lookup_insert_ne by done. rewrite Hfl.
      destruct (flows m !! g) as [y|] eqn:Ey; cbn; [|by case_decide].
      rewrite decide_True by (apply Hd; eauto). f_equal. unfold sub_time.
      rewrite bool_decide_eq_false_2 by done. cbn [negb]. rewrite andb_true_r.
      pose proof (Ht _ _ Ey). destruct (time y <? s) eqn:E; zify_bool.
      - by rewrite Z.max_l by lia.
      - rewrite u64_small, Z.max_r by lia. done. }
    split_and!; [exact Hother|exact Hle|]. eapply Hsort; [|exact Hother|done]. lia.
  - cbn [mbind outcome_bind]. rewrite Hx. cbn [of_option mbind outcome_bind].
    rewrite u64_small by lia. exists 0. eexists. split; [done|]. rewrite lookup_insert_eq, Z.sub_0_r.
    split; [lia|]. split; [done|]. split; [lia|].
    assert (forall g, g <> flow -> <[flow := set_time (time x + amount) x]> (flows m) !! g =
      (fun y => set_time (Z.max 0 (time y - 0)) y) <$> flows m !! g) as Hother.
    { intros g Hg. rewrite lookup_insert_ne by done. destruct (flows m !! g) as [y|] eqn:Ey; cbn; [|done].
      pose proof (Ht _ _ Ey). rewrite Z.sub_0_r, Z.max_r by lia. by destruct y. }
    split_and!; [exact Hother| |].
    + intros g y _ Hy. apply (Ht _ _ Hy).
    + eapply Hsort; [|exact Hother|]; [lia|]. intros g y _ Hy. apply (Ht _ _ Hy).
Qed.

(** Advancing the virtual time of a flow is exact in spite of 64-bit
    wrap-around. When a flow has finished a packet, [increment_sent_flow]
    subtracts one amount [s] from every flow (flows that wait are not cut off
    at zero, idle ones are), the flow gets its time plus the weight of the
    packet minus [s] as an exact integer that fits in 64 bits, and hence the
    order of the waiting flows and all differences of times between them and
    the flow that has sent are the mathematical ones. The assertions hold and
    nothing else changes. *)
Theorem FairQueue_increment_exact m flow x amount :
  finished m flow x -> 0 <= amount <= FAIRQUEUE_MAX_TIME ->
  exists s fl', increment_sent_flow m flow amount = Ok (upd_flows fl' m) /\ 0 <= s /\
    fl' !! flow = Some (set_time (time x + amount - s) x) /\
    0 <= time x + amount - s <= FAIRQUEUE_MAX_TIME /\
    (forall g, g <> flow -> fl' !! g = (fun y => set_time (Z.max 0 (time y - s)) y) <$> flows m !! g) /\
    (forall g y, g ∈ queued_tree m -> flows m !! g = Some y -> s <= time y) /\
    StronglySorted (flow_lt fl') (queued_tree m).
Proof. apply increment_ok. Qed.

(** A flow close to the largest time, with one flow waiting at the same time. *)
Definition demo_flows : gmap loc Flow :=
  <[1%positive := mkFlow false (2 ^ 64 - 10) false 0 0]>
  (<[2%positive := mkFlow false (2 ^ 64 - 5) true 0 4]> ∅).
Definition demo_queue : FairQueue :=
  mkFQ 100 false 1 None 50 (Some 1%positive) [2%positive] [1%positive; 2%positive] demo_flows false false.

Lemma demo_finished : finished demo_queue 1%positive (mkFlow false (2 ^ 64 - 10) false 0 0).
Proof.
  assert (forall f, is_Some (demo_flows !! f) <-> f = 1%positive \/ f = 2%positive) as Hdom.
  { intros f. unfold demo_flows. rewrite lookup_insert_is_Some, lookup_insert_is_Some, lookup_empty.
    unfold is_Some. split; [intros [->|[_ [->|[_ [? [=]]]]]]; auto|].
    intros [->| ->]; [by left|right; split; [lia|by left]]. }
  assert (forall f y, demo_flows !! f = Some y -> f = 1%positive /\ y = mkFlow false (2 ^ 64 - 10) false 0 0 \/
    f = 2%positive /\ y = mkFlow false (2 ^ 64 - 5) true 0 4) as Hval.
  { intros f y Hy. destruct (proj1 (Hdom f) ltac:(eauto)) as [->| ->]; vm_compute in Hy; injection Hy as <-; auto. }
  split; cbn.
  - repeat constructor; set_solver.
  - intros f. rewrite Hdom. set_solver.
  - intros f y [[_ ->]|[_ ->]]%Hval; vm_compute; split; congruence.
  - intros f. rewrite list_elem_of_singleton. split.
    + intros ->. eexists. split; [reflexivity|done].
    + intros (y & [[-> ->]|[-> ->]]%Hval & ?); done.
  - repeat constructor.
  - reflexivity.
  - reflexivity.
  - reflexivity.
  - intros g y ->%list_elem_of_singleton [[[=] _]|[_ ->]]%Hval. vm_compute. congruence.
Qed.

Lemma FairQueue_increment_exact_witness :
  exists s fl', increment_sent_flow demo_queue 1%positive 51 = Ok (upd_flows fl' demo_queue) /\ 0 <= s /\
    fl' !! 1%positive = Some (mkFlow false (2 ^ 64 - 10 + 51 - s) false 0 0).
Proof.
  destruct (FairQueue_increment_exact demo_queue 1%positive (mkFlow false (2 ^ 64 - 10) false 0 0) 51
              demo_finished) as (s & fl' & H1 & H2 & H3 & _); [vm_compute; split; congruence|].
  exists s, fl'. exact (conj H1 (conj H2 H3)).
Defined.

(** ** The handlers keep the invariant *)
#[local] Arguments Tree_Remove : simpl never.

Lemma remove_head (f : loc) t : Tree_Remove (f :: t) f = t.
Proof. unfold Tree_Remove. cbn. by rewrite decide_True. Qed.

(** [schedule] from a state that has the invariant but for the flows waiting
    while nothing is sent: sends the first of them. *)
Lemma schedule_ok m g t :
  queued_tree m = g :: t ->
  inv (upd_job true m) -> sending_flow m = None -> previous_flow m = None -> freeing m = false ->
  schedule_job m = false ->
  exists x m', flows m !! g = Some x /\
    schedule m = Ok (m', [Output_Send (data x) (data_len x)]) /\ inv m' /\ sending_flow m' = Some g.
Proof.
  intros Et [Hw Hl Hd Ht Hln Hq Hs _ _ _] Hse Hpr Hfr Hjob. cbn in *.
  destruct (proj1 (Hq g)) as (x & Hx & Hxq); [rewrite Et; set_solver|].
  unfold schedule, get. rewrite Hse, Hpr, Hfr, Et. cbn. rewrite Hx. cbn. rewrite Hxq. cbn.
  eexists x, _. split; [done|]. split; [done|]. split; [|done].
  rewrite Et in Hs. pose proof (sorted_nodup _ _ Hs) as Hnd. apply NoDup_cons in Hnd as [Hgt _].
  assert (forall f, f <> g -> <[g := set_queued false x]> (flows m) !! f = flows m !! f) as Hne
    by (intros; by rewrite lookup_insert_ne).
  split; cbn; rewrite ?remove_head; try done.
  - intros f. rewrite Hd. destruct (decide (f = g)) as [->|]; [rewrite lookup_insert_eq, Hx; split; eauto|by rewrite Hne].
  - intros f y Hy. destruct (decide (f = g)) as [->|];
      [rewrite lookup_insert_eq in Hy; injection Hy as <-; exact (Ht g x Hx)|rewrite Hne in Hy by done; by apply (Ht f)].
  - intros f y Hy Hyq. destruct (decide (f = g)) as [->|];
      [rewrite lookup_insert_eq in Hy; by simplify_eq|rewrite Hne in Hy by done; by apply (Hln f)].
  - intros f. destruct (decide (f = g)) as [->|].
    + rewrite lookup_insert_eq. split; [by intros ?%Hgt|]. intros (y & [= <-] & ?). done.
    + rewrite Hne by done. rewrite <- Hq, Et. set_solver.
  - apply StronglySorted_inv in Hs as [Hs _]. eapply sorted_ext; [|exact Hs].
    intros f y Hf Hy. rewrite Hne by set_solver. eauto.
  - intros f [= <-]. rewrite lookup_insert_eq. eexists. split; [done|]. split; [done|].
    split; [by apply (Hln g)|]. split; [|done]. intros f y Hf Hy. cbn.
    rewrite Hne in Hy by set_solver.
    destruct (sorted_head_min _ _ _ f y Hs) as (x' & ? & ?); [set_solver|done|]. by simplify_eq.
  - intros f Hf. congruence.
Qed.

Lemma job_inv m :
  inv m -> schedule_job m = true -> sending_flow m = None -> freeing m = false ->
  exists m' acts, schedule_job_handler (upd_job false m) = Ok (m', acts) /\ inv m'.
Proof.
  intros Hi Hj Hse Hfr. unfold schedule_job_handler. cbn. rewrite Hse, Hfr. cbn.
  assert (inv (upd_previous None m)) as Hi'.
  { destruct Hi as [Hw Hl Hd Ht Hln Hq Hs Hsd Hp Hwk]. split; cbn; try done.
    intros f Hf. destruct (Hsd f Hf) as (x & ? & ? & ? & ? & ? & ?). congruence. }
  destruct (queued_tree m) as [|g t] eqn:Et; cbn.
  - eexists _, _. split; [done|]. destruct Hi' as [Hw Hl Hd Ht Hln Hq Hs Hsd Hp Hwk]. cbn in *.
    split; cbn; try done. intros f Hf. congruence.
  - destruct (schedule_ok (upd_previous None (upd_job false m)) g t) as (x & m' & _ & -> & ? & _);
      [done| |done..|eauto].
    destruct m; cbn in *. by subst.
Qed.

Lemma current_time_ok m :
  inv m ->
  exists t, get_current_time m = Ok t /\ 0 <= t <= UINT64_MAX /\
    (forall s y, sending_flow m = Some s -> flows m !! s = Some y -> t = time y).
Proof.
  intros [Hw Hl Hd Ht Hln Hq Hs Hsd Hp Hwk]. unfold get_current_time, get.
  destruct (sending_flow m) as [f|].
  { destruct (Hsd f eq_refl) as (x & Hx & _). rewrite Hx. cbn. exists (time x).
    split_and!; [done|by apply (Ht _ _ Hx)|by apply (Ht _ _ Hx)|]. intros s y [= <-] Hy. congruence. }
  assert (exists t have, match Tree_GetFirst (queued_tree m) with
      | Some g => of_option (flows m !! g) ≫= fun y => ASSERT (is_queued y);; Ok (time y, true)
      | None => Ok (0, false) end = Ok (t, have) /\ 0 <= t <= UINT64_MAX) as (t & have & E & Ht0).
  { unfold Tree_GetFirst. destruct (queued_tree m) as [|g tr] eqn:Et; cbn; [by exists 0, false|].
    destruct (proj1 (Hq g)) as (y & Hy & Hyq); [set_solver|]. rewrite Hy. cbn. rewrite Hyq. cbn.
    eexists _, _. split; [done|]. by apply (Ht _ _ Hy). }
  rewrite E. cbn [mbind outcome_bind].
  destruct (previous_flow m) as [p|] eqn:Ep.
  - destruct (Hp p eq_refl) as (y & Hy & _). rewrite Hy. cbn. pose proof (Ht _ _ Hy).
    destruct (negb have || (time y <? t)); cbn; eexists; (split; [done|]); (split; [|done]);
      [done|destruct have; [done|unfold UINT64_MAX; lia]].
  - cbn. eexists. split; [done|]. split; [|done]. destruct have; [done|unfold UINT64_MAX; lia].
Qed.

(** Queueing a flow. *)
Lemma queued_inv m f x x1 t' prev' j' :
  inv m -> flows m !! f = Some x -> is_queued x = false -> sending_flow m <> Some f ->
  is_queued x1 = true -> 0 <= time x1 <= UINT64_MAX -> 0 <= data_len x1 <= output_mtu m ->
  t' ≡ₚ f :: queued_tree m -> StronglySorted (flow_lt (<[f := x1]> (flows m))) t' ->
  (forall s y, sending_flow m = Some s -> flows m !! s = Some y -> time y <= time x1) ->
  prev' = None \/ prev' = previous_flow m -> prev' <> Some f ->
  j' = schedule_job m \/ (j' = true /\ sending_flow m = None) ->
  sending_flow m <> None \/ j' = true ->
  inv (upd_job j' (upd_flows (<[f := x1]> (flows m)) (upd_tree t' (upd_previous prev' m)))).
Proof.
  intros [Hw Hl Hd Ht Hln Hq Hs Hsd Hp Hwk] Hx Hxq Hsf Hq1 Ht1 Hl1 Hperm Hs' Hle Hpr Hprf Hj Hwork.
  assert (forall g, g <> f -> <[f := x1]> (flows m) !! g = flows m !! g) as Hne
    by (intros; by rewrite lookup_insert_ne).
  split; cbn; try done.
  - intros g. rewrite Hd. destruct (decide (g = f)) as [->|]; [rewrite lookup_insert_eq, Hx; split; eauto|by rewrite Hne].
  - intros g y Hy. destruct (decide (g = f)) as [->|];
      [rewrite lookup_insert_eq in Hy; by injection Hy as <-|rewrite Hne in Hy by done; by apply (Ht g)].
  - intros g y Hy Hyq. destruct (decide (g = f)) as [->|];
      [rewrite lookup_insert_eq in Hy; by injection Hy as <-|rewrite Hne in Hy by done; by apply (Hln g)].
  - intros g. rewrite Hperm, elem_of_cons. destruct (decide (g = f)) as [->|].
    + rewrite lookup_insert_eq. split; [eauto|by left].
    + rewrite Hne by done. rewrite <- Hq. naive_solver.
  - intros g Hg. destruct (Hsd g Hg) as (y & Hy & Hyq & Hyl & Hym & Hyp & Hyj).
    exists y. rewrite Hne by congruence. split_and!; try done; try lia.
    + intros h z Hh Hz. rewrite Hperm, elem_of_cons in Hh. destruct (decide (h = f)) as [->|].
      * rewrite lookup_insert_eq in Hz. injection Hz as <-. by apply (Hle g).
      * rewrite Hne in Hz by done. apply (Hym h); [|done]. naive_solver.
    + destruct Hpr; congruence.
    + destruct Hj as [->|[_ ?]]; [done|congruence].
  - intros g Hg. destruct Hpr as [->| ->]; [done|]. destruct (Hp g Hg) as (y & Hy & Hyq & Hyj).
    exists y. rewrite Hne by congruence. split_and!; try done. destruct Hj as [->|[-> _]]; done.
  - intros Hse Hjf _. destruct Hwork; congruence.
Qed.

Lemma upd_job_id m : upd_job (schedule_job m) m = m.
Proof. by destruct m. Qed.

Lemma fair_send_inv m f x d len :
  inv m -> flows m !! f = Some x -> is_queued x = false -> sending_flow m <> Some f ->
  freeing m = false -> 0 <= len <= output_mtu m ->
  exists m' acts, input_handler_send m f d len = Ok (m', acts) /\ inv m'.
Proof.
  intros Hi Hx Hxq Hsf Hfr Hlen. unfold input_handler_send, get. rewrite Hx. cbn [of_option mbind outcome_bind].
  rewrite Hxq, Hfr, (bool_decide_eq_false_2 (Some f = sending_flow m)) by congruence. cbn [negb ASSERT mbind outcome_bind].
  assert (exists prev' t1,
    (if bool_decide (Some f = previous_flow m) then Ok (upd_previous None m, x)
     else get_current_time m ≫= fun t => Ok (m, set_time (Z.max (time x) t) x)) =
      Ok (upd_previous prev' m, set_time t1 x) /\
    (prev' = None \/ prev' = previous_flow m) /\ prev' <> Some f /\ 0 <= t1 <= UINT64_MAX /\
    (forall s y, sending_flow m = Some s -> flows m !! s = Some y -> time y <= t1))
    as (prev' & t1 & E & Hpr & Hprf & Ht1 & Hle).
  { pose proof (inv_time _ Hi _ _ Hx). case_bool_decide as Hpf.
    - exists None, (time x). split; [by destruct x|]. split; [by left|]. split; [done|]. split; [done|].
      intros s y Hs Hy. destruct (inv_sending _ Hi s Hs) as (? & _ & _ & _ & _ & ? & _). congruence.
    - destruct (current_time_ok m Hi) as (t & -> & ? & Hcur). cbn.
      exists (previous_flow m), (Z.max (time x) t). split; [by destruct m|]. split; [by right|].
      split; [done|]. split; [lia|]. intros s y Hs Hy. rewrite (Hcur s y Hs Hy). lia. }
  rewrite E. cbn [mbind outcome_bind]. set (x0 := mkFlow _ _ _ _ _).
  cbn [upd_previous upd_flows flows queued_tree].
  assert (f ∉ queued_tree m) as Hnt.
  { intros (y & Hy & Hyq)%(inv_queued _ Hi). congruence. }
  destruct (Tree_Insert_spec (<[f := x0]> (flows m)) (queued_tree m) f) as (t' & -> & Hperm & Hs').
  { rewrite lookup_insert_eq. eauto. }
  { intros g (y & Hy & _)%(inv_queued _ Hi). destruct (decide (g = f)) as [->|];
      [rewrite lookup_insert_eq|rewrite lookup_insert_ne by done]; eauto. }
  { done. }
  { eapply sorted_ext; [|exact (inv_sorted _ Hi)]. intros g y Hg Hy. rewrite lookup_insert_ne by set_solver. eauto. }
  cbn [mbind outcome_bind fst snd ASSERT upd_tree upd_flows flows]. rewrite alter_insert_eq.
  set (x1 := set_queued true x0).
  assert (StronglySorted (flow_lt (<[f := x1]> (flows m))) t') as Hs1.
  { eapply sorted_ext; [|exact Hs']. intros g y Hg Hy. destruct (decide (g = f)) as [->|].
    - rewrite lookup_insert_eq in Hy |- *. injection Hy as <-. by exists x1.
    - rewrite lookup_insert_ne in Hy |- * by done. eauto. }
  cbn [sending_flow schedule_job].
  set (m1 := upd_flows (<[f := x1]> (flows m)) (upd_tree t' (upd_previous prev' m))).
  match goal with |- context [schedule ?M] => change M with m1 end.
  change (sending_flow m1) with (sending_flow m). change (schedule_job m1) with (schedule_job m).
  assert (forall j', j' = schedule_job m \/ (j' = true /\ sending_flow m = None) ->
    sending_flow m <> None \/ j' = true -> inv (upd_job j' m1)) as Hinv.
  { intros j' Hj Hwk. exact (queued_inv m f x x1 t' prev' j' Hi Hx Hxq Hsf eq_refl Ht1 Hlen Hperm Hs1 Hle Hpr Hprf Hj Hwk). }
  destruct (bool_decide (sending_flow m = None)) eqn:Hse; zify_bool; cbn [andb].
  - destruct (schedule_job m) eqn:Ej; cbn [negb].
    + eexists _, _. split; [done|]. rewrite <- (upd_job_id m1). apply Hinv; cbn; auto.
    + pose proof (inv_work _ Hi Hse Ej Hfr) as Hemp. rewrite Hemp in Hperm.
      apply Permutation_singleton_r in Hperm. 
      destruct (schedule_ok m1 f []) as (y & m' & _ & E' & ? & _); [done|apply Hinv; auto|done| |done|done|eauto].
      cbn. destruct Hpr as [->| ->]; [done|]. destruct (previous_flow m) as [p|] eqn:Ep; [|done].
      destruct (inv_previous _ Hi p Ep) as (? & _ & _ & ?). congruence.
  - eexists _, _. split; [done|]. rewrite <- (upd_job_id m1). apply Hinv; cbn; auto.
Qed.

(** Changing other fields of the flows. *)
Lemma flows_inv m h (f : loc) :
  inv m -> (forall x, time (h x) = time x /\ is_queued (h x) = is_queued x /\ data_len (h x) = data_len x) ->
  inv (upd_flows (alter h f (flows m)) m).
Proof.
  intros [Hw Hl Hd Ht Hln Hq Hs Hsd Hp Hwk] Hh.
  assert (forall g, exists k, alter h f (flows m) !! g = k <$> flows m !! g /\
    forall x, time (k x) = time x /\ is_queued (k x) = is_queued x /\ data_len (k x) = data_len x) as Hk.
  { intros g. destruct (decide (g = f)) as [->|].
    - exists h. by rewrite lookup_alter_eq.
    - exists id. rewrite lookup_alter_ne by done. split; [by destruct (flows m !! g)|done]. }
  assert (forall g y, alter h f (flows m) !! g = Some y -> exists x, flows m !! g = Some x /\
    time y = time x /\ is_queued y = is_queued x /\ data_len y = data_len x) as Hb.
  { intros g y. destruct (Hk g) as (k & -> & Hkk). intros (x & -> & ->)%fmap_Some. exists x.
    destruct (Hkk x) as (? & ? & ?). auto. }
  assert (forall g x, flows m !! g = Some x -> exists y, alter h f (flows m) !! g = Some y /\
    time y = time x /\ is_queued y = is_queued x /\ data_len y = data_len x) as Hfw.
  { intros g x Hx. destruct (Hk g) as (k & -> & Hkk). rewrite Hx. exists (k x).
    destruct (Hkk x) as (? & ? & ?). auto. }
  split; cbn; try done.
  - intros g. rewrite Hd. split; intros [x Hx]; [destruct (Hfw g x Hx) as (y & ? & _)|destruct (Hb g x Hx) as (y & ? & _)]; eauto.
  - intros g y (x & Hx & -> & _)%Hb. by apply (Ht g).
  - intros g y (x & Hx & _ & -> & ->)%Hb. by apply (Hln g).
  - intros g. rewrite Hq. split; intros (x & Hx & Hxq).
    + destruct (Hfw g x Hx) as (y & ? & _ & ? & _). exists y. split; congruence.
    + destruct (Hb g x Hx) as (y & ? & _ & ? & _). exists y. split; congruence.
  - eapply sorted_ext; [|exact Hs]. intros g x _ Hx. destruct (Hfw g x Hx) as (y & ? & ? & _). eauto.
  - intros g Hg. destruct (Hsd g Hg) as (x & Hx & Hxq & Hxl & Hmin & ? & ?).
    destruct (Hfw g x Hx) as (y & Hy & Ey & Eq & _). exists y. rewrite Ey, Eq. split_and!; try done; try lia.
    intros k z Hkq (z0 & Hz0 & -> & _)%Hb. by apply (Hmin k).
  - intros g Hg. destruct (Hp g Hg) as (x & Hx & Hxq & ?).
    destruct (Hfw g x Hx) as (y & Hy & Ey & Eq & _). exists y. rewrite Eq. done.
Qed.

Lemma fair_done_inv m f :
  inv m -> sending_flow m = Some f -> freeing m = false ->
  exists m' acts, output_handler_done m = Ok (m', acts) /\ inv m' /\
    (acts = [Input_Done f] \/ acts = [Input_Done f; Handler_busy f]).
Proof.
  intros Hi Hse Hfr. pose proof Hi as [Hw Hl Hd Ht Hln Hq Hs Hsd Hp Hwk].
  destruct (Hsd f Hse) as (x & Hx & Hxq & Hxl & Hmin & Hpr & Hj).
  unfold output_handler_done, get. rewrite Hse. cbn [of_option mbind outcome_bind].
  rewrite Hpr, Hj, Hfr, Hx. cbn [negb ASSERT mbind outcome_bind of_option bool_decide].
  rewrite bool_decide_eq_true_2 by done. cbn [ASSERT mbind outcome_bind]. rewrite Hxq.
  cbn [negb ASSERT mbind outcome_bind].
  set (m0 := upd_previous (Some f) (upd_sending None (sending_len m) m)).
  assert (finished m0 f x) as Hfin by (by split).
  destruct (increment_ok m0 f x (packet_weight m + sending_len m) Hfin) as
    (s & fl' & E & Hs0 & Ef & Hrange & Hoth & Hsub & Hsort); [unfold FAIRQUEUE_MAX_TIME; lia|].
  change (packet_weight m0 + sending_len m0) with (packet_weight m + sending_len m).
  rewrite E. cbn [mbind outcome_bind]. set (m1 := upd_job true (upd_flows fl' m0)).
  assert (inv m1) as Hi1.
  { assert (forall g y, fl' !! g = Some y -> exists y0, flows m !! g = Some y0 /\
      is_queued y = is_queued y0 /\ data_len y = data_len y0 /\ 0 <= time y <= UINT64_MAX) as Hb.
    { intros g y Hy. destruct (decide (g = f)) as [->|].
      - rewrite Ef in Hy. injection Hy as <-. exists x. by unfold FAIRQUEUE_MAX_TIME in Hrange.
      - rewrite Hoth in Hy by done. apply fmap_Some in Hy as (y0 & Hy0 & ->). exists y0. cbn.
        pose proof (Ht g y0 Hy0). split_and!; try done; lia. }
    assert (forall g y0, flows m !! g = Some y0 -> exists y, fl' !! g = Some y /\
      is_queued y = is_queued y0) as Hfw.
    { intros g y0 Hy0. destruct (decide (g = f)) as [->|]; [rewrite Ef; simplify_eq; eauto|].
      rewrite Hoth by done. change (flows m0) with (flows m). rewrite Hy0. cbn. eauto. }
    split; cbn; try done.
    - intros g. rewrite Hd. split; intros [y Hy]; [destruct (Hfw g y Hy) as (z & ? & _)|destruct (Hb g y Hy) as (z & ? & _)]; eauto.
    - intros g y (y0 & _ & _ & _ & ?)%Hb. done.
    - intros g y (y0 & Hy0 & -> & -> & _)%Hb. by apply (Hln g).
    - intros g. rewrite Hq. split; intros (y & Hy & Hyq).
      + destruct (Hfw g y Hy) as (z & ? & ?). exists z. split; congruence.
      + destruct (Hb g y Hy) as (z & ? & ? & _). exists z. split; congruence.
    - intros g [= <-]. rewrite Ef. eexists. split; [done|]. done. }
  destruct (handler_busy x).
  - eexists _, _. split; [done|]. split; [|by right]. by apply flows_inv.
  - eexists _, _. split; [done|]. split; [done|by left].
Qed.

Lemma init_flow_inv m f :
  inv m -> freeing m = false -> flows m !! f = None ->
  exists m', PacketPassFairQueueFlow_Init m f = Ok m' /\ inv m'.
Proof.
  intros [Hw Hl Hd Ht Hln Hq Hs Hsd Hp Hwk] Hfr Hf. unfold PacketPassFairQueueFlow_Init. rewrite Hfr.
  cbn [negb ASSERT mbind outcome_bind]. rewrite bool_decide_eq_true_2 by done. cbn [ASSERT mbind outcome_bind].
  eexists. split; [done|].
  assert (f ∉ flows_list m) as Hfl by (rewrite Hd, Hf; intros [? [=]]).
  assert (forall g y, flows m !! g = Some y -> <[f := mkFlow false 0 false 0 0]> (flows m) !! g = Some y) as Hin.
  { intros g y Hy. rewrite lookup_insert_ne; [done|]. congruence. }
  split; cbn; try done.
  - apply NoDup_app. split; [done|]. split; [set_solver|apply NoDup_singleton].
  - intros g. rewrite elem_of_app, Hd, list_elem_of_singleton. destruct (decide (g = f)) as [->|].
    + rewrite lookup_insert_eq. split; eauto.
    + rewrite lookup_insert_ne by done. naive_solver.
  - intros g y Hy. apply lookup_insert_Some in Hy as [[_ <-]|[_ Hy]]; [by cbn; unfold UINT64_MAX|by apply (Ht g)].
  - intros g y Hy Hyq. apply lookup_insert_Some in Hy as [[_ <-]|[_ Hy]]; [done|by apply (Hln g)].
  - intros g. rewrite Hq. split; intros (y & Hy & Hyq); [eauto|].
    apply lookup_insert_Some in Hy as [[_ <-]|[_ Hy]]; [done|eauto].
  - eapply sorted_ext; [|exact Hs]. eauto.
  - intros g Hg. destruct (Hsd g Hg) as (x & Hx & Hxq & Hxl & Hmin & ? & ?). exists x.
    split; [by apply Hin|]. split_and!; try done; try lia. intros k z Hk Hz.
    apply lookup_insert_Some in Hz as [[<- _]|[_ Hz]]; [|by apply (Hmin k)].
    apply Hq in Hk as (z' & ? & _). congruence.
  - intros g Hg. destruct (Hp g Hg) as (x & Hx & Hxq & ?). exists x. split; [by apply Hin|done].
Qed.

Lemma sorted_remove fl f t : StronglySorted (flow_lt fl) t -> StronglySorted (flow_lt fl) (Tree_Remove t f).
Proof.
  unfold Tree_Remove. induction 1 as [|g t Hs IH Hg]; cbn; [constructor|]. case_decide; [done|].
  constructor; [done|]. rewrite Forall_forall in Hg |- *. intros h Hh. apply Hg.
  clear -Hh. induction t as [|k t IHt]; cbn in *; [done|]. case_decide; set_solver.
Qed.

Lemma elem_of_remove (f g : loc) t : NoDup t -> g ∈ LinkedList1.remove_node f t <-> g ∈ t /\ g <> f.
Proof.
  induction 1 as [|c t Hc _ IH]; cbn; [set_solver|]. case_decide; rewrite ?elem_of_cons, ?IH; naive_solver.
Qed.

Lemma free_flow_inv m f x :
  inv m -> flows m !! f = Some x -> freeing m = true \/ sending_flow m <> Some f ->
  exists m', PacketPassFairQueueFlow_Free m f = Ok m' /\ inv m' /\ flows m' = delete f (flows m).
Proof.
  intros [Hw Hl Hd Ht Hln Hq Hs Hsd Hp Hwk] Hx Hf. unfold PacketPassFairQueueFlow_Free, get. rewrite Hx.
  cbn [of_option mbind outcome_bind].
  rewrite bind_ASSERT_true by (destruct Hf as [->|]; [done|rewrite bool_decide_eq_false_2 by congruence; apply orb_true_r]).
  eexists. split; [done|]. split; [|by repeat case_match].
  set (t' := if is_queued x then Tree_Remove (queued_tree m) f else queued_tree m).
  assert (forall g, g ∈ t' <-> g ∈ queued_tree m /\ g <> f) as Ht'.
  { intros g. unfold t'. destruct (is_queued x) eqn:Exq.
    - apply elem_of_remove. by eapply sorted_nodup.
    - split; [|tauto]. intros Hg. split; [done|]. intros ->. apply Hq in Hg as (y & ? & ?). congruence. }
  assert (StronglySorted (flow_lt (delete f (flows m))) t') as Hs'.
  { eapply sorted_ext; [|instantiate (1 := flows m)].
    - intros g y [Hg Hgf]%Ht' Hy. rewrite lookup_delete_ne by done. eauto.
    - unfold t'. case_match; [by apply sorted_remove|done]. }
  match goal with |- inv ?M => assert (M = mkFQ (output_mtu m) (use_cancel m) (packet_weight m)
    (if bool_decide (Some f = sending_flow m) then None else sending_flow m) (sending_len m)
    (if bool_decide (Some f = previous_flow m) then None else previous_flow m) t'
    (LinkedList1.remove_node f (flows_list m)) (delete f (flows m)) (freeing m) (schedule_job m)) as -> end.
  { unfold t'. destruct (bool_decide (Some f = sending_flow m)), (is_queued x); cbn;
      destruct (bool_decide (Some f = previous_flow m)); done. }
  split; cbn; try done.
  - clear -Hl. induction Hl as [|g l Hg Hl IH]; [constructor|]. cbn. case_decide; [done|].
    apply NoDup_cons. split; [|done]. rewrite elem_of_remove by done. naive_solver.
  - intros g. rewrite elem_of_remove, Hd by done. destruct (decide (g = f)) as [->|].
    + rewrite lookup_delete_eq. split; [naive_solver|intros [? [=]]].
    + rewrite lookup_delete_ne by done. naive_solver.
  - intros g y [_ Hy]%lookup_delete_Some. by apply (Ht g).
  - intros g y [_ Hy]%lookup_delete_Some. by apply (Hln g).
  - intros g. rewrite Ht', Hq. split.
    + intros [(y & Hy & Hyq) Hgf]. exists y. by rewrite lookup_delete_ne.
    + intros (y & [? Hy]%lookup_delete_Some & Hyq). split; [eauto|done].
  - intros g Hg. case_bool_decide as Hfs; [done|].
    destruct (Hsd g Hg) as (y & Hy & Hyq & Hyl & Hmin & -> & ?). exists y.
    rewrite lookup_delete_ne by congruence. split_and!; try done; try lia.
    intros k z [Hk _]%Ht' [_ Hz]%lookup_delete_Some. by apply (Hmin k).
  - intros g Hg. case_bool_decide as Hfp; [done|]. destruct (Hp g Hg) as (y & Hy & ? & ?). exists y.
    rewrite lookup_delete_ne by congruence. done.
  - intros Hsn Hjn Hfn. case_bool_decide as Hfs.
    + destruct Hf as [?|?]; congruence.
    + specialize (Hwk Hsn Hjn Hfn). unfold t'. rewrite Hwk. by case_match.
Qed.

(** ** Runs *)

(** What the owner, the flows and the output may do. *)
Inductive event :=
| EvFlowInit (f : loc) | EvFlowFree (f : loc) | EvSend (f : loc) (data len : Z)
| EvOutputDone | EvJob | EvSetBusyHandler (f : loc) | EvPrepareFree.

Definition allowed (m : FairQueue) (e : event) : bool :=
  match e with
  | EvFlowInit f => negb (freeing m) && bool_decide (flows m !! f = None)
  | EvFlowFree f =>
      bool_decide (is_Some (flows m !! f)) && (freeing m || negb (bool_decide (sending_flow m = Some f)))
  | EvSend f d len =>
      negb (freeing m) && negb (bool_decide (sending_flow m = Some f)) &&
      match flows m !! f with Some x => negb (is_queued x) | None => false end &&
      (0 <=? len) && (len <=? output_mtu m)
  | EvOutputDone => negb (freeing m) && bool_decide (is_Some (sending_flow m))
  | EvJob => negb (freeing m) && schedule_job m
  | EvSetBusyHandler f => negb (freeing m) && bool_decide (sending_flow m = Some f)
  | EvPrepareFree => true
  end.

Definition handle (m : FairQueue) (e : event) : outcome (FairQueue * list action) :=
  match e with
  | EvFlowInit f => PacketPassFairQueueFlow_Init m f ≫= fun m => Ok (m, [])
  | EvFlowFree f => PacketPassFairQueueFlow_Free m f ≫= fun m => Ok (m, [])
  | EvSend f d len => input_handler_send m f d len
  | EvOutputDone => output_handler_done m
  | EvJob => schedule_job_handler (upd_job false m)
  | EvSetBusyHandler f => PacketPassFairQueueFlow_SetBusyHandler m f ≫= fun m => Ok (m, [])
  | EvPrepareFree => Ok (PacketPassFairQueue_PrepareFree m, [])
  end.

Lemma handle_inv m e :
  inv m -> allowed m e = true -> exists m' acts, handle m e = Ok (m', acts) /\ inv m'.
Proof.
  intros Hi Ha. destruct e as [f|f|f d len| | |f|]; cbn in Ha; zify_bool; cbn [handle].
  - destruct (init_flow_inv m f Hi) as (m' & -> & ?); [done..|]. cbn. eauto.
  - match goal with H : is_Some _ |- _ => destruct H as [x Hx] end.
    destruct (free_flow_inv m f x Hi Hx) as (m' & -> & ? & _); [|cbn; eauto].
    apply orb_true_iff in H0 as [?|?%negb_true_iff]; zify_bool; auto.
  - destruct (flows m !! f) as [x|] eqn:Hx; [|done]. zify_bool. eapply fair_send_inv; eauto.
  - match goal with H : is_Some _ |- _ => destruct H as [f Hf] end.
    destruct (fair_done_inv m f Hi Hf) as (m' & acts & ? & ? & _); eauto.
  - eapply job_inv; eauto. destruct (sending_flow m) as [f|] eqn:Hf; [|done].
    destruct (inv_sending _ Hi f Hf) as (? & _ & _ & _ & _ & _ & ?). congruence.
  - unfold PacketPassFairQueueFlow_SetBusyHandler. rewrite !bind_ASSERT_true; [|by rewrite H|by apply bool_decide_eq_true_2].
    cbn. eexists _, _. split; [done|]. by apply flows_inv.
  - eexists _, _. split; [done|]. destruct Hi. by split.
Qed.

(** A run over events, each of which must be allowed; the operations started. *)
Fixpoint run (m : FairQueue) (es : list event) : option (outcome (FairQueue * list action)) :=
  match es with
  | [] => Some (Ok (m, []))
  | e :: es =>
      if allowed m e then
        match handle m e with
        | Fault => Some Fault
        | Ok (m, a) =>
            match run m es with
            | Some (Ok (m, acts)) => Some (Ok (m, a ++ acts))
            | r => r
            end
        end
      else None
  end.

Lemma fair_run_inv m es r : inv m -> run m es = Some r -> exists m' acts, r = Ok (m', acts) /\ inv m'.
Proof.
  revert m r. induction es as [|e es IH]; intros m r Hi Hr; cbn in Hr.
  { injection Hr as <-. eauto. }
  destruct (allowed m e) eqn:Ea; [|done]. destruct (handle_inv m e Hi Ea) as (m1 & a & E & Hi1).
  rewrite E in Hr. destruct (run m1 es) as [r1|] eqn:Er; [|done].
  destruct (IH m1 r1 Hi1 Er) as (m' & acts & -> & ?). injection Hr as <-. eauto.
Qed.

(** C10: The fair queue is safe, work conserving and serves the flow that is
    furthest behind. For every sequence of events (flows come and go, submit
    packets, the output finishes, the job runs) in which the parties keep to
    the contract, no assertion of the code fails and no freed flow is touched;
    afterwards the tree holds exactly the waiting flows in the order of their
    times; if a packet is being sent, its flow's time is at most that of every
    waiting flow; and if none is being sent and no job is pending, no flow
    waits. *)
Theorem FairQueue_safe mtu has_cancel use_cancel weight es :
  0 <= mtu <= INT_MAX -> 0 < weight <= INT_MAX -> (use_cancel = true -> has_cancel = true) ->
  exists m0, PacketPassFairQueue_Init mtu has_cancel use_cancel weight = Ok (Some m0) /\
    forall r, run m0 es = Some r ->
    exists m acts, r = Ok (m, acts) /\
      (forall f, f ∈ queued_tree m <-> exists x, flows m !! f = Some x /\ is_queued x = true) /\
      StronglySorted (flow_lt (flows m)) (queued_tree m) /\
      (forall f x g y, sending_flow m = Some f -> flows m !! f = Some x ->
         flows m !! g = Some y -> is_queued y = true -> time x <= time y) /\
      (sending_flow m = None -> schedule_job m = false -> freeing m = false ->
         forall g y, flows m !! g = Some y -> is_queued y = false).
Proof.
  unfold INT_MAX. intros Hm Hw Hc. unfold PacketPassFairQueue_Init, FAIRQUEUE_MAX_TIME, UINT64_MAX.
  rewrite bind_ASSERT_true by lia. rewrite bind_ASSERT_true by (destruct use_cancel; [by rewrite Hc|done]).
  rewrite (proj2 (Z.leb_le mtu _)), (proj2 (Z.leb_le weight _)) by lia. cbn [andb].
  eexists. split; [done|]. intros r Hr.
  match type of Hr with run ?m _ = _ => assert (inv m) as Hi end.
  { split; cbn; unfold UINT64_MAX; try done; try lia.
    - constructor.
    - intros f. rewrite lookup_empty. split; [set_solver|intros [? [=]]].
    - intros f. rewrite lookup_empty. split; [set_solver|intros (? & [=] & _)].
    - constructor. }
  destruct (fair_run_inv _ _ _ Hi Hr) as (m & acts & -> & [_ _ _ _ _ Hq Hs Hsd _ Hwk]).
  exists m, acts. split_and!; [done|done|done| |].
  - intros f x g y Hf Hx Hy Hyq. destruct (Hsd f Hf) as (x' & Hx' & _ & _ & Hmin & _).
    simplify_eq. apply (Hmin g); [|done]. apply Hq. eauto.
  - intros H1 H2 H3 g y Hy. destruct (is_queued y) eqn:E; [|done].
    assert (g ∈ queued_tree m) as Hg by (apply Hq; eauto). rewrite (Hwk H1 H2 H3) in Hg. set_solver.
Qed.

(** Two flows: the second waits while the first sends twice. *)
Definition demo_events : list event :=
  [EvFlowInit 1%positive; EvFlowInit 2%positive; EvSend 1%positive 100 50; EvSend 2%positive 200 10;
   EvOutputDone; EvSend 1%positive 101 5; EvJob].

Lemma FairQueue_safe_witness :
  exists m0, PacketPassFairQueue_Init 100 false false 1 = Ok (Some m0) /\
    exists m, run m0 demo_events =
        Some (Ok (m, [Output_Send 100 50; Input_Done 1%positive; Output_Send 200 10])) /\
      StronglySorted (flow_lt (flows m)) (queued_tree m).
Proof.
  destruct (FairQueue_safe 100 false false 1 demo_events) as (m0 & E & H);
    [vm_compute; split; congruence|vm_compute; split; congruence|discriminate|].
  exists m0. split; [exact E|]. injection E as <-.
  destruct (H _ ltac:(vm_compute; reflexivity)) as (m & acts & E & _ & Hs & _).
  exists m. split; [|exact Hs]. injection E as E1 E2. rewrite <- E1. vm_compute. reflexivity.
Defined.
End PacketPassFairQueue.
