(* ===== verification/SocksClient.v ===== *)
(** * SOCKS5 client (badvpn/socksclient/BSocksClient.c, badvpn/misc/socks_proto.h, bsize.h)

    The client connects to a SOCKS server, negotiates an authentication method,
    sends a CONNECT request and reports when the connection is up. Its state is
    a state machine driven by the completion of sends and receives; a handler
    returns the new state and the operations it starts.

    Not under verification: the reactor and the socket ([BConnector],
    [BConnection]) and the allocator, which are arguments of the model. *)
From Stdlib Require Import ZArith Lia.
From stdpp Require Import base tactics numbers option gmap list.
From S2P Require Import Prelude ByteOrder Addr.
Import ByteOrder.

Module BSize.
(** Sizes with overflow detection (misc/bsize.h). *)
Record bsize_t := mkSize { is_overflow : bool; value : Z }.

Definition bsize_fromsize (v : Z) : bsize_t := mkSize false v.
Definition bsize_fromint (v : Z) : bsize_t := mkSize ((v <? 0) || (SIZE_MAX <? u64 v)) (u64 v).
Definition bsize_overflow : bsize_t := mkSize true 0.
Definition bsize_tosize (s : bsize_t) : option Z := if is_overflow s then None else Some (value s).
Definition bsize_toint (s : bsize_t) : option Z :=
  if is_overflow s || (INT_MAX <? value s) then None else Some (value s).
Definition bsize_add (s1 s2 : bsize_t) : bsize_t :=
  mkSize (is_overflow s1 || is_overflow s2 || (SIZE_MAX - value s1 <? value s2))
    (u64 (value s1 + value s2)).
Definition bsize_max (s1 s2 : bsize_t) : bsize_t :=
  mkSize (is_overflow s1 || is_overflow s2)
    (u64 ((if value s2 <? value s1 then 1 else 0) * value s1 +
          (if value s1 <=? value s2 then 1 else 0) * value s2)).
Definition bsize_mul (s1 s2 : bsize_t) : bsize_t :=
  mkSize (is_overflow s1 || is_overflow s2 ||
          (negb (value s1 =? 0) && (SIZE_MAX / value s1 <? value s2)))
    (u64 (value s1 * value s2)).

(** [s] is the result of an exact computation of [v]: it has the value if that
    fits in a [size_t], and is marked otherwise. *)
Definition exact (s : bsize_t) (v : Z) : Prop :=
  if v <=? SIZE_MAX then s = mkSize false v else is_overflow s = true.

(** Sums, products and maxima of exact sizes are exact: overflow is detected
    exactly when it happens. *)
Lemma bsize_ops_exact s1 s2 a b :
  exact s1 a -> exact s2 b -> 0 <= a -> 0 <= b ->
  exact (bsize_add s1 s2) (a + b) /\
  (0 < a -> 0 < b -> exact (bsize_mul s1 s2) (a * b)) /\ exact (bsize_max s1 s2) (Z.max a b).
Proof.
  unfold exact, SIZE_MAX. intros H1 H2 Ha Hb.
  destruct (a <=? 2 ^ 64 - 1) eqn:E1, (b <=? 2 ^ 64 - 1) eqn:E2; zify_bool; subst; split_and!.
  - destruct (a + b <=? _) eqn:E; zify_bool; unfold bsize_add, SIZE_MAX; cbn;
      [rewrite (proj2 (Z.ltb_ge _ _)), u64_small by lia; done|apply Z.ltb_lt; lia].
  - intros Hpa Hpb. destruct (a * b <=? _) eqn:E; zify_bool; unfold bsize_mul, SIZE_MAX; cbn [is_overflow value orb];
      rewrite (proj2 (Z.eqb_neq a 0)) by lia; cbn [negb andb].
    + rewrite (proj2 (Z.ltb_ge _ _)), u64_small by (try apply Z.div_le_lower_bound; nia). done.
    + apply Z.ltb_lt. apply Z.div_lt_upper_bound; lia.
  - rewrite (proj2 (Z.leb_le (Z.max a b) _)) by lia. unfold bsize_max. cbn. f_equal.
    destruct (b <? a) eqn:E, (a <=? b) eqn:E'; zify_bool; try lia; rewrite u64_small; lia.
  - rewrite (proj2 (Z.leb_gt (a + b) _)) by lia. cbn. by rewrite H2.
  - intros. rewrite (proj2 (Z.leb_gt (a * b) _)) by nia. cbn. by rewrite H2.
  - rewrite (proj2 (Z.leb_gt (Z.max a b) _)) by lia. cbn. by rewrite H2.
  - rewrite (proj2 (Z.leb_gt (a + b) _)) by lia. cbn. by rewrite H1.
  - intros. rewrite (proj2 (Z.leb_gt (a * b) _)) by nia. cbn. by rewrite H1.
  - rewrite (proj2 (Z.leb_gt (Z.max a b) _)) by lia. cbn. by rewrite H1.
  - rewrite (proj2 (Z.leb_gt (a + b) _)) by lia. cbn. by rewrite H1.
  - intros. rewrite (proj2 (Z.leb_gt (a * b) _)) by nia. cbn. by rewrite H1.
  - rewrite (proj2 (Z.leb_gt (Z.max a b) _)) by lia. cbn. by rewrite H1.
Qed.
End BSize.
Import BSize.

Module BSocksClient.
Import BAddr.

Definition SOCKS_VERSION : Z := 5.
Definition SOCKS_METHOD_NO_AUTHENTICATION_REQUIRED : Z := 0.
Definition SOCKS_METHOD_USERNAME_PASSWORD : Z := 2.
Definition SOCKS_CMD_CONNECT : Z := 1.
Definition SOCKS_ATYP_IPV4 : Z := 1.
Definition SOCKS_ATYP_IPV6 : Z := 4.
Definition SOCKS_REP_SUCCEEDED : Z := 0.
(** Sizes of the packed structures: client hello header and method, server
    hello, request and reply header, addresses. *)
Definition sizeof_hello_header : Z := 2.
Definition sizeof_hello_method : Z := 1.
Definition sizeof_server_hello : Z := 2.
Definition sizeof_request_header : Z := 4.
Definition sizeof_reply_header : Z := 4.
Definition sizeof_addr_ipv4 : Z := 6.
Definition sizeof_addr_ipv6 : Z := 18.

Record auth_info := mkAuth { auth_type : Z; username : list Z; password : list Z }.

Definition BSocksClient_auth_none : auth_info :=
  mkAuth SOCKS_METHOD_NO_AUTHENTICATION_REQUIRED [] [].
Definition BSocksClient_auth_password (username password : list Z) : auth_info :=
  mkAuth SOCKS_METHOD_USERNAME_PASSWORD username password.

Inductive state_t :=
| STATE_CONNECTING | STATE_SENDING_HELLO | STATE_SENT_HELLO | STATE_SENDING_PASSWORD
| STATE_SENT_PASSWORD | STATE_SENDING_REQUEST | STATE_SENT_REQUEST | STATE_RECEIVED_REPLY_HEADER
| STATE_UP.
#[global] Instance state_t_eq : EqDecision state_t.
Proof. solve_decision. Defined.

(** Which asynchronous I/O is set up on the connection, if there is one. *)
Inductive io_t := NO_CONNECTION | NO_IO | CONTROL_IO | UP_IO.
#[global] Instance io_t_eq : EqDecision io_t.
Proof. solve_decision. Defined.

(** [recv_dest] is an offset in [buffer], [None] is [NULL]. *)
Record BSocksClient := mkClient {
  auths : list auth_info; dest_addr : BAddr; state : state_t; buffer : option (list Z);
  io : io_t; recv_dest : Z; recv_len : Z; recv_total : Z
}.

Inductive event := EVENT_ERROR | EVENT_UP | EVENT_ERROR_CLOSED.

Inductive action :=
| Send (data : list Z)      (* PacketPassInterface_Sender_Send(send_if, o->buffer, len): its bytes *)
| Recv (off len : Z)        (* StreamRecvInterface_Receiver_Recv(recv_if, o->buffer + off, len) *)
| Handler (e : event).      (* o->handler(o->user, event) *)

Definition set_state (o : BSocksClient) (s : state_t) : BSocksClient :=
  mkClient (auths o) (dest_addr o) s (buffer o) (io o) (recv_dest o) (recv_len o) (recv_total o).
Definition set_buffer (o : BSocksClient) (b : option (list Z)) : BSocksClient :=
  mkClient (auths o) (dest_addr o) (state o) b (io o) (recv_dest o) (recv_len o) (recv_total o).
Definition set_io (o : BSocksClient) (i : io_t) : BSocksClient :=
  mkClient (auths o) (dest_addr o) (state o) (buffer o) i (recv_dest o) (recv_len o) (recv_total o).
Definition set_recv (o : BSocksClient) (dest len total : Z) : BSocksClient :=
  mkClient (auths o) (dest_addr o) (state o) (buffer o) (io o) dest len total.

Definition report_error (o : BSocksClient) (e : event) : outcome (BSocksClient * list action) :=
  Ok (o, [Handler e]).

Definition init_control_io (o : BSocksClient) : outcome BSocksClient :=
  ASSERT (bool_decide (io o = NO_IO));; Ok (set_io o CONTROL_IO).
Definition free_control_io (o : BSocksClient) : outcome BSocksClient :=
  ASSERT (bool_decide (io o = CONTROL_IO));; Ok (set_io o NO_IO).
Definition init_up_io (o : BSocksClient) : outcome BSocksClient :=
  ASSERT (bool_decide (io o = NO_IO));; Ok (set_io o UP_IO).
Definition free_up_io (o : BSocksClient) : outcome BSocksClient :=
  ASSERT (bool_decide (io o = UP_IO));; Ok (set_io o NO_IO).

Section Client.
(** [BRealloc(ptr, size)]: the new memory, or [None] if it fails. *)
Variable BRealloc : option (list Z) -> Z -> option (list Z).

Definition reserve_buffer (o : BSocksClient) (size : bsize_t) : option BSocksClient :=
  if is_overflow size then None else
  match BRealloc (buffer o) (value size) with
  | None => None
  | Some b => Some (set_buffer o (Some b))
  end.

Definition do_receive (o : BSocksClient) : outcome (BSocksClient * list action) :=
  ASSERT (recv_len o <? recv_total o);;
  Ok (o, [Recv (recv_dest o + recv_len o) (recv_total o - recv_len o)]).

Definition start_receive (o : BSocksClient) (dest total : Z) : outcome (BSocksClient * list action) :=
  ASSERT (0 <? total);;
  do_receive (set_recv o dest 0 total).

(** [memcpy(o->buffer + off, data, len)], and the packet in the buffer. *)
Definition write_buffer (o : BSocksClient) (off : Z) (data : list Z) : outcome BSocksClient :=
  of_option (buffer o) ≫= fun b => mem_write b off data ≫= fun b => Ok (set_buffer o (Some b)).
Definition read_buffer (o : BSocksClient) (off len : Z) : outcome (list Z) :=
  of_option (buffer o) ≫= fun b => mem_read b off len.

(** The loop that writes the methods of the hello. *)
Fixpoint write_methods (o : BSocksClient) (i : Z) (l : list auth_info) : outcome BSocksClient :=
  match l with
  | [] => Ok o
  | a :: l =>
      write_buffer o (sizeof_hello_header + i * sizeof_hello_method) [hton8 (u8 (auth_type a))]
        ≫= fun o => write_methods o (i + 1) l
  end.

(** [BConnection_Init_ok]: whether [BConnection_Init] succeeds. *)
Definition connector_handler (o : BSocksClient) (is_error BConnection_Init_ok : bool)
    : outcome (BSocksClient * list action) :=
  ASSERT (bool_decide (state o = STATE_CONNECTING));;
  if is_error then report_error o EVENT_ERROR else
  if negb BConnection_Init_ok then report_error o EVENT_ERROR else
  let o := set_io o NO_IO in
  init_control_io o ≫= fun o =>
  let fail1 := free_control_io o ≫= fun o => report_error (set_io o NO_CONNECTION) EVENT_ERROR in
  if (Zlen (auths o) =? 0) || (255 <? Zlen (auths o)) then fail1 else
  let size := bsize_add (bsize_fromsize sizeof_hello_header)
                (bsize_mul (bsize_fromsize (Zlen (auths o))) (bsize_fromsize sizeof_hello_method)) in
  match reserve_buffer o size with
  | None => fail1
  | Some o =>
      write_buffer o 0 [hton8 SOCKS_VERSION; hton8 (u8 (Zlen (auths o)))] ≫= fun o =>
      write_methods o 0 (auths o) ≫= fun o =>
      read_buffer o 0 (value size) ≫= fun d =>
      Ok (set_state o STATE_SENDING_HELLO, [Send d])
  end.

Definition connection_handler (o : BSocksClient) (recv_closed : bool) : outcome (BSocksClient * list action) :=
  ASSERT (negb (bool_decide (state o = STATE_CONNECTING)));;
  if bool_decide (state o = STATE_UP) && recv_closed then report_error o EVENT_ERROR_CLOSED
  else report_error o EVENT_ERROR.

Definition auth_finished (o : BSocksClient) : outcome (BSocksClient * list action) :=
  let size := bsize_fromsize sizeof_request_header in
  let size :=
    match dest_addr o with
    | BADDR_IPV4 _ _ => bsize_add size (bsize_fromsize sizeof_addr_ipv4)
    | BADDR_IPV6 _ _ => bsize_add size (bsize_fromsize sizeof_addr_ipv6)
    | _ => size
    end in
  match reserve_buffer o size with
  | None => report_error o EVENT_ERROR
  | Some o =>
      (match dest_addr o with
       | BADDR_IPV4 ip port =>
           write_buffer o sizeof_request_header (le_bytes 4 ip ++ le_bytes 2 port) ≫= fun o =>
           Ok (o, hton8 SOCKS_ATYP_IPV4)
       | BADDR_IPV6 ip port =>
           write_buffer o sizeof_request_header (ip ++ le_bytes 2 port) ≫= fun o =>
           Ok (o, hton8 SOCKS_ATYP_IPV6)
       | _ => Fault
       end) ≫= fun (r : BSocksClient * Z) => let '(o, atyp) := r in
      write_buffer o 0 [hton8 SOCKS_VERSION; hton8 SOCKS_CMD_CONNECT; hton8 0; atyp] ≫= fun o =>
      read_buffer o 0 (value size) ≫= fun d =>
      Ok (set_state o STATE_SENDING_REQUEST, [Send d])
  end.

(** The loop that finds the method the server chose. *)
Fixpoint find_auth (l : list auth_info) (method : Z) : option auth_info :=
  match l with
  | [] => None
  | a :: l => if auth_type a =? method then Some a else find_auth l method
  end.

Definition received_hello (o : BSocksClient) : outcome (BSocksClient * list action) :=
  read_buffer o 0 sizeof_server_hello ≫= fun imsg =>
  let ver := nth 0 imsg 0 in let method := nth 1 imsg 0 in
  if negb (ntoh8 ver =? SOCKS_VERSION) then report_error o EVENT_ERROR else
  match find_auth (auths o) (ntoh8 method) with
  | None => report_error o EVENT_ERROR
  | Some ai =>
      if auth_type ai =? SOCKS_METHOD_NO_AUTHENTICATION_REQUIRED then auth_finished o
      else if auth_type ai =? SOCKS_METHOD_USERNAME_PASSWORD then
        let ulen := Zlen (username ai) in let plen := Zlen (password ai) in
        if (ulen =? 0) || (255 <? ulen) || (plen =? 0) || (255 <? plen) then report_error o EVENT_ERROR else
        let size := bsize_fromsize (1 + 1 + ulen + 1 + plen) in
        match reserve_buffer o size with
        | None => report_error o EVENT_ERROR
        | Some o =>
            write_buffer o 0 [1] ≫= fun o =>
            write_buffer o 1 [u8 ulen] ≫= fun o =>
            write_buffer o 2 (username ai) ≫= fun o =>
            write_buffer o (2 + ulen) [u8 plen] ≫= fun o =>
            write_buffer o (2 + ulen + 1) (password ai) ≫= fun o =>
            read_buffer o 0 (value size) ≫= fun d =>
            Ok (set_state o STATE_SENDING_PASSWORD, [Send d])
        end
      else Fault
  end.

Definition received_reply_header (o : BSocksClient) : outcome (BSocksClient * list action) :=
  read_buffer o 0 sizeof_reply_header ≫= fun imsg =>
  let ver := nth 0 imsg 0 in let rep := nth 1 imsg 0 in let atyp := nth 3 imsg 0 in
  if negb (ntoh8 ver =? SOCKS_VERSION) then report_error o EVENT_ERROR else
  if negb (ntoh8 rep =? SOCKS_REP_SUCCEEDED) then report_error o EVENT_ERROR else
  let go addr_len :=
    start_receive o sizeof_reply_header addr_len ≫= fun (r : BSocksClient * list action) =>
    Ok (set_state r.1 STATE_RECEIVED_REPLY_HEADER, r.2) in
  if ntoh8 atyp =? SOCKS_ATYP_IPV4 then go sizeof_addr_ipv4
  else if ntoh8 atyp =? SOCKS_ATYP_IPV6 then go sizeof_addr_ipv6
  else report_error o EVENT_ERROR.

Definition received_password_reply (o : BSocksClient) : outcome (BSocksClient * list action) :=
  read_buffer o 0 1 ≫= fun b0 =>
  if negb (nth 0 b0 0 =? 1) then report_error o EVENT_ERROR else
  read_buffer o 1 1 ≫= fun b1 =>
  if negb (nth 0 b1 0 =? 0) then report_error o EVENT_ERROR else
  auth_finished o.

Definition received_reply_rest (o : BSocksClient) : outcome (BSocksClient * list action) :=
  let o := set_buffer o None in
  free_control_io o ≫= fun o => init_up_io o ≫= fun o =>
  Ok (set_state o STATE_UP, [Handler EVENT_UP]).

(** The switch on the state after everything asked for was received. *)
Definition received (o : BSocksClient) : outcome (BSocksClient * list action) :=
  match state o with
  | STATE_SENT_HELLO => received_hello o
  | STATE_SENT_REQUEST => received_reply_header o
  | STATE_SENT_PASSWORD => received_password_reply o
  | STATE_RECEIVED_REPLY_HEADER => received_reply_rest o
  | _ => Fault
  end.

Definition recv_handler_done (o : BSocksClient) (data_len : Z) : outcome (BSocksClient * list action) :=
  ASSERT (0 <=? data_len);;
  ASSERT (data_len <=? recv_total o - recv_len o);;
  let o := set_recv o (recv_dest o) (recv_len o + data_len) (recv_total o) in
  if recv_len o <? recv_total o then do_receive o else received o.

Definition send_handler_done (o : BSocksClient) : outcome (BSocksClient * list action) :=
  ASSERT (bool_decide (is_Some (buffer o)));;
  let receive size total s :=
    match reserve_buffer o size with
    | None => report_error o EVENT_ERROR
    | Some o =>
        start_receive o 0 total ≫= fun (r : BSocksClient * list action) => Ok (set_state r.1 s, r.2)
    end in
  match state o with
  | STATE_SENDING_HELLO =>
      receive (bsize_fromsize sizeof_server_hello) sizeof_server_hello STATE_SENT_HELLO
  | STATE_SENDING_REQUEST =>
      receive (bsize_add (bsize_fromsize sizeof_reply_header)
                 (bsize_max (bsize_fromsize sizeof_addr_ipv4) (bsize_fromsize sizeof_addr_ipv6)))
        sizeof_reply_header STATE_SENT_REQUEST
  | STATE_SENDING_PASSWORD => receive (bsize_fromsize 2) 2 STATE_SENT_PASSWORD
  | _ => Fault
  end.

(** [BConnector_Init_ok]: whether [BConnector_Init] succeeds; [None] is the
    return value 0. *)
Definition BSocksClient_Init (auth : list auth_info) (dest : BAddr) (BConnector_Init_ok : bool)
    : outcome (option BSocksClient) :=
  ASSERT ((type dest =? 1) || (type dest =? 2));;
  ASSERT (forallb (fun a => (auth_type a =? SOCKS_METHOD_NO_AUTHENTICATION_REQUIRED) ||
                            (auth_type a =? SOCKS_METHOD_USERNAME_PASSWORD)) auth);;
  if BConnector_Init_ok
  then Ok (Some (mkClient auth dest STATE_CONNECTING None NO_CONNECTION 0 0 0))
  else Ok None.

(** The I/O left set up after the object is freed must be [NO_CONNECTION]. *)
Definition BSocksClient_Free (o : BSocksClient) : outcome io_t :=
  if bool_decide (state o = STATE_CONNECTING) then Ok (io o) else
  (if bool_decide (state o = STATE_UP) then free_up_io o else free_control_io o) ≫= fun o =>
  ASSERT (bool_decide (io o = NO_IO));; Ok NO_CONNECTION.

(** ** The client against a server *)

(** The client with a connection that sends what it is given and delivers
    [stream], at each request a positive number of bytes up to the length asked
    for, as [sizes] says. Ends when the client calls its handler, or when it
    waits for more than [stream]. The result has the messages sent, the event
    and the bytes of the stream that were not read. *)
Fixpoint drive (fuel : nat) (sizes : nat -> Z) (o : BSocksClient) (acts : list action)
    (stream : list Z) (sent : list (list Z))
    : outcome (BSocksClient * list (list Z) * option event * list Z) :=
  match fuel with
  | O => Fault
  | S fuel =>
      match acts with
      | [Send d] =>
          send_handler_done o ≫= fun (r : BSocksClient * list action) =>
          drive fuel sizes r.1 r.2 stream (sent ++ [d])
      | [Recv off len] =>
          if Zlen stream =? 0 then Ok (o, sent, None, []) else
          let k := Z.max 1 (Z.min (sizes fuel) (Z.min len (Zlen stream))) in
          write_buffer o off (take (Z.to_nat k) stream) ≫= fun o =>
          recv_handler_done o k ≫= fun (r : BSocksClient * list action) =>
          drive fuel sizes r.1 r.2 (drop (Z.to_nat k) stream) sent
      | [Handler e] => Ok (o, sent, Some e, stream)
      | _ => Fault
      end
  end.

(** ** The protocol (RFC 1928, RFC 1929) *)
Definition hello_msg (auth : list auth_info) : list Z :=
  SOCKS_VERSION :: Zlen auth :: (auth_type <$> auth).
Definition password_msg (ai : auth_info) : list Z :=
  [1; Zlen (username ai)] ++ username ai ++ [Zlen (password ai)] ++ password ai.
Definition request_msg (dest : BAddr) : list Z :=
  match dest with
  | BADDR_IPV4 ip port => [SOCKS_VERSION; SOCKS_CMD_CONNECT; 0; SOCKS_ATYP_IPV4] ++ le_bytes 4 ip ++ le_bytes 2 port
  | BADDR_IPV6 ip port => [SOCKS_VERSION; SOCKS_CMD_CONNECT; 0; SOCKS_ATYP_IPV6] ++ ip ++ le_bytes 2 port
  | _ => []
  end.

(** The server's bytes end before the client knows; it gives up; the
    connection is up and the rest of the bytes belongs to it. *)
Inductive result := Waiting | Failed | Up (rest : list Z).

Definition reply_result (s : list Z) : result :=
  match s with
  | ver :: rep :: _ :: atyp :: s' =>
      if negb ((ver =? SOCKS_VERSION) && (rep =? SOCKS_REP_SUCCEEDED)) then Failed else
      if atyp =? SOCKS_ATYP_IPV4 then if Zlen s' <? 6 then Waiting else Up (drop 6 s')
      else if atyp =? SOCKS_ATYP_IPV6 then if Zlen s' <? 18 then Waiting else Up (drop 18 s')
      else Failed
  | _ => Waiting
  end.

Definition password_ok (ai : auth_info) : bool :=
  (0 <? Zlen (username ai)) && (Zlen (username ai) <=? 255) &&
  (0 <? Zlen (password ai)) && (Zlen (password ai) <=? 255).

(** What the client sends to a server that answers [s], and the result. *)
Definition socks_spec (auth : list auth_info) (dest : BAddr) (s : list Z) : list (list Z) * result :=
  let hello := hello_msg auth in
  let request := request_msg dest in
  match s with
  | ver :: method :: s =>
      if negb (ver =? SOCKS_VERSION) then ([hello], Failed) else
      match find_auth auth method with
      | None => ([hello], Failed)
      | Some ai =>
          if auth_type ai =? SOCKS_METHOD_NO_AUTHENTICATION_REQUIRED
          then ([hello; request], reply_result s)
          else if password_ok ai then
            match s with
            | pver :: status :: s =>
                if (pver =? 1) && (status =? 0)
                then ([hello; password_msg ai; request], reply_result s)
                else ([hello; password_msg ai], Failed)
            | _ => ([hello; password_msg ai], Waiting)
            end
          else ([hello], Failed)
      end
  | _ => ([hello], Waiting)
  end.

(** The outcome of the driver that corresponds to a result. *)
Definition delivers (m : outcome (BSocksClient * list (list Z) * option event * list Z))
    (x : list (list Z) * result) : Prop :=
  exists o ev rest, m = Ok (o, x.1, ev, rest) /\
    (io o = CONTROL_IO /\ state o <> STATE_CONNECTING /\ state o <> STATE_UP \/ io o = UP_IO /\ state o = STATE_UP) /\
    match x.2 with
    | Waiting => ev = None /\ state o <> STATE_UP
    | Failed => ev = Some EVENT_ERROR /\ state o <> STATE_UP
    | Up r => ev = Some EVENT_UP /\ state o = STATE_UP /\ rest = r
    end.

(** ** The buffer *)

(** The buffer has [n] bytes, starting with [l]. *)
Definition holds (o : BSocksClient) (l : list Z) (n : Z) : Prop :=
  exists b, buffer o = Some (splice b 0 l) /\ Zlen b = n /\ Zlen l <= n.

Lemma write_holds o l l' n :
  holds o l n -> Zlen l + Zlen l' <= n ->
  exists b, write_buffer o (Zlen l) l' = Ok (set_buffer o b) /\ holds (set_buffer o b) (l ++ l') n.
Proof.
  intros (b & Hb & Hn & Hl) Hf. unfold write_buffer. rewrite Hb. cbn [of_option mbind outcome_bind].
  assert (mem_write (splice b 0 l) (Zlen l) l' = Ok (splice b 0 (l ++ l'))) as ->.
  { apply mem_write_Ok. rewrite length_splice by lia. split; [lia|].
    rewrite <- (splice_app b 0 l l') by lia. by rewrite Z.add_0_l. }
  cbn. eexists. split; [done|]. exists b. split_and!; [done|done|]. rewrite length_app. lia.
Qed.

Lemma read_holds o l n : holds o l n -> read_buffer o 0 (Zlen l) = Ok l.
Proof.
  intros (b & Hb & Hn & Hl). unfold read_buffer. rewrite Hb. cbn. apply mem_read_Ok.
  rewrite length_splice by lia. split; [lia|]. symmetry. apply (slice_splice_same b 0 l); lia.
Qed.

Lemma reserve_holds o v :
  (forall b n, 0 <= n -> exists b', BRealloc b n = Some b' /\ Zlen b' = n) -> 0 <= v ->
  exists b, reserve_buffer o (bsize_fromsize v) = Some (set_buffer o (Some b)) /\ Zlen b = v /\
    holds (set_buffer o (Some b)) [] v.
Proof.
  intros Hr Hv. unfold reserve_buffer, bsize_fromsize. cbn.
  destruct (Hr (buffer o) v Hv) as (b & -> & Hb). exists b. split_and!; [done|done|].
  exists b. cbn. rewrite splice_nil. split_and!; (done || lia).
Qed.

(** Receiving in pieces: either the stream ends before everything asked for has
    arrived, or the bytes asked for are in the buffer and the state machine
    goes on with the rest of the stream. *)
Lemma drive_recv fuel sizes o b stream sent :
  buffer o = Some b -> 0 <= recv_dest o -> 0 <= recv_len o < recv_total o ->
  recv_dest o + recv_total o <= Zlen b -> recv_total o - recv_len o < Z.of_nat fuel ->
  let need := recv_total o - recv_len o in
  let m := drive fuel sizes o [Recv (recv_dest o + recv_len o) need] stream sent in
  (Zlen stream < need -> exists o', m = Ok (o', sent, None, []) /\ state o' = state o /\ io o' = io o) /\
  (need <= Zlen stream -> exists fuel',
     Z.of_nat fuel - need <= Z.of_nat fuel' /\
     m = (received (set_recv (set_buffer o (Some (splice b (recv_dest o + recv_len o)
            (take (Z.to_nat need) stream)))) (recv_dest o) (recv_total o) (recv_total o))
          ≫= fun (r : BSocksClient * list action) => drive fuel' sizes r.1 r.2 (drop (Z.to_nat need) stream) sent)).
Proof.
  revert o b stream. induction fuel as [|fuel IH]; intros o b stream Hb Hd Hl Ht Hf; [lia|].
  cbn [drive]. destruct (Zlen stream =? 0) eqn:E0; zify_bool.
  { split; [eauto|]. lia. }
  set (need := recv_total o - recv_len o) in *.
  set (k := Z.max 1 (Z.min (sizes fuel) (Z.min need (Zlen stream)))).
  assert (1 <= k <= need /\ k <= Zlen stream) as [Hk Hks] by lia.
  set (chunk := take (Z.to_nat k) stream).
  assert (Zlen chunk = k) as Hc by (unfold chunk; rewrite length_take; lia).
  unfold write_buffer. rewrite Hb. cbn [of_option mbind outcome_bind].
  assert (mem_write b (recv_dest o + recv_len o) chunk = Ok (splice b (recv_dest o + recv_len o) chunk)) as ->
    by (apply mem_write_Ok; split; [lia|done]).
  cbn [mbind outcome_bind]. unfold recv_handler_done. cbn [set_buffer recv_total recv_len recv_dest set_recv].
  rewrite !bind_ASSERT_true by lia.
  set (b1 := splice b (recv_dest o + recv_len o) chunk).
  assert (Zlen b1 = Zlen b) as Hb1 by (unfold b1; rewrite length_splice; lia).
  destruct (recv_len o + k <? recv_total o) eqn:Elt; zify_bool.
  - unfold do_receive. cbn [set_recv recv_total recv_len recv_dest set_buffer].
    rewrite bind_ASSERT_true by lia. cbn [mbind outcome_bind fst snd].
    set (o1 := set_recv (set_buffer o (Some b1)) (recv_dest o) (recv_len o + k) (recv_total o)).
    destruct (IH o1 b1 (drop (Z.to_nat k) stream)) as [IH1 IH2]; [done|cbn; lia..|].
    cbn [o1 recv_dest recv_len recv_total set_recv set_buffer state io] in IH1, IH2. rewrite length_drop in IH1, IH2. split.
    + intros Hs. destruct IH1 as (o' & -> & ? & ?); [lia|eauto].
    + intros Hs. destruct IH2 as (fuel' & Hf' & ->); [lia|]. exists fuel'. split; [lia|].
      replace (recv_dest o + (recv_len o + k)) with (recv_dest o + recv_len o + Zlen chunk) by lia.
      unfold b1. rewrite splice_app by (rewrite ?length_take, ?length_drop; lia).
      replace (drop (Z.to_nat (recv_total o - (recv_len o + k))) (drop (Z.to_nat k) stream))
        with (drop (Z.to_nat need) stream) by (rewrite drop_drop; f_equal; lia).
      replace (chunk ++ take (Z.to_nat (recv_total o - (recv_len o + k))) (drop (Z.to_nat k) stream))
        with (take (Z.to_nat need) stream); [done|].
      unfold chunk. rewrite take_take_drop. f_equal. lia.
  - assert (k = need) as Hkn by lia. split; [lia|]. intros _. exists fuel. split; [lia|].
    replace (recv_len o + k) with (recv_total o) by lia.
    unfold b1, chunk. rewrite Hkn. done.
Qed.

(** The same from the start of a receive at the beginning of a new buffer. *)
Lemma drive_recv_new fuel sizes o b total stream sent :
  buffer o = Some b -> recv_dest o = 0 -> recv_len o = 0 -> recv_total o = total -> 0 < total <= Zlen b ->
  total < Z.of_nat fuel ->
  let m := drive fuel sizes o [Recv 0 total] stream sent in
  (Zlen stream < total -> exists o', m = Ok (o', sent, None, []) /\ state o' = state o /\ io o' = io o) /\
  (total <= Zlen stream -> exists fuel' o1,
     Z.of_nat fuel - total <= Z.of_nat fuel' /\
     m = (received o1 ≫= fun (r : BSocksClient * list action) =>
            drive fuel' sizes r.1 r.2 (drop (Z.to_nat total) stream) sent) /\
     holds o1 (take (Z.to_nat total) stream) (Zlen b) /\
     o1 = set_recv (set_buffer o (buffer o1)) 0 total total).
Proof.
  intros Hb Hd Hl Ht Htot Hf m.
  destruct (drive_recv fuel sizes o b stream sent) as [H1 H2]; [done|lia..|].
  rewrite Hd, Hl, Ht, Z.sub_0_r, Z.add_0_l in H1, H2. split; [exact H1|].
  intros Hs. destruct (H2 Hs) as (fuel' & Hf' & E). eexists fuel', _. split; [done|]. split; [exact E|].
  split; [|done]. exists b. cbn. split_and!; [done|done|]. rewrite length_take. lia.
Qed.

(** ** The stages of the protocol, from the last one *)
Hypothesis BRealloc_ok : forall b n, 0 <= n -> exists b', BRealloc b n = Some b' /\ Zlen b' = n.

Ltac fails := eexists _, _, _; split; [reflexivity|]; cbn; split; [left|]; split_and!; (done || congruence).

Lemma reply_rest_stage fuel sizes o b n s sent :
  state o = STATE_RECEIVED_REPLY_HEADER -> io o = CONTROL_IO -> buffer o = Some b -> Zlen b = 22 ->
  recv_dest o = 4 -> recv_len o = 0 -> recv_total o = n -> n = 6 \/ n = 18 -> 19 < Z.of_nat fuel ->
  delivers (drive fuel sizes o [Recv 4 n] s sent)
    (sent, if Zlen s <? n then Waiting else Up (drop (Z.to_nat n) s)).
Proof.
  intros Hs Hi Hb Hl Hd Hr Ht Hn Hf.
  destruct (drive_recv fuel sizes o b s sent) as [H1 H2]; [done|lia..|].
  rewrite Hd, Hr, Ht, Z.sub_0_r, Z.add_0_r in H1, H2.
  destruct (Zlen s <? n) eqn:E; zify_bool.
  - destruct (H1 E) as (o' & -> & Es & Ei). rewrite Hs in Es. rewrite Hi in Ei. fails.
  - destruct (H2 E) as (fuel' & Hf' & ->). unfold received. cbn [set_recv set_buffer state]. rewrite Hs.
    unfold received_reply_rest, free_control_io, init_up_io. cbn [set_recv set_buffer io]. rewrite Hi.
    cbn. destruct fuel' as [|fuel']; [lia|]. cbn. eexists _, _, _. split; [reflexivity|]. cbn.
    split; [by right|done].
Qed.

Lemma reply_stage fuel sizes o d s sent :
  state o = STATE_SENDING_REQUEST -> io o = CONTROL_IO -> is_Some (buffer o) -> 25 < Z.of_nat fuel ->
  delivers (drive fuel sizes o [Send d] s sent) (sent ++ [d], reply_result s).
Proof.
  intros Hs Hi Hb Hf. destruct fuel as [|fuel]; [lia|]. cbn [drive]. unfold send_handler_done.
  rewrite bind_ASSERT_true by (by apply bool_decide_eq_true_2). rewrite Hs.
  change (bsize_add _ _) with (bsize_fromsize 22).
  destruct (reserve_holds o 22 BRealloc_ok) as (b & -> & Hlb & _); [lia|].
  unfold start_receive, do_receive. cbn [set_recv set_buffer recv_len recv_total recv_dest].
  cbn [ASSERT mbind outcome_bind fst snd Z.ltb Z.compare sizeof_reply_header].
  change (0 <? sizeof_reply_header) with true. cbn [ASSERT mbind outcome_bind fst snd].
  change (0 + 0) with 0. change (sizeof_reply_header - 0) with 4.
  set (o1 := set_state _ _).
  destruct (drive_recv_new fuel sizes o1 b 4 s (sent ++ [d])) as [H1 H2]; [done|done|done|done|lia|lia|].
  destruct s as [|v [|rp [|x [|a s]]]]; try (destruct H1 as (o' & -> & Es & Ei); [cbn; lia|];
    cbn in Es, Ei; rewrite Hi in Ei; fails).
  destruct H2 as (fuel' & o2 & Hf' & -> & Hh & Eo); [cbn; lia|]. clear H1.
  cbn [take drop Z.to_nat Pos.to_nat Pos.iter_op Nat.add] in Hh |- *.
  change (Z.to_nat 4) with 4%nat in *. cbn [take drop] in Hh |- *. rewrite take_0 in Hh. rewrite drop_0.
  unfold received. assert (state o2 = STATE_SENT_REQUEST) as -> by (by rewrite Eo).
  assert (io o2 = CONTROL_IO) as Hi2 by (rewrite Eo; exact Hi).
  assert (state o2 = STATE_SENT_REQUEST) as Hs2 by (by rewrite Eo).
  unfold received_reply_header. pose proof (read_holds _ _ _ Hh) as Hrd.
  change (Zlen [v; rp; x; a]) with sizeof_reply_header in Hrd. rewrite Hrd. cbn [mbind outcome_bind nth]. unfold ntoh8, hton8, reply_result.
  destruct fuel' as [|fuel']; [lia|].
  destruct (v =? SOCKS_VERSION); cbn [negb andb]; [|cbn; fails].
  destruct (rp =? SOCKS_REP_SUCCEEDED); cbn [negb andb]; [|cbn; fails].
  destruct Hh as (bb & Hbb & Hlbb & _).
  assert (Zlen (splice bb 0 [v; rp; x; a]) = 22) as H22 by (rewrite length_splice; cbn [length]; lia).
  destruct (a =? SOCKS_ATYP_IPV4) eqn:E4; [|destruct (a =? SOCKS_ATYP_IPV6) eqn:E6; [|cbn; fails]];
    unfold start_receive, do_receive; cbn [set_recv recv_len recv_total recv_dest mbind outcome_bind fst snd ASSERT].
  - change (0 <? sizeof_addr_ipv4) with true. cbn [ASSERT mbind outcome_bind fst snd].
    change (4 + 0) with 4. change (sizeof_addr_ipv4 - 0) with 6.
    apply (reply_rest_stage _ _ _ (splice bb 0 [v; rp; x; a]) 6); (done || lia || auto).
  - change (0 <? sizeof_addr_ipv6) with true. cbn [ASSERT mbind outcome_bind fst snd].
    change (4 + 0) with 4. change (sizeof_addr_ipv6 - 0) with 18.
    apply (reply_rest_stage _ _ _ (splice bb 0 [v; rp; x; a]) 18); (done || lia || auto).
Qed.

Definition dest_ok (dest : BAddr) : Prop :=
  match dest with BADDR_IPV4 _ _ => True | BADDR_IPV6 ip _ => Zlen ip = 16 | _ => False end.

(** A request whose address is written before its header. *)
Lemma write_request o addr atyp :
  (exists b, buffer o = Some b /\ Zlen b = 4 + Zlen addr) ->
  exists b, (write_buffer o sizeof_request_header addr ≫= fun o =>
     write_buffer o 0 [5; 1; 0; atyp] ≫= fun o =>
     read_buffer o 0 (4 + Zlen addr) ≫= fun d => Ok (set_state o STATE_SENDING_REQUEST, [Send d])) =
    Ok (set_state (set_buffer o (Some b)) STATE_SENDING_REQUEST, [Send ([5; 1; 0; atyp] ++ addr)]).
Proof.
  intros (b & Hb & Hl). unfold sizeof_request_header.
  assert (write_buffer o 4 addr = Ok (set_buffer o (Some (splice b 4 addr)))) as ->.
  { unfold write_buffer. rewrite Hb. cbn [of_option mbind outcome_bind].
    assert (mem_write b 4 addr = Ok (splice b 4 addr)) as -> by (apply mem_write_Ok; split; [lia|done]). done. }
  cbn [mbind outcome_bind]. unfold write_buffer. cbn [set_buffer buffer of_option mbind outcome_bind].
  assert (mem_write (splice b 4 addr) 0 [5; 1; 0; atyp] = Ok (splice b 0 ([5; 1; 0; atyp] ++ addr))) as ->.
  { apply mem_write_Ok. rewrite length_splice by lia. cbn [length]. split; [lia|].
    by rewrite <- (splice_app_front b 0 [5; 1; 0; atyp] addr) by (cbn [length]; lia). }
  cbn [mbind outcome_bind]. unfold read_buffer. cbn [set_buffer buffer of_option mbind outcome_bind].
  assert (mem_read (splice b 0 ([5; 1; 0; atyp] ++ addr)) 0 (4 + Zlen addr) = Ok ([5; 1; 0; atyp] ++ addr)) as ->.
  { apply mem_read_Ok. rewrite length_splice by (rewrite ?length_app; cbn [length]; lia). split; [lia|].
    replace (4 + Zlen addr) with (Zlen ([5; 1; 0; atyp] ++ addr)) by (rewrite length_app; cbn [length]; lia).
    symmetry. apply slice_splice_same; rewrite ?length_app; cbn [length]; lia. }
  cbn [mbind outcome_bind]. eexists. done.
Qed.

Lemma request_stage fuel sizes o s sent :
  dest_ok (dest_addr o) -> io o = CONTROL_IO -> 25 < Z.of_nat fuel ->
  delivers (auth_finished o ≫= fun (r : BSocksClient * list action) => drive fuel sizes r.1 r.2 s sent)
    (sent ++ [request_msg (dest_addr o)], reply_result s).
Proof.
  intros Hd Hi Hf. unfold auth_finished. destruct (dest_addr o) as [|ip port|ip port|] eqn:Ed; [done| | |done].
  - change (bsize_add _ _) with (bsize_fromsize 10).
    destruct (reserve_holds o 10 BRealloc_ok) as (b & -> & Hlb & _); [lia|].
    cbn [set_buffer dest_addr]. rewrite Ed.
    destruct (write_request (set_buffer o (Some b)) (le_bytes 4 ip ++ le_bytes 2 port) SOCKS_ATYP_IPV4) as (b' & E).
    { exists b. split; [done|]. rewrite length_app, !length_le_bytes. lia. }
    apply bind_Ok in E as (o1 & E1 & E2). change (mkClient _ _ _ _ _ _ _ _) with (set_buffer o (Some b)).
    rewrite E1. cbn [mbind outcome_bind]. unfold hton8, SOCKS_VERSION, SOCKS_CMD_CONNECT.
    rewrite length_app, !length_le_bytes in E2. change (4 + Z.of_nat (4 + 2)) with (value (bsize_fromsize 10)) in E2.
    cbn [value bsize_fromsize] in E2 |- *. rewrite E2.
    cbn [mbind outcome_bind fst snd]. apply reply_stage; cbn; eauto.
  - change (bsize_add _ _) with (bsize_fromsize 22).
    destruct (reserve_holds o 22 BRealloc_ok) as (b & -> & Hlb & _); [lia|].
    cbn [set_buffer dest_addr]. rewrite Ed. cbn in Hd.
    destruct (write_request (set_buffer o (Some b)) (ip ++ le_bytes 2 port) SOCKS_ATYP_IPV6) as (b' & E).
    { exists b. split; [done|]. rewrite length_app, !length_le_bytes. lia. }
    apply bind_Ok in E as (o1 & E1 & E2). change (mkClient _ _ _ _ _ _ _ _) with (set_buffer o (Some b)).
    rewrite E1. cbn [mbind outcome_bind]. unfold hton8, SOCKS_VERSION, SOCKS_CMD_CONNECT.
    replace (4 + Zlen (ip ++ le_bytes 2 port)) with 22 in E2 by (rewrite length_app, length_le_bytes; lia).
    cbn [value bsize_fromsize]. rewrite E2.
    cbn [mbind outcome_bind fst snd]. apply reply_stage; cbn; eauto.
Qed.

Lemma password_stage fuel sizes o d s sent :
  state o = STATE_SENDING_PASSWORD -> dest_ok (dest_addr o) -> io o = CONTROL_IO ->
  is_Some (buffer o) -> 30 < Z.of_nat fuel ->
  delivers (drive fuel sizes o [Send d] s sent)
    match s with
    | pver :: status :: s =>
        if (pver =? 1) && (status =? 0)
        then (sent ++ [d] ++ [request_msg (dest_addr o)], reply_result s)
        else (sent ++ [d], Failed)
    | _ => (sent ++ [d], Waiting)
    end.
Proof.
  intros Hs Hd Hi Hb Hf. destruct fuel as [|fuel]; [lia|]. cbn [drive]. unfold send_handler_done.
  rewrite bind_ASSERT_true by (by apply bool_decide_eq_true_2). rewrite Hs.
  destruct (reserve_holds o 2 BRealloc_ok) as (b & -> & Hlb & _); [lia|].
  unfold start_receive, do_receive. cbn [set_recv set_buffer recv_len recv_total recv_dest].
  change (0 <? 2) with true. cbn [ASSERT mbind outcome_bind fst snd].
  change (0 + 0) with 0. change (2 - 0) with 2. set (o1 := set_state _ _).
  destruct (drive_recv_new fuel sizes o1 b 2 s (sent ++ [d])) as [H1 H2]; [done|done|done|done|lia|lia|].
  destruct s as [|v [|st s]]; try (destruct H1 as (o' & -> & Es & Ei); [cbn; lia|];
    cbn in Es, Ei; rewrite Hi in Ei; fails).
  destruct H2 as (fuel' & o2 & Hf' & -> & Hh & Eo); [cbn; lia|]. clear H1.
  change (Z.to_nat 2) with 2%nat in *. cbn [take drop] in Hh |- *. rewrite take_0 in Hh. rewrite drop_0.
  assert (state o2 = STATE_SENT_PASSWORD) as Hs2 by (by rewrite Eo).
  assert (io o2 = CONTROL_IO) as Hi2 by (rewrite Eo; exact Hi).
  assert (dest_addr o2 = dest_addr o) as Hd2 by (rewrite Eo; done).
  unfold received. rewrite Hs2. unfold received_password_reply.
  pose proof (read_holds _ _ _ Hh) as Hrd. unfold read_buffer in Hrd |- *.
  destruct (buffer o2) as [bb|]; [|done]. cbn [of_option mbind outcome_bind] in Hrd |- *.
  apply mem_read_Ok in Hrd as [Hin Hsl]. change (Zlen [v; st]) with 2 in *.
  assert (mem_read bb 0 1 = Ok [v] /\ mem_read bb 1 1 = Ok [st]) as [-> ->].
  { change 2 with (1 + 1) in Hsl. rewrite (slice_app_split bb 0 1 1) in Hsl by lia.
    change (0 + 1) with 1 in *.
    pose proof (length_slice bb 0 1 ltac:(lia) ltac:(lia) ltac:(lia)) as HL1.
    pose proof (length_slice bb 1 1 ltac:(lia) ltac:(lia) ltac:(lia)) as HL2.
    destruct (slice bb 0 1) as [|y [|? ?]] eqn:E1; cbn in HL1; try lia.
    destruct (slice bb 1 1) as [|z [|? ?]] eqn:E2; cbn in HL2; try lia. injection Hsl as <- <-.
    split; apply mem_read_Ok; (split; [lia|]); congruence. }
  cbn [mbind outcome_bind nth].
  destruct fuel' as [|fuel']; [lia|].
  destruct (v =? 1); cbn [negb andb]; [|cbn; fails].
  destruct (st =? 0); cbn [negb andb]; [|cbn; fails].
  rewrite app_assoc, <- Hd2. apply request_stage; [by rewrite Hd2|done|lia].
Qed.

Definition auth_ok (a : auth_info) : Prop :=
  auth_type a = SOCKS_METHOD_NO_AUTHENTICATION_REQUIRED \/ auth_type a = SOCKS_METHOD_USERNAME_PASSWORD.

Lemma find_auth_ok l method ai : Forall auth_ok l -> find_auth l method = Some ai -> auth_ok ai.
Proof. induction 1; cbn; [done|]. case_match; [by intros [= <-]|done]. Qed.

(** Writing the password packet into a buffer of its size. *)
Lemma write_password o ai :
  password_ok ai = true -> holds o [] (3 + Zlen (username ai) + Zlen (password ai)) ->
  exists b,
    (write_buffer o 0 [1] ≫= fun o =>
     write_buffer o 1 [u8 (Zlen (username ai))] ≫= fun o =>
     write_buffer o 2 (username ai) ≫= fun o =>
     write_buffer o (2 + Zlen (username ai)) [u8 (Zlen (password ai))] ≫= fun o =>
     write_buffer o (2 + Zlen (username ai) + 1) (password ai) ≫= fun o =>
     read_buffer o 0 (1 + 1 + Zlen (username ai) + 1 + Zlen (password ai)) ≫= fun d =>
     Ok (set_state o STATE_SENDING_PASSWORD, [Send d])) =
    Ok (set_state (set_buffer o (Some b)) STATE_SENDING_PASSWORD, [Send (password_msg ai)]).
Proof.
  intros Hp H0. unfold password_ok in Hp. zify_bool.
  rewrite !u8_small by lia. set (ul := Zlen (username ai)) in *. set (pl := Zlen (password ai)) in *.
  destruct (write_holds o [] [1] _ H0) as (b1 & E1 & HW1); [cbn; lia|].
  change (Zlen []) with 0 in E1. rewrite E1. cbn [mbind outcome_bind app] in HW1 |- *.
  destruct (write_holds _ [1] [ul] _ HW1) as (b2 & E2 & HW2); [cbn; lia|].
  change (Zlen [1]) with 1 in E2. rewrite E2. cbn [mbind outcome_bind app] in HW2 |- *.
  destruct (write_holds _ [1; ul] (username ai) _ HW2) as (b3 & E3 & HW3); [cbn; lia|].
  change (Zlen [1; ul]) with 2 in E3. rewrite E3. cbn [mbind outcome_bind] in HW3 |- *.
  assert (Zlen ([1; ul] ++ username ai) = 2 + ul) as L3 by (rewrite length_app; cbn [length]; lia).
  destruct (write_holds _ ([1; ul] ++ username ai) [pl] _ HW3) as (b4 & E4 & HW4); [rewrite L3; cbn; lia|].
  rewrite L3 in E4. rewrite E4. cbn [mbind outcome_bind] in HW4 |- *.
  assert (Zlen (([1; ul] ++ username ai) ++ [pl]) = 2 + ul + 1) as L4 by (rewrite length_app, Nat2Z.inj_add, L3; done).
  destruct (write_holds _ _ (password ai) _ HW4) as (b5 & E5 & HW5); [rewrite L4; lia|].
  rewrite L4 in E5. rewrite E5. cbn [mbind outcome_bind] in HW5 |- *.
  assert (((([1; ul] ++ username ai) ++ [pl]) ++ password ai) = password_msg ai) as Em
    by (unfold password_msg; by rewrite <- !app_assoc).
  assert (Zlen (password_msg ai) = 1 + 1 + ul + 1 + pl) as Lm
    by (rewrite <- Em, length_app, Nat2Z.inj_add, L4; fold pl; lia).
  rewrite Em in HW5. rewrite <- Lm. rewrite (read_holds _ _ _ HW5). cbn [mbind outcome_bind].
  destruct HW5 as (bb & Hbb & _). cbn in Hbb. subst b5. eexists. done.
Qed.

Lemma hello_stage fuel sizes o d s :
  state o = STATE_SENDING_HELLO -> dest_ok (dest_addr o) -> Forall auth_ok (auths o) -> io o = CONTROL_IO ->
  is_Some (buffer o) -> d = hello_msg (auths o) -> 35 < Z.of_nat fuel ->
  delivers (drive fuel sizes o [Send d] s []) (socks_spec (auths o) (dest_addr o) s).
Proof.
  intros Hs Hd Ha Hi Hb -> Hf. destruct fuel as [|fuel]; [lia|]. cbn [drive]. unfold send_handler_done.
  rewrite bind_ASSERT_true by (by apply bool_decide_eq_true_2). rewrite Hs.
  destruct (reserve_holds o 2 BRealloc_ok) as (b & E & Hlb & _); [lia|].
  change sizeof_server_hello with 2. rewrite E.
  unfold start_receive, do_receive. cbn [set_recv set_buffer recv_len recv_total recv_dest].
  change (0 <? 2) with true. cbn [ASSERT mbind outcome_bind fst snd app].
  change (0 + 0) with 0. change (2 - 0) with 2. set (o1 := set_state _ _).
  destruct (drive_recv_new fuel sizes o1 b 2 s [hello_msg (auths o)]) as [H1 H2]; [done|done|done|done|lia|lia|].
  destruct s as [|v [|mt s]]; try (destruct H1 as (o' & -> & Es & Ei); [cbn; lia|];
    cbn in Es, Ei; rewrite Hi in Ei; fails).
  destruct H2 as (fuel' & o2 & Hf' & -> & Hh & Eo); [cbn; lia|]. clear H1.
  change (Z.to_nat 2) with 2%nat in *. cbn [take drop] in Hh |- *. rewrite take_0 in Hh. rewrite drop_0.
  assert (state o2 = STATE_SENT_HELLO) as Hs2 by (by rewrite Eo).
  assert (io o2 = CONTROL_IO) as Hi2 by (rewrite Eo; exact Hi).
  assert (dest_addr o2 = dest_addr o) as Hd2 by (rewrite Eo; done).
  assert (auths o2 = auths o) as Ha2 by (rewrite Eo; done).
  unfold received. rewrite Hs2. unfold received_hello. pose proof (read_holds _ _ _ Hh) as Hrd.
  change (Zlen [v; mt]) with sizeof_server_hello in Hrd. rewrite Hrd. cbn [mbind outcome_bind nth].
  unfold ntoh8, hton8. destruct fuel' as [|fuel']; [lia|]. cbn [socks_spec].
  destruct (v =? SOCKS_VERSION); cbn [negb]; [|cbn; fails].
  rewrite Ha2. destruct (find_auth (auths o) mt) as [ai|] eqn:Ef; [|cbn; fails].
  pose proof (find_auth_ok _ _ _ Ha Ef) as Hai.
  destruct (auth_type ai =? SOCKS_METHOD_NO_AUTHENTICATION_REQUIRED) eqn:Et.
  - rewrite <- Hd2. apply (request_stage _ _ o2 s [hello_msg (auths o)]); [by rewrite Hd2|done|lia].
  - destruct Hai as [Hai|Hai]; [by rewrite Hai in Et|]. rewrite Hai.
    change (SOCKS_METHOD_USERNAME_PASSWORD =? SOCKS_METHOD_USERNAME_PASSWORD) with true. cbv iota.
    assert ((Zlen (username ai) =? 0) || (255 <? Zlen (username ai)) || (Zlen (password ai) =? 0) ||
            (255 <? Zlen (password ai)) = negb (password_ok ai)) as ->.
    { unfold password_ok. apply eq_true_iff_eq. rewrite negb_true_iff, <- not_true_iff_false, !orb_true_iff, !andb_true_iff.
      rewrite !Z.eqb_eq, !Z.ltb_lt, !Z.leb_le. lia. }
    destruct (password_ok ai) eqn:Ep; cbn [negb]; [|cbn; fails].
    destruct (reserve_holds o2 (1 + 1 + Zlen (username ai) + 1 + Zlen (password ai)) BRealloc_ok)
      as (b3 & E3 & _ & Hh3); [lia|].
    rewrite E3. cbn [value bsize_fromsize].
    replace (1 + 1 + Zlen (username ai) + 1 + Zlen (password ai))
      with (3 + Zlen (username ai) + Zlen (password ai)) in Hh3 by lia.
    destruct (write_password _ _ Ep Hh3) as (b4 & E4). rewrite E4. cbn [mbind outcome_bind fst snd].
    pose proof (password_stage (S fuel') sizes (set_state (set_buffer (set_buffer o2 (Some b3)) (Some b4)) STATE_SENDING_PASSWORD)
      (password_msg ai) s [hello_msg (auths o)] eq_refl) as Hps. cbn [dest_addr set_state set_buffer] in Hps.
    rewrite Hd2 in Hps. specialize (Hps Hd Hi2 ltac:(eauto) ltac:(lia)).
    destruct s as [|pv [|st s]]; [exact Hps|exact Hps|]. destruct ((pv =? 1) && (st =? 0)); exact Hps.
Qed.

Lemma write_methods_ok o l0 l n i :
  holds o l0 n -> Zlen l0 = 2 + i -> Zlen l0 + Zlen l <= n -> Forall auth_ok l ->
  exists b, write_methods o i l = Ok (set_buffer o b) /\ holds (set_buffer o b) (l0 ++ (auth_type <$> l)) n.
Proof.
  revert o l0 i. induction l as [|a l IH]; intros o l0 i Hh Hi Hn Ha; cbn [write_methods].
  { exists (buffer o). cbn. rewrite app_nil_r. split; [by destruct o|]. by destruct o. }
  apply Forall_cons in Ha as [Ha1 Ha]. cbn [length] in Hn.
  unfold sizeof_hello_header, sizeof_hello_method. replace (2 + i * 1) with (Zlen l0) by lia.
  unfold hton8. rewrite u8_small by (destruct Ha1 as [-> | ->]; by vm_compute).
  destruct (write_holds o l0 [auth_type a] n Hh) as (b & E & Hh'); [cbn; lia|]. rewrite E. cbn [mbind outcome_bind].
  destruct (IH (set_buffer o b) (l0 ++ [auth_type a]) (i + 1) Hh') as (b' & E' & Hh2).
  { rewrite length_app. cbn [length]. lia. } { rewrite length_app. cbn [length]. lia. } { done. }
  exists b'. rewrite E'. split; [done|]. cbn. by rewrite <- app_assoc in Hh2.
Qed.

Lemma connect_stage auth dest :
  0 < Zlen auth <= 255 -> Forall auth_ok auth ->
  exists b, connector_handler (mkClient auth dest STATE_CONNECTING None NO_CONNECTION 0 0 0) false true =
    Ok (mkClient auth dest STATE_SENDING_HELLO (Some b) CONTROL_IO 0 0 0, [Send (hello_msg auth)]).
Proof.
  intros Hn Ha. unfold connector_handler. cbn [state]. rewrite bool_decide_eq_true_2 by done.
  cbn [ASSERT mbind outcome_bind negb]. unfold init_control_io. cbn [set_io io]. rewrite bool_decide_eq_true_2 by done.
  cbn [ASSERT mbind outcome_bind set_io auths].
  rewrite (proj2 (Z.eqb_neq _ _)), (proj2 (Z.ltb_ge _ _)) by lia. cbn [orb].
  assert (bsize_add (bsize_fromsize sizeof_hello_header)
    (bsize_mul (bsize_fromsize (Zlen auth)) (bsize_fromsize sizeof_hello_method)) = bsize_fromsize (2 + Zlen auth)) as ->.
  { unfold bsize_add, bsize_mul, bsize_fromsize, sizeof_hello_header, sizeof_hello_method, SIZE_MAX.
    cbn [value is_overflow orb]. rewrite Z.mul_1_r, u64_small by lia.
    rewrite (proj2 (Z.ltb_ge (_ / _) 1)) by (apply Z.div_le_lower_bound; lia). rewrite andb_false_r. cbn [orb].
    rewrite (proj2 (Z.ltb_ge _ _)), u64_small by lia. done. }
  set (o := mkClient auth dest STATE_CONNECTING None CONTROL_IO 0 0 0).
  match goal with |- context [reserve_buffer ?x _] => change x with o end.
  destruct (reserve_holds o (2 + Zlen auth) BRealloc_ok) as (b & -> & _ & Hh); [lia|].
  change (auths (set_buffer o (Some b))) with auth. cbn [value bsize_fromsize]. rewrite u8_small by lia.
  destruct (write_holds _ [] [hton8 SOCKS_VERSION; hton8 (Zlen auth)] _ Hh) as (b1 & E1 & H1); [cbn [length]; lia|].
  change (Zlen []) with 0 in E1. rewrite E1. cbn [mbind outcome_bind app] in H1 |- *.
  change (auths (set_buffer (set_buffer o (Some b)) b1)) with auth.
  destruct (write_methods_ok _ _ auth _ 0 H1 eq_refl) as (b2 & E2 & H2); [cbn [length]; lia|done|].
  rewrite E2. cbn [mbind outcome_bind].
  change ([hton8 SOCKS_VERSION; hton8 (Zlen auth)] ++ (auth_type <$> auth)) with (hello_msg auth) in H2.
  assert (Zlen (hello_msg auth) = 2 + Zlen auth) as Lh by (unfold hello_msg; cbn [length]; rewrite length_fmap; lia).
  rewrite <- Lh. rewrite (read_holds _ _ _ H2). cbn [mbind outcome_bind].
  destruct H2 as (bb & Hbb & _). cbn in Hbb. subst b2. eexists. done.
Qed.

(** C2: The client implements SOCKS5 CONNECT (RFC 1928) with username/password
    authentication (RFC 1929). For every list of 1 to 255 authentication
    methods, destination and sequence of bytes the server answers with, cut
    into pieces in any way, the client sends exactly the messages of
    [socks_spec] and in that order; it reports UP exactly if the server accepts
    one of the offered methods (and the password) and answers the request with
    success and an IPv4 or IPv6 address, having read exactly the reply and left
    the following bytes to the application; it reports an error exactly if an
    answer is not acceptable, and otherwise waits. No assertion fails, no access
    leaves the buffer, and the object can then be freed, releasing its
    connection and I/O. (The allocator is assumed to provide the memory.) *)
Theorem BSocksClient_protocol sizes auth dest s :
  0 < Zlen auth <= 255 -> Forall auth_ok auth -> dest_ok dest ->
  exists o, BSocksClient_Init auth dest true = Ok (Some o) /\
  exists o' ev rest,
    (connector_handler o false true ≫= fun (r : BSocksClient * list action) =>
       drive 36 sizes r.1 r.2 s []) = Ok (o', (socks_spec auth dest s).1, ev, rest) /\
    match (socks_spec auth dest s).2 with
    | Waiting => ev = None
    | Failed => ev = Some EVENT_ERROR
    | Up r => ev = Some EVENT_UP /\ state o' = STATE_UP /\ rest = r
    end /\
    BSocksClient_Free o' = Ok NO_CONNECTION.
Proof.
  intros Hn Ha Hd. unfold BSocksClient_Init.
  rewrite bind_ASSERT_true by (by destruct dest). rewrite bind_ASSERT_true.
  2:{ apply forallb_forall. intros a Hin%list_elem_of_In. rewrite Forall_forall in Ha.
      destruct (Ha a Hin) as [-> | ->]; done. }
  eexists. split; [done|]. destruct (connect_stage auth dest Hn Ha) as (b & ->).
  cbn [mbind outcome_bind fst snd].
  destruct (hello_stage 36 sizes (mkClient auth dest STATE_SENDING_HELLO (Some b) CONTROL_IO 0 0 0)
    (hello_msg auth) s) as (o' & ev & rest & E & Hio & Hres); [done|done|done|done|eauto|done|lia|].
  cbn [auths dest_addr] in *. exists o', ev, rest. split; [exact E|]. split.
  - destruct (socks_spec auth dest s).2; [by destruct Hres as [-> _]|by destruct Hres as [-> _]|done].
  - unfold BSocksClient_Free. destruct Hio as [(Hi & H1 & H2)|[Hi Hs]].
    + rewrite (bool_decide_eq_false_2 (state o' = STATE_CONNECTING)) by done.
      rewrite (bool_decide_eq_false_2 (state o' = STATE_UP)) by done.
      unfold free_control_io. rewrite Hi. done.
    + rewrite Hs. cbn. unfold free_up_io. rewrite Hi. done.
Qed.
End Client.

(** A server that asks for the password and then sends data after its reply,
    one byte at a time. *)
Definition demo_realloc (b : option (list Z)) (n : Z) : option (list Z) := Some (replicate (Z.to_nat n) 0).
Definition demo_auths : list auth_info :=
  [BSocksClient_auth_none; BSocksClient_auth_password [117] [112; 119]].
Definition demo_answer : list Z := [5; 2; 1; 0; 5; 0; 0; 1; 127; 0; 0; 1; 4; 210; 104; 105].

Lemma BSocksClient_protocol_witness :
  socks_spec demo_auths (BADDR_IPV4 0x0100007F 80) demo_answer =
    ([[5; 2; 0; 2]; [1; 1; 117; 2; 112; 119]; [5; 1; 0; 1; 127; 0; 0; 1; 80; 0]], Up [104; 105]) /\
  exists o' ev rest,
    (connector_handler demo_realloc (mkClient demo_auths (BADDR_IPV4 0x0100007F 80) STATE_CONNECTING None NO_CONNECTION 0 0 0)
       false true ≫= fun (r : BSocksClient * list action) =>
       drive demo_realloc 36 (fun _ => 1) r.1 r.2 demo_answer []) =
      Ok (o', (socks_spec demo_auths (BADDR_IPV4 0x0100007F 80) demo_answer).1, ev, rest) /\
    BSocksClient_Free o' = Ok NO_CONNECTION.
Proof.
  split; [vm_compute; reflexivity|].
  destruct (BSocksClient_protocol demo_realloc) with (sizes := fun _ : nat => 1) (auth := demo_auths)
    (dest := BADDR_IPV4 0x0100007F 80) (s := demo_answer) as (o & E & o' & ev & rest & H & _ & Hf).
  - intros b n Hn. eexists. split; [reflexivity|]. rewrite length_replicate. lia.
  - vm_compute. split; congruence.
  - apply Forall_cons; split; [by left|]. apply Forall_cons; split; [by right|]. apply Forall_nil_2.
  - exact I.
  - injection E as <-. exists o', ev, rest. exact (conj H Hf).
Defined.
End BSocksClient.
