(* ===== verification/SocksUdpGw.v ===== *)
(** UDP through the SOCKS server as the Android build does it
    (tun2socks/SocksUdpGwClient.c with __ANDROID__, and the message format and
    MTU of protocol/udpgw_proto.h): one datagram socket per local address, kept
    in a search tree and in a list from least to most recently used. The
    sockets and the buffers in front of them appear as the packets handed to
    them. *)
From Stdlib Require Import ZArith Lia.
From stdpp Require Import base tactics numbers option gmap list.
From S2P Require Import Prelude LinkedList Bavl Trees Tables ByteOrder NetProto Addr TunDevice SocksClient.
Import ByteOrder NetProto BAddr.

(** ** protocol/udpgw_proto.h *)
Module UdpGwProto.
Import BSize.

Definition UDPGW_CLIENT_FLAG_KEEPALIVE : Z := 1.
Definition UDPGW_CLIENT_FLAG_REBIND : Z := 2.
Definition UDPGW_CLIENT_FLAG_DNS : Z := 4.
Definition UDPGW_CLIENT_FLAG_IPV6 : Z := 8.

Definition sizeof_socks_udp_header : Z := 4.
Definition sizeof_udpgw_header : Z := 3.
Definition sizeof_udpgw_addr_ipv4 : Z := 6.
Definition sizeof_udpgw_addr_ipv6 : Z := 18.

(** The bytes of the packed structures. *)
Definition addr_ipv4_bytes (ip port : Z) : list Z := le_bytes 4 ip ++ le_bytes 2 port.
Definition addr_ipv6_bytes (ip : list Z) (port : Z) : list Z := take 16 ip ++ le_bytes 2 port.

(** [header_size] is the header of the Android build or that of udpgw. *)
Definition udpgw_compute_mtu (header_size dgram_mtu : Z) : Z :=
  let bs := bsize_add (bsize_fromsize header_size)
              (bsize_add (bsize_max (bsize_fromsize sizeof_udpgw_addr_ipv4) (bsize_fromsize sizeof_udpgw_addr_ipv6))
                 (bsize_fromint dgram_mtu)) in
  match bsize_toint bs with Some s => s | None => -1 end.

(** The address at [off] in a received packet, as both clients parse it: the
    address and the offset and length of what follows, or [None] when it is
    missing. *)
Definition parse_addr (ipv6 : bool) (data : list Z) (off data_len : Z) : outcome (option (BAddr * Z * Z)) :=
  if ipv6 then
    if u64 data_len <? sizeof_udpgw_addr_ipv6 then Ok None else
    mem_read data off sizeof_udpgw_addr_ipv6 ≫= fun a =>
    Ok (Some (BAddr_InitIPv6 (slice a 0 16) (le_val (slice a 16 2)), off + sizeof_udpgw_addr_ipv6,
              data_len - sizeof_udpgw_addr_ipv6))
  else
    if u64 data_len <? sizeof_udpgw_addr_ipv4 then Ok None else
    mem_read data off sizeof_udpgw_addr_ipv4 ≫= fun a =>
    Ok (Some (BAddr_InitIPv4 (le_val (slice a 0 4)) (le_val (slice a 4 2)), off + sizeof_udpgw_addr_ipv4,
              data_len - sizeof_udpgw_addr_ipv4)).

(** The bytes of an address in a packet, and the switch that writes them. *)
Definition addr_bytes (a : BAddr) : list Z :=
  match a with
  | BADDR_IPV4 ip port => addr_ipv4_bytes ip port
  | BADDR_IPV6 ip port => addr_ipv6_bytes ip port
  | _ => []
  end.
Definition write_addr (out : list Z) (pos : Z) (a : BAddr) : outcome (list Z * Z) :=
  match a with
  | BADDR_IPV4 ip port =>
      mem_write out pos (addr_ipv4_bytes ip port) ≫= fun out => Ok (out, pos + sizeof_udpgw_addr_ipv4)
  | BADDR_IPV6 ip port =>
      mem_write out pos (addr_ipv6_bytes ip port) ≫= fun out => Ok (out, pos + sizeof_udpgw_addr_ipv6)
  | _ => Ok (out, pos)
  end.

(** ** Lemmas *)
Lemma compute_mtu_ok header_size m :
  0 <= header_size <= 1024 -> 0 <= m <= INT_MAX ->
  udpgw_compute_mtu header_size m = (if header_size + 18 + m <=? INT_MAX then header_size + 18 + m else -1).
Proof.
  intros Hh Hm. unfold INT_MAX in *. unfold udpgw_compute_mtu, bsize_fromint, bsize_fromsize, bsize_max, bsize_add, bsize_toint.
  cbn [is_overflow value]. unfold sizeof_udpgw_addr_ipv4, sizeof_udpgw_addr_ipv6, SIZE_MAX, INT_MAX.
  change (18 <? 6) with false. change (6 <=? 18) with true. cbn [orb].
  change (u64 ((if false then 1 else 0) * 6 + (if true then 1 else 0) * 18)) with 18.
  change (u64 (0 * 6 + 1 * 18)) with 18.
  rewrite !(u64_small m), !(u64_small (18 + m)), !(u64_small (header_size + (18 + m))) by lia.
  rewrite (proj2 (Z.ltb_ge m 0)), (proj2 (Z.ltb_ge (2 ^ 64 - 1) m)), (proj2 (Z.ltb_ge (2 ^ 64 - 1 - 18) m)),
    (proj2 (Z.ltb_ge (2 ^ 64 - 1 - header_size) (18 + m))) by lia. cbn [orb].
  destruct (Z.ltb_spec (2 ^ 31 - 1) (header_size + (18 + m))), (Z.leb_spec (header_size + 18 + m) (2 ^ 31 - 1)); lia.
Qed.

Lemma length_addr_bytes a : wf a -> Zlen (addr_bytes a) = if type a =? 1 then 6 else 18.
Proof.
  destruct a as [|ip port|ip port|]; cbn [wf type addr_bytes]; try done.
  intros (Hl & _). unfold addr_ipv6_bytes. rewrite length_app, length_take, length_le_bytes, Hl. done.
Qed.

Lemma bytes_addr a : wf a -> bytes (addr_bytes a).
Proof.
  destruct a as [|ip port|ip port|]; cbn [wf addr_bytes]; try done.
  - intros _. apply Forall_app_2; apply le_bytes_bytes.
  - intros (_ & Hb & _). apply Forall_app_2; [by apply Forall_take|apply le_bytes_bytes].
Qed.

Lemma mem_write_fits m off d : 0 <= off -> 
  mem_write m off d = if off + Zlen d <=? Zlen m then Ok (splice m off d) else Fault.
Proof.
  intros H0. unfold mem_write, in_range. destruct (Z.leb_spec 0 off); [|lia].
  destruct (Z.leb_spec 0 (Zlen d)); [|lia]. by destruct (_ <=? _).
Qed.

Lemma write_addr_ok out pos a : wf a -> 0 <= pos ->
  write_addr out pos a =
    if pos + Zlen (addr_bytes a) <=? Zlen out
    then Ok (splice out pos (addr_bytes a), pos + Zlen (addr_bytes a)) else Fault.
Proof.
  intros Hw Hp. pose proof (length_addr_bytes a Hw) as Hl.
  destruct a as [|ip port|ip port|]; try done; cbn [write_addr addr_bytes type] in *; cbn in Hl;
    rewrite mem_write_fits by done; destruct (_ <=? _); cbn [mbind outcome_bind]; try done; by rewrite Hl.
Qed.

(** Parsing an address that was written. *)
Lemma parse_addr_ok a pre rest len :
  wf a -> len = Zlen (addr_bytes a ++ rest) -> len <= INT_MAX ->
  parse_addr (type a =? 2) (pre ++ addr_bytes a ++ rest) (Zlen pre) len =
    Ok (Some (a, Zlen pre + Zlen (addr_bytes a), Zlen rest)).
Proof.
  intros Hw -> Hmax. unfold INT_MAX in Hmax. pose proof (length_addr_bytes a Hw) as Hl. rewrite length_app in *.
  assert (forall n, n = Zlen (addr_bytes a) ->
    mem_read (pre ++ addr_bytes a ++ rest) (Zlen pre) n = Ok (addr_bytes a)) as Hr.
  { intros n ->. apply mem_read_Ok. rewrite !length_app. split; [lia|].
    rewrite TunDevice.slice_app_r0 by done. by rewrite TunDevice.slice_app_l. }
  destruct a as [|ip port|ip port|]; try done; cbn [type] in *; cbn [Z.eqb Pos.eqb] in *; unfold parse_addr;
    unfold sizeof_udpgw_addr_ipv4, sizeof_udpgw_addr_ipv6; rewrite u64_small by lia;
    rewrite (proj2 (Z.ltb_ge _ _)) by lia; rewrite Hr by done; cbn [mbind outcome_bind].
  - assert (BAddr_InitIPv4 (le_val (slice (addr_bytes (BADDR_IPV4 ip port)) 0 4))
      (le_val (slice (addr_bytes (BADDR_IPV4 ip port)) 4 2)) = BADDR_IPV4 ip port) as ->.
    { destruct Hw as [Hip Hport]. cbn [addr_bytes]. unfold addr_ipv4_bytes, BAddr_InitIPv4, BAddr_MakeIPv4.
      rewrite TunDevice.slice_app_l by (by rewrite length_le_bytes).
      rewrite TunDevice.slice_app_r0 by (by rewrite length_le_bytes).
      rewrite TunDevice.slice_all_n by (by rewrite length_le_bytes).
      rewrite !TunDevice.le_val_small by (cbn; lia). done. }
    rewrite Hl. do 3 f_equal. lia.
  - assert (BAddr_InitIPv6 (slice (addr_bytes (BADDR_IPV6 ip port)) 0 16)
      (le_val (slice (addr_bytes (BADDR_IPV6 ip port)) 16 2)) = BADDR_IPV6 ip port) as ->.
    { destruct Hw as (Hip & Hb & Hport). cbn [addr_bytes]. unfold addr_ipv6_bytes, BAddr_InitIPv6, BAddr_MakeIPv6.
      rewrite (take_ge ip 16) by lia.
      rewrite TunDevice.slice_app_l by lia. rewrite TunDevice.slice_app_r0 by lia.
      rewrite TunDevice.slice_all_n by (by rewrite length_le_bytes).
      rewrite TunDevice.le_val_small by (cbn; lia). by rewrite take_ge by lia. }
    rewrite Hl. do 3 f_equal. lia.
Qed.
End UdpGwProto.

Module SocksUdpGw.
Import UdpGwProto.

Definition SOCKS_ATYP_IPV4 : Z := BSocksClient.SOCKS_ATYP_IPV4.
Definition SOCKS_ATYP_IPV6 : Z := BSocksClient.SOCKS_ATYP_IPV6.

(** [SocksUdpGwClient_conaddr] *)
Record conaddr := mkConaddr { local_addr : BAddr; remote_addr : BAddr }.

(** [SocksUdpGwClient_connection]; [first_data] is the data of the first
    packet while [first_job] is set; [to_dnsgw] is the send address of the
    socket: the DNS gateway, or else the SOCKS server. *)
Record connection := mkCon { con_addr : conaddr; first_data : option (list Z); is_dns : bool; to_dnsgw : bool }.

Definition conaddr_comparator (v1 v2 : conaddr) : Z := BAddr_CompareOrder (local_addr v1) (local_addr v2).

#[global] Instance conaddr_Comparator : Comparator conaddr_comparator.
Proof. apply (comparator_preimage BAddr_CompareOrder local_addr). exact _. Qed.

(** ** Packets *)

(** [out] is the memory [BufferWriter_StartPacket] provides, of [udp_mtu]
    bytes, or [None] when there is none; the result is the packet submitted
    with [BufferWriter_EndPacket], or [None] for the return value 1. *)
Definition connection_send (udp_mtu : Z) (o : connection) (out : option (list Z)) (data : list Z)
    : outcome (option (list Z)) :=
  match out with
  | None => Ok None
  | Some out =>
      (if is_dns o then Ok (out, 0) else
         let remote := remote_addr (con_addr o) in
         let atyp := if type remote =? 1 then SOCKS_ATYP_IPV4 else SOCKS_ATYP_IPV6 in
         mem_write out 0 [0; 0; 0; atyp] ≫= fun out =>
         write_addr out sizeof_socks_udp_header remote) ≫= fun '((out, out_pos) : list Z * Z) =>
      mem_write out out_pos data ≫= fun out =>
      let out_pos := out_pos + Zlen data in
      ASSERT ((0 <=? out_pos) && (out_pos <=? udp_mtu));;
      mem_read out 0 out_pos ≫= fun packet => Ok (Some packet)
  end.

(** The connection afterwards and the arguments of [handler_received], if it is
    called. *)
Definition dgram_handler_received (udp_mtu udpgw_mtu : Z) (o : connection) (data : list Z) (data_len : Z)
    : outcome (connection * option (BAddr * BAddr * list Z)) :=
  ASSERT (0 <=? data_len);;
  ASSERT (data_len <=? udpgw_mtu);;
  let submit (o : connection) (off len : Z) :=
    if udp_mtu <? len then Ok (o, None) else
    mem_read data off len ≫= fun payload =>
    Ok (o, Some (local_addr (con_addr o), remote_addr (con_addr o), payload)) in
  if is_dns o then submit o 0 data_len else
  if u64 data_len <? sizeof_socks_udp_header then Ok (o, None) else
  mem_read data 0 sizeof_socks_udp_header ≫= fun header =>
  let frag := byte_at header 2 in
  let atyp := byte_at header 3 in
  let data_len := data_len - sizeof_socks_udp_header in
  if negb (frag =? 0) then Ok (o, None) else
  parse_addr (atyp =? SOCKS_ATYP_IPV6) data sizeof_socks_udp_header data_len ≫= fun r =>
  match r with
  | None => Ok (o, None)
  | Some (remote, off, data_len) =>
      let o := mkCon (mkConaddr (local_addr (con_addr o)) remote) (first_data o) (is_dns o) (to_dnsgw o) in
      submit o off data_len
  end.

(** ** The message format

    The UDP request header of RFC 1928 (reserved, fragment 0, address type,
    address, port), then the data; a DNS packet is the data alone. *)
Definition atyp_of (a : BAddr) : Z := if type a =? 1 then SOCKS_ATYP_IPV4 else SOCKS_ATYP_IPV6.
Definition udp_message (dns : bool) (remote : BAddr) (data : list Z) : list Z :=
  if dns then data else [0; 0; 0; atyp_of remote] ++ addr_bytes remote ++ data.

Lemma length_udp_message dns remote data : wf remote ->
  Zlen (udp_message dns remote data) = Zlen data + if dns then 0 else if type remote =? 1 then 10 else 22.
Proof.
  intros Hw. unfold udp_message. destruct dns; [lia|]. pose proof (length_addr_bytes _ Hw) as Hl.
  rewrite !length_app. cbn [length]. destruct (type remote =? 1); lia.
Qed.

Lemma splice_next buf off off' l1 l2 : off' = off + Zlen l1 -> 0 <= off -> off' + Zlen l2 <= Zlen buf ->
  splice (splice buf off l1) off' l2 = splice buf off (l1 ++ l2).
Proof. intros -> ? ?. by apply splice_app. Qed.
Lemma splice_front buf l : Zlen l <= Zlen buf -> slice (splice buf 0 l) 0 (Zlen l) = l.
Proof. intros. apply slice_splice_same; lia. Qed.

Lemma connection_send_ok udp_mtu o out data :
  wf (remote_addr (con_addr o)) -> Zlen out = udp_mtu ->
  let m := udp_message (is_dns o) (remote_addr (con_addr o)) data in
  connection_send udp_mtu o (Some out) data = if Zlen m <=? udp_mtu then Ok (Some m) else Fault.
Proof.
  intros Hw Hout m. unfold connection_send. set (r := remote_addr (con_addr o)) in *.
  pose proof (length_udp_message (is_dns o) r data Hw) as Hm. pose proof (length_addr_bytes _ Hw) as Hl.
  fold m in Hm. unfold udp_message in m. destruct (is_dns o); cbn [mbind outcome_bind].
  - rewrite mem_write_fits, Z.add_0_l by lia. subst m. rewrite Hout.
    destruct (Zlen data <=? udp_mtu) eqn:E; [|done]. cbn [mbind outcome_bind].
    rewrite bind_ASSERT_true by lia. zify_bool.
    rewrite (proj2 (mem_read_Ok _ 0 (Zlen data) data)); [done|].
    rewrite length_splice by lia. split; [lia|]. by rewrite splice_front by lia.
  - rewrite mem_write_fits by lia. fold (atyp_of r). change (Zlen [0; 0; 0; atyp_of r]) with 4.
    destruct (0 + 4 <=? Zlen out) eqn:E4; zify_bool; cbn [mbind outcome_bind].
    2:{ rewrite (proj2 (Z.leb_gt _ _)); [done|]. destruct (type r =? 1); lia. }
    rewrite write_addr_ok by done. rewrite length_splice by (cbn [length]; lia). unfold sizeof_socks_udp_header.
    destruct (4 + Zlen (addr_bytes r) <=? Zlen out) eqn:Ea; zify_bool; cbn [mbind outcome_bind].
    2:{ rewrite (proj2 (Z.leb_gt _ _)); [done|]. destruct (type r =? 1); lia. }
    rewrite (splice_next out 0 4 [0; 0; 0; atyp_of r]) by (cbn [length]; lia).
    rewrite mem_write_fits by lia. rewrite length_splice by (rewrite ?length_app; cbn [length]; lia).
    replace (4 + Zlen (addr_bytes r) + Zlen data) with (Zlen m) by (subst m; rewrite !length_app; cbn [length]; lia).
    rewrite Hout. destruct (Zlen m <=? udp_mtu) eqn:E; [|done]. zify_bool. cbn [mbind outcome_bind].
    rewrite bind_ASSERT_true by lia.
    rewrite splice_next, <- app_assoc by (rewrite ?length_app; cbn [length]; destruct (type r =? 1); lia). fold m.
    rewrite (proj2 (mem_read_Ok _ 0 (Zlen m) m)); [done|].
    rewrite length_splice by lia. split; [lia|]. by rewrite splice_front by lia.
Qed.

(** C33: a datagram is sent to the relay as the UDP request of RFC 1928, byte for
    byte, exactly when the request fits in the [udp_mtu] bytes of the
    connection's buffer; a datagram that [SocksUdpGwClient_SubmitPacket] admits
    (up to [udp_mtu] bytes of data) but whose request, 10 or 22 bytes longer,
    does not fit is written beyond the buffer. *)
Theorem udp_request_exact udp_mtu o out data :
  wf (remote_addr (con_addr o)) -> Zlen out = udp_mtu -> Zlen data <= udp_mtu ->
  let remote := remote_addr (con_addr o) in
  let overhead := if is_dns o then 0 else if type remote =? 1 then 10 else 22 in
  (Zlen data + overhead <= udp_mtu ->
     connection_send udp_mtu o (Some out) data = Ok (Some (udp_message (is_dns o) remote data))) /\
  (udp_mtu < Zlen data + overhead -> connection_send udp_mtu o (Some out) data = Fault).
Proof.
  intros Hw Hout Hd remote overhead. rewrite connection_send_ok by done. fold remote.
  rewrite length_udp_message by done. fold overhead.
  split; intros H; [by rewrite (proj2 (Z.leb_le _ _)) by lia|by rewrite (proj2 (Z.leb_gt _ _)) by lia].
Qed.

(** ** Receiving *)

(** A relayed packet: two reserved bytes, fragment 0, an address type (every
    type but IPv6 is read as IPv4), address, data. *)
Definition relayed (data : list Z) (remote : BAddr) (payload : list Z) : Prop :=
  exists rsv atyp, length rsv = 2%nat /\ wf remote /\
    type remote = (if atyp =? SOCKS_ATYP_IPV6 then 2 else 1) /\
    data = rsv ++ [0; atyp] ++ addr_bytes remote ++ payload.

Definition set_remote (o : connection) (remote : BAddr) : connection :=
  mkCon (mkConaddr (local_addr (con_addr o)) remote) (first_data o) (is_dns o) (to_dnsgw o).

Lemma relayed_received udp_mtu udpgw_mtu o data remote payload :
  is_dns o = false -> Zlen data <= udpgw_mtu <= INT_MAX -> relayed data remote payload ->
  dgram_handler_received udp_mtu udpgw_mtu o data (Zlen data) =
    Ok (set_remote o remote,
        if udp_mtu <? Zlen payload then None else Some (local_addr (con_addr o), remote, payload)).
Proof.
  intros Hdns Hlen (rsv & atyp & Hr & Hw & Ht & Hd). unfold INT_MAX in Hlen.
  assert (Zlen data = 4 + Zlen (addr_bytes remote) + Zlen payload) as Hl
    by (rewrite Hd, !length_app, Hr; cbn [length]; lia).
  unfold dgram_handler_received, set_remote. do 2 rewrite bind_ASSERT_true by lia. rewrite Hdns.
  unfold sizeof_socks_udp_header. rewrite u64_small by lia. rewrite (proj2 (Z.ltb_ge _ _)) by lia.
  assert (data = (rsv ++ [0; atyp]) ++ addr_bytes remote ++ payload) as Hd' by (by rewrite Hd, <- app_assoc).
  assert (length (rsv ++ [0; atyp]) = 4%nat) as Hl4 by (by rewrite length_app, Hr).
  rewrite (proj2 (mem_read_Ok data 0 4 (rsv ++ [0; atyp]))).
  2:{ split; [lia|]. rewrite Hd'. by rewrite TunDevice.slice_app_l by (by rewrite Hl4). }
  cbn [mbind outcome_bind]. destruct rsv as [|r0 [|r1 [|]]]; try done. cbn [byte_at app nth].
  rewrite Z.eqb_refl. cbn [negb].
  assert ((atyp =? SOCKS_ATYP_IPV6) = (type remote =? 2)) as -> by (by rewrite Ht; destruct (_ =? _)).
  pose proof (parse_addr_ok remote [r0; r1; 0; atyp] payload (Zlen data - 4) Hw) as Hp.
  cbn [app] in Hd'. cbn [app] in Hp. rewrite <- Hd' in Hp. change (Zlen [r0; r1; 0; atyp]) with 4 in Hp.
  rewrite Hp; [|rewrite length_app; lia|unfold INT_MAX; lia]. cbn [mbind outcome_bind].
  destruct (udp_mtu <? Zlen payload) eqn:E; [done|].
  rewrite (proj2 (mem_read_Ok data (4 + Zlen (addr_bytes remote)) (Zlen payload) payload)); [done|].
  split; [lia|]. rewrite Hd'.
  change (r0 :: r1 :: 0 :: atyp :: addr_bytes remote ++ payload)
    with ([r0; r1; 0; atyp] ++ addr_bytes remote ++ payload).
  rewrite app_assoc, TunDevice.slice_app_r0 by (rewrite length_app; cbn [length]; lia).
  by rewrite TunDevice.slice_all_n.
Qed.

(** The address a packet of sufficient length carries. *)
Lemma addr_of_bytes (ipv6 : bool) l : bytes l -> Zlen l = (if ipv6 then 18 else 6) ->
  exists a, wf a /\ type a = (if ipv6 then 2 else 1) /\ addr_bytes a = l.
Proof.
  intros Hb Hl. destruct ipv6.
  - exists (BADDR_IPV6 (take 16 l) (le_val (drop 16 l))).
    assert (length (drop 16 l) = 2%nat) as Hd by (rewrite length_drop; lia).
    pose proof (le_val_range (drop 16 l) (Forall_drop _ 16 _ Hb)) as Hr. rewrite Hd in Hr.
    split_and!; [|done|].
    + split_and!; [rewrite length_take; lia|by apply Forall_take|cbn in Hr; lia..].
    + cbn [addr_bytes]. unfold addr_ipv6_bytes. rewrite take_take. cbn [Nat.min].
      pose proof (le_bytes_le_val _ (Forall_drop _ 16 _ Hb)) as Hv. rewrite Hd in Hv. rewrite Hv. apply take_drop.
  - exists (BADDR_IPV4 (le_val (take 4 l)) (le_val (drop 4 l))).
    assert (length (take 4 l) = 4%nat) as Ht by (rewrite length_take; lia).
    assert (length (drop 4 l) = 2%nat) as Hd by (rewrite length_drop; lia).
    pose proof (le_val_range (drop 4 l) (Forall_drop _ 4 _ Hb)) as Hr. rewrite Hd in Hr.
    pose proof (le_val_range (take 4 l) (Forall_take _ 4 _ Hb)) as Hr'. rewrite Ht in Hr'.
    split_and!; [|done|].
    + cbn in Hr, Hr' |- *. lia.
    + cbn [addr_bytes]. unfold addr_ipv4_bytes.
      pose proof (le_bytes_le_val _ (Forall_drop _ 4 _ Hb)) as Hv. rewrite Hd in Hv. rewrite Hv.
      pose proof (le_bytes_le_val _ (Forall_take _ 4 _ Hb)) as Hv'. rewrite Ht in Hv'. rewrite Hv'. apply take_drop.
Qed.

(** A packet that is not of the relayed form ends before its address does, or
    is a fragment. *)
Definition malformed (data : list Z) : Prop :=
  Zlen data < 4 \/
  exists r0 r1 frag atyp rest, data = [r0; r1; frag; atyp] ++ rest /\
    (frag <> 0 \/ Zlen rest < if atyp =? SOCKS_ATYP_IPV6 then 18 else 6).

Lemma relayed_or data : bytes data ->
  (exists remote payload, relayed data remote payload) \/ malformed data.
Proof.
  intros Hb. destruct data as [|r0 [|r1 [|frag [|atyp rest]]]]; [right; left; cbn; lia..|].
  set (n := if atyp =? SOCKS_ATYP_IPV6 then 18 else 6).
  destruct (decide (frag = 0)) as [->|]; [|right; right; by do 5 eexists; split; [done|left]].
  destruct (decide (Zlen rest < n)) as [|Hn]; [right; right; by do 5 eexists; split; [done|right]|].
  left. do 4 apply Forall_cons in Hb as [_ Hb].
  destruct (addr_of_bytes (atyp =? SOCKS_ATYP_IPV6) (take (Z.to_nat n) rest)) as (a & Hw & Ht & Ha).
  { by apply Forall_take. }
  { rewrite length_take. unfold n in *. destruct (_ =? _); lia. }
  exists a, (drop (Z.to_nat n) rest), [r0; r1], atyp. split_and!; try done. by rewrite Ha, take_drop.
Qed.

Lemma malformed_dropped udp_mtu udpgw_mtu o data :
  is_dns o = false -> Zlen data <= udpgw_mtu <= INT_MAX -> malformed data ->
  dgram_handler_received udp_mtu udpgw_mtu o data (Zlen data) = Ok (o, None).
Proof.
  intros Hdns Hlen Hm. unfold INT_MAX in Hlen. unfold dgram_handler_received.
  do 2 rewrite bind_ASSERT_true by lia. rewrite Hdns. unfold sizeof_socks_udp_header. rewrite u64_small by lia.
  destruct Hm as [Hl|(r0 & r1 & frag & atyp & rest & Hd & Hc)].
  - by rewrite (proj2 (Z.ltb_lt _ _)) by lia.
  - assert (Zlen data = 4 + Zlen rest) as Hl by (rewrite Hd, length_app; cbn [length]; lia).
    rewrite (proj2 (Z.ltb_ge _ _)) by lia.
    rewrite (proj2 (mem_read_Ok data 0 4 [r0; r1; frag; atyp])).
    2:{ split; [lia|]. by rewrite Hd, TunDevice.slice_app_l. }
    cbn [mbind outcome_bind byte_at nth]. destruct (frag =? 0) eqn:E; cbn [negb]; [|done]. zify_bool.
    destruct Hc as [|Hc]; [done|]. unfold parse_addr, sizeof_udpgw_addr_ipv6, sizeof_udpgw_addr_ipv4.
    rewrite u64_small by lia. by destruct (atyp =? SOCKS_ATYP_IPV6); rewrite (proj2 (Z.ltb_lt _ _)) by lia.
Qed.

(** A packet is of the relayed form in at most one way. *)
Definition dummy : connection := mkCon (mkConaddr BADDR_NONE BADDR_NONE) None false false.
Lemma relayed_inj data r1 p1 r2 p2 : Zlen data <= INT_MAX ->
  relayed data r1 p1 -> relayed data r2 p2 -> r1 = r2 /\ p1 = p2.
Proof.
  intros Hl H1 H2. set (m := Zlen p1 + Zlen p2).
  pose proof (relayed_received m (Zlen data) dummy data r1 p1) as E1.
  pose proof (relayed_received m (Zlen data) dummy data r2 p2) as E2.
  rewrite E1 in E2 by done. unfold m in E2. rewrite !(proj2 (Z.ltb_ge _ _)) in E2 by lia.
  specialize (E2 eq_refl ltac:(lia) H2). by simplify_eq.
Qed.
Lemma malformed_not_relayed data r p : Zlen data <= INT_MAX -> malformed data -> ~ relayed data r p.
Proof.
  intros Hl Hm Hr. pose proof (relayed_received (Zlen p) (Zlen data) dummy data r p) as E.
  rewrite malformed_dropped in E by done. rewrite (proj2 (Z.ltb_ge _ _)) in E by lia.
  by specialize (E eq_refl ltac:(lia) Hr).
Qed.

(** whatever the relay sends, receiving it is free of faults, and data is
    delivered exactly when the packet has the form of RFC 1928 with fragment 0
    and at most [udp_mtu] bytes of data: with the local address of the
    connection, the address in the packet, and the data after it. *)
Theorem udp_received_exact udp_mtu udpgw_mtu o data :
  bytes data -> Zlen data <= udpgw_mtu <= INT_MAX ->
  exists o' r, dgram_handler_received udp_mtu udpgw_mtu o data (Zlen data) = Ok (o', r) /\
    o' = set_remote o (remote_addr (con_addr o')) /\
    forall local remote payload,
      r = Some (local, remote, payload) <->
      local = local_addr (con_addr o) /\ remote = remote_addr (con_addr o') /\ Zlen payload <= udp_mtu /\
      if is_dns o then remote = remote_addr (con_addr o) /\ payload = data else relayed data remote payload.
Proof.
  intros Hb Hlen. destruct (is_dns o) eqn:Hdns.
  - unfold dgram_handler_received. do 2 rewrite bind_ASSERT_true by lia. rewrite Hdns.
    exists o, (if udp_mtu <? Zlen data then None else Some (local_addr (con_addr o), remote_addr (con_addr o), data)).
    split_and!; [|by destruct o as [[]]|].
    + destruct (_ <? _); [done|]. rewrite (proj2 (mem_read_Ok data 0 (Zlen data) data)); [done|].
      split; [lia|]. by rewrite TunDevice.slice_all_n.
    + intros l r pl. destruct (Z.ltb_spec udp_mtu (Zlen data)); split.
      * done.
      * intros (_ & _ & ? & _ & ->). lia.
      * intros [= <- <- <-]. done.
      * by intros (-> & -> & _ & _ & ->).
  - destruct (relayed_or data Hb) as [(rem & pl & Hr)|Hm].
    + eexists _, _. rewrite (relayed_received _ _ _ _ rem pl) by done. split_and!; [done|done|]. intros l r pl'.
      destruct (Z.ltb_spec udp_mtu (Zlen pl)); split.
      * done.
      * intros (-> & -> & ? & Hr'). destruct (relayed_inj data rem pl rem pl') as [? ->]; [lia|done..|lia].
      * intros [= <- <- <-]. done.
      * intros (-> & -> & ? & Hr'). by destruct (relayed_inj data rem pl rem pl') as [_ ->]; [lia|..].
    + eexists _, _. rewrite malformed_dropped by done. split_and!; [done|by destruct o as [[]]|].
      intros l r pl. split; [done|]. intros (_ & _ & _ & Hr). by destruct (malformed_not_relayed data r pl); [lia|..].
Qed.

(** ** The table of connections *)
Section Client.
Context {T : Type} `{!Tree conaddr_comparator T}.

Record client := mkClient {
  udp_mtu : Z; udpgw_mtu : Z; max_connections : Z; num_connections : Z;
  connections : gmap loc connection; connections_tree : T; connections_list : list loc;
  next : loc (* the address malloc returns next *);
  jobs : list loc (* the connections whose [first_job] is set in the reactor's group, the last set first *)
}.

Definition set_table (o : client) (n : Z) (m : gmap loc connection) (t : T) (l : list loc) (nx : loc) : client :=
  mkClient (udp_mtu o) (udpgw_mtu o) (max_connections o) n m t l nx (jobs o).
Definition set_jobs (js : list loc) (o : client) : client :=
  mkClient (udp_mtu o) (udpgw_mtu o) (max_connections o) (num_connections o) (connections o) (connections_tree o)
    (connections_list o) (next o) js.

(** The value of a node: the field [conaddr] of its connection. *)
Definition none_addr : conaddr := mkConaddr BADDR_NONE BADDR_NONE.
Abbreviation value := (key_of con_addr none_addr).

(** [num] is the field before the call; it is not assigned. *)
Definition SocksUdpGwClient_Init (mtu max num : Z) : client :=
  let max := if UINT16_MAX + 1 <? max then UINT16_MAX + 1 else max in
  mkClient mtu (udpgw_compute_mtu sizeof_socks_udp_header mtu) max num ∅ tree_init [] 1%positive [].

Definition find_connection (o : client) (ca : conaddr) : outcome (option loc) :=
  tree_lookup (value (connections o)) (connections_tree o) ca.

(** The job of the connection stays in the group if it is set. *)
Definition connection_free (o : client) (a : loc) : outcome client :=
  of_option (connections o !! a) ≫= fun _ =>
  tree_remove (connections_tree o) a ≫= fun t =>
  Ok (set_table o (num_connections o - 1) (delete a (connections o)) t
        (LinkedList1.remove_node a (connections_list o)) (next o)).

Definition remove_lru_connection (o : client) (ca : conaddr) : outcome client :=
  find_connection o ca ≫= fun r =>
  ASSERT (bool_decide (r = None));;
  ASSERT (0 <? num_connections o);;
  of_option (head (connections_list o)) ≫= fun a =>
  connection_free o a.

(** [ok] is whether every allocation and socket call of [connection_init]
    succeeds; it frees everything otherwise. *)
Definition connection_init (o : client) (ca : conaddr) (data : list Z) (dns ok : bool) : outcome client :=
  if negb ok then Ok o else
  let a := next o in
  let m := <[a := mkCon ca (Some data) dns dns]> (connections o) in
  tree_insert (value m) (connections_tree o) a ≫= fun '((t, inserted) : T * bool) =>
  ASSERT inserted;;
  Ok (set_jobs (a :: jobs o) (set_table o (num_connections o + 1) m t (connections_list o ++ [a]) (Pos.succ a))).

Definition reset_connection (o : client) (a : loc) (ca : conaddr) (dns : bool) : outcome client :=
  of_option (connections o !! a) ≫= fun c =>
  Ok (set_table o (num_connections o) (<[a := mkCon ca (first_data c) dns (to_dnsgw c)]> (connections o))
        (connections_tree o) (connections_list o) (next o)).

(** The connections that got a packet to send, with where it goes and the
    packet. *)
Definition sends := list (loc * bool * list Z).

Definition connection_send_at (o : client) (a : loc) (out : option (list Z)) (data : list Z)
    : outcome (option (loc * bool * list Z)) :=
  of_option (connections o !! a) ≫= fun c =>
  connection_send (udp_mtu o) c out data ≫= fun (r : option (list Z)) =>
  Ok (match r with Some p => Some (a, to_dnsgw c, p) | None => None end).

(** [connection_first_job_handler]. *)
Definition connection_first_job_handler (o : client) (a : loc) (out : option (list Z)) : outcome (client * sends) :=
  of_option (connections o !! a) ≫= fun c =>
  of_option (first_data c) ≫= fun data =>
  connection_send_at o a out data ≫= fun (r : option (loc * bool * list Z)) =>
  let o := set_table o (num_connections o) (<[a := mkCon (con_addr c) None (is_dns c) (to_dnsgw c)]> (connections o))
             (connections_tree o) (connections_list o) (next o) in
  Ok (o, match r with Some p => [p] | None => [] end).

Definition SocksUdpGwClient_SubmitPacket (o : client) (local remote : BAddr) (dns : bool) (data : list Z)
    (ok : bool) (out : option (list Z)) : outcome (client * sends) :=
  ASSERT ((type local =? 1) || (type local =? 2));;
  ASSERT ((type remote =? 1) || (type remote =? 2));;
  ASSERT (Zlen data <=? udp_mtu o);;
  let ca := mkConaddr local remote in
  find_connection o ca ≫= fun con =>
  (if bool_decide (con = None) && (num_connections o =? max_connections o)
   then remove_lru_connection o ca else Ok o) ≫= fun o =>
  match con with
  | None => connection_init o ca data dns ok ≫= fun o => Ok (o, [])
  | Some a =>
      reset_connection o a ca dns ≫= fun o =>
      connection_send_at o a out data ≫= fun r =>
      match r with
      | None => Ok (o, [])
      | Some p =>
          Ok (set_table o (num_connections o) (connections o) (connections_tree o)
                (LinkedList1.remove_node a (connections_list o) ++ [a]) (next o), [p])
      end
  end.

(** The loop of [SocksUdpGwClient_Free]. *)
Fixpoint free_all (fuel : nat) (o : client) : outcome client :=
  match connections_list o with
  | [] => Ok o
  | a :: _ =>
      match fuel with
      | O => Fault
      | S fuel => connection_free o a ≫= free_all fuel
      end
  end.
Definition SocksUdpGwClient_Free (o : client) : outcome client := free_all (length (connections_list o)) o.

(** ** Events

    [FirstJob]: the reactor runs the job that was set last. [Receive]: a datagram
    arrives at the socket; what exceeds the size of the receive interface,
    [udp_mtu], is cut off. *)
Inductive op :=
| Submit (local remote : BAddr) (dns : bool) (data : list Z) (ok : bool) (out : option (list Z))
| FirstJob (a : loc) (out : option (list Z))
| Receive (a : loc) (dgram : list Z).

(** What the client hands to sockets, to be sent to the DNS gateway or to the
    SOCKS server, and to its user. *)
Inductive output := SendPacket (a : loc) (dnsgw : bool) (p : list Z) | Deliver (local remote : BAddr) (p : list Z).

Definition sent (s : sends) : list output := (fun x => SendPacket (fst (fst x)) (snd (fst x)) (snd x)) <$> s.

Definition step (o : client) (x : op) : outcome (client * list output) :=
  match x with
  | Submit local remote dns data ok out =>
      SocksUdpGwClient_SubmitPacket o local remote dns data ok out ≫= fun '((o, s) : client * sends) => Ok (o, sent s)
  | FirstJob a out =>
      of_option (head (jobs o)) ≫= fun b =>
      ASSERT (bool_decide (b = a));;
      connection_first_job_handler (set_jobs (tail (jobs o)) o) a out ≫= fun '((o, s) : client * sends) => Ok (o, sent s)
  | Receive a dgram =>
      let data := take (Z.to_nat (udp_mtu o)) dgram in
      of_option (connections o !! a) ≫= fun c =>
      dgram_handler_received (udp_mtu o) (udpgw_mtu o) c data (Zlen data) ≫= fun '((c, r) : connection * _) =>
      Ok (set_table o (num_connections o) (<[a := c]> (connections o)) (connections_tree o)
            (connections_list o) (next o),
          match r with Some (l, r, p) => [Deliver l r p] | None => [] end)
  end.

(** ** The table the client implements

    Connections from least to most recently used; at most one per local
    address. *)
Abbreviation table := (list (loc * connection)).
Definition local_of (e : loc * connection) : BAddr := local_addr (con_addr (snd e)).
Definition remote_of (e : loc * connection) : BAddr := remote_addr (con_addr (snd e)).

Definition find_local (local : BAddr) (l : table) : option (nat * (loc * connection)) :=
  list_find (fun e => BAddr_CompareOrder local (local_of e) = 0) l.
Definition find_loc (a : loc) (l : table) : option (nat * (loc * connection)) :=
  list_find (fun e => fst e = a) l.

(** The table and the address of the next connection,
    and the jobs that are set, the last one first. *)
Definition tab_state : Type := table * loc.
Definition abs_state : Type := tab_state * list loc.

(** [Fault]: the request is written beyond the buffer of [mtu] bytes. *)
Definition abs_send (mtu : Z) (a : loc) (c : connection) (data : list Z) (room : bool) : outcome (list output) :=
  let m := udp_message (is_dns c) (remote_addr (con_addr c)) data in
  if room then if Zlen m <=? mtu then Ok [SendPacket a (to_dnsgw c) m] else Fault else Ok [].

Definition abs_submit (mtu max : Z) (s : abs_state) (local remote : BAddr) (dns : bool) (data : list Z)
    (ok room : bool) : outcome (abs_state * list output) :=
  let '(l, nx, js) := s in
  match find_local local l with
  | Some (i, (a, c)) =>
      let c' := mkCon (mkConaddr local remote) (first_data c) dns (to_dnsgw c) in
      abs_send mtu a c' data room ≫= fun outs =>
      Ok (if room then delete i l ++ [(a, c')] else <[i := (a, c')]> l, nx, js, outs)
  | None =>
      let l := if Zlen l =? max then tail l else l in
      Ok (if ok then (l ++ [(nx, mkCon (mkConaddr local remote) (Some data) dns dns)], Pos.succ nx, nx :: js)
          else (l, nx, js), [])
  end.

(** The address and the data of a packet of the form of RFC 1928. *)
Definition message_of (data : list Z) : option (BAddr * list Z) :=
  match data with
  | _ :: _ :: 0 :: atyp :: rest =>
      let v6 := atyp =? SOCKS_ATYP_IPV6 in
      let n := if v6 then 18%nat else 6%nat in
      if (n <=? length rest)%nat then
        let f := take n rest in
        Some (if v6 then BADDR_IPV6 (take 16 f) (le_val (drop 16 f)) else BADDR_IPV4 (le_val (take 4 f)) (le_val (drop 4 f)),
              drop n rest)
      else None
  | _ => None
  end.

Definition abs_receive (c : connection) (data : list Z) : connection * list output :=
  if is_dns c then (c, [Deliver (local_addr (con_addr c)) (remote_addr (con_addr c)) data]) else
  match message_of data with
  | Some (remote, payload) => (set_remote c remote, [Deliver (local_addr (con_addr c)) remote payload])
  | None => (c, [])
  end.

(** [None]: the event does not occur in this state, as no such job is the next
    one or no such socket is open. A job that runs for a connection that was
    freed is a fault. *)
Definition abs_step (mtu max : Z) (s : abs_state) (x : op) : option (outcome (abs_state * list output)) :=
  let '(l, nx, js) := s in
  match x with
  | Submit local remote dns data ok out => Some (abs_submit mtu max s local remote dns data ok (bool_decide (is_Some out)))
  | FirstJob a out =>
      if bool_decide (head js = Some a) then
        Some (of_option (find_loc a l) ≫= fun '((i, (_, c)) : nat * (loc * connection)) =>
              of_option (first_data c) ≫= fun data =>
              abs_send mtu a c data (bool_decide (is_Some out)) ≫= fun outs =>
              Ok (<[i := (a, mkCon (con_addr c) None (is_dns c) (to_dnsgw c))]> l, nx, tail js, outs))
      else None
  | Receive a dgram =>
      find_loc a l ≫= fun '((i, (_, c)) : nat * (loc * connection)) =>
      let '(c', outs) := abs_receive c (take (Z.to_nat mtu) dgram) in
      Some (Ok (<[i := (a, c')]> l, nx, js, outs))
  end.

(** The obligations of the caller: valid addresses and data of at most [mtu]
    bytes; [BufferWriter_StartPacket] gives [mtu] bytes. *)
Definition out_ok (mtu : Z) (out : option (list Z)) : Prop := forall b, out = Some b -> Zlen b = mtu.
Definition valid (mtu : Z) (x : op) : Prop :=
  match x with
  | Submit local remote dns data ok out => wf local /\ wf remote /\ Zlen data <= mtu /\ out_ok mtu out
  | FirstJob a out => out_ok mtu out
  | Receive a dgram => bytes dgram
  end.

(** The connections of the table are those in memory and in the tree. *)
Record core_inv (o : client) (l : table) : Prop := {
  inv_ix : indexed con_addr none_addr conaddr_comparator (connections o) (connections_tree o) l;
  inv_num : num_connections o = Zlen l;
  inv_max : 0 < max_connections o /\ Zlen l <= max_connections o;
  inv_next : Forall (fun e => Pos.lt (fst e) (next o)) l;
  inv_wf : Forall (fun e => wf (local_of e) /\ wf (remote_of e)) l
}.
Definition refines0 (mtu max : Z) (o : client) (s : tab_state) : Prop :=
  let (l, nx) := s in
  connections_list o = l.*1 /\ next o = nx /\ udp_mtu o = mtu /\
  udpgw_mtu o = udpgw_compute_mtu sizeof_socks_udp_header mtu /\ max_connections o = max /\ core_inv o l.
Definition refines (mtu max : Z) (o : client) (s : abs_state) : Prop := refines0 mtu max o (fst s) /\ jobs o = snd s.

(** ** Proofs *)
Lemma find_connection_ok o l local remote : core_inv o l ->
  find_connection o (mkConaddr local remote) = Ok ((fun x => fst (snd x)) <$> find_local local l).
Proof. intros H. exact (indexed_find _ _ _ _ _ _ _ (inv_ix _ _ H)). Qed.

(** No two connections have the same local address. *)
Lemma core_local_nodup o l : core_inv o l -> NoDup (local_of <$> l).
Proof.
  intros [[_ Hn _ Hk] _ _ _ Hw]. rewrite Forall_forall in Hw. apply NoDup_fmap_2_strong; [|by eapply NoDup_fmap_1].
  intros x y Hx Hy Heq. apply Hk; [done|done|]. apply CompareOrder_eq; [by apply Hw|by apply Hw|done].
Qed.

(** The order of the list matters only for the choice of the connection to
    remove. *)
Lemma core_perm o l l' : l ≡ₚ l' -> core_inv o l -> core_inv o l'.
Proof.
  intros Hl [Hi Hnum Hmax Hnext Hw]. constructor; try (by rewrite <- Hl). by eapply indexed_perm.
Qed.

(** Changing a connection but for its local address. *)
Lemma core_upd o a c c' l lst : core_inv o ((a, c) :: l) ->
  local_addr (con_addr c') = local_addr (con_addr c) -> wf (remote_addr (con_addr c')) ->
  core_inv (set_table o (num_connections o) (<[a := c']> (connections o)) (connections_tree o) lst (next o))
    ((a, c') :: l).
Proof.
  intros [Hi Hnum Hmax Hnext Hw] Hl Hr.
  apply Forall_cons in Hnext as [? ?]. apply Forall_cons in Hw as [[Hw1 Hw2] Hw'].
  unfold local_of in Hw1. cbn [snd] in Hw1.
  constructor; cbn [set_table connections connections_tree num_connections max_connections next]; try done.
  - apply (indexed_upd _ _ _ _ _ a c c' l Hi). unfold conaddr_comparator. rewrite Hl. by apply CompareOrder_eq.
  - by constructor.
  - constructor; [|done]. unfold local_of. cbn [snd]. by rewrite Hl.
Qed.

(** [connection_free]. *)
Lemma core_free o a c l lst : core_inv o ((a, c) :: l) -> exists t,
  tree_remove (connections_tree o) a = Ok t /\
  core_inv (set_table o (num_connections o - 1) (delete a (connections o)) t lst (next o)) l.
Proof.
  intros [Hi Hnum Hmax Hnext Hw]. cbn [length] in *.
  apply Forall_cons in Hnext as [_ Hnext]. apply Forall_cons in Hw as [_ Hw].
  destruct (indexed_remove _ _ _ _ _ _ _ _ Hi) as (t & Hr & Hi'). exists t. split; [done|].
  constructor; cbn [set_table connections connections_tree num_connections max_connections next]; try done; lia.
Qed.

(** [connection_init]. *)
Lemma core_init o c l lst : core_inv o l -> Zlen l < max_connections o ->
  wf (local_addr (con_addr c)) -> wf (remote_addr (con_addr c)) -> find_local (local_addr (con_addr c)) l = None ->
  let m := <[next o := c]> (connections o) in
  exists t, tree_insert (value m) (connections_tree o) (next o) = Ok (t, true) /\
    core_inv (set_table o (num_connections o + 1) m t lst (Pos.succ (next o))) ((next o, c) :: l).
Proof.
  intros [Hi Hnum Hmax Hnext Hw] Hlt Hwl Hwr Hfind m.
  assert (next o ∉ l.*1) as Hfresh.
  { intros (e & He & He')%list_elem_of_fmap. apply (proj1 (Forall_forall _ _) Hnext) in He'. rewrite He in He'. lia. }
  destruct (indexed_insert _ _ _ _ _ _ c l Hi Hfresh Hfind) as (t & Ht & Hi'). exists t. split; [done|].
  constructor; cbn [set_table connections connections_tree num_connections max_connections next length]; try done; try lia.
  - constructor; [cbn; lia|]. eapply Forall_impl; [exact Hnext|]. cbn. lia.
  - by constructor.
Qed.

(** A connection that changes in place. *)
Lemma refines_upd mtu max o l1 a c c' l2 nx :
  refines0 mtu max o (l1 ++ (a, c) :: l2, nx) ->
  local_addr (con_addr c') = local_addr (con_addr c) -> wf (remote_addr (con_addr c')) ->
  refines0 mtu max (set_table o (num_connections o) (<[a := c']> (connections o)) (connections_tree o)
                     (connections_list o) (next o)) (l1 ++ (a, c') :: l2, nx).
Proof.
  intros (Hl & Hnx & Hm & Hg & Hmax & Hc) Hloc Hr. unfold refines0. split_and!; try done.
  - cbn [set_table connections_list]. rewrite Hl, !fmap_app. done.
  - eapply core_perm; [apply Permutation_middle|]. eapply core_upd; [|done..].
    eapply core_perm; [symmetry; apply Permutation_middle|done].
Qed.

(** What is known of a connection of the table. *)
Lemma refines_at mtu max o l1 a c l2 nx : refines0 mtu max o (l1 ++ (a, c) :: l2, nx) ->
  connections o !! a = Some c /\ wf (local_addr (con_addr c)) /\ wf (remote_addr (con_addr c)) /\
  a ∉ l1.*1 /\ connections_list o = l1.*1 ++ a :: l2.*1.
Proof.
  intros (Hl & _ & _ & _ & _ & Hc). assert ((a, c) ∈ l1 ++ (a, c) :: l2) as He by set_solver.
  pose proof (proj1 (Forall_forall _ _) (inv_wf _ _ Hc) _ He) as [? ?].
  pose proof (ix_nodup _ _ _ _ _ _ (inv_ix _ _ Hc)) as Hn. rewrite fmap_app in Hn, Hl. apply NoDup_app in Hn as (_ & Hn & _).
  split_and!; [by eapply (indexed_get _ _ _ _ _ _ _ _ (inv_ix _ _ Hc))|done|done| |done].
  intros Ha. by destruct (Hn a Ha); left.
Qed.

Lemma send_ok mtu a c out data : out_ok mtu out -> wf (remote_addr (con_addr c)) ->
  let room := bool_decide (is_Some out) in
  match abs_send mtu a c data room with
  | Ok outs => exists r, connection_send mtu c out data = Ok r /\ bool_decide (is_Some r) = room /\
      outs = match r with Some p => [SendPacket a (to_dnsgw c) p] | None => [] end
  | Fault => connection_send mtu c out data = Fault
  end.
Proof.
  intros Ho Hw room. unfold room. clear room. destruct out as [b|]; cbn [bool_decide decide is_Some_dec].
  - rewrite connection_send_ok by (try done; by apply Ho). unfold abs_send.
    destruct (_ <=? _); [|done]. by eexists (Some _).
  - by exists None.
Qed.

Lemma connection_send_at_ok o a c out data : connections o !! a = Some c ->
  connection_send_at o a out data =
    (connection_send (udp_mtu o) c out data ≫= fun r =>
     Ok (match r with Some p => Some (a, to_dnsgw c, p) | None => None end)).
Proof. intros H. unfold connection_send_at. by rewrite H. Qed.

Lemma submit_found mtu max o l1 a c l2 nx local remote dns data out :
  refines0 mtu max o (l1 ++ (a, c) :: l2, nx) -> local = local_addr (con_addr c) -> wf remote -> out_ok mtu out ->
  let c' := mkCon (mkConaddr local remote) (first_data c) dns (to_dnsgw c) in
  let room := bool_decide (is_Some out) in
  let m := reset_connection o a (mkConaddr local remote) dns ≫= fun o =>
     connection_send_at o a out data ≫= fun r =>
     match r with
     | None => Ok (o, [])
     | Some p =>
         Ok (set_table o (num_connections o) (connections o) (connections_tree o)
               (LinkedList1.remove_node a (connections_list o) ++ [a]) (next o), [p])
     end in
  match abs_send mtu a c' data room with
  | Ok outs => exists o' sn, m = Ok (o', sn) /\ sent sn = outs /\ jobs o' = jobs o /\
      refines0 mtu max o' ((if room then (l1 ++ l2) ++ [(a, c')] else l1 ++ (a, c') :: l2), nx)
  | Fault => m = Fault
  end.
Proof.
  intros H -> Hr Hout c' room m. destruct (refines_at _ _ _ _ _ _ _ _ H) as (Ha & Hwl & _ & Hnin & Hlst).
  unfold m, reset_connection. rewrite Ha. cbn [of_option mbind outcome_bind]. fold c'.
  pose proof (refines_upd _ _ _ _ _ _ c' _ _ H eq_refl Hr) as H'. set (o1 := set_table o _ _ _ _ _) in *.
  rewrite (connection_send_at_ok o1 a c') by apply lookup_insert_eq.
  replace (udp_mtu o1) with mtu by (symmetry; apply H').
  pose proof (send_ok mtu a c' out data Hout Hr) as Hs. cbv zeta in Hs. fold room in Hs.
  destruct (abs_send mtu a c' data room) as [outs|]; [|by rewrite Hs].
  destruct Hs as (r & -> & Hroom & ->). rewrite <- Hroom. destruct r as [pk|]; cbn [mbind outcome_bind].
  - eexists _, _. do 3 (split; [done|]). destruct H' as (Hl & Hnx & Hm & Hg & Hmax & Hc). split_and!; try done.
    + cbn [set_table connections_list]. replace (connections_list o1) with (connections_list o) by done.
      cbn [bool_decide decide is_Some_dec].
      rewrite Hlst, LinkedList1.remove_node_split by done. by rewrite !fmap_app.
    + eapply (core_perm _ (l1 ++ (a, c') :: l2)).
      { cbn [bool_decide decide is_Some_dec]. by rewrite <- Permutation_middle, <- Permutation_cons_append. }
      destruct Hc. by constructor.
  - by eexists _, _.
Qed.

Lemma free_head mtu max o a c l nx : refines0 mtu max o ((a, c) :: l, nx) ->
  exists o', connection_free o a = Ok o' /\ refines0 mtu max o' (l, nx) /\ jobs o' = jobs o.
Proof.
  intros (Hl & Hnx & Hm & Hg & Hmax & Hc). unfold connection_free.
  rewrite (indexed_get _ _ _ _ _ _ a c (inv_ix _ _ Hc)) by left. cbn [of_option mbind outcome_bind].
  destruct (core_free _ _ _ _ l.*1 Hc) as (t & -> & Hc'). cbn [mbind outcome_bind]. eexists. split; [done|].
  split; [|done]. rewrite Hl. cbn [fmap list_fmap LinkedList1.remove_node fst]. rewrite decide_True by done. done.
Qed.

(** Making room for a new connection. *)
Lemma make_room mtu max o l nx local remote : refines0 mtu max o (l, nx) -> wf local ->
  find_local local l = None ->
  let l' := if Zlen l =? max then tail l else l in
  exists o', (if num_connections o =? max_connections o then remove_lru_connection o (mkConaddr local remote) else Ok o)
      = Ok o' /\
    refines0 mtu max o' (l', nx) /\ Zlen l' < max /\ find_local local l' = None /\ jobs o' = jobs o.
Proof.
  intros H Hw Hf l'. pose proof H as (Hl & Hnx & Hm & Hg & Hmax & Hc). pose proof (inv_max _ _ Hc).
  rewrite (inv_num _ _ Hc), Hmax. destruct (Zlen l =? max) eqn:E; zify_bool.
  - unfold remove_lru_connection. rewrite (find_connection_ok _ l), Hf by done. cbn [fmap option_fmap option_map mbind outcome_bind].
    rewrite bind_ASSERT_true by done. rewrite bind_ASSERT_true by (rewrite (inv_num _ _ Hc); lia).
    destruct l as [|[a c] l]; [cbn in *; lia|]. rewrite Hl. cbn [fmap list_fmap head of_option mbind outcome_bind fst].
    destruct (free_head _ _ _ _ _ _ _ H) as (o' & -> & H' & Hj). exists o'. split_and!; [done|done|..|done].
    + unfold l'. cbn [tail length] in *. lia.
    + unfold l', find_local in *. cbn [tail]. apply list_find_None. apply list_find_None in Hf.
      by apply Forall_cons in Hf as [_ Hf].
  - exists o. split_and!; [done|done| |done|done]. unfold l'. lia.
Qed.

Lemma submit_new mtu max o l nx local remote dns data ok :
  refines0 mtu max o (l, nx) -> wf local -> wf remote -> find_local local l = None -> Zlen l < max ->
  exists o', connection_init o (mkConaddr local remote) data dns ok = Ok o' /\
    refines0 mtu max o' (if ok then (l ++ [(nx, mkCon (mkConaddr local remote) (Some data) dns dns)], Pos.succ nx)
                        else (l, nx)) /\
    jobs o' = (if ok then [nx] else []) ++ jobs o.
Proof.
  intros H Hwl Hwr Hf Hlt. unfold connection_init. destruct ok; cbn [negb]; [|by exists o].
  destruct H as (Hl & <- & Hm & Hg & Hmax & Hc). set (c := mkCon _ _ _ _).
  destruct (core_init o c l (connections_list o ++ [next o]) Hc ltac:(lia) Hwl Hwr Hf) as (t & -> & Hc').
  cbn [mbind outcome_bind]. eexists. split; [done|]. split; [|done]. unfold refines0. split_and!; try done.
  - cbn [set_jobs set_table connections_list]. by rewrite Hl, fmap_app.
  - eapply core_perm; [apply Permutation_cons_append|]. destruct Hc'. by constructor.
Qed.

Lemma wf_types a : wf a -> (type a =? 1) || (type a =? 2) = true.
Proof. by destruct a. Qed.

Lemma submit_refines mtu max o s local remote dns data ok out :
  refines mtu max o s -> wf local -> wf remote -> Zlen data <= mtu -> out_ok mtu out ->
  match abs_submit mtu max s local remote dns data ok (bool_decide (is_Some out)) with
  | Ok (s', outs) => exists o' sn, SocksUdpGwClient_SubmitPacket o local remote dns data ok out = Ok (o', sn) /\
      sent sn = outs /\ refines mtu max o' s'
  | Fault => SocksUdpGwClient_SubmitPacket o local remote dns data ok out = Fault
  end.
Proof.
  intros [H Hj] Hwl Hwr Hfit Hout. destruct s as [[l nx] js]. cbn [fst snd] in *.
  pose proof H as (Hl & Hnx & Hm & Hg & Hmax & Hc).
  unfold SocksUdpGwClient_SubmitPacket. do 2 rewrite bind_ASSERT_true by (by apply wf_types).
  rewrite bind_ASSERT_true by lia.
  rewrite (find_connection_ok o l) by done. cbn [mbind outcome_bind]. unfold abs_submit.
  destruct (find_local local l) as [[i [a c]]|] eqn:E; cbn [fmap option_fmap option_map snd fst].
  - rewrite (bool_decide_eq_false_2 (Some a = None)) by done. cbn [andb mbind outcome_bind].
    apply list_find_split in E as (l1 & l2 & -> & He & Hdel & Hins).
    destruct (refines_at _ _ _ _ _ _ _ _ H) as (_ & Hwa & _).
    apply CompareOrder_eq in He; [|done|done].
    pose proof (submit_found mtu max o l1 a c l2 nx local remote dns data out H He Hwr Hout) as Hs. cbv zeta in Hs.
    set (c' := mkCon _ _ dns _) in *. destruct (abs_send mtu a c' data _) as [outs|]; cbn [mbind outcome_bind]; [|exact Hs].
    destruct Hs as (o' & sn & -> & Hsn & Hj' & H'). eexists _, _. split; [done|]. split; [done|].
    rewrite Hdel, Hins. split; [|by destruct (bool_decide _); rewrite Hj'].
    by destruct (bool_decide _).
  - rewrite (bool_decide_eq_true_2 (None = None)) by done. cbn [andb].
    destruct (make_room mtu max o l nx local remote H Hwl E) as (o1 & -> & H1 & Hlt & Hf & Hj1). cbn [mbind outcome_bind].
    destruct (submit_new mtu max o1 _ nx local remote dns data ok H1 Hwl Hwr Hf Hlt) as (o2 & -> & H2 & Hj2).
    cbn [mbind outcome_bind]. eexists _, _. split; [done|]. split; [done|].
    unfold refines. rewrite Hj2, Hj1, Hj. by destruct ok.
Qed.

(** The packet as the specification reads it. *)
Lemma read_addr_bytes a : wf a ->
  (if type a =? 2 then BADDR_IPV6 (take 16 (addr_bytes a)) (le_val (drop 16 (addr_bytes a)))
   else BADDR_IPV4 (le_val (take 4 (addr_bytes a))) (le_val (drop 4 (addr_bytes a)))) = a.
Proof.
  destruct a as [|ip port|ip port|]; cbn [wf type addr_bytes Z.eqb Pos.eqb]; try done.
  - intros [Hip Hport]. unfold addr_ipv4_bytes. rewrite take_app_length', drop_app_length' by (by rewrite length_le_bytes).
    by rewrite !TunDevice.le_val_small by (cbn; lia).
  - intros (Hip & Hb & Hport). unfold addr_ipv6_bytes. rewrite (take_ge ip 16) by lia.
    rewrite take_app_length', drop_app_length' by lia. by rewrite TunDevice.le_val_small by (cbn; lia).
Qed.

Lemma message_of_relayed data remote payload : relayed data remote payload -> message_of data = Some (remote, payload).
Proof.
  intros (rsv & atyp & Hr & Hw & Ht & ->). destruct rsv as [|r0 [|r1 [|]]]; try done. cbn [app message_of].
  pose proof (length_addr_bytes _ Hw) as Hl.
  assert (length (addr_bytes remote) = (if atyp =? SOCKS_ATYP_IPV6 then 18%nat else 6%nat)) as Hn.
  { rewrite Ht in Hl. destruct (_ =? _); cbn in Hl; lia. }
  rewrite (proj2 (Nat.leb_le _ _)) by (rewrite length_app; lia).
  rewrite take_app_length', drop_app_length' by done. do 2 f_equal.
  rewrite <- (read_addr_bytes remote Hw) at 5. rewrite Ht. by destruct (_ =? _).
Qed.
Lemma message_of_malformed data : malformed data -> message_of data = None.
Proof.
  intros [Hl|(r0 & r1 & frag & atyp & rest & -> & Hc)].
  - by destruct data as [|? [|? [|[| |] [|]]]]; cbn in Hl; try done; lia.
  - cbn [app message_of]. destruct frag; try done. destruct Hc as [?|Hc]; [done|].
    rewrite (proj2 (Nat.leb_gt _ _)); [done|]. destruct (_ =? _); lia.
Qed.

Lemma received_ok mtu umtu c data : bytes data -> Zlen data <= mtu -> mtu <= umtu <= INT_MAX ->
  wf (remote_addr (con_addr c)) ->
  exists c' q, dgram_handler_received mtu umtu c data (Zlen data) = Ok (c', q) /\
    abs_receive c data = (c', match q with Some (l, r, p) => [Deliver l r p] | None => [] end) /\
    local_addr (con_addr c') = local_addr (con_addr c) /\ wf (remote_addr (con_addr c')) /\ first_data c' = first_data c.
Proof.
  intros Hb Hd Hu Hw. unfold abs_receive. destruct (is_dns c) eqn:Hdns.
  - unfold dgram_handler_received. do 2 rewrite bind_ASSERT_true by lia. rewrite Hdns.
    rewrite (proj2 (Z.ltb_ge _ _)) by lia. rewrite (proj2 (mem_read_Ok data 0 (Zlen data) data)).
    + by eexists _, (Some _).
    + split; [lia|]. by rewrite TunDevice.slice_all_n.
  - destruct (relayed_or data Hb) as [(rem & pl & Hr)|Hm].
    + rewrite (relayed_received mtu umtu c data rem pl), (message_of_relayed data rem pl) by (done || lia).
      pose proof Hr as (rsv & atyp & _ & Hwr & _ & Hdd).
      assert (Zlen pl <= Zlen data) by (rewrite Hdd, !length_app; lia).
      rewrite (proj2 (Z.ltb_ge _ _)) by lia. by eexists _, (Some _).
    + rewrite malformed_dropped, message_of_malformed by (done || lia). by eexists _, None.
Qed.

Lemma find_loc_split a l i e : find_loc a l = Some (i, e) -> exists l1 c l2,
  l = l1 ++ (a, c) :: l2 /\ e = (a, c) /\ forall y, <[i := y]> l = l1 ++ y :: l2.
Proof.
  intros E. destruct e as [b c]. destruct (list_find_split _ _ _ _ E) as (l1 & l2 & -> & <- & _ & Hins).
  by exists l1, c, l2.
Qed.
Lemma find_loc_none o l a : core_inv o l -> find_loc a l = None -> connections o !! a = None.
Proof.
  intros Hc Hf. rewrite (ix_map _ _ _ _ _ _ (inv_ix _ _ Hc)). apply not_elem_of_list_to_map.
  apply list_find_None in Hf. intros (e & He & Hin)%list_elem_of_fmap.
  by apply (proj1 (Forall_forall _ _) Hf) in Hin.
Qed.

Lemma first_job_refines mtu max o s a out r : refines mtu max o s -> out_ok mtu out ->
  abs_step mtu max s (FirstJob a out) = Some r ->
  match r with
  | Ok (s', outs) => exists o', step o (FirstJob a out) = Ok (o', outs) /\ refines mtu max o' s'
  | Fault => step o (FirstJob a out) = Fault
  end.
Proof.
  intros [H Hj] Hout Habs. destruct s as [[l nx] js]. cbn [fst snd abs_step step] in *. rewrite Hj.
  destruct (bool_decide (head js = Some a)) eqn:E; [|done]. apply bool_decide_eq_true in E. rewrite E.
  cbn [of_option mbind outcome_bind]. rewrite bind_ASSERT_true by (by apply bool_decide_eq_true_2).
  apply (inj Some) in Habs. subst r. unfold connection_first_job_handler. cbn [set_jobs connections].
  pose proof H as (_ & _ & Hm & _ & _ & Hc).
  destruct (find_loc a l) as [[i e]|] eqn:F; cbn [of_option mbind outcome_bind].
  2: by rewrite (find_loc_none o l a).
  destruct (find_loc_split _ _ _ _ F) as (l1 & c & l2 & -> & -> & Hins).
  destruct (refines_at _ _ _ _ _ _ _ _ H) as (Ha & Hwl & Hwr & _). rewrite Ha. cbn [of_option mbind outcome_bind].
  destruct (first_data c) as [data|]; cbn [of_option mbind outcome_bind]; [|done].
  rewrite (connection_send_at_ok _ a c) by done. cbn [set_jobs udp_mtu]. rewrite Hm.
  pose proof (send_ok mtu a c out data Hout Hwr) as Hs. cbv zeta in Hs.
  destruct (abs_send mtu a c data _) as [outs|]; cbn [mbind outcome_bind]; [|by rewrite Hs].
  destruct Hs as (q & -> & _ & ->). cbn [mbind outcome_bind]. rewrite Hins. eexists. split; [by destruct q|].
  split; [|done]. cbn [fst].
  destruct (refines_upd mtu max o l1 a c (mkCon (con_addr c) None (is_dns c) (to_dnsgw c)) l2 nx H eq_refl Hwr)
    as (U1 & U2 & U3 & U4 & U5 & U6). split_and!; try done. destruct U6. by constructor.
Qed.

Lemma step_refines mtu max o s x r :
  0 <= mtu -> mtu + 22 <= INT_MAX ->
  refines mtu max o s -> valid mtu x -> abs_step mtu max s x = Some r ->
  match r with
  | Ok (s', outs) => exists o', step o x = Ok (o', outs) /\ refines mtu max o' s'
  | Fault => step o x = Fault
  end.
Proof.
  intros Hmtu Hmtu' H Hv Habs. destruct x as [local remote dns data ok out|a out|a dgram]; cbn [valid] in Hv.
  - destruct Hv as (Hwl & Hwr & Hfit & Hout).
    pose proof (submit_refines mtu max o s local remote dns data ok out H Hwl Hwr Hfit Hout) as Hs.
    destruct s as [[l nx] js]. cbn [abs_step] in Habs.
    apply (inj Some) in Habs. subst r. cbn [step]. destruct (abs_submit _ _ _ _ _ _ _ _ _) as [[s' outs]|]; [|by rewrite Hs].
    destruct Hs as (o' & sn & -> & <- & H'). by exists o'.
  - by eapply first_job_refines.
  - destruct s as [[l nx] js]. destruct H as [H0 Hj]. cbn [fst snd abs_step] in *. pose proof H0 as (_ & _ & Hm & Hg & _).
    destruct (find_loc a l) as [[i e]|] eqn:F; [|done].
    destruct (find_loc_split _ _ _ _ F) as (l1 & c & l2 & -> & -> & Hins).
    cbn [mbind option_bind] in Habs. cbn [step].
    destruct (refines_at _ _ _ _ _ _ _ _ H0) as (Ha & Hwl & Hwr & _). rewrite Ha. cbn [of_option mbind outcome_bind].
    rewrite Hm, Hg. set (data := take _ dgram) in *.
    destruct (received_ok mtu (udpgw_compute_mtu sizeof_socks_udp_header mtu) c data) as (c' & q & Hd & Hr & Hl' & Hw' & _);
      [by apply Forall_take|unfold data; rewrite length_take; lia| |done|].
    { unfold sizeof_socks_udp_header. rewrite compute_mtu_ok by lia. destruct (_ <=? _) eqn:?; zify_bool; lia. }
    rewrite Hr in Habs. rewrite Hd. cbn [mbind outcome_bind]. apply (inj Some) in Habs. subst r. rewrite Hins.
    eexists. split; [done|]. split; [by eapply refines_upd|done].
Qed.

(** ** Runs *)
Fixpoint run (o : client) (xs : list op) : outcome (client * list output) :=
  match xs with
  | [] => Ok (o, [])
  | x :: xs =>
      step o x ≫= fun '((o, outs) : client * list output) =>
      run o xs ≫= fun '((o, outs') : client * list output) => Ok (o, outs ++ outs')
  end.

(** [None]: an event that does not occur. *)
Fixpoint abs_run (mtu max : Z) (s : abs_state) (xs : list op) : option (outcome (abs_state * list output)) :=
  match xs with
  | [] => Some (Ok (s, []))
  | x :: xs =>
      match abs_step mtu max s x with
      | Some (Ok (s, outs)) =>
          match abs_run mtu max s xs with
          | Some (Ok (s, outs')) => Some (Ok (s, outs ++ outs'))
          | r => r
          end
      | r => r
      end
  end.

Lemma client_run_refines mtu max xs o s r : 0 <= mtu -> mtu + 22 <= INT_MAX ->
  refines mtu max o s -> Forall (valid mtu) xs -> abs_run mtu max s xs = Some r ->
  match r with
  | Ok (s', outs) => exists o', run o xs = Ok (o', outs) /\ refines mtu max o' s'
  | Fault => run o xs = Fault
  end.
Proof.
  intros Hm Hm'. revert o s r. induction xs as [|x xs IH]; intros o s r H Hv Hr; cbn [abs_run run] in *.
  { apply (inj Some) in Hr. subst r. by exists o. }
  apply Forall_cons in Hv as [Hx Hv]. destruct (abs_step mtu max s x) as [r1|] eqn:E; [|done].
  pose proof (step_refines mtu max o s x r1 Hm Hm' H Hx E) as Hs. destruct r1 as [[s1 outs1]|].
  2: { apply (inj Some) in Hr. subst r. by rewrite Hs. }
  destruct Hs as (o1 & -> & H1). cbn [mbind outcome_bind].
  destruct (abs_run mtu max s1 xs) as [r2|] eqn:E2; [|done]. specialize (IH o1 s1 r2 H1 Hv E2).
  destruct r2 as [[s2 outs2]|]; apply (inj Some) in Hr; subst r; [|by rewrite IH].
  destruct IH as (o2 & -> & H2). by exists o2.
Qed.

(** *** The order of the reactor

    A job that is set runs before the job that is waiting for the next packet of
    the device or of a socket (Pending.v: the job set last runs first), so
    nothing is submitted or received while a first packet is to be sent. *)
Definition calls_wait (s : abs_state) (x : op) : Prop :=
  match x with FirstJob _ _ => True | _ => snd s = [] end.
Fixpoint prompt (mtu max : Z) (s : abs_state) (xs : list op) : Prop :=
  match xs with
  | [] => True
  | x :: xs =>
      calls_wait s x /\
      match abs_step mtu max s x with Some (Ok (s, _)) => prompt mtu max s xs | _ => True end
  end.
Definition fits (mtu : Z) (x : op) : Prop :=
  match x with
  | Submit _ remote dns data _ _ => Zlen (udp_message dns remote data) <= mtu
  | _ => True
  end.

(** The only job that is ever set is that of the newest connection, whose first
    packet fits. *)
Definition calm (mtu : Z) (s : abs_state) : Prop :=
  match snd s with
  | [] => True
  | [a] => exists l c data, fst (fst s) = l ++ [(a, c)] /\ first_data c = Some data /\
      Zlen (udp_message (is_dns c) (remote_addr (con_addr c)) data) <= mtu
  | _ => False
  end.

Lemma abs_send_fits mtu a c data room : Zlen (udp_message (is_dns c) (remote_addr (con_addr c)) data) <= mtu ->
  exists outs, abs_send mtu a c data room = Ok outs.
Proof. intros H. unfold abs_send. rewrite (proj2 (Z.leb_le _ _)) by done. destruct room; by eexists. Qed.

Lemma find_loc_last o l a c nx mtu max : refines0 mtu max o (l ++ [(a, c)], nx) ->
  find_loc a (l ++ [(a, c)]) = Some (length l, (a, c)).
Proof.
  intros H. destruct (refines_at _ _ _ _ _ _ _ _ H) as (_ & _ & _ & Hn & _). apply list_find_Some. split_and!; [|done|].
  - rewrite lookup_app_r, Nat.sub_diag by lia. done.
  - intros j e Hj Hlt He. rewrite lookup_app_l in Hj by done. apply list_elem_of_lookup_2 in Hj.
    apply Hn. apply list_elem_of_fmap. by exists e.
Qed.

Lemma calm_step mtu max o s x r : refines mtu max o s -> calm mtu s -> fits mtu x -> calls_wait s x ->
  abs_step mtu max s x = Some r -> exists s' outs, r = Ok (s', outs) /\ calm mtu s'.
Proof.
  intros [H _] Hc Hf Hw Hs. destruct s as [[l nx] js]. unfold calm in Hc.
  destruct x as [local remote dns data ok out|a out|a dgram]; cbn [calls_wait fst snd abs_step fits] in *.
  - subst js. unfold abs_submit in Hs. destruct (find_local local l) as [[i [a c]]|]; apply (inj Some) in Hs; subst r.
    + set (c' := mkCon _ _ _ _). destruct (abs_send_fits mtu a c' data (bool_decide (is_Some out)) Hf) as [outs ->].
      by destruct (bool_decide _); eexists _, _.
    + eexists _, _. split; [done|]. destruct ok; [|done]. by eexists _, _, data.
  - destruct (bool_decide _) eqn:E; [|done]. apply bool_decide_eq_true in E. destruct js as [|b [|]]; try done.
    injection E as ->. destruct Hc as (l1 & c & data & -> & Hd & Hfit). apply (inj Some) in Hs. subst r.
    rewrite (find_loc_last _ _ _ _ _ _ _ H). cbn [of_option mbind outcome_bind]. rewrite Hd. cbn [of_option mbind outcome_bind].
    destruct (abs_send_fits mtu a c data (bool_decide (is_Some out)) Hfit) as [outs ->]. by eexists _, _.
  - subst js. destruct (find_loc a l) as [[i [b c]]|]; [|done]. cbn [mbind option_bind] in Hs.
    destruct (abs_receive c _) as [c' outs]. apply (inj Some) in Hs. subst r. by eexists _, _.
Qed.

Lemma calm_run mtu max xs o s r : 0 <= mtu -> mtu + 22 <= INT_MAX ->
  refines mtu max o s -> calm mtu s -> Forall (valid mtu) xs -> Forall (fits mtu) xs -> prompt mtu max s xs ->
  abs_run mtu max s xs = Some r -> r <> Fault.
Proof.
  intros Hm Hm'. revert o s r. induction xs as [|x xs IH]; intros o s r H Hc Hv Hf Hp Hr; cbn [abs_run prompt] in *.
  { by apply (inj Some) in Hr as <-. }
  apply Forall_cons in Hv as [Hvx Hv]. apply Forall_cons in Hf as [Hfx Hf]. destruct Hp as [Hpx Hp].
  destruct (abs_step mtu max s x) as [r1|] eqn:E; [|done].
  destruct (calm_step mtu max o s x r1 H Hc Hfx Hpx E) as (s1 & outs1 & -> & Hc1).
  destruct (step_refines mtu max o s x _ Hm Hm' H Hvx E) as (o1 & _ & H1).
  destruct (abs_run mtu max s1 xs) as [r2|] eqn:E2; [|done].
  specialize (IH o1 s1 r2 H1 Hc1 Hv Hf Hp E2). destruct r2 as [[s2 outs2]|]; [|done]. by apply (inj Some) in Hr as <-.
Qed.

Lemma client_free_refines mtu max o l nx js : refines mtu max o (l, nx, js) ->
  exists o', SocksUdpGwClient_Free o = Ok o' /\ refines mtu max o' ([], nx, js).
Proof.
  intros [H Hj]. cbn [fst snd] in *. unfold SocksUdpGwClient_Free. pose proof H as (Hl & _). rewrite Hl, length_fmap. clear Hl.
  revert o H Hj. induction l as [|[a c] l IH]; intros o H Hj.
  - exists o. destruct H as (Hl & H). cbn [length free_all]. by rewrite Hl.
  - pose proof H as (Hl & _). cbn [length free_all]. rewrite Hl. cbn [fmap list_fmap fst].
    destruct (free_head _ _ _ _ _ _ _ H) as (o1 & -> & H1 & Hj1). apply IH; [done|by rewrite Hj1].
Qed.

Lemma client_init_refines mtu max : 0 < max ->
  refines mtu (Z.min max (UINT16_MAX + 1)) (SocksUdpGwClient_Init mtu max 0) ([], 1%positive, []).
Proof.
  intros Hmax. unfold SocksUdpGwClient_Init. split; [|done]. split_and!; try done.
  - cbn. destruct (Z.ltb_spec (UINT16_MAX + 1) max); lia.
  - assert (0 < (if UINT16_MAX + 1 <? max then UINT16_MAX + 1 else max)) by (unfold UINT16_MAX; destruct (_ <? _); lia).
    constructor; cbn; try done; try lia. apply indexed_init.
Qed.

(** C5: the UDP client is a bounded table from local addresses to connections
    in order of use, whatever search tree it keeps them in, and a stack of the
    jobs that are to send a first packet. For every sequence of submissions,
    jobs and receptions, it faults exactly where the table does: when a request
    does not fit in the [mtu] bytes of a buffer (SocksUdpGwClient.c:299), and
    when a job runs for a connection that was freed, as [connection_free] leaves
    the job in the reactor. Otherwise it sends and delivers exactly what the
    table does, to the DNS gateway or the server as it was when the socket was
    opened, has at most [max] connections and at most one for a local address,
    and freeing it frees all of them, the jobs staying set. In the reactor's
    order, in which a job that was set runs before anything else is submitted or
    received, and when every request fits, there is no fault. *)
Theorem udp_client_refines_lru mtu max xs r :
  0 <= mtu -> mtu + 22 <= INT_MAX -> 0 < max -> Forall (valid mtu) xs ->
  let s0 := ([], 1%positive, []) in
  let max' := Z.min max (UINT16_MAX + 1) in
  abs_run mtu max' s0 xs = Some r ->
  match r with
  | Fault => run (SocksUdpGwClient_Init mtu max 0) xs = Fault
  | Ok (l, _, js, outs) =>
      exists o, run (SocksUdpGwClient_Init mtu max 0) xs = Ok (o, outs) /\
        connections_list o = l.*1 /\ connections o = list_to_map l /\ jobs o = js /\
        num_connections o = Zlen l /\ Zlen l <= max /\ NoDup (local_of <$> l) /\
        exists o', SocksUdpGwClient_Free o = Ok o' /\ connections o' = ∅ /\ num_connections o' = 0 /\ jobs o' = js
  end /\
  (prompt mtu max' s0 xs -> Forall (fits mtu) xs -> r <> Fault).
Proof.
  intros Hm Hm' Hmax Hv s0 max' Hr. pose proof (client_init_refines mtu max Hmax) as H0.
  split; [|intros Hp Hf; by eapply calm_run].
  pose proof (client_run_refines mtu max' xs _ s0 r Hm Hm' H0 Hv Hr) as Ho. destruct r as [[[[l nx] js] outs]|]; [|done].
  destruct Ho as (o & Ho & H). exists o. destruct (client_free_refines _ _ _ _ _ _ H) as (o' & Hf & H' & Hj').
  destruct H as [(Hl & _ & _ & _ & Hmx & Hc) Hj]. destruct H' as (_ & _ & _ & _ & _ & Hc'). cbn [fst snd] in *.
  pose proof (inv_max _ _ Hc).
  split_and!; [done|done|by apply Hc|done|by apply Hc|lia|by eapply core_local_nodup|].
  exists o'. split_and!; [done|by apply Hc'|by apply Hc'|done].
Qed.

(** ** The path of a datagram through the program *)
Import TunDevice.

Lemma compute_udp_mtu_range o mtu : 0 <= mtu <= INT_MAX ->
  0 <= compute_udp_mtu o mtu /\ compute_udp_mtu o mtu + 22 <= INT_MAX.
Proof.
  unfold INT_MAX, compute_udp_mtu, sizeof_ipv4_header, sizeof_ipv6_header, sizeof_udp_header. intros.
  destruct (netif_ip6addr o), (mtu - (20 + 8) <? mtu - (40 + 8)) eqn:?, (mtu - (20 + 8) <? 0) eqn:?,
    (mtu - (40 + 8) <? 0) eqn:?; zify_bool; lia.
Qed.

(** A packet built from addresses and data is accepted with them. *)
Lemma device_accepts o mtu src dst data p :
  udpgw_remote_server_addr o = true -> wf src -> wf dst -> mtu <= INT_MAX -> bytes data ->
  udp_packet o mtu dst src data = Some p ->
  process_device_udp_packet o (compute_udp_mtu o mtu) p (Zlen p) =
    Ok (Some (mkSubmission src dst (loopback_dns o dst data) data)).
Proof.
  intros Hg Hs Hd Hm Hb Hp. unfold INT_MAX in *.
  destruct dst as [|lip lport|lip lport|], src as [|rip rport|rip rport|]; try done.
  - destruct (loopback4 o mtu lip lport rip rport data p Hg Hb Hd Hs Hp) as (Hbp & Hlen & Hle & Hsub).
    rewrite process_ok, Hsub by (done || unfold INT_MAX; lia). done.
  - destruct (loopback6 o mtu lip lport rip rport data p Hg Hb Hd Hs Hp) as (Hbp & Hlen & Hle & Hsub).
    rewrite process_ok, Hsub by (done || unfold INT_MAX; lia). done.
Qed.

Lemma insert_last {A} (l : list A) x y : <[length l := y]> (l ++ [x]) = l ++ [y].
Proof. by rewrite insert_app_r_alt, Nat.sub_diag by lia. Qed.

(** The bytes of a request or an answer before the data. *)
Definition overhead (dns : bool) (remote : BAddr) : Z := if dns then 0 else if type remote =? 1 then 10 else 22.

(** A datagram that brings [answer] from [remote]. *)
Definition reply_from (dns : bool) (remote : BAddr) (reply answer : list Z) : Prop :=
  bytes reply /\ if dns then reply = answer else relayed reply remote answer.

(** What is left of an answer that is cut off at [n] bytes. *)
Lemma relayed_take n data remote payload : relayed data remote payload -> overhead false remote <= Z.of_nat n ->
  relayed (take n data) remote (take (Z.to_nat (Z.of_nat n - overhead false remote)) payload).
Proof.
  intros (rsv & atyp & Hr & Hw & Ht & ->) Hn. exists rsv, atyp. split_and!; try done.
  pose proof (length_addr_bytes _ Hw) as Hl. unfold overhead in *.
  rewrite take_app_ge by (destruct (type remote =? 1); lia). f_equal. rewrite Hr.
  rewrite take_app_ge by (cbn [length]; destruct (type remote =? 1); lia). f_equal. cbn [length].
  rewrite take_app_ge by (destruct (type remote =? 1); lia). do 2 f_equal. destruct (type remote =? 1); lia.
Qed.

Lemma receive_reply mtu c dns remote reply answer :
  is_dns c = dns -> remote_addr (con_addr c) = remote -> 0 <= mtu -> overhead dns remote <= mtu ->
  reply_from dns remote reply answer -> exists c', abs_receive c (take (Z.to_nat mtu) reply) =
    (c', [Deliver (local_addr (con_addr c)) remote (take (Z.to_nat (mtu - overhead dns remote)) answer)]).
Proof.
  intros Hdns Hrem Hm Ho [Hb Hr]. unfold abs_receive. rewrite Hdns. destruct dns.
  - subst answer. exists c. unfold overhead. by rewrite Hrem, Z.sub_0_r.
  - pose proof (relayed_take (Z.to_nat mtu) reply remote answer Hr ltac:(lia)) as Ht.
    rewrite Z2Nat.id in Ht by done. rewrite (message_of_relayed _ _ _ Ht). by eexists.
Qed.

(** The events of a datagram and its answer, and the socket they are on. *)
Definition exchange (l : table) (nx : loc) (local remote : BAddr) (dns : bool) (query : list Z)
    (out reply : list Z) : list op * loc * bool :=
  match find_local local l with
  | Some (_, (a, c)) => ([Submit local remote dns query true (Some out); Receive a reply], a, to_dnsgw c)
  | None => ([Submit local remote dns query true None; FirstJob nx (Some out); Receive nx reply], nx, dns)
  end.

(** The newest connection receives. *)
Lemma receive_last mtu max o l a c nx reply answer : 0 <= mtu -> refines0 mtu max o (l ++ [(a, c)], nx) ->
  let remote := remote_addr (con_addr c) in
  overhead (is_dns c) remote <= mtu -> reply_from (is_dns c) remote reply answer ->
  exists s', abs_run mtu max (l ++ [(a, c)], nx, []) [Receive a reply] =
    Some (Ok (s', [Deliver (local_addr (con_addr c)) remote
                     (take (Z.to_nat (mtu - overhead (is_dns c) remote)) answer)])).
Proof.
  intros Hm H remote Ho Hr. cbn [abs_run abs_step]. rewrite (find_loc_last _ _ _ _ _ _ _ H). cbn [mbind option_bind].
  destruct (receive_reply mtu c _ _ reply answer eq_refl eq_refl Hm Ho Hr) as [c' ->]. by eexists.
Qed.

Lemma abs_run_cons mtu max s x xs s1 outs1 s2 outs2 : abs_step mtu max s x = Some (Ok (s1, outs1)) ->
  abs_run mtu max s1 xs = Some (Ok (s2, outs2)) -> abs_run mtu max s (x :: xs) = Some (Ok (s2, outs1 ++ outs2)).
Proof. intros H1 H2. cbn [abs_run]. by rewrite H1, H2. Qed.

Lemma exchange_abs mtu max o l nx local remote dns query answer reply out :
  0 <= mtu -> mtu + 22 <= INT_MAX -> refines mtu max o (l, nx, []) -> wf local -> wf remote ->
  Zlen query <= mtu -> Zlen (udp_message dns remote query) <= mtu -> Zlen out = mtu ->
  reply_from dns remote reply answer ->
  let '(xs, a, dest) := exchange l nx local remote dns query out reply in
  exists s', abs_run mtu max (l, nx, []) xs =
    Some (Ok (s', [SendPacket a dest (udp_message dns remote query);
                   Deliver local remote (take (Z.to_nat (mtu - overhead dns remote)) answer)])).
Proof.
  intros Hm Hm' H Hwl Hwr Hq Hfit Hout Hrep. unfold exchange.
  assert (overhead dns remote <= mtu) as Ho.
  { rewrite length_udp_message in Hfit by done. unfold overhead. destruct dns; lia. }
  assert (out_ok mtu (Some out)) as Hout' by (by intros b [= <-]). assert (out_ok mtu None) as Hnone by done.
  assert (forall a c data, is_dns c = dns -> remote_addr (con_addr c) = remote -> data = query ->
    abs_send mtu a c data true = Ok [SendPacket a (to_dnsgw c) (udp_message dns remote query)]) as Hsend.
  { intros a c data <- <- ->. unfold abs_send. by rewrite (proj2 (Z.leb_le _ _)). }
  destruct (find_local local l) as [[i [a c]]|] eqn:F.
  - set (c1 := mkCon (mkConaddr local remote) (first_data c) dns (to_dnsgw c)).
    pose proof (step_refines mtu max o (l, nx, []) (Submit local remote dns query true (Some out))
      _ Hm Hm' H (conj Hwl (conj Hwr (conj Hq Hout'))) eq_refl) as Hs.
    unfold abs_submit in Hs. rewrite F in Hs. fold c1 in Hs. cbn [bool_decide decide is_Some_dec] in Hs.
    rewrite (Hsend a c1) in Hs by done. destruct Hs as (o1 & _ & H1 & _).
    destruct (receive_last mtu max o1 _ a c1 nx reply answer Hm H1 Ho Hrep) as (s' & Hr).
    exists s'. eapply (abs_run_cons _ _ _ _ _ _ [_] _ [_]); [|exact Hr].
    cbn [abs_step]. unfold abs_submit. rewrite F. fold c1. cbn [bool_decide decide is_Some_dec]. by rewrite (Hsend a c1).
  - set (l' := if Zlen l =? max then tail l else l).
    set (c1 := mkCon (mkConaddr local remote) (Some query) dns dns).
    set (c2 := mkCon (mkConaddr local remote) None dns dns).
    assert (abs_step mtu max (l, nx, []) (Submit local remote dns query true None) =
      Some (Ok (l' ++ [(nx, c1)], Pos.succ nx, [nx], []))) as E1.
    { cbn [abs_step]. unfold abs_submit. by rewrite F. }
    destruct (step_refines mtu max o _ (Submit local remote dns query true None) _ Hm Hm' H (conj Hwl (conj Hwr (conj Hq Hnone))) E1) as (o1 & _ & H1).
    assert (abs_step mtu max (l' ++ [(nx, c1)], Pos.succ nx, [nx]) (FirstJob nx (Some out)) =
      Some (Ok (l' ++ [(nx, c2)], Pos.succ nx, [], [SendPacket nx dns (udp_message dns remote query)]))) as E2.
    { cbn [abs_step head tail]. rewrite bool_decide_eq_true_2 by done. rewrite (find_loc_last _ _ _ _ _ _ _ (proj1 H1)).
      cbn [of_option mbind outcome_bind first_data c1 bool_decide decide is_Some_dec]. fold c1.
      rewrite (Hsend nx c1) by done. cbn [mbind outcome_bind]. by rewrite insert_last. }
    destruct (step_refines mtu max o1 _ (FirstJob nx (Some out)) _ Hm Hm' H1 Hout' E2) as (o2 & _ & H2 & _).
    destruct (receive_last mtu max o2 l' nx c2 (Pos.succ nx) reply answer Hm H2 Ho Hrep) as (s' & Hr).
    exists s'. eapply (abs_run_cons _ _ _ _ _ _ [] _ _); [exact E1|].
    by eapply (abs_run_cons _ _ _ _ _ _ [_] _ [_]).
Qed.

Lemma exchange_valid mtu l nx local remote dns query out reply :
  wf local -> wf remote -> Zlen query <= mtu -> Zlen out = mtu -> bytes reply ->
  Forall (valid mtu) (fst (fst (exchange l nx local remote dns query out reply))).
Proof.
  intros. assert (out_ok mtu (Some out)) by (by intros b [= <-]).
  unfold exchange. destruct (find_local local l) as [[i [a c]]|]; cbn [fst]; by repeat constructor.
Qed.

(** C6: a datagram goes through the program and its answer comes back: when no
    first packet is waiting, the request fits in the buffer, and allocations and
    buffers are available, the packet of an application from [local] to [remote]
    is recognised on the device; its data, as the UDP request for [remote] of
    RFC 1928 or, for a query to the DNS address, as it is, is sent on the socket
    of [local], which is a new one if there is none; and a datagram that comes
    back on the socket with an answer from [remote], an address of the family of
    [local], is written to the device as the packet from [remote] to [local], if
    it fits there. What comes back is cut off at the UDP MTU together with its
    header, so the answer arrives whole only if both are within it. A new socket
    sends to the DNS gateway or the SOCKS server as [dns] says, an old one as it
    did when it was opened. *)
Theorem udp_relay_path o mtu max c l nx local remote query p answer reply out buf :
  let umtu := compute_udp_mtu o mtu in
  let dns := loopback_dns o remote query in
  let '(events, a, dest) := exchange l nx local remote dns query out reply in
  let answer' := take (Z.to_nat (umtu - overhead dns remote)) answer in
  udpgw_remote_server_addr o = true -> 0 <= mtu <= INT_MAX ->
  refines umtu max c (l, nx, []) ->
  wf local -> wf remote -> type local = type remote -> bytes query ->
  udp_packet o mtu remote local query = Some p ->
  Zlen (udp_message dns remote query) <= umtu -> Zlen out = umtu -> Zlen buf = mtu ->
  bytes answer -> reply_from dns remote reply answer ->
  process_device_udp_packet o umtu p (Zlen p) = Ok (Some (mkSubmission local remote dns query)) /\
  (exists c', run c events = Ok (c', [SendPacket a dest (udp_message dns remote query); Deliver local remote answer'])) /\
  udpgw_client_handler_received o mtu buf local remote answer' (Zlen answer') =
    Ok (match udp_packet o mtu local remote answer' with Some q => (splice buf 0 q, Some q) | None => (buf, None) end) /\
  (overhead dns remote + Zlen answer <= umtu -> answer' = answer).
Proof.
  intros umtu dns. destruct (exchange l nx local remote dns query out reply) as [[events a] dest] eqn:Ex.
  intros answer' Hg Hm H Hwl Hwr Ht Hbq Hp Hfit Hout Hbuf Hba Hrep.
  destruct (compute_udp_mtu_range o mtu Hm) as [Hu Hu']. fold umtu in Hu, Hu'.
  assert (Zlen query <= umtu) as Hq.
  { rewrite length_udp_message in Hfit by done. destruct dns, (type remote =? 1); lia. }
  assert (0 <= overhead dns remote) by (unfold overhead; destruct dns; [|destruct (type remote =? 1)]; lia).
  split_and!.
  - unfold umtu, dns. apply (device_accepts o mtu local remote query p); try done. lia.
  - pose proof (exchange_abs umtu max c l nx local remote dns query answer reply out Hu Hu' H Hwl Hwr Hq Hfit Hout Hrep) as He.
    pose proof (exchange_valid umtu l nx local remote dns query out reply Hwl Hwr Hq Hout (proj1 Hrep)) as Hv.
    rewrite Ex in He, Hv. destruct He as (s' & He).
    destruct (client_run_refines umtu max events c _ _ Hu Hu' H Hv He) as (c' & Hc & _). by exists c'.
  - apply handler_received_ok; try done; [lia|by apply Forall_take|].
    unfold answer'. rewrite length_take. unfold INT_MAX in *. lia.
  - intros Hl. unfold answer'. by rewrite take_ge by lia.
Qed.

End Client.
Arguments client : clear implicits.
(** ** Examples *)
Import TunDevice.
Definition demo_a : BAddr := BADDR_IPV4 0x0200000a 0x3930.
Definition demo_b : BAddr := BADDR_IPV4 0x0200000a 0x3a30.
Definition demo_server : BAddr := BADDR_IPV4 0x08080808 0x5000.
Definition demo_out : list Z := replicate 40 0.
Definition demo_con : connection := mkCon (mkConaddr demo_a demo_server) None false false.
Definition demo_reply : list Z := udp_message false demo_server [7; 8; 9].

Lemma udp_request_exact_witness :
  connection_send 40 demo_con (Some demo_out) [1; 2; 3] =
    Ok (Some [0; 0; 0; 1; 8; 8; 8; 8; 0; 80; 1; 2; 3]) /\
  connection_send 40 demo_con (Some demo_out) (replicate 35 1) = Fault.
Proof.
  assert (wf (remote_addr (con_addr demo_con))) as Hw by (vm_compute; repeat split; discriminate).
  assert (Zlen demo_out = 40) as Ho by reflexivity. split.
  - apply (udp_request_exact 40 demo_con demo_out [1; 2; 3] Hw Ho); vm_compute; discriminate.
  - apply (udp_request_exact 40 demo_con demo_out (replicate 35 1) Hw Ho); [vm_compute; discriminate|reflexivity].
Defined.

Lemma udp_received_exact_witness :
  exists o' r, dgram_handler_received 40 62 demo_con demo_reply (Zlen demo_reply) = Ok (o', r) /\
    r = Some (demo_a, demo_server, [7; 8; 9]).
Proof.
  destruct (udp_received_exact 40 62 demo_con demo_reply) as (o' & r & Hr & Ho & Hs).
  - apply bytesb. reflexivity.
  - vm_compute. split; discriminate.
  - exists o', r. split; [exact Hr|]. apply Hs. vm_compute in Hr. injection Hr as <- _.
    repeat split; [vm_compute; discriminate|]. exists [0; 0], 1.
    split_and!; [reflexivity| |reflexivity|reflexivity]. vm_compute. repeat split; discriminate.
Defined.

Definition demo_events : list op :=
  [Submit demo_a demo_server false [1] true None; FirstJob 1 (Some demo_out);
   Submit demo_b demo_server false [2] true None; FirstJob 2 (Some demo_out); Receive 2 demo_reply;
   Submit demo_b demo_server false [3] true (Some demo_out)].

Lemma demo_wf : wf demo_a /\ wf demo_b /\ wf demo_server.
Proof. vm_compute. repeat split; discriminate. Qed.

Lemma udp_client_refines_lru_witness :
  exists o, run (T := avl_tree) (SocksUdpGwClient_Init 40 1 0) demo_events =
      Ok (o, [SendPacket 1 false (udp_message false demo_server [1]);
              SendPacket 2 false (udp_message false demo_server [2]); Deliver demo_b demo_server [7; 8; 9];
              SendPacket 2 false (udp_message false demo_server [3])]) /\
    num_connections o = 1 /\ jobs o = [].
Proof.
  destruct demo_wf as (Ha & Hb & Hs).
  destruct (udp_client_refines_lru (T := avl_tree) 40 1 demo_events
    (Ok ([(2%positive, mkCon (mkConaddr demo_b demo_server) None false false)], 3%positive, [],
      [SendPacket 1 false (udp_message false demo_server [1]);
       SendPacket 2 false (udp_message false demo_server [2]); Deliver demo_b demo_server [7; 8; 9];
       SendPacket 2 false (udp_message false demo_server [3])]))) as ((o & Hr & _ & _ & Hj & Hn & _) & _).
  - lia.
  - vm_compute. discriminate.
  - lia.
  - repeat constructor; try done; try (by intros b [= <-]); try (vm_compute; discriminate).
    all: apply bytesb; reflexivity.
  - vm_compute. reflexivity.
  - exists o. split; [exact Hr|]. split; [exact Hn|exact Hj].
Defined.

(** Without the order of the reactor: a connection is freed while its first
    packet is waiting, and the job runs on what is no longer there. *)
Lemma stale_first_job :
  run (T := avl_tree) (SocksUdpGwClient_Init 40 1 0)
    [Submit demo_a demo_server false [1] true None; Submit demo_b demo_server false [2] true None;
     FirstJob 2 (Some demo_out); FirstJob 1 (Some demo_out)] = Fault.
Proof. vm_compute. reflexivity. Qed.

(** A query to the DNS address goes to the SOCKS server when the socket of its
    local address was opened for another packet. *)
Lemma dns_wrong_server :
  exists o, run (T := avl_tree) (SocksUdpGwClient_Init 40 1 0)
    [Submit demo_a demo_server false [1] true None; FirstJob 1 (Some demo_out);
     Submit demo_a demo_server true [2] true (Some demo_out)] =
    Ok (o, [SendPacket 1 false (udp_message false demo_server [1]); SendPacket 1 false [2]]).
Proof. eexists. vm_compute. reflexivity. Qed.

(** An answer longer than what the MTU leaves after its header is delivered
    without its end. *)
Lemma long_answer_cut :
  exists o, run (T := avl_tree) (SocksUdpGwClient_Init 12 1 0)
    [Submit demo_a demo_server false [1] true None; FirstJob 1 (Some (replicate 12 0)); Receive 1 demo_reply] =
    Ok (o, [SendPacket 1 false (udp_message false demo_server [1]); Deliver demo_a demo_server [7; 8]]).
Proof. eexists. vm_compute. reflexivity. Qed.

Lemma udp_relay_path_witness :
  exists c', run (T := avl_tree) (SocksUdpGwClient_Init 36 8 0)
    [Submit demo_a demo_server false [1; 2] true None; FirstJob 1 (Some (replicate 36 0)); Receive 1 demo_reply] =
    Ok (c', [SendPacket 1 false (udp_message false demo_server [1; 2]); Deliver demo_a demo_server [7; 8; 9]]).
Proof.
  destruct demo_wf as (Ha & _ & Hs).
  destruct (udp_packet demo_options 64 demo_server demo_a [1; 2]) as [p|] eqn:Hp; [|vm_compute in Hp; discriminate].
  pose proof (udp_relay_path (T := avl_tree) demo_options 64 8 (SocksUdpGwClient_Init 36 8 0) [] 1
    demo_a demo_server [1; 2] p [7; 8; 9] demo_reply (replicate 36 0) (replicate 64 0)) as H.
  cbv zeta beta iota in H. apply H; clear H.
  - reflexivity.
  - vm_compute. split; discriminate.
  - apply (client_init_refines 36 8). lia.
  - exact Ha.
  - exact Hs.
  - reflexivity.
  - apply bytesb. reflexivity.
  - exact Hp.
  - vm_compute. discriminate.
  - reflexivity.
  - reflexivity.
  - apply bytesb. reflexivity.
  - split; [apply bytesb; reflexivity|].
    exists [0; 0], 1. split_and!; [reflexivity|exact Hs|reflexivity|reflexivity].
Defined.

End SocksUdpGw.
