(* ===== verification/UdpGwClient.v ===== *)
(** The client of a udpgw server (udpgw_client/UdpGwClient.c): datagrams of many
    pairs of addresses multiplexed over one stream, each pair with a connection
    identifier. The connections are kept in two search trees, by addresses and
    by identifier, and in a list from least to most recently used. The queue
    to the server appears as the packets handed to the connections' writers. *)
From Stdlib Require Import ZArith Lia.
From stdpp Require Import base tactics numbers option gmap list.
From S2P Require Import Prelude LinkedList Bavl Trees Tables ByteOrder NetProto Addr TunDevice PacketProto SocksUdpGw.
Import ByteOrder NetProto BAddr UdpGwProto.

Module UdpGwClient.

(** [UdpGwClient_conaddr] *)
Record conaddr := mkConaddr { local_addr : BAddr; remote_addr : BAddr }.

(** [UdpGwClient_connection]; [first] is what [first_job] sends while it is
    set. *)
Record connection := mkCon { con_addr : conaddr; conid : Z; first : option (Z * list Z) }.

Definition uint16_comparator (v1 v2 : Z) : Z := B_COMPARE v1 v2.

Definition conaddr_comparator (v1 v2 : conaddr) : Z :=
  let r := BAddr_CompareOrder (remote_addr v1) (remote_addr v2) in
  if negb (r =? 0) then r else BAddr_CompareOrder (local_addr v1) (local_addr v2).

#[global] Instance uint16_Comparator : Comparator uint16_comparator.
Proof. unfold uint16_comparator. exact _. Qed.
#[global] Instance conaddr_Comparator : Comparator conaddr_comparator.
Proof.
  apply (comparator_lex (fun v1 v2 => BAddr_CompareOrder (remote_addr v1) (remote_addr v2))
           (fun v1 v2 => BAddr_CompareOrder (local_addr v1) (local_addr v2)));
    by apply comparator_preimage, _.
Qed.

(** ** Packets *)

(** [out] is the memory of the connection's writer, of [udpgw_mtu] bytes, or
    [None] when its buffer is full; the result is the packet submitted. *)
Definition connection_send (udp_mtu udpgw_mtu : Z) (con : connection) (flags : Z) (out : option (list Z))
    (data : list Z) : outcome (option (list Z)) :=
  ASSERT (Zlen data <=? udp_mtu);;
  match out with
  | None => Ok None
  | Some out =>
      let remote := remote_addr (con_addr con) in
      let flags := if type remote =? 2 then Z.lor flags UDPGW_CLIENT_FLAG_IPV6 else flags in
      mem_write out 0 (le_bytes 1 (ltoh8 flags) ++ le_bytes 2 (ltoh16 (conid con))) ≫= fun out =>
      write_addr out sizeof_udpgw_header remote ≫= fun '((out, out_pos) : list Z * Z) =>
      mem_write out out_pos data ≫= fun out =>
      let out_pos := out_pos + Zlen data in
      ASSERT ((0 <=? out_pos) && (out_pos <=? udpgw_mtu));;
      mem_read out 0 out_pos ≫= fun packet => Ok (Some packet)
  end.

(** The part of [recv_interface_handler_send] that parses the packet: the
    identifier, the address, the data. *)
Definition parse_packet (udp_mtu : Z) (data : list Z) (data_len : Z) : outcome (option (Z * BAddr * list Z)) :=
  if u64 data_len <? sizeof_udpgw_header then Ok None else
  mem_read data 0 sizeof_udpgw_header ≫= fun header =>
  let flags := ltoh8 (le_val (slice header 0 1)) in
  let id := ltoh16 (le_val (slice header 1 2)) in
  parse_addr (negb (Z.land flags UDPGW_CLIENT_FLAG_IPV6 =? 0)) data sizeof_udpgw_header
    (data_len - sizeof_udpgw_header) ≫= fun r =>
  match r with
  | None => Ok None
  | Some (remote, off, data_len) =>
      if udp_mtu <? data_len then Ok None else
      mem_read data off data_len ≫= fun payload => Ok (Some (id, remote, payload))
  end.

(** The packet [send_monitor_handler] sends, with its framing. *)
Definition keepalive_packet : list Z := le_bytes 2 sizeof_udpgw_header ++ [UDPGW_CLIENT_FLAG_KEEPALIVE; 0; 0].

(** ** The format of packets *)
Definition all_flags (flags : Z) (remote : BAddr) : Z :=
  if type remote =? 2 then Z.lor flags UDPGW_CLIENT_FLAG_IPV6 else flags.
Definition message (flags id : Z) (remote : BAddr) (data : list Z) : list Z :=
  (le_bytes 1 (all_flags flags remote) ++ le_bytes 2 id) ++ addr_bytes remote ++ data.

(** A packet with identifier, address and data; the flag for IPv6 agrees with
    the address. *)
Definition carries (data : list Z) (id : Z) (remote : BAddr) (payload : list Z) : Prop :=
  exists flags, is_byte flags /\ 0 <= id < 2 ^ 16 /\ wf remote /\
    negb (Z.land flags UDPGW_CLIENT_FLAG_IPV6 =? 0) = (type remote =? 2) /\
    data = ([flags] ++ le_bytes 2 id) ++ addr_bytes remote ++ payload.

Lemma addr_overhead a : wf a -> 6 <= Zlen (addr_bytes a) <= 18.
Proof. intros Hw. rewrite length_addr_bytes by done. destruct (_ =? _); lia. Qed.

Lemma gw_connection_send_ok mtu umtu con flags out data :
  wf (remote_addr (con_addr con)) -> Zlen data <= mtu -> umtu = mtu + 21 ->
  (forall b, out = Some b -> Zlen b = umtu) ->
  connection_send mtu umtu con flags out data =
    Ok (if bool_decide (is_Some out) then Some (message flags (conid con) (remote_addr (con_addr con)) data) else None).
Proof.
  intros Hw Hd Hu Hout. unfold connection_send. rewrite bind_ASSERT_true by lia. destruct out as [out|]; [|done].
  specialize (Hout out eq_refl). set (r := remote_addr (con_addr con)) in *. pose proof (addr_overhead r Hw) as Ha.
  fold (all_flags flags r). unfold ltoh8, ltoh16, htol8, htol16. set (hdr := le_bytes 1 _ ++ le_bytes 2 _).
  assert (length hdr = 3%nat) as Hh by (unfold hdr; by rewrite length_app, !length_le_bytes).
  rewrite mem_write_fits, (proj2 (Z.leb_le _ _)) by lia. cbn [mbind outcome_bind].
  rewrite write_addr_ok, length_splice, (proj2 (Z.leb_le _ _)) by (done || unfold sizeof_udpgw_header; lia).
  cbn [mbind outcome_bind]. unfold sizeof_udpgw_header.
  rewrite (SocksUdpGw.splice_next out 0 3 hdr) by lia.
  rewrite mem_write_fits, length_splice, (proj2 (Z.leb_le _ (Zlen out))) by (rewrite ?length_app; lia). cbn [mbind outcome_bind].
  rewrite bind_ASSERT_true by lia.
  rewrite (SocksUdpGw.splice_next out 0) by (rewrite ?length_app; lia). rewrite <- app_assoc.
  change (hdr ++ addr_bytes r ++ data) with (message flags (conid con) r data). set (m := message _ _ _ _).
  assert (Zlen m = 3 + Zlen (addr_bytes r) + Zlen data) as Hm.
  { unfold m, message. fold hdr. rewrite !length_app. lia. }
  rewrite <- Hm, (proj2 (mem_read_Ok _ 0 (Zlen m) m)); [done|].
  rewrite length_splice by lia. split; [lia|]. by rewrite SocksUdpGw.splice_front by lia.
Qed.

Lemma carries_parse mtu data id remote payload : Zlen data <= INT_MAX -> carries data id remote payload ->
  parse_packet mtu data (Zlen data) = Ok (if mtu <? Zlen payload then None else Some (id, remote, payload)).
Proof.
  intros Hlen (flags & Hf & Hid & Hw & Hv6 & Hd). unfold INT_MAX in Hlen. set (hdr := [flags] ++ le_bytes 2 id) in Hd.
  assert (Zlen hdr = 3) as Hh by (unfold hdr; by rewrite length_app, length_le_bytes).
  assert (Zlen data = 3 + Zlen (addr_bytes remote) + Zlen payload) as Hl by (rewrite Hd, !length_app; lia).
  unfold parse_packet, sizeof_udpgw_header. rewrite u64_small, (proj2 (Z.ltb_ge _ _)) by lia.
  rewrite (proj2 (mem_read_Ok data 0 3 hdr)); [|split; [lia|]; by rewrite Hd, TunDevice.slice_app_l].
  cbn [mbind outcome_bind]. unfold ltoh8, ltoh16, htol8, htol16.
  assert (le_val (slice hdr 0 1) = flags) as -> by (change (slice hdr 0 1) with [flags]; unfold le_val; lia).
  assert (le_val (slice hdr 1 2) = id) as ->.
  { unfold hdr. rewrite TunDevice.slice_app_r0 by done. rewrite TunDevice.slice_all_n by (by rewrite length_le_bytes).
    apply TunDevice.le_val_small. cbn. lia. }
  rewrite Hv6. pose proof (parse_addr_ok remote hdr payload (Zlen data - 3) Hw) as Hp. rewrite <- Hd, Hh in Hp.
  rewrite Hp; [|rewrite length_app; lia|unfold INT_MAX; lia]. cbn [mbind outcome_bind].
  destruct (mtu <? Zlen payload); [done|].
  rewrite (proj2 (mem_read_Ok data (3 + Zlen (addr_bytes remote)) (Zlen payload) payload)); [done|].
  split; [lia|]. rewrite Hd, app_assoc, TunDevice.slice_app_r0 by (rewrite length_app; lia).
  by rewrite TunDevice.slice_all_n.
Qed.

(** A packet that ends before its address does. *)
Definition too_short (data : list Z) : Prop :=
  Zlen data < 3 \/ exists flags i0 i1 rest, data = [flags; i0; i1] ++ rest /\
    Zlen rest < if negb (Z.land flags UDPGW_CLIENT_FLAG_IPV6 =? 0) then 18 else 6.

Lemma too_short_parse mtu data : Zlen data <= INT_MAX -> too_short data -> parse_packet mtu data (Zlen data) = Ok None.
Proof.
  intros Hlen H. unfold INT_MAX in Hlen. unfold parse_packet, sizeof_udpgw_header. rewrite u64_small by lia.
  destruct H as [H|(flags & i0 & i1 & rest & Hd & Hr)]; [by rewrite (proj2 (Z.ltb_lt _ _)) by lia|].
  assert (Zlen data = 3 + Zlen rest) as Hl by (rewrite Hd, length_app; cbn [length]; lia).
  rewrite (proj2 (Z.ltb_ge _ _)) by lia.
  rewrite (proj2 (mem_read_Ok data 0 3 [flags; i0; i1])); [|split; [lia|]; by rewrite Hd, TunDevice.slice_app_l].
  cbn [mbind outcome_bind]. unfold ltoh8, ltoh16, htol8, htol16.
  assert (le_val (slice [flags; i0; i1] 0 1) = flags) as ->
    by (change (slice [flags; i0; i1] 0 1) with [flags]; unfold le_val; lia).
  unfold parse_addr, sizeof_udpgw_addr_ipv6, sizeof_udpgw_addr_ipv4. rewrite u64_small by lia.
  by destruct (negb _); rewrite (proj2 (Z.ltb_lt _ _)) by lia.
Qed.

Lemma carries_or data : bytes data -> (exists id remote payload, carries data id remote payload) \/ too_short data.
Proof.
  intros Hb. destruct data as [|flags [|i0 [|i1 rest]]]; [right; left; cbn; lia..|].
  set (v6 := negb (Z.land flags UDPGW_CLIENT_FLAG_IPV6 =? 0)). set (n := if v6 then 18 else 6).
  destruct (decide (Zlen rest < n)) as [|Hn]; [right; right; by do 4 eexists|]. left.
  apply Forall_cons in Hb as [Hf Hb]. apply Forall_cons in Hb as [Hi0 Hb]. apply Forall_cons in Hb as [Hi1 Hb].
  destruct (SocksUdpGw.addr_of_bytes v6 (take (Z.to_nat n) rest)) as (a & Hw & Ht & Ha).
  { by apply Forall_take. }
  { rewrite length_take. unfold n in *. destruct v6; lia. }
  assert (bytes [i0; i1]) as Hbi by (by rewrite !Forall_cons).
  exists (le_val [i0; i1]), a, (drop (Z.to_nat n) rest), flags. split_and!; try done.
  - by apply (le_val_range [i0; i1]).
  - pose proof (le_val_range [i0; i1] Hbi). cbn [length] in *. lia.
  - fold v6. rewrite Ht. by destruct v6.
  - pose proof (le_bytes_le_val [i0; i1] Hbi) as Hv. cbn [length] in Hv. by rewrite Ha, take_drop, Hv.
Qed.

(** Parsing accepts exactly the packets of the format. *)
Lemma parse_packet_exact mtu data : bytes data -> Zlen data <= INT_MAX ->
  exists r, parse_packet mtu data (Zlen data) = Ok r /\
    forall id remote payload, r = Some (id, remote, payload) <-> carries data id remote payload /\ Zlen payload <= mtu.
Proof.
  intros Hb Hlen. destruct (carries_or data Hb) as [(id & remote & payload & Hc)|Hs].
  - eexists. split; [by apply (carries_parse mtu data id remote payload)|]. intros id' remote' payload'. split.
    + destruct (Z.ltb_spec mtu (Zlen payload)); [done|]. intros [= <- <- <-]. done.
    + intros [Hc' Hle]. pose proof (carries_parse mtu _ _ _ _ Hlen Hc) as E.
      rewrite (carries_parse mtu _ _ _ _ Hlen Hc') in E. rewrite (proj2 (Z.ltb_ge _ _)) in E by lia.
      by injection E as <-.
  - exists None. split; [by apply too_short_parse|]. intros id remote payload. split; [done|]. intros [Hc _].
    pose proof (carries_parse (Zlen payload) _ _ _ _ Hlen Hc) as E. rewrite too_short_parse in E by done.
    by rewrite Z.ltb_irrefl in E.
Qed.

(** What is sent is of the format. *)
Lemma message_carries flags id remote data : flags ∈ [0; 2; 4; 6] -> 0 <= id < 2 ^ 16 -> wf remote ->
  carries (message flags id remote data) id remote data.
Proof.
  intros Hf Hid Hw. exists (all_flags flags remote). unfold message, all_flags.
  assert (exists f, le_bytes 1 (if type remote =? 2 then Z.lor flags UDPGW_CLIENT_FLAG_IPV6 else flags) = [f] /\
    f = (if type remote =? 2 then Z.lor flags UDPGW_CLIENT_FLAG_IPV6 else flags) /\ is_byte f /\
    negb (Z.land f UDPGW_CLIENT_FLAG_IPV6 =? 0) = (type remote =? 2)) as (f & -> & <- & Hb & Hv).
  { rewrite !elem_of_cons, elem_of_nil in Hf.
    destruct Hf as [->|[->|[->|[->|[]]]]]; destruct (type remote =? 2); by eexists. }
  done.
Qed.

(** It is framed as every packet to the server is. *)
Lemma keepalive_framed : keepalive_packet = encode [UDPGW_CLIENT_FLAG_KEEPALIVE; 0; 0].
Proof. reflexivity. Qed.

(** ** The client *)
Section Client.
Context {Ta Ti : Type} `{!Tree conaddr_comparator Ta} `{!Tree uint16_comparator Ti}.

Record client := mkClient {
  udp_mtu : Z; max_connections : Z; udpgw_mtu : Z; pp_mtu : Z;
  connections : gmap loc connection; by_conaddr : Ta; by_conid : Ti; connections_list : list loc;
  num_connections : Z; next_conid : Z; keepalive_sending : bool; have_server : bool;
  next : loc (* the address malloc returns next *)
}.

Definition set_table (o : client) (m : gmap loc connection) (ta : Ta) (ti : Ti) (l : list loc) (n : Z) (nx : loc) : client :=
  mkClient (udp_mtu o) (max_connections o) (udpgw_mtu o) (pp_mtu o) m ta ti l n (next_conid o)
    (keepalive_sending o) (have_server o) nx.
Definition set_next_conid (o : client) (k : Z) : client :=
  mkClient (udp_mtu o) (max_connections o) (udpgw_mtu o) (pp_mtu o) (connections o) (by_conaddr o) (by_conid o)
    (connections_list o) (num_connections o) k (keepalive_sending o) (have_server o) (next o).
Definition set_flags (o : client) (ka hs : bool) : client :=
  mkClient (udp_mtu o) (max_connections o) (udpgw_mtu o) (pp_mtu o) (connections o) (by_conaddr o) (by_conid o)
    (connections_list o) (num_connections o) (next_conid o) ka hs (next o).

Definition none_addr : conaddr := mkConaddr BADDR_NONE BADDR_NONE.
Abbreviation addr_value := (key_of con_addr none_addr).
Abbreviation id_value := (key_of conid 0).

Definition find_connection_by_conaddr (o : client) (ca : conaddr) : outcome (option loc) :=
  tree_lookup (addr_value (connections o)) (by_conaddr o) ca.
Definition find_connection_by_conid (o : client) (k : Z) : outcome (option loc) :=
  tree_lookup (id_value (connections o)) (by_conid o) k.

(** The loop; [next_conid] is passed to [find_connection_by_conid] as a
    [uint16_t]. *)
Fixpoint conid_loop (fuel : nat) (o : client) : outcome (client * Z) :=
  match fuel with
  | O => Fault
  | S fuel =>
      find_connection_by_conid o (u16 (next_conid o)) ≫= fun r =>
      match r with
      | None => Ok (o, u16 (next_conid o))
      | Some _ =>
          conid_loop fuel (set_next_conid o
            (if next_conid o =? max_connections o - 1 then 0 else next_conid o + 1))
      end
  end.
Definition find_unused_conid (o : client) : outcome (client * Z) :=
  ASSERT (num_connections o <? max_connections o);;
  conid_loop (Z.to_nat (max_connections o)) o.

(** [malloc_ok] and [flow_ok]: whether [malloc] and [PacketProtoFlow_Init]
    succeed. *)
Definition connection_init (o : client) (ca : conaddr) (flags : Z) (data : list Z) (malloc_ok flow_ok : bool)
    : outcome client :=
  ASSERT (num_connections o <? max_connections o);;
  find_connection_by_conaddr o ca ≫= fun r =>
  ASSERT (bool_decide (r = None));;
  ASSERT (Zlen data <=? udp_mtu o);;
  if negb malloc_ok then Ok o else
  find_unused_conid o ≫= fun '((o, k) : client * Z) =>
  if negb flow_ok then Ok o else
  let a := next o in
  let m := <[a := mkCon ca k (Some (flags, data))]> (connections o) in
  tree_insert (addr_value m) (by_conaddr o) a ≫= fun '((ta, inserted) : Ta * bool) =>
  ASSERT inserted;;
  tree_insert (id_value m) (by_conid o) a ≫= fun '((ti, inserted) : Ti * bool) =>
  ASSERT inserted;;
  Ok (set_table o m ta ti (connections_list o ++ [a]) (num_connections o + 1) (Pos.succ a)).

Definition connection_free (o : client) (a : loc) : outcome client :=
  of_option (connections o !! a) ≫= fun _ =>
  tree_remove (by_conid o) a ≫= fun ti =>
  tree_remove (by_conaddr o) a ≫= fun ta =>
  Ok (set_table o (delete a (connections o)) ta ti (LinkedList1.remove_node a (connections_list o))
        (num_connections o - 1) (next o)).

Definition reuse_connection (o : client) (ca : conaddr) : outcome (client * loc) :=
  find_connection_by_conaddr o ca ≫= fun r =>
  ASSERT (bool_decide (r = None));;
  ASSERT (0 <? num_connections o);;
  of_option (head (connections_list o)) ≫= fun a =>
  of_option (connections o !! a) ≫= fun c =>
  tree_remove (by_conaddr o) a ≫= fun ta =>
  let m := <[a := mkCon ca (conid c) (first c)]> (connections o) in
  tree_insert (addr_value m) ta a ≫= fun '((ta, inserted) : Ta * bool) =>
  ASSERT inserted;;
  Ok (set_table o m ta (by_conid o) (connections_list o) (num_connections o) (next o), a).

Definition move_last (o : client) (a : loc) : client :=
  set_table o (connections o) (by_conaddr o) (by_conid o) (LinkedList1.remove_node a (connections_list o) ++ [a])
    (num_connections o) (next o).

(** ** Events and what they produce *)
Inductive output :=
| SendPacket (a : loc) (p : list Z) | SendKeepalive (p : list Z)
| Deliver (local remote : BAddr) (p : list Z) | ServerError | ConnectOutput | DisconnectOutput.

Definition sent (a : loc) (r : option (list Z)) : list output :=
  match r with Some p => [SendPacket a p] | None => [] end.

Definition send_at (o : client) (a : loc) (flags : Z) (out : option (list Z)) (data : list Z)
    : outcome (client * list output) :=
  of_option (connections o !! a) ≫= fun c =>
  connection_send (udp_mtu o) (udpgw_mtu o) c flags out data ≫= fun r => Ok (o, sent a r).

Definition connection_first_job_handler (o : client) (a : loc) (out : option (list Z)) : outcome (client * list output) :=
  of_option (connections o !! a) ≫= fun c =>
  of_option (first c) ≫= fun '((first_flags, first_data) : Z * list Z) =>
  send_at (set_table o (<[a := mkCon (con_addr c) (conid c) None]> (connections o)) (by_conaddr o) (by_conid o)
             (connections_list o) (num_connections o) (next o))
    a (Z.lor UDPGW_CLIENT_FLAG_REBIND first_flags) out first_data.

Definition UdpGwClient_SubmitPacket (o : client) (local remote : BAddr) (is_dns : bool) (data : list Z)
    (malloc_ok flow_ok : bool) (out : option (list Z)) : outcome (client * list output) :=
  ASSERT ((type local =? 1) || (type local =? 2));;
  ASSERT ((type remote =? 1) || (type remote =? 2));;
  ASSERT (Zlen data <=? udp_mtu o);;
  let ca := mkConaddr local remote in
  find_connection_by_conaddr o ca ≫= fun con =>
  let flags := if is_dns then UDPGW_CLIENT_FLAG_DNS else 0 in
  (if bool_decide (con = None) && (num_connections o =? max_connections o)
   then reuse_connection o ca ≫= fun '((o, a) : client * loc) => Ok (o, Some a, Z.lor flags UDPGW_CLIENT_FLAG_REBIND)
   else Ok (o, con, flags)) ≫= fun '((o, con, flags) : client * option loc * Z) =>
  match con with
  | None => connection_init o ca flags data malloc_ok flow_ok ≫= fun o => Ok (o, [])
  | Some a => send_at (move_last o a) a flags out data
  end.

Definition recv_interface_handler_send (o : client) (data : list Z) (data_len : Z) : outcome (client * list output) :=
  ASSERT (have_server o);;
  ASSERT (0 <=? data_len);;
  ASSERT (data_len <=? udpgw_mtu o);;
  parse_packet (udp_mtu o) data data_len ≫= fun r =>
  match r with
  | None => Ok (o, [])
  | Some (id, remote, payload) =>
      find_connection_by_conid o id ≫= fun con =>
      match con with
      | None => Ok (o, [])
      | Some a =>
          of_option (connections o !! a) ≫= fun c =>
          if negb (BAddr_CompareOrder (remote_addr (con_addr c)) remote =? 0) then Ok (o, []) else
          Ok (move_last o a, [Deliver (local_addr (con_addr c)) (remote_addr (con_addr c)) payload])
      end
  end.

Definition decoder_handler_error (o : client) : outcome (client * list output) :=
  ASSERT (have_server o);; Ok (o, [ServerError]).

Definition send_monitor_handler (o : client) : outcome (client * list output) :=
  if keepalive_sending o then Ok (o, []) else
  Ok (set_flags o true (have_server o), [SendKeepalive keepalive_packet]).

Definition keepalive_if_handler_done (o : client) : outcome (client * list output) :=
  ASSERT (keepalive_sending o);; Ok (set_flags o false (have_server o), []).

Definition free_server : list output := [DisconnectOutput].

Definition UdpGwClient_ConnectServer (o : client) (decoder_ok : bool) : outcome (client * list output * Z) :=
  ASSERT (negb (have_server o));;
  if negb decoder_ok then Ok (o, [], 0) else
  Ok (set_flags o (keepalive_sending o) true, [ConnectOutput], 1).

Definition UdpGwClient_DisconnectServer (o : client) : outcome (client * list output) :=
  ASSERT (have_server o);;
  Ok (set_flags o (keepalive_sending o) false, free_server).

(** [None] when [PacketPassFairQueue_Init] fails. *)
Definition UdpGwClient_Init (mtu max send_buffer_size : Z) (queue_ok : bool) : outcome (option client) :=
  ASSERT (0 <=? mtu);;
  let um := udpgw_compute_mtu sizeof_udpgw_header mtu in
  ASSERT (0 <=? um);;
  ASSERT (um <=? PACKETPROTO_MAXPAYLOAD);;
  ASSERT (0 <? max);;
  ASSERT (0 <? send_buffer_size);;
  let max := if UINT16_MAX + 1 <? max then UINT16_MAX + 1 else max in
  if negb queue_ok then Ok None else
  Ok (Some (mkClient mtu max um (um + sizeof_packetproto_header) ∅ tree_init tree_init [] 0 0 false false 1%positive)).

Fixpoint free_connections (fuel : nat) (o : client) : outcome client :=
  match connections_list o with
  | [] => Ok o
  | a :: _ =>
      match fuel with
      | O => Fault
      | S fuel => connection_free o a ≫= free_connections fuel
      end
  end.
Definition UdpGwClient_Free (o : client) : outcome (client * list output) :=
  free_connections (length (connections_list o)) o ≫= fun o =>
  Ok (o, if have_server o then free_server else []).

(** ** Events *)
Inductive op :=
| Submit (local remote : BAddr) (is_dns : bool) (data : list Z) (malloc_ok flow_ok : bool) (out : option (list Z))
| FirstJob (a : loc) (out : option (list Z))
| Packet (data : list Z)
| DecoderError | Monitor | KeepaliveDone | Connect (decoder_ok : bool) | Disconnect.

Definition step (o : client) (x : op) : outcome (client * list output) :=
  match x with
  | Submit local remote is_dns data malloc_ok flow_ok out =>
      UdpGwClient_SubmitPacket o local remote is_dns data malloc_ok flow_ok out
  | FirstJob a out => connection_first_job_handler o a out
  | Packet data => recv_interface_handler_send o data (Zlen data)
  | DecoderError => decoder_handler_error o
  | Monitor => send_monitor_handler o
  | KeepaliveDone => keepalive_if_handler_done o
  | Connect decoder_ok =>
      UdpGwClient_ConnectServer o decoder_ok ≫= fun '((o, outs, _) : client * list output * Z) => Ok (o, outs)
  | Disconnect => UdpGwClient_DisconnectServer o
  end.

(** When the environment may produce an event: packets come while there is a
    server and are not larger than its interface allows, jobs run while they
    are set, memory handed out by a writer has the size it was made for. *)
Definition out_ok (o : client) (out : option (list Z)) : Prop := forall b, out = Some b -> Zlen b = udpgw_mtu o.
Definition enabled (o : client) (x : op) : Prop :=
  match x with
  | Submit local remote is_dns data _ _ out => wf local /\ wf remote /\ Zlen data <= udp_mtu o /\ out_ok o out
  | FirstJob a out => (exists c fd, connections o !! a = Some c /\ first c = Some fd) /\ out_ok o out
  | Packet data => have_server o = true /\ bytes data /\ Zlen data <= udpgw_mtu o
  | DecoderError | Disconnect => have_server o = true
  | Monitor => True
  | KeepaliveDone => keepalive_sending o = true
  | Connect _ => have_server o = false
  end.

Inductive run : client -> list op -> client -> list output -> Prop :=
| run_nil o : run o [] o []
| run_cons o x o' outs xs o'' outs' :
    enabled o x -> step o x = Ok (o', outs) -> run o' xs o'' outs' -> run o (x :: xs) o'' (outs ++ outs').

(** ** What the client promises

    A table of at most [max] connections from least to most recently used, each
    with its pair of addresses and its identifier; whether a keepalive is under
    way and whether there is a server. *)
Abbreviation table := (list (loc * connection)).
Record abs := mkAbs { tbl : table; ka : bool; srv : bool }.

Definition find_addr (ca : conaddr) (l : table) := find_key con_addr conaddr_comparator ca l.
Definition find_id (k : Z) (l : table) := find_key conid uint16_comparator k l.
Definition dns_flag (is_dns : bool) : Z := if is_dns then UDPGW_CLIENT_FLAG_DNS else 0.

(** A packet of connection [c], if its buffer had room. *)
Definition sends (a : loc) (flags : Z) (c : connection) (data : list Z) (out : option (list Z)) : list output :=
  if bool_decide (is_Some out)
  then [SendPacket a (message flags (conid c) (remote_addr (con_addr c)) data)] else [].

Inductive abs_step (mtu max : Z) : abs -> op -> abs -> list output -> Prop :=
| abs_submit_known l1 a c l2 k h remote local is_dns data mo fo out :
    con_addr c = mkConaddr local remote ->
    abs_step mtu max (mkAbs (l1 ++ (a, c) :: l2) k h) (Submit local remote is_dns data mo fo out)
      (mkAbs (l1 ++ l2 ++ [(a, c)]) k h) (sends a (dns_flag is_dns) c data out)
| abs_submit_reuse a c l k h remote local is_dns data mo fo out :
    find_addr (mkConaddr local remote) ((a, c) :: l) = None -> Zlen ((a, c) :: l) = max ->
    let c' := mkCon (mkConaddr local remote) (conid c) (first c) in
    abs_step mtu max (mkAbs ((a, c) :: l) k h) (Submit local remote is_dns data mo fo out)
      (mkAbs (l ++ [(a, c')]) k h) (sends a (Z.lor (dns_flag is_dns) UDPGW_CLIENT_FLAG_REBIND) c' data out)
| abs_submit_new l a id k h remote local is_dns data out :
    find_addr (mkConaddr local remote) l = None -> Zlen l < max ->
    a ∉ l.*1 -> 0 <= id < max -> find_id id l = None ->
    abs_step mtu max (mkAbs l k h) (Submit local remote is_dns data true true out)
      (mkAbs (l ++ [(a, mkCon (mkConaddr local remote) id (Some (dns_flag is_dns, data)))]) k h) []
| abs_submit_fail l k h remote local is_dns data mo fo out :
    find_addr (mkConaddr local remote) l = None -> Zlen l < max -> mo && fo = false ->
    abs_step mtu max (mkAbs l k h) (Submit local remote is_dns data mo fo out) (mkAbs l k h) []
| abs_first l1 a c l2 flags data k h out :
    first c = Some (flags, data) ->
    abs_step mtu max (mkAbs (l1 ++ (a, c) :: l2) k h) (FirstJob a out)
      (mkAbs (l1 ++ (a, mkCon (con_addr c) (conid c) None) :: l2) k h)
      (sends a (Z.lor UDPGW_CLIENT_FLAG_REBIND flags) c data out)
| abs_deliver l1 a c l2 k data payload :
    carries data (conid c) (remote_addr (con_addr c)) payload -> Zlen payload <= mtu ->
    abs_step mtu max (mkAbs (l1 ++ (a, c) :: l2) k true) (Packet data)
      (mkAbs (l1 ++ l2 ++ [(a, c)]) k true)
      [Deliver (local_addr (con_addr c)) (remote_addr (con_addr c)) payload]
| abs_drop l k data :
    (forall a c payload, (a, c) ∈ l -> carries data (conid c) (remote_addr (con_addr c)) payload ->
       Zlen payload <= mtu -> False) ->
    abs_step mtu max (mkAbs l k true) (Packet data) (mkAbs l k true) []
| abs_error l k : abs_step mtu max (mkAbs l k true) DecoderError (mkAbs l k true) [ServerError]
| abs_monitor l k h :
    abs_step mtu max (mkAbs l k h) Monitor (mkAbs l true h) (if k then [] else [SendKeepalive keepalive_packet])
| abs_keepalive_done l h : abs_step mtu max (mkAbs l true h) KeepaliveDone (mkAbs l false h) []
| abs_connect l k ok :
    abs_step mtu max (mkAbs l k false) (Connect ok) (mkAbs l k ok) (if ok then [ConnectOutput] else [])
| abs_disconnect l k : abs_step mtu max (mkAbs l k true) Disconnect (mkAbs l k false) [DisconnectOutput].

Inductive abs_run (mtu max : Z) : abs -> list op -> abs -> list output -> Prop :=
| abs_run_nil s : abs_run mtu max s [] s []
| abs_run_cons s x s' outs xs s'' outs' :
    abs_step mtu max s x s' outs -> abs_run mtu max s' xs s'' outs' -> abs_run mtu max s (x :: xs) s'' (outs ++ outs').

(** ** The invariant *)
Definition entry_ok (mtu max : Z) (c : connection) : Prop :=
  wf (local_addr (con_addr c)) /\ wf (remote_addr (con_addr c)) /\ 0 <= conid c < max /\
  forall flags data, first c = Some (flags, data) -> Zlen data <= mtu.

Record core_inv (mtu max : Z) (o : client) (l : table) : Prop := {
  inv_addr : indexed con_addr none_addr conaddr_comparator (connections o) (by_conaddr o) l;
  inv_id : indexed conid 0 uint16_comparator (connections o) (by_conid o) l;
  inv_num : num_connections o = Zlen l;
  inv_mtu : udp_mtu o = mtu /\ 0 <= mtu /\ udpgw_mtu o = mtu + 21 /\ mtu + 21 <= UINT16_MAX;
  inv_max : max_connections o = max /\ 0 < max <= UINT16_MAX + 1 /\ Zlen l <= max;
  inv_next : Forall (fun e => Pos.lt (fst e) (next o)) l;
  inv_next_conid : 0 <= next_conid o < max;
  inv_entries : Forall (fun e => entry_ok mtu max (snd e)) l
}.
Definition refines (mtu max : Z) (o : client) (s : abs) : Prop :=
  connections_list o = (tbl s).*1 /\ keepalive_sending o = ka s /\ have_server o = srv s /\ core_inv mtu max o (tbl s).

(** ** Proofs *)
Lemma cmp_same {K} (cmp : K -> K -> Z) `{!Comparator cmp} x : cmp x x = 0.
Proof. pose proof (cmp_antisym x x). lia. Qed.

Lemma conaddr_eq ca ca' : wf (local_addr ca) -> wf (remote_addr ca) -> wf (local_addr ca') -> wf (remote_addr ca') ->
  conaddr_comparator ca ca' = 0 -> ca = ca'.
Proof.
  intros ? ? ? ?. unfold conaddr_comparator. destruct (_ =? 0) eqn:E; cbn [negb]; zify_bool; [|done].
  intros E'. apply CompareOrder_eq in E, E'; [|done..]. destruct ca, ca'; cbn in *. by subst.
Qed.

Lemma find_by_conaddr_ok mtu max o l ca : core_inv mtu max o l ->
  find_connection_by_conaddr o ca = Ok ((fun x => fst (snd x)) <$> find_addr ca l).
Proof. intros H. exact (indexed_find _ _ _ _ _ _ _ (inv_addr _ _ _ _ H)). Qed.
Lemma find_by_conid_ok mtu max o l k : core_inv mtu max o l ->
  find_connection_by_conid o k = Ok ((fun x => fst (snd x)) <$> find_id k l).
Proof. intros H. exact (indexed_find _ _ _ _ _ _ _ (inv_id _ _ _ _ H)). Qed.

Lemma find_id_Some k l i e : find_id k l = Some (i, e) -> conid (snd e) = k /\ e ∈ l.
Proof.
  intros (Hi & Hk & _)%list_find_Some. split; [|by eapply list_elem_of_lookup_2].
  symmetry. by apply B_COMPARE_0.
Qed.

(** *** Identifiers *)
Lemma core_set_conid mtu max o l k : core_inv mtu max o l -> 0 <= k < max -> core_inv mtu max (set_next_conid o k) l.
Proof. intros [] Hk. by constructor. Qed.

(** Among [max] identifiers one is unused. *)
Lemma conid_pigeonhole (max : Z) (l : table) : Zlen l < max -> exists k, 0 <= k < max /\ find_id k l = None.
Proof.
  intros Hl. destruct (decide (Exists (fun k => find_id k l = None) (seqZ 0 max))) as [He|Hn].
  - apply Exists_exists in He as (k & Hk & Hf). apply elem_of_seqZ in Hk. exists k. split; [lia|done].
  - exfalso. assert (seqZ 0 max ⊆+ (conid ∘ snd) <$> l) as Hs.
    { apply NoDup_submseteq; [apply NoDup_seqZ|]. intros k Hk.
      destruct (find_id k l) as [[i e]|] eqn:E.
      - apply find_id_Some in E as [<- He]. by apply (list_elem_of_fmap_2 (conid ∘ snd)).
      - destruct Hn. apply Exists_exists. by exists k. }
    apply submseteq_length in Hs. rewrite length_seqZ, length_fmap in Hs. lia.
Qed.

(** The loop visits the identifiers from [next_conid] on, cyclically. *)
Lemma conid_loop_ok mtu max l fuel : forall o j, core_inv mtu max o l ->
  0 <= j < Z.of_nat fuel -> find_id ((next_conid o + j) mod max) l = None ->
  exists k, conid_loop fuel o = Ok (set_next_conid o k, k) /\ 0 <= k < max /\ find_id k l = None.
Proof.
  induction fuel as [|fuel IH]; intros o j H Hj Hf; [lia|]. cbn [conid_loop].
  pose proof (inv_next_conid _ _ _ _ H) as Hn. destruct (inv_max _ _ _ _ H) as (Hm & Hmax & _). unfold UINT16_MAX in Hmax.
  rewrite u16_small by lia. rewrite (find_by_conid_ok mtu max o l) by done. cbn [mbind outcome_bind].
  destruct (find_id (next_conid o) l) as [[i e]|] eqn:E; cbn [fmap option_fmap option_map].
  - destruct (decide (j = 0)) as [->|Hj0].
    { rewrite Z.add_0_r, Z.mod_small in Hf by done. congruence. }
    set (k' := if _ =? _ then _ else _).
    assert (k' = (next_conid o + 1) mod max) as Hk'.
    { unfold k'. rewrite Hm. destruct (Z.eqb_spec (next_conid o) (max - 1)) as [->|].
      - replace (max - 1 + 1) with max by lia. by rewrite Z_mod_same_full.
      - rewrite Z.mod_small; lia. }
    destruct (IH (set_next_conid o k') (j - 1)) as (k & Hr & Hk & Hfk).
    + apply core_set_conid; [done|]. rewrite Hk'. apply Z.mod_pos_bound. lia.
    + lia.
    + cbn [set_next_conid next_conid]. rewrite Hk', Zplus_mod_idemp_l. rewrite <- Hf. do 2 f_equal. lia.
    + exists k. split; [exact Hr|done].
  - exists (next_conid o). by destruct o.
Qed.

Lemma find_unused_conid_ok mtu max o l : core_inv mtu max o l -> Zlen l < max ->
  exists k, find_unused_conid o = Ok (set_next_conid o k, k) /\ 0 <= k < max /\ find_id k l = None.
Proof.
  intros H Hl. destruct (conid_pigeonhole max l Hl) as (k & Hk & Hf).
  destruct (inv_max _ _ _ _ H) as (Hm & Hmax & _). unfold find_unused_conid.
  rewrite bind_ASSERT_true by (rewrite (inv_num _ _ _ _ H), Hm; lia). rewrite Hm.
  apply (conid_loop_ok mtu max l _ o ((k - next_conid o) mod max) H).
  - pose proof (Z.mod_pos_bound (k - next_conid o) max). lia.
  - rewrite Zplus_mod_idemp_r. replace (next_conid o + (k - next_conid o)) with k by lia. by rewrite Z.mod_small by lia.
Qed.

(** *** Changes of the table *)
Lemma gw_core_perm mtu max o l l' : l ≡ₚ l' -> core_inv mtu max o l -> core_inv mtu max o l'.
Proof.
  intros Hl [? ? ? ? ? ? ? ?]. constructor; try (by rewrite <- Hl); try done; by eapply indexed_perm.
Qed.

Lemma gw_core_upd mtu max o a c c' l lst : core_inv mtu max o ((a, c) :: l) ->
  con_addr c' = con_addr c -> conid c' = conid c -> entry_ok mtu max c' ->
  core_inv mtu max (set_table o (<[a := c']> (connections o)) (by_conaddr o) (by_conid o) lst (num_connections o) (next o))
    ((a, c') :: l).
Proof.
  intros [Ha Hi ? ? ? Hnx ? He] Hca Hid Hok. apply Forall_cons in Hnx as [? ?]. apply Forall_cons in He as [_ He].
  constructor; cbn [set_table connections by_conaddr by_conid num_connections udp_mtu udpgw_mtu max_connections next next_conid];
    try done.
  - apply (indexed_upd _ _ _ _ _ a c c' l Ha). rewrite Hca. apply cmp_same, _.
  - apply (indexed_upd _ _ _ _ _ a c c' l Hi). rewrite Hid. apply cmp_same, _.
  - by constructor.
  - by constructor.
Qed.

Lemma gw_core_free mtu max o a c l lst : core_inv mtu max o ((a, c) :: l) -> exists ta ti,
  tree_remove (by_conid o) a = Ok ti /\ tree_remove (by_conaddr o) a = Ok ta /\
  core_inv mtu max (set_table o (delete a (connections o)) ta ti lst (num_connections o - 1) (next o)) l.
Proof.
  intros [Ha Hi Hn Hm Hx Hnx Hc He]. apply Forall_cons in Hnx as [_ Hnx]. apply Forall_cons in He as [_ He].
  destruct (indexed_remove _ _ _ _ _ _ _ _ Ha) as (ta & Hra & Ha').
  destruct (indexed_remove _ _ _ _ _ _ _ _ Hi) as (ti & Hri & Hi'). exists ta, ti. split_and!; [done..|].
  cbn [length] in *.
  constructor; cbn [set_table connections by_conaddr by_conid num_connections udp_mtu udpgw_mtu max_connections next next_conid];
    done || lia.
Qed.

Lemma core_fresh mtu max o l : core_inv mtu max o l -> next o ∉ l.*1.
Proof.
  intros H (e & He & He')%list_elem_of_fmap. apply (proj1 (Forall_forall _ _) (inv_next _ _ _ _ H)) in He'.
  rewrite He in He'. lia.
Qed.

Lemma gw_core_init mtu max o c l lst : core_inv mtu max o l -> Zlen l < max -> entry_ok mtu max c ->
  find_addr (con_addr c) l = None -> find_id (conid c) l = None ->
  let m := <[next o := c]> (connections o) in
  exists ta ti, tree_insert (addr_value m) (by_conaddr o) (next o) = Ok (ta, true) /\
    tree_insert (id_value m) (by_conid o) (next o) = Ok (ti, true) /\
    core_inv mtu max (set_table o m ta ti lst (num_connections o + 1) (Pos.succ (next o))) ((next o, c) :: l).
Proof.
  intros H Hlt Hok Hfa Hfi m. pose proof (core_fresh _ _ _ _ H) as Hfresh. destruct H as [Ha Hi Hn Hm Hx Hnx Hc He].
  destruct (indexed_insert _ _ _ _ _ _ c l Ha Hfresh Hfa) as (ta & Hia & Ha').
  destruct (indexed_insert _ _ _ _ _ _ c l Hi Hfresh Hfi) as (ti & Hii & Hi'). exists ta, ti. split_and!; [done..|].
  constructor; cbn [set_table connections by_conaddr by_conid num_connections udp_mtu udpgw_mtu max_connections next
    next_conid length]; try done; try lia.
  - constructor; [cbn; lia|]. eapply Forall_impl; [exact Hnx|]. cbn. lia.
  - by constructor.
Qed.

Lemma core_reuse mtu max o a c c' l lst : core_inv mtu max o ((a, c) :: l) -> entry_ok mtu max c' ->
  conid c' = conid c -> find_addr (con_addr c') l = None ->
  let m := <[a := c']> (connections o) in
  exists t1 ta, tree_remove (by_conaddr o) a = Ok t1 /\ tree_insert (addr_value m) t1 a = Ok (ta, true) /\
    core_inv mtu max (set_table o m ta (by_conid o) lst (num_connections o) (next o)) ((a, c') :: l).
Proof.
  intros [Ha Hi Hn Hm Hx Hnx Hc He] Hok Hid Hf m. apply Forall_cons in Hnx as [? ?]. apply Forall_cons in He as [_ He].
  destruct (indexed_rekey _ _ _ _ _ a c c' l Ha Hf) as (t1 & ta & Hr & Hins & Ha'). exists t1, ta. split_and!; [done..|].
  constructor; cbn [set_table connections by_conaddr by_conid num_connections udp_mtu udpgw_mtu max_connections next
    next_conid length]; try done.
  - apply (indexed_upd _ _ _ _ _ a c c' l Hi). rewrite Hid. apply cmp_same, _.
  - by constructor.
  - by constructor.
Qed.

(** *** Steps *)
Lemma gw_refines_at mtu max o l1 a c l2 k h : refines mtu max o (mkAbs (l1 ++ (a, c) :: l2) k h) ->
  connections o !! a = Some c /\ entry_ok mtu max c /\ a ∉ l1.*1 /\ connections_list o = l1.*1 ++ a :: l2.*1.
Proof.
  intros (Hl & _ & _ & Hc). cbn [tbl] in *. assert ((a, c) ∈ l1 ++ (a, c) :: l2) as He by set_solver.
  pose proof (ix_nodup _ _ _ _ _ _ (inv_addr _ _ _ _ Hc)) as Hn. rewrite fmap_app in Hn, Hl.
  apply NoDup_app in Hn as (_ & Hn & _). split_and!; [| | |done].
  - by eapply (indexed_get _ _ _ _ _ _ _ _ (inv_addr _ _ _ _ Hc)).
  - exact (proj1 (Forall_forall _ _) (inv_entries _ _ _ _ Hc) _ He).
  - intros Ha. by destruct (Hn a Ha); left.
Qed.

Lemma move_last_ok mtu max o l1 a c l2 k h : refines mtu max o (mkAbs (l1 ++ (a, c) :: l2) k h) ->
  refines mtu max (move_last o a) (mkAbs (l1 ++ l2 ++ [(a, c)]) k h).
Proof.
  intros H. destruct (gw_refines_at _ _ _ _ _ _ _ _ _ H) as (_ & _ & Ha & Hl). destruct H as (_ & Hk & Hh & Hc).
  cbn [tbl ka srv] in *. split_and!; [|done|done|].
  - cbn. rewrite Hl, LinkedList1.remove_node_split by done. by rewrite !fmap_app, <- app_assoc.
  - cbn [tbl]. eapply gw_core_perm; [|destruct Hc; constructor; done].
    rewrite <- Permutation_middle, app_assoc. by rewrite <- Permutation_cons_append.
Qed.

Lemma refines_get mtu max o s a c : refines mtu max o s -> (a, c) ∈ tbl s -> connections o !! a = Some c.
Proof. intros (_ & _ & _ & Hc) He. by eapply (indexed_get _ _ _ _ _ _ _ _ (inv_addr _ _ _ _ Hc)). Qed.

Lemma send_at_ok mtu max o s a c flags out data : refines mtu max o s -> (a, c) ∈ tbl s ->
  Zlen data <= mtu -> out_ok o out -> send_at o a flags out data = Ok (o, sends a flags c data out).
Proof.
  intros H He Hd Hout. unfold send_at. rewrite (refines_get _ _ _ _ _ _ H He). cbn [of_option mbind outcome_bind].
  destruct H as (_ & _ & _ & Hc). destruct (inv_mtu _ _ _ _ Hc) as (Hm & _ & Hu & _).
  pose proof (proj1 (Forall_forall _ _) (inv_entries _ _ _ _ Hc) _ He) as (_ & Hw & _ & _).
  rewrite Hm. rewrite gw_connection_send_ok by done. cbn [mbind outcome_bind]. unfold sends, sent.
  by destruct (bool_decide _).
Qed.

Lemma submit_known mtu max o l1 a c l2 k h is_dns data out :
  refines mtu max o (mkAbs (l1 ++ (a, c) :: l2) k h) -> Zlen data <= mtu -> out_ok o out ->
  exists o', send_at (move_last o a) a (dns_flag is_dns) out data = Ok (o', sends a (dns_flag is_dns) c data out) /\
    refines mtu max o' (mkAbs (l1 ++ l2 ++ [(a, c)]) k h).
Proof.
  intros H Hd Hout. pose proof (move_last_ok _ _ _ _ _ _ _ _ _ H) as H'. exists (move_last o a). split; [|done].
  eapply send_at_ok; [done| |done|done]. cbn [tbl]. set_solver.
Qed.

Lemma reuse_ok mtu max o a c l k h local remote :
  refines mtu max o (mkAbs ((a, c) :: l) k h) -> wf local -> wf remote ->
  find_addr (mkConaddr local remote) ((a, c) :: l) = None ->
  exists o', reuse_connection o (mkConaddr local remote) = Ok (o', a) /\ udpgw_mtu o' = udpgw_mtu o /\
    refines mtu max o' (mkAbs ((a, mkCon (mkConaddr local remote) (conid c) (first c)) :: l) k h).
Proof.
  intros H Hwl Hwr Hf. destruct (gw_refines_at _ _ _ [] _ _ _ _ _ H) as (Ha & (_ & _ & Hid & Hfirst) & _ & Hl).
  destruct H as (_ & Hk & Hh & Hc). cbn [tbl ka srv app fmap list_fmap] in *.
  unfold reuse_connection. rewrite (find_by_conaddr_ok _ _ _ _ _ Hc), Hf.
  cbn [fmap option_fmap option_map mbind outcome_bind]. rewrite bind_ASSERT_true by done.
  rewrite bind_ASSERT_true by (rewrite (inv_num _ _ _ _ Hc); cbn [length]; apply Z.ltb_lt; lia).
  rewrite Hl. cbn [head of_option mbind outcome_bind]. rewrite Ha. cbn [of_option mbind outcome_bind].
  set (c' := mkCon _ _ _).
  assert (find_addr (con_addr c') l = None) as Hf'.
  { apply list_find_None. apply list_find_None in Hf. by apply Forall_cons in Hf as [_ Hf]. }
  destruct (core_reuse mtu max o a c c' l (a :: l.*1) Hc) as (t1 & ta & -> & Hins & Hc'); [done|done|done|].
  cbn [mbind outcome_bind]. rewrite Hins. cbn [mbind outcome_bind]. eexists. split_and!; [done|done|].
  by split_and!.
Qed.

Lemma gw_init_ok mtu max o l k h local remote flags data mo fo :
  refines mtu max o (mkAbs l k h) -> wf local -> wf remote -> Zlen data <= mtu -> Zlen l < max ->
  find_addr (mkConaddr local remote) l = None ->
  exists o', connection_init o (mkConaddr local remote) flags data mo fo = Ok o' /\
    if mo && fo
    then exists id, 0 <= id < max /\ find_id id l = None /\ next o ∉ l.*1 /\
      refines mtu max o' (mkAbs (l ++ [(next o, mkCon (mkConaddr local remote) id (Some (flags, data)))]) k h)
    else refines mtu max o' (mkAbs l k h).
Proof.
  intros (Hl & Hk & Hh & Hc) Hwl Hwr Hd Hlt Hf. cbn [tbl ka srv] in *. destruct (inv_mtu _ _ _ _ Hc) as (Hm & _).
  destruct (inv_max _ _ _ _ Hc) as (Hmx & _). unfold connection_init.
  rewrite bind_ASSERT_true by (rewrite (inv_num _ _ _ _ Hc), Hmx; lia).
  rewrite (find_by_conaddr_ok _ _ _ _ _ Hc), Hf. cbn [fmap option_fmap option_map mbind outcome_bind].
  rewrite bind_ASSERT_true by done. rewrite bind_ASSERT_true by lia.
  destruct mo; cbn [negb andb]; [|by exists o; split].
  destruct (find_unused_conid_ok mtu max o l Hc Hlt) as (id & -> & Hid & Hfi). cbn [mbind outcome_bind].
  pose proof (core_set_conid _ _ _ _ id Hc Hid) as Hc1. set (o1 := set_next_conid o id) in *.
  destruct fo; cbn [negb]; [|by exists o1; split].
  set (c := mkCon _ _ _).
  destruct (gw_core_init mtu max o1 c l (connections_list o ++ [next o]) Hc1 Hlt) as (ta & ti & Hia & Hii & Hc2); [|done|done|].
  { split_and!; [done|done|cbn; lia|cbn; lia|]. by intros ? ? [= <- <-]. }
  rewrite Hia. cbn [mbind outcome_bind]. rewrite bind_ASSERT_true by done. rewrite Hii. cbn [mbind outcome_bind].
  rewrite bind_ASSERT_true by done. eexists. split; [done|]. exists id. split_and!; [lia|lia|done|by eapply core_fresh|].
  split_and!; [|done|done|].
  - cbn. by rewrite Hl, fmap_app.
  - cbn [tbl]. by eapply gw_core_perm; [apply Permutation_cons_append|].
Qed.

Lemma submit_sim mtu max o s local remote is_dns data mo fo out :
  refines mtu max o s -> wf local -> wf remote -> Zlen data <= mtu -> out_ok o out ->
  exists o' s' outs, UdpGwClient_SubmitPacket o local remote is_dns data mo fo out = Ok (o', outs) /\
    abs_step mtu max s (Submit local remote is_dns data mo fo out) s' outs /\ refines mtu max o' s'.
Proof.
  intros H Hwl Hwr Hd Hout. destruct s as [l k h]. pose proof H as (Hl & Hk & Hh & Hc). cbn [tbl] in *.
  destruct (inv_mtu _ _ _ _ Hc) as (Hm & _). destruct (inv_max _ _ _ _ Hc) as (Hmx & Hmx' & Hle).
  unfold UdpGwClient_SubmitPacket. do 2 rewrite bind_ASSERT_true by (by apply SocksUdpGw.wf_types).
  rewrite bind_ASSERT_true by lia. rewrite (find_by_conaddr_ok _ _ _ _ _ Hc). cbn [mbind outcome_bind]. fold (dns_flag is_dns).
  destruct (find_addr (mkConaddr local remote) l) as [[i [a c]]|] eqn:E; cbn [fmap option_fmap option_map snd fst].
  - rewrite (bool_decide_eq_false_2 (Some a = None)) by done. cbn [andb mbind outcome_bind].
    apply list_find_split in E as (l1 & l2 & -> & He & _). cbn [snd] in He.
    destruct (gw_refines_at _ _ _ _ _ _ _ _ _ H) as (_ & (Hw1 & Hw2 & _) & _). apply conaddr_eq in He; [|done..].
    destruct (submit_known _ _ _ _ _ _ _ _ _ is_dns data out H Hd Hout) as (o' & Hs & H').
    exists o', (mkAbs (l1 ++ l2 ++ [(a, c)]) k h), (sends a (dns_flag is_dns) c data out).
    split_and!; [exact Hs|by constructor|exact H'].
  - rewrite (bool_decide_eq_true_2 (None = None)) by done. cbn [andb]. rewrite (inv_num _ _ _ _ Hc), Hmx.
    destruct (Zlen l =? max) eqn:Efull; zify_bool.
    + destruct l as [|[a c] l]; [cbn in Efull; lia|].
      destruct (reuse_ok _ _ _ _ _ _ _ _ local remote H Hwl Hwr E) as (o1 & -> & Hu & H1). cbn [mbind outcome_bind].
      pose proof (move_last_ok _ _ _ [] _ _ _ _ _ H1) as H2. cbn [app] in H2. set (c' := mkCon _ _ _) in *.
      set (fl := Z.lor (dns_flag is_dns) UDPGW_CLIENT_FLAG_REBIND).
      exists (move_last o1 a), (mkAbs (l ++ [(a, c')]) k h), (sends a fl c' data out).
      split_and!; [|by apply abs_submit_reuse|done].
      eapply send_at_ok; [done| |done|]; [cbn [tbl]; set_solver|].
      intros b Hb. cbn. rewrite Hu. by apply Hout.
    + cbn [mbind outcome_bind].
      destruct (gw_init_ok mtu max o l k h local remote (dns_flag is_dns) data mo fo H Hwl Hwr Hd) as (o' & -> & Ho'); [lia|done|].
      cbn [mbind outcome_bind]. destruct (mo && fo) eqn:Eok.
      * apply andb_true_iff in Eok as [-> ->]. destruct Ho' as (id & Hid & Hfi & Hfr & H').
        eexists o', _, []. split_and!; [done| |exact H']. apply abs_submit_new; try done; lia.
      * exists o', (mkAbs l k h), []. split_and!; [done| |done]. apply abs_submit_fail; try done; lia.
Qed.

Lemma first_job_sim mtu max o s a out : refines mtu max o s -> enabled o (FirstJob a out) ->
  exists o' s' outs, connection_first_job_handler o a out = Ok (o', outs) /\
    abs_step mtu max s (FirstJob a out) s' outs /\ refines mtu max o' s'.
Proof.
  intros H ((c & [fl d] & Ha & Hf) & Hout). destruct s as [l k h]. pose proof H as (Hl & Hk & Hh & Hc). cbn [tbl] in *.
  assert ((a, c) ∈ l) as He.
  { rewrite (ix_map _ _ _ _ _ _ (inv_addr _ _ _ _ Hc)) in Ha. by apply elem_of_list_to_map_2 in Ha. }
  apply list_elem_of_split in He as (l1 & l2 & ->).
  destruct (gw_refines_at _ _ _ _ _ _ _ _ _ H) as (_ & (Hw1 & Hw2 & Hid & Hfd) & _).
  unfold connection_first_job_handler. rewrite Ha. cbn [of_option mbind outcome_bind]. rewrite Hf.
  cbn [of_option mbind outcome_bind]. set (c' := mkCon _ _ _). set (o1 := set_table _ _ _ _ _ _ _).
  assert (refines mtu max o1 (mkAbs (l1 ++ (a, c') :: l2) k h)) as H1.
  { split_and!; [|done|done|].
    - cbn. by rewrite Hl, !fmap_app.
    - cbn [tbl]. eapply gw_core_perm; [apply Permutation_middle|]. apply (gw_core_upd _ _ _ _ c); try done.
      eapply gw_core_perm; [symmetry; apply Permutation_middle|done]. }
  exists o1, (mkAbs (l1 ++ (a, c') :: l2) k h), (sends a (Z.lor UDPGW_CLIENT_FLAG_REBIND fl) c d out).
  split_and!; [|by constructor|done].
  change (sends a _ c d out) with (sends a (Z.lor UDPGW_CLIENT_FLAG_REBIND fl) c' d out).
  eapply send_at_ok; [done|cbn [tbl]; set_solver|by eapply Hfd|done].
Qed.

Lemma packet_sim mtu max o s data : refines mtu max o s -> enabled o (Packet data) ->
  exists o' s' outs, recv_interface_handler_send o data (Zlen data) = Ok (o', outs) /\
    abs_step mtu max s (Packet data) s' outs /\ refines mtu max o' s'.
Proof.
  intros H (Hs & Hb & Hlen). destruct s as [l k h]. pose proof H as (Hl & Hk & Hh & Hc). cbn [tbl ka srv] in *.
  destruct (inv_mtu _ _ _ _ Hc) as (Hm & Hm0 & Hu & Hum). unfold UINT16_MAX in Hum.
  rewrite Hs in Hh. subst h. unfold recv_interface_handler_send. rewrite bind_ASSERT_true by done.
  rewrite bind_ASSERT_true by lia. rewrite bind_ASSERT_true by lia. rewrite Hm.
  destruct (parse_packet_exact mtu data Hb) as (r & -> & Hr); [unfold INT_MAX; lia|]. cbn [mbind outcome_bind].
  assert (forall r', r = r' -> (forall a c payload, (a, c) ∈ l ->
    r' = Some (conid c, remote_addr (con_addr c), payload) -> False) ->
    exists s' , abs_step mtu max (mkAbs l k true) (Packet data) s' [] /\ refines mtu max o s') as Hdrop.
  { intros r' <- Hno. exists (mkAbs l k true). split; [|done]. apply abs_drop. intros a c payload He Hcar Hle.
    apply (Hno a c payload He). by apply Hr. }
  destruct r as [[[id remote] payload]|]; [|destruct (Hdrop _ eq_refl) as (s' & ? & ?); [done|by exists o, s', []]].
  rewrite (find_by_conid_ok _ _ _ _ _ Hc). cbn [mbind outcome_bind].
  destruct (find_id id l) as [[i [a c]]|] eqn:E; cbn [fmap option_fmap option_map snd fst].
  2:{ destruct (Hdrop _ eq_refl) as (s' & ? & ?); [|by exists o, s', []]. intros a c pl He [= -> _ _].
      by destruct (find_key_None _ _ _ _ _ E He); apply cmp_same, _. }
  destruct (find_id_Some _ _ _ _ E) as [Hid He]. cbn [snd] in Hid. apply list_find_split in E as (l1 & l2 & -> & _).
  destruct (gw_refines_at _ _ _ _ _ _ _ _ _ H) as (Ha & (Hw1 & Hw2 & _) & _). rewrite Ha. cbn [of_option mbind outcome_bind].
  destruct (proj1 (Hr id remote payload) eq_refl) as [Hcar Hle].
  assert (wf remote) as Hwr by (by destruct Hcar as (? & _ & _ & ? & _)).
  destruct (_ =? 0) eqn:Ecmp; cbn [negb]; zify_bool.
  - apply CompareOrder_eq in Ecmp; [|done..]. subst id remote.
    eexists _, (mkAbs (l1 ++ l2 ++ [(a, c)]) k true), _. split_and!; [done|by apply abs_deliver|by apply move_last_ok].
  - destruct (Hdrop _ eq_refl) as (s' & ? & ?); [|by exists o, s', []]. intros b d pl Hbd [= Hi Hrm _]. destruct Ecmp.
    assert ((a, c) = (b, d)) as [= <- <-].
    { apply (ix_keys _ _ _ _ _ _ (inv_id _ _ _ _ Hc)); [done|done|]. cbn [snd]. rewrite Hid, Hi. apply cmp_same, _. }
    by apply CompareOrder_eq.
Qed.

Lemma set_flags_ok mtu max o l k h k' h' : refines mtu max o (mkAbs l k h) ->
  refines mtu max (set_flags o k' h') (mkAbs l k' h').
Proof. intros (Hl & _ & _ & []). by split_and!. Qed.

(** Every enabled event is handled without fault, as the specification says. *)
Lemma step_sim mtu max o s x : refines mtu max o s -> enabled o x ->
  exists o' s' outs, step o x = Ok (o', outs) /\ abs_step mtu max s x s' outs /\ refines mtu max o' s'.
Proof.
  intros H Hen. pose proof H as (_ & Hk & Hh & Hc). destruct s as [l k h]. cbn [tbl ka srv] in *.
  destruct x; cbn [step].
  - destruct Hen as (? & ? & Hd & ?). destruct (inv_mtu _ _ _ _ Hc) as (Hm & _). rewrite Hm in Hd. by apply submit_sim.
  - by apply first_job_sim.
  - by apply packet_sim.
  - unfold decoder_handler_error. cbn [enabled] in Hen. rewrite bind_ASSERT_true by done. rewrite Hen in Hh. subst h.
    eexists o, (mkAbs l k true), _. split_and!; [done|constructor|done].
  - unfold send_monitor_handler. rewrite Hk. destruct k.
    + eexists o, (mkAbs l true h), _. split_and!; [done|apply (abs_monitor _ _ l true h)|done].
    + eexists _, (mkAbs l true h), _. split_and!; [done|apply (abs_monitor _ _ l false h)|].
      rewrite Hh. by eapply set_flags_ok.
  - unfold keepalive_if_handler_done. cbn [enabled] in Hen. rewrite bind_ASSERT_true by done. rewrite Hen in Hk. subst k.
    eexists _, (mkAbs l false h), _. split_and!; [done|constructor|]. rewrite Hh. by eapply set_flags_ok.
  - unfold UdpGwClient_ConnectServer. cbn [enabled] in Hen. rewrite Hen. rewrite Hen in Hh. subst h. cbn [negb].
    rewrite bind_ASSERT_true by done. destruct decoder_ok; cbn [negb mbind outcome_bind].
    + eexists _, (mkAbs l k true), _. split_and!; [done|apply (abs_connect _ _ l k true)|]. rewrite Hk. by eapply set_flags_ok.
    + eexists o, (mkAbs l k false), _. split_and!; [done|apply (abs_connect _ _ l k false)|done].
  - unfold UdpGwClient_DisconnectServer. cbn [enabled] in Hen. rewrite bind_ASSERT_true by done. rewrite Hen in Hh. subst h.
    eexists _, (mkAbs l k false), _. split_and!; [done|constructor|]. rewrite Hk. by eapply set_flags_ok.
Qed.

Lemma run_sim mtu max o xs o' outs s : run o xs o' outs -> refines mtu max o s ->
  exists s', abs_run mtu max s xs s' outs /\ refines mtu max o' s'.
Proof.
  intros Hr. revert s. induction Hr as [o|o x o1 outs1 xs o2 outs2 Hen Hs _ IH]; intros s H; [by exists s; split; [constructor|]|].
  destruct (step_sim mtu max o s x H Hen) as (o1' & s1 & outs1' & Hs' & Ha & H1). rewrite Hs in Hs'. simplify_eq.
  destruct (IH s1 H1) as (s2 & Hr2 & H2). exists s2. split; [by econstructor|done].
Qed.

Lemma free_sim mtu max o l k h : refines mtu max o (mkAbs l k h) ->
  exists o', UdpGwClient_Free o = Ok (o', if h then [DisconnectOutput] else []) /\ connections o' = ∅ /\
    connections_list o' = [] /\ num_connections o' = 0.
Proof.
  intros H. unfold UdpGwClient_Free. pose proof H as (Hl & _). cbn [tbl] in Hl. rewrite Hl, length_fmap. clear Hl.
  enough (exists o', free_connections (length l) o = Ok o' /\ refines mtu max o' (mkAbs [] k h)) as (o' & -> & H').
  { exists o'. destruct H' as (Hl & _ & Hh & Hc). cbn [tbl srv] in *. cbn [mbind outcome_bind]. rewrite Hh.
    split_and!; [by destruct h|by apply (inv_addr _ _ _ _ Hc)|done|by apply Hc]. }
  revert o H. induction l as [|[a c] l IH]; intros o H.
  - exists o. split; [|done]. destruct H as (Hl & _). cbn [length free_connections]. by rewrite Hl.
  - destruct (gw_refines_at _ _ _ [] _ _ _ _ _ H) as (Ha & _ & _ & Hl). destruct H as (_ & Hk & Hh & Hc). cbn [tbl ka srv] in *.
    cbn [length free_connections]. rewrite Hl. cbn [app fmap list_fmap]. unfold connection_free at 1.
    rewrite Ha. cbn [of_option mbind outcome_bind].
    destruct (gw_core_free _ _ _ _ _ _ l.*1 Hc) as (ta & ti & -> & Hra & Hc'). cbn [mbind outcome_bind].
    rewrite Hra. cbn [mbind outcome_bind]. apply IH. split_and!; try done; cbn [tbl set_table connections_list].
    + rewrite Hl. cbn. by rewrite decide_True.
    + rewrite Hl. cbn. rewrite decide_True by done. exact Hc'.
Qed.

Lemma init_sim mtu max sbs : 0 <= mtu -> mtu + 21 <= UINT16_MAX -> 0 < max -> 0 < sbs ->
  exists o, UdpGwClient_Init mtu max sbs true = Ok (Some o) /\
    refines mtu (Z.min max (UINT16_MAX + 1)) o (mkAbs [] false false).
Proof.
  unfold UdpGwClient_Init, sizeof_udpgw_header, PACKETPROTO_MAXPAYLOAD, UINT16_MAX. intros H0 Hm Hmax Hs.
  assert (udpgw_compute_mtu 3 mtu = mtu + 21) as Hum.
  { rewrite compute_mtu_ok by (unfold INT_MAX; lia). rewrite (proj2 (Z.leb_le _ _)); [lia|]. unfold INT_MAX. lia. }
  rewrite Hum. do 5 rewrite bind_ASSERT_true by lia. cbn [negb]. eexists. split; [done|]. split_and!; try done.
  assert (0 < (if 2 ^ 16 - 1 + 1 <? max then 2 ^ 16 - 1 + 1 else max) <= 2 ^ 16 /\
    (if 2 ^ 16 - 1 + 1 <? max then 2 ^ 16 - 1 + 1 else max) = Z.min max (2 ^ 16 - 1 + 1)) as [Hr Heq]
    by (destruct (Z.ltb_spec (2 ^ 16 - 1 + 1) max); lia).
  constructor; cbn [connections by_conaddr by_conid num_connections udp_mtu udpgw_mtu max_connections next next_conid
    tbl length]; unfold UINT16_MAX; try done; try lia; apply indexed_init.
Qed.

(** C7: the udpgw client multiplexes as its protocol demands, whatever search
    trees it uses: from [UdpGwClient_Init] on, every event the environment may
    produce is handled without fault, and every run is one of the specification:
    at most [max] connections, one per pair of addresses, with distinct
    identifiers below [max]; packets carry the identifier and address of their
    connection and the rebind flag when the identifier gets new addresses; a
    packet from the server is delivered to the addresses its identifier stands
    for, or to nobody. Freeing the client frees every connection. *)
Theorem udpgw_client_refines mtu max sbs : 0 <= mtu -> mtu + 21 <= UINT16_MAX -> 0 < max -> 0 < sbs ->
  exists o0, UdpGwClient_Init mtu max sbs true = Ok (Some o0) /\
    forall xs o outs, run o0 xs o outs ->
      (forall x, enabled o x -> is_Ok (step o x)) /\
      exists s, abs_run mtu (Z.min max (UINT16_MAX + 1)) (mkAbs [] false false) xs s outs /\
        connections o = list_to_map (tbl s) /\ connections_list o = (tbl s).*1 /\ Zlen (tbl s) <= max /\
        Forall (fun e => 0 <= conid (snd e) < max) (tbl s) /\
        (forall e e', e ∈ tbl s -> e' ∈ tbl s ->
           conid (snd e) = conid (snd e') \/ con_addr (snd e) = con_addr (snd e') -> e = e') /\
        exists o', UdpGwClient_Free o = Ok (o', if srv s then [DisconnectOutput] else []) /\ connections o' = ∅.
Proof.
  intros H0 Hm Hmax Hs. destruct (init_sim mtu max sbs H0 Hm Hmax Hs) as (o0 & Hi & H). exists o0. split; [done|].
  intros xs o outs Hr. destruct (run_sim _ _ _ _ _ _ _ Hr H) as (s & Ha & H'). split.
  { intros x Hx. destruct (step_sim _ _ _ _ x H' Hx) as (o' & _ & outs' & -> & _). by eexists. }
  exists s. destruct s as [l k h]. destruct (free_sim _ _ _ _ _ _ H') as (o' & Hf & He & _).
  destruct H' as (Hl & _ & _ & Hc). cbn [tbl srv] in *.
  destruct (inv_max _ _ _ _ Hc) as (_ & _ & Hle). split_and!; [done|apply (inv_addr _ _ _ _ Hc)|done|lia| | |by exists o'].
  - eapply Forall_impl; [apply (inv_entries _ _ _ _ Hc)|]. intros e (_ & _ & Hid & _). cbn in *. lia.
  - intros e e' Hin Hin' [Heq|Heq].
    + apply (ix_keys _ _ _ _ _ _ (inv_id _ _ _ _ Hc)); [done|done|]. rewrite Heq. apply cmp_same, _.
    + apply (ix_keys _ _ _ _ _ _ (inv_addr _ _ _ _ Hc)); [done|done|]. rewrite Heq. apply cmp_same, _.
Qed.

(** the search for an unused identifier ends: while fewer than [max]
    connections exist it finds one of the identifiers below [max] that no
    connection has, in at most [max] turns, and changes only [next_conid]. *)
Theorem find_unused_conid_ends mtu max o l : core_inv mtu max o l -> Zlen l < max ->
  exists k, find_unused_conid o = Ok (set_next_conid o k, k) /\ 0 <= k < max /\
    Forall (fun e => conid (snd e) <> k) l.
Proof.
  intros H Hl. destruct (find_unused_conid_ok _ _ _ _ H Hl) as (k & Hf & Hk & Hn). exists k. split_and!; [done|lia|lia|].
  apply Forall_forall. intros e He Hid. by destruct (find_key_None _ _ _ _ _ Hn He); rewrite Hid; apply cmp_same, _.
Qed.

End Client.
Arguments client : clear implicits.
(** ** Examples *)
Definition demo_a : BAddr := BADDR_IPV4 0x0200000a 0x3930.
Definition demo_b : BAddr := BADDR_IPV4 0x0200000a 0x3a30.
Definition demo_server : BAddr := BADDR_IPV4 0x08080808 0x5000.
Definition demo_out : list Z := replicate 61 0.
Definition demo_reply : list Z := message 0 0 demo_server [7; 8; 9].
Definition demo_events : list op :=
  [Submit demo_a demo_server false [1] true true None; FirstJob 1 (Some demo_out);
   Submit demo_b demo_server false [2] true true (Some demo_out); Connect true; Packet demo_reply].
Definition demo_outputs : list output :=
  [SendPacket 1 (message 2 0 demo_server [1])] ++ [SendPacket 1 (message 2 0 demo_server [2])] ++ [ConnectOutput] ++
  [Deliver demo_b demo_server [7; 8; 9]].

Lemma udpgw_client_refines_witness :
  exists (o0 o : client avl_tree avl_tree) s, UdpGwClient_Init 40 1 4 true = Ok (Some o0) /\
    run o0 demo_events o demo_outputs /\
    abs_run 40 1 (mkAbs [] false false) demo_events s demo_outputs /\
    exists o', UdpGwClient_Free o = Ok (o', if srv s then [DisconnectOutput] else []) /\ connections o' = ∅.
Proof.
  destruct (udpgw_client_refines (Ta := avl_tree) (Ti := avl_tree) 40 1 4) as (o0 & Hi & Hr);
    [lia|unfold UINT16_MAX; lia|lia|lia|].
  assert (wf demo_a /\ wf demo_b /\ wf demo_server) as (Ha & Hb & Hs) by (vm_compute; repeat split; discriminate).
  assert (exists o, run o0 demo_events o demo_outputs) as (o & Hrun).
  { vm_compute in Hi. injection Hi as <-. eexists.
    eapply (run_cons _ _ _ []); [cbn [enabled]; split_and!; try done|vm_compute; reflexivity|].
    eapply (run_cons _ _ _ [_]); [|vm_compute; reflexivity|].
    { split; [by eexists _, _|by intros b [= <-]]. }
    eapply (run_cons _ _ _ [_]); [|vm_compute; reflexivity|].
    { cbn [enabled]. split_and!; try done. by intros b [= <-]. }
    eapply (run_cons _ _ _ [_]); [done|vm_compute; reflexivity|].
    eapply (run_cons _ _ _ [_] _ _ []); [|vm_compute; reflexivity|constructor].
    split_and!; [done|apply TunDevice.bytesb; reflexivity|vm_compute; discriminate]. }
  destruct (Hr demo_events o demo_outputs Hrun) as (_ & s & Habs & _ & _ & _ & _ & _ & Hfree).
  exists o0, o, s. split_and!; [exact Hi|exact Hrun|exact Habs|exact Hfree].
Defined.

Lemma find_unused_conid_ends_witness :
  exists (o : client avl_tree avl_tree) k, UdpGwClient_Init 40 2 4 true = Ok (Some o) /\
    find_unused_conid o = Ok (set_next_conid o k, k) /\ 0 <= k < 2.
Proof.
  destruct (init_sim (Ta := avl_tree) (Ti := avl_tree) 40 2 4) as (o & Hi & _ & _ & _ & Hc);
    [lia|unfold UINT16_MAX; lia|lia|lia|].
  destruct (find_unused_conid_ends 40 2 o [] Hc) as (k & Hf & Hk & _); [vm_compute; reflexivity|].
  exists o, k. split_and!; [exact Hi|exact Hf|apply Hk|apply Hk].
Defined.

End UdpGwClient.

(** ** flowextra/PacketPassInactivityMonitor.c

    The timer runs exactly while nothing is being sent. The calls on the output
    and on the input are recorded. *)
Module InactivityMonitor.
Inductive call := Send (data : list Z) | RequestCancel | Done | Handler.

Record monitor := mkMonitor { timer : bool; handler : bool }.

Definition PacketPassInactivityMonitor_Init (h : bool) : monitor := mkMonitor true h.
Definition input_handler_send (m : monitor) (data : list Z) : monitor * list call :=
  (mkMonitor false (handler m), [Send data]).
Definition input_handler_requestcancel (m : monitor) : monitor * list call := (m, [RequestCancel]).
Definition output_handler_done (m : monitor) : monitor * list call := (mkMonitor true (handler m), [Done]).
Definition timer_handler (m : monitor) : monitor * list call :=
  (mkMonitor true (handler m), if handler m then [Handler] else []).
Definition PacketPassInactivityMonitor_SetHandler (m : monitor) (h : bool) : monitor := mkMonitor (timer m) h.
Definition PacketPassInactivityMonitor_Force (m : monitor) : monitor := mkMonitor true (handler m).

Inductive event := InputSend (data : list Z) | InputCancel | OutputDone | Timer.
Definition handle (m : monitor) (e : event) : monitor * list call :=
  match e with
  | InputSend data => input_handler_send m data
  | InputCancel => input_handler_requestcancel m
  | OutputDone => output_handler_done m
  | Timer => timer_handler m
  end.

(** [busy] is whether a packet was handed on and not finished. *)
Inductive run : bool -> monitor -> list event -> bool -> monitor -> list call -> Prop :=
| run_nil b m : run b m [] b m []
| run_send m data es b m' cs :
    run true (fst (handle m (InputSend data))) es b m' cs ->
    run false m (InputSend data :: es) b m' (snd (handle m (InputSend data)) ++ cs)
| run_cancel m es b m' cs :
    run true (fst (handle m InputCancel)) es b m' cs ->
    run true m (InputCancel :: es) b m' (snd (handle m InputCancel) ++ cs)
| run_done m es b m' cs :
    run false (fst (handle m OutputDone)) es b m' cs ->
    run true m (OutputDone :: es) b m' (snd (handle m OutputDone) ++ cs)
| run_timer b m es b' m' cs :
    timer m = true -> run b (fst (handle m Timer)) es b' m' cs ->
    run b m (Timer :: es) b' m' (snd (handle m Timer) ++ cs).

(** The monitor passes packets and completions through, in order. *)
Definition passed (es : list event) : list call :=
  flat_map (fun e => match e with
    | InputSend d => [Send d] | InputCancel => [RequestCancel] | OutputDone => [Done] | Timer => [] end) es.
Definition is_handler (c : call) : bool := match c with Handler => true | _ => false end.

Lemma monitor_transparent b m es b' m' cs : run b m es b' m' cs ->
  filter (fun c => is_handler c = false) cs = passed es.
Proof.
  induction 1 as [| | | |b m es b' m' cs Ht Hr IH]; cbn; try done; try (by f_equal).
  rewrite filter_app, IH. by destruct (handler m).
Qed.

(** The handler is called only while nothing is being sent. *)
Lemma monitor_idle b m es b' m' cs : run b m es b' m' cs -> timer m = negb b -> timer m' = negb b'.
Proof. induction 1; intros Hm; try done; apply IHrun; cbn in *; congruence. Qed.
End InactivityMonitor.

(** ** tun2socks/SocksUdpGwClient.c without __ANDROID__

    The udpgw client over a connection through the SOCKS server that is made
    again whenever it breaks. *)
Module SocksUdpGwReconnect.
Import UdpGwClient.

Section Reconnect.
Context {Ta Ti : Type} `{!Tree conaddr_comparator Ta} `{!Tree uint16_comparator Ti}.
Abbreviation client := (client Ta Ti).

(** [timer] is whether [reconnect_timer] runs, [gw] is [udpgw_client]. *)
Record state := mkState { have_socks : bool; socks_up : bool; timer : bool; gw : client }.

Definition set_timer (o : state) : state := mkState (have_socks o) (socks_up o) true (gw o).
Definition set_gw (o : state) (c : client) : state := mkState (have_socks o) (socks_up o) (timer o) c.

Definition free_socks (o : state) : outcome (state * list output) :=
  ASSERT (have_socks o);;
  (if socks_up o then UdpGwClient_DisconnectServer (gw o) else Ok (gw o, [])) ≫=
    fun '((c, outs) : client * list output) =>
  Ok (mkState false (socks_up o) (timer o) c, outs).

(** [ok]: whether [BSocksClient_Init] succeeds. *)
Definition try_connect (o : state) (ok : bool) : outcome state :=
  ASSERT (negb (have_socks o));;
  ASSERT (negb (timer o));;
  Ok (if ok then mkState true false (timer o) (gw o) else set_timer o).

(** The timer has stopped when its handler runs. *)
Definition reconnect_timer_handler (o : state) (ok : bool) : outcome state :=
  let o := mkState (have_socks o) (socks_up o) false (gw o) in
  ASSERT (negb (have_socks o));;
  try_connect o ok.

(** [ok] in the event that SOCKS is up: whether the decoder can be allocated. *)
Inductive socks_event := EVENT_UP (ok : bool) | EVENT_ERROR | EVENT_ERROR_CLOSED.
Definition socks_client_handler (o : state) (e : socks_event) : outcome (state * list output) :=
  ASSERT (have_socks o);;
  match e with
  | EVENT_UP ok =>
      ASSERT (negb (socks_up o));;
      UdpGwClient_ConnectServer (gw o) ok ≫= fun '((c, outs, r) : client * list output * Z) =>
      let o := set_gw o c in
      if negb (r =? 0) then Ok (mkState (have_socks o) true (timer o) (gw o), outs)
      else free_socks o ≫= fun '((o, outs') : state * list output) => Ok (set_timer o, outs ++ outs')
  | EVENT_ERROR | EVENT_ERROR_CLOSED =>
      free_socks o ≫= fun '((o, outs) : state * list output) => Ok (set_timer o, outs)
  end.

Definition udpgw_handler_servererror (o : state) : outcome (state * list output) :=
  ASSERT (have_socks o);;
  ASSERT (socks_up o);;
  free_socks o ≫= fun '((o, outs) : state * list output) => Ok (set_timer o, outs).

Definition SocksUdpGwClient_Init (mtu max sbs : Z) (ok : bool) : outcome (option state) :=
  UdpGwClient_Init mtu max sbs true ≫= fun r =>
  match r with
  | None => Ok None
  | Some c => try_connect (mkState false false false c) ok ≫= fun o => Ok (Some o)
  end.
Definition SocksUdpGwClient_Free (o : state) : outcome (state * list output) :=
  (if have_socks o then free_socks o else Ok (o, [])) ≫= fun '((o, outs) : state * list output) =>
  let o := mkState (have_socks o) (socks_up o) false (gw o) in
  UdpGwClient_Free (gw o) ≫= fun '((c, outs') : client * list output) => Ok (set_gw o c, outs ++ outs').

(** What may happen: the timer while it runs, SOCKS events while there is a SOCKS
    client (up at most once), and the events of the udpgw client; it connects
    and disconnects only through the handlers above, and reports its error to
    [udpgw_handler_servererror]. *)
Inductive event := Timer (ok : bool) | Socks (e : socks_event) | Gw (x : op).
Definition gw_event (x : op) : bool := match x with Connect _ | Disconnect => false | _ => true end.
Definition enabled (o : state) (e : event) : Prop :=
  match e with
  | Timer _ => timer o = true
  | Socks (EVENT_UP _) => have_socks o = true /\ socks_up o = false
  | Socks _ => have_socks o = true
  | Gw x => gw_event x = true /\ UdpGwClient.enabled (gw o) x
  end.
Definition handle (o : state) (e : event) : outcome (state * list output) :=
  match e with
  | Timer ok => reconnect_timer_handler o ok ≫= fun o => Ok (o, [])
  | Socks e => socks_client_handler o e
  | Gw x =>
      step (gw o) x ≫= fun '((c, outs) : client * list output) =>
      let o := set_gw o c in
      match outs with
      | [ServerError] => udpgw_handler_servererror o
      | _ => Ok (o, outs)
      end
  end.
Inductive reachable (mtu max sbs : Z) : state -> Prop :=
| reach_init ok o : SocksUdpGwClient_Init mtu max sbs ok = Ok (Some o) -> reachable mtu max sbs o
| reach_step o e o' outs : reachable mtu max sbs o -> enabled o e -> handle o e = Ok (o', outs) -> reachable mtu max sbs o'.

(** Either a SOCKS client exists or the timer runs; the udpgw client has its
    server exactly while SOCKS is up. *)
Definition inv (mtu max : Z) (o : state) : Prop :=
  timer o = negb (have_socks o) /\
  exists s, refines mtu max (gw o) s /\ srv s = have_socks o && socks_up o.

Lemma gw_free_socks_ok mtu max o : inv mtu max o -> have_socks o = true ->
  exists o' outs, free_socks o = Ok (o', outs) /\ have_socks o' = false /\ inv mtu max (set_timer o').
Proof.
  intros (Ht & s & Hr & Hs) Hh. unfold free_socks. rewrite bind_ASSERT_true by done. rewrite Hh in Hs. cbn [andb] in Hs.
  destruct (socks_up o) eqn:Hu.
  - destruct (step_sim mtu max (gw o) s Disconnect Hr) as (c & s' & outs & Hd & Ha & Hr').
    { destruct Hr as (_ & _ & Hsrv & _). cbn. congruence. }
    cbn [step] in Hd. rewrite Hd. cbn [mbind outcome_bind]. eexists _, _. split_and!; [done|done|].
    split; [done|]. exists s'. split; [done|]. by inversion Ha; subst.
  - cbn [mbind outcome_bind]. eexists _, _. split_and!; [done|done|]. split; [done|]. by exists s.
Qed.

Lemma abs_step_srv mtu max s x s' outs : abs_step mtu max s x s' outs -> gw_event x = true ->
  srv s' = srv s /\ (outs = [ServerError] -> srv s = true).
Proof.
  intros H Hx. inversion H; subst; try done; split; try done; unfold sends; try (by destruct (bool_decide _)).
  by destruct k.
Qed.

Lemma reconnect_step mtu max o e : inv mtu max o -> enabled o e ->
  exists o' outs, handle o e = Ok (o', outs) /\ inv mtu max o'.
Proof.
  intros H He. pose proof H as (Ht & s & Hr & Hs). destruct e as [ok|e|x]; cbn [handle enabled] in *.
  - rewrite Ht in He. apply negb_true_iff in He. rewrite He in Hs. unfold reconnect_timer_handler, try_connect.
    cbn [have_socks timer]. rewrite He. cbn [negb]. do 3 rewrite bind_ASSERT_true by done. cbn [mbind outcome_bind].
    eexists _, _. split; [done|]. destruct ok; (split; [cbn; by rewrite ?He|by exists s]).
  - unfold socks_client_handler. destruct e as [ok| |].
    + destruct He as [Hh Hu]. do 2 rewrite bind_ASSERT_true by (by rewrite ?Hh, ?Hu). rewrite Hh, Hu in Hs. cbn [andb] in Hs.
      destruct (step_sim mtu max (gw o) s (Connect ok) Hr) as (c & s' & outs & Hd & Ha & Hr').
      { destruct Hr as (_ & _ & Hsrv & _). cbn. congruence. }
      cbn [step] in Hd. apply bind_Ok in Hd as ([[c' outs'] r] & Hc & Hd). rewrite Hc. cbn [mbind outcome_bind].
      injection Hd as -> ->. inversion Ha; subst. unfold UdpGwClient_ConnectServer in Hc. inv_ok.
      destruct ok; cbn [negb] in Hc; injection Hc as ? ?; subst r; cbn [Z.eqb negb].
      * eexists _, _. split; [done|]. split; [by cbn; rewrite Ht, Hh|]. eexists. split; [done|]. cbn. by rewrite Hh.
      * destruct (gw_free_socks_ok mtu max (set_gw o c)) as (o' & outs' & -> & _ & Hi).
        { split; [done|]. eexists. split; [done|]. cbn. by rewrite Hh, Hu. }
        { done. }
        cbn [mbind outcome_bind]. by eexists _, _.
    + rewrite bind_ASSERT_true by done. destruct (gw_free_socks_ok mtu max o H He) as (o' & outs & -> & _ & Hi).
      cbn [mbind outcome_bind]. by eexists _, _.
    + rewrite bind_ASSERT_true by done. destruct (gw_free_socks_ok mtu max o H He) as (o' & outs & -> & _ & Hi).
      cbn [mbind outcome_bind]. by eexists _, _.
  - destruct He as [Hx He]. destruct (step_sim mtu max (gw o) s x Hr He) as (c & s' & outs & -> & Ha & Hr').
    cbn [mbind outcome_bind]. destruct (abs_step_srv _ _ _ _ _ _ Ha Hx) as [Hsrv Herr].
    assert (inv mtu max (set_gw o c)) as Hi by (split; [done|]; exists s'; by rewrite Hsrv).
    destruct (match outs with [ServerError] => true | _ => false end) eqn:Ee.
    + assert (outs = [ServerError]) as -> by (by destruct outs as [|[] []]). specialize (Herr eq_refl). rewrite Hs in Herr. apply andb_true_iff in Herr as [Hh Hu].
      unfold udpgw_handler_servererror. do 2 rewrite bind_ASSERT_true by done.
      destruct (gw_free_socks_ok mtu max (set_gw o c) Hi Hh) as (o' & outs & -> & _ & Hi').
      cbn [mbind outcome_bind]. by eexists _, _.
    + exists (set_gw o c), outs. split; [|done]. by destruct outs as [|[] []].
Qed.

Lemma reachable_inv mtu max sbs o : 0 <= mtu -> mtu + 21 <= UINT16_MAX -> 0 < max -> 0 < sbs ->
  reachable mtu max sbs o -> inv mtu (Z.min max (UINT16_MAX + 1)) o.
Proof.
  intros H0 Hm Hmax Hs. induction 1 as [ok o Hi|o e o' outs _ IH He Hh].
  - unfold SocksUdpGwClient_Init in Hi. destruct (init_sim (Ta := Ta) (Ti := Ti) mtu max sbs H0 Hm Hmax Hs) as (c & Hc & Hr).
    rewrite Hc in Hi. cbn [mbind outcome_bind] in Hi. unfold try_connect in Hi.
    destruct ok; cbn in Hi; injection Hi as <-; (split; [done|by eexists]).
  - destruct (reconnect_step _ _ o e IH He) as (o2 & outs2 & Hh' & Hi). rewrite Hh in Hh'. by injection Hh' as <- _.
Qed.

(** C34: the connection to the udpgw server is kept up: in every reachable state
    no assertion fails for any event, the udpgw client has a server exactly
    while SOCKS is up, an attempt or connection exists or the timer that starts
    the next attempt runs (never both), and everything can be freed. *)
Theorem reconnect_always mtu max sbs o : 0 <= mtu -> mtu + 21 <= UINT16_MAX -> 0 < max -> 0 < sbs ->
  reachable mtu max sbs o ->
  (forall e, enabled o e -> is_Ok (handle o e)) /\
  timer o = negb (have_socks o) /\ have_server (gw o) = have_socks o && socks_up o /\
  exists o' outs, SocksUdpGwClient_Free o = Ok (o', outs) /\ timer o' = false /\ connections (gw o') = ∅.
Proof.
  intros H0 Hm Hmax Hs H. pose proof (reachable_inv _ _ _ _ H0 Hm Hmax Hs H) as Hi. split.
  { intros e He. destruct (reconnect_step _ _ o e Hi He) as (o' & outs & -> & _). by eexists. }
  pose proof Hi as (Ht & s & Hr & Hsrv). split_and!; [done|by destruct Hr as (_ & _ & -> & _)|].
  unfold SocksUdpGwClient_Free. destruct (have_socks o) eqn:Hh.
  - destruct (gw_free_socks_ok _ _ o Hi Hh) as (o' & outs & -> & _ & _ & s' & Hr' & _). cbn [mbind outcome_bind gw].
    cbn [set_timer gw] in Hr'. destruct s'. destruct (free_sim _ _ _ _ _ _ Hr') as (c & -> & He & _). by eexists _, _.
  - cbn [mbind outcome_bind gw]. destruct s. destruct (free_sim _ _ _ _ _ _ Hr) as (c & -> & He & _). by eexists _, _.
Qed.
End Reconnect.
Arguments state : clear implicits.

Lemma reconnect_always_witness :
  exists o : state avl_tree avl_tree, SocksUdpGwClient_Init 40 2 4 false = Ok (Some o) /\
    timer o = true /\ is_Ok (handle o (Timer true)).
Proof.
  destruct (SocksUdpGwClient_Init (Ta := avl_tree) (Ti := avl_tree) 40 2 4 false) as [[o|]|] eqn:Hi;
    [|vm_compute in Hi; discriminate..].
  destruct (reconnect_always (Ta := avl_tree) (Ti := avl_tree) 40 2 4 o) as (Hh & Ht & _);
    [lia|unfold UINT16_MAX; lia|lia|lia|by apply (reach_init _ _ _ false)|].
  assert (timer o = true) as Hto by (vm_compute in Hi; injection Hi as <-; reflexivity).
  exists o. split_and!; [reflexivity|exact Hto|]. apply Hh. exact Hto.
Defined.
End SocksUdpGwReconnect.
