(* ===== verification/RedRelay.v ===== *)
(** The relaying of redsocks (redsocks/redsocks.c, the pump over buffered
    events): two connections, the client's and the one to the proxy, each with
    an input and an output buffer of libevent. What libevent does (reading,
    writing, calling back, documented for bufferevents) is given by the events
    of the model; the callbacks are those of the program. *)
From Stdlib Require Import ZArith Lia.
From stdpp Require Import base tactics numbers option list.
From S2P Require Import Prelude.

Module RedRelay.

Definition REDSOCKS_RELAY_HALFBUFF : Z := 4096.

(** A bufferevent: its buffers, the events that are enabled, and whether the
    write event is added; with it the shutdown state the client keeps for it
    ([client_evshut] or [relay_evshut]), and what went over its socket. *)
Record bev := mkBev {
  input : list Z; output : list Z; en_read : bool; en_write : bool; wpend : bool;
  shut_read : bool; shut_write : bool;
  got : list Z; put : list Z
}.

Inductive side := Client | Relay.
#[global] Instance side_eq_dec : EqDecision side.
Proof. solve_decision. Defined.
Definition other (s : side) : side := match s with Client => Relay | Relay => Client end.

(** [redsocks_client] *)
Record client := mkClient { client_bev : bev; relay_bev : bev; pump_active : bool }.
Definition buf (s : side) (c : client) : bev := match s with Client => client_bev c | Relay => relay_bev c end.
Definition upd (s : side) (f : bev -> bev) (c : client) : client :=
  match s with
  | Client => mkClient (f (client_bev c)) (relay_bev c) (pump_active c)
  | Relay => mkClient (client_bev c) (f (relay_bev c)) (pump_active c)
  end.

(** The memory of the client: in use, or freed by [redsocks_drop_client], with
    what it was then. A handler that goes on with a freed client is a fault. *)
Inductive mem := Live (c : client) | Freed (c : client).
Definition the (m : mem) : outcome client := match m with Live c => Ok c | Freed _ => Fault end.
Definition contents (m : mem) : client := match m with Live c | Freed c => c end.

(** ** libevent *)
Definition set_bufs (i o : list Z) (b : bev) : bev :=
  mkBev i o (en_read b) (en_write b) (wpend b) (shut_read b) (shut_write b) (got b) (put b).
Definition set_en (r w p : bool) (b : bev) : bev :=
  mkBev (input b) (output b) r w p (shut_read b) (shut_write b) (got b) (put b).
Definition set_shut (r w : bool) (b : bev) : bev :=
  mkBev (input b) (output b) (en_read b) (en_write b) (wpend b) r w (got b) (put b).

Definition enable_read (b : bev) : bev := set_en true (en_write b) (wpend b) b.
Definition disable_read (b : bev) : bev := set_en false (en_write b) (wpend b) b.
Definition disable_write (b : bev) : bev := set_en (en_read b) false false b.
(** Data added to the output starts writing if that is enabled. *)
Definition add_output (d : list Z) (b : bev) : bev :=
  set_en (en_read b) (en_write b) (wpend b || (negb (bool_decide (d = [])) && en_write b))
    (set_bufs (input b) (output b ++ d) b).
(** [bufferevent_write_buffer(to, from->input)] *)
Definition write_buffer (from : side) (c : client) : client :=
  let d := input (buf from c) in
  upd (other from) (add_output d) (upd from (fun b => set_bufs [] (output b) b) c).

(** ** redsocks.c *)
Definition shut_both (c : client) : bool :=
  (shut_read (relay_bev c) && shut_write (relay_bev c)) && (shut_read (client_bev c) && shut_write (client_bev c)).

Definition redsocks_drop_client (m : mem) : outcome mem := the m ≫= fun c => Ok (Freed c).

Inductive how := SHUT_RD | SHUT_WR.
(** Its calls of [shutdown] do not show in the buffers. *)
Definition redsocks_shutdown (m : mem) (s : side) (h : how) : outcome mem :=
  the m ≫= fun c =>
  let c := upd s (match h with SHUT_RD => disable_read | SHUT_WR => disable_write end) c in
  let c := upd s (fun b => match h with
                           | SHUT_RD => set_shut true (shut_write b) b
                           | SHUT_WR => set_shut (shut_read b) true b end) c in
  if shut_both c then redsocks_drop_client (Live c) else Ok (Live c).

Definition redsocks_relay_readcb (m : mem) (from : side) : outcome mem :=
  the m ≫= fun c =>
  let to := other from in
  if Zlen (output (buf to c)) <? REDSOCKS_RELAY_HALFBUFF then Ok (Live (write_buffer from c))
  else if en_read (buf from c) then Ok (Live (upd from disable_read c)) else Ok (Live c).

Definition redsocks_relay_writecb (m : mem) (from : side) : outcome mem :=
  the m ≫= fun c =>
  let to := other from in
  let from_eof := shut_read (buf from c) in
  if (Zlen (input (buf from c)) =? 0) && from_eof then redsocks_shutdown (Live c) to SHUT_WR
  else if Zlen (output (buf to c)) <? REDSOCKS_RELAY_HALFBUFF then
    let c := write_buffer from c in
    if negb from_eof && negb (en_read (buf from c)) then Ok (Live (upd from enable_read c)) else Ok (Live c)
  else Ok (Live c).

(** [what] is whether the event is the end of the input. *)
Definition redsocks_event_error (m : mem) (s : side) (what : bool) : outcome mem :=
  the m ≫= fun _ =>
  if what then
    redsocks_shutdown m s SHUT_RD ≫= fun m =>
    the m ≫= fun c =>
    if pump_active c && (Zlen (output (buf (other s) c)) =? 0) then redsocks_shutdown m (other s) SHUT_WR else Ok m
  else redsocks_drop_client m.

(** The buffered events enabled for what is not shut, and the state set in
    [redsocks_start_relay]. *)
Definition start_bev (b : bev) : bev := set_en (negb (shut_read b)) (negb (shut_write b)) (negb (shut_write b)) b.
Definition redsocks_start_bufferpump (m : mem) : outcome mem :=
  the m ≫= fun c => Ok (Live (mkClient (start_bev (client_bev c)) (start_bev (relay_bev c)) (pump_active c))).
Definition redsocks_start_relay (m : mem) : outcome mem :=
  the m ≫= fun c =>
  redsocks_start_bufferpump (Live (mkClient (client_bev c) (relay_bev c) true)).

(** ** Events *)
Inductive event :=
| Read (s : side) (d : list Z) (* [d] arrives and is read *)
| Eof (s : side)               (* the peer closed its side *)
| Write (s : side) (n : nat)   (* the socket takes [n] bytes *)
| Failure (s : side).          (* any other event of the bufferevent *)
#[global] Instance event_eq_dec : EqDecision event.
Proof. solve_decision. Defined.

(** libevent reads while reading is enabled and never beyond the high
    watermark; it writes while writing is enabled and the event is added. *)
Definition enabled (c : client) (e : event) : Prop :=
  match e with
  | Read s d => en_read (buf s c) = true /\ d <> [] /\ Zlen (input (buf s c)) + Zlen d <= REDSOCKS_RELAY_HALFBUFF
  | Eof s => en_read (buf s c) = true /\ Zlen (input (buf s c)) < REDSOCKS_RELAY_HALFBUFF
  | Write s n => en_write (buf s c) = true /\ wpend (buf s c) = true /\ (n <= length (output (buf s c)))%nat /\
      (output (buf s c) <> [] -> n <> 0%nat)
  | Failure s => True
  end.

Definition receive (d : list Z) (b : bev) : bev :=
  mkBev (input b ++ d) (output b) (en_read b) (en_write b) (wpend b) (shut_read b) (shut_write b) (got b ++ d) (put b).
(** The write event is deleted when the output is empty. *)
Definition transmit (n : nat) (b : bev) : bev :=
  mkBev (input b) (drop n (output b)) (en_read b) (en_write b)
    (negb (bool_decide (drop n (output b) = []))) (shut_read b) (shut_write b) (got b) (put b ++ take n (output b)).

Definition handle (c : client) (e : event) : outcome mem :=
  match e with
  | Read s d => redsocks_relay_readcb (Live (upd s (receive d) c)) s
  | Eof s => redsocks_event_error (Live (upd s disable_read c)) s true
  | Write s n =>
      let c := upd s (transmit n) c in
      if bool_decide (output (buf s c) = []) then redsocks_relay_writecb (Live c) (other s) else Ok (Live c)
  | Failure s => redsocks_event_error (Live c) s false
  end.

Inductive run : mem -> list event -> outcome mem -> Prop :=
| run_nil m : run m [] (Ok m)
| run_fault c e es : enabled c e -> handle c e = Fault -> run (Live c) (e :: es) Fault
| run_cons c e es m r : enabled c e -> handle c e = Ok m -> run m es r -> run (Live c) (e :: es) r.

(** The client when the relaying starts: what it sent while the proxy was
    asked is in its input (and its end of file may have come), what the proxy
    sent after its answer is in the relay's. *)
Definition before (pre post : list Z) (eof : bool) : client :=
  mkClient (mkBev pre [] (negb eof) false false eof false pre [])
           (mkBev post [] true true false false false post []) false.

(** ** Invariant *)

(** The direction from [f] to [t]. *)
Definition conserved (f t : bev) : Prop := got f = put t ++ output t ++ input f.
Record dir_inv (f t : bev) : Prop := {
  (* nothing is lost, duplicated or reordered *)
  dir_data : conserved f t;
  dir_wpend : wpend t = true -> en_write t = true;
  dir_open : shut_write t = false -> en_write t = true;
  dir_closed : shut_write t = true -> shut_read f = true /\ en_write t = false;
  dir_eof : shut_read f = true -> en_read f = false;
  (* something to do, and the event that does it is there *)
  dir_progress : shut_write t = false ->
    (shut_read f = true \/ input f <> [] \/ output t <> [] \/ en_read f = false) -> wpend t = true
}.
Definition inv (c : client) : Prop :=
  pump_active c = true /\ shut_both c = false /\ forall s, dir_inv (buf s c) (buf (other s) c).

(** Once the output was drained, what is read goes to the output at once or
    waits for output that is still to be written. *)
Definition settled (f t : bev) : Prop := input f <> [] -> output t <> [].
(** A direction that is shut was drained before. *)
Definition drained (f t : bev) : Prop := shut_write t = true -> input f = [] /\ output t = [].

(** ** Lemmas *)
Lemma other_other s : other (other s) = s.
Proof. by destruct s. Qed.
Lemma other_ne s : other s <> s.
Proof. by destruct s. Qed.
Lemma buf_upd s f c : buf s (upd s f c) = f (buf s c).
Proof. by destruct s. Qed.
Lemma buf_upd_other s f c : buf (other s) (upd s f c) = buf (other s) c.
Proof. by destruct s. Qed.
Lemma buf_upd_other' s f c : buf s (upd (other s) f c) = buf s c.
Proof. by destruct s. Qed.
Lemma active_upd s f c : pump_active (upd s f c) = pump_active c.
Proof. by destruct s. Qed.
Lemma shut_both_sides s c :
  shut_both c = shut_read (buf s c) && shut_write (buf s c) && (shut_read (buf (other s) c) && shut_write (buf (other s) c)).
Proof. destruct s; [apply andb_comm|done]. Qed.
Lemma sides (P : side -> Prop) s : P s -> P (other s) -> forall s', P s'.
Proof. destruct s; cbn; intros ? ? []; done. Qed.

(** Prove something of every side by proving it of [s] and of the other one. *)
Ltac both_sides s := refine (sides _ s _ _); cbv beta; rewrite ?other_other.

#[local] Hint Rewrite buf_upd buf_upd_other buf_upd_other' active_upd other_other : relay.

(** What a direction depends on. *)
Lemma dir_ext f t f' t' : dir_inv f t ->
  got f' = got f -> input f' = input f -> shut_read f' = shut_read f -> en_read f' = en_read f ->
  put t' = put t -> output t' = output t -> wpend t' = wpend t -> en_write t' = en_write t ->
  shut_write t' = shut_write t -> dir_inv f' t'.
Proof. intros [] E1 E2 E3 E4 E5 E6 E7 E8 E9. unfold conserved in *. constructor; unfold conserved; rewrite ?E1, ?E2, ?E3, ?E4, ?E5, ?E6, ?E7, ?E8, ?E9; done. Qed.

(** While the input is read the direction is open. *)
Lemma dir_reading f t : dir_inv f t -> en_read f = true ->
  shut_read f = false /\ shut_write t = false /\ en_write t = true.
Proof.
  intros H Hr. destruct (shut_read f) eqn:Es; [by rewrite (dir_eof _ _ H Es) in Hr|].
  destruct (shut_write t) eqn:Ew; [by destruct (dir_closed _ _ H Ew) as [? _]; congruence|].
  split_and!; [done|done|by apply (dir_open _ _ H)].
Qed.

(** Moving the input to the output. *)
Lemma dir_move f t d r : dir_inv f t -> shut_write t = false -> shut_read f = false \/ input f ++ d <> [] ->
  (r = en_read f \/ (r = true /\ shut_read f = false)) ->
  (en_read f = false -> r = false -> output t ++ input f ++ d <> []) ->
  dir_inv (mkBev [] (output f) r (en_write f) (wpend f) (shut_read f) (shut_write f) (got f ++ d) (put f))
    (add_output (input f ++ d) t).
Proof.
  intros H Hw He Hr Hb. pose proof (dir_open _ _ H Hw) as Hen. constructor; cbn.
  - unfold conserved. cbn. rewrite (dir_data _ _ H). by rewrite !app_assoc, app_nil_r.
  - done.
  - done.
  - congruence.
  - intros Hs. destruct Hr as [->|[_ ?]]; [by apply H|congruence].
  - intros _ Hc. rewrite Hen, andb_true_r. destruct (decide (input f ++ d = [])) as [E|E].
    2:{ by rewrite bool_decide_eq_false_2, orb_true_r. }
    rewrite bool_decide_eq_true_2, orb_false_r by done. apply app_eq_nil in E as [E1 E2].
    apply (dir_progress _ _ H Hw). rewrite E1, E2, app_nil_r in Hc.
    destruct Hc as [Hc|[Hc|[Hc|Hc]]]; [by left|done|by right; right; left|].
    destruct Hr as [->|[-> _]]; [by right; right; right|done].
Qed.

Lemma shutdown_rd_ok c s : inv c -> en_read (buf s c) = true ->
  let c' := upd s (fun b => set_shut true (shut_write b) (disable_read b)) c in
  redsocks_shutdown (Live (upd s disable_read c)) s SHUT_RD = Ok (Live c') /\ shut_both c' = false.
Proof.
  intros (_ & _ & Hd) Hr c'. destruct (dir_reading _ _ (Hd s) Hr) as (_ & Hw & _).
  assert (shut_both c' = false) as Hs.
  { rewrite (shut_both_sides s). unfold c'. autorewrite with relay. rewrite Hw. by rewrite !andb_false_r. }
  split; [|done]. unfold redsocks_shutdown. cbn [the mbind outcome_bind].
  assert (upd s (fun b => set_shut true (shut_write b) b) (upd s disable_read (upd s disable_read c)) = c') as -> by (by destruct s).
  by rewrite Hs.
Qed.

(** What an event leaves of a live client that does not fail. *)
Definition preserved (c : client) (m : mem) : Prop :=
  let c' := contents m in
  (forall s, conserved (buf s c') (buf (other s) c')) /\
  (forall s, settled (buf s c) (buf (other s) c) -> settled (buf s c') (buf (other s) c')) /\
  (forall s, settled (buf s c) (buf (other s) c) ->
     drained (buf s c) (buf (other s) c) -> drained (buf s c') (buf (other s) c')) /\
  match m with Live c' => inv c' | Freed c' => shut_both c' = true end.

(** Closing a direction whose input has ended. *)
Lemma shutdown_wr_ok c s : pump_active c = true -> dir_inv (buf (other s) c) (buf s c) ->
  conserved (buf s c) (buf (other s) c) -> shut_read (buf s c) = true -> en_read (buf s c) = false ->
  exists m, redsocks_shutdown (Live c) (other s) SHUT_WR = Ok m /\
    let c' := contents m in
    buf s c' = buf s c /\
    buf (other s) c' = set_shut (shut_read (buf (other s) c)) true (disable_write (buf (other s) c)) /\
    (forall s, conserved (buf s c') (buf (other s) c')) /\
    match m with Live c' => inv c' | Freed c' => shut_both c' = true end.
Proof.
  intros Ha H1 Hg Hr He. unfold redsocks_shutdown. cbn [the mbind outcome_bind].
  set (c' := upd (other s) _ (upd _ _ c)).
  assert (buf s c' = buf s c) as Hs by (unfold c'; by rewrite !buf_upd_other').
  assert (buf (other s) c' = set_shut (shut_read (buf (other s) c)) true (disable_write (buf (other s) c))) as Ho
    by (unfold c'; by rewrite !buf_upd).
  assert (pump_active c' = true) as Ha' by (unfold c'; by rewrite !active_upd).
  assert (forall s, conserved (buf s c') (buf (other s) c')) as Hc.
  { both_sides s; rewrite Hs, Ho; [exact Hg|apply H1]. }
  destruct (shut_both c') eqn:Eb; [by exists (Freed c')|]. exists (Live c').
  split_and!; [done..|]. split_and!; [done|done|]. both_sides s.
  - rewrite Hs, Ho. by constructor; cbn.
  - rewrite Hs, Ho. eapply dir_ext; [exact H1|done..].
Qed.

(** The direction that changed and the one against it. *)
Lemma preserved_dirs c c' s :
  pump_active c' = true -> shut_both c' = false ->
  dir_inv (buf s c') (buf (other s) c') -> dir_inv (buf (other s) c') (buf s c') ->
  (settled (buf s c) (buf (other s) c) -> settled (buf s c') (buf (other s) c')) ->
  (settled (buf (other s) c) (buf s c) -> settled (buf (other s) c') (buf s c')) ->
  (drained (buf s c) (buf (other s) c) -> drained (buf s c') (buf (other s) c')) ->
  (drained (buf (other s) c) (buf s c) -> drained (buf (other s) c') (buf s c')) ->
  preserved c (Live c').
Proof.
  intros Ha Hs H1 H2 S1 S2 D1 D2. split_and!; cbn [contents].
  - by both_sides s; apply dir_data.
  - by both_sides s.
  - by both_sides s; intros _.
  - split_and!; [done|done|]. by both_sides s.
Qed.

Lemma shut_both_same c c' : (forall s, shut_read (buf s c') = shut_read (buf s c)) ->
  (forall s, shut_write (buf s c') = shut_write (buf s c)) -> shut_both c' = shut_both c.
Proof. intros Hr Hw. by rewrite !(shut_both_sides Client), !Hr, !Hw. Qed.

Lemma read_ok c s d : inv c -> enabled c (Read s d) ->
  exists m, handle c (Read s d) = Ok m /\ preserved c m.
Proof.
  intros (Ha & Hs & Hd) (Hr & Hne & Hlen). pose proof (Hd s) as H1. pose proof (Hd (other s)) as H2. rewrite other_other in H2.
  destruct (dir_reading _ _ H1 Hr) as (Hsr & Hsw & Hen).
  cbn [handle]. unfold redsocks_relay_readcb. cbn [the mbind outcome_bind].
  rewrite buf_upd_other, buf_upd. cbn [receive en_read]. rewrite Hr.
  destruct (_ <? _) eqn:Elt; zify_bool; eexists; (split; [reflexivity|]).
  - set (c' := write_buffer s _).
    assert (buf s c' = mkBev [] (output (buf s c)) true (en_write (buf s c)) (wpend (buf s c)) (shut_read (buf s c))
      (shut_write (buf s c)) (got (buf s c) ++ d) (put (buf s c))) as Es.
    { unfold c', write_buffer. autorewrite with relay. unfold set_bufs, receive. cbn. by rewrite Hr. }
    assert (buf (other s) c' = add_output (input (buf s c) ++ d) (buf (other s) c)) as Eo.
    { unfold c', write_buffer. by autorewrite with relay. }
    apply (preserved_dirs _ _ s); rewrite ?Es, ?Eo.
    + unfold c', write_buffer. by autorewrite with relay.
    + rewrite <- Hs. apply shut_both_same; both_sides s; by rewrite ?Es, ?Eo.
    + apply dir_move; [done|done|by left|by left|congruence].
    + eapply dir_ext; [exact H2|done..].
    + by intros _ ?.
    + done.
    + intros _. unfold drained. cbn. congruence.
    + done.
  - set (c' := upd s disable_read _).
    assert (buf s c' = disable_read (receive d (buf s c))) as Es by (unfold c'; by autorewrite with relay).
    assert (buf (other s) c' = buf (other s) c) as Eo by (unfold c'; by autorewrite with relay).
    assert (output (buf (other s) c) <> []) as Hout.
    { intros E. rewrite E in Elt. unfold REDSOCKS_RELAY_HALFBUFF in Elt. cbn in Elt. lia. }
    apply (preserved_dirs _ _ s); rewrite ?Es, ?Eo.
    + unfold c'. by autorewrite with relay.
    + rewrite <- Hs. apply shut_both_same; both_sides s; by rewrite ?Es, ?Eo.
    + constructor; cbn; try done; try apply H1.
      * unfold conserved. cbn. by rewrite (dir_data _ _ H1), <- !app_assoc.
      * intros Hw _. apply (dir_progress _ _ H1 Hw). by right; right; left.
    + eapply dir_ext; [exact H2|done..].
    + by intros _ _.
    + done.
    + intros _. unfold drained. congruence.
    + done.
Qed.

Lemma eof_ok c s : inv c -> enabled c (Eof s) -> exists m, handle c (Eof s) = Ok m /\ preserved c m.
Proof.
  intros Hi (Hr & _). pose proof Hi as (Ha & Hs & Hd). pose proof (Hd s) as H1. pose proof (Hd (other s)) as H2.
  rewrite other_other in H2. destruct (dir_reading _ _ H1 Hr) as (Hsr & Hsw & Hen).
  cbn [handle]. unfold redsocks_event_error. cbn [the mbind outcome_bind].
  destruct (shutdown_rd_ok c s Hi Hr) as [-> Hs1]. set (c1 := upd s _ c) in *. cbn [mbind outcome_bind the].
  assert (buf s c1 = set_shut true (shut_write (buf s c)) (disable_read (buf s c))) as Es by (unfold c1; by autorewrite with relay).
  assert (buf (other s) c1 = buf (other s) c) as Eo by (unfold c1; by autorewrite with relay).
  assert (pump_active c1 = true) as Ha1 by (unfold c1; by autorewrite with relay). rewrite Ha1, Eo. cbn [andb].
  assert (dir_inv (buf (other s) c1) (buf s c1)) as H2'.
  { rewrite Es, Eo. eapply dir_ext; [exact H2|done..]. }
  destruct (_ =? 0) eqn:Eout; zify_bool.
  - assert (output (buf (other s) c) = []) as Hout by (destruct (output _); [done|cbn in Eout; lia]).
    destruct (shutdown_wr_ok c1 s) as (m & -> & Hm); [done|done|rewrite Es, Eo; apply H1|by rewrite Es..|].
    exists m. destruct Hm as (Es' & Eo' & Hc & Hi'). rewrite Es, Eo in *.
    split; [done|]. split_and!; [done| | |done].
    + both_sides s; rewrite Es', Eo'; done.
    + both_sides s; rewrite Es', Eo'; [|done].
      intros Hset _ _. cbn. split; [|done]. destruct (decide (input (buf s c) = [])) as [?|Hne]; [done|by destruct (Hset Hne)].
  - exists (Live c1). split; [done|].
    assert (output (buf (other s) c) <> []) as Hout by (intros E; rewrite E in Eout; done).
    apply (preserved_dirs _ _ s); try done; rewrite ?Es, ?Eo.
    + constructor; cbn; try done; try apply H1; [congruence|].
      intros Hw _. apply (dir_progress _ _ H1 Hw). by right; right; left.
    + done.
    + done.
    + intros _. unfold drained. congruence.
    + done.
Qed.

(** Moving the input to an output that was drained. *)
Lemma dir_refill f t r : got f = put t ++ input f -> output t = [] -> shut_write t = false -> en_write t = true ->
  (shut_read f = true -> r = false /\ input f <> []) -> (shut_read f = false -> r = true) ->
  dir_inv (set_en r (en_write f) (wpend f) (set_bufs [] (output f) f)) (add_output (input f) t).
Proof.
  intros Hg Ho Hw He Hs Hn. assert (r = false -> input f <> []) as Hr.
  { intros ->. destruct (shut_read f); [by apply Hs|by discriminate Hn]. }
  constructor; unfold conserved; cbn; rewrite ?Ho, ?He, ?andb_true_r; try done; try congruence.
  - by rewrite app_nil_r.
  - intros ?. by apply Hs.
  - intros _ Hc. rewrite bool_decide_eq_false_2; [apply orb_true_r|].
    destruct Hc as [?%Hs|[?|[?|?%Hr]]]; naive_solver.
Qed.

Lemma refill_bufs c f :
  exists c' r, (let c' := write_buffer f c in
    if negb (shut_read (buf f c)) && negb (en_read (buf f c')) then Ok (Live (upd f enable_read c')) else Ok (Live c')) = Ok (Live c') /\
    pump_active c' = pump_active c /\
    buf f c' = set_en r (en_write (buf f c)) (wpend (buf f c)) (set_bufs [] (output (buf f c)) (buf f c)) /\
    buf (other f) c' = add_output (input (buf f c)) (buf (other f) c) /\
    (shut_read (buf f c) = true -> r = en_read (buf f c)) /\ (shut_read (buf f c) = false -> r = true).
Proof.
  set (c2 := write_buffer f c). cbv zeta.
  assert (buf f c2 = set_bufs [] (output (buf f c)) (buf f c)) as Ef by (unfold c2, write_buffer; by autorewrite with relay).
  assert (buf (other f) c2 = add_output (input (buf f c)) (buf (other f) c)) as Et by (unfold c2, write_buffer; by autorewrite with relay).
  assert (pump_active c2 = pump_active c) as Ea by (unfold c2, write_buffer; by autorewrite with relay).
  rewrite Ef. cbn [en_read set_bufs].
  destruct (shut_read (buf f c)), (en_read (buf f c)) eqn:E; cbn [negb andb].
  1,2,3: eexists _, _; split; [reflexivity|]; rewrite ?Ef, ?Et, ?Ea; split_and!;
    [done|unfold set_en, set_bufs; cbn; by rewrite E|done|done|done].
  eexists _, true. split; [reflexivity|]. autorewrite with relay. by rewrite Ef, Et, Ea.
Qed.

Lemma write_ok c s n : inv c -> enabled c (Write s n) ->
  exists m, handle c (Write s n) = Ok m /\ preserved c m.
Proof.
  intros (Ha & Hs & Hd) (He & Hp & Hn & _). pose proof (Hd s) as H2. pose proof (Hd (other s)) as H1. rewrite other_other in H1.
  assert (shut_write (buf s c) = false) as Hw.
  { destruct (shut_write (buf s c)) eqn:E; [|done]. destruct (dir_closed _ _ H1 E). congruence. }
  cbn [handle]. set (c1 := upd s (transmit n) c).
  assert (buf s c1 = transmit n (buf s c)) as Es by (unfold c1; by autorewrite with relay).
  assert (buf (other s) c1 = buf (other s) c) as Eo by (unfold c1; by autorewrite with relay).
  assert (pump_active c1 = true) as Ha1 by (unfold c1; by autorewrite with relay).
  assert (got (buf (other s) c1) = put (buf s c1) ++ output (buf s c1) ++ input (buf (other s) c1)) as Hg.
  { rewrite Es, Eo, (dir_data _ _ H1). cbn. by rewrite <- app_assoc, (app_assoc (take _ _)), take_drop. }
  assert (dir_inv (buf s c1) (buf (other s) c1)) as H2' by (rewrite Es, Eo; eapply dir_ext; [exact H2|done..]).
  case_bool_decide as Hout.
  2:{ exists (Live c1). split; [done|]. rewrite Es in Hout.
      apply (preserved_dirs _ _ s); try done; rewrite ?Es, ?Eo; try done.
      - rewrite <- Hs. apply shut_both_same; both_sides s; by rewrite ?Es, ?Eo.
      - rewrite Es, Eo in Hg. constructor; cbn; try done; try apply H1. intros _ _. by rewrite bool_decide_eq_false_2.
      - by intros _ ?.
      - intros _. unfold drained. cbn. congruence. }
  rewrite Hout in Hg. cbn [app] in Hg. unfold redsocks_relay_writecb. cbn [the mbind outcome_bind]. rewrite other_other, Hout.
  destruct (_ && _) eqn:Ec.
  - apply andb_true_iff in Ec as [Ein Er]. zify_bool.
    assert (input (buf (other s) c1) = []) as Hin by (destruct (input _); [done|cbn in Ein; lia]).
    destruct (shutdown_wr_ok c1 (other s)) as (m & Hm & Hk); rewrite ?other_other; try done.
    { unfold conserved. by rewrite Hg, Hout. }
    { rewrite Eo in *. by apply H1. }
    rewrite other_other in Hm, Hk. destruct Hk as (Eo' & Es' & Hc & Hi'). exists m.
    split; [done|]. split_and!; [done| | |done].
    + both_sides s; rewrite Es', Eo'; [by rewrite Es, Eo|]. intros _ Hne. by destruct (Hne Hin).
    + both_sides s; rewrite Es', Eo'; [by rewrite Es, Eo|]. intros _ _ _. by rewrite Hin, <- Hout.
  - change (Zlen [] <? REDSOCKS_RELAY_HALFBUFF) with true. cbv iota.
    assert (shut_read (buf (other s) c1) = true -> en_read (buf (other s) c1) = false /\ input (buf (other s) c1) <> []) as Hr.
    { intros Hr. rewrite Hr, andb_true_r in Ec. split; [rewrite Eo in *; by apply H1|by intros E; rewrite E in Ec]. }
    destruct (refill_bufs c1 (other s)) as (c3 & r & Hc3 & Ha3 & Eo3 & Es3 & Hr1 & Hr2). rewrite other_other in Es3.
    exists (Live c3). split; [exact Hc3|]. apply (preserved_dirs _ _ s); rewrite ?Es3, ?Eo3.
    + congruence.
    + rewrite <- Hs. apply shut_both_same; both_sides s; by rewrite ?Es3, ?Eo3, ?Es, ?Eo.
    + eapply dir_ext; [exact H2'|done..].
    + apply dir_refill; [done|done|by rewrite Es|by rewrite Es| |done].
      intros E. split; [rewrite Hr1 by done; by apply Hr|by apply Hr].
    + by rewrite Es, Eo.
    + by intros _ ?.
    + by rewrite Es, Eo.
    + intros _. rewrite Es. unfold drained. cbn. congruence.
Qed.

Definition is_failure (e : event) : bool := match e with Failure _ => true | _ => false end.

Lemma relay_handle_ok c e : inv c -> enabled c e ->
  exists m, handle c e = Ok m /\ if is_failure e then m = Freed c else preserved c m.
Proof.
  intros Hi He. destruct e as [s d|s|s n|s].
  - by apply read_ok.
  - by apply eof_ok.
  - by apply write_ok.
  - by exists (Freed c).
Qed.

(** Every run keeps what [relay_handle_ok] keeps. *)
Lemma relay_run_ok c es r : inv c -> run (Live c) es r ->
  exists m, r = Ok m /\ let c' := contents m in
    (forall s, conserved (buf s c') (buf (other s) c')) /\
    (forall s, settled (buf s c) (buf (other s) c) -> settled (buf s c') (buf (other s) c')) /\
    (forall s, settled (buf s c) (buf (other s) c) ->
       drained (buf s c) (buf (other s) c) -> drained (buf s c') (buf (other s) c')) /\
    match m with Live c' => inv c' | Freed c' => Exists (fun e => is_failure e = true) es \/ shut_both c' = true end.
Proof.
  intros Hi Hr. remember (Live c) as m0 eqn:E. revert c E Hi.
  induction Hr as [m|c0 e es He Hf|c0 e es m r He Hok Hr IH]; intros c E Hi.
  - subst m. exists (Live c). cbn. split_and!; try done. intros s. apply Hi.
  - injection E as ->. destruct (relay_handle_ok c e Hi He) as (m & Hm & _). congruence.
  - injection E as ->. destruct (relay_handle_ok c e Hi He) as (m' & Hm & Hp). rewrite Hok in Hm. injection Hm as <-.
    destruct (is_failure e) eqn:Ef.
    { subst m. inversion Hr; subst. exists (Freed c). cbn. split_and!; try done; [intros s; apply Hi|left; by constructor]. }
    destruct Hp as (P1 & P2 & P3 & P4). destruct m as [c1|c1].
    + destruct (IH c1 eq_refl P4) as (m & -> & Q1 & Q2 & Q3 & Q4). exists m. cbn [contents] in *.
      split_and!; [done|done|eauto|eauto|]. destruct m; [done|]. destruct Q4; [left; by constructor|by right].
    + inversion Hr; subst. exists (Freed c1). cbn [contents] in *. split_and!; try done. by right.
Qed.

(** *** The bytes that wait when the relaying starts *)

(** The direction an event is about, the one from the side it names to the
    other one. *)
Definition direction (e : event) : option side :=
  match e with Read s _ | Eof s => Some s | Write s _ => Some (other s) | Failure _ => None end.
Fixpoint first_event (s : side) (es : list event) : option event :=
  match es with
  | [] => None
  | e :: es => if decide (direction e = Some s) then Some e else first_event s es
  end.

(** Nothing was written yet. *)
Record untouched (s : side) (c : client) : Prop := {
  un_output : output (buf (other s) c) = [];
  un_put : put (buf (other s) c) = [];
  un_open : shut_write (buf (other s) c) = false
}.
Record same_direction (s : side) (c c' : client) : Prop := {
  sd_got : got (buf s c') = got (buf s c);
  sd_put : put (buf (other s) c') = put (buf (other s) c);
  sd_output : output (buf (other s) c') = output (buf (other s) c);
  sd_shut : shut_write (buf (other s) c') = shut_write (buf (other s) c)
}.

Lemma other_direction s c e m : direction e <> Some s -> handle c e = Ok m -> same_direction s c (contents m).
Proof.
  intros Hne H. destruct e as [s' d|s' |s' n|s']; cbn [direction] in Hne; cbn [handle] in H.
  - unfold redsocks_relay_readcb in H. cbn [the mbind outcome_bind] in H.
    repeat case_match; simplify_eq; destruct s, s'; by constructor.
  - unfold redsocks_event_error, redsocks_shutdown, redsocks_drop_client in H. cbn [the mbind outcome_bind] in H.
    repeat (case_match; cbn [the mbind outcome_bind] in H); simplify_eq; destruct s, s'; by constructor.
  - unfold redsocks_relay_writecb, redsocks_shutdown, redsocks_drop_client in H. cbn [the mbind outcome_bind] in H.
    repeat (case_match; cbn [the mbind outcome_bind] in H); simplify_eq; destruct s, s'; by constructor.
  - cbn in H. simplify_eq. by constructor.
Qed.

(** The first event of a direction passes on what waited, unless it is the end of
    the input: then the direction is shut at once. *)
Lemma first_served s c e m : inv c -> untouched s c -> direction e = Some s -> handle c e = Ok m ->
  if decide (e = Eof s) then
    put (buf (other s) (contents m)) = [] /\ got (buf s (contents m)) = got (buf s c) /\
    shut_write (buf (other s) (contents m)) = true
  else input (buf s (contents m)) = [] /\ (shut_write (buf (other s) (contents m)) = true -> output (buf (other s) (contents m)) = []).
Proof.
  intros (Ha & _) [Ho Hp Hw] Hd H. destruct e as [s' d|s' |s' n|s']; cbn [direction] in Hd; cbn [handle] in H; simplify_eq.
  - rewrite decide_False by done. unfold redsocks_relay_readcb in H. cbn [the mbind outcome_bind] in H.
    rewrite buf_upd_other, Ho in H. change (Zlen [] <? REDSOCKS_RELAY_HALFBUFF) with true in H. cbv iota in H. injection H as <-.
    destruct s; (split; [done|]); cbn in *; congruence.
  - rewrite decide_True by done. unfold redsocks_event_error, redsocks_shutdown, redsocks_drop_client in H. cbn [the mbind outcome_bind] in H.
    destruct (shut_both _) in H; cbn [the mbind outcome_bind] in H; [done|].
    autorewrite with relay in H. rewrite Ha, Ho in H. cbn [Zlen length Z.of_nat Z.eqb andb] in H.
    change (Z.of_nat 0 =? 0) with true in H. cbv iota in H.
    destruct (shut_both _) in H; injection H as <-; destruct s; done.
  - rewrite decide_False by done. unfold redsocks_relay_writecb, redsocks_shutdown, redsocks_drop_client in H. cbn [the mbind outcome_bind] in H.
    destruct s'; cbn in *; rewrite Ho in *; rewrite drop_nil in *; cbn in H;
      repeat (case_match; cbn [the mbind outcome_bind] in H); simplify_eq; zify_bool; cbn in *;
      (split; [first [done|apply nil_length_inv; lia]|intros Hx; first [congruence|rewrite Ho; apply drop_nil]]).
Qed.

Lemma closed_run s c es r : inv c -> shut_write (buf (other s) c) = true -> run (Live c) es r ->
  forall m, r = Ok m -> same_direction s c (contents m).
Proof.
  intros Hi Hw Hr. remember (Live c) as m0 eqn:E. revert c E Hi Hw.
  induction Hr as [m|c0 e es He Hf|c0 e es m r He Hok Hr IH]; intros c E Hi Hw m' Hm'; [simplify_eq; by constructor|done|].
  injection E as ->. destruct Hi as (Ha & Hs & Hd). pose proof (Hd s) as Hds.
  destruct (dir_closed _ _ Hds Hw) as [Hsr Hen]. pose proof (dir_eof _ _ Hds Hsr) as Her.
  assert (direction e <> Some s) as Hne.
  { intros Hdir. destruct e as [s' d|s' |s' n|s']; cbn in Hdir, He; simplify_eq; [naive_solver congruence..|].
    rewrite other_other in *. naive_solver congruence. }
  pose proof (other_direction s c e m Hne Hok) as H1.
  destruct (relay_handle_ok c e (conj Ha (conj Hs Hd)) He) as (m1 & Hm1 & Hp). rewrite Hok in Hm1. injection Hm1 as <-.
  destruct m as [c1|c1]; [|inversion Hr; subst; simplify_eq; exact H1].
  assert (inv c1) as Hi1 by (destruct (is_failure e); [done|by apply Hp]).
  specialize (IH c1 eq_refl Hi1 (eq_trans (sd_shut _ _ _ H1) Hw) m' Hm').
  destruct H1, IH. constructor; cbn [contents] in *; congruence.
Qed.

Lemma start_ok pre post eof : exists c0, redsocks_start_relay (Live (before pre post eof)) = Ok (Live c0) /\ inv c0 /\
  (forall s, untouched s c0) /\ got (buf Client c0) = pre /\ got (buf Relay c0) = post.
Proof.
  eexists. split; [reflexivity|]. split_and!; [|by intros []; constructor|done|done].
  split_and!; [done|by destruct eof|]. intros []; constructor; cbn; try done; by destruct eof.
Qed.

(** What became of a direction that was shut. *)
Lemma waiting_run s c es r : inv c -> untouched s c -> run (Live c) es r -> forall m, r = Ok m ->
  shut_write (buf (other s) (contents m)) = true ->
  if decide (first_event s es = Some (Eof s)) then put (buf (other s) (contents m)) = [] /\ got (buf s (contents m)) = got (buf s c)
  else put (buf (other s) (contents m)) = got (buf s (contents m)).
Proof.
  intros Hi Hu Hr. remember (Live c) as m0 eqn:E. revert c E Hi Hu.
  induction Hr as [m|c0 e es He Hf|c0 e es m r He Hok Hr IH]; intros c E Hi Hu m' Hm' Hsh; [|done|].
  { simplify_eq. cbn in Hsh. rewrite (un_open _ _ Hu) in Hsh. done. }
  injection E as ->. destruct (relay_handle_ok c e Hi He) as (m1 & Hm1 & Hp). rewrite Hok in Hm1. injection Hm1 as <-.
  cbn [first_event]. destruct (decide (direction e = Some s)) as [Hd|Hd].
  - pose proof (first_served s c e m Hi Hu Hd Hok) as Hfs.
    assert (is_failure e = false) as Hnf by (by destruct e). rewrite Hnf in Hp. destruct Hp as (P1 & _ & _ & P4).
    destruct (decide (e = Eof s)) as [->|Hne].
    + rewrite decide_True by done. destruct Hfs as (F1 & F2 & F3). destruct m as [c1|c1].
      * destruct (closed_run s c1 es r P4 F3 Hr m' Hm'). cbn [contents] in *. split; congruence.
      * inversion Hr; subst. simplify_eq. done.
    + rewrite decide_False by congruence. destruct Hfs as [F1 F2]. destruct m as [c1|c1]; cbn [contents] in *.
      * destruct (relay_run_ok c1 es r P4 Hr) as (m2 & -> & R1 & _ & R3 & _). simplify_eq.
        destruct (R3 s) as [E1 E2]; [by intros ?|by intros Hw; auto|done|].
        pose proof (R1 s) as Hc. unfold conserved in Hc. by rewrite Hc, E1, E2, !app_nil_r.
      * inversion Hr; subst. simplify_eq. cbn [contents] in *. pose proof (P1 s) as Hc. unfold conserved in Hc.
        by rewrite Hc, F1, F2, !app_nil_r.
  - pose proof (other_direction s c e m Hd Hok) as H1. destruct m as [c1|c1].
    + assert (inv c1) as Hi1 by (destruct (is_failure e); [done|by apply Hp]).
      rewrite <- (sd_got _ _ _ H1). apply (IH c1 eq_refl Hi1); [|done|done].
      destruct Hu, H1. constructor; cbn [contents] in *; congruence.
    + inversion Hr; subst. simplify_eq. rewrite (sd_shut _ _ _ H1), (un_open _ _ Hu) in Hsh. done.
Qed.


(** The client sends two bytes, the proxy answers with one and both close. *)
Definition demo : list event :=
  [Read Client [1; 2]; Write Relay 2; Read Relay [3]; Eof Client; Eof Relay; Write Client 1].

Definition exec (r : outcome mem) (es : list event) : outcome mem :=
  fold_left (fun r e => r ≫= fun m => the m ≫= fun c => handle c e) es r.
Definition demo_result : outcome mem := exec (redsocks_start_relay (Live (before [] [] false))) demo.

Ltac run_demo :=
  repeat (eapply run_cons; [vm_compute; split_and!; first [done|lia]|vm_compute; reflexivity|]); apply run_nil.


(** Bytes that wait in the client's input when the relaying starts are lost if
    the end of the client's input is seen before the first write event of the
    relay: the relay's output is empty, so its writing is shut. *)
Lemma relay_race_loses : exists m,
  (exists m0, redsocks_start_relay (Live (before [1; 2] [] false)) = Ok m0 /\ run m0 [Eof Client] (Ok (Live m))) /\
  got (client_bev m) = [1; 2] /\ put (relay_bev m) = [] /\ shut_write (relay_bev m) = true /\ wpend (relay_bev m) = false.
Proof. eexists. split; [eexists; split; [vm_compute; reflexivity|run_demo]|done]. Qed.

End RedRelay.
