(* ===== verification/RedSplice.v ===== *)
(** The relaying of redsocks by splice (redsocks/redsocks.c, the pump over
    pipes): what the buffered events still hold is written first, then bytes
    go from one socket to a pipe and from the pipe to the other socket. What
    libevent and the system calls do (which event fires, how much a call
    moves, how it fails) is given by the events of the model; the callbacks are
    those of the program. *)
From Stdlib Require Import ZArith Lia.
From stdpp Require Import base tactics numbers option list.
From S2P Require Import Prelude RedRelay.

Module RedSplice.
Import RedRelay(side, Client, Relay, other, side_eq_dec, other_other, other_ne, sides).

(** [splice_pipe]: whether its descriptors are open, the counter of the program
    and the bytes in the pipe. *)
Record splice_pipe := mkPipe { is_open : bool; psize : Z; pdata : list Z }.

(** One side of a [redsocks_pump]: the bufferevent with its input and output,
    if it is not freed, and whether it has the socket; the shutdown state; the
    read event (initialised, pending) and the write event (pending, made
    active); the pipe that is filled from this side ([request] for the client,
    [reply] for the relay); how often the socket was closed, what went over it,
    and whether a read of it ever blocked although the pipe was empty. *)
Record half := mkHalf {
  bufev : option (list Z * list Z); has_fd : bool;
  shut_read : bool; shut_write : bool;
  ev_init : bool; read_pending : bool; write_pending : bool; write_active : bool;
  pipe : splice_pipe;
  closes : nat; got : list Z; put : list Z; spurious : bool
}.
Record redsocks_pump := mkPump { client_half : half; relay_half : half }.

Definition hf (s : side) (p : redsocks_pump) : half := match s with Client => client_half p | Relay => relay_half p end.
Definition upd (s : side) (f : half -> half) (p : redsocks_pump) : redsocks_pump :=
  match s with Client => mkPump (f (client_half p)) (relay_half p) | Relay => mkPump (client_half p) (f (relay_half p)) end.

Inductive mem := Live (p : redsocks_pump) | Freed (p : redsocks_pump).
Definition the (m : mem) : outcome redsocks_pump := match m with Live p => Ok p | Freed _ => Fault end.
Definition contents (m : mem) : redsocks_pump := match m with Live p | Freed p => p end.

Definition input (h : half) : list Z := match bufev h with Some (i, _) => i | None => [] end.
Definition output (h : half) : list Z := match bufev h with Some (_, o) => o | None => [] end.

Definition set_bufev b h := mkHalf b (has_fd h) (shut_read h) (shut_write h) (ev_init h) (read_pending h) (write_pending h) (write_active h) (pipe h) (closes h) (got h) (put h) (spurious h).
Definition set_shut r w h := mkHalf (bufev h) (has_fd h) r w (ev_init h) (read_pending h) (write_pending h) (write_active h) (pipe h) (closes h) (got h) (put h) (spurious h).
Definition set_read r h := mkHalf (bufev h) (has_fd h) (shut_read h) (shut_write h) (ev_init h) r (write_pending h) (write_active h) (pipe h) (closes h) (got h) (put h) (spurious h).
Definition set_write w a h := mkHalf (bufev h) (has_fd h) (shut_read h) (shut_write h) (ev_init h) (read_pending h) w a (pipe h) (closes h) (got h) (put h) (spurious h).
Definition set_pipe q h := mkHalf (bufev h) (has_fd h) (shut_read h) (shut_write h) (ev_init h) (read_pending h) (write_pending h) (write_active h) q (closes h) (got h) (put h) (spurious h).
Definition set_fd f i c h := mkHalf (bufev h) f (shut_read h) (shut_write h) i (read_pending h) (write_pending h) (write_active h) (pipe h) c (got h) (put h) (spurious h).
Definition sent (d : list Z) h := mkHalf (bufev h) (has_fd h) (shut_read h) (shut_write h) (ev_init h) (read_pending h) (write_pending h) (write_active h) (pipe h) (closes h) (got h) (put h ++ d) (spurious h).
Definition arrived (d : list Z) h := mkHalf (bufev h) (has_fd h) (shut_read h) (shut_write h) (ev_init h) (read_pending h) (write_pending h) (write_active h) (pipe h) (closes h) (got h ++ d) (put h) (spurious h).
Definition blocked h := mkHalf (bufev h) (has_fd h) (shut_read h) (shut_write h) (ev_init h) (read_pending h) (write_pending h) (write_active h) (pipe h) (closes h) (got h) (put h) (spurious h || bool_decide (pdata (pipe h) = [])).

Definition closed_pipe (q : splice_pipe) : splice_pipe := mkPipe false (psize q) (pdata q).

Definition shut_both (p : redsocks_pump) : bool :=
  (shut_read (relay_half p) && shut_write (relay_half p)) && (shut_read (client_half p) && shut_write (client_half p)).

(** The socket is closed with the bufferevent if that has it, and with the read
    event if that is initialised. *)
Definition drop_half (h : half) : half :=
  let n := ((if bufev h then if has_fd h then 1 else 0 else 0) + (if ev_init h then 1 else 0))%nat in
  set_bufev None (set_pipe (closed_pipe (pipe h)) (set_read false (set_write false false (set_fd false (ev_init h) (closes h + n) h)))).
Definition redsocks_drop_client (m : mem) : outcome mem :=
  the m ≫= fun p => Ok (Freed (upd Relay drop_half (upd Client drop_half p))).

Definition bufferevent_free_unused (h : half) : half :=
  match bufev h with Some ([], []) => set_bufev None h | _ => h end.
(** The time of the event is not modelled here. *)
Definition redsocks_touch_pump (p : redsocks_pump) : redsocks_pump :=
  upd Relay bufferevent_free_unused (upd Client bufferevent_free_unused p).

(** ** Writing *)

(** The result of evbuffer_write or splice to a socket. *)
Inductive wresult := Sent (n : nat) | WouldBlock | WriteFailed.
Inductive progress := Full | Short | Failed.

(** One source of [d] bytes: how the write went, and what it took. *)
Definition write_from (d : list Z) (w : wresult) : progress * nat :=
  match d with
  | [] => (Full, 0%nat)
  | _ =>
    match w with
    | WouldBlock => (Short, 0%nat)
    | WriteFailed => (Failed, 0%nat)
    | Sent n => if (n =? length d)%nat then (Full, n) else (Short, n)
    end
  end.

(** The sources of the data from side [s]: the output of the other side's
    bufferevent, the input of this side's, the pipe. *)
Definition write_output (s : side) (w : wresult) (p : redsocks_pump) : redsocks_pump * progress :=
  let d := output (hf (other s) p) in
  let '(r, n) := write_from d w in
  (upd (other s) (fun h => sent (take n d) (set_bufev ((fun b => (fst b, drop n (snd b))) <$> bufev h) h)) p, r).
Definition write_input (s : side) (w : wresult) (p : redsocks_pump) : redsocks_pump * progress :=
  let d := input (hf s p) in
  let '(r, n) := write_from d w in
  (upd (other s) (sent (take n d)) (upd s (fun h => set_bufev ((fun b => (drop n (fst b), snd b)) <$> bufev h) h) p), r).
(** The amount is the counter of the program; the descriptors must be open. *)
Definition write_pipe (s : side) (w : wresult) (p : redsocks_pump) : outcome (redsocks_pump * progress) :=
  let q := pipe (hf s p) in
  if psize q =? 0 then Ok (p, Full)
  else
    ASSERT (is_open q);;
    ASSERT (psize q =? Zlen (pdata q));;
    let '(r, n) := write_from (pdata q) w in
    Ok (upd (other s) (sent (take n (pdata q))) (upd s (set_pipe (mkPipe (is_open q) (psize q - Z.of_nat n) (drop n (pdata q)))) p), r).

Definition decide_events (s : side) (has_data can_write : bool) (p : redsocks_pump) : outcome mem :=
  ASSERT (negb (can_write && has_data));;
  Ok (Live (
    if negb can_write && has_data then upd (other s) (fun h => set_write true (write_active h) h) (upd s (set_read false) p)
    else if can_write && negb has_data then upd (other s) (set_write false false) (upd s (set_read true) p)
    else if negb can_write && negb has_data then upd (other s) (set_write false false) (upd s (set_read false) p)
    else p)).

Definition decide (s : side) (has_data can_write : bool) (p : redsocks_pump) : outcome mem :=
  if negb has_data && shut_read (hf s p) && negb (shut_write (hf (other s) p)) then
    let p := upd (other s) (fun h => set_shut (shut_read h) true h) p in
    ASSERT (psize (pipe (hf s p)) =? 0);;
    let p := upd s (fun h => set_pipe (closed_pipe (pipe h)) h) p in
    if shut_both p then redsocks_drop_client (Live p) else decide_events s has_data false p
  else decide_events s has_data can_write p.

(** A failed write drops the client, a short one ends the writing. *)
Definition write_next (s : side) (r : progress) (p : redsocks_pump) (k : redsocks_pump -> outcome mem) : outcome mem :=
  match r with
  | Failed => redsocks_drop_client (Live p)
  | Short => decide s true false p
  | Full => k p
  end.

Definition redsplice_write_cb (s : side) (w0 w1 w2 : wresult) (m : mem) : outcome mem :=
  the m ≫= fun p =>
  let '(p, r) := write_output s w0 p in
  write_next s r p (fun p =>
  let '(p, r) := write_input s w1 p in
  write_next s r p (fun p =>
  write_pipe s w2 p ≫= fun '((p, r) : redsocks_pump * progress) =>
  write_next s r p (fun p => decide s false true p))).

(** ** Reading *)
Inductive rresult := Got (d : list Z) | Eof | ReadBlock | ReadFailed.
Definition pipesize : Z := 1048576.

Definition redsplice_read_cb (s : side) (r : rresult) (m : mem) : outcome mem :=
  the m ≫= fun p =>
  ASSERT (is_open (pipe (hf s p)));;
  let activate := upd (other s) (fun h => set_write (write_pending h) true h) in
  match r with
  | ReadBlock => Ok (Live (upd s (fun h => blocked (set_read false h)) p))
  | ReadFailed => redsocks_drop_client (Live p)
  | Eof => Ok (Live (activate (upd s (fun h => set_read false (set_shut true (shut_write h) h)) p)))
  | Got d =>
      Ok (Live (activate (upd s (fun h =>
        let q := pipe h in arrived d (set_pipe (mkPipe (is_open q) (psize q + Zlen d) (pdata q ++ d)) h)) p)))
  end.

(** [redsplice_relay_read], [redsplice_client_read]: side [s] is read. *)
Definition redsplice_read (s : side) (r : rresult) (m : mem) : outcome mem :=
  the m ≫= fun p => redsplice_read_cb s r (Live (redsocks_touch_pump p)).
(** [redsplice_relay_write], [redsplice_client_write]: the data of side [s] is
    written to the other side. *)
Definition redsplice_write (s : side) (w0 w1 w2 : wresult) (m : mem) : outcome mem :=
  the m ≫= fun p => redsplice_write_cb s w0 w1 w2 (Live (redsocks_touch_pump p)).

(** ** Starting *)

(** The calls that may fail: disabling the buffered events, the two pipes, the
    four assignments of events. *)
Record start_calls := mkStart { disable_ok : bool; request_ok : bool; reply_ok : bool; assigned : nat }.

Definition new_pipe : splice_pipe := mkPipe true 0 [].
Definition no_pipe : splice_pipe := mkPipe false 0 [].

Definition redsocks_start_splicepump (k : start_calls) (p : redsocks_pump) : redsocks_pump * bool :=
  if negb (disable_ok k) then (p, false)
  else if negb (request_ok k) then (p, false)
  else
    let p := upd Client (set_pipe new_pipe) p in
    if negb (reply_ok k) then (p, false)
    else
      let p := upd Relay (set_pipe new_pipe) p in
      let p := upd Client (fun h => set_fd (has_fd h) (1 <=? assigned k)%nat (closes h) h) p in
      let p := upd Relay (fun h => set_fd (has_fd h) (3 <=? assigned k)%nat (closes h) h) p in
      if (assigned k <? 4)%nat then (p, false)
      else
        let p := upd Client (fun h => set_fd false (ev_init h) (closes h) h) (upd Relay (fun h => set_fd false (ev_init h) (closes h) h) p) in
        let p := upd Relay (set_write false true) (upd Client (set_write false true) p) in
        (upd Relay (set_read true) (upd Client (set_read true) p), true).

Definition redsocks_start_relay (k : start_calls) (m : mem) : outcome mem :=
  the m ≫= fun p =>
  let '(p, ok) := redsocks_start_splicepump k p in
  if ok then Ok (Live p) else redsocks_drop_client (Live p).

(** ** Events *)
Inductive event := Readable (s : side) (r : rresult) | Writable (s : side) (w0 w1 w2 : wresult).

Definition fits (w : wresult) (d : list Z) : Prop := match w with Sent n => (n <= length d)%nat | _ => True end.

(** An event fires if it is pending, or was made active. A call that moves
    bytes moves at least one to the pipe and at most what it is given. A read
    blocks because the pipe is full or, after a spurious wake-up, because the
    socket has nothing to read. *)
Definition enabled (p : redsocks_pump) (e : event) : Prop :=
  match e with
  | Readable s r => read_pending (hf s p) = true /\
      match r with Got d => d <> [] /\ Zlen d <= pipesize | _ => True end
  | Writable s w0 w1 w2 => write_pending (hf (other s) p) || write_active (hf (other s) p) = true /\
      fits w0 (output (hf (other s) p)) /\ fits w1 (input (hf s p)) /\ fits w2 (pdata (pipe (hf s p)))
  end.

Definition handle (e : event) (p : redsocks_pump) : outcome mem :=
  match e with
  | Readable s r => redsplice_read s r (Live p)
  | Writable s w0 w1 w2 =>
      redsplice_write s w0 w1 w2 (Live (upd (other s) (fun h => set_write (write_pending h) false h) p))
  end.

Inductive run : mem -> list event -> outcome mem -> Prop :=
| run_nil m : run m [] (Ok m)
| run_fault p e es : enabled p e -> handle e p = Fault -> run (Live p) (e :: es) Fault
| run_cons p e es m r : enabled p e -> handle e p = Ok m -> run m es r -> run (Live p) (e :: es) r.

(** The pump when the relaying starts: the bytes in the buffers are counted as
    sent by their side; the client's end of file may have come. *)
Definition before (ci co ri ro : list Z) (eof : bool) : redsocks_pump :=
  mkPump (mkHalf (Some (ci, co)) true eof false false false false false no_pipe 0 (ro ++ ci) [] false)
         (mkHalf (Some (ri, ro)) true false false false false false false no_pipe 0 (co ++ ri) [] false).

(** ** Invariant *)

(** What side [f] sent was written to [t], followed by what is buffered. *)
Definition conserved (f t : half) : Prop := got f = put t ++ output t ++ input f ++ pdata (pipe f).

(** The data from [f] to [t], while it is written. *)
Record flow (f t : half) : Prop := {
  fl_size : psize (pipe f) = Zlen (pdata (pipe f));
  fl_data : conserved f t;
  fl_open : shut_write t = false -> is_open (pipe f) = true
}.
(** Between events: a direction that is shut is over; one that is not has its
    write event there whenever there is something to write, an end to pass on
    or reading is paused, except that it may pause with nothing to write after a
    spurious wake-up. *)
Record dir_inv (f t : half) : Prop := {
  dir_flow : flow f t;
  dir_closed : shut_write t = true ->
    shut_read f = true /\ read_pending f = false /\ write_pending t = false /\ write_active t = false /\ put t = got f;
  dir_progress : shut_write t = false ->
    shut_read f = true \/ output t <> [] \/ input f <> [] \/ pdata (pipe f) <> [] \/ read_pending f = false /\ spurious f = false ->
    write_pending t || write_active t = true
}.
Definition sockets_ok (p : redsocks_pump) : Prop := forall s, has_fd (hf s p) = false /\ ev_init (hf s p) = true /\ closes (hf s p) = 0%nat.
Definition inv (p : redsocks_pump) : Prop :=
  shut_both p = false /\ sockets_ok p /\ forall s, dir_inv (hf s p) (hf (other s) p).

(** A pump that was dropped: every socket was closed once, what was written is
    the beginning of what was sent. *)
Definition dropped (p : redsocks_pump) : Prop :=
  forall s, closes (hf s p) = 1%nat /\ put (hf (other s) p) `prefix_of` got (hf s p).

(** ** Lemmas *)
Lemma hf_upd s f p : hf s (upd s f p) = f (hf s p).
Proof. by destruct s. Qed.
Lemma hf_upd_other s f p : hf (other s) (upd s f p) = hf (other s) p.
Proof. by destruct s. Qed.
Lemma hf_upd_other' s f p : hf s (upd (other s) f p) = hf s p.
Proof. by destruct s. Qed.
Lemma splice_shut_both_sides s p :
  shut_both p = shut_read (hf s p) && shut_write (hf s p) && (shut_read (hf (other s) p) && shut_write (hf (other s) p)).
Proof. destruct s; [apply andb_comm|done]. Qed.
#[local] Hint Rewrite hf_upd hf_upd_other hf_upd_other' other_other : splice.
Ltac halves := autorewrite with splice.
Ltac both_sides s := refine (sides _ s _ _); cbv beta; halves.

(** What a direction depends on. *)
Record same_dir (f t f' t' : half) : Prop := {
  sd_input : input f' = input f; sd_pipe : pipe f' = pipe f; sd_got : got f' = got f; sd_read : shut_read f' = shut_read f;
  sd_rp : read_pending f' = read_pending f; sd_output : output t' = output t; sd_put : put t' = put t;
  sd_write : shut_write t' = shut_write t; sd_spur : spurious f' = spurious f; sd_wp : write_pending t' = write_pending t; sd_wa : write_active t' = write_active t
}.
Lemma flow_ext f t f' t' : flow f t -> input f' = input f -> pipe f' = pipe f -> got f' = got f ->
  output t' = output t -> put t' = put t -> shut_write t' = shut_write t -> flow f' t'.
Proof.
  intros [H1 H2 H3] E1 E2 E3 E4 E5 E6. unfold conserved in *. constructor; unfold conserved; [congruence..|].
  intros Hw. rewrite E2. apply H3. congruence.
Qed.
Lemma splice_dir_ext f t f' t' : dir_inv f t -> same_dir f t f' t' -> dir_inv f' t'.
Proof.
  intros [H1 H2 H3] Hs. pose proof Hs as []. constructor; [by apply (flow_ext f t)| |].
  - intros Hw. rewrite sd_write0 in Hw. destruct (H2 Hw) as (? & ? & ? & ? & ?). split_and!; congruence.
  - intros Hw Hc. rewrite sd_wp0, sd_wa0. apply H3; [congruence|]. by rewrite <- sd_read0, <- sd_output0, <- sd_input0, <- sd_pipe0, <- sd_rp0, <- sd_spur0.
Qed.

Lemma free_unused_fields h : let h' := bufferevent_free_unused h in
  input h' = input h /\ output h' = output h /\ set_bufev (bufev h) h' = h.
Proof.
  unfold bufferevent_free_unused, input, output. destruct h as [b ? ? ? ? ? ? ? ? ? ? ? ?]. cbn.
  destruct b as [[[|? ?] [|? ?]]|]; done.
Qed.
Lemma same_bufev h h' f : input h' = input h -> output h' = output h -> set_bufev f h' = h ->
  pipe h' = pipe h /\ got h' = got h /\ put h' = put h /\ shut_read h' = shut_read h /\ shut_write h' = shut_write h /\
  read_pending h' = read_pending h /\ write_pending h' = write_pending h /\ write_active h' = write_active h /\
  has_fd h' = has_fd h /\ ev_init h' = ev_init h /\ closes h' = closes h /\ spurious h' = spurious h.
Proof. intros _ _ <-. by split_and!. Qed.

Lemma hf_touch s p : hf s (redsocks_touch_pump p) = bufferevent_free_unused (hf s p).
Proof. by destruct s. Qed.

(** Touching changes nothing that matters. *)
Lemma touch_same s p : let p' := redsocks_touch_pump p in
  same_dir (hf s p) (hf (other s) p) (hf s p') (hf (other s) p').
Proof.
  cbv zeta. rewrite !hf_touch. destruct (free_unused_fields (hf s p)) as (A1 & A2 & A3), (free_unused_fields (hf (other s) p)) as (B1 & B2 & B3).
  destruct (same_bufev _ _ _ A1 A2 A3) as (? & ? & ? & ? & ? & ? & ? & ? & ? & ? & ? & ?), (same_bufev _ _ _ B1 B2 B3) as (? & ? & ? & ? & ? & ? & ? & ? & ? & ? & ? & ?).
  by constructor.
Qed.
Lemma touch_sockets p : sockets_ok p -> sockets_ok (redsocks_touch_pump p).
Proof.
  intros H s. rewrite hf_touch. destruct (H s) as (? & ? & ?). destruct (free_unused_fields (hf s p)) as (A1 & A2 & A3).
  destruct (same_bufev _ _ _ A1 A2 A3) as (? & ? & ? & ? & ? & ? & ? & ? & ? & ? & ? & ?). split_and!; congruence.
Qed.

Lemma sockets_upd s f p : sockets_ok p -> (forall h, has_fd (f h) = has_fd h /\ ev_init (f h) = ev_init h /\ closes (f h) = closes h) ->
  sockets_ok (upd s f p).
Proof.
  intros H Hf. both_sides s; [|apply H]. destruct (Hf (hf s p)) as (-> & -> & ->). apply H.
Qed.

Lemma drop_ok p : sockets_ok p -> (forall s, conserved (hf s p) (hf (other s) p)) ->
  exists p', redsocks_drop_client (Live p) = Ok (Freed p') /\ dropped p' /\ shut_both p' = shut_both p /\
    forall s, got (hf s p') = got (hf s p) /\ put (hf s p') = put (hf s p).
Proof.
  intros Hs Hc. eexists. split; [done|]. split_and!.
  - intros s. destruct (Hs s) as (Hf & Hi & Hn). split.
    + destruct s; cbn in *; rewrite Hf, Hi, Hn; by destruct (bufev _).
    + pose proof (Hc s) as Hd. unfold conserved in Hd. destruct s; cbn in *; rewrite Hd; by eexists.
  - by destruct p.
  - by intros [].
Qed.

(** While side [s] is being written. *)
Record writing (s : side) (p : redsocks_pump) : Prop := {
  wr_flow : flow (hf s p) (hf (other s) p);
  wr_shut : shut_write (hf (other s) p) = false;
  wr_other : dir_inv (hf (other s) p) (hf s p);
  wr_sockets : sockets_ok p
}.
Lemma writing_conserved s p : writing s p -> forall s', conserved (hf s' p) (hf (other s') p).
Proof. intros [[_ H1 _] _ [[_ H2 _] _ _] _]. by both_sides s. Qed.

(** The outcome of an event. *)
Definition after (failure : bool) (m : mem) : Prop :=
  match m with
  | Live p => inv p
  | Freed p => dropped p /\ (failure = true \/ shut_both p = true /\ forall s, put (hf (other s) p) = got (hf s p))
  end.

Lemma drop_failed s p : writing s p -> exists m, redsocks_drop_client (Live p) = Ok m /\ after true m.
Proof.
  intros H. destruct (drop_ok p (wr_sockets _ _ H) (writing_conserved _ _ H)) as (p' & -> & Hd & _). eexists. split; [done|]. split; auto.
Qed.

(** *** Writing *)
Lemma write_from_ok d w r n : fits w d -> write_from d w = (r, n) ->
  (n <= length d)%nat /\ (r = Full -> n = length d) /\ (r = Failed -> w = WriteFailed).
Proof.
  intros Hf. destruct d as [|x d]; cbn; [intros [= <- <-]; by split_and!|].
  destruct w as [k| |]; [|intros [= <- <-]; split_and!; [lia|done|done]..].
  cbn in Hf. destruct (k =? S (length d))%nat eqn:E; intros [= <- <-]; [apply Nat.eqb_eq in E|apply Nat.eqb_neq in E]; split_and!; try done; lia.
Qed.

(** A write moves the beginning of the buffered bytes to the socket. *)
Lemma writing_moved s p p' : writing s p -> conserved (hf s p') (hf (other s) p') ->
  psize (pipe (hf s p')) = Zlen (pdata (pipe (hf s p'))) -> is_open (pipe (hf s p')) = is_open (pipe (hf s p)) ->
  shut_write (hf (other s) p') = false -> same_dir (hf (other s) p) (hf s p) (hf (other s) p') (hf s p') -> sockets_ok p' -> writing s p'.
Proof.
  intros [[H1 H2 H3] Hw Ho _] Hc Hsz Hop Hw' Hsd Hs. constructor; [constructor; [done|done|]|done|by eapply splice_dir_ext|done].
  intros _. rewrite Hop. auto.
Qed.

Lemma write_output_ok s w p p' r : writing s p -> fits w (output (hf (other s) p)) -> write_output s w p = (p', r) ->
  writing s p' /\ input (hf s p') = input (hf s p) /\ pipe (hf s p') = pipe (hf s p) /\ got (hf s p') = got (hf s p) /\
  (r = Full -> output (hf (other s) p') = []) /\ (r = Failed -> w = WriteFailed).
Proof.
  intros H Hf. unfold write_output. destruct (write_from _ w) as [r0 n] eqn:E. intros [= <- <-].
  destruct (write_from_ok _ _ _ _ Hf E) as (Hn & Hfull & Hfail). set (t := hf (other s) p) in *. halves.
  set (t' := sent (take n (output t)) (set_bufev ((fun b => (fst b, drop n (snd b))) <$> bufev t) t)).
  assert (output t' = drop n (output t)) as Eo by (unfold t', output; cbn; destruct (bufev t) as [[]|]; [done|by rewrite drop_nil]).
  assert (input t' = input t) as Ei by (unfold t', input; cbn; by destruct (bufev t) as [[]|]).
  split_and!; [|done..| |done].
  - destruct H as [[H1 H2 H3] Hw Ho Hs]. apply (writing_moved s p); [by constructor|..]; halves; fold t; fold t'; try done.
    + unfold conserved in *. rewrite H2, Eo. cbn [put t' sent set_bufev]. fold t. by rewrite <- app_assoc, (app_assoc (take n _)), take_drop.
    + by apply sockets_upd.
  - intros ->. fold t t'. rewrite Eo, Hfull by done. apply drop_all.
Qed.

Lemma write_input_ok s w p p' r : writing s p -> output (hf (other s) p) = [] -> fits w (input (hf s p)) -> write_input s w p = (p', r) ->
  writing s p' /\ output (hf (other s) p') = [] /\ pipe (hf s p') = pipe (hf s p) /\ got (hf s p') = got (hf s p) /\
  (r = Full -> input (hf s p') = []) /\ (r = Failed -> w = WriteFailed).
Proof.
  intros H Hout Hf. unfold write_input. destruct (write_from _ w) as [r0 n] eqn:E. intros [= <- <-].
  destruct (write_from_ok _ _ _ _ Hf E) as (Hn & Hfull & Hfail). set (f := hf s p) in *. halves.
  set (f' := set_bufev ((fun b => (drop n (fst b), snd b)) <$> bufev f) f).
  assert (input f' = drop n (input f)) as Ei by (unfold f', input; cbn; destruct (bufev f) as [[]|]; [done|by rewrite drop_nil]).
  assert (output f' = output f) as Eo by (unfold f', output; cbn; by destruct (bufev f) as [[]|]).
  split_and!; [|done..| |done].
  - destruct H as [[H1 H2 H3] Hw Ho Hs]. apply (writing_moved s p); [by constructor|..]; halves; fold f; fold f'; try done.
    + unfold conserved in *.
      change (got (hf s p) = (put (hf (other s) p) ++ take n (input f)) ++ output (hf (other s) p) ++ input f' ++ pdata (pipe (hf s p))).
      rewrite H2, Hout, Ei. cbn [app]. by rewrite <- app_assoc, (app_assoc (take n _)), take_drop.
    + by apply sockets_upd; [apply sockets_upd|].
  - intros ->. fold f f'. rewrite Ei, Hfull by done. apply drop_all.
Qed.

Lemma write_pipe_ok s w p : writing s p -> output (hf (other s) p) = [] -> input (hf s p) = [] -> fits w (pdata (pipe (hf s p))) ->
  exists p' r, write_pipe s w p = Ok (p', r) /\ writing s p' /\ output (hf (other s) p') = [] /\ input (hf s p') = [] /\ got (hf s p') = got (hf s p) /\
  (r = Full -> pdata (pipe (hf s p')) = []) /\ (r = Failed -> w = WriteFailed).
Proof.
  intros H Hout Hin Hf. pose proof H as [[H1 H2 H3] Hw Ho Hs]. unfold write_pipe. set (q := pipe (hf s p)) in *.
  destruct (psize q =? 0) eqn:Eq; zify_bool.
  { exists p, Full. split_and!; try done. intros _. apply nil_length_inv. fold q. lia. }
  rewrite (H3 Hw), H1, Z.eqb_refl. cbn [ASSERT mbind outcome_bind]. destruct (write_from _ w) as [r n] eqn:E.
  destruct (write_from_ok _ _ _ _ Hf E) as (Hn & Hfull & Hfail). eexists _, r. split; [done|]. halves. split_and!; try done.
  - apply (writing_moved s p); [done|..]; halves; try done; cbn.
    + unfold conserved in *.
      change (got (hf s p) = (put (hf (other s) p) ++ take n (pdata q)) ++ output (hf (other s) p) ++ input (hf s p) ++ drop n (pdata q)).
      rewrite H2, Hout, Hin. cbn [app]. by rewrite <- app_assoc, take_drop.
    + rewrite length_drop. lia.
    + symmetry. by apply H3.
    + by apply sockets_upd; [apply sockets_upd|].
  - intros ->. cbn. rewrite Hfull by done. apply drop_all.
Qed.

(** *** The events after a write *)
Lemma decide_short_ok s p : writing s p -> exists m, decide s true false p = Ok m /\ after false m.
Proof.
  intros [H1 Hw Ho Hs]. unfold decide. cbn. eexists. split; [done|]. cbn. split_and!.
  - rewrite (splice_shut_both_sides s). halves. cbn. rewrite Hw, !andb_false_r. done.
  - by apply sockets_upd; [apply sockets_upd|].
  - both_sides s; [|by apply (splice_dir_ext _ _ _ _ Ho); constructor].
    constructor; cbn; [by apply (flow_ext (hf s p) (hf (other s) p))|congruence|done].
Qed.

Lemma conserved_empty f t : conserved f t -> output t = [] -> input f = [] -> pdata (pipe f) = [] -> put t = got f.
Proof. unfold conserved. intros -> -> -> ->. by rewrite !app_nil_r. Qed.

(** All was written: the end of file is passed on, or reading goes on. *)
Lemma decide_full_ok s p : writing s p -> output (hf (other s) p) = [] -> input (hf s p) = [] -> pdata (pipe (hf s p)) = [] ->
  exists m, decide s false true p = Ok m /\ after false m /\ put (hf (other s) (contents m)) = got (hf s p) /\
    (if shut_read (hf s p) then shut_write (hf (other s) (contents m)) = true else read_pending (hf s (contents m)) = true).
Proof.
  intros H Hout Hin Hpd. pose proof H as [H1 Hw Ho Hs]. pose proof (conserved_empty _ _ (fl_data _ _ H1) Hout Hin Hpd) as Hput.
  unfold decide. rewrite Hw. cbn [negb andb]. destruct (shut_read (hf s p)) eqn:Er; cbn [andb].
  - autorewrite with splice. rewrite (fl_size _ _ H1), Hpd. cbn [length Z.of_nat Z.eqb ASSERT mbind outcome_bind].
    set (p1 := upd s _ (upd (other s) _ p)).
    assert (hf s p1 = set_pipe (closed_pipe (pipe (hf s p))) (hf s p)) as E1 by (unfold p1; by halves).
    assert (hf (other s) p1 = set_shut (shut_read (hf (other s) p)) true (hf (other s) p)) as E2 by (unfold p1; by halves).
    assert (sockets_ok p1) as Hs1 by (by apply sockets_upd; [apply sockets_upd|]).
    assert (dir_inv (hf (other s) p1) (hf s p1)) as Ho1 by (rewrite E1, E2; by apply (splice_dir_ext _ _ _ _ Ho); constructor).
    assert (conserved (hf s p1) (hf (other s) p1)) as Hc1 by (rewrite E1, E2; exact (fl_data _ _ H1)).
    destruct (shut_both p1) eqn:Eb.
    + assert (forall s', put (hf (other s') p1) = got (hf s' p1)) as Hall.
      { both_sides s; [by rewrite E1, E2|]. rewrite (splice_shut_both_sides s) in Eb. zify_bool. by apply (dir_closed _ _ Ho1). }
      destruct (drop_ok p1 Hs1) as (p' & -> & Hd & Hb & Hgp); [both_sides s; [done|apply Ho1]|].
      exists (Freed p'). split; [done|]. split; [split; [done|right; split; [congruence|]]|].
      * intros s'. destruct (Hgp (other s')) as [_ ->], (Hgp s') as [-> _]. apply Hall.
      * cbn. destruct (Hgp (other s)) as [_ ->], (Hgp s) as [_ _]. split; [by rewrite E2|].
        rewrite Eb, (splice_shut_both_sides s) in Hb. zify_bool. done.
    + eexists. split; [done|]. cbn [after contents negb andb]. split; [split_and!|].
      * rewrite (splice_shut_both_sides s). halves. rewrite (splice_shut_both_sides s) in Eb. exact Eb.
      * by apply sockets_upd; [apply sockets_upd|].
      * both_sides s; [|by apply (splice_dir_ext _ _ _ _ Ho1); constructor]. rewrite E1, E2. constructor; cbn.
        -- constructor; [exact (fl_size _ _ H1)|exact (fl_data _ _ H1)|done].
        -- done.
        -- done.
      * halves. rewrite E2. by split.
  - eexists. split; [done|]. cbn [after contents negb andb]. split; [split_and!|].
    + rewrite (splice_shut_both_sides s). halves. cbn. by rewrite Hw, !andb_false_r.
    + by apply sockets_upd; [apply sockets_upd|].
    + both_sides s; [|by apply (splice_dir_ext _ _ _ _ Ho); constructor].
      constructor; cbn; [by apply (flow_ext (hf s p) (hf (other s) p))|congruence|].
      intros _ [Hc|[Hc|[Hc|[Hc|[Hc _]]]]]; try done. congruence.
    + halves. by split.
Qed.

(** *** The events of the pump *)
Definition failed (w : wresult) : bool := match w with WriteFailed => true | _ => false end.
Definition is_failure (e : event) : bool :=
  match e with Readable _ ReadFailed => true | Readable _ _ => false | Writable _ w0 w1 w2 => failed w0 || failed w1 || failed w2 end.

Lemma after_weaken b m : after false m -> after b m.
Proof. destruct m as [p|p]; [done|]. intros [H1 [H2|H2]]; [done|]. split; auto. Qed.

Lemma write_next_ok s r w p k b : writing s p -> (r = Failed -> w = WriteFailed) -> (failed w = true -> b = true) ->
  (r = Full -> exists m, k p = Ok m /\ after b m) -> exists m, write_next s r p k = Ok m /\ after b m.
Proof.
  intros H Hr Hb Hk. destruct r; cbn [write_next]; [by apply Hk| |].
  - destruct (decide_short_ok s p H) as (m & -> & Hm). exists m. split; [done|by apply after_weaken].
  - rewrite Hb by (by rewrite Hr). by apply (drop_failed s).
Qed.

Lemma write_cb_ok s w0 w1 w2 p : writing s p -> fits w0 (output (hf (other s) p)) -> fits w1 (input (hf s p)) -> fits w2 (pdata (pipe (hf s p))) ->
  exists m, redsplice_write_cb s w0 w1 w2 (Live p) = Ok m /\ after (failed w0 || failed w1 || failed w2) m.
Proof.
  intros H F0 F1 F2. unfold redsplice_write_cb. cbn [the mbind outcome_bind].
  destruct (write_output s w0 p) as [p1 r1] eqn:E1. destruct (write_output_ok _ _ _ _ _ H F0 E1) as (H1 & I1 & P1 & _ & O1 & X1).
  apply (write_next_ok s r1 w0); [done|done|by intros ->|]. intros ->. specialize (O1 eq_refl).
  destruct (write_input s w1 p1) as [p2 r2] eqn:E2. rewrite <- I1 in F1. destruct (write_input_ok _ _ _ _ _ H1 O1 F1 E2) as (H2 & O2 & P2 & _ & I2 & X2).
  apply (write_next_ok s r2 w1); [done|done|intros ->; by rewrite orb_true_r|]. intros ->. specialize (I2 eq_refl).
  rewrite <- P1, <- P2 in F2. destruct (write_pipe_ok s w2 p2 H2 O2 I2 F2) as (p3 & r3 & -> & H3 & O3 & I3 & _ & P3 & X3). cbn [mbind outcome_bind].
  apply (write_next_ok s r3 w2); [done|done|intros ->; by rewrite !orb_true_r|]. intros ->. specialize (P3 eq_refl).
  destruct (decide_full_ok s p3 H3 O3 I3 P3) as (m & -> & Hm & _). exists m. split; [done|by apply after_weaken].
Qed.

(** A write event finds its direction open. *)
Lemma inv_writing s p : inv p -> write_pending (hf (other s) p) || write_active (hf (other s) p) = true ->
  writing s (redsocks_touch_pump (upd (other s) (fun h => set_write (write_pending h) false h) p)).
Proof.
  intros (Hb & Hs & Hd) Hev. pose proof (Hd s) as Hds. pose proof (Hd (other s)) as Hdo. rewrite other_other in Hdo.
  assert (shut_write (hf (other s) p) = false) as Hw.
  { destruct (shut_write _) eqn:E; [|done]. destruct (dir_closed _ _ Hds E) as (_ & _ & E1 & E2 & _). by rewrite E1, E2 in Hev. }
  set (p1 := upd (other s) _ p).
  assert (hf s p1 = hf s p) as E1 by (unfold p1; by halves).
  assert (hf (other s) p1 = set_write (write_pending (hf (other s) p)) false (hf (other s) p)) as E2 by (unfold p1; by halves).
  pose proof (touch_same s p1) as Ht. pose proof (touch_same (other s) p1) as Ht'. rewrite other_other in Ht'. cbv zeta in Ht, Ht'.
  constructor.
  - destruct Ht. apply (flow_ext (hf s p1) (hf (other s) p1)); [|done..]. rewrite E1, E2. by apply (flow_ext _ _ _ _ (dir_flow _ _ Hds)).
  - rewrite (sd_write _ _ _ _ Ht), E2. exact Hw.
  - apply (splice_dir_ext (hf (other s) p1) (hf s p1)); [|done]. rewrite E1, E2. by apply (splice_dir_ext _ _ _ _ Hdo); constructor.
  - by apply touch_sockets, sockets_upd.
Qed.

Lemma inv_touch p : inv p -> inv (redsocks_touch_pump p).
Proof.
  intros (Hb & Hs & Hd). split_and!.
  - rewrite (splice_shut_both_sides Client) in *. pose proof (touch_same Client p) as []. pose proof (touch_same Relay p) as []. cbn [other] in *. congruence.
  - by apply touch_sockets.
  - intros s. eapply splice_dir_ext; [apply Hd|apply touch_same].
Qed.

Lemma read_cb_ok s r p : inv p -> enabled p (Readable s r) ->
  exists m, redsplice_read_cb s r (Live p) = Ok m /\ after (is_failure (Readable s r)) m.
Proof.
  intros (Hb & Hs & Hd) [Hrp Hr]. pose proof (Hd s) as Hds. pose proof (Hd (other s)) as Hdo. rewrite other_other in Hdo.
  assert (shut_write (hf (other s) p) = false) as Hw.
  { destruct (shut_write _) eqn:E; [|done]. destruct (dir_closed _ _ Hds E) as (_ & E1 & _). congruence. }
  unfold redsplice_read_cb. cbn [the mbind outcome_bind]. rewrite (fl_open _ _ (dir_flow _ _ Hds) Hw). cbn [ASSERT mbind outcome_bind].
  assert (forall p', sockets_ok p' -> shut_write (hf (other s) p') = false -> dir_inv (hf s p') (hf (other s) p') ->
    dir_inv (hf (other s) p') (hf s p') -> inv p') as Hinv.
  { intros p' Hs' Hw' D1 D2. split_and!; [by rewrite (splice_shut_both_sides s), Hw', !andb_false_r|done|by both_sides s]. }
  destruct r as [d| | |]; eexists; (split; [done|]); cbn [after is_failure].
  - apply Hinv; halves; [by apply sockets_upd; [apply sockets_upd|]|done| |by apply (splice_dir_ext _ _ _ _ Hdo); constructor].
    destruct (dir_flow _ _ Hds) as [H1 H2 H3]. constructor; cbn; [constructor; cbn| |].
    + rewrite length_app. lia.
    + unfold conserved in *. cbn. change (got (hf s p) ++ d = put (hf (other s) p) ++ output (hf (other s) p) ++ input (hf s p) ++ pdata (pipe (hf s p)) ++ d).
      by rewrite H2, !app_assoc.
    + done.
    + congruence.
    + by rewrite orb_true_r.
  - apply Hinv; halves; [by apply sockets_upd; [apply sockets_upd|]|done| |by apply (splice_dir_ext _ _ _ _ Hdo); constructor].
    constructor; cbn; [by apply (flow_ext _ _ _ _ (dir_flow _ _ Hds))|congruence|by rewrite orb_true_r].
  - apply Hinv; halves; [by apply sockets_upd|done| |by apply (splice_dir_ext _ _ _ _ Hdo); constructor].
    constructor; cbn; [by apply (flow_ext _ _ _ _ (dir_flow _ _ Hds))|congruence|].
    intros _ Hc. apply (dir_progress _ _ Hds Hw). destruct Hc as [?|[?|[?|[?|[_ Hsp]]]]]; auto.
    apply orb_false_iff in Hsp as [_ Hsp]. apply bool_decide_eq_false in Hsp. auto.
  - destruct (drop_ok p Hs) as (p' & [= <-] & Hdr & _); [intros s'; apply Hd|]. split; auto.
Qed.

Lemma splice_handle_ok p e : inv p -> enabled p e -> exists m, handle e p = Ok m /\ after (is_failure e) m.
Proof.
  intros Hi He. destruct e as [s r|s w0 w1 w2]; cbn [handle].
  - unfold redsplice_read. cbn [the mbind outcome_bind]. apply read_cb_ok; [by apply inv_touch|].
    pose proof (touch_same s p) as [? Epipe ? ? Erp ? ? ? ? ?]. destruct He as [H1 H2]. split; [congruence|]. done.
  - unfold redsplice_write. cbn [the mbind outcome_bind]. destruct He as (H1 & F0 & F1 & F2). apply write_cb_ok; [by apply inv_writing|..].
    + pose proof (touch_same s (upd (other s) (fun h => set_write (write_pending h) false h) p)) as []. rewrite sd_output0. by halves.
    + pose proof (touch_same s (upd (other s) (fun h => set_write (write_pending h) false h) p)) as []. rewrite sd_input0. by halves.
    + pose proof (touch_same s (upd (other s) (fun h => set_write (write_pending h) false h) p)) as []. rewrite sd_pipe0. by halves.
Qed.

(** A write event whose calls take everything delivers everything, and the end
    of file with it. *)
Definition flush (s : side) (p : redsocks_pump) : event :=
  Writable s (Sent (length (output (hf (other s) p)))) (Sent (length (input (hf s p)))) (Sent (length (pdata (pipe (hf s p))))).

Lemma fits_all d : fits (Sent (length d)) d.
Proof. cbn. lia. Qed.
Lemma write_from_all d r n : write_from d (Sent (length d)) = (r, n) -> r = Full.
Proof. destruct d as [|x d]; cbn; [by intros [= <- <-]|]. rewrite Nat.eqb_refl. by intros [= <- <-]. Qed.

Lemma flush_cb_ok s p : writing s p -> exists m,
  redsplice_write_cb s (Sent (length (output (hf (other s) p)))) (Sent (length (input (hf s p)))) (Sent (length (pdata (pipe (hf s p))))) (Live p) = Ok m /\
  put (hf (other s) (contents m)) = got (hf s p) /\
  (if shut_read (hf s p) then shut_write (hf (other s) (contents m)) = true else read_pending (hf s (contents m)) = true).
Proof.
  intros H. unfold redsplice_write_cb. cbn [the mbind outcome_bind].
  destruct (write_output s _ p) as [p1 r1] eqn:E1. destruct (write_output_ok _ _ _ _ _ H (fits_all _) E1) as (H1 & I1 & P1 & G1 & O1 & _).
  assert (r1 = Full /\ shut_read (hf s p1) = shut_read (hf s p)) as [-> R1].
  { unfold write_output in E1. destruct (write_from _ _) as [r n] eqn:E. apply write_from_all in E. injection E1 as <- <-. by halves. }
  specialize (O1 eq_refl). cbn [write_next]. rewrite <- I1.
  destruct (write_input s _ p1) as [p2 r2] eqn:E2. destruct (write_input_ok _ _ _ _ _ H1 O1 (fits_all _) E2) as (H2 & O2 & P2 & G2 & I2 & _).
  assert (r2 = Full /\ shut_read (hf s p2) = shut_read (hf s p1)) as [-> R2].
  { unfold write_input in E2. destruct (write_from _ _) as [r n] eqn:E. apply write_from_all in E. injection E2 as <- <-. by halves. }
  specialize (I2 eq_refl). cbn [write_next]. rewrite <- P1, <- P2.
  destruct (write_pipe_ok s _ p2 H2 O2 I2 (fits_all _)) as (p3 & r3 & E3 & H3 & O3 & I3 & G3 & P3 & _).
  assert (r3 = Full /\ shut_read (hf s p3) = shut_read (hf s p2)) as [-> R3].
  { unfold write_pipe in E3. destruct (_ =? 0); [by injection E3 as <- <-|]. destruct (is_open _); [|done]. cbn in E3.
    destruct (_ =? _); [|done]. cbn in E3. destruct (write_from _ _) as [r n] eqn:E. apply write_from_all in E. injection E3 as <- <-. by halves. }
  rewrite E3. cbn [mbind outcome_bind write_next]. destruct (decide_full_ok s p3 H3 O3 I3 (P3 eq_refl)) as (m & -> & _ & Hput & Hsh).
  exists m. split_and!; [done|congruence|]. by rewrite R3, R2, R1 in Hsh.
Qed.

Lemma flush_ok s p : inv p -> shut_write (hf (other s) p) = false ->
  shut_read (hf s p) = true \/ output (hf (other s) p) <> [] \/ input (hf s p) <> [] \/ pdata (pipe (hf s p)) <> [] \/
    read_pending (hf s p) = false /\ spurious (hf s p) = false ->
  enabled p (flush s p) /\ exists m, handle (flush s p) p = Ok m /\ put (hf (other s) (contents m)) = got (hf s p) /\
    if shut_read (hf s p) then shut_write (hf (other s) (contents m)) = true else read_pending (hf s (contents m)) = true.
Proof.
  intros Hi Hw Hc. pose proof (dir_progress _ _ (proj2 (proj2 Hi) s) Hw Hc) as Hev. split; [split_and!; [done|apply fits_all..]|].
  cbn [handle flush]. unfold redsplice_write. cbn [the mbind outcome_bind]. set (p1 := upd (other s) _ p).
  pose proof (inv_writing s p Hi Hev) as Hwr. fold p1 in Hwr.
  pose proof (touch_same s p1) as [Ei Ep Eg Er _ Eo _ _ _ _]. cbv zeta in *.
  assert (hf s p1 = hf s p) as E1 by (unfold p1; by halves).
  assert (output (hf (other s) p1) = output (hf (other s) p)) as E2 by (unfold p1; by halves).
  destruct (flush_cb_ok s _ Hwr) as (m & Hm & Hput & Hsh). rewrite Ei, Ep, Eo, E1, E2 in Hm. exists m. split; [done|].
  rewrite Eg, E1 in Hput. rewrite Er, E1 in Hsh. done.
Qed.

(** *** Starting and running *)
Definition starts (k : start_calls) : bool := disable_ok k && request_ok k && reply_ok k.

Lemma splice_start_ok k ci co ri ro eof : assigned k = 4%nat ->
  exists m, redsocks_start_relay k (Live (before ci co ri ro eof)) = Ok m /\
    match m with Live p => inv p | Freed p => starts k = false /\ dropped p end.
Proof.
  destruct k as [kd k1 k2 n]. cbn. intros ->. unfold redsocks_start_relay, starts. cbn [the mbind outcome_bind disable_ok request_ok reply_ok].
  destruct kd, k1, k2; cbn; try (eexists; split; [done|]; split; [done|]; intros []; (split; [done|apply prefix_nil])).
  eexists. split; [done|]. split_and!; [done|by intros []|].
  intros []; (constructor; cbn; [constructor; cbn; [done|unfold conserved; cbn; by rewrite app_nil_r|done]|done|done]).
Qed.

Lemma splice_run_ok m es r : run m es r -> match m with Live p => inv p | Freed _ => True end ->
  exists m', r = Ok m' /\ match m' with
    | Live p => inv p
    | Freed p => m = Freed p \/ dropped p /\ (Exists (fun e => is_failure e = true) es \/ shut_both p = true /\ forall s, put (hf (other s) p) = got (hf s p))
    end.
Proof.
  induction 1 as [m|p e es He Hf|p e es m r He Hok Hr IH]; intros Hi.
  - exists m. split; [done|]. destruct m; auto.
  - destruct (splice_handle_ok p e Hi He) as (m & Hm & _). congruence.
  - destruct (splice_handle_ok p e Hi He) as (m1 & Hm & Ha). rewrite Hok in Hm. injection Hm as <-.
    destruct IH as (m' & -> & Hm'); [by destruct m|]. exists m'. split; [done|]. destruct m' as [p'|p']; [done|]. right.
    destruct Hm' as [->|[H1 [H2|H2]]].
    + destruct Ha as [H1 [H2|H2]]; [|by auto]. split; [done|]. left. by constructor.
    + split; [done|]. left. by apply Exists_cons_tl.
    + by auto.
Qed.

(** If the assignment of an event failed, the drop would close the socket of
    the client with its bufferevent and again with the read event. *)
Lemma start_double_close : exists p, redsocks_start_relay (mkStart true true true 3) (Live (before [] [] [] [] false)) = Ok (Freed p) /\
  closes (client_half p) = 2%nat.
Proof. eexists. split; [vm_compute; reflexivity|done]. Qed.

(** A read that would block although the pipe is empty stops its direction for
    good: no event of it is left. *)
Lemma spurious_wakeup_stalls s p m : inv p -> shut_read (hf s p) = false -> write_pending (hf (other s) p) || write_active (hf (other s) p) = false ->
  handle (Readable s ReadBlock) p = Ok m ->
  exists p', m = Live p' /\ read_pending (hf s p') = false /\ write_pending (hf (other s) p') = false /\ write_active (hf (other s) p') = false.
Proof.
  intros Hi Hr Hev H. apply inv_touch in Hi as Hi'. cbn [handle] in H. unfold redsplice_read in H. cbn [the mbind outcome_bind] in H.
  unfold redsplice_read_cb in H. cbn [the mbind outcome_bind] in H. destruct (is_open _); [|done]. injection H as <-. eexists. split; [done|]. halves.
  pose proof (touch_same s p) as [_ _ _ _ _ _ _ _ _ Ewp Ewa]. cbv zeta in *. rewrite Ewp, Ewa. zify_bool. split_and!; done.
Qed.

(** *** Spurious wake-ups *)

(** A step of the callbacks leaves the note of side [s] alone. *)
Definition quiet (s : side) (p p' : redsocks_pump) : Prop := spurious (hf s p') = spurious (hf s p).
Lemma quiet_trans s p1 p2 p3 : quiet s p1 p2 -> quiet s p2 p3 -> quiet s p1 p3.
Proof. unfold quiet. congruence. Qed.

Lemma quiet_touch s p : quiet s p (redsocks_touch_pump p).
Proof.
  unfold quiet. rewrite hf_touch. destruct (free_unused_fields (hf s p)) as (A1 & A2 & A3). by apply (same_bufev _ _ _ A1 A2 A3).
Qed.
Lemma quiet_output s s' w p p' r : write_output s' w p = (p', r) -> quiet s p p'.
Proof. unfold write_output, quiet. destruct (write_from _ w). intros [= <- <-]. by destruct s, s'. Qed.
Lemma quiet_input s s' w p p' r : write_input s' w p = (p', r) -> quiet s p p'.
Proof. unfold write_input, quiet. destruct (write_from _ w). intros [= <- <-]. by destruct s, s'. Qed.
Lemma quiet_pipe s s' w p p' r : write_pipe s' w p = Ok (p', r) -> quiet s p p'.
Proof.
  unfold write_pipe, quiet. destruct (_ =? 0); [by intros [= <- <-]|]. destruct (is_open _); [|done].
  cbn [ASSERT mbind outcome_bind]. destruct (_ =? _); [|done]. cbn [ASSERT mbind outcome_bind].
  destruct (write_from _ w). intros [= <- <-]. by destruct s, s'.
Qed.
Lemma quiet_drop s p m : redsocks_drop_client (Live p) = Ok m -> quiet s p (contents m).
Proof. intros [= <-]. by destruct s. Qed.
Lemma quiet_decide s s' d c p m : decide s' d c p = Ok m -> quiet s p (contents m).
Proof.
  assert (forall p m, decide_events s' d c p = Ok m -> quiet s p (contents m)) as He.
  { intros p0 m0. unfold decide_events. destruct d, c; intros [= <-]; by destruct s, s'. }
  assert (forall p m, decide_events s' d false p = Ok m -> quiet s p (contents m)) as He'.
  { intros p0 m0. unfold decide_events. destruct d; intros [= <-]; by destruct s, s'. }
  unfold decide. destruct (_ && _); [|apply He]. destruct (_ =? 0); [|done]. cbn [ASSERT mbind outcome_bind].
  set (p1 := upd s' _ (upd (other s') _ p)). assert (quiet s p p1) as H1 by (by destruct s, s').
  intros H. apply (quiet_trans s p p1); [done|]. destruct (shut_both p1); [by apply quiet_drop|by apply He'].
Qed.
Lemma quiet_next s s' r p k m : (forall m, k p = Ok m -> quiet s p (contents m)) ->
  write_next s' r p k = Ok m -> quiet s p (contents m).
Proof. intros Hk. destruct r; cbn [write_next]; [by apply Hk|by apply quiet_decide|by apply quiet_drop]. Qed.
Lemma quiet_write s s' w0 w1 w2 p m : redsplice_write_cb s' w0 w1 w2 (Live p) = Ok m -> quiet s p (contents m).
Proof.
  unfold redsplice_write_cb. cbn [the mbind outcome_bind].
  destruct (write_output s' w0 p) as [p1 r1] eqn:E1. intros H. eapply quiet_trans; [by eapply quiet_output|].
  revert H. apply quiet_next. clear m. intros m.
  destruct (write_input s' w1 p1) as [p2 r2] eqn:E2. intros H. eapply quiet_trans; [by eapply quiet_input|].
  revert H. apply quiet_next. clear m. intros m.
  destruct (write_pipe s' w2 p2) as [[p3 r3]|] eqn:E3; [|done]. intros H. eapply quiet_trans; [by eapply quiet_pipe|].
  revert H. cbn [mbind outcome_bind]. apply quiet_next. clear m. intros m. apply quiet_decide.
Qed.

Lemma spurious_only s e p m : handle e p = Ok m -> spurious (hf s (contents m)) = true ->
  spurious (hf s p) = true \/ e = Readable s ReadBlock.
Proof.
  destruct e as [s' r|s' w0 w1 w2]; cbn [handle]; intros H Hsp.
  - unfold redsplice_read, redsplice_read_cb in H. cbn [the mbind outcome_bind] in H. destruct (is_open _); [|done].
    pose proof (quiet_touch s p) as Hq. unfold quiet in Hq. rewrite <- Hq. cbn [ASSERT mbind outcome_bind] in H.
    destruct r as [d| | |]; injection H as <-; destruct s, s'; auto.
  - left. unfold redsplice_write in H. cbn [the mbind outcome_bind] in H. apply (quiet_write s) in H. unfold quiet in H.
    rewrite H in Hsp. pose proof (quiet_touch s (upd (other s') (fun h => set_write (write_pending h) false h) p)) as Hq.
    unfold quiet in Hq. rewrite Hq in Hsp. by destruct s, s'.
Qed.
Lemma start_quiet k ci co ri ro eof m : redsocks_start_relay k (Live (before ci co ri ro eof)) = Ok m ->
  forall s, spurious (hf s (contents m)) = false.
Proof.
  unfold redsocks_start_relay. cbn [the mbind outcome_bind]. unfold redsocks_start_splicepump.
  destruct (disable_ok k), (request_ok k), (reply_ok k), (assigned k <? 4)%nat; cbn [negb]; intros [= <-] []; done.
Qed.
Lemma spurious_run m es r : run m es r -> forall s p, r = Ok (Live p) -> spurious (hf s p) = true ->
  spurious (hf s (contents m)) = true \/ Readable s ReadBlock ∈ es.
Proof.
  induction 1 as [m|p e es He Hf|p e es m r He Hok Hr IH]; intros s p' E Hsp; [injection E as ->; by left|done|].
  destruct (IH s p' E Hsp) as [H1|H1]; [|right; by right].
  destruct (spurious_only s e p m Hok H1) as [H2| ->]; [by left|right; by left].
Qed.

(** C15: the relaying of redsocks by splice is safe. For every content of the
    buffered events when it starts, with or without the client's end of file,
    and every order of read and write events, partial writes, failures and
    spurious wake-ups: no callback uses a freed client, splices to a closed pipe
    or fails an assertion; what a side sent is what was written to the other
    side, followed by what the output of the other side, its own input and the
    pipe hold, in this order; a direction that has something to write or an end
    of file to pass on has its write event, and when the socket takes the data
    that event delivers all of it, then passes the end of file on or reads
    again; so has a direction that paused its reading, unless a read of its side
    once found the socket and the pipe empty, the wake-up having been spurious,
    after which it may wait for ever (redsocks.c:507, [spurious_wakeup_stalls]);
    a direction that was shut was delivered completely; when the client is freed
    every socket was closed exactly once, and without a failure everything was
    delivered in both directions. The assignments of the events are assumed to
    succeed ([start_double_close]). *)
Theorem splice_pump_safe k ci co ri ro eof es r : assigned k = 4%nat ->
  (exists m0, redsocks_start_relay k (Live (before ci co ri ro eof)) = Ok m0 /\ run m0 es r) ->
  exists m, r = Ok m /\
    match m with
    | Live p => forall s,
        got (hf s p) = put (hf (other s) p) ++ output (hf (other s) p) ++ input (hf s p) ++ pdata (pipe (hf s p)) /\
        closes (hf s p) = 0%nat /\
        (shut_write (hf (other s) p) = true -> put (hf (other s) p) = got (hf s p)) /\
        (shut_write (hf (other s) p) = false ->
         shut_read (hf s p) = true \/ output (hf (other s) p) <> [] \/ input (hf s p) <> [] \/ pdata (pipe (hf s p)) <> [] \/
           read_pending (hf s p) = false /\ spurious (hf s p) = false ->
         enabled p (flush s p) /\ exists m', handle (flush s p) p = Ok m' /\ put (hf (other s) (contents m')) = got (hf s p) /\
           if shut_read (hf s p) then shut_write (hf (other s) (contents m')) = true else read_pending (hf s (contents m')) = true) /\
        (spurious (hf s p) = true -> Readable s ReadBlock ∈ es)
    | Freed p =>
        (forall s, closes (hf s p) = 1%nat /\ put (hf (other s) p) `prefix_of` got (hf s p)) /\
        (starts k = false \/ Exists (fun e => is_failure e = true) es \/ shut_both p = true /\ forall s, put (hf (other s) p) = got (hf s p))
    end.
Proof.
  intros Hk (m0 & H0 & Hr). destruct (splice_start_ok k ci co ri ro eof Hk) as (m0' & H0' & Hm0). rewrite H0 in H0'. injection H0' as <-.
  destruct (splice_run_ok m0 es r Hr) as (m & -> & Hm); [by destruct m0|]. exists m. split; [done|]. destruct m as [p|p].
  - intros s. pose proof (proj2 (proj2 Hm) s) as Hd. split_and!; [apply Hd|apply Hm|apply Hd|by apply flush_ok|].
    intros Hsp. destruct (spurious_run _ _ _ Hr s p eq_refl Hsp) as [H1|H1]; [|done].
    by rewrite (start_quiet k ci co ri ro eof m0 H0 s) in H1.
  - destruct Hm as [->|[H1 H2]]; [destruct Hm0 as [? ?]; auto|auto].
Qed.

(** Buffered bytes are written, bytes arrive on both sides, a write is short,
    both sides close. *)
Definition demo : list event :=
  [Writable Client (Sent 1) (Sent 1) WouldBlock; Readable Client (Got [7; 8; 9]); Readable Relay (Got [4]);
   Writable Client WouldBlock WouldBlock (Sent 2); Writable Relay WouldBlock WouldBlock (Sent 1);
   Writable Client WouldBlock WouldBlock (Sent 1); Readable Client Eof; Writable Client WouldBlock WouldBlock WouldBlock;
   Readable Relay Eof; Writable Relay WouldBlock WouldBlock WouldBlock].
Definition demo_calls : start_calls := mkStart true true true 4.
Definition exec (r : outcome mem) (es : list event) : outcome mem :=
  fold_left (fun r e => r ≫= fun m => the m ≫= fun p => handle e p) es r.
Definition demo_result : outcome mem := exec (redsocks_start_relay demo_calls (Live (before [1] [] [] [0] false))) demo.

Lemma splice_pump_safe_witness : exists p, demo_result = Ok (Freed p) /\ put (relay_half p) = [0; 1; 7; 8; 9] /\ put (client_half p) = [4] /\
  closes (relay_half p) = 1%nat.
Proof.
  destruct (splice_pump_safe demo_calls [1] [] [] [0] false demo demo_result) as (m & Hm & Hs).
  - reflexivity.
  - eexists. split; [vm_compute; reflexivity|]. unfold demo. vm_compute demo_result.
    repeat (eapply run_cons; [vm_compute; split_and!; first [done|lia]|vm_compute; reflexivity|]). apply run_nil.
  - destruct m as [p|p]; [vm_compute in Hm; discriminate Hm|]. exists p. split; [exact Hm|]. destruct Hs as [Hs _].
    split; [|split; [|apply (Hs Relay)]]; clear Hs; vm_compute in Hm; injection Hm as <-; reflexivity.
Defined.

End RedSplice.
