(* ===== verification/Base64.v ===== *)
(** Base64 as redsocks has it for the credentials of HTTP proxies
    (redsocks/base64.c): encoding and decoding of character arrays, with the
    32-bit accumulators, the bounds of the arrays and the table of the source. *)
From Stdlib Require Import ZArith Lia String Ascii.
From stdpp Require Import base tactics numbers option list.
From S2P Require Import Prelude.

Module Base64.

Definition chars (s : string) : list Z := map (fun c => Z.of_N (N_of_ascii c)) (list_ascii_of_string s).

(** ** Encoding *)
Definition b64 : list Z := chars "ABCDEFGHIJKLMNOPQRSTUVWXYZabcdefghijklmnopqrstuvwxyz0123456789+/".
Definition UINT_MAX : Z := 2 ^ 32 - 1.
Definition BASE64_SIZE (x : Z) : Z := (x + 2) / 3 * 4 + 1.

(** [*dst++ = c] into an array of [out_size] characters. *)
Definition putc (out_size : Z) (dst : list Z) (c : Z) : outcome (list Z) :=
  if Zlen dst <? out_size then Ok (dst ++ [c]) else Fault.

(** The loop that writes the characters whose bits are complete. *)
Fixpoint emit (fuel : nat) (out_size i_bits i_shift bytes_remaining : Z) (dst : list Z) : outcome (Z * list Z) :=
  match fuel with
  | O => Fault
  | S fuel =>
      let i := Z.land (Z.shiftr (u32 (Z.shiftl i_bits 6)) i_shift) 0x3f in
      of_option (b64 !! Z.to_nat i) ≫= fun c =>
      putc out_size dst c ≫= fun dst =>
      let i_shift := i_shift - 6 in
      if (6 <? i_shift) || ((bytes_remaining =? 0) && (0 <? i_shift))
      then emit fuel out_size i_bits i_shift bytes_remaining dst
      else Ok (i_shift, dst)
  end.

Fixpoint encode_loop (out_size i_bits i_shift : Z) (inp dst : list Z) : outcome (list Z) :=
  match inp with
  | [] => Ok dst
  | b :: inp =>
      let i_bits := u32 (u32 (Z.shiftl i_bits 8) + b) in
      let i_shift := i_shift + 8 in
      emit 3 out_size i_bits i_shift (Zlen inp) dst ≫= fun '(i_shift, dst) =>
      encode_loop out_size i_bits i_shift inp dst
  end.

Fixpoint pad (fuel : nat) (out_size : Z) (dst : list Z) : outcome (list Z) :=
  if Z.land (Zlen dst) 3 =? 0 then Ok dst
  else match fuel with O => Fault | S fuel => putc out_size dst 61 ≫= pad fuel out_size end.

(** [None] is NULL; the result holds the terminating zero. *)
Definition base64_encode (out_size : Z) (inp : list Z) : outcome (option (list Z)) :=
  let in_size := Zlen inp in
  if (UINT_MAX / 4 <=? in_size) || (out_size <? BASE64_SIZE in_size) then Ok None
  else
    encode_loop out_size 0 0 inp [] ≫= fun dst =>
    pad 3 out_size dst ≫= fun dst =>
    putc out_size dst 0 ≫= fun dst => Ok (Some dst).

(** ** Decoding *)
Definition map2 : list Z :=
  [0x3e; 0xff; 0xff; 0xff; 0x3f; 0x34; 0x35; 0x36;
   0x37; 0x38; 0x39; 0x3a; 0x3b; 0x3c; 0x3d; 0xff;
   0xff; 0xff; 0xff; 0xff; 0xff; 0xff; 0x00; 0x01;
   0x02; 0x03; 0x04; 0x05; 0x06; 0x07; 0x08; 0x09;
   0x0a; 0x0b; 0x0c; 0x0d; 0x0e; 0x0f; 0x10; 0x11;
   0x12; 0x13; 0x14; 0x15; 0x16; 0x17; 0x18; 0x19;
   0xff; 0xff; 0xff; 0xff; 0xff; 0xff; 0x1a; 0x1b;
   0x1c; 0x1d; 0x1e; 0x1f; 0x20; 0x21; 0x22; 0x23;
   0x24; 0x25; 0x26; 0x27; 0x28; 0x29; 0x2a; 0x2b;
   0x2c; 0x2d; 0x2e; 0x2f; 0x30; 0x31; 0x32; 0x33].

(** The string is read up to its terminating zero; beyond its end is a fault.
    [None] is the result -1; the other results are the bytes written. *)
Fixpoint decode_loop (out_size i v : Z) (inp dst : list Z) : outcome (option (list Z)) :=
  match inp with
  | [] => Fault
  | c :: inp =>
      if (c =? 0) || (c =? 61) then Ok (Some dst)
      else
        let index := u32 (c - 43) in
        match map2 !! Z.to_nat index with
        | None => Ok None
        | Some x =>
            if x =? 0xff then Ok None
            else
              let v := to_int (to_int (Z.shiftl v 6) + x) in
              let dst :=
                if negb (Z.land i 3 =? 0) && (Zlen dst <? out_size)
                then dst ++ [u8 (Z.shiftr v (6 - 2 * Z.land i 3))] else dst in
              decode_loop out_size (i + 1) v inp dst
        end
  end.

Definition base64_decode (inp : list Z) (out_size : Z) : outcome (option (list Z)) :=
  decode_loop out_size 0 0 inp [].

(** ** Specification: the encoding of RFC 4648 *)
Definition letter (x : Z) : Z := default 0 (b64 !! Z.to_nat x).

Fixpoint sextets (l : list Z) : list Z :=
  match l with
  | [] => []
  | [a] => [a / 4; a mod 4 * 16]
  | [a; b] => [a / 4; a mod 4 * 16 + b / 16; b mod 16 * 4]
  | a :: b :: c :: l => [a / 4; a mod 4 * 16 + b / 16; b mod 16 * 4 + c / 64; c mod 64] ++ sextets l
  end.
Definition padding (n : Z) : list Z :=
  if n mod 3 =? 1 then [61; 61] else if n mod 3 =? 2 then [61] else [].
Definition rfc4648 (l : list Z) : list Z := map letter (sextets l) ++ padding (Zlen l).

(** ** Encoding computes it *)
Lemma index_spec y s : 0 <= s <= 14 -> Z.land (Z.shiftr (u32 (Z.shiftl y 6)) s) 0x3f = (y * 64 / 2 ^ s) mod 64.
Proof.
  intros Hs. change 0x3f with (Z.ones 6). change 64 with (2 ^ 6) at 2. rewrite Z.land_ones by lia.
  rewrite <- (Z.shiftr_div_pow2 (y * 64)), Z.shiftl_mul_pow2 by lia. change (2 ^ 6) with 64 at 1.
  apply Z.bits_inj'. intros n Hn. destruct (decide (n < 6)) as [H6|H6].
  - rewrite !Z.mod_pow2_bits_low, !Z.shiftr_spec by lia. unfold u32. by rewrite Z.mod_pow2_bits_low by lia.
  - by rewrite !Z.mod_pow2_bits_high by lia.
Qed.

Lemma letter_lookup x : 0 <= x < 64 -> b64 !! Z.to_nat x = Some (letter x).
Proof.
  intros Hx. unfold letter. destruct (lookup_lt_is_Some_2 b64 (Z.to_nat x)) as [c ->]; [|done].
  change (length b64) with 64%nat. lia.
Qed.

Lemma putc_Ok out_size dst c : Zlen dst < out_size -> putc out_size dst c = Ok (dst ++ [c]).
Proof. intros H. unfold putc. case_if; [done|lia]. Qed.

Lemma emit_step n out_size y s r dst : 0 <= s <= 14 -> Zlen dst < out_size ->
  emit (S n) out_size y s r dst =
    let dst := dst ++ [letter ((y * 64 / 2 ^ s) mod 64)] in
    if (6 <? s - 6) || ((r =? 0) && (0 <? s - 6)) then emit n out_size y (s - 6) r dst else Ok (s - 6, dst).
Proof.
  intros Hs Hd. cbn [emit]. rewrite index_spec, letter_lookup by (try apply Z.mod_pos_bound; lia).
  cbn [of_option mbind outcome_bind]. by rewrite putc_Ok.
Qed.

(** The next byte in the accumulator. *)
Lemma accumulate y a : is_byte a -> let y' := u32 (u32 (Z.shiftl y 8) + a) in
  exists k, y' = y * 256 + a + k * 2 ^ 32.
Proof.
  intros Ha. cbv zeta. unfold u32. rewrite Z.shiftl_mul_pow2, Zplus_mod_idemp_l by lia.
  exists (- ((y * 2 ^ 8 + a) / 2 ^ 32)). pose proof (Z.div_mod (y * 2 ^ 8 + a) (2 ^ 32)). lia.
Qed.

Ltac divmod := Z.div_mod_to_equations; lia.

(** The bits above the last byte are those that waited. *)
Lemma divide_step y a k j : 0 <= j <= 6 ->
  y * 2 ^ (6 - j) + a / 2 ^ (j + 2) + k * 2 ^ (30 - j) = (y * 256 + a + k * 2 ^ 32) * 64 / 2 ^ (8 + j).
Proof.
  intros Hj. replace (2 ^ (8 + j)) with (64 * 2 ^ (j + 2)).
  2:{ change 64 with (2 ^ 6). rewrite <- Z.pow_add_r by lia. f_equal. lia. }
  rewrite (Z.mul_comm _ 64), Z.div_mul_cancel_l by (try apply Z.pow_nonzero; lia).
  replace (y * 256 + a + k * 2 ^ 32) with (a + (y * 2 ^ (6 - j) + k * 2 ^ (30 - j)) * 2 ^ (j + 2)).
  - rewrite Z.div_add by (apply Z.pow_nonzero; lia). lia.
  - rewrite Z.mul_add_distr_r, <- !Z.mul_assoc, <- !Z.pow_add_r by lia.
    replace (6 - j + (j + 2)) with 8 by lia. replace (30 - j + (j + 2)) with 32 by lia. lia.
Qed.

Ltac emit_next :=
  rewrite emit_step by (rewrite ?length_app; cbn [length]; lia); cbv zeta;
  repeat match goal with |- context [?x <? ?y - 6] => let b := eval vm_compute in (x <? y - 6) in change (x <? y - 6) with b end;
  repeat match goal with |- context [?x - 6] => is_ground x; let z := eval vm_compute in (x - 6) in change (x - 6) with z end;
  rewrite ?andb_true_r, ?andb_false_r; cbn [orb].

(** One byte, by the number of bits that wait. *)
Section bytes_in.
Context (out_size y a : Z) (inp dst : list Z) (Ha : is_byte a).
Let y' := u32 (u32 (Z.shiftl y 8) + a).

Lemma more_remain : (Zlen inp =? 0) = bool_decide (inp = []).
Proof. destruct inp; [done|]. by apply Z.eqb_neq. Qed.

Ltac value u v :=
  replace u with v by (unfold is_byte in Ha; destruct (accumulate y a Ha) as [k Hk]; fold y' in Hk; cbv zeta in Hk; rewrite Hk; divmod).
Ltac above s j v :=
  replace ((y' * 64 / 2 ^ s) mod 64) with v by
    (unfold is_byte in Ha; destruct (accumulate y a Ha) as [k Hk]; fold y' in Hk; cbv zeta in Hk; rewrite Hk;
     change (2 ^ s) with (2 ^ (8 + j)); rewrite <- (divide_step y a k j) by lia; divmod).

Ltac byte_step :=
  intros Hl; cbn [encode_loop]; fold y'; repeat match goal with |- context [?x + 8] => is_ground x; let z := eval vm_compute in (x + 8) in change (x + 8) with z end; emit_next; rewrite ?more_remain.
Ltac byte_last :=
  let E := fresh "E" in
  case_bool_decide as E; [emit_next|]; cbn [andb mbind outcome_bind].

Lemma byte_0 : Zlen dst + 2 <= out_size ->
  encode_loop out_size y 0 (a :: inp) dst =
    if bool_decide (inp = []) then Ok (dst ++ map letter [a / 4; a mod 4 * 16])
    else encode_loop out_size y' 2 inp (dst ++ [letter (a / 4)]).
Proof.
  byte_step. value ((y' * 64 / 2 ^ 8) mod 64) (a / 4). byte_last; [|done].
  value ((y' * 64 / 2 ^ 2) mod 64) (a mod 4 * 16). rewrite E. cbn. by rewrite <- app_assoc.
Qed.

Lemma byte_2 : Zlen dst + 2 <= out_size ->
  encode_loop out_size y 2 (a :: inp) dst =
    if bool_decide (inp = []) then Ok (dst ++ map letter [y mod 4 * 16 + a / 16; a mod 16 * 4])
    else encode_loop out_size y' 4 inp (dst ++ [letter (y mod 4 * 16 + a / 16)]).
Proof.
  byte_step. above 10 2 (y mod 4 * 16 + a / 16). byte_last; [|done].
  value ((y' * 64 / 2 ^ 4) mod 64) (a mod 16 * 4). rewrite E. cbn. by rewrite <- app_assoc.
Qed.

Lemma byte_4 : Zlen dst + 2 <= out_size ->
  encode_loop out_size y 4 (a :: inp) dst =
    if bool_decide (inp = []) then Ok (dst ++ map letter [y mod 16 * 4 + a / 64; a mod 64])
    else encode_loop out_size y' 6 inp (dst ++ [letter (y mod 16 * 4 + a / 64)]).
Proof.
  byte_step. above 12 4 (y mod 16 * 4 + a / 64). byte_last; [|done].
  value ((y' * 64 / 2 ^ 6) mod 64) (a mod 64). rewrite E. cbn. by rewrite <- app_assoc.
Qed.

Lemma byte_6_step : Zlen dst + 3 <= out_size ->
  encode_loop out_size y 6 (a :: inp) dst =
    if bool_decide (inp = []) then Ok ((dst ++ [letter (y mod 64)]) ++ map letter [a / 4; a mod 4 * 16])
    else encode_loop out_size y' 2 inp ((dst ++ [letter (y mod 64)]) ++ [letter (a / 4)]).
Proof.
  byte_step. above 14 6 (y mod 64). emit_next. rewrite more_remain.
  value ((y' * 64 / 2 ^ 8) mod 64) (a / 4). byte_last; [|done].
  value ((y' * 64 / 2 ^ 2) mod 64) (a mod 4 * 16). rewrite E. cbn. by rewrite <- !app_assoc.
Qed.

Lemma next_low : y' mod 4 = a mod 4 /\ y' mod 16 = a mod 16 /\ y' mod 64 = a mod 64.
Proof. destruct (accumulate y a Ha) as [k Hk]. fold y' in Hk. cbv zeta in Hk. rewrite Hk. split_and!; divmod. Qed.

End bytes_in.

(** The bits that wait make a character of their own. *)
Lemma byte_6 out_size y a inp dst : is_byte a -> Zlen dst + 3 <= out_size ->
  encode_loop out_size y 6 (a :: inp) dst = encode_loop out_size y 0 (a :: inp) (dst ++ [letter (y mod 64)]).
Proof. intros Ha Hl. by rewrite byte_6_step, byte_0 by (rewrite ?length_app; cbn; lia || done). Qed.

(** The sextets of the first byte and of those after it. *)
Lemma sextets_cons a l : sextets (a :: l) =
  (a / 4) :: match l with [] => [a mod 4 * 16] | b :: l => (a mod 4 * 16 + b / 16) ::
    match l with [] => [b mod 16 * 4] | c :: l => (b mod 16 * 4 + c / 64) :: (c mod 64) :: sextets l end end.
Proof. by destruct l as [|? [|? ?]]. Qed.

Lemma length_sextets l : Zlen (sextets l) = (Zlen l * 4 + 2) / 3.
Proof.
  assert (forall n l, (length l < n)%nat -> Zlen (sextets l) = (Zlen l * 4 + 2) / 3) as H; [|by apply (H (S (length l))); lia].
  clear l. induction n as [|n IH]; [lia|]. intros [|a [|b [|c l]]] Hn; [done..|].
  cbn [sextets app length] in *. rewrite !Nat2Z.inj_succ, IH by lia. divmod.
Qed.

Lemma encode_loop_spec out_size n : forall inp y dst, (length inp < n)%nat -> bytes inp ->
  (Zlen dst + Zlen (sextets inp) <= out_size ->
   encode_loop out_size y 0 inp dst = Ok (dst ++ map letter (sextets inp))) /\
  (inp <> [] -> Zlen dst + 1 + Zlen (sextets inp) <= out_size ->
   encode_loop out_size y 6 inp dst = Ok (dst ++ letter (y mod 64) :: map letter (sextets inp))).
Proof.
  induction n as [|n IH]; [lia|]. intros inp y dst Hn Hb.
  assert (forall dst, Zlen dst + Zlen (sextets inp) <= out_size ->
   encode_loop out_size y 0 inp dst = Ok (dst ++ map letter (sextets inp))) as H0.
  { clear dst. intros dst Hl. destruct inp as [|a [|b [|c l]]]; [by rewrite app_nil_r|..]; rewrite ?Forall_cons in Hb; cbn in Hl.
    - rewrite byte_0; [done|apply Hb|lia].
    - rewrite byte_0, bool_decide_eq_false_2, byte_2 by (rewrite ?length_app; cbn; lia || naive_solver).
      destruct (next_low y a) as (-> & _); [naive_solver|]. cbn. by rewrite <- app_assoc.
    - rewrite byte_0, bool_decide_eq_false_2, byte_2, bool_decide_eq_false_2, byte_4 by (rewrite ?length_app; cbn; lia || naive_solver).
      destruct (next_low y a) as (-> & _); [naive_solver|]. set (y1 := u32 (_ + a)).
      destruct (next_low y1 b) as (_ & -> & _); [naive_solver|]. set (y2 := u32 (_ + b)).
      case_bool_decide as E; [subst l; cbn; by rewrite <- !app_assoc|]. cbn in Hn.
      destruct (IH l (u32 (u32 (Z.shiftl y2 8) + c)) ((((dst ++ [letter (a / 4)]) ++ [letter (a mod 4 * 16 + b / 16)]) ++ [letter (b mod 16 * 4 + c / 64)]))) as [_ IH6];
        [lia|naive_solver|]. rewrite IH6 by (done || rewrite !length_app; cbn; lia).
      destruct (next_low y2 c) as (_ & _ & ->); [naive_solver|]. cbn. by rewrite <- !app_assoc. }
  split; [apply H0|]. intros Hne Hl. destruct inp as [|a l]; [done|]. rewrite byte_6; [|by inversion Hb|rewrite sextets_cons in Hl; destruct l; cbn in Hl; lia].
  rewrite H0; [by rewrite <- app_assoc|]. rewrite length_app; cbn [length]; lia.
Qed.

Lemma pad_end n out_size dst : Zlen dst mod 4 = 0 -> pad n out_size dst = Ok dst.
Proof.
  intros H. assert (Z.land (Zlen dst) 3 = 0) as E by (change 3 with (Z.ones 2); by rewrite Z.land_ones by lia).
  by destruct n; cbn [pad]; rewrite E.
Qed.
Lemma pad_more n out_size dst : Zlen dst mod 4 <> 0 -> Zlen dst < out_size ->
  pad (S n) out_size dst = pad n out_size (dst ++ [61]).
Proof.
  intros H Hl. cbn [pad]. change 3 with (Z.ones 2). rewrite Z.land_ones by lia. change (2 ^ 2) with 4.
  case_if; [lia|]. by rewrite putc_Ok by done.
Qed.

Lemma length_rfc4648 l : Zlen (rfc4648 l) = (Zlen l + 2) / 3 * 4.
Proof.
  unfold rfc4648, padding. rewrite length_app, length_map, Nat2Z.inj_add, length_sextets.
  repeat case_if; cbn; divmod.
Qed.

Lemma pad_spec out_size l : Zlen (rfc4648 l) < out_size ->
  pad 3 out_size (map letter (sextets l)) = Ok (rfc4648 l).
Proof.
  rewrite length_rfc4648. intros Hl. pose proof (length_sextets l) as Hs. rewrite <- (length_map letter) in Hs.
  unfold rfc4648, padding. repeat case_if.
  - rewrite !pad_more by (rewrite ?length_app, ?Nat2Z.inj_add, Hs; cbn; divmod). rewrite pad_end; [by rewrite <- app_assoc|].
    rewrite !length_app, !Nat2Z.inj_add, Hs. cbn. divmod.
  - rewrite pad_more by (rewrite Hs; divmod). rewrite pad_end; [done|].
    rewrite !length_app, !Nat2Z.inj_add, Hs. cbn. divmod.
  - rewrite pad_end, app_nil_r; [done|]. rewrite Hs. divmod.
Qed.

(** ** Decoding inverts it *)
Lemma letter_decodes x : 0 <= x < 64 ->
  letter x <> 0 /\ letter x <> 61 /\ map2 !! Z.to_nat (u32 (letter x - 43)) = Some x.
Proof.
  intros Hx. assert (forallb (fun n => let x := Z.of_nat n in
    negb (letter x =? 0) && negb (letter x =? 61) && bool_decide (map2 !! Z.to_nat (u32 (letter x - 43)) = Some x))
    (seq 0 64) = true) as H by (by vm_compute).
  rewrite forallb_forall in H. specialize (H (Z.to_nat x)). rewrite Z2Nat.id in H by lia.
  cbv zeta in H. rewrite !andb_true_iff, bool_decide_eq_true in H.
  destruct H as [[H1 H2] H3]; [apply in_seq; lia|]. zify_bool. done.
Qed.

(** What an array of [out_size] bytes takes of what is decoded. *)
Definition fit (out_size : Z) (l : list Z) : list Z := take (Z.to_nat out_size) l.
Lemma fit_app out_size l x :
  (if Zlen (fit out_size l) <? out_size then fit out_size l ++ [x] else fit out_size l) = fit out_size (l ++ [x]).
Proof.
  unfold fit. rewrite length_take. case_if.
  - rewrite take_ge by lia. by rewrite take_ge by (rewrite length_app; cbn; lia).
  - by rewrite take_app_le by lia.
Qed.

Lemma to_int_congr x : exists k, to_int x = x + k * 2 ^ 32.
Proof. unfold to_int. exists (- ((x + 2 ^ 31) / 2 ^ 32)). pose proof (Z.div_mod (x + 2 ^ 31) (2 ^ 32)). lia. Qed.
Lemma to_int_congr2 v x : exists k, to_int (to_int (Z.shiftl v 6) + x) = v * 64 + x + k * 2 ^ 32.
Proof.
  destruct (to_int_congr (Z.shiftl v 6)) as [k1 ->]. destruct (to_int_congr (Z.shiftl v 6 + k1 * 2 ^ 32 + x)) as [k2 ->].
  rewrite Z.shiftl_mul_pow2 by lia. exists (k1 + k2). lia.
Qed.

Lemma top_bits v x k d e c q : 0 < d -> e * d = 64 -> c * d = 2 ^ 32 -> c mod 256 = 0 -> 64 * e = 256 * q ->
  ((v * 64 + x + k * 2 ^ 32) / d) mod 2 ^ 8 = ((v mod 64) * e + x / d) mod 256.
Proof.
  intros Hd He Hc H256 Hq. rewrite <- Hc. replace (v * 64) with (v * (e * d)) by (by rewrite He).
  replace (v * (e * d) + x + k * (c * d)) with (x + (v * e + k * c) * d) by ring. rewrite Z.div_add by lia.
  pose proof (Z.div_mod v 64) as Hv. apply Z.div_exact in H256; [|done].
  replace (x / d + (v * e + k * c)) with (v mod 64 * e + x / d + ((v / 64) * q + k * (c / 256)) * 256) by nia.
  apply Z_mod_plus_full.
Qed.

(** One character; [p] is the last sextet before it. *)
Lemma decode_letter out_size i v x p rest l : 0 <= x < 64 -> v mod 64 = p -> 0 <= i ->
  exists v', v' mod 64 = x /\
  decode_loop out_size i v (letter x :: rest) (fit out_size l) =
    decode_loop out_size (i + 1) v' rest (fit out_size (l ++
      (if i mod 4 =? 0 then [] else [(p * 2 ^ (2 * (i mod 4)) + x / 2 ^ (6 - 2 * (i mod 4))) mod 256]))).
Proof.
  intros Hx Hp Hi. destruct (letter_decodes x Hx) as (H0 & H61 & Hm).
  cbn [decode_loop]. apply Z.eqb_neq in H0 as ->. apply Z.eqb_neq in H61 as ->. rewrite Hm. cbn [orb].
  case_if; [lia|]. set (v' := to_int (_ + x)).
  assert (exists k, v' = v * 64 + x + k * 2 ^ 32) as [k Hk].
  { apply to_int_congr2. }
  exists v'. split; [rewrite Hk; divmod|]. change 3 with (Z.ones 2). rewrite Z.land_ones by lia. change (2 ^ 2) with 4.
  destruct (i mod 4 =? 0) eqn:Ei; cbn [negb andb]; [by rewrite app_nil_r|]. rewrite fit_app. do 4 f_equal. zify_bool.
  unfold u8. pose proof (Z.mod_pos_bound i 4).
  assert (i mod 4 = 1 \/ i mod 4 = 2 \/ i mod 4 = 3) as [Em|[Em|Em]] by lia; rewrite Em, Z.shiftr_div_pow2 by lia; rewrite Hk; subst p;
    [apply (top_bits v x k 16 4 (2 ^ 28) 1)|apply (top_bits v x k 4 16 (2 ^ 30) 4)|apply (top_bits v x k 1 64 (2 ^ 32) 16)]; done.
Qed.

(** The first character of a group, and the others, which complete a byte. *)
Lemma decode_first out_size i v x rest l : 0 <= x < 64 -> 0 <= i -> i mod 4 = 0 ->
  exists v', v' mod 64 = x /\
  decode_loop out_size i v (letter x :: rest) (fit out_size l) = decode_loop out_size (i + 1) v' rest (fit out_size l).
Proof.
  intros Hx Hi Hm. destruct (decode_letter out_size i v x (v mod 64) rest l) as (v' & Hv & ->); [done..|].
  exists v'. rewrite Hm. cbn. by rewrite app_nil_r.
Qed.
Lemma decode_next out_size i j v x p a rest l : 0 <= x < 64 -> 0 <= i -> v mod 64 = p -> i mod 4 = j -> 1 <= j ->
  (p * 2 ^ (2 * j) + x / 2 ^ (6 - 2 * j)) mod 256 = a ->
  exists v', v' mod 64 = x /\
  decode_loop out_size i v (letter x :: rest) (fit out_size l) =
    decode_loop out_size (i + 1) v' rest (fit out_size (l ++ [a])).
Proof.
  intros Hx Hi Hv Hm Hj Ha. destruct (decode_letter out_size i v x p rest l) as (v' & Hv' & ->); [done..|].
  exists v'. rewrite Hm, Ha. case_if; [lia|done].
Qed.

Ltac decode_first_char := match goal with |- context [decode_loop ?o ?i ?v (letter ?x :: ?r) (fit ?o ?l)] =>
  let v' := fresh "v" in let Hv := fresh "Hv" in
  destruct (decode_first o i v x r l) as (v' & Hv & ->); [divmod|lia|divmod|] end.
Ltac decode_char j a := match goal with Hp : ?v mod 64 = ?p |- context [decode_loop ?o ?i ?v (letter ?x :: ?r) (fit ?o ?l)] =>
  let v' := fresh "v" in let Hv := fresh "Hv" in
  destruct (decode_next o i j v x p a r l) as (v' & Hv & ->);
  [divmod|lia|exact Hp|divmod|lia|cbn [Z.mul Z.sub Z.opp Z.add Z.pow Z.pow_pos Pos.iter Pos.mul Z.pos_sub Pos.pred_double]; divmod|] end.

Lemma decode_loop_spec out_size n : forall l i v pre c rest, (length l < n)%nat -> bytes l -> 0 <= i -> i mod 4 = 0 ->
  c = 0 \/ c = 61 ->
  decode_loop out_size i v (map letter (sextets l) ++ c :: rest) (fit out_size pre) = Ok (Some (fit out_size (pre ++ l))).
Proof.
  induction n as [|n IH]; [lia|]. intros l i v pre c rest Hn Hb Hi Hm Hc.
  assert (forall i v dst, decode_loop out_size i v (c :: rest) dst = Ok (Some dst)) as Hend by (by destruct Hc as [->| ->]).
  destruct l as [|a [|b [|d l]]]; cbn [sextets map app]; rewrite ?Forall_cons in Hb; unfold is_byte in Hb.
  - by rewrite Hend, app_nil_r.
  - decode_first_char. decode_char 1 a. apply Hend.
  - decode_first_char. decode_char 1 a. decode_char 2 b. rewrite Hend. by rewrite <- app_assoc.
  - decode_first_char. decode_char 1 a. decode_char 2 b. decode_char 3 d.
    cbn in Hn. rewrite IH; [by rewrite <- !app_assoc|lia|naive_solver|lia|divmod|done].
Qed.

(** An encoding is a string. *)
Lemma rfc4648_nonzero l : bytes l -> Forall (fun c => c <> 0) (rfc4648 l).
Proof.
  intros Hb. unfold rfc4648. apply Forall_app. split; [|unfold padding; repeat case_if; by repeat constructor].
  assert (forall n l, (length l < n)%nat -> bytes l -> Forall (fun x => 0 <= x < 64) (sextets l)) as H.
  { clear. induction n as [|n IH]; [lia|]. intros l Hn Hb. unfold is_byte in Hb.
    destruct l as [|a [|b [|c l]]]; cbn [sextets app]; rewrite ?Forall_cons in Hb; [constructor|..];
      (repeat (constructor; [divmod|])); [constructor..|]. apply IH; [cbn in Hn; lia|naive_solver]. }
  apply Forall_map, (Forall_impl _ _ _ (H (S (length l)) l ltac:(lia) Hb)). intros x Hx. by apply letter_decodes.
Qed.

Lemma base64_encode_ok out_size inp : bytes inp ->
  base64_encode out_size inp =
    Ok (if (UINT_MAX / 4 <=? Zlen inp) || (out_size <? BASE64_SIZE (Zlen inp)) then None else Some (rfc4648 inp ++ [0])).
Proof.
  intros Hb. unfold base64_encode. destruct (_ || _) eqn:E; [done|]. zify_bool. unfold BASE64_SIZE in *.
  pose proof (length_rfc4648 inp) as Hr. pose proof (length_sextets inp) as Hs.
  destruct (encode_loop_spec out_size (S (length inp)) inp 0 []) as [He _]; [lia|done|].
  rewrite He by (cbn [length]; divmod). cbn [mbind outcome_bind app]. rewrite pad_spec by lia.
  cbn [mbind outcome_bind]. by rewrite putc_Ok by lia.
Qed.

(** C14: base64. For every sequence of bytes the encoder returns NULL exactly
    when the input is too long or the array is smaller than BASE64_SIZE says,
    and otherwise writes the encoding of RFC 4648 with its padding and a
    terminating zero, which is BASE64_SIZE characters, inside the array and with
    the 32-bit accumulator wrapping around; and decoding what was written gives
    the bytes back, as far as the array of the decoder takes them. *)
Theorem base64_roundtrip out_size inp n : bytes inp ->
  base64_encode out_size inp =
    Ok (if (UINT_MAX / 4 <=? Zlen inp) || (out_size <? BASE64_SIZE (Zlen inp)) then None else Some (rfc4648 inp ++ [0])) /\
  Zlen (rfc4648 inp ++ [0]) = BASE64_SIZE (Zlen inp) /\
  base64_decode (rfc4648 inp ++ [0]) n = Ok (Some (take (Z.to_nat n) inp)).
Proof.
  intros Hb. split_and!.
  - by apply base64_encode_ok.
  - rewrite length_app, Nat2Z.inj_add, length_rfc4648. done.
  - unfold base64_decode, rfc4648. rewrite <- app_assoc.
    assert (exists c rest, padding (Zlen inp) ++ [0] = c :: rest /\ (c = 0 \/ c = 61)) as (c & rest & -> & Hc).
    { unfold padding. repeat case_if; eauto 6. }
    rewrite <- (take_nil (A:=Z) (Z.to_nat n)) at 1. fold (fit n []). by rewrite (decode_loop_spec n (S (length inp))) by (done || lia).
Qed.

Lemma base64_roundtrip_witness :
  base64_encode 9 [77; 97; 110; 33] = Ok (Some [84; 87; 70; 117; 73; 81; 61; 61; 0]) /\
  base64_decode [84; 87; 70; 117; 73; 81; 61; 61; 0] 4 = Ok (Some [77; 97; 110; 33]).
Proof.
  destruct (base64_roundtrip 9 [77; 97; 110; 33] 4) as (H1 & _ & H2).
  - repeat constructor; done.
  - split; [exact H1|exact H2].
Defined.

End Base64.
