(* ===== verification/Md5.v ===== *)
(** MD5 as redsocks computes it (redsocks/md5.c, on a little-endian machine)
    against the algorithm of RFC 1321: the message may be appended in pieces, and
    the digest is that of the whole. *)
From Stdlib Require Import ZArith Lia.
From stdpp Require Import base tactics numbers list.
From S2P Require Import Prelude ByteOrder.

Module Md5.
Import ByteOrder(u8_shiftr, le_bytes_cons).

(** ** Words *)

(** [md5_word_t] is a 32-bit word. *)
Definition T_MASK : Z := 0xffffffff.
Definition lnot32 (x : Z) : Z := Z.lxor x T_MASK.
Definition ROTATE_LEFT (x n : Z) : Z := Z.lor (u32 (Z.shiftl x n)) (Z.shiftr x (32 - n)).
Definition F (x y z : Z) : Z := Z.lor (Z.land x y) (Z.land (lnot32 x) z).
Definition G (x y z : Z) : Z := Z.lor (Z.land x z) (Z.land y (lnot32 z)).
Definition H (x y z : Z) : Z := Z.lxor (Z.lxor x y) z.
Definition I (x y z : Z) : Z := Z.lxor y (Z.lor x (lnot32 z)).

Definition T1 : Z := Z.lxor T_MASK 0x28955b87.
Definition T2 : Z := Z.lxor T_MASK 0x173848a9.
Definition T3 : Z := 0x242070db.
Definition T4 : Z := Z.lxor T_MASK 0x3e423111.
Definition T5 : Z := Z.lxor T_MASK 0x0a83f050.
Definition T6 : Z := 0x4787c62a.
Definition T7 : Z := Z.lxor T_MASK 0x57cfb9ec.
Definition T8 : Z := Z.lxor T_MASK 0x02b96afe.
Definition T9 : Z := 0x698098d8.
Definition T10 : Z := Z.lxor T_MASK 0x74bb0850.
Definition T11 : Z := Z.lxor T_MASK 0x0000a44e.
Definition T12 : Z := Z.lxor T_MASK 0x76a32841.
Definition T13 : Z := 0x6b901122.
Definition T14 : Z := Z.lxor T_MASK 0x02678e6c.
Definition T15 : Z := Z.lxor T_MASK 0x5986bc71.
Definition T16 : Z := 0x49b40821.
Definition T17 : Z := Z.lxor T_MASK 0x09e1da9d.
Definition T18 : Z := Z.lxor T_MASK 0x3fbf4cbf.
Definition T19 : Z := 0x265e5a51.
Definition T20 : Z := Z.lxor T_MASK 0x16493855.
Definition T21 : Z := Z.lxor T_MASK 0x29d0efa2.
Definition T22 : Z := 0x02441453.
Definition T23 : Z := Z.lxor T_MASK 0x275e197e.
Definition T24 : Z := Z.lxor T_MASK 0x182c0437.
Definition T25 : Z := 0x21e1cde6.
Definition T26 : Z := Z.lxor T_MASK 0x3cc8f829.
Definition T27 : Z := Z.lxor T_MASK 0x0b2af278.
Definition T28 : Z := 0x455a14ed.
Definition T29 : Z := Z.lxor T_MASK 0x561c16fa.
Definition T30 : Z := Z.lxor T_MASK 0x03105c07.
Definition T31 : Z := 0x676f02d9.
Definition T32 : Z := Z.lxor T_MASK 0x72d5b375.
Definition T33 : Z := Z.lxor T_MASK 0x0005c6bd.
Definition T34 : Z := Z.lxor T_MASK 0x788e097e.
Definition T35 : Z := 0x6d9d6122.
Definition T36 : Z := Z.lxor T_MASK 0x021ac7f3.
Definition T37 : Z := Z.lxor T_MASK 0x5b4115bb.
Definition T38 : Z := 0x4bdecfa9.
Definition T39 : Z := Z.lxor T_MASK 0x0944b49f.
Definition T40 : Z := Z.lxor T_MASK 0x4140438f.
Definition T41 : Z := 0x289b7ec6.
Definition T42 : Z := Z.lxor T_MASK 0x155ed805.
Definition T43 : Z := Z.lxor T_MASK 0x2b10cf7a.
Definition T44 : Z := 0x04881d05.
Definition T45 : Z := Z.lxor T_MASK 0x262b2fc6.
Definition T46 : Z := Z.lxor T_MASK 0x1924661a.
Definition T47 : Z := 0x1fa27cf8.
Definition T48 : Z := Z.lxor T_MASK 0x3b53a99a.
Definition T49 : Z := Z.lxor T_MASK 0x0bd6ddbb.
Definition T50 : Z := 0x432aff97.
Definition T51 : Z := Z.lxor T_MASK 0x546bdc58.
Definition T52 : Z := Z.lxor T_MASK 0x036c5fc6.
Definition T53 : Z := 0x655b59c3.
Definition T54 : Z := Z.lxor T_MASK 0x70f3336d.
Definition T55 : Z := Z.lxor T_MASK 0x00100b82.
Definition T56 : Z := Z.lxor T_MASK 0x7a7ba22e.
Definition T57 : Z := 0x6fa87e4f.
Definition T58 : Z := Z.lxor T_MASK 0x01d3191f.
Definition T59 : Z := Z.lxor T_MASK 0x5cfebceb.
Definition T60 : Z := 0x4e0811a1.
Definition T61 : Z := Z.lxor T_MASK 0x08ac817d.
Definition T62 : Z := Z.lxor T_MASK 0x42c50dca.
Definition T63 : Z := 0x2ad7d2bb.
Definition T64 : Z := Z.lxor T_MASK 0x14792c6e.

(** The variables [a] to [d] of [md5_process]. *)
Record regs := mkRegs { ra : Z; rb : Z; rc : Z; rd : Z }.
Inductive reg := A | B | C | D.
Definition get (v : reg) (r : regs) : Z := match v with A => ra r | B => rb r | C => rc r | D => rd r end.
Definition set (v : reg) (x : Z) (r : regs) : regs :=
  match v with
  | A => mkRegs x (rb r) (rc r) (rd r)
  | B => mkRegs (ra r) x (rc r) (rd r)
  | C => mkRegs (ra r) (rb r) x (rd r)
  | D => mkRegs (ra r) (rb r) (rc r) x
  end.

(** The macro, for each of the four functions. *)
Definition SET (f : Z -> Z -> Z -> Z) (X : Z -> Z) (a b c d : reg) (k s Ti : Z) (r : regs) : regs :=
  let t := u32 (get a r + f (get b r) (get c r) (get d r) + X k + Ti) in
  set a (u32 (ROTATE_LEFT t s + get b r)) r.

Definition round1 (X : Z -> Z) : list (regs -> regs) :=
  [SET F X A B C D 0 7 T1; SET F X D A B C 1 12 T2; SET F X C D A B 2 17 T3; SET F X B C D A 3 22 T4;
   SET F X A B C D 4 7 T5; SET F X D A B C 5 12 T6; SET F X C D A B 6 17 T7; SET F X B C D A 7 22 T8;
   SET F X A B C D 8 7 T9; SET F X D A B C 9 12 T10; SET F X C D A B 10 17 T11; SET F X B C D A 11 22 T12;
   SET F X A B C D 12 7 T13; SET F X D A B C 13 12 T14; SET F X C D A B 14 17 T15; SET F X B C D A 15 22 T16].
Definition round2 (X : Z -> Z) : list (regs -> regs) :=
  [SET G X A B C D 1 5 T17; SET G X D A B C 6 9 T18; SET G X C D A B 11 14 T19; SET G X B C D A 0 20 T20;
   SET G X A B C D 5 5 T21; SET G X D A B C 10 9 T22; SET G X C D A B 15 14 T23; SET G X B C D A 4 20 T24;
   SET G X A B C D 9 5 T25; SET G X D A B C 14 9 T26; SET G X C D A B 3 14 T27; SET G X B C D A 8 20 T28;
   SET G X A B C D 13 5 T29; SET G X D A B C 2 9 T30; SET G X C D A B 7 14 T31; SET G X B C D A 12 20 T32].
Definition round3 (X : Z -> Z) : list (regs -> regs) :=
  [SET H X A B C D 5 4 T33; SET H X D A B C 8 11 T34; SET H X C D A B 11 16 T35; SET H X B C D A 14 23 T36;
   SET H X A B C D 1 4 T37; SET H X D A B C 4 11 T38; SET H X C D A B 7 16 T39; SET H X B C D A 10 23 T40;
   SET H X A B C D 13 4 T41; SET H X D A B C 0 11 T42; SET H X C D A B 3 16 T43; SET H X B C D A 6 23 T44;
   SET H X A B C D 9 4 T45; SET H X D A B C 12 11 T46; SET H X C D A B 15 16 T47; SET H X B C D A 2 23 T48].
Definition round4 (X : Z -> Z) : list (regs -> regs) :=
  [SET I X A B C D 0 6 T49; SET I X D A B C 7 10 T50; SET I X C D A B 14 15 T51; SET I X B C D A 5 21 T52;
   SET I X A B C D 12 6 T53; SET I X D A B C 3 10 T54; SET I X C D A B 10 15 T55; SET I X B C D A 1 21 T56;
   SET I X A B C D 8 6 T57; SET I X D A B C 15 10 T58; SET I X C D A B 6 15 T59; SET I X B C D A 13 21 T60;
   SET I X A B C D 4 6 T61; SET I X D A B C 11 10 T62; SET I X C D A B 2 15 T63; SET I X B C D A 9 21 T64].

(** The words of a block of 64 bytes. *)
Definition X_of (data : list Z) (k : Z) : Z := le_val (slice data (4 * k) 4).

Definition md5_process (s : regs) (data : list Z) : regs :=
  let X := X_of data in
  let r := fold_left (fun r op => op r) (round1 X ++ round2 X ++ round3 X ++ round4 X) s in
  mkRegs (u32 (ra s + ra r)) (u32 (rb s + rb r)) (u32 (rc s + rc r)) (u32 (rd s + rd r)).

(** ** The state *)
Record md5_state_t := mkState { count0 : Z; count1 : Z; abcd : regs; buf : list Z }.

(** [buf] is not written. *)
Definition md5_init (b : list Z) : md5_state_t :=
  mkState 0 0 (mkRegs 0x67452301 (Z.lxor T_MASK 0x10325476) (Z.lxor T_MASK 0x67452301) 0x10325476) b.

(** Full blocks, then what is left. *)
Fixpoint append_blocks (fuel : nat) (pms : md5_state_t) (p : list Z) : outcome md5_state_t :=
  if 64 <=? Zlen p then
    match fuel with
    | O => Fault
    | S fuel => append_blocks fuel (mkState (count0 pms) (count1 pms) (md5_process (abcd pms) (take 64 p)) (buf pms)) (drop 64 p)
    end
  else if negb (Zlen p =? 0) then
    mem_write (buf pms) 0 p ≫= fun b => Ok (mkState (count0 pms) (count1 pms) (abcd pms) b)
  else Ok pms.

(** The shift of [nbytes] must not overflow an [int]. *)
Definition md5_append (pms : md5_state_t) (data : list Z) : outcome md5_state_t :=
  let nbytes := Zlen data in
  let offset := Z.land (Z.shiftr (count0 pms) 3) 63 in
  ASSERT (Z.shiftl nbytes 3 <=? INT_MAX);;
  let nbits := u32 (Z.shiftl nbytes 3) in
  if nbytes <=? 0 then Ok pms
  else
    let c1 := u32 (count1 pms + Z.shiftr nbytes 29) in
    let c0 := u32 (count0 pms + nbits) in
    let c1 := if c0 <? nbits then u32 (c1 + 1) else c1 in
    if negb (offset =? 0) then
      let copy := if 64 <? offset + nbytes then 64 - offset else nbytes in
      mem_write (buf pms) offset (take (Z.to_nat copy) data) ≫= fun b =>
      if offset + copy <? 64 then Ok (mkState c0 c1 (abcd pms) b)
      else append_blocks (length data) (mkState c0 c1 (md5_process (abcd pms) b) b) (drop (Z.to_nat copy) data)
    else append_blocks (length data) (mkState c0 c1 (abcd pms) (buf pms)) data.

Definition pad : list Z := 0x80 :: repeat 0 63.

Definition word_byte (w : Z -> Z) (i : Z) : Z := u8 (Z.shiftr (w (Z.shiftr i 2)) (Z.shiftl (Z.land i 3) 3)).
Definition indices (n : nat) : list Z := map Z.of_nat (seq 0 n).
Definition count (pms : md5_state_t) (i : Z) : Z := if i =? 0 then count0 pms else count1 pms.
Definition word (r : regs) (i : Z) : Z := if i =? 0 then ra r else if i =? 1 then rb r else if i =? 2 then rc r else rd r.

Definition md5_finish (pms : md5_state_t) : outcome (md5_state_t * list Z) :=
  let data := map (word_byte (count pms)) (indices 8) in
  md5_append pms (take (Z.to_nat (Z.land (u32 (55 - Z.shiftr (count0 pms) 3)) 63 + 1)) pad) ≫= fun pms =>
  md5_append pms data ≫= fun pms =>
  Ok (pms, map (word_byte (word (abcd pms))) (indices 16)).

(** ** RFC 1321 *)

(** The integer parts of 4294967296 times abs(sin(i)), as listed in the RFC. *)
Definition rfc_T : list Z :=
  [0xd76aa478; 0xe8c7b756; 0x242070db; 0xc1bdceee;
   0xf57c0faf; 0x4787c62a; 0xa8304613; 0xfd469501;
   0x698098d8; 0x8b44f7af; 0xffff5bb1; 0x895cd7be;
   0x6b901122; 0xfd987193; 0xa679438e; 0x49b40821;
   0xf61e2562; 0xc040b340; 0x265e5a51; 0xe9b6c7aa;
   0xd62f105d; 0x02441453; 0xd8a1e681; 0xe7d3fbc8;
   0x21e1cde6; 0xc33707d6; 0xf4d50d87; 0x455a14ed;
   0xa9e3e905; 0xfcefa3f8; 0x676f02d9; 0x8d2a4c8a;
   0xfffa3942; 0x8771f681; 0x6d9d6122; 0xfde5380c;
   0xa4beea44; 0x4bdecfa9; 0xf6bb4b60; 0xbebfbc70;
   0x289b7ec6; 0xeaa127fa; 0xd4ef3085; 0x04881d05;
   0xd9d4d039; 0xe6db99e5; 0x1fa27cf8; 0xc4ac5665;
   0xf4292244; 0x432aff97; 0xab9423a7; 0xfc93a039;
   0x655b59c3; 0x8f0ccc92; 0xffeff47d; 0x85845dd1;
   0x6fa87e4f; 0xfe2ce6e0; 0xa3014314; 0x4e0811a1;
   0xf7537e82; 0xbd3af235; 0x2ad7d2bb; 0xeb86d391].
Definition rfc_shifts : list Z := [7; 12; 17; 22; 5; 9; 14; 20; 4; 11; 16; 23; 6; 10; 15; 21].
Definition rotate (x n : Z) : Z := (x * 2 ^ n) mod 2 ^ 32 + x / 2 ^ (32 - n).

(** Step [i]: its function, its word of the block, its shift. *)
Definition rfc_function (i : nat) : Z -> Z -> Z -> Z :=
  if (i <? 16)%nat then F else if (i <? 32)%nat then G else if (i <? 48)%nat then H else I.
Definition rfc_word (i : nat) : Z :=
  Z.of_nat (if (i <? 16)%nat then i else if (i <? 32)%nat then (5 * i + 1) mod 16
            else if (i <? 48)%nat then (3 * i + 5) mod 16 else (7 * i) mod 16)%nat.
Definition rfc_shift (i : nat) : Z := nth (4 * (i / 16) + i mod 4) rfc_shifts 0.

Definition rfc_step (X : Z -> Z) (s : regs) (i : nat) : regs :=
  let t := (ra s + rfc_function i (rb s) (rc s) (rd s) + X (rfc_word i) + nth i rfc_T 0) mod 2 ^ 32 in
  mkRegs (rd s) ((rb s + rotate t (rfc_shift i)) mod 2 ^ 32) (rb s) (rc s).
Definition rfc_block (s : regs) (block : list Z) : regs :=
  let r := fold_left (rfc_step (X_of block)) (seq 0 64) s in
  mkRegs ((ra s + ra r) mod 2 ^ 32) ((rb s + rb r) mod 2 ^ 32) ((rc s + rc r) mod 2 ^ 32) ((rd s + rd r) mod 2 ^ 32).

Fixpoint rfc_blocks (n : nat) (l : list Z) (s : regs) : regs :=
  match n with O => s | S n => rfc_blocks n (drop 64 l) (rfc_block s (take 64 l)) end.
(** A 1 bit, zeros to 56 bytes modulo 64, the length in bits modulo 2^64. *)
Definition rfc_pad (msg : list Z) : list Z :=
  msg ++ [0x80] ++ repeat 0 (Z.to_nat ((55 - Zlen msg) mod 64)) ++ le_bytes 8 (8 * Zlen msg).
Definition rfc_init : regs := mkRegs 0x67452301 0xefcdab89 0x98badcfe 0x10325476.
Definition rfc_md5 (msg : list Z) : list Z :=
  let p := rfc_pad msg in
  let r := rfc_blocks (length p / 64) p rfc_init in
  le_bytes 4 (ra r) ++ le_bytes 4 (rb r) ++ le_bytes 4 (rc r) ++ le_bytes 4 (rd r).

(** ** The compression function *)
Lemma rotate_ok x n : 0 <= x < 2 ^ 32 -> 0 <= n <= 32 -> ROTATE_LEFT x n = rotate x n.
Proof.
  intros Hx Hn. unfold ROTATE_LEFT, rotate, u32. rewrite Z.shiftl_mul_pow2, Z.shiftr_div_pow2 by lia.
  assert (2 ^ 32 = 2 ^ n * 2 ^ (32 - n)) as Hp by (rewrite <- Z.pow_add_r by lia; f_equal; lia).
  symmetry. apply Z.add_nocarry_lor, Z.bits_inj_0. intros i. rewrite Z.land_spec.
  destruct (Z.ltb_spec i n) as [Hi|Hi].
  - destruct (Z.ltb_spec i 0); [by rewrite Z.testbit_neg_r by lia|].
    rewrite (Z.mod_pow2_bits_low _ 32 i) by lia. rewrite (Z.mul_pow2_bits_low x n i) by lia. done.
  - destruct (decide (x / 2 ^ (32 - n) = 0)) as [->|Hnz]; [by rewrite Z.bits_0, andb_false_r|].
    pose proof (Z.div_pos x (2 ^ (32 - n)) ltac:(lia) ltac:(lia)) as Hpos.
    rewrite (Z.bits_above_log2 (x / 2 ^ (32 - n))); [apply andb_false_r|done|].
    assert (x / 2 ^ (32 - n) < 2 ^ n) by (apply Z.div_lt_upper_bound; lia).
    apply Z.lt_le_trans with n; [|done]. apply Z.log2_lt_pow2; lia.
Qed.

(** A step with its parameters. *)
Record param := mkParam { pf : Z -> Z -> Z -> Z; pk : Z; ps : Z; pt : Z }.
Definition step (X : Z -> Z) (s : regs) (q : param) : regs :=
  let t := u32 (ra s + pf q (rb s) (rc s) (rd s) + X (pk q) + pt q) in
  mkRegs (rd s) (u32 (ROTATE_LEFT t (ps q) + rb s)) (rb s) (rc s).
Definition rfc_param (i : nat) : param := mkParam (rfc_function i) (rfc_word i) (rfc_shift i) (nth i rfc_T 0).

Lemma rfc_step_param X s i : (i < 64)%nat -> rfc_step X s i = step X s (rfc_param i).
Proof.
  intros Hi. unfold rfc_step, step. cbn [pf pk ps pt rfc_param]. fold (u32 (ra s + rfc_function i (rb s) (rc s) (rd s) + X (rfc_word i) + nth i rfc_T 0)).
  assert (0 <= rfc_shift i <= 32) as Hs.
  { assert (Forall (fun i => 0 <= rfc_shift i <= 32) (seq 0 64)) as Hall by (rewrite Forall_forall; intros j Hj; revert j Hj; apply Forall_forall; repeat (constructor; [vm_compute; split; discriminate|]); constructor).
    rewrite Forall_forall in Hall. apply Hall, elem_of_seq. lia. }
  rewrite rotate_ok; [|apply u32_range|done]. by rewrite (Z.add_comm (rb s)).
Qed.

(** Four operations of the code are four steps, which rotate the registers once
    around. *)
Definition group (X : Z -> Z) (q : param * param * param * param) : list (regs -> regs) :=
  let '(q1, q2, q3, q4) := q in
  [SET (pf q1) X A B C D (pk q1) (ps q1) (pt q1); SET (pf q2) X D A B C (pk q2) (ps q2) (pt q2);
   SET (pf q3) X C D A B (pk q3) (ps q3) (pt q3); SET (pf q4) X B C D A (pk q4) (ps q4) (pt q4)].
Definition ungroup (q : param * param * param * param) : list param := let '(q1, q2, q3, q4) := q in [q1; q2; q3; q4].
Fixpoint quads {A} (l : list A) : list (A * A * A * A) :=
  match l with a :: b :: c :: d :: l => (a, b, c, d) :: quads l | _ => [] end.

Lemma group_ok X q s : fold_left (fun r op => op r) (group X q) s = fold_left (step X) (ungroup q) s.
Proof.
  destruct q as [[[q1 q2] q3] q4], s as [a b c d]. unfold group, ungroup, SET, step.
  cbn [fold_left get set ra rb rc rd]. reflexivity.
Qed.
Lemma groups_ok X qs : forall s, fold_left (fun r op => op r) (flat_map (group X) qs) s = fold_left (step X) (flat_map ungroup qs) s.
Proof. induction qs as [|q qs IH]; intros s; [done|]. cbn [flat_map]. rewrite !fold_left_app, group_ok. apply IH. Qed.

Definition params : list (param * param * param * param) := quads (map rfc_param (seq 0 64)).
Lemma code_groups X : round1 X ++ round2 X ++ round3 X ++ round4 X = flat_map (group X) params.
Proof. reflexivity. Qed.
Lemma params_ungroup : flat_map ungroup params = map rfc_param (seq 0 64).
Proof. reflexivity. Qed.

Lemma md5_process_rfc s data : md5_process s data = rfc_block s data.
Proof.
  unfold md5_process, rfc_block. rewrite code_groups, groups_ok, params_ungroup.
  assert (forall l s, Forall (fun i => i < 64)%nat l -> fold_left (step (X_of data)) (map rfc_param l) s = fold_left (rfc_step (X_of data)) l s) as Hf.
  { intros l. induction l as [|i l IH]; intros s' Hl; [done|]. apply Forall_cons in Hl as [Hi Hl]. cbn. by rewrite rfc_step_param, IH. }
  rewrite Hf; [done|]. apply Forall_forall. intros i Hi. apply elem_of_seq in Hi. lia.
Qed.

(** ** Appending *)
Lemma rfc_blocks_snoc n b : forall l s, length l = (64 * n)%nat -> length b = 64%nat ->
  rfc_blocks (S n) (l ++ b) s = rfc_block (rfc_blocks n l s) b.
Proof.
  induction n as [|n IH]; intros l s Hl Hb.
  - destruct l; [|done]. cbn [rfc_blocks app]. by rewrite firstn_all2 by lia.
  - change (rfc_blocks (S n) (drop 64 (l ++ b)) (rfc_block s (take 64 (l ++ b))) = rfc_block (rfc_blocks n (drop 64 l) (rfc_block s (take 64 l))) b).
    rewrite drop_app_le, take_app_le by lia. apply IH; [rewrite length_drop; lia|done].
Qed.

(** The blocks of [msg] that are complete were processed, the rest is in the
    buffer. *)
Definition processed (s : regs) (b msg : list Z) : Prop :=
  length b = 64%nat /\ exists q full rem, msg = full ++ rem /\ length full = (64 * q)%nat /\ (length rem < 64)%nat /\
    s = rfc_blocks q full rfc_init /\ take (length rem) b = rem.
Definition counted (c0 c1 : Z) (msg : list Z) : Prop :=
  c0 = (8 * Zlen msg) mod 2 ^ 32 /\ c1 = (8 * Zlen msg / 2 ^ 32) mod 2 ^ 32.
Definition holds (pms : md5_state_t) (msg : list Z) : Prop :=
  counted (count0 pms) (count1 pms) msg /\ processed (abcd pms) (buf pms) msg.

Lemma processed_block s b full q p : length b = 64%nat -> length full = (64 * q)%nat -> s = rfc_blocks q full rfc_init -> length p = 64%nat ->
  processed (md5_process s p) b (full ++ p).
Proof.
  intros Hb Hf -> Hp. split; [done|]. exists (S q), (full ++ p), []. rewrite app_nil_r, length_app, md5_process_rfc. split_and!; [done|lia|cbn; lia| |done].
  by rewrite rfc_blocks_snoc.
Qed.

Lemma append_blocks_ok fuel : forall c0 c1 s b p full q, (length p <= fuel)%nat -> length b = 64%nat -> length full = (64 * q)%nat ->
  s = rfc_blocks q full rfc_init ->
  exists s' b', append_blocks fuel (mkState c0 c1 s b) p = Ok (mkState c0 c1 s' b') /\ processed s' b' (full ++ p).
Proof.
  induction fuel as [|fuel IH]; intros c0 c1 s b p full q Hl Hb Hf ->.
  - destruct p; [|cbn in Hl; lia]. exists (rfc_blocks q full rfc_init), b. split; [done|]. split; [done|]. exists q, full, []. split_and!; try done. cbn. lia.
  - cbn [append_blocks count0 count1 abcd buf]. destruct (64 <=? Zlen p) eqn:E; zify_bool.
    + destruct (IH c0 c1 (md5_process (rfc_blocks q full rfc_init) (take 64 p)) b (drop 64 p) (full ++ take 64 p) (S q)) as (s' & b' & -> & H').
      * rewrite length_drop. lia.
      * done.
      * rewrite length_app, length_take. lia.
      * by rewrite rfc_blocks_snoc, md5_process_rfc by (rewrite ?length_take; lia).
      * exists s', b'. split; [done|]. by rewrite <- app_assoc, take_drop in H'.
    + destruct (Zlen p =? 0) eqn:E0; zify_bool; cbn [negb].
      * assert (p = []) as -> by (apply nil_length_inv; lia). exists (rfc_blocks q full rfc_init), b. split; [done|]. split; [done|].
        exists q, full, []. split_and!; try done. cbn. lia.
      * unfold mem_write. replace (in_range b 0 (Zlen p)) with true by (symmetry; apply in_range_true; lia). cbn.
        eexists _, _. split; [done|]. split; [rewrite length_splice; lia|]. exists q, full, p. split_and!; try done; [lia|].
        unfold splice. change (Z.to_nat 0) with 0%nat. rewrite take_0. cbn [app]. by rewrite take_app_length.
Qed.

Lemma offset_ok c0 c1 msg : counted c0 c1 msg -> Z.land (Z.shiftr c0 3) 63 = Zlen msg mod 64.
Proof.
  intros [-> _]. change 63 with (Z.ones 6). rewrite Z.land_ones, Z.shiftr_div_pow2 by lia.
  change (2 ^ 32) with (8 * 2 ^ 29). change (2 ^ 3) with 8. rewrite Z.mul_mod_distr_l by lia.
  rewrite (Z.mul_comm 8), Z.div_mul by lia. change (2 ^ 6) with 64. change (2 ^ 29) with (64 * 8388608).
  rewrite Z.rem_mul_r by lia. rewrite (Z.mul_comm 64), Z.mod_add, Z.mod_mod by lia. done.
Qed.

Lemma counted_append c0 c1 msg n : counted c0 c1 msg -> 0 <= n -> 8 * n <= INT_MAX ->
  let c0' := u32 (c0 + u32 (Z.shiftl n 3)) in
  let c1' := u32 (c1 + Z.shiftr n 29) in
  c0' = (8 * (Zlen msg + n)) mod 2 ^ 32 /\
  (if c0' <? u32 (Z.shiftl n 3) then u32 (c1' + 1) else c1') = (8 * (Zlen msg + n) / 2 ^ 32) mod 2 ^ 32.
Proof.
  intros [-> ->] Hn Hmax. unfold INT_MAX in Hmax. rewrite Z.shiftl_mul_pow2 by lia. change (2 ^ 3) with 8.
  rewrite (u32_small (n * 8)) by lia. rewrite Z.shiftr_div_pow2, (Z.div_small n), Z.add_0_r by lia. cbv zeta. unfold u32.
  set (N := 8 * Zlen msg). replace (8 * (Zlen msg + n)) with (N + n * 8) by lia. set (m := n * 8) in *.
  pose proof (Z.div_mod N (2 ^ 32) ltac:(lia)) as Hd. pose proof (Z.mod_pos_bound N (2 ^ 32) ltac:(lia)) as Hr.
  rewrite Z.add_mod_idemp_l by lia. split; [done|]. rewrite Z.mod_mod by lia.
  destruct (Z.ltb_spec (N mod 2 ^ 32 + m) (2 ^ 32)) as [Hlt|Hge].
  - assert ((N + m) mod 2 ^ 32 = N mod 2 ^ 32 + m) as -> by (symmetry; apply (Z.mod_unique _ _ (N / 2 ^ 32)); lia).
    destruct (_ <? m) eqn:E; zify_bool; [lia|]. f_equal. apply (Z.div_unique _ _ _ (N mod 2 ^ 32 + m)); lia.
  - assert ((N + m) mod 2 ^ 32 = N mod 2 ^ 32 + m - 2 ^ 32) as -> by (symmetry; apply (Z.mod_unique _ _ (N / 2 ^ 32 + 1)); lia).
    destruct (_ <? m) eqn:E; zify_bool; [|lia]. rewrite Z.add_mod_idemp_l by lia. f_equal.
    apply (Z.div_unique _ _ _ (N mod 2 ^ 32 + m - 2 ^ 32)); lia.
Qed.

Lemma md5_append_ok pms msg data : holds pms msg -> 8 * Zlen data <= INT_MAX ->
  exists pms', md5_append pms data = Ok pms' /\ holds pms' (msg ++ data).
Proof.
  intros [Hc (Hb & q & full & rem & -> & Hf & Hr & Hs & Hrem)] Hmax. unfold md5_append.
  rewrite (offset_ok _ _ _ Hc), length_app, Hf.
  assert (Z.of_nat (64 * q + length rem) mod 64 = Zlen rem) as -> by (symmetry; apply (Z.mod_unique _ _ (Z.of_nat q)); lia).
  pose proof (counted_append _ _ _ (Zlen data) Hc ltac:(lia) Hmax) as [Hc0 Hc1]. cbv zeta in Hc0, Hc1.
  assert (Z.shiftl (Zlen data) 3 <=? INT_MAX = true) as -> by (rewrite Z.shiftl_mul_pow2 by lia; apply Z.leb_le; lia). cbn [ASSERT mbind outcome_bind].
  destruct (Zlen data <=? 0) eqn:E; zify_bool.
  { assert (data = []) as -> by (apply nil_length_inv; lia). exists pms. rewrite app_nil_r. split; [done|]. split; [done|].
    split; [done|]. exists q, full, rem. done. }
  set (c0 := u32 (count0 pms + _)) in *. set (c1 := u32 (count1 pms + _)) in *.
  set (c1' := if c0 <? _ then _ else _) in *.
  assert (counted c0 c1' ((full ++ rem) ++ data)) as Hcnt by (unfold counted; rewrite length_app, Nat2Z.inj_add; by split).
  destruct (Zlen rem =? 0) eqn:E0; zify_bool; cbn [negb].
  - assert (rem = []) as -> by (apply nil_length_inv; lia). rewrite app_nil_r in *.
    destruct (append_blocks_ok (length data) c0 c1' (abcd pms) (buf pms) data full q) as (s' & b' & -> & Hp); try done. eexists. by split.
  - set (copy := if 64 <? Zlen rem + Zlen data then 64 - Zlen rem else Zlen data).
    assert (0 <= copy <= Zlen data /\ Zlen rem + copy <= 64) as [Hcp1 Hcp2] by (unfold copy; case_if; lia).
    assert (length (take (Z.to_nat copy) data) = Z.to_nat copy) as Hlt by (rewrite length_take; lia).
    unfold mem_write. replace (in_range _ _ _) with true by (symmetry; apply in_range_true; lia). cbn [mbind outcome_bind].
    assert (splice (buf pms) (Zlen rem) (take (Z.to_nat copy) data) =
      (rem ++ take (Z.to_nat copy) data) ++ drop (length rem + Z.to_nat copy) (buf pms)) as ->.
    { unfold splice. rewrite Nat2Z.id, Hrem, Hlt. by rewrite app_assoc. }
    destruct (Zlen rem + copy <? 64) eqn:Ef; zify_bool.
    + assert (copy = Zlen data) as Ecp by (unfold copy in *; destruct (64 <? _); lia). rewrite Ecp, Nat2Z.id, firstn_all in *.
      eexists. split; [done|]. split; [done|]. cbn [abcd buf]. split; [rewrite !length_app, length_drop; lia|].
      exists q, full, (rem ++ data). rewrite !length_app. split_and!; [by rewrite app_assoc|done|lia|done|].
      rewrite <- length_app. apply take_app_length.
    + assert (drop (length rem + Z.to_nat copy) (buf pms) = []) as -> by (apply drop_ge; lia). rewrite app_nil_r.
      set (block := rem ++ take (Z.to_nat copy) data). assert (length block = 64%nat) as Hbl by (unfold block; rewrite length_app; lia).
      destruct (append_blocks_ok (length data) c0 c1' (md5_process (abcd pms) block) block (drop (Z.to_nat copy) data) (full ++ block) (S q)) as (s' & b' & -> & Hp);
        [rewrite length_drop; lia|done|rewrite length_app; lia|by rewrite rfc_blocks_snoc, md5_process_rfc, Hs|].
      eexists. split; [done|]. split; [done|]. unfold block in Hp. by rewrite <- !app_assoc, take_drop, (app_assoc full) in Hp.
Qed.

(** ** Finishing *)
Lemma low_byte x k : 0 <= k <= 24 -> (x mod 2 ^ 32 / 2 ^ k) mod 256 = (x / 2 ^ k) mod 256.
Proof.
  intros Hk. assert (2 ^ 32 = 2 ^ k * (256 * 2 ^ (24 - k))) as ->.
  { change 256 with (2 ^ 8). rewrite <- !Z.pow_add_r by lia. f_equal. lia. }
  rewrite Z.rem_mul_r by lia. rewrite Z.add_comm, (Z.mul_comm (2 ^ k)), Z.div_add_l by lia.
  rewrite (Z.div_small (x mod 2 ^ k)), Z.add_0_r by (apply Z.mod_pos_bound; lia).
  rewrite Z.rem_mul_r by lia. rewrite (Z.mul_comm 256), Z.mod_add, Z.mod_mod by lia. done.
Qed.

Lemma le_bytes_4 x : le_bytes 4 x = map (fun k => (x / 2 ^ k) mod 256) [0; 8; 16; 24].
Proof. rewrite !le_bytes_cons. cbn [map]. rewrite !Z.div_div, Z.div_1_r by lia. done. Qed.

Lemma digest_bytes r : map (word_byte (word r)) (indices 16) = le_bytes 4 (ra r) ++ le_bytes 4 (rb r) ++ le_bytes 4 (rc r) ++ le_bytes 4 (rd r).
Proof. rewrite !le_bytes_4. cbn. unfold word_byte. rewrite !u8_shiftr by (by vm_compute). done. Qed.

(** The length that is appended. *)
Lemma length_bytes pms msg : counted (count0 pms) (count1 pms) msg ->
  map (word_byte (count pms)) (indices 8) = le_bytes 8 (8 * Zlen msg).
Proof.
  intros [H0 H1]. set (x := 8 * Zlen msg) in *. assert (le_bytes 8 x = le_bytes 4 x ++ le_bytes 4 (x / 2 ^ 32)) as ->.
  { rewrite !le_bytes_cons. rewrite !Z.div_div by lia. done. }
  rewrite !le_bytes_4. cbn. unfold word_byte. rewrite !u8_shiftr by (by vm_compute).
  transitivity (map (fun k => (count0 pms / 2 ^ k) mod 256) [0; 8; 16; 24] ++ map (fun k => (count1 pms / 2 ^ k) mod 256) [0; 8; 16; 24]); [done|].
  rewrite H0, H1. cbn [map app]. by rewrite !low_byte by lia.
Qed.

Lemma pad_ok pms msg : counted (count0 pms) (count1 pms) msg ->
  take (Z.to_nat (Z.land (u32 (55 - Z.shiftr (count0 pms) 3)) 63 + 1)) pad = 0x80 :: repeat 0 (Z.to_nat ((55 - Zlen msg) mod 64)).
Proof.
  intros H. pose proof (offset_ok _ _ _ H) as Ho. revert Ho. set (c := Z.shiftr (count0 pms) 3). intros Ho.
  assert (Z.land (u32 (55 - c)) 63 = (55 - Zlen msg) mod 64) as ->.
  { change 63 with (Z.ones 6) in *. rewrite Z.land_ones in * by lia. change (2 ^ 6) with 64 in *. unfold u32.
    change (2 ^ 32) with (64 * 67108864). rewrite Z.rem_mul_r by lia. rewrite (Z.mul_comm 64), Z.mod_add, Z.mod_mod by lia.
    rewrite Zminus_mod, Ho, <- Zminus_mod. done. }
  pose proof (Z.mod_pos_bound (55 - Zlen msg) 64 ltac:(lia)) as Hb. set (k := (55 - Zlen msg) mod 64) in *.
  rewrite Z2Nat.inj_add, Nat.add_comm by lia. unfold pad. change (Z.to_nat 1 + Z.to_nat k)%nat with (S (Z.to_nat k)). cbn [take]. f_equal.
  replace 63%nat with (Z.to_nat k + (63 - Z.to_nat k))%nat by lia. rewrite repeat_app.
  rewrite take_app_le by (rewrite repeat_length; lia). apply firstn_all2. rewrite repeat_length. lia.
Qed.

Lemma holds_init b : length b = 64%nat -> holds (md5_init b) [].
Proof. intros Hb. split; [done|]. split; [done|]. exists 0%nat, [], []. split_and!; try done. cbn. lia. Qed.

Lemma pad_length n : 0 <= n -> (n + 1 + (55 - n) mod 64 + 8) mod 64 = 0.
Proof.
  intros Hn. pose proof (Z.div_mod (55 - n) 64 ltac:(lia)) as H. symmetry. apply (Z.mod_unique _ _ (1 - (55 - n) / 64)); lia.
Qed.

Lemma md5_finish_ok pms msg : holds pms msg -> exists pms', md5_finish pms = Ok (pms', rfc_md5 msg) /\ length (buf pms') = 64%nat.
Proof.
  intros Hh. pose proof Hh as [Hc _]. unfold md5_finish. rewrite (length_bytes _ _ Hc), (pad_ok _ _ Hc).
  pose proof (Z.mod_pos_bound (55 - Zlen msg) 64 ltac:(lia)) as Hb.
  destruct (md5_append_ok pms msg (0x80 :: repeat 0 (Z.to_nat ((55 - Zlen msg) mod 64))) Hh) as (p1 & -> & H1).
  { cbn [length]. rewrite repeat_length. unfold INT_MAX. lia. }
  cbn [mbind outcome_bind].
  destruct (md5_append_ok p1 _ (le_bytes 8 (8 * Zlen msg)) H1) as (p2 & -> & H2); [rewrite length_le_bytes; unfold INT_MAX; lia|].
  cbn [mbind outcome_bind]. exists p2. split; [|apply H2]. rewrite digest_bytes. unfold rfc_md5.
  assert (rfc_pad msg = (msg ++ 0x80 :: repeat 0 (Z.to_nat ((55 - Zlen msg) mod 64))) ++ le_bytes 8 (8 * Zlen msg)) as Hp
    by (unfold rfc_pad; by rewrite <- !app_assoc).
  rewrite <- Hp in H2. destruct H2 as [_ (_ & q & full & rem & Ef & Hf & Hr & Hs & _)].
  assert (length (rfc_pad msg) = (64 * q + length rem)%nat) as Hl by (rewrite Ef, length_app; lia).
  assert (length rem = 0)%nat as Hr0.
  { assert (Zlen (rfc_pad msg) mod 64 = 0) as Hm.
    { rewrite Hp, !length_app, length_le_bytes. cbn [length]. rewrite repeat_length.
      rewrite <- (pad_length (Zlen msg)) by lia. f_equal. lia. }
    rewrite Hl in Hm. apply Z.mod_divide in Hm as [z Hz]; lia. }
  apply nil_length_inv in Hr0 as ->. rewrite app_nil_r in Ef. subst full.
  rewrite Hl, Nat.add_0_r, (Nat.mul_comm 64), Nat.div_mul by lia. by rewrite Hs.
Qed.

Lemma appends_ok datas : forall pms msg, holds pms msg -> Forall (fun d => 8 * Zlen d <= INT_MAX) datas ->
  exists pms', fold_left (fun r d => r ≫= fun pms => md5_append pms d) datas (Ok pms) = Ok pms' /\ holds pms' (msg ++ concat datas).
Proof.
  induction datas as [|d datas IH]; intros pms msg Hh Hd; cbn [fold_left concat]; [rewrite app_nil_r; eauto|].
  apply Forall_cons in Hd as [Hd1 Hd2]. destruct (md5_append_ok pms msg d Hh Hd1) as (p1 & Hp1 & H1).
  destruct (IH p1 (msg ++ d) H1 Hd2) as (p' & Hp' & H'). exists p'. rewrite <- app_assoc in H'. split; [|done].
  change ((Ok pms ≫= fun pms => md5_append pms d)) with (md5_append pms d). by rewrite Hp1.
Qed.

(** The hash of a message that is appended in pieces, with a state whose memory
    is used again. *)
Definition md5_digest (datas : list (list Z)) (ctx : list Z) : outcome (md5_state_t * list Z) :=
  fold_left (fun r d => r ≫= fun pms => md5_append pms d) datas (Ok (md5_init ctx)) ≫= md5_finish.

Lemma md5_digest_ok datas b : length b = 64%nat -> Forall (fun d => 8 * Zlen d <= INT_MAX) datas ->
  exists pms, md5_digest datas b = Ok (pms, rfc_md5 (concat datas)) /\ length (buf pms) = 64%nat.
Proof.
  intros Hb Hd. destruct (appends_ok datas (md5_init b) [] (holds_init b Hb) Hd) as (p & Hp & Hh). unfold md5_digest. rewrite Hp.
  by apply md5_finish_ok.
Qed.

(** C24: However a message is split into pieces that are appended (each short
    enough that its length in bits is an [int]), and whatever the buffer of the state
    holds at first, the digest of md5.c is the MD5 of RFC 1321 of
    the whole message: the unrolled rounds compute the compression function,
    every access stays in the buffer of 64 bytes, and the two words of the count
    are the length in bits modulo 2^64. *)
Theorem md5_rfc1321 datas b : length b = 64%nat -> Forall (fun d => 8 * Zlen d <= INT_MAX) datas ->
  exists pms, md5_digest datas b = Ok (pms, rfc_md5 (concat datas)) /\ length (buf pms) = 64%nat.
Proof. exact (md5_digest_ok datas b). Qed.

(** The pieces make "abc", whose digest is in the appendix of the RFC. *)
Lemma md5_rfc1321_witness : exists pms, md5_digest [[0x61]; []; [0x62; 0x63]] (repeat 0 64) =
  Ok (pms, [0x90; 0x01; 0x50; 0x98; 0x3c; 0xd2; 0x4f; 0xb0; 0xd6; 0x96; 0x3f; 0x7d; 0x28; 0xe1; 0x7f; 0x72]).
Proof.
  destruct (md5_rfc1321 [[0x61]; []; [0x62; 0x63]] (repeat 0 64)) as (pms & H & _).
  - reflexivity.
  - repeat (constructor; [vm_compute; discriminate|]). constructor.
  - exists pms. rewrite H. vm_compute rfc_md5. reflexivity.
Defined.

End Md5.
