(* ===== verification/HttpAuth.v ===== *)
(** The credentials for HTTP proxies (redsocks/http-auth.c): Basic, and Digest of
    RFC 2617 with the challenge of the proxy parsed, hashed with [Md5] and
    printed into allocated memory. Strings are lists of characters without the
    terminating zero; allocations succeed. *)
From Stdlib Require Import ZArith Lia String Ascii.
From stdpp Require Import base tactics numbers option list sets.
From S2P Require Import Prelude Base64 Md5.

Module HttpAuth.
Import Base64(chars, base64_encode, BASE64_SIZE, rfc4648, base64_encode_ok, rfc4648_nonzero).
Import Md5(md5_digest, rfc_md5, md5_state_t, buf, md5_digest_ok).

(** ** Characters *)
Definition isspace (c : Z) : bool := (c =? 32) || ((9 <=? c) && (c <=? 13)).
Definition tolower (c : Z) : Z := if (65 <=? c) && (c <=? 90) then c + 32 else c.
(** The character at a pointer into a string: zero at its end. *)
Definition at_ptr (p : list Z) : Z := match p with c :: _ => c | [] => 0 end.

Fixpoint skip_while (f : Z -> bool) (p : list Z) : list Z :=
  match p with c :: p' => if f c then skip_while f p' else p | [] => [] end.
Fixpoint take_while (f : Z -> bool) (p : list Z) : list Z :=
  match p with c :: p' => if f c then c :: take_while f p' else [] | [] => [] end.

(** Whether [strncasecmp(a, b, n)] is 0. *)
Fixpoint strncasecmp_eq (n : nat) (a b : list Z) : bool :=
  match n with
  | O => true
  | S n =>
      if tolower (at_ptr a) =? tolower (at_ptr b)
      then if at_ptr a =? 0 then true else strncasecmp_eq n (tl a) (tl b)
      else false
  end.

Definition hexdigit (x : Z) : Z := default 0 (chars "0123456789abcdef" !! Z.to_nat x).
(** [%02x] of a byte, [%08x] of an int. *)
Definition hex2 (x : Z) : list Z := [hexdigit (x / 16); hexdigit (x mod 16)].
Definition hex8 (x : Z) : list Z := map (fun i => hexdigit (u32 x / 16 ^ i mod 16)) [7; 6; 5; 4; 3; 2; 1; 0].

(** ** Basic *)
Definition basic_authentication_encode (user passwd : list Z) : outcome (option (list Z)) :=
  let pair := user ++ chars ":" ++ passwd in
  let basic_len := BASE64_SIZE (Zlen pair) in
  base64_encode basic_len pair ≫= fun r : option (list Z) => Ok (take_while (fun c => negb (c =? 0)) <$> r).

(** ** Digest *)
Definition MD5_HASHLEN : Z := 16.
Definition dump_hash (hash : list Z) : list Z := flat_map hex2 (take (Z.to_nat MD5_HASHLEN) hash).

Definition COMMA : Z := 44.
Definition EQUALS : Z := 61.
Definition QUOTE : Z := 34.

(** Name, value and the source for the next parameter. *)
Definition extract_param (source : list Z) (separator : Z) : option (list Z * list Z * list Z) :=
  let p := skip_while isspace source in
  match p with
  | [] => None
  | _ =>
    let in_name c := negb (isspace c) && negb (c =? EQUALS) && negb (c =? separator) in
    let name := take_while in_name p in
    let p := skip_while in_name p in
    if (Zlen name =? 0)%Z then None
    else
      let p := skip_while isspace p in
      if (at_ptr p =? separator) || (at_ptr p =? 0) then
        Some (name, [], if at_ptr p =? separator then tl p else p)
      else if negb (at_ptr p =? EQUALS) then None
      else
        let p := skip_while isspace (tl p) in
        let in_param c := negb (c =? separator) in
        if at_ptr p =? QUOTE then
          let p := tl p in
          let in_value c := negb (c =? QUOTE) in
          let value := take_while in_value p in
          match skip_while in_value p with
          | [] => None
          | _ :: p =>
              let p := skip_while isspace p in
              let p := skip_while in_param p in
              if at_ptr p =? separator then Some (name, value, tl p)
              else if negb (at_ptr p =? 0) then None
              else Some (name, value, p)
          end
        else
          let value := take_while in_param p in
          let p := skip_while in_param p in
          let value := rev (skip_while isspace (rev value)) in
          Some (name, value, if at_ptr p =? separator then tl p else p)
  end.

Record params := mkParams { realm : option (list Z); opaque : option (list Z); nonce : option (list Z); qop : option (list Z) }.

Definition assign (ps : params) (name value : list Z) : params :=
  let named (s : string) := strncasecmp_eq (length name) name (chars s) in
  if named "realm"%string then mkParams (Some value) (opaque ps) (nonce ps) (qop ps)
  else if named "opaque"%string then mkParams (realm ps) (Some value) (nonce ps) (qop ps)
  else if named "nonce"%string then mkParams (realm ps) (opaque ps) (Some value) (qop ps)
  else if named "qop"%string then mkParams (realm ps) (opaque ps) (nonce ps) (Some value)
  else ps.

Fixpoint digest_params (fuel : nat) (ptr : list Z) (ps : params) : outcome params :=
  match fuel with
  | O => Fault
  | S fuel =>
      match extract_param ptr COMMA with
      | None => Ok ps
      | Some (name, value, ptr) => digest_params fuel ptr (assign ps name value)
      end
  end.

Definition Zlen_opt (s : option (list Z)) : Z := match s with Some s => Zlen s | None => 0 end.

(** The printing of the result into [len] bytes. *)
Definition print_result (user realm nonce path response nc cnonce : list Z) (qop opaque : option (list Z)) : outcome (list Z) :=
  let len := 256 + Zlen user + Zlen realm + Zlen nonce + Zlen path + Zlen response in
  let len := match qop with Some qop => len + Zlen qop + Zlen nc + Zlen cnonce | None => len end in
  let len := len + Zlen_opt opaque in
  ASSERT (len <=? INT_MAX);;
  let quoted (key : string) s := chars key ++ [EQUALS; QUOTE] ++ s ++ [QUOTE] in
  let res := quoted "username"%string user ++ chars ", " ++ quoted "realm"%string realm ++ chars ", " ++ quoted "nonce"%string nonce ++ chars ", " ++
    quoted "uri"%string path ++ chars ", " ++ quoted "response"%string response in
  let res := match qop with
    | Some qop => res ++ chars ", qop=" ++ qop ++ chars ", nc=" ++ nc ++ chars ", " ++ quoted "cnonce"%string cnonce
    | None => res
    end in
  ASSERT (Zlen res + 1 <=? len);;
  let res := match opaque with Some opaque => res ++ chars ", " ++ quoted "opaque"%string opaque | None => res end in
  ASSERT (Zlen res + 1 <=? len);;
  Ok res.

(** [ctx] is the memory of the hash's buffer; NULL is [None]. *)
Definition digest_authentication_encode (ctx line : list Z) (user passwd method path : option (list Z)) (count : Z) (cnonce : list Z)
    : outcome (option (list Z)) :=
  let nc := hex8 count in
  digest_params (S (length line)) line (mkParams None None None None) ≫= fun ps =>
  match realm ps, nonce ps, user, passwd, path, method with
  | Some realm, Some nonce, Some user, Some passwd, Some path, Some method =>
      if match qop ps with Some qop => negb (strncasecmp_eq 5 qop (chars "auth")) | None => false end then Ok None
      else
        md5_digest [user; chars ":"; realm; chars ":"; passwd] ctx ≫= fun '((ctx, hash) : md5_state_t * list Z) =>
        let a1buf := dump_hash hash in
        md5_digest [method; chars ":"; path] (buf ctx) ≫= fun '((ctx, hash) : md5_state_t * list Z) =>
        let a2buf := dump_hash hash in
        md5_digest ([a1buf; chars ":"; nonce; chars ":"] ++
          match qop ps with Some qop => [nc; chars ":"; cnonce; chars ":"; qop; chars ":"] | None => [] end ++ [a2buf]) (buf ctx)
          ≫= fun '((ctx, hash) : md5_state_t * list Z) =>
        let response := dump_hash hash in
        print_result user realm nonce path response nc cnonce (qop ps) (opaque ps) ≫= fun res => Ok (Some res)
  | _, _, _, _, _, _ => Ok None
  end.

(** ** Headers *)

(** [evbuffer_readln] with EVBUFFER_EOL_CRLF: a line ends with LF, optionally
    after CR. The line is used as a string. *)
Definition LF : Z := 10.
Definition CR : Z := 13.
Definition CRLF : list Z := [CR; LF].
Fixpoint split_lf (l : list Z) : option (list Z * list Z) :=
  match l with
  | [] => None
  | c :: l => if c =? LF then Some ([], l) else (fun '(a, b) => (c :: a, b)) <$> split_lf l
  end.
Definition strip_cr (l : list Z) : list Z := match rev l with c :: r => if c =? CR then rev r else l | [] => l end.
Definition cstring (l : list Z) : list Z := take_while (fun c => negb (c =? 0)) l.
Definition redsocks_evbuffer_readline (buf : list Z) : option (list Z * list Z) :=
  (fun '(line, rest) => (cstring (strip_cr line), rest)) <$> split_lf buf.

Definition auth_request_header : list Z := chars "Proxy-Authenticate:".
Definition auth_response_header : list Z := chars "Proxy-Authorization:".

(** The line of the challenge, what is left of the source, and what was
    copied. *)
Fixpoint http_auth_request_header (fuel : nat) (src tee : list Z) : outcome (option (list Z) * list Z * list Z) :=
  match fuel with
  | O => Fault
  | S fuel =>
      match redsocks_evbuffer_readline src with
      | None => Ok (None, src, tee)
      | Some (line, src) =>
          let tee := tee ++ line ++ CRLF in
          if (Zlen line =? 0) || negb (bool_decide (58 ∈ line)) then Ok (None, src, tee)
          else if strncasecmp_eq (length auth_request_header) line auth_request_header then Ok (Some line, src, tee)
          else http_auth_request_header fuel src tee
      end
  end.

(** ** Challenges *)

(** A parameter of a challenge: its value is a quoted string or a token. *)
Record param := mkParam { pname : list Z; pvalue : list Z; pquoted : bool }.
Definition name_char (c : Z) : bool := negb (c =? 0) && negb (isspace c) && negb (c =? EQUALS) && negb (c =? COMMA) && negb (c =? QUOTE).
Definition wf_param (q : param) : Prop :=
  pname q <> [] /\ Forall (fun c => name_char c = true) (pname q) /\
  if pquoted q then Forall (fun c => c <> QUOTE /\ c <> 0) (pvalue q)
  else pvalue q <> [] /\ Forall (fun c => name_char c = true) (pvalue q).

Definition print_param (q : param) : list Z :=
  pname q ++ [EQUALS] ++ (if pquoted q then [QUOTE] ++ pvalue q ++ [QUOTE] else pvalue q).
Fixpoint print_challenge (l : list param) : list Z :=
  match l with
  | [] => []
  | [q] => print_param q
  | q :: l => print_param q ++ chars ", " ++ print_challenge l
  end.

Definition lower (s : list Z) : list Z := map tolower s.
(** The parameters a challenge of RFC 2617 has. *)
Definition rfc_names : list (list Z) :=
  [chars "realm"; chars "domain"; chars "nonce"; chars "opaque"; chars "stale"; chars "algorithm"; chars "qop"].

(** The last value that is given to a name. *)
Definition value_of (key : list Z) (l : list param) : option (list Z) :=
  foldl (fun r q => if bool_decide (lower (pname q) = key) then Some (pvalue q) else r) None l.

(** ** RFC 2617 *)
Definition hexes (l : list Z) : list Z := flat_map hex2 l.
Definition request_digest (user realm passwd method uri nonce : list Z) (qop_part : list Z) : list Z :=
  let ha1 := hexes (rfc_md5 (user ++ chars ":" ++ realm ++ chars ":" ++ passwd)) in
  let ha2 := hexes (rfc_md5 (method ++ chars ":" ++ uri)) in
  hexes (rfc_md5 (ha1 ++ chars ":" ++ nonce ++ chars ":" ++ qop_part ++ ha2)).

(** The header that is sent. *)
Definition rfc_credentials (user realm nonce uri response : list Z) (qop : option (list Z)) (nc cnonce : list Z) (opaque : option (list Z)) : list Z :=
  let quoted (key : string) s := chars key ++ [EQUALS; QUOTE] ++ s ++ [QUOTE] in
  quoted "username"%string user ++ chars ", " ++ quoted "realm"%string realm ++ chars ", " ++ quoted "nonce"%string nonce ++ chars ", " ++
  quoted "uri"%string uri ++ chars ", " ++ quoted "response"%string response ++
  match qop with Some q => chars ", qop=" ++ q ++ chars ", nc=" ++ nc ++ chars ", " ++ quoted "cnonce"%string cnonce | None => [] end ++
  match opaque with Some o => chars ", " ++ quoted "opaque"%string o | None => [] end.

(** A1 by the algorithm of the challenge (sections 3.2.1 and 3.2.2.2): MD5 if
    there is none; a challenge of an algorithm that is not understood is to be
    ignored. *)
Definition rfc_a1 (algorithm : option (list Z)) (user realm passwd nonce cnonce : list Z) : option (list Z) :=
  let secret := user ++ chars ":" ++ realm ++ chars ":" ++ passwd in
  match algorithm with
  | None => Some secret
  | Some a =>
      if bool_decide (lower a = chars "md5") then Some secret
      else if bool_decide (lower a = chars "md5-sess") then
        Some (hexes (rfc_md5 secret) ++ chars ":" ++ nonce ++ chars ":" ++ cnonce)
      else None
  end.
(** The request digest over A1. *)
Definition keyed_digest (a1 method uri nonce qop_part : list Z) : list Z :=
  hexes (rfc_md5 (hexes (rfc_md5 a1) ++ chars ":" ++ nonce ++ chars ":" ++ qop_part ++
    hexes (rfc_md5 (method ++ chars ":" ++ uri)))).

(** The answer to a challenge that offers no qop or only [auth]. *)
Definition rfc_answer (l : list param) (user passwd method uri : list Z) (nc cnonce : list Z) : option (list Z) :=
  match value_of (chars "realm") l, value_of (chars "nonce") l with
  | Some realm, Some nonce =>
      let qop := value_of (chars "qop") l in
      if match qop with Some q => bool_decide (lower q = chars "auth") | None => true end then
        let qop_part := match qop with Some q => nc ++ chars ":" ++ cnonce ++ chars ":" ++ q ++ chars ":" | None => [] end in
        match rfc_a1 (value_of (chars "algorithm") l) user realm passwd nonce cnonce with
        | Some a1 => Some (rfc_credentials user realm nonce uri (keyed_digest a1 method uri nonce qop_part) qop nc cnonce
                             (value_of (chars "opaque") l))
        | None => None
        end
      else None
  | _, _ => None
  end.

(** ** Parsing *)
Lemma skip_take f p : take_while f p ++ skip_while f p = p.
Proof. induction p as [|c p IH]; [done|]. cbn. destruct (f c); [cbn; by rewrite IH|done]. Qed.
Lemma take_while_app f l p : Forall (fun c => f c = true) l -> (p = [] \/ f (at_ptr p) = false) -> take_while f (l ++ p) = l.
Proof.
  intros Hl Hp. induction Hl as [|c l Hc Hl IH]; cbn; [|by rewrite Hc, IH].
  destruct p as [|c p]; [done|]. destruct Hp as [|Hp]; [done|]. cbn in *. by rewrite Hp.
Qed.
Lemma skip_while_app f l p : Forall (fun c => f c = true) l -> (p = [] \/ f (at_ptr p) = false) -> skip_while f (l ++ p) = p.
Proof.
  intros Hl Hp. induction Hl as [|c l Hc Hl IH]; cbn; [|by rewrite Hc, IH].
  destruct p as [|c p]; [done|]. destruct Hp as [|Hp]; [done|]. cbn in *. by rewrite Hp.
Qed.
Lemma skip_none f p : (p = [] \/ f (at_ptr p) = false) -> skip_while f p = p.
Proof. apply (skip_while_app f []). constructor. Qed.

Lemma name_char_spec c : name_char c = true -> c <> 0 /\ isspace c = false /\ c <> EQUALS /\ c <> COMMA /\ c <> QUOTE.
Proof. unfold name_char. rewrite !andb_true_iff, !negb_true_iff, !Z.eqb_neq. naive_solver. Qed.

(** The rest after a parameter: the end, or a comma. *)
Definition after_param (rest next : list Z) : Prop := (rest = [] /\ next = []) \/ rest = COMMA :: next.

Lemma trim_none l : Forall (fun c => name_char c = true) l -> rev (skip_while isspace (rev l)) = l.
Proof.
  intros Hl. rewrite skip_none; [apply rev_involutive|]. destruct (rev l) as [|c l'] eqn:E; [by left|right]. cbn.
  apply Forall_rev in Hl. rewrite E in Hl. apply Forall_cons in Hl as [Hc _]. by destruct (name_char_spec c Hc) as (_ & ? & _).
Qed.

Lemma extract_ok q sp rest next : wf_param q -> Forall (fun c => isspace c = true) sp -> after_param rest next ->
  extract_param (sp ++ print_param q ++ rest) COMMA = Some (pname q, pvalue q, next).
Proof.
  intros (Hne & Hn & Hv) Hsp Hr. unfold extract_param, print_param. destruct (pname q) as [|c0 n0] eqn:En; [done|]. rewrite <- En in *.
  assert (name_char c0 = true) as Hc0 by (rewrite En in Hn; by apply Forall_cons in Hn as [? _]).
  set (body := if pquoted q then _ else _). rewrite skip_while_app; [|done|right; rewrite En; cbn; by destruct (name_char_spec c0 Hc0) as (_ & ? & _)].
  rewrite <- !app_assoc. set (in_name := fun c => _). assert (forall p, (pname q ++ [EQUALS] ++ p) = c0 :: n0 ++ [EQUALS] ++ p) as Hp by (by rewrite En).
  rewrite Hp at 1. rewrite take_while_app, skip_while_app; [|..|by right].
  2,4: apply (Forall_impl _ _ _ Hn); intros c (H1 & H2 & H3 & H4 & H5)%name_char_spec; unfold in_name; rewrite H2; apply Z.eqb_neq in H3 as ->; by apply Z.eqb_neq in H4 as ->.
  2: by right.
  rewrite (proj2 (Z.eqb_neq (Zlen (pname q)) 0)) by (rewrite En; cbn; lia). rewrite skip_none by (by right). cbn [app at_ptr].
  change (EQUALS =? COMMA) with false. change (EQUALS =? 0) with false. rewrite Z.eqb_refl. cbn [orb negb tl].
  assert (isspace COMMA = false) as Hcs by done. unfold body. destruct (pquoted q).
  - cbn [app]. rewrite skip_none by (by right). cbn [at_ptr tl]. rewrite Z.eqb_refl, <- app_assoc.
    assert (Forall (fun c => negb (c =? QUOTE) = true) (pvalue q)) as Hq by (apply (Forall_impl _ _ _ Hv); intros c [Hc _]; by apply negb_true_iff, Z.eqb_neq).
    rewrite take_while_app, skip_while_app by (done || by right). cbn [app].
    assert (skip_while isspace rest = rest /\ skip_while (fun c => negb (c =? COMMA)) rest = rest) as [-> ->].
    { split; apply skip_none; destruct Hr as [[-> _]| ->]; [by left|by right|by left|by right]. }
    destruct Hr as [[-> ->]| ->]; done.
  - destruct Hv as [Hne' Hv]. destruct (pvalue q) as [|v0 v] eqn:Ev; [done|]. rewrite <- Ev in *.
    assert (name_char v0 = true) as Hv0 by (rewrite Ev in Hv; by apply Forall_cons in Hv as [? _]).
    destruct (name_char_spec v0 Hv0) as (_ & S1 & _ & S2 & S3).
    rewrite skip_none by (right; by rewrite Ev). assert (at_ptr (pvalue q ++ rest) =? QUOTE = false) as -> by (rewrite Ev; by apply Z.eqb_neq).
    assert (Forall (fun c => negb (c =? COMMA) = true) (pvalue q)) as Hq.
    { apply (Forall_impl _ _ _ Hv). intros c (_ & _ & _ & Hc & _)%name_char_spec. by apply negb_true_iff, Z.eqb_neq. }
    rewrite take_while_app, skip_while_app; [|done|..]; [|destruct Hr as [[-> _]| ->]; [by left|by right]|done|destruct Hr as [[-> _]| ->]; [by left|by right]].
    rewrite trim_none by done. destruct Hr as [[-> ->]| ->]; done.
Qed.

(** A challenge is parsed into its parameters. *)
Lemma digest_params_ok l : forall fuel sp ps, Forall wf_param l -> Forall (fun c => isspace c = true) sp -> (length l < fuel)%nat ->
  digest_params fuel (sp ++ print_challenge l) ps = Ok (foldl (fun ps q => assign ps (pname q) (pvalue q)) ps l).
Proof.
  induction l as [|q l IH]; intros fuel sp ps Hl Hsp Hf; (destruct fuel as [|fuel]; [cbn in Hf; lia|]); cbn [digest_params].
  - cbn [print_challenge]. unfold extract_param. rewrite (skip_while_app isspace sp []) by (done || by left). done.
  - apply Forall_cons in Hl as [Hq Hl]. destruct l as [|q' l].
    + cbn [print_challenge]. rewrite <- (app_nil_r (print_param q)), (extract_ok q sp [] []) by (done || by left).
      destruct fuel as [|fuel]; [cbn in Hf; lia|]. done.
    + change (print_challenge (q :: q' :: l)) with (print_param q ++ chars ", " ++ print_challenge (q' :: l)).
      rewrite (extract_ok q sp (chars ", " ++ print_challenge (q' :: l)) (32 :: print_challenge (q' :: l))) by (done || by right).
      apply (IH fuel [32]); [done|by repeat constructor|cbn in *; lia].
Qed.

Lemma length_challenge l : Forall wf_param l -> (length l <= length (print_challenge l))%nat.
Proof.
  induction 1 as [|q l Hq Hl IH]; [done|]. assert (1 <= length (print_param q))%nat as Hp.
  { unfold print_param. rewrite !length_app. cbn. lia. }
  destruct l as [|q' l]; [cbn in *; lia|]. cbn [print_challenge] in *. rewrite !length_app. cbn [length] in *. lia.
Qed.

(** ** Names *)
Lemma tolower_zero c : tolower c = 0 <-> c = 0.
Proof. unfold tolower. case_if; lia. Qed.

(** A comparison over the length of the name is whether it begins the other. *)
Lemma strncasecmp_prefix name : forall key, Forall (fun c => c <> 0) name -> Forall (fun c => tolower c = c) key ->
  strncasecmp_eq (length name) name key = bool_decide (lower name `prefix_of` key).
Proof.
  induction name as [|c name IH]; intros key Hn Hk; cbn [length strncasecmp_eq lower map].
  { rewrite bool_decide_eq_true_2; [done|apply prefix_nil]. }
  apply Forall_cons in Hn as [Hc Hn]. cbn [at_ptr tl]. destruct key as [|k key]; cbn [at_ptr tl].
  - rewrite (proj2 (Z.eqb_neq _ _)); [|change (tolower 0) with 0; by rewrite tolower_zero].
    rewrite bool_decide_eq_false_2; [done|]. by intros ?%prefix_nil_not.
  - apply Forall_cons in Hk as [Ek Hk]. rewrite Ek. destruct (tolower c =? k) eqn:E; zify_bool.
    + apply Z.eqb_neq in Hc as ->. rewrite IH by done. fold (lower name). apply bool_decide_ext. rewrite E. split; [apply prefix_cons|apply prefix_cons_inv_2].
    + rewrite bool_decide_eq_false_2; [done|]. by intros ?%prefix_cons_inv_1.
Qed.

(** A comparison beyond the end of the other is equality. *)
Lemma strncasecmp_equal n : forall s k, Forall (fun c => c <> 0) s -> Forall (fun c => tolower c = c /\ c <> 0) k -> n = S (length k) ->
  strncasecmp_eq n s k = bool_decide (lower s = k).
Proof.
  induction n as [|n IH]; intros s k Hs Hk Hn; [done|]. cbn [strncasecmp_eq]. destruct k as [|c k].
  - injection Hn as ->. destruct s as [|x s]; [done|]. apply Forall_cons in Hs as [Hx _]. cbn [at_ptr].
    rewrite (proj2 (Z.eqb_neq _ _)); [by rewrite bool_decide_eq_false_2|]. change (tolower 0) with 0. by rewrite tolower_zero.
  - injection Hn as Hn. apply Forall_cons in Hk as [[Ec Hc] Hk]. destruct s as [|x s]; cbn [at_ptr tl lower map]; rewrite Ec.
    + change (tolower 0) with 0. rewrite (proj2 (Z.eqb_neq _ _)) by done. by rewrite bool_decide_eq_false_2.
    + apply Forall_cons in Hs as [Hx Hs]. apply Z.eqb_neq in Hx as ->. fold (lower s). rewrite (IH s k) by done.
      destruct (tolower x =? c) eqn:E; zify_bool; [|rewrite bool_decide_eq_false_2; [done|congruence]]. apply bool_decide_ext. rewrite E.
      split; [by intros ->|by intros [= ->]].
Qed.
Lemma strncasecmp_auth q : Forall (fun c => c <> 0) q -> strncasecmp_eq 5 q (chars "auth") = bool_decide (lower q = chars "auth").
Proof. intros Hq. apply strncasecmp_equal; [done| |done]. change (chars "auth") with [97; 117; 116; 104]. by repeat constructor. Qed.

(** None of the names of the RFC begins another one. *)
Lemma named_ok name key : Forall (fun c => c <> 0) name -> lower name ∈ rfc_names -> key ∈ rfc_names ->
  strncasecmp_eq (length name) name key = bool_decide (lower name = key).
Proof.
  intros Hn Hl Hk. rewrite strncasecmp_prefix; [|done|].
  - assert (forall a b, a ∈ rfc_names -> b ∈ rfc_names -> bool_decide (a `prefix_of` b) = bool_decide (a = b)) as H; [|by apply H].
    assert (Forall (fun a => Forall (fun b => bool_decide (a `prefix_of` b) = bool_decide (a = b)) rfc_names) rfc_names) as Hall
      by (repeat (constructor; [repeat (constructor; [vm_compute; reflexivity|]); constructor|]); constructor).
    intros a b Ha Hb. rewrite Forall_forall in Hall. specialize (Hall a Ha). rewrite Forall_forall in Hall. by apply Hall.
  - assert (Forall (fun k => Forall (fun c => tolower c = c) k) rfc_names) as Hall by (repeat (constructor; [repeat (constructor; [reflexivity|]); constructor|]); constructor).
    rewrite Forall_forall in Hall. by apply Hall.
Qed.

Definition known (q : param) : Prop := wf_param q /\ lower (pname q) ∈ rfc_names.

Lemma wf_name_nonzero q : wf_param q -> Forall (fun c => c <> 0) (pname q).
Proof. intros (_ & Hn & _). apply (Forall_impl _ _ _ Hn). by intros c (? & _)%name_char_spec. Qed.
Lemma wf_value_nonzero q : wf_param q -> Forall (fun c => c <> 0) (pvalue q).
Proof.
  intros (_ & _ & Hv). destruct (pquoted q); [apply (Forall_impl _ _ _ Hv); naive_solver|].
  destruct Hv as [_ Hv]. apply (Forall_impl _ _ _ Hv). by intros c (? & _)%name_char_spec.
Qed.

Lemma assign_ok x r o n q : known x ->
  assign (mkParams r o n q) (pname x) (pvalue x) =
  let upd key (d : option (list Z)) := if bool_decide (lower (pname x) = key) then Some (pvalue x) else d in
  mkParams (upd (chars "realm") r) (upd (chars "opaque") o) (upd (chars "nonce") n) (upd (chars "qop") q).
Proof.
  intros [Hw Hk]. pose proof (wf_name_nonzero x Hw) as Hz. unfold assign.
  rewrite !named_ok by (done || (unfold rfc_names; set_solver)). cbn [realm opaque nonce qop].
  destruct (decide (lower (pname x) = chars "realm")) as [->|E1]; [done|]. rewrite (bool_decide_eq_false_2 _ E1).
  destruct (decide (lower (pname x) = chars "opaque")) as [->|E2]; [done|]. rewrite (bool_decide_eq_false_2 _ E2).
  destruct (decide (lower (pname x) = chars "nonce")) as [->|E3]; [done|]. rewrite (bool_decide_eq_false_2 _ E3).
  by case_bool_decide.
Qed.
Lemma assigned_ok l : forall r o n q, Forall known l ->
  foldl (fun ps q => assign ps (pname q) (pvalue q)) (mkParams r o n q) l =
  let last key (d : option (list Z)) := foldl (fun r q => if bool_decide (lower (pname q) = key) then Some (pvalue q) else r) d l in
  mkParams (last (chars "realm") r) (last (chars "opaque") o) (last (chars "nonce") n) (last (chars "qop") q).
Proof.
  induction l as [|x l IH]; intros r o n q Hl; [done|]. apply Forall_cons in Hl as [Hx Hl]. cbn [foldl]. by rewrite assign_ok, IH.
Qed.

(** The parameters of a challenge, by name. *)
Lemma challenge_ok l : Forall known l ->
  digest_params (S (length (print_challenge l))) (print_challenge l) (mkParams None None None None) =
  Ok (mkParams (value_of (chars "realm") l) (value_of (chars "opaque") l) (value_of (chars "nonce") l) (value_of (chars "qop") l)).
Proof.
  intros Hl. assert (Forall wf_param l) as Hw by (apply (Forall_impl _ _ _ Hl); by intros q []).
  rewrite (digest_params_ok l _ [] _ Hw); [|constructor|pose proof (length_challenge l Hw); lia]. f_equal. by rewrite assigned_ok.
Qed.

Lemma value_of_some key l v : value_of key l = Some v -> exists q, q ∈ l /\ pvalue q = v.
Proof.
  unfold value_of. assert (forall d, foldl (fun r q => if bool_decide (lower (pname q) = key) then Some (pvalue q) else r) d l = Some v ->
    d = Some v \/ exists q, q ∈ l /\ pvalue q = v) as H.
  { induction l as [|x l IH]; intros d Hd; cbn in Hd; [by left|]. apply IH in Hd as [Hd|(q & Hq & Hv)]; [|right; exists q; by split; [right|]].
    case_bool_decide; [|by left]. right. exists x. split; [by left|congruence]. }
  intros Hv. by destruct (H None Hv).
Qed.

(** ** The result *)
Lemma length_rfc_md5 msg : length (rfc_md5 msg) = 16%nat.
Proof. unfold rfc_md5. by rewrite !length_app, !length_le_bytes. Qed.
Lemma dump_hash_ok msg : dump_hash (rfc_md5 msg) = hexes (rfc_md5 msg).
Proof. unfold dump_hash, hexes. by rewrite firstn_all2 by (by rewrite length_rfc_md5). Qed.
Lemma length_hexes l : length (hexes l) = (2 * length l)%nat.
Proof. unfold hexes. induction l as [|x l IH]; [done|]. cbn [flat_map hex2 app length]. lia. Qed.

(** Strings that are so short that nothing overflows. *)
Definition short (s : list Z) : Prop := Zlen s <= 2 ^ 27.

(** The estimate of the length is enough for every parameter. *)
Lemma print_result_ok user realm nonce path response nc cnonce qop opaque :
  short user -> short realm -> short nonce -> short path -> short response -> short nc -> short cnonce ->
  (forall q, qop = Some q -> short q) -> (forall o, opaque = Some o -> short o) ->
  print_result user realm nonce path response nc cnonce qop opaque =
  Ok (rfc_credentials user realm nonce path response qop nc cnonce opaque).
Proof.
  unfold short. intros H1 H2 H3 H4 H5 H6 H7 H8 H9. unfold print_result, rfc_credentials.
  assert (forall q, qop = Some q -> Zlen q <= 2 ^ 27) as Hq by done. assert (forall q, opaque = Some q -> Zlen q <= 2 ^ 27) as Ho by done.
  destruct qop as [q|], opaque as [o|]; cbn [Zlen_opt].
  all: try specialize (Hq _ eq_refl); try specialize (Ho _ eq_refl).
  all: rewrite (proj2 (Z.leb_le _ INT_MAX)) by (unfold INT_MAX; lia); cbn [ASSERT mbind outcome_bind].
  all: rewrite !(proj2 (Z.leb_le _ _)) by (rewrite !length_app; cbn [length chars map list_ascii_of_string]; lia); cbn [ASSERT mbind outcome_bind].
  all: f_equal; rewrite <- !app_assoc; cbn [app]; rewrite ?app_nil_r; done.
Qed.

Lemma md5_short datas ctx : length ctx = 64%nat -> Forall short datas ->
  exists pms, md5_digest datas ctx = Ok (pms, rfc_md5 (concat datas)) /\ length (buf pms) = 64%nat.
Proof.
  intros Hc Hd. apply md5_digest_ok; [done|]. apply (Forall_impl _ _ _ Hd). unfold short, INT_MAX. intros d Hs. lia.
Qed.

Lemma digest_response user passwd method path realm nonce cnonce count qop ctx :
  length ctx = 64%nat -> short user -> short passwd -> short method -> short path -> short realm -> short nonce -> short cnonce ->
  (forall q, qop = Some q -> short q) ->
  exists c1 c2 c3 a1 a2, md5_digest [user; chars ":"; realm; chars ":"; passwd] ctx = Ok (c1, a1) /\
    md5_digest [method; chars ":"; path] (buf c1) = Ok (c2, a2) /\
    md5_digest ([dump_hash a1; chars ":"; nonce; chars ":"] ++
      match qop with Some q => [hex8 count; chars ":"; cnonce; chars ":"; q; chars ":"] | None => [] end ++ [dump_hash a2]) (buf c2) =
    Ok (c3, rfc_md5 (hexes (rfc_md5 (user ++ chars ":" ++ realm ++ chars ":" ++ passwd)) ++ chars ":" ++ nonce ++ chars ":" ++
      match qop with Some q => hex8 count ++ chars ":" ++ cnonce ++ chars ":" ++ q ++ chars ":" | None => [] end ++
      hexes (rfc_md5 (method ++ chars ":" ++ path)))).
Proof.
  intros Hc H1 H2 H3 H4 H5 H6 H7 H8. assert (short (chars ":")) as Hcol by done.
  assert (forall m, short (hexes (rfc_md5 m))) as Hhex by (intros m; unfold short; rewrite length_hexes, length_rfc_md5; lia).
  assert (short (hex8 count)) as H8' by done.
  destruct (md5_short [user; chars ":"; realm; chars ":"; passwd] ctx Hc) as (c1 & E1 & L1); [by repeat constructor|].
  destruct (md5_short [method; chars ":"; path] (buf c1) L1) as (c2 & E2 & L2); [by repeat constructor|].
  cbn [concat] in E1, E2. rewrite app_nil_r in E1, E2.
  set (a1 := hexes (rfc_md5 (user ++ chars ":" ++ realm ++ chars ":" ++ passwd))). set (a2 := hexes (rfc_md5 (method ++ chars ":" ++ path))).
  destruct (md5_short ([a1; chars ":"; nonce; chars ":"] ++ match qop with Some q => [hex8 count; chars ":"; cnonce; chars ":"; q; chars ":"] | None => [] end ++ [a2]) (buf c2) L2) as (c3 & E3 & _).
  { destruct qop as [q|]; [specialize (H8 q eq_refl)|]; cbn [app]; repeat (constructor; [by (done || apply Hhex)|]); constructor. }
  eexists c1, c2, c3, _, _. split; [exact E1|]. split; [exact E2|]. rewrite !dump_hash_ok. fold a1 a2.
  rewrite E3. do 3 f_equal.
  destruct qop as [q|]; cbn [concat app]; by rewrite ?app_nil_r, <- ?app_assoc.
Qed.

(** *** Any challenge *)
Lemma length_skip f p : (length (take_while f p) + length (skip_while f p) = length p)%nat.
Proof. by rewrite <- length_app, skip_take. Qed.
Lemma length_tl (p : list Z) : (length (tl p) <= length p)%nat.
Proof. destruct p; cbn; lia. Qed.
Lemma length_trim l : (length (rev (skip_while isspace (rev l))) <= length l)%nat.
Proof. rewrite length_rev. pose proof (length_skip isspace (rev l)). rewrite length_rev in H. lia. Qed.

(** A value is part of the source, and what follows is shorter. *)
Lemma extract_short source separator name value rest : extract_param source separator = Some (name, value, rest) ->
  (length value <= length source)%nat /\ (length rest < length source)%nat.
Proof.
  unfold extract_param. pose proof (length_skip isspace source) as L0. destruct (skip_while isspace source) as [|c p0] eqn:E; [done|]. set (p := c :: p0) in *.
  set (in_name := fun c => _). pose proof (length_skip in_name p) as L1.
  destruct (Zlen (take_while in_name p) =? 0) eqn:En; zify_bool; [done|]. set (q := skip_while in_name p) in *.
  pose proof (length_skip isspace q) as L2. set (r := skip_while isspace q) in *. pose proof (length_tl r) as L3.
  destruct (_ || _); [intros [= <- <- <-]; cbn [length]; case_match; lia|]. destruct (negb _); [done|].
  pose proof (length_skip isspace (tl r)) as L4. set (s := skip_while isspace (tl r)) in *. pose proof (length_tl s) as L5.
  destruct (at_ptr s =? QUOTE).
  - set (in_value := fun c => negb (c =? QUOTE)). pose proof (length_skip in_value (tl s)) as L6.
    destruct (skip_while in_value (tl s)) as [|c' u] eqn:Eu; [done|]. cbn [length] in L6.
    pose proof (length_skip isspace u) as L7. set (in_param := fun c => negb (c =? separator)). pose proof (length_skip in_param (skip_while isspace u)) as L8.
    set (v := skip_while in_param (skip_while isspace u)) in *. pose proof (length_tl v).
    destruct (_ =? separator); [|destruct (negb _); [done|]]; intros [= <- <- <-]; lia.
  - set (in_param := fun c => negb (c =? separator)). pose proof (length_skip in_param s) as L6. pose proof (length_trim (take_while in_param s)).
    pose proof (length_tl (skip_while in_param s)). intros [= <- <- <-]. case_match; lia.
Qed.

Definition short_params (ps : params) : Prop := forall s, realm ps = Some s \/ opaque ps = Some s \/ nonce ps = Some s \/ qop ps = Some s -> short s.
Lemma short_assign ps name value : short_params ps -> short value -> short_params (assign ps name value).
Proof. unfold short_params, assign. intros Hp Hv. repeat case_match; cbn; naive_solver. Qed.

Lemma digest_params_total fuel : forall ptr ps, (length ptr < fuel)%nat -> short ptr -> short_params ps ->
  exists ps', digest_params fuel ptr ps = Ok ps' /\ short_params ps'.
Proof.
  induction fuel as [|fuel IH]; intros ptr ps Hf Hs Hp; [lia|]. cbn [digest_params].
  destruct (extract_param ptr COMMA) as [[[name value] rest]|] eqn:E; [|by exists ps]. apply extract_short in E as [? ?].
  unfold short in *. apply IH; [lia|unfold short; lia|]. apply short_assign; [done|]. unfold short. lia.
Qed.

(** Whatever the challenge, nothing is written outside the memory. *)
Lemma digest_total ctx line user passwd method path count cnonce :
  length ctx = 64%nat -> short line -> short user -> short passwd -> short method -> short path -> short cnonce ->
  exists r, digest_authentication_encode ctx line (Some user) (Some passwd) (Some method) (Some path) count cnonce = Ok r.
Proof.
  intros Hc Hl H1 H2 H3 H4 H5. unfold digest_authentication_encode.
  destruct (digest_params_total (S (length line)) line (mkParams None None None None)) as ([rl o nn q] & -> & Hp); [lia|done|by intros s [|[|[]]]|].
  cbn [mbind outcome_bind realm nonce qop opaque]. destruct rl as [rl|]; [|by eexists]. destruct nn as [nn|]; [|by eexists].
  assert (short rl /\ short nn) as [Hr Hn] by (split; apply Hp; cbn; tauto).
  assert (forall s, q = Some s -> short s) as Hq by (intros s ->; apply Hp; cbn; tauto).
  assert (forall s, o = Some s -> short s) as Ho by (intros s ->; apply Hp; cbn; tauto).
  destruct (match q with Some q => negb _ | None => false end); [by eexists|].
  destruct (digest_response user passwd method path rl nn cnonce count q ctx) as (c1 & c2 & c3 & a1 & a2 & -> & E2 & E3); try done.
  cbn [mbind outcome_bind]. rewrite E2. cbn [mbind outcome_bind]. rewrite E3. cbn [mbind outcome_bind]. rewrite dump_hash_ok, print_result_ok; [by eexists|done..| |done|done|done|done].
  unfold short. rewrite length_hexes, length_rfc_md5. lia.
Qed.

(** The credentials of the Basic scheme. *)
Lemma basic_ok user passwd : Forall (fun c => 0 < c < 256) user -> Forall (fun c => 0 < c < 256) passwd -> Zlen user + Zlen passwd < 2 ^ 29 ->
  basic_authentication_encode user passwd = Ok (Some (rfc4648 (user ++ chars ":" ++ passwd))).
Proof.
  intros Hu Hp Hl. assert (bytes (user ++ chars ":" ++ passwd)) as Hb.
  { rewrite !Forall_app. split_and!; [apply (Forall_impl _ _ _ Hu); unfold is_byte; lia|by repeat constructor|apply (Forall_impl _ _ _ Hp); unfold is_byte; lia]. }
  unfold basic_authentication_encode. rewrite base64_encode_ok by done. rewrite Z.ltb_irrefl, orb_false_r, (proj2 (Z.leb_gt _ _)).
  - cbn. rewrite take_while_app; [done| |by right]. apply (Forall_impl _ _ _ (rfc4648_nonzero _ Hb)). intros c Hc. by apply negb_true_iff, Z.eqb_neq.
  - rewrite !length_app. cbn [length chars map list_ascii_of_string]. change (Base64.UINT_MAX / 4) with 1073741823. lia.
Qed.

(** What is sent for every challenge, whatever algorithm it names. *)
Lemma digest_plain ctx l user passwd method path count cnonce :
  length ctx = 64%nat -> Forall known l -> Forall (fun q => short (pvalue q)) l ->
  short user -> short passwd -> short method -> short path -> short cnonce ->
  digest_authentication_encode ctx (print_challenge l) (Some user) (Some passwd) (Some method) (Some path) count cnonce =
  Ok match value_of (chars "realm") l, value_of (chars "nonce") l with
     | Some realm, Some nonce =>
         let qop := value_of (chars "qop") l in
         if match qop with Some q => bool_decide (lower q = chars "auth") | None => true end then
           let qop_part := match qop with Some q => hex8 count ++ chars ":" ++ cnonce ++ chars ":" ++ q ++ chars ":" | None => [] end in
           Some (rfc_credentials user realm nonce path (request_digest user realm passwd method path nonce qop_part)
                   qop (hex8 count) cnonce (value_of (chars "opaque") l))
         else None
     | _, _ => None
     end.
Proof.
  intros Hc Hl Hs H1 H2 H3 H4 H5. unfold digest_authentication_encode. rewrite challenge_ok by done. cbn [mbind outcome_bind realm nonce qop opaque].
  assert (forall key v, value_of key l = Some v -> short v /\ Forall (fun c => c <> 0) v) as Hv.
  { intros key v (q & Hq & <-)%value_of_some. rewrite Forall_forall in Hs, Hl. split; [by apply Hs|]. by apply wf_value_nonzero, Hl. }
  destruct (value_of (chars "realm") l) as [rl|] eqn:Er; [|done]. destruct (value_of (chars "nonce") l) as [nn|] eqn:En; [|done].
  pose proof (Hv _ _ Er) as [Hr _]. pose proof (Hv _ _ En) as [Hn _].
  assert (forall q, value_of (chars "qop") l = Some q -> short q) as Hq by (by intros q [? _]%Hv).
  assert (forall q, value_of (chars "opaque") l = Some q -> short q) as Ho by (by intros q [? _]%Hv).
  assert (match value_of (chars "qop") l with Some q => negb (strncasecmp_eq 5 q (chars "auth")) | None => false end =
    negb match value_of (chars "qop") l with Some q => bool_decide (lower q = chars "auth") | None => true end) as ->.
  { destruct (value_of (chars "qop") l) as [q|] eqn:Eq; [|done]. rewrite strncasecmp_auth; [done|]. by apply (Hv _ _ Eq). }
  cbv zeta. destruct (match value_of (chars "qop") l with Some q => _ | None => true end); cbn [negb]; [|done].
  destruct (digest_response user passwd method path rl nn cnonce count (value_of (chars "qop") l) ctx) as (c1 & c2 & c3 & a1 & a2 & -> & E2 & E3); try done.
  cbn [mbind outcome_bind]. rewrite E2. cbn [mbind outcome_bind]. rewrite E3. cbn [mbind outcome_bind]. rewrite dump_hash_ok.
  rewrite print_result_ok; done.
Qed.

(** C23: For every challenge that is a list of parameters of RFC 2617 (names in
    any case, values quoted or not) and whose algorithm is MD5, named or by
    default, [digest_authentication_encode] returns the credentials of the RFC:
    realm, nonce, opaque and qop are the last values the challenge gives, the
    response is the request digest over the MD5 of RFC 1321 with the nonce count
    and the client nonce if there is a qop, and the text fits in the memory that
    is allocated for it. It returns NULL exactly when the realm or the nonce is
    missing or the qop is not the single value [auth]. Other algorithms are
    answered as if they were MD5: see [sess_as_md5] and [unknown_as_md5]. *)
Theorem digest_rfc2617 ctx l user passwd method path count cnonce :
  length ctx = 64%nat -> Forall known l -> Forall (fun q => short (pvalue q)) l ->
  short user -> short passwd -> short method -> short path -> short cnonce ->
  (forall a, value_of (chars "algorithm") l = Some a -> lower a = chars "md5") ->
  digest_authentication_encode ctx (print_challenge l) (Some user) (Some passwd) (Some method) (Some path) count cnonce =
  Ok (rfc_answer l user passwd method path (hex8 count) cnonce).
Proof.
  intros Hc Hl Hs H1 H2 H3 H4 H5 Ha. rewrite (digest_plain ctx l user passwd method path count cnonce) by done.
  unfold rfc_answer. destruct (value_of (chars "realm") l) as [rl|], (value_of (chars "nonce") l) as [nn|]; try done.
  cbv zeta. assert (rfc_a1 (value_of (chars "algorithm") l) user rl passwd nn cnonce =
    Some (user ++ chars ":" ++ rl ++ chars ":" ++ passwd)) as ->; [|done].
  unfold rfc_a1. destruct (value_of (chars "algorithm") l) as [a|]; [|done].
  by rewrite bool_decide_eq_true_2 by (by apply Ha).
Qed.

(** The challenge of the example in section 3.5 of RFC 2617. *)
Definition example_challenge : list param :=
  [mkParam (chars "realm") (chars "testrealm@host.com") true; mkParam (chars "QOP") (chars "auth") true;
   mkParam (chars "nonce") (chars "dcd98b7102dd2f0e8b11d0f600bfb0c093") true; mkParam (chars "algorithm") (chars "MD5") false;
   mkParam (chars "opaque") (chars "5ccc069c403ebaf9f0171e9517f40e41") true].

Lemma digest_rfc2617_witness :
  digest_authentication_encode (repeat 0 64) (print_challenge example_challenge) (Some (chars "Mufasa")) (Some (chars "Circle Of Life"))
    (Some (chars "GET")) (Some (chars "/dir/index.html")) 1 (chars "0a4f113b") =
  Ok (Some (rfc_credentials (chars "Mufasa") (chars "testrealm@host.com") (chars "dcd98b7102dd2f0e8b11d0f600bfb0c093") (chars "/dir/index.html")
    (chars "6629fae49393a05397450978507c4ef1") (Some (chars "auth")) (chars "00000001") (chars "0a4f113b") (Some (chars "5ccc069c403ebaf9f0171e9517f40e41")))).
Proof.
  rewrite (digest_rfc2617 (repeat 0 64) example_challenge (chars "Mufasa") (chars "Circle Of Life") (chars "GET") (chars "/dir/index.html") 1 (chars "0a4f113b")).
  - vm_compute. reflexivity.
  - reflexivity.
  - unfold example_challenge, known, wf_param.
    repeat (constructor; [split; [split; [discriminate|split; [by repeat (constructor; [reflexivity|])|cbn; first [by repeat (constructor; [split; discriminate|])|split; [discriminate|by repeat (constructor; [reflexivity|])]]]]|
      unfold rfc_names; vm_compute; set_solver]|]). constructor.
  - unfold example_challenge, short. repeat (constructor; [vm_compute; discriminate|]). constructor.
  - vm_compute; discriminate.
  - vm_compute; discriminate.
  - vm_compute; discriminate.
  - vm_compute; discriminate.
  - vm_compute; discriminate.
  - intros a Ha. vm_compute in Ha. injection Ha as <-. reflexivity.
Defined.

(** *** What the code takes *)

(** The parameter [algorithm] is not read: a challenge of MD5-sess gets the
    digest of MD5, which is not the one of the RFC, and one of an algorithm that
    MD5 cannot answer gets it as well. *)
Definition challenge_with (algorithm : string) : list param :=
  [mkParam (chars "realm") (chars "r") true; mkParam (chars "nonce") (chars "n") true;
   mkParam (chars "qop") (chars "auth") true; mkParam (chars "algorithm") (chars algorithm) false].
Definition encode_example (algorithm : string) : outcome (option (list Z)) :=
  digest_authentication_encode (repeat 0 64) (print_challenge (challenge_with algorithm)) (Some (chars "u")) (Some (chars "p"))
    (Some (chars "GET")) (Some (chars "/")) 1 (chars "c").
Definition rfc_example (algorithm : string) : option (list Z) :=
  rfc_answer (challenge_with algorithm) (chars "u") (chars "p") (chars "GET") (chars "/") (hex8 1) (chars "c").

Lemma sess_as_md5 : encode_example "MD5-sess" = Ok (rfc_example "MD5") /\
  bool_decide (rfc_example "MD5-sess" = rfc_example "MD5") = false.
Proof. split; vm_compute; reflexivity. Qed.
Lemma unknown_as_md5 : encode_example "SHA-256" = Ok (rfc_example "MD5") /\ rfc_example "SHA-256" = None.
Proof. split; vm_compute; reflexivity. Qed.

(** What follows a closing quote is skipped up to the next separator. *)
Lemma garbage_accepted : extract_param (chars "foo=" ++ [QUOTE] ++ chars "bar" ++ [QUOTE] ++ chars "baz, x") COMMA =
  Some (chars "foo", chars "bar", chars " x").
Proof. reflexivity. Qed.

(** A name is taken for the first known name it begins. *)
Lemma short_name_taken v : assign (mkParams None None None None) (chars "n") v = mkParams None None (Some v) None.
Proof. reflexivity. Qed.

(** A proxy that offers both values of qop gets no credentials. *)
Lemma qop_list_refused user passwd : digest_authentication_encode (repeat 0 64)
  (print_challenge [mkParam (chars "realm") (chars "r") true; mkParam (chars "nonce") (chars "n") true; mkParam (chars "qop") (chars "auth,auth-int") true])
  (Some user) (Some passwd) (Some (chars "GET")) (Some (chars "/")) 1 [] = Ok None.
Proof. reflexivity. Qed.

End HttpAuth.
