(* ===== verification/HttpConnect.v ===== *)
(** How redsocks asks an HTTP proxy for a connection (redsocks/http-connect.c):
    the CONNECT request with credentials, the reply read line by line from the
    buffered connection to the proxy, the second attempt after a challenge, and
    the forwarding of error replies to the client. *)
From Stdlib Require Import ZArith Lia String Ascii.
From stdpp Require Import base tactics numbers option list.
From S2P Require Import Prelude Base64 Md5 HttpAuth.

Module HttpConnect.
Import Base64(chars).
Import HttpAuth.

Inductive httpc_state := httpc_new | httpc_request_sent | httpc_reply_came | httpc_headers_skipped | httpc_no_way.
#[global] Instance httpc_state_eq_dec : EqDecision httpc_state.
Proof. solve_decision. Defined.
Definition HTTP_HEAD_WM_HIGH : Z := 4096.

Inductive disclose_src_e := DISCLOSE_NONE | DISCLOSE_X_FORWARDED_FOR | DISCLOSE_FORWARDED_IP | DISCLOSE_FORWARDED_IPPORT.
(** The configuration, with the addresses as they are printed. *)
Record config := mkConfig {
  login : option (list Z); password : option (list Z); forward_http_err : bool; disclose_src : disclose_src_e;
  dest_ip : list Z; dest_port : list Z; client_ip : list Z; client_port : list Z
}.

(** [http_auth], kept by the instance for all of its clients. *)
Record http_auth := mkAuth { last_auth_query : option (list Z); last_auth_count : Z }.

(** The client: the bytes that arrived from the proxy, those that were read,
    what was sent to it, whether reading from it is enabled; what was read from the
    client and written to it; the shutdown state of both; whether the relay
    is connected. *)
Record client := mkClient {
  cstate : httpc_state; auth : http_auth;
  arrived : list Z; input : list Z; sent : list Z; reading : bool;
  client_input : list Z; client_output : list Z;
  client_shut : bool * bool; relay_shut : bool * bool
}.
Definition set_state s c := mkClient s (auth c) (arrived c) (input c) (sent c) (reading c) (client_input c) (client_output c) (client_shut c) (relay_shut c).
Definition set_auth a c := mkClient (cstate c) a (arrived c) (input c) (sent c) (reading c) (client_input c) (client_output c) (client_shut c) (relay_shut c).
Definition set_input i c := mkClient (cstate c) (auth c) (arrived c) i (sent c) (reading c) (client_input c) (client_output c) (client_shut c) (relay_shut c).
Definition set_client i o c := mkClient (cstate c) (auth c) (arrived c) (input c) (sent c) (reading c) i o (client_shut c) (relay_shut c).
Definition set_shut x y c := mkClient (cstate c) (auth c) (arrived c) (input c) (sent c) (reading c) (client_input c) (client_output c) x y.

(** What a callback leaves: the client goes on, was dropped, is relayed, or the
    relay is connected again; [Stuck] is a failed assertion. *)
Inductive flow := Go (c : client) | Dropped (c : client) | Relaying (c : client) | Reconnect (c : client) | Stuck.

Section with_config.
Context (cfg : config).
(** The memory of the hash, and the random number of a request with its count. *)
Context (ctx : list Z) (cnonce : Z -> list Z).

Definition shut_both (c : client) : bool :=
  fst (relay_shut c) && snd (relay_shut c) && (fst (client_shut c) && snd (client_shut c)).

(** ** The request *)
Definition httpc_mkconnect (c : client) : outcome (list Z * http_auth) :=
  let a := mkAuth (last_auth_query (auth c)) (last_auth_count (auth c) + 1) in
  (match last_auth_query a with
   | None => Ok None
   | Some query =>
       if strncasecmp_eq 5 query (chars "Basic") then
         of_option (login cfg) ≫= fun login =>
         of_option (password cfg) ≫= fun password =>
         basic_authentication_encode login password ≫= fun r : option (list Z) => Ok ((fun s => (chars "Basic", s)) <$> r)
       else if strncasecmp_eq 6 query (chars "Digest") then
         (* the parameters are read 7 characters after the start of the query *)
         ASSERT (7 <=? Zlen query);;
         let uri := take 127 (dest_ip cfg ++ chars ":" ++ dest_port cfg) in
         digest_authentication_encode ctx (drop 7 query) (login cfg) (password cfg) (Some (chars "CONNECT")) (Some uri)
           (last_auth_count a) (cnonce (last_auth_count a)) ≫= fun r : option (list Z) => Ok ((fun s => (chars "Digest", s)) <$> r)
       else Ok None
   end) ≫= fun auth_string : option (list Z * list Z) =>
  let buff := chars "CONNECT " ++ dest_ip cfg ++ chars ":" ++ dest_port cfg ++ chars " HTTP/1.0" ++ CRLF in
  let buff := buff ++ match auth_string with
    | Some (scheme, s) => auth_response_header ++ chars " " ++ scheme ++ chars " " ++ s ++ CRLF
    | None => []
    end in
  let buff := buff ++ match disclose_src cfg with
    | DISCLOSE_NONE => []
    | DISCLOSE_X_FORWARDED_FOR => chars "X-Forwarded-For: " ++ client_ip cfg ++ CRLF
    | DISCLOSE_FORWARDED_IP => chars "Forwarded: for=" ++ client_ip cfg ++ CRLF
    | DISCLOSE_FORWARDED_IPPORT => chars "Forwarded: for=" ++ [QUOTE] ++ client_ip cfg ++ chars ":" ++ client_port cfg ++ [QUOTE] ++ CRLF
    end in
  Ok (buff ++ CRLF, a).

Definition httpc_write_cb (c : client) : flow :=
  match cstate c with
  | httpc_new =>
      match httpc_mkconnect c with
      | Ok (message, a) =>
          Go (mkClient httpc_request_sent a (arrived c) (input c) (sent c ++ message) true (client_input c) (client_output c) (client_shut c) (relay_shut c))
      | Fault => Stuck
      end
  | _ => Go c
  end.

(** ** The reply *)

(** [%u]: blanks, a sign, digits. *)
Definition isdigit (c : Z) : bool := (48 <=? c) && (c <=? 57).
Definition decimal (l : list Z) : Z := fold_left (fun n c => 10 * n + (c - 48)) l 0.
Definition scan_u (p : list Z) : option (Z * list Z) :=
  let p := skip_while isspace p in
  let negative := at_ptr p =? 45 in
  let p := if negative || (at_ptr p =? 43) then tl p else p in
  let digits := take_while isdigit p in
  if Zlen digits =? 0 then None
  else
    let v := Z.min (decimal digits) (2 ^ 64 - 1) in
    Some (u32 (if negative then - v else v), skip_while isdigit p).

(** [sscanf(line, "HTTP/%*u.%*u %u", &code)], if it assigns. *)
Definition scan_status (line : list Z) : option Z :=
  let http := chars "HTTP/" in
  if bool_decide (take (length http) line = http) then
    scan_u (drop (length http) line) ≫= fun '((_, p) : Z * list Z) =>
    if at_ptr p =? 46 then
      scan_u (tl p) ≫= fun '((_, p) : Z * list Z) => fst <$> scan_u (skip_while isspace p)
    else None
  else None.

(** The first line: the state it leads to, and what of the header was copied. *)
Inductive first_line := Line (s : httpc_state) (c : client) (tee : list Z) | Again (c : client) | Bad.

Definition challenged (c : client) : first_line :=
  if bool_decide (last_auth_query (auth c) <> None) && (last_auth_count (auth c) =? 1) then Line httpc_no_way c []
  else if bool_decide (login cfg = None) || bool_decide (password cfg = None) then Line httpc_no_way c []
  else
    match http_auth_request_header (S (length (input c))) (input c) [] with
    | Fault => Bad
    | Ok (None, rest, tee) => Line httpc_no_way (set_input rest c) (if forward_http_err cfg then tee else [])
    | Ok (Some auth_request, rest, _) =>
        let query := skip_while isspace (drop (length auth_request_header) auth_request) in
        Again (set_auth (mkAuth (Some query) 0) (set_input rest c))
    end.

Definition status_line (line : list Z) (c : client) : first_line :=
  match scan_status line with
  | Some code =>
      if code =? 407 then challenged c
      else if (200 <=? code) && (code <=? 299) then Line httpc_reply_came c []
      else Line httpc_no_way c []
  | None => Line httpc_no_way c []
  end.

(** Lines up to the empty one. *)
Fixpoint skip_headers (fuel : nat) (c : client) : flow :=
  match fuel with
  | O => Stuck
  | S fuel =>
      match redsocks_evbuffer_readline (input c) with
      | Some (line, rest) =>
          let c := set_input rest c in
          if Zlen line =? 0 then Relaying (set_state httpc_headers_skipped c) else skip_headers fuel c
      | None => Go c
      end
  end.

(** Shutting the reading of the client and the writing of the relay. *)
Definition shut_client_read (c : client) : flow :=
  let c := set_shut (true, snd (client_shut c)) (relay_shut c) c in if shut_both c then Dropped c else Go c.
Definition shut_relay_write (c : client) : flow :=
  let c := set_shut (client_shut c) (fst (relay_shut c), true) c in if shut_both c then Dropped c else Go c.

(** The error reply is forwarded: the header that was copied, then the relaying
    of the rest, with nothing more taken from the client. *)
Definition forward_error (tee : list Z) (c : client) : flow :=
  let c := set_client (client_input c) (client_output c ++ tee) c in
  match shut_client_read c with
  | Go c =>
      let c := set_client [] (client_output c) c in
      match shut_relay_write c with
      | Go c => Relaying (set_state httpc_headers_skipped c)
      | m => m
      end
  | m => m
  end.

Definition finish_reply (tee : list Z) (c : client) : flow :=
  match cstate c with
  | httpc_no_way => if forward_http_err cfg then forward_error tee c else Dropped c
  | httpc_reply_came => skip_headers (S (length (input c))) c
  | _ => Go c
  end.

Definition httpc_read_cb (c : client) : flow :=
  match cstate c with
  | httpc_request_sent =>
      match redsocks_evbuffer_readline (input c) with
      | Some (line, rest) =>
          match status_line line (set_input rest c) with
          | Bad => Stuck
          | Again c =>
              Reconnect (mkClient httpc_new (auth c) [] [] (sent c) false (client_input c) (client_output c) (client_shut c) (relay_shut c))
          | Line s c tee =>
              let c := set_state s c in
              let c := if forward_http_err cfg && bool_decide (s = httpc_no_way)
                       then set_client (client_input c) (client_output c ++ line ++ CRLF) c else c in
              finish_reply tee c
          end
      | None =>
          finish_reply [] (if HTTP_HEAD_WM_HIGH <=? Zlen (input c) then set_state httpc_no_way c else c)
      end
  | httpc_reply_came => finish_reply [] c
  | _ => Stuck
  end.

(** ** Events

    [Others]: other clients of the instance leave its [http_auth] as [a]. *)
Inductive event := Arrive (d : list Z) | Read (n : nat) | Eof | Writable | Others (a : http_auth).

(** The low watermark is 1, the high one [HTTP_HEAD_WM_HIGH]. *)
Definition enabled (c : client) (e : event) : Prop :=
  match e with
  | Arrive d => fst (relay_shut c) = false
  | Read n => reading c = true /\ (0 < n <= length (arrived c))%nat /\ Zlen (input c) + Z.of_nat n <= HTTP_HEAD_WM_HIGH
  | Eof => reading c = true /\ arrived c = [] /\ Zlen (input c) < HTTP_HEAD_WM_HIGH
  | Writable | Others _ => True
  end.
Definition handle (c : client) (e : event) : flow :=
  match e with
  | Arrive d => Go (mkClient (cstate c) (auth c) (arrived c ++ d) (input c) (sent c) (reading c) (client_input c) (client_output c) (client_shut c) (relay_shut c))
  | Read n => httpc_read_cb (mkClient (cstate c) (auth c) (drop n (arrived c)) (input c ++ take n (arrived c)) (sent c) (reading c)
                (client_input c) (client_output c) (client_shut c) (relay_shut c))
  | Eof => Go (mkClient (cstate c) (auth c) (arrived c) (input c) (sent c) false (client_input c) (client_output c) (client_shut c) (true, snd (relay_shut c)))
  | Writable => httpc_write_cb c
  | Others a => Go (set_auth a c)
  end.

Inductive run : flow -> list event -> flow -> Prop :=
| run_nil m : run m [] m
| run_cons c e es m : enabled c e -> run (handle c e) es m -> run (Go c) (e :: es) m.

Definition httpc_client_init (c : client) : client := set_state httpc_new c.
(** The challenge is forgotten with the instance. *)
Definition httpc_instance_fini (a : http_auth) : http_auth := mkAuth None (last_auth_count a).

(** The relay is connected: the request is written. *)
Definition connected (a : http_auth) (ci : list Z) (eof : bool) : flow :=
  httpc_write_cb (httpc_client_init (mkClient httpc_new a [] [] [] false ci [] (eof, false) (false, false))).

(** ** Specification *)

(** What becomes of the request by the bytes the proxy sends. *)
Inductive verdict := Waiting | Refused | Challenged | Granted (rest : list Z) | Overlong.

(** The next line, if it ends within the bytes that are buffered at most. *)
Definition next_line (l : list Z) : option (list Z * list Z) :=
  match split_lf l with
  | Some (a, b) => if Zlen a <? HTTP_HEAD_WM_HIGH then Some (cstring (strip_cr a), b) else None
  | None => None
  end.

Fixpoint headers (n : nat) (l : list Z) : verdict :=
  match n with
  | O => Waiting
  | S n =>
      match next_line l with
      | Some (line, rest) => if Zlen line =? 0 then Granted rest else headers n rest
      | None => if HTTP_HEAD_WM_HIGH <=? Zlen l then Overlong else Waiting
      end
  end.
Definition after_status (l : list Z) : verdict := headers (S (length l)) l.
Definition reply (l : list Z) : verdict :=
  match next_line l with
  | Some (line, rest) =>
      match scan_status line with
      | Some code => if code =? 407 then Challenged else if (200 <=? code) && (code <=? 299) then after_status rest else Refused
      | None => Refused
      end
  | None => if HTTP_HEAD_WM_HIGH <=? Zlen l then Refused else Waiting
  end.

(** The lines of [l] up to [rest], with CR LF after each. *)
Inductive forwarded : list Z -> list Z -> list Z -> Prop :=
| forwarded_nil l : forwarded l [] l
| forwarded_line l line l' out rest : redsocks_evbuffer_readline l = Some (line, l') -> forwarded l' out rest ->
    forwarded l ((line ++ CRLF) ++ out) rest.

(** The state of the instance after other clients changed it. *)
Definition auth_of (a : http_auth) (e : event) : http_auth := match e with Others a => a | _ => a end.
Definition auth_after (a : http_auth) (es : list event) : http_auth := foldl auth_of a es.

Definition stream (es : list event) : list Z := concat (map (fun e => match e with Arrive d => d | _ => [] end) es).

(** ** Lines *)
Lemma split_lf_app l m : split_lf (l ++ m) = match split_lf l with Some (a, b) => Some (a, b ++ m) | None => (fun '(a, b) => (l ++ a, b)) <$> split_lf m end.
Proof.
  induction l as [|c l IH]; cbn; [by destruct (split_lf m) as [[]|]|]. destruct (c =? LF); [done|]. rewrite IH.
  destruct (split_lf l) as [[]|]; [done|]. by destruct (split_lf m) as [[]|].
Qed.
Lemma split_lf_length l a b : split_lf l = Some (a, b) -> length l = S (length a + length b).
Proof.
  revert a. induction l as [|c l IH]; intros a; cbn; [done|]. destruct (c =? LF); [by intros [= <- <-]|].
  destruct (split_lf l) as [[a' b']|] eqn:E; [|done]. cbn. intros [= <- <-]. cbn. by rewrite (IH a').
Qed.

Lemma readline_next i l line rest : redsocks_evbuffer_readline i = Some (line, rest) -> Zlen i <= HTTP_HEAD_WM_HIGH ->
  next_line (i ++ l) = Some (line, rest ++ l) /\ (length rest < length i)%nat.
Proof.
  unfold redsocks_evbuffer_readline, next_line. intros H Hi. rewrite split_lf_app. destruct (split_lf i) as [[a b]|] eqn:E; [|done].
  cbn in H. injection H as <- <-. apply split_lf_length in E. rewrite (proj2 (Z.ltb_lt _ _)) by lia. split; [done|lia].
Qed.
Lemma readline_none_next i l : redsocks_evbuffer_readline i = None -> Zlen i = HTTP_HEAD_WM_HIGH -> next_line (i ++ l) = None.
Proof.
  unfold redsocks_evbuffer_readline, next_line. intros H Hi. rewrite split_lf_app. destruct (split_lf i) as [[a b]|]; [done|].
  destruct (split_lf l) as [[a b]|]; [|done]. cbn. rewrite (proj2 (Z.ltb_ge _ _)); [done|]. rewrite length_app. lia.
Qed.
Lemma next_line_none i : redsocks_evbuffer_readline i = None -> next_line i = None.
Proof. unfold redsocks_evbuffer_readline, next_line. by destruct (split_lf i) as [[]|]. Qed.
Lemma next_line_length l line rest : next_line l = Some (line, rest) -> (length rest < length l)%nat.
Proof.
  unfold next_line. destruct (split_lf l) as [[a b]|] eqn:E; [|done]. apply split_lf_length in E. destruct (_ <? _); [|done]. intros [= _ <-]. lia.
Qed.

Lemma headers_fuel n : forall m l, (length l < n)%nat -> (length l < m)%nat -> headers n l = headers m l.
Proof.
  induction n as [|n IH]; intros m l Hn Hm; [lia|]. destruct m as [|m]; [lia|]. cbn. destruct (next_line l) as [[line rest]|] eqn:E; [|done].
  apply next_line_length in E. destruct (_ =? 0); [done|]. apply IH; lia.
Qed.
Lemma after_status_eq l : after_status l =
  match next_line l with
  | Some (line, rest) => if Zlen line =? 0 then Granted rest else after_status rest
  | None => if HTTP_HEAD_WM_HIGH <=? Zlen l then Overlong else Waiting
  end.
Proof.
  unfold after_status at 1. cbn [headers]. destruct (next_line l) as [[line rest]|] eqn:E; [|done]. apply next_line_length in E.
  destruct (_ =? 0); [done|]. apply headers_fuel; lia.
Qed.

(** ** The callbacks *)

(** What becomes of the request from the state of the client. *)
Definition result (c : client) (l : list Z) : verdict :=
  match cstate c with httpc_reply_came => after_status l | _ => reply l end.

Lemma skip_headers_ok n : forall c l, (length (input c) < n)%nat -> Zlen (input c) <= HTTP_HEAD_WM_HIGH ->
  match skip_headers n c with
  | Go c' => c' = set_input (input c') c /\ redsocks_evbuffer_readline (input c') = None /\ Zlen (input c') <= HTTP_HEAD_WM_HIGH /\
      after_status (input c ++ l) = after_status (input c' ++ l)
  | Relaying c' => c' = set_state httpc_headers_skipped (set_input (input c') c) /\ after_status (input c ++ l) = Granted (input c' ++ l)
  | _ => False
  end.
Proof.
  induction n as [|n IH]; intros c l Hn Hi; [lia|]. cbn [skip_headers]. destruct (redsocks_evbuffer_readline (input c)) as [[line rest]|] eqn:E.
  - destruct (readline_next _ l _ _ E Hi) as [Hx Hr]. rewrite after_status_eq, Hx. destruct (Zlen line =? 0).
    + cbn. by split.
    + specialize (IH (set_input rest c) l). cbn [input set_input] in IH. specialize (IH ltac:(lia) ltac:(lia)).
      destruct (skip_headers n (set_input rest c)) as [c'|c'|c'|c'|]; try done.
  - by split_and!; [destruct c|..].
Qed.

(** Lines that were read do not depend on what follows. *)
Lemma readline_app i l line rest : redsocks_evbuffer_readline i = Some (line, rest) -> redsocks_evbuffer_readline (i ++ l) = Some (line, rest ++ l).
Proof.
  unfold redsocks_evbuffer_readline. rewrite split_lf_app. destruct (split_lf i) as [[a b]|]; [|done]. cbn. by intros [= <- <-].
Qed.
Lemma forwarded_app i out rest l : forwarded i out rest -> forwarded (i ++ l) out (rest ++ l).
Proof. induction 1 as [|i line i' out rest Hr Hf IH]; [constructor|]. econstructor; [by apply readline_app|done]. Qed.

(** The search for the challenge: the lines it has read, the challenge in the last one. *)
Lemma request_header_ok n : forall src tee, (length src < n)%nat ->
  exists r rest tee', http_auth_request_header n src tee = Ok (r, rest, tee ++ tee') /\ forwarded src tee' rest /\
    (forall line, r = Some line -> strncasecmp_eq (length auth_request_header) line auth_request_header = true /\ exists before, tee' = before ++ line ++ CRLF).
Proof.
  induction n as [|n IH]; intros src tee Hn; [lia|]. cbn [http_auth_request_header].
  destruct (redsocks_evbuffer_readline src) as [[line rest]|] eqn:E.
  - assert (length rest < length src)%nat as Hr.
    { unfold redsocks_evbuffer_readline in E. destruct (split_lf src) as [[a b]|] eqn:E'; [|done]. cbn in E. injection E as _ <-.
      apply split_lf_length in E'. lia. }
    assert (forall out rest', forwarded rest out rest' -> forwarded src ((line ++ CRLF) ++ out) rest') as Hf by (intros; by econstructor).
    assert (forwarded src (line ++ CRLF) rest) as Hl by (rewrite <- (app_nil_r (line ++ CRLF)); apply Hf; constructor).
    destruct (_ || _); [|destruct (strncasecmp_eq _ _ _) eqn:Es].
    + by exists None, rest, (line ++ CRLF).
    + exists (Some line), rest, (line ++ CRLF). split_and!; [done..|]. intros _ [= <-]. split; [done|]. by exists [].
    + destruct (IH rest (tee ++ line ++ CRLF) ltac:(lia)) as (r & rest' & tee' & -> & Hfw & Hq). exists r, rest', ((line ++ CRLF) ++ tee').
      split_and!; [by rewrite !app_assoc|by apply Hf|]. intros x Hx. destruct (Hq x Hx) as [? [before ->]]. split; [done|].
      exists ((line ++ CRLF) ++ before). by rewrite !app_assoc.
  - exists None, src, []. rewrite app_nil_r. split_and!; [done|constructor|done].
Qed.

(** The client while the proxy is asked: [req] was sent, the client's side was not touched. *)
Record inv (req : list Z) (a : http_auth) (ci : list Z) (eof : bool) (c : client) : Prop := {
  inv_state : cstate c = httpc_request_sent \/ cstate c = httpc_reply_came;
  inv_sent : sent c = req; inv_auth : auth c = a; inv_client : client_input c = ci /\ client_output c = [];
  inv_shut : client_shut c = (eof, false) /\ snd (relay_shut c) = false;
  inv_reading : reading c = negb (fst (relay_shut c));
  inv_arrived : fst (relay_shut c) = true -> arrived c = [];
  inv_input : Zlen (input c) <= HTTP_HEAD_WM_HIGH
}.
(** Every line that came was taken; the first one is not too long yet. *)
Definition quiet (c : client) : Prop :=
  redsocks_evbuffer_readline (input c) = None /\ (cstate c = httpc_request_sent -> Zlen (input c) < HTTP_HEAD_WM_HIGH).
(** The verdict on the bytes [seen], and on any that follow, is the one on what is not yet read. *)
Definition tracks (seen : list Z) (c : client) : Prop :=
  (forall l, result c (input c ++ arrived c ++ l) = reply (seen ++ l)) /\ (cstate c = httpc_request_sent -> input c ++ arrived c = seen).

(** Another attempt is allowed with credentials, unless the instance has made
    just one with a challenge. *)
Definition may_retry (a : http_auth) : Prop :=
  login cfg <> None /\ password cfg <> None /\ ~ (last_auth_query a <> None /\ last_auth_count a = 1).

(** How a request ends, when the proxy has sent [seen]. *)
Definition ended (req : list Z) (a : http_auth) (ci seen : list Z) (m : flow) : Prop :=
  match m with
  | Dropped c => sent c = req /\ client_output c = [] /\ forward_http_err cfg = false /\ (reply seen = Refused \/ reply seen = Challenged)
  | Relaying c => sent c = req /\
      (reply seen = Granted (input c ++ arrived c) /\ client_input c = ci /\ client_output c = [] \/
       (reply seen = Refused \/ reply seen = Challenged) /\ forward_http_err cfg = true /\ client_input c = [] /\ fst (client_shut c) = true /\
       snd (relay_shut c) = true /\ forwarded seen (client_output c) (input c ++ arrived c))
  | Reconnect c => sent c = req /\ reply seen = Challenged /\ may_retry a /\
      exists before line rest, forwarded seen (before ++ line ++ CRLF) rest /\
        strncasecmp_eq (length auth_request_header) line auth_request_header = true /\
        auth c = mkAuth (Some (skip_while isspace (drop (length auth_request_header) line))) 0
  | _ => False
  end.

(** What a callback leaves: the client waits for more, or the request has ended. *)
Definition settled (req : list Z) (a : http_auth) (ci : list Z) (eof : bool) (seen : list Z) (m : flow) : Prop :=
  match m with
  | Go c => inv req a ci eof c /\ quiet c /\ tracks seen c
  | m => ended req a ci seen m
  end.
Lemma ended_settled req a ci eof seen m : ended req a ci seen m -> settled req a ci eof seen m.
Proof. by destruct m. Qed.

(** A reply that is refused. *)
Lemma refused_ok req a ci seen eof c tee : cstate c = httpc_no_way -> sent c = req -> client_shut c = (eof, false) -> snd (relay_shut c) = false ->
  reply seen = Refused \/ reply seen = Challenged ->
  (if forward_http_err cfg then forwarded seen (client_output c ++ tee) (input c ++ arrived c) else client_output c = []) ->
  ended req a ci seen (finish_reply tee c).
Proof.
  intros Hn Hs Hc Hr Hv Hf. unfold finish_reply. rewrite Hn. destruct (forward_http_err cfg) eqn:Ef; [|by split_and!].
  unfold forward_error, shut_client_read, shut_relay_write, shut_both. cbn. rewrite Hc, Hr. cbn. rewrite !andb_false_r. cbn. rewrite ?andb_false_r. cbn.
  split; [done|]. right. by split_and!.
Qed.

Lemma challenged_ok req a ci eof seen line c : inv req a ci eof c -> cstate c = httpc_request_sent ->
  reply seen = Challenged -> (forall out rest, forwarded (input c ++ arrived c) out rest -> forwarded seen ((line ++ CRLF) ++ out) rest) ->
  match challenged c with
  | Bad => False
  | Again c' => ended req a ci seen (Reconnect c')
  | Line s c' tee => s = httpc_no_way /\ c' = set_input (input c') c /\
      (forward_http_err cfg = true -> forwarded seen ((line ++ CRLF) ++ tee) (input c' ++ arrived c))
  end.
Proof.
  intros Hi Hs Hv Hf. unfold challenged.
  assert (forwarded seen ((line ++ CRLF) ++ []) (input c ++ arrived c)) as Hno by (apply Hf; constructor).
  case_bool_decide as Hq; cbn [andb]; [destruct (_ =? 1) eqn:E1; [by split_and!; [|destruct c|]|]|].
  all: case_bool_decide as Hl; cbn [orb]; [by split_and!; [|destruct c|]|].
  all: case_bool_decide as Hp; cbn [orb]; [by split_and!; [|destruct c|]|].
  all: destruct (request_header_ok (S (length (input c))) (input c) []) as ([auth_request|] & rest & tee & -> & Hw & Ha); [lia|..]; cbn [app];
    apply (forwarded_app _ _ _ (arrived c)), Hf in Hw.
  all: try (split_and!; [done..|]; intros ->; exact Hw).
  all: destruct (Ha _ eq_refl) as [Hn [before ->]]; split_and!; [apply Hi|done|..].
  1, 3: rewrite <- (inv_auth _ _ _ _ _ Hi); split_and!; [done..|]; intros [? ?]; zify_bool; congruence.
  all: exists ((line ++ CRLF) ++ before), auth_request; eexists; rewrite <- app_assoc; by split_and!.
Qed.

Lemma granted_ok req a ci eof seen c : inv req a ci eof c -> cstate c = httpc_reply_came -> tracks seen c ->
  settled req a ci eof seen (finish_reply [] c).
Proof.
  intros Hi Hs [Ht _]. unfold settled, finish_reply. rewrite Hs. unfold result in Ht. rewrite Hs in Ht.
  pose proof (fun l => skip_headers_ok (S (length (input c))) c l ltac:(lia) (inv_input _ _ _ _ _ Hi)) as Hk.
  destruct (skip_headers _ c) as [c'|c'|c'|c'|]; try (by destruct (Hk [])).
  - destruct (Hk []) as (Hc & Hl & Hz & _). rewrite Hc. destruct Hi. split_and!; [by split|by split; [|rewrite Hc; cbn; rewrite Hs]|].
    split; [|cbn; by rewrite Hs]. intros l. unfold result. cbn. rewrite Hs, <- Ht. symmetry. apply Hk.
  - destruct (Hk (arrived c)) as (Hc & Hg). rewrite Hc. cbn. split; [apply Hi|]. left.
    split; [|apply Hi]. rewrite <- Hg, <- (app_nil_r seen), <- Ht. by rewrite app_nil_r.
Qed.

(** The callback takes the lines that are there, and ends the request as the bytes say. *)
Lemma httpc_read_cb_ok req a ci eof seen c : inv req a ci eof c -> tracks seen c ->
  settled req a ci eof seen (httpc_read_cb c).
Proof.
  intros Hi [Ht He]. unfold httpc_read_cb. destruct (inv_state _ _ _ _ _ Hi) as [Hs|Hs]; rewrite Hs; [|by apply granted_ok].
  specialize (He Hs). unfold result in Ht. rewrite Hs in Ht. destruct (redsocks_evbuffer_readline (input c)) as [[line rest]|] eqn:E.
  - destruct (readline_next _ (arrived c) _ _ E (inv_input _ _ _ _ _ Hi)) as [_ Hrl].
    assert (forall l, next_line (seen ++ l) = Some (line, rest ++ arrived c ++ l)) as Hn.
    { intros l. rewrite <- He, <- app_assoc. by apply (readline_next _ _ _ _ E), Hi. }
    assert (forall out rest', forwarded (rest ++ arrived c) out rest' -> forwarded seen ((line ++ CRLF) ++ out) rest') as Hf.
    { intros out rest' H. rewrite <- He. econstructor; [by apply readline_app|done]. }
    assert (inv req a ci eof (set_input rest c)) as Hi' by (destruct Hi; split; cbn in *; try done; lia).
    unfold status_line.
    assert (forall l, reply (seen ++ l) = match scan_status line with
      | Some code => if code =? 407 then Challenged else if (200 <=? code) && (code <=? 299) then after_status (rest ++ arrived c ++ l) else Refused
      | None => Refused end) as Hv by (intros l; unfold reply; by rewrite Hn).
    pose proof (Hv []) as Hv0. rewrite !app_nil_r in Hv0.
    assert (reply seen = Refused \/ reply seen = Challenged -> forall i tee, (forward_http_err cfg = true -> forwarded seen ((line ++ CRLF) ++ tee) (i ++ arrived c)) ->
      ended req a ci seen (finish_reply tee (let c := set_state httpc_no_way (set_input i c) in
        if forward_http_err cfg && true then set_client (client_input c) (client_output c ++ line ++ CRLF) c else c))) as Hno.
    { intros Hd i tee Hw. destruct (inv_client _ _ _ _ _ Hi) as [_ Ho]. destruct (inv_shut _ _ _ _ _ Hi). rewrite andb_true_r. cbv zeta.
      apply (refused_ok _ _ _ _ eof); destruct (forward_http_err cfg); cbn; try done; [apply Hi..|]. rewrite Ho. by apply Hw. }
    assert (forwarded seen ((line ++ CRLF) ++ []) (rest ++ arrived c)) as Hw0 by (apply Hf; constructor).
    destruct (scan_status line) as [code|]; [|by apply ended_settled, (Hno ltac:(by left))].
    destruct (code =? 407) eqn:E4.
    + pose proof (challenged_ok _ _ _ _ seen line _ Hi' Hs Hv0 Hf) as Hc. destruct (challenged _) as [s c' tee|c'|]; [|by apply ended_settled|done].
      destruct Hc as (-> & -> & Hc). by apply ended_settled, (Hno ltac:(by right)).
    + destruct (_ && _); [|by apply ended_settled, (Hno ltac:(by left))]. rewrite bool_decide_eq_false_2, andb_false_r by done.
      apply granted_ok; [destruct Hi'; split; cbn in *; by auto|done|]. split; [|done]. intros l. unfold result. cbn. by rewrite Hv.
  - destruct (_ <=? _) eqn:EW; zify_bool; unfold finish_reply at 1.
    + apply ended_settled, (refused_ok _ _ _ _ eof); cbn; try apply Hi; [done|..].
      * left. unfold reply. rewrite <- He, readline_none_next; [|done|pose proof (inv_input _ _ _ _ _ Hi); lia].
        rewrite (proj2 (Z.leb_le _ _)); [done|]. rewrite length_app. lia.
      * rewrite app_nil_r, He. destruct (inv_client _ _ _ _ _ Hi) as [_ ->]. destruct (forward_http_err cfg); [constructor|done].
    + rewrite Hs. split_and!; [done|by split|]. split; [|done]. unfold result. by rewrite Hs.
Qed.

Lemma http_handle_ok req a ci eof seen c e : settled req a ci eof seen (Go c) -> enabled c e ->
  settled req (auth_of a e) ci eof (seen ++ stream [e]) (handle c e).
Proof.
  intros (Hi & Hq & Ht & Hs) He. destruct e as [d|n| | |a']; cbn [handle stream concat map app auth_of] in *; rewrite ?app_nil_r.
  - split_and!; [|done|]; [destruct Hi; split; cbn in *; by try congruence|]. split; cbn.
    + intros l. rewrite <- !app_assoc. apply Ht.
    + intros H. by rewrite app_assoc, Hs.
  - destruct He as (_ & Hn & Hz). apply httpc_read_cb_ok; [destruct Hi; split; cbn in *; try done|split; cbn].
    + intros H. rewrite (inv_arrived0 H) in *. cbn in Hn. lia.
    + rewrite length_app, length_take. lia.
    + intros l. rewrite <- (Ht l), <- !app_assoc, (app_assoc (take _ _)), take_drop. done.
    + intros H. by rewrite <- app_assoc, take_drop, Hs.
  - destruct He as (_ & Ha & _). split_and!; [|done|done]. destruct Hi; split; cbn in *; try done.
  - unfold httpc_write_cb. by destruct (inv_state _ _ _ _ _ Hi) as [-> | ->].
  - split_and!; [|done|done]. destruct Hi; split; cbn in *; done.
Qed.

Lemma http_run_ok req ci eof m es m' : run m es m' -> forall seen a, settled req a ci eof seen m ->
  settled req (auth_after a es) ci eof (seen ++ stream es) m'.
Proof.
  induction 1 as [|c e es m He Hr IH]; intros seen a Hm; [by rewrite app_nil_r|].
  assert (stream (e :: es) = stream [e] ++ stream es) as -> by (unfold stream; cbn; by rewrite app_nil_r).
  rewrite app_assoc. by apply IH, http_handle_ok.
Qed.

Lemma connected_ok req a a' ci eof : connected a ci eof = Go (mkClient httpc_request_sent a' [] [] req true ci [] (eof, false) (false, false)) ->
  settled req a' ci eof [] (connected a ci eof).
Proof. intros ->. split_and!; [split; cbn; by auto|by split|by split]. Qed.

(** A client that waits does so because of what has come, or can go on. *)
Lemma waits_ok req a ci eof seen c : settled req a ci eof seen (Go c) ->
  reply seen = Waiting \/ reply seen = Overlong \/ exists n, enabled c (Read n).
Proof.
  intros (Hi & [Hq Hz] & Ht & _). specialize (Ht []). rewrite !app_nil_r in Ht. rewrite <- Ht. pose proof (inv_input _ _ _ _ _ Hi) as Hw.
  destruct (decide (Zlen (input c) = HTTP_HEAD_WM_HIGH)) as [E|E].
  - right; left. destruct (inv_state _ _ _ _ _ Hi) as [Hs|Hs]; [specialize (Hz Hs); lia|]. unfold result. rewrite Hs, after_status_eq, readline_none_next by done.
    rewrite (proj2 (Z.leb_le _ _)); [done|]. rewrite length_app. lia.
  - destruct (arrived c) as [|x l] eqn:Ea.
    + left. rewrite app_nil_r. unfold result, reply. rewrite after_status_eq, next_line_none by done.
      rewrite (proj2 (Z.leb_gt _ _)) by lia. by destruct (inv_state _ _ _ _ _ Hi) as [-> | ->].
    + right; right. exists 1%nat. cbn. rewrite Ea. split_and!; [|cbn; lia|cbn; lia|lia]. rewrite (inv_reading _ _ _ _ _ Hi).
      destruct (fst (relay_shut c)) eqn:Er; [|done]. rewrite (inv_arrived _ _ _ _ _ Hi Er) in Ea. done.
Qed.

(** C22: a connection through an HTTP proxy goes as the proxy's reply says,
    whatever the instance's other clients do to the state they share. At any
    point of any run, a client that is still waiting has sent the request and
    nothing of the client's data, and either the reply is not complete, or a line
    of its header is longer than the buffer, or bytes can be read; relaying
    starts exactly behind the header of a 2xx reply with the client's data kept;
    a reply that is not 2xx or 407 is forwarded line by line when so configured,
    and drops the client otherwise. A challenge (407) may also have the proxy
    asked again, with the challenge that was found in the reply: only when
    credentials are known and the state of the instance at that moment is not
    that of one attempt with a challenge. Whether it is found depends on its
    being there with the first line ([challenge_cut]); and as the state is
    shared, the attempts of one client are not bounded while others reset it
    ([retries_shared]), and are by one otherwise ([one_retry]). *)
Theorem http_connect_run a ci eof req a' es m :
  httpc_mkconnect (mkClient httpc_new a [] [] [] false ci [] (eof, false) (false, false)) = Ok (req, a') ->
  run (connected a ci eof) es m ->
  match m with
  | Go c => inv req (auth_after a' es) ci eof c /\ (reply (stream es) = Waiting \/ reply (stream es) = Overlong \/ exists n, enabled c (Read n))
  | m => ended req (auth_after a' es) ci (stream es) m
  end.
Proof.
  intros Hm Hr. assert (settled req a' ci eof [] (connected a ci eof)) as Hc by (apply connected_ok; unfold connected, httpc_write_cb, httpc_client_init, set_state; cbn [cstate auth arrived input sent reading client_input client_output client_shut relay_shut]; by rewrite Hm).
  pose proof (http_run_ok _ _ _ _ _ _ Hr [] _ Hc) as Hs. destruct m as [c|c|c|c|]; try done. split; [apply Hs|by eapply waits_ok].
Qed.

(** A proxy that challenges is asked a second time, and no third, as long as no
    other client changes the state. *)
Definition alone (es : list event) : Prop := Forall (fun e => forall a, auth_of a e = a) es.
Lemma alone_auth es : alone es -> forall a, auth_after a es = a.
Proof. induction 1 as [|e es He _ IH]; intros a; [done|]. unfold auth_after in *. cbn [foldl]. by rewrite He, IH. Qed.

Lemma one_retry query ci eof es c : alone es -> run (connected (mkAuth (Some query) 0) ci eof) es (Reconnect c) -> False.
Proof.
  intros Hal Hr. destruct (httpc_mkconnect (mkClient httpc_new (mkAuth (Some query) 0) [] [] [] false ci [] (eof, false) (false, false))) as [[req a']|] eqn:Hm.
  - assert (connected (mkAuth (Some query) 0) ci eof = Go (mkClient httpc_request_sent a' [] [] req true ci [] (eof, false) (false, false))) as Hc
      by (unfold connected, httpc_write_cb, httpc_client_init, set_state; cbn [cstate auth arrived input sent reading client_input client_output client_shut relay_shut]; by rewrite Hm).
    destruct (http_run_ok _ _ _ _ _ _ Hr [] _ (connected_ok _ _ _ _ _ Hc)) as (_ & _ & (_ & _ & Hno) & _).
    rewrite alone_auth in Hno by done. apply Hno.
    assert (a' = mkAuth (Some query) 1) as ->; [|done]. revert Hm. unfold httpc_mkconnect. cbn [auth last_auth_query last_auth_count].
    intros H. apply bind_Ok in H as (x & _ & H). by injection H as _ <-.
  - unfold connected, httpc_write_cb, httpc_client_init, set_state in Hr. cbn [cstate auth arrived input sent reading client_input client_output client_shut relay_shut] in Hr. rewrite Hm in Hr. inversion Hr.
Qed.

(** A configuration as the parser accepts it, with printed addresses. *)
Definition credential (s : list Z) : Prop := Forall (fun c => 0 < c < 256) s /\ short s.
Definition wf_config : Prop :=
  (forall s, login cfg = Some s -> credential s) /\ (forall s, password cfg = Some s -> credential s) /\
  (0 < length (dest_ip cfg) <= 15)%nat /\ (length (dest_port cfg) <= 5)%nat /\ Forall (fun c => c <> 0) (dest_ip cfg ++ dest_port cfg).
(** A challenge that is kept: there are credentials for it, and there is something behind the word [Digest]. *)
Definition wf_query (query : option (list Z)) : Prop :=
  forall q, query = Some q -> login cfg <> None /\ password cfg <> None /\ short q /\
    (strncasecmp_eq 6 q (chars "Digest") = true -> 7 <= Zlen q).

(** The request can be built for every challenge but the one of [digest_overread]. *)
Lemma mkconnect_ok c : length ctx = 64%nat -> (forall n, length (cnonce n) = 16%nat) -> wf_config -> wf_query (last_auth_query (auth c)) ->
  exists req, httpc_mkconnect c = Ok (req, mkAuth (last_auth_query (auth c)) (last_auth_count (auth c) + 1)).
Proof.
  intros Hc Hn (Hu & Hp & Hi & Ho & _) Hq. unfold httpc_mkconnect. cbn [last_auth_query last_auth_count].
  destruct (last_auth_query (auth c)) as [query|]; [|cbn; by eexists]. destruct (Hq query eq_refl) as (Hl & Hw & Hs & Hd).
  destruct (login cfg) as [user|] eqn:Eu; [|done]. destruct (password cfg) as [pass|] eqn:Ep; [|done].
  destruct (Hu _ eq_refl) as [Hu1 Hu2], (Hp _ eq_refl) as [Hp1 Hp2]. unfold short in *.
  destruct (strncasecmp_eq 5 query _).
  - cbn [of_option mbind outcome_bind]. rewrite basic_ok by (done || lia). cbn. by eexists.
  - destruct (strncasecmp_eq 6 query _); [|cbn; by eexists]. rewrite (proj2 (Z.leb_le _ _)) by (by apply Hd). cbn [ASSERT mbind outcome_bind].
    destruct (digest_total ctx (drop 7 query) user pass (chars "CONNECT") (take 127 (dest_ip cfg ++ chars ":" ++ dest_port cfg))
      (last_auth_count (auth c) + 1) (cnonce (last_auth_count (auth c) + 1))) as [r ->]; try done; unfold short.
    + rewrite length_drop. lia.
    + rewrite length_take. lia.
    + rewrite Hn. lia.
    + cbn. by eexists.
Qed.

End with_config.
(** A proxy that wants Basic credentials, then grants the connection. *)
Definition sample_config (forward : bool) : config :=
  mkConfig (Some (chars "user")) (Some (chars "pass")) forward DISCLOSE_NONE (chars "192.0.2.7") (chars "443") (chars "10.0.0.1") (chars "5000").
Definition sample_reply : list Z := chars "HTTP/1.0 200 OK" ++ CRLF ++ chars "Via: x" ++ CRLF ++ CRLF ++ chars "data".
Definition sample_407 : list Z := chars "HTTP/1.0 407 No" ++ CRLF.
Definition sample_challenge (scheme : string) : list Z := chars "Proxy-Authenticate: " ++ chars scheme ++ CRLF ++ CRLF.

(** What a sequence of events leads to. *)
Definition runs (cfg : config) (ctx : list Z) (cnonce : Z -> list Z) (m : flow) (es : list event) : flow :=
  foldl (fun m e => match m with Go c => handle cfg ctx cnonce c e | m => m end) m es.
Lemma run_step cfg ctx cnonce c e es m m' : m = Go c -> enabled c e -> run cfg ctx cnonce (handle cfg ctx cnonce c e) es m' -> run cfg ctx cnonce m (e :: es) m'.
Proof. intros ->. by constructor. Qed.

Lemma http_connect_run_witness :
  let a := mkAuth (Some (chars "Basic realm=x")) 0 in
  let es := [Writable; Arrive sample_reply; Read 20; Read 8] in
  exists c, run (sample_config true) [] (fun _ => []) (connected (sample_config true) [] (fun _ => []) a (chars "hello") false) es (Relaying c) /\
    reply (stream es) = Granted (input c ++ arrived c) /\ input c ++ arrived c = chars "data" /\ client_input c = chars "hello" /\
    sent c = chars "CONNECT 192.0.2.7:443 HTTP/1.0" ++ CRLF ++ chars "Proxy-Authorization: Basic dXNlcjpwYXNz" ++ CRLF ++ CRLF.
Proof.
  cbv zeta. destruct (runs (sample_config true) [] (fun _ => []) (connected (sample_config true) [] (fun _ => []) (mkAuth (Some (chars "Basic realm=x")) 0) (chars "hello") false)
    [Writable; Arrive sample_reply; Read 20; Read 8]) as [c|c|c|c|] eqn:E; [vm_compute in E; discriminate E|vm_compute in E; discriminate E| |vm_compute in E; discriminate E|vm_compute in E; discriminate E].
  exists c. assert (run (sample_config true) [] (fun _ => []) (connected (sample_config true) [] (fun _ => []) (mkAuth (Some (chars "Basic realm=x")) 0) (chars "hello") false)
    [Writable; Arrive sample_reply; Read 20; Read 8] (Relaying c)) as Hr.
  { vm_compute in E. injection E as <-. repeat (eapply run_step; [vm_compute; reflexivity|vm_compute; intuition (discriminate || lia)|]).
    vm_compute. constructor. }
  split; [exact Hr|]. eapply http_connect_run in Hr; [|vm_compute; reflexivity].
  destruct Hr as [Hs [(Hg & Hci & _)|([Hd|Hd] & _)]]; [|vm_compute in Hd; discriminate Hd|vm_compute in Hd; discriminate Hd].
  split; [exact Hg|]. split; [|split; [exact Hci|rewrite Hs; vm_compute; reflexivity]]. assert (Granted (chars "data") = Granted (input c ++ arrived c)) as Hx by (rewrite <- Hg; vm_compute; reflexivity).
  congruence.
Defined.


(** *** What the code does not do *)

(** A challenge whose header comes in a second segment drops the client; in one
    segment the proxy is asked again. *)
Lemma challenge_cut :
  let run := runs (sample_config false) [] (fun _ => []) (connected (sample_config false) [] (fun _ => []) (mkAuth None 0) [] false) in
  (exists c, run [Arrive sample_407; Read (length sample_407); Arrive (sample_challenge "Basic")] = Dropped c) /\
  (exists c, run [Arrive (sample_407 ++ sample_challenge "Basic"); Read (length (sample_407 ++ sample_challenge "Basic"))] = Reconnect c).
Proof. split; vm_compute; by eexists. Qed.

(** After credentials were refused, another client's attempt in between has the
    proxy asked again. *)
Lemma retries_shared :
  let a := mkAuth (Some (chars "Basic x")) 0 in
  let reply := sample_407 ++ sample_challenge "Basic x" in
  let run := runs (sample_config false) [] (fun _ => []) (connected (sample_config false) [] (fun _ => []) a [] false) in
  (exists c, run [Arrive reply; Read (length reply)] = Dropped c) /\
  (exists c, run [Others (mkAuth (Some (chars "Basic x")) 2); Arrive reply; Read (length reply)] = Reconnect c /\ auth c = a).
Proof. split; vm_compute; by eexists. Qed.

(** A challenge that is just [Digest]: the parameters are read behind the end of the copy of it. *)
Lemma digest_overread :
  let reply := sample_407 ++ sample_challenge "Digest" in
  exists c, runs (sample_config false) [] (fun _ => []) (connected (sample_config false) [] (fun _ => []) (mkAuth None 0) [] false)
      [Arrive reply; Read (length reply)] = Reconnect c /\
    connected (sample_config false) [] (fun _ => []) (auth c) [] false = Stuck.
Proof. vm_compute. eexists. by split. Qed.

(** A line of the header that fills the buffer after a 2xx reply: nothing is read
    any more and the client is not told. *)
Lemma header_overlong :
  let reply := chars "HTTP/1.0 200 OK" ++ CRLF ++ repeat 120 4096 in
  exists c, runs (sample_config true) [] (fun _ => []) (connected (sample_config true) [] (fun _ => []) (mkAuth None 0) [] false)
      [Arrive (reply ++ CRLF ++ CRLF); Read 4096; Read 17] = Go c /\
    ~ enabled c Eof /\ forall n, ~ enabled c (Read n).
Proof.
  cbv zeta. destruct (runs _ _ _ _ _) as [c| | | |] eqn:E; [|vm_compute in E; discriminate E..]. exists c. split; [done|].
  assert (Zlen (input c) = HTTP_HEAD_WM_HIGH) as Hf by (vm_compute in E; injection E as <-; vm_compute; reflexivity).
  split; [intros (_ & _ & H); lia|]. intros n (_ & Hn & Hz). lia.
Qed.

End HttpConnect.
