(* ===== verification/HttpRelay.v ===== *)
(** How redsocks sends requests through an HTTP proxy that does not know CONNECT
    (redsocks/http-relay.c): the header of the client's request is read and
    rewritten, kept for a second attempt together with what follows it, sent with
    credentials, and the header of the reply is copied to the client. *)
From Stdlib Require Import ZArith Lia String Ascii.
From stdpp Require Import base tactics numbers option list.
From S2P Require Import Prelude Base64 Md5 HttpAuth HttpConnect.

Module HttpRelay.
Import Base64(chars).
Import HttpAuth.
Import HttpConnect(config, login, password, dest_ip, dest_port, http_auth, mkAuth, last_auth_query, last_auth_count,
  scan_status, HTTP_HEAD_WM_HIGH, split_lf_length, readline_app, wf_config, next_line,
  forwarded, request_header_ok, readline_next, readline_none_next).

(** ** Buffers *)
Record httpr_buffer := mkBuffer { buff : option (list Z); len : Z; max_len : Z }.

Definition httpr_buffer_init : httpr_buffer := mkBuffer (Some (repeat 0 (Z.to_nat 4096))) 0 4096.
Definition httpr_buffer_fini (b : httpr_buffer) : httpr_buffer := mkBuffer None (len b) (max_len b).

(** The size is doubled until [need] bytes fit; it must not overflow an [int]. *)
Fixpoint double (fuel : nat) (need size : Z) : outcome Z :=
  if size <? need then
    match fuel with
    | O => Fault
    | S fuel => ASSERT (2 * size <=? INT_MAX);; double fuel need (2 * size)
    end
  else Ok size.

Definition httpr_buffer_append (b : httpr_buffer) (data : list Z) : outcome httpr_buffer :=
  ASSERT (len b + Zlen data + 1 <=? INT_MAX);;
  double 32 (len b + Zlen data + 1) (max_len b) ≫= fun size =>
  let new_buff := repeat 0 (Z.to_nat size) in
  of_option (buff b) ≫= fun old =>
  mem_read old 0 (len b) ≫= fun content =>
  mem_write new_buff 0 content ≫= fun new_buff =>
  mem_write new_buff (len b) data ≫= fun new_buff =>
  mem_write new_buff (len b + Zlen data) [0] ≫= fun new_buff =>
  Ok (mkBuffer (Some new_buff) (len b + Zlen data) size).

(** The bytes that are written out. *)
Definition buffer_content (b : httpr_buffer) : outcome (list Z) := of_option (buff b) ≫= fun m => mem_read m 0 (len b).

(** ** Clients *)
Inductive httpr_state := httpr_new | httpr_recv_request_headers | httpr_request_sent | httpr_reply_came | httpr_headers_skipped.
#[global] Instance httpr_state_eq_dec : EqDecision httpr_state.
Proof. solve_decision. Defined.
Definition state_number (s : httpr_state) : Z :=
  match s with httpr_new => 0 | httpr_recv_request_headers => 1 | httpr_request_sent => 2 | httpr_reply_came => 3 | httpr_headers_skipped => 4 end.

Record httpr_client := mkHttpr {
  firstline : option (list Z); host : option (list Z); has_host : bool;
  client_buffer : httpr_buffer; relay_buffer : httpr_buffer
}.

(** One side as libevent shows it: all bytes that came, those that were not read
    yet, those that wait in the input buffer, and those that were written to it. *)
Record side := mkSide { seen : list Z; arrived : list Z; input : list Z; written : list Z }.
Definition new_side : side := mkSide [] [] [] [].
Definition set_input (i : list Z) (s : side) : side := mkSide (seen s) (arrived s) i (written s).
Definition write (d : list Z) (s : side) : side := mkSide (seen s) (arrived s) (input s) (written s ++ d).
Definition arrive (d : list Z) (s : side) : side := mkSide (seen s ++ d) (arrived s ++ d) (input s) (written s).
Definition receive (n : nat) (s : side) : side := mkSide (seen s) (drop n (arrived s)) (input s ++ take n (arrived s)) (written s).

(** [relay] is [None] before the connection to the proxy is made. *)
Record client := mkClient { cstate : httpr_state; auth : http_auth; httpr : httpr_client; app : side; relay : option side }.
Definition set_state (s : httpr_state) (c : client) : client := mkClient s (auth c) (httpr c) (app c) (relay c).
Definition set_auth (a : http_auth) (c : client) : client := mkClient (cstate c) a (httpr c) (app c) (relay c).
Definition set_httpr (h : httpr_client) (c : client) : client := mkClient (cstate c) (auth c) h (app c) (relay c).
Definition set_app (s : side) (c : client) : client := mkClient (cstate c) (auth c) (httpr c) s (relay c).
Definition set_relay (r : option side) (c : client) : client := mkClient (cstate c) (auth c) (httpr c) (app c) r.
Definition set_client_buffer (b : httpr_buffer) (c : client) : client :=
  set_httpr (mkHttpr (firstline (httpr c)) (host (httpr c)) (has_host (httpr c)) b (relay_buffer (httpr c))) c.
Definition set_relay_buffer (b : httpr_buffer) (c : client) : client :=
  set_httpr (mkHttpr (firstline (httpr c)) (host (httpr c)) (has_host (httpr c)) (client_buffer (httpr c)) b) c.
Definition set_firstline (l : list Z) (c : client) : client :=
  set_httpr (mkHttpr (Some l) (host (httpr c)) (has_host (httpr c)) (client_buffer (httpr c)) (relay_buffer (httpr c))) c.
Definition set_host (l : list Z) (c : client) : client :=
  set_httpr (mkHttpr (firstline (httpr c)) (Some l) true (client_buffer (httpr c)) (relay_buffer (httpr c))) c.

(** What a callback leaves; [Stuck] is an access to freed or foreign memory, a failed
    assertion or an overflow. *)
Inductive flow := Go (c : client) | Dropped (c : client) | Relaying (c : client) | Stuck.
Definition lift (m : outcome flow) : flow := match m with Ok f => f | Fault => Stuck end.

Definition httpr_client_init (a : http_auth) : client :=
  mkClient httpr_new a (mkHttpr None None false httpr_buffer_init httpr_buffer_init) new_side None.
Definition httpr_client_fini (c : client) : client :=
  set_httpr (mkHttpr None None (has_host (httpr c)) (httpr_buffer_fini (client_buffer (httpr c))) (httpr_buffer_fini (relay_buffer (httpr c)))) c.
Definition httpr_instance_fini (a : http_auth) : http_auth := mkAuth None (last_auth_count a).

Section with_config.
Context (cfg : config).
(** The memory of the hash, and the random number of a request with its count. *)
Context (ctx : list Z) (cnonce : Z -> list Z).

(** ** The request of the client *)
Definition httpr_append_header (line : list Z) (c : client) : outcome client :=
  httpr_buffer_append (client_buffer (httpr c)) line ≫= fun b =>
  httpr_buffer_append b CRLF ≫= fun b => Ok (set_client_buffer b c).

(** [snprintf] into 22 bytes. *)
Definition fmt_http_host : list Z :=
  if bool_decide (dest_port cfg = chars "80") then dest_ip cfg else take 21 (dest_ip cfg ++ chars ":" ++ dest_port cfg).

Definition SPACE : Z := 32.
Definition SLASH : Z := 47.
Definition strchr (s : list Z) (c : Z) : option (list Z) :=
  match skip_while (fun x => negb (x =? c)) s with [] => None | p => Some p end.
(** The string before the first [c]. *)
Definition up_to (s : list Z) (c : Z) : list Z := take_while (fun x => negb (x =? c)) s.

(** [None] is the failure that makes the caller drop the client. *)
Definition httpr_toss_http_firstline (c : client) : outcome (option client) :=
  (if has_host (httpr c) then of_option (host (httpr c)) else Ok fmt_http_host) ≫= fun host =>
  of_option (firstline (httpr c)) ≫= fun line =>
  match strchr line SPACE with
  | None => Ok None
  | Some p =>
      let uri := tl p in
      httpr_buffer_append httpr_buffer_init (up_to line SPACE ++ [SPACE]) ≫= fun nbuff =>
      httpr_buffer_append nbuff (chars "http://") ≫= fun nbuff =>
      httpr_buffer_append nbuff host ≫= fun nbuff =>
      httpr_buffer_append nbuff uri ≫= fun nbuff =>
      httpr_buffer_append nbuff CRLF ≫= fun nbuff =>
      of_option (buff nbuff) ≫= fun text =>
      let text := cstring text in
      ASSERT (Zlen text <=? len nbuff);;
      Ok (Some (set_firstline text c))
  end.

(** A line of the request: go on, the header is complete, or the client is dropped. *)
Inductive line_result := Next (c : client) | Complete (c : client) | Bad (c : client).

Definition last_line (c : client) : outcome line_result :=
  (match firstline (httpr c) with
   | None => Ok (c, true)
   | Some _ => httpr_toss_http_firstline c ≫= fun r : option client => Ok match r with Some c => (c, false) | None => (c, true) end
   end) ≫= fun '((c, do_drop) : client * bool) =>
  (if has_host (httpr c) then Ok c
   else
     let host := chars "Host: " ++ fmt_http_host in
     ASSERT ((0 <? Zlen host) && (Zlen host <? 32));; httpr_append_header host c) ≫= fun c =>
  httpr_append_header (chars "Proxy-Connection: close") c ≫= fun c =>
  httpr_append_header (chars "Connection: close") c ≫= fun c =>
  httpr_append_header [] c ≫= fun c =>
  Ok (if do_drop then Bad c else Complete c).

Definition request_line (line : list Z) (c : client) : outcome line_result :=
  if 0 <? Zlen line then
    match firstline (httpr c) with
    | None => Ok (Next (set_firstline line c))
    | Some _ =>
        if strncasecmp_eq 4 line (chars "Host") then
          (* the value is read 5 characters after the start of the line *)
          ASSERT (5 <=? Zlen line);;
          httpr_append_header line (set_host (skip_while isspace (drop 5 line)) c) ≫= fun c => Ok (Next c)
        else if strncasecmp_eq 16 line (chars "Proxy-Connection") then Ok (Next c)
        else if strncasecmp_eq 10 line (chars "Connection") then Ok (Next c)
        else httpr_append_header line c ≫= fun c => Ok (Next c)
    end
  else last_line c.

(** Content is kept, and written to the proxy when the request was sent. *)
Definition post_buffer_len : nat := Z.to_nat (64 * 1024).
Fixpoint read_chunks (post_buffer_len fuel : nat) (c : client) : outcome client :=
  match input (app c) with
  | [] => Ok c
  | _ =>
      match fuel with
      | O => Fault
      | S fuel =>
          let post_buffer := take post_buffer_len (input (app c)) in
          let c := set_app (set_input (drop post_buffer_len (input (app c))) (app c)) c in
          httpr_buffer_append (client_buffer (httpr c)) post_buffer ≫= fun b =>
          let c := set_client_buffer b c in
          let c := if 2 <=? state_number (cstate c) then set_relay (write post_buffer <$> relay c) c else c in
          read_chunks post_buffer_len fuel c
      end
  end.
Definition httpr_client_read_content (c : client) : outcome client := read_chunks post_buffer_len (length (input (app c))) c.

Fixpoint read_lines (fuel : nat) (c : client) : outcome flow :=
  match fuel with
  | O => Fault
  | S fuel =>
      match redsocks_evbuffer_readline (input (app c)) with
      | None => Ok (Go c)
      | Some (line, rest) =>
          request_line line (set_app (set_input rest (app c)) c) ≫= fun r =>
          match r with
          | Next c => read_lines fuel c
          | Bad c => Ok (Dropped c)
          | Complete c =>
              httpr_client_read_content (set_state httpr_recv_request_headers c) ≫= fun c =>
              (* redsocks_connect_relay *)
              Ok (Go (set_relay (Some new_side) c))
          end
      end
  end.

Definition httpr_client_read_cb (c : client) : flow :=
  lift (if 1 <=? state_number (cstate c) then httpr_client_read_content c ≫= fun c => Ok (Go c)
        else read_lines (S (length (input (app c)))) c).

(** ** The request to the proxy *)

(** Method and URI of the rewritten first line. *)
Definition method_and_uri (line : list Z) : outcome (option (list Z * list Z)) :=
  of_option (strchr line SPACE) ≫= fun _ =>
  let method := up_to line SPACE in
  Ok (strchr line SLASH ≫= fun ptr =>
      if negb (at_ptr (tl ptr) =? SLASH) then None
      else
        strchr (tl (tl ptr)) SLASH ≫= fun ptr =>
        strchr ptr SPACE ≫= fun _ => Some (method, up_to ptr SPACE)).

(** The credentials, if any; [None] if the request is malformed. *)
Definition credentials (a : http_auth) (firstline : option (list Z)) : outcome (option (option (list Z * list Z))) :=
  match last_auth_query a with
  | None => Ok (Some None)
  | Some query =>
      if strncasecmp_eq 5 query (chars "Basic") then
        of_option (login cfg) ≫= fun login =>
        of_option (password cfg) ≫= fun password =>
        basic_authentication_encode login password ≫= fun r : option (list Z) => Ok (Some ((fun s => (chars "Basic", s)) <$> r))
      else
        match firstline with
        | Some line =>
            if strncasecmp_eq 6 query (chars "Digest") then
              method_and_uri line ≫= fun r : option (list Z * list Z) =>
              match r with
              | None => Ok None
              | Some (method, uri) =>
                  ASSERT (7 <=? Zlen query);;
                  digest_authentication_encode ctx (drop 7 query) (login cfg) (password cfg) (Some method) (Some uri)
                    (last_auth_count a) (cnonce (last_auth_count a)) ≫= fun r : option (list Z) => Ok (Some ((fun s => (chars "Digest", s)) <$> r))
              end
            else Ok (Some None)
        | None => Ok (Some None)
        end
  end.
Definition print_credentials (r : option (list Z * list Z)) : list Z :=
  match r with Some (scheme, s) => auth_response_header ++ chars " " ++ scheme ++ chars " " ++ s ++ CRLF | None => [] end.

Definition httpr_relay_write_cb (c : client) : flow :=
  lift (
    ASSERT (1 <=? state_number (cstate c));;
    match cstate c, relay c with
    | httpr_recv_request_headers, Some r =>
        let r := write (default [] (firstline (httpr c))) r in
        let a := mkAuth (last_auth_query (auth c)) (last_auth_count (auth c) + 1) in
        let c := set_auth a c in
        credentials a (firstline (httpr c)) ≫= fun s : option (option (list Z * list Z)) =>
        match s with
        | None => Ok (Dropped (set_relay (Some r) c))
        | Some s =>
            buffer_content (client_buffer (httpr c)) ≫= fun content =>
            Ok (Go (set_state httpr_request_sent (set_relay (Some (write content (write (print_credentials s) r))) c)))
        end
    | _, _ => Ok (Go c)
    end).

(** ** The reply of the proxy *)

(** A line of the reply is copied. *)
Definition copy_line (line : list Z) (c : client) : outcome client :=
  httpr_buffer_append (relay_buffer (httpr c)) line ≫= fun b =>
  httpr_buffer_append b CRLF ≫= fun b => Ok (set_relay_buffer b c).

(** Credentials are needed. When the challenge is not found, the line that was
    already freed is logged and freed again. *)
Definition challenged (c : client) (r : side) : outcome flow :=
  if bool_decide (last_auth_query (auth c) <> None) && (last_auth_count (auth c) =? 1) then Ok (Dropped c)
  else if bool_decide (login cfg = None) || bool_decide (password cfg = None) then Ok (Dropped c)
  else
    http_auth_request_header (S (length (input r))) (input r) [] ≫= fun '((found, _, _) : option (list Z) * list Z * list Z) =>
    match found with
    | None => Fault
    | Some auth_request =>
        let query := skip_while isspace (drop (length auth_request_header) auth_request) in
        let c := set_auth (mkAuth (Some query) 0) c in
        let c := set_relay_buffer (httpr_buffer_fini (relay_buffer (httpr c))) c in
        Ok (Go (set_relay (Some new_side) (set_state httpr_recv_request_headers c)))
    end.

Fixpoint copy_headers (fuel : nat) (r : side) (c : client) : outcome (side * client) :=
  match fuel with
  | O => Fault
  | S fuel =>
      match redsocks_evbuffer_readline (input r) with
      | Some (line, rest) =>
          copy_line line c ≫= fun c =>
          let r := set_input rest r in
          if Zlen line =? 0 then Ok (r, set_state httpr_headers_skipped c) else copy_headers fuel r c
      | None => Ok (r, c)
      end
  end.
Definition finish_reply (r : side) (c : client) : outcome flow :=
  (match cstate c with httpr_reply_came => copy_headers (S (length (input r))) r c | _ => Ok (r, c) end) ≫= fun '((r, c) : side * client) =>
  let c := set_relay (Some r) c in
  match cstate c with
  | httpr_headers_skipped =>
      buffer_content (relay_buffer (httpr c)) ≫= fun header => Ok (Relaying (set_app (write header (app c)) c))
  | _ => Ok (Go c)
  end.

Definition httpr_relay_read_cb (c : client) : flow :=
  lift (
    ASSERT (2 <=? state_number (cstate c));;
    of_option (relay c) ≫= fun r =>
    let c := set_relay_buffer httpr_buffer_init (set_relay_buffer (httpr_buffer_fini (relay_buffer (httpr c))) c) in
    match cstate c with
    | httpr_request_sent =>
        match redsocks_evbuffer_readline (input r) with
        | Some (line, rest) =>
            let r := set_input rest r in
            copy_line line (set_relay (Some r) c) ≫= fun c =>
            match scan_status line with
            | Some code =>
                if code =? 407 then challenged c r
                else if (100 <=? code) && (code <=? 999) then finish_reply r (set_state httpr_reply_came c)
                else Ok (Dropped c)
            | None => Ok (Dropped c)
            end
        | None => if HTTP_HEAD_WM_HIGH <=? Zlen (input r) then Ok (Dropped c) else finish_reply r c
        end
    | _ => finish_reply r c
    end).

(** ** Events *)
Inductive event := AppArrive (d : list Z) | AppRead (n : nat) | Writable | RelayArrive (d : list Z) | RelayRead (n : nat).

(** Reading from the proxy is enabled when the request was sent, with a low
    watermark of 1 and a high one of [HTTP_HEAD_WM_HIGH]. The end of the data of a
    side only means that no more of it arrives. *)
Definition enabled (c : client) (e : event) : Prop :=
  match e with
  | AppArrive _ => True
  | AppRead n => (0 < n <= length (arrived (app c)))%nat
  | Writable => relay c <> None
  | RelayArrive _ => relay c <> None
  | RelayRead n => exists r, relay c = Some r /\ 2 <= state_number (cstate c) /\ (0 < n <= length (arrived r))%nat /\
      Zlen (input r) + Z.of_nat n <= HTTP_HEAD_WM_HIGH
  end.
Definition handle (c : client) (e : event) : flow :=
  match e with
  | AppArrive d => Go (set_app (arrive d (app c)) c)
  | AppRead n => httpr_client_read_cb (set_app (receive n (app c)) c)
  | Writable => httpr_relay_write_cb c
  | RelayArrive d => Go (set_relay (arrive d <$> relay c) c)
  | RelayRead n => httpr_relay_read_cb (set_relay (receive n <$> relay c) c)
  end.

Inductive run : flow -> list event -> flow -> Prop :=
| run_nil m : run m [] m
| run_cons c e es m : enabled c e -> run (handle c e) es m -> run (Go c) (e :: es) m.

(** ** Specification *)

(** The lines at the start of the data, and what follows them. *)
Inductive lines : list Z -> list (list Z) -> list Z -> Prop :=
| lines_nil l : lines l [] l
| lines_snoc l ls rest line rest' : lines l ls rest -> redsocks_evbuffer_readline rest = Some (line, rest') -> lines l (ls ++ [line]) rest'.
Definition print (ls : list (list Z)) : list Z := flat_map (fun line => line ++ CRLF) ls.

Definition is_host (line : list Z) : bool := strncasecmp_eq 4 line (chars "Host").
Definition hop_by_hop (line : list Z) : bool := strncasecmp_eq 16 line (chars "Proxy-Connection") || strncasecmp_eq 10 line (chars "Connection").
Definition kept (ls : list (list Z)) : list (list Z) := filter (fun line => hop_by_hop line = false) ls.
(** The value of the last Host header. *)
Definition host_of (ls : list (list Z)) : option (list Z) :=
  foldl (fun h line => if is_host line then Some (skip_while isspace (drop 5 line)) else h) None ls.

(** The first line with an absolute URI. *)
Definition absolute (line host : list Z) : option (list Z) :=
  p ← strchr line SPACE; Some ((up_to line SPACE ++ [SPACE]) ++ chars "http://" ++ host ++ tl p ++ CRLF).
Definition rewritten (ls : list (list Z)) : option (list Z) :=
  line ← head ls; absolute line (default fmt_http_host (host_of (tl ls))).
Definition header (ls : list (list Z)) : list Z :=
  print (kept (tl ls)) ++ match host_of (tl ls) with None => chars "Host: " ++ fmt_http_host ++ CRLF | Some _ => [] end ++
  chars "Proxy-Connection: close" ++ CRLF ++ chars "Connection: close" ++ CRLF ++ CRLF.

(** ** Buffers *)
Definition holds (b : httpr_buffer) (content : list Z) : Prop :=
  exists tail, buff b = Some (content ++ 0 :: tail) /\ len b = Zlen content /\ max_len b = Zlen (content ++ 0 :: tail) /\ 4096 <= max_len b.

Lemma httpr_holds_init : holds httpr_buffer_init [].
Proof. exists (repeat 0 4095). split_and!; [reflexivity..|cbn; lia]. Qed.

Lemma double_ok need n : forall size, need <= 2 ^ 30 -> 0 < size -> need <= size * 2 ^ Z.of_nat n ->
  exists size', double n need size = Ok size' /\ need <= size' /\ size <= size'.
Proof.
  induction n as [|n IH]; intros size Hn Hs Hb; cbn [double]; destruct (size <? need) eqn:E; zify_bool; try (exists size; split_and!; (done || lia)).
  rewrite (proj2 (Z.leb_le _ INT_MAX)) by (unfold INT_MAX; lia). cbn [ASSERT mbind outcome_bind].
  destruct (IH (2 * size)) as (size' & H1 & H2 & H3); [done|lia| |exists size'; split_and!; (done || lia)].
  rewrite Nat2Z.inj_succ, Z.pow_succ_r in Hb by lia. lia.
Qed.

Lemma mem_write_mid (x y d : list Z) : (length d <= length y)%nat -> mem_write (x ++ y) (Zlen x) d = Ok (x ++ d ++ drop (length d) y).
Proof.
  intros Hd. unfold mem_write. rewrite (proj2 (in_range_true _ _ _)) by (rewrite length_app; lia). unfold splice.
  by rewrite Nat2Z.id, take_app_length, drop_app_ge, Nat.add_comm, Nat.add_sub by lia.
Qed.

Lemma append_ok b content data : holds b content -> Zlen content + Zlen data + 1 <= 2 ^ 30 ->
  exists b', httpr_buffer_append b data = Ok b' /\ holds b' (content ++ data).
Proof.
  intros (tail & Hb & Hl & Hm & Hz) Hn. unfold httpr_buffer_append. rewrite Hl, (proj2 (Z.leb_le _ INT_MAX)) by (unfold INT_MAX; lia). cbn [ASSERT mbind outcome_bind].
  destruct (double_ok (Zlen content + Zlen data + 1) 32 (max_len b)) as (size & -> & H1 & H2); [lia|lia|lia|]. cbn [mbind outcome_bind]. rewrite Hb. cbn [of_option mbind outcome_bind].
  unfold mem_read. rewrite (proj2 (in_range_true _ _ _)) by (rewrite length_app; lia). cbn [mbind outcome_bind].
  assert (slice (content ++ 0 :: tail) 0 (Zlen content) = content) as -> by (unfold slice; change (Z.to_nat 0) with 0%nat; by rewrite drop_0, Nat2Z.id, take_app_length).
  assert (length (repeat 0 (Z.to_nat size)) = Z.to_nat size) as Hr by apply repeat_length. set (new := repeat 0 _) in *.
  rewrite (mem_write_mid [] new) by lia. cbn [mbind outcome_bind]. rewrite app_nil_l. rewrite mem_write_mid by (rewrite length_drop; lia). cbn [mbind outcome_bind].
  rewrite app_assoc, <- Nat2Z.inj_add, <- length_app, mem_write_mid by (rewrite !length_drop; cbn; lia). cbn [mbind outcome_bind].
  eexists. split; [reflexivity|]. eexists. cbn [buff len max_len app]. split_and!; [reflexivity|by rewrite length_app|rewrite !length_app; cbn [length]; rewrite !length_drop; lia|lia].
Qed.

Lemma content_ok b content : holds b content -> buffer_content b = Ok content.
Proof.
  intros (tail & Hb & Hl & Hm & Hz). unfold buffer_content. rewrite Hb, Hl. cbn [of_option mbind outcome_bind]. unfold mem_read.
  rewrite (proj2 (in_range_true _ _ _)) by (rewrite length_app; lia). unfold slice. change (Z.to_nat 0) with 0%nat. by rewrite drop_0, Nat2Z.id, take_app_length.
Qed.

(** ** Lines *)
Lemma readline_spec l line rest : redsocks_evbuffer_readline l = Some (line, rest) -> Forall (fun c => c <> 0) line /\ (length line + length rest < length l)%nat.
Proof.
  unfold redsocks_evbuffer_readline. destruct (split_lf l) as [[a b]|] eqn:E; [|done]. cbn. intros [= <- <-]. apply split_lf_length in E. split.
  - unfold cstring. generalize (strip_cr a). intros s. induction s as [|x s IH]; cbn; [constructor|]. destruct (x =? 0) eqn:E0; zify_bool; [constructor|]. by constructor.
  - assert (length (cstring (strip_cr a)) <= length a)%nat as H; [|lia]. unfold cstring.
    pose proof (length_skip (fun c => negb (c =? 0)) (strip_cr a)) as Hs. assert (length (strip_cr a) <= length a)%nat as Ha; [|lia].
    unfold strip_cr. pose proof (length_rev a) as Hr. destruct (rev a) as [|x r]; [done|]. case_match; [|done]. rewrite length_rev. cbn in Hr. lia.
Qed.

Lemma lines_app l ls rest d : lines l ls rest -> lines (l ++ d) ls (rest ++ d).
Proof. induction 1 as [|l ls rest line rest' Hl IH Hr]; econstructor; [done|by apply readline_app]. Qed.
Lemma lines_step l ls i d line rest : lines l ls (i ++ d) -> redsocks_evbuffer_readline i = Some (line, rest) -> lines l (ls ++ [line]) (rest ++ d).
Proof. intros. econstructor; [done|by apply readline_app]. Qed.
Lemma print_snoc ls line : print (ls ++ [line]) = print ls ++ line ++ CRLF.
Proof. unfold print. rewrite flat_map_app. cbn. by rewrite app_nil_r. Qed.
Lemma lines_length l ls rest : lines l ls rest -> Zlen (print ls) + 2 * Zlen rest <= 2 * Zlen l.
Proof.
  induction 1 as [|l ls rest line rest' Hl IH Hr]; [cbn; lia|]. apply readline_spec in Hr as [_ Hr]. rewrite print_snoc, !length_app. cbn [length CRLF]. lia.
Qed.
Lemma lines_nonzero l ls rest : lines l ls rest -> Forall (Forall (fun c => c <> 0)) ls.
Proof. induction 1 as [|l ls rest line rest' Hl IH Hr]; [constructor|]. apply readline_spec in Hr as [Hz _]. apply Forall_app. by repeat constructor. Qed.
Lemma kept_length ls : Zlen (print (kept ls)) <= Zlen (print ls).
Proof.
  induction ls as [|line ls IH]; [done|]. unfold kept in *. rewrite filter_cons. case_decide; unfold print in *; cbn [flat_map]; rewrite !length_app; lia.
Qed.
Lemma kept_tl_length ls : Zlen (print (kept (tl ls))) <= Zlen (print ls).
Proof. destruct ls as [|line ls]; [done|]. cbn [tl]. pose proof (kept_length ls). unfold print in *. cbn [flat_map]. rewrite length_app. lia. Qed.
Lemma tl_snoc {A} (ls : list A) x : ls <> [] -> tl (ls ++ [x]) = tl ls ++ [x].
Proof. by destruct ls. Qed.
Lemma host_not_hop line : is_host line = true -> hop_by_hop line = false.
Proof.
  unfold is_host, hop_by_hop. cbn [strncasecmp_eq]. destruct (tolower (at_ptr line) =? tolower (at_ptr (chars "Host"))) eqn:E; zify_bool; [|done]. intros _.
  rewrite E. done.
Qed.

(** ** The header of the request *)

(** The state of a client that has read the lines [ls] of the header. *)
Definition reading (h : httpr_client) (ls : list (list Z)) : Prop :=
  firstline h = head ls /\ host h = host_of (tl ls) /\ has_host h = bool_decide (host_of (tl ls) <> None) /\ holds (client_buffer h) (print (kept (tl ls))).

Lemma append_header_ok c line content : holds (client_buffer (httpr c)) content -> Zlen content + Zlen line + 3 <= 2 ^ 30 ->
  exists b, httpr_append_header line c = Ok (set_client_buffer b c) /\ holds b (content ++ line ++ CRLF).
Proof.
  intros Hb Hl. unfold httpr_append_header. destruct (append_ok _ _ line Hb) as (b1 & -> & H1); [lia|]. cbn [mbind outcome_bind].
  destruct (append_ok _ _ CRLF H1) as (b2 & -> & H2); [rewrite length_app; cbn; lia|]. exists b2. by rewrite <- app_assoc in H2.
Qed.

Lemma request_line_ok c ls line : reading (httpr c) ls -> line <> [] -> Zlen (print (ls ++ [line])) <= 2 ^ 29 ->
  (exists h, request_line line c = Ok (Next (set_httpr h c)) /\ reading h (ls ++ [line])) \/
  (request_line line c = Fault /\ ls <> [] /\ is_host line = true /\ Zlen line < 5).
Proof.
  intros (Hf & Hh & Hs & Hb) Hl Hz. unfold request_line. rewrite (proj2 (Z.ltb_lt _ _)) by (destruct line; [done|cbn; lia]).
  rewrite print_snoc, !length_app in Hz. pose proof (kept_tl_length ls) as Hk. rewrite Hf.
  destruct ls as [|l0 ls0] eqn:Els; [left; eexists; by split|]. rewrite <- Els in *. assert (ls <> []) as Hne by (by rewrite Els). assert (head ls = Some l0) as -> by (by rewrite Els).
  assert (head (ls ++ [line]) = head ls) as Hhd by (by rewrite Els).
  assert (tl (ls ++ [line]) = tl ls ++ [line]) as Ht by (by apply tl_snoc).
  assert (host_of (tl (ls ++ [line])) = if is_host line then Some (skip_while isspace (drop 5 line)) else host_of (tl ls)) as Hho by (rewrite Ht; unfold host_of; by rewrite foldl_app).
  assert (print (kept (tl (ls ++ [line]))) = print (kept (tl ls)) ++ if hop_by_hop line then [] else line ++ CRLF) as Hke.
  { rewrite Ht. unfold kept. rewrite filter_app, filter_cons, filter_nil. unfold print. rewrite flat_map_app. destruct (hop_by_hop line) eqn:Ed; [rewrite decide_False by done|rewrite decide_True by done]; cbn; by rewrite ?app_nil_r. }
  change (strncasecmp_eq 4 line (chars "Host")) with (is_host line). destruct (is_host line) eqn:Eh.
  - destruct (5 <=? Zlen line) eqn:E5; zify_bool; [left|right; by split_and!; (done || lia)]. cbn [ASSERT mbind outcome_bind].
    destruct (append_header_ok (set_host (skip_while isspace (drop 5 line)) c) line _ Hb) as (b & -> & Hb'); [cbn in *; lia|]. cbn [mbind outcome_bind].
    eexists. split; [reflexivity|]. unfold reading. rewrite Hhd, Hho, Hke, (host_not_hop _ Eh). by split_and!.
  - left. unfold reading. rewrite Hhd, Hho, Hke. unfold hop_by_hop. destruct (strncasecmp_eq 16 _ _); [|destruct (strncasecmp_eq 10 _ _)]; cbn [orb].
    + exists (httpr c). split; [by destruct c|]. rewrite app_nil_r. by split_and!.
    + exists (httpr c). split; [by destruct c|]. rewrite app_nil_r. by split_and!.
    + destruct (append_header_ok c line _ Hb) as (b & -> & Hb'); [cbn in *; lia|]. cbn [mbind outcome_bind]. eexists. split; [reflexivity|]. by split_and!.
Qed.

Lemma host_of_spec ls : Forall (Forall (fun c => c <> 0)) ls ->
  forall h, host_of ls = Some h -> Forall (fun c => c <> 0) h /\ Zlen h <= Zlen (print ls).
Proof.
  induction ls as [|line ls IH] using rev_ind; intros Hl h; [done|]. apply Forall_app in Hl as [Hl Hz]. unfold host_of. rewrite foldl_app, print_snoc, !length_app. cbn [foldl].
  destruct (is_host line); [intros [= <-]|intros Hh; destruct (IH Hl h Hh); split; [done|lia]].
  apply Forall_cons in Hz as [Hz _]. rewrite <- (take_drop 5 line) in Hz. apply Forall_app in Hz as [_ Hz]. rewrite <- (skip_take isspace (drop 5 line)) in Hz.
  apply Forall_app in Hz as [_ Hz]. split; [done|]. pose proof (length_skip isspace (drop 5 line)) as Hs. rewrite length_drop in Hs. lia.
Qed.

Lemma strchr_spec s c p : strchr s c = Some p -> up_to s c ++ p = s.
Proof. unfold strchr, up_to. rewrite <- (skip_take (fun x => negb (x =? c)) s) at 3. destruct (skip_while _ s); [done|]. by intros [= <-]. Qed.

Lemma fmt_spec : wf_config cfg -> Forall (fun c => c <> 0) fmt_http_host /\ (0 < length fmt_http_host <= 21)%nat.
Proof.
  intros (_ & _ & Hi & Hp & Hz). apply Forall_app in Hz as [Hz1 Hz2]. unfold fmt_http_host. case_bool_decide; [split; [done|lia]|].
  rewrite length_take, !length_app. cbn [length chars map list_ascii_of_string]. split; [|lia]. apply Forall_take. rewrite !Forall_app. by repeat constructor.
Qed.

(** Several pieces are appended one after the other. *)
Lemma httpr_appends_ok b content data (k : httpr_buffer -> outcome (option client)) r : holds b content -> Zlen content + Zlen data + 1 <= 2 ^ 30 ->
  (forall b', holds b' (content ++ data) -> k b' = r) -> (httpr_buffer_append b data ≫= k) = r.
Proof. intros Hb Hl Hk. destruct (append_ok _ _ data Hb Hl) as (b' & -> & Hb'). by apply Hk. Qed.

Lemma toss_ok c ls : wf_config cfg -> reading (httpr c) ls -> ls <> [] -> Forall (Forall (fun c => c <> 0)) ls -> Zlen (print ls) <= 2 ^ 28 ->
  httpr_toss_http_firstline c = Ok ((fun first => set_firstline first c) <$> rewritten ls).
Proof.
  intros Hw (Hf & Hh & Hs & Hb) Hne Hz Hl. destruct (fmt_spec Hw) as [Hfz Hfl]. unfold httpr_toss_http_firstline.
  assert (exists ho, (if has_host (httpr c) then of_option (host (httpr c)) else Ok fmt_http_host) = Ok ho /\ default fmt_http_host (host_of (tl ls)) = ho /\
    Forall (fun c => c <> 0) ho /\ Zlen ho <= 2 ^ 28 + 21) as (ho & -> & Hho & Hhz & Hhl).
  { rewrite Hs, Hh. assert (Forall (Forall (fun c => c <> 0)) (tl ls)) as Ht by (destruct ls; [done|by apply Forall_cons in Hz as [_ ?]]).
    destruct (host_of (tl ls)) as [h|] eqn:E; cbn; [|exists fmt_http_host; split_and!; (done || lia)]. exists h. destruct (host_of_spec _ Ht h E). split_and!; [done..|].
    assert (Zlen (print (tl ls)) <= Zlen (print ls)); [|lia]. destruct ls; [done|]. unfold print. cbn. rewrite length_app. lia. }
  cbn [mbind outcome_bind]. rewrite Hf. destruct ls as [|line ls0] eqn:Els; [done|]. cbn [head of_option mbind outcome_bind]. unfold rewritten, absolute. rewrite Hho. cbn [head mbind option_bind].
  destruct (strchr line SPACE) as [p|] eqn:Ep; [|done]. cbn [mbind option_bind fmap option_fmap option_map].
  apply Forall_cons in Hz as [Hz _]. pose proof (strchr_spec _ _ _ Ep) as Hp. unfold print in Hl. cbn [flat_map] in Hl. rewrite !length_app in Hl.
  assert (length line = length (up_to line SPACE) + length p)%nat as Hlp by (rewrite <- length_app; by rewrite Hp).
  pose proof (length_tl p) as Htp.
  assert (Forall (fun c => c <> 0) (up_to line SPACE) /\ Forall (fun c => c <> 0) p) as [Hz1 Hz2] by (apply Forall_app; by rewrite Hp).
  do 5 (eapply httpr_appends_ok; [first [apply httpr_holds_init|eassumption]|rewrite ?length_app; cbn [length chars map list_ascii_of_string CRLF]; lia|intros ? ?]).
  rewrite app_nil_l, <- !app_assoc in H3. rewrite <- app_assoc.
  remember (up_to line SPACE ++ [SPACE] ++ chars "http://" ++ ho ++ tl p ++ CRLF) as text eqn:Htx.
  destruct H3 as (tail & Hbuf & Hlen & _ & _). rewrite Hbuf. cbn [of_option mbind outcome_bind].
  assert (cstring (text ++ 0 :: tail) = text) as ->.
  { unfold cstring. apply take_while_app; [|by right]. rewrite Htx, !Forall_app. assert (forall l, Forall (fun c => c <> 0) l -> Forall (fun c => negb (c =? 0) = true) l) as Hnz
      by (intros l H3; apply (Forall_impl _ _ _ H3); intros x Hx; by apply negb_true_iff, Z.eqb_neq).
    split_and!; try (apply Hnz; done); try by repeat constructor. apply Hnz. destruct p; [done|]. by apply Forall_cons in Hz2 as [_ ?]. }
  rewrite Hlen, Z.leb_refl. done.
Qed.

Lemma last_line_ok c ls : wf_config cfg -> reading (httpr c) ls -> Forall (Forall (fun c => c <> 0)) ls -> Zlen (print ls) <= 2 ^ 28 ->
  exists b, holds b (header ls) /\
    last_line c = Ok match rewritten ls with Some first => Complete (set_client_buffer b (set_firstline first c)) | None => Bad (set_client_buffer b c) end.
Proof.
  intros Hw Hr Hz Hl. destruct (fmt_spec Hw) as [_ Hfl]. unfold last_line. pose proof Hr as (Hf & Hh & Hs & Hb). pose proof (kept_tl_length ls) as Hk.
  set (c1 := match rewritten ls with Some first => set_firstline first c | None => c end).
  assert (match firstline (httpr c) with None => Ok (c, true)
    | Some _ => httpr_toss_http_firstline c ≫= fun r : option client => Ok match r with Some c => (c, false) | None => (c, true) end end =
    Ok (c1, match rewritten ls with Some _ => false | None => true end)) as ->.
  { rewrite Hf. destruct ls as [|line ls0] eqn:Els; [done|]. rewrite <- Els in *. assert (head ls = Some line) as -> by (by rewrite Els).
    rewrite toss_ok with (ls := ls) by (done || by rewrite Els). unfold c1. rewrite <- Els. cbn [mbind outcome_bind]. by destruct (rewritten ls). }
  cbn [mbind outcome_bind].
  assert (client_buffer (httpr c1) = client_buffer (httpr c) /\ has_host (httpr c1) = has_host (httpr c)) as [E1 E2] by (unfold c1; by destruct (rewritten ls)).
  rewrite <- E1 in Hb. rewrite E2, Hs.
  assert (exists b, (if bool_decide (host_of (tl ls) <> None) then Ok c1
    else ASSERT ((0 <? Zlen (chars "Host: " ++ fmt_http_host)) && (Zlen (chars "Host: " ++ fmt_http_host) <? 32));; httpr_append_header (chars "Host: " ++ fmt_http_host) c1) = Ok (set_client_buffer b c1) /\
    holds b (print (kept (tl ls)) ++ match host_of (tl ls) with None => chars "Host: " ++ fmt_http_host ++ CRLF | Some _ => [] end)) as (b1 & -> & H1).
  { destruct (host_of (tl ls)) as [h|]; [rewrite bool_decide_eq_true_2 by done; exists (client_buffer (httpr c1)); rewrite app_nil_r; by split; [destruct c1 as [? ? [] ? ?]|]|].
    rewrite bool_decide_eq_false_2 by naive_solver.
    assert (Zlen (chars "Host: " ++ fmt_http_host) = 6 + Zlen fmt_http_host) as Hx by (rewrite length_app; cbn [length chars map list_ascii_of_string]; lia).
    rewrite !(proj2 (Z.ltb_lt _ _)) by lia. cbn [andb ASSERT mbind outcome_bind].
    destruct (append_header_ok c1 (chars "Host: " ++ fmt_http_host) _ Hb) as (b & -> & Hb'); [lia|].
    exists b. split; [done|]. by rewrite <- app_assoc in Hb'. }
  cbn [mbind outcome_bind]. set (pre := print (kept (tl ls)) ++ _) in *.
  assert (Zlen pre <= 2 ^ 28 + 32) as Hp by (unfold pre; rewrite length_app; destruct (host_of (tl ls)); rewrite ?length_app; cbn [length chars map list_ascii_of_string CRLF]; lia).
  destruct (append_header_ok (set_client_buffer b1 c1) (chars "Proxy-Connection: close") pre H1) as (b2 & -> & H2); [cbn [length chars map list_ascii_of_string]; lia|].
  cbn [mbind outcome_bind]. destruct (append_header_ok (set_client_buffer b2 (set_client_buffer b1 c1)) (chars "Connection: close") _ H2) as (b3 & -> & H3); [rewrite !length_app; cbn [length chars map list_ascii_of_string CRLF]; lia|].
  cbn [mbind outcome_bind]. destruct (append_header_ok (set_client_buffer b3 (set_client_buffer b2 (set_client_buffer b1 c1))) [] _ H3) as (b4 & -> & H4); [rewrite !length_app; cbn [length chars map list_ascii_of_string CRLF]; lia|].
  cbn [mbind outcome_bind]. exists b4. split; [|by unfold c1; destruct (rewritten ls)]. unfold header. unfold pre in H4. rewrite <- !app_assoc in H4. exact H4.
Qed.

Lemma write_write d e s : write e (write d s) = write (d ++ e) s.
Proof. unfold write. cbn. by rewrite app_assoc. Qed.
Lemma write_nil s : write [] s = s.
Proof. unfold write. rewrite app_nil_r. by destruct s. Qed.

Lemma post_buffer_pos : (0 < post_buffer_len)%nat.
Proof. apply Nat2Z.inj_lt. unfold post_buffer_len. rewrite Z2Nat.id; lia. Qed.

(** Everything that was read is kept, and written when the request was sent. *)
Lemma read_chunks_ok size n : (0 < size)%nat -> forall c content, (length (input (app c)) <= n)%nat -> holds (client_buffer (httpr c)) content -> Zlen content + Zlen (input (app c)) + 1 <= 2 ^ 30 ->
  exists b, holds b (content ++ input (app c)) /\
    read_chunks size n c = Ok (set_relay (if 2 <=? state_number (cstate c) then write (input (app c)) <$> relay c else relay c)
      (set_app (set_input [] (app c)) (set_client_buffer b c))).
Proof.
  intros Hpos. induction n as [|n IH]; intros c content Hn Hb Hl; cbn [read_chunks].
  all: destruct (input (app c)) as [|x i] eqn:Ei; [exists (client_buffer (httpr c)); rewrite app_nil_r; split; [done|]|].
  1, 3: destruct c as [s a [] [] r]; cbn in *; subst; f_equal; unfold set_relay; f_equal; destruct (2 <=? _); [|done]; destruct r as [r|]; [|done]; cbn; by rewrite write_nil.
  - cbn in Hn. lia.
  - rewrite <- Ei in *. set (chunk := take size (input (app c))). set (rest := drop size (input (app c))).
    assert (input (app c) = chunk ++ rest) as Hcr by (unfold chunk, rest; by rewrite take_drop).
    assert (length rest < length (input (app c)))%nat as Hlt by (unfold rest; rewrite length_drop, Ei; cbn [length]; lia).
    assert (Zlen chunk + Zlen rest = Zlen (input (app c))) as Hsum by (rewrite Hcr, length_app; lia).
    change (client_buffer (httpr (set_app (set_input rest (app c)) c))) with (client_buffer (httpr c)).
    destruct (append_ok _ _ chunk Hb) as (b1 & -> & H1); [lia|]. cbn [mbind outcome_bind].
    match goal with |- context [read_chunks size n ?c'] => set (c1 := c') end.
    assert (c1 = set_relay (if 2 <=? state_number (cstate c) then write chunk <$> relay c else relay c) (set_app (set_input rest (app c)) (set_client_buffer b1 c))) as Ec1.
    { unfold c1. cbn [cstate set_client_buffer set_httpr set_app]. destruct (2 <=? _); by destruct c. }
    destruct (IH c1 (content ++ chunk)) as (b & H2 & ->); [rewrite Ec1; cbn; lia|by rewrite Ec1|rewrite Ec1, length_app; cbn; lia|].
    exists b. rewrite Ec1 in *. cbn in H2. rewrite <- app_assoc, <- Hcr in H2. split; [done|]. f_equal. cbn. unfold set_relay, set_app, set_client_buffer, set_httpr, set_input. cbn. f_equal.
    destruct (2 <=? _); [|done]. destruct (relay c); [|done]. cbn. f_equal. by rewrite write_write, <- Hcr.
Qed.
Lemma read_content_ok c content : holds (client_buffer (httpr c)) content -> Zlen content + Zlen (input (app c)) + 1 <= 2 ^ 30 ->
  exists b, holds b (content ++ input (app c)) /\
    httpr_client_read_content c = Ok (set_relay (if 2 <=? state_number (cstate c) then write (input (app c)) <$> relay c else relay c)
      (set_app (set_input [] (app c)) (set_client_buffer b c))).
Proof. intros. apply read_chunks_ok; [apply post_buffer_pos|done..]. Qed.

(** ** Invariant *)
Definition nonempty (ls : list (list Z)) : Prop := Forall (fun line => line <> []) ls.

(** A challenge is kept only if there are credentials for it. *)
Definition query_ok (a : http_auth) : Prop :=
  forall q, last_auth_query a = Some q -> login cfg <> None /\ password cfg <> None /\ short q.
Definition base (c : client) : Prop := Zlen (seen (app c)) <= 2 ^ 25 /\ written (app c) = [] /\ query_ok (auth c).

(** The lines [ls] of the header were read. *)
Record heading (ls : list (list Z)) (c : client) : Prop := {
  h_state : cstate c = httpr_new; h_relay : relay c = None;
  h_lines : lines (seen (app c)) ls (input (app c) ++ arrived (app c)); h_nonempty : nonempty ls;
  h_reading : reading (httpr c) ls
}.
(** The header was read, and [content] behind it. *)
Record complete (ls : list (list Z)) (content : list Z) (c : client) : Prop := {
  c_lines : lines (seen (app c)) (ls ++ [[]]) (content ++ arrived (app c)); c_input : input (app c) = []; c_nonempty : nonempty ls;
  c_first : firstline (httpr c) = rewritten ls /\ rewritten ls <> None;
  c_buffer : holds (client_buffer (httpr c)) (header ls ++ content)
}.
(** The request for the header and the content was sent. *)
Definition asked (ls : list (list Z)) (content : list Z) (c : client) (r : side) : Prop :=
  exists first cred, rewritten ls = Some first /\ credentials (auth c) (Some first) = Ok (Some cred) /\
    written r = first ++ print_credentials cred ++ header ls ++ content.

Definition accepted (line : list Z) : Prop := exists code, scan_status line = Some code /\ code <> 407 /\ 100 <= code <= 999.
(** The header of the reply, as far as it was read. *)
Definition replied (rls : list (list Z)) (r : side) : Prop :=
  lines (seen r) rls (input r ++ arrived r) /\ match rls with line :: rls => accepted line /\ nonempty rls | [] => False end.

Definition inv (c : client) : Prop :=
  base c /\
  match cstate c with
  | httpr_new => exists ls, heading ls c /\ redsocks_evbuffer_readline (input (app c)) = None
  | httpr_recv_request_headers => exists ls content r, complete ls content c /\ relay c = Some r /\ written r = [] /\ input r = [] /\ arrived r = seen r
  | httpr_request_sent => exists ls content r, complete ls content c /\ relay c = Some r /\ asked ls content c r /\
      input r ++ arrived r = seen r /\ redsocks_evbuffer_readline (input r) = None /\ Zlen (input r) < HTTP_HEAD_WM_HIGH
  | httpr_reply_came => exists ls content r rls, complete ls content c /\ relay c = Some r /\ asked ls content c r /\ replied rls r /\
      redsocks_evbuffer_readline (input r) = None /\ Zlen (input r) <= HTTP_HEAD_WM_HIGH
  | httpr_headers_skipped => False
  end.

(** A second attempt is allowed once, with credentials. *)
Definition may_retry (a : http_auth) : Prop :=
  login cfg <> None /\ password cfg <> None /\ ~ (last_auth_query a <> None /\ last_auth_count a = 1).
Definition refused_reply (a : http_auth) (l : list Z) : Prop :=
  match next_line l with
  | Some (line, _) => match scan_status line with Some code => code = 407 /\ ~ may_retry a \/ code <> 407 /\ ~ 100 <= code <= 999 | None => True end
  | None => HTTP_HEAD_WM_HIGH <= Zlen l
  end.
(** Why a client is dropped. *)
Definition refused (c : client) : Prop :=
  written (app c) = [] /\
  ((exists ls rest, lines (seen (app c)) (ls ++ [[]]) rest /\ nonempty ls /\ rewritten ls = None) \/
   (exists ls rest first, lines (seen (app c)) (ls ++ [[]]) rest /\ rewritten ls = Some first /\ credentials (auth c) (Some first) = Ok None) \/
   (exists r, relay c = Some r /\ refused_reply (auth c) (seen r))).
(** What is relayed: all of the request was sent, and the copied part of the reply's
    header ends where the relaying starts. *)
Definition relayed (c : client) : Prop :=
  exists ls content r rls before, complete ls content c /\ relay c = Some r /\ asked ls content c r /\
    lines (seen r) (rls ++ [[]]) (input r ++ arrived r) /\ match rls with line :: rls => accepted line /\ nonempty rls | [] => False end /\
    print (rls ++ [[]]) = before ++ written (app c).

Lemma header_length ls : wf_config cfg -> Zlen (header ls) <= Zlen (print ls) + 100.
Proof.
  intros Hw. destruct (fmt_spec Hw) as [_ Hf]. unfold header. pose proof (kept_tl_length ls). rewrite !length_app.
  destruct (host_of (tl ls)); rewrite ?length_app; cbn [length chars map list_ascii_of_string CRLF]; lia.
Qed.

Lemma read_lines_ok n : forall c ls, wf_config cfg -> (length (input (app c)) < n)%nat -> base c -> heading ls c ->
  match lift (read_lines n c) with
  | Go c' => inv c' /\ app c' = set_input (input (app c')) (app c)
  | Dropped c' => refused c'
  | Relaying _ => False
  | Stuck => exists ls rest line, lines (seen (app c)) ls rest /\ line ∈ tl ls /\ is_host line = true /\ Zlen line < 5
  end.
Proof.
  induction n as [|n IH]; intros c ls Hw Hn Hb [Hs Hr Hl Hne Hrd]; [lia|]. cbn [read_lines].
  destruct (redsocks_evbuffer_readline (input (app c))) as [[line rest]|] eqn:E.
  - pose proof (lines_step _ _ _ _ _ _ Hl E) as Hl'. pose proof (lines_length _ _ _ Hl') as Hlen. pose proof (lines_nonzero _ _ _ Hl') as Hz.
    destruct Hb as (Hbd & Hwr & Hq). pose proof (readline_spec _ _ _ E) as [_ Hrl].
    destruct line as [|x line'] eqn:Eline; [|rewrite <- Eline in *].
    + apply Forall_app in Hz as [Hz _]. rewrite print_snoc, length_app in Hlen.
      destruct (last_line_ok (set_app (set_input rest (app c)) c) ls Hw Hrd Hz) as (b & Hh & Hll); [lia|].
      unfold request_line. cbn [length Z.of_nat]. rewrite Z.ltb_irrefl. rewrite Hll. cbn [mbind outcome_bind].
      destruct (rewritten ls) as [first|] eqn:Ef; cbn [lift].
      * set (c1 := set_state _ _). destruct (read_content_ok c1 (header ls)) as (b' & Hb' & ->); [done| |].
        { pose proof (header_length ls Hw). cbn. rewrite !length_app in Hlen. lia. }
        cbn [mbind outcome_bind lift]. split; [|done]. split; [by split_and!|]. cbn. rewrite Hr. exists ls, rest, new_side. split_and!; try done.
        split; cbn; try done. by rewrite Ef.
      * split; [done|]. left. exists ls. eexists. split_and!; [exact Hl'|done|done].
    + destruct (request_line_ok (set_app (set_input rest (app c)) c) ls line Hrd) as [(h & -> & Hh)|(-> & Hne' & Hho & H5)]; [by rewrite Eline|lia|..]; cbn [mbind outcome_bind].
      * set (c1 := set_httpr _ _). specialize (IH c1 (ls ++ [line]) Hw). cbn [app c1 set_httpr input set_app set_input] in IH.
        specialize (IH ltac:(cbn; lia)). specialize (IH ltac:(by split_and!)).
        assert (heading (ls ++ [line]) c1) as Hc1 by (split; cbn; try done; apply Forall_app; split; [done|constructor; [by rewrite Eline|constructor]]).
        specialize (IH Hc1). destruct (lift (read_lines n c1)) as [c'| | |]; try done.
      * exists (ls ++ [line]). eexists _, line. split_and!; [exact Hl'| |done|done]. rewrite tl_snoc by done. apply elem_of_app. right. by constructor.
  - cbn [lift]. split; [|by destruct c as [? ? ? [] ?]]. split; [done|]. rewrite Hs. exists ls. by split.
Qed.

Lemma rewritten_spec ls first : wf_config cfg -> Forall (Forall (fun c => c <> 0)) ls -> rewritten ls = Some first ->
  strchr first SPACE <> None /\ Zlen first <= Zlen (print ls) + 40.
Proof.
  intros Hw Hz. destruct (fmt_spec Hw) as [_ Hf]. unfold rewritten. destruct ls as [|line ls]; [done|]. cbn [head mbind option_bind tl]. unfold absolute.
  destruct (strchr line SPACE) as [p|] eqn:Ep; [|done]. cbn [mbind option_bind]. intros [= <-]. apply Forall_cons in Hz as [_ Hz]. split.
  - rewrite <- app_assoc. unfold strchr. rewrite skip_while_app; [done| |by right]. unfold up_to. clear. induction line as [|x l IH]; cbn; [constructor|].
    destruct (negb (x =? SPACE)) eqn:E; [by constructor|constructor].
  - apply strchr_spec in Ep. assert (length line = length (up_to line SPACE) + length p)%nat as Hlp by (rewrite <- length_app; by rewrite Ep). pose proof (length_tl p).
    assert (Zlen (default fmt_http_host (host_of ls)) <= Zlen (print ls) + 21) as Hh.
    { destruct (host_of ls) as [h|] eqn:Eh; cbn; [|lia]. destruct (host_of_spec _ Hz _ Eh). lia. }
    unfold print in *. cbn [flat_map]. do 3 (rewrite ?length_app; cbn [length CRLF]). lia.
Qed.

(** Credentials are printed, or the request is not one a Digest can be made for; the
    only fault is a challenge that ends with the word [Digest]. *)
Lemma credentials_ok a first : length ctx = 64%nat -> (forall n, length (cnonce n) = 16%nat) -> wf_config cfg -> query_ok a -> strchr first SPACE <> None -> short first ->
  is_Ok (credentials a (Some first)) \/
  credentials a (Some first) = Fault /\ exists q, last_auth_query a = Some q /\ strncasecmp_eq 6 q (chars "Digest") = true /\ Zlen q < 7.
Proof.
  intros Hc Hn (Hu & Hp & _) Hq Hs Hf. unfold credentials. destruct (last_auth_query a) as [q|] eqn:Eq; [|left; by eexists]. destruct (Hq q Eq) as (Hl & Hw & Hsq).
  destruct (login cfg) as [user|] eqn:Eu; [|done]. destruct (password cfg) as [pass|] eqn:Ep; [|done].
  destruct (Hu _ eq_refl) as [Hu1 Hu2], (Hp _ eq_refl) as [Hp1 Hp2]. unfold short in *. destruct (strncasecmp_eq 5 q _).
  { left. cbn [of_option mbind outcome_bind]. rewrite basic_ok by (done || lia). cbn. by eexists. }
  destruct (strncasecmp_eq 6 q _) eqn:Ed; [|left; by eexists]. unfold method_and_uri. destruct (strchr first SPACE) as [p0|]; [|done]. cbn [of_option mbind outcome_bind].
  destruct (strchr first SLASH) as [p1|] eqn:E1; [|left; by eexists]. cbn [mbind option_bind]. destruct (negb _); [left; by eexists|].
  destruct (strchr (tl (tl p1)) SLASH) as [p2|] eqn:E2; [|left; by eexists]. cbn [mbind option_bind]. destruct (strchr p2 SPACE) as [p3|] eqn:E3; [|left; by eexists].
  cbn [mbind option_bind]. destruct (7 <=? Zlen q) eqn:E7; zify_bool; [left|right; split; [done|exists q; split_and!; (done || lia)]]. cbn [ASSERT mbind outcome_bind].
  apply strchr_spec in E1, E2, E3. apply (f_equal length) in E1, E2, E3. rewrite length_app in E1, E2, E3.
  pose proof (length_tl p1). pose proof (length_tl (tl p1)). pose proof (length_skip (fun x => negb (x =? SPACE)) first) as Hup.
  destruct (digest_total ctx (drop 7 q) user pass (up_to first SPACE) (up_to p2 SPACE) (last_auth_count a) (cnonce (last_auth_count a))) as [r ->]; unfold short, up_to in *; try done; try lia.
  - rewrite length_drop. lia.
  - rewrite Hn. lia.
  - cbn. by eexists.
Qed.

Lemma httpr_write_cb_ok c : length ctx = 64%nat -> (forall n, length (cnonce n) = 16%nat) -> wf_config cfg -> inv c -> relay c <> None ->
  match httpr_relay_write_cb c with
  | Go c' => inv c' /\ app c' = app c
  | Dropped c' => refused c'
  | Relaying _ => False
  | Stuck => exists q, last_auth_query (auth c) = Some q /\ strncasecmp_eq 6 q (chars "Digest") = true /\ Zlen q < 7
  end.
Proof.
  intros Hc Hn Hw Hi Hr. pose proof Hi as [(Hbd & Hwr & Hq) Hs]. unfold httpr_relay_write_cb. destruct (cstate c) eqn:Es; [|..|done].
  - destruct Hs as (ls & [_ ? _ _ _] & _). done.
  - destruct Hs as (ls & content & r & [Hl Hin Hne [Hf Hrw] Hb] & Er & Hwn & Hri & Hra). cbn [state_number Z.leb Z.compare Pos.compare Pos.compare_cont ASSERT mbind outcome_bind]. rewrite Er.
    cbn [httpr set_auth auth]. destruct (rewritten ls) as [first|] eqn:Ef; [|done]. rewrite Hf. cbn [default].
    pose proof (lines_length _ _ _ Hl) as Hlen. pose proof (lines_nonzero _ _ _ Hl) as Hz. apply Forall_app in Hz as [Hz _]. rewrite print_snoc, length_app in Hlen.
    destruct (rewritten_spec _ _ Hw Hz Ef) as [Hsp Hfl]. set (a := mkAuth _ _).
    destruct (credentials_ok a first Hc Hn Hw Hq Hsp) as [[s Hcr]|[-> Hqq]]; [unfold short; lia| |exact Hqq]. rewrite Hcr. cbn [mbind outcome_bind].
    destruct s as [s|]; [|split; [done|]; right; left; by exists ls, (content ++ arrived (app c)), first].
    rewrite (content_ok _ _ Hb). cbn [mbind outcome_bind lift]. split; [|done]. split; [done|]. cbn. eexists ls, content, _. split_and!; [|done|..].
    + split; cbn; try done. by rewrite Ef.
    + exists first, s. split_and!; try done. cbn. by rewrite Hwn, <- !app_assoc.
    + cbn. by rewrite Hri.
    + cbn. by rewrite Hri.
    + cbn. rewrite Hri. unfold HTTP_HEAD_WM_HIGH. cbn. lia.
  - cbn. split; [|done]. split; [done|]. by rewrite Es.
  - cbn. split; [|done]. split; [done|]. by rewrite Es.
Qed.

(** ** The reply *)
Lemma copy_line_ok c line out : holds (relay_buffer (httpr c)) out -> Zlen out + Zlen line + 3 <= 2 ^ 30 ->
  exists b, copy_line line c = Ok (set_relay_buffer b c) /\ holds b (out ++ line ++ CRLF).
Proof.
  intros Hb Hl. unfold copy_line. destruct (append_ok _ _ line Hb) as (b1 & -> & H1); [lia|]. cbn [mbind outcome_bind].
  destruct (append_ok _ _ CRLF H1) as (b2 & -> & H2); [rewrite length_app; cbn; lia|]. exists b2. by rewrite <- app_assoc in H2.
Qed.

(** The header is copied as far as it came. *)
Lemma copy_headers_ok n : forall r c rls before out, (length (input r) < n)%nat -> Zlen out + 2 * Zlen (input r) <= 2 ^ 20 ->
  cstate c = httpr_reply_came -> holds (relay_buffer (httpr c)) out -> replied rls r -> print rls = before ++ out ->
  exists i s b out' rls', copy_headers n r c = Ok (set_input i r, set_state s (set_relay_buffer b c)) /\ holds b out' /\
    lines (seen r) rls' (i ++ arrived r) /\ print rls' = before ++ out' /\ Zlen i <= Zlen (input r) /\
    (s = httpr_reply_came /\ redsocks_evbuffer_readline i = None /\ replied rls' (set_input i r) \/
     s = httpr_headers_skipped /\ exists rls'', rls' = rls'' ++ [[]] /\ match rls'' with line :: ls => accepted line /\ nonempty ls | [] => False end).
Proof.
  induction n as [|n IH]; intros r c rls before out Hn Hz Hs Hb [Hl Ha] Hp; [lia|]. cbn [copy_headers].
  destruct (redsocks_evbuffer_readline (input r)) as [[line rest]|] eqn:E.
  - pose proof (readline_spec _ _ _ E) as [_ Hrl]. destruct (copy_line_ok c line out Hb) as (b1 & -> & H1); [lia|]. cbn [mbind outcome_bind].
    pose proof (lines_step _ _ _ _ _ _ Hl E) as Hl'. assert (print (rls ++ [line]) = before ++ out ++ line ++ CRLF) as Hp' by (by rewrite print_snoc, Hp, <- app_assoc).
    destruct (Zlen line =? 0) eqn:E0; zify_bool.
    + destruct line; [|cbn in E0; lia]. exists rest, httpr_headers_skipped, b1, (out ++ [] ++ CRLF), (rls ++ [[]]). split_and!; try done; [lia|]. right. split; [done|]. by exists rls.
    + destruct (IH (set_input rest r) (set_relay_buffer b1 c) (rls ++ [line]) before (out ++ line ++ CRLF)) as (i & s & b & out' & rls' & -> & H2 & H3 & H4 & H5 & H6); try done.
      * cbn. lia.
      * cbn. rewrite !length_app. cbn. lia.
      * split; [done|]. destruct rls as [|l0 rls]; [done|]. destruct Ha as [Ha1 Ha2]. cbn. split; [done|]. apply Forall_app. split; [done|]. constructor; [|constructor]. by intros ->.
      * exists i, s, b, out', rls'. split_and!; try done. cbn in H5. lia.
  - exists (input r), httpr_reply_came, (relay_buffer (httpr c)), out, rls. split_and!; try done.
    + destruct c as [? ? [] ? ?], r. cbn in *. by subst.
    + left. by split_and!.
Qed.

Lemma finish_ok c r rls ls content before out : base c -> cstate c = httpr_reply_came -> complete ls content c -> asked ls content c r ->
  Zlen (input r) <= HTTP_HEAD_WM_HIGH -> Zlen out <= 2 ^ 19 -> holds (relay_buffer (httpr c)) out -> replied rls r -> print rls = before ++ out ->
  match lift (finish_reply r c) with
  | Go c' => inv c' /\ app c' = app c
  | Relaying c' => relayed c'
  | _ => False
  end.
Proof.
  intros Hb Hs [Hl Hi Hne Hf Hcb] Hk Hz Ho Hh Hr Hp. unfold finish_reply. rewrite Hs. unfold HTTP_HEAD_WM_HIGH in *.
  destruct (copy_headers_ok (S (length (input r))) r c rls before out) as (i & s & b & out' & rls' & -> & H1 & H2 & H3 & H4 & H5); [lia|lia|done..|].
  cbn [mbind outcome_bind cstate set_relay set_state httpr set_relay_buffer]. destruct H5 as [(-> & Hrl & Hr')|(-> & rls'' & -> & Ha)]; cbn [lift].
  - split; [|done]. split; [done|]. cbn. exists ls, content, (set_input i r), rls'. split_and!; try done; try (cbn; unfold HTTP_HEAD_WM_HIGH; lia).
  - change (relay_buffer (httpr (set_relay_buffer b c))) with b. rewrite (content_ok _ out' H1). cbn [mbind outcome_bind lift]. exists ls, content, (set_input i r), rls'', before. split_and!; try done.
    cbn. destruct Hb as (_ & -> & _). done.
Qed.

Lemma forwarded_length l out rest : forwarded l out rest -> Zlen out + 2 * Zlen rest <= 2 * Zlen l.
Proof. induction 1 as [|l line l' out rest Hr Hf IH]; [cbn; lia|]. apply readline_spec in Hr as [_ Hr]. rewrite !length_app. cbn [length CRLF]. lia. Qed.

Lemma short_query k q : short q -> short (skip_while isspace (drop k q)).
Proof. unfold short. pose proof (length_skip isspace (drop k q)) as Hs. rewrite length_drop in Hs. lia. Qed.

(** When the reply is a challenge that is not there. *)
Definition lost_challenge (a : http_auth) (i : list Z) : Prop :=
  exists line rest rest' tee, redsocks_evbuffer_readline i = Some (line, rest) /\ scan_status line = Some 407 /\ may_retry a /\
    http_auth_request_header (S (length rest)) rest [] = Ok (None, rest', tee).

Lemma httpr_challenged_ok c r ls content line l : base c -> complete ls content c -> relay c = Some r -> Zlen (input r) <= HTTP_HEAD_WM_HIGH ->
  next_line (seen r) = Some (line, l) -> scan_status line = Some 407 ->
  match challenged c r with
  | Ok (Go c') => inv c' /\ app c' = app c
  | Ok (Dropped c') => refused c'
  | Ok _ => False
  | Fault => may_retry (auth c) /\ exists rest' tee, http_auth_request_header (S (length (input r))) (input r) [] = Ok (None, rest', tee)
  end.
Proof.
  intros Hb [Hl Hi Hne Hf Hcb] Hr Hz Hx Hs. pose proof Hb as (Hbd & Hwr & Hq). unfold challenged. unfold HTTP_HEAD_WM_HIGH in *.
  assert (~ may_retry (auth c) -> refused c) as Hd.
  { intros Hm. split; [done|]. right; right. exists r. split; [done|]. unfold refused_reply. rewrite Hx, Hs. by left. }
  case_bool_decide as Hlq; cbn [andb]; [destruct (_ =? 1) eqn:E1; zify_bool; [apply Hd; intros (_ & _ & []); by split|]|].
  all: case_bool_decide as Hlo; cbn [orb]; [apply Hd; by intros (? & _)|].
  all: case_bool_decide as Hpw; cbn [orb]; [apply Hd; by intros (_ & ? & _)|].
  all: assert (may_retry (auth c)) as Hm by (split_and!; [done..|]; intros [? ?]; (done || lia)).
  all: destruct (request_header_ok (S (length (input r))) (input r) []) as ([q|] & rest & tee & Hrh & Hw & Ha); [lia|..]; rewrite Hrh; cbn [mbind outcome_bind];
    [|split; [done|]; by eexists _, _].
  all: split; [|done]; split.
  1, 3: split_and!; [done..|]; intros q' [= <-]; split_and!; [done..|]; destruct (Ha q eq_refl) as [_ [before ->]];
    apply forwarded_length in Hw; rewrite !length_app in Hw; apply short_query; unfold short; lia.
  all: cbn; exists ls, content, new_side; by split_and!.
Qed.

Lemma relay_read_ok c n r : inv c -> relay c = Some r -> 2 <= state_number (cstate c) -> (0 < n <= length (arrived r))%nat -> Zlen (input r) + Z.of_nat n <= HTTP_HEAD_WM_HIGH ->
  match httpr_relay_read_cb (set_relay (receive n <$> relay c) c) with
  | Go c' => inv c' /\ app c' = app c
  | Dropped c' => refused c'
  | Relaying c' => relayed c'
  | Stuck => cstate c = httpr_request_sent /\ lost_challenge (auth c) (input r ++ take n (arrived r))
  end.
Proof.
  intros [Hb Hs] Hr Hst Hn Hz. rewrite Hr. unfold httpr_relay_read_cb. cbn [fmap option_fmap option_map set_relay cstate relay]. rewrite (proj2 (Z.leb_le _ _)) by done.
  cbn [ASSERT mbind outcome_bind of_option]. set (r1 := receive n r). assert (Zlen (input r1) <= HTTP_HEAD_WM_HIGH) as Hz1 by (cbn; rewrite length_app, length_take; lia).
  assert (forall i, input r ++ arrived r = i -> input r1 ++ arrived r1 = i) as Hir by (intros i <-; cbn; by rewrite <- app_assoc, take_drop).
  match goal with |- context [set_relay_buffer httpr_buffer_init ?c'] => set (c0 := set_relay_buffer httpr_buffer_init c') end.
  assert (cstate c0 = cstate c) as Hcs by done. rewrite Hcs.
  destruct (cstate c) eqn:Es; [cbn in Hst; lia|cbn in Hst; lia|..|done].
  - destruct Hs as (ls & content & r' & Hco & Hr' & Hk & Hseen & _). rewrite Hr in Hr'. injection Hr' as <-.
    assert (complete ls content c0) as Hco0 by (destruct Hco; by split). assert (asked ls content c0 r1) as Hk1 by exact Hk.
    destruct (redsocks_evbuffer_readline (input r1)) as [[line rest]|] eqn:E.
    + pose proof (readline_spec _ _ _ E) as [_ Hrl]. unfold HTTP_HEAD_WM_HIGH in Hz1.
      set (r2 := set_input rest r1). destruct (copy_line_ok (set_relay (Some r2) c0) line [] httpr_holds_init) as (b & -> & Hbh); [cbn; lia|]. cbn [mbind outcome_bind].
      set (c1 := set_relay_buffer b (set_relay (Some r2) c0)).
      assert (complete ls content c1) as Hco1 by (destruct Hco; by split). assert (base c1) as Hb1 by done.
      assert (next_line (seen r) = Some (line, rest ++ arrived r1)) as Hnl.
      { rewrite <- (Hir _ Hseen). by apply (readline_next _ _ _ _ E). }
      assert (refused_reply (auth c1) (seen r) -> refused c1) as Hrf by (intros H; split; [apply Hb|]; right; right; by exists r2).
      destruct (scan_status line) as [code|] eqn:Esc; [|apply Hrf; unfold refused_reply; by rewrite Hnl, Esc].
      destruct (code =? 407) eqn:E4; zify_bool.
      * subst code. pose proof (httpr_challenged_ok c1 r2 ls content line _ Hb1 Hco1 eq_refl ltac:(cbn; unfold HTTP_HEAD_WM_HIGH; lia) Hnl Esc) as Hch.
        destruct (challenged c1 r2) as [[| | |]|]; try done. split; [done|]. destruct Hch as (Hm & rest' & tee & Hh). by exists line, rest, rest', tee.
      * destruct ((100 <=? code) && (code <=? 999)) eqn:Ec; zify_bool.
        -- pose proof (finish_ok (set_state httpr_reply_came c1) r2 [line] ls content [] (line ++ CRLF)) as Hfi.
           assert (replied [line] r2) as Hrep.
           { split; [|split; [by exists code|constructor]]. change [line] with ([] ++ [line]). apply (lines_step _ _ (input r1) (arrived r1)); [|done]. rewrite (Hir _ Hseen). constructor. }
           specialize (Hfi Hb1 eq_refl ltac:(destruct Hco; by split) Hk1 ltac:(cbn; unfold HTTP_HEAD_WM_HIGH; lia) ltac:(rewrite length_app; cbn; lia) Hbh Hrep).
           specialize (Hfi ltac:(unfold print; cbn; by rewrite app_nil_r)). by destruct (lift _).
        -- apply Hrf. unfold refused_reply. rewrite Hnl, Esc. right. lia.
    + destruct (_ <=? _) eqn:EW; zify_bool.
      * split; [apply Hb|]. right; right. exists r1. split; [done|]. unfold refused_reply. change (seen r1) with (seen r). rewrite <- (Hir _ Hseen), readline_none_next by (done || lia).
        rewrite length_app. lia.
      * unfold finish_reply. rewrite Hcs. cbn [mbind outcome_bind cstate set_relay]. rewrite Hcs. cbn [lift]. split; [|done]. split; [done|]. cbn [cstate set_relay]. rewrite Hcs.
        exists ls, content, r1. split_and!; try done; by apply Hir.
  - destruct Hs as (ls & content & r' & rls & Hco & Hr' & Hk & [Hl Ha] & _). rewrite Hr in Hr'. injection Hr' as <-.
    assert (complete ls content c0) as Hco0 by (destruct Hco; by split).
    pose proof (finish_ok c0 r1 rls ls content (print rls) [] Hb Hcs Hco0 Hk Hz1 ltac:(cbn; lia) httpr_holds_init) as Hfi.
    specialize (Hfi ltac:(split; [by rewrite (Hir _ eq_refl)|done]) ltac:(by rewrite app_nil_r)). by destruct (lift _).
Qed.

(** ** Runs *)

(** The events that fault: a header that is just the word Host, a challenge that is
    just the word Digest, and a challenge that is not there. *)
Definition faulty (c : client) (e : event) : Prop :=
  match e with
  | AppRead _ => exists ls rest line, lines (seen (app c)) ls rest /\ line ∈ tl ls /\ is_host line = true /\ Zlen line < 5
  | Writable => exists q, last_auth_query (auth c) = Some q /\ strncasecmp_eq 6 q (chars "Digest") = true /\ Zlen q < 7
  | RelayRead n => exists r, relay c = Some r /\ lost_challenge (auth c) (input r ++ take n (arrived r))
  | _ => False
  end.
Definition app_data (e : event) : list Z := match e with AppArrive d => d | _ => [] end.

Lemma app_read_content n c ls content : wf_config cfg -> base c -> 1 <= state_number (cstate c) -> complete ls content c ->
  exists b, let d := take n (arrived (app c)) in
    let c' := set_relay (if 2 <=? state_number (cstate c) then write d <$> relay c else relay c) (set_app (mkSide (seen (app c)) (drop n (arrived (app c))) [] (written (app c))) (set_client_buffer b c)) in
    httpr_client_read_cb (set_app (receive n (app c)) c) = Go c' /\ complete ls (content ++ d) c'.
Proof.
  intros Hw (Hbd & _) Hs [Hl Hi Hne Hf Hb]. unfold httpr_client_read_cb. cbn [cstate set_app]. rewrite (proj2 (Z.leb_le _ _)) by done.
  pose proof (lines_length _ _ _ Hl) as Hlen. pose proof (header_length ls Hw). rewrite print_snoc, !length_app in Hlen.
  destruct (read_content_ok (set_app (receive n (app c)) c) (header ls ++ content)) as (b & Hb' & ->); [done| |].
  { cbn. rewrite Hi. rewrite !length_app. cbn. rewrite length_take. lia. }
  exists b. cbn [mbind outcome_bind lift]. cbn in Hb'. rewrite Hi in Hb'. cbn in Hb'. split.
  - unfold set_relay, set_app, set_client_buffer, set_httpr, set_input, receive. cbn. by rewrite Hi.
  - split; cbn; try done; [|by rewrite app_assoc]. by rewrite <- app_assoc, take_drop.
Qed.

Lemma relay_step_ok c e : length ctx = 64%nat -> (forall n, length (cnonce n) = 16%nat) -> wf_config cfg -> inv c -> enabled c e ->
  Zlen (seen (app c)) + Zlen (app_data e) <= 2 ^ 25 ->
  match handle c e with
  | Go c' => inv c' /\ seen (app c') = seen (app c) ++ app_data e
  | Dropped c' => refused c'
  | Relaying c' => relayed c'
  | Stuck => faulty c e
  end.
Proof.
  intros Hc Hn Hw Hi He Hz. pose proof Hi as [Hb Hs]. destruct e as [d|n| |d|n]; cbn [handle app_data] in *; rewrite ?app_nil_r.
  - split; [|done]. split; [destruct Hb as (? & ? & ?); split_and!; [cbn; rewrite length_app; lia|done..]|]. cbn [cstate set_app].
    destruct (cstate c) eqn:Es; [|..|done].
    + destruct Hs as (ls & [H1 H2 H3 H4 H5] & H6). exists ls. split; [|done]. split; cbn; try done. rewrite app_assoc. by apply lines_app.
    + destruct Hs as (ls & content & r & [H1 H2 H3 H4 H5] & H6). exists ls, content, r. split; [|done]. split; cbn; try done. rewrite app_assoc. by apply lines_app.
    + destruct Hs as (ls & content & r & [H1 H2 H3 H4 H5] & H6). exists ls, content, r. split; [|done]. split; cbn; try done. rewrite app_assoc. by apply lines_app.
    + destruct Hs as (ls & content & r & rls & [H1 H2 H3 H4 H5] & H6). exists ls, content, r, rls. split; [|done]. split; cbn; try done. rewrite app_assoc. by apply lines_app.
  - destruct (cstate c) eqn:Es; [|..|done].
    + destruct Hs as (ls & [H1 H2 H3 H4 H5] & _). unfold httpr_client_read_cb. cbn [cstate set_app]. rewrite Es. cbn [state_number Z.leb Z.compare].
      pose proof (read_lines_ok (S (length (input (receive n (app c))))) (set_app (receive n (app c)) c) ls Hw) as Hrl. cbn [app set_app] in Hrl |- *.
      specialize (Hrl ltac:(cbn; lia) Hb). specialize (Hrl ltac:(split; cbn; try done; by rewrite <- app_assoc, take_drop)).
      destruct (lift _) as [c'| | |]; try done. destruct Hrl as [? ->]. by split.
    + destruct Hs as (ls & content & r & H1 & H2 & H3). destruct (app_read_content n c ls content Hw Hb) as (b & -> & H4); [rewrite Es; cbn; lia|done|].
      split; [|done]. split; [done|]. cbn [cstate set_relay set_app set_client_buffer set_httpr]. rewrite Es in *. by exists ls, (content ++ take n (arrived (app c))), r.
    + destruct Hs as (ls & content & r & H1 & H2 & (first & cred & H3 & H4 & H5) & H6 & H8 & H9). destruct (app_read_content n c ls content Hw Hb) as (b & -> & H7); [rewrite Es; cbn; lia|done|].
      split; [|done]. split; [done|]. cbn [cstate set_relay set_app set_client_buffer set_httpr]. rewrite Es in *. cbn [state_number Z.leb Z.compare Pos.compare Pos.compare_cont] in *.
      rewrite H2 in *. exists ls, (content ++ take n (arrived (app c))), (write (take n (arrived (app c))) r). split_and!; try done.
      exists first, cred. split_and!; [done..|]. cbn. by rewrite H5, <- !app_assoc.
    + destruct Hs as (ls & content & r & rls & H1 & H2 & (first & cred & H3 & H4 & H5) & H6 & H8 & H9). destruct (app_read_content n c ls content Hw Hb) as (b & -> & H7); [rewrite Es; cbn; lia|done|].
      split; [|done]. split; [done|]. cbn [cstate set_relay set_app set_client_buffer set_httpr]. rewrite Es in *. cbn [state_number Z.leb Z.compare Pos.compare Pos.compare_cont] in *.
      rewrite H2 in *. exists ls, (content ++ take n (arrived (app c))), (write (take n (arrived (app c))) r), rls. split_and!; try done.
      exists first, cred. split_and!; [done..|]. cbn. by rewrite H5, <- !app_assoc.
  - pose proof (httpr_write_cb_ok c Hc Hn Hw Hi He) as Hwr. destruct (httpr_relay_write_cb c); try done. destruct Hwr as [? ->]. done.
  - cbn in He. split; [|done]. split; [done|]. cbn [cstate set_relay]. destruct (cstate c) eqn:Es; [|..|done].
    + destruct Hs as (ls & [_ H _ _ _] & _). done.
    + destruct Hs as (ls & content & r & H1 & H2 & H3 & H4 & H5). exists ls, content, (arrive d r). cbn. rewrite H2, H5. split_and!; try done. by destruct H1.
    + destruct Hs as (ls & content & r & H1 & H2 & H3 & H4 & H5). exists ls, content, (arrive d r). cbn. rewrite H2. split_and!; try done; [by destruct H1|by rewrite app_assoc, H4|by destruct H5..].
    + destruct Hs as (ls & content & r & rls & H1 & H2 & H3 & [H4 H4'] & H5). exists ls, content, (arrive d r), rls. cbn. rewrite H2. split_and!; try done; [by destruct H1| |by destruct H5..].
      split; [|done]. cbn. rewrite app_assoc. by apply lines_app.
  - destruct He as (r & Hr & H2 & Hnn & Hz'). pose proof (relay_read_ok c n r Hi Hr H2 Hnn Hz') as Hrr. destruct (httpr_relay_read_cb _); try done.
    + destruct Hrr as [? ->]. done.
    + exists r. by destruct Hrr.
Qed.

Lemma httpr_inv_init a : query_ok a -> inv (httpr_client_init a).
Proof.
  intros Hq. split; [by split_and!; [cbn; lia|..]|]. cbn. exists []. split; [|done]. split; try done; [constructor|constructor|]. split_and!; [done..|apply httpr_holds_init].
Qed.

(** What a client comes to, from the state [c]. *)
Definition outcome_of (c0 : flow) (es : list event) (m : flow) : Prop :=
  match m with
  | Go c => inv c
  | Dropped c => refused c
  | Relaying c => relayed c
  | Stuck => exists before e c, es = before ++ [e] /\ run c0 before (Go c) /\ enabled c e /\ faulty c e
  end.

Lemma httpr_run_ok m0 es m : length ctx = 64%nat -> (forall n, length (cnonce n) = 16%nat) -> wf_config cfg ->
  run m0 es m -> forall c, m0 = Go c -> inv c -> Zlen (seen (app c)) + Zlen (concat (map app_data es)) <= 2 ^ 25 -> outcome_of m0 es m.
Proof.
  intros Hc Hn Hw. induction 1 as [m|c e es m He Hr IH]; intros c0 E Hi Hz; [by subst|]. injection E as <-. cbn [map concat] in Hz. rewrite length_app in Hz.
  pose proof (relay_step_ok c e Hc Hn Hw Hi He ltac:(lia)) as Hst. destruct (handle c e) as [c'|c'|c'|] eqn:Eh.
  - destruct Hst as [Hi' Hseen]. specialize (IH c' eq_refl Hi'). rewrite Hseen, length_app in IH. specialize (IH ltac:(lia)).
    destruct m as [| | |]; try done. destruct IH as (before & e' & c1 & -> & Hr1 & He1 & Hf1). exists (e :: before), e', c1. split_and!; try done. constructor; [done|]. by rewrite Eh.
  - by inversion Hr; subst.
  - by inversion Hr; subst.
  - inversion Hr; subst. exists [], e, c. split_and!; try done. constructor.
Qed.

(** C25: A client of an HTTP proxy that does not know CONNECT, for every
    fragmentation of the request and of the reply and every interleaving of the
    two sides, when the request has at most 32 MiB: while it waits, every complete
    line of the request's header was read, and after its end everything that was read
    is kept and, once the proxy is connected, was sent: the first line with an
    absolute URI, the credentials, the headers without those for the
    connection, and the content. It is dropped only if the request is malformed
    or the reply is refused, and nothing was written to it then. Relaying starts
    exactly behind the header of the reply, of which the client has got an end.
    The only faults are those of [faulty]. *)
Theorem http_relay_run a es m : length ctx = 64%nat -> (forall n, length (cnonce n) = 16%nat) -> wf_config cfg -> query_ok a ->
  run (Go (httpr_client_init a)) es m -> Zlen (concat (map app_data es)) <= 2 ^ 25 -> outcome_of (Go (httpr_client_init a)) es m.
Proof. intros Hc Hn Hw Hq Hr Hz. eapply httpr_run_ok; try done. by apply httpr_inv_init. Qed.

End with_config.

(** A request in two pieces with content, credentials, a reply in one piece. *)
Definition sample_config : config :=
  HttpConnect.mkConfig (Some (chars "user")) (Some (chars "pass")) false HttpConnect.DISCLOSE_NONE (chars "192.0.2.7") (chars "8080") [] [].
Definition sample_hash : list Z := repeat 0 64.
Definition sample_cnonce (_ : Z) : list Z := repeat 48 16.
Definition sample_request : list Z :=
  chars "POST /x HTTP/1.1" ++ CRLF ++ chars "connection: keep-alive" ++ CRLF ++ chars "Host: example.org" ++ CRLF ++ chars "Content-Length: 2" ++ CRLF ++ CRLF ++ chars "hi".
Definition sample_reply : list Z := chars "HTTP/1.1 200 OK" ++ CRLF ++ chars "Server: x" ++ CRLF ++ CRLF ++ chars "body".
Definition sample_start (query : option (list Z)) : flow := Go (httpr_client_init (mkAuth query 0)).
(** Runs that are computed, with the conditions of the events checked. *)
Definition enabledb (c : client) (e : event) : bool :=
  match e with
  | AppArrive _ => true
  | AppRead n => bool_decide (0 < n <= length (arrived (app c)))%nat
  | Writable | RelayArrive _ => bool_decide (relay c <> None)
  | RelayRead n => match relay c with
      | Some r => bool_decide (2 <= state_number (cstate c) /\ (0 < n <= length (arrived r))%nat /\ Zlen (input r) + Z.of_nat n <= HTTP_HEAD_WM_HIGH)
      | None => false
      end
  end.
Lemma httpr_enabledb_ok c e : enabledb c e = true -> enabled c e.
Proof. destruct e; cbn; try apply bool_decide_eq_true; [done|]. destruct (relay c) as [r|]; [|done]. intros ?%bool_decide_eq_true. by exists r. Qed.
Fixpoint sample_run (m : flow) (es : list event) : option flow :=
  match m, es with
  | m, [] => Some m
  | Go c, e :: es => if enabledb c e then sample_run (handle sample_config sample_hash sample_cnonce c e) es else None
  | _, _ => None
  end.
Lemma sample_run_ok es : forall m m', sample_run m es = Some m' -> run sample_config sample_hash sample_cnonce m es m'.
Proof.
  induction es as [|e es IH]; intros m m'; cbn; [destruct m; intros [= <-]; constructor|]. destruct m as [c| | |]; try done.
  destruct (enabledb c e) eqn:E; [|done]. intros H. constructor; [by apply httpr_enabledb_ok|by apply IH].
Qed.

Definition sample_events : list event :=
  [AppArrive sample_request; AppRead 20; AppRead 63; Writable; AppRead 1; RelayArrive sample_reply; RelayRead 31].

Lemma http_relay_run_witness :
  exists c r, run sample_config sample_hash sample_cnonce (sample_start (Some (chars "Basic x"))) sample_events (Relaying c) /\
    relayed sample_config sample_hash sample_cnonce c /\ relay c = Some r /\
    written r = chars "POST http://example.org/x HTTP/1.1" ++ CRLF ++ chars "Proxy-Authorization: Basic dXNlcjpwYXNz" ++ CRLF ++
      chars "Host: example.org" ++ CRLF ++ chars "Content-Length: 2" ++ CRLF ++ chars "Proxy-Connection: close" ++ CRLF ++ chars "Connection: close" ++ CRLF ++ CRLF ++ chars "hi" /\
    written (app c) = chars "HTTP/1.1 200 OK" ++ CRLF ++ chars "Server: x" ++ CRLF ++ CRLF /\ input r ++ arrived r = chars "body".
Proof.
  assert (match sample_run (sample_start (Some (chars "Basic x"))) sample_events with
    | Some (Relaying c) => match relay c with Some r => bool_decide (
        written r = chars "POST http://example.org/x HTTP/1.1" ++ CRLF ++ chars "Proxy-Authorization: Basic dXNlcjpwYXNz" ++ CRLF ++
          chars "Host: example.org" ++ CRLF ++ chars "Content-Length: 2" ++ CRLF ++ chars "Proxy-Connection: close" ++ CRLF ++ chars "Connection: close" ++ CRLF ++ CRLF ++ chars "hi" /\
        written (app c) = chars "HTTP/1.1 200 OK" ++ CRLF ++ chars "Server: x" ++ CRLF ++ CRLF /\ input r ++ arrived r = chars "body") | None => false end
    | _ => false end = true) as Hx by (vm_compute; reflexivity).
  destruct (sample_run _ _) as [[c|c|c|]|] eqn:E; try discriminate Hx. destruct (relay c) as [r|] eqn:Er; [|discriminate Hx]. apply bool_decide_eq_true in Hx.
  apply sample_run_ok in E. exists c, r. split; [exact E|]. split; [|split; [exact Er|exact Hx]].
  apply (http_relay_run sample_config sample_hash sample_cnonce (mkAuth (Some (chars "Basic x")) 0) sample_events (Relaying c)); [reflexivity|reflexivity| | |exact E|vm_compute; discriminate].
  - split_and!; [intros s [= <-]|intros s [= <-]|cbn; lia|cbn; lia|cbn; lia|by repeat constructor]; (split; [repeat constructor; lia|vm_compute; discriminate]).
  - intros q [= <-]. split_and!; [discriminate|discriminate|vm_compute; discriminate].
Defined.

(** *** What the code does not do *)
Definition short_request : list Z := chars "GET / HTTP/1.0" ++ CRLF ++ CRLF.
Definition after_request : list event := [AppArrive short_request; AppRead 18; Writable].

(** The copy of the reply's header is started anew with every read: when the header
    comes in two pieces the client gets only the second one. *)
Lemma reply_header_lost :
  match sample_run (sample_start None) (after_request ++ [RelayArrive sample_reply; RelayRead 17; RelayRead 13]) with
  | Some (Relaying c) => written (app c) = chars "Server: x" ++ CRLF ++ CRLF
  | _ => False
  end.
Proof. vm_compute. reflexivity. Qed.

(** A 407 reply without a challenge: the status line is freed twice. *)
Lemma challenge_double_free :
  sample_run (sample_start None) (after_request ++ [RelayArrive (chars "HTTP/1.1 407 No" ++ CRLF ++ CRLF); RelayRead 19]) = Some Stuck.
Proof. vm_compute. reflexivity. Qed.

(** A header that is just the word Host: the value is read behind the end of the line. *)
Lemma host_overread :
  sample_run (sample_start None) [AppArrive (chars "GET / HTTP/1.0" ++ CRLF ++ chars "Host" ++ CRLF); AppRead 22] = Some Stuck.
Proof. vm_compute. reflexivity. Qed.

(** A buffer for more than 1 GiB: the size overflows. *)
Lemma buffer_overflow : double 32 (2 ^ 30 + 1) 4096 = Fault.
Proof. vm_compute. reflexivity. Qed.

End HttpRelay.
