(* ===== verification/RedParser.v ===== *)
(** The parser of redsocks' configuration file (redsocks/parser.c): tokens, comments,
    sections with assignments and the parsers of values, over a buffer that is filled
    line by line and grows when a line does not fit. The parser that is
    specified reads the whole text at once. *)
From Stdlib Require Import ZArith Lia String Ascii.
From stdpp Require Import base tactics numbers option list.
From S2P Require Import Prelude Base64 HttpAuth HttpConnect.

Module RedParser.
Import Base64(chars).
Import HttpAuth(isspace, at_ptr, skip_while, take_while, cstring, LF, QUOTE, skip_while_app, skip_none, length_skip, skip_take).
Import HttpConnect(isdigit, disclose_src_e, DISCLOSE_NONE, DISCLOSE_X_FORWARDED_FOR, DISCLOSE_FORWARDED_IP, DISCLOSE_FORWARDED_IPPORT).

(** ** Characters *)
Definition BACKSLASH : Z := 92.
Definition SLASH : Z := 47.
Definition STAR : Z := 42.
Definition isalpha (c : Z) : bool := ((65 <=? c) && (c <=? 90)) || ((97 <=? c) && (c <=? 122)).
Definition isalnum (c : Z) : bool := isalpha c || isdigit c.
(** Characters of words: letters, digits, underscore, dot and minus. *)
Definition word_char (c : Z) : bool := isalnum c || (c =? 95) || (c =? 46) || (c =? 45).
Definition punctuation (c : Z) : bool := (c =? 123) || (c =? 125) || (c =? 61) || (c =? 59).

Definition unescape (c : Z) : Z :=
  if c =? 110 then 10 else if c =? 116 then 9 else if c =? 114 then 13
  else if c =? BACKSLASH then BACKSLASH else if c =? 39 then 39 else if c =? QUOTE then QUOTE else 0.

(** ** Tokens *)

(** The length of a quoted string; [Short] when its end is not there. *)
Inductive scan := Len (n : nat) | Short | BadEscape.
Fixpoint scan_cstr (p : list Z) (len : nat) : scan :=
  match p with
  | [] => Short
  | c :: p =>
      if c =? QUOTE then Len len
      else if c =? BACKSLASH then
        match p with
        | [] => Short
        | d :: p => if unescape d =? 0 then BadEscape else scan_cstr p (S len)
        end
      else scan_cstr p (S len)
  end.
(** The second pass over it: the string and what follows. *)
Fixpoint copy_cstr (p : list Z) : option (list Z * list Z) :=
  match p with
  | [] => None
  | c :: p =>
      if c =? QUOTE then Some ([], p)
      else if c =? BACKSLASH then
        match p with
        | [] => None
        | d :: p => (fun '(s, rest) => (unescape d :: s, rest)) <$> copy_cstr p
        end
      else (fun '(s, rest) => (c :: s, rest)) <$> copy_cstr p
  end.

(** The length of a number or an address with a mask. *)
Fixpoint scan_number (p : list Z) : option nat :=
  match p with
  | [] => None
  | c :: p =>
      if isdigit c || (c =? 46) then S <$> scan_number p
      else if c =? SLASH then
        if isdigit (at_ptr p) then S <$> scan_number p
        else if (at_ptr p =? SLASH) || (at_ptr p =? STAR) then Some O
        else None
      else Some O
  end.
Fixpoint scan_word (p : list Z) : option nat :=
  match p with [] => None | c :: p => if word_char c then S <$> scan_word p else Some O end.

(** A token with what follows it; or NULL with the place of [iter]; or an error. *)
Inductive lexed := Token (t rest : list Z) | Partial (iter : list Z) | Broken.
Definition plainstr (iter : list Z) (n : option nat) : lexed :=
  match n with Some n => Token (take n iter) (drop n iter) | None => Partial iter end.

(** At a character that is not a space. *)
Definition token_at (c : Z) (p : list Z) : outcome lexed :=
  let iter := c :: p in
  if c =? QUOTE then
    match scan_cstr p 0 with
    | Short => Ok (Partial iter)
    | BadEscape => Ok Broken
    | Len n =>
        (* [n + 1] bytes are allocated *)
        of_option (copy_cstr p) ≫= fun '((t, rest) : list Z * list Z) =>
        ASSERT (Zlen t <=? Z.of_nat n);; Ok (Token t rest)
    end
  else if isdigit c then Ok (plainstr iter (scan_number iter))
  else if isalpha c then Ok (plainstr iter (scan_word iter))
  else if punctuation c then Ok (plainstr iter (Some 1%nat))
  else if (c =? SLASH) && ((at_ptr p =? SLASH) || (at_ptr p =? STAR)) then Ok (plainstr iter (Some 2%nat))
  else Ok Broken.
Definition gettoken (text : list Z) : outcome lexed :=
  match skip_while isspace text with [] => Ok (Partial []) | c :: p => token_at c p end.

(** ** Values *)
Inductive parser_type :=
  pt_bool | pt_pchar | pt_uint16 | pt_uint32 | pt_in_addr | pt_in_addr2 | pt_disclose_src | pt_on_proxy_fail | pt_obsolete | pt_redsocks_max_accept_backoff.
Inductive on_proxy_fail_e := ONFAIL_CLOSE | ONFAIL_FORWARD_HTTP_ERR.
Inductive value := VBool (b : bool) | VPchar (s : list Z) | VInt (n : Z) | VAddr (a : Z) | VDisclose (d : disclose_src_e) | VOnFail (f : on_proxy_fail_e).
(** What was assigned, by address, the last one first. *)
Notation store := (list (Z * value)).

Record parser_entry := mkEntry { key : list Z; type : parser_type; addr : Z }.
Record parser_section := mkSection {
  name : list Z; entries : list parser_entry;
  onenter : store -> option store; onexit : store -> option store
}.

(** [strtoul] with base 0: the number and the characters from [end]. *)
Definition digit_value (c : Z) : option Z :=
  if isdigit c then Some (c - 48) else if (97 <=? c) && (c <=? 102) then Some (c - 87) else if (65 <=? c) && (c <=? 70) then Some (c - 55) else None.
Fixpoint digits (base : Z) (p : list Z) (acc : Z) : Z * list Z :=
  match p with
  | [] => (acc, [])
  | c :: p' => match digit_value c with Some d => if d <? base then digits base p' (acc * base + d) else (acc, p) | None => (acc, p) end
  end.
Definition is_hex (c : Z) : bool := match digit_value c with Some _ => true | None => false end.
Definition ULONG_MAX : Z := 2 ^ 64 - 1.
Definition strtoul (token : list Z) : Z * list Z :=
  let p := skip_while isspace token in
  let negative := at_ptr p =? 45 in
  let p := if negative || (at_ptr p =? 43) then tl p else p in
  let x := at_ptr (tl p) in
  let '(base, p') :=
    if (at_ptr p =? 48) && ((x =? 120) || (x =? 88)) && is_hex (at_ptr (tl (tl p))) then (16, tl (tl p))
    else if at_ptr p =? 48 then (8, p) else (10, p) in
  if isdigit (at_ptr p) then
    let '(n, rest) := digits base p' 0 in
    let n := if ULONG_MAX <? n then ULONG_MAX else if negative then (- n) mod 2 ^ 64 else n in
    (n, rest)
  else (0, token).

Section with_resolver.
(** [inet_aton], and the address [getaddrinfo] and the random choice give. Addresses
    are numbers in host order. *)
Context (inet_aton : list Z -> option Z) (resolve : list Z -> option Z).

Definition vp_pbool (token : list Z) : option value :=
  if bool_decide (token ∈ [chars "ok"; chars "on"; chars "yes"; chars "true"]) then Some (VBool true)
  else if bool_decide (token ∈ [chars "off"; chars "no"; chars "false"]) then Some (VBool false)
  else None.
Definition disclose_opt : list (list Z * disclose_src_e) :=
  [(chars "off", DISCLOSE_NONE); (chars "no", DISCLOSE_NONE); (chars "false", DISCLOSE_NONE); (chars "X-Forwarded-For", DISCLOSE_X_FORWARDED_FOR);
   (chars "Forwarded_ip", DISCLOSE_FORWARDED_IP); (chars "Forwarded_ipport", DISCLOSE_FORWARDED_IPPORT)].
Definition vp_disclose_src (token : list Z) : option value :=
  (fun x => VDisclose (snd (snd x))) <$> list_find (fun x => token = fst x) disclose_opt.
Definition on_fail_opt : list (list Z * on_proxy_fail_e) := [(chars "close", ONFAIL_CLOSE); (chars "forward_http_err", ONFAIL_FORWARD_HTTP_ERR)].
Definition vp_on_proxy_fail (token : list Z) : option value :=
  (fun x => VOnFail (snd (snd x))) <$> list_find (fun x => token = fst x) on_fail_opt.
Definition vp_pchar (token : list Z) : option value := Some (VPchar token).
Definition vp_uint16 (token : list Z) : option value :=
  let '(uli, rest) := strtoul token in
  if 65535 <? uli then None else if negb (at_ptr rest =? 0) then None else Some (VInt uli).
Definition vp_uint32 (token : list Z) : option value :=
  let '(uli, rest) := strtoul token in if negb (at_ptr rest =? 0) then None else Some (VInt (u32 uli)).
Definition vp_in_addr (token : list Z) : option value :=
  VAddr <$> match inet_aton token with Some a => Some a | None => resolve token end.

(** Address and mask, which are stored even when the other one is not valid. *)
Definition INADDR_BROADCAST : Z := 0xffffffff.
Definition vp_in_addr2 (addr : Z) (token : list Z) (st : store) : store * bool :=
  let host := take_while (fun c => negb (c =? SLASH)) token in
  let mask := skip_while (fun c => negb (c =? SLASH)) token in
  let '(st, ok) := match inet_aton host with Some a => ((addr, VAddr a) :: st, true) | None => (st, false) end in
  match mask with
  | [] => (st, ok)
  | _ :: mask =>
      let '(uli, rest) := strtoul mask in
      if at_ptr rest =? 46 then match inet_aton mask with Some a => ((addr + 1, VAddr a) :: st, ok) | None => (st, false) end
      else if (0 <? uli) && (uli <? 32) then ((addr + 1, VAddr (u32 (Z.shiftl INADDR_BROADCAST (32 - uli)))) :: st, ok)
      else (st, false)
  end.

(** The table of parsers by type: the memory, and whether the value is good. *)
Definition value_parser_by_type (t : parser_type) (addr : Z) (token : list Z) (st : store) : store * bool :=
  let write (v : option value) := match v with Some v => ((addr, v) :: st, true) | None => (st, false) end in
  match t with
  | pt_bool => write (vp_pbool token)
  | pt_pchar => write (vp_pchar token)
  | pt_uint16 => write (vp_uint16 token)
  | pt_uint32 => write (vp_uint32 token)
  | pt_in_addr => write (vp_in_addr token)
  | pt_in_addr2 => vp_in_addr2 addr token st
  | pt_disclose_src => write (vp_disclose_src token)
  | pt_on_proxy_fail => write (vp_on_proxy_fail token)
  | pt_obsolete | pt_redsocks_max_accept_backoff => (st, false)
  end.

(** ** The meaning of tokens *)
Record pstate := mkPstate {
  section : option parser_section; section_token : option (list Z); key_token : option (list Z); value_token : option (list Z);
  error : bool; memory : store
}.
Definition parser_error (s : pstate) : pstate := mkPstate (section s) (section_token s) (key_token s) (value_token s) true (memory s).
Definition set_memory (m : store) (s : pstate) : pstate := mkPstate (section s) (section_token s) (key_token s) (value_token s) (error s) m.
Definition set_section (x : option parser_section) (s : pstate) : pstate := mkPstate x (section_token s) (key_token s) (value_token s) (error s) (memory s).
Definition set_section_token (t : option (list Z)) (s : pstate) : pstate := mkPstate (section s) t (key_token s) (value_token s) (error s) (memory s).
Definition set_tokens (k v : option (list Z)) (s : pstate) : pstate := mkPstate (section s) (section_token s) k v (error s) (memory s).
(** A callback: it gives the memory, or fails. *)
Definition callback (f : store -> option store) (s : pstate) : pstate :=
  match f (memory s) with Some m => set_memory m s | None => parser_error s end.

Section with_sections.
Context (sections : list parser_section).

Definition open_section (s : pstate) : pstate :=
  match section s, section_token s with
  | Some _, _ | _, None => parser_error s
  | None, Some t =>
      let s := match list_find (fun p => name p = t) sections with
        | Some (_, p) => callback (onenter p) (set_section (Some p) s)
        | None => parser_error s
        end in
      set_section_token None s
  end.
Definition close_section (s : pstate) : pstate :=
  match section s with Some p => set_section None (callback (onexit p) s) | None => parser_error s end.
Definition equals (s : pstate) : pstate :=
  match section s, key_token s with Some _, Some _ => s | _, _ => parser_error s end.
Definition semicolon (s : pstate) : outcome pstate :=
  (match section s with
   | None => Ok (parser_error s)
   | Some p =>
       match key_token s, value_token s with
       | Some _, None => Ok (parser_error s)
       | Some k, Some v =>
           Ok match list_find (fun e => key e = k) (entries p) with
              | Some (_, e) =>
                  let '(m, ok) := value_parser_by_type (type e) (addr e) v (memory s) in
                  let s := set_memory m s in if ok : bool then s else parser_error s
              | None => parser_error s
              end
       | None, _ => Fault
       end
   end) ≫= fun s => Ok (set_tokens None None s).
Definition plain_token (t : list Z) (s : pstate) : pstate :=
  match section s, section_token s, key_token s, value_token s with
  | None, None, _, _ => set_section_token (Some t) s
  | Some _, _, None, _ => set_tokens (Some t) (value_token s) s
  | Some _, _, Some k, None => set_tokens (Some k) (Some t) s
  | _, _, _, _ => parser_error s
  end.

Definition handle_token (t : list Z) (s : pstate) : outcome pstate :=
  if bool_decide (t = chars "{") then Ok (open_section s)
  else if bool_decide (t = chars "}") then Ok (close_section s)
  else if bool_decide (t = chars "=") then Ok (equals s)
  else if bool_decide (t = chars ";") then semicolon s
  else Ok (plain_token t s).

(** ** The buffer *)

(** What is left of the line after the comment. *)
Definition after_line (l : list Z) : option (list Z) :=
  match skip_while (fun c => negb (c =? LF)) l with [] => None | _ :: l => Some l end.
(** [strstr] for the end of a comment: what follows it. *)
Fixpoint after_comment (l : list Z) : option (list Z) :=
  match l with
  | [] => None
  | c :: l' => if (c =? STAR) && (at_ptr l' =? SLASH) then Some (tl l') else after_comment l'
  end.

(** The tokens of the buffer, until one is not complete, a comment begins or an error occurs. *)
Inductive tokens_end := More (s : pstate) (iter : list Z) | Comment (s : pstate) (rest : list Z) | Stop (s : pstate).
Fixpoint token_loop (fuel : nat) (iter : list Z) (s : pstate) : outcome tokens_end :=
  match fuel with
  | O => Fault
  | S fuel =>
      if error s then Ok (Stop s)
      else
        gettoken iter ≫= fun r =>
        match r with
        | Partial iter => Ok (More s iter)
        | Broken => Ok (Stop (parser_error s))
        | Token t rest =>
            if bool_decide (t = chars "//") then of_option (after_line rest) ≫= fun rest => token_loop fuel rest s
            else if bool_decide (t = chars "/*") then Ok (Comment s rest)
            else handle_token t s ≫= fun s => token_loop fuel rest s
        end
  end.

Record FILE := mkFile { unread : list Z; feof : bool }.
(** At most [n] bytes, up to the end of a line; whether the end of the file was met. *)
Fixpoint read_line (n : nat) (l : list Z) : list Z * list Z * bool :=
  match n with
  | O => ([], l, false)
  | S n =>
      match l with
      | [] => ([], [], true)
      | c :: l => if c =? LF then ([c], l, false) else let '(s, l, e) := read_line n l in (c :: s, l, e)
      end
  end.
Definition fgets (size : Z) (f : FILE) : option (list Z) * FILE :=
  if size <=? 1 then (Some [], f)
  else
    let '(s, l, e) := read_line (Z.to_nat (size - 1)) (unread f) in
    if bool_decide (s = []) then (None, mkFile l true) else (Some s, mkFile l e).

Record parser_context := mkContext {
  fd : FILE; data : list Z; size : Z; pst : pstate; in_comment : bool; need_more_space : bool; need_more_data : bool
}.

Definition tokens (d : list Z) (c : parser_context) : outcome parser_context :=
  token_loop (S (length d)) d (pst c) ≫= fun r =>
  Ok match r with
     | More s iter => mkContext (fd c) iter (size c) s false (need_more_space c) true
     | Comment s rest => mkContext (fd c) rest (size c) s true (need_more_space c) (need_more_data c)
     | Stop s => mkContext (fd c) d (size c) s false (need_more_space c) (need_more_data c)
     end.
Definition process (c : parser_context) : outcome parser_context :=
  if in_comment c then
    match after_comment (data c) with
    | Some rest => tokens rest c
    | None => Ok (mkContext (fd c) [] (size c) (pst c) true (need_more_space c) true)
    end
  else tokens (data c) c.

Definition parser_step (c : parser_context) : outcome parser_context :=
  ASSERT (Zlen (data c) <? size c);;
  let size := if need_more_space c then size c * 2 else size c in
  if need_more_data c then
    match fgets (size - Zlen (data c)) (fd c) with
    | (None, f) => Ok (mkContext f (data c) size (pst c) (in_comment c) false true)
    | (Some s, f) =>
        let s := cstring s in
        let data := data c ++ s in
        if bool_decide (last s = Some LF) then process (mkContext f data size (pst c) (in_comment c) false false)
        else Ok (mkContext f data size (pst c) (in_comment c) true true)
    end
  else process (mkContext (fd c) (data c) size (pst c) (in_comment c) false false).

Fixpoint parser_loop (fuel : nat) (c : parser_context) : outcome pstate :=
  if error (pst c) || feof (fd c) then Ok (pst c)
  else match fuel with O => Fault | S fuel => parser_step c ≫= parser_loop fuel end.

(** What is not closed is an error. *)
Definition finish (s : pstate) : pstate :=
  match section s, section_token s, key_token s, value_token s with
  | None, None, None, None => s
  | _, _, _, _ => parser_error s
  end.

(** The section that was added last is looked at first. *)
Definition parser_add_section (x : parser_section) (l : list parser_section) : list parser_section := x :: l.

Definition parser_start (text : list Z) (m : store) : parser_context :=
  mkContext (mkFile text false) [] 128 (mkPstate None None None None false m) false false true.
Definition fuel_of (text : list Z) : nat := 8 * length text + 3.
(** Whether the file was accepted, and the memory. *)
Definition parser_run (text : list Z) (m : store) : outcome (bool * store) :=
  parser_loop (fuel_of text) (parser_start text m) ≫= fun s =>
  let s := finish s in Ok (negb (error s), memory s).

(** ** Specification: the tokens of the whole text *)

(** The text up to the end of the last line that is complete. *)
Fixpoint complete (l : list Z) : list Z :=
  match l with
  | [] => []
  | c :: l => match complete l with [] => if c =? LF then [c] else [] | r => c :: r end
  end.
Fixpoint meaning_of (fuel : nat) (text : list Z) (s : pstate) : outcome pstate :=
  match fuel with
  | O => Fault
  | S fuel =>
      if error s then Ok s
      else
        gettoken text ≫= fun r =>
        match r with
        | Partial _ => Ok s
        | Broken => Ok (parser_error s)
        | Token t rest =>
            if bool_decide (t = chars "//") then of_option (after_line rest) ≫= fun rest => meaning_of fuel rest s
            else if bool_decide (t = chars "/*") then match after_comment rest with Some rest => meaning_of fuel rest s | None => Ok s end
            else handle_token t s ≫= meaning_of fuel rest
        end
  end.
Definition meaning (text : list Z) (s : pstate) : outcome pstate := meaning_of (S (length text)) text s.
Definition parse (text : list Z) (m : store) : outcome (bool * store) :=
  meaning (complete text) (mkPstate None None None None false m) ≫= fun s =>
  let s := finish s in Ok (negb (error s), memory s).

(** The same as a relation, which has no fuel: a derivation is a finite reading of
    the text. The only one that fails is an assignment that ends where none began:
    the code asserts a key there. *)
Inductive means : list Z -> pstate -> outcome pstate -> Prop :=
| means_error text s : error s = true -> means text s (Ok s)
| means_end text s i : error s = false -> gettoken text = Ok (Partial i) -> means text s (Ok s)
| means_broken text s : error s = false -> gettoken text = Ok Broken -> means text s (Ok (parser_error s))
| means_line text s rest rest' r : error s = false -> gettoken text = Ok (Token (chars "//") rest) -> after_line rest = Some rest' ->
    means rest' s r -> means text s r
| means_comment text s rest rest' r : error s = false -> gettoken text = Ok (Token (chars "/*") rest) -> after_comment rest = Some rest' ->
    means rest' s r -> means text s r
| means_unclosed text s rest : error s = false -> gettoken text = Ok (Token (chars "/*") rest) -> after_comment rest = None -> means text s (Ok s)
| means_token text s t rest s' r : error s = false -> gettoken text = Ok (Token t rest) -> t ∉ [chars "//"; chars "/*"] -> handle_token t s = Ok s' ->
    means rest s' r -> means text s r
| means_stray text s rest p : error s = false -> gettoken text = Ok (Token (chars ";") rest) -> section s = Some p -> key_token s = None ->
    means text s Fault.

(** The loop over the file without fuel: it ends with a state, or a step of it fails. *)
Inductive ends : parser_context -> outcome pstate -> Prop :=
| ends_state c : error (pst c) || feof (fd c) = true -> ends c (Ok (pst c))
| ends_fault c : error (pst c) || feof (fd c) = false -> parser_step c = Fault -> ends c Fault
| ends_step c c' r : error (pst c) || feof (fd c) = false -> parser_step c = Ok c' -> ends c' r -> ends c r.

(** ** Tokens do not depend on what follows *)

(** Data that is made of complete lines. *)
Definition whole (l : list Z) : Prop := l = [] \/ last l = Some LF.

Lemma whole_suffix pre l : whole (pre ++ l) -> whole l.
Proof. intros [H|H]; [left; by apply app_eq_nil in H as [_ ?]|]. destruct l as [|c l]; [by left|right]. by rewrite last_app_cons in H. Qed.
Lemma whole_app l m : whole l -> whole m -> whole (l ++ m).
Proof. intros Hl Hm. destruct m as [|c m]; [by rewrite app_nil_r|]. right. rewrite last_app_cons. by destruct Hm. Qed.
Lemma at_ptr_app p m : p <> [] -> at_ptr (p ++ m) = at_ptr p.
Proof. by destruct p. Qed.
Lemma at_ptr_ne p : at_ptr p <> 0 -> p <> [].
Proof. by destruct p. Qed.
Lemma isdigit_ne c : isdigit c = true -> c <> 0 /\ c <> LF.
Proof. unfold isdigit, LF. lia. Qed.

Lemma scan_spec m p : forall k,
  match scan_cstr p k with
  | Len n => exists s rest pre, copy_cstr p = Some (s, rest) /\ n = (k + length s)%nat /\ p = pre ++ QUOTE :: rest /\
      scan_cstr (p ++ m) k = Len n /\ copy_cstr (p ++ m) = Some (s, rest ++ m)
  | BadEscape => scan_cstr (p ++ m) k = BadEscape
  | Short => True
  end.
Proof.
  induction p as [p IH] using (well_founded_induction (Wf_nat.well_founded_ltof _ (@length Z))). unfold Wf_nat.ltof in IH. intros k.
  destruct p as [|c p]; cbn [scan_cstr copy_cstr app]; [done|]. destruct (c =? QUOTE) eqn:Eq; zify_bool.
  { subst. exists [], p, []. split_and!; try done; cbn; lia. }
  destruct (c =? BACKSLASH).
  - destruct p as [|d p]; cbn [app]; [done|]. destruct (unescape d =? 0) eqn:Eu; [done|]. specialize (IH p ltac:(cbn; lia) (S k)). destruct (scan_cstr p (S k)) as [n| |]; try done.
    destruct IH as (s & rest & pre & -> & -> & Hp & -> & ->). exists (unescape d :: s), rest, (c :: d :: pre). split_and!; try done; [cbn; lia|by rewrite Hp].
  - specialize (IH p ltac:(cbn; lia) (S k)). destruct (scan_cstr p (S k)) as [n| |]; try done.
    destruct IH as (s & rest & pre & -> & -> & Hp & -> & ->). exists (c :: s), rest, (c :: pre). split_and!; try done; [cbn; lia|by rewrite Hp].
Qed.

Lemma number_spec m p : forall n, scan_number p = Some n ->
  (n <= length p)%nat /\ Forall (fun c => c <> LF) (take n p) /\ scan_number (p ++ m) = Some n.
Proof.
  induction p as [|c p IH]; intros n; cbn [scan_number app]; [done|]. destruct (isdigit c || (c =? 46)) eqn:Ed.
  - destruct (scan_number p) as [k|] eqn:Ek; [|done]. intros [= <-]. destruct (IH k eq_refl) as (H1 & H2 & ->). split_and!; [cbn; lia| |done]. constructor; [|done].
    apply orb_true_iff in Ed as [Ed|Ed]; [by apply isdigit_ne|]. unfold LF. lia.
  - destruct (c =? SLASH) eqn:Es.
    + destruct (isdigit (at_ptr p)) eqn:Ep.
      * rewrite at_ptr_app, Ep by (apply at_ptr_ne; by apply isdigit_ne in Ep as []). destruct (scan_number p) as [k|]; [|done]. intros [= <-].
        destruct (IH k eq_refl) as (H1 & H2 & ->). split_and!; [cbn; lia| |done]. constructor; [|done]. unfold SLASH, LF in *. lia.
      * destruct ((at_ptr p =? SLASH) || (at_ptr p =? STAR)) eqn:Ec; [|done]. intros [= <-].
        rewrite at_ptr_app, Ep, Ec; [split_and!; [lia|constructor|done]|]. apply at_ptr_ne. unfold SLASH, STAR in *. lia.
    + intros [= <-]. split_and!; [lia|constructor|done].
Qed.
Lemma word_spec m p : forall n, scan_word p = Some n ->
  (n <= length p)%nat /\ Forall (fun c => c <> LF) (take n p) /\ scan_word (p ++ m) = Some n.
Proof.
  induction p as [|c p IH]; intros n; cbn [scan_word app]; [done|]. destruct (word_char c) eqn:Ed.
  - destruct (scan_word p) as [k|] eqn:Ek; [|done]. intros [= <-]. destruct (IH k eq_refl) as (H1 & H2 & ->). split_and!; [cbn; lia| |done]. constructor; [|done].
    intros ->. done.
  - intros [= <-]. split_and!; [lia|constructor|done].
Qed.

Lemma skip_whole l m : skip_while isspace (l ++ m) = match skip_while isspace l with [] => skip_while isspace m | r => r ++ m end.
Proof. induction l as [|c l IH]; [done|]. cbn. by destruct (isspace c). Qed.
Lemma skip_suffix l : exists pre, l = pre ++ skip_while isspace l.
Proof. exists (take_while isspace l). by rewrite skip_take. Qed.

(** A plain token: it is not empty and ends before the end of the line. *)
Lemma plain_ok iter m n : match n with Some n => (0 < n <= length iter)%nat /\ Forall (fun c => c <> LF) (take n iter) | None => True end ->
  match plainstr iter n with
  | Token t rest => plainstr (iter ++ m) n = Token t (rest ++ m) /\ exists pre c, iter = pre ++ c :: rest /\ c <> LF
  | Partial i => i = iter
  | Broken => False
  end.
Proof.
  destruct n as [n|]; [|done]. intros [Hn Hl]. cbn. split; [by rewrite take_app_le, drop_app_le by lia|].
  destruct (take n iter) as [|c t _] eqn:E using rev_ind; [apply (f_equal length) in E; rewrite length_take in E; cbn in E; lia|].
  exists t, c. split; [rewrite <- (take_drop n iter) at 1; rewrite E; by rewrite <- app_assoc|]. rewrite Forall_app in Hl. destruct Hl as [_ Hl]. by apply Forall_cons in Hl as [? _].
Qed.

Lemma token_at_spec c p m :
  match token_at c p with
  | Fault => False
  | Ok (Token t rest) => token_at c (p ++ m) = Ok (Token t (rest ++ m)) /\ exists pre d, c :: p = pre ++ d :: rest /\ d <> LF
  | Ok (Partial i) => i = c :: p
  | Ok Broken => whole (c :: p) -> token_at c (p ++ m) = Ok Broken
  end.
Proof.
  unfold token_at. destruct (c =? QUOTE) eqn:Eq; zify_bool.
  { pose proof (scan_spec m p 0) as Hs. destruct (scan_cstr p 0) as [n| |] eqn:Esc; [|done|intros _; by rewrite Hs].
    destruct Hs as (s & rest & pre & -> & -> & Hp & -> & ->). cbn [of_option mbind outcome_bind]. rewrite Nat.add_0_l, Z.leb_refl. cbn [ASSERT mbind outcome_bind].
    split; [done|]. exists (c :: pre), QUOTE. split; [by rewrite Hp|done]. }
  assert (forall n n', (forall k, n = Some k -> n' = Some k /\ (0 < k <= length (c :: p))%nat /\ Forall (fun c => c <> LF) (take k (c :: p))) ->
    match Ok (plainstr (c :: p) n) with
    | Fault => False
    | Ok (Token t rest) => Ok (plainstr (c :: p ++ m) n') = Ok (Token t (rest ++ m)) /\ exists pre d, c :: p = pre ++ d :: rest /\ d <> LF
    | Ok (Partial i) => i = c :: p
    | Ok Broken => False
    end) as Hplain.
  { intros n n' Hn. pose proof (plain_ok (c :: p) m n) as Hp. destruct n as [k|]; [|done]. destruct (Hn k eq_refl) as (-> & Hk). destruct (Hp Hk) as [Hx ?]. by rewrite app_comm_cons, Hx. }
  destruct (isdigit c) eqn:Ed.
  { specialize (Hplain (scan_number (c :: p)) (scan_number (c :: p ++ m))). destruct (plainstr (c :: p) (scan_number (c :: p))); [..|exfalso]; apply Hplain; intros k Hk.
    all: destruct (number_spec m (c :: p) k Hk) as (H1 & H2 & H3); split_and!; try done; cbn [scan_number] in Hk; rewrite Ed in Hk; cbn in Hk; destruct (scan_number p); [|done]; injection Hk as <-; lia. }
  destruct (isalpha c) eqn:Ea.
  { specialize (Hplain (scan_word (c :: p)) (scan_word (c :: p ++ m))). destruct (plainstr (c :: p) (scan_word (c :: p))); [..|exfalso]; apply Hplain; intros k Hk.
    all: destruct (word_spec m (c :: p) k Hk) as (H1 & H2 & H3); split_and!; try done; cbn [scan_word] in Hk; unfold word_char, isalnum in Hk; rewrite Ea in Hk; cbn in Hk; destruct (scan_word p); [|done]; injection Hk as <-; lia. }
  destruct (punctuation c) eqn:Ep.
  { apply (Hplain (Some 1%nat) (Some 1%nat)). intros k [= <-]. split_and!; [done|lia|cbn; lia|]. constructor; [|constructor]. intros ->. done. }
  destruct ((c =? SLASH) && _) eqn:Ec.
  - apply andb_true_iff in Ec as [E1 E2]. rewrite at_ptr_app, E1, E2 by (apply at_ptr_ne; unfold SLASH, STAR in *; lia). cbn [andb].
    destruct p as [|d p]; [done|]. apply (Hplain (Some 2%nat) (Some 2%nat)). intros k [= <-]. split_and!; [done|lia|cbn; lia|].
    repeat constructor; unfold SLASH, STAR, LF in *; cbn in E2; lia.
  - intros Hw. destruct p as [|d p]; [|by rewrite at_ptr_app, Ec]. destruct Hw as [Hw|Hw]; [done|]. cbn in Hw. injection Hw as ->. done.
Qed.

(** What [gettoken] finds in complete lines, whatever follows them. *)
Lemma gettoken_spec l m :
  match gettoken l with
  | Fault => False
  | Ok (Token t rest) => gettoken (l ++ m) = Ok (Token t (rest ++ m)) /\ exists pre c, l = pre ++ c :: rest /\ c <> LF
  | Ok (Partial i) => gettoken (l ++ m) = gettoken (i ++ m) /\ gettoken i = Ok (Partial i) /\ exists pre, l = pre ++ i
  | Ok Broken => whole l -> gettoken (l ++ m) = Ok Broken
  end.
Proof.
  unfold gettoken. rewrite (skip_whole l m). destruct (skip_suffix l) as [pre Hpre]. destruct (skip_while isspace l) as [|c p] eqn:E; [split_and!; [done..|by exists pre]|].
  assert (isspace c = false) as Hc.
  { clear -E. revert E. induction l as [|x l IH]; cbn; [done|]. destruct (isspace x) eqn:Ex; [done|]. by intros [= <- _]. }
  cbn [app]. pose proof (token_at_spec c p m) as Ht. destruct (token_at c p) as [[t rest|i|]|] eqn:Et; [..|done].
  - destruct Ht as [-> (pre' & d & Hd & ?)]. split; [done|]. exists (pre ++ pre'), d. split; [|done]. by rewrite Hpre, Hd, app_assoc.
  - subst i. cbn [app skip_while]. rewrite Hc. split_and!; [done..|by exists pre].
  - intros Hw. apply Ht. rewrite Hpre in Hw. by apply whole_suffix in Hw.
Qed.

(** ** The whole text *)
Lemma after_line_spec l r : after_line l = Some r -> exists pre, l = pre ++ LF :: r.
Proof.
  unfold after_line. pose proof (skip_take (fun c => negb (c =? LF)) l) as Hs. destruct (skip_while _ l) as [|c l'] eqn:E; [done|]. intros [= <-].
  assert (c = LF) as ->; [|by eexists]. clear -E. revert E. induction l as [|x l IH]; cbn; [done|]. destruct (x =? LF) eqn:Ex; zify_bool; [by intros [= <- _]|done].
Qed.
Lemma after_line_app l m r : after_line l = Some r -> after_line (l ++ m) = Some (r ++ m).
Proof.
  unfold after_line. induction l as [|c l IH]; cbn; [done|]. destruct (c =? LF); [by intros [= <-]|done].
Qed.
Lemma after_line_whole l : l <> [] -> whole l -> exists r, after_line l = Some r.
Proof.
  intros Hne [?|Hl]; [done|]. unfold after_line. destruct (skip_while _ l) as [|c r] eqn:E; [|by exists r]. exfalso. clear Hne.
  induction l as [|c l IH]; [done|]. cbn in E. destruct (c =? LF) eqn:Ec; [done|]. destruct l as [|d l]; [|by apply IH]. cbn in Hl. injection Hl as ->. done.
Qed.
Lemma after_comment_length l r : after_comment l = Some r -> (length r + 2 <= length l)%nat /\ exists pre, l = pre ++ r.
Proof.
  induction l as [|c l IH]; cbn; [done|]. destruct (_ && _) eqn:E.
  - intros [= <-]. apply andb_true_iff in E as [_ E]. destruct l as [|d l]; [done|]. cbn. split; [lia|]. by exists [c; d].
  - intros H. destruct (IH H) as [? [pre ->]]. split; [lia|]. by exists (c :: pre).
Qed.
Lemma after_comment_app l m r : after_comment l = Some r -> after_comment (l ++ m) = Some (r ++ m).
Proof.
  induction l as [|c l IH]; cbn; [done|]. destruct (_ && _) eqn:E.
  - apply andb_true_iff in E as [E1 E2]. destruct l as [|d l]; [done|]. cbn in *. rewrite E1, E2. by intros [= <-].
  - intros H. destruct l as [|d l]; [done|]. cbn [app at_ptr] in *. rewrite E. by apply IH.
Qed.
Lemma after_comment_none l m : whole l -> after_comment l = None -> after_comment (l ++ m) = after_comment m.
Proof.
  induction l as [|c l IH]; intros Hw; cbn; [done|]. destruct (_ && _) eqn:E; [done|]. intros Hn.
  destruct l as [|d l]; [destruct Hw as [|Hw]; [done|]; cbn in Hw; by injection Hw as ->|].
  cbn [app at_ptr] in *. rewrite E. apply IH; [|done]. by apply (whole_suffix [c]).
Qed.

Lemma meaning_fuel n : forall k text s, (length text < n)%nat -> (length text < k)%nat -> meaning_of n text s = meaning_of k text s.
Proof.
  induction n as [|n IH]; intros k text s Hn Hk; [lia|]. destruct k as [|k]; [lia|]. cbn [meaning_of]. destruct (error s); [done|].
  pose proof (gettoken_spec text []) as Hg. destruct (gettoken text) as [[t rest|i|]|]; try done. cbn [mbind outcome_bind].
  destruct Hg as [_ (pre & c & -> & _)]. rewrite length_app in *. cbn in *.
  repeat case_bool_decide.
  - destruct (after_line rest) as [r|] eqn:E; [|done]. apply after_line_spec in E as [? ->]. rewrite length_app in *. cbn in *. apply IH; lia.
  - destruct (after_comment rest) as [r|] eqn:E; [|done]. apply after_comment_length in E as [? _]. apply IH; lia.
  - destruct (handle_token t s); [|done]. cbn. apply IH; lia.
Qed.
Lemma meaning_eq text s : meaning text s =
  if error s then Ok s
  else
    gettoken text ≫= fun r =>
    match r with
    | Partial _ => Ok s
    | Broken => Ok (parser_error s)
    | Token t rest =>
        if bool_decide (t = chars "//") then of_option (after_line rest) ≫= fun rest => meaning rest s
        else if bool_decide (t = chars "/*") then match after_comment rest with Some rest => meaning rest s | None => Ok s end
        else handle_token t s ≫= meaning rest
    end.
Proof.
  unfold meaning at 1. cbn [meaning_of]. destruct (error s); [done|].
  pose proof (gettoken_spec text []) as Hg. destruct (gettoken text) as [[t rest|i|]|]; try done. cbn [mbind outcome_bind].
  destruct Hg as [_ (pre & c & -> & _)]. rewrite length_app. cbn [length].
  repeat case_bool_decide.
  - destruct (after_line rest) as [r|] eqn:E; [|done]. apply after_line_spec in E as [? ->]. cbn [of_option mbind outcome_bind]. unfold meaning. apply meaning_fuel; rewrite ?length_app; cbn [length]; lia.
  - destruct (after_comment rest) as [r|] eqn:E; [|done]. apply after_comment_length in E as [? _]. unfold meaning. apply meaning_fuel; lia.
  - destruct (handle_token t s); [|done]. cbn [mbind outcome_bind]. unfold meaning. apply meaning_fuel; lia.
Qed.

Lemma handle_stray t s : handle_token t s = Fault -> t = chars ";" /\ (exists p, section s = Some p) /\ key_token s = None.
Proof.
  unfold handle_token. repeat case_bool_decide; try done. unfold semicolon. destruct (section s) as [p|]; [|done].
  destruct (key_token s) as [k|]; [by destruct (value_token s)|]. intros _. split_and!; [done|by exists p|done].
Qed.
Lemma rest_whole text t rest : whole text -> gettoken text = Ok (Token t rest) -> whole rest /\ rest <> [] /\ (length rest < length text)%nat.
Proof.
  intros Hw Hg. pose proof (gettoken_spec text []) as Hs. rewrite Hg in Hs. destruct Hs as [_ (pre & c & -> & Hc)]. rewrite length_app. cbn [length]. split_and!; [| |lia].
  - apply (whole_suffix (pre ++ [c])). by rewrite <- app_assoc.
  - intros ->. destruct Hw as [Hw|Hw]; [by destruct pre|]. rewrite last_snoc in Hw. congruence.
Qed.
(** What a text means follows from a relation, and is the only thing that does. *)
Lemma means_unique text s r : means text s r -> r = meaning text s.
Proof.
  induction 1 as [text s He|text s i He Hg|text s He Hg|text s rest rest' r He Hg Hr Hm IH|text s rest rest' r He Hg Hr Hm IH|text s rest He Hg Hr|
    text s t rest s' r He Hg Ht Hh Hm IH|text s rest p He Hg Hp Hk]; rewrite meaning_eq, He, ?Hg; cbn [mbind outcome_bind]; try done.
  - by rewrite bool_decide_eq_true_2, Hr by done.
  - by rewrite bool_decide_eq_false_2, bool_decide_eq_true_2, Hr by done.
  - by rewrite bool_decide_eq_false_2, bool_decide_eq_true_2, Hr by done.
  - rewrite !not_elem_of_cons in Ht. destruct Ht as (H1 & H2 & _). by rewrite !bool_decide_eq_false_2, Hh by done.
  - rewrite !bool_decide_eq_false_2 by done. change (handle_token (chars ";") s) with (semicolon s). unfold semicolon. by rewrite Hp, Hk.
Qed.
Lemma means_meaning n : forall text s, (length text < n)%nat -> whole text -> means text s (meaning text s).
Proof.
  induction n as [|n IH]; intros text s Hn Hw; [lia|]. rewrite meaning_eq. destruct (error s) eqn:He; [by apply means_error|].
  pose proof (gettoken_spec text []) as Hg. destruct (gettoken text) as [[t rest|i|]|] eqn:Eg; [clear Hg|by eapply means_end|by apply means_broken|done].
  destruct (rest_whole text t rest Hw Eg) as (Hwr & Hne & Hl). cbn [mbind outcome_bind]. case_bool_decide as E1; [|case_bool_decide as E2].
  - subst t. destruct (after_line_whole rest Hne Hwr) as [x Hx]. rewrite Hx. eapply means_line; [done..|]. apply after_line_spec in Hx as [pre Hx].
    apply IH; rewrite Hx in *; [rewrite length_app in Hl; cbn in Hl; lia|]. apply (whole_suffix (pre ++ [LF])). by rewrite <- app_assoc.
  - subst t. destruct (after_comment rest) as [x|] eqn:Hx; [|by eapply means_unclosed]. eapply means_comment; [done..|]. apply after_comment_length in Hx as [Hx [pre Hp]].
    apply IH; [lia|]. rewrite Hp in Hwr. by apply whole_suffix in Hwr.
  - destruct (handle_token t s) as [s'|] eqn:Eh; [|apply handle_stray in Eh as (-> & [p Hp] & Hk); by eapply means_stray].
    eapply means_token; [done..| |done|by apply IH; [lia|]]. rewrite !not_elem_of_cons. by split_and!; [..|apply not_elem_of_nil].
Qed.
(** The tokens of the buffer fail only at such an assignment, and not because the fuel ends. *)
Lemma token_loop_stray n : forall d s, (length d < n)%nat -> whole d -> token_loop n d s = Fault -> means d s Fault.
Proof.
  induction n as [|n IH]; intros d s Hn Hw; [lia|]. cbn [token_loop]. destruct (error s) eqn:He; [done|].
  pose proof (gettoken_spec d []) as Hg. destruct (gettoken d) as [[t rest|i|]|] eqn:Eg; [clear Hg|done..]. cbn [mbind outcome_bind].
  destruct (rest_whole d t rest Hw Eg) as (Hwr & Hne & Hl). case_bool_decide as E1; [|case_bool_decide as E2; [done|]].
  - subst t. destruct (after_line_whole rest Hne Hwr) as [x Hx]. rewrite Hx. cbn [of_option mbind outcome_bind]. intros Hf. eapply means_line; [done..|].
    apply after_line_spec in Hx as [pre Hx]. apply IH; [..|done]; rewrite Hx in *; [rewrite length_app in Hl; cbn in Hl; lia|]. apply (whole_suffix (pre ++ [LF])). by rewrite <- app_assoc.
  - destruct (handle_token t s) as [s'|] eqn:Eh; [|intros _; apply handle_stray in Eh as (-> & [p Hp] & Hk); by eapply means_stray].
    cbn [mbind outcome_bind]. intros Hf. eapply means_token; [done..| |done|by apply IH; [lia|..]]. rewrite !not_elem_of_cons. by split_and!; [..|apply not_elem_of_nil].
Qed.

(** The tokens of complete lines are the first ones of the text. *)
Lemma token_loop_ok m n : forall d s, (length d < n)%nat -> whole d ->
  match token_loop n d s with
  | Fault => meaning (d ++ m) s = Fault
  | Ok (More s' i) => meaning (d ++ m) s = meaning (i ++ m) s' /\ error s' = false /\ gettoken i = Ok (Partial i) /\ whole i /\ (length i <= length d)%nat
  | Ok (Comment s' r) => meaning (d ++ m) s = match after_comment (r ++ m) with Some x => meaning x s' | None => Ok s' end /\ error s' = false /\
      whole r /\ r <> [] /\ (length r < length d)%nat
  | Ok (Stop s') => meaning (d ++ m) s = Ok s' /\ error s' = true
  end.
Proof.
  induction n as [|n IH]; intros d s Hn Hw; [lia|]. cbn [token_loop]. rewrite (meaning_eq (d ++ m)). destruct (error s) eqn:Ee; [done|].
  pose proof (gettoken_spec d m) as Hg. destruct (gettoken d) as [[t rest|i|]|] eqn:Eg; cbn [mbind outcome_bind]; [..|done].
  - destruct Hg as [-> _]. cbn [mbind outcome_bind]. destruct (rest_whole d t rest Hw Eg) as (Hwr & Hne & Hl).
    repeat case_bool_decide.
    + destruct (after_line_whole rest Hne Hwr) as [r Hr]. rewrite Hr, (after_line_app _ m _ Hr). cbn [of_option mbind outcome_bind]. apply after_line_spec in Hr as [pre' Hr].
      assert (whole r) as Hr' by (rewrite Hr in Hwr; by apply (whole_suffix (pre' ++ [LF])); rewrite <- app_assoc).
      assert (length r < length rest)%nat by (rewrite Hr, length_app; cbn; lia). specialize (IH r s ltac:(lia) Hr').
      destruct (token_loop n r s) as [[| |]|]; naive_solver lia.
    + by split_and!.
    + destruct (handle_token t s) as [s'|]; [|done]. cbn [mbind outcome_bind]. specialize (IH rest s' ltac:(lia) Hwr). destruct (token_loop n rest s') as [[| |]|]; naive_solver lia.
  - destruct Hg as (Hg1 & Hg2 & pre & Hd). split_and!; try done; [|rewrite Hd in Hw; by apply whole_suffix in Hw|rewrite Hd, length_app; lia].
    rewrite Hg1, (meaning_eq (i ++ m)), Ee. done.
  - rewrite (Hg Hw). by split.
Qed.

(** ** Reading line by line *)
Lemma complete_app l m : whole l -> complete (l ++ m) = l ++ complete m.
Proof.
  induction l as [|c l IH]; intros Hw; [done|]. cbn [app complete]. destruct l as [|d l].
  - destruct Hw as [|Hw]; [done|]. cbn in Hw. injection Hw as ->. cbn. by destruct (complete m).
  - rewrite IH by (by apply (whole_suffix [c])). done.
Qed.
Lemma complete_none l : LF ∉ l -> complete l = [].
Proof.
  induction l as [|c l IH]; intros Hn; [done|]. apply not_elem_of_cons in Hn as [Hc Hn]. cbn. rewrite IH by done.
  by rewrite (proj2 (Z.eqb_neq _ _)) by congruence.
Qed.

Lemma read_line_spec n : forall l s r e, read_line n l = (s, r, e) ->
  l = s ++ r /\ (length s <= n)%nat /\ (e = true -> r = []) /\ (n <> O -> s = [] -> e = true) /\
  (last s = Some LF /\ e = false \/ LF ∉ s /\ last s <> Some LF).
Proof.
  induction n as [|n IH]; intros l s r e; cbn [read_line]; [intros [= <- <- <-]; split_and!; try done; right; split; [apply not_elem_of_nil|done]|].
  destruct l as [|c l]; [intros [= <- <- <-]; split_and!; try (done || (cbn; lia)); right; split; [apply not_elem_of_nil|done]|].
  destruct (c =? LF) eqn:Ec; zify_bool; [intros [= <- <- <-]; split_and!; try (done || (cbn; lia)); left; by rewrite Ec|].
  destruct (read_line n l) as [[s' r'] e'] eqn:E. intros [= <- <- <-]. destruct (IH _ _ _ _ E) as (-> & H1 & H2 & H3 & H4). split_and!; try (done || (cbn; lia)).
  destruct H4 as [[H4 ->]|[H4 H5]]; [left|right].
  - split; [|done]. rewrite last_cons, H4. done.
  - split; [apply not_elem_of_cons; split; [congruence|done]|]. rewrite last_cons. destruct (last s') eqn:El; [done|]. congruence.
Qed.

(** What is still to be parsed, and what it means. *)
Definition remaining (c : parser_context) : list Z := complete (data c ++ unread (fd c)).
Definition result (c : parser_context) : outcome pstate :=
  if in_comment c then match after_comment (remaining c) with Some x => meaning x (pst c) | None => Ok (pst c) end
  else meaning (remaining c) (pst c).

Record good (c : parser_context) : Prop := {
  g_size : Zlen (data c) < size c /\ 128 <= size c;
  g_error : error (pst c) = false; g_eof : feof (fd c) = false; g_text : Forall (fun x => x <> 0) (unread (fd c));
  g_data : if need_more_data c then exists left part, data c = left ++ part /\ LF ∉ part /\ whole left /\ (need_more_space c = false -> part = []) /\
             if in_comment c then left = [] else gettoken left = Ok (Partial left)
           else in_comment c = true /\ whole (data c) /\ data c <> [] /\ need_more_space c = false
}.
Definition work (c : parser_context) : nat :=
  8 * length (unread (fd c)) + 2 * length (data c) + (if need_more_data c then if need_more_space c then 0 else 1 else 0).

(** The outcome of a step that is not the last one. *)
Definition continues (bound : nat) (res : outcome pstate) (m : outcome parser_context) : Prop :=
  match m with
  | Fault => res = Fault
  | Ok c' => (error (pst c') = true \/ feof (fd c') = true) /\ res = Ok (pst c') \/ good c' /\ result c' = res /\ (work c' < bound)%nat
  end.

Lemma tokens_ok d c : whole d -> error (pst c) = false -> feof (fd c) = false -> Zlen d < size c -> 128 <= size c -> Forall (fun x => x <> 0) (unread (fd c)) ->
  need_more_space c = false -> need_more_data c = false ->
  continues (8 * length (unread (fd c)) + 2 * length d + 2) (meaning (d ++ complete (unread (fd c))) (pst c)) (tokens d c).
Proof.
  intros Hw He Hf Hs H128 Ht Hn Hd. unfold tokens. pose proof (token_loop_ok (complete (unread (fd c))) (S (length d)) d (pst c) ltac:(lia) Hw) as Hl.
  destruct (token_loop _ d (pst c)) as [[s i|s r|s]|]; cbn [mbind outcome_bind continues]; [right|right|left|done].
  - destruct Hl as (-> & He' & Hg & Hi & Hle). split_and!.
    + split; cbn; try done; [lia|]. exists i, []. rewrite app_nil_r. split_and!; try done. apply not_elem_of_nil.
    + unfold result, remaining. cbn. by rewrite complete_app.
    + unfold work. cbn. rewrite Hn. lia.
  - destruct Hl as (-> & He' & Hr & Hne & Hle). split_and!.
    + split; cbn; try done; [lia|]. by rewrite Hd.
    + unfold result, remaining. cbn. by rewrite complete_app.
    + unfold work. cbn. rewrite Hd. lia.
  - destruct Hl as [Hm ?]. split; [by left|exact Hm].
Qed.
Lemma continues_mono n k res m : continues n res m -> (n <= k)%nat -> continues k res m.
Proof. destruct m as [c|]; [|done]. intros [?|(? & ? & ?)] ?; [by left|right]. split_and!; [done..|lia]. Qed.

Lemma parser_process_ok c : whole (data c) -> data c <> [] -> error (pst c) = false -> feof (fd c) = false -> Zlen (data c) < size c -> 128 <= size c ->
  Forall (fun x => x <> 0) (unread (fd c)) -> need_more_space c = false -> need_more_data c = false ->
  continues (8 * length (unread (fd c)) + 2 * length (data c) + (if in_comment c then 0 else 2)) (result c) (process c).
Proof.
  intros Hw Hne He Hf Hs H128 Ht Hn Hd. unfold process, result, remaining. rewrite complete_app by done. destruct (in_comment c) eqn:Ei; [|by apply tokens_ok].
  destruct (after_comment (data c)) as [r|] eqn:Er.
  - rewrite (after_comment_app _ _ _ Er). apply after_comment_length in Er as [Hl [pre Hp]].
    rewrite Hp in Hw. apply whole_suffix in Hw. eapply continues_mono; [apply tokens_ok; (done || lia)|lia].
  - rewrite after_comment_none by done. right. split_and!.
    + split; cbn; try done; [lia|]. exists [], []. split_and!; try done; [apply not_elem_of_nil|by left].
    + done.
    + unfold work. cbn. rewrite Hn. destruct (data c); [done|]. cbn. lia.
Qed.

Lemma cstring_id s : Forall (fun x => x <> 0) s -> cstring s = s.
Proof. unfold cstring. induction 1 as [|c s Hc Hs IH]; [done|]. cbn. apply Z.eqb_neq in Hc as ->. cbn. by rewrite IH. Qed.

(** A line that is not complete means nothing. *)
Lemma result_left c left part : data c = left ++ part -> whole left -> (if in_comment c then left = [] else gettoken left = Ok (Partial left)) -> LF ∉ part -> unread (fd c) = [] ->
  error (pst c) = false -> result c = Ok (pst c).
Proof.
  intros Hd Hw Hl Hp Hu He. unfold result, remaining. rewrite Hd, Hu, app_nil_r, complete_app, (complete_none part), app_nil_r by done.
  destruct (in_comment c); [by rewrite Hl|]. by rewrite meaning_eq, He, Hl.
Qed.

Lemma parser_step_ok c : good c -> continues (work c) (result c) (parser_step c).
Proof.
  intros [[Hs H128] He Hf Ht Hd]. unfold parser_step. rewrite (proj2 (Z.ltb_lt _ _)) by done. cbn [ASSERT mbind outcome_bind].
  set (size' := if need_more_space c then size c * 2 else size c). assert (Zlen (data c) < size' /\ 128 <= size' /\ (need_more_space c = true -> 2 <= size' - Zlen (data c))) as (Hs1 & Hs2 & Hs3)
    by (unfold size'; destruct (need_more_space c); split_and!; (done || lia)).
  destruct (need_more_data c) eqn:Enm.
  - destruct Hd as (left & part & Hdl & Hp & Hw & Hns & Hl). unfold fgets. destruct (_ <=? 1) eqn:E1; zify_bool.
    + right. destruct (need_more_space c) eqn:Esp; [specialize (Hs3 eq_refl); lia|]. cbn. rewrite app_nil_r. split_and!.
      * split; cbn; try done. exists left, part. split_and!; done.
      * unfold result, remaining. cbn. done.
      * unfold work. cbn. rewrite Enm, Esp. lia.
    + destruct (read_line _ (unread (fd c))) as [[s r] e] eqn:Er. apply read_line_spec in Er as (Hu & Hlen & Her & Hne & Hls).
      assert (Z.to_nat (size' - Zlen (data c) - 1) <> O) as Hz by lia. specialize (Hne Hz).
      case_bool_decide as Es.
      { left. cbn. split; [by right|]. specialize (Hne Es). rewrite Es, (Her Hne) in Hu. by apply (result_left c left part). }
      assert (1 <= length s)%nat as Hlx by (destruct s; [done|cbn; lia]).
      rewrite Hu in Ht. apply Forall_app in Ht as [Hts Htr]. rewrite (cstring_id _ Hts).
      assert (forall c', data c' = data c ++ s -> unread (fd c') = r -> pst c' = pst c -> in_comment c' = in_comment c -> result c' = result c) as Hres.
      { intros c' H1 H2 H3 H4. unfold result, remaining. by rewrite H1, H2, H3, H4, Hu, <- app_assoc. }
      destruct Hls as [[Hlast ->]|[Hnl Hlast]].
      * rewrite bool_decide_eq_true_2 by done. eapply continues_mono.
        -- erewrite <- (Hres (mkContext _ _ _ _ _ _ _)); [apply parser_process_ok; cbn; try done|done..].
           ++ right. by rewrite last_app, Hlast.
           ++ intros [_ ?]%app_eq_nil. done.
           ++ rewrite length_app. lia.
        -- cbn. unfold work. rewrite Hu, !length_app. destruct (in_comment c); lia.
      * rewrite bool_decide_eq_false_2 by done. destruct e.
        { left. cbn. split; [by right|]. specialize (Her eq_refl). subst r. rewrite <- (Hres (mkContext (mkFile [] true) (data c ++ s) size' (pst c) (in_comment c) true true)) by done.
          apply (result_left (mkContext (mkFile [] true) (data c ++ s) size' (pst c) (in_comment c) true true) left (part ++ s)); cbn; try done; [by rewrite Hdl, app_assoc|]. by apply not_elem_of_app. }
        right. split_and!.
        -- split; cbn; try done; [rewrite length_app; lia|]. exists left, (part ++ s). split_and!; try done; [by rewrite Hdl, app_assoc|by apply not_elem_of_app].
        -- by apply Hres.
        -- unfold work. cbn [need_more_data need_more_space data fd unread]. rewrite Hu, !length_app. destruct (if need_more_data c then _ else _); lia.
  - destruct Hd as (Hi & Hw & Hne & Hns). assert (size' = size c) as -> by (unfold size'; by rewrite Hns).
    eapply continues_mono; [apply (parser_process_ok (mkContext (fd c) (data c) (size c) (pst c) (in_comment c) false false)); cbn; done|]. cbn. rewrite Hi. unfold work. rewrite Enm. lia.
Qed.

Lemma parser_loop_ok n : forall c, (work c < n)%nat -> good c -> parser_loop n c = result c.
Proof.
  induction n as [|n IH]; intros c Hn Hg; [lia|]. cbn [parser_loop]. pose proof Hg as [_ He Hf _ _]. rewrite He, Hf. cbn [orb].
  pose proof (parser_step_ok c Hg) as Hs. destruct (parser_step c) as [c'|]; cbn [mbind outcome_bind continues] in *; [|done].
  destruct Hs as [[Hstop ->]|(Hg' & <- & Hlt)]; [|by apply IH; [lia|]].
  destruct n; cbn [parser_loop]; (assert (error (pst c') || feof (fd c') = true) as -> by (apply orb_true_iff; naive_solver)); done.
Qed.

Lemma start_good text m : Forall (fun x => x <> 0) text -> good (parser_start text m) /\ (work (parser_start text m) < fuel_of text)%nat.
Proof.
  intros Ht. split; [|unfold work, fuel_of; cbn; lia]. split; cbn; try (done || lia). exists [], []. split_and!; try done; first [apply not_elem_of_nil|by left].
Qed.
Lemma parser_run_parse text m : Forall (fun x => x <> 0) text -> parser_run text m = parse text m.
Proof. intros Ht. destruct (start_good text m Ht) as [Hg Hw]. unfold parser_run, parse. by rewrite parser_loop_ok. Qed.
Lemma parser_loop_ends n : forall c, (work c < n)%nat -> good c -> ends c (result c).
Proof.
  induction n as [|n IH]; intros c Hn Hg; [lia|]. pose proof Hg as [_ He Hf _ _]. pose proof (parser_step_ok c Hg) as Hs.
  destruct (parser_step c) as [c'|] eqn:Ec; cbn [continues] in Hs; [|rewrite Hs; apply ends_fault; [by rewrite He, Hf|done]].
  eapply ends_step; [by rewrite He, Hf|done|]. destruct Hs as [[Hstop ->]|(Hg' & <- & Hlt)]; [|by apply IH; [lia|]]. apply ends_state, orb_true_iff. naive_solver.
Qed.

(** C26: A configuration file is its complete lines [lines] and what follows the last
    end of line, [part]. For every file without NUL bytes, whatever the lengths of its
    lines, reading it line by line into a growing buffer, with tokens and comments
    that go over several lines, has the result that the tokens of
    [lines] have when they are read at once: there is exactly one such result, the
    loop over the file ends with it after finitely many steps, and the file is accepted
    or refused with the assignments and callbacks that belong to it. The
    only failure is the assertion at an assignment that ends where none began
    ([means_stray]): no write leaves the buffer. What the code does not do is part
    of the statement too: [part] is ignored, so a last line without an end is
    neither parsed nor refused ([last_line_ignored]). *)
Theorem parser_run_whole lines part m : whole lines -> LF ∉ part -> Forall (fun x => x <> 0) (lines ++ part) ->
  exists r, means lines (mkPstate None None None None false m) r /\
    (forall r', means lines (mkPstate None None None None false m) r' -> r' = r) /\
    ends (parser_start (lines ++ part) m) r /\
    parser_run (lines ++ part) m = r ≫= fun s => Ok (negb (error (finish s)), memory (finish s)).
Proof.
  intros Hw Hp Hz. destruct (start_good (lines ++ part) m Hz) as [Hg Hwork]. exists (meaning lines (mkPstate None None None None false m)).
  assert (complete (lines ++ part) = lines) as Hc by (by rewrite complete_app, complete_none, app_nil_r).
  split_and!; [by apply (means_meaning (S (length lines))); [lia|]|intros r'; apply means_unique| |].
  - pose proof (parser_loop_ends _ _ Hwork Hg) as He. unfold result, remaining in He. cbn in He. by rewrite Hc in He.
  - rewrite parser_run_parse by done. unfold parse. by rewrite Hc.
Qed.

(** ** Configurations that are printed *)
Notation configuration := (list (list Z * list (list Z * list Z))).
Definition escape (c : Z) : list Z :=
  if c =? 10 then [BACKSLASH; 110] else if c =? 9 then [BACKSLASH; 116] else if c =? 13 then [BACKSLASH; 114]
  else if (c =? QUOTE) || (c =? BACKSLASH) then [BACKSLASH; c] else [c].
Definition print_value (v : list Z) : list Z := [QUOTE] ++ flat_map escape v ++ [QUOTE].
Definition print_assignment (a : list Z * list Z) : list Z := chars "  " ++ fst a ++ chars " = " ++ print_value (snd a) ++ chars ";" ++ [LF].
Definition print_section (x : list Z * list (list Z * list Z)) : list Z :=
  fst x ++ chars " {" ++ [LF] ++ flat_map print_assignment (snd x) ++ chars "}" ++ [LF].
Definition print_configuration (l : configuration) : list Z := flat_map print_section l.

Definition is_word (w : list Z) : Prop := isalpha (at_ptr w) = true /\ Forall (fun c => word_char c = true) w.
(** A value that is not taken for punctuation or for the start of a comment. *)
Definition is_value (v : list Z) : Prop :=
  Forall (fun c => c <> 0) v /\ v ∉ [chars "{"; chars "}"; chars "="; chars ";"; chars "//"; chars "/*"].
Definition wf_section (x : list Z * list (list Z * list Z)) : Prop := is_word (fst x) /\ Forall (fun a => is_word (fst a) /\ is_value (snd a)) (snd x).

(** What a configuration does to the memory; [None] if it is not valid. *)
Definition assign (p : parser_section) (m : store) (a : list Z * list Z) : option store :=
  match list_find (fun e => key e = fst a) (entries p) with
  | Some (_, e) => let '(m, ok) := value_parser_by_type (type e) (addr e) (snd a) m in if ok : bool then Some m else None
  | None => None
  end.
Fixpoint assignments (p : parser_section) (l : list (list Z * list Z)) (m : store) : option store :=
  match l with [] => Some m | a :: l => m ← assign p m a; assignments p l m end.
Definition configure_section (x : list Z * list (list Z * list Z)) (m : store) : option store :=
  match list_find (fun p => name p = fst x) sections with
  | Some (_, p) => m ← onenter p m; m ← assignments p (snd x) m; onexit p m
  | None => None
  end.
Fixpoint configure (l : configuration) (m : store) : option store :=
  match l with [] => Some m | x :: l => m ← configure_section x m; configure l m end.

(** ** Printed tokens are read back *)
Definition spaces (sp : list Z) : Prop := Forall (fun c => isspace c = true) sp.

Lemma gettoken_skip sp c l : spaces sp -> isspace c = false -> gettoken (sp ++ c :: l) = token_at c l.
Proof. intros Hs Hc. unfold gettoken. rewrite skip_while_app; [done|done|by right]. Qed.
Lemma scan_word_app w c rest : Forall (fun c => word_char c = true) w -> word_char c = false -> scan_word (w ++ c :: rest) = Some (length w).
Proof. induction 1 as [|x w Hx Hw IH]; intros Hc; cbn; [by rewrite Hc|]. by rewrite Hx, IH. Qed.
Lemma alpha_class c : isalpha c = true -> isspace c = false /\ isdigit c = false /\ c <> QUOTE.
Proof. unfold isalpha, isspace, isdigit, QUOTE. lia. Qed.

Lemma gettoken_word sp w c rest : spaces sp -> is_word w -> word_char c = false -> gettoken (sp ++ w ++ c :: rest) = Ok (Token w (c :: rest)).
Proof.
  intros Hs [Ha Hw] Hc. destruct w as [|x w]; [done|]. cbn [at_ptr] in Ha. destruct (alpha_class x Ha) as (H1 & H2 & H3). cbn [app]. rewrite gettoken_skip by done.
  unfold token_at. apply Z.eqb_neq in H3 as ->. rewrite H2, Ha. change (x :: w ++ c :: rest) with ((x :: w) ++ c :: rest). rewrite scan_word_app by done.
  unfold plainstr. by rewrite take_app_length, drop_app_length.
Qed.
Lemma gettoken_punctuation sp c rest : spaces sp -> punctuation c = true -> gettoken (sp ++ c :: rest) = Ok (Token [c] rest).
Proof.
  intros Hs Hc. assert (isspace c = false /\ c <> QUOTE /\ isdigit c = false /\ isalpha c = false) as (H1 & H2 & H3 & H4)
    by (unfold punctuation, isspace, QUOTE, isdigit, isalpha in *; lia).
  rewrite gettoken_skip by done. unfold token_at. apply Z.eqb_neq in H2 as ->. by rewrite H3, H4, Hc.
Qed.

(** An escaped character is one escape, or a character that needs none. *)
Lemma escape_spec c : (exists d, escape c = [BACKSLASH; d] /\ unescape d = c /\ c <> 0) \/ (escape c = [c] /\ c <> QUOTE /\ c <> BACKSLASH).
Proof.
  unfold escape. destruct (c =? 10) eqn:E1; zify_bool; [left; by exists 110; subst|]. destruct (c =? 9) eqn:E2; zify_bool; [left; by exists 116; subst|].
  destruct (c =? 13) eqn:E3; zify_bool; [left; by exists 114; subst|]. destruct (c =? QUOTE) eqn:E4; zify_bool; [left; exists c; by subst|].
  destruct (c =? BACKSLASH) eqn:E5; zify_bool; [left; exists c; by subst|]. by right.
Qed.
Lemma scan_value v rest : forall k, scan_cstr (flat_map escape v ++ QUOTE :: rest) k = Len (k + length v).
Proof.
  induction v as [|c v IH]; intros k; cbn [flat_map app]; [cbn; by rewrite Nat.add_0_r|]. rewrite <- app_assoc. destruct (escape_spec c) as [(d & -> & Hd & Hc)|(-> & H1 & H2)]; cbn [app scan_cstr].
  - change (BACKSLASH =? QUOTE) with false. rewrite Z.eqb_refl, Hd, (proj2 (Z.eqb_neq _ _)), IH by done. f_equal. cbn. lia.
  - rewrite (proj2 (Z.eqb_neq _ _)), (proj2 (Z.eqb_neq _ _)), IH by done. f_equal. cbn. lia.
Qed.
Lemma copy_value v rest : copy_cstr (flat_map escape v ++ QUOTE :: rest) = Some (v, rest).
Proof.
  induction v as [|c v IH]; [done|]. cbn [flat_map]. rewrite <- app_assoc. destruct (escape_spec c) as [(d & -> & Hd & Hc)|(-> & H1 & H2)]; cbn [app copy_cstr].
  - change (BACKSLASH =? QUOTE) with false. by rewrite Z.eqb_refl, IH, <- Hd.
  - by rewrite (proj2 (Z.eqb_neq _ _)), (proj2 (Z.eqb_neq _ _)), IH by done.
Qed.
Lemma gettoken_value sp v rest : spaces sp -> gettoken (sp ++ print_value v ++ rest) = Ok (Token v rest).
Proof.
  intros Hs. unfold print_value. cbn [app]. rewrite <- app_assoc. cbn [app]. rewrite gettoken_skip by done. unfold token_at. rewrite Z.eqb_refl, scan_value, copy_value.
  cbn [of_option mbind outcome_bind]. rewrite Z.leb_refl. done.
Qed.

(** ** Printed configurations are read back *)
Lemma meaning_token text t rest s : error s = false -> gettoken text = Ok (Token t rest) -> t ∉ [chars "//"; chars "/*"] ->
  meaning text s = handle_token t s ≫= meaning rest.
Proof.
  intros He Hg Ht. rewrite meaning_eq, He, Hg. cbn [mbind outcome_bind]. rewrite !not_elem_of_cons in Ht. destruct Ht as (H1 & H2 & _). by rewrite !bool_decide_eq_false_2.
Qed.
Lemma handle_plain t s : t ∉ [chars "{"; chars "}"; chars "="; chars ";"] -> handle_token t s = Ok (plain_token t s).
Proof. rewrite !not_elem_of_cons. intros (H1 & H2 & H3 & H4 & _). unfold handle_token. by rewrite !bool_decide_eq_false_2. Qed.
Lemma word_value w : is_word w -> w ∉ [chars "{"; chars "}"; chars "="; chars ";"; chars "//"; chars "/*"].
Proof. intros [Ha _] Hin. rewrite !elem_of_cons, elem_of_nil in Hin. destruct_or! Hin; subst; done. Qed.
Lemma not_in_split (t : list Z) (l k : list (list Z)) : t ∉ l ++ k -> t ∉ l /\ t ∉ k.
Proof. by rewrite not_elem_of_app. Qed.

Lemma handle_punctuation s : handle_token (chars "{") s = Ok (open_section s) /\ handle_token (chars "}") s = Ok (close_section s) /\
  handle_token (chars "=") s = Ok (equals s) /\ handle_token (chars ";") s = semicolon s.
Proof. by split_and!. Qed.

(** The state inside of a section, between assignments. *)
Definition inside (p : parser_section) (m : store) : pstate := mkPstate (Some p) None None None false m.
Definition outside (m : store) : pstate := mkPstate None None None None false m.
(** The text leads to the memory, if there is one, and to an error otherwise. *)
Definition leads (text : list Z) (s : pstate) (r : option pstate) (rest : list Z) : Prop :=
  match r with
  | Some s' => meaning text s = meaning rest s'
  | None => exists s', error s' = true /\ meaning text s = Ok s'
  end.
Lemma meaning_error text s : error s = true -> meaning text s = Ok s.
Proof. intros He. by rewrite meaning_eq, He. Qed.

Lemma meaning_space c text s : isspace c = true -> meaning (c :: text) s = meaning text s.
Proof. intros Hc. rewrite (meaning_eq (c :: text)), (meaning_eq text). unfold gettoken. cbn. by rewrite Hc. Qed.

Lemma assignment_ok p m a rest : is_word (fst a) -> is_value (snd a) -> leads (print_assignment a ++ rest) (inside p m) (inside p <$> assign p m a) (LF :: rest).
Proof.
  intros Hk [_ Hv]. destruct a as [k v]. cbn [fst snd] in *. pose proof (word_value k Hk) as Hkv. unfold print_assignment. cbn [fst snd]. rewrite <- !app_assoc.
  assert (forall t, t ∉ [chars "{"; chars "}"; chars "="; chars ";"; chars "//"; chars "/*"] -> t ∉ [chars "//"; chars "/*"] /\ t ∉ [chars "{"; chars "}"; chars "="; chars ";"]) as Hsp.
  { intros t Ht. rewrite !not_elem_of_cons in *. naive_solver. }
  destruct (Hsp k Hkv) as [Hk1 Hk2], (Hsp v Hv) as [Hv1 Hv2].
  assert (forall text, meaning (chars "  " ++ k ++ chars " = " ++ text) (inside p m) = meaning text (set_tokens (Some k) None (inside p m))) as H1.
  { intros text. rewrite (meaning_token _ k (chars " = " ++ text)); [|done|apply gettoken_word; [by repeat constructor|done|done]|done]. rewrite handle_plain by done. cbn [mbind outcome_bind].
    rewrite (meaning_token _ (chars "=") (chars " " ++ text)); [|done|by apply (gettoken_punctuation [32]); [repeat constructor|]|rewrite !not_elem_of_cons; split_and!; [done|done|apply not_elem_of_nil]].
    destruct (handle_punctuation (plain_token k (inside p m))) as (_ & _ & -> & _). cbn [mbind outcome_bind]. by apply (meaning_space 32). }
  unfold leads. rewrite H1.
  assert (meaning (print_value v ++ chars ";" ++ [LF] ++ rest) (set_tokens (Some k) None (inside p m)) =
    semicolon (set_tokens (Some k) (Some v) (inside p m)) ≫= meaning (LF :: rest)) as H2.
  { rewrite (meaning_token _ v (chars ";" ++ [LF] ++ rest)); [|done|apply (gettoken_value []); constructor|done]. rewrite handle_plain by done. cbn [mbind outcome_bind].
    rewrite (meaning_token _ (chars ";") (LF :: rest)); [by destruct (handle_punctuation (plain_token v (set_tokens (Some k) None (inside p m)))) as (_ & _ & _ & ->)|done|by apply (gettoken_punctuation []); [constructor|]|rewrite !not_elem_of_cons; split_and!; [done|done|apply not_elem_of_nil]]. }
  rewrite H2. unfold assign, semicolon. cbn [inside set_tokens section key_token value_token fst snd memory]. destruct (list_find _ (entries p)) as [[i e]|].
  - destruct (value_parser_by_type _ _ v m) as [m' ok]. destruct ok; cbn [fmap option_fmap option_map mbind outcome_bind]; [done|]. eexists. split; [|by apply meaning_error]. done.
  - cbn [fmap option_fmap option_map mbind outcome_bind]. eexists. split; [|by apply meaning_error]. done.
Qed.

Lemma assignments_ok p l rest : Forall (fun a => is_word (fst a) /\ is_value (snd a)) l -> forall m,
  leads (flat_map print_assignment l ++ rest) (inside p m) (inside p <$> assignments p l m) rest.
Proof.
  induction 1 as [|a l [Hk Hv] Hl IH]; intros m; [done|]. cbn [flat_map assignments]. rewrite <- app_assoc.
  pose proof (assignment_ok p m a (flat_map print_assignment l ++ rest) Hk Hv) as Ha. unfold leads in *. destruct (assign p m a) as [m'|]; cbn [fmap option_fmap option_map mbind option_bind] in *; [|done].
  rewrite Ha, meaning_space by done. apply IH.
Qed.

Lemma section_ok x rest m : wf_section x -> leads (print_section x ++ rest) (outside m) (outside <$> configure_section x m) (LF :: rest).
Proof.
  destruct x as [n l]. intros [Hn Hl]. cbn [fst snd] in *. unfold print_section, configure_section. cbn [fst snd]. rewrite <- !app_assoc. pose proof (word_value n Hn) as Hnv.
  assert (n ∉ [chars "//"; chars "/*"] /\ n ∉ [chars "{"; chars "}"; chars "="; chars ";"]) as [Hn1 Hn2] by (rewrite !not_elem_of_cons in *; naive_solver).
  assert (forall text, meaning (n ++ chars " {" ++ text) (outside m) = meaning text (open_section (set_section_token (Some n) (outside m)))) as H1.
  { intros text. rewrite (meaning_token _ n (chars " {" ++ text)); [|done|by apply (gettoken_word []); [constructor|..]|done]. rewrite handle_plain by done. cbn [mbind outcome_bind].
    rewrite (meaning_token _ (chars "{") text); [by destruct (handle_punctuation (plain_token n (outside m))) as (-> & _)|done|by apply (gettoken_punctuation [32]); [repeat constructor|]|rewrite !not_elem_of_cons; split_and!; [done|done|apply not_elem_of_nil]]. }
  unfold leads. rewrite H1. unfold open_section. cbn [section section_token set_section_token outside]. destruct (list_find _ sections) as [[i p]|].
  - unfold callback. cbn [memory set_section outside set_section_token]. destruct (onenter p m) as [m1|]; cbn [mbind option_bind].
    + change (set_section_token None _) with (inside p m1). cbn [app]. rewrite meaning_space by done.
      pose proof (assignments_ok p l (chars "}" ++ [LF] ++ rest) Hl m1) as Ha. unfold leads in Ha. destruct (assignments p l m1) as [m2|]; cbn [fmap option_fmap option_map mbind option_bind] in *; [|done].
      cbn [app] in Ha. rewrite Ha. rewrite (meaning_token _ (chars "}") (LF :: rest)); [|done|by apply (gettoken_punctuation []); [constructor|]|rewrite !not_elem_of_cons; split_and!; [done|done|apply not_elem_of_nil]].
      destruct (handle_punctuation (inside p m2)) as (_ & -> & _). cbn [mbind outcome_bind]. unfold close_section, callback. cbn [section inside memory].
      destruct (onexit p m2) as [m3|]; [done|]. eexists. split; [|by apply meaning_error]. done.
    + eexists. split; [|by apply meaning_error]. done.
  - eexists. split; [|by apply meaning_error]. done.
Qed.

Lemma configure_ok l : Forall wf_section l -> forall m, leads (print_configuration l) (outside m) (outside <$> configure l m) [].
Proof.
  induction 1 as [|x l Hx Hl IH]; intros m; [done|]. unfold print_configuration. cbn [flat_map configure].
  pose proof (section_ok x (flat_map print_section l) m Hx) as Ha. unfold leads in *. destruct (configure_section x m) as [m'|]; cbn [fmap option_fmap option_map mbind option_bind] in *; [|done].
  rewrite Ha, meaning_space by done. apply IH.
Qed.

Lemma print_whole l : whole (print_configuration l).
Proof.
  induction l as [|x l IH]; [by left|]. unfold print_configuration. cbn [flat_map]. apply whole_app; [|done]. right. unfold print_section. by rewrite !app_assoc, last_snoc.
Qed.
Lemma print_nonzero l : Forall wf_section l -> Forall (fun c => c <> 0) (print_configuration l).
Proof.
  assert (forall w, is_word w -> Forall (fun c => c <> 0) w) as Hw by (intros w [_ Hw]; apply (Forall_impl _ _ _ Hw); intros c Hc ->; done).
  assert (forall (X : Type) (f : X -> list Z) (k : list X), Forall (fun x => Forall (fun c => c <> 0) (f x)) k -> Forall (fun c => c <> 0) (flat_map f k)) as Hfm
    by (intros X f k; induction 1; cbn; [constructor|by apply Forall_app]).
  intros Hl. apply Hfm, (Forall_impl _ _ _ Hl). intros [n as_] [Hn Ha]. unfold print_section. cbn [fst snd] in *. rewrite !Forall_app. split_and!; try (by repeat constructor); [by apply Hw|].
  apply Hfm, (Forall_impl _ _ _ Ha). intros [k v] [Hk [Hv _]]. cbn [fst snd] in *. unfold print_assignment, print_value. cbn [fst snd]. rewrite !Forall_app. split_and!; try (by repeat constructor); [by apply Hw|].
  apply Hfm, (Forall_impl _ _ _ Hv). intros c Hc. unfold escape. repeat case_match; by repeat constructor.
Qed.

(** C27: A configuration that is printed with quoted values is read back: if every
    section and key is known, every value is good and every callback succeeds, the
    file is accepted and the callbacks and assignments were made in order; if not,
    the file is refused. Values are any strings but the six that the
    parser takes for punctuation even when they are quoted. *)
Theorem parser_roundtrip l m : Forall wf_section l ->
  match configure l m with
  | Some m' => parser_run (print_configuration l) m = Ok (true, m')
  | None => exists m', parser_run (print_configuration l) m = Ok (false, m')
  end.
Proof.
  intros Hl. rewrite parser_run_parse by (by apply print_nonzero). unfold parse. rewrite <- (app_nil_r (print_configuration l)), (complete_app _ [] (print_whole l)), !app_nil_r.
  pose proof (configure_ok l Hl m) as Hc. unfold leads in Hc. change (mkPstate None None None None false m) with (outside m).
  destruct (configure l m) as [m'|]; cbn [fmap option_fmap option_map] in Hc.
  - by rewrite Hc.
  - destruct Hc as (s' & He & ->). cbn [mbind outcome_bind]. unfold finish. repeat case_match; cbn; rewrite ?He; by eexists.
Qed.

End with_sections.
End with_resolver.
(** Two sections of redsocks, with the addresses of their entries numbered. *)
Definition sample_sections : list parser_section :=
  [mkSection (chars "redsocks") [mkEntry (chars "local_port") pt_uint16 1; mkEntry (chars "login") pt_pchar 2; mkEntry (chars "password") pt_pchar 3;
     mkEntry (chars "disclose_src") pt_disclose_src 4] Some Some;
   mkSection (chars "base") [mkEntry (chars "log_debug") pt_bool 5; mkEntry (chars "max") pt_uint32 6] Some Some].
Definition no_address (_ : list Z) : option Z := None.
Notation run_sample := (parser_run no_address no_address sample_sections).

(** A comment longer than the buffer, a token and a comment over several lines. *)
Definition sample_text : list Z :=
  chars "base { // " ++ repeat 120 300 ++ [LF] ++ chars "log_debug = on; /* " ++ [LF] ++ chars "*/ max = 16;" ++ [LF] ++ chars "}" ++ [LF] ++
  chars "redsocks { login = " ++ [QUOTE] ++ chars "a" ++ [LF] ++ chars "b" ++ [QUOTE] ++ chars "; }" ++ [LF].
Lemma parser_run_whole_witness :
  run_sample (sample_text ++ chars "base {") [] = Ok (true, [(2, VPchar (chars "a" ++ [LF] ++ chars "b")); (6, VInt 16); (5, VBool true)]).
Proof.
  destruct (parser_run_whole no_address no_address sample_sections sample_text (chars "base {") []) as (r & _ & Hu & _ & Hr).
  - right. vm_compute. reflexivity.
  - assert (bool_decide (LF ∉ chars "base {") = true) as H by (vm_compute; reflexivity). by apply bool_decide_eq_true in H.
  - apply Forall_forall. assert (bool_decide (0 ∉ sample_text ++ chars "base {") = true) as H by (vm_compute; reflexivity). apply bool_decide_eq_true in H. intros x Hx ->. done.
  - rewrite Hr. assert (whole sample_text) as Hw by (right; vm_compute; reflexivity).
    rewrite <- (Hu _ (means_meaning no_address no_address sample_sections (S (length sample_text)) sample_text _ ltac:(lia) Hw)). vm_compute. reflexivity.
Defined.

Lemma parser_roundtrip_witness :
  run_sample (print_configuration [(chars "redsocks", [(chars "local_port", chars "8123"); (chars "password", [QUOTE; BACKSLASH; LF])])]) [] =
  Ok (true, [(3, VPchar [QUOTE; BACKSLASH; LF]); (1, VInt 8123)]).
Proof.
  apply (parser_roundtrip no_address no_address sample_sections [(chars "redsocks", [(chars "local_port", chars "8123"); (chars "password", [QUOTE; BACKSLASH; LF])])] []).
  repeat constructor; try (intros H; cbn in H; rewrite !elem_of_cons, elem_of_nil in H; destruct_or! H; discriminate H); try discriminate.
Defined.

(** *** What the code takes and does not take *)

(** A file whose last line has no end is accepted whatever that line is. *)
Lemma last_line_ignored : run_sample (chars "nonsense { x") [] = Ok (true, []).
Proof. vm_compute. reflexivity. Qed.

(** An assignment that is empty fails an assertion. *)
Lemma stray_semicolon : run_sample (chars "base { ; }" ++ [LF]) [] = Fault.
Proof. vm_compute. reflexivity. Qed.

(** A quoted value that is a brace is taken for the brace. *)
Lemma quoted_brace :
  configure no_address no_address sample_sections [(chars "redsocks", [(chars "password", chars "}")])] [] = Some [(3, VPchar (chars "}"))] /\
  run_sample (print_configuration [(chars "redsocks", [(chars "password", chars "}")])]) [] = Ok (false, []).
Proof. split; vm_compute; reflexivity. Qed.

(** A number of more than 32 bits is cut. *)
Lemma uint32_cut : vp_uint32 (chars "4294967297") = Some (VInt 1).
Proof. vm_compute. reflexivity. Qed.

End RedParser.
