(* ===== verification/RedProxy.v ===== *)
(** How redsocks asks a SOCKS proxy for a connection (redsocks/socks5.c,
    redsocks/socks4.c, with the helpers of redsocks/redsocks.c): the state
    machines that run on the callbacks of the buffered connection to the proxy,
    from the moment it is connected to the start of the relaying. *)
From Stdlib Require Import ZArith Lia.
From stdpp Require Import base tactics numbers option list.
From S2P Require Import Prelude.

(** ** The client while the proxy is asked *)
Module RedProxy.
Section with_state.
Context {state : Type}.

(** The connection to the proxy: the bytes that arrived at the socket, those
    that were read, all that was written, the watermarks of reading (low and
    high are always set alike), whether reading is enabled and whether it was
    shut ([relay_evshut]); the state and the payload [to_skip] of the
    protocol. *)
Record client := mkClient {
  cstate : state; to_skip : Z;
  arrived : list Z; input : list Z; sent : list Z; wm : Z; reading : bool; shut_read : bool
}.

(** What a handler leaves: the client goes on, was dropped or is relayed; a
    handler stops at the drop, as the callers return. *)
Inductive flow (A : Type) := Go (a : A) (c : client) | Dropped (c : client) | Relaying (c : client) | Stuck.
#[global] Arguments Go {A}.
#[global] Arguments Dropped {A}.
#[global] Arguments Relaying {A}.
#[global] Arguments Stuck {A}.
Definition bind {A B} (m : flow A) (f : A -> client -> flow B) : flow B :=
  match m with Go a c => f a c | Dropped c => Dropped c | Relaying c => Relaying c | Stuck => Stuck end.

Definition redsocks_drop_client {A} (c : client) : flow A := Dropped c.
Definition redsocks_start_relay {A} (c : client) : flow A := Relaying c.

Definition sizes_equal (a b : Z) : bool := a =? b.
Definition sizes_greater_equal (a b : Z) : bool := b <=? a.

Definition set_input (i : list Z) (c : client) : client :=
  mkClient (cstate c) (to_skip c) (arrived c) i (sent c) (wm c) (reading c) (shut_read c).
Definition set_to_skip (n : Z) (c : client) : client :=
  mkClient (cstate c) n (arrived c) (input c) (sent c) (wm c) (reading c) (shut_read c).
Definition set_state (s : state) (c : client) : client :=
  mkClient s (to_skip c) (arrived c) (input c) (sent c) (wm c) (reading c) (shut_read c).

(** [evbuffer_remove] gives as much as there is. *)
Definition redsocks_read_expected (comparator : Z -> Z -> bool) (expected : Z) (c : client) : flow (list Z) :=
  if comparator (Zlen (input c)) expected then
    let data := take (Z.to_nat expected) (input c) in
    if Zlen data =? expected then Go data (set_input (drop (Z.to_nat expected) (input c)) c) else Stuck
  else redsocks_drop_client c.

(** The message makers do not fail here: no allocation does. *)
Definition redsocks_write_helper_ex (mkmessage : option (client -> list Z)) (s : state) (wm_low : Z) (c : client) : flow unit :=
  let message := match mkmessage with Some mk => mk c | None => [] end in
  Go tt (mkClient s (to_skip c) (arrived c) (input c) (sent c ++ message) wm_low true (shut_read c)).
Definition redsocks_write_helper (mkmessage : option (client -> list Z)) (s : state) (wm_only : Z) (c : client) : flow unit :=
  redsocks_write_helper_ex mkmessage s wm_only c.

(** A protocol, as [relay_subsys] describes it. *)
Record relay_subsys := { init : state; readcb : client -> flow unit; writecb : client -> flow unit }.
Context (relay_ss : relay_subsys).

(** The connection is there: the callbacks are set and writing starts. *)
Definition redsocks_relay_connected (c : client) : flow unit := writecb relay_ss c.

(** *** Events *)
Inductive event := Arrive (d : list Z) | Read (n : nat) | Eof | Writable.

(** The end of the input: [redsocks_event_error] shuts the reading, and does
    nothing else while the relaying has not started. *)
Definition redsocks_event_error (c : client) : flow unit :=
  Go tt (mkClient (cstate c) (to_skip c) (arrived c) (input c) (sent c) (wm c) false true).

(** libevent reads when reading is enabled, what is there, up to the high
    watermark; the callback comes at the low watermark. *)
Definition enabled (c : client) (e : event) : Prop :=
  match e with
  | Read n => reading c = true /\ (0 < n <= length (arrived c))%nat /\ Zlen (input c) + Z.of_nat n <= wm c
  | Arrive d => shut_read c = false /\ bytes d
  | Eof => reading c = true /\ arrived c = [] /\ Zlen (input c) < wm c
  | Writable => True
  end.
Definition handle (c : client) (e : event) : flow unit :=
  match e with
  | Arrive d => Go tt (mkClient (cstate c) (to_skip c) (arrived c ++ d) (input c) (sent c) (wm c) (reading c) (shut_read c))
  | Read n =>
      let c := mkClient (cstate c) (to_skip c) (drop n (arrived c)) (input c ++ take n (arrived c)) (sent c) (wm c) (reading c) (shut_read c) in
      if wm c <=? Zlen (input c) then readcb relay_ss c else Go tt c
  | Eof => redsocks_event_error c
  | Writable => writecb relay_ss c
  end.

(** A run, until the client is dropped or relayed; the bytes that arrive
    later are still to be read then. *)
Inductive run : flow unit -> list event -> flow unit -> Prop :=
| run_nil m : run m [] m
| run_cons c e es m : enabled c e -> run (handle c e) es m -> run (Go tt c) (e :: es) m.

Definition start : flow unit := redsocks_relay_connected (mkClient (init relay_ss) 0 [] [] [] 0 false false).

(** *** What a protocol promises *)

(** What becomes of a request by the bytes the proxy sends. *)
Inductive verdict := Waiting | Refused | Granted (rest : list Z).

(** [result c] tells, from the state of the client, what was sent and what
    becomes of the request if the stream goes on with given bytes. *)
Class Handshake := {
  result : client -> list Z -> list Z * verdict;
  ready : client -> Prop;
  result_ext : forall c c' l, cstate c' = cstate c -> to_skip c' = to_skip c -> sent c' = sent c -> result c' l = result c l;
  ready_ext : forall c c', cstate c' = cstate c -> to_skip c' = to_skip c -> wm c' = wm c -> ready c -> ready c';
  ready_wm : forall c, ready c -> 0 < wm c;
  result_short : forall c l, ready c -> Zlen l < wm c -> result c l = (sent c, Waiting);
  result_read : forall c l, ready c -> bytes (input c) -> Zlen (input c) = wm c ->
    match readcb relay_ss c with
    | Go _ c' => ready c' /\ input c' = [] /\ arrived c' = arrived c /\ reading c' = true /\ shut_read c' = shut_read c /\
        result c' l = result c (input c ++ l)
    | Dropped c' => result c (input c ++ l) = (sent c', Refused)
    | Relaying c' => input c' = [] /\ arrived c' = arrived c /\ result c (input c ++ l) = (sent c', Granted l)
    | Stuck => False
    end;
  result_write : forall c, ready c -> writecb relay_ss c = Go tt c
}.
Context {HS : Handshake}.

Record inv (c : client) : Prop := {
  inv_ready : ready c;
  inv_input : Zlen (input c) < wm c;
  inv_reading : reading c = negb (shut_read c);
  inv_shut : shut_read c = true -> arrived c = [];
  inv_bytes : bytes (input c) /\ bytes (arrived c)
}.

(** A client that read from its socket. *)
Lemma proxy_handle_ok c e l : inv c -> enabled c e ->
  let d := match e with Arrive d => d | _ => [] end in
  match handle c e with
  | Go _ c' => inv c' /\ result c' (input c' ++ arrived c' ++ l) = result c (input c ++ arrived c ++ d ++ l)
  | Dropped c' => result c (input c ++ arrived c ++ d ++ l) = (sent c', Refused)
  | Relaying c' => input c' = [] /\ result c (input c ++ arrived c ++ d ++ l) = (sent c', Granted (arrived c' ++ l))
  | Stuck => False
  end.
Proof.
  intros [Hr Hi Hg Hs [Hb1 Hb2]] He. destruct e as [d|n| |]; cbn [handle].
  - destruct He as [He Hd]. split; [constructor; cbn; [by eapply ready_ext; [..|exact Hr]|done|done|congruence|by rewrite Forall_app]|].
    cbn. by rewrite <- app_assoc; apply result_ext.
  - destruct He as (Hrd & Hn & Hw). set (c1 := mkClient _ _ _ _ _ _ _ _).
    assert (ready c1) as Hr1 by (by eapply ready_ext; [..|exact Hr]).
    assert (forall l, result c1 l = result c l) as Hx by (intros; by apply result_ext).
    assert (input c1 ++ arrived c1 ++ l = input c ++ arrived c ++ l) as Hl.
    { cbn. by rewrite <- app_assoc, (app_assoc (take _ _)), take_drop. }
    assert (shut_read c = false) as Hsf by (destruct (shut_read c); [by rewrite Hg in Hrd|done]).
    cbn [app]. assert (Zlen (input c1) <= wm c1) as Hle by (cbn; rewrite length_app, length_take; lia).
    assert (bytes (input c1) /\ bytes (arrived c1)) as [Hb1' Hb2'].
    { cbn. rewrite Forall_app. split_and!; [done|by apply Forall_take|by apply Forall_drop]. }
    case_if.
    + pose proof (result_read c1 (arrived c1 ++ l) Hr1 Hb1') as Hres. rewrite Hx, Hl in Hres. specialize (Hres ltac:(lia)).
      destruct (readcb relay_ss c1) as [[] c'|c'|c'|]; [|done| |done].
      * destruct Hres as (H1 & H2 & H3 & H4 & H5 & H6). split; [|by rewrite H2, H3].
        constructor; [done|rewrite H2; by apply ready_wm|rewrite H4, H5; cbn; by rewrite Hsf|rewrite H5; cbn; congruence|by rewrite H2, H3].
      * destruct Hres as (H1 & H2 & H3). by rewrite H1, H2.
    + split; [constructor; [done|lia|by cbn; rewrite Hg|cbn; congruence|done]|]. by rewrite Hx, Hl.
  - destruct He as (Hrd & Ha & _). split; [constructor; cbn; [by eapply ready_ext; [..|exact Hr]|done..]|].
    by apply result_ext.
  - rewrite result_write by done. split; [by constructor|done].
Qed.

Definition stream (es : list event) : list Z := concat (map (fun e => match e with Arrive d => d | _ => [] end) es).

(** The outcome of every run is the result for the bytes that arrived. *)
Lemma run_result c es m : inv c -> run (Go tt c) es m ->
  let r := result c (input c ++ arrived c ++ stream es) in
  match m with
  | Go _ c' => inv c' /\ result c' (input c' ++ arrived c') = r
  | Dropped c' => r = (sent c', Refused)
  | Relaying c' => input c' = [] /\ r = (sent c', Granted (arrived c'))
  | Stuck => False
  end.
Proof.
  intros Hi Hr. remember (Go tt c) as m0 eqn:E. revert c E Hi.
  induction Hr as [m|c0 e es m He Hr IH]; intros c E Hi.
  - subst m. cbn. by rewrite app_nil_r.
  - injection E as ->. pose proof (proxy_handle_ok c e (stream es) Hi He) as H. unfold stream in *. cbn [map concat].
    destruct (handle c e) as [[] c1|c1|c1|] eqn:Eh; [|inversion Hr; subst; cbn in *..].
    + destruct H as [H1 H2]. rewrite <- H2. by apply IH.
    + done.
    + destruct H as [H1 H2]. split; [done|]. by rewrite (app_nil_r (arrived c1)) in H2.
    + done.
Qed.

(** A client that waits has either no bytes to read, and then the result is to
    wait, or can read. *)
Lemma inv_waits c : inv c -> (arrived c = [] -> result c (input c ++ arrived c) = (sent c, Waiting)) /\
  (arrived c <> [] -> enabled c (Read 1)).
Proof.
  intros [Hr Hi Hg Hs _]. split.
  - intros ->. rewrite app_nil_r. by apply result_short.
  - intros Ha. split_and!; [|lia|destruct (arrived c); [done|cbn; lia]|lia].
    rewrite Hg. destruct (shut_read c); [by destruct Ha; apply Hs|done].
Qed.

(** A run ends as specified: dropped exactly when refused, relayed exactly when
    granted, with what follows unread, and waiting otherwise, with every byte
    that arrived readable. *)
Definition meets (spec : list Z * verdict) (m : flow unit) : Prop :=
  match m with
  | Go _ c => (arrived c = [] -> spec = (sent c, Waiting)) /\ (arrived c <> [] -> enabled c (Read 1))
  | Dropped c => spec = (sent c, Refused)
  | Relaying c => input c = [] /\ spec = (sent c, Granted (arrived c))
  | Stuck => False
  end.

Lemma handshake_meets c es m : start = Go tt c -> ready c -> input c = [] -> arrived c = [] -> reading c = true -> shut_read c = false ->
  run start es m -> meets (result c (stream es)) m.
Proof.
  intros -> Hr Hi Ha Hrd Hs Hrun. assert (inv c) as Hinv.
  { constructor; [done|rewrite Hi; by apply ready_wm|by rewrite Hs|congruence|by rewrite Hi, Ha]. }
  pose proof (run_result c es m Hinv Hrun) as H. cbv zeta in H. rewrite Hi, Ha in H. cbn [app] in H.
  destruct m as [[] c'|c'|c'|]; [|done..]. destruct H as [H1 <-]. by apply inv_waits.
Qed.

(** A reply that is all of the input. *)
Lemma read_expected_all cmp n c : Zlen (input c) = n -> cmp n n = true ->
  redsocks_read_expected cmp n c = Go (input c) (set_input [] c).
Proof.
  intros Hl Hc. unfold redsocks_read_expected. rewrite Hl, Hc, take_ge, drop_ge by lia. by rewrite Hl, Z.eqb_refl.
Qed.

(** A proxy that closes the connection before it answered leaves the client as
    it is: no event of the connection does anything any more. *)
Lemma closed_stays c e : inv c -> shut_read c = true -> enabled c e -> handle c e = Go tt c.
Proof.
  intros [Hr Hi Hg Hs _] Hsh He. rewrite Hsh in Hg. cbn in Hg. destruct e as [d|n| |]; cbn in He |- *.
  - by destruct He; congruence.
  - by destruct He as [? _]; congruence.
  - by destruct He as [? _]; congruence.
  - by apply result_write.
Qed.

End with_state.
#[global] Arguments client : clear implicits.
#[global] Arguments flow : clear implicits.
#[global] Arguments relay_subsys : clear implicits.
End RedProxy.

(** ** SOCKS 5 *)
Module Socks5.
Import RedProxy.

Inductive socks5_state := socks5_new | socks5_method_sent | socks5_auth_sent | socks5_request_sent | socks5_skip_domain | socks5_skip_address.
#[global] Instance socks5_state_eq_dec : EqDecision socks5_state.
Proof. solve_decision. Defined.

Definition socks5_ver : Z := 5.
Definition socks5_auth_none : Z := 0x00.
Definition socks5_auth_password : Z := 0x02.
Definition socks5_auth_invalid : Z := 0xFF.
Definition socks5_password_ver : Z := 0x01.
Definition socks5_password_passed : Z := 0x00.
Definition socks5_addrtype_ipv4 : Z := 1.
Definition socks5_addrtype_domain : Z := 3.
Definition socks5_addrtype_ipv6 : Z := 4.
Definition socks5_status_succeeded : Z := 0.
Definition socks5_cmd_connect : Z := 1.
Definition sizeof_socks5_method_reply : Z := 2.
Definition sizeof_socks5_auth_reply : Z := 2.
Definition sizeof_socks5_reply : Z := 4.
Definition sizeof_socks5_addr_ipv4 : Z := 6.
Definition sizeof_socks5_addr_ipv6 : Z := 18.
Definition sizeof_port : Z := 2.

(** The credentials of the configuration, [None] for a null pointer. *)
Record redsocks_config := mkConfig { login : option (list Z); password : option (list Z) }.

Definition socks5_is_valid_cred (login password : option (list Z)) : bool :=
  match login, password with
  | Some l, Some p => if 255 <? Zlen l then false else if 255 <? Zlen p then false else true
  | _, _ => false
  end.
Definition socks5_instance_init (config : redsocks_config) : redsocks_config :=
  if bool_decide (login config <> None) || bool_decide (password config <> None) then
    let deauth :=
      if bool_decide (login config <> None) && bool_decide (password config <> None)
      then negb (socks5_is_valid_cred (login config) (password config)) else true in
    if deauth then mkConfig None None else config
  else config.

Section client.
(** The configuration as it was initialised, and the destination of the
    client: its address and port in network byte order. *)
Context (config : redsocks_config) (sin_addr sin_port : list Z).

Definition do_password : bool := bool_decide (login config <> None) && bool_decide (password config <> None).

Definition socks5_mkmethods_plain (do_password : bool) : list Z :=
  [socks5_ver; 1 + (if do_password then 1 else 0); socks5_auth_none] ++ (if do_password then [socks5_auth_password] else []).
Definition socks5_mkmethods (_ : client socks5_state) : list Z := socks5_mkmethods_plain do_password.

Definition socks5_mkpassword_plain (login password : list Z) : list Z :=
  [socks5_password_ver; u8 (Zlen login)] ++ login ++ [u8 (Zlen password)] ++ password.
(** Only called with credentials. *)
Definition socks5_mkpassword (_ : client socks5_state) : list Z :=
  socks5_mkpassword_plain (default [] (login config)) (default [] (password config)).

Definition socks5_mkcommand_plain (socks5_cmd : Z) (addr port : list Z) : list Z :=
  [socks5_ver; socks5_cmd; 0; socks5_addrtype_ipv4] ++ addr ++ port.
Definition socks5_mkconnect (_ : client socks5_state) : list Z := socks5_mkcommand_plain socks5_cmd_connect sin_addr sin_port.

Definition socks5_write_cb (c : client socks5_state) : flow socks5_state unit :=
  if bool_decide (cstate c = socks5_new) then
    redsocks_write_helper (Some socks5_mkmethods) socks5_method_sent sizeof_socks5_method_reply c
  else Go tt c.

(** Whether there is an error. *)
Definition socks5_is_known_auth_method (ver method : Z) (do_password : bool) : bool :=
  if negb (ver =? socks5_ver) then true
  else if method =? socks5_auth_invalid then true
  else if negb (method =? socks5_auth_none) && negb ((method =? socks5_auth_password) && do_password) then true
  else false.

(** The fields of a reply by their offsets. *)
Definition field (i : nat) (reply : list Z) : Z := default 0 (reply !! i).

Definition socks5_read_auth_methods (c : client socks5_state) : flow socks5_state unit :=
  bind (redsocks_read_expected sizes_equal sizeof_socks5_method_reply c) (fun reply c =>
  let ver := field 0 reply in
  let method := field 1 reply in
  if socks5_is_known_auth_method ver method do_password then redsocks_drop_client c
  else if method =? socks5_auth_none then
    redsocks_write_helper (Some socks5_mkconnect) socks5_request_sent sizeof_socks5_reply c
  else if method =? socks5_auth_password then
    redsocks_write_helper (Some socks5_mkpassword) socks5_auth_sent sizeof_socks5_auth_reply c
  else Go tt c).

Definition socks5_read_auth_reply (c : client socks5_state) : flow socks5_state unit :=
  bind (redsocks_read_expected sizes_equal sizeof_socks5_auth_reply c) (fun reply c =>
  if negb (field 0 reply =? socks5_password_ver) then redsocks_drop_client c
  else if field 1 reply =? socks5_password_passed then
    redsocks_write_helper (Some socks5_mkconnect) socks5_request_sent sizeof_socks5_reply c
  else redsocks_drop_client c).

Definition socks5_read_reply (c : client socks5_state) : flow socks5_state unit :=
  bind (redsocks_read_expected sizes_greater_equal sizeof_socks5_reply c) (fun reply c =>
  if negb (field 0 reply =? socks5_ver) then redsocks_drop_client c
  else if field 1 reply =? socks5_status_succeeded then
    let addrtype := field 3 reply in
    if addrtype =? socks5_addrtype_ipv4 then
      redsocks_write_helper None socks5_skip_address sizeof_socks5_addr_ipv4 (set_to_skip sizeof_socks5_addr_ipv4 c)
    else if addrtype =? socks5_addrtype_ipv6 then
      redsocks_write_helper None socks5_skip_address sizeof_socks5_addr_ipv6 (set_to_skip sizeof_socks5_addr_ipv6 c)
    else if addrtype =? socks5_addrtype_domain then redsocks_write_helper None socks5_skip_domain 1 c
    else redsocks_drop_client c
  else redsocks_drop_client c).

Definition socks5_read_cb (c : client socks5_state) : flow socks5_state unit :=
  match cstate c with
  | socks5_method_sent => socks5_read_auth_methods c
  | socks5_auth_sent => socks5_read_auth_reply c
  | socks5_request_sent => socks5_read_reply c
  | socks5_skip_domain =>
      bind (redsocks_read_expected sizes_greater_equal 1 c) (fun data c =>
      let size := field 0 data in
      let c := set_to_skip (size + sizeof_port) c in
      redsocks_write_helper None socks5_skip_address (to_skip c) c)
  | socks5_skip_address =>
      bind (redsocks_read_expected sizes_greater_equal (to_skip c) c) (fun _ c => redsocks_start_relay c)
  | socks5_new => redsocks_drop_client c
  end.

Definition socks5_subsys : relay_subsys socks5_state :=
  {| init := socks5_new; readcb := socks5_read_cb; writecb := socks5_write_cb |}.

(** *** Specification: the answers RFC 1928 and RFC 1929 allow *)
Definition skip (n : Z) (sent l : list Z) : list Z * verdict :=
  (sent, if n <=? Zlen l then Granted (drop (Z.to_nat n) l) else Waiting).
Definition domain (sent l : list Z) : list Z * verdict :=
  match l with size :: l => skip (size + 2) sent l | [] => (sent, Waiting) end.
Definition reply (sent l : list Z) : list Z * verdict :=
  match l with
  | ver :: status :: _ :: addrtype :: l =>
      if negb (ver =? 5) || negb (status =? 0) then (sent, Refused)
      else if addrtype =? 1 then skip 6 sent l
      else if addrtype =? 4 then skip 18 sent l
      else if addrtype =? 3 then domain sent l
      else (sent, Refused)
  | _ => (sent, Waiting)
  end.
Definition connect_request : list Z := [5; 1; 0; 1] ++ sin_addr ++ sin_port.
Definition auth (sent l : list Z) : list Z * verdict :=
  match l with
  | ver :: status :: l => if (ver =? 1) && (status =? 0) then reply (sent ++ connect_request) l else (sent, Refused)
  | _ => (sent, Waiting)
  end.
Definition password_request (u p : list Z) : list Z := [1; Zlen u] ++ u ++ [Zlen p] ++ p.
Definition methods (credentials : option (list Z * list Z)) (sent l : list Z) : list Z * verdict :=
  match l with
  | ver :: method :: l =>
      if negb (ver =? 5) then (sent, Refused)
      else if method =? 0 then reply (sent ++ connect_request) l
      else match credentials with
           | Some (u, p) => if method =? 2 then auth (sent ++ password_request u p) l else (sent, Refused)
           | None => (sent, Refused)
           end
  | _ => (sent, Waiting)
  end.
Definition socks5_spec (credentials : option (list Z * list Z)) (l : list Z) : list Z * verdict :=
  methods credentials (match credentials with Some _ => [5; 2; 0; 2] | None => [5; 1; 0] end) l.

Definition credentials : option (list Z * list Z) :=
  match login config, password config with Some u, Some p => Some (u, p) | _, _ => None end.

End client.

(** *** The state machine implements it *)
Section handshake.
Context (config : redsocks_config) (sin_addr sin_port : list Z).
Context (Hcred : forall u p, credentials config = Some (u, p) -> Zlen u <= 255 /\ Zlen p <= 255).

Definition socks5_result (c : client socks5_state) (l : list Z) : list Z * verdict :=
  match cstate c with
  | socks5_new => (sent c, Waiting)
  | socks5_method_sent => methods sin_addr sin_port (credentials config) (sent c) l
  | socks5_auth_sent => auth sin_addr sin_port (sent c) l
  | socks5_request_sent => reply (sent c) l
  | socks5_skip_domain => domain (sent c) l
  | socks5_skip_address => skip (to_skip c) (sent c) l
  end.
Definition socks5_ready (c : client socks5_state) : Prop :=
  match cstate c with
  | socks5_new => False
  | socks5_method_sent | socks5_auth_sent => wm c = 2
  | socks5_request_sent => wm c = 4
  | socks5_skip_domain => wm c = 1
  | socks5_skip_address => wm c = to_skip c /\ 0 < to_skip c
  end.

Lemma do_password_credentials : do_password config = match credentials config with Some _ => true | None => false end.
Proof. unfold do_password, credentials. by destruct (login config), (password config). Qed.
Lemma mkpassword_credentials c u p : credentials config = Some (u, p) -> socks5_mkpassword config c = password_request u p.
Proof.
  intros Hc. destruct (Hcred u p Hc). unfold credentials, socks5_mkpassword, socks5_mkpassword_plain, password_request in *.
  destruct (login config), (password config); try done. injection Hc as -> ->. cbn [default from_option id]. by rewrite !u8_small by lia.
Qed.

Lemma socks5_read c l : socks5_ready c -> bytes (input c) -> Zlen (input c) = wm c ->
    match socks5_read_cb config sin_addr sin_port c with
    | Go _ c' => socks5_ready c' /\ input c' = [] /\ arrived c' = arrived c /\ reading c' = true /\ shut_read c' = shut_read c /\
        socks5_result c' l = socks5_result c (input c ++ l)
    | Dropped c' => socks5_result c (input c ++ l) = (sent c', Refused)
    | Relaying c' => input c' = [] /\ arrived c' = arrived c /\ socks5_result c (input c ++ l) = (sent c', Granted l)
    | Stuck => False
    end.
Proof.
  unfold socks5_ready, socks5_read_cb, socks5_result. intros Hr Hb Hl. destruct (cstate c) eqn:Ec; [done|..].
  - rewrite Hr in Hl. unfold socks5_read_auth_methods, sizeof_socks5_method_reply. rewrite read_expected_all by done.
    destruct (input c) as [|ver [|method [|]]]; try (cbn in Hl; lia). cbn.
    unfold socks5_is_known_auth_method, socks5_ver, socks5_auth_invalid, socks5_auth_none, socks5_auth_password.
    rewrite do_password_credentials. destruct (ver =? 5); [|done]. cbn [negb].
    destruct (method =? 0) eqn:E0; [zify_bool; subst method; done|].
    destruct (method =? 255) eqn:E255; [zify_bool; subst method; by destruct (credentials config) as [[]|]|].
    pose proof mkpassword_credentials as Hmk. destruct (credentials config) as [[u p]|]; [|by rewrite andb_false_r].
    destruct (method =? 2); [|done]. cbn -[socks5_mkpassword]. by rewrite (Hmk (set_input [] c) u p eq_refl).
  - rewrite Hr in Hl. unfold socks5_read_auth_reply, sizeof_socks5_auth_reply. rewrite read_expected_all by done.
    destruct (input c) as [|ver [|status [|]]]; try (cbn in Hl; lia). cbn.
    unfold socks5_password_ver, socks5_password_passed. destruct (ver =? 1), (status =? 0); done.
  - rewrite Hr in Hl. unfold socks5_read_reply, sizeof_socks5_reply. rewrite read_expected_all by done.
    destruct (input c) as [|ver [|status [|rsv [|addrtype [|]]]]]; try (cbn in Hl; lia). cbn.
    unfold socks5_ver, socks5_status_succeeded, socks5_addrtype_ipv4, socks5_addrtype_ipv6, socks5_addrtype_domain.
    destruct (ver =? 5), (status =? 0); try done. cbn.
    destruct (addrtype =? 1); [cbn; by rewrite app_nil_r|]. destruct (addrtype =? 4); [cbn; by rewrite app_nil_r|].
    destruct (addrtype =? 3); [cbn; by rewrite app_nil_r|done].
  - rewrite Hr in Hl. rewrite read_expected_all by done.
    destruct (input c) as [|size [|]]; try (cbn in Hl; lia). cbn. rewrite app_nil_r.
    inversion Hb. unfold is_byte, sizeof_port in *. split_and!; try done. lia.
  - destruct Hr as [Hr Hs]. rewrite read_expected_all by (try apply Z.leb_refl; lia). cbn. split_and!; [done|done|].
    unfold skip. rewrite length_app. case_if; [|lia]. by rewrite drop_app_length' by lia.
Qed.

#[export] Instance socks5_handshake_laws : Handshake (socks5_subsys config sin_addr sin_port).
Proof using Hcred.
  refine {| result := socks5_result; ready := socks5_ready |}.
  - intros c c' l E1 E2 E3. unfold socks5_result. by rewrite E1, E2, E3.
  - intros c c' E1 E2 E3. unfold socks5_ready. by rewrite E1, E2, E3.
  - intros c. unfold socks5_ready. destruct (cstate c); lia.
  - intros c l. unfold socks5_ready, socks5_result. destruct (cstate c); intros Hr Hl; [done|..]; try rewrite Hr in Hl.
    + by destruct l as [|? [|? ?]]; [..|cbn in Hl; lia].
    + by destruct l as [|? [|? ?]]; [..|cbn in Hl; lia].
    + by destruct l as [|? [|? [|? [|? ?]]]]; [..|cbn in Hl; lia].
    + by destruct l as [|? ?]; [|cbn in Hl; lia].
    + unfold skip. case_if; [lia|done].
  - exact socks5_read.
  - intros c. unfold socks5_ready. cbn. unfold socks5_write_cb. by destruct (cstate c).
Defined.

End handshake.

(** Credentials that are left after the initialisation fit in a request. *)
Lemma instance_init_credentials config u p : credentials (socks5_instance_init config) = Some (u, p) -> Zlen u <= 255 /\ Zlen p <= 255.
Proof.
  unfold credentials, socks5_instance_init. destruct config as [[l|] [q|]]; cbn; try done.
  repeat case_if; cbn; intros [= <- <-]; zify_bool; lia.
Qed.

(** Evaluate the steps of a concrete run. *)
Ltac run_demo :=
  repeat (eapply run_cons; [vm_compute; repeat split; first [done|lia|repeat constructor; done]|];
          match goal with |- run _ ?m _ _ => let m' := eval vm_compute in m in change m with m' end);
  apply run_nil.

(** C12: SOCKS 5 for redsocks. Whatever the proxy sends, however the bytes are
    split, and whether or not it closes the connection, and with whatever
    credentials are configured (too long ones are dropped beforehand), no
    assertion fails, the client asks and decides as RFC 1928 and RFC 1929 say
    from the bytes that arrived: it is dropped exactly when the answers refuse
    it, with the messages of the specification sent; it is relayed exactly when
    they grant it, with nothing of what follows the answers read; and as long
    as they do neither it waits, with every byte that arrives readable. *)
Theorem socks5_handshake config sin_addr sin_port es m :
  let config := socks5_instance_init config in
  let spec := socks5_spec sin_addr sin_port (credentials config) (stream es) in
  run (socks5_subsys config sin_addr sin_port) (start (socks5_subsys config sin_addr sin_port)) es m ->
  meets spec m.
Proof.
  intros cfg spec. pose proof (instance_init_credentials config) as Hc. fold cfg in Hc.
  set (c0 := mkClient socks5_method_sent 0 [] [] (socks5_mkmethods_plain (do_password cfg)) 2 true false).
  intros Hr. replace spec with (@result _ _ (socks5_handshake_laws cfg sin_addr sin_port Hc) c0 (stream es)).
  - by apply handshake_meets.
  - cbn. unfold socks5_result, spec, socks5_spec. cbn. f_equal. rewrite do_password_credentials.
    by destruct (credentials cfg).
Qed.

(** User "u" with password "p"; the proxy answers with a host name and sends a
    byte of the destination with its answer. *)
Definition demo_config : redsocks_config := mkConfig (Some [117]) (Some [112]).
Definition demo : list event :=
  [Arrive [5]; Read 1; Writable; Arrive [2; 1; 0]; Read 1; Read 2; Arrive [5; 0; 0; 3; 1; 97; 0; 80; 9]; Read 3; Read 1; Read 1; Read 3].

Lemma socks5_handshake_witness : exists c,
  run (socks5_subsys demo_config [10; 0; 0; 1] [0; 80]) (start (socks5_subsys demo_config [10; 0; 0; 1] [0; 80])) demo (Relaying c) /\
  sent c = [5; 2; 0; 2] ++ [1; 1; 117; 1; 112] ++ [5; 1; 0; 1; 10; 0; 0; 1; 0; 80] /\ arrived c = [9] /\
  meets (socks5_spec [10; 0; 0; 1] [0; 80] (Some ([117], [112])) (stream demo)) (Relaying c).
Proof.
  eexists. assert (forall P Q : Prop, P -> (P -> Q) -> P /\ Q) as Hand by tauto. apply Hand.
  - unfold demo. run_demo.
  - intros Hr. split_and!; [done|done|]. exact (socks5_handshake demo_config [10; 0; 0; 1] [0; 80] demo _ Hr).
Defined.

End Socks5.

(** ** SOCKS 4 *)
Module Socks4.
Import RedProxy.

Inductive socks4_state := socks4_new | socks4_request_sent | socks4_reply_came.
#[global] Instance socks4_state_eq_dec : EqDecision socks4_state.
Proof. solve_decision. Defined.

Definition socks4_ver : Z := 4.
Definition socks4_cmd_connect : Z := 1.
Definition socks4_status_ok : Z := 90.
Definition sizeof_socks4_reply : Z := 8.

Section client.
(** The login of the configuration, and the destination in network byte
    order. *)
Context (login : option (list Z)) (sin_addr sin_port : list Z).

Definition socks4_read_cb (c : client socks4_state) : flow socks4_state unit :=
  if bool_decide (cstate c = socks4_new) then Stuck
  else if bool_decide (cstate c = socks4_request_sent) then
    bind (redsocks_read_expected sizes_greater_equal sizeof_socks4_reply c) (fun reply c =>
    let c := set_state socks4_reply_came c in
    if negb (Socks5.field 0 reply =? 0) then redsocks_drop_client c
    else if Socks5.field 1 reply =? socks4_status_ok then redsocks_start_relay c
    else redsocks_drop_client c)
  else Go tt c.

Definition socks4_mkconnect (_ : client socks4_state) : list Z :=
  let username := default [] login in
  [socks4_ver; socks4_cmd_connect] ++ sin_port ++ sin_addr ++ username ++ [0].

(** Disabling the writing does not show here: nothing is left to write. *)
Definition socks4_write_cb (c : client socks4_state) : flow socks4_state unit :=
  if bool_decide (cstate c = socks4_new) then
    redsocks_write_helper (Some socks4_mkconnect) socks4_request_sent sizeof_socks4_reply c
  else Go tt c.

Definition socks4_subsys : relay_subsys socks4_state :=
  {| init := socks4_new; readcb := socks4_read_cb; writecb := socks4_write_cb |}.

(** *** Specification *)
Definition socks4_spec (sent l : list Z) : list Z * verdict :=
  (sent,
   match l with
   | ver :: status :: _ :: _ :: _ :: _ :: _ :: _ :: l => if (ver =? 0) && (status =? 90) then Granted l else Refused
   | _ => Waiting
   end).
Definition socks4_request : list Z := [4; 1] ++ sin_port ++ sin_addr ++ default [] login ++ [0].

#[export] Instance socks4_handshake_laws : Handshake socks4_subsys.
Proof.
  refine {| result := fun c => socks4_spec (sent c);
            ready := fun c => cstate c = socks4_request_sent /\ wm c = 8 |}.
  - by intros c c' l _ _ ->.
  - by intros c c' -> _ ->.
  - lia.
  - intros c l [_ Hw] Hl. rewrite Hw in Hl.
    do 8 (destruct l as [|? l]; [done|]). cbn in Hl. lia.
  - intros c l [Hs Hw] _ Hl. rewrite Hw in Hl. cbn. unfold socks4_read_cb, sizeof_socks4_reply.
    rewrite Hs, bool_decide_eq_false_2, bool_decide_eq_true_2, read_expected_all by done. cbn [bind].
    destruct (input c) as [|ver [|status [|? [|? [|? [|? [|? [|? [|]]]]]]]]]; try (cbn in Hl; lia).
    cbn. unfold socks4_status_ok, socks4_spec. destruct (ver =? 0), (status =? 90); done.
  - intros c [Hs _]. cbn. unfold socks4_write_cb. by rewrite Hs.
Defined.

End client.

(** SOCKS 4 for redsocks, in the same sense. *)
Lemma socks4_handshake login sin_addr sin_port es m :
  run (socks4_subsys login sin_addr sin_port) (start (socks4_subsys login sin_addr sin_port)) es m ->
  meets (socks4_spec (socks4_request login sin_addr sin_port) (stream es)) m.
Proof.
  intros Hr. set (c0 := mkClient socks4_request_sent 0 [] [] (socks4_request login sin_addr sin_port) 8 true false).
  change (meets (@result _ _ (socks4_handshake_laws login sin_addr sin_port) c0 (stream es)) m).
  by apply handshake_meets.
Qed.

End Socks4.
