(* ===== verification/RedAccept.v ===== *)
(** How redsocks accepts clients (redsocks/redsocks.c): the count of clients
    and its limit, the dropping of idle clients under pressure, and the backing
    off from accepting by a timer. Times are microseconds; what accept, the
    clock and the random generator give is in the events. *)
From Stdlib Require Import ZArith Lia.
From stdpp Require Import base tactics numbers option list.
From S2P Require Import Prelude.

Module RedAccept.
Section accept.

(** [redsocks_conn_max()], [connpres_idle_timeout()] and
    [max_accept_backoff_ms()] of the configuration. *)
Context (conn_max idle_timeout max_backoff_ms : Z).

(** A client in the list of its instance: when it was touched last and how
    many descriptors its freeing closes. *)
Record client := mkClient { cid : nat; last_event : Z; fds : nat }.
(** [redsocks_instance]: its clients and whether its listener is added. *)
Record instance := mkInstance { clients : list client; listener : bool }.
Record state := mkState {
  instances : list instance;
  redsocks_conn : Z;
  accept_backoff_ms : Z;
  accept_backoff_ev : option Z (* the delay, while the timer is pending *)
}.

Definition all_clients (s : state) : list client := concat (map clients (instances s)).
Definition set_listeners (b : bool) (s : state) : state :=
  mkState (map (fun i => mkInstance (clients i) b) (instances s)) (redsocks_conn s) (accept_backoff_ms s) (accept_backoff_ev s).
Definition set_backoff_ev (t : option Z) (s : state) : state :=
  mkState (instances s) (redsocks_conn s) (accept_backoff_ms s) t.
Definition set_backoff_ms (ms : Z) (s : state) : state :=
  mkState (instances s) (redsocks_conn s) ms (accept_backoff_ev s).
Definition map_clients (f : list client -> list client) (s : state) : state :=
  mkState (map (fun i => mkInstance (f (clients i)) (listener i)) (instances s)) (redsocks_conn s) (accept_backoff_ms s) (accept_backoff_ev s).
Definition set_conn (n : Z) (s : state) : state :=
  mkState (instances s) n (accept_backoff_ms s) (accept_backoff_ev s).

(** ** Operations *)
Definition accept_enable (s : state) : state := set_listeners true s.

Definition conn_pressure_lowered (s : state) : state :=
  if conn_max <=? redsocks_conn s then s
  else match accept_backoff_ev s with
       | Some _ => accept_enable (set_backoff_ev None s)
       | None => s
       end.

(** A close that succeeds. *)
Definition redsocks_close (s : state) : state := conn_pressure_lowered s.

Definition listed (c : client) (s : state) : bool := bool_decide (cid c ∈ map cid (all_clients s)).
Definition list_del (c : client) (s : state) : state := map_clients (filter (fun c' => cid c' <> cid c)) s.

Definition redsocks_conn_list_del (c : client) (s : state) : state :=
  let s := if listed c s then list_del c (set_conn (u32 (redsocks_conn s - 1)) s) else s in
  conn_pressure_lowered s.

(** What the dropping of a client does here: its descriptors are closed and
    it leaves its list. *)
Definition redsocks_drop_client (c : client) (s : state) : state :=
  redsocks_conn_list_del c (Nat.iter (fds c) redsocks_close s).

Definition max_idle : Z := idle_timeout * 1000000.

(** The loop over the clients of all instances, with the time to the next one. *)
Fixpoint drop_idle_loop (now : Z) (cs : list client) (best_next : Z) (s : state) : state * Z :=
  match cs with
  | [] => (s, best_next)
  | c :: cs =>
      let idle := now - last_event c in
      if (idle <=? 0) || (max_idle <=? idle) then drop_idle_loop now cs 0 (redsocks_drop_client c s)
      else
        let delay := max_idle - idle in
        drop_idle_loop now cs (if delay <? best_next then delay else best_next) s
  end.
Definition drop_idle_connections (now : Z) (s : state) : state * Z :=
  drop_idle_loop now (all_clients s) max_idle s.

Definition conn_pressure_ongoing (socket_ok : bool) (s : state) : bool :=
  if conn_max <=? redsocks_conn s then true else negb socket_ok.

Definition clamp_value (value min_val max_val : Z) : Z :=
  let value := if value <? min_val then min_val else value in
  if max_val <? value then max_val else value.

(** The part after the idle clients: the timer is set and the listeners are
    deleted. *)
Definition back_off (rand next : Z) (s : state) : state :=
  let ms := clamp_value (u32 (u32 (Z.shiftl (accept_backoff_ms s) 1) + 1)) 1 max_backoff_ms in
  let delay := u32 (rand mod ms + 1) in
  let tvdelay := delay * 1000 in
  let tvdelay := if negb (next =? 0) && (next <? tvdelay) then next else tvdelay in
  set_listeners false (set_backoff_ev (Some tvdelay) (set_backoff_ms ms s)).

Definition conn_pressure (now rand : Z) (s : state) : state :=
  if negb (idle_timeout =? 0) then
    let '(s, next) := drop_idle_connections now s in
    if next =? 0 then s else back_off rand next s
  else back_off rand 0 s.

(** The timer is not pending any more when its callback runs. *)
Definition redsocks_accept_backoff (socket_ok : bool) (now rand : Z) (s : state) : state :=
  if conn_pressure_ongoing socket_ok s then conn_pressure now rand s else accept_enable s.

Definition list_add (i : nat) (c : client) (s : state) : state :=
  mkState (alter (fun x => mkInstance (c :: clients x) (listener x)) i (instances s))
    (redsocks_conn s) (accept_backoff_ms s) (accept_backoff_ev s).

Definition redsocks_conn_list_add (i : nat) (c : client) (now rand : Z) (s : state) : outcome state :=
  ASSERT (redsocks_conn s <? conn_max) ≫= fun _ =>
  let s := set_conn (u32 (redsocks_conn s + 1)) (list_add i c s) in
  Ok (if conn_max <=? redsocks_conn s then conn_pressure now rand s else s).

(** The result of [red_connect_relay]: connected, no socket, or a failure
    after which the socket was closed. *)
Inductive relay_result := RelayConnected | RelayNoSocket | RelayClosed.

(** What happens to an accepted connection. *)
Inductive accepted :=
| AcceptError (lack : bool) (now rand : Z)          (* accept failed; [lack] of descriptors or memory *)
| SetupError (allocated : bool)                     (* failed before the client is in the list *)
| Accepted (new : nat) (touched now rand : Z) (relay : relay_result).

Definition redsocks_accept_client (i : nat) (a : accepted) (s : state) : outcome state :=
  ASSERT (redsocks_conn s <? conn_max) ≫= fun _ =>
  match a with
  | AcceptError lack now rand => Ok (if lack then conn_pressure now rand s else s)
  | SetupError allocated =>
      let s := set_backoff_ms 0 s in
      let s := if allocated then conn_pressure_lowered s else s in
      Ok (redsocks_close s)
  | Accepted new touched now rand relay =>
      let c := mkClient new touched 1 in
      redsocks_conn_list_add i c now rand (set_backoff_ms 0 s) ≫= fun s =>
      if listed c s then
        Ok match relay with
           | RelayConnected => map_clients (map (fun c => if decide (cid c = new) then mkClient new (last_event c) 2 else c)) s
           | RelayNoSocket => redsocks_drop_client c s
           | RelayClosed => redsocks_drop_client c (redsocks_close s)
           end
      else Fault (* goes on with a client that was freed *)
  end.

(** ** Events *)
Inductive event :=
| Connection (i : nat) (a : accepted)
| Timer (socket_ok : bool) (now rand : Z)
| Touch (id : nat) (now : Z)   (* a callback of the client *)
| Leave (c : client).          (* the client is dropped *)

Definition enabled (s : state) (e : event) : Prop :=
  match e with
  | Connection i a =>
      (exists x, instances s !! i = Some x /\ listener x = true) /\
      match a with Accepted new _ _ _ _ => new ∉ map cid (all_clients s) | _ => True end
  | Timer _ _ _ => accept_backoff_ev s <> None
  | Touch id now => True
  | Leave c => c ∈ all_clients s
  end.
Definition handle (s : state) (e : event) : outcome state :=
  match e with
  | Connection i a => redsocks_accept_client i a s
  | Timer socket_ok now rand => Ok (redsocks_accept_backoff socket_ok now rand (set_backoff_ev None s))
  | Touch id now => Ok (map_clients (map (fun c => if decide (cid c = id) then mkClient id now (fds c) else c)) s)
  | Leave c => Ok (redsocks_drop_client c s)
  end.
Inductive run : state -> list event -> outcome state -> Prop :=
| run_nil s : run s [] (Ok s)
| run_fault s e es : enabled s e -> handle s e = Fault -> run s (e :: es) Fault
| run_cons s e es s' r : enabled s e -> handle s e = Ok s' -> run s' es r -> run s (e :: es) r.

Definition init (n : nat) : state := mkState (replicate n (mkInstance [] true)) 0 0 None.

(** ** Invariant *)
Context (Hmax : 0 < conn_max < 2 ^ 32) (Hidle : 0 <= idle_timeout) (Hbackoff : 0 < max_backoff_ms < 2 ^ 32).

(** The count is right. *)
Record core (s : state) : Prop := {
  core_conn : redsocks_conn s = Zlen (all_clients s);
  core_max : redsocks_conn s <= conn_max;
  core_ids : NoDup (map cid (all_clients s))
}.
Definition uniform (b : bool) (s : state) : Prop := Forall (fun i => listener i = b) (instances s).
(** The modes: accepting, waiting for the timer, and neither. *)
Definition listening (s : state) : Prop := uniform true s /\ accept_backoff_ev s = None /\ redsocks_conn s < conn_max.
Definition backing_off (s : state) : Prop :=
  uniform false s /\ exists d, accept_backoff_ev s = Some d /\ 0 < d <= max_backoff_ms * 1000.
Definition stuck (s : state) : Prop := uniform false s /\ accept_backoff_ev s = None.
Definition live (s : state) : Prop := listening s \/ backing_off s.
Definition inv (s : state) : Prop := core s /\ (live s \/ stuck s).

Definition is_idle (now : Z) (c : client) : bool := (now - last_event c <=? 0) || (max_idle <=? now - last_event c).

(** ** Lists of clients *)
Lemma all_map_clients f s : (forall l l', f (l ++ l') = f l ++ f l') -> f [] = [] ->
  all_clients (map_clients f s) = f (all_clients s).
Proof.
  intros Happ Hnil. unfold all_clients, map_clients. cbn. induction (instances s) as [|i l IH]; cbn; [done|].
  by rewrite Happ, IH.
Qed.
Lemma all_list_del c s : all_clients (list_del c s) = filter (fun c' => cid c' <> cid c) (all_clients s).
Proof. apply (all_map_clients (filter _)); [intros; apply filter_app|done]. Qed.
Lemma all_map f s : all_clients (map_clients (map f) s) = map f (all_clients s).
Proof. apply (all_map_clients (map f)); [intros; apply map_app|done]. Qed.
Lemma all_list_add i c s x : instances s !! i = Some x -> all_clients (list_add i c s) ≡ₚ c :: all_clients s.
Proof.
  unfold all_clients, list_add. cbn. revert i. induction (instances s) as [|y l IH]; intros i Hi; [done|].
  destruct i as [|i]; cbn in *; [done|]. rewrite (IH i Hi). by rewrite Permutation_middle.
Qed.

Lemma length_remove (l : list client) c : NoDup (map cid l) -> cid c ∈ map cid l ->
  S (length (filter (fun c' => cid c' <> cid c) l)) = length l.
Proof.
  induction l as [|y l IH]; [by intros _ ?%elem_of_nil|]. cbn [map]. rewrite NoDup_cons. intros [Hy Hn] Hc.
  destruct (decide (cid y = cid c)) as [E|E].
  - rewrite filter_cons_False by auto. cbn [length]. do 2 f_equal. clear IH Hc Hn. rewrite E in Hy. induction l as [|z l IH]; [done|].
    cbn [map] in Hy. rewrite not_elem_of_cons in Hy. rewrite filter_cons_True by naive_solver. f_equal. apply IH, Hy.
  - rewrite filter_cons_True by done. cbn [length]. f_equal. apply IH; [done|]. apply elem_of_cons in Hc as [?|?]; [congruence|done].
Qed.
Lemma ids_remove (l : list client) (P : client -> Prop) `{!forall x, Decision (P x)} : NoDup (map cid l) -> NoDup (map cid (filter P l)).
Proof. intros Hn. eapply sublist_NoDup; [exact Hn|]. apply fmap_sublist, sublist_filter. Qed.

(** ** Dropping clients *)
Definition remove (c : client) (s : state) : state := list_del c (set_conn (redsocks_conn s - 1) s).

Lemma listed_true c s : listed c s = true <-> cid c ∈ map cid (all_clients s).
Proof. apply bool_decide_eq_true. Qed.

Lemma remove_core c s : core s -> listed c s = true -> core (remove c s) /\ 0 <= redsocks_conn (remove c s).
Proof.
  intros [Hc Hm Hi] Hl%listed_true. pose proof (length_remove _ _ Hi Hl) as Hr.
  assert (all_clients (remove c s) = filter (fun c' => cid c' <> cid c) (all_clients s)) as Ha by (unfold remove; by rewrite all_list_del).
  assert (redsocks_conn (remove c s) = redsocks_conn s - 1) as Hn by done.
  split; [constructor; rewrite ?Ha, ?Hn; [lia|lia|by apply ids_remove]|lia].
Qed.

Lemma remove_listeners c s b : uniform b (remove c s) <-> uniform b s.
Proof. unfold uniform, remove, list_del, map_clients. cbn. by rewrite Forall_map. Qed.

Lemma conn_positive c s : core s -> listed c s = true -> 0 < redsocks_conn s /\ u32 (redsocks_conn s - 1) = redsocks_conn s - 1.
Proof.
  intros [Hc Hm Hi] Hl%listed_true. assert (0 < Zlen (all_clients s)).
  { destruct (all_clients s); [by apply elem_of_nil in Hl|cbn; lia]. }
  split; [lia|]. apply u32_small. lia.
Qed.

Lemma lowered_none s : accept_backoff_ev s = None -> conn_pressure_lowered s = s.
Proof. intros E. unfold conn_pressure_lowered. rewrite E. by case_if. Qed.

(** While the timer is not pending, dropping only removes the client. *)
Lemma drop_none c s : core s -> accept_backoff_ev s = None ->
  redsocks_drop_client c s = if listed c s then remove c s else s.
Proof.
  intros Hc E. unfold redsocks_drop_client.
  assert (Nat.iter (fds c) redsocks_close s = s) as ->.
  { induction (fds c) as [|n IH]; [done|]. rewrite Nat.iter_succ, IH. by apply lowered_none. }
  unfold redsocks_conn_list_del. destruct (listed c s) eqn:El; [|by apply lowered_none].
  destruct (conn_positive _ _ Hc El) as [_ ->]. by apply lowered_none.
Qed.

Lemma inv_lowered s : inv s -> inv (conn_pressure_lowered s) /\ (live s -> live (conn_pressure_lowered s)) /\
  all_clients (conn_pressure_lowered s) = all_clients s.
Proof.
  intros [Hc Hm]. destruct (accept_backoff_ev s) as [d|] eqn:E; [|by rewrite lowered_none].
  unfold conn_pressure_lowered. rewrite E. case_if; [by split_and!|].
  assert (all_clients (accept_enable (set_backoff_ev None s)) = all_clients s) as Ha.
  { unfold all_clients. cbn. by rewrite map_map. }
  assert (listening (accept_enable (set_backoff_ev None s))) as Hl.
  { split_and!; [|done|cbn; lia]. unfold uniform. cbn. by rewrite Forall_map, Forall_forall. }
  split_and!; [split; [|by left; left]|by left|done].
  destruct Hc. by constructor; rewrite ?Ha.
Qed.

Lemma inv_remove c s : inv s -> listed c s = true -> inv (remove c s) /\ (live s -> live (remove c s)).
Proof.
  intros [Hc Hm] Hl. destruct (remove_core c s Hc Hl) as [Hc' Hp].
  assert (listening s -> listening (remove c s)) as H1.
  { intros (? & ? & ?). split_and!; [by apply remove_listeners|done|cbn; lia]. }
  assert (backing_off s -> backing_off (remove c s)) as H2.
  { intros [? ?]. split; [by apply remove_listeners|done]. }
  assert (stuck s -> stuck (remove c s)) as H3.
  { intros [? ?]. split; [by apply remove_listeners|done]. }
  assert (live s -> live (remove c s)) as H4 by (intros [?|?]; [left; auto|right; auto]).
  split; [split; [done|]|done]. destruct Hm; [left; auto|right; auto].
Qed.

Lemma inv_drop c s : inv s -> inv (redsocks_drop_client c s) /\ (live s -> live (redsocks_drop_client c s)).
Proof.
  intros Hi. unfold redsocks_drop_client.
  assert (inv (Nat.iter (fds c) redsocks_close s) /\ (live s -> live (Nat.iter (fds c) redsocks_close s))) as [Hi' Hl'].
  { induction (fds c) as [|n [IH1 IH2]]; [done|]. rewrite Nat.iter_succ. destruct (inv_lowered _ IH1) as (? & ? & _). auto. }
  unfold redsocks_conn_list_del. set (s' := Nat.iter _ _ _) in *. destruct (listed c s') eqn:E.
  - destruct (conn_positive _ _ (proj1 Hi') E) as [_ ->]. destruct (inv_remove c s' Hi' E) as [H1 H2].
    destruct (inv_lowered _ H1) as (? & ? & _). auto.
  - destruct (inv_lowered _ Hi') as (? & ? & _). auto.
Qed.

(** ** Pressure *)
Lemma remove_keeps c c' s : c' ∈ all_clients s -> cid c' <> cid c -> c' ∈ all_clients (remove c s).
Proof. intros H1 H2. unfold remove. rewrite all_list_del. by apply list_elem_of_filter. Qed.

Lemma ids_inj (l : list client) c c' : NoDup (map cid l) -> c ∈ l -> c' ∈ l -> cid c = cid c' -> c = c'.
Proof.
  induction l as [|x l IH]; [by intros _ ?%elem_of_nil|]. cbn [map]. rewrite NoDup_cons. intros [Hx Hn].
  assert (forall y, y ∈ l -> cid x <> cid y) as Hxy by (intros y Hy E; apply Hx; rewrite E; apply list_elem_of_fmap; eauto).
  rewrite !elem_of_cons. intros [->|H1] [->|H2] E; [done|by destruct (Hxy c')|by destruct (Hxy c)|by apply IH].
Qed.

(** The idle clients go, the others stay; the time is zero exactly if one went. *)
Lemma drop_idle_loop_spec now cs : forall best s, core s -> accept_backoff_ev s = None ->
  NoDup (map cid cs) -> (forall c, c ∈ cs -> c ∈ all_clients s) -> 0 < max_idle ->
  let '(s', next) := drop_idle_loop now cs best s in
  core s' /\ accept_backoff_ev s' = None /\ (forall b, uniform b s -> uniform b s') /\
  (forall c, c ∈ all_clients s -> is_idle now c = false -> c ∈ all_clients s') /\
  redsocks_conn s' <= redsocks_conn s /\
  (Exists (fun c => is_idle now c = true) cs -> next = 0 /\ redsocks_conn s' < redsocks_conn s) /\
  (Forall (fun c => is_idle now c = false) cs -> s' = s /\ (0 < best -> 0 < next)) /\
  (best = 0 -> next = 0).
Proof.
  induction cs as [|c cs IH]; intros best s Hc Hn Hnd Hin Hpos; cbn [drop_idle_loop].
  - split_and!; try done; try (by rewrite Exists_nil); auto.
  - cbn [map] in Hnd. apply NoDup_cons in Hnd as [Hnc Hnd]. fold (is_idle now c).
    destruct (is_idle now c) eqn:Ei.
    + assert (listed c s = true) as Hl.
      { apply listed_true. apply list_elem_of_fmap. exists c. split; [done|]. apply Hin. by left. }
      rewrite drop_none, Hl by done. destruct (remove_core c s Hc Hl) as [Hc' _].
      specialize (IH 0 (remove c s) Hc' Hn Hnd). destruct (drop_idle_loop now cs 0 (remove c s)) as [s' next].
      destruct IH as (I1 & I2 & I3 & I4 & I5 & I6 & I7 & I8); [|done|].
      { intros c' Hc0. apply remove_keeps; [apply Hin; by right|]. intros E. apply Hnc. rewrite <- E.
        apply list_elem_of_fmap. eauto. }
      assert (redsocks_conn (remove c s) = redsocks_conn s - 1) as Hr by done.
      split_and!; [done|done| | |lia| | |by auto].
      * intros b Hb. apply I3. by apply remove_listeners.
      * intros c' H1 H2. apply I4; [|done]. apply remove_keeps; [done|]. intros E.
        destruct Hc as [_ _ Hids]. assert (c' = c) as ->; [|congruence].
        apply (ids_inj _ _ _ Hids); [done|apply Hin; by left|done].
      * intros _. split; [by apply I8|lia].
      * intros [? _]%Forall_cons. congruence.
    + specialize (IH (if max_idle - (now - last_event c) <? best then max_idle - (now - last_event c) else best) s Hc Hn Hnd).
      destruct (drop_idle_loop now cs _ s) as [s' next].
      destruct IH as (I1 & I2 & I3 & I4 & I5 & I6 & I7 & I8); [|done|].
      { intros c' Hc0. apply Hin. by right. }
      unfold is_idle in Ei. zify_bool. split_and!; [done..| | |].
      * rewrite Exists_cons. intros [E|E]; [unfold is_idle in E; zify_bool; lia|by apply I6].
      * intros [_ E]%Forall_cons. destruct (I7 E) as [-> Hp]. split; [done|]. intros Hb. apply Hp. case_if; lia.
      * intros ->. apply I8. case_if; [lia|done].
Qed.

Lemma back_off_spec rand next s : core s -> 0 <= next ->
  core (back_off rand next s) /\ all_clients (back_off rand next s) = all_clients s /\ backing_off (back_off rand next s).
Proof.
  intros [H1 H2 H3] Hn.
  assert (all_clients (back_off rand next s) = all_clients s) as Ha by (unfold all_clients; cbn; by rewrite map_map).
  split_and!; [by constructor; rewrite ?Ha|done|]. split; [unfold uniform; cbn; by rewrite Forall_map, Forall_forall|].
  eexists. split; [reflexivity|]. set (ms := clamp_value _ _ _).
  assert (1 <= ms <= max_backoff_ms) as Hms by (unfold ms, clamp_value; repeat case_if; lia).
  pose proof (Z.mod_pos_bound rand ms). rewrite u32_small by lia. case_if; zify_bool; lia.
Qed.

Lemma pressure_spec now rand s b : core s -> accept_backoff_ev s = None -> uniform b s ->
  let s' := conn_pressure now rand s in
  core s' /\ (forall c, c ∈ all_clients s -> (idle_timeout <> 0 -> is_idle now c = false) -> c ∈ all_clients s') /\
  ((idle_timeout <> 0 /\ Exists (fun c => is_idle now c = true) (all_clients s) /\
      uniform b s' /\ accept_backoff_ev s' = None /\ redsocks_conn s' < redsocks_conn s) \/
   ((idle_timeout = 0 \/ Forall (fun c => is_idle now c = false) (all_clients s)) /\ backing_off s')).
Proof.
  intros Hc Hn Hu. unfold conn_pressure. destruct (idle_timeout =? 0) eqn:E; cbn [negb]; zify_bool.
  - destruct (back_off_spec rand 0 s Hc ltac:(lia)) as (H1 & H2 & H3). split_and!; [done|by rewrite H2|]. right. auto.
  - assert (0 < max_idle) as Hpos by (unfold max_idle; lia).
    pose proof (drop_idle_loop_spec now (all_clients s) max_idle s Hc Hn (core_ids _ Hc) (fun _ H => H) Hpos) as H.
    unfold drop_idle_connections. destruct (drop_idle_loop _ _ _ _) as [s' next].
    destruct H as (I1 & I2 & I3 & I4 & I5 & I6 & I7 & _).
    destruct (decide (Exists (fun c => is_idle now c = true) (all_clients s))) as [Hex|Hex].
    + destruct (I6 Hex) as [-> Hlt]. cbn. split_and!; [done|by auto|]. left. auto.
    + assert (Forall (fun c => is_idle now c = false) (all_clients s)) as Hall.
      { apply Forall_forall. intros c Hx. destruct (is_idle now c) eqn:Ei; [|done]. destruct Hex. apply Exists_exists. eauto. }
      destruct (I7 Hall) as [-> Hp]. specialize (Hp Hpos). case_if; [lia|].
      destruct (back_off_spec rand next s Hc ltac:(lia)) as (H1 & H2 & H3). split_and!; [done|by rewrite H2|]. right. auto.
Qed.

(** ** Accepting *)
Lemma uniform_mode s i x : inv s -> instances s !! i = Some x -> listener x = true -> listening s.
Proof.
  intros [_ Hm] Hi Hx. assert (uniform false s -> False) as Hf.
  { intros Hu. pose proof (Forall_lookup_1 _ _ _ _ Hu Hi) as H. cbn in H. congruence. }
  destruct Hm as [[?|[? _]]|[? _]]; [done|by destruct Hf..].
Qed.

(** Adding a client to an instance that listens. *)
Lemma list_add_spec i c s x : core s -> redsocks_conn s < conn_max -> instances s !! i = Some x -> cid c ∉ map cid (all_clients s) ->
  let s' := set_conn (u32 (redsocks_conn s + 1)) (list_add i c s) in
  core s' /\ redsocks_conn s' = redsocks_conn s + 1 /\ c ∈ all_clients s' /\ (forall b, uniform b s -> uniform b s').
Proof.
  intros [H1 H2 H3] Hlt Hi Hc s'. pose proof (all_list_add i c s x Hi) as Hp.
  change (all_clients (list_add i c s)) with (all_clients s') in Hp.
  assert (redsocks_conn s' = redsocks_conn s + 1) as Hn by (cbn; apply u32_small; lia).
  split_and!; [|done|rewrite Hp; by left|].
  - constructor; rewrite ?Hn, ?Hp; cbn [length map]; [lia|lia|by apply NoDup_cons].
  - intros b Hb. unfold uniform. cbn. apply Forall_alter; [done|]. by intros y Hy ?.
Qed.

Lemma inv_map f s : (forall c, cid (f c) = cid c) -> inv s -> inv (map_clients (map f) s) /\ (live s -> live (map_clients (map f) s)).
Proof.
  intros Hf [Hc Hm].
  assert (core (map_clients (map f) s)) as Hc'.
  { destruct Hc as [H1 H2 H3]. constructor; rewrite ?all_map; [by rewrite length_map|done|].
    rewrite map_map. erewrite map_ext; [exact H3|done]. }
  assert (forall b, uniform b s -> uniform b (map_clients (map f) s)) as Hu by (intros b; unfold uniform; cbn; by rewrite Forall_map).
  assert (live s -> live (map_clients (map f) s)) as Hl.
  { intros [(? & ? & ?)|(? & ?)]; [left|right]; split_and!; auto. }
  split; [split; [done|]|done]. destruct Hm as [?|[? ?]]; [left; auto|right; split; auto].
Qed.

(** The clock advances between the touching of a new client and the dropping
    of idle ones, by less than the time of idleness. *)
Definition clock_advances (e : event) : Prop :=
  match e with
  | Connection _ (Accepted _ touched now _ _) => 0 < now - touched /\ (idle_timeout <> 0 -> now - touched < max_idle)
  | _ => True
  end.

(** When the timer finds pressure and a client that is idle. *)
Definition stops (s : state) (e : event) : Prop :=
  match e with
  | Timer socket_ok now _ =>
      conn_pressure_ongoing socket_ok s = true /\ idle_timeout <> 0 /\ Exists (fun c => is_idle now c = true) (all_clients s)
  | _ => False
  end.

Lemma accepted_ok i new touched now rand relay s :
  inv s -> enabled s (Connection i (Accepted new touched now rand relay)) -> clock_advances (Connection i (Accepted new touched now rand relay)) ->
  exists s', handle s (Connection i (Accepted new touched now rand relay)) = Ok s' /\ inv s' /\ live s'.
Proof.
  intros Hinv [(x & Hx & Hlx) Hnew] Hclk. pose proof (uniform_mode _ _ _ Hinv Hx Hlx) as (Hu & Hev & Hlt).
  destruct Hinv as [Hc _]. cbn [handle]. unfold redsocks_accept_client, redsocks_conn_list_add. cbn [redsocks_conn set_backoff_ms].
  rewrite (proj2 (Z.ltb_lt _ _)) by done. cbn [ASSERT mbind outcome_bind].
  set (c := mkClient new touched 1). set (s1 := set_conn _ _).
  destruct (list_add_spec i c (set_backoff_ms 0 s) x) as (Hc1 & Hn1 & Hin1 & Hu1); [by destruct Hc; constructor|done|done|done|].
  change (set_conn _ _) with s1 in Hc1, Hn1, Hin1, Hu1. cbn [redsocks_conn set_backoff_ms] in Hn1.
  assert (exists s2, (if conn_max <=? redsocks_conn s1 then conn_pressure now rand s1 else s1) = s2 /\
    core s2 /\ live s2 /\ c ∈ all_clients s2) as (s2 & -> & Hc2 & Hl2 & Hin2).
  { eexists. split; [reflexivity|]. case_if.
    - destruct (pressure_spec now rand s1 true Hc1 Hev (Hu1 _ Hu)) as (P1 & P2 & P3). split_and!; [done| |].
      + destruct P3 as [(_ & _ & P4 & P5 & P6)|[_ P4]]; [left|by right]. split_and!; [done|done|]. destruct Hc1. lia.
      + apply P2; [done|]. intros Hne. destruct Hclk as [Hk1 Hk2]. specialize (Hk2 Hne). unfold is_idle. cbn.
        apply orb_false_iff. rewrite !Z.leb_gt. lia.
    - split_and!; [done| |done]. left. split_and!; [by apply Hu1|done|lia]. }
  assert (inv s2) as Hi2 by (split; [done|by left]).
  assert (listed c s2 = true) as -> by (apply listed_true, list_elem_of_fmap; eauto).
  eexists. split; [reflexivity|]. destruct relay.
  - destruct (inv_map (fun c => if decide (cid c = new) then mkClient new (last_event c) 2 else c) s2) as [H1 H2]; [|done|auto].
    intros c'. by case_decide.
  - destruct (inv_drop c s2 Hi2). auto.
  - destruct (inv_lowered s2 Hi2) as (H1 & H2 & _). destruct (inv_drop c _ H1). auto.
Qed.

Lemma accept_handle_ok s e : inv s -> enabled s e -> clock_advances e ->
  exists s', handle s e = Ok s' /\ inv s' /\ (live s -> live s' \/ stops s e).
Proof.
  intros Hinv He Hclk. destruct e as [i [lack now rand|allocated|new touched now rand relay]|socket_ok now rand|id now|c].
  - destruct He as [(x & Hx & Hlx) _]. pose proof (uniform_mode _ _ _ Hinv Hx Hlx) as (Hu & Hev & Hlt).
    cbn [handle]. unfold redsocks_accept_client. rewrite (proj2 (Z.ltb_lt _ _)) by done. cbn [ASSERT mbind outcome_bind].
    eexists. split; [reflexivity|]. destruct lack; [|by split; [|left]].
    destruct (pressure_spec now rand s true (proj1 Hinv) Hev Hu) as (P1 & _ & P3).
    assert (live (conn_pressure now rand s)) as Hl.
    { destruct P3 as [(_ & _ & P4 & P5 & P6)|[_ P4]]; [left|by right]. split_and!; [done|done|lia]. }
    split; [split; [done|by left]|by left].
  - destruct He as [(x & Hx & Hlx) _]. pose proof (uniform_mode _ _ _ Hinv Hx Hlx) as (Hu & Hev & Hlt).
    cbn [handle]. unfold redsocks_accept_client. rewrite (proj2 (Z.ltb_lt _ _)) by done. cbn [ASSERT mbind outcome_bind].
    assert (inv (set_backoff_ms 0 s) /\ live (set_backoff_ms 0 s)) as [Hi Hl].
    { assert (live (set_backoff_ms 0 s)) by (left; done). split; [split; [by destruct Hinv as [[] _]|by left]|done]. }
    unfold redsocks_close. rewrite (lowered_none (set_backoff_ms 0 s)) by done. eexists. split; [reflexivity|].
    destruct allocated; rewrite lowered_none by done; auto.
  - destruct (accepted_ok i new touched now rand relay s Hinv He Hclk) as (s' & H1 & H2 & H3). eauto 6.
  - cbn in He. destruct Hinv as [Hc Hm]. cbn [handle]. set (s0 := set_backoff_ev None s).
    assert (core s0) as Hc0 by (by destruct Hc; constructor).
    assert (uniform false s0) as Hu0 by (destruct Hm as [[(_ & ? & _)|[? _]]|[_ ?]]; [congruence|done|congruence]).
    eexists. split; [reflexivity|]. unfold redsocks_accept_backoff.
    destruct (conn_pressure_ongoing socket_ok s0) eqn:Eon.
    + destruct (pressure_spec now rand s0 false Hc0 eq_refl Hu0) as (P1 & _ & P3).
      destruct P3 as [(P4 & P5 & P6 & P7 & P8)|[_ P4]].
      * split; [split; [done|by right]|]. intros _. right. by split_and!.
      * split; [split; [done|by left; right]|]. intros _. left. by right.
    + unfold conn_pressure_ongoing in Eon. destruct (conn_max <=? _) eqn:El in Eon; [done|]. zify_bool.
      assert (listening (accept_enable s0)) as Hl.
      { split_and!; [unfold uniform; cbn; by rewrite Forall_map, Forall_forall|done|done]. }
      assert (all_clients (accept_enable s0) = all_clients s0) as Ha by (unfold all_clients; cbn; by rewrite map_map).
      split; [split; [by destruct Hc0; constructor; rewrite ?Ha|by left; left]|]. intros _. left. by left.
  - cbn [handle]. eexists. split; [reflexivity|].
    destruct (inv_map (fun c => if decide (cid c = id) then mkClient id now (fds c) else c) s) as [H1 H2]; [|done|auto].
    intros c'. by case_decide.
  - cbn [handle]. eexists. split; [reflexivity|]. destruct (inv_drop c s Hinv). auto.
Qed.

Lemma accept_run_ok s es r : inv s -> Forall clock_advances es -> run s es r ->
  exists s', r = Ok s' /\ inv s' /\
    (live s -> live s' \/ exists es1 e es2 s1, es = es1 ++ e :: es2 /\ run s es1 (Ok s1) /\ stops s1 e).
Proof.
  intros Hi Hclk Hr. revert Hi Hclk. induction Hr as [s|s e es He Hf|s e es s1 r He Hok Hr IH]; intros Hi Hclk.
  - exists s. auto.
  - apply Forall_cons in Hclk as [Hk _]. destruct (accept_handle_ok s e Hi He Hk) as (? & ? & _). congruence.
  - apply Forall_cons in Hclk as [Hk Hks]. destruct (accept_handle_ok s e Hi He Hk) as (s1' & Hs1 & Hi1 & Hl1).
    rewrite Hok in Hs1. injection Hs1 as <-. destruct (IH Hi1 Hks) as (s' & -> & Hi' & Hl').
    exists s'. split_and!; [done|done|]. intros Hl. destruct (Hl1 Hl) as [Hl1'|Hst].
    + destruct (Hl' Hl1') as [?|(es1 & e1 & es2 & s2 & -> & Hr2 & Hst)]; [by left|].
      right. exists (e :: es1), e1, es2, s2. split_and!; [done|by eapply run_cons|done].
    + right. exists [], e, es, s. split_and!; [done|constructor|done].
Qed.

Lemma accept_init_inv n : inv (init n) /\ live (init n).
Proof.
  assert (all_clients (init n) = []) as Ha by (unfold all_clients; cbn; by induction n).
  assert (live (init n)) as Hl.
  { left. split_and!; [by apply Forall_replicate|done|cbn; lia]. }
  split; [split; [|by left]|done]. constructor; rewrite ?Ha; [done|cbn; lia|constructor].
Qed.

(** An instance that neither listens nor has its timer pending stays so. *)
Lemma stuck_step s e : inv s -> stuck s -> enabled s e -> exists s', handle s e = Ok s' /\ inv s' /\ stuck s'.
Proof.
  intros Hi [Hu Hev] He. destruct e as [i a|socket_ok now rand|id now|c].
  - destruct He as [(x & Hx & Hlx) _]. pose proof (Forall_lookup_1 _ _ _ _ Hu Hx) as H. cbn in H. congruence.
  - done.
  - cbn [handle]. eexists. split; [reflexivity|].
    destruct (inv_map (fun c => if decide (cid c = id) then mkClient id now (fds c) else c) s) as [H1 _]; [intros c'; by case_decide|done|].
    split; [done|]. split; [unfold uniform; cbn; by rewrite Forall_map|done].
  - cbn [handle]. eexists. split; [reflexivity|]. destruct (inv_drop c s Hi) as [H1 _]. split; [done|].
    rewrite (drop_none c s (proj1 Hi) Hev). destruct (listed c s); [|done]. split; [by apply remove_listeners|done].
Qed.

(** Once the timer has found an idle client, no connection is accepted any
    more. *)
Lemma accept_stuck_forever s es r : inv s -> stuck s -> run s es r ->
  (exists s', r = Ok s' /\ stuck s') /\ Forall (fun e => match e with Connection _ _ => False | _ => True end) es.
Proof.
  intros Hi Hs Hr. revert Hi Hs. induction Hr as [s|s e es He Hf|s e es s1 r He Hok Hr IH]; intros Hi Hs.
  - eauto.
  - destruct (stuck_step s e Hi Hs He) as (? & ? & _). congruence.
  - destruct (stuck_step s e Hi Hs He) as (s1' & Hs1 & Hi1 & Hst). rewrite Hok in Hs1. injection Hs1 as <-.
    destruct (IH Hi1 Hst) as [Hx Hes]. split; [done|]. constructor; [|done]. destruct e as [i a| | |]; [|done..].
    destruct He as [(x & Hx' & Hlx) _]. pose proof (Forall_lookup_1 _ _ _ _ (proj1 Hs) Hx') as H. cbn in H. congruence.
Qed.

(** C13: accepting in redsocks. While the clock advances between the accepting
    of a client and the dropping of idle ones, in any order of connections,
    failures of accept, timer events and ends of clients, no assertion fails and
    no freed client is used; the count of connections is the number of clients
    and never exceeds the limit, and redsocks listens only while it is below it;
    it always listens or has the backoff timer pending, with a delay between 1
    and the configured maximum, except after a timer event that found the
    pressure ongoing and dropped an idle client, which left it doing neither. *)
Theorem accept_safe n es r : Forall clock_advances es -> run (init n) es r ->
  exists s, r = Ok s /\
    redsocks_conn s = Zlen (all_clients s) /\ redsocks_conn s <= conn_max /\
    (forall i x, instances s !! i = Some x -> listener x = true -> redsocks_conn s < conn_max) /\
    (listening s \/ backing_off s \/
     exists es1 e es2 s1, es = es1 ++ e :: es2 /\ run (init n) es1 (Ok s1) /\ stops s1 e).
Proof.
  intros Hclk Hr. destruct (accept_init_inv n) as [Hi Hl]. destruct (accept_run_ok _ _ _ Hi Hclk Hr) as (s & -> & His & Hls).
  exists s. pose proof His as [[H1 H2 _] _]. split_and!; [done|done|done| |].
  - intros i x Hx Hlx. by destruct (uniform_mode s i x His Hx Hlx) as (_ & _ & ?).
  - destruct (Hls Hl) as [[?|?]|?]; auto.
Qed.

End accept.

(** A limit of two clients and idleness of ten seconds: the first client ends
    the listening together with the second, then leaves. *)
Definition demo : list event :=
  [Connection 0 (Accepted 1 0 5 7 RelayConnected); Connection 0 (Accepted 2 1000000 1000005 9 RelayConnected);
   Leave (mkClient 1 0 2); Connection 0 (AcceptError false 2000000 0)].
Definition exec (mx idle mb : Z) (r : outcome state) (es : list event) : outcome state :=
  fold_left (fun r e => r ≫= fun s => handle mx idle mb s e) es r.

#[global] Instance client_eq_dec : EqDecision client.
Proof. solve_decision. Defined.

(** Evaluate the steps of a concrete run. *)
Ltac is_enabled :=
  cbn [enabled];
  first [ split; [eexists; split; reflexivity|first [exact I|by apply (bool_decide_unpack _)]]
        | by apply (bool_decide_unpack _) | done ].
Ltac run_demo :=
  repeat (eapply run_cons; [is_enabled|vm_compute; reflexivity|]); apply run_nil.

Lemma accept_safe_witness : exists s, exec 2 10 60000 (Ok (init 1)) demo = Ok s /\ redsocks_conn s = 1 /\
  redsocks_conn s = Zlen (all_clients s) /\ redsocks_conn s <= 2.
Proof.
  destruct (accept_safe 2 10 60000 ltac:(lia) ltac:(lia) ltac:(lia) 1 demo (exec 2 10 60000 (Ok (init 1)) demo)) as (s & Hs & H1 & H2 & _).
  - repeat constructor; vm_compute; done.
  - unfold demo at 1. run_demo.
  - exists s. split_and!; [exact Hs| |exact H1|exact H2]. vm_compute in Hs. injection Hs as <-. reflexivity.
Defined.

(** One client fills the limit; when the timer comes it is idle and dropped,
    and nothing is accepted any more. *)
Lemma accept_backoff_stops : exists s,
  run 1 10 60000 (init 1) [Connection 0 (Accepted 1 0 5 7 RelayConnected); Timer true 10000000 7] (Ok s) /\
  all_clients s = [] /\ stuck s.
Proof.
  eexists. split; [run_demo|]. split; [done|]. split; [|done]. by repeat constructor.
Qed.

(** A new client whose clock did not advance counts as idle: it is dropped
    while it is added, and used afterwards. *)
Lemma accept_uses_freed : run 1 10 60000 (init 1) [Connection 0 (Accepted 1 0 0 7 RelayConnected)] Fault.
Proof. eapply run_fault; [is_enabled|by vm_compute]. Qed.

End RedAccept.
