(* ===== verification/IpText.v ===== *)
(** * Numbers and IP addresses as text (misc/memref.h, misc/parse_number.h,
    misc/ipaddr.h, misc/ipaddr6.h)

    The parsers and printers that the options of tun2socks go through. A
    [MemRef] is the list of its characters. The parser of IPv6 addresses is
    the loop over positions of the source, writing into the sixteen bytes of
    the caller; it is proved to accept exactly the texts of an inductive
    grammar, without an access outside of the text or of the bytes, and the
    printed form of every address is such a text. *)
From Stdlib Require Import ZArith Lia.
From stdpp Require Import base tactics numbers option gmap list.
From S2P Require Import Prelude LinkedList Bavl ByteOrder Addr.

Module MemRef.

(** [o.ptr[pos]] and [MemRef_At]. *)
Definition MemRef_At (o : list Z) (pos : nat) : outcome Z := of_option (o !! pos).

Definition MemRef_SubFrom (o : list Z) (offset : nat) : outcome (list Z) :=
  ASSERT (offset <=? length o)%nat ≫= fun _ => Ok (drop offset o).

Definition MemRef_SubTo (o : list Z) (len : nat) : outcome (list Z) :=
  ASSERT (len <=? length o)%nat ≫= fun _ => Ok (take len o).

Definition MemRef_Sub (o : list Z) (offset len : nat) : outcome (list Z) :=
  ASSERT (offset <=? length o)%nat ≫= fun _ =>
  ASSERT (len <=? length o - offset)%nat ≫= fun _ => Ok (take len (drop offset o)).

Definition MemRef_Equal (o other : list Z) : bool :=
  (length o =? length other)%nat && (BAddr.memcmp (length o) o other =? 0).

Fixpoint MemRef_FindChar (o : list Z) (ch : Z) : option nat :=
  match o with
  | [] => None
  | c :: o => if c =? ch then Some O else S <$> MemRef_FindChar o ch
  end.

Lemma FindChar_app ch l r : Forall (fun x => x <> ch) l -> MemRef_FindChar (l ++ ch :: r) ch = Some (length l).
Proof.
  induction 1 as [|x l Hx _ IH]; cbn; [by rewrite Z.eqb_refl|].
  by rewrite (proj2 (Z.eqb_neq _ _) Hx), IH.
Qed.

End MemRef.

Module ParseNumber.
Import BAddr MemRef.

Definition decode_decimal_digit (c : Z) : Z := if (48 <=? c) && (c <=? 57) then c - 48 else -1.

Definition decode_hex_digit (c : Z) : Z :=
  if (48 <=? c) && (c <=? 57) then c - 48
  else if (65 <=? c) && (c <=? 70) then c - 55
  else if (97 <=? c) && (c <=? 102) then c - 87
  else -1.

Definition UINTMAX_MAX : Z := UINT64_MAX.

(** ["18446744073709551615"] *)
Definition parse_number__uintmax_max_str : list Z :=
  [49; 56; 52; 52; 54; 55; 52; 52; 48; 55; 51; 55; 48; 57; 53; 53; 49; 54; 49; 53].

(** The loop, from the number [n] read so far. *)
Fixpoint parse__no_overflow (str : list Z) (n : Z) : option Z :=
  match str with
  | [] => Some n
  | c :: str => if (c <? 48) || (57 <? c) then None else parse__no_overflow str (u64 (10 * n + (c - 48)))
  end.

Fixpoint skip_zeros (str : list Z) : list Z :=
  match str with [] => [] | c :: s => if c =? 48 then skip_zeros s else str end.

Definition parse_unsigned_integer (str : list Z) : option Z :=
  if (length str =? 0)%nat then None else
  let str := skip_zeros str in
  if (20 <? length str)%nat
     || ((length str =? 20)%nat && (0 <? memcmp 20 str parse_number__uintmax_max_str)) then None
  else parse__no_overflow str 0.

Fixpoint parse_hex_loop (str : list Z) (n : Z) : option Z :=
  match str with
  | [] => Some n
  | c :: str =>
      let digit := decode_hex_digit c in
      if digit <? 0 then None else
      if UINTMAX_MAX / 16 <? n then None else
      let n := 16 * n in
      if UINTMAX_MAX - n <? digit then None else parse_hex_loop str (n + digit)
  end.

Definition parse_unsigned_hex_integer (str : list Z) : option Z :=
  if (length str =? 0)%nat then None else parse_hex_loop str 0.

(** Sign and magnitude. *)
Definition parse_signmag_integer (str : list Z) : option (Z * Z) :=
  let '(sign, str) :=
    match str with
    | c :: s => if (c =? 43) || (c =? 45) then (1 - 2 * (if c =? 45 then 1 else 0), s) else (1, str)
    | [] => (1, str)
    end in
  match parse_unsigned_integer str with None => None | Some mag => Some (sign, mag) end.

(** The loop runs at most twenty times on 64 bits. *)
Fixpoint repr_size_loop (fuel : nat) (x size : Z) : outcome Z :=
  match fuel with
  | O => Fault
  | S fuel => let x := x / 10 in if 0 <? x then repr_size_loop fuel x (size + 1) else Ok (size + 1)
  end.

Definition compute_decimal_repr_size (x : Z) : outcome Z := repr_size_loop 20 x 0.

(** [out] is the buffer, [p] the position behind the next character. *)
Fixpoint generate_loop (fuel : nat) (x : Z) (out : list Z) (p : Z) : outcome (list Z) :=
  match fuel with
  | O => Fault
  | S fuel =>
      mem_write out (p - 1) [48 + x mod 10] ≫= fun out =>
      let x := x / 10 in if 0 <? x then generate_loop fuel x out (p - 1) else Ok out
  end.

Definition generate_decimal_repr (x : Z) (out : list Z) (repr_size : Z) : outcome (list Z) :=
  compute_decimal_repr_size x ≫= fun n =>
  ASSERT (repr_size =? n) ≫= fun _ =>
  generate_loop 20 x out repr_size.

Definition generate_decimal_repr_string (x : Z) (out : list Z) : outcome (list Z * Z) :=
  compute_decimal_repr_size x ≫= fun repr_size =>
  generate_decimal_repr x out repr_size ≫= fun out =>
  mem_write out repr_size [0] ≫= fun out => Ok (out, repr_size).

(** ** Values of numerals *)
Definition dec_val (acc : Z) (s : list Z) : Z := fold_left (fun n c => 10 * n + (c - 48)) s acc.
Definition isdec (s : list Z) : Prop := Forall (fun c => 48 <= c <= 57) s.
#[global] Instance isdec_dec s : Decision (isdec s).
Proof. unfold isdec. apply _. Defined.

(** The reference: a numeral is a sequence of digits that is not empty, and
    denotes its decimal value. *)
Definition unsigned_integer (max : Z) (s : list Z) : option Z :=
  if decide (s <> [] /\ isdec s /\ dec_val 0 s <= max) then Some (dec_val 0 s) else None.

Lemma dec_val_acc s : forall acc, dec_val acc s = acc * 10 ^ Zlen s + dec_val 0 s.
Proof.
  unfold dec_val. induction s as [|c s IH]; intros acc; cbn [fold_left length].
  - cbn. lia.
  - rewrite IH, (IH (10 * 0 + _)), Nat2Z.inj_succ, Z.pow_succ_r by lia. lia.
Qed.

Lemma dec_val_range s : isdec s -> 0 <= dec_val 0 s < 10 ^ Zlen s.
Proof.
  unfold isdec. induction 1 as [|c s Hc _ IH]; [cbn; lia|]. unfold dec_val in *. cbn [fold_left].
  fold (dec_val (10 * 0 + (c - 48)) s). rewrite dec_val_acc. unfold dec_val.
  cbn [length]. rewrite Nat2Z.inj_succ, Z.pow_succ_r by lia. nia.
Qed.

Lemma dec_val_cons c s : dec_val 0 (c :: s) = (c - 48) * 10 ^ Zlen s + dec_val 0 s.
Proof. change (dec_val 0 (c :: s)) with (dec_val (10 * 0 + (c - 48)) s). rewrite dec_val_acc. f_equal; lia. Qed.

Lemma skip_zeros_spec s :
  (isdec (skip_zeros s) <-> isdec s) /\ dec_val 0 (skip_zeros s) = dec_val 0 s /\
  match skip_zeros s with [] => True | c :: _ => c <> 48 end.
Proof.
  induction s as [|c s IH]; cbn [skip_zeros]; [done|]. case_if; [|done]. subst c.
  destruct IH as (IH & Hv & Hh). split_and!; [|rewrite dec_val_cons; lia|done].
  rewrite IH. unfold isdec. rewrite Forall_cons. split; [|tauto]. intros ?. split; [lia|done].
Qed.

Lemma no_overflow_none s : ~ isdec s -> forall n, parse__no_overflow s n = None.
Proof.
  intros Hs. induction s as [|c s IH]; intros n; [by destruct Hs; constructor|].
  cbn. destruct (_ || _) eqn:E; [done|]. zify_bool. apply IH. intros Hs'. apply Hs. constructor; [lia|done].
Qed.

(** Without overflow the loop computes the value. *)
Lemma no_overflow_spec s : isdec s -> forall n, 0 <= n -> dec_val n s <= UINT64_MAX ->
  parse__no_overflow s n = Some (dec_val n s).
Proof.
  unfold isdec. induction 1 as [|c s Hc Hs IH]; intros n Hn Hmax; cbn [parse__no_overflow]; [done|].
  rewrite (proj2 (orb_false_iff _ _)) by (split; apply Z.ltb_ge; lia).
  change (dec_val n (c :: s)) with (dec_val (10 * n + (c - 48)) s) in *.
  pose proof (dec_val_range s Hs). rewrite dec_val_acc in Hmax.
  assert (0 < 10 ^ Zlen s) by (apply Z.pow_pos_nonneg; lia).
  rewrite u64_small by (unfold UINT64_MAX in Hmax; nia).
  apply IH; [lia|]. rewrite dec_val_acc. lia.
Qed.

(** Numerals of equal length are ordered as texts. *)
Lemma memcmp_dec_val a : forall b, isdec a -> isdec b -> length a = length b ->
  0 < memcmp (length a) a b <-> dec_val 0 b < dec_val 0 a.
Proof.
  induction a as [|x a IH]; intros [|y b] Ha Hb Hl; try done.
  apply Forall_cons in Ha as [Hx Ha]; apply Forall_cons in Hb as [Hy Hb]. injection Hl as Hl.
  pose proof (dec_val_range a Ha). pose proof (dec_val_range b Hb).
  specialize (IH b Ha Hb Hl). rewrite !dec_val_cons. cbn [length memcmp hd tl]. rewrite Hl in *. case_if.
  - subst. rewrite IH. lia.
  - nia.
Qed.

Lemma max_str_spec : isdec parse_number__uintmax_max_str /\ dec_val 0 parse_number__uintmax_max_str = UINT64_MAX.
Proof. split; [repeat constructor; lia|reflexivity]. Qed.

(** The check for overflow is exact on numerals. *)
Lemma overflow_check s : isdec s -> match s with [] => True | c :: _ => c <> 48 end ->
  (20 <? length s)%nat || ((length s =? 20)%nat && (0 <? memcmp 20 s parse_number__uintmax_max_str))
  = bool_decide (UINT64_MAX < dec_val 0 s).
Proof.
  intros Hs Hh. pose proof (dec_val_range s Hs) as Hr. destruct max_str_spec as [Hm Hv].
  destruct (Nat.ltb_spec 20 (length s)) as [Hl|Hl]; cbn [orb]; symmetry.
  - apply bool_decide_eq_true. destruct s as [|c s]; [cbn in Hl; lia|].
    apply Forall_cons in Hs as [Hc Hs]. rewrite dec_val_cons. pose proof (dec_val_range s Hs).
    cbn [length] in Hl. assert (10 ^ 20 <= 10 ^ Zlen s) by (apply Z.pow_le_mono_r; lia).
    unfold UINT64_MAX in *. nia.
  - destruct (Nat.eqb_spec (length s) 20) as [E|E]; cbn [andb].
    + rewrite <- Hv. pose proof (memcmp_dec_val s _ Hs Hm E) as H. rewrite E in H.
      destruct (Z.ltb_spec 0 (memcmp 20 s parse_number__uintmax_max_str));
        [apply bool_decide_eq_true|apply bool_decide_eq_false]; lia.
    + apply bool_decide_eq_false. assert (10 ^ Zlen s <= 10 ^ 19) by (apply Z.pow_le_mono_r; lia).
      unfold UINT64_MAX in *. lia.
Qed.

Lemma parse_unsigned_spec s : parse_unsigned_integer s = unsigned_integer UINTMAX_MAX s.
Proof.
  unfold parse_unsigned_integer, unsigned_integer, UINTMAX_MAX.
  destruct (Nat.eqb_spec (length s) 0) as [E|E].
  { apply nil_length_inv in E as ->. by rewrite decide_False by naive_solver. }
  destruct (skip_zeros_spec s) as (Hd & Hv & Hh).
  destruct (decide (isdec s)) as [Hs|Hs].
  - apply Hd in Hs as Hz. rewrite overflow_check by done. rewrite Hv. case_bool_decide as Hm.
    + rewrite decide_False; [done|]. lia.
    + rewrite no_overflow_spec, decide_True by (rewrite ?Hv; done || lia || (split_and!; [by intros ->|done|lia])).
      by rewrite Hv.
  - rewrite no_overflow_none, decide_False by (rewrite ?Hd; naive_solver). by destruct (_ || _).
Qed.

(** ** Generated numerals *)
Lemma digits_step fuel x : 10 <= x -> digits (S fuel) 10 x [] = digits fuel 10 (x / 10) [] ++ [48 + x mod 10].
Proof.
  intros Hx. cbn [digits]. rewrite (proj2 (Z.ltb_ge _ _)) by lia. rewrite digits_app.
  rewrite (proj2 (Z.ltb_lt (x mod 10) 10)) by (apply Z.mod_pos_bound; lia). done.
Qed.

Lemma digits_small fuel x : x < 10 -> digits (S fuel) 10 x [] = [48 + x].
Proof. intros Hx. cbn [digits]. by rewrite !(proj2 (Z.ltb_lt _ _)). Qed.

Lemma div10_range fuel x : 0 <= x < 10 ^ Z.of_nat (S fuel) -> 0 <= x / 10 < 10 ^ Z.of_nat fuel.
Proof.
  rewrite Nat2Z.inj_succ, Z.pow_succ_r by lia. intros.
  split; [apply Z.div_pos; lia|apply Z.div_lt_upper_bound; lia].
Qed.

Lemma digits_isdec fuel x : 0 <= x -> isdec (digits fuel 10 x []).
Proof. intros. apply (digits_chars _ _ _ (fun c => 48 <= c <= 57)); [done|auto|constructor]. Qed.

Lemma dec_val_digits fuel : forall x, 0 <= x < 10 ^ Z.of_nat fuel -> dec_val 0 (digits fuel 10 x []) = x.
Proof.
  induction fuel as [|fuel IH]; intros x Hx; [cbn in Hx |- *; lia|].
  destruct (Z.lt_ge_cases x 10); [rewrite digits_small by done; unfold dec_val; cbn; lia|].
  rewrite digits_step by done. unfold dec_val. rewrite fold_left_app. fold (dec_val 0 (digits fuel 10 (x / 10) [])).
  rewrite IH by by apply div10_range. cbn. pose proof (Z.div_mod x 10). lia.
Qed.

Lemma repr_size_loop_spec fuel : forall x size, 0 <= x < 10 ^ Z.of_nat (S fuel) ->
  repr_size_loop (S fuel) x size = Ok (size + Zlen (digits (S fuel) 10 x [])).
Proof.
  induction fuel as [|fuel IH]; intros x size Hx.
  { rewrite digits_small by (cbn in Hx; lia). cbn -[Z.div]. rewrite Z.div_small by (cbn in Hx; lia). done. }
  set (f := S fuel) in *. cbn [repr_size_loop]. apply div10_range in Hx as Hx'.
  destruct (Z.lt_ge_cases x 10).
  - rewrite Z.div_small, digits_small by lia. done.
  - assert (0 < x / 10) by (apply Z.div_str_pos; lia). rewrite (proj2 (Z.ltb_lt _ _)) by done.
    subst f. rewrite IH, (digits_step (S fuel) x), length_app by done. cbn [length]. f_equal. lia.
Qed.

Lemma generate_loop_spec fuel : forall x out p, 0 <= x < 10 ^ Z.of_nat (S fuel) ->
  Zlen (digits (S fuel) 10 x []) <= p <= Zlen out ->
  generate_loop (S fuel) x out p = Ok (splice out (p - Zlen (digits (S fuel) 10 x [])) (digits (S fuel) 10 x [])).
Proof.
  induction fuel as [|fuel IH]; intros x out p Hx Hp.
  { rewrite digits_small in * by (cbn in Hx; lia). cbn -[Z.div Z.modulo mem_write splice] in *.
    rewrite Z.div_small, Z.mod_small by lia.
    rewrite (proj2 (mem_write_Ok out (p - 1) [48 + x] _)) by (split; [cbn; lia|done]). done. }
  set (f := S fuel) in *. cbn [generate_loop]. apply div10_range in Hx as Hx'.
  destruct (Z.lt_ge_cases x 10).
  - rewrite Z.mod_small, Z.div_small, digits_small in * by lia. cbn [length] in *.
    rewrite (proj2 (mem_write_Ok out (p - 1) [48 + x] _)) by (split; [cbn; lia|done]). done.
  - assert (0 < x / 10) by (apply Z.div_str_pos; lia).
    rewrite digits_step, length_app in * by done. cbn [length] in *.
    rewrite (proj2 (mem_write_Ok out (p - 1) [48 + x mod 10] _)) by (split; [cbn; lia|done]).
    cbn [mbind outcome_bind]. rewrite (proj2 (Z.ltb_lt _ _)) by done. subst f.
    set (d := digits (S fuel) 10 (x / 10) []) in *.
    assert (Hl : length (splice out (p - 1) [48 + x mod 10]) = length out) by (apply length_splice; cbn; lia).
    rewrite IH by (done || (fold d; rewrite Hl; lia)). fold d. f_equal.
    replace (splice out (p - 1)) with (splice out ((p - 1 - Zlen d) + Zlen d)) by (f_equal; lia).
    rewrite splice_app_front by (cbn [length]; lia). f_equal. lia.
Qed.

Lemma generate_spec x out : 0 <= x < 2 ^ 64 -> 21 <= Zlen out ->
  generate_decimal_repr_string x out
  = Ok (splice out 0 (digits 20 10 x [] ++ [0]), Zlen (digits 20 10 x [])).
Proof.
  intros Hx Ho. pose proof (length_digits 20 10 x []) as Hl. change (20 + length (A:=Z) [])%nat with 20%nat in Hl.
  assert (Hx' : 0 <= x < 10 ^ Z.of_nat 20) by (change (10 ^ Z.of_nat 20) with 100000000000000000000; lia).
  unfold generate_decimal_repr_string, generate_decimal_repr, compute_decimal_repr_size.
  rewrite repr_size_loop_spec by done. cbn [mbind outcome_bind]. rewrite !Z.add_0_l, Z.eqb_refl. cbn [ASSERT].
  cbn [mbind outcome_bind]. rewrite generate_loop_spec, Z.sub_diag by (done || lia). cbn [mbind outcome_bind].
  set (d := digits 20 10 x []) in *.
  assert (length (splice out 0 d) = length out) by (apply length_splice; lia).
  rewrite (proj2 (mem_write_Ok (splice out 0 d) (Zlen d) [0] _)) by (split; [cbn [length]; lia|done]).
  cbn [mbind outcome_bind]. do 2 f_equal. apply (splice_app out 0 d [0]); cbn [length]; lia.
Qed.

(** [parse_unsigned_integer] accepts exactly the sequences of
    digits, not empty, whose decimal value fits in 64 bits (leading zeros, the
    test for overflow on the text and the loop that would wrap around
    included), and gives that value; and the numeral that
    [generate_decimal_repr_string] writes for any number stays in a buffer of
    21 bytes, is followed by a zero, leaves the rest of the buffer alone and is
    read back as the number. *)
Theorem decimal_roundtrip x out : 0 <= x < 2 ^ 64 -> 21 <= Zlen out ->
  (forall str, parse_unsigned_integer str = unsigned_integer UINTMAX_MAX str) /\
  exists d, generate_decimal_repr_string x out = Ok (splice out 0 (d ++ [0]), Zlen d) /\
    1 <= Zlen d <= 20 /\ parse_unsigned_integer d = Some x.
Proof.
  intros Hx Ho. split; [apply parse_unsigned_spec|]. exists (digits 20 10 x []).
  pose proof (length_digits 20 10 x []) as Hl. change (20 + length (A:=Z) [])%nat with 20%nat in Hl.
  destruct (digits_cons 20 x []) as (c & l & E & _); [lia|lia|].
  split_and!; [by apply generate_spec|rewrite E; cbn; lia|lia|].
  assert (Hv : dec_val 0 (digits 20 10 x []) = x) by (apply dec_val_digits; change (10 ^ Z.of_nat 20) with 100000000000000000000; lia).
  rewrite parse_unsigned_spec. unfold unsigned_integer. rewrite Hv, decide_True; [done|].
  split_and!; [by rewrite E|apply digits_isdec; lia|unfold UINTMAX_MAX, UINT64_MAX; lia].
Qed.

Lemma decimal_roundtrip_witness :
  parse_unsigned_integer [48; 49; 50] = Some 12 /\
  exists d, generate_decimal_repr_string 1500 (replicate 24 7) = Ok (splice (replicate 24 7) 0 (d ++ [0]), Zlen d) /\
    parse_unsigned_integer d = Some 1500.
Proof.
  destruct (decimal_roundtrip 1500 (replicate 24 7)) as [H (d & Hg & _ & Hp)]; [lia|cbn; lia|].
  split; [rewrite H; reflexivity|exists d; done].
Defined.

End ParseNumber.

Module IpAddr.
Import ByteOrder BAddr MemRef ParseNumber.

Record ipv4_ifaddr := mkIfaddr { addr : Z; prefix : Z }.

(** The iterations [i = 3 - k, ..., 3]; [out] is the memory of [*out_addr]. *)
Fixpoint parse_ipv4_loop (k : nat) (name out : list Z) : outcome (option (list Z)) :=
  let i := (3 - k)%nat in
  let j := scan CH_DOT name in
  if ((j =? length name) && (i <? 3) || (j <? length name) && (i =? 3))%nat then Ok None else
  if ((j <? 1) || (3 <? j))%nat then Ok None else
  MemRef_SubTo name j ≫= fun sub =>
  match parse_unsigned_integer sub with
  | None => Ok None
  | Some d =>
      if 255 <? d then Ok None else
      mem_write out (Z.of_nat i) [d] ≫= fun out =>
      match k with O => Ok (Some out) | S k => parse_ipv4_loop k (drop (j + 1) name) out end
  end.

Definition ipaddr_parse_ipv4_addr (name : list Z) (out_addr : Z) : outcome (option Z) :=
  parse_ipv4_loop 3 name (le_bytes 4 out_addr) ≫= fun r : option (list Z) => Ok (le_val <$> r).

Definition ipaddr_parse_ipv4_prefix (str : list Z) : option Z :=
  match parse_unsigned_integer str with None => None | Some d => if 32 <? d then None else Some d end.

Definition ipaddr_parse_ipv4_ifaddr (str : list Z) (out : ipv4_ifaddr) : outcome (option ipv4_ifaddr) :=
  match MemRef_FindChar str 47 with
  | None => Ok None
  | Some slash_pos =>
      MemRef_SubTo str slash_pos ≫= fun a =>
      ipaddr_parse_ipv4_addr a (addr out) ≫= fun ra =>
      match ra with
      | None => Ok None
      | Some ad =>
          MemRef_SubFrom str (slash_pos + 1) ≫= fun p =>
          Ok (mkIfaddr ad <$> ipaddr_parse_ipv4_prefix p)
      end
  end.

(** [t |= 1 << (32 - i - 1)] for [i] from 0 to [n - 1]. *)
Fixpoint high_bits (n : nat) : Z :=
  match n with O => 0 | S n => Z.lor (high_bits n) (Z.shiftl 1 (32 - Z.of_nat n - 1)) end.

Definition ipaddr_ipv4_mask_from_prefix (prefix : Z) : outcome Z :=
  ASSERT (0 <=? prefix) ≫= fun _ => ASSERT (prefix <=? 32) ≫= fun _ =>
  Ok (hton32 (high_bits (Z.to_nat prefix))).

(** The loop from [i = 32 - k], [t] being the mask of [i] bits. *)
Fixpoint prefix_loop (k : nat) (mask t : Z) : option Z :=
  let i := 32 - Z.of_nat k in
  if ntoh32 mask =? t then Some i else
  match k with O => None | S k => prefix_loop k mask (Z.lor t (Z.shiftl 1 (32 - i - 1))) end.

Definition ipaddr_ipv4_prefix_from_mask (mask : Z) : option Z := prefix_loop 32 mask 0.

Definition ipaddr_ipv4_ifaddr_from_addr_mask (addr mask : Z) : option ipv4_ifaddr :=
  mkIfaddr addr <$> ipaddr_ipv4_prefix_from_mask mask.

Definition ipaddr_ipv4_addrs_in_network (addr1 addr2 netprefix : Z) : outcome bool :=
  ipaddr_ipv4_mask_from_prefix netprefix ≫= fun mask =>
  Ok (Z.land addr1 mask =? Z.land addr2 mask).

Definition IPADDR_PRINT_MAX : Z := 19.

(** [sprintf] at the start of the buffer, the terminating zero included. *)
Definition ipaddr_print_addr (addr : Z) (out : list Z) : outcome (list Z) :=
  mem_write out 0 (dotted (le_bytes 4 addr) ++ [0]).

Definition ipaddr_print_ifaddr (ifaddr : ipv4_ifaddr) (out : list Z) : outcome (list Z) :=
  ASSERT (0 <=? prefix ifaddr) ≫= fun _ => ASSERT (prefix ifaddr <=? 32) ≫= fun _ =>
  mem_write out 0 (dotted (le_bytes 4 (addr ifaddr)) ++ [47] ++ fmt_dec (prefix ifaddr) ++ [0]).

(** ** Addresses as text *)

(** An octet of one to three digits; several zeros in front are accepted. *)
Definition octet (s : list Z) (v : Z) : Prop :=
  (1 <= length s <= 3)%nat /\ isdec s /\ dec_val 0 s = v /\ v <= 255.

(** [k + 1] numbers of the form [P] with dots in between. *)
Inductive fields (P : list Z -> Z -> Prop) : nat -> list Z -> list Z -> Prop :=
| fields_last s v : P s v -> fields P 0 s [v]
| fields_more k s v r b : P s v -> fields P k r b -> fields P (S k) (s ++ CH_DOT :: r) (v :: b).

Lemma find_char_spec c s : exists l r, s = l ++ r /\ scan c s = length l /\ Forall (fun x => x <> c) l /\
  (r = [] \/ exists r', r = c :: r').
Proof.
  induction s as [|x s (l & r & -> & Hs & Hl & Hr)]; [exists [], []; eauto|]. cbn. case_if.
  - subst. exists [], (c :: l ++ r). split_and!; eauto.
  - exists (x :: l), r. cbn. split_and!; auto.
Qed.

Lemma octet_no_dot s v : octet s v -> Forall (fun x => x <> CH_DOT) s.
Proof. intros (_ & Hs & _). eapply Forall_impl; [exact Hs|]. cbn. unfold CH_DOT. lia. Qed.

Lemma scan_all c l : Forall (fun x => x <> c) l -> scan c l = length l.
Proof. induction 1 as [|x l Hx _ IH]; cbn; [done|]. by rewrite (proj2 (Z.eqb_neq _ _) Hx), IH. Qed.

Lemma octet_parse s v : octet s v -> parse_unsigned_integer s = Some v /\ 0 <= v.
Proof.
  intros (Hl & Hs & Hv & Hm). rewrite parse_unsigned_spec. unfold unsigned_integer.
  pose proof (dec_val_range s Hs). rewrite decide_True; [naive_solver|].
  split_and!; [by intros ->; cbn in Hl; lia|done|unfold UINTMAX_MAX, UINT64_MAX; lia].
Qed.

Lemma parse_octet s v : (1 <= length s <= 3)%nat -> parse_unsigned_integer s = Some v -> v <= 255 -> octet s v.
Proof.
  intros Hl. rewrite parse_unsigned_spec. unfold unsigned_integer. case_decide as H; [|done]. intros [= <-] ?.
  unfold octet. naive_solver.
Qed.

(** A separator that is not in front is the first one. *)
Lemma split_unique (c : Z) l : forall l' r r', Forall (fun x => x <> c) l -> Forall (fun x => x <> c) l' ->
  l ++ c :: r = l' ++ c :: r' -> l = l' /\ r = r'.
Proof.
  induction l as [|x l IH]; intros [|y l'] r r' Hl Hl' E; cbn in E; simplify_eq; auto;
    rewrite ?Forall_cons in *; [naive_solver|naive_solver|].
  destruct (IH l' r r'); naive_solver.
Qed.

Lemma not_in_all (c : Z) l r : Forall (fun x => x <> c) (l ++ c :: r) -> False.
Proof. rewrite Forall_app, Forall_cons. naive_solver. Qed.

Section Fields.
Context (P : list Z -> Z -> Prop) (HP : forall s v, P s v -> Forall (fun x => x <> CH_DOT) s).

Lemma fields_length k s b : fields P k s b -> length b = S k.
Proof. induction 1; cbn; auto. Qed.

Lemma fields_all k l b : Forall (fun x => x <> CH_DOT) l -> fields P k l b <-> k = O /\ exists v, P l v /\ b = [v].
Proof.
  intros Hl. split; [|intros (-> & v & ? & ->); by constructor].
  inversion 1; subst; [eauto|]. by apply not_in_all in Hl.
Qed.

Lemma fields_dot k l r b : Forall (fun x => x <> CH_DOT) l -> fields P k (l ++ CH_DOT :: r) b <->
  exists k' v b', k = S k' /\ P l v /\ fields P k' r b' /\ b = v :: b'.
Proof.
  intros Hl. split; [|intros (k' & v & b' & -> & ? & ? & ->); by constructor].
  inversion 1 as [? ? Hv|k' s v r' b' Hv Hr]; subst; [by apply HP, not_in_all in Hv|].
  destruct (split_unique CH_DOT s l r' r) as [-> ->]; eauto. naive_solver.
Qed.

(** Reading fields one by one into four bytes: a step reads the part in front
    of the next dot, in a context [X] of the loop. *)
Context {X : Type} (good : X -> list Z -> Prop) (read : list Z -> option Z)
  (run : X -> nat -> list Z -> list Z -> outcome (option (list Z))).
Hypothesis read_spec : forall l v, read l = Some v <-> P l v.
Hypothesis run_step : forall x k l r out, good x (l ++ r) -> (k <= 3)%nat -> Zlen out = 4 ->
  Forall (fun x => x <> CH_DOT) l -> r = [] \/ (exists r', r = CH_DOT :: r') ->
  exists x', (forall r', r = CH_DOT :: r' -> good x' r') /\
    run x k (l ++ r) out =
      match k, r with
      | O, [] => Ok ((fun v => splice out 3 [v]) <$> read l)
      | S k', _ :: r' => match read l with
                         | None => Ok None
                         | Some v => run x' k' r' (splice out (3 - Z.of_nat k) [v])
                         end
      | _, _ => Ok None
      end.

Lemma fields_run k : forall x name out, good x name -> (k <= 3)%nat -> Zlen out = 4 ->
  exists r, run x k name out = Ok r /\
    forall out', r = Some out' <-> exists b, fields P k name b /\ out' = splice out (3 - Z.of_nat k) b.
Proof.
  induction k as [|k IH]; intros x name out Hx Hk Ho;
    destruct (find_char_spec CH_DOT name) as (l & r & -> & _ & Hl & Hr);
    destruct (run_step x _ l r out Hx Hk Ho Hl Hr) as (x' & Hx' & ->).
  - destruct Hr as [->|[r' ->]]; (eexists; split; [done|]); intros out'.
    + rewrite app_nil_r. setoid_rewrite fields_all; [|done]. rewrite fmap_Some. setoid_rewrite read_spec.
      naive_solver.
    + setoid_rewrite fields_dot; [|done]. naive_solver.
  - destruct Hr as [->|[r' ->]].
    { rewrite app_nil_r. eexists; split; [done|]. setoid_rewrite fields_all; [|done]. naive_solver. }
    setoid_rewrite fields_dot; [|done]. destruct (read l) as [v|] eqn:Hv.
    + apply read_spec in Hv as Hv'.
      assert (Hlen : Zlen (splice out (3 - Z.of_nat (S k)) [v]) = 4) by (rewrite length_splice; cbn [length]; lia).
      destruct (IH x' r' _ (Hx' r' eq_refl) ltac:(lia) Hlen) as (res & -> & Hres). eexists; split; [done|].
      intros out'. rewrite Hres.
      assert (Hsp : forall b, fields P k r' b ->
        splice (splice out (3 - Z.of_nat (S k)) [v]) (3 - Z.of_nat k) b = splice out (3 - Z.of_nat (S k)) (v :: b)).
      { intros b Hb. apply fields_length in Hb.
        replace (3 - Z.of_nat k) with (3 - Z.of_nat (S k) + Zlen [v]) by (cbn [length]; lia).
        apply (splice_app out _ [v] b); cbn [length]; lia. }
      split.
      * intros (b & Hb & ->). exists (v :: b). split; [naive_solver|by apply Hsp].
      * intros (b & (k' & w & b' & [= <-] & Hw & Hb' & ->) & ->). exists b'. rewrite Hsp by done. split; [done|].
        apply read_spec in Hw. by simplify_eq.
    + eexists; split; [done|]. intros out'. split; [done|]. intros (b & (k' & w & b' & _ & Hw & _) & _).
      apply read_spec in Hw. congruence.
Qed.

End Fields.

(** The part in front of the next dot, read as an octet. *)
Definition octet_read (l : list Z) : option Z :=
  if ((length l <? 1) || (3 <? length l))%nat then None else
  match parse_unsigned_integer l with Some d => if 255 <? d then None else Some d | None => None end.

Lemma octet_read_spec l v : octet_read l = Some v <-> octet l v.
Proof.
  unfold octet_read. split.
  - destruct (_ || _) eqn:E; [done|]. apply orb_false_iff in E as [E1%Nat.ltb_ge E2%Nat.ltb_ge].
    destruct (parse_unsigned_integer l) as [d|] eqn:Hd; [|done]. case_if; [done|]. intros [= <-].
    apply parse_octet; auto.
  - intros Hv. destruct (octet_parse l v Hv) as [-> ?]. destruct Hv as (Hl & _ & _ & Hm).
    rewrite (proj2 (Nat.ltb_ge _ _)), (proj2 (Nat.ltb_ge _ _)), (proj2 (Z.ltb_ge _ _)) by lia. done.
Qed.

(** One iteration, by what is behind the part. *)
Lemma parse_ipv4_step k l r out : (k <= 3)%nat -> Zlen out = 4 -> Forall (fun x => x <> CH_DOT) l ->
  r = [] \/ (exists r', r = CH_DOT :: r') ->
  parse_ipv4_loop k (l ++ r) out =
    match k, r with
    | O, [] => Ok ((fun v => splice out 3 [v]) <$> octet_read l)
    | S k', _ :: r' => match octet_read l with
                       | None => Ok None
                       | Some v => parse_ipv4_loop k' r' (splice out (3 - Z.of_nat k) [v])
                       end
    | _, _ => Ok None
    end.
Proof.
  intros Hk Ho Hl Hr.
  assert (Hs : scan CH_DOT (l ++ r) = length l).
  { destruct Hr as [->|[r' ->]]; [rewrite app_nil_r; by apply scan_all|by apply scan_app]. }
  assert (Hsub : MemRef_SubTo (l ++ r) (length l) = Ok l).
  { unfold MemRef_SubTo. rewrite length_app, (proj2 (Nat.leb_le _ _)), take_app_length by lia. done. }
  assert (Hw : forall v, mem_write out (Z.of_nat (3 - k)) [v] = Ok (splice out (3 - Z.of_nat k) [v])).
  { intros v. rewrite Nat2Z.inj_sub by done. apply mem_write_Ok. split; [cbn [length]; lia|done]. }
  unfold octet_read. destruct k as [|k]; cbn [parse_ipv4_loop]; rewrite Hs, Hsub, length_app;
    cbn [mbind outcome_bind] in *.
  - destruct Hr as [->|[r' ->]]; cbn [length].
    + rewrite Nat.add_0_r, Nat.eqb_refl, (Nat.ltb_irrefl (length l)). cbn -[mem_write Nat.ltb splice parse_unsigned_integer].
      change (3 <? 3)%nat with false. cbn [orb]. destruct (_ || _); [done|]. destruct (parse_unsigned_integer l); [|done]. cbn -[mem_write splice].
      case_if; [done|]. rewrite Hw. done.
    + rewrite (proj2 (Nat.ltb_lt (length l) _)) by lia. rewrite (proj2 (Nat.eqb_neq (length l) _)) by lia. done.
  - assert (Hi : (3 - S k <? 3)%nat = true) by (apply Nat.ltb_lt; lia).
    assert (Hi' : (3 - S k =? 3)%nat = false) by (apply Nat.eqb_neq; lia).
    rewrite Hi, Hi', andb_true_r, andb_false_r, orb_false_r.
    destruct Hr as [->|[r' ->]]; cbn [length].
    + by rewrite Nat.add_0_r, Nat.eqb_refl.
    + rewrite (proj2 (Nat.eqb_neq (length l) _)) by lia. destruct (_ || _); [done|].
      destruct (parse_unsigned_integer l); [|done]. case_if; [done|]. rewrite Hw. cbn [mbind outcome_bind].
      f_equal. rewrite drop_app_ge, Nat.add_comm, Nat.add_sub by lia. done.
Qed.

(** The parser accepts exactly the texts of four octets. *)
Lemma parse_ipv4_loop_spec k name out : (k <= 3)%nat -> Zlen out = 4 ->
  exists r, parse_ipv4_loop k name out = Ok r /\
    forall out', r = Some out' <-> exists b, fields octet k name b /\ out' = splice out (3 - Z.of_nat k) b.
Proof.
  apply (fields_run octet octet_no_dot (fun _ _ => True) octet_read (fun _ : unit => parse_ipv4_loop) octet_read_spec);
    [|exact tt|done].
  intros [] k' l r out' _ Hk Ho Hl Hr. exists tt. split; [done|]. by apply parse_ipv4_step.
Qed.

Lemma splice_whole buf data : length buf = length data -> splice buf 0 data = data.
Proof. intros E. unfold splice. rewrite take_0, drop_ge, app_nil_r by lia. done. Qed.

Lemma parse_ipv4_spec name out_addr :
  exists r, ipaddr_parse_ipv4_addr name out_addr = Ok r /\
    forall a, r = Some a <-> exists b, fields octet 3 name b /\ a = le_val b.
Proof.
  unfold ipaddr_parse_ipv4_addr.
  destruct (parse_ipv4_loop_spec 3 name (le_bytes 4 out_addr)) as (r & -> & Hr); [lia|done|].
  change (3 - Z.of_nat 3) with 0 in Hr.
  eexists; split; [done|]. intros a. rewrite fmap_Some. setoid_rewrite Hr. split.
  - intros (o & (b & Hb & ->) & ->). exists b. split; [done|]. rewrite splice_whole; [done|].
    by rewrite (fields_length _ _ _ _ Hb).
  - intros (b & Hb & ->). eexists; split; [exists b; done|].
    rewrite splice_whole; [done|]. by rewrite (fields_length _ _ _ _ Hb).
Qed.

(** A check of all numbers below [n]. *)
Lemma all_below (n : Z) (f : Z -> bool) : forallb f (seqZ 0 n) = true -> forall v, 0 <= v < n -> f v = true.
Proof. intros H v Hv. rewrite forallb_forall in H. apply H, list_elem_of_In, elem_of_seqZ. lia. Qed.

Lemma octet_fmt_dec v : 0 <= v < 256 -> octet (fmt_dec v) v.
Proof.
  intros Hv. unfold octet. repeat apply conj; [| | |apply dec_val_digits; cbn; lia|lia].
  1,2: assert (H : ((1 <=? length (fmt_dec v)) && (length (fmt_dec v) <=? 3))%nat = true);
    [apply (all_below 256 (fun v => ((1 <=? length (fmt_dec v)) && (length (fmt_dec v) <=? 3))%nat));
       [vm_compute; reflexivity|done]
    |by apply andb_true_iff in H as [?%Nat.leb_le ?%Nat.leb_le]].
  apply digits_isdec. lia.
Qed.

Lemma bytes_lookup b i : bytes b -> 0 <= nth i b 0 < 256.
Proof.
  intros Hb. destruct (decide (i < length b)%nat) as [Hi|Hi]; [|rewrite nth_overflow; lia].
  assert (He : nth i b 0 ∈ b) by by apply list_elem_of_In, nth_In.
  rewrite Forall_forall in Hb. exact (Hb _ He).
Qed.

Lemma octets_dotted b : bytes b -> length b = 4%nat -> fields octet 3 (dotted b) b.
Proof.
  intros Hb Hl. pose proof (fun i => octet_fmt_dec _ (bytes_lookup b i Hb)) as Ho.
  destruct b as [|b0 [|b1 [|b2 [|b3 [|]]]]]; try done. unfold dotted.
  pose proof (Ho 0%nat); pose proof (Ho 1%nat); pose proof (Ho 2%nat); pose proof (Ho 3%nat).
  repeat (apply fields_more; [done|]). by apply fields_last.
Qed.

(** The prefix of a mask, and the mask of a prefix. *)
Lemma prefix_of_mask p : 0 <= p <= 32 ->
  exists m, ipaddr_ipv4_mask_from_prefix p = Ok m /\ ipaddr_ipv4_prefix_from_mask m = Some p.
Proof.
  intros Hp. unfold ipaddr_ipv4_mask_from_prefix.
  rewrite (proj2 (Z.leb_le 0 p)), (proj2 (Z.leb_le p 32)) by lia. eexists; split; [done|].
  pose (f p := match ipaddr_ipv4_prefix_from_mask (hton32 (high_bits (Z.to_nat p))) with Some q => q =? p | None => false end).
  assert (H : f p = true) by (apply (all_below 33 f); [vm_compute; reflexivity|lia]).
  unfold f in H. destruct (ipaddr_ipv4_prefix_from_mask _); [|done]. zify_bool. by subst.
Qed.

Lemma prefix_loop_sound k : forall mask t p, (k <= 32)%nat -> t = high_bits (32 - k) ->
  prefix_loop k mask t = Some p -> 32 - Z.of_nat k <= p <= 32 /\ ntoh32 mask = high_bits (Z.to_nat p).
Proof.
  induction k as [|k IH]; intros mask t p Hk Ht; cbn [prefix_loop]; case_if.
  1,3: intros [= <-]; split; [lia|rewrite E, Ht; f_equal; lia].
  - done.
  - intros H. apply IH in H as [? ?]; [split; [lia|done]|lia|].
    replace (32 - k)%nat with (S (32 - S k)) by lia. cbn [high_bits]. subst t. do 2 f_equal. lia.
Qed.

Lemma mask_of_prefix m p : 0 <= m < 2 ^ 32 ->
  ipaddr_ipv4_prefix_from_mask m = Some p -> ipaddr_ipv4_mask_from_prefix p = Ok m.
Proof.
  intros Hm H. apply prefix_loop_sound in H as [Hp Hv]; [|lia|done].
  unfold ipaddr_ipv4_mask_from_prefix. rewrite (proj2 (Z.leb_le 0 p)), (proj2 (Z.leb_le p 32)) by lia.
  cbn [ASSERT mbind outcome_bind]. f_equal. rewrite <- Hv. by apply (ntoh32_hton32 m).
Qed.

Lemma unsigned_fmt_dec v : 0 <= v < 256 -> parse_unsigned_integer (fmt_dec v) = Some v.
Proof. intros Hv. by apply octet_parse, octet_fmt_dec. Qed.

Lemma dotted_length b : bytes b -> Zlen (dotted b) <= 15.
Proof.
  intros Hb. pose proof (fun i => octet_fmt_dec _ (bytes_lookup b i Hb)) as Ho. unfold dotted.
  rewrite !length_app. cbn [length].
  destruct (Ho 0%nat) as [? _], (Ho 1%nat) as [? _], (Ho 2%nat) as [? _], (Ho 3%nat) as [? _]. lia.
Qed.

(** An interface address that is printed, in at most [IPADDR_PRINT_MAX] bytes,
    is read back. *)
Lemma ifaddr_print_parse a p out o : 0 <= a < 2 ^ 32 -> 0 <= p <= 32 -> IPADDR_PRINT_MAX <= Zlen out ->
  exists s, ipaddr_print_ifaddr (mkIfaddr a p) out = Ok (splice out 0 (s ++ [0])) /\ Zlen (s ++ [0]) <= IPADDR_PRINT_MAX /\
    ipaddr_parse_ipv4_ifaddr s o = Ok (Some (mkIfaddr a p)).
Proof.
  unfold IPADDR_PRINT_MAX. intros Ha Hp Ho. pose proof (dotted_length _ (le_bytes_bytes 4 a)) as Hd.
  assert (Hf : (length (fmt_dec p) <= 2)%nat).
  { apply Nat.leb_le, (all_below 33 (fun p => (length (fmt_dec p) <=? 2)%nat)); [vm_compute; reflexivity|lia]. }
  exists (dotted (le_bytes 4 a) ++ [47] ++ fmt_dec p). rewrite <- !(app_assoc (dotted _)).
  split_and!.
  - unfold ipaddr_print_ifaddr. cbn [addr prefix]. rewrite (proj2 (Z.leb_le 0 p)), (proj2 (Z.leb_le p 32)) by lia.
    cbn [ASSERT mbind outcome_bind]. apply mem_write_Ok. split; [|done]. rewrite !length_app. cbn [length]. lia.
  - rewrite !length_app. cbn [length]. lia.
  - unfold ipaddr_parse_ipv4_ifaddr. cbn [app]. rewrite FindChar_app.
    2: { apply dotted_chars; [apply le_bytes_bytes|done| |]; unfold CH_DOT; lia. }
    unfold MemRef_SubTo, MemRef_SubFrom. rewrite length_app, !(proj2 (Nat.leb_le _ _)) by (cbn [length app]; lia).
    cbn [ASSERT mbind outcome_bind addr]. rewrite take_app_length.
    destruct (parse_ipv4_spec (dotted (le_bytes 4 a)) (addr o)) as (r & -> & Hr).
    rewrite (proj2 (Hr (le_val (le_bytes 4 a)))).
    2: { eexists; split; [apply octets_dotted; [apply le_bytes_bytes|done]|done]. }
    cbn [mbind outcome_bind]. set (d := dotted _). rewrite (drop_app_ge d _ (length d + 1)) by lia.
    replace (length d + 1 - length d)%nat with 1%nat by lia. change (drop 1 (47 :: fmt_dec p)) with (fmt_dec p).
    unfold ipaddr_parse_ipv4_prefix. rewrite unsigned_fmt_dec, (proj2 (Z.ltb_ge _ _)) by lia. cbn.
    rewrite le_val_le_bytes, Z.mod_small by (cbn; lia). done.
Qed.

End IpAddr.
