(* ===== verification/Ip6Text.v ===== *)
(** * IPv6 addresses as text (misc/ipaddr6.h)

    The parser is the loop of the source over positions of the text, writing
    into the sixteen bytes of the caller, with its jump to the part that reads
    a trailing IPv4 address. Reading outside of the text and writing outside
    of the bytes are faults. *)
From Stdlib Require Import ZArith Lia.
From stdpp Require Import base tactics numbers option gmap list.
From S2P Require Import Prelude LinkedList Bavl ByteOrder Addr IpText.

Module IpAddr6.
Import BAddr MemRef ParseNumber IpAddr.

Record ipv6_ifaddr := mkIfaddr6 { addr6 : list Z; prefix6 : Z }.

(** The local variables of the parser and the bytes of [*out_addr]. *)
Record vars := mkVars {
  num_blocks : Z;
  compress_pos : Z;
  block : Z;
  empty : bool;
  out : list Z }.

(** How the first loop is left. *)
Inductive exit := Reject | AtEnd (s : vars) | Ipv4Ending (i : nat) (s : vars).

(** The two stores of [block] and [num_blocks++]. *)
Definition store_block (s : vars) : outcome vars :=
  mem_write (out s) (2 * num_blocks s + 0) [u8 (Z.shiftr (block s) 8)] ≫= fun out =>
  mem_write out (2 * num_blocks s + 1) [Z.land (block s) 255] ≫= fun out =>
  Ok (mkVars (num_blocks s + 1) (compress_pos s) (block s) (empty s) out).

(** A colon at [i]; [None] is [return 0]. *)
Definition colon_step (i : nat) (is_double : bool) (s : vars) : outcome (option vars) :=
  (if (0 <? i)%nat then
     if empty s || (num_blocks s =? 7) then Ok None
     else store_block s ≫= fun s => Ok (Some (mkVars (num_blocks s) (compress_pos s) 0 true (out s)))
   else if negb is_double then Ok None else Ok (Some s)) ≫= fun r : option vars =>
  match r with
  | None => Ok None
  | Some s =>
      if is_double then
        if negb (compress_pos s =? -1) then Ok None
        else Ok (Some (mkVars (num_blocks s) (num_blocks s) (block s) (empty s) (out s)))
      else Ok (Some s)
  end.

(** Another digit of a block, [None] if it does not fit in 16 bits. *)
Definition block_digit (block digit : Z) : option Z :=
  if digit <? 0 then None else
  if UINT16_MAX / 16 <? block then None else
  let block := block * 16 in
  if UINT16_MAX - block <? digit then None else Some (block + digit).

(** The first loop; each iteration advances [i]. *)
Fixpoint scan_loop (fuel : nat) (name : list Z) (i : nat) (s : vars) : outcome exit :=
  match fuel with
  | O => Fault
  | S fuel =>
      if (length name <=? i)%nat then Ok (AtEnd s) else
      MemRef_At name i ≫= fun c =>
      if c =? CH_DOT then Ok (Ipv4Ending i s)
      else if c =? CH_COLON then
        (if (i + 1 <? length name)%nat then MemRef_At name (i + 1) ≫= fun c' => Ok (c' =? CH_COLON)
         else Ok false) ≫= fun is_double : bool =>
        colon_step i is_double s ≫= fun r =>
        match r with
        | None => Ok Reject
        | Some s => scan_loop fuel name (i + 1 + (if is_double then 1 else 0)) s
        end
      else
        match block_digit (block s) (decode_hex_digit c) with
        | None => Ok Reject
        | Some b => scan_loop fuel name (i + 1) (mkVars (num_blocks s) (compress_pos s) b false (out s))
        end
  end.

(** [memset] and [memmove] with a size that may have become negative. *)
Definition memset (buf : list Z) (off c n : Z) : outcome (list Z) :=
  ASSERT (0 <=? n) ≫= fun _ => mem_write buf off (replicate (Z.to_nat n) c).

Definition memmove (buf : list Z) (dst src n : Z) : outcome (list Z) :=
  mem_read buf src n ≫= fun d => mem_write buf dst d.

(** From the label [ipv4_done]. *)
Definition ipv4_done (nb cp : Z) (out : list Z) : outcome (option (list Z)) :=
  if (cp =? -1) && negb (nb =? 8) then Ok None else
  let cp := if cp =? -1 then 0 else cp in
  let num_rear := nb - cp in
  memmove out (2 * (8 - num_rear)) (2 * cp) (2 * num_rear) ≫= fun out =>
  memset out (2 * cp) 0 (2 * (8 - num_rear - cp)) ≫= fun out => Ok (Some out).

(** [while (name.ptr[i - 1] != ':') i--] *)
Fixpoint back_to_colon (name : list Z) (i : nat) : outcome nat :=
  match i with
  | O => Fault
  | S j => MemRef_At name j ≫= fun c => if c =? CH_COLON then Ok i else back_to_colon name j
  end.

(** Another digit of a byte. *)
Definition byte_digit (byte : Z) (empty : bool) (digit : Z) : option Z :=
  if negb empty && (byte =? 0) then None else
  if digit <? 0 then None else
  if 255 / 10 <? byte then None else
  let byte := byte * 10 in
  if 255 - byte <? digit then None else Some (byte + digit).

(** The loop over the IPv4 address: [bytes], [cur_byte], [byte] and [empty]. *)
Fixpoint ipv4_loop (fuel : nat) (name : list Z) (i : nat) (bs : list Z) (cur_byte byte : Z) (empty : bool)
    : outcome (option (list Z * Z * Z * bool)) :=
  match fuel with
  | O => Fault
  | S fuel =>
      if (length name <=? i)%nat then Ok (Some (bs, cur_byte, byte, empty)) else
      MemRef_At name i ≫= fun c =>
      if c =? CH_DOT then
        if empty || (cur_byte =? 3) then Ok None else
        mem_write bs cur_byte [byte] ≫= fun bs =>
        ipv4_loop fuel name (i + 1) bs (cur_byte + 1) 0 true
      else
        match byte_digit byte empty (decode_decimal_digit c) with
        | None => Ok None
        | Some byte => ipv4_loop fuel name (i + 1) bs cur_byte byte false
        end
  end.

(** From the label [ipv4_ending]; [bytes] is not initialised. *)
Definition ipv4_ending (name bs0 : list Z) (i : nat) (s : vars) : outcome (option (list Z)) :=
  if empty s || ((num_blocks s =? 0) && (compress_pos s =? -1)) then Ok None else
  back_to_colon name i ≫= fun i =>
  ipv4_loop (S (length name)) name i bs0 0 0 true ≫= fun r : option (list Z * Z * Z * bool) =>
  match r with
  | None => Ok None
  | Some (bs, cur_byte, byte, empty) =>
      if negb (cur_byte =? 3) || empty then Ok None else
      mem_write bs cur_byte [byte] ≫= fun bs =>
      if 8 - num_blocks s <? 2 then Ok None else
      mem_write (out s) (2 * num_blocks s) bs ≫= fun out =>
      ipv4_done (num_blocks s + 2) (compress_pos s) out
  end.

(** Behind the first loop. *)
Definition at_end (s : vars) : outcome (option (list Z)) :=
  if negb (empty s) then store_block s ≫= fun s => ipv4_done (num_blocks s) (compress_pos s) (out s)
  else if negb (num_blocks s =? compress_pos s) then Ok None
  else ipv4_done (num_blocks s) (compress_pos s) (out s).

(** [out_addr] and [bs0] are the contents of [*out_addr] and [bytes] before. *)
Definition ipaddr6_parse_ipv6_addr (name out_addr bs0 : list Z) : outcome (option (list Z)) :=
  scan_loop (S (length name)) name 0 (mkVars 0 (-1) 0 true out_addr) ≫= fun e =>
  match e with
  | Reject => Ok None
  | AtEnd s => at_end s
  | Ipv4Ending i s => ipv4_ending name bs0 i s
  end.

Definition ipaddr6_parse_ipv6_prefix (str : list Z) : option Z :=
  match parse_unsigned_integer str with None => None | Some d => if 128 <? d then None else Some d end.

Definition ipaddr6_parse_ipv6_ifaddr (str bs0 : list Z) (o : ipv6_ifaddr) : outcome (option ipv6_ifaddr) :=
  match MemRef_FindChar str 47 with
  | None => Ok None
  | Some slash_pos =>
      MemRef_SubTo str slash_pos ≫= fun a =>
      ipaddr6_parse_ipv6_addr a (addr6 o) bs0 ≫= fun ra : option (list Z) =>
      match ra with
      | None => Ok None
      | Some ad =>
          MemRef_SubFrom str (slash_pos + 1) ≫= fun p =>
          Ok (mkIfaddr6 ad <$> ipaddr6_parse_ipv6_prefix p)
      end
  end.

(** ** Printing *)

(** [block], 16 bits from two bytes. *)
Definition block_at (b : list Z) (i : nat) : Z :=
  Z.lor (Z.shiftl (nth (2 * i) b 0) 8) (nth (2 * i + 1) b 0).

(** The first loop over the blocks [i], [i + 1], ... (those of [blocks]):
    [largest_start], [largest_len], [current_start], [current_len]. *)
Fixpoint largest_loop (n : nat) (b : list Z) (i ls ll cs cl : Z) : Z * Z :=
  match n with
  | O => (ls, ll)
  | S n =>
      if (nth (Z.to_nat (2 * i)) b 0 =? 0) && (nth (Z.to_nat (2 * i + 1)) b 0 =? 0) then
        let cl := cl + 1 in
        if ll <? cl then largest_loop n b (i + 1) cs cl cs cl else largest_loop n b (i + 1) ls ll cs cl
      else largest_loop n b (i + 1) ls ll (i + 1) 0
  end.

(** [out_buf += sprintf(out_buf, ...)]: the text and its zero are written at
    [p], the next text comes at the zero. *)
Definition sprintf (buf : list Z) (p : Z) (s : list Z) : outcome (list Z * Z) :=
  mem_write buf p (s ++ [0]) ≫= fun buf => Ok (buf, p + Zlen s).

(** The blocks [i], ..., [i + n - 1], each written as [pre i] says. *)
Fixpoint print_blocks (n i : nat) (b : list Z) (fmt : nat -> Z -> list Z) (buf : list Z) (p : Z) : outcome (list Z * Z) :=
  match n with
  | O => Ok (buf, p)
  | S n => sprintf buf p (fmt i (block_at b i)) ≫= fun '(buf, p) => print_blocks n (S i) b fmt buf p
  end.

Definition IPADDR6_PRINT_MAX : Z := 44.

(** The buffer and the position of the terminating zero. *)
Definition ipaddr6_print_addr (b buf : list Z) : outcome (list Z * Z) :=
  let '(ls, ll) := largest_loop 8 b 0 0 0 0 0 in
  if 1 <? ll then
    print_blocks (Z.to_nat ls) 0 b (fun _ v => fmt_hex v ++ [CH_COLON]) buf 0 ≫= fun '(buf, p) =>
    (if ls =? 0 then sprintf buf p [CH_COLON] else Ok (buf, p)) ≫= fun '(buf, p) =>
    print_blocks (Z.to_nat (8 - (ls + ll))) (Z.to_nat (ls + ll)) b (fun _ v => CH_COLON :: fmt_hex v) buf p
      ≫= fun '(buf, p) =>
    if ls + ll =? 8 then sprintf buf p [CH_COLON] else Ok (buf, p)
  else
    print_blocks 8 0 b (fun i v => (if (i =? 0)%nat then [] else [CH_COLON]) ++ fmt_hex v) buf 0.

Definition ipaddr6_print_ifaddr (a : ipv6_ifaddr) (buf : list Z) : outcome (list Z * Z) :=
  ASSERT (0 <=? prefix6 a) ≫= fun _ => ASSERT (prefix6 a <=? 128) ≫= fun _ =>
  ipaddr6_print_addr (addr6 a) buf ≫= fun '(buf, p) => sprintf buf p (47 :: fmt_dec (prefix6 a)).

(** ** Masks *)
Fixpoint high_bits8 (n : nat) : Z :=
  match n with O => 0 | S n => Z.lor (high_bits8 n) (Z.shiftl 1 (8 - Z.of_nat n - 1)) end.

Definition ipaddr6_ipv6_mask_from_prefix (prefix : Z) (mask : list Z) : outcome (list Z) :=
  ASSERT (0 <=? prefix) ≫= fun _ => ASSERT (prefix <=? 128) ≫= fun _ =>
  let quot := prefix / 8 in
  let rem := prefix mod 8 in
  (if 0 <? quot then memset mask 0 255 quot else Ok mask) ≫= fun mask =>
  (if 0 <? 16 - quot then memset mask quot 0 (16 - quot) else Ok mask) ≫= fun mask =>
  if rem =? 0 then Ok mask else
  ByteOrder.ptr mask 0 quot ≫= fun x => mem_write mask quot [Z.lor x (high_bits8 (Z.to_nat rem))].

Fixpoint prefix8_loop (k : nat) (x t : Z) : option Z :=
  let j := 8 - Z.of_nat k in
  if x =? t then Some j else
  match k with O => None | S k => prefix8_loop k x (Z.lor t (Z.shiftl 1 (8 - j - 1))) end.

Fixpoint ipaddr6_ipv6_prefix_from_mask (mask : list Z) : option Z :=
  match mask with
  | [] => Some 0
  | x :: mask' =>
      if x =? 255 then (fun p => 8 + p) <$> ipaddr6_ipv6_prefix_from_mask mask'
      else match prefix8_loop 8 x 0 with
           | None => None
           | Some j => if forallb (fun x => x =? 0) mask' then Some j else None
           end
  end.

Definition ipaddr6_ipv6_ifaddr_from_addr_mask (addr mask : list Z) : option ipv6_ifaddr :=
  mkIfaddr6 addr <$> ipaddr6_ipv6_prefix_from_mask mask.

Definition ipaddr6_ipv6_addrs_in_network (addr1 addr2 : list Z) (netprefix : Z) : outcome bool :=
  ASSERT (0 <=? netprefix) ≫= fun _ => ASSERT (netprefix <=? 128) ≫= fun _ =>
  let quot := netprefix / 8 in
  let rem := netprefix mod 8 in
  if negb (memcmp (Z.to_nat quot) addr1 addr2 =? 0) then Ok false else
  if rem =? 0 then Ok true else
  let t := high_bits8 (Z.to_nat rem) in
  ByteOrder.ptr addr1 0 quot ≫= fun x1 => ByteOrder.ptr addr2 0 quot ≫= fun x2 =>
  Ok (Z.land x1 t =? Z.land x2 t).

(** ** The grammar *)

Definition ishex (c : Z) : Prop := 0 <= decode_hex_digit c.
Definition hex_val (n : Z) (g : list Z) : Z := fold_left (fun n c => 16 * n + decode_hex_digit c) g n.

(** A block: hexadecimal digits of a value below 2^16. *)
Definition group (g : list Z) (v : Z) : Prop :=
  g <> [] /\ Forall ishex g /\ hex_val 0 g = v /\ v <= UINT16_MAX.

(** The two bytes of a block. *)
Definition be (v : Z) : list Z := [v / 256; v mod 256].

(** A byte in decimal, without zeros in front. *)
Definition octet6 (d : list Z) (v : Z) : Prop :=
  d <> [] /\ isdec d /\ dec_val 0 d = v /\ v <= 255 /\ (hd 0 d = 48 -> d = [48]).

(** Blocks separated by colons, and their bytes. *)
Inductive groups : list Z -> list Z -> Prop :=
| groups_one g v : group g v -> groups g (be v)
| groups_more g v r b : group g v -> groups r b -> groups (g ++ CH_COLON :: r) (be v ++ b).

(** The same, possibly ending in an IPv4 address. *)
Inductive ending : list Z -> list Z -> Prop :=
| ending_one g v : group g v -> ending g (be v)
| ending_ipv4 q b : fields octet6 3 q b -> ending q b
| ending_more g v r b : group g v -> ending r b -> ending (g ++ CH_COLON :: r) (be v ++ b).

(** The text of an address: all of its bytes, or two parts, each possibly
    empty, with zeros in between (which may be none: the code does not ask
    that a double colon replaces anything). *)
Inductive ipv6_text : list Z -> list Z -> Prop :=
| text_full s a : ending s a -> Zlen a = 16 -> ipv6_text s a
| text_short p bp t bt :
    p = [] /\ bp = [] \/ groups p bp -> t = [] /\ bt = [] \/ ending t bt ->
    Zlen bp <= 14 -> Zlen bp + Zlen bt <= 16 ->
    ipv6_text (p ++ CH_COLON :: CH_COLON :: t)
              (bp ++ replicate (Z.to_nat (16 - Zlen bp - Zlen bt)) 0 ++ bt).

(** ** One block *)

Lemma decode_hex_range c : -1 <= decode_hex_digit c <= 15.
Proof. unfold decode_hex_digit. repeat case_if; lia. Qed.

Lemma ishex_not_sep c : ishex c -> c <> CH_COLON /\ c <> CH_DOT.
Proof. unfold ishex, CH_COLON, CH_DOT. split; intros ->; cbn in *; lia. Qed.

Lemma block_digit_spec b d b' : block_digit b d = Some b' <-> 0 <= d /\ b' = 16 * b + d /\ b <= 4095 /\ b' <= UINT16_MAX.
Proof.
  unfold block_digit, UINT16_MAX. change ((2 ^ 16 - 1) / 16) with 4095.
  repeat case_if; split; intros; simplify_eq; try lia; try done. f_equal. lia.
Qed.

Fixpoint read_group (g : list Z) (b : Z) : option Z :=
  match g with
  | [] => Some b
  | c :: g => match block_digit b (decode_hex_digit c) with None => None | Some b => read_group g b end
  end.

Lemma hex_val_mono g : forall b, 0 <= b -> Forall ishex g -> b <= hex_val b g.
Proof.
  unfold hex_val. induction g as [|c g IH]; intros b Hb Hg; cbn; [lia|].
  apply Forall_cons in Hg as [Hc Hg]. unfold ishex in Hc. specialize (IH (16 * b + decode_hex_digit c)). lia || (etrans; [|apply IH]; [lia|lia|done]).
Qed.

Lemma read_group_spec g : forall b v, 0 <= b <= UINT16_MAX ->
  read_group g b = Some v <-> Forall ishex g /\ hex_val b g = v /\ v <= UINT16_MAX.
Proof.
  induction g as [|c g IH]; intros b v Hb; cbn [read_group].
  { split; [intros [= <-]; split_and!; [constructor|done|lia]|intros (_ & <- & _); done]. }
  change (hex_val b (c :: g)) with (hex_val (16 * b + decode_hex_digit c) g). rewrite Forall_cons.
  destruct (block_digit b (decode_hex_digit c)) as [b'|] eqn:E.
  - apply block_digit_spec in E as (Hd & -> & Hb4 & Hb'). rewrite IH by lia. unfold ishex. naive_solver.
  - split; [done|]. intros ((Hc & Hg) & Hv & Hm). exfalso. unfold ishex in Hc.
    pose proof (hex_val_mono g (16 * b + decode_hex_digit c) ltac:(lia) Hg).
    assert (block_digit b (decode_hex_digit c) = Some (16 * b + decode_hex_digit c)); [|congruence].
    apply block_digit_spec. unfold UINT16_MAX in *. lia.
Qed.

Lemma group_read g v : group g v <-> g <> [] /\ read_group g 0 = Some v.
Proof. unfold group. rewrite read_group_spec by (unfold UINT16_MAX; lia). done. Qed.

Lemma group_range g v : group g v -> 0 <= v <= UINT16_MAX.
Proof. intros (_ & Hg & <- & Hm). pose proof (hex_val_mono g 0 ltac:(lia) Hg). lia. Qed.

Lemma group_not_sep g v : group g v -> Forall (fun c => c <> CH_COLON /\ c <> CH_DOT) g.
Proof. intros (_ & Hg & _). eapply Forall_impl; [exact Hg|]. apply ishex_not_sep. Qed.

(** The first loop over the characters of one block. *)
Lemma lookup_middle (pre r : list Z) c : (pre ++ c :: r) !! length pre = Some c.
Proof. by rewrite lookup_app_r, Nat.sub_diag by lia. Qed.

Lemma scan_token g : forall fuel pre r nb cp b e o,
  Forall (fun c => c <> CH_COLON /\ c <> CH_DOT) g -> (length (g ++ r) < fuel)%nat ->
  exists fuel', (length r < fuel')%nat /\
    scan_loop fuel (pre ++ g ++ r) (length pre) (mkVars nb cp b e o) =
      match read_group g b with
      | None => Ok Reject
      | Some v => scan_loop fuel' (pre ++ g ++ r) (length (pre ++ g))
                    (mkVars nb cp v (match g with [] => e | _ => false end) o)
      end.
Proof.
  induction g as [|c g IH]; intros fuel pre r nb cp b e o Hg Hf.
  { exists fuel. cbn [read_group app]. rewrite app_nil_r. done. }
  apply Forall_cons in Hg as [[Hc Hd] Hg]. destruct fuel as [|fuel]; [lia|]. cbn [app length] in Hf.
  destruct (IH fuel (pre ++ [c]) r nb cp (default 0 (block_digit b (decode_hex_digit c))) false o Hg ltac:(lia))
    as (f' & Hf' & E).
  exists f'. split; [done|]. cbn [scan_loop read_group app].
  rewrite (proj2 (Nat.leb_gt _ _)) by (rewrite !length_app; cbn [length]; lia).
  unfold MemRef_At. rewrite lookup_middle. cbn [of_option mbind outcome_bind].
  rewrite (proj2 (Z.eqb_neq c CH_DOT)), (proj2 (Z.eqb_neq c CH_COLON)) by done. cbn [block num_blocks compress_pos out].
  destruct (block_digit b (decode_hex_digit c)) as [b'|]; [|done]. change (default 0 (Some b')) with b' in E.
  replace (pre ++ c :: g ++ r) with ((pre ++ [c]) ++ g ++ r) by by rewrite <- app_assoc.
  replace (length pre + 1)%nat with (length (pre ++ [c])) by (rewrite length_app; cbn [length]; lia).
  replace (pre ++ c :: g) with ((pre ++ [c]) ++ g) by by rewrite <- app_assoc.
  etrans; [exact E|]. destruct (read_group g b'); [|done]. by destruct g.
Qed.

(** ** The bytes written so far *)

Lemma write_app B J d : (length d <= length J)%nat ->
  mem_write (B ++ J) (Zlen B) d = Ok (B ++ d ++ drop (length d) J).
Proof.
  intros H. apply mem_write_Ok. rewrite length_app. split; [lia|]. unfold splice.
  rewrite Nat2Z.id, take_app_length, drop_app_ge by lia. do 3 f_equal. lia.
Qed.

(** [B] has been written into sixteen bytes, [nb] blocks of it. *)
Definition written (nb : Z) (B o : list Z) : Prop :=
  Zlen B = 2 * nb /\ Zlen o = 16 /\ exists J, o = B ++ J.

Lemma written_append nb B o d : written nb B o -> Zlen B + Zlen d <= 16 -> Zlen d mod 2 = 0 ->
  exists o', mem_write o (2 * nb) d = Ok o' /\ written (nb + Zlen d / 2) (B ++ d) o'.
Proof.
  intros (HB & Ho & J & ->) Hd Hm. rewrite length_app in Ho. exists (B ++ d ++ drop (length d) J).
  rewrite <- HB. split; [apply write_app; lia|]. unfold written. rewrite !length_app, length_drop.
  split_and!; [|lia|exists (drop (length d) J); by rewrite app_assoc].
  pose proof (Z.div_mod (Zlen d) 2). lia.
Qed.

Lemma be_bytes v : 0 <= v <= UINT16_MAX -> u8 (Z.shiftr v 8) = v / 256 /\ Z.land v 255 = v mod 256.
Proof.
  intros Hv. rewrite Z.shiftr_div_pow2 by lia. change (2 ^ 8) with 256. split.
  - apply u8_small. unfold UINT16_MAX in Hv. split; [apply Z.div_pos; lia|apply Z.div_lt_upper_bound; lia].
  - change 255 with (Z.ones 8). by rewrite Z.land_ones by lia.
Qed.

Lemma store_block_spec nb cp v e B o : written nb B o -> 0 <= v <= UINT16_MAX -> nb <= 7 ->
  exists o', store_block (mkVars nb cp v e o) = Ok (mkVars (nb + 1) cp v e o') /\ written (nb + 1) (B ++ be v) o'.
Proof.
  intros (HB & Ho & J & ->) Hv Hn. destruct (be_bytes v Hv) as [H1 H2]. rewrite length_app in Ho.
  destruct J as [|x [|y J]]; cbn [length] in Ho; [lia|lia|].
  exists (B ++ be v ++ J). split.
  - unfold store_block. cbn [num_blocks compress_pos block empty out]. rewrite H1, H2.
    rewrite Z.add_0_r, <- HB, write_app by (cbn; lia). cbn [mbind outcome_bind drop length app].
    replace (Zlen B + 1) with (Zlen (B ++ [v / 256])) by (rewrite length_app; cbn [length]; lia).
    replace (B ++ v / 256 :: y :: J) with ((B ++ [v / 256]) ++ y :: J) by by rewrite <- app_assoc.
    rewrite (write_app (B ++ [v / 256]) (y :: J)) by (cbn; lia).
    cbn [mbind outcome_bind drop length app]. by rewrite <- app_assoc.
  - unfold written. rewrite !length_app. cbn [length be]. split_and!; [lia|lia|].
    exists J. by rewrite <- app_assoc.
Qed.

(** The address from all blocks and the position of the double colon. *)
Definition complete (cp : Z) (B a : list Z) : Prop :=
  (cp = -1 /\ Zlen B = 16 /\ a = B) \/
  (0 <= cp /\ a = take (Z.to_nat (2 * cp)) B ++ replicate (Z.to_nat (16 - Zlen B)) 0 ++ drop (Z.to_nat (2 * cp)) B).

Lemma ipv4_done_rear nb cp B o : written nb B o -> 0 <= cp <= nb -> nb <= 8 ->
  (memmove o (2 * (8 - (nb - cp))) (2 * cp) (2 * (nb - cp)) ≫= fun o =>
   memset o (2 * cp) 0 (2 * (8 - (nb - cp) - cp)) ≫= fun o => Ok (Some o))
  = Ok (Some (take (Z.to_nat (2 * cp)) B ++ replicate (Z.to_nat (16 - Zlen B)) 0 ++ drop (Z.to_nat (2 * cp)) B)).
Proof.
  intros (HB & Ho & J & ->) Hcp Hn. rewrite length_app in Ho. unfold memmove, memset.
  set (B1 := take (Z.to_nat (2 * cp)) B). set (B2 := drop (Z.to_nat (2 * cp)) B).
  assert (EB : B = B1 ++ B2) by (symmetry; apply take_drop).
  assert (L1 : Zlen B1 = 2 * cp) by (unfold B1; rewrite length_take; lia).
  assert (L2 : Zlen B2 = 2 * (nb - cp)) by (unfold B2; rewrite length_drop; lia).
  assert (Hr : mem_read (B ++ J) (2 * cp) (2 * (nb - cp)) = Ok B2).
  { apply mem_read_Ok. rewrite length_app. split; [lia|]. unfold slice. rewrite EB, <- app_assoc.
    rewrite drop_app_ge by lia. replace (Z.to_nat (2 * cp) - length B1)%nat with 0%nat by lia.
    rewrite drop_0, take_app_ge by lia. replace (_ - length B2)%nat with 0%nat by lia. by rewrite take_0, app_nil_r. }
  rewrite Hr. cbn [mbind outcome_bind]. rewrite (proj2 (mem_write_Ok _ _ _ _)) by (split; [rewrite length_app; lia|done]).
  cbn [mbind outcome_bind]. rewrite (proj2 (Z.leb_le _ _)) by lia. cbn [ASSERT mbind outcome_bind].
  set (m := (2 * (8 - (nb - cp) - cp))).
  assert (Hs : splice (B ++ J) (2 * (8 - (nb - cp))) B2 = take (Z.to_nat (2 * (8 - (nb - cp)))) (B ++ J) ++ B2).
  { unfold splice. rewrite (drop_ge _ (_ + _)) by (rewrite length_app; lia). by rewrite app_nil_r. }
  rewrite Hs. set (T := take _ (B ++ J)).
  assert (LT : length T = Z.to_nat (2 * (8 - (nb - cp)))) by (unfold T; rewrite length_take, length_app; lia).
  assert (Hm : m = 2 * (8 - (nb - cp) - cp)) by done.
  rewrite (proj2 (mem_write_Ok (T ++ B2) (2 * cp) (replicate (Z.to_nat m) 0) _))
    by (split; [rewrite length_app, length_replicate; lia|done]).
  cbn [mbind outcome_bind]. do 2 f_equal. unfold splice. rewrite length_replicate.
  rewrite (drop_app_ge T) by lia. rewrite take_app_le by lia. unfold T. rewrite take_take, Nat.min_l by lia.
  rewrite take_app_le by lia. fold B1. f_equal. f_equal; [f_equal; lia|].
  replace (_ - length T)%nat with 0%nat by lia. done.
Qed.

Lemma ipv4_done_spec nb cp B o : written nb B o -> cp = -1 \/ 0 <= cp <= nb -> nb <= 8 ->
  exists r, ipv4_done nb cp o = Ok r /\ forall a, r = Some a <-> complete cp B a.
Proof.
  intros Hw Hcp Hn. unfold ipv4_done. destruct Hcp as [->|Hcp].
  - rewrite Z.eqb_refl. cbn [andb]. destruct (Z.eqb_spec nb 8) as [->|Hn8]; cbn [negb].
    + rewrite (ipv4_done_rear 8 0 B o Hw) by lia. eexists; split; [done|]. intros a. unfold complete.
      destruct Hw as (HB & _). rewrite HB. cbn -[Z.mul]. change (2 * 8) with 16. rewrite drop_0. naive_solver lia.
    + eexists; split; [done|]. intros a. destruct Hw as (HB & _). unfold complete. naive_solver lia.
  - rewrite (proj2 (Z.eqb_neq cp (-1))) by lia. cbn [andb]. rewrite (ipv4_done_rear nb cp B o) by done.
    eexists; split; [done|]. intros a. unfold complete. naive_solver lia.
Qed.

(** ** A trailing IPv4 address *)

Lemma back_to_colon_spec p r g : Forall (fun c => c <> CH_COLON /\ c <> CH_DOT) g ->
  back_to_colon (p ++ [CH_COLON] ++ g ++ r) (length (p ++ [CH_COLON] ++ g)) = Ok (length (p ++ [CH_COLON])).
Proof.
  revert r. induction g as [|c g IH] using rev_ind; intros r Hg.
  - rewrite app_nil_r, length_app, Nat.add_comm. cbn [length back_to_colon Nat.add app].
    unfold MemRef_At. rewrite lookup_middle. done.
  - apply Forall_app in Hg as [Hg [Hc _]%Forall_cons]. rewrite (app_assoc p), !app_assoc, length_app.
    rewrite Nat.add_comm. cbn [length Nat.add back_to_colon]. unfold MemRef_At.
    rewrite <- (app_assoc _ [c] r). cbn [app]. rewrite lookup_middle. cbn [of_option mbind outcome_bind].
    rewrite (proj2 (Z.eqb_neq c CH_COLON)) by naive_solver.
    specialize (IH (c :: r) Hg). rewrite !app_assoc in IH. done.
Qed.

Lemma decode_decimal_spec c : 0 <= decode_decimal_digit c <-> 48 <= c <= 57.
Proof. unfold decode_decimal_digit. case_if; [lia|]. apply andb_false_iff in E as [E|E]; zify_bool; lia. Qed.

Lemma decode_decimal_value c : 48 <= c <= 57 -> decode_decimal_digit c = c - 48.
Proof. intros Hc. unfold decode_decimal_digit. by rewrite !(proj2 (Z.leb_le _ _)) by lia. Qed.

Lemma byte_digit_spec b e c b' : 0 <= b <= 255 ->
  byte_digit b e (decode_decimal_digit c) = Some b' <->
  (e = true \/ b <> 0) /\ 48 <= c <= 57 /\ b' = 10 * b + (c - 48) /\ b' <= 255.
Proof.
  intros Hb. unfold byte_digit. change (255 / 10) with 25. destruct (negb e && (b =? 0)) eqn:E0.
  { split; [done|]. destruct e; [done|]. cbn in E0. zify_bool. naive_solver lia. }
  assert (He : e = true \/ b <> 0).
  { destruct e; [by left|right]. cbn in E0. by zify_bool. }
  rewrite <- decode_decimal_spec. case_if; [split; [done|lia]|].
  pose proof (proj1 (decode_decimal_spec c) E) as Hc. rewrite (decode_decimal_value c Hc) in *.
  repeat case_if; split; intros; simplify_eq; try lia; try done; [|f_equal; lia].
  split_and!; [done|lia|lia|lia].
Qed.

Fixpoint read_byte (d : list Z) (b : Z) (e : bool) : option (Z * bool) :=
  match d with
  | [] => Some (b, e)
  | c :: d => match byte_digit b e (decode_decimal_digit c) with None => None | Some b => read_byte d b false end
  end.

Lemma dec_val_mono d : forall b, 0 <= b -> isdec d -> b <= dec_val b d.
Proof.
  intros b Hb Hd. rewrite dec_val_acc. pose proof (dec_val_range d Hd).
  assert (0 < 10 ^ Zlen d) by (apply Z.pow_pos_nonneg; lia). nia.
Qed.

Lemma read_byte_more d : forall b r, 0 < b <= 255 ->
  read_byte d b false = Some r <-> isdec d /\ dec_val b d <= 255 /\ r = (dec_val b d, false).
Proof.
  induction d as [|c d IH]; intros b r Hb; cbn [read_byte].
  { split; [intros [= <-]; split_and!; [constructor|cbn; lia|done]|intros (_ & _ & ->); done]. }
  change (dec_val b (c :: d)) with (dec_val (10 * b + (c - 48)) d). unfold isdec. rewrite Forall_cons. fold (isdec d).
  destruct (byte_digit _ _ _) as [b'|] eqn:E.
  - apply byte_digit_spec in E as (_ & Hc & -> & Hm); [|lia]. rewrite IH by lia. naive_solver.
  - split; [done|]. intros ((Hc & Hd) & Hm & _). exfalso.
    pose proof (dec_val_mono d (10 * b + (c - 48)) ltac:(lia) Hd).
    assert (byte_digit b false (decode_decimal_digit c) = Some (10 * b + (c - 48))); [|congruence].
    apply byte_digit_spec; [lia|]. split_and!; [right|..]; lia.
Qed.

Lemma read_byte_spec d v e : read_byte d 0 true = Some (v, e) <-> d = [] /\ v = 0 /\ e = true \/ octet6 d v /\ e = false.
Proof.
  unfold octet6. destruct d as [|c d]; cbn [read_byte]; [naive_solver|]. unfold isdec. rewrite Forall_cons. fold (isdec d).
  change (dec_val 0 (c :: d)) with (dec_val (10 * 0 + (c - 48)) d). cbn [hd].
  destruct (byte_digit 0 true _) as [b|] eqn:E.
  - apply byte_digit_spec in E as (_ & Hc & -> & Hm); [|lia].
    destruct (decide (c = 48)) as [->|Hne].
    + destruct d as [|c' d]; cbn [read_byte].
      { split.
        - intros [= <- <-]. right. split; [|done]. cbn. split_and!; try done; try lia. constructor.
        - intros [(? & _)|((_ & _ & Hv & _) & ->)]; [done|]. cbn in Hv |- *. by subst. }
      change (byte_digit (10 * 0 + (48 - 48)) false (decode_decimal_digit c')) with (None (A:=Z)).
      split; [done|]. intros [(? & _)|((_ & _ & _ & _ & Hv) & _)]; [done|]. by specialize (Hv eq_refl).
    + rewrite read_byte_more by lia. naive_solver lia.
  - split; [done|]. intros [|((_ & (Hc & Hd) & <- & Hm & Hz) & _)]; [naive_solver|]. exfalso.
    pose proof (dec_val_mono d (10 * 0 + (c - 48)) ltac:(lia) Hd).
    assert (byte_digit 0 true (decode_decimal_digit c) = Some (10 * 0 + (c - 48))); [|congruence].
    apply byte_digit_spec; [lia|]. split_and!; [by left|..]; lia.
Qed.

Lemma octet6_no_dot d v : octet6 d v -> Forall (fun x => x <> CH_DOT) d.
Proof. intros (_ & Hd & _). eapply Forall_impl; [exact Hd|]. cbn. unfold CH_DOT. lia. Qed.

Lemma octet6_range d v : octet6 d v -> 0 <= v <= 255.
Proof. intros (_ & Hd & <- & Hm & _). pose proof (dec_val_range d Hd). lia. Qed.

Lemma ipv4_token d : forall fuel pre r bs cur b e,
  Forall (fun c => c <> CH_DOT) d -> (length (d ++ r) < fuel)%nat ->
  exists fuel', (length r < fuel')%nat /\
    ipv4_loop fuel (pre ++ d ++ r) (length pre) bs cur b e =
      match read_byte d b e with
      | None => Ok None
      | Some (v, e') => ipv4_loop fuel' (pre ++ d ++ r) (length (pre ++ d)) bs cur v e'
      end.
Proof.
  induction d as [|c d IH]; intros fuel pre r bs cur b e Hd Hf.
  { exists fuel. cbn [read_byte app]. rewrite app_nil_r. done. }
  apply Forall_cons in Hd as [Hc Hd]. destruct fuel as [|fuel]; [lia|]. cbn [app length] in Hf.
  destruct (IH fuel (pre ++ [c]) r bs cur (default 0 (byte_digit b e (decode_decimal_digit c))) false Hd ltac:(lia))
    as (f' & Hf' & E).
  exists f'. split; [done|]. cbn [ipv4_loop read_byte app].
  rewrite (proj2 (Nat.leb_gt _ _)) by (rewrite !length_app; cbn [length]; lia).
  unfold MemRef_At. rewrite lookup_middle. cbn [of_option mbind outcome_bind].
  rewrite (proj2 (Z.eqb_neq c CH_DOT)) by done.
  destruct (byte_digit b e (decode_decimal_digit c)) as [b'|]; [|done]. change (default 0 (Some b')) with b' in E.
  replace (pre ++ c :: d ++ r) with ((pre ++ [c]) ++ d ++ r) by by rewrite <- app_assoc.
  replace (length pre + 1)%nat with (length (pre ++ [c])) by (rewrite length_app; cbn [length]; lia).
  replace (pre ++ c :: d) with ((pre ++ [c]) ++ d) by by rewrite <- app_assoc.
  exact E.
Qed.

(** What follows the loop: the last byte is stored. *)
Definition store_byte (r : option (list Z * Z * Z * bool)) : outcome (option (list Z)) :=
  match r with
  | None => Ok None
  | Some (bs, cur_byte, byte, empty) =>
      if negb (cur_byte =? 3) || empty then Ok None else
      mem_write bs cur_byte [byte] ≫= fun bs => Ok (Some bs)
  end.

Lemma ipv4_loop_end fuel name i bs cur b e : (0 < fuel)%nat -> i = length name ->
  ipv4_loop fuel name i bs cur b e = Ok (Some (bs, cur, b, e)).
Proof. intros Hf ->. destruct fuel; [lia|]. cbn. by rewrite Nat.leb_refl. Qed.

Lemma ipv4_loop_dot fuel pre r bs cur b e : (0 < fuel)%nat ->
  ipv4_loop fuel (pre ++ CH_DOT :: r) (length pre) bs cur b e =
  if e || (cur =? 3) then Ok None else
  mem_write bs cur [b] ≫= fun bs => ipv4_loop (pred fuel) ((pre ++ [CH_DOT]) ++ r) (length (pre ++ [CH_DOT])) bs (cur + 1) 0 true.
Proof.
  intros Hf. destruct fuel; [lia|]. cbn [ipv4_loop pred].
  rewrite (proj2 (Nat.leb_gt _ _)) by (rewrite !length_app; cbn [length]; lia).
  unfold MemRef_At. rewrite lookup_middle. cbn [of_option mbind outcome_bind]. rewrite Z.eqb_refl, <- app_assoc.
  by rewrite length_app.
Qed.

Definition octet6_read (l : list Z) : option Z :=
  match read_byte l 0 true with Some (v, false) => Some v | _ => None end.

Lemma octet6_read_spec l v : octet6_read l = Some v <-> octet6 l v.
Proof.
  unfold octet6_read. pose proof (read_byte_spec l) as H. destruct (read_byte l 0 true) as [[w e]|].
  - specialize (H w e) as Hw. destruct (proj1 Hw eq_refl) as [(-> & -> & ->)|[Ho ->]].
    + split; [done|]. by intros (? & _).
    + split; [by intros [= <-]|]. intros Hv. assert (Some (w, false) = Some (v, false)) by (apply H; auto). naive_solver.
  - split; [done|]. intros Hv. assert (None = Some (v, false)) by (apply H; auto). done.
Qed.

Lemma ipv4_bytes_step k fuel pre l r bs : (length (l ++ r) < fuel)%nat -> (k <= 3)%nat -> Zlen bs = 4 ->
  Forall (fun x => x <> CH_DOT) l -> r = [] \/ (exists r', r = CH_DOT :: r') ->
  exists fuel', (forall r', r = CH_DOT :: r' -> (length r' < fuel')%nat) /\
  (ipv4_loop fuel (pre ++ l ++ r) (length pre) bs (3 - Z.of_nat k) 0 true ≫= store_byte) =
    match k, r with
    | O, [] => Ok ((fun v => splice bs 3 [v]) <$> octet6_read l)
    | S k', _ :: r' =>
        match octet6_read l with
        | None => Ok None
        | Some v => ipv4_loop fuel' (((pre ++ l) ++ [CH_DOT]) ++ r') (length ((pre ++ l) ++ [CH_DOT]))
                      (splice bs (3 - Z.of_nat k) [v]) (3 - Z.of_nat k') 0 true ≫= store_byte
        end
    | _, _ => Ok None
    end.
Proof.
  intros Hf Hk Hbs Hl Hr. destruct (ipv4_token l fuel pre r bs (3 - Z.of_nat k) 0 true Hl Hf) as (f' & Hf' & ->).
  exists (pred f'). split; [intros r' ->; cbn [length] in Hf'; lia|]. unfold octet6_read.
  destruct (read_byte l 0 true) as [[v e]|] eqn:Hv.
  2: { destruct k, r; done. }
  assert (Hw : mem_write bs (3 - Z.of_nat k) [v] = Ok (splice bs (3 - Z.of_nat k) [v])).
  { apply mem_write_Ok. split; [cbn [length]; lia|done]. }
  destruct Hr as [->|[r' ->]].
  - rewrite app_nil_r, ipv4_loop_end by (done || lia). cbn [mbind outcome_bind store_byte].
    destruct k as [|k].
    + change (3 - Z.of_nat 0) with 3 in *. cbn [Z.eqb Pos.eqb negb orb]. rewrite Hw. by destruct e.
    + by rewrite (proj2 (Z.eqb_neq (3 - Z.of_nat (S k)) 3)) by lia.
  - rewrite (app_assoc pre), ipv4_loop_dot by lia. destruct k as [|k].
    + change (3 - Z.of_nat 0 =? 3) with true. by rewrite orb_true_r.
    + rewrite (proj2 (Z.eqb_neq (3 - Z.of_nat (S k)) 3)), orb_false_r, Hw by lia. destruct e; [done|].
      cbn [mbind outcome_bind]. by replace (3 - Z.of_nat (S k) + 1) with (3 - Z.of_nat k) by lia.
Qed.

(** The loop reads exactly four bytes with dots in between. *)
Lemma ipv4_bytes q pre fuel bs : Zlen bs = 4 -> (length q < fuel)%nat ->
  exists r, (ipv4_loop fuel (pre ++ q) (length pre) bs 0 0 true ≫= store_byte) = Ok r /\
    forall bs', r = Some bs' <-> fields octet6 3 q bs'.
Proof.
  intros Hbs Hf.
  destruct (fields_run octet6 octet6_no_dot (fun x q => (length q < snd x)%nat) octet6_read
    (fun (x : list Z * nat) k q bs => ipv4_loop (snd x) (fst x ++ q) (length (fst x)) bs (3 - Z.of_nat k) 0 true ≫= store_byte)
    octet6_read_spec) with (k := 3%nat) (x := (pre, fuel)) (name := q) (out := bs) as (r & Hr & Hiff); try done.
  - intros [p f] k l r o Hx Hk Ho Hl Hr. destruct (ipv4_bytes_step k f p l r o Hx Hk Ho Hl Hr) as (f' & Hf' & E).
    by exists (((p ++ l) ++ [CH_DOT]), f').
  - exists r. split; [exact Hr|]. intros bs'. rewrite Hiff. change (3 - Z.of_nat 3) with 0. split.
    + intros (b & Hb & ->). rewrite splice_whole; [done|]. rewrite (fields_length _ _ _ _ Hb). lia.
    + intros Hb. exists bs'. split; [done|]. rewrite splice_whole; [done|]. rewrite (fields_length _ _ _ _ Hb). lia.
Qed.

(** ** From one block to the next *)

(** Behind the first loop, by how it was left. *)
Definition finish (name bs0 : list Z) (e : exit) : outcome (option (list Z)) :=
  match e with
  | Reject => Ok None
  | AtEnd s => at_end s
  | Ipv4Ending i s => ipv4_ending name bs0 i s
  end.

Definition run (fuel : nat) (pre rest bs0 : list Z) (s : vars) : outcome (option (list Z)) :=
  scan_loop fuel (pre ++ rest) (length pre) s ≫= finish (pre ++ rest) bs0.

(** The state where a block may begin. *)
Definition boundary (pre : list Z) (nb cp : Z) (B o : list Z) : Prop :=
  written nb B o /\ nb <= 7 /\ (cp = -1 \/ 0 <= cp <= nb) /\
  (pre = [] /\ nb = 0 /\ cp = -1 \/ exists p, pre = p ++ [CH_COLON] /\ (nb <> 0 \/ cp <> -1)).

Notation start nb cp o := (mkVars nb cp 0 true o).
Notation not_sep := (fun c : Z => c <> CH_COLON /\ c <> CH_DOT).

Definition is_colon (r : list Z) : bool := match r with c :: _ => c =? CH_COLON | [] => false end.

Lemma scan_colon fuel P r s : (0 < fuel)%nat ->
  scan_loop fuel (P ++ CH_COLON :: r) (length P) s =
  colon_step (length P) (is_colon r) s ≫= fun r0 =>
  match r0 with
  | None => Ok Reject
  | Some s => scan_loop (pred fuel) (P ++ CH_COLON :: r) (length P + 1 + (if is_colon r then 1 else 0)) s
  end.
Proof.
  intros Hf. destruct fuel; [lia|]. cbn [scan_loop pred].
  rewrite (proj2 (Nat.leb_gt _ _)) by (rewrite !length_app; cbn [length]; lia).
  unfold MemRef_At. rewrite lookup_middle. cbn [of_option mbind outcome_bind].
  change (CH_COLON =? CH_DOT) with false. rewrite Z.eqb_refl. destruct r as [|c r].
  - rewrite (proj2 (Nat.ltb_ge _ _)) by (rewrite !length_app; cbn [length]; lia). done.
  - rewrite (proj2 (Nat.ltb_lt _ _)) by (rewrite !length_app; cbn [length]; lia).
    replace ((P ++ CH_COLON :: c :: r) !! (length P + 1)%nat) with (Some c); [done|].
    rewrite lookup_app_r by lia. by replace (length P + 1 - length P)%nat with 1%nat by lia.
Qed.

Lemma read_group_ok g v : g <> [] -> read_group g 0 = Some v -> group g v.
Proof. intros. by apply group_read. Qed.

(** The text ends. *)
Lemma run_end fuel pre g bs0 nb cp B o : boundary pre nb cp B o -> Forall not_sep g -> (length g < fuel)%nat ->
  exists r, run fuel pre g bs0 (start nb cp o) = Ok r /\
    forall a, r = Some a <->
      g = [] /\ 2 * cp = Zlen B /\ complete cp B a \/ exists v, group g v /\ complete cp (B ++ be v) a.
Proof.
  intros (Hw & Hn & Hcp & Hpre) Hg Hf. unfold run. rewrite <- (app_nil_r g) in Hf.
  destruct (scan_token g fuel pre [] nb cp 0 true o Hg Hf) as (f' & Hf' & E).
  rewrite app_nil_r in E. rewrite E. clear E.
  assert (Hend : forall s, scan_loop f' (pre ++ g) (length (pre ++ g)) s = Ok (AtEnd s)).
  { intros s. destruct f'; [cbn in Hf'; lia|]. cbn. by rewrite Nat.leb_refl. }
  destruct (read_group g 0) as [v|] eqn:Hv.
  2: { eexists; split; [done|]. intros a. split; [done|]. intros [(-> & _)|(v & Hv' & _)]; [done|].
       apply group_read in Hv' as [_ ?]. congruence. }
  rewrite Hend. cbn [mbind outcome_bind finish]. unfold at_end. cbn [empty num_blocks compress_pos out].
  destruct (decide (g = [])) as [->|Hne]; cbn [negb].
  - destruct Hw as (HB & Hw'). destruct (Z.eqb_spec nb cp) as [->|Hnc]; cbn [negb].
    + destruct (ipv4_done_spec cp cp B o) as (r & -> & Hr); [done|lia|lia|].
      exists r. split; [done|]. intros a. rewrite Hr. unfold group. naive_solver lia.
    + eexists; split; [done|]. intros a. unfold group. naive_solver lia.
  - pose proof (read_group_ok g v Hne Hv) as Hgr. destruct g as [|c g]; [done|]. cbn [negb].
    destruct (store_block_spec nb cp v false B o Hw) as (o' & -> & Hw'); [by eapply group_range|lia|].
    cbn [mbind outcome_bind num_blocks compress_pos out].
    destruct (ipv4_done_spec (nb + 1) cp (B ++ be v) o') as (r & -> & Hr); [done|lia|lia|].
    exists r. split; [done|]. intros a. rewrite Hr. split; [eauto|]. intros [(? & _)|(v' & Hv' & Ha)]; [done|].
    apply group_read in Hv' as [_ Hv']. by simplify_eq.
Qed.

Lemma hex_val_bound g : forall n, Forall ishex g -> 0 <= n -> hex_val n g < (n + 1) * 16 ^ Zlen g.
Proof.
  unfold hex_val. induction g as [|c g IH]; intros n Hg Hn; [cbn; lia|].
  apply Forall_cons in Hg as [Hc Hg]. unfold ishex in Hc. pose proof (decode_hex_range c).
  cbn [fold_left length]. rewrite Nat2Z.inj_succ, Z.pow_succ_r by lia.
  assert (0 < 16 ^ Zlen g) by (apply Z.pow_pos_nonneg; lia).
  specialize (IH (16 * n + decode_hex_digit c) Hg ltac:(lia)). nia.
Qed.

(** The first byte of the IPv4 address has been read as a block before. *)
Lemma octet6_group g v : octet6 g v -> exists w, group g w.
Proof.
  intros (Hne & Hd & Hv & Hm & Hz). exists (hex_val 0 g).
  assert (Hh : Forall ishex g).
  { eapply Forall_impl; [exact Hd|]. intros c Hc. cbn in Hc. unfold ishex, decode_hex_digit.
    rewrite !(proj2 (Z.leb_le _ _)) by lia. cbn. lia. }
  split_and!; [done|done|done|]. assert (Hl : Zlen g <= 3).
  { destruct g as [|c g]; [done|]. apply Forall_cons in Hd as [Hc Hd]. cbn [hd] in Hz. cbn [length].
    destruct (decide (c = 48)) as [->|]; [injection (Hz eq_refl) as ->; cbn; lia|].
    rewrite dec_val_cons in Hv. pose proof (dec_val_range g Hd).
    destruct (Z.le_gt_cases (Zlen g) 2) as [|Hg]; [lia|]. exfalso.
    assert (10 ^ 3 <= 10 ^ Zlen g) by (apply Z.pow_le_mono_r; lia). nia. }
  pose proof (hex_val_bound g 0 Hh ltac:(lia)). assert (16 ^ Zlen g <= 16 ^ 3) by (apply Z.pow_le_mono_r; lia).
  unfold UINT16_MAX. lia.
Qed.

(** Behind a colon, with the loop at a dot. *)
Lemma ipv4_ending_spec p g r bs0 nb cp B v o : Zlen bs0 = 4 -> written nb B o -> nb <= 7 ->
  cp = -1 \/ 0 <= cp <= nb -> Forall not_sep g -> nb <> 0 \/ cp <> -1 ->
  exists res, ipv4_ending (p ++ [CH_COLON] ++ g ++ r) bs0 (length (p ++ [CH_COLON] ++ g)) (mkVars nb cp v false o) = Ok res /\
    forall a, res = Some a <-> exists b, fields octet6 3 (g ++ r) b /\ Zlen B <= 12 /\ complete cp (B ++ b) a.
Proof.
  intros Hbs Hw Hn Hcp Hg Hpos. unfold ipv4_ending. cbn [empty num_blocks compress_pos out orb].
  assert (Hp : (nb =? 0) && (cp =? -1) = false) by lia. rewrite Hp, back_to_colon_spec by done.
  cbn [mbind outcome_bind].
  destruct (ipv4_bytes (g ++ r) (p ++ [CH_COLON]) (S (length (p ++ [CH_COLON] ++ g ++ r))) bs0 Hbs)
    as (res & Hres & Hiff); [rewrite !length_app; lia|].
  rewrite <- (app_assoc p) in Hres.
  destruct (ipv4_loop _ _ _ _ _ _ _) as [[[[[bs cur] byte] e]|]|]; cbn [mbind outcome_bind store_byte] in *.
  3: done.
  2: { injection Hres as <-. eexists; split; [done|]. intros a. split; [done|]. intros (b & Hb & _).
       apply Hiff in Hb. done. }
  destruct (negb (cur =? 3) || e).
  { injection Hres as <-. eexists; split; [done|]. intros a. split; [done|]. intros (b & Hb & _).
    apply Hiff in Hb. done. }
  destruct (mem_write bs cur [byte]) as [bs'|]; [|done]. cbn [mbind outcome_bind] in *. injection Hres as <-.
  assert (Hbs' : fields octet6 3 (g ++ r) bs') by by apply Hiff.
  assert (Huniq : forall b, fields octet6 3 (g ++ r) b -> b = bs') by (intros b Hb; apply Hiff in Hb; naive_solver).
  pose proof (fields_length _ _ _ _ Hbs') as Hl. destruct Hw as (HB & Hw').
  destruct (Z.ltb_spec (8 - nb) 2) as [Hlt|Hge].
  { eexists; split; [done|]. intros a. split; [done|]. intros (b & _ & ? & _). lia. }
  destruct (written_append nb B o bs') as (o' & -> & Hw2); [done|lia|rewrite Hl; done|].
  cbn [mbind outcome_bind]. rewrite Hl in Hw2. change (Z.of_nat 4 / 2) with 2 in Hw2.
  destruct (ipv4_done_spec (nb + 2) cp (B ++ bs') o') as (r' & -> & Hr'); [done|lia|lia|].
  exists r'. split; [done|]. intros a. rewrite Hr'. split.
  - intros Ha. exists bs'. split_and!; [done|lia|done].
  - intros (b & Hb & _ & Ha). by rewrite <- (Huniq b Hb).
Qed.

(** A dot comes first. *)
Lemma run_dot fuel pre g r bs0 nb cp B o : Zlen bs0 = 4 -> boundary pre nb cp B o -> Forall not_sep g ->
  (length (g ++ CH_DOT :: r) < fuel)%nat ->
  exists res, run fuel pre (g ++ CH_DOT :: r) bs0 (start nb cp o) = Ok res /\
    forall a, res = Some a <->
      pre <> [] /\ exists b, fields octet6 3 (g ++ CH_DOT :: r) b /\ Zlen B <= 12 /\ complete cp (B ++ b) a.
Proof.
  intros Hbs (Hw & Hn & Hcp & Hpre) Hg Hf. unfold run.
  destruct (scan_token g fuel pre (CH_DOT :: r) nb cp 0 true o Hg Hf) as (f' & Hf' & ->).
  assert (Hno : read_group g 0 = None \/ g = [] -> forall b, ~ fields octet6 3 (g ++ CH_DOT :: r) b).
  { intros Hg0 b Hb. apply fields_dot in Hb as (k' & w & b' & _ & Ho & _); [|exact octet6_no_dot|].
    - destruct (octet6_group g w Ho) as [w' [Hne Hw']%group_read]. naive_solver.
    - eapply Forall_impl; [exact Hg|]. naive_solver. }
  destruct (read_group g 0) as [v|] eqn:Hv.
  2: { eexists; split; [done|]. intros a. split; [done|]. intros (_ & b & Hb & _). by apply Hno in Hb; auto. }
  assert (Hdot : forall s, scan_loop f' (pre ++ g ++ CH_DOT :: r) (length (pre ++ g)) s = Ok (Ipv4Ending (length (pre ++ g)) s)).
  { intros s. destruct f'; [lia|]. cbn [scan_loop]. rewrite app_assoc.
    rewrite (proj2 (Nat.leb_gt _ _)) by (rewrite !length_app; cbn [length]; lia).
    unfold MemRef_At. by rewrite lookup_middle. }
  rewrite Hdot. cbn [mbind outcome_bind finish].
  destruct (decide (g = [])) as [->|Hne].
  { eexists; split; [done|]. intros a. split; [done|]. intros (_ & b & Hb & _). by apply Hno in Hb; auto. }
  replace (match g with [] => true | _ => false end) with false by by destruct g.
  destruct Hpre as [(-> & -> & ->)|(p & -> & Hpos)].
  { eexists; split; [done|]. intros a. split; [done|]. by intros (? & _). }
  destruct (ipv4_ending_spec p g (CH_DOT :: r) bs0 nb cp B v o) as (res & Hres & Hiff); try done.
  rewrite <- !(app_assoc p). exists res. split; [exact Hres|]. intros a. rewrite Hiff.
  split; [intros H; split; [by destruct p|done]|by intros (_ & ?)].
Qed.

(** A colon comes first, single or double. *)
Lemma run_colon fuel pre g r bs0 nb cp B o : boundary pre nb cp B o -> Forall not_sep g ->
  (length (g ++ CH_COLON :: r) < fuel)%nat ->
  pre ++ g <> [] \/ is_colon r = false ->
  let d := is_colon r in
  (run fuel pre (g ++ CH_COLON :: r) bs0 (start nb cp o) = Ok None /\
   forall v, ~ (group g v /\ Zlen B <= 12 /\ (d = true -> cp = -1))) \/
  exists v fuel' o', group g v /\ Zlen B <= 12 /\ (d = true -> cp = -1) /\
    written (nb + 1) (B ++ be v) o' /\ nb + 1 <= 7 /\ (length r < fuel')%nat /\
    run fuel pre (g ++ CH_COLON :: r) bs0 (start nb cp o) =
    scan_loop fuel' (pre ++ g ++ CH_COLON :: r) (length (pre ++ g) + 1 + (if d then 1 else 0))
      (start (nb + 1) (if d then nb + 1 else cp) o') ≫= finish (pre ++ g ++ CH_COLON :: r) bs0.
Proof.
  intros (Hw & Hn & Hcp & Hpre) Hg Hf Hne d. unfold run.
  destruct (scan_token g fuel pre (CH_COLON :: r) nb cp 0 true o Hg Hf) as (f' & Hf' & ->).
  cbn [length] in Hf'. destruct (read_group g 0) as [v|] eqn:Hv.
  2: { left. split; [done|]. intros v ([_ Hv']%group_read & _). congruence. }
  rewrite (app_assoc pre), scan_colon by lia. fold d. unfold colon_step. cbn [empty num_blocks compress_pos block out].
  destruct (decide (g = [])) as [->|Hgne].
  { left. split; [|unfold group; naive_solver]. rewrite app_nil_r in *.
    destruct (Nat.ltb_spec 0 (length pre)) as [Hl|Hl]; [done|]. cbn [mbind outcome_bind].
    destruct Hne as [Hne|Hd]; [destruct pre; [done|cbn in Hl; lia]|]. unfold d. by rewrite Hd. }
  pose proof (read_group_ok g v Hgne Hv) as Hgr.
  replace (match g with [] => true | _ => false end) with false by by destruct g.
  assert (Hlen : (0 <? length (pre ++ g))%nat = true).
  { apply Nat.ltb_lt. rewrite length_app. destruct g; [done|cbn; lia]. }
  rewrite Hlen. cbn [orb]. destruct Hw as (HB & Hw'). destruct (Z.eqb_spec nb 7) as [->|Hn7].
  { left. split; [done|]. intros w (_ & ? & _). lia. }
  destruct (store_block_spec nb cp v false B o) as (o' & -> & Hw''); [done|by eapply group_range|lia|].
  cbn [mbind outcome_bind num_blocks compress_pos out block empty].
  destruct d eqn:Hd.
  - destruct (Z.eqb_spec cp (-1)) as [->|Hc]; cbn [negb].
    + right. exists v, (pred f'), o'. split_and!; try done; try lia.
    + left. split; [done|]. intros w (_ & _ & ?). naive_solver.
  - right. exists v, (pred f'), o'. split_and!; try done; try lia.
Qed.

(** The state behind the colons is a boundary again. *)
Lemma boundary_next P nb cp B o : written nb B o -> 0 < nb <= 7 -> cp = -1 \/ 0 <= cp <= nb ->
  boundary (P ++ [CH_COLON]) nb cp B o.
Proof. intros Hw Hn Hcp. split_and!; [done|lia|done|]. right. exists P. split; [done|lia]. Qed.

Lemma run_single fuel pre g r bs0 s :
  scan_loop fuel (pre ++ g ++ CH_COLON :: r) (length (pre ++ g) + 1 + 0) s ≫= finish (pre ++ g ++ CH_COLON :: r) bs0
  = run fuel ((pre ++ g) ++ [CH_COLON]) r bs0 s.
Proof.
  unfold run. rewrite (length_app (pre ++ g)), Nat.add_0_r. cbn [length].
  replace (((pre ++ g) ++ [CH_COLON]) ++ r) with (pre ++ g ++ CH_COLON :: r) by by rewrite <- !app_assoc. done.
Qed.

Lemma run_twice fuel pre g r bs0 s :
  scan_loop fuel (pre ++ g ++ CH_COLON :: CH_COLON :: r) (length (pre ++ g) + 1 + 1) s
    ≫= finish (pre ++ g ++ CH_COLON :: CH_COLON :: r) bs0
  = run fuel (((pre ++ g) ++ [CH_COLON]) ++ [CH_COLON]) r bs0 s.
Proof.
  unfold run. rewrite (length_app ((pre ++ g) ++ [CH_COLON])), (length_app (pre ++ g)). cbn [length].
  replace ((((pre ++ g) ++ [CH_COLON]) ++ [CH_COLON]) ++ r) with (pre ++ g ++ CH_COLON :: CH_COLON :: r)
    by by rewrite <- !app_assoc. done.
Qed.

Lemma is_colon_true r : is_colon r = true -> exists r', r = CH_COLON :: r'.
Proof. destruct r as [|c r]; [done|]. cbn. intros ->%Z.eqb_eq. eauto. Qed.

(** ** The grammar of what follows a boundary *)

(** [tail cp B rest B' cp']: with the bytes [B] read and the double colon
    behind [cp] blocks, [rest] gives the bytes [B'] and the double colon at
    [cp']. *)
Inductive tail : Z -> list Z -> list Z -> list Z -> Z -> Prop :=
| tail_empty cp B : 2 * cp = Zlen B -> tail cp B [] B cp
| tail_group cp B g v : group g v -> Zlen B <= 14 -> tail cp B g (B ++ be v) cp
| tail_ipv4 cp B q b : fields octet6 3 q b -> Zlen B <= 12 -> tail cp B q (B ++ b) cp
| tail_colon cp B g v r B' cp' : group g v -> Zlen B <= 12 -> is_colon r = false ->
    tail cp (B ++ be v) r B' cp' -> tail cp B (g ++ CH_COLON :: r) B' cp'
| tail_double B g v r B' cp' : group g v -> Zlen B <= 12 ->
    tail (Zlen B / 2 + 1) (B ++ be v) r B' cp' -> tail (-1) B (g ++ CH_COLON :: CH_COLON :: r) B' cp'.

Lemma split_token s : exists g r, s = g ++ r /\ Forall not_sep g /\
  (r = [] \/ (exists r', r = CH_DOT :: r') \/ (exists r', r = CH_COLON :: r')).
Proof.
  induction s as [|c s (g & r & -> & Hg & Hr)]; [exists [], []; auto|].
  destruct (decide (c = CH_COLON)) as [->|]; [exists [], (CH_COLON :: g ++ r); eauto 10|].
  destruct (decide (c = CH_DOT)) as [->|]; [exists [], (CH_DOT :: g ++ r); eauto 10|].
  exists (c :: g), r. auto.
Qed.

(** What the parser accepts is in the grammar, and it always returns. *)
Lemma run_sound n : forall rest fuel pre bs0 nb cp B o, (length rest <= n)%nat -> (length rest < fuel)%nat ->
  Zlen bs0 = 4 -> boundary pre nb cp B o -> pre <> [] \/ is_colon rest = false ->
  exists res, run fuel pre rest bs0 (start nb cp o) = Ok res /\
    forall a, res = Some a -> exists B' cp', tail cp B rest B' cp' /\ complete cp' B' a.
Proof.
  induction n as [|n IH]; intros rest fuel pre bs0 nb cp B o Hl Hf Hbs Hb Hpre;
    destruct (split_token rest) as (g & r & -> & Hg & Hr).
  all: pose proof Hb as ((HB & _) & Hn7 & Hcp & _).
  all: destruct Hr as [->|[[r' ->]|[r' ->]]]; [rewrite app_nil_r in *| |].
  1,4: destruct (run_end fuel pre g bs0 nb cp B o Hb Hg Hf) as (res & -> & Hres); exists res; split; [done|];
    intros a [(-> & Hc & Ha)|(v & Hv & Ha)]%Hres; [exists B, cp; split; [by constructor|done]|
      exists (B ++ be v), cp; split; [constructor; [done|lia]|done]].
  1,3: destruct (run_dot fuel pre g r' bs0 nb cp B o Hbs Hb Hg Hf) as (res & -> & Hres); exists res; split; [done|];
    intros a (_ & b & Hq & HB12 & Ha)%Hres; exists (B ++ b), cp; split; [by constructor|done].
  { rewrite length_app in Hl. cbn [length] in Hl. lia. }
  rewrite length_app in Hl. cbn [length] in Hl.
  assert (Hne : pre ++ g <> [] \/ is_colon r' = false).
  { destruct Hpre as [Hpre|Hpre]; [left; by destruct pre|]. destruct g; [done|]. left. by destruct pre. }
  destruct (run_colon fuel pre g r' bs0 nb cp B o Hb Hg Hf Hne) as [[-> _]|(v & f' & o' & Hv & HB12 & Hd & Hw' & Hn' & Hf' & ->)];
    [eexists; split; [done|]; by intros|].
  destruct (is_colon r') eqn:Hcol.
  - apply is_colon_true in Hcol as [r'' ->]. specialize (Hd eq_refl) as ->. rewrite run_twice. cbn [length] in *.
    destruct (IH r'' f' (((pre ++ g) ++ [CH_COLON]) ++ [CH_COLON]) bs0 (nb + 1) (nb + 1) (B ++ be v) o')
      as (res & -> & Hres); [lia|lia|done|apply boundary_next; lia || done|by left; destruct ((pre ++ g) ++ [CH_COLON])|].
    exists res. split; [done|]. intros a (B' & cp' & Ht & Ha)%Hres. exists B', cp'. split; [|done].
    apply tail_double with v; [done|done|]. rewrite HB. replace (2 * nb / 2 + 1) with (nb + 1); [done|].
    rewrite Z.mul_comm, Z.div_mul by lia. done.
  - rewrite run_single.
    destruct (IH r' f' ((pre ++ g) ++ [CH_COLON]) bs0 (nb + 1) cp (B ++ be v) o')
      as (res & -> & Hres); [lia|lia|done|apply boundary_next; lia || done|by left; destruct (pre ++ g)|].
    exists res. split; [done|]. intros a (B' & cp' & Ht & Ha)%Hres. exists B', cp'. split; [|done].
    by apply tail_colon with v.
Qed.

(** What is in the grammar is accepted. *)
Lemma run_complete cp B rest B' cp' : tail cp B rest B' cp' -> forall fuel pre bs0 nb o a, (length rest < fuel)%nat ->
  Zlen bs0 = 4 -> boundary pre nb cp B o -> complete cp' B' a ->
  run fuel pre rest bs0 (start nb cp o) = Ok (Some a).
Proof.
  induction 1 as [cp B Hc|cp B g v Hv HB|cp B q b Hq HB|cp B g v r B' cp' Hv HB Hr _ IH|B g v r B' cp' Hv HB _ IH];
    intros fuel pre bs0 nb o a Hf Hbs Hb Ha.
  - destruct (run_end fuel pre [] bs0 nb cp B o Hb) as (res & -> & Hres); [constructor|done|]. f_equal. apply Hres. auto.
  - destruct (run_end fuel pre g bs0 nb cp B o Hb) as (res & -> & Hres); [by eapply group_not_sep|done|]. f_equal.
    apply Hres. eauto.
  - inversion Hq as [|k s v r b' Hs Hr]; subst.
    destruct (octet6_group s v Hs) as [w Hw].
    destruct (run_dot fuel pre s r bs0 nb cp B o Hbs Hb) as (res & -> & Hres); [by eapply group_not_sep|done|].
    f_equal. apply Hres. split; [|eauto]. intros ->. destruct Hb as (Hwr & _ & _ & [(_ & -> & ->)|(p & ? & _)]); [|by destruct p].
    destruct Hwr as (HB0 & _). apply fields_length in Hq. destruct Ha as [(_ & Hl & _)|(? & _)]; [|lia].
    rewrite length_app in Hl. cbn [length] in *. lia.
  - pose proof Hb as ((HBn & _) & _ & Hcp & _).
    destruct (run_colon fuel pre g r bs0 nb cp B o Hb) as [[_ Hno]|(w & f' & o' & Hw & _ & _ & Hw' & Hn' & Hf' & ->)];
      [by eapply group_not_sep|done|by right|by destruct (Hno v); rewrite Hr|].
    rewrite Hr. rewrite run_single. assert (w = v) as -> by (destruct Hw as (_ & _ & <- & _), Hv as (_ & _ & <- & _); done).
    apply IH; [done|done|apply boundary_next; lia || done|done].
  - pose proof Hb as ((HBn & _) & _ & Hcp & _).
    destruct (run_colon fuel pre g (CH_COLON :: r) bs0 nb (-1) B o Hb)
      as [[_ Hno]|(w & f' & o' & Hw & _ & _ & Hw' & Hn' & Hf' & ->)];
      [by eapply group_not_sep|done|left; destruct Hv as [? _]; by destruct pre, g|by destruct (Hno v)|].
    cbn [is_colon]. rewrite Z.eqb_refl, run_twice.
    assert (w = v) as -> by (destruct Hw as (_ & _ & <- & _), Hv as (_ & _ & <- & _); done).
    assert (HB2 : Zlen B / 2 + 1 = nb + 1) by (rewrite HBn, Z.mul_comm, Z.div_mul by lia; done).
    rewrite HB2 in IH. apply IH; [cbn [length] in Hf'; lia|done|apply boundary_next; lia || done|done].
Qed.

(** The loop from its start: a double colon in front is read at once. *)
Definition accepts (name a : list Z) : Prop :=
  exists B cp, complete cp B a /\
    (tail (-1) [] name B cp \/ exists r, name = CH_COLON :: CH_COLON :: r /\ tail 0 [] r B cp).

Lemma boundary_start o : Zlen o = 16 -> boundary [] 0 (-1) [] o.
Proof. intros Ho. split_and!; [split_and!; [done|done|by exists o]|lia|by left|by left]. Qed.

Lemma group_no_colon g v r : group g v -> is_colon (g ++ r) = false.
Proof.
  intros Hg. destruct g as [|c g]; [by destruct Hg as [? _]|].
  apply group_not_sep, Forall_cons in Hg as [[Hc _] _]. cbn. by apply Z.eqb_neq.
Qed.

Lemma group_no_colon_end g v : group g v -> is_colon g = false.
Proof. rewrite <- (app_nil_r g) at 2. apply group_no_colon. Qed.

Lemma fields_no_colon q k b : fields octet6 k q b -> is_colon q = false.
Proof.
  destruct 1 as [d v Hd|k d v r b Hd _]; apply octet6_group in Hd as [w Hw];
    [by eapply group_no_colon_end|by eapply group_no_colon].
Qed.

Lemma ending_no_colon s b : ending s b -> is_colon s = false.
Proof. destruct 1; eauto using group_no_colon, group_no_colon_end, fields_no_colon. Qed.

Lemma tail_no_colon cp B r B' cp' : tail cp B r B' cp' -> is_colon r = false.
Proof. destruct 1; eauto using group_no_colon, group_no_colon_end, fields_no_colon. Qed.

Lemma parse_accepts name o bs0 : Zlen o = 16 -> Zlen bs0 = 4 ->
  exists res, ipaddr6_parse_ipv6_addr name o bs0 = Ok res /\ forall a, res = Some a <-> accepts name a.
Proof.
  intros Ho Hbs. change (ipaddr6_parse_ipv6_addr name o bs0) with (run (S (length name)) [] name bs0 (start 0 (-1) o)).
  destruct (is_colon name) eqn:Hc.
  - pose proof (fun B cp (H : tail (-1) [] name B cp) => eq_trans (eq_sym Hc) (tail_no_colon _ _ _ _ _ H)) as Hno.
    apply is_colon_true in Hc as [r ->]. unfold run. cbn [app]. rewrite (scan_colon _ [] r) by lia.
    destruct (is_colon r) eqn:Hc2.
    + apply is_colon_true in Hc2 as [r' ->].
      assert (Hb : boundary [CH_COLON; CH_COLON] 0 0 [] o).
      { split_and!; [split_and!; [done|done|by exists o]|lia|right; lia|right]. exists [CH_COLON]. split; [done|lia]. }
      assert (E : forall f, scan_loop f (CH_COLON :: CH_COLON :: r') 2 (start 0 0 o) ≫= finish (CH_COLON :: CH_COLON :: r') bs0
        = run f [CH_COLON; CH_COLON] r' bs0 (start 0 0 o)) by done.
      cbn [colon_step length Nat.ltb Nat.leb negb mbind outcome_bind pred compress_pos num_blocks block empty out].
      change (0 + 1 + 1)%nat with 2%nat. change (negb (-1 =? -1)) with false. cbn [mbind outcome_bind]. cbn [app]. rewrite E.
      destruct (run_sound (length r') r' (S (S (length r'))) [CH_COLON; CH_COLON] bs0 0 0 [] o) as (res & Eq & Hres);
        [lia|lia|done|done|by left|].
      exists res. split; [exact Eq|]. intros a. split; [intros (B & cp & Ht & Ha)%Hres; exists B, cp; eauto|].
      intros (B & cp & Ha & [Ht|(r & [= <-] & Ht)]); [by apply Hno in Ht|].
      pose proof (run_complete _ _ _ _ _ Ht (S (S (length r'))) [CH_COLON; CH_COLON] bs0 0 o a) as H.
      rewrite Eq in H. cut (Ok res = Ok (Some a)); [by intros [= ->]|]. by apply H; [lia| | |].
    + exists None. split; [done|]. intros a. split; [done|].
      intros (B & cp & _ & [Ht|(r' & [= ->] & _)]); [by apply Hno in Ht|done].
  - destruct (run_sound (length name) name (S (length name)) [] bs0 0 (-1) [] o) as (res & E & Hres);
      [lia|lia|done|by apply boundary_start|by right|].
    exists res. split; [done|]. intros a. split; [intros (B & cp & Ht & Ha)%Hres; exists B, cp; auto|].
    intros (B & cp & Ha & [Ht|(r & -> & _)]); [|done].
    pose proof (run_complete _ _ _ _ _ Ht (S (length name)) [] bs0 0 o a) as H.
    rewrite E in H. cut (Ok res = Ok (Some a)); [by intros [= ->]|]. apply H; [lia|done|by apply boundary_start|done].
Qed.

(** ** The loop accepts the texts of the grammar *)

Lemma ending_length s b : ending s b -> 2 <= Zlen b /\ exists n, Zlen b = 2 * n.
Proof.
  induction 1 as [g v _|q b Hq|g v r b _ _ [IH [n Hn]]]; cbn [be].
  - split; [cbn; lia|by exists 1].
  - apply fields_length in Hq. rewrite Hq. split; [lia|by exists 2].
  - rewrite length_app. cbn [be length]. split; [lia|exists (n + 1); lia].
Qed.

Lemma groups_length s b : groups s b -> 2 <= Zlen b /\ exists n, Zlen b = 2 * n.
Proof.
  induction 1 as [g v _|g v r b _ _ [IH [n Hn]]].
  - split; [cbn; lia|by exists 1].
  - rewrite length_app. cbn [be length]. split; [lia|exists (n + 1); lia].
Qed.

(** Behind the double colon. *)
Lemma tail_after cp B r B' cp' : tail cp B r B' cp' -> 0 <= cp -> 2 * cp <= Zlen B ->
  cp' = cp /\ exists bt, B' = B ++ bt /\
    (r = [] /\ bt = [] /\ 2 * cp = Zlen B \/ ending r bt /\ Zlen B + Zlen bt <= 16).
Proof.
  induction 1 as [cp B Hc|cp B g v Hv HB|cp B q b Hq HB|cp B g v r B' cp' Hv HB Hr _ IH|B g v r B' cp' Hv HB _ IH];
    intros H0 Hcp.
  - split; [done|]. exists []. rewrite app_nil_r. auto.
  - split; [done|]. exists (be v). split; [done|right]. split; [by constructor|cbn; lia].
  - split; [done|]. exists b. split; [done|right]. split; [by constructor|]. apply fields_length in Hq. lia.
  - rewrite length_app in IH. cbn [be length] in IH.
    destruct IH as (-> & bt & -> & Hbt); [lia|lia|]. split; [done|]. exists (be v ++ bt). rewrite app_assoc.
    split; [done|right]. destruct Hbt as [(_ & _ & ?)|[Hbt Hl]]; [lia|].
    split; [by constructor|]. rewrite length_app. cbn [be length]. lia.
  - lia.
Qed.

(** In front of it. *)
Lemma tail_before B r B' cp' : tail (-1) B r B' cp' -> (exists n, Zlen B = 2 * n) ->
  (cp' = -1 /\ exists bt, B' = B ++ bt /\ ending r bt) \/
  exists p bp t bt, r = p ++ CH_COLON :: CH_COLON :: t /\ groups p bp /\ 2 * cp' = Zlen B + Zlen bp /\
    Zlen B + Zlen bp <= 14 /\ B' = B ++ bp ++ bt /\
    (t = [] /\ bt = [] \/ ending t bt /\ Zlen B + Zlen bp + Zlen bt <= 16).
Proof.
  remember (-1) as cp eqn:E.
  induction 1 as [cp B Hc|cp B g v Hv HB|cp B q b Hq HB|cp B g v r B' cp' Hv HB Hr _ IH|B g v r B' cp' Hv HB Ht _];
    intros [n Hn]; subst.
  - lia.
  - left. split; [done|]. exists (be v). split; [done|by constructor].
  - left. split; [done|]. exists b. split; [done|by constructor].
  - destruct IH as [(-> & bt & -> & Hbt)|(p & bp & t & bt & -> & Hp & Hc & H14 & -> & Hbt)]; [done|..].
    + exists (n + 1). rewrite length_app. cbn [be length]. lia.
    + left. split; [done|]. exists (be v ++ bt). split; [by rewrite app_assoc|by constructor].
    + right. rewrite length_app in *. cbn [be length] in *. exists (g ++ CH_COLON :: p), (be v ++ bp), t, bt.
      rewrite !length_app, <- !app_assoc. cbn [be length app].
      split_and!; [done|by apply (groups_more g v p bp)|lia|lia|done|].
      destruct Hbt as [?|[??]]; [by left|right]. split; [done|lia].
  - assert (HB2 : 2 * (Zlen B / 2 + 1) = Zlen B + 2) by (rewrite Hn, (Z.mul_comm 2 n), Z.div_mul; lia).
    apply tail_after in Ht as (-> & bt & -> & Hbt); [|lia|rewrite length_app; cbn [be length]; lia].
    right. rewrite length_app in Hbt. cbn [be length] in Hbt.
    exists g, (be v), r, bt. cbn [be length]. rewrite <- app_assoc.
    split_and!; [done|by constructor|lia|lia|done|]. destruct Hbt as [(? & ? & _)|[??]]; [by left|right]. split; [done|lia].
Qed.

Lemma ending_tail t bt : ending t bt -> forall cp B, Zlen B + Zlen bt <= 16 -> tail cp B t (B ++ bt) cp.
Proof.
  induction 1 as [g v Hg|q b Hq|g v r b Hg Hr IH]; intros cp B Hl.
  - constructor; [done|]. cbn in Hl. lia.
  - apply fields_length in Hq as Hl4. constructor; [done|lia].
  - rewrite length_app in Hl. cbn [be length] in Hl. pose proof (ending_length r b Hr).
    apply tail_colon with v; [done|lia|by eapply ending_no_colon|].
    rewrite app_assoc. apply IH. rewrite length_app. cbn [be length]. lia.
Qed.

Lemma groups_tail p bp : groups p bp -> forall B t B' cp' , Zlen B + Zlen bp <= 14 ->
  tail ((Zlen B + Zlen bp) / 2) (B ++ bp) t B' cp' -> (exists n, Zlen B = 2 * n) ->
  tail (-1) B (p ++ CH_COLON :: CH_COLON :: t) B' cp'.
Proof.
  induction 1 as [g v Hg|g v r b Hg Hr IH]; intros B t B' cp' Hl Ht [n Hn].
  - apply tail_double with v; [done|cbn in Hl; lia|]. replace (Zlen B / 2 + 1) with ((Zlen B + Zlen (be v)) / 2); [done|].
    cbn [be length]. change (Z.of_nat 2) with (1 * 2). by rewrite Z.div_add by lia.
  - rewrite length_app in *. cbn [be length] in *. pose proof (groups_length r b Hr).
    rewrite <- app_assoc. cbn [app]. apply tail_colon with v; [done|lia| |].
    + inversion Hr; subst; [by eapply group_no_colon|]. rewrite <- app_assoc. by eapply group_no_colon.
    + apply IH; rewrite length_app; cbn [be length]; [lia| |exists (n + 1); lia].
      rewrite <- app_assoc. refine (eq_rect _ (fun c => tail c _ _ _ _) Ht _ _). f_equal. lia.
Qed.

Lemma accepts_text s a : accepts s a <-> ipv6_text s a.
Proof.
  split.
  - intros (B & cp & Ha & [Ht|(r & -> & Ht)]).
    + destruct (tail_before _ _ _ _ Ht) as [(-> & bt & -> & Hbt)|(p & bp & t & bt & -> & Hp & Hc & H14 & -> & Hbt)];
        [by exists 0| |].
      * destruct Ha as [(_ & Hl & ->)|[? _]]; [|lia]. by apply text_full.
      * destruct Ha as [(-> & _)|(_ & ->)]; [lia|]. cbn [app length] in *. rewrite length_app.
        rewrite take_app_le, take_ge, drop_app_ge by lia. replace (_ - length bp)%nat with 0%nat by lia. rewrite drop_0.
        replace (16 - Z.of_nat (length bp + length bt)) with (16 - Zlen bp - Zlen bt) by lia.
        apply text_short; [by right|destruct Hbt as [?|[? _]]; auto|lia|].
        destruct Hbt as [(_ & ->)|[_ ?]]; cbn; lia.
    + apply tail_after in Ht as (-> & bt & -> & Hbt); [|lia|done].
      destruct Ha as [(? & _)|(_ & ->)]; [done|]. cbn [app Z.mul Z.to_nat take drop].
      rewrite <- (Z.sub_0_r 16), <- (app_nil_l (replicate _ _ ++ _)).
      apply (text_short [] [] r bt); [by left|naive_solver|done|destruct Hbt as [(_ & -> & _)|[_ ?]]; cbn; lia].
  - intros [s' a' He Hl|p bp t bt Hp Ht H14 H16].
    + exists a', (-1). split; [by left|left]. apply (ending_tail s' a' He (-1) []). cbn. lia.
    + exists (bp ++ bt), (Zlen bp / 2).
      assert (Hev : exists n, Zlen bp = 2 * n) by (destruct Hp as [(_ & ->)|Hp]; [by exists 0|by eapply groups_length]).
      destruct Hev as [n Hn]. assert (Hd : Zlen bp / 2 = n) by (rewrite Hn, Z.mul_comm, Z.div_mul by lia; done).
      assert (Htail : tail (Zlen bp / 2) bp t (bp ++ bt) (Zlen bp / 2)).
      { destruct Ht as [(-> & ->)|Ht]; [rewrite app_nil_r; constructor; lia|by apply ending_tail]. }
      split.
      * right. split; [lia|]. rewrite length_app, take_app_le, take_ge, drop_app_ge by lia.
        replace (_ - length bp)%nat with 0%nat by lia. rewrite drop_0. do 3 f_equal. lia.
      * destruct Hp as [(-> & ->)|Hp]; [right; exists t; done|left].
        apply (groups_tail p bp Hp []); [cbn; lia|exact Htail|by exists 0].
Qed.

(** C18: the parser of IPv6 addresses. Whatever the text, and whatever was in
    the caller's sixteen bytes and in the local bytes before, it returns, reads
    only the text and writes only these bytes; and it accepts exactly the texts
    of the grammar, with the address they denote. *)
Theorem ipaddr6_parse_exact name out_addr bs0 : Zlen out_addr = 16 -> Zlen bs0 = 4 ->
  exists r, ipaddr6_parse_ipv6_addr name out_addr bs0 = Ok r /\ forall a, r = Some a <-> ipv6_text name a.
Proof.
  intros Ho Hbs. destruct (parse_accepts name out_addr bs0 Ho Hbs) as (r & E & Hr).
  exists r. split; [done|]. intros a. by rewrite Hr, accepts_text.
Qed.

Lemma ipaddr6_parse_exact_witness :
  exists a, ipv6_text [58; 58; 49; 46; 50; 46; 51; 46; 52] a /\ a = replicate 12 0 ++ [1; 2; 3; 4].
Proof.
  destruct (ipaddr6_parse_exact [58; 58; 49; 46; 50; 46; 51; 46; 52] (replicate 16 7) (replicate 4 7)) as (r & E & Hr);
    [reflexivity|reflexivity|].
  vm_compute in E. injection E as <-. eexists. split; [by apply Hr|reflexivity].
Defined.

(** ** The printed text *)

(** [T] has been printed at the start of the buffer [buf0]. *)
Definition printed (buf0 T buf : list Z) : Prop := buf = splice buf0 0 (T ++ [0]) \/ T = [] /\ buf = buf0.

Lemma splice_text buf0 T s : Zlen T + Zlen s < Zlen buf0 ->
  splice (splice buf0 0 (T ++ [0])) (Zlen T) (s ++ [0]) = splice buf0 0 ((T ++ s) ++ [0]).
Proof.
  intros H. assert (Hl : length (splice buf0 0 (T ++ [0])) = length buf0).
  { apply length_splice; [lia|rewrite length_app; cbn [length]; lia]. }
  apply list_eq. intros i. rewrite !lookup_splice; rewrite ?Hl, ?length_app; cbn [length]; try lia.
  change (Z.to_nat 0) with 0%nat. rewrite !Nat.sub_0_r.
  repeat case_decide; try lia; try done.
  - rewrite <- app_assoc, (lookup_app_r T) by lia. f_equal. lia.
  - by rewrite <- app_assoc, !(lookup_app_l T) by lia.
Qed.

Lemma sprintf_spec buf0 T buf s : printed buf0 T buf -> Zlen T + Zlen s < Zlen buf0 ->
  sprintf buf (Zlen T) s = Ok (splice buf0 0 ((T ++ s) ++ [0]), Zlen (T ++ s)).
Proof.
  intros Hb H. unfold sprintf.
  assert (Hl : length buf = length buf0).
  { destruct Hb as [->|[_ ->]]; [|done]. apply length_splice; [lia|rewrite length_app; cbn [length]; lia]. }
  rewrite (proj2 (mem_write_Ok buf (Zlen T) (s ++ [0]) _)) by (split; [rewrite length_app; cbn [length]; lia|done]).
  cbn [mbind outcome_bind]. do 2 f_equal; [|rewrite length_app; lia].
  destruct Hb as [->|[-> ->]]; [by apply splice_text|done].
Qed.

Lemma sprintf_printed buf0 T buf s : printed buf0 T buf -> Zlen T + Zlen s < Zlen buf0 ->
  exists buf', sprintf buf (Zlen T) s = Ok (buf', Zlen (T ++ s)) /\ printed buf0 (T ++ s) buf'.
Proof. intros Hb H. eexists. split; [by apply sprintf_spec|by left]. Qed.

Definition blocks_text (fmt : nat -> Z -> list Z) (b : list Z) (i n : nat) : list Z :=
  concat (map (fun j => fmt j (block_at b j)) (seq i n)).

Lemma print_blocks_printed buf0 b fmt n : forall i T buf, printed buf0 T buf ->
  Zlen T + Zlen (blocks_text fmt b i n) < Zlen buf0 ->
  exists buf', print_blocks n i b fmt buf (Zlen T) = Ok (buf', Zlen (T ++ blocks_text fmt b i n)) /\
    printed buf0 (T ++ blocks_text fmt b i n) buf'.
Proof.
  induction n as [|n IH]; intros i T buf Hb H; cbn [print_blocks].
  { exists buf. unfold blocks_text. cbn. by rewrite app_nil_r. }
  unfold blocks_text in *. cbn [seq map concat] in *. rewrite length_app in H.
  destruct (sprintf_printed buf0 T buf (fmt i (block_at b i)) Hb) as (buf1 & -> & Hb1); [lia|].
  cbn [mbind outcome_bind]. rewrite app_assoc. apply IH; [done|rewrite length_app; lia].
Qed.

(** The longest run of zero blocks is one. *)
Definition zeros (b : list Z) (i j : Z) : Prop :=
  forall k, i <= k < j -> nth (Z.to_nat (2 * k)) b 0 = 0 /\ nth (Z.to_nat (2 * k + 1)) b 0 = 0.

Lemma largest_loop_spec n : forall b i ls ll cs cl r,
  i + Z.of_nat n = 8 -> 0 <= cs -> cs + cl = i -> 0 <= cl -> zeros b cs i ->
  0 <= ls -> 0 <= ll -> ls + ll <= i -> zeros b ls (ls + ll) ->
  largest_loop n b i ls ll cs cl = r ->
  0 <= fst r /\ 0 <= snd r /\ fst r + snd r <= 8 /\ zeros b (fst r) (fst r + snd r).
Proof.
  induction n as [|n IH]; intros b i ls ll cs cl r Hi Hcs Hc Hcl Hz Hls Hll Hl Hzl; cbn [largest_loop].
  { intros <-. cbn. split_and!; [lia|lia|lia|done]. }
  destruct (_ && _) eqn:E0.
  - zify_bool. assert (Hz' : zeros b cs (i + 1)).
    { intros k Hk. destruct (decide (k = i)) as [->|]; [done|]. apply Hz. lia. }
    case_if; apply IH; try lia; try done. replace (cs + (cl + 1)) with (i + 1) by lia. done.
  - apply IH; try lia; try done. intros k Hk. lia.
Qed.

(** Blocks joined by colons. *)
Definition colon_after (_ : nat) (v : Z) : list Z := fmt_hex v ++ [CH_COLON].
Definition colon_before (_ : nat) (v : Z) : list Z := CH_COLON :: fmt_hex v.
Definition colon_between (i : nat) (v : Z) : list Z := (if (i =? 0)%nat then [] else [CH_COLON]) ++ fmt_hex v.

Fixpoint joined (b : list Z) (i n : nat) : list Z :=
  match n with
  | O => []
  | S O => fmt_hex (block_at b i)
  | S n => fmt_hex (block_at b i) ++ CH_COLON :: joined b (S i) n
  end.

Lemma blocks_text_before b n : forall i, blocks_text colon_before b i (S n) = CH_COLON :: joined b i (S n).
Proof.
  induction n as [|n IH]; intros i; [by unfold blocks_text; cbn; rewrite app_nil_r|].
  change (blocks_text colon_before b i (S (S n))) with (CH_COLON :: fmt_hex (block_at b i) ++ blocks_text colon_before b (S i) (S n)).
  by rewrite IH.
Qed.

Lemma blocks_text_after b n : forall i, blocks_text colon_after b i (S n) = joined b i (S n) ++ [CH_COLON].
Proof.
  induction n as [|n IH]; intros i; [by unfold blocks_text; cbn; rewrite app_nil_r|].
  change (blocks_text colon_after b i (S (S n))) with ((fmt_hex (block_at b i) ++ [CH_COLON]) ++ blocks_text colon_after b (S i) (S n)).
  change (joined b i (S (S n))) with (fmt_hex (block_at b i) ++ CH_COLON :: joined b (S i) (S n)).
  by rewrite IH, <- !app_assoc.
Qed.

Lemma blocks_text_between b n i : (0 < i)%nat -> blocks_text colon_between b i n = blocks_text colon_before b i n.
Proof.
  intros Hi. unfold blocks_text. f_equal. apply map_ext_in. intros j Hj%in_seq. unfold colon_between, colon_before.
  by rewrite (proj2 (Nat.eqb_neq j 0)) by lia.
Qed.

Definition hex_char (d : Z) : Z := if d <? 10 then 48 + d else 87 + d.

Lemma decode_hex_char d : 0 <= d < 16 -> decode_hex_digit (hex_char d) = d.
Proof.
  intros Hd. apply Z.eqb_eq. by apply (all_below 16 (fun d => decode_hex_digit (hex_char d) =? d)).
Qed.

Lemma digits16_app fuel : forall n acc, digits fuel 16 n acc = digits fuel 16 n [] ++ acc.
Proof.
  induction fuel as [|fuel IH]; intros n acc; [done|]. cbn [digits]. case_if; [done|].
  rewrite (IH _ [_]), (IH _ (_ :: acc)), <- app_assoc. done.
Qed.

Lemma digits16_spec fuel : forall n, 0 <= n < 16 ^ Z.of_nat (S fuel) ->
  digits (S fuel) 16 n [] <> [] /\ Forall ishex (digits (S fuel) 16 n []) /\ hex_val 0 (digits (S fuel) 16 n []) = n.
Proof.
  unfold hex_val, ishex. induction fuel as [|fuel IH]; intros n Hn.
  - change (16 ^ Z.of_nat 1) with 16 in Hn. cbn [digits]. rewrite (proj2 (Z.ltb_lt n 16)) by lia.
    change (if n <? 10 then 48 + n else 87 + n) with (hex_char n).
    split_and!; [done|repeat constructor; rewrite decode_hex_char; lia|cbn; rewrite decode_hex_char; lia].
  - rewrite Nat2Z.inj_succ, Z.pow_succ_r in Hn by lia. set (f := S fuel) in *. cbn [digits]. case_if.
    + change (if n <? 10 then 48 + n else 87 + n) with (hex_char n).
      split_and!; [done|repeat constructor; rewrite decode_hex_char; lia|cbn; rewrite decode_hex_char; lia].
    + pose proof (Z.mod_pos_bound n 16 ltac:(lia)) as Hm.
      change (if n mod 16 <? 10 then 48 + n mod 16 else 87 + n mod 16) with (hex_char (n mod 16)).
      rewrite digits16_app. destruct (IH (n / 16)) as (H1 & H2 & H3).
      { split; [apply Z.div_pos; lia|apply Z.div_lt_upper_bound; lia]. }
      split_and!.
      * by destruct (digits f 16 (n / 16) []).
      * apply Forall_app. split; [done|]. repeat constructor. rewrite decode_hex_char; lia.
      * rewrite fold_left_app, H3. cbn. rewrite decode_hex_char by lia. pose proof (Z.div_mod n 16). lia.
Qed.

Lemma fmt_hex_group v : 0 <= v < 65536 -> group (fmt_hex v) v.
Proof.
  intros Hv. destruct (digits16_spec 3 v) as (H1 & H2 & H3); [done|]. split_and!; [exact H1|exact H2|exact H3|].
  unfold UINT16_MAX. lia.
Qed.

Lemma block_at_be b i : bytes b -> 0 <= block_at b i < 65536 /\ be (block_at b i) = [nth (2 * i) b 0; nth (2 * i + 1) b 0].
Proof.
  intros Hb. unfold block_at, be. pose proof (bytes_lookup b (2 * i) Hb). pose proof (bytes_lookup b (2 * i + 1) Hb).
  set (x := nth (2 * i) b 0) in *. set (y := nth (2 * i + 1) b 0) in *.
  assert (E : Z.lor (Z.shiftl x 8) y = x * 256 + y).
  { pose proof (Z.add_lor_land (x * 2 ^ 8) y) as Hs. rewrite Z.shiftl_mul_pow2 by lia.
    cut (Z.land (x * 2 ^ 8) y = 0); [lia|]. apply Z.bits_inj'. intros k Hk. rewrite Z.land_spec, Z.bits_0.
    destruct (Z.lt_ge_cases k 8); [by rewrite Z.mul_pow2_bits_low|].
    rewrite (Z.bits_above_log2 y k), andb_false_r; [done|lia|].
    destruct (decide (y = 0)) as [->|]; [cbn; lia|]. apply Z.log2_lt_pow2; [lia|].
    assert (2 ^ 8 <= 2 ^ k) by (apply Z.pow_le_mono_r; lia). lia. }
  rewrite E. split; [lia|]. rewrite Z.div_add_l, (Z.div_small y), (Z.add_comm (x * 256)), Z.mod_add, Z.mod_small by lia.
  f_equal. lia.
Qed.

(** The bytes of the blocks [i], ..., [i + n - 1]. *)
Definition block_bytes (b : list Z) (i n : nat) : list Z := take (2 * n) (drop (2 * i) b).

Lemma drop_nth (b : list Z) i : (i < length b)%nat -> drop i b = nth i b 0 :: drop (S i) b.
Proof.
  revert i. induction b as [|x b IH]; intros [|i] H; cbn in *; try lia; [done|]. apply IH. lia.
Qed.

Lemma block_bytes_cons b i n : (2 * (i + S n) <= length b)%nat ->
  block_bytes b i (S n) = [nth (2 * i) b 0; nth (2 * i + 1) b 0] ++ block_bytes b (S i) n.
Proof.
  intros H. unfold block_bytes. rewrite (drop_nth b (2 * i)), (drop_nth b (S (2 * i))) by lia.
  replace (2 * S n)%nat with (S (S (2 * n))) by lia. replace (2 * S i)%nat with (S (S (2 * i))) by lia.
  by replace (2 * i + 1)%nat with (S (2 * i)) by lia.
Qed.

Lemma joined_groups b : bytes b -> forall n i, (2 * (i + S n) <= length b)%nat ->
  groups (joined b i (S n)) (block_bytes b i (S n)).
Proof.
  intros Hb. induction n as [|n IH]; intros i Hl; rewrite block_bytes_cons by lia;
    destruct (block_at_be b i Hb) as [Hr <-]; apply fmt_hex_group in Hr.
  - unfold block_bytes. cbn [Nat.mul take]. rewrite app_nil_r. by apply groups_one.
  - apply (groups_more _ _ (joined b (S i) (S n))); [done|]. apply IH. lia.
Qed.

Lemma groups_ending s b : groups s b -> ending s b.
Proof. induction 1; by econstructor. Qed.

Lemma joined_length b : bytes b -> forall n i, Zlen (joined b i n) <= 5 * Z.of_nat n - (if (n =? 0)%nat then 0 else 1).
Proof.
  intros Hb. induction n as [|[|n] IH]; intros i; [cbn; lia| |].
  - pose proof (fmt_hex_length (block_at b i)). cbn [joined Nat.eqb]. lia.
  - pose proof (fmt_hex_length (block_at b i)). specialize (IH (S i)).
    change (joined b i (S (S n))) with (fmt_hex (block_at b i) ++ CH_COLON :: joined b (S i) (S n)).
    rewrite length_app. cbn [length Nat.eqb] in *. lia.
Qed.

(** The text of an address. *)
Definition addr_text (b : list Z) : list Z :=
  let '(ls, ll) := largest_loop 8 b 0 0 0 0 0 in
  if 1 <? ll then
    joined b 0 (Z.to_nat ls) ++ [CH_COLON; CH_COLON] ++ joined b (Z.to_nat (ls + ll)) (Z.to_nat (8 - (ls + ll)))
  else joined b 0 8.

Lemma zeros_bytes b i j : length b = 16%nat -> 0 <= i <= j -> j <= 8 -> zeros b i j ->
  b = block_bytes b 0 (Z.to_nat i) ++ replicate (Z.to_nat (2 * (j - i))) 0 ++ block_bytes b (Z.to_nat j) (Z.to_nat (8 - j)).
Proof.
  intros Hl Hij Hj Hz. unfold block_bytes. cbn [Nat.mul drop].
  rewrite <- (take_drop (2 * Z.to_nat i) b) at 1. f_equal.
  rewrite <- (take_drop (Z.to_nat (2 * (j - i))) (drop (2 * Z.to_nat i) b)) at 1. f_equal.
  - apply list_eq. intros k. destruct (decide (k < Z.to_nat (2 * (j - i)))%nat) as [Hk|Hk].
    + rewrite lookup_take_lt, lookup_drop, lookup_replicate_2 by done.
      destruct (lookup_lt_is_Some_2 b (2 * Z.to_nat i + k)) as [x Hx]; [lia|]. rewrite Hx. cut (x = 0); [by intros ->|].
      apply nth_lookup_Some with (d := 0) in Hx. rewrite <- Hx. clear Hx x.
      destruct (Hz (i + Z.of_nat k / 2)) as [H0 H1]; [pose proof (Z.div_mod (Z.of_nat k) 2); pose proof (Z.mod_pos_bound (Z.of_nat k) 2); lia|].
      pose proof (Z.div_mod (Z.of_nat k) 2 ltac:(lia)) as Hd. pose proof (Z.mod_pos_bound (Z.of_nat k) 2 ltac:(lia)) as Hm.
      destruct (decide (Z.of_nat k mod 2 = 0)).
      * etrans; [|exact H0]. f_equal. lia.
      * etrans; [|exact H1]. f_equal. lia.
    + rewrite lookup_take_ge, lookup_ge_None_2 by (rewrite ?length_replicate; lia). done.
  - rewrite drop_drop, take_ge by (rewrite length_drop; lia). f_equal. lia.
Qed.

Lemma largest_range b : let r := largest_loop 8 b 0 0 0 0 0 in
  0 <= fst r /\ 0 <= snd r /\ fst r + snd r <= 8 /\ zeros b (fst r) (fst r + snd r).
Proof. apply (largest_loop_spec 8 b 0 0 0 0 0); try lia; try done; intros k Hk; lia. Qed.

Lemma addr_text_length b : bytes b -> Zlen (addr_text b) <= 39.
Proof.
  intros Hb. unfold addr_text. pose proof (largest_range b) as Hr.
  destruct (largest_loop 8 b 0 0 0 0 0) as [ls ll]. cbn [fst snd] in Hr. case_if.
  - rewrite !length_app. cbn [length].
    pose proof (joined_length b Hb (Z.to_nat ls) 0). pose proof (joined_length b Hb (Z.to_nat (8 - (ls + ll))) (Z.to_nat (ls + ll))).
    repeat case_match; lia.
  - pose proof (joined_length b Hb 8 0) as H. cbn [Nat.eqb] in H. lia.
Qed.

(** The text of an address denotes it. *)
Lemma addr_text_denotes b : bytes b -> length b = 16%nat -> ipv6_text (addr_text b) b.
Proof.
  intros Hb Hl. unfold addr_text. pose proof (largest_range b) as Hr.
  destruct (largest_loop 8 b 0 0 0 0 0) as [ls ll]. cbn [fst snd] in Hr. destruct Hr as (H1 & H2 & H3 & Hz).
  destruct (Z.ltb_spec 1 ll) as [Hll|Hll].
  - pose proof (zeros_bytes b ls (ls + ll) Hl ltac:(lia) H3 Hz) as Eb.
    set (bp := block_bytes b 0 (Z.to_nat ls)) in *. set (bt := block_bytes b (Z.to_nat (ls + ll)) _) in *.
    assert (Lp : Zlen bp = 2 * ls) by (unfold bp, block_bytes; rewrite length_take, length_drop; lia).
    assert (Lt : Zlen bt = 2 * (8 - (ls + ll))) by (unfold bt, block_bytes; rewrite length_take, length_drop; lia).
    refine (eq_rect _ (ipv6_text _) _ _ (eq_sym Eb)). replace (2 * (ls + ll - ls)) with (16 - Zlen bp - Zlen bt) by lia.
    apply text_short; [| |lia|lia].
    + destruct (Z.to_nat ls) as [|n] eqn:En; [left|right; apply joined_groups; [done|lia]].
      split; [done|]. by unfold bp, block_bytes.
    + destruct (Z.to_nat (8 - (ls + ll))) as [|n] eqn:En; [left|right; apply groups_ending, joined_groups; [done|lia]].
      split; [done|]. by unfold bt, block_bytes.
  - apply text_full; [|lia]. pose proof (joined_groups b Hb 7 0 ltac:(lia)) as Hg.
    unfold block_bytes in Hg. rewrite drop_0, take_ge in Hg by lia. by apply groups_ending.
Qed.

(** The part in front of the double colon with its first colon, and the second
    colon with the part behind. *)
Lemma print_front buf b n e : e = (n =? 0)%nat -> Zlen (joined b 0 n) + 1 < Zlen buf ->
  exists buf', (print_blocks n 0 b colon_after buf 0 ≫= fun '(buf, p) =>
                if e : bool then sprintf buf p [CH_COLON] else Ok (buf, p))
    = Ok (buf', Zlen (joined b 0 n ++ [CH_COLON])) /\ printed buf (joined b 0 n ++ [CH_COLON]) buf'.
Proof.
  intros -> H. destruct n as [|n].
  - cbn [print_blocks mbind outcome_bind Nat.eqb joined app].
    apply (sprintf_printed buf [] buf [CH_COLON]); [by right|cbn in *; lia].
  - cbn [Nat.eqb]. destruct (print_blocks_printed buf b colon_after (S n) 0 [] buf) as (buf' & E & Hp);
      [by right|rewrite blocks_text_after, length_app; cbn [length] in *; lia|].
    cbn [app length] in E, Hp. change (Z.of_nat 0) with 0 in E. rewrite E. cbn [mbind outcome_bind].
    rewrite blocks_text_after in *. eauto.
Qed.

Lemma print_back buf T buf1 b i n e : e = (n =? 0)%nat -> printed buf T buf1 ->
  Zlen T + Zlen (joined b i n) + 1 < Zlen buf ->
  exists buf', (print_blocks n i b colon_before buf1 (Zlen T) ≫= fun '(buf, p) =>
                if e : bool then sprintf buf p [CH_COLON] else Ok (buf, p))
    = Ok (buf', Zlen (T ++ CH_COLON :: joined b i n)) /\ printed buf (T ++ CH_COLON :: joined b i n) buf'.
Proof.
  intros -> Hp H. destruct n as [|n].
  - cbn [print_blocks mbind outcome_bind Nat.eqb joined app].
    apply (sprintf_printed buf T buf1 [CH_COLON]); [done|cbn [joined length] in *; lia].
  - cbn [Nat.eqb]. destruct (print_blocks_printed buf b colon_before (S n) i T buf1) as (buf' & E & Hp');
      [done|rewrite blocks_text_before; cbn [length] in *; lia|].
    rewrite E. cbn [mbind outcome_bind]. rewrite blocks_text_before in *. eauto.
Qed.

(** What [ipaddr6_print_addr] writes. *)
Lemma print_addr_spec b buf : bytes b -> length b = 16%nat -> 40 <= Zlen buf ->
  ipaddr6_print_addr b buf = Ok (splice buf 0 (addr_text b ++ [0]), Zlen (addr_text b)).
Proof.
  intros Hb Hl Hbuf. pose proof (addr_text_length b Hb) as Ht. unfold ipaddr6_print_addr, addr_text in *.
  pose proof (largest_range b) as Hr.
  destruct (largest_loop 8 b 0 0 0 0 0) as [ls ll]. cbn [fst snd] in Hr. destruct Hr as (H1 & H2 & H3 & _).
  assert (Hfin : forall T buf', T <> [] -> printed buf T buf' -> buf' = splice buf 0 (T ++ [0])).
  { intros T buf' HT [->|[? _]]; done. }
  destruct (Z.ltb_spec 1 ll) as [Hll|Hll].
  - rewrite !length_app in Ht. cbn [length] in Ht.
    destruct (print_front buf b (Z.to_nat ls) (ls =? 0)) as (buf1 & E1 & Hp1); [|lia|].
    { destruct (Z.eqb_spec ls 0), (Nat.eqb_spec (Z.to_nat ls) 0); lia || done. }
    destruct (print_back buf _ buf1 b (Z.to_nat (ls + ll)) (Z.to_nat (8 - (ls + ll))) (ls + ll =? 8) ltac:(
      destruct (Z.eqb_spec (ls + ll) 8), (Nat.eqb_spec (Z.to_nat (8 - (ls + ll))) 0); lia || done) Hp1) as (buf2 & E2 & Hp2);
      [rewrite length_app; cbn [length]; lia|].
    change (fun (_ : nat) v => fmt_hex v ++ [CH_COLON]) with colon_after.
    change (fun (_ : nat) v => CH_COLON :: fmt_hex v) with colon_before.
    destruct (print_blocks (Z.to_nat ls) 0 b colon_after buf 0) as [[bufx px]|]; [|done].
    cbn [mbind outcome_bind] in *. rewrite E1. cbn [mbind outcome_bind]. rewrite <- app_assoc in E2, Hp2.
    pose proof (fun HT => Hfin _ _ HT Hp2) as Hb2.
    etrans; [exact E2|]. rewrite Hb2 by by destruct (joined b 0 (Z.to_nat ls)). done.
  - assert (Et : blocks_text colon_between b 0 8 = joined b 0 8).
    { change (blocks_text colon_between b 0 8) with (fmt_hex (block_at b 0) ++ blocks_text colon_between b 1 7).
      by rewrite blocks_text_between, (blocks_text_before b 6) by lia. }
    destruct (print_blocks_printed buf b colon_between 8 0 [] buf) as (buf' & E & Hp);
      [by right|rewrite Et; cbn [length] in *; lia|].
    change (fun (i : nat) v => (if (i =? 0)%nat then [] else [CH_COLON]) ++ fmt_hex v) with colon_between.
    cbn [app] in E, Hp. rewrite Et in E, Hp. change (Zlen []) with 0 in E. rewrite E. do 2 f_equal.
    apply Hfin; [|done]. destruct (fmt_hex_group (block_at b 0)) as [Hne _]; [by apply block_at_be|].
    cbn [joined]. by destruct (fmt_hex (block_at b 0)).
Qed.

Lemma joined_no_slash b n : bytes b -> forall i, Forall (fun c => c <> 47) (joined b i n).
Proof.
  intros Hb. assert (Hf : forall i, Forall (fun c => c <> 47) (fmt_hex (block_at b i))).
  { intros i. destruct (block_at_be b i Hb) as [Hr _]. destruct (fmt_hex_group _ Hr) as (_ & Hh & _).
    eapply Forall_impl; [exact Hh|]. intros c Hc ->. unfold ishex in Hc. cbn in Hc. lia. }
  induction n as [|[|n] IH]; intros i; [constructor|apply Hf|].
  change (joined b i (S (S n))) with (fmt_hex (block_at b i) ++ CH_COLON :: joined b (S i) (S n)).
  apply Forall_app. split; [apply Hf|]. constructor; [done|apply IH].
Qed.

Lemma addr_text_no_slash b : bytes b -> Forall (fun c => c <> 47) (addr_text b).
Proof.
  intros Hb. unfold addr_text. destruct (largest_loop _ _ _ _ _ _ _) as [ls ll].
  pose proof (fun n => joined_no_slash b n Hb) as H.
  destruct (1 <? ll); [|apply H]. repeat (apply Forall_app; split); [apply H|by repeat constructor|apply H].
Qed.

Lemma ipv6_text_length s a : ipv6_text s a -> Zlen a = 16.
Proof. destruct 1; [done|]. rewrite !length_app, length_replicate. lia. Qed.

(** C19: IPv6 addresses as text. The printed form of an interface address fits
    in [IPADDR6_PRINT_MAX] bytes with its terminating zero, whatever was in the
    buffer, and the parser gives the same address and prefix back. *)
Theorem ipaddr6_print_parse b p buf o bs0 :
  bytes b -> length b = 16%nat -> 0 <= p <= 128 -> IPADDR6_PRINT_MAX <= Zlen buf ->
  Zlen (addr6 o) = 16 -> Zlen bs0 = 4 ->
  exists s, ipaddr6_print_ifaddr (mkIfaddr6 b p) buf = Ok (splice buf 0 (s ++ [0]), Zlen s) /\
    Zlen (s ++ [0]) <= IPADDR6_PRINT_MAX /\
    ipaddr6_parse_ipv6_ifaddr s bs0 o = Ok (Some (mkIfaddr6 b p)).
Proof.
  unfold IPADDR6_PRINT_MAX. intros Hb Hl Hp Hbuf Ho Hbs. pose proof (addr_text_length b Hb) as Ht.
  destruct (octet_fmt_dec p ltac:(lia)) as [Hlp _].
  exists (addr_text b ++ 47 :: fmt_dec p). split_and!.
  - unfold ipaddr6_print_ifaddr. cbn [addr6 prefix6]. rewrite (proj2 (Z.leb_le 0 p)), (proj2 (Z.leb_le p 128)) by lia.
    cbn [ASSERT mbind outcome_bind]. rewrite print_addr_spec by (done || lia). cbn [mbind outcome_bind].
    apply sprintf_spec; [by left|cbn [length]; lia].
  - rewrite !length_app. cbn [length]. lia.
  - unfold ipaddr6_parse_ipv6_ifaddr. rewrite FindChar_app by by apply addr_text_no_slash.
    unfold MemRef_SubTo, MemRef_SubFrom. rewrite length_app, !(proj2 (Nat.leb_le _ _)) by (cbn [length]; lia).
    cbn [ASSERT mbind outcome_bind]. rewrite take_app_length.
    destruct (parse_accepts (addr_text b) (addr6 o) bs0 Ho Hbs) as (r & -> & Hr).
    rewrite (proj2 (Hr b)) by by apply accepts_text, addr_text_denotes. cbn [mbind outcome_bind].
    set (d := addr_text b). rewrite (drop_app_ge d _ (length d + 1)) by lia.
    replace (length d + 1 - length d)%nat with 1%nat by lia. change (drop 1 (47 :: fmt_dec p)) with (fmt_dec p).
    unfold ipaddr6_parse_ipv6_prefix. rewrite unsigned_fmt_dec, (proj2 (Z.ltb_ge _ _)) by lia. done.
Qed.

Lemma ipaddr6_print_parse_witness :
  exists s, ipaddr6_print_ifaddr (mkIfaddr6 (38 :: replicate 14 0 ++ [1]) 126) (replicate 44 7) = Ok (splice (replicate 44 7) 0 (s ++ [0]), Zlen s) /\
    ipaddr6_parse_ipv6_ifaddr s (replicate 4 7) (mkIfaddr6 (replicate 16 7) 7) = Ok (Some (mkIfaddr6 (38 :: replicate 14 0 ++ [1]) 126)).
Proof.
  destruct (ipaddr6_print_parse (38 :: replicate 14 0 ++ [1]) 126 (replicate 44 7) (mkIfaddr6 (replicate 16 7) 7) (replicate 4 7))
    as (s & H1 & _ & H2); [repeat constructor; unfold is_byte; lia|reflexivity|lia|vm_compute; congruence|reflexivity|reflexivity|].
  exists s. split; [exact H1|exact H2].
Defined.

(** The prefix of the mask of a prefix. *)
Lemma mask6_prefix p m0 : 0 <= p <= 128 -> length m0 = 16%nat ->
  exists m, ipaddr6_ipv6_mask_from_prefix p m0 = Ok m /\ ipaddr6_ipv6_prefix_from_mask m = Some p.
Proof.
  intros Hp Hl. do 16 (destruct m0 as [|? m0]; [done|]). destruct m0; [|done]. clear Hl.
  match goal with |- context [ipaddr6_ipv6_mask_from_prefix _ ?m] => set (m0 := m) end.
  pose (f p := match ipaddr6_ipv6_mask_from_prefix p m0 with
               | Ok m => match ipaddr6_ipv6_prefix_from_mask m with Some q => q =? p | None => false end
               | Fault => false
               end).
  assert (H : f p = true) by (apply (all_below 129 f); [vm_compute; reflexivity|lia]).
  unfold f in H. destruct (ipaddr6_ipv6_mask_from_prefix p m0) as [m|]; [|done]. exists m. split; [done|].
  destruct (ipaddr6_ipv6_prefix_from_mask m); [|done]. zify_bool. by subst.
Qed.

End IpAddr6.
