(* ===== verification/Options.v ===== *)
(** * The options of tun2socks (tun2socks/tun2socks.c, misc/loglevel.h, base/BLog.h)

    The command line of the Android build and the channels of the logger.
    Strings are lists of characters. The value that [atoi] gives for a number
    that does not fit in an [int], which C leaves undefined, is a parameter. *)
From Stdlib Require Import ZArith Lia String Ascii.
From stdpp Require Import base tactics numbers option list.
From S2P Require Import Prelude LinkedList Bavl ByteOrder Addr Base64.

Module Options.
Import Base64(chars).
Import BAddr(strtol).

Notation str := (list Z) (only parsing).

(** [!strcmp(s, lit)] *)
Definition streq (s : str) (lit : string) : bool := bool_decide (s = chars lit).

(** ** Channels and levels of the logger *)
Definition BLOG_ERROR : Z := 1.
Definition BLOG_WARNING : Z := 2.
Definition BLOG_NOTICE : Z := 3.
Definition BLOG_INFO : Z := 4.
Definition BLOG_DEBUG : Z := 5.
Definition BLOG_NUM_CHANNELS : Z := 147.

(** The names and levels of generated/blog_channels_list.h. *)
Definition blog_channel_list : list (string * Z) :=
  [("server", 4); ("client", 4); ("flooder", 4); ("tun2socks", 4); ("ncd", 4); ("ncd_var", 4);
   ("ncd_list", 4); ("ncd_depend", 4); ("ncd_multidepend", 4); ("ncd_dynamic_depend", 4); ("ncd_concat", 4);
   ("ncd_if", 4); ("ncd_strcmp", 4); ("ncd_regex_match", 4); ("ncd_logical", 4); ("ncd_sleep", 4);
   ("ncd_print", 4); ("ncd_blocker", 4); ("ncd_run", 4); ("ncd_runonce", 4); ("ncd_daemon", 4);
   ("ncd_spawn", 4); ("ncd_imperative", 4); ("ncd_ref", 4); ("ncd_index", 4); ("ncd_alias", 4);
   ("ncd_process_manager", 4); ("ncd_ondemand", 4); ("ncd_foreach", 4); ("ncd_choose", 4);
   ("ncd_net_backend_waitdevice", 4); ("ncd_net_backend_waitlink", 4); ("ncd_net_backend_badvpn", 4);
   ("ncd_net_backend_wpa_supplicant", 4); ("ncd_net_backend_rfkill", 4); ("ncd_net_up", 4);
   ("ncd_net_dns", 4); ("ncd_net_iptables", 4); ("ncd_net_ipv4_addr", 4); ("ncd_net_ipv4_route", 4);
   ("ncd_net_ipv4_dhcp", 4); ("ncd_net_ipv4_arp_probe", 4); ("ncd_net_watch_interfaces", 4);
   ("ncd_sys_watch_input", 4); ("ncd_sys_watch_usb", 4); ("ncd_sys_evdev", 4);
   ("ncd_sys_watch_directory", 4); ("StreamPeerIO", 4); ("DatagramPeerIO", 4); ("BReactor", 3);
   ("BSignal", 3); ("FragmentProtoAssembler", 4); ("BPredicate", 3); ("ServerConnection", 4);
   ("Listener", 4); ("DataProto", 4); ("FrameDecider", 4); ("BSocksClient", 4); ("BDHCPClientCore", 4);
   ("BDHCPClient", 4); ("NCDIfConfig", 4); ("BUnixSignal", 4); ("BProcess", 4); ("PRStreamSink", 4);
   ("PRStreamSource", 4); ("PacketProtoDecoder", 4); ("DPRelay", 4); ("BThreadWork", 4); ("DPReceive", 4);
   ("BInputProcess", 4); ("NCDUdevMonitorParser", 4); ("NCDUdevMonitor", 4); ("NCDUdevCache", 4);
   ("NCDUdevManager", 4); ("BTime", 4); ("BEncryption", 4); ("SPProtoDecoder", 4); ("LineBuffer", 4);
   ("BTap", 4); ("lwip", 4); ("NCDConfigTokenizer", 4); ("NCDConfigParser", 4); ("NCDValParser", 4);
   ("nsskey", 4); ("addr", 4); ("PasswordListener", 4); ("NCDInterfaceMonitor", 4); ("NCDRfkillMonitor", 4);
   ("udpgw", 4); ("UdpGwClient", 4); ("SocksUdpGwClient", 4); ("BNetwork", 4); ("BConnection", 4);
   ("BSSLConnection", 4); ("BDatagram", 4); ("PeerChat", 4); ("BArpProbe", 4); ("NCDModuleIndex", 4);
   ("NCDModuleProcess", 4); ("NCDValGenerator", 4); ("ncd_from_string", 4); ("ncd_to_string", 4);
   ("ncd_value", 4); ("ncd_try", 4); ("ncd_sys_request_server", 4); ("NCDRequest", 4);
   ("ncd_net_ipv6_wait_dynamic_addr", 4); ("NCDRequestClient", 4); ("ncd_request", 4);
   ("ncd_sys_request_client", 4); ("ncd_exit", 4); ("ncd_getargs", 4); ("ncd_arithmetic", 4);
   ("ncd_parse", 4); ("ncd_valuemetic", 4); ("ncd_file", 4); ("ncd_netmask", 4); ("ncd_implode", 4);
   ("ncd_call2", 4); ("ncd_assert", 4); ("ncd_reboot", 4); ("ncd_explode", 4); ("NCDPlaceholderDb", 4);
   ("NCDVal", 4); ("ncd_net_ipv6_addr", 4); ("ncd_net_ipv6_route", 4); ("ncd_net_ipv4_addr_in_network", 4);
   ("ncd_net_ipv6_addr_in_network", 4); ("dostest_server", 4); ("dostest_attacker", 4); ("ncd_timer", 4);
   ("ncd_file_open", 4); ("ncd_backtrack", 4); ("ncd_socket", 4); ("ncd_depend_scope", 4); ("ncd_substr", 4);
   ("ncd_sys_start_process", 4); ("NCDBuildProgram", 4); ("ncd_log", 4); ("ncd_log_msg", 4);
   ("ncd_buffer", 4); ("ncd_getenv", 4); ("BThreadSignal", 4); ("BLockReactor", 4); ("ncd_load_module", 4);
   ("ncd_basic_functions", 4); ("ncd_objref", 4)]%string.

(** The loop, [i] being the number of the first channel of [l]. *)
Fixpoint channel_loop (l : list (string * Z)) (i : Z) (channel_name : str) : Z :=
  match l with
  | [] => -1
  | (name, _) :: l => if streq channel_name name then i else channel_loop l (i + 1) channel_name
  end.

Definition BLogGlobal_GetChannelByName (channel_name : str) : Z := channel_loop blog_channel_list 0 channel_name.

Definition parse_loglevel (s : str) : Z :=
  if streq s "none" then 0
  else if streq s "error" then BLOG_ERROR
  else if streq s "warning" then BLOG_WARNING
  else if streq s "notice" then BLOG_NOTICE
  else if streq s "info" then BLOG_INFO
  else if streq s "debug" then BLOG_DEBUG
  else
    let '(res, endptr) := strtol s in
    if negb (bool_decide (s = [])) && bool_decide (endptr = []) && (0 <=? res) && (res <=? BLOG_DEBUG) then res else -1.

(** ** The options *)
Definition LOGGER_STDOUT : Z := 1.
Definition LOGGER_SYSLOG : Z := 2.
Definition DEFAULT_UDPGW_MAX_CONNECTIONS : Z := 256.
Definition DEFAULT_UDPGW_CONNECTION_BUFFER_SIZE : Z := 8.

(** [None] is a null pointer. *)
Record options := mkOptions {
  help : bool;
  version : bool;
  logger : Z;
  logger_syslog_facility : str;
  logger_syslog_ident : str;
  loglevel : Z;
  loglevels : list Z;
  netif_ipaddr : option str;
  netif_netmask : option str;
  netif_ip6addr : option str;
  socks_server_addr : option str;
  username : option str;
  password : option str;
  password_file : option str;
  append_source_to_username : bool;
  udpgw_remote_server_addr : option str;
  udpgw_max_connections : Z;
  udpgw_connection_buffer_size : Z;
  udpgw_transparent_dns : bool;
  tun_mtu : Z;
  fake_proc : bool;
  sock_path : option str;
  pid : option str;
  dnsgw : option str }.

Definition set_help (v : bool) (o : options) : options :=
  mkOptions v (version o) (logger o) (logger_syslog_facility o) (logger_syslog_ident o) (loglevel o)
    (loglevels o) (netif_ipaddr o) (netif_netmask o) (netif_ip6addr o) (socks_server_addr o) (username o)
    (password o) (password_file o) (append_source_to_username o) (udpgw_remote_server_addr o)
    (udpgw_max_connections o) (udpgw_connection_buffer_size o) (udpgw_transparent_dns o) (tun_mtu o)
    (fake_proc o) (sock_path o) (pid o) (dnsgw o).
Definition set_version (v : bool) (o : options) : options :=
  mkOptions (help o) v (logger o) (logger_syslog_facility o) (logger_syslog_ident o) (loglevel o) (loglevels o)
    (netif_ipaddr o) (netif_netmask o) (netif_ip6addr o) (socks_server_addr o) (username o) (password o)
    (password_file o) (append_source_to_username o) (udpgw_remote_server_addr o) (udpgw_max_connections o)
    (udpgw_connection_buffer_size o) (udpgw_transparent_dns o) (tun_mtu o) (fake_proc o) (sock_path o) (pid o)
    (dnsgw o).
Definition set_logger (v : Z) (o : options) : options :=
  mkOptions (help o) (version o) v (logger_syslog_facility o) (logger_syslog_ident o) (loglevel o) (loglevels o)
    (netif_ipaddr o) (netif_netmask o) (netif_ip6addr o) (socks_server_addr o) (username o) (password o)
    (password_file o) (append_source_to_username o) (udpgw_remote_server_addr o) (udpgw_max_connections o)
    (udpgw_connection_buffer_size o) (udpgw_transparent_dns o) (tun_mtu o) (fake_proc o) (sock_path o) (pid o)
    (dnsgw o).
Definition set_logger_syslog_facility (v : str) (o : options) : options :=
  mkOptions (help o) (version o) (logger o) v (logger_syslog_ident o) (loglevel o) (loglevels o)
    (netif_ipaddr o) (netif_netmask o) (netif_ip6addr o) (socks_server_addr o) (username o) (password o)
    (password_file o) (append_source_to_username o) (udpgw_remote_server_addr o) (udpgw_max_connections o)
    (udpgw_connection_buffer_size o) (udpgw_transparent_dns o) (tun_mtu o) (fake_proc o) (sock_path o) (pid o)
    (dnsgw o).
Definition set_logger_syslog_ident (v : str) (o : options) : options :=
  mkOptions (help o) (version o) (logger o) (logger_syslog_facility o) v (loglevel o) (loglevels o)
    (netif_ipaddr o) (netif_netmask o) (netif_ip6addr o) (socks_server_addr o) (username o) (password o)
    (password_file o) (append_source_to_username o) (udpgw_remote_server_addr o) (udpgw_max_connections o)
    (udpgw_connection_buffer_size o) (udpgw_transparent_dns o) (tun_mtu o) (fake_proc o) (sock_path o) (pid o)
    (dnsgw o).
Definition set_loglevel (v : Z) (o : options) : options :=
  mkOptions (help o) (version o) (logger o) (logger_syslog_facility o) (logger_syslog_ident o) v (loglevels o)
    (netif_ipaddr o) (netif_netmask o) (netif_ip6addr o) (socks_server_addr o) (username o) (password o)
    (password_file o) (append_source_to_username o) (udpgw_remote_server_addr o) (udpgw_max_connections o)
    (udpgw_connection_buffer_size o) (udpgw_transparent_dns o) (tun_mtu o) (fake_proc o) (sock_path o) (pid o)
    (dnsgw o).
Definition set_loglevels (v : list Z) (o : options) : options :=
  mkOptions (help o) (version o) (logger o) (logger_syslog_facility o) (logger_syslog_ident o) (loglevel o) v
    (netif_ipaddr o) (netif_netmask o) (netif_ip6addr o) (socks_server_addr o) (username o) (password o)
    (password_file o) (append_source_to_username o) (udpgw_remote_server_addr o) (udpgw_max_connections o)
    (udpgw_connection_buffer_size o) (udpgw_transparent_dns o) (tun_mtu o) (fake_proc o) (sock_path o) (pid o)
    (dnsgw o).
Definition set_fake_proc (v : bool) (o : options) : options :=
  mkOptions (help o) (version o) (logger o) (logger_syslog_facility o) (logger_syslog_ident o) (loglevel o)
    (loglevels o) (netif_ipaddr o) (netif_netmask o) (netif_ip6addr o) (socks_server_addr o) (username o)
    (password o) (password_file o) (append_source_to_username o) (udpgw_remote_server_addr o)
    (udpgw_max_connections o) (udpgw_connection_buffer_size o) (udpgw_transparent_dns o) (tun_mtu o) v
    (sock_path o) (pid o) (dnsgw o).
Definition set_tun_mtu (v : Z) (o : options) : options :=
  mkOptions (help o) (version o) (logger o) (logger_syslog_facility o) (logger_syslog_ident o) (loglevel o)
    (loglevels o) (netif_ipaddr o) (netif_netmask o) (netif_ip6addr o) (socks_server_addr o) (username o)
    (password o) (password_file o) (append_source_to_username o) (udpgw_remote_server_addr o)
    (udpgw_max_connections o) (udpgw_connection_buffer_size o) (udpgw_transparent_dns o) v (fake_proc o)
    (sock_path o) (pid o) (dnsgw o).
Definition set_dnsgw (v : option str) (o : options) : options :=
  mkOptions (help o) (version o) (logger o) (logger_syslog_facility o) (logger_syslog_ident o) (loglevel o)
    (loglevels o) (netif_ipaddr o) (netif_netmask o) (netif_ip6addr o) (socks_server_addr o) (username o)
    (password o) (password_file o) (append_source_to_username o) (udpgw_remote_server_addr o)
    (udpgw_max_connections o) (udpgw_connection_buffer_size o) (udpgw_transparent_dns o) (tun_mtu o)
    (fake_proc o) (sock_path o) (pid o) v.
Definition set_sock_path (v : option str) (o : options) : options :=
  mkOptions (help o) (version o) (logger o) (logger_syslog_facility o) (logger_syslog_ident o) (loglevel o)
    (loglevels o) (netif_ipaddr o) (netif_netmask o) (netif_ip6addr o) (socks_server_addr o) (username o)
    (password o) (password_file o) (append_source_to_username o) (udpgw_remote_server_addr o)
    (udpgw_max_connections o) (udpgw_connection_buffer_size o) (udpgw_transparent_dns o) (tun_mtu o)
    (fake_proc o) v (pid o) (dnsgw o).
Definition set_pid (v : option str) (o : options) : options :=
  mkOptions (help o) (version o) (logger o) (logger_syslog_facility o) (logger_syslog_ident o) (loglevel o)
    (loglevels o) (netif_ipaddr o) (netif_netmask o) (netif_ip6addr o) (socks_server_addr o) (username o)
    (password o) (password_file o) (append_source_to_username o) (udpgw_remote_server_addr o)
    (udpgw_max_connections o) (udpgw_connection_buffer_size o) (udpgw_transparent_dns o) (tun_mtu o)
    (fake_proc o) (sock_path o) v (dnsgw o).
Definition set_netif_ipaddr (v : option str) (o : options) : options :=
  mkOptions (help o) (version o) (logger o) (logger_syslog_facility o) (logger_syslog_ident o) (loglevel o)
    (loglevels o) v (netif_netmask o) (netif_ip6addr o) (socks_server_addr o) (username o) (password o)
    (password_file o) (append_source_to_username o) (udpgw_remote_server_addr o) (udpgw_max_connections o)
    (udpgw_connection_buffer_size o) (udpgw_transparent_dns o) (tun_mtu o) (fake_proc o) (sock_path o) (pid o)
    (dnsgw o).
Definition set_netif_netmask (v : option str) (o : options) : options :=
  mkOptions (help o) (version o) (logger o) (logger_syslog_facility o) (logger_syslog_ident o) (loglevel o)
    (loglevels o) (netif_ipaddr o) v (netif_ip6addr o) (socks_server_addr o) (username o) (password o)
    (password_file o) (append_source_to_username o) (udpgw_remote_server_addr o) (udpgw_max_connections o)
    (udpgw_connection_buffer_size o) (udpgw_transparent_dns o) (tun_mtu o) (fake_proc o) (sock_path o) (pid o)
    (dnsgw o).
Definition set_netif_ip6addr (v : option str) (o : options) : options :=
  mkOptions (help o) (version o) (logger o) (logger_syslog_facility o) (logger_syslog_ident o) (loglevel o)
    (loglevels o) (netif_ipaddr o) (netif_netmask o) v (socks_server_addr o) (username o) (password o)
    (password_file o) (append_source_to_username o) (udpgw_remote_server_addr o) (udpgw_max_connections o)
    (udpgw_connection_buffer_size o) (udpgw_transparent_dns o) (tun_mtu o) (fake_proc o) (sock_path o) (pid o)
    (dnsgw o).
Definition set_socks_server_addr (v : option str) (o : options) : options :=
  mkOptions (help o) (version o) (logger o) (logger_syslog_facility o) (logger_syslog_ident o) (loglevel o)
    (loglevels o) (netif_ipaddr o) (netif_netmask o) (netif_ip6addr o) v (username o) (password o)
    (password_file o) (append_source_to_username o) (udpgw_remote_server_addr o) (udpgw_max_connections o)
    (udpgw_connection_buffer_size o) (udpgw_transparent_dns o) (tun_mtu o) (fake_proc o) (sock_path o) (pid o)
    (dnsgw o).
Definition set_username (v : option str) (o : options) : options :=
  mkOptions (help o) (version o) (logger o) (logger_syslog_facility o) (logger_syslog_ident o) (loglevel o)
    (loglevels o) (netif_ipaddr o) (netif_netmask o) (netif_ip6addr o) (socks_server_addr o) v (password o)
    (password_file o) (append_source_to_username o) (udpgw_remote_server_addr o) (udpgw_max_connections o)
    (udpgw_connection_buffer_size o) (udpgw_transparent_dns o) (tun_mtu o) (fake_proc o) (sock_path o) (pid o)
    (dnsgw o).
Definition set_password (v : option str) (o : options) : options :=
  mkOptions (help o) (version o) (logger o) (logger_syslog_facility o) (logger_syslog_ident o) (loglevel o)
    (loglevels o) (netif_ipaddr o) (netif_netmask o) (netif_ip6addr o) (socks_server_addr o) (username o) v
    (password_file o) (append_source_to_username o) (udpgw_remote_server_addr o) (udpgw_max_connections o)
    (udpgw_connection_buffer_size o) (udpgw_transparent_dns o) (tun_mtu o) (fake_proc o) (sock_path o) (pid o)
    (dnsgw o).
Definition set_password_file (v : option str) (o : options) : options :=
  mkOptions (help o) (version o) (logger o) (logger_syslog_facility o) (logger_syslog_ident o) (loglevel o)
    (loglevels o) (netif_ipaddr o) (netif_netmask o) (netif_ip6addr o) (socks_server_addr o) (username o)
    (password o) v (append_source_to_username o) (udpgw_remote_server_addr o) (udpgw_max_connections o)
    (udpgw_connection_buffer_size o) (udpgw_transparent_dns o) (tun_mtu o) (fake_proc o) (sock_path o) (pid o)
    (dnsgw o).
Definition set_append_source_to_username (v : bool) (o : options) : options :=
  mkOptions (help o) (version o) (logger o) (logger_syslog_facility o) (logger_syslog_ident o) (loglevel o)
    (loglevels o) (netif_ipaddr o) (netif_netmask o) (netif_ip6addr o) (socks_server_addr o) (username o)
    (password o) (password_file o) v (udpgw_remote_server_addr o) (udpgw_max_connections o)
    (udpgw_connection_buffer_size o) (udpgw_transparent_dns o) (tun_mtu o) (fake_proc o) (sock_path o) (pid o)
    (dnsgw o).
Definition set_udpgw_remote_server_addr (v : option str) (o : options) : options :=
  mkOptions (help o) (version o) (logger o) (logger_syslog_facility o) (logger_syslog_ident o) (loglevel o)
    (loglevels o) (netif_ipaddr o) (netif_netmask o) (netif_ip6addr o) (socks_server_addr o) (username o)
    (password o) (password_file o) (append_source_to_username o) v (udpgw_max_connections o)
    (udpgw_connection_buffer_size o) (udpgw_transparent_dns o) (tun_mtu o) (fake_proc o) (sock_path o) (pid o)
    (dnsgw o).
Definition set_udpgw_max_connections (v : Z) (o : options) : options :=
  mkOptions (help o) (version o) (logger o) (logger_syslog_facility o) (logger_syslog_ident o) (loglevel o)
    (loglevels o) (netif_ipaddr o) (netif_netmask o) (netif_ip6addr o) (socks_server_addr o) (username o)
    (password o) (password_file o) (append_source_to_username o) (udpgw_remote_server_addr o) v
    (udpgw_connection_buffer_size o) (udpgw_transparent_dns o) (tun_mtu o) (fake_proc o) (sock_path o) (pid o)
    (dnsgw o).

(** The defaults; [dnsgw] is the only field that is not assigned: it is that of
    the static object. *)
Definition default_options (argv0 : str) : options :=
  mkOptions false false LOGGER_STDOUT (chars "daemon") argv0 (-1) (replicate (Z.to_nat BLOG_NUM_CHANNELS) (-1))
    None None None None None None None false None DEFAULT_UDPGW_MAX_CONNECTIONS DEFAULT_UDPGW_CONNECTION_BUFFER_SIZE
    false 1500 false None None None.

Section Parse.

(** [atoi] of a number that is not an [int]. *)
Variable atoi_undefined : str -> Z.

Definition atoi (s : str) : Z :=
  let v := fst (strtol s) in
  if (- 2 ^ 31 <=? v) && (v <=? INT_MAX) then v else to_int (atoi_undefined s).

(** The options and the arguments that are left; [None] is [return 0]. *)
Notation parsed := (option (options * list str)).

(** [if (1 >= argc - i) return 0;] and the next argument. *)
Definition with_arg (rest : list str) (k : str -> list str -> parsed) : parsed :=
  match rest with [] => None | v :: rest => k v rest end.

(** An option that stores its argument. *)
Definition store_arg (set : option str -> options -> options) (o : options) (rest : list str) : parsed :=
  with_arg rest (fun v rest => Some (set (Some v) o, rest)).

(** The chain of comparisons with [arg], in the order of the source. *)
Definition parse_udp_option (arg : str) (o : options) (rest : list str) : parsed :=
  if streq arg "--append-source-to-username" then Some (set_append_source_to_username true o, rest)
  else if streq arg "--enable-udprelay" then Some (set_udpgw_remote_server_addr (Some (chars "0.0.0.0:0")) o, rest)
  else if streq arg "--udprelay-max-connections" then
    with_arg rest (fun v rest =>
      let n := atoi v in
      if n <=? 0 then None else Some (set_udpgw_max_connections n o, rest))
  else None.

Definition parse_address_option (arg : str) (o : options) (rest : list str) : parsed :=
  if streq arg "--netif-ipaddr" then store_arg set_netif_ipaddr o rest
  else if streq arg "--netif-netmask" then store_arg set_netif_netmask o rest
  else if streq arg "--netif-ip6addr" then store_arg set_netif_ip6addr o rest
  else if streq arg "--socks-server-addr" then store_arg set_socks_server_addr o rest
  else if streq arg "--username" then store_arg set_username o rest
  else if streq arg "--password" then store_arg set_password o rest
  else if streq arg "--password-file" then store_arg set_password_file o rest
  else parse_udp_option arg o rest.

Definition parse_android_option (arg : str) (o : options) (rest : list str) : parsed :=
  if streq arg "--fake-proc" then Some (set_fake_proc true o, rest)
  else if streq arg "--tunmtu" then
    with_arg rest (fun v rest =>
      let n := atoi v in
      if n <=? 0 then None else Some (set_tun_mtu n o, rest))
  else if streq arg "--dnsgw" then store_arg set_dnsgw o rest
  else if streq arg "--sock-path" then store_arg set_sock_path o rest
  else if streq arg "--pid" then store_arg set_pid o rest
  else parse_address_option arg o rest.

Definition parse_log_option (arg : str) (o : options) (rest : list str) : parsed :=
  if streq arg "--logger" then
    with_arg rest (fun arg2 rest =>
      if streq arg2 "stdout" then Some (set_logger LOGGER_STDOUT o, rest)
      else if streq arg2 "syslog" then Some (set_logger LOGGER_SYSLOG o, rest)
      else None)
  else if streq arg "--syslog-facility" then with_arg rest (fun v rest => Some (set_logger_syslog_facility v o, rest))
  else if streq arg "--syslog-ident" then with_arg rest (fun v rest => Some (set_logger_syslog_ident v o, rest))
  else if streq arg "--loglevel" then
    with_arg rest (fun v rest =>
      let l := parse_loglevel v in
      if l <? 0 then None else Some (set_loglevel l o, rest))
  else if streq arg "--channel-loglevel" then
    with_arg rest (fun c rest => with_arg rest (fun v rest =>
      let channel := BLogGlobal_GetChannelByName c in
      if channel <? 0 then None else
      let l := parse_loglevel v in
      if l <? 0 then None else
      Some (set_loglevels (<[Z.to_nat channel := l]> (loglevels o)) o, rest)))
  else parse_android_option arg o rest.

Definition parse_option (arg : str) (o : options) (rest : list str) : parsed :=
  if streq arg "--help" then Some (set_help true o, rest)
  else if streq arg "--version" then Some (set_version true o, rest)
  else parse_log_option arg o rest.

(** The loop over the arguments; each iteration takes one at least. *)
Fixpoint parse_loop (fuel : nat) (args : list str) (o : options) : option options :=
  match fuel with
  | O => None
  | S fuel =>
      match args with
      | [] => Some o
      | arg :: rest =>
          match parse_option arg o rest with
          | None => None
          | Some (o, rest) => parse_loop fuel rest o
          end
      end
  end.

Definition is_set (v : option str) : bool := match v with Some _ => true | None => false end.

(** The checks behind the loop. *)
Definition check_required (o : options) : bool :=
  if help o || version o then true else
  if negb (is_set (netif_ipaddr o)) then false else
  if negb (is_set (socks_server_addr o)) then false else
  if is_set (username o) then
    if negb (is_set (password o)) && negb (is_set (password_file o)) then false else
    negb (is_set (password o) && is_set (password_file o))
  else true.

Definition parse_arguments (argv : list str) : option options :=
  match argv with
  | [] => None
  | argv0 :: args =>
      match parse_loop (S (length args)) args (default_options argv0) with
      | None => None
      | Some o => if check_required o then Some o else None
      end
  end.

(** ** What a command line means *)

(** An assignment to an option. *)
Inductive setting :=
| Help | Version | Logger (l : Z) | SyslogFacility (v : str) | SyslogIdent (v : str)
| Loglevel (l : Z) | ChannelLoglevel (channel l : Z) | FakeProc | TunMtu (n : Z)
| Dnsgw (v : str) | SockPath (v : str) | Pid (v : str)
| NetifIpaddr (v : str) | NetifNetmask (v : str) | NetifIp6addr (v : str) | SocksServerAddr (v : str)
| Username (v : str) | Password (v : str) | PasswordFile (v : str)
| AppendSourceToUsername | EnableUdprelay | UdprelayMaxConnections (n : Z).

Definition apply (o : options) (s : setting) : options :=
  match s with
  | Help => set_help true o
  | Version => set_version true o
  | Logger l => set_logger l o
  | SyslogFacility v => set_logger_syslog_facility v o
  | SyslogIdent v => set_logger_syslog_ident v o
  | Loglevel l => set_loglevel l o
  | ChannelLoglevel c l => set_loglevels (<[Z.to_nat c := l]> (loglevels o)) o
  | FakeProc => set_fake_proc true o
  | TunMtu n => set_tun_mtu n o
  | Dnsgw v => set_dnsgw (Some v) o
  | SockPath v => set_sock_path (Some v) o
  | Pid v => set_pid (Some v) o
  | NetifIpaddr v => set_netif_ipaddr (Some v) o
  | NetifNetmask v => set_netif_netmask (Some v) o
  | NetifIp6addr v => set_netif_ip6addr (Some v) o
  | SocksServerAddr v => set_socks_server_addr (Some v) o
  | Username v => set_username (Some v) o
  | Password v => set_password (Some v) o
  | PasswordFile v => set_password_file (Some v) o
  | AppendSourceToUsername => set_append_source_to_username true o
  | EnableUdprelay => set_udpgw_remote_server_addr (Some (chars "0.0.0.0:0")) o
  | UdprelayMaxConnections n => set_udpgw_max_connections n o
  end.

(** A level by name or as a number, with what [strtol] skips. *)
Definition level_text (v : str) (l : Z) : Prop := parse_loglevel v = l /\ 0 <= l.
(** A positive number. *)
Definition number_text (v : str) (n : Z) : Prop := atoi v = n /\ 0 < n.
(** The name of a channel, the first one of several with the name. *)
Definition channel_text (v : str) (c : Z) : Prop :=
  exists name level, blog_channel_list !! Z.to_nat c = Some (name, level) /\ 0 <= c /\ v = chars name /\
    forall (i : nat) x, blog_channel_list !! i = Some x -> (i < Z.to_nat c)%nat -> fst x <> name.

(** The arguments that spell a setting. *)
Inductive spells : setting -> list str -> Prop :=
| sp_help : spells Help [chars "--help"]
| sp_version : spells Version [chars "--version"]
| sp_stdout : spells (Logger LOGGER_STDOUT) [chars "--logger"; chars "stdout"]
| sp_syslog : spells (Logger LOGGER_SYSLOG) [chars "--logger"; chars "syslog"]
| sp_facility v : spells (SyslogFacility v) [chars "--syslog-facility"; v]
| sp_ident v : spells (SyslogIdent v) [chars "--syslog-ident"; v]
| sp_loglevel v l : level_text v l -> spells (Loglevel l) [chars "--loglevel"; v]
| sp_channel n c v l : channel_text n c -> level_text v l ->
    spells (ChannelLoglevel c l) [chars "--channel-loglevel"; n; v]
| sp_fake_proc : spells FakeProc [chars "--fake-proc"]
| sp_tunmtu v n : number_text v n -> spells (TunMtu n) [chars "--tunmtu"; v]
| sp_dnsgw v : spells (Dnsgw v) [chars "--dnsgw"; v]
| sp_sock_path v : spells (SockPath v) [chars "--sock-path"; v]
| sp_pid v : spells (Pid v) [chars "--pid"; v]
| sp_ipaddr v : spells (NetifIpaddr v) [chars "--netif-ipaddr"; v]
| sp_netmask v : spells (NetifNetmask v) [chars "--netif-netmask"; v]
| sp_ip6addr v : spells (NetifIp6addr v) [chars "--netif-ip6addr"; v]
| sp_socks v : spells (SocksServerAddr v) [chars "--socks-server-addr"; v]
| sp_username v : spells (Username v) [chars "--username"; v]
| sp_password v : spells (Password v) [chars "--password"; v]
| sp_password_file v : spells (PasswordFile v) [chars "--password-file"; v]
| sp_append : spells AppendSourceToUsername [chars "--append-source-to-username"]
| sp_udprelay : spells EnableUdprelay [chars "--enable-udprelay"]
| sp_max v n : number_text v n -> spells (UdprelayMaxConnections n) [chars "--udprelay-max-connections"; v].

(** A command line spells its settings one after the other. *)
Inductive command_line : list setting -> list str -> Prop :=
| cl_nil : command_line [] []
| cl_cons s words ss args : spells s words -> command_line ss args -> command_line (s :: ss) (words ++ args).

(** What must be given, unless help or the version is asked for. *)
Definition complete (o : options) : Prop :=
  help o = true \/ version o = true \/
  netif_ipaddr o <> None /\ socks_server_addr o <> None /\
  (username o <> None -> (password o <> None /\ password_file o = None) \/ (password o = None /\ password_file o <> None)).

(** ** The parser reads the settings *)

Lemma chars_inj a b : chars a = chars b -> a = b.
Proof.
  unfold chars. intros H. rewrite <- (string_of_list_ascii_of_string a), <- (string_of_list_ascii_of_string b). f_equal.
  revert H. generalize (list_ascii_of_string b). induction (list_ascii_of_string a) as [|x l IH]; intros [|y l'] H; try done.
  cbn in H. injection H as Hx Hl. f_equal; [|by apply IH].
  rewrite <- (ascii_N_embedding x), <- (ascii_N_embedding y). f_equal. lia.
Qed.

Lemma streq_spec s lit : reflect (s = chars lit) (streq s lit).
Proof. apply bool_decide_reflect. Qed.

Lemma streq_chars a b : streq (chars a) b = String.eqb a b.
Proof.
  destruct (streq_spec (chars a) b) as [H|H], (String.eqb_spec a b) as [E|E]; try done.
  - by apply chars_inj in H.
  - by subst.
Qed.

Lemma channel_loop_spec l : forall i name, 0 <= i ->
  channel_loop l i name = -1 \/
  exists (k : nat) n level, channel_loop l i name = i + Z.of_nat k /\ l !! k = Some (n, level) /\ name = chars n /\
    forall (j : nat) x, l !! j = Some x -> (j < k)%nat -> fst x <> n.
Proof.
  induction l as [|[n level] l IH]; intros i name Hi; cbn [channel_loop]; [by left|].
  destruct (streq_spec name n) as [->|Hne].
  - right. exists 0%nat, n, level. split_and!; [lia|done|done|]. intros j x _ ?. lia.
  - destruct (IH (i + 1) name ltac:(lia)) as [E|(k & n' & level' & E & Hk & Hn & Hf)]; [by left|right].
    exists (S k), n', level'. split_and!; [lia|done|done|]. intros [|j] x Hx Hj; [|eapply Hf; [exact Hx|lia]].
    cbn in Hx. injection Hx as <-. cbn. by intros ->.
Qed.

(** Uniqueness of the first channel of a name. *)
Lemma channel_loop_found l : forall i name (k : nat) n level, 0 <= i -> l !! k = Some (n, level) -> name = chars n ->
  (forall (j : nat) x, l !! j = Some x -> (j < k)%nat -> fst x <> n) -> channel_loop l i name = i + Z.of_nat k.
Proof.
  induction l as [|[n' level'] l IH]; intros i name k n level Hi Hk Hn Hf; [done|]. cbn [channel_loop].
  destruct (streq_spec name n') as [He|Hne].
  - destruct k as [|k]; [lia|]. exfalso. apply (Hf 0%nat (n', level') eq_refl ltac:(lia)). cbn.
    apply chars_inj. by rewrite <- He, <- Hn.
  - destruct k as [|k]; [cbn in Hk; injection Hk as -> ->; done|].
    rewrite (IH (i + 1) name k n level); [lia|lia|done|done|]. intros j x Hx Hj. apply (Hf (S j) x Hx). lia.
Qed.

Lemma channel_spec v c : 0 <= c -> BLogGlobal_GetChannelByName v = c <-> channel_text v c.
Proof.
  intros Hc. unfold BLogGlobal_GetChannelByName, channel_text. split.
  - intros <-. destruct (channel_loop_spec blog_channel_list 0 v) as [E|(k & n & level & E & Hk & Hn & Hf)]; [lia|lia|].
    rewrite E, Z.add_0_l, Nat2Z.id in *. exists n, level. split_and!; [done|lia|done|done].
  - intros (n & level & Hk & _ & Hn & Hf). rewrite (channel_loop_found _ 0 v (Z.to_nat c) n level) by (done || lia). lia.
Qed.

(** A case of the chain: the option is this one, or a later one. *)
Ltac next_option tac :=
  match goal with |- context [streq ?a (String.String ?x ?y)] =>
    destruct (streq_spec a (String.String x y)) as [->|_]; [solve [tac]|]
  end.

Lemma store_arg_sound arg set con o rest o' rest' :
  (forall v, spells (con v) [chars arg; v]) -> (forall v o, apply o (con v) = set (Some v) o) ->
  store_arg set o rest = Some (o', rest') ->
  exists s words, spells s words /\ chars arg :: rest = words ++ rest' /\ o' = apply o s.
Proof.
  intros Hs Ha. unfold store_arg, with_arg. destruct rest as [|v rest]; [done|]. intros [= <- <-].
  exists (con v), [chars arg; v]. rewrite Ha. auto.
Qed.

Lemma flag_sound arg s o rest (o' : options) rest' : spells s [chars arg] ->
  Some (apply o s, rest) = Some (o', rest') ->
  exists s words, spells s words /\ chars arg :: rest = words ++ rest' /\ o' = apply o s.
Proof. intros Hs [= <- <-]. by exists s, [chars arg]. Qed.

Lemma number_sound arg con set o rest o' rest' :
  (forall v n, number_text v n -> spells (con n) [chars arg; v]) -> (forall n, apply o (con n) = set n) ->
  with_arg rest (fun v rest => let n := atoi v in if n <=? 0 then None else Some (set n, rest)) = Some (o', rest') ->
  exists s words, spells s words /\ chars arg :: rest = words ++ rest' /\ o' = apply o s.
Proof.
  intros Hs Ha. unfold with_arg. destruct rest as [|v rest]; [done|]. cbn zeta. case_if; [done|]. intros [= <- <-].
  exists (con (atoi v)), [chars arg; v]. rewrite Ha. split; [apply Hs; split; [done|lia]|done].
Qed.

Lemma parse_address_sound arg o rest o' rest' : parse_address_option arg o rest = Some (o', rest') ->
  exists s words, spells s words /\ arg :: rest = words ++ rest' /\ o' = apply o s.
Proof.
  unfold parse_address_option.
  next_option ltac:(by apply (store_arg_sound _ _ NetifIpaddr); [apply sp_ipaddr|]).
  next_option ltac:(by apply (store_arg_sound _ _ NetifNetmask); [apply sp_netmask|]).
  next_option ltac:(by apply (store_arg_sound _ _ NetifIp6addr); [apply sp_ip6addr|]).
  next_option ltac:(by apply (store_arg_sound _ _ SocksServerAddr); [apply sp_socks|]).
  next_option ltac:(by apply (store_arg_sound _ _ Username); [apply sp_username|]).
  next_option ltac:(by apply (store_arg_sound _ _ Password); [apply sp_password|]).
  next_option ltac:(by apply (store_arg_sound _ _ PasswordFile); [apply sp_password_file|]).
  unfold parse_udp_option.
  next_option ltac:(by apply (flag_sound _ AppendSourceToUsername), sp_append).
  next_option ltac:(by apply (flag_sound _ EnableUdprelay), sp_udprelay).
  next_option ltac:(by apply (number_sound _ UdprelayMaxConnections (fun n => set_udpgw_max_connections n o)); [apply sp_max|]).
  done.
Qed.

Lemma parse_android_sound arg o rest o' rest' : parse_android_option arg o rest = Some (o', rest') ->
  exists s words, spells s words /\ arg :: rest = words ++ rest' /\ o' = apply o s.
Proof.
  unfold parse_android_option.
  next_option ltac:(by apply (flag_sound _ FakeProc), sp_fake_proc).
  next_option ltac:(by apply (number_sound _ TunMtu (fun n => set_tun_mtu n o)); [apply sp_tunmtu|]).
  next_option ltac:(by apply (store_arg_sound _ _ Dnsgw); [apply sp_dnsgw|]).
  next_option ltac:(by apply (store_arg_sound _ _ SockPath); [apply sp_sock_path|]).
  next_option ltac:(by apply (store_arg_sound _ _ Pid); [apply sp_pid|]).
  apply parse_address_sound.
Qed.

Lemma level_sound v : parse_loglevel v <? 0 = false -> level_text v (parse_loglevel v).
Proof. intros ?%Z.ltb_ge. by split. Qed.

Lemma parse_log_sound arg o rest o' rest' : parse_log_option arg o rest = Some (o', rest') ->
  exists s words, spells s words /\ arg :: rest = words ++ rest' /\ o' = apply o s.
Proof.
  unfold parse_log_option, with_arg.
  destruct (streq_spec arg "--logger") as [->|_].
  { destruct rest as [|v rest]; [done|].
    destruct (streq_spec v "stdout") as [->|_]; [intros [= <- <-]; by exists (Logger LOGGER_STDOUT), [chars "--logger"; chars "stdout"]; split; [apply sp_stdout|]|].
    destruct (streq_spec v "syslog") as [->|_]; [intros [= <- <-]; by exists (Logger LOGGER_SYSLOG), [chars "--logger"; chars "syslog"]; split; [apply sp_syslog|]|].
    done. }
  destruct (streq_spec arg "--syslog-facility") as [->|_].
  { destruct rest as [|v rest]; [done|]. intros [= <- <-]. exists (SyslogFacility v), [chars "--syslog-facility"; v]. split; [apply sp_facility|done]. }
  destruct (streq_spec arg "--syslog-ident") as [->|_].
  { destruct rest as [|v rest]; [done|]. intros [= <- <-]. exists (SyslogIdent v), [chars "--syslog-ident"; v]. split; [apply sp_ident|done]. }
  destruct (streq_spec arg "--loglevel") as [->|_].
  { destruct rest as [|v rest]; [done|]. cbn zeta. destruct (_ <? 0) eqn:E; [done|]. intros [= <- <-].
    exists (Loglevel (parse_loglevel v)), [chars "--loglevel"; v]. split; [by apply sp_loglevel, level_sound|done]. }
  destruct (streq_spec arg "--channel-loglevel") as [->|_]; [|apply parse_android_sound].
  destruct rest as [|n [|v rest]]; [done|done|]. cbn zeta.
  destruct (BLogGlobal_GetChannelByName n <? 0) eqn:Ec; [done|]. destruct (parse_loglevel v <? 0) eqn:E; [done|]. intros [= <- <-].
  exists (ChannelLoglevel (BLogGlobal_GetChannelByName n) (parse_loglevel v)), [chars "--channel-loglevel"; n; v].
  split; [|done]. apply sp_channel; [|by apply level_sound]. apply channel_spec; [by apply Z.ltb_ge|done].
Qed.

Lemma parse_option_sound arg o rest o' rest' : parse_option arg o rest = Some (o', rest') ->
  exists s words, spells s words /\ arg :: rest = words ++ rest' /\ o' = apply o s.
Proof.
  unfold parse_option.
  next_option ltac:(by apply (flag_sound _ Help), sp_help).
  next_option ltac:(by apply (flag_sound _ Version), sp_version).
  apply parse_log_sound.
Qed.

(** Tests of literal options evaluate. *)
Ltac literals := rewrite ?streq_chars; cbn [String.eqb Ascii.eqb Bool.eqb].

Lemma parse_option_complete s words o rest : spells s words ->
  exists arg more, words = arg :: more /\ parse_option arg o (more ++ rest) = Some (apply o s, rest).
Proof.
  destruct 1; eexists _, _; (split; [reflexivity|]);
    unfold parse_option, parse_log_option, parse_android_option, parse_address_option, parse_udp_option, store_arg, with_arg;
    literals; cbn [app apply]; rewrite ?streq_chars; try reflexivity.
  all: repeat match goal with H : level_text _ _ |- _ => destruct H as [-> ?] | H : number_text _ _ |- _ => destruct H as [-> ?] end.
  all: cbn zeta; rewrite ?(proj2 (Z.ltb_ge _ _)), ?(proj2 (Z.leb_gt _ _)) by done; try reflexivity.
  pose proof H as (_ & _ & _ & Hc & _). apply channel_spec in H; [|done]. rewrite H.
  by rewrite !(proj2 (Z.ltb_ge _ _)) by done.
Qed.

Lemma words_length s words : spells s words -> (0 < length words)%nat.
Proof. destruct 1; cbn; lia. Qed.

Lemma parse_loop_spec fuel : forall args o o', (length args < fuel)%nat ->
  parse_loop fuel args o = Some o' <-> exists ss, command_line ss args /\ o' = fold_left apply ss o.
Proof.
  induction fuel as [|fuel IH]; intros args o o' Hf; [lia|]. destruct args as [|arg rest]; cbn [parse_loop].
  - split; [intros [= <-]; exists []; split; [constructor|done]|]. intros (ss & Hc & ->).
    inversion Hc as [|s words ss' args' Hs Hc' Hss Hw]; [done|]. apply words_length in Hs.
    apply app_eq_nil in Hw as [Hw _]. rewrite Hw in Hs. cbn in Hs. lia.
  - cbn [length] in Hf. split.
    + destruct (parse_option arg o rest) as [[o1 rest1]|] eqn:E; [|done].
      apply parse_option_sound in E as (s & words & Hs & Hw & ->). pose proof (words_length s words Hs).
      assert (Hl : length (arg :: rest) = (length words + length rest1)%nat) by by rewrite Hw, length_app.
      cbn [length] in Hl. rewrite IH by lia. intros (ss & Hc & ->). exists (s :: ss). split; [|done].
      rewrite Hw. by constructor.
    + intros (ss & Hc & ->). inversion Hc as [|s words ss' args' Hs Hc' Hss Hw]; subst.
      pose proof (words_length s words Hs).
      destruct (parse_option_complete s words o args' Hs) as (arg' & more & -> & E). injection Hw as -> <-.
      rewrite E. apply IH; [rewrite length_app in Hf; lia|]. by exists ss'.
Qed.

Lemma is_set_spec v : is_set v = true <-> v <> None.
Proof. by destruct v. Qed.

Lemma check_required_spec o : check_required o = true <-> complete o.
Proof.
  unfold check_required, complete.
  destruct (help o), (version o); cbn [orb]; [naive_solver..|].
  destruct (netif_ipaddr o); cbn [is_set negb]; [|naive_solver].
  destruct (socks_server_addr o); cbn [is_set negb]; [|naive_solver].
  destruct (username o); cbn [is_set]; [|naive_solver].
  destruct (password o), (password_file o); cbn [is_set negb andb]; naive_solver.
Qed.

(** ** Ranges *)
Definition level_ok (l : Z) : Prop := -1 <= l <= BLOG_DEBUG.
Definition ranges (o : options) : Prop :=
  (logger o = LOGGER_STDOUT \/ logger o = LOGGER_SYSLOG) /\ level_ok (loglevel o) /\
  Zlen (loglevels o) = BLOG_NUM_CHANNELS /\ Forall level_ok (loglevels o) /\
  0 < tun_mtu o <= INT_MAX /\ 0 < udpgw_max_connections o <= INT_MAX /\
  udpgw_connection_buffer_size o = DEFAULT_UDPGW_CONNECTION_BUFFER_SIZE.

Lemma level_range v l : level_text v l -> level_ok l.
Proof.
  intros [<- H]. unfold level_ok, parse_loglevel in *.
  repeat match goal with |- context [streq v ?x] => destruct (streq v x); [unfold BLOG_DEBUG, BLOG_ERROR, BLOG_WARNING, BLOG_NOTICE, BLOG_INFO; lia|] end.
  destruct (strtol v) as [res endptr]. destruct (_ && _) eqn:E; [|unfold BLOG_DEBUG; lia]. zify_bool. lia.
Qed.

Lemma atoi_range v : - 2 ^ 31 <= atoi v <= INT_MAX.
Proof.
  unfold atoi, INT_MAX. destruct (_ && _) eqn:E; [zify_bool; lia|]. unfold to_int.
  pose proof (Z.mod_pos_bound (atoi_undefined v + 2 ^ 31) (2 ^ 32)). lia.
Qed.

Lemma apply_ranges s words o : spells s words -> ranges o -> ranges (apply o s).
Proof.
  intros Hs (H1 & H2 & H3 & H4 & H5 & H6 & H7).
  destruct Hs; unfold ranges; cbn;
    try match goal with H : number_text ?v ?n |- _ => destruct H as [<- ?]; pose proof (atoi_range v) end;
    split_and!; try done; try lia; eauto using level_range.
  - by rewrite length_insert.
  - apply Forall_insert; eauto using level_range.
Qed.

Lemma command_line_ranges ss args : command_line ss args -> forall o, ranges o -> ranges (fold_left apply ss o).
Proof. induction 1; cbn; eauto using apply_ranges. Qed.

Lemma default_ranges argv0 : ranges (default_options argv0).
Proof.
  unfold ranges, level_ok, BLOG_DEBUG, INT_MAX, DEFAULT_UDPGW_MAX_CONNECTIONS. cbn -[Z.to_nat replicate].
  repeat apply conj; try done; try lia. apply Forall_replicate. lia.
Qed.

Lemma parse_arguments_ok argv o : parse_arguments argv = Some o -> complete o /\ ranges o.
Proof.
  destruct argv as [|argv0 args]; cbn [parse_arguments]; [done|].
  destruct (parse_loop _ _ _) as [o1|] eqn:E; [|done]. apply parse_loop_spec in E as (ss & Hc & ->); [|lia].
  destruct (check_required _) eqn:Er; [|done]. intros [= <-]. split; [by apply check_required_spec|].
  eapply command_line_ranges; [done|apply default_ranges].
Qed.

(** C17: the command line. [parse_arguments] accepts exactly the sequences of
    options with their arguments whose settings, applied to the defaults one
    after the other, give what must be given; the result is these options; and
    then levels, sizes and counts are within their ranges. *)
Theorem parse_arguments_exact argv :
  (forall o, parse_arguments argv = Some o <->
    exists argv0 args ss, argv = argv0 :: args /\ command_line ss args /\
      o = fold_left apply ss (default_options argv0) /\ complete o) /\
  (forall o, parse_arguments argv = Some o -> ranges o).
Proof.
  assert (Hiff : forall o, parse_arguments argv = Some o <->
    exists argv0 args ss, argv = argv0 :: args /\ command_line ss args /\
      o = fold_left apply ss (default_options argv0) /\ complete o).
  { intros o. destruct argv as [|argv0 args]; cbn [parse_arguments]; [naive_solver|]. split.
    - destruct (parse_loop _ _ _) as [o1|] eqn:E; [|done]. apply parse_loop_spec in E as (ss & Hc & ->); [|lia].
      destruct (check_required _) eqn:Er; [|done]. intros [= <-]. apply check_required_spec in Er. eauto 10.
    - intros (a0 & as' & ss & [= <- <-] & Hc & -> & Hr).
      rewrite (proj2 (parse_loop_spec (S (length args)) args (default_options argv0) _ ltac:(lia))) by eauto.
      by rewrite (proj2 (check_required_spec _)). }
  split; [done|]. intros o Ho. by apply (parse_arguments_ok argv).
Qed.

End Parse.

(** A command line of the application. *)
Definition demo_argv : list (list Z) :=
  map chars ["tun2socks"; "--netif-ipaddr"; "26.26.26.2"; "--netif-netmask"; "255.255.255.0"; "--socks-server-addr";
             "127.0.0.1:1080"; "--tunmtu"; "1500"; "--loglevel"; "warning"; "--dnsgw"; "127.0.0.1:5450";
             "--enable-udprelay"; "--loglevel"; "3"]%string.

Lemma parse_arguments_exact_witness :
  exists o ss args, parse_arguments (fun _ => 0) demo_argv = Some o /\ tun_mtu o = 1500 /\ loglevel o = BLOG_NOTICE /\
    command_line (fun _ => 0) ss args /\ ranges o.
Proof.
  destruct (parse_arguments (fun _ => 0) demo_argv) as [o|] eqn:E; [|vm_compute in E; discriminate E].
  destruct (parse_arguments_exact (fun _ => 0) demo_argv) as [Hiff Hr]. pose proof (Hr o E) as Hro.
  destruct (proj1 (Hiff o) E) as (argv0 & args & ss & Ha & Hc & Ho & _).
  assert (Hv : tun_mtu o = 1500 /\ loglevel o = BLOG_NOTICE).
  { vm_compute in E. injection E as E. rewrite <- E. split; reflexivity. }
  destruct Hv as [Hv1 Hv2]. exists o, ss, args. exact (conj eq_refl (conj Hv1 (conj Hv2 (conj Hc Hro)))).
Defined.

End Options.
