(* ===== verification/Startup.v ===== *)
(** * tun2socks from start to end (tun2socks/tun2socks.c, misc/read_file.h,
    system/BAddr.h)

    Reading of the password file, [process_arguments], [wait_for_fd], and
    [main] with its labels for failures, the job that initialises lwip, the
    timer and the handlers that end the program. What the system answers is in
    the record [env]. What [main] holds is a stack of resources: taking one
    that is held and giving back one that is not on top are faults. *)
From Stdlib Require Import ZArith Lia String.
From stdpp Require Import base tactics numbers option sets list.
From S2P Require Import Prelude LinkedList Bavl ByteOrder Addr NetProto Pbuf TunDevice SocksClient PacketProto SocksUdpGw Base64 IpText Ip6Text Options.

Module Startup.
Import BAddr Options.
Import Base64(chars).

(** ** read_file *)

(** A file: its contents, the most that each [fread] gives, and whether it
    ends in an error. *)
Record file := mkFile { content : list Z; chunks : list nat; broken : bool }.

Inductive file_call := F_open | F_close | F_malloc | F_free.
#[global] Instance file_call_eq_dec : EqDecision file_call.
Proof. solve_decision. Defined.

Definition ncalls (c : file_call) (l : list file_call) : nat := length (filter (fun x => x = c) l).

(** [fread] of at most [n] characters, not zero: what it reads. *)
Definition fread (n : nat) (f : file) : list Z * file :=
  let k := match chunks f with [] => n | c :: _ => Nat.max 1 (Nat.min c n) end in
  (take k (content f), mkFile (drop k (content f)) (tl (chunks f)) (broken f)).

Section ReadFile.

(** Whether [malloc] and [realloc] of a size succeed, and what is in new memory. *)
Variable alloc_ok : Z -> bool.
Variable junk : Z -> list Z.
Hypothesis junk_length : forall n, 0 <= n -> Zlen (junk n) = n.

(** The loop; [None] is the jump to [fail]. *)
Fixpoint read_loop (fuel : nat) (f : file) (buf : list Z) (buf_len : Z) : outcome (option (list Z * Z)) :=
  match fuel with
  | O => Fault
  | S fuel =>
      let buf_size := Zlen buf in
      let grown :=
        if buf_len =? buf_size then
          if SIZE_MAX / buf_size <? 2 then None else
          let newsize := 2 * buf_size in
          if alloc_ok newsize then Some (buf ++ junk (newsize - buf_size)) else None
        else Some buf in
      match grown with
      | None => Ok None
      | Some buf =>
          let '(data, f) := fread (Z.to_nat (Zlen buf - buf_len)) f in
          mem_write buf buf_len data ≫= fun buf =>
          if Zlen data =? 0 then
            if broken f then Ok None else Ok (Some (buf, buf_len))
          else read_loop fuel f buf (buf_len + Zlen data)
      end
  end.

(** [fopen] gives the file or fails. The result, and the calls that open,
    close, allocate and free. *)
Definition read_file (f : option file) : outcome (option (list Z * Z) * list file_call) :=
  match f with
  | None => Ok (None, [])
  | Some f =>
      if negb (alloc_ok 128) then Ok (None, [F_open; F_close]) else
      read_loop (S (length (content f))) f (junk 128) 0 ≫= fun r : option (list Z * Z) =>
      match r with
      | None => Ok (None, [F_open; F_malloc; F_free; F_close])
      | Some (buf, len) => Ok (Some (buf, len), [F_open; F_malloc; F_close])
      end
  end.

Lemma fread_spec n f : (0 < n)%nat ->
  let '(data, f') := fread n f in
  content f = data ++ content f' /\ (length data <= n)%nat /\ broken f' = broken f /\
  (data = [] -> content f = []).
Proof.
  intros Hn. unfold fread. cbn [content broken].
  set (k := match chunks f with [] => n | c :: _ => Nat.max 1 (Nat.min c n) end).
  assert (Hk : (1 <= k <= n)%nat) by (unfold k; destruct (chunks f); lia).
  split_and!; [by rewrite take_drop|rewrite length_take; lia|done|].
  intros H. destruct (content f) as [|c s]; [done|]. destruct k; [lia|done].
Qed.

(** The loop collects the contents of the file. *)
Lemma read_loop_spec fuel : forall f buf buf_len got,
  (length (content f) < fuel)%nat -> 128 <= Zlen buf -> Zlen got = buf_len -> buf_len <= Zlen buf ->
  take (length got) buf = got ->
  exists r, read_loop fuel f buf buf_len = Ok r /\
    match r with
    | Some (buf', n) => n = Zlen (got ++ content f) /\ take (length (got ++ content f)) buf' = got ++ content f /\
                        broken f = false
    | None => True
    end.
Proof.
  induction fuel as [|fuel IH]; intros f buf n got Hf Hb Hd Hn Ht; [lia|]. cbn [read_loop].
  set (g := if n =? Zlen buf then _ else Some buf).
  assert (Hg : g = None \/ exists buf', g = Some buf' /\ take (length got) buf' = got /\ n < Zlen buf' /\ 128 <= Zlen buf').
  { unfold g. destruct (Z.eqb_spec n (Zlen buf)) as [En|En].
    - destruct (_ <? 2); [by left|]. destruct (alloc_ok _); [right|by left]. eexists; split; [done|].
      rewrite length_app, take_app_le by lia. rewrite Nat2Z.inj_add, junk_length by lia. split_and!; [done|lia|lia].
    - right. exists buf. split_and!; [done|done|lia|done]. }
  destruct Hg as [->|(buf' & -> & Ht' & Hn' & Hb')]; [eexists; split; done|].
  pose proof (fread_spec (Z.to_nat (Zlen buf' - n)) f ltac:(lia)) as Hr.
  destruct (fread _ f) as [data f'] eqn:Ef. destruct Hr as (Hc & Hl & Hbr & He).
  assert (Hw : mem_write buf' n data = Ok (splice buf' n data)) by (apply mem_write_Ok; split; [lia|done]).
  rewrite Hw. cbn [mbind outcome_bind].
  assert (Ls : length (splice buf' n data) = length buf') by (apply length_splice; lia).
  assert (Hs : take (length (got ++ data)) (splice buf' n data) = got ++ data).
  { unfold splice. replace (Z.to_nat n) with (length got) by lia. rewrite Ht', app_assoc.
    apply take_app_length. }
  destruct (Z.eqb_spec (Zlen data) 0) as [E0|E0].
  - assert (data = []) as -> by (destruct data; [done|cbn in E0; lia]). pose proof (He eq_refl) as He'.
    rewrite Hbr. destruct (broken f) eqn:Hbrk; [eexists; split; done|]. eexists; split; [done|]. cbn beta iota.
    rewrite He', app_nil_r in *. split_and!; [lia|exact Hs|done].
  - rewrite Hc, length_app in Hf. destruct (IH f' (splice buf' n data) (n + Zlen data) (got ++ data)) as (r & -> & Hr);
      [lia|lia|rewrite length_app; lia|lia|done|].
    exists r. split; [done|]. destruct r as [[b m]|]; [|done]. rewrite Hc, app_assoc, <- Hbr. done.
Qed.

(** What [read_file] gives is what the file holds; the file is closed, and the
    memory is freed unless it is the result. *)
Lemma read_file_spec f : exists r calls, read_file f = Ok (r, calls) /\
  ncalls F_open calls = ncalls F_close calls /\
  match r with
  | Some (buf, len) => exists f0, f = Some f0 /\ take (Z.to_nat len) buf = content f0 /\ len = Zlen (content f0) /\
      broken f0 = false /\ ncalls F_malloc calls = 1%nat /\ ncalls F_free calls = 0%nat
  | None => ncalls F_malloc calls = ncalls F_free calls
  end.
Proof.
  destruct f as [f|]; cbn [read_file]; [|by eexists _, _].
  destruct (alloc_ok 128); cbn [negb]; [|by eexists _, _].
  assert (H128 : Zlen (junk 128) = 128) by (apply junk_length; lia).
  destruct (read_loop_spec (S (length (content f))) f (junk 128) 0 [] ltac:(lia) ltac:(lia) eq_refl ltac:(lia) eq_refl)
    as (r & -> & Hr).
  destruct r as [[buf len]|]; [|by eexists _, _]. destruct Hr as (-> & Ht & Hbr).
  eexists _, _. split; [done|]. split; [done|]. exists f. rewrite Nat2Z.id. done.
Qed.

End ReadFile.
(** ** The addresses and the credentials *)

Section Resolve.

(** As in Addr.v: the name resolution of the C library. *)
Variable getaddrinfo : family -> bool -> list Z -> option (list Z).
Variable alloc_ok : Z -> bool.
Variable junk : Z -> list Z.
Hypothesis junk_length : forall n, 0 <= n -> Zlen (junk n) = n.
(** The files that can be opened, by name. *)
Variable files : list Z -> option file.

Definition BADDR_MAX_ADDR_LEN : Z := 128.

Definition BIPAddr_Resolve (s : list Z) (noresolve : bool) : option BIPAddr :=
  let len := Zlen s in
  let '(fam, addr_start) :=
    if (1 <=? len) && (nth 0 s 0 =? CH_LBRACKET) && (nth (Z.to_nat (len - 1)) s 0 =? CH_RBRACKET) then
      (AF_INET6, take (Z.to_nat (len - 2)) (drop 1 s))
    else (AF_INET, s) in
  if BADDR_MAX_ADDR_LEN <? Zlen addr_start then None else
  match getaddrinfo fam noresolve addr_start with
  | None => None
  | Some b => Some (match fam with AF_INET6 => BIPADDR_IPV6 b | AF_INET => BIPADDR_IPV4 (le_val b) end)
  end.

(** The global variables that the options are turned into. *)
Record globals := mkGlobals {
  g_netif_ipaddr : BIPAddr;
  g_netif_ip6addr : list Z;
  g_socks_server_addr : BAddr;
  g_auth_info : list SocksClient.BSocksClient.auth_info;
  g_password_file_contents : option (list Z);
  g_udpgw_remote_server_addr : BAddr;
  g_dnsgw : BAddr }.

(** Static objects start as zeros. *)
Definition globals0 : globals :=
  mkGlobals BIPADDR_NONE (replicate 16 0) BADDR_NONE [] None BADDR_NONE BADDR_NONE.

Definition gset_netif_ipaddr (v : BIPAddr) (g : globals) : globals :=
  mkGlobals v (g_netif_ip6addr g) (g_socks_server_addr g) (g_auth_info g) (g_password_file_contents g)
    (g_udpgw_remote_server_addr g) (g_dnsgw g).
Definition gset_netif_ip6addr (v : list Z) (g : globals) : globals :=
  mkGlobals (g_netif_ipaddr g) v (g_socks_server_addr g) (g_auth_info g) (g_password_file_contents g)
    (g_udpgw_remote_server_addr g) (g_dnsgw g).
Definition gset_socks_server_addr (v : BAddr) (g : globals) : globals :=
  mkGlobals (g_netif_ipaddr g) (g_netif_ip6addr g) v (g_auth_info g) (g_password_file_contents g)
    (g_udpgw_remote_server_addr g) (g_dnsgw g).
Definition gset_auth_info (v : list SocksClient.BSocksClient.auth_info) (g : globals) : globals :=
  mkGlobals (g_netif_ipaddr g) (g_netif_ip6addr g) (g_socks_server_addr g) v (g_password_file_contents g)
    (g_udpgw_remote_server_addr g) (g_dnsgw g).
Definition gset_password_file_contents (v : option (list Z)) (g : globals) : globals :=
  mkGlobals (g_netif_ipaddr g) (g_netif_ip6addr g) (g_socks_server_addr g) (g_auth_info g) v
    (g_udpgw_remote_server_addr g) (g_dnsgw g).
Definition gset_udpgw_remote_server_addr (v : BAddr) (g : globals) : globals :=
  mkGlobals (g_netif_ipaddr g) (g_netif_ip6addr g) (g_socks_server_addr g) (g_auth_info g)
    (g_password_file_contents g) v (g_dnsgw g).
Definition gset_dnsgw (v : BAddr) (g : globals) : globals :=
  mkGlobals (g_netif_ipaddr g) (g_netif_ip6addr g) (g_socks_server_addr g) (g_auth_info g)
    (g_password_file_contents g) (g_udpgw_remote_server_addr g) v.

(** A stage that fails ends the function with [return 0]; what has been assigned
    before stays. The address that could not be resolved or parsed may have been
    written in part (its type, for instance); it is not looked at then. *)
Definition andthen (m : outcome (bool * globals)) (k : globals -> outcome (bool * globals)) : outcome (bool * globals) :=
  m ≫= fun '((ok, g) : bool * globals) => if ok then k g else Ok (false, g).

Definition process_netif_ipaddr (o : options) (g : globals) : outcome (bool * globals) :=
  of_option (netif_ipaddr o) ≫= fun s =>
  match BIPAddr_Resolve s false with
  | None => Ok (false, g)
  | Some ip => Ok (iptype ip =? 1, gset_netif_ipaddr ip g)
  end.

(** The bytes of a text that is refused may have been overwritten in part; they
    are not looked at then. *)
Definition process_netif_ip6addr (o : options) (g : globals) : outcome (bool * globals) :=
  match netif_ip6addr o with
  | None => Ok (true, g)
  | Some s =>
      IpAddr6.ipaddr6_parse_ipv6_addr s (g_netif_ip6addr g) (replicate 4 0) ≫= fun r : option (list Z) =>
      match r with None => Ok (false, g) | Some b => Ok (true, gset_netif_ip6addr b g) end
  end.

Definition process_socks_server (o : options) (g : globals) : outcome (bool * globals) :=
  of_option (socks_server_addr o) ≫= fun s =>
  match BAddr_Parse2 getaddrinfo s None false with
  | None => Ok (false, g)
  | Some (a, _) => Ok (true, gset_auth_info [SocksClient.BSocksClient.BSocksClient_auth_none] (gset_socks_server_addr a g))
  end.

Definition add_password (user pass : list Z) (g : globals) : globals :=
  gset_auth_info (g_auth_info g ++ [SocksClient.BSocksClient.BSocksClient_auth_password user pass]) g.

Definition process_password (o : options) (g : globals) : outcome (bool * globals) :=
  match username o with
  | None => Ok (true, g)
  | Some user =>
      match password o with
      | Some pass => Ok (true, add_password user pass g)
      | None =>
          of_option (password_file o) ≫= fun name =>
          read_file alloc_ok junk (files name) ≫= fun '((r, _) : option (list Z * Z) * list file_call) =>
          match r with
          | None => Ok (false, g)
          | Some (contents, len) =>
              Ok (true, add_password user (take (Z.to_nat len) contents) (gset_password_file_contents (Some contents) g))
          end
      end
  end.

Definition process_udpgw (o : options) (g : globals) : outcome (bool * globals) :=
  match udpgw_remote_server_addr o with
  | None => Ok (true, g)
  | Some s =>
      match BAddr_Parse2 getaddrinfo s None false with
      | None => Ok (false, g)
      | Some (a, _) => Ok (true, gset_udpgw_remote_server_addr a g)
      end
  end.

Definition process_dnsgw (o : options) (g : globals) : outcome (bool * globals) :=
  match dnsgw o with
  | None => Ok (true, g)
  | Some s =>
      match BAddr_Parse2 getaddrinfo s None false with
      | None => Ok (false, g)
      | Some (a, _) => Ok (type a =? 1, gset_dnsgw a g)
      end
  end.

Definition process_arguments (o : options) (g : globals) : outcome (bool * globals) :=
  ASSERT (negb (bool_decide (is_Some (g_password_file_contents g)))) ≫= fun _ =>
  andthen (process_netif_ipaddr o g) (fun g =>
  andthen (process_netif_ip6addr o g) (fun g =>
  andthen (process_socks_server o g) (fun g =>
  andthen (process_password o g) (fun g =>
  andthen (process_udpgw o g) (fun g =>
  process_dnsgw o g))))).

(** The options that are needed have been given. *)
Definition needed (o : options) : Prop :=
  netif_ipaddr o <> None /\ socks_server_addr o <> None /\
  (username o <> None -> (password o <> None /\ password_file o = None) \/ (password o = None /\ password_file o <> None)).

(** The password of the options: given, or the contents of the file. *)
Definition password_of (o : options) (pass : list Z) : Prop :=
  password o = Some pass \/
  password o = None /\ exists name f, password_file o = Some name /\ files name = Some f /\ broken f = false /\ pass = content f.

Definition auth_of (o : options) (l : list SocksClient.BSocksClient.auth_info) : Prop :=
  match username o with
  | None => l = [SocksClient.BSocksClient.BSocksClient_auth_none]
  | Some user => exists pass, password_of o pass /\
      l = [SocksClient.BSocksClient.BSocksClient_auth_none; SocksClient.BSocksClient.BSocksClient_auth_password user pass]
  end.

Definition processed (o : options) (g : globals) : Prop :=
  iptype (g_netif_ipaddr g) = 1 /\ Zlen (g_netif_ip6addr g) = 16 /\ auth_of o (g_auth_info g) /\
  (dnsgw o <> None -> type (g_dnsgw g) = 1).

(** A stage that takes [P] to [Q] when it succeeds. *)
Definition stage (P Q : globals -> Prop) (f : globals -> outcome (bool * globals)) : Prop :=
  forall g, P g -> exists ok g', f g = Ok (ok, g') /\ (ok = true -> Q g').

Lemma stage_andthen P Q R f k : stage P Q f -> stage Q R k -> stage P R (fun g => andthen (f g) k).
Proof.
  intros Hf Hk g Hg. destruct (Hf g Hg) as (ok & g' & E & HQ). unfold andthen. rewrite E. cbn [mbind outcome_bind].
  destruct ok; [|by exists false, g']. destruct (Hk g' (HQ eq_refl)) as (ok' & g'' & E' & HR). by exists ok', g''.
Qed.

Definition has_netif (g : globals) : Prop := iptype (g_netif_ipaddr g) = 1 /\ Zlen (g_netif_ip6addr g) = 16.

Lemma netif_stage o : netif_ipaddr o <> None -> stage (fun g => Zlen (g_netif_ip6addr g) = 16) has_netif (process_netif_ipaddr o).
Proof.
  intros Hn g Hg. unfold process_netif_ipaddr. destruct (netif_ipaddr o) as [s|]; [|done]. cbn [of_option mbind outcome_bind].
  destruct (BIPAddr_Resolve s false) as [ip|]; [|by exists false, g]. eexists _, _. split; [done|].
  intros Hi%Z.eqb_eq. done.
Qed.

Lemma ip6_stage o : stage has_netif has_netif (process_netif_ip6addr o).
Proof.
  intros g [Hi H16]. unfold process_netif_ip6addr. destruct (netif_ip6addr o) as [s|]; [|by exists true, g].
  destruct (IpAddr6.parse_accepts s (g_netif_ip6addr g) (replicate 4 0) H16 eq_refl) as (r & E & Hr). rewrite E.
  cbn [mbind outcome_bind]. destruct r as [b|]; [|by exists false, g]. eexists _, _. split; [done|]. intros _.
  split; [done|]. specialize (Hr b) as [Hr _]. specialize (Hr eq_refl). apply IpAddr6.accepts_text in Hr.
  by eapply IpAddr6.ipv6_text_length.
Qed.

Lemma socks_stage o : socks_server_addr o <> None -> stage has_netif
  (fun g => has_netif g /\ g_auth_info g = [SocksClient.BSocksClient.BSocksClient_auth_none]) (process_socks_server o).
Proof.
  intros Hn g Hg. unfold process_socks_server. destruct (socks_server_addr o) as [s|]; [|done]. cbn [of_option mbind outcome_bind].
  destruct (BAddr_Parse2 _ _ _ _) as [[a nm]|]; [|by exists false, g]. eexists _, _. split; [done|]. done.
Qed.

Lemma password_stage_ok o :
  (username o <> None -> (password o <> None /\ password_file o = None) \/ (password o = None /\ password_file o <> None)) ->
  stage (fun g => has_netif g /\ g_auth_info g = [SocksClient.BSocksClient.BSocksClient_auth_none])
    (fun g => has_netif g /\ auth_of o (g_auth_info g)) (process_password o).
Proof.
  intros Hn g [Hg Ha]. unfold process_password, auth_of. destruct (username o) as [user|]; [|by exists true, g].
  destruct (password o) as [pass|] eqn:Ep.
  { eexists _, _. split; [done|]. intros _. split; [done|]. exists pass. split; [by left|]. cbn. by rewrite Ha. }
  destruct (Hn ltac:(done)) as [[? _]|[_ Hf]]; [done|]. destruct (password_file o) as [name|] eqn:Ef; [|done].
  cbn [of_option mbind outcome_bind].
  destruct (read_file_spec alloc_ok junk junk_length (files name)) as (r & calls & E & _ & Hr). rewrite E. cbn [mbind outcome_bind].
  destruct r as [[contents len]|]; [|by exists false, g]. destruct Hr as (f0 & Hf0 & Ht & _ & Hb & _).
  eexists _, _. split; [done|]. intros _. split; [done|]. exists (take (Z.to_nat len) contents).
  split; [|cbn; by rewrite Ha]. right. split; [done|]. exists name, f0. done.
Qed.

Lemma udpgw_stage o : stage (fun g => has_netif g /\ auth_of o (g_auth_info g))
  (fun g => has_netif g /\ auth_of o (g_auth_info g)) (process_udpgw o).
Proof.
  intros g Hg. unfold process_udpgw. destruct (udpgw_remote_server_addr o) as [s|]; [|by exists true, g].
  destruct (BAddr_Parse2 _ _ _ _) as [[a nm]|]; [|by exists false, g]. by eexists _, _.
Qed.

Lemma dnsgw_stage o : stage (fun g => has_netif g /\ auth_of o (g_auth_info g)) (processed o) (process_dnsgw o).
Proof.
  intros g ([H1 H2] & H3). unfold process_dnsgw, processed. destruct (dnsgw o) as [s|]; [|by exists true, g; split_and!].
  destruct (BAddr_Parse2 _ _ _ _) as [[a nm]|]; [|by exists false, g]. eexists _, _. split; [done|].
  intros Ht%Z.eqb_eq. by split_and!.
Qed.

Lemma process_arguments_spec o g : needed o -> g_password_file_contents g = None -> Zlen (g_netif_ip6addr g) = 16 ->
  exists ok g', process_arguments o g = Ok (ok, g') /\ (ok = true -> processed o g').
Proof.
  intros (Hn1 & Hn2 & Hn3) Hp H16. unfold process_arguments. rewrite Hp. cbn [ASSERT mbind outcome_bind].
  change (ASSERT (negb (bool_decide (is_Some (@None (list Z)))))) with (Ok tt). cbn [mbind outcome_bind].
  refine (stage_andthen _ _ _ _ _ (netif_stage o Hn1) _ g H16).
  refine (stage_andthen _ _ _ _ _ (ip6_stage o) _).
  refine (stage_andthen _ _ _ _ _ (socks_stage o Hn2) _).
  refine (stage_andthen _ _ _ _ _ (password_stage_ok o Hn3) _).
  exact (stage_andthen _ _ _ _ _ (udpgw_stage o) (dnsgw_stage o)).
Qed.

(** ** The descriptor from the application *)

Inductive fd_call := Open_sock | Set_flags (flags : Z) | Close_sock | Open_sock2 | Close_sock2.
#[global] Instance fd_call_eq_dec : EqDecision fd_call.
Proof. solve_decision. Defined.

Definition O_NONBLOCK : Z := 2048.

(** The variable [fd] is not initialised, and is read before it is assigned: its
    value [a_fd0] is any. (Its address is taken, so that the value is unspecified
    and reading it is no more than that.) Further, what the calls answer:
    [a_getfl] is what [fcntl] says of the flags of descriptor [a_fd0], if it is
    one; [a_recv] is what [ancil_recv_fd] assigns to the variable: nothing if
    [recvmsg] fails, and -1 if no descriptor comes. *)
Record wait_answers := mkWait {
  a_fd0 : Z; a_getfl : option Z;
  a_socket : bool; a_bind : bool; a_listen : bool; a_select : bool; a_accept : bool; a_recv : option Z }.

(** The returned value and the calls. The loop is left in its first iteration;
    whether [ancil_recv_fd] reports an error decides only what is logged. *)
Definition wait_for_fd (a : wait_answers) : Z * list fd_call :=
  let fd := a_fd0 a in
  if negb (a_socket a) then (-1, []) else
  let flags := match a_getfl a with None => 0 | Some f => f end in
  let cs := [Open_sock; Set_flags (Z.lor flags O_NONBLOCK)] in
  if negb (a_bind a) then (-1, cs ++ [Close_sock]) else
  if negb (a_listen a) then (-1, cs ++ [Close_sock]) else
  if negb (a_select a) then (fd, cs ++ [Close_sock]) else
  if negb (a_accept a) then (fd, cs ++ [Close_sock]) else
  let fd := default fd (a_recv a) in
  (fd, cs ++ [Open_sock2; Close_sock2; Close_sock]).

Definition nfd (c : fd_call) (l : list fd_call) : nat := length (filter (fun x => x = c) l).

(** Each socket is closed once. *)
Lemma wait_for_fd_closes a :
  nfd Open_sock (snd (wait_for_fd a)) = nfd Close_sock (snd (wait_for_fd a)) /\
  nfd Open_sock2 (snd (wait_for_fd a)) = nfd Close_sock2 (snd (wait_for_fd a)).
Proof. unfold wait_for_fd. by destruct (a_socket a), (a_bind a), (a_listen a), (a_select a), (a_accept a). Qed.

(** The socket could be set up, and no value came over it. *)
Definition unassigned (a : wait_answers) : Prop :=
  a_socket a = true /\ a_bind a = true /\ a_listen a = true /\
  (a_select a = false \/ a_accept a = false \/ a_recv a = None).
(** A value came over it. *)
Definition received (a : wait_answers) (fd : Z) : Prop :=
  a_socket a = true /\ a_bind a = true /\ a_listen a = true /\ a_select a = true /\ a_accept a = true /\ a_recv a = Some fd.

Lemma wait_for_fd_spec a :
  fst (wait_for_fd a) = -1 \/ unassigned a /\ fst (wait_for_fd a) = a_fd0 a \/ received a (fst (wait_for_fd a)).
Proof.
  unfold wait_for_fd, unassigned, received.
  destruct (a_socket a), (a_bind a), (a_listen a), (a_select a), (a_accept a), (a_recv a); cbn; tauto.
Qed.

(** ** What main holds *)

Inductive resource :=
| R_Log | R_Password | R_Reactor | R_Signal | R_Device | R_ReadInterface | R_ReadBuffer | R_UdpGw | R_LwipJob
| R_WriteBuf | R_Timer | R_Netif | R_Pcb | R_Listener | R_ListenerIp6 | R_Client (id : nat).
#[global] Instance resource_eq_dec : EqDecision resource.
Proof. solve_decision. Defined.

(** Calls of lwip. *)
Inductive lwip_call :=
| L_init | L_netif_add (addr netmask : Z) | L_ip6_addr_set (b : list Z)
| L_tcp_tmr | L_ip_reass_tmr | L_nd6_tmr | L_ip6_reass_tmr
| L_abort_bound | L_abort_active | L_abort_tw.
#[global] Instance lwip_call_eq_dec : EqDecision lwip_call.
Proof. solve_decision. Defined.

Record world := mkWorld {
  held : list resource;
  quitting : bool;
  have_netif : bool;
  listener : bool;
  listener_ip6 : bool;
  tcp_timer_mod4 : Z;
  calls : list lwip_call;
  auth : list SocksClient.BSocksClient.auth_info   (* socks_auth_info *) }.

Definition set_held (h : list resource) (w : world) : world :=
  mkWorld h (quitting w) (have_netif w) (listener w) (listener_ip6 w) (tcp_timer_mod4 w) (calls w) (auth w).
Definition set_quitting (w : world) : world :=
  mkWorld (held w) true (have_netif w) (listener w) (listener_ip6 w) (tcp_timer_mod4 w) (calls w) (auth w).
Definition set_have_netif (w : world) : world :=
  mkWorld (held w) (quitting w) true (listener w) (listener_ip6 w) (tcp_timer_mod4 w) (calls w) (auth w).
Definition set_listener (w : world) : world :=
  mkWorld (held w) (quitting w) (have_netif w) true (listener_ip6 w) (tcp_timer_mod4 w) (calls w) (auth w).
Definition set_listener_ip6 (w : world) : world :=
  mkWorld (held w) (quitting w) (have_netif w) (listener w) true (tcp_timer_mod4 w) (calls w) (auth w).
Definition set_mod4 (v : Z) (w : world) : world :=
  mkWorld (held w) (quitting w) (have_netif w) (listener w) (listener_ip6 w) v (calls w) (auth w).
Definition call (c : lwip_call) (w : world) : world :=
  mkWorld (held w) (quitting w) (have_netif w) (listener w) (listener_ip6 w) (tcp_timer_mod4 w) (calls w ++ [c]) (auth w).

Definition set_auth (l : list SocksClient.BSocksClient.auth_info) (w : world) : world :=
  mkWorld (held w) (quitting w) (have_netif w) (listener w) (listener_ip6 w) (tcp_timer_mod4 w) (calls w) l.

(** Taking a resource, giving back the one that was taken last, and giving
    back any. *)
Definition acquire (r : resource) (w : world) : outcome world :=
  ASSERT (negb (bool_decide (r ∈ held w))) ≫= fun _ => Ok (set_held (r :: held w) w).
Definition release (r : resource) (w : world) : outcome world :=
  match held w with
  | r' :: h => ASSERT (bool_decide (r' = r)) ≫= fun _ => Ok (set_held h w)
  | [] => Fault
  end.
Definition dispose (r : resource) (w : world) : outcome world :=
  ASSERT (bool_decide (r ∈ held w)) ≫= fun _ => Ok (set_held (filter (fun x => x <> r) (held w)) w).

(** ** Handlers *)

Definition terminate (w : world) : outcome world :=
  ASSERT (negb (quitting w)) ≫= fun _ => Ok (set_quitting w).

Definition signal_handler (w : world) : outcome world :=
  ASSERT (negb (quitting w)) ≫= fun _ => terminate w.

Definition device_error_handler (w : world) : outcome world :=
  ASSERT (negb (quitting w)) ≫= fun _ => terminate w.

(** The timer is set again; every fourth time the slower timers of lwip. *)
Definition tcp_timer_handler (w : world) : outcome world :=
  ASSERT (negb (quitting w)) ≫= fun _ =>
  ASSERT (bool_decide (R_Timer ∈ held w)) ≫= fun _ =>
  let w := call L_tcp_tmr w in
  let w := set_mod4 (Z.rem (tcp_timer_mod4 w + 1) 4) w in
  Ok (if tcp_timer_mod4 w =? 0 then call L_ip6_reass_tmr (call L_nd6_tmr (call L_ip_reass_tmr w)) else w).

(** What lwip answers while it is initialised. *)
Record lwip_answers := mkLwip {
  netif_add_ok : bool; new4_ok : bool; bind4_ok : bool; listen4_ok : bool; new6_ok : bool; bind6_ok : bool; listen6_ok : bool }.

(** The label [fail] of the job. *)
Definition lwip_fail (w : world) : outcome world := if negb (quitting w) then terminate w else Ok w.

(** A listener: [tcp_listen] gives a new one for the control block, which is
    closed on a failure. *)
Definition make_listener (new_ok bind_ok listen_ok : bool) (l : resource) (set : world -> world)
    (k : world -> outcome world) (w : world) : outcome world :=
  if negb new_ok then lwip_fail w else
  acquire R_Pcb w ≫= fun w =>
  if negb bind_ok then release R_Pcb w ≫= lwip_fail else
  if negb listen_ok then release R_Pcb w ≫= lwip_fail else
  release R_Pcb w ≫= fun w => acquire l w ≫= fun w => k (set w).

Definition lwip_init_job_hadler (o : options) (g : globals) (a : lwip_answers) (w : world) : outcome world :=
  ASSERT (negb (quitting w)) ≫= fun _ =>
  ASSERT (iptype (g_netif_ipaddr g) =? 1) ≫= fun _ =>
  ASSERT (negb (have_netif w)) ≫= fun _ =>
  ASSERT (negb (listener w)) ≫= fun _ =>
  ASSERT (negb (listener_ip6 w)) ≫= fun _ =>
  let w := call L_init w in
  let addr := match g_netif_ipaddr g with BIPADDR_IPV4 a => a | _ => 0 end in
  let w := call (L_netif_add addr 0) w in
  if negb (netif_add_ok a) then lwip_fail w else
  acquire R_Netif w ≫= fun w =>
  let w := set_have_netif w in
  let w := if is_set (netif_ip6addr o) then call (L_ip6_addr_set (g_netif_ip6addr g)) w else w in
  make_listener (new4_ok a) (bind4_ok a) (listen4_ok a) R_Listener set_listener
    (fun w => if is_set (netif_ip6addr o)
              then make_listener (new6_ok a) (bind6_ok a) (listen6_ok a) R_ListenerIp6 set_listener_ip6 Ok w
              else Ok w) w.

(** ** The event loop *)

Inductive event :=
| E_Signal | E_DeviceError | E_Timer
| E_Accept (id : nat) (addr : list Z)   (* a client is accepted; its address in print *)
| E_Refuse (addr : list Z)              (* a client could not be set up *)
| E_ClientGone (id : nat)               (* a client is freed *).

(** Events that cannot happen are passed over: a client is accepted through a
    listener, and is new. *)
Definition enabled (w : world) (e : event) : bool :=
  match e with
  | E_Accept id _ => (listener w || listener_ip6 w) && negb (bool_decide (R_Client id ∈ held w))
  | E_Refuse _ => listener w || listener_ip6 w
  | E_ClientGone id => bool_decide (R_Client id ∈ held w)
  | _ => true
  end.

(** With [--append-source-to-username], [listener_accept_func] stores the name for
    the new client in the global credentials, which all SOCKS clients share.
    (Whether the string behind it lives long enough is the subject of
    TcpClient.v.) *)
Definition accept_auth (o : options) (addr : list Z) (l : list SocksClient.BSocksClient.auth_info) :=
  match username o with
  | Some user =>
      if append_source_to_username o then
        alter (fun i => SocksClient.BSocksClient.mkAuth (SocksClient.BSocksClient.auth_type i) (user ++ [64] ++ addr)
                          (SocksClient.BSocksClient.password i)) 1%nat l
      else l
  | None => l
  end.

Definition handle (o : options) (e : event) (w : world) : outcome world :=
  match e with
  | E_Signal => signal_handler w
  | E_DeviceError => device_error_handler w
  | E_Timer => tcp_timer_handler w
  | E_Accept id addr => acquire (R_Client id) (set_auth (accept_auth o addr (auth w)) w)
  | E_Refuse addr => Ok (set_auth (accept_auth o addr (auth w)) w)
  | E_ClientGone id => dispose (R_Client id) w
  end.

(** After [BReactor_Quit] nothing is dispatched any more. *)
Fixpoint dispatch (o : options) (es : list event) (w : world) : outcome world :=
  match es with
  | [] => Ok w
  | e :: es =>
      if quitting w then Ok w else
      (if enabled w e then handle o e w else Ok w) ≫= dispatch o es
  end.

(** The job for lwip was set before the event loop and comes first. *)
Definition BReactor_Exec (o : options) (g : globals) (a : lwip_answers) (es : list event) (w : world) : outcome world :=
  lwip_init_job_hadler o g a w ≫= dispatch o es.

(** ** main *)

Inductive daemon_answers :=
| D_ForkFailed
| D_Parent (pid_file_ok : bool)
| D_Child (setsid_ok chdir_ok : bool).

(** [None] is a return to [main], a number the argument of [exit]. *)
Definition daemonize (d : daemon_answers) : option Z :=
  match d with
  | D_ForkFailed => Some 1
  | D_Parent pid_file_ok => if pid_file_ok then Some 0 else Some 1
  | D_Child setsid_ok chdir_ok => if negb setsid_ok then Some 1 else if negb chdir_ok then Some 1 else None
  end.

(** What the system and the components answer. *)
Record env := mkEnv {
  e_syslog : bool; e_wait : wait_answers; e_daemon : daemon_answers; e_network : bool; e_reactor : bool; e_signal : bool;
  e_tap : bool; e_read_buffer : bool; e_udpgw : bool; e_write_buf : bool; e_lwip : lwip_answers; e_events : list event }.

Inductive result :=
| Return (code : Z) (w : world)   (* main returns *)
| Exit (code : Z) (w : world)     (* exit() in daemonize *)
| Running (levels : list Z) (g : globals) (w : world)   (* the event loop goes on *).

Definition BLog_SetChannelLoglevel (channel loglevel : Z) (w : world) (levels : list Z) : outcome (list Z) :=
  ASSERT (bool_decide (R_Log ∈ held w)) ≫= fun _ =>
  ASSERT ((0 <=? channel) && (channel <? BLOG_NUM_CHANNELS)) ≫= fun _ =>
  ASSERT ((0 <=? loglevel) && (loglevel <=? BLOG_DEBUG)) ≫= fun _ =>
  Ok (<[Z.to_nat channel := loglevel]> levels).

(** The loop over the channels [BLOG_NUM_CHANNELS - n], ... *)
Fixpoint configure_channels (n : nat) (o : options) (w : world) (levels : list Z) : outcome (list Z) :=
  match n with
  | O => Ok levels
  | S n' =>
      let i := BLOG_NUM_CHANNELS - Z.of_nat n in
      of_option (loglevels o !! Z.to_nat i) ≫= fun l =>
      (if 0 <=? l then BLog_SetChannelLoglevel i l w levels
       else if 0 <=? loglevel o then BLog_SetChannelLoglevel i (loglevel o) w levels
       else Ok levels) ≫= configure_channels n' o w
  end.

(** The labels, from the last one. *)
Definition fail0 (w : world) : outcome result := Ok (Return 1 w).
Definition fail1 (g : globals) (w : world) : outcome result :=
  (if bool_decide (is_Some (g_password_file_contents g)) then release R_Password w else Ok w) ≫= fun w =>
  release R_Log w ≫= fail0.
Definition fail2 (g : globals) (w : world) : outcome result := release R_Reactor w ≫= fail1 g.
Definition fail3 (g : globals) (w : world) : outcome result := release R_Signal w ≫= fail2 g.
Definition fail4 (g : globals) (w : world) : outcome result :=
  release R_ReadInterface w ≫= fun w => release R_Device w ≫= fail3 g.
Definition fail4a (g : globals) (w : world) : outcome result := release R_ReadBuffer w ≫= fail4 g.
Definition fail5 (o : options) (g : globals) (w : world) : outcome result :=
  release R_LwipJob w ≫= fun w =>
  (if is_set (udpgw_remote_server_addr o) then release R_UdpGw w else Ok w) ≫= fail4a g.

Definition is_client (r : resource) : bool := match r with R_Client _ => true | _ => false end.

(** [while (node = LinkedList1_GetFirst(&tcp_clients)) client_murder(...)]: the
    client that was accepted first is freed first. *)
Fixpoint murder_clients (fuel : nat) (w : world) : outcome world :=
  match last (filter is_client (held w)) with
  | None => Ok w
  | Some c => match fuel with O => Fault | S fuel => dispose c w ≫= murder_clients fuel end
  end.

(** Behind the event loop. *)
Definition main_teardown (o : options) (g : globals) (w : world) : outcome result :=
  murder_clients (length (held w)) w ≫= fun w =>
  (if listener_ip6 w then release R_ListenerIp6 w else Ok w) ≫= fun w =>
  (if listener w then release R_Listener w else Ok w) ≫= fun w =>
  (if have_netif w then release R_Netif w else Ok w) ≫= fun w =>
  let w := call L_abort_tw (call L_abort_active (call L_abort_bound w)) in
  release R_Timer w ≫= fun w =>
  release R_WriteBuf w ≫= fail5 o g.

(** From the job for lwip to the event loop and behind it. *)
Definition main_loop (o : options) (g : globals) (levels : list Z) (e : env) (w : world) : outcome result :=
  acquire R_LwipJob w ≫= fun w =>
  if negb (e_write_buf e) then fail5 o g w else
  acquire R_WriteBuf w ≫= fun w =>
  acquire R_Timer w ≫= fun w =>
  BReactor_Exec o g (e_lwip e) (e_events e) (set_mod4 0 w) ≫= fun w =>
  if quitting w then main_teardown o g w else Ok (Running levels g w).

(** The size of the datagrams and of the packets for the relay. *)
Definition relay_mtus (o : options) (mtu : Z) : Z * Z :=
  let udp_mtu := TunDevice.compute_udp_mtu (TunDevice.mkOptions true (is_set (netif_ip6addr o)) (is_set (dnsgw o))) mtu in
  (udp_mtu, UdpGwProto.udpgw_compute_mtu UdpGwProto.sizeof_socks_udp_header udp_mtu).

(** The client for UDP, when it is asked for. *)
Definition main_udpgw (o : options) (g : globals) (levels : list Z) (e : env) (mtu : Z) (w : world) : outcome result :=
  if is_set (udpgw_remote_server_addr o) then
    let '(udp_mtu, udpgw_mtu) := relay_mtus o mtu in
    if (udpgw_mtu <? 0) || (PACKETPROTO_MAXPAYLOAD <? udpgw_mtu) then fail4a g w else
    if negb (e_udpgw e) then fail4a g w else
    acquire R_UdpGw w ≫= main_loop o g levels e
  else main_loop o g levels e w.

(** The device and its reading. *)
Definition main_device (o : options) (g : globals) (levels : list Z) (e : env) (fd : Z) (w : world) : outcome result :=
  ASSERT (0 <=? fd) ≫= fun _ =>
  ASSERT (0 <=? tun_mtu o) ≫= fun _ =>
  if negb (e_tap e) then fail3 g w else
  acquire R_Device w ≫= fun w =>
  acquire R_ReadInterface w ≫= fun w =>
  if negb (e_read_buffer e) then fail4 g w else
  acquire R_ReadBuffer w ≫= main_udpgw o g levels e (tun_mtu o).

(** From the network to the device. *)
Definition main_init (o : options) (levels : list Z) (e : env) (fd : Z) (w : world) : outcome result :=
  if negb (e_network e) then fail1 globals0 w else
  process_arguments o globals0 ≫= fun '((ok, g) : bool * globals) =>
  (if bool_decide (is_Some (g_password_file_contents g)) then acquire R_Password w else Ok w) ≫= fun w =>
  let w := set_auth (g_auth_info g) w in
  if negb ok then fail1 g w else
  if negb (e_reactor e) then fail1 g w else
  acquire R_Reactor w ≫= fun w =>
  if negb (e_signal e) then fail2 g w else
  acquire R_Signal w ≫= main_device o g levels e fd.

Definition world0 : world := mkWorld [] false false false false 0 [] [].

(** ["com.github.shadowsocks"] is copied over [argv[0]]. *)
Definition fake_name : list Z := chars "com.github.shadowsocks".
Definition rename_process (o : options) (argv0 : list Z) : outcome unit :=
  if fake_proc o then ASSERT (Zlen fake_name <=? Zlen argv0) else Ok tt.

Variable atoi_undefined : list Z -> Z.

(** From the opened log on. *)
Definition main_started (o : options) (e : env) (w : world) : outcome result :=
  configure_channels (Z.to_nat BLOG_NUM_CHANNELS) o w (map snd blog_channel_list) ≫= fun levels =>
  let fd := fst (wait_for_fd (e_wait e)) in
  if fd =? -1 then fail1 globals0 w else
  match (if is_set (pid o) then daemonize (e_daemon e) else None) with
  | Some code => Ok (Exit code w)
  | None => main_init o levels e fd w
  end.

(** From the name of the process on. *)
Definition main_named (o : options) (e : env) : outcome result :=
  if help o then Ok (Return 0 world0) else
  if version o then Ok (Return 0 world0) else
  if logger o =? LOGGER_STDOUT then acquire R_Log world0 ≫= main_started o e else
  if logger o =? LOGGER_SYSLOG then
    if e_syslog e then acquire R_Log world0 ≫= main_started o e else fail0 world0
  else Fault.

Definition main (argv : list (list Z)) (e : env) : outcome result :=
  match argv with
  | [] => Ok (Return 1 world0)
  | argv0 :: _ =>
      match parse_arguments atoi_undefined argv with
      | None => fail0 world0
      | Some o => rename_process o argv0 ≫= fun _ => main_named o e
      end
  end.

(** ** Everything that is taken is given back *)

Lemma acquire_new r w : r ∉ held w -> acquire r w = Ok (set_held (r :: held w) w).
Proof. intros H. unfold acquire. by rewrite bool_decide_eq_false_2. Qed.

Lemma release_top r h w : held w = r :: h -> release r w = Ok (set_held h w).
Proof. intros H. unfold release. rewrite H. by rewrite bool_decide_eq_true_2. Qed.

(** A return of [main] with nothing held. *)
Definition ends (m : outcome result) : Prop := exists c w, m = Ok (Return c w) /\ held w = [] /\ c = 1.

(** What is held at the labels. *)
Definition held1 (g : globals) : list resource :=
  (if bool_decide (is_Some (g_password_file_contents g)) then [R_Password] else []) ++ [R_Log].
Definition held2 g := R_Reactor :: held1 g.
Definition held3 g := R_Signal :: held2 g.
Definition held4 g := R_ReadInterface :: R_Device :: held3 g.
Definition held4a g := R_ReadBuffer :: held4 g.
Definition held_udp o g := (if is_set (udpgw_remote_server_addr o) then [R_UdpGw] else []) ++ held4a g.
Definition held5 o g := R_LwipJob :: held_udp o g.
Definition held_loop o g := R_Timer :: R_WriteBuf :: held5 o g.

Lemma fail1_ends g w : held w = held1 g -> ends (fail1 g w).
Proof.
  unfold held1, fail1. intros H. destruct (bool_decide _).
  - rewrite (release_top _ _ _ H). cbn [mbind outcome_bind]. rewrite (release_top R_Log []) by done.
    by eexists _, _.
  - cbn [mbind outcome_bind app] in *. rewrite (release_top _ _ _ H). by eexists _, _.
Qed.

Lemma fail2_ends g w : held w = held2 g -> ends (fail2 g w).
Proof. intros H. unfold fail2. rewrite (release_top _ _ _ H). by apply fail1_ends. Qed.
Lemma fail3_ends g w : held w = held3 g -> ends (fail3 g w).
Proof. intros H. unfold fail3. rewrite (release_top _ _ _ H). by apply fail2_ends. Qed.
Lemma fail4_ends g w : held w = held4 g -> ends (fail4 g w).
Proof.
  intros H. unfold fail4. rewrite (release_top _ _ _ H). cbn [mbind outcome_bind].
  rewrite (release_top R_Device (held3 g)) by done. by apply fail3_ends.
Qed.
Lemma fail4a_ends g w : held w = held4a g -> ends (fail4a g w).
Proof. intros H. unfold fail4a. rewrite (release_top _ _ _ H). by apply fail4_ends. Qed.
Lemma fail5_ends o g w : held w = held5 o g -> ends (fail5 o g w).
Proof.
  intros H. unfold fail5. rewrite (release_top _ _ _ H). cbn [mbind outcome_bind]. unfold held_udp.
  destruct (is_set _); [rewrite (release_top R_UdpGw (held4a g)) by done|]; by apply fail4a_ends.
Qed.

(** *** The event loop *)

(** What lwip holds. *)
Definition lwip_held (w : world) : list resource :=
  (if listener_ip6 w then [R_ListenerIp6] else []) ++ (if listener w then [R_Listener] else []) ++
  (if have_netif w then [R_Netif] else []).

(** How often lwip has been called so. *)
Definition times (c : lwip_call) (w : world) : Z := Zlen (filter (fun x => x = c) (calls w)).

Lemma times_call c c' w : times c (call c' w) = times c w + (if decide (c' = c) then 1 else 0).
Proof.
  unfold times, call. cbn [calls]. rewrite filter_app, length_app. cbn. case_decide; cbn [length]; lia.
Qed.

(** The timers: each of the slower ones is called once in four times. *)
Definition timers_ok (w : world) : Prop :=
  tcp_timer_mod4 w = times L_tcp_tmr w mod 4 /\
  forall c, c = L_ip_reass_tmr \/ c = L_nd6_tmr \/ c = L_ip6_reass_tmr -> times c w = times L_tcp_tmr w / 4.

(** In the event loop. [base] is what [main] holds in it. *)
Definition loop_inv (base : list resource) (w : world) : Prop :=
  exists ids, held w = map R_Client ids ++ lwip_held w ++ base /\ NoDup ids /\
    (listener_ip6 w = true -> listener w = true) /\ (listener w = true -> have_netif w = true) /\
    (ids <> [] -> listener w = true) /\ timers_ok w.

(** What is not a resource of lwip and is not a client. *)
Definition base_ok (base : list resource) : Prop :=
  R_Timer ∈ base /\ R_Netif ∉ base /\ R_Pcb ∉ base /\ R_Listener ∉ base /\ R_ListenerIp6 ∉ base /\
  forall id, R_Client id ∉ base.

Lemma held_loop_ok o g : base_ok (held_loop o g).
Proof.
  unfold base_ok, held_loop, held5, held_udp, held4a, held4, held3, held2, held1.
  destruct (is_set _), (bool_decide _); cbn; repeat apply conj; intros; set_solver.
Qed.

Lemma lwip_held_no_client w id : R_Client id ∉ lwip_held w.
Proof. unfold lwip_held. destruct (listener_ip6 w), (listener w), (have_netif w); cbn; set_solver. Qed.

Lemma client_held base w ids id : base_ok base -> held w = map R_Client ids ++ lwip_held w ++ base ->
  R_Client id ∈ held w <-> id ∈ ids.
Proof.
  intros (_ & _ & _ & _ & _ & Hc) ->. rewrite !elem_of_app, list_elem_of_In, in_map_iff. split.
  - intros [(x & [= ->] & Hx)|[H|H]]; [by apply list_elem_of_In|by apply lwip_held_no_client in H|by apply Hc in H].
  - intros H. left. exists id. split; [done|by apply list_elem_of_In].
Qed.

Lemma filter_client ids id : filter (fun x => x <> R_Client id) (map R_Client ids) = map R_Client (filter (fun x => x <> id) ids).
Proof.
  induction ids as [|x ids IH]; [done|]. cbn [map]. rewrite !filter_cons, IH.
  destruct (decide (x = id)) as [->|Hne]; [by rewrite !decide_False by naive_solver|by rewrite !decide_True by naive_solver].
Qed.

Lemma filter_all {A} (P : A -> Prop) `{forall x, Decision (P x)} (l : list A) : (forall x, x ∈ l -> P x) -> filter P l = l.
Proof.
  induction l as [|x l IH]; intros Hl; [done|]. rewrite filter_cons, decide_True by (apply Hl; left). f_equal.
  apply IH. intros y Hy. apply Hl. by right.
Qed.

Lemma dispose_client base w ids id : base_ok base -> held w = map R_Client ids ++ lwip_held w ++ base -> id ∈ ids ->
  dispose (R_Client id) w = Ok (set_held (map R_Client (filter (fun x => x <> id) ids) ++ lwip_held w ++ base) w).
Proof.
  intros Hb Hw Hid. unfold dispose. rewrite bool_decide_eq_true_2 by by apply (client_held base w ids).
  cbn [ASSERT mbind outcome_bind]. do 2 f_equal. rewrite Hw, !filter_app, filter_client. f_equal.
  destruct Hb as (_ & _ & _ & _ & _ & Hc).
  rewrite (filter_all _ (lwip_held w)), (filter_all _ base); [done| |]; intros x Hx ->.
  - by apply Hc in Hx.
  - by apply lwip_held_no_client in Hx.
Qed.

Lemma timer_ok base w : base_ok base -> loop_inv base w -> quitting w = false ->
  exists w', tcp_timer_handler w = Ok w' /\ loop_inv base w' /\
    have_netif w' = have_netif w /\ listener w' = listener w /\ listener_ip6 w' = listener_ip6 w /\ auth w' = auth w.
Proof.
  intros Hb (ids & Hw & Hnd & H1 & H2 & H3 & Hm & Ht) Hq. unfold tcp_timer_handler. rewrite Hq.
  rewrite (bool_decide_eq_true_2 (R_Timer ∈ held w)).
  2: { rewrite Hw. destruct Hb as (Hr & _). rewrite !elem_of_app. auto. }
  cbn [ASSERT negb mbind outcome_bind].
  set (w1 := set_mod4 _ _). assert (Hn : times L_tcp_tmr w1 = times L_tcp_tmr w + 1).
  { exact (times_call L_tcp_tmr L_tcp_tmr w). }
  assert (H4 : tcp_timer_mod4 w1 = (times L_tcp_tmr w + 1) mod 4).
  { unfold w1. cbn. rewrite Hm. pose proof (Z.mod_pos_bound (times L_tcp_tmr w) 4 ltac:(lia)).
    rewrite Z.rem_mod_nonneg by lia. by rewrite Z.add_mod_idemp_l by lia. }
  assert (Ho : forall c, c <> L_tcp_tmr -> times c w1 = times c w).
  { intros c Hc. transitivity (times c (call L_tcp_tmr w)); [done|]. rewrite times_call, decide_False by congruence. lia. }
  pose proof (Z.div_mod (times L_tcp_tmr w) 4 ltac:(lia)) as D0. pose proof (Z.mod_pos_bound (times L_tcp_tmr w) 4 ltac:(lia)) as M0.
  pose proof (Z.div_mod (times L_tcp_tmr w + 1) 4 ltac:(lia)) as D1. pose proof (Z.mod_pos_bound (times L_tcp_tmr w + 1) 4 ltac:(lia)) as M1.
  destruct (Z.eqb_spec (tcp_timer_mod4 w1) 0) as [E|E]; eexists; (split; [done|]); (split; [|done]); exists ids;
    (split_and!; [exact Hw|exact Hnd|exact H1|exact H2|exact H3|split]).
  - transitivity (tcp_timer_mod4 w1); [done|]. rewrite !times_call, Hn, !decide_False by done. rewrite !Z.add_0_r. lia.
  - intros c Hc. rewrite !times_call, Hn, Ho, (Ht c Hc) by naive_solver. rewrite !(decide_False (P := _ = L_tcp_tmr)) by done.
    rewrite !Z.add_0_r. destruct Hc as [->|[->| ->]]; cbn [decide lwip_call_eq_dec]; repeat case_decide; try done; lia.
  - by rewrite Hn.
  - intros c Hc. rewrite Hn, Ho, (Ht c Hc) by naive_solver. lia.
Qed.

Lemma loop_inv_quitting base w : loop_inv base w -> loop_inv base (set_quitting w).
Proof. intros H. exact H. Qed.

(** The interface and the listeners stay as they are. *)
Definition same_net (w w' : world) : Prop :=
  have_netif w' = have_netif w /\ listener w' = listener w /\ listener_ip6 w' = listener_ip6 w.

(** What becomes of the credentials. *)
Definition auth_later (o : options) (l l' : list SocksClient.BSocksClient.auth_info) : Prop :=
  l' = l \/ exists addr, l' = accept_auth o addr l.

Lemma accept_auth_twice o a b l : accept_auth o b (accept_auth o a l) = accept_auth o b l.
Proof.
  unfold accept_auth. destruct (username o) as [user|], (append_source_to_username o); try done.
  destruct l as [|x [|y l]]; done.
Qed.

Lemma auth_later_trans o l1 l2 l3 : auth_later o l1 l2 -> auth_later o l2 l3 -> auth_later o l1 l3.
Proof.
  unfold auth_later. intros [->|[a ->]] [->|[b ->]]; eauto. right. exists b. by rewrite accept_auth_twice.
Qed.

Lemma terminate_ok base w : loop_inv base w -> quitting w = false ->
  exists w', terminate w = Ok w' /\ loop_inv base w' /\ quitting w' = true /\ same_net w w' /\ auth w' = auth w.
Proof. intros H Hq. unfold terminate. rewrite Hq. eexists. split; [done|]. by split_and!; [apply loop_inv_quitting|..]. Qed.

(** A handler. *)
Lemma handle_event_ok base o e w : base_ok base -> loop_inv base w -> quitting w = false -> enabled w e = true ->
  exists w', handle o e w = Ok w' /\ loop_inv base w' /\ same_net w w' /\ auth_later o (auth w) (auth w').
Proof.
  intros Hb Hi Hq He. destruct e as [| | |id addr|addr|id]; cbn [handle enabled] in *.
  - unfold signal_handler. rewrite Hq. destruct (terminate_ok base w Hi Hq) as (w' & E & ? & _ & ? & ?).
    exists w'. split_and!; try done. by left.
  - unfold device_error_handler. rewrite Hq. destruct (terminate_ok base w Hi Hq) as (w' & E & ? & _ & ? & ?).
    exists w'. split_and!; try done. by left.
  - destruct (timer_ok base w Hb Hi Hq) as (w' & E & ? & ? & ? & ? & ?). exists w'. split_and!; try done. by left.
  - apply andb_true_iff in He as [Hl Hn%negb_true_iff%bool_decide_eq_false].
    rewrite acquire_new by done. eexists. split; [done|]. split; [|split; [done|right; by exists addr]].
    destruct Hi as (ids & Hw & Hnd & H1 & H2 & H3 & Ht). exists (id :: ids). split_and!; try done.
    + cbn. by rewrite Hw.
    + constructor; [|done]. by rewrite <- (client_held base w ids).
    + intros _. apply orb_true_iff in Hl as [?|?]; auto.
  - eexists. split; [done|]. split; [exact Hi|]. split; [done|]. right. by exists addr.
  - apply bool_decide_eq_true in He. destruct Hi as (ids & Hw & Hnd & H1 & H2 & H3 & Ht).
    rewrite (client_held base w ids) in He by done. rewrite (dispose_client base w ids id Hb Hw He).
    eexists. split; [done|]. split; [|by split; [|left]]. exists (filter (fun x => x <> id) ids). split_and!; try done.
    + by apply NoDup_filter.
    + intros _. apply H3. by intros ->; apply not_elem_of_nil in He.
Qed.

Lemma dispatch_ok base o es : base_ok base -> forall w, loop_inv base w ->
  exists w', dispatch o es w = Ok w' /\ loop_inv base w' /\ same_net w w' /\ auth_later o (auth w) (auth w') /\
    (quitting w' = false -> quitting w = false).
Proof.
  intros Hb. induction es as [|e es IH]; intros w Hi; cbn [dispatch]; [exists w; split_and!; try done; by left|].
  destruct (quitting w) eqn:Hq; [exists w; rewrite Hq; split_and!; try done; by left|]. destruct (enabled w e) eqn:He.
  - destruct (handle_event_ok base o e w Hb Hi Hq He) as (w1 & E & Hi1 & (Hs1 & Hs2 & Hs3) & Ha1). rewrite E. cbn [mbind outcome_bind].
    destruct (IH w1 Hi1) as (w' & E' & Hi' & (Ht1 & Ht2 & Ht3) & Ha' & _). exists w'. split_and!; try done;
      [unfold same_net; split_and!; congruence|by eapply auth_later_trans].
  - destruct (IH w Hi) as (w' & E' & Hi' & Hs & Ha & _). by exists w'.
Qed.

(** One listener. *)
Lemma make_listener_eq a b c l set k w : R_Pcb ∉ held w -> l ∉ held w ->
  make_listener a b c l set k w =
  if a && b && c then k (set (set_held (l :: held w) w)) else lwip_fail w.
Proof.
  intros Hp Hl. unfold make_listener. destruct a; [|done]. cbn [negb andb]. rewrite acquire_new by done.
  cbn [mbind outcome_bind]. assert (Hr : release R_Pcb (set_held (R_Pcb :: held w) w) = Ok w).
  { rewrite (release_top R_Pcb (held w)) by done. by destruct w. }
  destruct b; cbn [negb andb]; rewrite Hr; [|done]. destruct c; [|done]. cbn [negb mbind outcome_bind].
  by rewrite acquire_new.
Qed.

Lemma lwip_fail_ok base w : loop_inv base w ->
  exists w', lwip_fail w = Ok w' /\ loop_inv base w' /\ quitting w' = true /\ auth w' = auth w.
Proof.
  intros H. unfold lwip_fail. destruct (quitting w) eqn:Hq; cbn [negb]; [by exists w|].
  destruct (terminate_ok base w H Hq) as (w' & ? & ? & ? & _ & ?). by exists w'.
Qed.

(** The network is up: the interface and the listeners that are needed. *)
Definition up (o : options) (w : world) : Prop :=
  have_netif w = true /\ listener w = true /\ (netif_ip6addr o <> None -> listener_ip6 w = true).

Lemma lwip_held_fresh base w r : base_ok base -> held w = lwip_held w ++ base ->
  r = R_Pcb \/ r = R_Listener /\ listener w = false \/ r = R_ListenerIp6 /\ listener_ip6 w = false -> r ∉ held w.
Proof.
  intros (_ & H1 & H2 & H3 & H4 & _) -> Hr. unfold lwip_held.
  destruct Hr as [->|[[-> ->]|[-> ->]]]; destruct (have_netif w); try destruct (listener w); try destruct (listener_ip6 w); cbn;
    set_solver.
Qed.

(** Before the job has run. *)
Definition fresh (base : list resource) (l : list SocksClient.BSocksClient.auth_info) (w : world) : Prop :=
  auth w = l /\ held w = base /\ quitting w = false /\ have_netif w = false /\ listener w = false /\ listener_ip6 w = false /\
  tcp_timer_mod4 w = 0 /\ calls w = [].

Lemma timers_ext w w' : timers_ok w -> tcp_timer_mod4 w' = tcp_timer_mod4 w -> calls w' = calls w -> timers_ok w'.
Proof. unfold timers_ok, times. by intros H -> ->. Qed.

Lemma timers_other c w : timers_ok w ->
  c <> L_tcp_tmr -> c <> L_ip_reass_tmr -> c <> L_nd6_tmr -> c <> L_ip6_reass_tmr -> timers_ok (call c w).
Proof.
  intros [Hm Ht] H1 H2 H3 H4. unfold timers_ok. rewrite times_call, decide_False, Z.add_0_r by done.
  split; [exact Hm|]. intros c' Hc. rewrite times_call, decide_False, Z.add_0_r by naive_solver. by apply Ht.
Qed.

Lemma timers_fresh w : tcp_timer_mod4 w = 0 -> calls w = [] -> timers_ok w.
Proof. unfold timers_ok, times. intros -> ->. split; [done|]. by intros c [->|[->| ->]]. Qed.

(** Without clients. *)
Lemma loop_inv_start base w : held w = lwip_held w ++ base -> timers_ok w ->
  (listener_ip6 w = true -> listener w = true) -> (listener w = true -> have_netif w = true) -> loop_inv base w.
Proof. intros Hh Ht H1 H2. exists []. split_and!; try done. constructor. Qed.

Definition job_done (base : list resource) (l : list SocksClient.BSocksClient.auth_info) (o : options) (m : outcome world) : Prop :=
  exists w', m = Ok w' /\ loop_inv base w' /\ auth w' = l /\ (quitting w' = false -> up o w').

Lemma job_fails base o l w : auth w = l -> loop_inv base w -> job_done base l o (lwip_fail w).
Proof.
  intros <- H1. destruct (lwip_fail_ok base w H1) as (w' & -> & ? & Hq' & ?). exists w'. rewrite Hq'. done.
Qed.

(** The IPv6 listener, when an address is configured. *)
Lemma job_listener6 base o a au w : auth w = au -> base_ok base -> held w = lwip_held w ++ base -> timers_ok w ->
  have_netif w = true -> listener w = true -> listener_ip6 w = false ->
  job_done base au o (if is_set (netif_ip6addr o)
    then make_listener (new6_ok a) (bind6_ok a) (listen6_ok a) R_ListenerIp6 set_listener_ip6 Ok w else Ok w).
Proof.
  intros <- Hb Hh Ht Hn Hl H6. assert (Hi : loop_inv base w) by by apply loop_inv_start.
  destruct (netif_ip6addr o) eqn:Eo; cbn [is_set]; 
    [|exists w; unfold up; rewrite Eo; split_and!; try done; intros _; by split_and!].
  rewrite make_listener_eq by (apply (lwip_held_fresh base w); auto). destruct (_ && _); [|by apply job_fails].
  eexists. split; [done|]. split; [|split; [done|intros _; unfold up; cbn; auto]].
  apply loop_inv_start; [|by eapply timers_ext|done|done]. unfold lwip_held in *. cbn. rewrite Hh, Hn, Hl, H6. done.
Qed.

Lemma lwip_init_ok base o g a l w : base_ok base -> fresh base l w -> iptype (g_netif_ipaddr g) = 1 ->
  job_done base l o (lwip_init_job_hadler o g a w).
Proof.
  intros Hb (<- & Hh & Hq & Hn & Hl & H6 & Hm & Hc) Hip. unfold lwip_init_job_hadler.
  rewrite Hq, Hn, Hl, H6, Hip. cbn [negb ASSERT mbind outcome_bind Z.eqb Pos.eqb].
  set (w0 := call _ (call L_init w)).
  assert (Ht0 : timers_ok w0) by (do 2 (apply timers_other; try done); by apply timers_fresh).
  assert (Hh0 : held w0 = base) by done.
  destruct (netif_add_ok a); cbn [negb].
  2: { apply job_fails; [done|]. apply loop_inv_start; [|done|cbn; by rewrite H6|cbn; by rewrite Hl].
       unfold lwip_held. cbn. by rewrite Hh, Hn, Hl, H6. }
  rewrite acquire_new by (rewrite Hh0; by destruct Hb as (_ & ? & _)). cbn [mbind outcome_bind].
  set (w1 := if is_set _ then _ else _).
  assert (Hw1 : held w1 = R_Netif :: base /\ have_netif w1 = true /\ listener w1 = false /\ listener_ip6 w1 = false /\ auth w1 = auth w /\ timers_ok w1).
  { unfold w1. destruct (is_set _); (split_and!; [cbn; by rewrite ?Hh|done|exact Hl|exact H6|done|]); [apply timers_other; try done|];
      by apply (timers_ext w0). }
  destruct Hw1 as (Hh1 & Hn1 & Hl1 & H61 & Ha1 & Ht1).
  assert (Hlh : held w1 = lwip_held w1 ++ base) by (unfold lwip_held; by rewrite Hh1, Hn1, Hl1, H61).
  rewrite make_listener_eq by (apply (lwip_held_fresh base w1); auto). destruct (_ && _).
  2: { apply job_fails; [done|]. apply loop_inv_start; [done|done|by rewrite H61|by rewrite Hl1]. }
  apply job_listener6; [done|done| |by apply (timers_ext w1)|exact Hn1|done|exact H61].
  unfold lwip_held in *. cbn. rewrite Hh1, Hn1, H61. done.
Qed.

(** *** Behind the event loop *)

Lemma clients_of base w ids : base_ok base -> held w = map R_Client ids ++ lwip_held w ++ base ->
  filter is_client (held w) = map R_Client ids.
Proof.
  intros (_ & _ & _ & _ & _ & Hc) ->. rewrite !filter_app.
  assert (Hnil : forall l, (forall id, R_Client id ∉ l) -> filter is_client l = []).
  { induction l as [|x l IH]; intros Hl; [done|]. rewrite filter_cons, decide_False.
    - apply IH. intros id Hid. apply (Hl id). by right.
    - intros Hx. assert (exists i, x = R_Client i) as [i ->] by (destruct x; try done; eauto). apply (Hl i). left. }
  rewrite (Hnil (lwip_held w)), (Hnil base) by (done || apply lwip_held_no_client). rewrite !app_nil_r.
  apply filter_all. intros x [id [<- _]]%list_elem_of_In%in_map_iff. done.
Qed.

Lemma murder_clients_ok base ids : base_ok base -> forall fuel w, (length ids <= fuel)%nat -> NoDup ids ->
  held w = map R_Client ids ++ lwip_held w ++ base ->
  murder_clients fuel w = Ok (set_held (lwip_held w ++ base) w).
Proof.
  intros Hb. induction ids as [|id ids IH] using rev_ind; intros fuel w Hf Hnd Hw.
  - destruct fuel; cbn [murder_clients]; rewrite (clients_of base w [] Hb Hw); cbn in Hw |- *;
      rewrite <- Hw; by destruct w.
  - rewrite length_app in Hf. cbn [length] in Hf. destruct fuel as [|fuel]; [lia|]. cbn [murder_clients].
    rewrite (clients_of base w _ Hb Hw), map_app. cbn [map]. rewrite last_snoc.
    apply NoDup_app in Hnd as (Hnd & Hni & _).
    rewrite (dispose_client base w _ id Hb Hw) by (apply elem_of_app; right; by left). cbn [mbind outcome_bind].
    replace (filter (fun x => x <> id) (ids ++ [id])) with ids.
    + rewrite IH; [done|lia|done|done].
    + rewrite filter_app, filter_all; [cbn; rewrite decide_False by auto; by rewrite app_nil_r|].
      intros x Hx ->. apply (Hni id Hx). by left.
Qed.

Lemma release_if (b : bool) r rest w : held w = (if b then [r] else []) ++ rest ->
  (if b then release r w else Ok w) = Ok (set_held rest w).
Proof. destruct b; intros H; [by apply release_top|]. cbn in H. rewrite <- H. by destruct w. Qed.

Lemma teardown_ends o g w : loop_inv (held_loop o g) w -> ends (main_teardown o g w).
Proof.
  intros (ids & Hw & Hnd & _). unfold main_teardown.
  rewrite (murder_clients_ok _ ids (held_loop_ok o g)) by (done || (rewrite Hw, length_app, length_map; lia)).
  cbn [mbind outcome_bind]. unfold lwip_held. rewrite <- !app_assoc.
  erewrite release_if by reflexivity. cbn [mbind outcome_bind].
  erewrite release_if by reflexivity. cbn [mbind outcome_bind].
  erewrite release_if by reflexivity. cbn [mbind outcome_bind].
  rewrite (release_top R_Timer (R_WriteBuf :: held5 o g)) by done. cbn [mbind outcome_bind].
  rewrite (release_top R_WriteBuf (held5 o g)) by done. by apply fail5_ends.
Qed.

(** *** From the start to the event loop *)

(** The level of each channel: its own, or that of all, or the default. *)
Definition effective_levels (o : options) : list Z :=
  zip_with (fun l d => if 0 <=? l then l else if 0 <=? loglevel o then loglevel o else d)
    (loglevels o) (map snd blog_channel_list).

Definition settled (o : options) (m : outcome result) : Prop :=
  exists r, m = Ok r /\
  match r with
  | Return c w => held w = [] /\ c = 1
  | Exit c w => False
  | Running levels g w =>
      loop_inv (held_loop o g) w /\ quitting w = false /\ up o w /\ processed o g /\ levels = effective_levels o /\
      auth_later o (g_auth_info g) (auth w) /\
      (udpgw_remote_server_addr o <> None -> 0 <= snd (relay_mtus o (tun_mtu o)) <= PACKETPROTO_MAXPAYLOAD)
  end.

Lemma ends_settled o m : ends m -> settled o m.
Proof. intros (c & w & -> & Hh & ->). eexists. split; [done|]. done. Qed.

Lemma fresh_acquire h r l w : fresh h l w -> r ∉ h -> exists w', acquire r w = Ok w' /\ fresh (r :: h) l w'.
Proof.
  intros (Ha & Hh & Hr) Hn. rewrite acquire_new by by rewrite Hh. eexists. split; [done|].
  split; [exact Ha|]. split; [cbn; by rewrite Hh|exact Hr].
Qed.

(** The labels with a fresh world; which of the resources are held is decided
    by computation. *)
Ltac not_held :=
  unfold held5, held_udp, held4a, held4, held3, held2, held1;
  repeat match goal with |- context [if ?b then _ else _] => destruct b end; cbn; set_solver.
Ltac take r w' E H :=
  match goal with Hf : fresh ?h ?l ?w |- _ =>
    destruct (fresh_acquire h r l w Hf ltac:(not_held)) as (w' & E & H); rewrite E; cbn [mbind outcome_bind]; clear Hf
  end.

Lemma main_loop_settled o g e w : fresh (held_udp o g) (g_auth_info g) w -> processed o g ->
  (udpgw_remote_server_addr o <> None -> 0 <= snd (relay_mtus o (tun_mtu o)) <= PACKETPROTO_MAXPAYLOAD) ->
  settled o (main_loop o g (effective_levels o) e w).
Proof.
  intros Hf Hp Hm. unfold main_loop. take R_LwipJob w1 E1 Hf1.
  destruct (e_write_buf e); cbn [negb]; [|apply ends_settled, fail5_ends; by destruct Hf1 as (_ & ? & _)].
  take R_WriteBuf w2 E2 Hf2. take R_Timer w3 E3 Hf3. unfold BReactor_Exec.
  assert (Hf4 : fresh (held_loop o g) (g_auth_info g) (set_mod4 0 w3)) by (destruct Hf3 as (? & ? & ? & ? & ? & ? & ? & ?); by split_and!).
  destruct (lwip_init_ok (held_loop o g) o g (e_lwip e) _ _ (held_loop_ok o g) Hf4) as (w4 & E4 & Hi4 & Ha4 & Hup); [by destruct Hp|].
  rewrite E4. cbn [mbind outcome_bind].
  destruct (dispatch_ok (held_loop o g) o (e_events e) (held_loop_ok o g) w4 Hi4) as (w5 & E5 & Hi5 & (Hs1 & Hs2 & Hs3) & Ha5 & Hq5). rewrite E5.
  cbn [mbind outcome_bind]. destruct (quitting w5) eqn:Hq; [by apply ends_settled, teardown_ends|].
  rewrite Ha4 in Ha5. eexists. split; [done|]. split_and!; try done; try apply Hm; try done.
  destruct (Hup (Hq5 eq_refl)) as (Hu1 & Hu2 & Hu3). split_and!; [congruence|congruence|]. intros Hi6. rewrite Hs3. auto.
Qed.

Lemma main_udpgw_settled o g e w : fresh (held4a g) (g_auth_info g) w -> processed o g -> 0 <= tun_mtu o ->
  settled o (main_udpgw o g (effective_levels o) e (tun_mtu o) w).
Proof.
  intros Hf Hp Hm. unfold main_udpgw. destruct (udpgw_remote_server_addr o) as [a|] eqn:Ea; cbn [is_set].
  2: { apply main_loop_settled; [unfold held_udp; by rewrite Ea|done|by rewrite Ea]. }
  destruct (relay_mtus o (tun_mtu o)) as [udp_mtu mtu] eqn:Em. destruct (_ || _) eqn:E0; [apply ends_settled, fail4a_ends; by destruct Hf as (_ & ? & _)|].
  destruct (e_udpgw e); cbn [negb]; [|apply ends_settled, fail4a_ends; by destruct Hf as (_ & ? & _)].
  take R_UdpGw w1 E1 Hf1. apply main_loop_settled; [unfold held_udp; by rewrite Ea|done|]. intros _. rewrite Em. cbn [snd].
  apply orb_false_iff in E0 as [?%Z.ltb_ge ?%Z.ltb_ge]. done.
Qed.

Lemma main_device_settled o g e fd w : fresh (held3 g) (g_auth_info g) w -> processed o g -> 0 <= tun_mtu o -> 0 <= fd ->
  settled o (main_device o g (effective_levels o) e fd w).
Proof.
  intros Hf Hp Hm Hfd. unfold main_device. rewrite !(proj2 (Z.leb_le _ _)) by done. cbn [ASSERT mbind outcome_bind].
  destruct (e_tap e); cbn [negb]; [|apply ends_settled, fail3_ends; by destruct Hf as (_ & ? & _)].
  take R_Device w1 E1 Hf1. take R_ReadInterface w2 E2 Hf2.
  destruct (e_read_buffer e); cbn [negb]; [|apply ends_settled, fail4_ends; by destruct Hf2 as (_ & ? & _)].
  take R_ReadBuffer w3 E3 Hf3. by apply main_udpgw_settled.
Qed.

Lemma password_acquired g w : fresh [R_Log] [] w ->
  exists w1, (if bool_decide (is_Some (g_password_file_contents g)) then acquire R_Password w else Ok w) = Ok w1 /\
    fresh (held1 g) (g_auth_info g) (set_auth (g_auth_info g) w1).
Proof.
  intros Hf. unfold held1. destruct (bool_decide _); [|exists w; split; [done|]; destruct Hf as (_ & Hf); split; [done|exact Hf]].
  destruct (fresh_acquire [R_Log] R_Password [] w Hf ltac:(set_solver)) as (w1 & E & _ & H).
  exists w1. split; [exact E|]. split; [done|exact H].
Qed.

Lemma main_init_settled o e fd w : fresh [R_Log] [] w -> needed o -> 0 <= tun_mtu o -> 0 <= fd ->
  settled o (main_init o (effective_levels o) e fd w).
Proof.
  intros Hf Hn Hm Hfd. unfold main_init. destruct (e_network e); cbn [negb]; [|apply ends_settled, fail1_ends; by destruct Hf as (_ & ? & _)].
  destruct (process_arguments_spec o globals0 Hn eq_refl eq_refl) as (ok & g & E & Hp). rewrite E. cbn [mbind outcome_bind].
  destruct (password_acquired g w Hf) as (w0 & E1 & Hf1). rewrite E1. cbn [mbind outcome_bind]. clear Hf.
  set (w1 := set_auth (g_auth_info g) w0) in *.
  destruct ok; cbn [negb]; [|apply ends_settled, fail1_ends; by destruct Hf1 as (_ & ? & _)]. specialize (Hp eq_refl).
  destruct (e_reactor e); cbn [negb]; [|apply ends_settled, fail1_ends; by destruct Hf1 as (_ & ? & _)].
  take R_Reactor w2 E2 Hf2. destruct (e_signal e); cbn [negb]; [|apply ends_settled, fail2_ends; by destruct Hf2 as (_ & ? & _)].
  take R_Signal w3 E3 Hf3. by apply main_device_settled.
Qed.

(** With a negative number for the device. *)
Lemma main_init_bad o e fd w : fresh [R_Log] [] w -> needed o -> fd < 0 ->
  main_init o (effective_levels o) e fd w = Fault \/ ends (main_init o (effective_levels o) e fd w).
Proof.
  intros Hf Hn Hfd. unfold main_init. destruct (e_network e); cbn [negb]; [|right; apply fail1_ends; by destruct Hf as (_ & ? & _)].
  destruct (process_arguments_spec o globals0 Hn eq_refl eq_refl) as (ok & g & E & Hp). rewrite E. cbn [mbind outcome_bind].
  destruct (password_acquired g w Hf) as (w1 & E1 & Hf1). rewrite E1. cbn [mbind outcome_bind]. clear Hf.
  set (w2 := set_auth (g_auth_info g) w1) in *.
  destruct ok; cbn [negb]; [|right; apply fail1_ends; by destruct Hf1 as (_ & ? & _)].
  destruct (e_reactor e); cbn [negb]; [|right; apply fail1_ends; by destruct Hf1 as (_ & ? & _)].
  take R_Reactor w3 E3 Hf3. destruct (e_signal e); cbn [negb]; [|right; apply fail2_ends; by destruct Hf3 as (_ & ? & _)].
  take R_Signal w4 E4 Hf4. left. unfold main_device. destruct (Z.leb_spec 0 fd); [lia|]. reflexivity.
Qed.

(** *** The levels of the channels *)

Lemma effective_length o : Zlen (loglevels o) = BLOG_NUM_CHANNELS -> length (effective_levels o) = 147%nat.
Proof.
  intros H. unfold effective_levels. rewrite length_zip_with. change (length (map snd blog_channel_list)) with 147%nat.
  unfold BLOG_NUM_CHANNELS in H. lia.
Qed.

Lemma set_level_ok w i l before d after : R_Log ∈ held w -> i = Zlen before -> i < BLOG_NUM_CHANNELS -> 0 <= l <= BLOG_DEBUG ->
  BLog_SetChannelLoglevel i l w (before ++ d :: after) = Ok (before ++ l :: after).
Proof.
  intros Hr -> Hi Hl. unfold BLog_SetChannelLoglevel. rewrite bool_decide_eq_true_2 by done.
  rewrite (proj2 (Z.ltb_lt _ _)) by done. rewrite !(proj2 (Z.leb_le _ _)) by lia. cbn [ASSERT andb mbind outcome_bind].
  rewrite Nat2Z.id, insert_app_r_alt, Nat.sub_diag by lia. done.
Qed.

(** The channels before [i] have their levels, those from [i] on the defaults. *)
Lemma channels_ok o w n : ranges o -> R_Log ∈ held w -> (n <= 147)%nat ->
  configure_channels n o w (take (147 - n) (effective_levels o) ++ drop (147 - n) (map snd blog_channel_list)) =
  Ok (effective_levels o).
Proof.
  intros (_ & Hg & Hlen & Hls & _) Hr. pose proof (effective_length o Hlen) as Heff.
  induction n as [|n IH]; intros Hn; cbn [configure_channels].
  { rewrite take_ge by lia. by rewrite app_nil_r. }
  set (i := (147 - S n)%nat). assert (Hi : (i < 147)%nat) by lia.
  replace (BLOG_NUM_CHANNELS - Z.of_nat (S n)) with (Z.of_nat i) by (unfold BLOG_NUM_CHANNELS; lia). rewrite Nat2Z.id.
  destruct (lookup_lt_is_Some_2 (loglevels o) i) as [l Hl]; [unfold BLOG_NUM_CHANNELS in Hlen; lia|].
  destruct (lookup_lt_is_Some_2 (map snd blog_channel_list) i) as [d Hd]; [exact Hi|].
  rewrite Hl. cbn [of_option mbind outcome_bind].
  pose proof (Forall_lookup_1 _ _ _ _ Hls Hl) as Hlo. unfold level_ok in *.
  rewrite (drop_S _ _ _ Hd).
  assert (Hx : effective_levels o !! i = Some (if 0 <=? l then l else if 0 <=? loglevel o then loglevel o else d)).
  { unfold effective_levels. by rewrite lookup_zip_with, Hl, Hd. }
  specialize (IH ltac:(lia)). replace (147 - n)%nat with (S i) in IH by lia. rewrite (take_S_r _ _ _ Hx), <- app_assoc in IH.
  cbn [app] in IH.
  assert (Hti : Z.of_nat i = Zlen (take i (effective_levels o))) by (rewrite length_take; lia).
  destruct (Z.leb_spec 0 l); [|destruct (Z.leb_spec 0 (loglevel o))];
    try (rewrite set_level_ok by (done || (unfold BLOG_NUM_CHANNELS; lia) || lia)); exact IH.
Qed.

(** *** main *)

(** Behind the arguments: neither help nor the version is asked for, and the
    log can be opened. *)
Definition started (o : options) (e : env) : Prop :=
  help o = false /\ version o = false /\ (logger o = LOGGER_SYSLOG -> e_syslog e = true).

(** What goes wrong: the name for the process does not fit over [argv[0]], or
    no value came over the socket and the variable that was never assigned has
    a value that is not a descriptor and not the sign of an error. *)
Definition undefined_start (argv : list (list Z)) (e : env) : Prop :=
  exists o, parse_arguments atoi_undefined argv = Some o /\
    (fake_proc o = true /\ Zlen (hd [] argv) < Zlen fake_name \/
     started o e /\ unassigned (e_wait e) /\ a_fd0 (e_wait e) < -1).

(** The device is the descriptor that was received, or the value of the variable
    that was never assigned. *)
Definition device_fd (a : wait_answers) (fd : Z) : Prop :=
  0 <= fd /\ (received a fd \/ unassigned a /\ fd = a_fd0 a).

(** The credentials in use: those of the options, or, with
    [--append-source-to-username], the name of the client that was accepted
    last. *)
Definition credentials (o : options) (l : list SocksClient.BSocksClient.auth_info) : Prop :=
  auth_of o l \/
  append_source_to_username o = true /\ exists user pass addr, username o = Some user /\ password_of o pass /\
    l = [SocksClient.BSocksClient.BSocksClient_auth_none;
         SocksClient.BSocksClient.BSocksClient_auth_password (user ++ [64] ++ addr) pass].

Lemma credentials_later o l l' : auth_of o l -> auth_later o l l' -> credentials o l'.
Proof.
  unfold credentials, accept_auth. intros Ho [->|[addr ->]]; [by left|]. unfold auth_of, accept_auth in *.
  destruct (username o) as [user|] eqn:Hu; [|by left]. destruct (append_source_to_username o); [|by left].
  destruct Ho as (pass & Hp & ->). right. split; [done|]. by exists user, pass, addr.
Qed.

(** What has become of the program. *)
Definition final (argv : list (list Z)) (e : env) (r : result) : Prop :=
  match r with
  | Return c w =>
      held w = [] /\ (c = 0 \/ c = 1) /\
      (c = 0 <-> exists o, parse_arguments atoi_undefined argv = Some o /\ (help o = true \/ version o = true))
  | Exit c w =>
      held w = [R_Log] /\ daemonize (e_daemon e) = Some c /\
      exists o, parse_arguments atoi_undefined argv = Some o /\ started o e /\ pid o <> None
  | Running levels g w =>
      exists o, parse_arguments atoi_undefined argv = Some o /\ started o e /\
        (exists fd, fst (wait_for_fd (e_wait e)) = fd /\ device_fd (e_wait e) fd) /\
        loop_inv (held_loop o g) w /\ quitting w = false /\ up o w /\ processed o g /\ levels = effective_levels o /\
        credentials o (auth w) /\
        (udpgw_remote_server_addr o <> None -> 0 <= snd (relay_mtus o (tun_mtu o)) <= PACKETPROTO_MAXPAYLOAD)
  end.

Lemma main_started_final argv e o w : fresh [R_Log] [] w -> parse_arguments atoi_undefined argv = Some o ->
  ranges o -> needed o -> started o e -> (forall fd, a_recv (e_wait e) = Some fd -> -1 <= fd) ->
  match main_started o e w with
  | Fault => unassigned (e_wait e) /\ a_fd0 (e_wait e) < -1
  | Ok r => final argv e r
  end.
Proof.
  intros Hf Ho Hr Hn Hs Hrecv. unfold main_started.
  pose proof (channels_ok o w 147 Hr) as Hc. rewrite Nat.sub_diag, !take_0, !drop_0 in Hc. cbn [app] in Hc.
  change (Z.to_nat BLOG_NUM_CHANNELS) with 147%nat.
  rewrite Hc by (try lia; destruct Hf as (_ & -> & _); by left). cbn [mbind outcome_bind].
  assert (Hno : ~ exists o0, parse_arguments atoi_undefined argv = Some o0 /\ (help o0 = true \/ version o0 = true)).
  { intros (o0 & E0 & H0). rewrite Ho in E0. injection E0 as <-. destruct Hs as (H1 & H2 & _). destruct H0; congruence. }
  assert (H1 : ends (fail1 globals0 w)) by (apply fail1_ends; by destruct Hf as (_ & ? & _)).
  pose proof (wait_for_fd_spec (e_wait e)) as Hw. set (fd := fst (wait_for_fd (e_wait e))) in *. cbn zeta.
  destruct (Z.eqb_spec fd (-1)) as [E1|E1].
  { destruct H1 as (c & w' & -> & Hh & ->). cbn [final]. split_and!; [done|by right|]. by split. }
  destruct Hw as [?|Hw]; [done|].
  destruct (decide (match (if is_set (pid o) then daemonize (e_daemon e) else None) with Some _ => true | None => false end = true)) as [Hd|Hd].
  { destruct (is_set (pid o)) eqn:Ep; [|done]. destruct (daemonize (e_daemon e)) as [code|] eqn:Ed; [|done].
    cbn [final]. split_and!; [by destruct Hf as (_ & ? & _)|done|]. exists o. split_and!; try done. by apply is_set_spec. }
  destruct (if is_set (pid o) then _ else None) as [?|] eqn:Ed; [done|]. clear Hd Ed.
  destruct (Z.ltb_spec fd 0) as [Hlt|Hge].
  - assert (Hu : unassigned (e_wait e) /\ a_fd0 (e_wait e) < -1).
    { destruct Hw as [[Hu Hv]|(_ & _ & _ & _ & _ & Hv)]; [split; [done|lia]|]. specialize (Hrecv _ Hv). lia. }
    destruct (main_init o (effective_levels o) e fd w) as [r|] eqn:Em; [|done].
    destruct (main_init_bad o e fd w Hf Hn Hlt) as [Hb|(c & w' & Hb & Hh & ->)]; rewrite Hb in Em; [done|].
    injection Em as <-. cbn [final]. split_and!; [done|by right|]. by split.
  - assert (H2 : settled o (main_init o (effective_levels o) e fd w)).
    { apply main_init_settled; try done. destruct Hr as (_ & _ & _ & _ & ? & _). lia. }
    destruct H2 as (r & -> & Hres). destruct r as [c w'|c w'|levels g w']; cbn [final].
    + destruct Hres as [Hh ->]. split_and!; [done|by right|]. by split.
    + done.
    + destruct Hres as (Hi & Hq & Hup & Hp & Hl & Ha & Hm). exists o. split; [done|]. split; [done|].
      split; [exists fd; split; [done|]; split; [done|]; tauto|].
      split; [done|]. split; [done|]. split; [done|]. split; [done|]. split; [done|]. split; [|done].
      eapply credentials_later; [|done]. by destruct Hp as (_ & _ & ? & _).
Qed.

Lemma main_named_final argv e o : parse_arguments atoi_undefined argv = Some o ->
  (forall fd, a_recv (e_wait e) = Some fd -> -1 <= fd) ->
  match main_named o e with
  | Fault => started o e /\ unassigned (e_wait e) /\ a_fd0 (e_wait e) < -1
  | Ok r => final argv e r
  end.
Proof.
  intros Ho Hrecv. destruct (parse_arguments_ok _ _ _ Ho) as [Hc Hr]. unfold main_named.
  destruct (help o) eqn:Eh.
  { cbn [final]. split_and!; [done|by left|]. split; [|done]. intros _. exists o. auto. }
  destruct (version o) eqn:Ev.
  { cbn [final]. split_and!; [done|by left|]. split; [|done]. intros _. exists o. auto. }
  assert (Hn : needed o) by (destruct Hc as [?|[?|?]]; [congruence..|done]).
  assert (Hgo : (logger o = LOGGER_SYSLOG -> e_syslog e = true) ->
    match acquire R_Log world0 ≫= main_started o e with
    | Fault => started o e /\ unassigned (e_wait e) /\ a_fd0 (e_wait e) < -1
    | Ok r => final argv e r
    end).
  { intros Hl. rewrite acquire_new by apply not_elem_of_nil. cbn [mbind outcome_bind].
    pose proof (main_started_final argv e o (set_held [R_Log] world0) ltac:(by split_and!) Ho Hr Hn (conj Eh (conj Ev Hl)) Hrecv) as H.
    cbn [held world0]. by destruct (main_started _ _ _). }
  destruct Hr as ([Hl|Hl] & _); rewrite Hl; cbn [Z.eqb Pos.eqb LOGGER_STDOUT LOGGER_SYSLOG].
  - apply Hgo. rewrite Hl. done.
  - destruct (e_syslog e) eqn:Es; [by apply Hgo|]. unfold fail0.
    cbn [final]. split_and!; [done|by right|]. split; [done|]. intros (o0 & E0 & H0). rewrite Ho in E0. injection E0 as <-.
    destruct H0; congruence.
Qed.


End Resolve.

(** A run of the application: the device is there, the timer expires five times,
    two clients come and one goes. *)
Definition demo_env (es : list event) : env :=
  mkEnv true (mkWait 0 None true true true true true (Some 7)) (D_Child true true) true true true true true true true
    (mkLwip true true true true true true true) es.
Definition demo_events : list event :=
  [E_Timer; E_Accept 1 (chars "10.0.0.1:1"); E_Timer; E_Timer; E_Accept 2 (chars "10.0.0.1:2"); E_Timer; E_ClientGone 1; E_Timer].
Definition demo_argv_append : list (list Z) :=
  demo_argv ++ map chars ["--username"; "u"; "--password"; "p"; "--append-source-to-username"]%string.
Definition demo_main (es : list event) : outcome result :=
  main (fun _ _ _ => Some [127; 0; 0; 1]) (fun _ => true) (fun n => replicate (Z.to_nat n) 0) (fun _ => None) (fun _ => 0)
    demo_argv_append (demo_env es).


End Startup.
